(* ===== verification/_CoqProject ===== *)
-Q . S2P
Prelude.v
RtList.v
KService.v
Align.v
Printf.v
Cyclic.v
Kernel.v
Scheduler.v
Object.v
TimerCore.v
Thread.v
Timer.v
Ipc.v
Mutex.v
Sleep.v
Event.v
Wait.v
Linked.v
Extend.v
Mailbox.v
MsgQueue.v
MemPool.v
Completion.v
Device.v
Serial.v
Gpio.v
Pin.v
Idle.v
Start.v
RingBuffer.v
RingBlock.v
Mem.v
Deferrable.v
Main.v
Io.v
Spi.v
W25q64.v
I2c.v
SoftI2c.v
I2cDev.v
Bmp280.v
Mpu6050.v
Float.v
Procedure.v
Buttons.v
DfsPath.v
Dfs.v
DfsPosix.v
Msh.v
MshRun.v
MshComplete.v
Shell.v
ShellEdit.v
