(* ===== verification/Prelude.v ===== *)
(** * A verification of the OSES project: a sensor logger on RT-Thread

    The program is a logger for an STM32H7 board: a producer thread reads an accelerometer and
    a pressure sensor, periodic and button-triggered tasks keep the readings in a flash chip,
    and a deferrable server runs the aperiodic tasks (src/applications, src/peripherals).  It
    runs on the RT-Thread kernel in the repository (src/rt-thread/src), with RT-Thread's
    I2C, SPI, serial, pin and IPC drivers (src/rt-thread/components/drivers), in the configuration
    of src/rtconfig.h: one core, 32 priorities, a tick of 1 ms, the small-memory heap.

    ** Files, from the bottom up (kernel paths are under src/rt-thread/src)

    - Prelude: machine words ([u8], [u16], [u32], [i16], [i32] wrap as the C types do), the monad
      [M], its weakest preconditions [wp], step sequences [steps] and the lemma [simulation].
    - RtList: include/rtservice.h.  [Ring] is the C code on pointers, [Space] the ordered lists the
      kernel files use; [repr] and its lemmas are the refinement between them.
    - KService, Printf: kservice.c, the memory and string functions, and formatted output with the
      console.  Align: aligned allocation and copies of strings.  Cyclic: copying round the end of
      a buffer, shared by RingBuffer and Mailbox.
    - Kernel: the structures of rtdef.h and the kernel's variables as one record [kstate].
    - Scheduler (scheduler.c), Object (object.c), TimerCore and Timer (timer.c), Thread (thread.c),
      Sleep (clock.c and the delays of thread.c), Idle (idle.c, irq.c), Start (components.c, and
      that creating objects and threads keeps the invariant).
    - Ipc, Mutex, Event, Mailbox, MsgQueue: ipc.c, with the waiting they share in Ipc and Wait.
    - Mem (mem.c) and MemPool (mempool.c); Linked: lists threaded through the blocks themselves.
    - Extend: a component with tables of its own beside [kstate]; Mailbox to Device are such.
    - Device (device.c), Completion, RingBuffer and RingBlock (components/drivers/src), I2c and Spi
      (components/drivers/i2c and spi, drivers/drv_spi.c) over the environment of Io; Serial
      (components/drivers/serial) over the operations of a UART, an instance of Device's driver.
    - Gpio: the GPIO driver of the vendor (libraries/STM32H7xx_HAL_Driver) on the registers of the
      ports; Pin: drivers/drv_gpio.c and components/drivers/misc/pin.c on it; Buttons: the pins of
      main.c, from the press of a button through Pin and Device to the server's queue; SoftI2c:
      drivers/drv_soft_i2c.c, the two lines of I2c on Pin, and the delay between their changes.
    - DfsPath, Dfs, DfsPosix: the device file system (components/dfs/src): paths, then descriptors,
      mounting and files (dfs.c, dfs_fs.c, dfs_file.c) over file systems given by their functions,
      then the POSIX calls (dfs_posix.c).
    - W25q64, Bmp280, Mpu6050 (src/peripherals), the last two against the interfaces of I2cDev;
      Deferrable and Procedure (src/applications), the second against its [Board] interface;
      Main (src/applications/main.c): what it does with the kernel.
      Float: C's floating-point numbers, for the square root of procedure.c.
    - Msh, MshRun, MshComplete, Shell, ShellEdit (components/finsh: msh.c, msh_file.c, shell.c):
      command lines, running and completing them, the line editor and its refinement.

    ** How the code is modelled

    A C function is a definition of the same name in the monad [M S]: from a state to a result and a
    state, or a fault.  A fault is what C leaves undefined or what stops the system: a failed
    RT_ASSERT, a null or dangling pointer, an index out of range, a loop that is out of fuel.  So
    [wp f Q s] says that [f] does not fault from [s] and ends in [Q].  Objects are named by
    identifiers and not by addresses ([objid], [tid]); a list head ([lhead]) denotes the sequence
    on its ring.  Code between rt_hw_interrupt_disable and enable is one step.  Where interrupts
    are on in the middle of a function, or the calling thread sleeps in it, the function is cut
    there: a call ends in [Returned r] or in [Waiting t l], and the rest is a definition of its
    own (.._resumed, or a piece such as [mq_append]).  Refinement theorems let these pieces, the
    expiry of timeouts ([..timeout]) and any other step of the kernel ([..env]) interleave at will.
    rt_schedule changes [k_current]; a thread that is not current does not run.
    The results of rt_malloc in the object-creating calls are arguments.  The calls of Mem begin
    where they hold heap_sem, keep headers apart from data bytes, and assume sizes and offsets
    below 2^32.  Signed arithmetic of int wraps where the source relies on it (the tick), and is
    written out exactly elsewhere.  Formats and strings of Printf are in memory that the output
    does not overlap.
    In the shell a line is a buffer of its own and a pointer into it an offset; what is printed
    and called is a list of events, and a terminal is a function of them.  The commands, the
    files and the directories are parameters; finsh_key is one turn of the loop of
    finsh_thread_entry, for a character that the console has received.

    ** Fuel

    Loops that are not structural take fuel; each theorem states the fuel that is enough: for
    the heap one more than the number of blocks, for the lists of waiting, deleted and queued
    one more than their length, for the timer check as many turns as there are timers due (the
    periodic ones restarted included), for formats their length, for the digits of a number 17,
    for command lines one more than their length, for scripts one more than the file's, for the
    receive interrupt one more than the characters the UART has pending, for the pins of a port
    33 (a turn for each of 32 positions and the last test), for the lists of blocks one more than
    the blocks ([turns]), for a delay twice its cycles and two, for a path one more than its bytes,
    for the table of descriptors one more than its entries.
    The
    depth of msh_exec counts scripts that run scripts.

    ** What the theorems show

    - Scheduler, threads, timers: the ready queues, their bitmap and the threads' states stay
      consistent ([kinv], [ipc_inv]); rt_schedule runs a most urgent thread; suspension,
      resumption, timeout, priority changes and deletion on every branch; the tick misses
      no timer, also when it wraps.
    - Semaphores, mutexes, mailboxes, message queues, memory pools, completions, devices, ring
      buffers, rings of blocks: refinement of an abstract counter, lock, queue, free list, flag,
      use count.  Events:
      a send wakes exactly the threads whose wish is fulfilled.
    - Heap: allocations are aligned, disjoint and inside the heap; releasing joins neighbours;
      allocation and release are inverse; reallocation keeps the data.
    - Start: booting ends with the invariant, the timer thread running, main and idle ready; main
      ends in the states that the theorems on the server, the locks and the producer start from.
    - Shell: a command gets the words of its line; a script runs its lines; completion is the
      longest common prefix; the buffer and its positions are a text with a cursor and a history,
      and the terminal shows it, as long as no line reaches 80 characters.
    - Library functions: word-wise copying is byte-wise copying; formatted output stays in its
      buffer; printed numbers read back; aligned areas are aligned and inside of what was allocated.
    - Buses and chips: the exact traces on the wires for lists of messages, errors included, the
      locks taken and given back once; the commands the flash chip sees; the configuration
      fields of the sensor.  The software I2C bus carries its messages on two lines of a port.
    - Files: the normal form of a path made in place is that of the list of names, inside of the
      buffer; a file is opened in the file system with the longest mount point above it; mounting
      and unmounting are inverse; descriptors are counted uses of files, and between POSIX calls a set.
    - Serial device: what is read are the last characters received that the buffer holds, in order
      and once; it keeps what Device asks of a driver.  Pins: a set-up changes the fields of its
      own pins and no others; each interrupt line has at most one handler, and an interrupt calls
      that of its line; a press of the button queues the task of main.c.
    - Application: the deferrable server serves in order; what the raw task stores is read
      back; a round of the producer fills its arrays.
    - Defects: the theorems named in the manifest's findings show them at concrete states.

    ** Not modelled

    - Hooks, statistics printed for the shell, SMP and signals: not configured, or output only.
    - Stacks and the context switch: assembly; the switch is the change of [k_current].
    - HAL and CMSIS apart from the GPIO driver, the set-up of the clocks, the port driver of the
      UARTs, the registration of the I2C bus (src/drivers, src/libraries): vendor code and registers whose
      behaviour is the chip's; what the drivers use of it are parameters with named properties
      (what a write to BSRR or PR1 does is one: [chip_writes_ok] in Pin).
    - The temperature and pressure compensation of BMP280.c and XenoJetBench.c: floating-point
      formulas whose results are printed; of main.c the set-up of the sensors.
    - rt_components_init of components.c, which calls what the linker collected; memheap.c, slab.c,
      cpu.c, signal.c of the kernel: not compiled.
    - The commands of the shell, the choice of its console and the wait for characters; the file
      systems themselves, of which that of the devices is the only one mounted, and polling; the DMA
      side of the serial device, which is not configured; the network, which is not compiled. *)

From stdpp Require Export base gmap list numbers option fin_maps functions sorting.
From Stdlib Require Export ZArith Lia.

#[global] Open Scope Z_scope.
Declare Scope rt_scope.
Delimit Scope rt_scope with rt.

Lemma removelast_snoc {A} (l : list A) x : removelast (l ++ [x]) = l.
Proof. apply removelast_last. Qed.

(** ** Machine words *)

(** [wrap w x]: [x] stored in an unsigned [w]-bit object. *)
Definition wrap (w x : Z) : Z := x mod 2 ^ w.

(** [swrap w x]: [x] stored in a two's-complement signed [w]-bit object. *)
Definition swrap (w x : Z) : Z :=
  let y := x mod 2 ^ w in if y <? 2 ^ (w - 1) then y else y - 2 ^ w.

Abbreviation u8 := (wrap 8).
Abbreviation u16 := (wrap 16).
Abbreviation u32 := (wrap 32).
Abbreviation i16 := (swrap 16).
Abbreviation i32 := (swrap 32).

Lemma wrap_range w x : 0 <= w -> 0 <= wrap w x < 2 ^ w.
Proof. intros. unfold wrap. apply Z.mod_pos_bound. lia. Qed.

Lemma wrap_small w x : 0 <= x < 2 ^ w -> wrap w x = x.
Proof. intros. unfold wrap. by apply Z.mod_small. Qed.

Lemma wrap_wrap w x : wrap w (wrap w x) = wrap w x.
Proof. unfold wrap. apply Zmod_mod. Qed.

Lemma swrap_range w x : 0 < w -> - 2 ^ (w - 1) <= swrap w x < 2 ^ (w - 1).
Proof.
  intros Hw. unfold swrap.
  pose proof (Z.mod_pos_bound x (2 ^ w) ltac:(lia)).
  assert (2 ^ w = 2 * 2 ^ (w - 1)) by (rewrite <- Z.pow_succ_r by lia; f_equal; lia).
  destruct (Z.ltb_spec (x mod 2 ^ w) (2 ^ (w - 1))); lia.
Qed.

Lemma swrap_small w x : 0 < w -> - 2 ^ (w - 1) <= x < 2 ^ (w - 1) -> swrap w x = x.
Proof.
  intros Hw Hx. unfold swrap.
  assert (Hp : 2 ^ w = 2 * 2 ^ (w - 1)) by (rewrite <- Z.pow_succ_r by lia; f_equal; lia).
  destruct (decide (0 <= x)).
  - rewrite Z.mod_small by lia. destruct (Z.ltb_spec x (2 ^ (w - 1))); lia.
  - assert (x mod 2 ^ w = x + 2 ^ w) as ->.
    { symmetry. apply Z.mod_unique with (-1); lia. }
    destruct (Z.ltb_spec (x + 2 ^ w) (2 ^ (w - 1))); lia.
Qed.

(** ** Ranges by bits *)

Lemma bound_bits n x i : 0 <= n -> 0 <= x < 2 ^ n -> n <= i -> Z.testbit x i = false.
Proof.
  intros Hn Hx Hi. rewrite <- (Z.mod_small x (2 ^ n)) by done. by apply Z.mod_pow2_bits_high.
Qed.

Lemma bits_bound n x :
  0 <= n -> (forall i, n <= i -> Z.testbit x i = false) -> 0 <= x < 2 ^ n.
Proof.
  intros Hn Hb. assert (x = x mod 2 ^ n) as ->; [|by apply (wrap_range n)].
  apply Z.bits_inj'. intros i Hi. destruct (decide (n <= i)).
  - rewrite Z.mod_pow2_bits_high by done. by apply Hb.
  - rewrite Z.mod_pow2_bits_low by lia. done.
Qed.

Lemma land_bound n a b : 0 <= n -> 0 <= a < 2 ^ n -> 0 <= Z.land a b < 2 ^ n.
Proof.
  intros Hn Ha. apply bits_bound; [done|]. intros i Hi.
  rewrite Z.land_spec, (bound_bits n a) by done. done.
Qed.

Lemma lor_bound n a b : 0 <= n -> 0 <= a < 2 ^ n -> 0 <= b < 2 ^ n -> 0 <= Z.lor a b < 2 ^ n.
Proof.
  intros Hn Ha Hb. apply bits_bound; [done|]. intros i Hi.
  rewrite Z.lor_spec, (bound_bits n a), (bound_bits n b) by done. done.
Qed.

Lemma pow2_bound n p : 0 <= p < n -> 0 <= 2 ^ p < 2 ^ n.
Proof. intros. pose proof (Z.pow_pos_nonneg 2 p). pose proof (Z.pow_lt_mono_r 2 p n). lia. Qed.

Lemma pow2_testbit p q : 0 <= p -> Z.testbit (2 ^ p) q = bool_decide (p = q).
Proof.
  intros. rewrite Z.pow2_bits_eqb by done. case_bool_decide; [by apply Z.eqb_eq|by apply Z.eqb_neq].
Qed.

(** Testing, clearing and setting one flag. *)
Lemma land_pow2 f k : 0 <= k -> (Z.land f (2 ^ k) =? 0) = negb (Z.testbit f k).
Proof.
  intros Hk. destruct (Z.testbit f k) eqn:E; simpl.
  - apply Z.eqb_neq. intros H. apply (f_equal (fun x => Z.testbit x k)) in H.
    rewrite Z.land_spec, E, pow2_testbit, bool_decide_eq_true_2, Z.bits_0 in H by done. done.
  - apply Z.eqb_eq. apply Z.bits_inj'. intros i Hi.
    rewrite Z.land_spec, pow2_testbit, Z.bits_0 by done.
    case_bool_decide; [|by rewrite andb_false_r]. subst. by rewrite E.
Qed.
Lemma testbit_clear f k i : 0 <= k -> 0 <= i ->
  Z.testbit (Z.land f (Z.lnot (2 ^ k))) i = Z.testbit f i && bool_decide (k ≠ i).
Proof.
  intros. rewrite Z.land_spec, Z.lnot_spec, pow2_testbit by done. f_equal.
  by repeat case_bool_decide.
Qed.
Lemma testbit_set f k i : 0 <= k ->
  Z.testbit (Z.lor f (2 ^ k)) i = Z.testbit f i || bool_decide (k = i).
Proof. intros. by rewrite Z.lor_spec, pow2_testbit by done. Qed.

(** [RT_ALIGN] and [RT_ALIGN_DOWN] of rtdef.h at the configured [RT_ALIGN_SIZE]. *)
Definition RT_ALIGN_SIZE : Z := 4.
Definition RT_ALIGN (size align : Z) : Z := u32 (Z.land (size + align - 1) (Z.lnot (align - 1))).
Definition RT_ALIGN_DOWN (size align : Z) : Z := Z.land size (Z.lnot (align - 1)).

(** ** Stateful code that can fault

    [M S A] is a computation on state [S]: [None] stands for a fault, i.e. an
    [RT_ASSERT] that fires (its handler never returns) or a dereference of a
    pointer to no object. *)
Definition M (S A : Type) : Type := S -> option (A * S).

Section monad.
Context {S : Type}.

#[global] Instance M_ret : MRet (M S) := fun A a s => Some (a, s).
#[global] Instance M_bind : MBind (M S) := fun A B f m s =>
  match m s with Some (a, s') => f a s' | None => None end.

Definition fault {A} : M S A := fun _ => None.
Definition gets {A} (f : S -> A) : M S A := fun s => Some (f s, s).
Definition modify (f : S -> S) : M S unit := fun s => Some (tt, f s).
Definition rt_assert (b : bool) : M S unit := fun s => if b then Some (tt, s) else None.
Definition deref {A} (f : S -> option A) : M S A := fun s =>
  match f s with Some a => Some (a, s) | None => None end.
Definition when (b : bool) (m : M S unit) : M S unit := if b then m else mret tt.

(** Total correctness: [m] does not fault from [s] and ends in [Q]. *)
Definition wp {A} (m : M S A) (Q : A -> S -> Prop) (s : S) : Prop :=
  match m s with Some (a, s') => Q a s' | None => False end.

Lemma wp_unfold {A} (m : M S A) (Q : A -> S -> Prop) s :
  wp m Q s <-> exists a s', m s = Some (a, s') /\ Q a s'.
Proof.
  unfold wp. destruct (m s) as [[a s']|]; split.
  - eauto.
  - intros (? & ? & [= <- <-] & ?). done.
  - done.
  - intros (? & ? & ? & ?). done.
Qed.

Lemma wp_ret {A} (a : A) Q s : wp (mret a) Q s = Q a s.
Proof. done. Qed.
Lemma wp_bind {A B} (m : M S A) (f : A -> M S B) Q s :
  wp (mbind f m) Q s = wp m (fun a s' => wp (f a) Q s') s.
Proof. unfold wp, mbind, M_bind. destruct (m s) as [[a s']|]; done. Qed.
Lemma wp_gets {A} (f : S -> A) Q s : wp (gets f) Q s = Q (f s) s.
Proof. done. Qed.
Lemma wp_modify f Q s : wp (modify f) Q s = Q tt (f s).
Proof. done. Qed.
Lemma wp_assert b (Q : unit -> S -> Prop) s : b = true -> Q tt s -> wp (rt_assert b) Q s.
Proof. intros ->. done. Qed.
Lemma wp_deref {A} (f : S -> option A) a (Q : A -> S -> Prop) s :
  f s = Some a -> Q a s -> wp (deref f) Q s.
Proof. unfold wp, deref. intros ->. done. Qed.
Lemma wp_mono {A} (m : M S A) (P Q : A -> S -> Prop) s :
  (forall a s', P a s' -> Q a s') -> wp m P s -> wp m Q s.
Proof. unfold wp. destruct (m s) as [[a s']|]; eauto. Qed.
Lemma wp_result {A} (m : M S A) (Q : A -> S -> Prop) s a s' : wp m Q s -> m s = Some (a, s') -> Q a s'.
Proof. unfold wp. intros HQ E. by rewrite E in HQ. Qed.
Lemma bind_some {A B} (m : M S A) (f : A -> M S B) s a s' : m s = Some (a, s') -> mbind f m s = f a s'.
Proof. intros E. unfold mbind, M_bind. by rewrite E. Qed.
Lemma wp_is_some {A} (m : M S A) Q s : wp m Q s -> is_Some (m s).
Proof. unfold wp. by destruct (m s); [eexists|]. Qed.
(** The state after a call that returns, for running samples. *)
Definition after {A} (m : M S A) (s : S) : S := match m s with Some (_, s') => s' | None => s end.
Lemma after_some {A} (m : M S A) s a : fst <$> m s = Some a -> m s = Some (a, after m s).
Proof. unfold after. destruct (m s) as [[b s']|]; [|done]. by intros [= ->]. Qed.
Lemma wp_if {A} (b : bool) (m1 m2 : M S A) Q s :
  (b = true -> wp m1 Q s) -> (b = false -> wp m2 Q s) -> wp (if b then m1 else m2) Q s.
Proof. destruct b; auto. Qed.
Lemma wp_when (b : bool) (m : M S unit) (Q : unit -> S -> Prop) s :
  (b = true -> wp m Q s) -> (b = false -> Q tt s) -> wp (when b m) Q s.
Proof. destruct b; intros H1 H2; [exact (H1 eq_refl) | exact (H2 eq_refl)]. Qed.
Lemma wp_and {A} (m : M S A) (P Q : A -> S -> Prop) s :
  wp m P s -> wp m Q s -> wp m (fun a s' => P a s' /\ Q a s') s.
Proof. unfold wp. destruct (m s) as [[a s']|]; auto. Qed.
End monad.

(** ** Loops

    [while fuel c b x] iterates [b], which may fault, as long as [c] holds; [None] also
    when the fuel runs out.  [while_rule] bounds the fuel by a measure, so that a
    theorem proved with it states that the loop ends. *)
Fixpoint while {A} (fuel : nat) (c : A -> bool) (b : A -> option A) (x : A) : option A :=
  match fuel with
  | O => None
  | S fuel => if c x then match b x with Some y => while fuel c b y | None => None end else Some x
  end.

Lemma while_rule {A} (I : A -> Prop) (mu : A -> nat) c b :
  (forall x, I x -> c x = true -> exists y, b x = Some y /\ I y /\ (mu y < mu x)%nat) ->
  forall fuel x, I x -> (mu x < fuel)%nat ->
  exists y, while fuel c b x = Some y /\ I y /\ c y = false.
Proof.
  intros Hb fuel. induction fuel as [|fuel IH]; intros x Hx Hf; [lia|]. simpl.
  destruct (c x) eqn:Ec; [|by exists x].
  destruct (Hb x Hx Ec) as (y & -> & Hy & Hlt). apply IH; [done|lia].
Qed.

(** ** Runs and simulation *)

(** The runs of a labelled transition system. *)
Inductive steps {A L} (step : A -> L -> A -> Prop) : A -> list L -> A -> Prop :=
  | steps_nil a : steps step a [] a
  | steps_cons a l a1 tr a' : step a l a1 -> steps step a1 tr a' -> steps step a (l :: tr) a'.

(** A forward simulation carries over from steps to runs. *)
Lemma simulation {A B L} (step : A -> L -> A -> Prop) (spec : B -> L -> B -> Prop)
    (abs : A -> B) (ok : A -> Prop) :
  (forall s l s', ok s -> step s l s' -> spec (abs s) l (abs s') /\ ok s') ->
  forall s tr s', ok s -> steps step s tr s' -> steps spec (abs s) tr (abs s') /\ ok s'.
Proof.
  intros Hsim s tr s' Hok Hrun. induction Hrun as [s|s l s1 tr s' Hstep _ IH]; [split; [constructor|done]|].
  destruct (Hsim s l s1 Hok Hstep) as [H1 H2]. destruct (IH H2) as [H3 H4]. split; [by econstructor|done].
Qed.

(** The same for a relation between the states. *)
Lemma simulation_rel {A B L} (step : A -> L -> A -> Prop) (spec : B -> L -> B -> Prop) (R : A -> B -> Prop) :
  (forall s l s' b, R s b -> step s l s' -> exists b', spec b l b' /\ R s' b') ->
  forall s tr s' b, R s b -> steps step s tr s' -> exists b', steps spec b tr b' /\ R s' b'.
Proof.
  intros Hsim s tr s' b HR Hrun. revert b HR. induction Hrun as [s|s l s1 tr s' Hstep _ IH]; intros b HR; [by exists b; split; [constructor|]|].
  destruct (Hsim s l s1 b HR Hstep) as (b1 & H1 & HR1). destruct (IH b1 HR1) as (b' & H2 & HR'). exists b'. split; [by econstructor|done].
Qed.

#[global] Hint Mode MRet ! : typeclass_instances.

(** One symbolic step of straight-line code. *)
Ltac wp_step :=
  lazymatch goal with
  | |- wp (mbind _ _) _ _ => rewrite wp_bind; cbn beta
  | |- wp (mret _) _ _ => rewrite wp_ret; cbn beta
  | |- wp (gets _) _ _ => rewrite wp_gets; cbn beta
  | |- wp (modify _) _ _ => rewrite wp_modify; cbn beta
  | |- wp (rt_assert _) _ _ => apply wp_assert; [|]
  | |- wp (deref _) _ _ => eapply wp_deref; [|]
  | |- wp (if _ then _ else _) _ _ => apply wp_if; intros ?
  | |- wp (when _ _) _ _ => apply wp_when; intros ?
  end.

(** Membership in explicit lists, without the generality of [set_solver]. *)
Ltac mem :=
  repeat match goal with
         | |- _ ≠ _ => intros ?; subst
         | |- _ ∉ _ => intros ?
         end;
  repeat match goal with
         | H : _ ∈ _ |- _ =>
             progress repeat progress rewrite ?elem_of_app, ?elem_of_cons, ?elem_of_nil in H
         | H : _ ∉ _ |- _ =>
             progress repeat progress rewrite ?elem_of_app, ?elem_of_cons, ?elem_of_nil in H
         end;
  repeat progress rewrite ?elem_of_app, ?elem_of_cons, ?elem_of_nil;
  first [tauto | intuition congruence].
