(* ===== verification/RtList.v ===== *)
(** * RtList: the intrusive doubly linked lists of rt-thread/include/rtservice.h

    [Ring] is the pointer-level code: memory is a total map from node addresses
    to [rt_list_t] cells and every function performs the assignments of its C
    body in order.  [Space] is the level the kernel model uses: a list head
    denotes the sequence of nodes on its ring.  [repr] relates the two and the
    [repr_*] lemmas are the functional refinements, operation by operation. *)

From S2P Require Import Prelude.

Module Ring.

Abbreviation loc := positive.

Record rt_list_t := Node { next : loc; prev : loc }.
Abbreviation heap := (loc -> rt_list_t).

Definition set_next (l v : loc) (h : heap) : heap := <[l := Node v (prev (h l))]> h.
Definition set_prev (l v : loc) (h : heap) : heap := <[l := Node (next (h l)) v]> h.

Definition rt_list_init (l : loc) (h : heap) : heap := set_next l l (set_prev l l h).

Definition rt_list_insert_after (l n : loc) (h : heap) : heap :=
  let h := set_prev (next (h l)) n h in
  let h := set_next n (next (h l)) h in
  let h := set_next l n h in
  set_prev n l h.

Definition rt_list_insert_before (l n : loc) (h : heap) : heap :=
  let h := set_next (prev (h l)) n h in
  let h := set_prev n (prev (h l)) h in
  let h := set_prev l n h in
  set_next n l h.

Definition rt_list_remove (n : loc) (h : heap) : heap :=
  let h := set_prev (next (h n)) (prev (h n)) h in
  let h := set_next (prev (h n)) (next (h n)) h in
  let h := set_prev n n h in
  set_next n (prev (h n)) h.

Definition rt_list_isempty (l : loc) (h : heap) : bool := bool_decide (next (h l) = l).

(** The loop of [rt_list_len]: [None] when the fuel runs out. *)
Fixpoint rt_list_len_loop (fuel : nat) (l p : loc) (len : Z) (h : heap) : option Z :=
  match fuel with
  | O => None
  | S fuel => if bool_decide (next (h p) = l) then Some len
              else rt_list_len_loop fuel l (next (h p)) (u32 (len + 1)) h
  end.
Definition rt_list_len (fuel : nat) (l : loc) (h : heap) : option Z :=
  rt_list_len_loop fuel l l 0 h.

(** ** What a well-formed ring is *)

Definition links (h : heap) (a b : loc) : Prop := next (h a) = b /\ prev (h b) = a.

Fixpoint chain (h : heap) (a : loc) (l : list loc) (b : loc) : Prop :=
  match l with
  | [] => links h a b
  | x :: l => links h a x /\ chain h x l b
  end.

(** The ring through [hd] visits exactly the nodes [l], in order. *)
Definition ring (h : heap) (hd : loc) (l : list loc) : Prop :=
  chain h hd l hd /\ NoDup (hd :: l).

Lemma next_set_next l v h y : next (set_next l v h y) = if decide (l = y) then v else next (h y).
Proof. unfold set_next, insert, fn_insert. case_decide; by subst. Qed.
Lemma prev_set_next l v h y : prev (set_next l v h y) = prev (h y).
Proof. unfold set_next, insert, fn_insert. case_decide; by subst. Qed.
Lemma prev_set_prev l v h y : prev (set_prev l v h y) = if decide (l = y) then v else prev (h y).
Proof. unfold set_prev, insert, fn_insert. case_decide; by subst. Qed.
Lemma next_set_prev l v h y : next (set_prev l v h y) = next (h y).
Proof. unfold set_prev, insert, fn_insert. case_decide; by subst. Qed.

#[local] Ltac cells :=
  repeat first [ rewrite next_set_next | rewrite prev_set_next
               | rewrite prev_set_prev | rewrite next_set_prev ];
  repeat match goal with
         | |- context [decide ?P] =>
             lazymatch P with
             | context [decide _] => fail
             | _ => let E := fresh in destruct (decide P) as [E|E]
             end
         end;
  try congruence.

Lemma chain_app h a l1 x l2 b :
  chain h a (l1 ++ x :: l2) b <-> chain h a l1 x /\ chain h x l2 b.
Proof. revert a. induction l1 as [|y l1 IH]; intros a; simpl; [done|]. rewrite IH. tauto. Qed.

Lemma chain_frame h h' a l b :
  (forall y, y ∈ a :: l -> next (h' y) = next (h y)) ->
  (forall y, y ∈ l ++ [b] -> prev (h' y) = prev (h y)) ->
  chain h a l b -> chain h' a l b.
Proof.
  revert a. induction l as [|x l IH]; intros a Hn Hp; simpl.
  - intros [E1 E2]. split; [rewrite Hn | rewrite Hp]; set_solver.
  - intros [[E1 E2] Hc]. split.
    + split; [rewrite Hn | rewrite Hp]; set_solver.
    + apply IH; set_solver.
Qed.

(** The cells after an insertion between two neighbours. *)
Lemma insert_before_cells h l n a y :
  prev (h l) = a -> n ≠ l -> n ≠ a ->
  next (rt_list_insert_before l n h y) =
    (if decide (y = n) then l else if decide (y = a) then n else next (h y)) /\
  prev (rt_list_insert_before l n h y) =
    (if decide (y = n) then a else if decide (y = l) then n else prev (h y)).
Proof. intros <- ??. unfold rt_list_insert_before. split; cells. Qed.

Lemma insert_after_cells h l n b y :
  next (h l) = b -> n ≠ l -> n ≠ b ->
  next (rt_list_insert_after l n h y) =
    (if decide (y = n) then b else if decide (y = l) then n else next (h y)) /\
  prev (rt_list_insert_after l n h y) =
    (if decide (y = n) then l else if decide (y = b) then n else prev (h y)).
Proof. intros <- ??. unfold rt_list_insert_after. split; cells. Qed.

Lemma remove_cells h n a b y :
  prev (h n) = a -> next (h n) = b -> a ≠ n -> b ≠ n ->
  next (rt_list_remove n h y) =
    (if decide (y = n) then n else if decide (y = a) then b else next (h y)) /\
  prev (rt_list_remove n h y) =
    (if decide (y = n) then n else if decide (y = b) then a else prev (h y)).
Proof. intros <- <- ??. unfold rt_list_remove. split; cells. Qed.

Lemma remove_self_cells h n y :
  prev (h n) = n -> next (h n) = n ->
  next (rt_list_remove n h y) = next (h y) /\ prev (rt_list_remove n h y) = prev (h y).
Proof. intros E1 E2. unfold rt_list_remove. split; cells. Qed.

(** ** Insertion and removal on a chain *)

Lemma last_cons (x w : loc) l : List.last (w :: l) x = List.last l w.
Proof.
  revert x w. induction l as [|z l IH]; intros x w; [done|].
  change (List.last (w :: z :: l) x) with (List.last (z :: l) x). by rewrite !IH.
Qed.

Lemma last_in (x : loc) l : List.last l x ∈ x :: l.
Proof.
  revert x. induction l as [|w l IH]; intros x; [set_solver|].
  rewrite last_cons. specialize (IH w). set_solver.
Qed.

Lemma hd_in (y : loc) l : List.hd y l ∈ l ++ [y].
Proof. destruct l; set_solver. Qed.

Section edit.
Context (h h' : heap) (n : loc).

Lemma chain_insert x l1 l2 y :
  let a := List.last l1 x in let b := List.hd y l2 in
  NoDup (x :: l1 ++ l2) -> NoDup ((l1 ++ l2) ++ [y]) ->
  (forall z, z ∈ x :: l1 ++ l2 -> next (h' z) = if decide (z = a) then n else next (h z)) ->
  (forall z, z ∈ (l1 ++ l2) ++ [y] -> prev (h' z) = if decide (z = b) then n else prev (h z)) ->
  next (h' n) = b -> prev (h' n) = a ->
  chain h x (l1 ++ l2) y -> chain h' x (l1 ++ n :: l2) y.
Proof.
  revert x. induction l1 as [|w l1 IH]; intros x a b Hd1 Hd2 Hn Hp En Ep; simpl.
  - subst a b. simpl in *. intros Hc.
    assert (links h' x n) as Hx.
    { split; [|done]. rewrite Hn by mem. by rewrite decide_True. }
    split; [done|]. destruct l2 as [|z l2]; simpl in *.
    + split; [done|]. rewrite Hp by mem. by rewrite decide_True.
    + destruct Hc as [Hxz Hc]. split.
      * split; [done|]. rewrite Hp by mem. by rewrite decide_True.
      * apply NoDup_cons in Hd1 as [Hx1 Hd1]. apply NoDup_cons in Hd2 as [Hx2 Hd2].
        eapply chain_frame; [| |exact Hc].
        -- intros u Hu. rewrite Hn by mem. rewrite decide_False; [done|]. mem.
        -- intros u Hu. rewrite Hp by mem. rewrite decide_False; [done|]. mem.
  - intros [[E1 E2] Hc]. subst a b. rewrite last_cons in *.
    change (NoDup (w :: (l1 ++ l2) ++ [y])) in Hd2.
    apply NoDup_cons in Hd1 as [Hx1 Hd1]. apply NoDup_cons in Hd2 as [Hx2 Hd2].
    pose proof (last_in w l1) as Hl. pose proof (hd_in y l2) as Hh.
    split.
    + split.
      * rewrite Hn by mem. rewrite decide_False; [done|]. clear E1 E2. mem.
      * rewrite Hp by mem. rewrite decide_False; [done|]. clear E1 E2. mem.
    + apply IH; try done.
      * intros z Hz. apply Hn. mem.
      * intros z Hz. apply Hp. mem.
Qed.

Lemma chain_remove x l1 l2 y :
  let a := List.last l1 x in let b := List.hd y l2 in
  NoDup (x :: l1 ++ n :: l2) -> NoDup ((l1 ++ n :: l2) ++ [y]) ->
  (forall z, z ∈ x :: l1 ++ l2 -> next (h' z) = if decide (z = a) then b else next (h z)) ->
  (forall z, z ∈ (l1 ++ l2) ++ [y] -> prev (h' z) = if decide (z = b) then a else prev (h z)) ->
  chain h x (l1 ++ n :: l2) y -> chain h' x (l1 ++ l2) y.
Proof.
  revert x. induction l1 as [|w l1 IH]; intros x a b Hd1 Hd2 Hn Hp; simpl.
  - subst a b. simpl in *. intros [Hx Hc].
    apply NoDup_cons in Hd1 as [Hx1 Hd1]. apply NoDup_cons in Hd2 as [Hx2 Hd2].
    destruct l2 as [|z l2]; simpl in *.
    + split; [rewrite Hn by mem | rewrite Hp by mem]; by rewrite decide_True.
    + destruct Hc as [Hnz Hc]. apply NoDup_cons in Hd1 as [Hn1 Hd1].
      apply NoDup_cons in Hd2 as [Hn2 Hd2]. apply NoDup_cons in Hd1 as [Hz1 Hd1].
      split.
      * split; [rewrite Hn by mem | rewrite Hp by mem]; by rewrite decide_True.
      * eapply chain_frame; [| |exact Hc].
        -- intros u Hu. rewrite Hn by mem. rewrite decide_False; [done|]. mem.
        -- intros u Hu. rewrite Hp by mem. rewrite decide_False; [done|]. mem.
  - intros [[E1 E2] Hc]. subst a b. rewrite last_cons in *.
    change (NoDup (w :: (l1 ++ n :: l2) ++ [y])) in Hd2.
    apply NoDup_cons in Hd1 as [Hx1 Hd1]. apply NoDup_cons in Hd2 as [Hx2 Hd2].
    pose proof (last_in w l1) as Hl. pose proof (hd_in y l2) as Hh.
    split.
    + split.
      * rewrite Hn by mem. rewrite decide_False; [done|]. clear E1 E2. mem.
      * rewrite Hp by mem. rewrite decide_False; [done|]. clear E1 E2. mem.
    + apply IH; try done.
      * intros z Hz. apply Hn. mem.
      * intros z Hz. apply Hp. mem.
Qed.
End edit.

(** The neighbours of a position on a ring. *)
Lemma chain_last h x l y : chain h x l y -> prev (h y) = List.last l x.
Proof.
  revert x. induction l as [|w l IH]; intros x.
  - intros [_ ?]. done.
  - intros [_ Hc]. rewrite last_cons. by apply IH.
Qed.

Lemma chain_hd h x l y : chain h x l y -> next (h x) = List.hd y l.
Proof. destruct l; simpl; [intros [? _]; done | intros [[? _] _]; done]. Qed.

Lemma chain_mid h x l1 n l2 y :
  chain h x (l1 ++ n :: l2) y -> prev (h n) = List.last l1 x /\ next (h n) = List.hd y l2.
Proof. intros [H1 H2]%chain_app. split; [by eapply chain_last | by eapply chain_hd]. Qed.

(** [edited h h' n a b]: [h'] is [h] with [n] spliced between [a] and [b]. *)
Definition spliced (h h' : heap) (n a b : loc) : Prop :=
  forall y,
    next (h' y) = (if decide (y = n) then b else if decide (y = a) then n else next (h y)) /\
    prev (h' y) = (if decide (y = n) then a else if decide (y = b) then n else prev (h y)).

(** [unspliced h h' n a b]: [h'] is [h] with [n], between [a] and [b], taken out. *)
Definition unspliced (h h' : heap) (n a b : loc) : Prop :=
  forall y,
    next (h' y) = (if decide (y = n) then n else if decide (y = a) then b else next (h y)) /\
    prev (h' y) = (if decide (y = n) then n else if decide (y = b) then a else prev (h y)).

Lemma nodup_rot (x : loc) l : NoDup (x :: l) -> NoDup (l ++ [x]).
Proof.
  intros [Hx Hl]%NoDup_cons. apply NoDup_app. split; [done|]. split.
  - intros y Hy ->%list_elem_of_singleton. done.
  - apply NoDup_singleton.
Qed.

Lemma nodup_insert (n : loc) l1 l2 :
  n ∉ l1 ++ l2 -> NoDup (l1 ++ l2) -> NoDup (l1 ++ n :: l2).
Proof.
  intros Hn Hd. rewrite <- Permutation_middle. apply NoDup_cons. done.
Qed.

Lemma ring_splice h h' hd l1 l2 n :
  ring h hd (l1 ++ l2) -> n ∉ hd :: l1 ++ l2 ->
  spliced h h' n (List.last l1 hd) (List.hd hd l2) ->
  ring h' hd (l1 ++ n :: l2).
Proof.
  intros [Hc Hd] Hn Hs. split.
  - eapply chain_insert; [exact Hd | by apply nodup_rot | | | | |exact Hc].
    + intros z Hz. destruct (Hs z) as [-> _]. rewrite decide_False; [done|]. mem.
    + intros z Hz. destruct (Hs z) as [_ ->]. rewrite decide_False; [done|]. mem.
    + destruct (Hs n) as [-> _]. by rewrite decide_True.
    + destruct (Hs n) as [_ ->]. by rewrite decide_True.
  - apply (nodup_insert n (hd :: l1) l2); done.
Qed.

Lemma ring_unsplice h h' hd l1 l2 n :
  ring h hd (l1 ++ n :: l2) -> unspliced h h' n (List.last l1 hd) (List.hd hd l2) ->
  ring h' hd (l1 ++ l2).
Proof.
  intros [Hc Hd] Hs.
  assert (n ∉ hd :: l1 ++ l2 /\ NoDup (hd :: l1 ++ l2)) as [Hn Hd'].
  { apply NoDup_cons. by rewrite (Permutation_middle (hd :: l1) l2 n). }
  split; [|done].
  eapply chain_remove; [exact Hd | by apply nodup_rot | | |exact Hc].
  - intros z Hz. destruct (Hs z) as [-> _]. rewrite decide_False; [done|]. mem.
  - intros z Hz. destruct (Hs z) as [_ ->]. rewrite decide_False; [done|]. mem.
Qed.

Lemma ring_frame h h' hd l :
  ring h hd l ->
  (forall y, y ∈ hd :: l -> next (h' y) = next (h y) /\ prev (h' y) = prev (h y)) ->
  ring h' hd l.
Proof.
  intros [Hc Hd] Hf. split; [|done].
  eapply chain_frame; [| |exact Hc]; intros y Hy; apply Hf; mem.
Qed.

Lemma ring_init h hd : ring (rt_list_init hd h) hd [].
Proof.
  split; [|apply NoDup_singleton]. unfold rt_list_init. split; cells.
Qed.

Lemma ring_self h n : ring h n [] <-> next (h n) = n /\ prev (h n) = n.
Proof. split; [intros [[? ?] _]; done | intros [??]; split; [done|apply NoDup_singleton]]. Qed.

Lemma ring_insert_before h hd l1 l2 n :
  ring h hd (l1 ++ l2) -> n ∉ hd :: l1 ++ l2 ->
  spliced h (rt_list_insert_before (List.hd hd l2) n h) n (List.last l1 hd) (List.hd hd l2).
Proof.
  intros [Hc Hd] Hn y. pose proof (last_in hd l1). pose proof (hd_in hd l2).
  apply insert_before_cells.
  - destruct l2 as [|b l2]; simpl.
    + rewrite app_nil_r in Hc. by eapply chain_last.
    + by eapply chain_mid in Hc as [? _].
  - mem.
  - mem.
Qed.

Lemma ring_insert_after h hd l1 l2 n :
  ring h hd (l1 ++ l2) -> n ∉ hd :: l1 ++ l2 ->
  spliced h (rt_list_insert_after (List.last l1 hd) n h) n (List.last l1 hd) (List.hd hd l2).
Proof.
  intros [Hc Hd] Hn y. pose proof (last_in hd l1). pose proof (hd_in hd l2).
  apply insert_after_cells.
  - destruct l1 as [|a l1' _] using rev_ind; simpl in *.
    + by eapply chain_hd.
    + rewrite List.last_last. rewrite <- app_assoc in Hc. by eapply chain_mid in Hc as [_ ?].
  - mem.
  - mem.
Qed.

Lemma ring_remove h hd l1 l2 n :
  ring h hd (l1 ++ n :: l2) ->
  unspliced h (rt_list_remove n h) n (List.last l1 hd) (List.hd hd l2).
Proof.
  intros [Hc Hd] y. apply chain_mid in Hc as [Hp Hn].
  assert (n ∉ hd :: l1 ++ l2) as Hni.
  { assert (n ∉ hd :: l1 ++ l2 /\ NoDup (hd :: l1 ++ l2)) as [? _]; [|done].
    apply NoDup_cons. by rewrite (Permutation_middle (hd :: l1) l2 n). }
  pose proof (last_in hd l1). pose proof (hd_in hd l2).
  apply remove_cells; [done|done| |]; mem.
Qed.

(** The loop of [rt_list_len] terminates on a ring, within its length. *)
Lemma rt_list_len_loop_ok h l p k len fuel :
  chain h p k l -> l ∉ k -> (length k < fuel)%nat ->
  rt_list_len_loop fuel l p len h = Some (Nat.iter (length k) (fun c => u32 (c + 1)) len).
Proof.
  revert p len fuel. induction k as [|x k IH]; intros p len [|fuel] Hc Hl Hf; simpl in *; try lia.
  - destruct Hc as [E _]. by rewrite bool_decide_eq_true_2.
  - destruct Hc as [[E _] Hc]. apply not_elem_of_cons in Hl as [Hne Hl].
    rewrite bool_decide_eq_false_2 by congruence. rewrite E, IH by (done || lia).
    f_equal. clear. induction (length k) as [|m IH]; simpl; [done|]. by rewrite IH.
Qed.

(** The nodes an [rt_list_for_each] over [head] visits from [pos] on. *)
Fixpoint rt_list_for_each (fuel : nat) (pos head : loc) (h : heap) : option (list loc) :=
  match fuel with
  | O => None
  | S fuel => if bool_decide (pos = head) then Some []
              else l ← rt_list_for_each fuel (next (h pos)) head h; Some (pos :: l)
  end.

Definition rt_list_nodes (fuel : nat) (head : loc) (h : heap) : option (list loc) :=
  rt_list_for_each fuel (next (h head)) head h.

(** Forward links only: all that a traversal reads. *)
Fixpoint fchain (h : heap) (a : loc) (l : list loc) (b : loc) : Prop :=
  match l with
  | [] => next (h a) = b
  | x :: l => next (h a) = x /\ fchain h x l b
  end.

Lemma chain_fchain h a l b : chain h a l b -> fchain h a l b.
Proof.
  revert a. induction l as [|x l IH]; intros a; simpl; [intros [? _]; done|].
  intros [[? _] ?]. split; [done|]. by apply IH.
Qed.

Lemma fchain_frame h h' a l b :
  (forall y, y ∈ a :: l -> next (h' y) = next (h y)) -> fchain h a l b -> fchain h' a l b.
Proof.
  revert a. induction l as [|x l IH]; intros a Hf; simpl.
  - intros <-. apply Hf. mem.
  - intros [<- Hc]. split; [apply Hf; mem|]. apply IH; [|done].
    intros y Hy. apply Hf. mem.
Qed.

Lemma for_each_fchain h hd a l fuel :
  fchain h a l hd -> hd ∉ l -> (length l < fuel)%nat ->
  rt_list_for_each fuel (next (h a)) hd h = Some l.
Proof.
  revert a fuel. induction l as [|x l IH]; intros a [|fuel] Hc Hh Hf; simpl in *; try lia.
  - by rewrite bool_decide_eq_true_2.
  - destruct Hc as [-> Hc]. apply not_elem_of_cons in Hh as [Hne Hh].
    rewrite bool_decide_eq_false_2 by congruence. rewrite (IH x) by (done || lia). done.
Qed.

(** Linking a node that is already on the ring, after an [rt_list_init] of it, as
    [rt_thread_deferrable_insert_task] does with a task still queued. *)
Definition reinsert (hd n : loc) (h : heap) : heap :=
  rt_list_insert_before hd n (rt_list_init n h).

Lemma reinsert_next h hd n y :
  n ≠ hd -> y ≠ prev (h hd) ->
  next (reinsert hd n h y) = if decide (y = n) then hd else next (h y).
Proof.
  intros Hne Hy. unfold reinsert, rt_list_insert_before, rt_list_init. cells.
Qed.

Lemma last_app_cons (x n : loc) l1 l2 : List.last (l1 ++ n :: l2) x = List.last l2 n.
Proof.
  revert x. induction l1 as [|w l1 IH]; intros x; simpl app; rewrite last_cons; [done|]. apply IH.
Qed.

Lemma reinsert_loses_tail h hd l1 n l2 :
  ring h hd (l1 ++ n :: l2) -> fchain (reinsert hd n h) hd (l1 ++ [n]) hd.
Proof.
  intros [Hc Hd].
  assert (n ∉ hd :: l1 ++ l2) as Hni.
  { assert (n ∉ hd :: l1 ++ l2 /\ NoDup (hd :: l1 ++ l2)) as [? _]; [|done].
    apply NoDup_cons. by rewrite (Permutation_middle (hd :: l1) l2 n). }
  pose proof (chain_last _ _ _ _ Hc) as Hl. rewrite last_app_cons in Hl.
  assert (Hp : forall y, y ∈ hd :: l1 -> y ≠ prev (h hd)).
  { rewrite Hl. intros y Hy ->. pose proof (last_in n l2) as Hin.
    change (NoDup ((hd :: l1) ++ (n :: l2))) in Hd.
    apply NoDup_app in Hd as (_ & Hd & _). by eapply Hd. }
  apply chain_app in Hc as [Hc _]. apply chain_fchain in Hc.
  assert (forall y, y ∈ hd :: l1 -> next (reinsert hd n h y) = next (h y)) as Hf.
  { intros y Hy. rewrite reinsert_next; [|mem|by apply Hp].
    rewrite decide_False; [done|]. mem. }
  assert (next (reinsert hd n h n) = hd) as Hlast.
  { unfold reinsert, rt_list_insert_before, rt_list_init. cells. }
  clear -Hc Hf Hlast. revert hd Hc Hf Hlast.
  generalize (reinsert). intros re hd.
  assert (forall a, fchain h a l1 n -> (forall y, y ∈ a :: l1 -> next (re hd n h y) = next (h y)) ->
    next (re hd n h n) = hd -> fchain (re hd n h) a (l1 ++ [n]) hd) as H.
  { induction l1 as [|x l1 IH]; intros a; simpl.
    - intros <- Hf Hl. split; [apply Hf; mem|done].
    - intros [<- Hc] Hf Hl. split; [apply Hf; mem|]. apply IH; [done| |done].
      intros y Hy. apply Hf. mem. }
  intros. by apply H.
Qed.

(** [rt_list_isempty (head.next)], the test the deferrable server uses. *)
Lemma isempty_next h hd l :
  ring h hd l -> rt_list_isempty (next (h hd)) h = bool_decide (l = []).
Proof.
  intros [Hc Hd]. unfold rt_list_isempty. destruct l as [|x l]; simpl in *.
  - destruct Hc as [E _]. by rewrite !E, !bool_decide_eq_true_2.
  - destruct Hc as [[-> _] Hc]. apply chain_hd in Hc as ->.
    apply bool_decide_eq_false_2.
    pose proof (hd_in hd l) as Hin. intros E. rewrite E in Hin.
    apply NoDup_cons in Hd as [H1 Hd]. apply NoDup_cons in Hd as [H2 _]. mem.
Qed.

Lemma isempty_ring h hd l : ring h hd l -> rt_list_isempty hd h = bool_decide (l = []).
Proof.
  intros [Hc Hd]. unfold rt_list_isempty. rewrite (chain_hd _ _ _ _ Hc).
  apply NoDup_cons in Hd as [H1 _]. destruct l as [|x l]; simpl.
  - by rewrite !bool_decide_eq_true_2.
  - apply bool_decide_eq_false_2. mem.
Qed.

End Ring.

(** ** The sequence level *)

Module Space.
Section space.
Context {H N : Type} `{EqDecision H, EqDecision N}.
Implicit Types (L : H -> list N) (hd : H) (n m : N).

(** [rt_list_init (&head)] *)
Definition list_init hd L : H -> list N := <[hd := []]> L.
(** [rt_list_insert_before (&head, &node)]: at the tail *)
Definition list_insert_before hd n L : H -> list N := <[hd := L hd ++ [n]]> L.
(** [rt_list_insert_after (&head, &node)]: at the front *)
Definition list_insert_after hd n L : H -> list N := <[hd := n :: L hd]> L.

Fixpoint insert_before_elem m n (l : list N) : list N :=
  match l with
  | [] => []
  | x :: l => if bool_decide (x = m) then n :: x :: l else x :: insert_before_elem m n l
  end.
(** [rt_list_insert_before (&other->node, &node)] *)
Definition list_insert_before_node hd m n L : H -> list N :=
  <[hd := insert_before_elem m n (L hd)]> L.

(** [rt_list_remove (&node)]: out of whatever list it is on *)
Definition list_remove n L : H -> list N := fun hd => filter (fun x => x ≠ n) (L hd).
Definition list_isempty hd L : bool := bool_decide (L hd = []).

(** A node is on at most one list, at most once. *)
Definition wf_space L : Prop :=
  (forall hd, NoDup (L hd)) /\
  (forall hd1 hd2 n, n ∈ L hd1 -> n ∈ L hd2 -> hd1 = hd2).
Definition unlinked n L : Prop := forall hd, n ∉ L hd.

Lemma insert_eq (L : H -> list N) hd l : (<[hd := l]> L) hd = l.
Proof. unfold insert, fn_insert. by rewrite decide_True. Qed.
Lemma insert_ne (L : H -> list N) hd hd' l : hd ≠ hd' -> (<[hd := l]> L) hd' = L hd'.
Proof. intros. unfold insert, fn_insert. by rewrite decide_False. Qed.

Lemma elem_of_list_remove x n L hd : x ∈ list_remove n L hd <-> x ∈ L hd /\ x ≠ n.
Proof. unfold list_remove. rewrite list_elem_of_filter. tauto. Qed.

Lemma list_remove_unlinked n L : unlinked n (list_remove n L).
Proof. intros hd. rewrite elem_of_list_remove. tauto. Qed.

Lemma wf_list_remove n L : wf_space L -> wf_space (list_remove n L).
Proof.
  intros [H1 H2]. split.
  - intros hd. by apply NoDup_filter.
  - intros hd1 hd2 m [? _]%elem_of_list_remove [? _]%elem_of_list_remove. eauto.
Qed.

Lemma wf_space_insert L hd n l :
  wf_space L -> unlinked n L -> Permutation l (n :: L hd) -> wf_space (<[hd := l]> L).
Proof.
  intros [H1 H2] Hu Hp. split.
  - intros hd'. destruct (decide (hd = hd')) as [<-|Hne].
    + rewrite insert_eq, Hp. apply NoDup_cons. done.
    + by rewrite insert_ne.
  - intros hd1 hd2 m.
    destruct (decide (hd = hd1)) as [<-|Hne1]; destruct (decide (hd = hd2)) as [<-|Hne2];
      rewrite ?insert_eq, ?insert_ne by done; rewrite ?Hp, ?elem_of_cons; [done| | |by apply H2].
    + intros [->|?] ?; [by destruct (Hu hd2)|eauto].
    + intros ? [->|?]; [by destruct (Hu hd1)|eauto].
Qed.

Lemma wf_list_insert_before hd n L :
  wf_space L -> unlinked n L -> wf_space (list_insert_before hd n L).
Proof.
  intros. apply wf_space_insert with n; [done|done|].
  by rewrite Permutation_app_comm.
Qed.
Lemma wf_list_insert_after hd n L :
  wf_space L -> unlinked n L -> wf_space (list_insert_after hd n L).
Proof. intros. by apply wf_space_insert with n. Qed.

Lemma insert_before_elem_perm m n l : m ∈ l -> Permutation (insert_before_elem m n l) (n :: l).
Proof.
  induction l as [|x l IH]; [intros []%elem_of_nil|]. intros Hm. simpl.
  case_bool_decide as E; [done|]. rewrite IH by (clear IH; mem). apply perm_swap.
Qed.
Lemma wf_list_insert_before_node hd m n L :
  wf_space L -> unlinked n L -> m ∈ L hd -> wf_space (list_insert_before_node hd m n L).
Proof. intros. apply wf_space_insert with n; [done..|]. by apply insert_before_elem_perm. Qed.

Lemma filter_notin n (l : list N) : n ∉ l -> filter (fun x => x ≠ n) l = l.
Proof.
  induction l as [|x l IH]; [done|]. intros [Hx Hl]%not_elem_of_cons.
  rewrite filter_cons_True by congruence. by rewrite IH.
Qed.
Lemma list_remove_unlinked_id n L hd : n ∉ L hd -> list_remove n L hd = L hd.
Proof. apply filter_notin. Qed.
Lemma filter_mid n (l1 l2 : list N) :
  NoDup (l1 ++ n :: l2) -> filter (fun x => x ≠ n) (l1 ++ n :: l2) = l1 ++ l2.
Proof.
  intros Hd. rewrite <- Permutation_middle in Hd. apply NoDup_cons in Hd as [Hn _].
  rewrite filter_app, filter_cons_False by tauto.
  rewrite !filter_notin; [done| |]; mem.
Qed.
End space.
End Space.

(** ** The pointer code implements the sequence operations *)

Module Refine.
Import Ring Space.

Section refine.
Context {H N : Type} `{EqDecision H, EqDecision N}.
Context (hloc : H -> loc) (nloc : N -> loc).
Context `{!Inj (=) (=) hloc, !Inj (=) (=) nloc}.
Context (hn_ne : forall hd n, hloc hd ≠ nloc n).
Implicit Types (L : H -> list N) (hd : H) (n m : N) (h : heap).

(** Memory [h] holds one ring per head, with the nodes [L] lists for it, and
    every node on no list is linked to itself. *)
Definition repr h L : Prop :=
  wf_space L /\
  (forall hd, ring h (hloc hd) (nloc <$> L hd)) /\
  (forall n, unlinked n L -> ring h (nloc n) []).

(** Where a location can be on two rings, the rings are the same. *)
Lemma nodes_apart L hd1 hd2 y :
  wf_space L -> hd1 ≠ hd2 ->
  y ∈ hloc hd1 :: (nloc <$> L hd1) -> y ∈ hloc hd2 :: (nloc <$> L hd2) -> False.
Proof.
  intros [_ Hw] Hne [->|(n1 & -> & H1)%list_elem_of_fmap]%elem_of_cons
    [E|(n2 & E & H2)%list_elem_of_fmap]%elem_of_cons.
  - by apply (inj _) in E.
  - by apply hn_ne in E.
  - symmetry in E. by apply hn_ne in E.
  - apply (inj _) in E as ->. by apply Hne, (Hw _ _ n2).
Qed.

Lemma unlinked_off L hd n : unlinked n L -> nloc n ∉ hloc hd :: (nloc <$> L hd).
Proof.
  intros Hu [E|(m & E & Hm)%list_elem_of_fmap]%elem_of_cons.
  - symmetry in E. by apply hn_ne in E.
  - apply (inj _) in E as <-. by apply (Hu hd).
Qed.

Lemma last_in_ring hd l1 l2 n :
  List.last (nloc <$> l1) (hloc hd) ∈ hloc hd :: (nloc <$> l1 ++ n :: l2) .
Proof. pose proof (last_in (hloc hd) (nloc <$> l1)). rewrite fmap_app. mem. Qed.

Lemma hd_in_ring hd l1 l2 n :
  List.hd (hloc hd) (nloc <$> l2) ∈ hloc hd :: (nloc <$> l1 ++ n :: l2).
Proof.
  pose proof (hd_in (hloc hd) (nloc <$> l2)). rewrite fmap_app. simpl. mem.
Qed.

Lemma last_in_ring0 hd l1 l2 :
  List.last (nloc <$> l1) (hloc hd) ∈ hloc hd :: (nloc <$> l1 ++ l2) .
Proof. pose proof (last_in (hloc hd) (nloc <$> l1)). rewrite fmap_app. mem. Qed.

Lemma hd_in_ring0 hd l1 l2 :
  List.hd (hloc hd) (nloc <$> l2) ∈ hloc hd :: (nloc <$> l1 ++ l2).
Proof. pose proof (hd_in (hloc hd) (nloc <$> l2)). rewrite fmap_app. simpl. mem. Qed.

(** Splicing an unlinked node anywhere on one list. *)
Lemma repr_splice h h' L hd n l1 l2 :
  repr h L -> unlinked n L -> L hd = l1 ++ l2 ->
  spliced h h' (nloc n) (List.last (nloc <$> l1) (hloc hd)) (List.hd (hloc hd) (nloc <$> l2)) ->
  repr h' (<[hd := l1 ++ n :: l2]> L).
Proof.
  intros (Hw & Hr & Hs) Hu El Hsp.
  assert (Hfr : forall y, y ≠ nloc n -> y ∉ hloc hd :: (nloc <$> L hd) ->
    next (h' y) = next (h y) /\ prev (h' y) = prev (h y)).
  { intros y Hyn Hy. rewrite El in Hy. destruct (Hsp y) as [-> ->].
    pose proof (last_in_ring0 hd l1 l2) as Ha. pose proof (hd_in_ring0 hd l1 l2) as Hb.
    rewrite !decide_False; [done|by intros ->|done|by intros ->|done]. }
  split; [|split].
  - apply wf_space_insert with n; [done|done|]. rewrite El. by rewrite Permutation_middle.
  - intros hd'. destruct (decide (hd = hd')) as [<-|Hne].
    + rewrite insert_eq, fmap_app. simpl. eapply ring_splice; [|by rewrite <- fmap_app, <- El; apply unlinked_off|done].
      rewrite <- fmap_app, <- El. apply Hr.
    + rewrite insert_ne by done. eapply ring_frame; [apply Hr|]. intros y Hy. apply Hfr.
      * intros ->. by apply (unlinked_off L hd' n) in Hy.
      * intros Hy'. by eapply (nodes_apart L hd hd').
  - intros m Hm. destruct (decide (m = n)) as [->|Hmn].
    { exfalso. apply (Hm hd). rewrite insert_eq. set_solver. }
    assert (unlinked m L) as HmL.
    { intros hd' Hin. apply (Hm hd'). destruct (decide (hd = hd')) as [<-|Hne].
      - rewrite insert_eq. rewrite El in Hin. set_solver.
      - by rewrite insert_ne. }
    eapply ring_frame; [by apply Hs|]. intros y ->%list_elem_of_singleton. apply Hfr.
    + intros E%(inj _). done.
    + by apply unlinked_off.
Qed.

Lemma repr_insert_before h L hd n :
  repr h L -> unlinked n L ->
  repr (rt_list_insert_before (hloc hd) (nloc n) h) (list_insert_before hd n L).
Proof.
  intros Hrep Hu. unfold list_insert_before.
  eapply (repr_splice h _ L hd n (L hd) []); [done|done|by rewrite app_nil_r|].
  destruct Hrep as (Hw & Hr & _). specialize (Hr hd).
  rewrite <- (app_nil_r (nloc <$> L hd)) in Hr.
  apply (ring_insert_before _ _ _ [] (nloc n) Hr). rewrite app_nil_r. by apply unlinked_off.
Qed.

Lemma repr_insert_after h L hd n :
  repr h L -> unlinked n L ->
  repr (rt_list_insert_after (hloc hd) (nloc n) h) (list_insert_after hd n L).
Proof.
  intros Hrep Hu. unfold list_insert_after.
  eapply (repr_splice h _ L hd n [] (L hd)); [done|done|done|].
  destruct Hrep as (Hw & Hr & _). specialize (Hr hd).
  apply (ring_insert_after _ _ [] _ (nloc n) Hr). by apply unlinked_off.
Qed.

Lemma insert_before_elem_mid m n (l1 l2 : list N) :
  m ∉ l1 -> insert_before_elem m n (l1 ++ m :: l2) = l1 ++ n :: m :: l2.
Proof.
  induction l1 as [|x l1 IH]; intros Hm; simpl.
  - by rewrite bool_decide_eq_true_2.
  - apply not_elem_of_cons in Hm as [? ?]. rewrite bool_decide_eq_false_2 by congruence.
    by rewrite IH.
Qed.

Lemma repr_insert_before_node h L hd m n :
  repr h L -> unlinked n L -> m ∈ L hd ->
  repr (rt_list_insert_before (nloc m) (nloc n) h) (list_insert_before_node hd m n L).
Proof.
  intros Hrep Hu Hm. unfold list_insert_before_node.
  apply list_elem_of_split in Hm as (l1 & l2 & El).
  destruct Hrep as (Hw & Hr & Hs).
  pose proof (proj1 Hw hd) as Hd. rewrite El in Hd.
  apply NoDup_app in Hd as (_ & Hd & _).
  rewrite El, insert_before_elem_mid by (intros Hin; apply (Hd m Hin); set_solver).
  eapply (repr_splice h _ L hd n l1 (m :: l2)); [exact (conj Hw (conj Hr Hs))|done|done|].
  specialize (Hr hd). rewrite El, fmap_app in Hr.
  apply (ring_insert_before _ _ _ (nloc <$> m :: l2) (nloc n) Hr).
  rewrite <- fmap_app, <- El. by apply unlinked_off.
Qed.

Lemma repr_isempty h L hd : repr h L -> rt_list_isempty (hloc hd) h = list_isempty hd L.
Proof.
  intros (_ & Hr & _). rewrite (isempty_ring _ _ _ (Hr hd)). unfold list_isempty.
  by destruct (L hd).
Qed.

Lemma repr_next h L hd n l : repr h L -> L hd = n :: l -> next (h (hloc hd)) = nloc n.
Proof.
  intros (_ & Hr & _) El. specialize (Hr hd). rewrite El in Hr. destruct Hr as [Hc _].
  by apply chain_hd in Hc.
Qed.

Lemma repr_init h L hd :
  repr h L -> L hd = [] -> repr (rt_list_init (hloc hd) h) (list_init hd L).
Proof.
  intros (Hw & Hr & Hs) El.
  assert (Hf : forall y, next (rt_list_init (hloc hd) h y) = next (h y) /\
                         prev (rt_list_init (hloc hd) h y) = prev (h y)).
  { pose proof (Hr hd) as Hring. rewrite El in Hring. apply ring_self in Hring as [E1 E2].
    intros y. unfold rt_list_init.
    rewrite next_set_next, prev_set_next, prev_set_prev, next_set_prev.
    case_decide; subst; done. }
  assert (HL : forall hd', list_init hd L hd' = L hd').
  { intros hd'. unfold list_init. destruct (decide (hd = hd')) as [<-|]; [by rewrite insert_eq|by rewrite insert_ne]. }
  split; [|split].
  - destruct Hw as [H1 H2]. split; [intros; rewrite HL; done|]. intros ???; rewrite !HL; eauto.
  - intros hd'. rewrite HL. by eapply ring_frame.
  - intros m Hm. eapply ring_frame; [apply Hs|intros; apply Hf].
    intros hd'. rewrite <- HL. apply Hm.
Qed.

(** [rt_list_remove] takes a node off whatever list it is on and leaves it
    self-linked; on a node of no list it changes nothing. *)
Lemma repr_remove h L n :
  repr h L -> unlinked n L \/ (exists hd, n ∈ L hd) ->
  repr (rt_list_remove (nloc n) h) (list_remove n L).
Proof.
  intros (Hw & Hr & Hs) [Hu | [hd Hin]].
  - pose proof (Hs n Hu) as [E1 E2]%ring_self.
    assert (HL : forall hd, list_remove n L hd = L hd) by (intros; by apply list_remove_unlinked_id).
    split; [by apply wf_list_remove|]. split.
    + intros hd. rewrite HL. eapply ring_frame; [apply Hr|]. intros. by apply remove_self_cells.
    + intros m Hm. eapply ring_frame; [apply Hs|intros; by apply remove_self_cells].
      intros hd. rewrite <- HL. apply Hm.
  - pose proof Hin as (l1 & l2 & El)%list_elem_of_split.
    pose proof (Hr hd) as Hring. rewrite El, fmap_app in Hring.
    pose proof (ring_remove _ _ _ _ _ Hring) as Hun.
    assert (Hfr : forall y, y ∉ hloc hd :: (nloc <$> L hd) ->
      next (rt_list_remove (nloc n) h y) = next (h y) /\
      prev (rt_list_remove (nloc n) h y) = prev (h y)).
    { intros y Hy. rewrite El in Hy. destruct (Hun y) as [-> ->].
      pose proof (last_in_ring hd l1 l2 n). pose proof (hd_in_ring hd l1 l2 n).
      assert (y ≠ nloc n) by (intros ->; apply Hy; rewrite fmap_app; simpl; mem).
      rewrite !decide_False; [done|by intros ->|done|by intros ->|done]. }
    split; [by apply wf_list_remove|]. split.
    + intros hd'. destruct (decide (hd = hd')) as [<-|Hne].
      * unfold list_remove. rewrite El, filter_mid by (rewrite <- El; apply Hw).
        rewrite fmap_app. by eapply ring_unsplice.
      * rewrite list_remove_unlinked_id.
        2: { intros Hin'. by apply Hne, (proj2 Hw hd hd' n). }
        eapply ring_frame; [apply Hr|]. intros y Hy. apply Hfr.
        intros Hy'. by eapply (nodes_apart L hd hd').
    + intros m Hm. destruct (decide (m = n)) as [->|Hmn].
      * apply ring_self. destruct (Hun (nloc n)) as [-> ->]. by rewrite !decide_True.
      * assert (unlinked m L) as HmL.
        { intros hd' Hm'. apply (Hm hd'). by apply elem_of_list_remove. }
        eapply ring_frame; [by apply Hs|]. intros y ->%list_elem_of_singleton.
        apply Hfr. by apply unlinked_off.
Qed.
End refine.
End Refine.
