(* ===== verification/KService.v ===== *)
(** * KService: memory and string routines of rt-thread/src/kservice.c

    Memory is a function from addresses to bytes; an [unsigned long] is four bytes,
    little-endian.  Objects do not wrap around the end of the address space, so
    addresses are not reduced modulo 2^32.  [char] is unsigned, as on ARM. *)

From S2P Require Import Prelude.

#[local] Open Scope Z_scope.

Definition mem := Z -> Z.
Definition store8 (a v : Z) (m : mem) : mem := fun x => if x =? a then v else m x.
Definition store32 (a v : Z) (m : mem) : mem :=
  store8 (a + 3) (Z.land (Z.shiftr v 24) 255) (store8 (a + 2) (Z.land (Z.shiftr v 16) 255)
    (store8 (a + 1) (Z.land (Z.shiftr v 8) 255) (store8 a (Z.land v 255) m))).
Definition load32 (a : Z) (m : mem) : Z :=
  Z.lor (m a) (Z.lor (Z.shiftl (m (a + 1)) 8)
    (Z.lor (Z.shiftl (m (a + 2)) 16) (Z.shiftl (m (a + 3)) 24))).

(** ** Definitions *)

(** [while (count--) *m++ = (char)d;] *)
Fixpoint set_bytes (count : nat) (p d : Z) (m : mem) : mem :=
  match count with O => m | S n => set_bytes n (p + 1) d (store8 p d m) end.

(** The state of the word loops: [aligned_addr], [count] and the memory. *)
Definition memset_block4 (buffer : Z) (x : Z * Z * mem) : option (Z * Z * mem) :=
  let '(a, count, m) := x in
  Some (a + 16, count - 16,
    store32 (a + 12) buffer (store32 (a + 8) buffer (store32 (a + 4) buffer (store32 a buffer m)))).
Definition memset_block1 (buffer : Z) (x : Z * Z * mem) : option (Z * Z * mem) :=
  let '(a, count, m) := x in Some (a + 4, count - 4, store32 a buffer m).
Definition count_ge (n : Z) (x : Z * Z * mem) : bool := n <=? x.1.2.

Definition rt_memset (s c count : Z) (m : mem) : option mem :=
  let d := Z.land c 0xff in
  if negb (count <? 4) && (Z.land s 3 =? 0) then
    let buffer := Z.lor (Z.shiftl d 8) d in
    let buffer := Z.lor buffer (u32 (Z.shiftl buffer 16)) in
    match while (Z.to_nat count + 1) (count_ge 16) (memset_block4 buffer) (s, count, m) with
    | Some x =>
        match while (Z.to_nat count + 1) (count_ge 4) (memset_block1 buffer) x with
        | Some (a, count, m) => Some (set_bytes (Z.to_nat count) a d m)
        | None => None
        end
    | None => None
    end
  else Some (set_bytes (Z.to_nat count) s d m).

(** [while (len--) *dst_ptr++ = *src_ptr++;] *)
Fixpoint copy_bytes (len : nat) (dst src : Z) (m : mem) : mem :=
  match len with O => m | S n => copy_bytes n (dst + 1) (src + 1) (store8 dst (m src) m) end.

(** [*aligned_dst++ = *aligned_src++;] *)
Definition copy_word (x : Z * Z * mem) : Z * Z * mem :=
  let '(d, s, m) := x in (d + 4, s + 4, store32 d (load32 s m) m).
Definition memcpy_block4 (x : (Z * Z * mem) * Z) : option ((Z * Z * mem) * Z) :=
  Some (copy_word (copy_word (copy_word (copy_word x.1))), x.2 - 16).
Definition memcpy_block1 (x : (Z * Z * mem) * Z) : option ((Z * Z * mem) * Z) :=
  Some (copy_word x.1, x.2 - 4).
Definition len_ge (n : Z) (x : (Z * Z * mem) * Z) : bool := n <=? x.2.

Definition rt_memcpy (dst src count : Z) (m : mem) : option mem :=
  if negb (count <? 16) && (Z.lor (Z.land src 3) (Z.land dst 3) =? 0) then
    match while (Z.to_nat count + 1) (len_ge 16) memcpy_block4 ((dst, src, m), count) with
    | Some x =>
        match while (Z.to_nat count + 1) (len_ge 4) memcpy_block1 x with
        | Some ((d, s, m), len) => Some (copy_bytes (Z.to_nat len) d s m)
        | None => None
        end
    | None => None
    end
  else Some (copy_bytes (Z.to_nat count) dst src m).

(** [while (n--) *(--tmp) = *(--s);] *)
Fixpoint copy_bytes_down (n : nat) (tmp s : Z) (m : mem) : mem :=
  match n with O => m | S n => copy_bytes_down n (tmp - 1) (s - 1) (store8 (tmp - 1) (m (s - 1)) m) end.

Definition rt_memmove (dest src n : Z) (m : mem) : mem :=
  if (src <? dest) && (dest <? src + n)
  then copy_bytes_down (Z.to_nat n) (dest + n) (src + n) m
  else copy_bytes (Z.to_nat n) dest src m.

Fixpoint rt_memcmp (cs ct : Z) (count : nat) (m : mem) : Z :=
  match count with
  | O => 0
  | S n => let res := m cs - m ct in
           if negb (res =? 0) then res else rt_memcmp (cs + 1) (ct + 1) n m
  end.

(** [while (--n != 0) *d++ = 0;] entered with [n + 1] left *)
Fixpoint rt_strncpy (dst src : Z) (n : nat) (m : mem) : mem :=
  match n with
  | O => m
  | S n => let c := m src in
           let m := store8 dst c m in
           if c =? 0 then set_bytes n (dst + 1) 0 m else rt_strncpy (dst + 1) (src + 1) n m
  end.

Fixpoint rt_strncmp_loop (res cs ct : Z) (count : nat) (m : mem) : Z :=
  match count with
  | O => res
  | S n => let res := swrap 8 (m cs - m ct) in
           if negb (res =? 0) || (m cs =? 0) then res else rt_strncmp_loop res (cs + 1) (ct + 1) n m
  end.
Definition rt_strncmp (cs ct : Z) (count : nat) (m : mem) : Z := rt_strncmp_loop 0 cs ct count m.

Definition rt_strcmp (fuel : nat) (cs ct : Z) (m : mem) : option Z :=
  match while fuel (fun '(a, b) => negb (m a =? 0) && (m a =? m b))
                   (fun '(a, b) => Some (a + 1, b + 1)) (cs, ct) with
  | Some (a, b) => Some (m a - m b)
  | None => None
  end.

(** The [char] case folding of [rt_strcasecmp]. *)
Definition fold_case (c : Z) : Z :=
  let c := Z.land c 0xff in if (65 <=? c) && (c <=? 90) then c + (97 - 65) else c.
Fixpoint rt_strcasecmp (fuel : nat) (a b : Z) (m : mem) : option Z :=
  match fuel with
  | O => None
  | S fuel =>
      let ca := fold_case (m a) in
      let cb := fold_case (m b) in
      if (ca =? cb) && negb (ca =? 0) then rt_strcasecmp fuel (a + 1) (b + 1) m else Some (ca - cb)
  end.

Definition rt_strnlen (s : Z) (maxlen : nat) (m : mem) : option Z :=
  match while (maxlen + 1) (fun sc => negb (m sc =? 0) && (sc - s <? Z.of_nat maxlen))
                           (fun sc => Some (sc + 1)) s with
  | Some sc => Some (sc - s)
  | None => None
  end.

Definition rt_strlen (fuel : nat) (s : Z) (m : mem) : option Z :=
  match while fuel (fun sc => negb (m sc =? 0)) (fun sc => Some (sc + 1)) s with
  | Some sc => Some (sc - s)
  | None => None
  end.

(** [rt_strstr]: the loop over [s1] with [l1] characters left; [Some None] is RT_NULL. *)
Fixpoint strstr_loop (l1 : nat) (s1 s2 : Z) (l2 : nat) (m : mem) : option Z :=
  if (l2 <=? l1)%nat then
    if rt_memcmp s1 s2 l2 m =? 0 then Some s1
    else match l1 with O => None | S l1 => strstr_loop l1 (s1 + 1) s2 l2 m end
  else None.
Definition rt_strstr (fuel : nat) (s1 s2 : Z) (m : mem) : option (option Z) :=
  match rt_strlen fuel s2 m with
  | Some l2 =>
      if l2 =? 0 then Some (Some s1) else
      match rt_strlen fuel s1 m with
      | Some l1 => Some (strstr_loop (Z.to_nat l1) s1 s2 (Z.to_nat l2) m)
      | None => None
      end
  | None => None
  end.

(** ** Words and bytes *)

(** [m'] is [m] with [f] on the [n] addresses from [p]. *)
Definition written (p n : Z) (f : Z -> Z) (m m' : mem) : Prop :=
  forall x, m' x = if (p <=? x) && (x <? p + n) then f x else m x.

Lemma written_store8 p n f m m' v :
  0 <= n -> written p n f m m' -> v = f (p + n) -> written p (n + 1) f m (store8 (p + n) v m').
Proof.
  intros Hn H -> x. unfold store8. rewrite H.
  destruct (Z.eqb_spec x (p + n)) as [->|Hne].
  - by rewrite (proj2 (Z.leb_le p (p + n))), (proj2 (Z.ltb_lt (p + n) (p + (n + 1)))) by lia.
  - destruct (Z.leb_spec p x); simpl; [|done].
    destruct (Z.ltb_spec x (p + n)), (Z.ltb_spec x (p + (n + 1))); lia || done.
Qed.

Lemma written_0 p f m : written p 0 f m m.
Proof.
  intros x. destruct (Z.leb_spec p x); simpl; [|done]. by destruct (Z.ltb_spec x (p + 0)); [lia|].
Qed.

(** The four byte stores of a word, at the end of what is written so far. *)
Lemma written_store32 p n f m m' v :
  0 <= n -> written p n f m m' ->
  (forall i, 0 <= i < 4 -> Z.land (Z.shiftr v (8 * i)) 255 = f (p + n + i)) ->
  written p (n + 4) f m (store32 (p + n) v m').
Proof.
  intros Hn H Hv. unfold store32. rewrite <- !Z.add_assoc.
  replace (n + 3) with (n + 1 + 1 + 1) by lia. replace (n + 2) with (n + 1 + 1) by lia.
  replace (n + 4) with (n + 1 + 1 + 1 + 1) by lia.
  repeat apply written_store8; try lia; [done|..].
  - rewrite <- (Z.add_0_r (p + n)), <- Hv by lia. done.
  - rewrite Z.add_assoc, <- Hv by lia. done.
  - replace (p + (n + 1 + 1)) with (p + n + 2) by lia. rewrite <- Hv by lia. done.
  - replace (p + (n + 1 + 1 + 1)) with (p + n + 3) by lia. rewrite <- Hv by lia. done.
Qed.

Lemma written_set_bytes k p n d f m m' :
  0 <= n -> written p n f m m' -> (forall x, p + n <= x < p + n + Z.of_nat k -> f x = d) ->
  written p (n + Z.of_nat k) f m (set_bytes k (p + n) d m').
Proof.
  revert n m'. induction k as [|k IH]; intros n m' Hn H Hf; simpl set_bytes.
  - by rewrite Z.add_0_r.
  - replace (n + Z.of_nat (S k)) with (n + 1 + Z.of_nat k) by lia. rewrite <- (Z.add_assoc p n 1).
    apply IH; [lia|apply written_store8; [done|done|rewrite Hf; lia]|].
    intros x Hx. apply Hf. lia.
Qed.

(** The fill word has the fill byte in each of its four positions. *)
Definition fill_word (d : Z) : Z :=
  let b := Z.lor (Z.shiftl d 8) d in Z.lor b (u32 (Z.shiftl b 16)).

Lemma fill_word_bytes d i :
  0 <= d < 256 -> 0 <= i < 4 -> Z.land (Z.shiftr (fill_word d) (8 * i)) 255 = d.
Proof.
  intros Hd Hi.
  assert (Hall : Forall (fun d => Forall (fun i =>
    Z.land (Z.shiftr (fill_word d) (8 * i)) 255 = d) (seqZ 0 4)) (seqZ 0 256)).
  { apply (bool_decide_unpack _). by vm_compute. }
  rewrite Forall_forall in Hall. specialize (Hall d). rewrite elem_of_seqZ, Forall_forall in Hall.
  apply Hall; [lia|]. apply elem_of_seqZ. lia.
Qed.

Lemma land_255_range c : 0 <= Z.land c 255 < 256.
Proof. change 255 with (Z.ones 8). rewrite Z.land_ones by lia. apply (wrap_range 8). lia. Qed.

Definition memset_inv (s count d : Z) (m : mem) (x : Z * Z * mem) : Prop :=
  exists n, 0 <= n /\ x.1.1 = s + n /\ x.1.2 = count - n /\ n <= count /\
            written s n (fun _ => d) m x.2.

Lemma memset_inv_step s count d m x :
  0 <= d < 256 -> memset_inv s count d m x -> 4 <= x.1.2 ->
  memset_inv s count d m (x.1.1 + 4, x.1.2 - 4, store32 x.1.1 (fill_word d) x.2).
Proof.
  intros Hd (n & Hn & Ea & Ec & Hle & Hw) H4. exists (n + 4). simpl.
  rewrite Ea, Ec. repeat split; [lia..|].
  apply written_store32; [done|done|]. intros i Hi. by apply fill_word_bytes.
Qed.

Lemma rt_memset_written s c count m :
  0 <= count ->
  exists m', rt_memset s c count m = Some m' /\ written s count (fun _ => Z.land c 255) m m'.
Proof.
  intros Hc. unfold rt_memset. pose proof (land_255_range c) as Hd.
  set (d := Z.land c 255) in *. fold (fill_word d).
  destruct (negb _ && _).
  2: { eexists. split; [done|]. pose proof (written_set_bytes (Z.to_nat count) s 0 d (fun _ => d) m m) as H.
       rewrite !Z.add_0_r, Z.add_0_l, Z2Nat.id in H by lia.
       apply H; [lia|apply written_0|done]. }
  destruct (while_rule (memset_inv s count d m) (fun x => Z.to_nat x.1.2) (count_ge 16)
    (memset_block4 (fill_word d))) with (fuel := (Z.to_nat count + 1)%nat) (x := (s, count, m))
    as (x & -> & Hx & _).
  { intros [[a k] m'] Hi Hge. unfold count_ge in Hge. apply Z.leb_le in Hge. simpl in Hge.
    eexists. split; [done|]. split.
    - do 3 (apply memset_inv_step in Hi; [|done|simpl; lia]).
      apply memset_inv_step in Hi; [|done|simpl; lia]. simpl in Hi.
      by rewrite <- !Z.add_assoc, <- !Z.sub_add_distr in Hi.
    - simpl. lia. }
  { exists 0. repeat split; simpl; [lia..|apply written_0]. }
  { simpl. lia. }
  destruct (while_rule (memset_inv s count d m) (fun x => Z.to_nat x.1.2) (count_ge 4)
    (memset_block1 (fill_word d))) with (fuel := (Z.to_nat count + 1)%nat) (x := x)
    as ([[a k] m'] & -> & Hy & _).
  { intros [[a k] m'] Hi Hge. unfold count_ge in Hge. apply Z.leb_le in Hge. simpl in Hge.
    eexists. split; [done|]. split; [by apply memset_inv_step in Hi|simpl; lia]. }
  { done. }
  { destruct Hx as (n & ? & _ & -> & ? & _). lia. }
  destruct Hy as (n & Hn & Ea & Ek & Hle & Hw). simpl in Ea, Ek, Hw. subst a k.
  eexists. split; [done|]. pose proof (written_set_bytes (Z.to_nat (count - n)) s n d (fun _ => d) m m') as H.
  rewrite Z2Nat.id in H by lia. replace (n + (count - n)) with count in H by lia. by apply H.
Qed.

(** [rt_memset] terminates and writes the low byte of [c] to exactly the [count]
    bytes from [s], word stores and alignment cases included. *)
Theorem rt_memset_spec s c count m :
  0 <= count ->
  exists m', rt_memset s c count m = Some m' /\ written s count (fun _ => Z.land c 255) m m'.
Proof. apply rt_memset_written. Qed.

Theorem rt_memset_spec_witness :
  exists m', rt_memset 0x20000000 0x1ab 27 (fun _ => 0) = Some m' /\
    written 0x20000000 27 (fun _ => Z.land 0x1ab 255) (fun _ => 0) m'.
Proof. apply rt_memset_spec. lia. Defined.

(** ** Copies *)

Definition bytes (m : mem) : Prop := forall x, 0 <= m x < 2 ^ 8.

Lemma load32_byte m s i :
  bytes m -> 0 <= i < 4 -> Z.land (Z.shiftr (load32 s m) (8 * i)) 255 = m (s + i).
Proof.
  intros Hm Hi. unfold load32. apply Z.bits_inj'. intros j Hj.
  rewrite Z.land_spec, Z.shiftr_spec, !Z.lor_spec, !Z.shiftl_spec by lia.
  change 255 with (Z.ones 8).
  destruct (decide (j < 8)).
  - rewrite Z.ones_spec_low, andb_true_r by lia.
    assert (Hlow : forall a k, k < 0 -> Z.testbit (m a) k = false) by (intros; by apply Z.testbit_neg_r).
    assert (Hhigh : forall a k, 8 <= k -> Z.testbit (m a) k = false)
      by (intros; by apply (bound_bits 8)).
    assert (i = 0 \/ i = 1 \/ i = 2 \/ i = 3) as [-> | [-> | [-> | ->]]] by lia.
    + rewrite !(Hlow _ (j + 8 * 0 - _)) by lia. rewrite !orb_false_r. f_equal; [f_equal|]; lia.
    + rewrite (Hhigh _ (j + 8 * 1)), !(Hlow _ (j + 8 * 1 - 16)), (Hlow _ (j + 8 * 1 - 24)) by lia.
      rewrite !orb_false_r. simpl. f_equal; lia.
    + rewrite (Hhigh _ (j + 8 * 2)), (Hhigh _ (j + 8 * 2 - 8)), (Hlow _ (j + 8 * 2 - 24)) by lia.
      rewrite !orb_false_r. simpl. f_equal; lia.
    + rewrite (Hhigh _ (j + 8 * 3)), (Hhigh _ (j + 8 * 3 - 8)), (Hhigh _ (j + 8 * 3 - 16)) by lia.
      simpl. f_equal; lia.
  - rewrite Z.ones_spec_high, andb_false_r by lia. symmetry. apply (bound_bits 8); [lia|done|lia].
Qed.

(** The two areas do not overlap. *)
Definition disjoint_areas (dst src count : Z) : Prop := dst + count <= src \/ src + count <= dst.

Lemma written_other p n f m m' x : written p n f m m' -> (x < p \/ p + n <= x) -> m' x = m x.
Proof.
  intros H Hx. rewrite H. destruct (Z.leb_spec p x); simpl; [|done].
  destruct (Z.ltb_spec x (p + n)); [lia|done].
Qed.

Lemma written_bytes p n f m m' : bytes m -> bytes f -> written p n f m m' -> bytes m'.
Proof. intros Hm Hf H x. rewrite H. by destruct (_ && _). Qed.

Definition memcpy_inv (dst src count : Z) (m : mem) (x : (Z * Z * mem) * Z) : Prop :=
  exists n, 0 <= n <= count /\ x.1.1.1 = dst + n /\ x.1.1.2 = src + n /\ x.2 = count - n /\
            written dst n (fun a => m (src + (a - dst))) m x.1.2.

Lemma memcpy_inv_step dst src count m w len :
  bytes m -> disjoint_areas dst src count -> memcpy_inv dst src count m (w, len) -> 4 <= len ->
  memcpy_inv dst src count m (copy_word w, len - 4).
Proof.
  intros Hm Hd (n & Hn & Ed & Es & El & Hw) H4. destruct w as [[d s] m']. simpl in *. subst.
  exists (n + 4). simpl. repeat split; [lia..|].
  apply written_store32; [lia|done|]. intros i Hi.
  assert (Hm' : bytes m') by (eapply written_bytes; [exact Hm| |exact Hw]; intros a; apply Hm).
  rewrite load32_byte by done.
  rewrite (written_other _ _ _ _ _ _ Hw) by (destruct Hd; lia). f_equal. lia.
Qed.

Lemma written_copy_bytes k p q n m m' :
  0 <= n -> written p n (fun a => m (q + (a - p))) m m' ->
  (forall j, n <= j < n + Z.of_nat k -> m' (q + j) = m (q + j)) ->
  p <= q \/ q + (n + Z.of_nat k) <= p ->
  written p (n + Z.of_nat k) (fun a => m (q + (a - p))) m (copy_bytes k (p + n) (q + n) m').
Proof.
  revert n m'. induction k as [|k IH]; intros n m' Hn H Hm Hd; simpl copy_bytes.
  - by rewrite Z.add_0_r.
  - replace (n + Z.of_nat (S k)) with (n + 1 + Z.of_nat k) in * by lia.
    rewrite <- (Z.add_assoc p n 1), <- (Z.add_assoc q n 1).
    apply IH; [lia| | |done].
    + apply written_store8; [done|done|]. rewrite (Hm n) by lia. f_equal. lia.
    + intros j Hj. unfold store8. destruct (Z.eqb_spec (q + j) (p + n)); [lia|]. apply Hm. lia.
Qed.

Lemma copy_bytes_forward dst src count m :
  0 <= count -> dst <= src \/ src + count <= dst ->
  written dst count (fun a => m (src + (a - dst))) m (copy_bytes (Z.to_nat count) dst src m).
Proof.
  intros Hc Hd. pose proof (written_copy_bytes (Z.to_nat count) dst src 0 m m) as H.
  rewrite !Z.add_0_r, Z.add_0_l, Z2Nat.id in H by lia.
  apply H; [lia|apply written_0|done|done].
Qed.

Lemma copy_bytes_down_step k p q m m' :
  p > q ->
  (forall x, m' x = if (p + Z.of_nat k <=? x) then m' x else m x) ->
  forall x, copy_bytes_down k (p + Z.of_nat k) (q + Z.of_nat k) m' x =
    if (p <=? x) && (x <? p + Z.of_nat k) then m (q + (x - p)) else m' x.
Proof.
  intros Hpq. revert m'. induction k as [|k IH]; intros m' H x.
  - destruct (Z.leb_spec p x), (Z.ltb_spec x (p + Z.of_nat 0)); done || lia.
  - simpl copy_bytes_down.
    replace (p + Z.of_nat (S k) - 1) with (p + Z.of_nat k) by lia.
    replace (q + Z.of_nat (S k) - 1) with (q + Z.of_nat k) by lia.
    assert (Hq : m' (q + Z.of_nat k) = m (q + Z.of_nat k)).
    { rewrite H. destruct (Z.leb_spec (p + Z.of_nat (S k)) (q + Z.of_nat k)); [lia|done]. }
    rewrite IH.
    2: { intros y. unfold store8. destruct (Z.leb_spec (p + Z.of_nat k) y); [done|].
         destruct (Z.eqb_spec y (p + Z.of_nat k)); [lia|]. rewrite H.
         by destruct (Z.leb_spec (p + Z.of_nat (S k)) y); [lia|]. }
    unfold store8. destruct (Z.leb_spec p x); simpl.
    + destruct (Z.ltb_spec x (p + Z.of_nat k)), (Z.ltb_spec x (p + Z.of_nat (S k)));
        [done|lia| |].
      * destruct (Z.eqb_spec x (p + Z.of_nat k)) as [->|]; [|lia]. rewrite Hq. f_equal. lia.
      * destruct (Z.eqb_spec x (p + Z.of_nat k)); [lia|done].
    + destruct (Z.eqb_spec x (p + Z.of_nat k)); [lia|done].
Qed.

Lemma rt_memcpy_written dst src count m :
  0 <= count -> bytes m -> disjoint_areas dst src count ->
  exists m', rt_memcpy dst src count m = Some m' /\
    written dst count (fun a => m (src + (a - dst))) m m'.
Proof.
  intros Hc Hm Hd. unfold rt_memcpy. destruct (negb _ && _).
  2: { eexists. split; [done|]. apply copy_bytes_forward; [done|]. destruct Hd; lia. }
  destruct (while_rule (memcpy_inv dst src count m) (fun x => Z.to_nat x.2) (len_ge 16)
    memcpy_block4) with (fuel := (Z.to_nat count + 1)%nat) (x := (dst, src, m, count))
    as (x & -> & Hx & _).
  { intros [w len] Hi Hge. unfold len_ge in Hge. apply Z.leb_le in Hge. simpl in Hge.
    eexists. split; [done|]. split; [|simpl; lia].
    do 4 (apply memcpy_inv_step in Hi; [|done|done|lia]).
    by rewrite <- !Z.sub_add_distr in Hi. }
  { exists 0. repeat split; simpl; [lia..|apply written_0]. }
  { simpl. lia. }
  destruct (while_rule (memcpy_inv dst src count m) (fun x => Z.to_nat x.2) (len_ge 4)
    memcpy_block1) with (fuel := (Z.to_nat count + 1)%nat) (x := x)
    as ([[[d s] m'] len] & -> & Hy & _).
  { intros [w len] Hi Hge. unfold len_ge in Hge. apply Z.leb_le in Hge. simpl in Hge.
    eexists. split; [done|]. split; [by apply (memcpy_inv_step _ _ _ _ w len)|simpl; lia]. }
  { done. }
  { destruct Hx as (n & ? & _ & _ & -> & _). lia. }
  destruct Hy as (n & Hn & Ed & Es & El & Hw). simpl in Ed, Es, El, Hw. subst d s len.
  eexists. split; [done|]. replace count with (n + Z.of_nat (Z.to_nat (count - n))) at 1 by lia.
  apply written_copy_bytes; [lia|done| |destruct Hd; lia].
  intros j Hj. eapply written_other; [done|]. destruct Hd; lia.
Qed.

(** [rt_memcpy] terminates and copies exactly [count] bytes between areas that do
    not overlap: the word copies agree with the byte-by-byte copy. *)
Theorem rt_memcpy_spec dst src count m :
  0 <= count -> bytes m -> disjoint_areas dst src count ->
  exists m', rt_memcpy dst src count m = Some m' /\
    written dst count (fun a => m (src + (a - dst))) m m'.
Proof. apply rt_memcpy_written. Qed.

Theorem rt_memcpy_spec_witness :
  exists m', rt_memcpy 64 128 23 (fun a => a mod 256) = Some m' /\
    written 64 23 (fun a => (128 + (a - 64)) mod 256) (fun a => a mod 256) m'.
Proof.
  apply (rt_memcpy_spec 64 128 23 (fun a => a mod 256)); [lia| |left; lia].
  intros x. apply (wrap_range 8). lia.
Defined.

(** [rt_memmove] copies the [n] bytes that were at [src] to [dest] however the two
    areas overlap. *)
Theorem rt_memmove_spec dest src n m :
  0 <= n -> written dest n (fun a => m (src + (a - dest))) m (rt_memmove dest src n m).
Proof.
  intros Hn. unfold rt_memmove.
  destruct (Z.ltb_spec src dest), (Z.ltb_spec dest (src + n)); simpl;
    [|apply copy_bytes_forward; lia..].
  intros x. pose proof (copy_bytes_down_step (Z.to_nat n) dest src m m ltac:(lia)) as E.
  rewrite Z2Nat.id in E by done. apply E. intros y. by destruct (_ <=? y).
Qed.

Theorem rt_memmove_spec_witness :
  written 3 8 (fun a => (1 + (a - 3)) mod 256) (fun a => a mod 256)
    (rt_memmove 3 1 8 (fun a => a mod 256)).
Proof. apply (rt_memmove_spec 3 1 8 (fun a => a mod 256)). lia. Defined.

(** ** Strings *)

(** The characters of the string at [s], up to its NUL and at most [n]. *)
Fixpoint chars (n : nat) (s : Z) (m : mem) : list Z :=
  match n with
  | O => []
  | S n => if m s =? 0 then [] else m s :: chars n (s + 1) m
  end.

Lemma chars_ext n s m m' :
  (forall x, s <= x < s + Z.of_nat n -> m' x = m x) -> chars n s m' = chars n s m.
Proof.
  revert s. induction n as [|n IH]; intros s H; simpl; [done|].
  rewrite H by lia. destruct (_ =? _); [done|]. f_equal. apply IH. intros x Hx. apply H. lia.
Qed.

(** [rt_strncpy] fills exactly [n] bytes: the characters of the source string, at
    most [n] of them, then NULs; there is no terminator when the source has [n] or more. *)
Theorem rt_strncpy_spec n dst src m :
  disjoint_areas dst src (Z.of_nat n) ->
  written dst (Z.of_nat n) (fun a => nth (Z.to_nat (a - dst)) (chars n src m) 0) m
    (rt_strncpy dst src n m).
Proof.
  revert dst src m. induction n as [|n IH]; intros dst src m Hd; [apply written_0|].
  simpl rt_strncpy. simpl chars. destruct (Z.eqb_spec (m src) 0) as [E|E].
  - rewrite E. replace (Z.of_nat (S n)) with (1 + Z.of_nat n) by lia.
    apply written_set_bytes; [lia| |intros x _; by destruct (Z.to_nat _)].
    pose proof (written_store8 dst 0 (fun a => nth (Z.to_nat (a - dst)) [] 0) m m 0) as H.
    rewrite Z.add_0_r in H. apply H; [lia|apply written_0|by destruct (Z.to_nat _)].
  - assert (Hd' : disjoint_areas (dst + 1) (src + 1) (Z.of_nat n)) by (destruct Hd; [left|right]; lia).
    pose proof (IH (dst + 1) (src + 1) (store8 dst (m src) m) Hd') as H. intros x. rewrite H.
    rewrite (chars_ext _ _ m).
    2: { intros y Hy. unfold store8. destruct (Z.eqb_spec y dst); [destruct Hd; lia|done]. }
    unfold store8. destruct (Z.leb_spec (dst + 1) x); simpl.
    + destruct (Z.leb_spec dst x); [|lia].
      replace (dst + 1 + Z.of_nat n) with (dst + Z.of_nat (S n)) by lia.
      replace (Z.to_nat (x - dst)) with (S (Z.to_nat (x - (dst + 1)))) by lia.
      destruct (_ <? _); [done|]. by destruct (Z.eqb_spec x dst); [lia|].
    + destruct (Z.eqb_spec x dst) as [->|].
      * rewrite Z.leb_refl, (proj2 (Z.ltb_lt dst _)) by lia. by rewrite Z.sub_diag.
      * by destruct (Z.leb_spec dst x); [lia|].
Qed.

Theorem rt_strncpy_spec_witness :
  written 0 8 (fun a => nth (Z.to_nat (a - 0)) [65; 65; 65] 0)
    (fun x => if (100 <=? x) && (x <? 103) then 65 else 0)
    (rt_strncpy 0 100 8 (fun x => if (100 <=? x) && (x <? 103) then 65 else 0)).
Proof. apply (rt_strncpy_spec 8 0 100). left. lia. Defined.

Lemma byte_diff a b : 0 <= a < 2 ^ 8 -> 0 <= b < 2 ^ 8 -> (swrap 8 (a - b) =? 0) = (a =? b).
Proof.
  intros Ha Hb. unfold swrap. change (2 ^ (8 - 1)) with 128. change (2 ^ 8) with 256 in *.
  pose proof (Z.mod_pos_bound (a - b) 256 ltac:(lia)).
  destruct (Z.eqb_spec a b) as [->|Hne]; [by rewrite Z.sub_diag|].
  assert ((a - b) mod 256 ≠ 0).
  { intros E. apply Z.mod_divide in E as [k Hk]; lia. }
  destruct (Z.ltb_spec ((a - b) mod 256) 128); apply Z.eqb_neq; lia.
Qed.

(** [rt_strncmp] is zero exactly when the two strings agree on their first [count]
    characters: the difference kept in a [signed char] never wraps to a false zero. *)
Theorem rt_strncmp_zero count cs ct m :
  bytes m -> (rt_strncmp cs ct count m = 0 <-> chars count cs m = chars count ct m).
Proof.
  intros Hm. unfold rt_strncmp. revert cs ct.
  assert (forall res cs ct, res = 0 ->
    (rt_strncmp_loop res cs ct count m = 0 <-> chars count cs m = chars count ct m)) as H; [|eauto].
  induction count as [|n IH]; intros res cs ct Hr; [done|]. simpl.
  rewrite byte_diff by done. pose proof (byte_diff (m cs) (m ct) (Hm cs) (Hm ct)) as Hbd.
  destruct (Z.eqb_spec (m cs) (m ct)) as [E|E]; simpl.
  - rewrite <- E in Hbd |- *. destruct (Z.eqb_spec (m cs) 0).
    + split; [done|]. intros _. by apply Z.eqb_eq in Hbd.
    + apply Z.eqb_eq in Hbd. rewrite IH by done. split; [by intros ->|by intros [=]].
  - apply Z.eqb_neq in Hbd. split; [done|].
    destruct (Z.eqb_spec (m cs) 0), (Z.eqb_spec (m ct) 0); intros [=]; congruence.
Qed.

Theorem rt_strncmp_zero_witness :
  rt_strncmp 0 4 4 (fun x => x mod 4) = 0 <-> chars 4 0 (fun x => x mod 4) = chars 4 4 (fun x => x mod 4).
Proof. apply rt_strncmp_zero. intros x. pose proof (Z.mod_pos_bound x 4). lia. Defined.
