(* ===== verification/Align.v ===== *)
(** * Align: allocation through rt_malloc, rt-thread/src/kservice.c

    [rt_malloc_align] and [rt_free_align], which keep the pointer of the heap in front of the
    aligned area, and [rt_strdup].  What rt_malloc returns for a size, 0 for no memory, is a
    parameter; that it is inside of the address space and aligned to words is what Mem shows. *)

From S2P Require Import Prelude KService.

#[local] Open Scope Z_scope.

Section alloc.
Context (rt_malloc : Z -> Z).

Definition uintptr_size : Z := 4 - 1.
Definition word_up (n : Z) : Z := u32 (Z.land (u32 (n + uintptr_size)) (Z.lnot uintptr_size)).

(** The size that is asked for, for the alignment that is used. *)
Definition align_size (size align : Z) : Z := u32 (word_up size + align).
Definition align_ptr (ptr align : Z) : Z :=
  if Z.land ptr (align - 1) =? 0 then u32 (ptr + align)
  else u32 (Z.land (u32 (ptr + (align - 1))) (Z.lnot (align - 1))).

Definition rt_malloc_align (size align : Z) (m : mem) : Z * mem :=
  let align := word_up align in
  let ptr := rt_malloc (align_size size align) in
  if negb (ptr =? 0) then
    let p := align_ptr ptr align in (p, store32 (p - 4) ptr m)
  else (ptr, m).

(** The pointer that rt_free_align gives to rt_free. *)
Definition rt_free_align (ptr : Z) (m : mem) : Z := load32 (ptr - 4) m.

(** [None] stands for a string that does not end. *)
Definition rt_strdup (fuel : nat) (s : Z) (m : mem) : option (Z * mem) :=
  match rt_strlen fuel s m with
  | None => None
  | Some n =>
      let len := u32 (n + 1) in
      let tmp := rt_malloc len in
      if tmp =? 0 then Some (0, m)
      else match rt_memcpy tmp s len m with Some m => Some (tmp, m) | None => None end
  end.
End alloc.

(** ** Words in memory *)

Lemma testbit_255 j : Z.testbit 255 j = (0 <=? j) && (j <? 8).
Proof.
  destruct (Z.leb_spec 0 j); [|by rewrite Z.testbit_neg_r]. change 255 with (Z.ones 8).
  destruct (Z.ltb_spec j 8); [by rewrite Z.ones_spec_low by lia|by rewrite Z.ones_spec_high by lia].
Qed.

(** The byte [b] of a word, put back in its place, has the bits of the word there and no others. *)
Lemma byte_bits v b i : 0 <= b -> Z.testbit (Z.land (Z.shiftr v b) 255) (i - b) = Z.testbit v i && (b <=? i) && (i <? b + 8).
Proof.
  intros Hb. rewrite Z.land_spec, testbit_255. destruct (Z.leb_spec 0 (i - b)), (Z.leb_spec b i); try lia; cbn [andb].
  rewrite Z.shiftr_spec by lia. replace (i - b + b) with i by lia. rewrite andb_true_r. f_equal.
  destruct (Z.ltb_spec (i - b) 8), (Z.ltb_spec i (b + 8)); lia.
Qed.

Lemma load_store_word a v m : 0 <= v < 2 ^ 32 -> load32 a (store32 a v m) = v.
Proof.
  intros Hv. unfold load32, store32, store8. rewrite !Z.eqb_refl.
  repeat rewrite (proj2 (Z.eqb_neq _ _)) by lia. apply Z.bits_inj'. intros i Hi.
  rewrite !Z.lor_spec, !Z.shiftl_spec, !byte_bits by lia.
  replace (Z.testbit (Z.land v 255) i) with (Z.testbit v i && (0 <=? i) && (i <? 8))
    by (pose proof (byte_bits v 0 i ltac:(lia)) as E; rewrite Z.shiftr_0_r, Z.sub_0_r in E; by rewrite E).
  destruct (Z.ltb_spec i 32) as [Hlt|Hge]; [|rewrite (bound_bits 32 v i) by lia; done].
  destruct (Z.testbit v i); [|done]. cbn [andb].
  destruct (Z.leb_spec 0 i), (Z.ltb_spec i 8), (Z.leb_spec 8 i), (Z.ltb_spec i (8 + 8)), (Z.leb_spec 16 i), (Z.ltb_spec i (16 + 8)),
    (Z.leb_spec 24 i), (Z.ltb_spec i (24 + 8)); (lia || done).
Qed.
Lemma load32_ext a m m' : (forall i, 0 <= i < 4 -> m (a + i) = m' (a + i)) -> load32 a m = load32 a m'.
Proof.
  intros H. unfold load32. pose proof (H 0 ltac:(lia)) as H0. rewrite Z.add_0_r in H0. by rewrite H0, (H 1), (H 2), (H 3) by lia.
Qed.

(** ** Alignment *)

Lemma ones_sub k : 0 <= k -> 2 ^ k - 1 = Z.ones k.
Proof. intros. rewrite Z.ones_equiv. lia. Qed.
Lemma land_align x k : 0 <= k -> Z.land x (Z.lnot (2 ^ k - 1)) = x / 2 ^ k * 2 ^ k.
Proof.
  intros Hk. rewrite ones_sub by done. rewrite <- Z.ldiff_land, Z.ldiff_ones_r by done.
  by rewrite Z.shiftr_div_pow2, Z.shiftl_mul_pow2 by done.
Qed.

Lemma word_up_eq n : 0 <= n -> n + 3 < 2 ^ 32 -> word_up n = (n + 3) / 4 * 4.
Proof.
  intros Hn Hl. unfold word_up, uintptr_size. change (4 - 1) with (2 ^ 2 - 1). rewrite land_align by lia. change (2 ^ 2 - 1) with 3.
  rewrite (wrap_small 32 (n + 3)) by lia. change (2 ^ 2) with 4. apply wrap_small. pose proof (Z.div_mod (n + 3) 4). pose proof (Z.mod_pos_bound (n + 3) 4). lia.
Qed.
Lemma word_up_pow k : 0 <= k <= 30 -> word_up (2 ^ k) = 2 ^ (Z.max k 2).
Proof.
  intros Hk. assert (k = 0 \/ k = 1 \/ 2 <= k) as [-> | [-> | H2]] by lia; [by vm_compute|by vm_compute|].
  assert (2 ^ k <= 2 ^ 30) by (apply Z.pow_le_mono_r; lia). assert (0 < 2 ^ k) by (apply Z.pow_pos_nonneg; lia).
  change (2 ^ 30) with 1073741824 in *. rewrite word_up_eq by lia. rewrite Z.max_l by lia.
  replace k with (2 + (k - 2)) by lia. rewrite Z.pow_add_r by lia. change (2 ^ 2) with 4.
  set (q := 2 ^ (k - 2)). pose proof (Z.div_mod (4 * q + 3) 4). pose proof (Z.mod_pos_bound (4 * q + 3) 4). lia.
Qed.

Lemma align_ptr_spec ptr k : 2 <= k <= 30 -> 0 < ptr -> ptr mod 4 = 0 -> ptr + 2 ^ k < 2 ^ 32 ->
  let p := align_ptr ptr (2 ^ k) in p mod 2 ^ k = 0 /\ ptr + 4 <= p <= ptr + 2 ^ k.
Proof.
  intros Hk Hpos H4 Hl. assert (H0 : 0 < 2 ^ k) by (apply Z.pow_pos_nonneg; lia).
  assert (Hq : exists q, 2 ^ k = 4 * q /\ 0 < q).
  { exists (2 ^ (k - 2)). split; [|apply Z.pow_pos_nonneg; lia]. replace k with (2 + (k - 2)) at 1 by lia. by rewrite Z.pow_add_r by lia. }
  assert (Hland : Z.land ptr (2 ^ k - 1) = ptr mod 2 ^ k) by (rewrite ones_sub by lia; apply Z.land_ones; lia).
  unfold align_ptr. rewrite land_align, Hland by lia.
  set (a := 2 ^ k) in *. pose proof (Z.div_mod ptr a ltac:(lia)) as Hd. pose proof (Z.mod_pos_bound ptr a H0) as Hm.
  destruct (Z.eqb_spec (ptr mod a) 0) as [E|E]; cbv zeta.
  - rewrite wrap_small by lia. split; [|destruct Hq as (q & ? & ?); lia]. rewrite <- Z.add_mod_idemp_r, Z_mod_same_full, Z.add_0_r by lia. done.
  - rewrite (wrap_small 32 (ptr + (a - 1))) by lia. pose proof (Z.div_mod (ptr + (a - 1)) a ltac:(lia)) as Hd2. pose proof (Z.mod_pos_bound (ptr + (a - 1)) a H0) as Hm2.
    assert (Hx : (ptr + (a - 1)) / a = ptr / a + 1).
    { symmetry. apply (Z.div_unique _ _ _ (ptr mod a - 1)); lia. }
    rewrite Hx. rewrite wrap_small by lia. split; [by apply Z_mod_mult|].
    assert (H4m : (ptr mod a) mod 4 = 0).
    { destruct Hq as (q & Hq & _). rewrite Hd in H4. rewrite Hq in H4 at 1. replace (4 * q * (ptr / a) + ptr mod a) with (ptr mod a + q * (ptr / a) * 4) in H4 by lia.
      by rewrite Z_mod_plus_full in H4. }
    destruct Hq as (q & Hq & _). pose proof (Z.div_mod (ptr mod a) 4 ltac:(lia)). lia.
Qed.

(** ** Aligned areas *)

(** Writing elsewhere does not change the word in front of an aligned area. *)
Lemma store32_other a v m x : (x < a \/ a + 4 <= x) -> store32 a v m x = m x.
Proof. intros H. unfold store32, store8. by rewrite !(proj2 (Z.eqb_neq x _)) by lia. Qed.

Lemma malloc_align_eq malloc size k m : 0 <= k <= 30 -> 0 <= size -> size + 3 + 2 ^ Z.max k 2 < 2 ^ 32 ->
  let n := align_size size (2 ^ Z.max k 2) in let ptr := malloc n in
  0 < ptr -> ptr mod 4 = 0 -> ptr + n < 2 ^ 32 ->
  let '(p, m') := rt_malloc_align malloc size (2 ^ k) m in
  p mod 2 ^ k = 0 /\ ptr + 4 <= p /\ p + size <= ptr + n /\ (forall x, x < p - 4 \/ p <= x -> m' x = m x) /\
  forall m2, (forall x, p - 4 <= x < p -> m2 x = m' x) -> rt_free_align p m2 = ptr.
Proof.
  intros Hk Hsize Hl n ptr Hpos H4 Hn. set (j := Z.max k 2) in *. assert (Hj : 2 <= j <= 30) by lia.
  assert (H0 : 0 < 2 ^ j) by (apply Z.pow_pos_nonneg; lia). pose proof (word_up_eq size Hsize ltac:(lia)) as Hup.
  pose proof (Z.div_mod (size + 3) 4 ltac:(lia)). pose proof (Z.mod_pos_bound (size + 3) 4 ltac:(lia)).
  assert (Hnn : n = word_up size + 2 ^ j) by (unfold n, align_size; apply wrap_small; lia).
  destruct (align_ptr_spec ptr j Hj Hpos H4 ltac:(lia)) as [Hmod Hp]. unfold rt_malloc_align. rewrite word_up_pow by done. fold j n ptr.
  rewrite (proj2 (Z.eqb_neq ptr 0)) by lia. cbn [negb]. set (p := align_ptr ptr (2 ^ j)) in *. split; [|split; [lia|split; [lia|split]]].
  - unfold j in Hmod. destruct (Z.max_spec k 2) as [[Hlt E]|[Hge E]]; rewrite E in Hmod; [|done].
    replace (2 ^ 2) with (2 ^ k * 2 ^ (2 - k)) in Hmod by (rewrite <- Z.pow_add_r by lia; f_equal; lia).
    assert (0 < 2 ^ k) by (apply Z.pow_pos_nonneg; lia). assert (0 < 2 ^ (2 - k)) by (apply Z.pow_pos_nonneg; lia).
    apply Z.mod_divide in Hmod; [|nia]. apply Z.mod_divide; [lia|]. etrans; [|exact Hmod]. by exists (2 ^ (2 - k)); lia.
  - intros x Hx. apply store32_other. lia.
  - intros m2 Hm2. unfold rt_free_align. rewrite (load32_ext (p - 4) m2 (store32 (p - 4) ptr m)); [apply load_store_word; lia|].
    intros i Hi. apply Hm2. lia.
Qed.

(** C26: An aligned area is aligned, inside of what the heap gave, and has the pointer to that in
    front of it, which rt_free_align finds as long as the word stays as it is. *)
Theorem rt_malloc_align_spec malloc size k m : 0 <= k <= 30 -> 0 <= size -> size + 3 + 2 ^ Z.max k 2 < 2 ^ 32 ->
  let n := align_size size (2 ^ Z.max k 2) in let ptr := malloc n in
  0 < ptr -> ptr mod 4 = 0 -> ptr + n < 2 ^ 32 ->
  let '(p, m') := rt_malloc_align malloc size (2 ^ k) m in
  p mod 2 ^ k = 0 /\ ptr + 4 <= p /\ p + size <= ptr + n /\ (forall x, x < p - 4 \/ p <= x -> m' x = m x) /\
  forall m2, (forall x, p - 4 <= x < p -> m2 x = m' x) -> rt_free_align p m2 = ptr.
Proof. apply malloc_align_eq. Qed.

Lemma rt_malloc_align_spec_witness :
  let '(p, m') := rt_malloc_align (fun _ => 0x24000014) 100 32 (fun _ => 0) in
  p mod 32 = 0 /\ 0x24000014 + 4 <= p /\ p + 100 <= 0x24000014 + 132 /\ (forall x, x < p - 4 \/ p <= x -> m' x = 0) /\
  forall m2, (forall x, p - 4 <= x < p -> m2 x = m' x) -> rt_free_align p m2 = 0x24000014.
Proof.
  apply (rt_malloc_align_spec (fun _ => 0x24000014) 100 5 (fun _ => 0)); by vm_compute || (split; by vm_compute).
Defined.

(** The size is rounded and the alignment added modulo 2^32: near its end a request is served
    with an area of the alignment alone. *)
Lemma malloc_align_overflow : align_size 0xfffffffd (word_up 64) = 64.
Proof. by vm_compute. Qed.

(** ** Copies of strings *)

Lemma rt_strlen_eq m s n : (forall i, 0 <= i < n -> m (s + i) ≠ 0) -> m (s + n) = 0 -> 0 <= n -> forall fuel, (Z.to_nat n < fuel)%nat ->
  rt_strlen fuel s m = Some n.
Proof.
  intros Hne H0 Hn fuel Hf. unfold rt_strlen.
  destruct (while_rule (fun sc => s <= sc <= s + n) (fun sc => Z.to_nat (s + n - sc)) (fun sc => negb (m sc =? 0)) (fun sc => Some (sc + 1)))
    with (fuel := fuel) (x := s) as (sc & -> & Hsc & Hend).
  - intros sc Hsc Hc. apply negb_true_iff, Z.eqb_neq in Hc. assert (sc ≠ s + n) by (intros ->; done). eexists. split; [done|]. split; lia.
  - lia.
  - replace (s + n - s) with n by lia. done.
  - apply negb_false_iff, Z.eqb_eq in Hend. f_equal. destruct (decide (sc - s = n)); [done|]. exfalso. apply (Hne (sc - s)); [lia|].
    by replace (s + (sc - s)) with sc by lia.
Qed.

(** A copy of a string is that string, with its end, and nothing else is written. *)
Lemma rt_strdup_spec malloc s n m fuel : 0 <= n -> n + 1 < 2 ^ 32 -> bytes m ->
  (forall i, 0 <= i < n -> m (s + i) ≠ 0) -> m (s + n) = 0 -> (Z.to_nat n < fuel)%nat ->
  let tmp := malloc (n + 1) in
  (tmp ≠ 0 -> disjoint_areas tmp s (n + 1)) ->
  if tmp =? 0 then rt_strdup malloc fuel s m = Some (0, m)
  else exists m', rt_strdup malloc fuel s m = Some (tmp, m') /\ written tmp (n + 1) (fun a => m (s + (a - tmp))) m m'.
Proof.
  intros Hn Hl Hb Hne H0 Hf tmp Hd. unfold rt_strdup. rewrite (rt_strlen_eq m s n) by done. rewrite wrap_small by lia. fold tmp.
  destruct (Z.eqb_spec tmp 0) as [|Ht]; [done|]. destruct (rt_memcpy_written tmp s (n + 1) m ltac:(lia) Hb (Hd Ht)) as (m' & -> & Hw).
  by exists m'.
Qed.
