(* ===== verification/Printf.v ===== *)
(** * Printf: formatted output, rt-thread/src/kservice.c

    The format and the strings among the arguments are in [rom], the output in a memory of
    its own: the C language leaves output into its own input undefined.  The arguments of a
    call are 32-bit words.  The output pointer is a 32-bit address.  [RT_PRINTF_PRECISION]
    is defined, [RT_PRINTF_LONGLONG] and [RT_PRINTF_SPECIAL] are not. *)

From S2P Require Import Prelude KService.

#[local] Open Scope Z_scope.

Definition ZEROPAD : Z := 0x01.
Definition SIGN : Z := 0x02.
Definition PLUS : Z := 0x04.
Definition SPACE : Z := 0x08.
Definition LEFT : Z := 0x10.
Definition SPECIAL : Z := 0x20.
Definition LARGE : Z := 0x40.
Definition has_flag (type flag : Z) : bool := negb (Z.land type flag =? 0).

(** Characters, by their codes. *)
Definition ch_space : Z := 32.
Definition ch_percent : Z := 37.
Definition ch_plus : Z := 43.
Definition ch_minus : Z := 45.
Definition ch_0 : Z := 48.

(** The memory that is written, [str], [fmt] and [args]. *)
Record printer := mkP { p_mem : mem; p_str : Z; p_fmt : Z; p_args : list Z }.
Abbreviation W := (M printer).

(** ** Definitions *)

(** [if (str < end) *str = c; ++str;] *)
Definition put_char (e c : Z) (p : printer) : printer :=
  mkP (if p_str p <? e then store8 (p_str p) (u8 c) (p_mem p) else p_mem p) (u32 (p_str p + 1)) (p_fmt p) (p_args p).
Definition put (e c : Z) : W unit := modify (put_char e c).

(** [while (low < v--)] and [while (--v > 0)], with the output of [c] as body; the result
    is [v] after the loop. *)
Fixpoint pad_post_loop (n : nat) (e c low v : Z) : W Z :=
  match n with
  | O => mret (i32 (v - 1))
  | S n => if low <? v then put e c ;; pad_post_loop n e c low (i32 (v - 1)) else mret (i32 (v - 1))
  end.
Definition pad_post (e c low v : Z) : W Z := pad_post_loop (Z.to_nat (v - low)) e c low v.
Fixpoint pad_pre_loop (n : nat) (e c v : Z) : W Z :=
  let v := i32 (v - 1) in
  match n with
  | O => mret v
  | S n => if 0 <? v then put e c ;; pad_pre_loop n e c v else mret v
  end.
Definition pad_pre (e c v : Z) : W Z := pad_pre_loop (Z.to_nat v) e c v.

(** [divide]: the digit and what is left of [*n]. *)
Definition divide (n base : Z) : Z * Z :=
  if base =? 10 then (u32 n mod 10, i32 (u32 n / 10)) else (u32 n mod 16, i32 (u32 n / 16)).

Definition small_digits (d : Z) : Z := if d <? 10 then 48 + d else 87 + d.
Definition large_digits (d : Z) : Z := if d <? 10 then 48 + d else 55 + d.

(** The digits, last first, in [tmp], which has room for 16. *)
Fixpoint digits_loop (fuel : nat) (digits : Z -> Z) (base num : Z) (tmp : list Z) : option (list Z) :=
  match fuel with
  | O => None
  | S fuel =>
      if num =? 0 then Some tmp
      else if (16 <=? length tmp)%nat then None
      else let '(res, num) := divide num base in digits_loop fuel digits base num (tmp ++ [digits res])
  end.
Definition number_digits (digits : Z -> Z) (base num : Z) : option (list Z) :=
  if num =? 0 then Some [ch_0] else digits_loop 17 digits base num [].

(** [while (i-- > 0 && (precision_bak != 0)) put tmp[i]] *)
Fixpoint put_tmp (e precision_bak : Z) (tmp_rev : list Z) : W unit :=
  match tmp_rev with
  | [] => mret tt
  | c :: tmp_rev => if negb (precision_bak =? 0) then put e c ;; put_tmp e precision_bak tmp_rev else mret tt
  end.

(** [print_number], from the [buf] and to the [buf] in the state. *)
Definition print_number (e num base s precision type : Z) : W unit :=
  let precision_bak := precision in
  let size := s in
  let digits := if has_flag type LARGE then large_digits else small_digits in
  let type := if has_flag type LEFT then Z.land type (Z.lnot ZEROPAD) else type in
  let c := if has_flag type ZEROPAD then ch_0 else ch_space in
  let '(sign, num) :=
    if has_flag type SIGN then
      if num <? 0 then (ch_minus, i32 (- num))
      else if has_flag type PLUS then (ch_plus, num)
      else if has_flag type SPACE then (ch_space, num)
      else (0, num)
    else (0, num) in
  tmp ← deref (fun _ => number_digits digits base num);
  let i := Z.of_nat (length tmp) in
  let precision := if precision <? i then i else precision in
  let size := i32 (size - precision) in
  size ← (if negb (has_flag type (Z.lor ZEROPAD LEFT)) then
            pad_post e ch_space 0 (if negb (sign =? 0) && (0 <? size) then i32 (size - 1) else size)
          else mret size);
  size ← (if negb (sign =? 0) then put e sign ;; mret (i32 (size - 1)) else mret size);
  size ← (if negb (has_flag type LEFT) then pad_post e c 0 size else mret size);
  _ ← pad_post e ch_0 i precision;
  put_tmp e precision_bak (rev tmp) ;;
  _ ← pad_post e ch_space 0 size;
  mret tt.

Section format.
Context (rom : mem).

(** [*fmt] and [++fmt] *)
Definition cur : W Z := gets (fun p => rom (p_fmt p)).
Definition next : W unit := modify (fun p => mkP (p_mem p) (p_str p) (p_fmt p + 1) (p_args p)).
(** [va_arg]: a word; reading more arguments than there are is a fault. *)
Definition va_arg : W Z := fun p =>
  match p_args p with [] => None | a :: args => Some (a, mkP (p_mem p) (p_str p) (p_fmt p) args) end.

Definition is_digit (c : Z) : bool := u32 (c - ch_0) <? 10.

Fixpoint skip_atoi (fuel : nat) (i : Z) : W Z :=
  match fuel with
  | O => fault
  | S fuel =>
      c ← cur;
      if is_digit c then next ;; skip_atoi fuel (i32 (i * 10 + c - ch_0)) else mret i
  end.

Definition flag_char (c : Z) : option Z :=
  if c =? ch_minus then Some LEFT else if c =? ch_plus then Some PLUS else if c =? ch_space then Some SPACE
  else if c =? 35 then Some SPECIAL else if c =? ch_0 then Some ZEROPAD else None.

(** The loop over the flags, which also skips the percent sign. *)
Fixpoint flags_loop (fuel : nat) (flags : Z) : W Z :=
  match fuel with
  | O => fault
  | S fuel =>
      next ;;
      c ← cur;
      match flag_char c with
      | Some f => flags_loop fuel (Z.lor flags f)
      | None => mret flags
      end
  end.

(** The field width, and the flags, to which a negative width adds one. *)
Definition field_width_of (fuel : nat) (flags : Z) : W (Z * Z) :=
  c ← cur;
  if is_digit c then w ← skip_atoi fuel 0; mret (w, flags)
  else if c =? 42 then
    next ;;
    a ← va_arg;
    let w := i32 a in
    mret (if w <? 0 then (i32 (- w), Z.lor flags LEFT) else (w, flags))
  else mret (-1, flags).

Definition precision_of (fuel : nat) : W Z :=
  c ← cur;
  if c =? 46 then
    next ;;
    c ← cur;
    p ← (if is_digit c then skip_atoi fuel 0
         else if c =? 42 then next ;; a ← va_arg; mret (i32 a)
         else mret (-1));
    mret (if p <? 0 then 0 else p)
  else mret (-1).

Definition qualifier_of : W Z :=
  c ← cur;
  if (c =? 104) || (c =? 108) then next ;; mret c else mret 0.

(** [case 'c'] *)
Definition conv_char (e flags field_width : Z) : W unit :=
  w ← (if negb (has_flag flags LEFT) then pad_pre e ch_space field_width else mret field_width);
  a ← va_arg;
  put e (u8 a) ;;
  _ ← pad_pre e ch_space w;
  mret tt.

(** [for (i = 0; i < len; ++i) put *s++] *)
Fixpoint put_str (n : nat) (e s : Z) : W unit :=
  match n with O => mret tt | S n => put e (rom s) ;; put_str n e (s + 1) end.

(** The address of the string "(NULL)". *)
Context (null_string : Z).

(** [case 's'] *)
Definition conv_str (fuel : nat) (e flags field_width precision : Z) : W unit :=
  a ← va_arg;
  let s := if a =? 0 then null_string else a in
  len ← deref (fun _ => rt_strlen fuel s rom);
  let len := i32 len in
  let len := if (0 <? precision) && (precision <? len) then precision else len in
  w ← (if negb (has_flag flags LEFT) then pad_post e ch_space len field_width else mret field_width);
  put_str (Z.to_nat len) e s ;;
  _ ← pad_post e ch_space len w;
  mret tt.

(** The integer conversions: the base and the flags. *)
Definition int_conv (c flags : Z) : option (Z * Z) :=
  if c =? 111 then Some (8, flags)
  else if c =? 88 then Some (16, Z.lor flags LARGE)
  else if c =? 120 then Some (16, flags)
  else if (c =? 100) || (c =? 105) then Some (10, Z.lor flags SIGN)
  else if c =? 117 then Some (10, flags)
  else None.

(** The number, as the [rt_uint32_t] [num]. *)
Definition int_arg (qualifier flags : Z) : W Z :=
  a ← va_arg;
  mret (if qualifier =? 104 then
          let num := u16 a in if has_flag flags SIGN then u32 (i16 num) else num
        else u32 a).

(** One conversion, from its percent sign to the [++fmt] of the loop. *)
Definition conversion (fuel : nat) (e : Z) : W unit :=
  flags ← flags_loop fuel 0;
  '(field_width, flags) ← field_width_of fuel flags;
  precision ← precision_of fuel;
  qualifier ← qualifier_of;
  c ← cur;
  if c =? 99 then conv_char e flags field_width ;; next
  else if c =? 115 then conv_str fuel e flags field_width precision ;; next
  else if c =? 112 then
    let '(field_width, flags) := if field_width =? -1 then (8, Z.lor flags ZEROPAD) else (field_width, flags) in
    a ← va_arg;
    print_number e (i32 a) 16 field_width precision flags ;; next
  else if c =? ch_percent then put e ch_percent ;; next
  else
    match int_conv c flags with
    | Some (base, flags) =>
        num ← int_arg qualifier flags;
        print_number e (i32 num) base field_width precision flags ;; next
    | None =>
        put e ch_percent ;;
        if negb (c =? 0) then put e c ;; next else mret tt
    end.

(** [for (; *fmt; ++fmt)] *)
Fixpoint format_loop (fuel0 fuel : nat) (e : Z) : W unit :=
  match fuel with
  | O => fault
  | S fuel =>
      c ← cur;
      if c =? 0 then mret tt
      else
        (if negb (c =? ch_percent) then put e c ;; next else conversion fuel0 e) ;;
        format_loop fuel0 fuel e
  end.

Definition rt_vsnprintf (fuel : nat) (buf size fmt : Z) (args : list Z) (m : mem) : option (Z * mem) :=
  let e := u32 (buf + size) in
  let '(e, size) := if e <? buf then (0xffffffff, u32 (0xffffffff - buf)) else (e, size) in
  match format_loop fuel fuel e (mkP m buf fmt args) with
  | None => None
  | Some (_, p) =>
      let m := if 0 <? size then
                 if p_str p <? e then store8 (p_str p) 0 (p_mem p) else store8 (e - 1) 0 (p_mem p)
               else p_mem p in
      Some (i32 (p_str p - buf), m)
  end.

Definition rt_snprintf (fuel : nat) (buf size fmt : Z) (args : list Z) (m : mem) : option (Z * mem) :=
  rt_vsnprintf fuel buf size fmt args m.
Definition rt_vsprintf (fuel : nat) (buf fmt : Z) (args : list Z) (m : mem) : option (Z * mem) :=
  rt_vsnprintf fuel buf 0xffffffff fmt args m.
Definition rt_sprintf (fuel : nat) (buf fmt : Z) (args : list Z) (m : mem) : option (Z * mem) :=
  rt_vsprintf fuel buf fmt args m.
End format.

(** ** What is printed *)

(** The output of a list of characters. *)
Definition emit (e : Z) (l : list Z) (p : printer) : printer := foldl (fun p c => put_char e c p) p l.
Lemma emit_app e l1 l2 p : emit e (l1 ++ l2) p = emit e l2 (emit e l1 p).
Proof. apply foldl_app. Qed.
Lemma emit_input e l p : p_fmt (emit e l p) = p_fmt p /\ p_args (emit e l p) = p_args p.
Proof. revert p. induction l as [|c l IH]; intros p; [done|]. change (emit e (c :: l) p) with (emit e l (put_char e c p)).
  by destruct (IH (put_char e c p)) as [-> ->]. Qed.

(** Padding by a count that may be negative. *)
Definition pad (c n : Z) : list Z := repeat c (Z.to_nat n).
Lemma pad_neg c n : n <= 0 -> pad c n = [].
Proof. intros. unfold pad. by replace (Z.to_nat n) with O by lia. Qed.
Lemma pad_pos c n : 0 < n -> pad c n = c :: pad c (n - 1).
Proof. intros. unfold pad. by replace (Z.to_nat n) with (S (Z.to_nat (n - 1))) by lia. Qed.

Lemma pad_post_eq e c low v p : 0 <= low < 2 ^ 31 -> - 2 ^ 31 < v < 2 ^ 31 ->
  pad_post e c low v p = Some (if low <? v then low - 1 else v - 1, emit e (pad c (v - low)) p).
Proof.
  intros Hl Hv. change (2 ^ 31) with 2147483648 in *. unfold pad_post. remember (Z.to_nat (v - low)) as n eqn:En.
  revert v Hv En p. induction n as [|n IH]; intros v Hv En p; cbn [pad_post_loop].
  - rewrite swrap_small by (change (2 ^ (32 - 1)) with 2147483648; lia). by rewrite (proj2 (Z.ltb_ge low v)), pad_neg by lia.
  - rewrite (proj2 (Z.ltb_lt low v)), pad_pos by lia. rewrite swrap_small by (change (2 ^ (32 - 1)) with 2147483648; lia).
    unfold put. rewrite (bind_some _ _ p tt (put_char e c p)) by done. rewrite IH by lia. cbn [emit foldl].
    replace (v - 1 - low) with (v - low - 1) by lia. do 2 f_equal. destruct (Z.ltb_spec low (v - 1)); lia.
Qed.

Lemma pad_pre_eq e c v p : - 2 ^ 31 < v < 2 ^ 31 -> pad_pre e c v p = Some (if 0 <? v then 0 else v - 1, emit e (pad c (v - 1)) p).
Proof.
  intros Hv. change (2 ^ 31) with 2147483648 in *. unfold pad_pre. remember (Z.to_nat v) as n eqn:En.
  revert v Hv En p. induction n as [|n IH]; intros v Hv En p; cbn [pad_pre_loop];
    rewrite swrap_small by (change (2 ^ (32 - 1)) with 2147483648; lia).
  - by rewrite (proj2 (Z.ltb_ge 0 v)), pad_neg by lia.
  - rewrite (proj2 (Z.ltb_lt 0 v)) by lia. destruct (Z.ltb_spec 0 (v - 1)).
    + rewrite (pad_pos _ (v - 1)) by lia. unfold put. rewrite (bind_some _ _ p tt (put_char e c p)) by done.
      rewrite IH by lia. by rewrite (proj2 (Z.ltb_lt 0 (v - 1))) by lia.
    + rewrite pad_neg by lia. by replace (v - 1) with 0 by lia.
Qed.

(** *** Digits *)

(** The digits of [u] in base [b], first first. *)
Fixpoint to_digits (fuel : nat) (b u : Z) : list Z :=
  match fuel with
  | O => []
  | S fuel => if u =? 0 then [] else to_digits fuel b (u / b) ++ [u mod b]
  end.
Definition value (b : Z) (ds : list Z) : Z := foldl (fun v d => v * b + d) 0 ds.

Lemma value_snoc b ds d : value b (ds ++ [d]) = value b ds * b + d.
Proof. unfold value. by rewrite foldl_app. Qed.
Lemma to_digits_value b n u : 1 < b -> 0 <= u < b ^ Z.of_nat n -> value b (to_digits n b u) = u.
Proof.
  intros Hb. revert u. induction n as [|n IH]; intros u Hu; [change (b ^ Z.of_nat 0) with 1 in Hu; cbn; lia|]. cbn [to_digits].
  destruct (Z.eqb_spec u 0) as [->|Hne]; [done|]. rewrite value_snoc, IH; [pose proof (Z.div_mod u b); lia|].
  rewrite Nat2Z.inj_succ, Z.pow_succ_r in Hu by lia. split; [apply Z.div_pos; lia|apply Z.div_lt_upper_bound; lia].
Qed.
Lemma to_digits_length b n u : (length (to_digits n b u) <= n)%nat.
Proof.
  revert u. induction n as [|n IH]; intros u; cbn [to_digits]; [done|]. destruct (u =? 0); [cbn; lia|].
  rewrite length_app. cbn. specialize (IH (u / b)). lia.
Qed.
Lemma to_digits_range b n u : 1 < b -> Forall (fun d => 0 <= d < b) (to_digits n b u).
Proof.
  intros Hb. revert u. induction n as [|n IH]; intros u; cbn [to_digits]; [constructor|]. destruct (u =? 0); [constructor|].
  apply Forall_app. split; [apply IH|]. constructor; [apply Z.mod_pos_bound; lia|constructor].
Qed.
Lemma to_digits_nonempty b n u : u ≠ 0 -> to_digits (S n) b u ≠ [].
Proof. intros Hu. cbn. rewrite (proj2 (Z.eqb_neq u 0)) by done. by intros []%app_eq_nil. Qed.

(** What the code divides by: 10, or else 16. *)
Definition radix (base : Z) : Z := if base =? 10 then 10 else 16.

Lemma divide_eq n base : divide n base = (u32 n mod radix base, i32 (u32 n / radix base)).
Proof. unfold divide, radix. by destruct (base =? 10). Qed.
Lemma radix_ge base : 10 <= radix base.
Proof. unfold radix. destruct (base =? 10); lia. Qed.

Lemma digits_loop_eq fuel digits base n num tmp :
  - 2 ^ 31 <= num < 2 ^ 31 -> u32 num < 10 ^ Z.of_nat n -> (n < fuel)%nat -> (length tmp + n <= 16)%nat ->
  digits_loop fuel digits base num tmp = Some (tmp ++ rev (digits <$> to_digits n (radix base) (u32 num))).
Proof.
  revert n num tmp. induction fuel as [|fuel IH]; intros n num tmp Hnum Hn Hf Ht; [lia|]. cbn [digits_loop].
  pose proof (wrap_range 32 num ltac:(done)) as Hu. pose proof (radix_ge base) as Hr.
  assert (Hz : num = 0 <-> u32 num = 0).
  { change (2 ^ 31) with 2147483648 in *. unfold wrap. change (2 ^ 32) with 4294967296. split; [by intros ->|]. intros Hm.
    apply Z.mod_divide in Hm as [k Hk]; [|done]. lia. }
  destruct n as [|n]; cbn [to_digits].
  - change (10 ^ Z.of_nat 0) with 1 in Hn. rewrite (proj2 (Z.eqb_eq num 0)) by (apply Hz; lia). cbn. by rewrite app_nil_r.
  - destruct (Z.eqb_spec num 0) as [E|E], (Z.eqb_spec (u32 num) 0) as [E'|E']; try tauto; [cbn; by rewrite app_nil_r|].
    rewrite (proj2 (Nat.leb_gt 16 (length tmp))) by lia. rewrite divide_eq.
    assert (Hq : 0 <= u32 num / radix base < 2 ^ 31).
    { change (2 ^ 31) with 2147483648. change (2 ^ 32) with 4294967296 in Hu. split; [apply Z.div_pos; lia|apply Z.div_lt_upper_bound; nia]. }
    rewrite swrap_small by (change (2 ^ (32 - 1)) with (2 ^ 31); lia).
    assert (Hw : u32 (u32 num / radix base) = u32 num / radix base).
    { apply wrap_small. change (2 ^ 32) with (2 * 2 ^ 31). lia. }
    rewrite (IH n); [|lia|rewrite Hw|lia|rewrite length_app; cbn; lia].
    + rewrite Hw, fmap_app, rev_app_distr. cbn. by rewrite <- app_assoc.
    + rewrite Nat2Z.inj_succ, Z.pow_succ_r in Hn by lia. apply Z.div_lt_upper_bound; [lia|].
      pose proof (Z.pow_pos_nonneg 10 (Z.of_nat n)). nia.
Qed.

(** The characters of a number: at most ten digits. *)
Definition number_chars (digits : Z -> Z) (base num : Z) : list Z :=
  if u32 num =? 0 then [ch_0] else digits <$> to_digits 10 (radix base) (u32 num).
Lemma number_digits_eq digits base num : - 2 ^ 31 <= num < 2 ^ 31 ->
  number_digits digits base num = Some (rev (number_chars digits base num)) /\
  (0 < length (number_chars digits base num) <= 10)%nat.
Proof.
  intros Hnum. unfold number_digits, number_chars. pose proof (wrap_range 32 num ltac:(done)) as Hu.
  destruct (Z.eqb_spec num 0) as [->|Hne]; [split; [done|change (0 < 1 <= 10)%nat; lia]|].
  rewrite (proj2 (Z.eqb_neq (u32 num) 0)).
  - assert (H10 : u32 num < 10 ^ Z.of_nat 10) by (change (10 ^ Z.of_nat 10) with 10000000000; change (2 ^ 32) with 4294967296 in Hu; lia).
    rewrite (digits_loop_eq 17 digits base 10 num [] Hnum H10) by (cbn [length]; lia). cbn [app]. split; [done|]. rewrite length_fmap.
    split; [|apply to_digits_length]. apply Nat.neq_0_lt_0. intros E%nil_length_inv. revert E. apply to_digits_nonempty.
    intros E. unfold wrap in E. apply Z.mod_divide in E as [k Hk]; [|done].
    change (2 ^ 31) with 2147483648 in *. change (2 ^ 32) with 4294967296 in Hk. lia.
  - intros E. unfold wrap in E. apply Z.mod_divide in E as [k Hk]; [|done].
    change (2 ^ 31) with 2147483648 in *. change (2 ^ 32) with 4294967296 in Hk. lia.
Qed.

(** *** Numbers *)

Definition sign_of (num type : Z) : list Z :=
  if has_flag type SIGN then
    if num <? 0 then [ch_minus] else if has_flag type PLUS then [ch_plus] else if has_flag type SPACE then [ch_space] else []
  else [].
Definition magnitude (num type : Z) : Z := if has_flag type SIGN then Z.abs num else num.

(** The text of a number: the sign, the digits with the zeros the precision asks for, and
    the padding to the width [s]: spaces before, or zeros between sign and digits, or
    spaces behind.  With precision 0 there are no digits, but room is left for them. *)
Definition number_text (num base s precision type : Z) : list Z :=
  let digits := if has_flag type LARGE then large_digits else small_digits in
  let left := has_flag type LEFT in
  let zero := has_flag type ZEROPAD && negb left in
  let sign := sign_of num type in
  let chars := number_chars digits base (magnitude num type) in
  let prec := Z.max precision (Z.of_nat (length chars)) in
  let fill := s - prec - Z.of_nat (length sign) in
  (if negb left && negb zero then pad ch_space fill else []) ++ sign ++ (if zero then pad ch_0 fill else []) ++
  pad ch_0 (prec - Z.of_nat (length chars)) ++ (if precision =? 0 then [] else chars) ++
  (if left then pad ch_space fill else []).

Lemma put_tmp_eq e b l p : put_tmp e b l p = Some (tt, emit e (if b =? 0 then [] else l) p).
Proof.
  revert p. induction l as [|c l IH]; intros p; cbn [put_tmp]; [by destruct (b =? 0)|].
  destruct (b =? 0) eqn:Eb; cbn [negb]; [done|]. unfold put. rewrite (bind_some _ _ p tt (put_char e c p)) by done. by rewrite IH.
Qed.

Lemma has_clear type : has_flag type LEFT = true ->
  has_flag (Z.land type (Z.lnot ZEROPAD)) LEFT = true /\ has_flag (Z.land type (Z.lnot ZEROPAD)) ZEROPAD = false /\
  has_flag (Z.land type (Z.lnot ZEROPAD)) (Z.lor ZEROPAD LEFT) = true.
Proof.
  unfold has_flag. intros H. apply negb_true_iff, Z.eqb_neq in H. rewrite <- !Z.land_assoc.
  change (Z.land (Z.lnot ZEROPAD) LEFT) with LEFT. change (Z.land (Z.lnot ZEROPAD) ZEROPAD) with 0.
  change (Z.land (Z.lnot ZEROPAD) (Z.lor ZEROPAD LEFT)) with LEFT. rewrite Z.land_0_r. by rewrite (proj2 (Z.eqb_neq _ 0) H).
Qed.
Lemma has_lor type f g : has_flag type (Z.lor f g) = has_flag type f || has_flag type g.
Proof.
  unfold has_flag. rewrite Z.land_lor_distr_r. destruct (Z.eqb_spec (Z.land type f) 0) as [->|H1]; cbn [negb orb]; [done|].
  destruct (Z.eqb_spec (Z.lor (Z.land type f) (Z.land type g)) 0) as [[H2 _]%Z.lor_eq_0_iff|]; [done|done].
Qed.
Lemma has_other type f g : Z.land (Z.lnot f) g = g -> has_flag (Z.land type (Z.lnot f)) g = has_flag type g.
Proof. intros E. unfold has_flag. by rewrite <- Z.land_assoc, E. Qed.

(** The type after [type &= ~ZEROPAD]. *)
Definition type_left (type : Z) : Z := if has_flag type LEFT then Z.land type (Z.lnot ZEROPAD) else type.
Lemma has_type_left type :
  has_flag (type_left type) LEFT = has_flag type LEFT /\ has_flag (type_left type) ZEROPAD = has_flag type ZEROPAD && negb (has_flag type LEFT) /\
  has_flag (type_left type) (Z.lor ZEROPAD LEFT) = has_flag type ZEROPAD || has_flag type LEFT /\
  has_flag (type_left type) SIGN = has_flag type SIGN /\ has_flag (type_left type) PLUS = has_flag type PLUS /\ has_flag (type_left type) SPACE = has_flag type SPACE.
Proof.
  unfold type_left. destruct (has_flag type LEFT) eqn:E.
  - destruct (has_clear _ E) as (-> & -> & ->). rewrite !has_other by done. by rewrite andb_false_r, orb_true_r.
  - by rewrite has_lor, E, andb_true_r.
Qed.

Lemma i32_abs num : - 2 ^ 31 <= num < 2 ^ 31 ->
  u32 (i32 (- num)) = u32 (- num) /\ - 2 ^ 31 <= i32 (- num) < 2 ^ 31.
Proof.
  intros Hn. split; [|apply (swrap_range 32); done]. unfold swrap, wrap.
  destruct (_ <? _); [apply Zmod_mod|]. set (x := (- num) mod 2 ^ 32). rewrite <- (Z_mod_plus_full (x - 2 ^ 32) 1).
  replace (x - 2 ^ 32 + 1 * 2 ^ 32) with x by lia. apply Zmod_mod.
Qed.

(** The sign and the number that is printed. *)
Definition sign_num (num type : Z) : Z * Z :=
  if has_flag type SIGN then
    if num <? 0 then (ch_minus, i32 (- num))
    else if has_flag type PLUS then (ch_plus, num) else if has_flag type SPACE then (ch_space, num) else (0, num)
  else (0, num).
Lemma sign_num_eq num type : - 2 ^ 31 <= num < 2 ^ 31 ->
  exists n, sign_num num type = (default 0 (head (sign_of num type)), n) /\ - 2 ^ 31 <= n < 2 ^ 31 /\
    (forall digits base, number_chars digits base n = number_chars digits base (magnitude num type)) /\
    ((sign_of num type = [] /\ (fst (sign_num num type) =? 0) = true) \/
     (exists c, sign_of num type = [c] /\ (c =? 0) = false)).
Proof.
  intros Hn. unfold sign_num, sign_of, magnitude. destruct (has_flag type SIGN); [|by exists num; repeat split; try tauto; left].
  destruct (Z.ltb_spec num 0).
  - exists (i32 (- num)). split; [done|]. destruct (i32_abs num Hn) as [E1 E2]. split; [done|]. split; [|by right; eexists].
    intros. unfold number_chars. rewrite E1. by rewrite (Z.abs_neq num) by lia.
  - exists num. rewrite (Z.abs_eq num) by lia. destruct (has_flag type PLUS); [|destruct (has_flag type SPACE)]; repeat split; try tauto; try (by right; eexists); by left.
Qed.

Lemma if_ret {A} (b : bool) (x y : A) p : (if b then mret x else mret y : W A) p = Some (if b then x else y, p).
Proof. by destruct b. Qed.

(** The stages of [print_number] around the sign. *)
Lemma number_lead_eq e (skip sg : bool) size p : - 2 ^ 31 <= size - 1 -> size < 2 ^ 31 ->
  (if negb skip then pad_post e ch_space 0 (if sg && (0 <? size) then i32 (size - 1) else size) else mret size : W Z) p =
  Some (if skip then size else Z.min (-1) (size - (if sg && (0 <? size) then 2 else 1)),
    emit e (if skip then [] else pad ch_space (size - (if sg then 1 else 0))) p).
Proof.
  intros H1 H2. change (2 ^ 31) with 2147483648 in *. destruct skip; [done|]. cbn [negb]. destruct sg; cbn [andb].
  - destruct (Z.ltb_spec 0 size).
    + rewrite swrap_small by (change (2 ^ (32 - 1)) with 2147483648; lia). rewrite pad_post_eq by (change (2 ^ 31) with 2147483648; lia).
      rewrite Z.sub_0_r. do 2 f_equal. destruct (Z.ltb_spec 0 (size - 1)); lia.
    + rewrite pad_post_eq by (change (2 ^ 31) with 2147483648; lia). rewrite !pad_neg by lia.
      do 2 f_equal. destruct (Z.ltb_spec 0 size); lia.
  - rewrite pad_post_eq by (change (2 ^ 31) with 2147483648; lia). rewrite Z.sub_0_r. do 2 f_equal. destruct (Z.ltb_spec 0 size); lia.
Qed.

Lemma number_tail_eq e (left : bool) c size i prec b chars p : - 2 ^ 31 + 1 < size < 2 ^ 31 -> 0 <= i < 2 ^ 31 -> - 2 ^ 31 < prec < 2 ^ 31 ->
  (size ← (if negb left then pad_post e c 0 size else mret size);
   _ ← pad_post e ch_0 i prec;
   put_tmp e b chars ;;
   _ ← pad_post e ch_space 0 size;
   mret tt) p =
  Some (tt, emit e ((if left then [] else pad c size) ++ pad ch_0 (prec - i) ++ (if b =? 0 then [] else chars) ++
    (if left then pad ch_space size else [])) p).
Proof.
  intros Hs Hi Hp. rewrite !emit_app.
  assert (E : (if negb left then pad_post e c 0 size else mret size) p =
    Some (if left then size else if 0 <? size then -1 else size - 1, emit e (if left then [] else pad c size) p)).
  { destruct left; [done|]. cbn [negb]. rewrite pad_post_eq by (done || lia). by rewrite Z.sub_0_r. }
  rewrite (bind_some _ _ _ _ _ E). clear E. set (p1 := emit _ _ p).
  rewrite (bind_some _ _ _ _ _ (pad_post_eq e ch_0 i prec p1 Hi Hp)). set (p2 := emit _ _ p1).
  rewrite (bind_some _ _ _ _ _ (put_tmp_eq e b chars p2)). set (p3 := emit _ _ p2).
  assert (Hv : - 2 ^ 31 < (if left then size else if 0 <? size then -1 else size - 1) < 2 ^ 31).
  { change (2 ^ 31) with 2147483648 in *. destruct left, (Z.ltb_spec 0 size); lia. }
  rewrite (bind_some _ _ _ _ _ (pad_post_eq e ch_space 0 _ p3 ltac:(done) Hv)), Z.sub_0_r.
  destruct left; [done|]. by rewrite pad_neg by (destruct (Z.ltb_spec 0 size); lia).
Qed.

Lemma number_sign_eq e sign size p : - 2 ^ 31 < size < 2 ^ 31 ->
  (if negb (sign =? 0) then put e sign ;; mret (i32 (size - 1)) else mret size : W Z) p =
  Some (if sign =? 0 then size else size - 1, emit e (if sign =? 0 then [] else [sign]) p).
Proof.
  intros Hs. destruct (sign =? 0); [done|]. cbn [negb]. change (2 ^ 31) with (2 ^ (32 - 1)) in Hs. by rewrite swrap_small by lia.
Qed.

Lemma print_number_eq e num base s precision type p :
  - 2 ^ 31 <= num < 2 ^ 31 -> -1 <= s < 2 ^ 30 -> -1 <= precision < 2 ^ 30 ->
  print_number e num base s precision type p = Some (tt, emit e (number_text num base s precision type) p).
Proof.
  intros Hnum Hs Hp. change (2 ^ 30) with 1073741824 in *. unfold print_number, number_text.
  fold (type_left type). destruct (has_type_left type) as (T1 & T2 & T3 & T4 & T5 & T6). rewrite T1, T2, T3, T4, T5, T6.
  set (digits := if has_flag type LARGE then large_digits else small_digits).
  fold (sign_num num type). destruct (sign_num_eq num type Hnum) as (n & En & Hn & Hch & Hsg). rewrite En.
  destruct (number_digits_eq digits base n Hn) as [Ed Hlen]. rewrite Hch in Ed, Hlen.
  set (chars := number_chars digits base (magnitude num type)) in *. set (i := Z.of_nat (length chars)).
  unfold deref at 1. rewrite (bind_some _ _ p (rev chars) p) by (by rewrite Ed). rewrite length_rev, rev_involutive. fold i. cbv zeta.
  replace (if precision <? i then i else precision) with (Z.max precision i) by (destruct (Z.ltb_spec precision i); lia).
  set (prec := Z.max precision i). assert (Hprec : 0 < prec < 1073741824) by lia.
  rewrite (swrap_small 32 (s - prec)) by (change (2 ^ (32 - 1)) with 2147483648; lia).
  set (sg := default 0 (head (sign_of num type))). set (sz := s - prec).
  assert (Esg : sign_of num type = if sg =? 0 then [] else [sg]).
  { unfold sg. destruct Hsg as [[-> _]|(c & -> & E)]; [done|]. cbn. by rewrite E. }
  pose proof (eq_refl : 2 ^ 31 = 2147483648) as E31. assert (Hsz : - 2147483648 < sz - 5 /\ sz < 2147483648) by (unfold sz; lia).
  clearbody sg.
  rewrite (bind_some _ _ _ _ _ (number_lead_eq e (has_flag type ZEROPAD || has_flag type LEFT) (negb (sg =? 0)) sz p ltac:(lia) ltac:(lia))).
  set (size1 := if has_flag type ZEROPAD || has_flag type LEFT then sz else _).
  assert (H1 : - 2147483648 + 2 < size1 < 2147483648).
  { unfold size1. destruct (has_flag type ZEROPAD || has_flag type LEFT), (sg =? 0), (Z.ltb_spec 0 sz); cbn [negb andb]; lia. }
  rewrite (bind_some _ _ _ _ _ (number_sign_eq e sg size1 _ ltac:(lia))).
  rewrite number_tail_eq by (destruct (sg =? 0); lia). unfold size1.
  rewrite <- !emit_app, Esg. do 3 f_equal. fold prec sz. destruct (sg =? 0), (has_flag type ZEROPAD), (has_flag type LEFT); cbn [negb andb orb length app].
  all: rewrite ?app_nil_r, <- ?app_assoc, ?Z.sub_0_r; cbn [app]; try done.
  - by rewrite (pad_neg _ (Z.min _ _)) by lia.
  - by rewrite (pad_neg _ (Z.min _ _ - 1)) by lia.
Qed.

(** *** The format *)

Definition head0 (l : list Z) : Z := match l with [] => 0 | c :: _ => c end.
Fixpoint cstr (rom : mem) (a : Z) (l : list Z) : Prop :=
  match l with [] => rom a = 0 | c :: l => rom a = c /\ c ≠ 0 /\ cstr rom (a + 1) l end.

(** The format as a list of characters, read as the C standard describes a conversion:
    flags, width, precision, qualifier and conversion character.  Widths and precisions
    below 2^30 are accepted. *)
Fixpoint spec_flags (flags : Z) (l : list Z) : Z * list Z :=
  match l with
  | [] => (flags, [])
  | c :: l' => match flag_char c with Some f => spec_flags (Z.lor flags f) l' | None => (flags, l) end
  end.
Fixpoint spec_num (i : Z) (l : list Z) : Z * list Z :=
  match l with
  | [] => (i, [])
  | c :: l' => if is_digit c then spec_num (i * 10 + (c - ch_0)) l' else (i, l)
  end.
Definition spec_width (flags : Z) (l args : list Z) : option (Z * Z * list Z * list Z) :=
  match l with
  | [] => Some (-1, flags, [], args)
  | c :: l' =>
      if is_digit c then let '(w, r) := spec_num 0 l in Some (w, flags, r, args)
      else if c =? 42 then
        match args with
        | [] => None
        | a :: args => Some (Z.abs (i32 a), (if i32 a <? 0 then Z.lor flags LEFT else flags), l', args)
        end
      else Some (-1, flags, l, args)
  end.
Definition spec_prec (l args : list Z) : option (Z * list Z * list Z) :=
  match l with
  | c :: l =>
      if c =? 46 then
        match l with
        | d :: l' =>
            if is_digit d then let '(p, r) := spec_num 0 l in Some (p, r, args)
            else if d =? 42 then match args with [] => None | a :: args => Some (Z.max 0 (i32 a), l', args) end
            else Some (0, l, args)
        | [] => Some (0, l, args)
        end
      else Some (-1, c :: l, args)
  | [] => Some (-1, [], args)
  end.
Definition spec_qual (l : list Z) : Z * list Z :=
  match l with
  | c :: l' => if (c =? 104) || (c =? 108) then (c, l') else (0, l)
  | [] => (0, [])
  end.

Definition bytes (rom : mem) (a : Z) (n : nat) : list Z := (fun i => rom (a + Z.of_nat i)) <$> seq 0 n.

(** A character, and a string, in a field of width [w]. *)
Definition char_text (flags w c : Z) : list Z :=
  if has_flag flags LEFT then c :: pad ch_space (w - 1) else pad ch_space (w - 1) ++ [c].
Definition str_text (flags w prec : Z) (s : list Z) : list Z :=
  let s := if 0 <? prec then take (Z.to_nat prec) s else s in
  let fill := pad ch_space (w - Z.of_nat (length s)) in
  if has_flag flags LEFT then s ++ fill else fill ++ s.
Definition int_value (qual flags a : Z) : Z :=
  if qual =? 104 then if has_flag flags SIGN then i16 a else u16 a else i32 a.

(** The text of the conversion character [c], and the arguments left. *)
Definition spec_conv (rom : mem) (null_string : Z) (fuel : nat) (flags w prec qual : Z) (c : Z) (args : list Z) : option (list Z * list Z) :=
  if c =? ch_percent then Some ([ch_percent], args)
  else if (c =? 99) || (c =? 115) || (c =? 112) || bool_decide (is_Some (int_conv c flags)) then
    match args with
    | [] => None
    | a :: args =>
        if c =? 99 then Some (char_text flags w (u8 a), args)
        else if c =? 115 then
          let s := if a =? 0 then null_string else a in
          match rt_strlen fuel s rom with
          | Some len => if (0 <=? len) && (len <? 2 ^ 31) then Some (str_text flags w prec (bytes rom s (Z.to_nat len)), args) else None
          | None => None
          end
        else if c =? 112 then
          Some (if w =? -1 then number_text (i32 a) 16 8 prec (Z.lor flags ZEROPAD) else number_text (i32 a) 16 w prec flags, args)
        else match int_conv c flags with
             | Some (base, flags) => Some (number_text (int_value qual flags a) base w prec flags, args)
             | None => None
             end
    end
  else Some (ch_percent :: (if c =? 0 then [] else [c]), args).

(** What follows a percent sign: the text, and what is left of the format and arguments. *)
Definition spec_directive (rom : mem) (null_string : Z) (fuel : nat) (l args : list Z) : option (list Z * list Z * list Z) :=
  let '(flags, l) := spec_flags 0 l in
  match spec_width flags l args with
  | None => None
  | Some (w, flags, l, args) =>
      match spec_prec l args with
      | None => None
      | Some (prec, l, args) =>
          let '(qual, l) := spec_qual l in
          if (w <? 2 ^ 30) && (prec <? 2 ^ 30) then
            match spec_conv rom null_string fuel flags w prec qual (head0 l) args with
            | Some (out, args) => Some (out, tail l, args)
            | None => None
            end
          else None
      end
  end.

(** The whole output; [fuel] bounds the length of the format. *)
Fixpoint spec_format (rom : mem) (null_string : Z) (slen fuel : nat) (l args : list Z) : option (list Z) :=
  match fuel with
  | O => None
  | S fuel =>
      match l with
      | [] => Some []
      | c :: l =>
          if c =? ch_percent then
            match spec_directive rom null_string slen l args with
            | Some (out, l, args) => (out ++.) <$> spec_format rom null_string slen fuel l args
            | None => None
            end
          else (c ::.) <$> spec_format rom null_string slen fuel l args
      end
  end.

(** *** The calls on the format *)

(** [p] with other input. *)
Definition at_ (p : printer) (fmt : Z) (args : list Z) : printer := mkP (p_mem p) (p_str p) fmt args.
Lemma emit_at e l p fmt args : emit e l (at_ p fmt args) = at_ (emit e l p) fmt args.
Proof. revert p. induction l as [|c l IH]; intros p; [done|]. exact (IH (put_char e c p)). Qed.
Lemma at_at p f a f' a' : at_ (at_ p f a) f' a' = at_ p f' a'.
Proof. done. Qed.

Section format_spec.
Context (rom : mem) (E : Z).

(** The place in the format, which ends at address [E], where [l] is left. *)
Definition pos (l : list Z) : Z := E - Z.of_nat (length l).
Definition left_ (l : list Z) : Prop := cstr rom (pos l) l.
Lemma left_tail c l : left_ (c :: l) -> rom (pos (c :: l)) = c /\ c ≠ 0 /\ pos (c :: l) + 1 = pos l /\ left_ l.
Proof.
  intros (H1 & H2 & H3). assert (Ep : pos (c :: l) + 1 = pos l) by (unfold pos; cbn [length]; lia).
  split; [done|]. split; [done|]. split; [done|]. unfold left_. by rewrite <- Ep.
Qed.
Lemma cur_eq p l args : left_ l -> cur rom (at_ p (pos l) args) = Some (head0 l, at_ p (pos l) args).
Proof. unfold cur, gets. cbn [p_fmt at_]. by destruct l as [|c l]; [intros ->|intros (-> & _)]. Qed.
Lemma next_eq p c l args : next (at_ p (pos (c :: l)) args) = Some (tt, at_ p (pos l) args).
Proof. unfold next, modify, at_. cbn. do 3 f_equal. unfold pos. cbn [length]. lia. Qed.

Lemma flags_loop_eq fuel flags c l p args : (length l < fuel)%nat -> left_ l ->
  flags_loop rom fuel flags (at_ p (pos (c :: l)) args) =
  Some ((spec_flags flags l).1, at_ p (pos (spec_flags flags l).2) args) /\
  left_ (spec_flags flags l).2 /\ (length (spec_flags flags l).2 <= length l)%nat.
Proof.
  revert fuel flags c. induction l as [|d l IH]; intros [|fuel] flags c Hf Hl; try (cbn in Hf; lia);
    cbn [flags_loop spec_flags]; rewrite (bind_some _ _ _ _ _ (next_eq _ _ _ _)), (bind_some _ _ _ _ _ (cur_eq _ _ _ Hl)); cbn [head0].
  - done.
  - destruct (left_tail _ _ Hl) as (_ & _ & _ & Hl'). destruct (flag_char d) as [f|]; [|done].
    destruct (IH fuel (Z.lor flags f) d ltac:(cbn in Hf; lia) Hl') as (E1 & E2 & E3). split; [done|]. split; [done|]. cbn [length]. lia.
Qed.

Lemma is_digit_range c : is_digit c = true -> c ≠ 0.
Proof. intros H ->. by vm_compute in H. Qed.

Lemma spec_num_ge i l : 0 <= i -> Forall (fun c => 0 <= c < 256) l -> i <= (spec_num i l).1.
Proof.
  revert i. induction l as [|c l IH]; intros i Hi Hl; cbn [spec_num]; [cbn; lia|]. inversion_clear Hl.
  destruct (is_digit c) eqn:Ed; [|cbn; lia]. unfold is_digit, ch_0 in *.
  assert (0 <= c - 48).
  { destruct (decide (0 <= c - 48)); [done|]. unfold wrap in Ed. apply Z.ltb_lt in Ed.
    rewrite <- (Z_mod_plus_full (c - 48) 1), Z.mod_small in Ed by (change (2 ^ 32) with 4294967296; lia). change (2 ^ 32) with 4294967296 in Ed. lia. }
  etransitivity; [|apply IH; [lia|done]]. lia.
Qed.

Lemma skip_atoi_eq fuel i l p args : (length l < fuel)%nat -> left_ l -> 0 <= i -> Forall (fun c => 0 <= c < 256) l -> (spec_num i l).1 < 2 ^ 30 ->
  skip_atoi rom fuel i (at_ p (pos l) args) = Some ((spec_num i l).1, at_ p (pos (spec_num i l).2) args) /\
  left_ (spec_num i l).2 /\ (length (spec_num i l).2 <= length l)%nat /\ Forall (fun c => 0 <= c < 256) (spec_num i l).2.
Proof.
  revert fuel i. induction l as [|c l IH]; intros [|fuel] i Hf Hl Hi Hb Hn; try (cbn in Hf; lia);
    cbn [skip_atoi spec_num] in *; rewrite (bind_some _ _ _ _ _ (cur_eq _ _ _ Hl)); cbn [head0].
  - done.
  - destruct (left_tail _ _ Hl) as (_ & _ & _ & Hl'). pose proof (Forall_inv Hb) as Hc. pose proof (Forall_inv_tail Hb) as Hb'.
    destruct (is_digit c) eqn:Ed; [|done].
    rewrite (bind_some _ _ _ _ _ (next_eq _ _ _ _)). replace (i * 10 + c - ch_0) with (i * 10 + (c - ch_0)) by lia.
    assert (Hr : 0 <= i * 10 + (c - ch_0) < 2 ^ 30).
    { assert (H0 : 0 <= i * 10 + (c - ch_0)).
      { pose proof (spec_num_ge 0 [c] ltac:(done) ltac:(by constructor)) as H. cbn [spec_num] in H. rewrite Ed in H. cbn in H. lia. }
      pose proof (spec_num_ge (i * 10 + (c - ch_0)) l H0 Hb'). lia. }
    rewrite swrap_small by (change (2 ^ 30) with 1073741824 in *; change (2 ^ (32 - 1)) with 2147483648; lia).
    destruct (IH fuel (i * 10 + (c - ch_0)) ltac:(cbn in Hf; lia) Hl' ltac:(lia) Hb' Hn) as (E1 & E2 & E3 & E4).
    split; [done|]. split; [done|]. split; [cbn [length]; lia|done].
Qed.

Lemma va_arg_eq p f a args : va_arg (at_ p f (a :: args)) = Some (a, at_ p f args).
Proof. done. Qed.

(** What the parts of a conversion leave. *)
Definition chars_ok (l : list Z) : Prop := left_ l /\ Forall (fun c => 0 <= c < 256) l.
Lemma chars_tail c l : chars_ok (c :: l) -> chars_ok l.
Proof. intros [H1 H2]. split; [by destruct (left_tail _ _ H1) as (_ & _ & _ & ?)|by inversion H2]. Qed.

Lemma i32_neg a : i32 a ≠ - 2 ^ 31 -> (if i32 a <? 0 then i32 (- i32 a) else i32 a) = Z.abs (i32 a).
Proof.
  intros Hne. pose proof (swrap_range 32 a ltac:(done)) as Hr. change (2 ^ 31) with (2 ^ (32 - 1)) in Hne.
  destruct (Z.ltb_spec (i32 a) 0); [|lia]. rewrite swrap_small by lia. lia.
Qed.

Lemma field_width_eq fuel flags l args w flags' l' args' p :
  (length l < fuel)%nat -> chars_ok l -> spec_width flags l args = Some (w, flags', l', args') -> w < 2 ^ 30 ->
  field_width_of rom fuel flags (at_ p (pos l) args) = Some ((w, flags'), at_ p (pos l') args') /\ chars_ok l' /\
  (length l' <= length l)%nat /\ -1 <= w.
Proof.
  intros Hf Hl Hs Hw. unfold field_width_of. rewrite (bind_some _ _ _ _ _ (cur_eq _ _ _ (proj1 Hl))).
  destruct l as [|c l]; cbn [spec_width head0] in *; [by simplify_eq|]. destruct (is_digit c) eqn:Ed.
  - destruct (spec_num 0 (c :: l)) as [w0 r] eqn:En. injection Hs as <- <- <- <-.
    destruct (skip_atoi_eq fuel 0 (c :: l) p args Hf (proj1 Hl) ltac:(done) (proj2 Hl)) as (E1 & E2 & E3 & E4); [by rewrite En|].
    pose proof (spec_num_ge 0 (c :: l) ltac:(done) (proj2 Hl)). rewrite En in *. cbn [fst snd] in *.
    rewrite (bind_some _ _ _ _ _ E1). split; [done|]. split; [done|]. split; [done|lia].
  - destruct (c =? 42); [|simplify_eq; split; [done|split; [done|split; [done|lia]]]].
    destruct args as [|a args]; [done|]. injection Hs as <- <- <- <-.
    rewrite (bind_some _ _ _ _ _ (next_eq _ _ _ _)), (bind_some _ _ _ _ _ (va_arg_eq _ _ _ _)). cbv zeta.
    rewrite <- i32_neg by (intros Ei; rewrite Ei in Hw; by vm_compute in Hw).
    split; [by destruct (_ <? _)|]. split; [by eapply chars_tail|]. split; [cbn; lia|].
    rewrite i32_neg by (intros Ei; rewrite Ei in Hw; by vm_compute in Hw). lia.
Qed.

Lemma precision_eq fuel l args prec l' args' p :
  (length l < fuel)%nat -> chars_ok l -> spec_prec l args = Some (prec, l', args') -> prec < 2 ^ 30 ->
  precision_of rom fuel (at_ p (pos l) args) = Some (prec, at_ p (pos l') args') /\ chars_ok l' /\
  (length l' <= length l)%nat /\ -1 <= prec.
Proof.
  intros Hf Hl Hs Hw. unfold precision_of. rewrite (bind_some _ _ _ _ _ (cur_eq _ _ _ (proj1 Hl))).
  destruct l as [|c l]; cbn [spec_prec head0] in *; [by simplify_eq|].
  destruct (c =? 46); [|by simplify_eq]. pose proof (chars_tail _ _ Hl) as Hl'.
  rewrite (bind_some _ _ _ _ _ (next_eq _ _ _ _)), (bind_some _ _ _ _ _ (cur_eq _ _ _ (proj1 Hl'))).
  destruct l as [|d l]; cbn [head0] in *; [simplify_eq; split; [done|]; split; [done|]; split; [cbn; lia|done]|].
  destruct (is_digit d) eqn:Ed.
  - destruct (spec_num 0 (d :: l)) as [w0 r] eqn:En. injection Hs as <- <- <-.
    destruct (skip_atoi_eq fuel 0 (d :: l) p args ltac:(cbn in *; lia) (proj1 Hl') ltac:(done) (proj2 Hl')) as (E1 & E2 & E3 & E4); [by rewrite En|].
    pose proof (spec_num_ge 0 (d :: l) ltac:(done) (proj2 Hl')). rewrite En in *. cbn [fst snd] in *.
    rewrite (bind_some _ _ _ _ _ E1). split; [by rewrite (proj2 (Z.ltb_ge _ _))|]. split; [done|]. split; [cbn in *; lia|lia].
  - destruct (d =? 42); [|simplify_eq; split; [done|]; split; [done|]; split; [cbn; lia|done]].
    destruct args as [|a args]; [done|]. injection Hs as <- <- <-. 
    split; [|split; [by eapply chars_tail|split; [cbn; lia|lia]]].
    assert (E1 : (next ;; a ← va_arg; mret (i32 a) : W Z) (at_ p (pos (d :: l)) (a :: args)) = Some (i32 a, at_ p (pos l) args)).
    { by rewrite (bind_some _ _ _ _ _ (next_eq _ _ _ _)), (bind_some _ _ _ _ _ (va_arg_eq _ _ _ _)). }
    rewrite (bind_some _ _ _ _ _ E1). unfold mret, M_ret. do 2 f_equal. destruct (Z.ltb_spec (i32 a) 0); lia.
Qed.


Lemma qualifier_eq l p args : chars_ok l ->
  qualifier_of rom (at_ p (pos l) args) = Some ((spec_qual l).1, at_ p (pos (spec_qual l).2) args) /\ chars_ok (spec_qual l).2 /\
  (length (spec_qual l).2 <= length l)%nat.
Proof.
  intros Hl. unfold qualifier_of. rewrite (bind_some _ _ _ _ _ (cur_eq _ _ _ (proj1 Hl))).
  destruct l as [|c l]; cbn [spec_qual head0]; [done|]. destruct ((c =? 104) || (c =? 108)); [|done].
  rewrite (bind_some _ _ _ _ _ (next_eq _ _ _ _)). split; [done|]. split; [by eapply chars_tail|cbn; lia].
Qed.

Lemma put_eq e c p : put e c p = Some (tt, emit e [c] p).
Proof. done. Qed.

Lemma conv_char_eq e flags w a l args p : -1 <= w < 2 ^ 30 ->
  conv_char e flags w (at_ p (pos l) (a :: args)) = Some (tt, at_ (emit e (char_text flags w (u8 a)) p) (pos l) args).
Proof.
  intros Hw. change (2 ^ 30) with 1073741824 in Hw. pose proof (eq_refl : 2 ^ 31 = 2147483648) as E31. unfold conv_char, char_text.
  destruct (has_flag flags LEFT); cbn [negb].
  - rewrite (bind_some _ _ _ w _ eq_refl), (bind_some _ _ _ _ _ (va_arg_eq _ _ _ _)), (bind_some _ _ _ _ _ (put_eq _ _ _)).
    rewrite (bind_some _ _ _ _ _ (pad_pre_eq e ch_space w _ ltac:(lia))). rewrite <- emit_app, emit_at. done.
  - rewrite (bind_some _ _ _ _ _ (pad_pre_eq e ch_space w _ ltac:(lia))), emit_at, (bind_some _ _ _ _ _ (va_arg_eq _ _ _ _)), (bind_some _ _ _ _ _ (put_eq _ _ _)).
    assert (H : - 2 ^ 31 < (if 0 <? w then 0 else w - 1) < 2 ^ 31) by (destruct (0 <? w); lia).
    rewrite (bind_some _ _ _ _ _ (pad_pre_eq e ch_space _ _ H)). rewrite pad_neg by (destruct (Z.ltb_spec 0 w); lia).
    rewrite emit_at, emit_at, !emit_app. done.
Qed.

Lemma bytes_S s n : bytes rom s (S n) = rom s :: bytes rom (s + 1) n.
Proof.
  unfold bytes. cbn [seq fmap list_fmap]. rewrite Z.add_0_r. f_equal. rewrite <- fmap_S_seq, <- list_fmap_compose.
  apply list_fmap_ext. intros i x _. cbn. f_equal. lia.
Qed.
Lemma put_str_eq n e s p : put_str rom n e s p = Some (tt, emit e (bytes rom s n) p).
Proof.
  revert s p. induction n as [|n IH]; intros s p; [done|]. cbn [put_str]. by rewrite (bind_some _ _ _ _ _ (put_eq _ _ _)), IH, bytes_S.
Qed.
Lemma bytes_length s n : length (bytes rom s n) = n.
Proof. unfold bytes. by rewrite length_fmap, length_seq. Qed.
Lemma bytes_take s n k : take k (bytes rom s n) = bytes rom s (k `min` n).
Proof. unfold bytes. by rewrite <- fmap_take, take_seq. Qed.

Lemma conv_str_eq null_string fuel e flags w prec a len l args p :
  -1 <= w < 2 ^ 30 -> -1 <= prec < 2 ^ 30 -> rt_strlen fuel (if a =? 0 then null_string else a) rom = Some len -> 0 <= len < 2 ^ 31 ->
  conv_str rom null_string fuel e flags w prec (at_ p (pos l) (a :: args)) =
  Some (tt, at_ (emit e (str_text flags w prec (bytes rom (if a =? 0 then null_string else a) (Z.to_nat len))) p) (pos l) args).
Proof.
  intros Hw Hp Hlen Hl. pose proof (eq_refl : 2 ^ 31 = 2147483648) as E31. unfold conv_str, str_text.
  rewrite (bind_some _ _ _ _ _ (va_arg_eq _ _ _ _)). cbv zeta. set (s := if a =? 0 then null_string else a) in *.
  unfold deref at 1. rewrite (bind_some _ _ _ len (at_ p (pos l) args)) by (by rewrite Hlen).
  rewrite swrap_small by (change (2 ^ (32 - 1)) with (2 ^ 31); lia).
  set (n := if (0 <? prec) && (prec <? len) then prec else len).
  assert (Hn : 0 <= n < 2 ^ 31) by (unfold n; destruct (Z.ltb_spec 0 prec), (Z.ltb_spec prec len); cbn [andb]; lia).
  replace (if 0 <? prec then take (Z.to_nat prec) (bytes rom s (Z.to_nat len)) else bytes rom s (Z.to_nat len)) with (bytes rom s (Z.to_nat n)).
  2:{ unfold n. destruct (Z.ltb_spec 0 prec); cbn [andb]; [|done]. rewrite bytes_take. f_equal. destruct (Z.ltb_spec prec len); lia. }
  rewrite bytes_length, Z2Nat.id by lia. change (2 ^ 30) with 1073741824 in *. destruct (has_flag flags LEFT); cbn [negb].
  - rewrite (bind_some _ _ _ w _ eq_refl), (bind_some _ _ _ _ _ (put_str_eq _ _ _ _)).
    rewrite (bind_some _ _ _ _ _ (pad_post_eq e ch_space n w _ Hn ltac:(lia))). by rewrite <- emit_app, emit_at.
  - rewrite (bind_some _ _ _ _ _ (pad_post_eq e ch_space n w _ Hn ltac:(lia))), (bind_some _ _ _ _ _ (put_str_eq _ _ _ _)).
    assert (H : - 2 ^ 31 < (if n <? w then n - 1 else w - 1) < 2 ^ 31) by (destruct (n <? w); lia).
    rewrite (bind_some _ _ _ _ _ (pad_post_eq e ch_space n _ _ Hn H)). rewrite (pad_neg _ (_ - n)) by (destruct (Z.ltb_spec n w); lia).
    by rewrite <- !emit_app, emit_at, app_nil_r.
Qed.

Lemma int_value_eq qual flags a : i32 (if qual =? 104 then if has_flag flags SIGN then u32 (i16 (u16 a)) else u16 a else u32 a) = int_value qual flags a.
Proof.
  unfold int_value. destruct (qual =? 104); [destruct (has_flag flags SIGN)|].
  - replace (i16 (u16 a)) with (i16 a) by (unfold swrap, wrap; by rewrite Zmod_mod).
    pose proof (swrap_range 16 a ltac:(done)) as Hr. rewrite <- (swrap_small 32 (i16 a)) at 2; [|done|].
    + unfold swrap at 1 3, wrap. by rewrite Zmod_mod.
    + change (2 ^ (16 - 1)) with 32768 in Hr. change (2 ^ (32 - 1)) with 2147483648. lia.
  - apply swrap_small; [done|]. pose proof (wrap_range 16 a ltac:(done)) as Hr. change (2 ^ 16) with 65536 in Hr. change (2 ^ (32 - 1)) with 2147483648. lia.
  - unfold swrap, wrap. by rewrite Zmod_mod.
Qed.
Lemma int_value_range qual flags a : - 2 ^ 31 <= int_value qual flags a < 2 ^ 31.
Proof. rewrite <- int_value_eq. by apply (swrap_range 32). Qed.

(** The conversion character and what is done for it. *)
Lemma conv_eq null_string fuel e flags w prec qual l args out args' p :
  chars_ok l -> -1 <= w < 2 ^ 30 -> -1 <= prec < 2 ^ 30 ->
  spec_conv rom null_string fuel flags w prec qual (head0 l) args = Some (out, args') ->
  (let c := head0 l in
   if c =? 99 then conv_char e flags w ;; next
   else if c =? 115 then conv_str rom null_string fuel e flags w prec ;; next
   else if c =? 112 then
     let '(field_width, flags) := if w =? -1 then (8, Z.lor flags ZEROPAD) else (w, flags) in
     a ← va_arg;
     print_number e (i32 a) 16 field_width prec flags ;; next
   else if c =? ch_percent then put e ch_percent ;; next
   else
     match int_conv c flags with
     | Some (base, flags) =>
         num ← int_arg qual flags;
         print_number e (i32 num) base w prec flags ;; next
     | None =>
         put e ch_percent ;;
         if negb (c =? 0) then put e c ;; next else mret tt
     end) (at_ p (pos l) args) = Some (tt, at_ (emit e out p) (pos (tail l)) args').
Proof.
  intros Hl Hw Hp Hs. pose proof (eq_refl : 2 ^ 30 = 1073741824) as E30. destruct l as [|c l]; cbn [head0] in *; cbv zeta.
  { unfold spec_conv in Hs. cbn in Hs. injection Hs as <- <-. by rewrite <- emit_at. }
  assert (Hnext : forall q a, next (at_ q (pos (c :: l)) a) = Some (tt, at_ q (pos l) a)) by (intros; apply next_eq).
  unfold spec_conv in Hs. cbn [tail]. destruct (c =? 99) eqn:E99.
  { rewrite (proj2 (Z.eqb_neq c ch_percent)) in Hs by (apply Z.eqb_eq in E99; by subst c). cbn [orb] in Hs.
    destruct args as [|a args]; [done|]. injection Hs as <- <-. by rewrite (bind_some _ _ _ _ _ (conv_char_eq e flags w a (c :: l) args p Hw)). }
  destruct (c =? 115) eqn:E115.
  { rewrite (proj2 (Z.eqb_neq c ch_percent)) in Hs by (apply Z.eqb_eq in E115; by subst c). cbn [orb] in Hs.
    destruct args as [|a args]; [done|]. destruct (rt_strlen fuel _ rom) as [len|] eqn:El; [|done].
    destruct ((0 <=? len) && (len <? 2 ^ 31)) eqn:Eb; [|done]. injection Hs as <- <-. apply andb_prop in Eb as [E1%Z.leb_le E2%Z.ltb_lt].
    by rewrite (bind_some _ _ _ _ _ (conv_str_eq null_string fuel e flags w prec a len (c :: l) args p Hw Hp El ltac:(lia))). }
  destruct (c =? 112) eqn:E112.
  { rewrite (proj2 (Z.eqb_neq c ch_percent)) in Hs by (apply Z.eqb_eq in E112; by subst c). cbn [orb] in Hs.
    destruct args as [|a args]; [done|]. injection Hs as <- <-. pose proof (swrap_range 32 a ltac:(done)) as Ha. change (2 ^ (32 - 1)) with (2 ^ 31) in Ha.
    destruct (w =? -1); cbv beta iota; rewrite (bind_some _ _ _ _ _ (va_arg_eq _ _ _ _)).
    - rewrite (bind_some _ _ _ _ _ (print_number_eq e (i32 a) 16 8 prec _ _ Ha ltac:(lia) Hp)), emit_at. apply Hnext.
    - rewrite (bind_some _ _ _ _ _ (print_number_eq e (i32 a) 16 w prec _ _ Ha Hw Hp)), emit_at. apply Hnext. }
  destruct (c =? ch_percent) eqn:E37.
  { injection Hs as <- <-. rewrite (bind_some _ _ _ _ _ (put_eq _ _ _)), emit_at. apply Hnext. }
  cbn [orb] in Hs. destruct (int_conv c flags) as [[base flags']|] eqn:Ei.
  - rewrite bool_decide_eq_true_2 in Hs by eauto. destruct args as [|a args]; [done|]. injection Hs as <- <-.
    rewrite (bind_some (int_arg qual flags') _ _ (if qual =? 104 then if has_flag flags' SIGN then u32 (i16 (u16 a)) else u16 a else u32 a)
      (at_ p (pos (c :: l)) args)) by done. rewrite int_value_eq.
    rewrite (bind_some _ _ _ _ _ (print_number_eq e _ base w prec flags' _ (int_value_range _ _ _) Hw Hp)), emit_at. apply Hnext.
  - rewrite bool_decide_eq_false_2 in Hs by (by intros [? ?]). injection Hs as <- <-.
    destruct (left_tail _ _ (proj1 Hl)) as (_ & Hc & _ & _). rewrite (proj2 (Z.eqb_neq c 0)) by done. cbn [negb].
    rewrite (bind_some _ _ _ _ _ (put_eq _ _ _)), (bind_some _ _ _ _ _ (put_eq _ _ _)), <- emit_app, emit_at. apply Hnext.
Qed.

Lemma spec_flags_chars flags l : Forall (fun c => 0 <= c < 256) l -> Forall (fun c => 0 <= c < 256) (spec_flags flags l).2.
Proof.
  revert flags. induction l as [|c l IH]; intros flags Hl; [done|]. cbn [spec_flags]. destruct (flag_char c); [|done].
  apply IH. by inversion Hl.
Qed.

Lemma conversion_eq null_string fuel e c l args out l' args' p :
  (length l < fuel)%nat -> chars_ok l -> spec_directive rom null_string fuel l args = Some (out, l', args') ->
  conversion rom null_string fuel e (at_ p (pos (c :: l)) args) = Some (tt, at_ (emit e out p) (pos l') args') /\
  chars_ok l' /\ (length l' <= length l)%nat.
Proof.
  intros Hf [Hl Hch] Hs. unfold spec_directive in Hs. unfold conversion.
  destruct (flags_loop_eq fuel 0 c l p args Hf Hl) as (E1 & Hl1 & Hn1). rewrite (bind_some _ _ _ _ _ E1). clear E1.
  pose proof (spec_flags_chars 0 l Hch) as Hch1. destruct (spec_flags 0 l) as [flags l1]. cbn [fst snd] in *.
  destruct (spec_width flags l1 args) as [[[[w flags2] l2] args2]|] eqn:Ew; [|done].
  destruct (spec_prec l2 args2) as [[[prec l3] args3]|] eqn:Ep; [|done].
  destruct (spec_qual l3) as [qual l4] eqn:Eq. destruct ((w <? 2 ^ 30) && (prec <? 2 ^ 30)) eqn:Eb; [|done].
  apply andb_prop in Eb as [Hw%Z.ltb_lt Hp%Z.ltb_lt].
  destruct (spec_conv rom null_string fuel flags2 w prec qual (head0 l4) args3) as [[out' args4]|] eqn:Ec; [|done]. injection Hs as <- <- <-.
  destruct (field_width_eq fuel flags l1 args w flags2 l2 args2 p ltac:(lia) (conj Hl1 Hch1) Ew Hw) as (E2 & Hl2 & Hn2 & Hw').
  rewrite (bind_some _ _ _ _ _ E2). clear E2.
  destruct (precision_eq fuel l2 args2 prec l3 args3 p ltac:(lia) Hl2 Ep Hp) as (E3 & Hl3 & Hn3 & Hp').
  rewrite (bind_some _ _ _ _ _ E3). clear E3. destruct (qualifier_eq l3 p args3 Hl3) as (E4 & Hl4 & Hn4). rewrite Eq in *. cbn [fst snd] in *.
  rewrite (bind_some _ _ _ _ _ E4), (bind_some _ _ _ _ _ (cur_eq _ _ _ (proj1 Hl4))).
  split; [exact (conv_eq null_string fuel e flags2 w prec qual l4 args3 out' args4 p Hl4 ltac:(lia) ltac:(lia) Ec)|].
  destruct l4 as [|d l4]; cbn [tail length] in *; [split; [done|lia]|]. split; [by eapply chars_tail|lia].
Qed.

Lemma format_loop_eq null_string fuel0 fuel e l args out p :
  (length l < fuel)%nat -> (length l < fuel0)%nat -> chars_ok l -> spec_format rom null_string fuel0 fuel l args = Some out ->
  exists f a, format_loop rom null_string fuel0 fuel e (at_ p (pos l) args) = Some (tt, at_ (emit e out p) f a).
Proof.
  revert l args out p. induction fuel as [|fuel IH]; intros l args out p Hf Hf0 Hl Hs; [lia|]. cbn [format_loop spec_format] in *.
  rewrite (bind_some _ _ _ _ _ (cur_eq _ _ _ (proj1 Hl))). destruct l as [|c l]; cbn [head0 length] in *.
  { injection Hs as <-. by exists (pos []), args. }
  destruct (left_tail _ _ (proj1 Hl)) as (_ & Hc & _ & _). rewrite (proj2 (Z.eqb_neq c 0)) by done. pose proof (chars_tail _ _ Hl) as Hl'.
  destruct (Z.eqb_spec c ch_percent) as [->|Hne]; cbn [negb].
  - destruct (spec_directive rom null_string fuel0 l args) as [[[o l'] args']|] eqn:Ed; [|done].
    destruct (conversion_eq null_string fuel0 e ch_percent l args o l' args' p ltac:(lia) Hl' Ed) as (E1 & Hl2 & Hn).
    rewrite (bind_some _ _ _ _ _ E1). destruct (spec_format rom null_string fuel0 fuel l' args') as [o'|] eqn:Ef; [|done]. injection Hs as <-.
    destruct (IH l' args' o' (emit e o p) ltac:(lia) ltac:(lia) Hl2 Ef) as (f & a & Er). exists f, a. by rewrite Er, emit_app.
  - assert (E1 : (put e c ;; next : W unit) (at_ p (pos (c :: l)) args) = Some (tt, at_ (emit e [c] p) (pos l) args)).
    { rewrite (bind_some _ _ _ _ _ (put_eq _ _ _)), emit_at. apply next_eq. }
    rewrite (bind_some _ _ _ _ _ E1). destruct (spec_format rom null_string fuel0 fuel l args) as [o'|] eqn:Ef; [|done]. injection Hs as <-.
    destruct (IH l args o' (emit e [c] p) ltac:(lia) ltac:(lia) Hl' Ef) as (f & a & Er). exists f, a. rewrite Er. do 2 f_equal.
Qed.
End format_spec.

(** *** The memory *)

(** The memory after the output of [l] from [a] on, cut at [e]. *)
Definition printed (e a : Z) (l : list Z) (m : mem) : mem :=
  fun x => if (a <=? x) && (x <? Z.min e (a + Z.of_nat (length l))) then u8 (l !!! Z.to_nat (x - a)) else m x.

Lemma emit_spec e l p x : 0 <= p_str p -> p_str p + Z.of_nat (length l) < 2 ^ 32 ->
  p_str (emit e l p) = p_str p + Z.of_nat (length l) /\ p_mem (emit e l p) x = printed e (p_str p) l (p_mem p) x.
Proof.
  revert p. induction l as [|c l IH]; intros p H0 Hl; cbn [length] in *.
  - split; [cbn; lia|]. unfold printed. cbn [emit foldl length]. destruct (Z.leb_spec (p_str p) x), (Z.ltb_spec x (Z.min e (p_str p + Z.of_nat 0))); try done; lia.
  - change (emit e (c :: l) p) with (emit e l (put_char e c p)). assert (Es : p_str (put_char e c p) = p_str p + 1) by (cbn; apply wrap_small; lia).
    destruct (IH (put_char e c p)) as [E1 E2]; [lia|lia|]. rewrite E1, E2, Es. split; [lia|].
    unfold printed. cbn [length]. rewrite Nat2Z.inj_succ. replace (p_str p + 1 + Z.of_nat (length l)) with (p_str p + Z.succ (Z.of_nat (length l))) by lia.
    destruct (Z.leb_spec (p_str p + 1) x), (Z.leb_spec (p_str p) x); try lia; cbn [andb].
    + destruct (x <? Z.min e (p_str p + Z.succ (Z.of_nat (length l)))).
      * by replace (Z.to_nat (x - p_str p)) with (S (Z.to_nat (x - (p_str p + 1)))) by lia.
      * cbn. destruct (p_str p <? e); [|done]. unfold store8. by rewrite (proj2 (Z.eqb_neq _ _)) by lia.
    + assert (x = p_str p) as -> by lia. rewrite Z.sub_diag. cbn.
      destruct (Z.ltb_spec (p_str p) e), (Z.ltb_spec (p_str p) (Z.min e (p_str p + Z.succ (Z.of_nat (length l))))); try lia.
      unfold store8. by rewrite Z.eqb_refl.
    + cbn. destruct (p_str p <? e); [|done]. unfold store8. by rewrite (proj2 (Z.eqb_neq _ _)) by lia.
Qed.

(** A format and arguments that print [out], whatever the buffer. *)
Definition prints (rom : mem) (null_string : Z) (fuel : nat) (fmt : Z) (args out : list Z) : Prop :=
  exists l, cstr rom fmt l /\ Forall (fun c => 0 <= c < 256) l /\ (length l < fuel)%nat /\
    spec_format rom null_string fuel fuel l args = Some out.

Lemma format_prints rom null_string fuel e buf fmt args out m :
  prints rom null_string fuel fmt args out -> 0 <= buf -> buf + Z.of_nat (length out) < 2 ^ 32 ->
  exists p, format_loop rom null_string fuel fuel e (mkP m buf fmt args) = Some (tt, p) /\
    p_str p = buf + Z.of_nat (length out) /\ forall x, p_mem p x = printed e buf out m x.
Proof.
  intros (l & Hc & Hch & Hf & Hs) Hb Hlen. set (p0 := mkP m buf fmt args).
  assert (Epos : pos (fmt + Z.of_nat (length l)) l = fmt) by (unfold pos; lia).
  destruct (format_loop_eq rom (fmt + Z.of_nat (length l)) null_string fuel fuel e l args out p0 Hf Hf) as (f & a & E); [|done|].
  { split; [|done]. unfold left_. by rewrite Epos. }
  rewrite Epos in E. exists (at_ (emit e out p0) f a). split; [exact E|].
  split; [by apply (emit_spec e out p0 0)|]. intros x. by apply (emit_spec e out p0 x).
Qed.

(** [rt_vsnprintf] returns the length of the whole output, leaves every byte outside the
    buffer as it was, and in a buffer that is not empty leaves as much of the output as
    fits, ended by 0. *)
Lemma vsnprintf_ok rom null_string fuel buf size fmt args out m :
  prints rom null_string fuel fmt args out -> 0 < buf -> 0 <= size -> buf + size < 2 ^ 32 ->
  buf + Z.of_nat (length out) < 2 ^ 32 -> Z.of_nat (length out) < 2 ^ 31 ->
  exists m', rt_vsnprintf rom null_string fuel buf size fmt args m = Some (Z.of_nat (length out), m') /\
    (forall x, ~ buf <= x < buf + size -> m' x = m x) /\
    (0 < size -> let n := Z.min (Z.of_nat (length out)) (size - 1) in
       (forall i, 0 <= i < n -> m' (buf + i) = u8 (out !!! Z.to_nat i)) /\ m' (buf + n) = 0).
Proof.
  intros Hpr Hb Hs Hbs Hbl Hl. unfold rt_vsnprintf. rewrite wrap_small by lia. rewrite (proj2 (Z.ltb_ge _ _)) by lia.
  destruct (format_prints rom null_string fuel (buf + size) buf fmt args out m Hpr ltac:(lia) Hbl) as (p & -> & Es & Em).
  rewrite Es. replace (buf + Z.of_nat (length out) - buf) with (Z.of_nat (length out)) by lia.
  rewrite swrap_small by (change (2 ^ (32 - 1)) with (2 ^ 31); lia). eexists. split; [reflexivity|]. split.
  - intros x Hx. assert (E : p_mem p x = m x).
    { rewrite Em. unfold printed. destruct (Z.leb_spec buf x), (Z.ltb_spec x (Z.min (buf + size) (buf + Z.of_nat (length out)))); try done; lia. }
    destruct (Z.ltb_spec 0 size); [|done]. destruct (Z.ltb_spec (buf + Z.of_nat (length out)) (buf + size)); unfold store8;
      by rewrite (proj2 (Z.eqb_neq _ _)) by lia.
  - intros H0. rewrite (proj2 (Z.ltb_lt 0 size)) by done. set (n := Z.min _ _). cbv zeta.
    replace (if buf + Z.of_nat (length out) <? buf + size then store8 (buf + Z.of_nat (length out)) 0 (p_mem p) else store8 (buf + size - 1) 0 (p_mem p))
      with (store8 (buf + n) 0 (p_mem p)) by (unfold n; destruct (Z.ltb_spec (buf + Z.of_nat (length out)) (buf + size)); f_equal; lia).
    split; [|unfold store8; by rewrite Z.eqb_refl]. intros i Hi. unfold store8. rewrite (proj2 (Z.eqb_neq _ _)), Em by lia. unfold printed.
    rewrite (proj2 (Z.leb_le _ _)), (proj2 (Z.ltb_lt _ _)) by lia. cbn [andb]. by replace (buf + i - buf) with i by lia.
Qed.

Lemma sprintf_ok rom null_string fuel buf fmt args out m :
  prints rom null_string fuel fmt args out -> 0 < buf -> buf + Z.of_nat (length out) < 2 ^ 32 - 1 -> Z.of_nat (length out) < 2 ^ 31 ->
  exists m', rt_sprintf rom null_string fuel buf fmt args m = Some (Z.of_nat (length out), m') /\
    forall x, m' x = store8 (buf + Z.of_nat (length out)) 0 (printed (buf + Z.of_nat (length out)) buf out m) x.
Proof.
  intros Hpr Hb Hbl Hl. unfold rt_sprintf, rt_vsprintf, rt_vsnprintf. change (2 ^ 32) with 4294967296 in *.
  assert (Ee : u32 (buf + 0xffffffff) = buf - 1).
  { unfold wrap. change (2 ^ 32) with 4294967296. rewrite <- (Z_mod_plus_full _ (-1)).
    rewrite Z.mod_small; lia. }
  rewrite Ee, (proj2 (Z.ltb_lt _ _)) by lia. cbv beta iota.
  destruct (format_prints rom null_string fuel 0xffffffff buf fmt args out m Hpr ltac:(lia) ltac:(change (2 ^ 32) with 4294967296; lia)) as (p & -> & Es & Em).
  rewrite Es. replace (buf + Z.of_nat (length out) - buf) with (Z.of_nat (length out)) by lia.
  rewrite swrap_small by (change (2 ^ (32 - 1)) with (2 ^ 31); lia). rewrite wrap_small by (change (2 ^ 32) with 4294967296; lia).
  rewrite (proj2 (Z.ltb_lt 0 _)), (proj2 (Z.ltb_lt _ 0xffffffff)) by lia. eexists. split; [reflexivity|]. intros x. unfold store8.
  destruct (x =? _); [done|]. rewrite Em. unfold printed. by replace (Z.min 4294967295 (buf + Z.of_nat (length out))) with
    (Z.min (buf + Z.of_nat (length out)) (buf + Z.of_nat (length out))) by lia.
Qed.

(** ** The console *)

(** What reaches the console: the address of a string for [rt_hw_console_output], or bytes
    written to the console device opened with [flag]. *)
Inductive console_call := HwOutput (str : Z) | DevWrite (flag : Z) (buffer : list Z).
Definition RT_DEVICE_FLAG_STREAM : Z := 0x040.
Definition RT_CONSOLEBUF_SIZE : Z := 256.

(** [device]: the open flag of the console device, when there is one; the call sees it with
    RT_DEVICE_FLAG_STREAM added, and it is put back. *)
Definition rt_kputs (fuel : nat) (device : option Z) (str : Z) (m : mem) : option (list console_call) :=
  if str =? 0 then Some []
  else
    match device with
    | None => Some [HwOutput str]
    | Some flag =>
        match rt_strlen fuel str m with
        | Some len => Some [DevWrite (Z.lor flag RT_DEVICE_FLAG_STREAM) (bytes m str (Z.to_nat len))]
        | None => None
        end
    end.

(** [rt_log_buf] at address [log_buf]. *)
Definition rt_kprintf (rom : mem) (null_string : Z) (fuel : nat) (log_buf : Z) (device : option Z) (fmt : Z) (args : list Z) (m : mem) :
    option (list console_call * mem) :=
  match rt_vsnprintf rom null_string fuel log_buf (RT_CONSOLEBUF_SIZE - 1) fmt args m with
  | None => None
  | Some (n, m) =>
      let length := u32 n in
      let length := if RT_CONSOLEBUF_SIZE - 1 <? length then RT_CONSOLEBUF_SIZE - 1 else length in
      Some (match device with
            | None => [HwOutput log_buf]
            | Some flag => [DevWrite (Z.lor flag RT_DEVICE_FLAG_STREAM) (bytes m log_buf (Z.to_nat length))]
            end, m)
  end.

(** ** Properties *)

(** C25: [rt_vsnprintf] returns the length of the whole output, leaves every byte outside the
    buffer as it was, and in a buffer that is not empty leaves as much of the output as
    fits, ended by 0. *)
Theorem rt_vsnprintf_spec rom null_string fuel buf size fmt args out m :
  prints rom null_string fuel fmt args out -> 0 < buf -> 0 <= size -> buf + size < 2 ^ 32 ->
  buf + Z.of_nat (length out) < 2 ^ 32 -> Z.of_nat (length out) < 2 ^ 31 ->
  exists m', rt_vsnprintf rom null_string fuel buf size fmt args m = Some (Z.of_nat (length out), m') /\
    (forall x, ~ buf <= x < buf + size -> m' x = m x) /\
    (0 < size -> let n := Z.min (Z.of_nat (length out)) (size - 1) in
       (forall i, 0 <= i < n -> m' (buf + i) = u8 (out !!! Z.to_nat i)) /\ m' (buf + n) = 0).
Proof. apply vsnprintf_ok. Qed.

(** Digits read back. *)
Lemma small_digit_read d i l : 0 <= d < 10 -> spec_num i (small_digits d :: l) = spec_num (i * 10 + d) l.
Proof.
  intros Hd. unfold small_digits. rewrite (proj2 (Z.ltb_lt d 10)) by lia. cbn [spec_num]. unfold is_digit, ch_0.
  replace (48 + d - 48) with d by lia. rewrite wrap_small by (change (2 ^ 32) with 4294967296; lia). by rewrite (proj2 (Z.ltb_lt d 10)) by lia.
Qed.
Lemma digits_read ds i : Forall (fun d => 0 <= d < 10) ds -> spec_num i (small_digits <$> ds) = (foldl (fun v d => v * 10 + d) i ds, []).
Proof.
  revert i. induction ds as [|d ds IH]; intros i Hd; [done|]. inversion_clear Hd. cbn [fmap list_fmap foldl].
  rewrite small_digit_read by done. by apply IH.
Qed.
Lemma small_digits_char d : 0 <= d < 16 -> 0 <= small_digits d < 256.
Proof. unfold small_digits. destruct (d <? 10); lia. Qed.


(** [%o] prints hexadecimal digits. *)
Lemma octal_prints_hex e num s precision type p : print_number e num 8 s precision type p = print_number e num 16 s precision type p.
Proof.
  assert (E : forall fuel digits n tmp, digits_loop fuel digits 8 n tmp = digits_loop fuel digits 16 n tmp).
  { induction fuel as [|fuel IH]; intros digits n tmp; [done|]. cbn [digits_loop]. change (divide n 8) with (divide n 16).
    destruct (divide n 16) as [d n']. by rewrite IH. }
  unfold print_number. destruct (if has_flag (if has_flag type LEFT then _ else _) SIGN then _ else _) as [sign n].
  unfold number_digits. by rewrite E.
Qed.

(** [%.0d] prints no digits of a number that is not 0 either. *)
Lemma precision_zero_empty num : - 2 ^ 31 <= num < 2 ^ 31 -> number_text num 10 (-1) 0 SIGN = if num <? 0 then [ch_minus] else [].
Proof.
  intros Hn. unfold number_text. set (chars := number_chars _ _ _). change (has_flag SIGN LEFT) with false. change (has_flag SIGN ZEROPAD) with false.
  cbn [negb andb]. rewrite !pad_neg by (unfold sign_of; destruct (has_flag SIGN SIGN), (num <? 0); cbn [length]; lia).
  unfold sign_of. change (has_flag SIGN SIGN) with true. change (has_flag SIGN PLUS) with false. change (has_flag SIGN SPACE) with false.
  by destruct (num <? 0).
Qed.

(** What reaches the console device when the output is longer than the buffer: 254
    characters and the 0 that ends them. *)
Lemma kprintf_long rom null_string fuel log_buf flag fmt args out m :
  prints rom null_string fuel fmt args out -> 0 < log_buf -> log_buf + Z.of_nat (length out) < 2 ^ 32 ->
  255 <= Z.of_nat (length out) < 2 ^ 31 -> log_buf < 2 ^ 32 - 256 ->
  exists m', rt_kprintf rom null_string fuel log_buf (Some flag) fmt args m =
    Some ([DevWrite (Z.lor flag RT_DEVICE_FLAG_STREAM) (map u8 (take 254 out) ++ [0])], m').
Proof.
  intros Hpr Hb Hbl Hl Hlb. pose proof (eq_refl : 2 ^ 32 = 4294967296) as E32. pose proof (eq_refl : 2 ^ 31 = 2147483648) as E31.
  unfold rt_kprintf, RT_CONSOLEBUF_SIZE.
  destruct (vsnprintf_ok rom null_string fuel log_buf (256 - 1) fmt args out m Hpr Hb) as (m' & -> & _ & Hm); [lia|lia|done|lia|].
  specialize (Hm ltac:(lia)) as [Hc H0]. exists m'. rewrite wrap_small by lia.
  assert (En : (if 256 - 1 <? Z.of_nat (length out) then 256 - 1 else Z.of_nat (length out)) = 255) by (destruct (Z.ltb_spec (256 - 1) (Z.of_nat (length out))); lia).
  cbv zeta. rewrite En. do 4 f_equal. replace (Z.min (Z.of_nat (length out)) (256 - 1 - 1)) with 254 in Hc, H0 by lia.
  apply list_eq. intros i. unfold bytes. rewrite list_lookup_fmap. destruct (decide (i < 254)%nat) as [Hi|Hi].
  - rewrite lookup_seq_lt by lia. cbn. rewrite lookup_app_l by (rewrite length_map, length_take; lia).
    rewrite Hc by lia. rewrite map_fmap || idtac.
    change (map u8 (take 254 out)) with (u8 <$> take 254 out). rewrite list_lookup_fmap, lookup_take_lt by lia.
    destruct (out !! i) as [c|] eqn:Ec; [|apply lookup_ge_None in Ec; lia]. cbn. rewrite Nat2Z.id. by rewrite (list_lookup_total_correct _ _ _ Ec).
  - destruct (decide (i = 254)%nat) as [->|Hne].
    + rewrite lookup_seq_lt by lia. cbn. rewrite lookup_app_r by (rewrite length_map, length_take; lia).
      rewrite length_map, length_take. replace (254 - 254 `min` length out)%nat with O by lia. cbn. f_equal. exact H0.
    + rewrite lookup_seq_ge by lia. rewrite lookup_ge_None_2; [done|]. rewrite length_app, length_map, length_take. cbn [length]. lia.
Qed.

(** ** Witnesses: "%d of 0x%04x" *)

Definition rom_of (a : Z) (l : list Z) : mem := fun x => if (a <=? x) && (x <? a + Z.of_nat (length l)) then l !!! Z.to_nat (x - a) else 0.
Definition sample_format : list Z := [37; 100; 32; 111; 102; 32; 48; 120; 37; 48; 52; 120].
Definition sample_rom : mem := rom_of 0x8000 sample_format.
(** "-7 of 0x002a" *)
Definition sample_out : list Z := [45; 55; 32; 111; 102; 32; 48; 120; 48; 48; 50; 97].

Lemma sample_prints : prints sample_rom 0 13 0x8000 [4294967289; 42] sample_out.
Proof.
  exists sample_format. split; [by repeat split|]. split; [|split; [cbn; lia|by vm_compute]].
  apply Forall_forall. intros c Hc. unfold sample_format in Hc. repeat (apply elem_of_cons in Hc as [->|Hc]; [lia|]). by apply elem_of_nil in Hc.
Qed.

Lemma rt_vsnprintf_spec_witness :
  exists m', rt_vsnprintf sample_rom 0 13 0x20000000 8 0x8000 [4294967289; 42] (fun _ => 1) = Some (12, m') /\
    (forall x, ~ 0x20000000 <= x < 0x20000000 + 8 -> m' x = 1) /\
    (0 < 8 -> let n := Z.min 12 (8 - 1) in (forall i, 0 <= i < n -> m' (0x20000000 + i) = u8 (sample_out !!! Z.to_nat i)) /\ m' (0x20000000 + n) = 0).
Proof. apply (rt_vsnprintf_spec sample_rom 0 13 0x20000000 8 0x8000 [4294967289; 42] sample_out (fun _ => 1)); [apply sample_prints|done..]. Defined.

