(* ===== verification/Cyclic.v ===== *)
(** * Cyclic: buffers used in a circle

    Positions in a buffer taken modulo its size, copying that goes round its end, and the
    sequence that a stretch of it holds.  Shared by the ring buffer and the mailbox. *)

From S2P Require Import Prelude.

#[local] Open Scope Z_scope.

(** ** Positions *)

Definition slot (size p : Z) : nat := Z.to_nat (p mod size).

Lemma slot_small size p : 0 <= p < size -> slot size p = Z.to_nat p.
Proof. intros. unfold slot. by rewrite Z.mod_small. Qed.
Lemma slot_over size p : 0 < size -> slot size (p + size) = slot size p.
Proof. intros. unfold slot. f_equal. rewrite <- (Z.mul_1_l size) at 1. by apply Z_mod_plus_full. Qed.
Lemma slot_wrap size p : 0 <= p - size < size -> slot size p = Z.to_nat (p - size).
Proof. intros. rewrite <- (slot_small size) by done. rewrite <- (slot_over size (p - size)) by lia. f_equal. lia. Qed.
Lemma slot_nat size p : 0 < size -> exists j, slot size p = Z.to_nat j /\ 0 <= j < size.
Proof. intros. exists (p mod size). split; [done|]. by apply Z.mod_pos_bound. Qed.

(** ** Copying *)

Section cyclic.
Context {A : Type}.

(** [data] has been written round from position [w]. *)
Definition wrote (size w : Z) (data buf buf' : list A) : Prop :=
  length buf' = length buf /\
  forall i, 0 <= i < size -> buf' !! slot size (w + i) =
    if i <? Z.of_nat (length data) then data !! Z.to_nat i else buf !! slot size (w + i).

Lemma inserts_lookup (data buf : list A) off j : 0 <= off -> 0 <= j -> off + Z.of_nat (length data) <= Z.of_nat (length buf) ->
  list_inserts (Z.to_nat off) data buf !! Z.to_nat j =
  if (off <=? j) && (j <? off + Z.of_nat (length data)) then data !! Z.to_nat (j - off) else buf !! Z.to_nat j.
Proof.
  intros. destruct (Z.leb_spec off j), (Z.ltb_spec j (off + Z.of_nat (length data))); cbn.
  - rewrite list_lookup_inserts by lia. f_equal. lia.
  - by rewrite list_lookup_inserts_ge by lia.
  - by rewrite list_lookup_inserts_lt by lia.
  - by rewrite list_lookup_inserts_lt by lia.
Qed.

Lemma wrote_once size w (data buf : list A) : Z.of_nat (length buf) = size -> 0 <= w < size ->
  w + Z.of_nat (length data) <= size -> wrote size w data buf (list_inserts (Z.to_nat w) data buf).
Proof.
  intros Hb Hw Hd. split; [apply length_inserts|]. intros i Hi.
  destruct (decide (w + i < size)).
  - rewrite slot_small by lia. rewrite inserts_lookup by lia.
    destruct (Z.leb_spec w (w + i)), (Z.ltb_spec (w + i) (w + Z.of_nat (length data))), (Z.ltb_spec i (Z.of_nat (length data)));
      cbn; try lia; f_equal; lia.
  - rewrite slot_wrap by lia. rewrite inserts_lookup by lia.
    destruct (Z.leb_spec w (w + i - size)), (Z.ltb_spec (w + i - size) (w + Z.of_nat (length data))), (Z.ltb_spec i (Z.of_nat (length data)));
      cbn; try lia; done.
Qed.

Lemma wrote_twice size w (d1 d2 buf : list A) : Z.of_nat (length buf) = size -> 0 <= w < size ->
  Z.of_nat (length d1) = size - w -> Z.of_nat (length d2) <= w ->
  wrote size w (d1 ++ d2) buf (list_inserts 0 d2 (list_inserts (Z.to_nat w) d1 buf)).
Proof.
  intros Hb Hw H1 H2. split; [by rewrite !length_inserts|]. intros i Hi. rewrite length_app.
  change 0%nat with (Z.to_nat 0) at 1.
  destruct (decide (w + i < size)).
  - rewrite slot_small by lia. rewrite !inserts_lookup by (rewrite ?length_inserts; lia).
    destruct (Z.leb_spec 0 (w + i)), (Z.ltb_spec (w + i) (0 + Z.of_nat (length d2))),
      (Z.leb_spec w (w + i)), (Z.ltb_spec (w + i) (w + Z.of_nat (length d1))),
      (Z.ltb_spec i (Z.of_nat (length d1 + length d2))); cbn; try lia.
    rewrite lookup_app_l by lia. f_equal. lia.
  - rewrite slot_wrap by lia. rewrite !inserts_lookup by (rewrite ?length_inserts; lia).
    destruct (Z.leb_spec 0 (w + i - size)), (Z.ltb_spec (w + i - size) (0 + Z.of_nat (length d2))),
      (Z.leb_spec w (w + i - size)), (Z.ltb_spec (w + i - size) (w + Z.of_nat (length d1))),
      (Z.ltb_spec i (Z.of_nat (length d1 + length d2))); cbn; try lia; [|done].
    rewrite lookup_app_r by lia. f_equal. lia.
Qed.

(** ** A stretch of the buffer *)

(** [buf] holds [q] in the [n] positions from [r] on. *)
Definition segment (size r n : Z) (buf q : list A) : Prop :=
  Z.of_nat (length q) = n /\ forall i, 0 <= i < n -> q !! Z.to_nat i = buf !! slot size (r + i).

(** Writing [d] at its end, [w], may overwrite [k] elements at its beginning. *)
Lemma segment_write size r n w r' k (buf buf' q d : list A) :
  0 < size -> n <= size -> segment size r n buf q -> Z.of_nat (length d) <= size -> wrote size w d buf buf' ->
  (forall x, slot size (w + x) = slot size (r + n + x)) ->
  0 <= k -> 0 <= n + Z.of_nat (length d) - k <= size ->
  (forall x, slot size (r' + x) = slot size (r + k + x)) ->
  segment size r' (n + Z.of_nat (length d) - k) buf' (drop (Z.to_nat k) (q ++ d)).
Proof.
  intros Hs Hns (Hl & Hq) Hd [Hb Hw] Hwr Hk Hu Hr.
  split; [rewrite length_drop, length_app; lia|].
  intros i Hi. rewrite lookup_drop, Hr. set (y := k + i - n).
  assert (E : forall z, z = y \/ z = y + size -> slot size (r + k + i) = slot size (w + z)).
  { intros z Hz. rewrite Hwr. unfold y in *. destruct Hz as [-> | ->].
    - f_equal. lia.
    - rewrite <- slot_over by lia. f_equal. lia. }
  destruct (decide (k + i < n)).
  - rewrite (E (y + size)) by tauto. rewrite Hw by lia.
    destruct (Z.ltb_spec (y + size) (Z.of_nat (length d))); [lia|].
    rewrite <- E by tauto. rewrite lookup_app_l by lia. rewrite <- Z.add_assoc, <- Hq by lia. f_equal. lia.
  - rewrite (E y) by tauto. rewrite Hw by lia.
    destruct (Z.ltb_spec y (Z.of_nat (length d))); [|lia].
    rewrite lookup_app_r by lia. f_equal. lia.
Qed.

Lemma segment_read size r n r' k (buf q : list A) :
  segment size r n buf q -> 0 <= k <= n -> (forall x, slot size (r' + x) = slot size (r + k + x)) ->
  segment size r' (n - k) buf (drop (Z.to_nat k) q).
Proof.
  intros (Hl & Hq) Hk Hr. split; [rewrite length_drop; lia|].
  intros i Hi. rewrite lookup_drop, Hr, <- Z.add_assoc, <- Hq by lia. f_equal. lia.
Qed.

Lemma segment_take size r n k (buf q d : list A) : segment size r n buf q -> 0 <= k <= n -> Z.of_nat (length d) = k ->
  (forall i, 0 <= i < k -> d !! Z.to_nat i = buf !! slot size (r + i)) -> d = take (Z.to_nat k) q.
Proof.
  intros (Hl & Hq) Hn Hd Hi. apply list_eq. intros i. destruct (decide (i < Z.to_nat k)%nat).
  - rewrite lookup_take_lt by done. specialize (Hi (Z.of_nat i)). specialize (Hq (Z.of_nat i)).
    rewrite Nat2Z.id in *. rewrite Hi, Hq by lia. done.
  - rewrite !lookup_ge_None_2; [done|rewrite length_take; lia|lia].
Qed.

(** The sequence itself. *)
Definition stretch `{Inhabited A} (size r n : Z) (buf : list A) : list A :=
  (fun i => buf !!! slot size (r + i)) <$> seqZ 0 n.

Lemma stretch_segment `{Inhabited A} size r n (buf : list A) :
  0 < size -> 0 <= n -> Z.of_nat (length buf) = size -> segment size r n buf (stretch size r n buf).
Proof.
  intros Hs Hn Hb. split; [unfold stretch; rewrite length_fmap, length_seqZ; lia|].
  intros i Hi. unfold stretch. rewrite list_lookup_fmap, lookup_seqZ_lt by lia. cbn.
  rewrite Z2Nat.id, Z.add_0_l by lia.
  destruct (slot_nat size (r + i)) as (j & -> & Hj); [lia|].
  destruct (lookup_lt_is_Some_2 buf (Z.to_nat j)) as [x Hx]; [lia|]. by rewrite Hx, (list_lookup_total_correct _ _ _ Hx).
Qed.
Lemma segment_unique size r n (buf q q' : list A) : segment size r n buf q -> segment size r n buf q' -> q = q'.
Proof.
  intros [Hl Hi] [Hl' Hi']. apply list_eq. intros i. destruct (decide (i < length q)%nat).
  - specialize (Hi (Z.of_nat i)). specialize (Hi' (Z.of_nat i)). rewrite Nat2Z.id in *. rewrite Hi, Hi' by lia. done.
  - rewrite !lookup_ge_None_2; [done|lia|lia].
Qed.
End cyclic.
