(* ===== verification/Kernel.v ===== *)
(** * Kernel: the data of the RT-Thread kernel

    The structures of rt-thread/include/rtdef.h in the configuration of
    src/rtconfig.h (one core, 32 priorities, no modules, signals or LWP), the
    kernel's global variables as one record [kstate], and the few operations on
    them every component shares.  Objects are named by identifiers instead of
    addresses; list heads denote sequences (see RtList).  Disabling interrupts
    makes a kernel call atomic with respect to the model's steps, so
    [rt_hw_interrupt_disable]/[enable] have no counterpart here. *)

From S2P Require Import Prelude RtList.
Export Space.

#[local] Open Scope Z_scope.

(** ** Constants of rtdef.h and rtconfig.h *)

Definition RT_NAME_MAX : nat := 8.
Definition RT_THREAD_PRIORITY_MAX : Z := 32.
Definition RT_TICK_PER_SECOND : Z := 1000.
Definition RT_TICK_MAX : Z := 2 ^ 32 - 1.

Definition RT_EOK : Z := 0.
Definition RT_ERROR : Z := 1.
Definition RT_ETIMEOUT : Z := 2.
Definition RT_EFULL : Z := 3.
Definition RT_EEMPTY : Z := 4.
Definition RT_ENOMEM : Z := 5.
Definition RT_ENOSYS : Z := 6.
Definition RT_EBUSY : Z := 7.
Definition RT_EIO : Z := 8.
Definition RT_EINTR : Z := 9.
Definition RT_EINVAL : Z := 10.

Definition RT_THREAD_INIT : Z := 0x00.
Definition RT_THREAD_READY : Z := 0x01.
Definition RT_THREAD_SUSPEND : Z := 0x02.
Definition RT_THREAD_RUNNING : Z := 0x03.
Definition RT_THREAD_CLOSE : Z := 0x04.
Definition RT_THREAD_STAT_MASK : Z := 0x07.
Definition RT_THREAD_STAT_YIELD : Z := 0x08.
Definition RT_THREAD_STAT_YIELD_MASK : Z := RT_THREAD_STAT_YIELD.

Definition RT_THREAD_CTRL_STARTUP : Z := 0x00.
Definition RT_THREAD_CTRL_CLOSE : Z := 0x01.
Definition RT_THREAD_CTRL_CHANGE_PRIORITY : Z := 0x02.

Definition RT_TIMER_FLAG_DEACTIVATED : Z := 0x0.
Definition RT_TIMER_FLAG_ACTIVATED : Z := 0x1.
Definition RT_TIMER_FLAG_ONE_SHOT : Z := 0x0.
Definition RT_TIMER_FLAG_PERIODIC : Z := 0x2.
Definition RT_TIMER_FLAG_SOFT_TIMER : Z := 0x4.
Definition RT_TIMER_CTRL_SET_TIME : Z := 0x0.
Definition RT_TIMER_CTRL_GET_TIME : Z := 0x1.
Definition RT_TIMER_CTRL_SET_ONESHOT : Z := 0x2.
Definition RT_TIMER_CTRL_SET_PERIODIC : Z := 0x3.
Definition RT_TIMER_CTRL_GET_STATE : Z := 0x4.
Definition RT_SOFT_TIMER_IDLE : Z := 1.
Definition RT_SOFT_TIMER_BUSY : Z := 0.

Definition RT_IPC_FLAG_FIFO : Z := 0x00.
Definition RT_IPC_FLAG_PRIO : Z := 0x01.
Definition RT_IPC_CMD_RESET : Z := 0x01.
Definition RT_WAITING_FOREVER : Z := -1.
Definition RT_EVENT_FLAG_AND : Z := 0x01.
Definition RT_EVENT_FLAG_OR : Z := 0x02.
Definition RT_EVENT_FLAG_CLEAR : Z := 0x04.
Definition RT_SEM_VALUE_MAX : Z := 2 ^ 16 - 1.
Definition RT_MUTEX_VALUE_MAX : Z := 2 ^ 16 - 1.
Definition RT_MUTEX_HOLD_MAX : Z := 2 ^ 8 - 1.
Definition RT_MB_ENTRY_MAX : Z := 2 ^ 16 - 1.
Definition RT_MQ_ENTRY_MAX : Z := 2 ^ 16 - 1.

Definition RT_Object_Class_Null : Z := 0x00.
Definition RT_Object_Class_Thread : Z := 0x01.
Definition RT_Object_Class_Semaphore : Z := 0x02.
Definition RT_Object_Class_Mutex : Z := 0x03.
Definition RT_Object_Class_Event : Z := 0x04.
Definition RT_Object_Class_MailBox : Z := 0x05.
Definition RT_Object_Class_MessageQueue : Z := 0x06.
Definition RT_Object_Class_MemPool : Z := 0x08.
Definition RT_Object_Class_Device : Z := 0x09.
Definition RT_Object_Class_Timer : Z := 0x0a.
Definition RT_Object_Class_Static : Z := 0x80.

(** ** Identifiers *)

Abbreviation tid := positive.

(** A timer is the one embedded in a thread or a free-standing one. *)
Inductive tmid := TThread (t : tid) | TUser (p : positive).

Inductive objid :=
  | OThread (t : tid) | OTimer (tm : tmid) | OSem (p : positive) | OMutex (p : positive)
  | OEvent (p : positive) | OMailBox (p : positive) | OMq (p : positive) | OMemPool (p : positive)
  | ODevice (p : positive).

(** The heads a thread's [tlist] node can hang on; [LWait] those of the waiting lists outside
    kernel objects. *)
Inductive lhead :=
  | LReady (p : Z) | LDefunct | LSuspend (o : objid) | LSender (o : objid) | LWait (p : positive).

(** The heads a timer's [row[0]] node can hang on: [rt_timer_list],
    [rt_soft_timer_list] and the local [list] of the two check functions. *)
Inductive thead := TLHard | TLSoft | TLTmp | TLSoftTmp.

#[global] Instance tmid_eq_dec : EqDecision tmid.
Proof. solve_decision. Defined.
#[global] Instance objid_eq_dec : EqDecision objid.
Proof. solve_decision. Defined.
#[global] Instance lhead_eq_dec : EqDecision lhead.
Proof. solve_decision. Defined.
#[global] Instance thead_eq_dec : EqDecision thead.
Proof. solve_decision. Defined.

#[global] Instance tmid_countable : Countable tmid.
Proof.
  apply (inj_countable' (fun x => match x with TThread t => inl t | TUser p => inr p end)
           (fun y => match y with inl t => TThread t | inr p => TUser p end)).
  by intros [].
Defined.

#[global] Instance objid_countable : Countable objid.
Proof.
  apply (inj_countable'
    (fun x => match x with
       | OThread t => (0%nat, inl t) | OTimer tm => (1%nat, inr tm) | OSem p => (2%nat, inl p)
       | OMutex p => (3%nat, inl p) | OEvent p => (4%nat, inl p) | OMailBox p => (5%nat, inl p)
       | OMq p => (6%nat, inl p) | OMemPool p => (7%nat, inl p) | ODevice p => (8%nat, inl p) end)
    (fun y => match y with
       | (0%nat, inl t) => OThread t | (1%nat, inr tm) => OTimer tm | (2%nat, inl p) => OSem p
       | (3%nat, inl p) => OMutex p | (4%nat, inl p) => OEvent p | (5%nat, inl p) => OMailBox p
       | (6%nat, inl p) => OMq p | (7%nat, inl p) => OMemPool p | (_, inl p) => ODevice p | (_, inr tm) => OTimer tm end)).
  by intros [].
Defined.

(** What a timer calls on timeout. *)
Inductive timeout_fn := FThreadTimeout (t : tid) | FUser (f : positive).

(** ** Structures *)

(** struct rt_object, without its list node *)
Record rt_object := mkObject {
  o_name : list Z;
  o_type : Z;
  o_flag : Z
}.

Definition set_o_name (g : (list Z) -> (list Z)) (s : rt_object) : rt_object :=
  mkObject (g (o_name s)) (o_type s) (o_flag s).
Definition set_o_type (g : (Z) -> (Z)) (s : rt_object) : rt_object :=
  mkObject (o_name s) (g (o_type s)) (o_flag s).
Definition set_o_flag (g : (Z) -> (Z)) (s : rt_object) : rt_object :=
  mkObject (o_name s) (o_type s) (g (o_flag s)).

(** struct rt_timer; [parent] is the object header of [OTimer] *)
Record rt_timer := mkTimer {
  tm_timeout_func : timeout_fn;
  tm_init_tick : Z;
  tm_timeout_tick : Z
}.

Definition set_tm_timeout_func (g : (timeout_fn) -> (timeout_fn)) (s : rt_timer) : rt_timer :=
  mkTimer (g (tm_timeout_func s)) (tm_init_tick s) (tm_timeout_tick s).
Definition set_tm_init_tick (g : (Z) -> (Z)) (s : rt_timer) : rt_timer :=
  mkTimer (tm_timeout_func s) (g (tm_init_tick s)) (tm_timeout_tick s).
Definition set_tm_timeout_tick (g : (Z) -> (Z)) (s : rt_timer) : rt_timer :=
  mkTimer (tm_timeout_func s) (tm_init_tick s) (g (tm_timeout_tick s)).

(** struct rt_thread; the object fields are the header of [OThread], the built-in timer is [TThread] *)
Record rt_thread := mkThread {
  th_entry : positive;
  th_parameter : Z;
  th_stack_addr : Z;
  th_stack_size : Z;
  th_error : Z;
  th_stat : Z;
  th_current_priority : Z;
  th_init_priority : Z;
  th_number_mask : Z;
  th_event_set : Z;
  th_event_info : Z;
  th_init_tick : Z;
  th_remaining_tick : Z;
  th_cleanup : option positive;
  th_user_data : Z
}.

Definition set_th_entry (g : (positive) -> (positive)) (s : rt_thread) : rt_thread :=
  mkThread (g (th_entry s)) (th_parameter s) (th_stack_addr s) (th_stack_size s) (th_error s) (th_stat s) (th_current_priority s) (th_init_priority s) (th_number_mask s) (th_event_set s) (th_event_info s) (th_init_tick s) (th_remaining_tick s) (th_cleanup s) (th_user_data s).
Definition set_th_parameter (g : (Z) -> (Z)) (s : rt_thread) : rt_thread :=
  mkThread (th_entry s) (g (th_parameter s)) (th_stack_addr s) (th_stack_size s) (th_error s) (th_stat s) (th_current_priority s) (th_init_priority s) (th_number_mask s) (th_event_set s) (th_event_info s) (th_init_tick s) (th_remaining_tick s) (th_cleanup s) (th_user_data s).
Definition set_th_stack_addr (g : (Z) -> (Z)) (s : rt_thread) : rt_thread :=
  mkThread (th_entry s) (th_parameter s) (g (th_stack_addr s)) (th_stack_size s) (th_error s) (th_stat s) (th_current_priority s) (th_init_priority s) (th_number_mask s) (th_event_set s) (th_event_info s) (th_init_tick s) (th_remaining_tick s) (th_cleanup s) (th_user_data s).
Definition set_th_stack_size (g : (Z) -> (Z)) (s : rt_thread) : rt_thread :=
  mkThread (th_entry s) (th_parameter s) (th_stack_addr s) (g (th_stack_size s)) (th_error s) (th_stat s) (th_current_priority s) (th_init_priority s) (th_number_mask s) (th_event_set s) (th_event_info s) (th_init_tick s) (th_remaining_tick s) (th_cleanup s) (th_user_data s).
Definition set_th_error (g : (Z) -> (Z)) (s : rt_thread) : rt_thread :=
  mkThread (th_entry s) (th_parameter s) (th_stack_addr s) (th_stack_size s) (g (th_error s)) (th_stat s) (th_current_priority s) (th_init_priority s) (th_number_mask s) (th_event_set s) (th_event_info s) (th_init_tick s) (th_remaining_tick s) (th_cleanup s) (th_user_data s).
Definition set_th_stat (g : (Z) -> (Z)) (s : rt_thread) : rt_thread :=
  mkThread (th_entry s) (th_parameter s) (th_stack_addr s) (th_stack_size s) (th_error s) (g (th_stat s)) (th_current_priority s) (th_init_priority s) (th_number_mask s) (th_event_set s) (th_event_info s) (th_init_tick s) (th_remaining_tick s) (th_cleanup s) (th_user_data s).
Definition set_th_current_priority (g : (Z) -> (Z)) (s : rt_thread) : rt_thread :=
  mkThread (th_entry s) (th_parameter s) (th_stack_addr s) (th_stack_size s) (th_error s) (th_stat s) (g (th_current_priority s)) (th_init_priority s) (th_number_mask s) (th_event_set s) (th_event_info s) (th_init_tick s) (th_remaining_tick s) (th_cleanup s) (th_user_data s).
Definition set_th_init_priority (g : (Z) -> (Z)) (s : rt_thread) : rt_thread :=
  mkThread (th_entry s) (th_parameter s) (th_stack_addr s) (th_stack_size s) (th_error s) (th_stat s) (th_current_priority s) (g (th_init_priority s)) (th_number_mask s) (th_event_set s) (th_event_info s) (th_init_tick s) (th_remaining_tick s) (th_cleanup s) (th_user_data s).
Definition set_th_number_mask (g : (Z) -> (Z)) (s : rt_thread) : rt_thread :=
  mkThread (th_entry s) (th_parameter s) (th_stack_addr s) (th_stack_size s) (th_error s) (th_stat s) (th_current_priority s) (th_init_priority s) (g (th_number_mask s)) (th_event_set s) (th_event_info s) (th_init_tick s) (th_remaining_tick s) (th_cleanup s) (th_user_data s).
Definition set_th_event_set (g : (Z) -> (Z)) (s : rt_thread) : rt_thread :=
  mkThread (th_entry s) (th_parameter s) (th_stack_addr s) (th_stack_size s) (th_error s) (th_stat s) (th_current_priority s) (th_init_priority s) (th_number_mask s) (g (th_event_set s)) (th_event_info s) (th_init_tick s) (th_remaining_tick s) (th_cleanup s) (th_user_data s).
Definition set_th_event_info (g : (Z) -> (Z)) (s : rt_thread) : rt_thread :=
  mkThread (th_entry s) (th_parameter s) (th_stack_addr s) (th_stack_size s) (th_error s) (th_stat s) (th_current_priority s) (th_init_priority s) (th_number_mask s) (th_event_set s) (g (th_event_info s)) (th_init_tick s) (th_remaining_tick s) (th_cleanup s) (th_user_data s).
Definition set_th_init_tick (g : (Z) -> (Z)) (s : rt_thread) : rt_thread :=
  mkThread (th_entry s) (th_parameter s) (th_stack_addr s) (th_stack_size s) (th_error s) (th_stat s) (th_current_priority s) (th_init_priority s) (th_number_mask s) (th_event_set s) (th_event_info s) (g (th_init_tick s)) (th_remaining_tick s) (th_cleanup s) (th_user_data s).
Definition set_th_remaining_tick (g : (Z) -> (Z)) (s : rt_thread) : rt_thread :=
  mkThread (th_entry s) (th_parameter s) (th_stack_addr s) (th_stack_size s) (th_error s) (th_stat s) (th_current_priority s) (th_init_priority s) (th_number_mask s) (th_event_set s) (th_event_info s) (th_init_tick s) (g (th_remaining_tick s)) (th_cleanup s) (th_user_data s).
Definition set_th_cleanup (g : (option positive) -> (option positive)) (s : rt_thread) : rt_thread :=
  mkThread (th_entry s) (th_parameter s) (th_stack_addr s) (th_stack_size s) (th_error s) (th_stat s) (th_current_priority s) (th_init_priority s) (th_number_mask s) (th_event_set s) (th_event_info s) (th_init_tick s) (th_remaining_tick s) (g (th_cleanup s)) (th_user_data s).
Definition set_th_user_data (g : (Z) -> (Z)) (s : rt_thread) : rt_thread :=
  mkThread (th_entry s) (th_parameter s) (th_stack_addr s) (th_stack_size s) (th_error s) (th_stat s) (th_current_priority s) (th_init_priority s) (th_number_mask s) (th_event_set s) (th_event_info s) (th_init_tick s) (th_remaining_tick s) (th_cleanup s) (g (th_user_data s)).

(** struct rt_semaphore *)
Record rt_semaphore := mkSem {
  sem_value : Z
}.

Definition set_sem_value (g : (Z) -> (Z)) (s : rt_semaphore) : rt_semaphore :=
  mkSem (g (sem_value s)).

(** struct rt_mutex *)
Record rt_mutex := mkMutex {
  mx_value : Z;
  mx_original_priority : Z;
  mx_hold : Z;
  mx_owner : option tid
}.

Definition set_mx_value (g : (Z) -> (Z)) (s : rt_mutex) : rt_mutex :=
  mkMutex (g (mx_value s)) (mx_original_priority s) (mx_hold s) (mx_owner s).
Definition set_mx_original_priority (g : (Z) -> (Z)) (s : rt_mutex) : rt_mutex :=
  mkMutex (mx_value s) (g (mx_original_priority s)) (mx_hold s) (mx_owner s).
Definition set_mx_hold (g : (Z) -> (Z)) (s : rt_mutex) : rt_mutex :=
  mkMutex (mx_value s) (mx_original_priority s) (g (mx_hold s)) (mx_owner s).
Definition set_mx_owner (g : (option tid) -> (option tid)) (s : rt_mutex) : rt_mutex :=
  mkMutex (mx_value s) (mx_original_priority s) (mx_hold s) (g (mx_owner s)).

(** struct rt_event *)
Record rt_event := mkEvent {
  ev_set : Z
}.

Definition set_ev_set (g : (Z) -> (Z)) (s : rt_event) : rt_event :=
  mkEvent (g (ev_set s)).

(** struct rt_mailbox; the pool is the sequence of its words *)
Record rt_mailbox := mkMailbox {
  mb_msg_pool : list Z;
  mb_size : Z;
  mb_entry : Z;
  mb_in_offset : Z;
  mb_out_offset : Z
}.

Definition set_mb_msg_pool (g : (list Z) -> (list Z)) (s : rt_mailbox) : rt_mailbox :=
  mkMailbox (g (mb_msg_pool s)) (mb_size s) (mb_entry s) (mb_in_offset s) (mb_out_offset s).
Definition set_mb_size (g : (Z) -> (Z)) (s : rt_mailbox) : rt_mailbox :=
  mkMailbox (mb_msg_pool s) (g (mb_size s)) (mb_entry s) (mb_in_offset s) (mb_out_offset s).
Definition set_mb_entry (g : (Z) -> (Z)) (s : rt_mailbox) : rt_mailbox :=
  mkMailbox (mb_msg_pool s) (mb_size s) (g (mb_entry s)) (mb_in_offset s) (mb_out_offset s).
Definition set_mb_in_offset (g : (Z) -> (Z)) (s : rt_mailbox) : rt_mailbox :=
  mkMailbox (mb_msg_pool s) (mb_size s) (mb_entry s) (g (mb_in_offset s)) (mb_out_offset s).
Definition set_mb_out_offset (g : (Z) -> (Z)) (s : rt_mailbox) : rt_mailbox :=
  mkMailbox (mb_msg_pool s) (mb_size s) (mb_entry s) (mb_in_offset s) (g (mb_out_offset s)).

(** The kernel globals: [rt_object_container], the live objects, [rt_thread_priority_table] and the other [tlist] rings, [rt_thread_ready_priority_group], [rt_current_thread], [rt_current_priority], [rt_scheduler_lock_nest], [rt_interrupt_nest], [rt_tick], the timer lists, [soft_timer_status], the skip-list counter, the IPC objects, and a log of the thread cleanup functions called. *)
Record kstate := mkK {
  k_obj : gmap objid rt_object;
  k_containers : Z -> list objid;
  k_threads : gmap tid rt_thread;
  k_tlist : lhead -> list tid;
  k_group : Z;
  k_current : option tid;
  k_current_priority : Z;
  k_lock_nest : Z;
  k_irq_nest : Z;
  k_tick : Z;
  k_timers : gmap tmid rt_timer;
  k_trow : thead -> list tmid;
  k_soft_status : Z;
  k_random_nr : Z;
  k_sems : gmap positive rt_semaphore;
  k_mutexes : gmap positive rt_mutex;
  k_events : gmap positive rt_event;
  k_mailboxes : gmap positive rt_mailbox;
  k_cleanups : list (positive * tid)
}.

Definition set_k_obj (g : (gmap objid rt_object) -> (gmap objid rt_object)) (s : kstate) : kstate :=
  mkK (g (k_obj s)) (k_containers s) (k_threads s) (k_tlist s) (k_group s) (k_current s) (k_current_priority s) (k_lock_nest s) (k_irq_nest s) (k_tick s) (k_timers s) (k_trow s) (k_soft_status s) (k_random_nr s) (k_sems s) (k_mutexes s) (k_events s) (k_mailboxes s) (k_cleanups s).
Definition set_k_containers (g : (Z -> list objid) -> (Z -> list objid)) (s : kstate) : kstate :=
  mkK (k_obj s) (g (k_containers s)) (k_threads s) (k_tlist s) (k_group s) (k_current s) (k_current_priority s) (k_lock_nest s) (k_irq_nest s) (k_tick s) (k_timers s) (k_trow s) (k_soft_status s) (k_random_nr s) (k_sems s) (k_mutexes s) (k_events s) (k_mailboxes s) (k_cleanups s).
Definition set_k_threads (g : (gmap tid rt_thread) -> (gmap tid rt_thread)) (s : kstate) : kstate :=
  mkK (k_obj s) (k_containers s) (g (k_threads s)) (k_tlist s) (k_group s) (k_current s) (k_current_priority s) (k_lock_nest s) (k_irq_nest s) (k_tick s) (k_timers s) (k_trow s) (k_soft_status s) (k_random_nr s) (k_sems s) (k_mutexes s) (k_events s) (k_mailboxes s) (k_cleanups s).
Definition set_k_tlist (g : (lhead -> list tid) -> (lhead -> list tid)) (s : kstate) : kstate :=
  mkK (k_obj s) (k_containers s) (k_threads s) (g (k_tlist s)) (k_group s) (k_current s) (k_current_priority s) (k_lock_nest s) (k_irq_nest s) (k_tick s) (k_timers s) (k_trow s) (k_soft_status s) (k_random_nr s) (k_sems s) (k_mutexes s) (k_events s) (k_mailboxes s) (k_cleanups s).
Definition set_k_group (g : (Z) -> (Z)) (s : kstate) : kstate :=
  mkK (k_obj s) (k_containers s) (k_threads s) (k_tlist s) (g (k_group s)) (k_current s) (k_current_priority s) (k_lock_nest s) (k_irq_nest s) (k_tick s) (k_timers s) (k_trow s) (k_soft_status s) (k_random_nr s) (k_sems s) (k_mutexes s) (k_events s) (k_mailboxes s) (k_cleanups s).
Definition set_k_current (g : (option tid) -> (option tid)) (s : kstate) : kstate :=
  mkK (k_obj s) (k_containers s) (k_threads s) (k_tlist s) (k_group s) (g (k_current s)) (k_current_priority s) (k_lock_nest s) (k_irq_nest s) (k_tick s) (k_timers s) (k_trow s) (k_soft_status s) (k_random_nr s) (k_sems s) (k_mutexes s) (k_events s) (k_mailboxes s) (k_cleanups s).
Definition set_k_current_priority (g : (Z) -> (Z)) (s : kstate) : kstate :=
  mkK (k_obj s) (k_containers s) (k_threads s) (k_tlist s) (k_group s) (k_current s) (g (k_current_priority s)) (k_lock_nest s) (k_irq_nest s) (k_tick s) (k_timers s) (k_trow s) (k_soft_status s) (k_random_nr s) (k_sems s) (k_mutexes s) (k_events s) (k_mailboxes s) (k_cleanups s).
Definition set_k_lock_nest (g : (Z) -> (Z)) (s : kstate) : kstate :=
  mkK (k_obj s) (k_containers s) (k_threads s) (k_tlist s) (k_group s) (k_current s) (k_current_priority s) (g (k_lock_nest s)) (k_irq_nest s) (k_tick s) (k_timers s) (k_trow s) (k_soft_status s) (k_random_nr s) (k_sems s) (k_mutexes s) (k_events s) (k_mailboxes s) (k_cleanups s).
Definition set_k_irq_nest (g : (Z) -> (Z)) (s : kstate) : kstate :=
  mkK (k_obj s) (k_containers s) (k_threads s) (k_tlist s) (k_group s) (k_current s) (k_current_priority s) (k_lock_nest s) (g (k_irq_nest s)) (k_tick s) (k_timers s) (k_trow s) (k_soft_status s) (k_random_nr s) (k_sems s) (k_mutexes s) (k_events s) (k_mailboxes s) (k_cleanups s).
Definition set_k_tick (g : (Z) -> (Z)) (s : kstate) : kstate :=
  mkK (k_obj s) (k_containers s) (k_threads s) (k_tlist s) (k_group s) (k_current s) (k_current_priority s) (k_lock_nest s) (k_irq_nest s) (g (k_tick s)) (k_timers s) (k_trow s) (k_soft_status s) (k_random_nr s) (k_sems s) (k_mutexes s) (k_events s) (k_mailboxes s) (k_cleanups s).
Definition set_k_timers (g : (gmap tmid rt_timer) -> (gmap tmid rt_timer)) (s : kstate) : kstate :=
  mkK (k_obj s) (k_containers s) (k_threads s) (k_tlist s) (k_group s) (k_current s) (k_current_priority s) (k_lock_nest s) (k_irq_nest s) (k_tick s) (g (k_timers s)) (k_trow s) (k_soft_status s) (k_random_nr s) (k_sems s) (k_mutexes s) (k_events s) (k_mailboxes s) (k_cleanups s).
Definition set_k_trow (g : (thead -> list tmid) -> (thead -> list tmid)) (s : kstate) : kstate :=
  mkK (k_obj s) (k_containers s) (k_threads s) (k_tlist s) (k_group s) (k_current s) (k_current_priority s) (k_lock_nest s) (k_irq_nest s) (k_tick s) (k_timers s) (g (k_trow s)) (k_soft_status s) (k_random_nr s) (k_sems s) (k_mutexes s) (k_events s) (k_mailboxes s) (k_cleanups s).
Definition set_k_soft_status (g : (Z) -> (Z)) (s : kstate) : kstate :=
  mkK (k_obj s) (k_containers s) (k_threads s) (k_tlist s) (k_group s) (k_current s) (k_current_priority s) (k_lock_nest s) (k_irq_nest s) (k_tick s) (k_timers s) (k_trow s) (g (k_soft_status s)) (k_random_nr s) (k_sems s) (k_mutexes s) (k_events s) (k_mailboxes s) (k_cleanups s).
Definition set_k_random_nr (g : (Z) -> (Z)) (s : kstate) : kstate :=
  mkK (k_obj s) (k_containers s) (k_threads s) (k_tlist s) (k_group s) (k_current s) (k_current_priority s) (k_lock_nest s) (k_irq_nest s) (k_tick s) (k_timers s) (k_trow s) (k_soft_status s) (g (k_random_nr s)) (k_sems s) (k_mutexes s) (k_events s) (k_mailboxes s) (k_cleanups s).
Definition set_k_sems (g : (gmap positive rt_semaphore) -> (gmap positive rt_semaphore)) (s : kstate) : kstate :=
  mkK (k_obj s) (k_containers s) (k_threads s) (k_tlist s) (k_group s) (k_current s) (k_current_priority s) (k_lock_nest s) (k_irq_nest s) (k_tick s) (k_timers s) (k_trow s) (k_soft_status s) (k_random_nr s) (g (k_sems s)) (k_mutexes s) (k_events s) (k_mailboxes s) (k_cleanups s).
Definition set_k_mutexes (g : (gmap positive rt_mutex) -> (gmap positive rt_mutex)) (s : kstate) : kstate :=
  mkK (k_obj s) (k_containers s) (k_threads s) (k_tlist s) (k_group s) (k_current s) (k_current_priority s) (k_lock_nest s) (k_irq_nest s) (k_tick s) (k_timers s) (k_trow s) (k_soft_status s) (k_random_nr s) (k_sems s) (g (k_mutexes s)) (k_events s) (k_mailboxes s) (k_cleanups s).
Definition set_k_events (g : (gmap positive rt_event) -> (gmap positive rt_event)) (s : kstate) : kstate :=
  mkK (k_obj s) (k_containers s) (k_threads s) (k_tlist s) (k_group s) (k_current s) (k_current_priority s) (k_lock_nest s) (k_irq_nest s) (k_tick s) (k_timers s) (k_trow s) (k_soft_status s) (k_random_nr s) (k_sems s) (k_mutexes s) (g (k_events s)) (k_mailboxes s) (k_cleanups s).
Definition set_k_mailboxes (g : (gmap positive rt_mailbox) -> (gmap positive rt_mailbox)) (s : kstate) : kstate :=
  mkK (k_obj s) (k_containers s) (k_threads s) (k_tlist s) (k_group s) (k_current s) (k_current_priority s) (k_lock_nest s) (k_irq_nest s) (k_tick s) (k_timers s) (k_trow s) (k_soft_status s) (k_random_nr s) (k_sems s) (k_mutexes s) (k_events s) (g (k_mailboxes s)) (k_cleanups s).
Definition set_k_cleanups (g : (list (positive * tid)) -> (list (positive * tid))) (s : kstate) : kstate :=
  mkK (k_obj s) (k_containers s) (k_threads s) (k_tlist s) (k_group s) (k_current s) (k_current_priority s) (k_lock_nest s) (k_irq_nest s) (k_tick s) (k_timers s) (k_trow s) (k_soft_status s) (k_random_nr s) (k_sems s) (k_mutexes s) (k_events s) (k_mailboxes s) (g (k_cleanups s)).

Abbreviation K := (M kstate).

(** ** Accessors *)

Definition get_thread (t : tid) : K rt_thread := deref (fun s => k_threads s !! t).
Definition upd_thread (t : tid) (f : rt_thread -> rt_thread) : K unit :=
  th ← get_thread t; modify (set_k_threads <[t := f th]>).
Definition get_timer (tm : tmid) : K rt_timer := deref (fun s => k_timers s !! tm).
Definition upd_timer (tm : tmid) (f : rt_timer -> rt_timer) : K unit :=
  x ← get_timer tm; modify (set_k_timers <[tm := f x]>).
Definition get_obj (o : objid) : K rt_object := deref (fun s => k_obj s !! o).
Definition upd_obj (o : objid) (f : rt_object -> rt_object) : K unit :=
  x ← get_obj o; modify (set_k_obj <[o := f x]>).
Definition tlist_modify (f : (lhead -> list tid) -> lhead -> list tid) : K unit :=
  modify (set_k_tlist f).
Definition trow_modify (f : (thead -> list tmid) -> thead -> list tmid) : K unit :=
  modify (set_k_trow f).

(** [list_entry (head.next)]: the first node of a ring; on an empty ring the
    expression denotes no object. *)
Definition first_of (h : lhead) : K tid := deref (fun s => head (k_tlist s h)).
Definition first_timer (h : thead) : K tmid := deref (fun s => head (k_trow s h)).

(** [rt_thread_self ()], of thread.c *)
Definition rt_thread_self : K (option tid) := gets k_current.
(** Its result dereferenced. *)
Definition self : K tid := deref k_current.

Lemma wp_get_thread t th (Q : rt_thread -> kstate -> Prop) s :
  k_threads s !! t = Some th -> Q th s -> wp (get_thread t) Q s.
Proof. intros. by eapply wp_deref. Qed.
Lemma wp_upd_thread t f th (Q : unit -> kstate -> Prop) s :
  k_threads s !! t = Some th -> Q tt (set_k_threads <[t := f th]> s) -> wp (upd_thread t f) Q s.
Proof. intros. unfold upd_thread. rewrite wp_bind. eapply wp_get_thread; [done|]. done. Qed.
Lemma wp_get_timer t th (Q : rt_timer -> kstate -> Prop) s :
  k_timers s !! t = Some th -> Q th s -> wp (get_timer t) Q s.
Proof. intros. by eapply wp_deref. Qed.
Lemma wp_upd_timer t f th (Q : unit -> kstate -> Prop) s :
  k_timers s !! t = Some th -> Q tt (set_k_timers <[t := f th]> s) -> wp (upd_timer t f) Q s.
Proof. intros. unfold upd_timer. rewrite wp_bind. eapply wp_get_timer; [done|]. done. Qed.
Lemma wp_get_obj t th (Q : rt_object -> kstate -> Prop) s :
  k_obj s !! t = Some th -> Q th s -> wp (get_obj t) Q s.
Proof. intros. by eapply wp_deref. Qed.
Lemma wp_upd_obj t f th (Q : unit -> kstate -> Prop) s :
  k_obj s !! t = Some th -> Q tt (set_k_obj <[t := f th]> s) -> wp (upd_obj t f) Q s.
Proof. intros. unfold upd_obj. rewrite wp_bind. eapply wp_get_obj; [done|]. done. Qed.
Lemma wp_self t (Q : tid -> kstate -> Prop) s : k_current s = Some t -> Q t s -> wp self Q s.
Proof. intros. by eapply wp_deref. Qed.
