(* ===== verification/Scheduler.v ===== *)
(** * Scheduler: rt-thread/src/scheduler.c, single-core configuration

    The ready queues, their priority bitmap and [rt_schedule].  An out-of-range
    index into [rt_thread_priority_table] and a dispatch from an empty ready list
    are faults.  The scheduler hook is not installed, and the stack check
    [_rt_scheduler_stack_check] only prints or hangs; neither is modelled.
    [rt_hw_context_switch] makes the thread recorded in [rt_current_thread] the
    one that runs. *)

From S2P Require Import Prelude Kernel.

#[local] Open Scope Z_scope.

(** ** Definitions *)

(** [__builtin_ffs], to which [__rt_ffs] of cpuport.c expands under GCC. *)
Fixpoint ffs_from (n : nat) (i v : Z) : Z :=
  match n with
  | O => 0
  | S n => if Z.testbit v i then i + 1 else ffs_from n (i + 1) v
  end.
Definition __rt_ffs (value : Z) : Z := ffs_from 32 0 value.

(** The bound of [rt_thread_priority_table]. *)
Definition priority_index (p : Z) : K unit :=
  rt_assert ((0 <=? p) && (p <? RT_THREAD_PRIORITY_MAX)).

Definition _get_highest_priority_thread : K (tid * Z) :=
  group ← gets k_group;
  let highest_ready_priority := u32 (__rt_ffs group - 1) in
  priority_index highest_ready_priority ;;
  highest_priority_thread ← first_of (LReady highest_ready_priority);
  mret (highest_priority_thread, highest_ready_priority).

Definition rt_system_scheduler_init : K unit :=
  modify (set_k_lock_nest (fun _ => 0)) ;;
  tlist_modify (fun L => fold_right (fun offset L => list_init (LReady offset) L) L
                           (seqZ 0 RT_THREAD_PRIORITY_MAX)) ;;
  modify (set_k_group (fun _ => 0)) ;;
  tlist_modify (list_init LDefunct).

(** [thread->stat = v | (thread->stat & ~RT_THREAD_STAT_MASK)] *)
Definition with_stat (v : Z) (stat : Z) : Z := Z.lor v (Z.land stat (Z.lnot RT_THREAD_STAT_MASK)).

Definition rt_schedule_insert_thread (thread : tid) : K unit :=
  current ← gets k_current;
  if bool_decide (current = Some thread) then
    upd_thread thread (set_th_stat (with_stat RT_THREAD_RUNNING))
  else
    upd_thread thread (set_th_stat (with_stat RT_THREAD_READY)) ;;
    th ← get_thread thread;
    priority_index (th_current_priority th) ;;
    tlist_modify (list_insert_before (LReady (th_current_priority th)) thread) ;;
    modify (set_k_group (fun g => Z.lor g (th_number_mask th))).

Definition rt_schedule_remove_thread (thread : tid) : K unit :=
  tlist_modify (list_remove thread) ;;
  th ← get_thread thread;
  priority_index (th_current_priority th) ;;
  L ← gets k_tlist;
  when (list_isempty (LReady (th_current_priority th)) L)
    (modify (set_k_group (fun g => Z.land g (Z.lnot (th_number_mask th))))).

Definition rt_system_scheduler_start : K unit :=
  '(to_thread, _) ← _get_highest_priority_thread;
  modify (set_k_current (fun _ => Some to_thread)) ;;
  rt_schedule_remove_thread to_thread ;;
  upd_thread to_thread (set_th_stat (fun _ => RT_THREAD_RUNNING)).

(** The choice of [rt_schedule] between the current thread and the head of the
    highest ready queue: the thread to run and [need_insert_from_thread]. *)
Definition choose_to (current to_thread : tid) (highest_ready_priority : Z) : K (tid * bool) :=
  th ← get_thread current;
  if Z.land (th_stat th) RT_THREAD_STAT_MASK =? RT_THREAD_RUNNING then
    let r :=
      if th_current_priority th <? highest_ready_priority then (current, false)
      else if (th_current_priority th =? highest_ready_priority) &&
              (Z.land (th_stat th) RT_THREAD_STAT_YIELD_MASK =? 0) then (current, false)
      else (to_thread, true) in
    upd_thread current (set_th_stat (fun st => Z.land st (Z.lnot RT_THREAD_STAT_YIELD_MASK))) ;;
    mret r
  else mret (to_thread, false).

Definition rt_schedule : K unit :=
  lock_nest ← gets k_lock_nest;
  if negb (lock_nest =? 0) then mret tt else
  group ← gets k_group;
  if group =? 0 then mret tt else
  '(head_thread, highest_ready_priority) ← _get_highest_priority_thread;
  from_thread ← self;
  '(to_thread, need_insert_from_thread) ←
    choose_to from_thread head_thread highest_ready_priority;
  if bool_decide (to_thread ≠ from_thread) then
    modify (set_k_current_priority (fun _ => u8 highest_ready_priority)) ;;
    modify (set_k_current (fun _ => Some to_thread)) ;;
    when need_insert_from_thread (rt_schedule_insert_thread from_thread) ;;
    rt_schedule_remove_thread to_thread ;;
    upd_thread to_thread (set_th_stat (with_stat RT_THREAD_RUNNING))
  else
    rt_schedule_remove_thread from_thread ;;
    upd_thread from_thread (set_th_stat (with_stat RT_THREAD_RUNNING)).

Definition rt_enter_critical : K unit := modify (set_k_lock_nest (fun n => i16 (n + 1))).

Definition rt_exit_critical : K unit :=
  modify (set_k_lock_nest (fun n => i16 (n - 1))) ;;
  n ← gets k_lock_nest;
  when (n <=? 0)
    (modify (set_k_lock_nest (fun _ => 0)) ;;
     current ← gets k_current;
     when (bool_decide (is_Some current)) rt_schedule).

Definition rt_critical_level : K Z := n ← gets k_lock_nest; mret (u16 n).

(** ** Bits *)

Lemma ffs_from_spec n i v :
  0 <= i -> (exists p, i <= p < i + Z.of_nat n /\ Z.testbit v p = true) ->
  exists p, ffs_from n i v = p + 1 /\ i <= p < i + Z.of_nat n /\ Z.testbit v p = true /\
    (forall q, i <= q < p -> Z.testbit v q = false).
Proof.
  revert i. induction n as [|n IH]; intros i Hi (p & Hp & Hb); [lia|]. simpl.
  destruct (Z.testbit v i) eqn:Ei.
  - exists i. repeat split; [lia|lia|done|]. intros; lia.
  - destruct (IH (i + 1)) as (q & -> & Hq & Hqb & Hmin); [lia| |].
    + exists p. split; [|done]. assert (p ≠ i) by congruence. lia.
    + exists q. repeat split; [lia|lia|done|]. intros r Hr.
      destruct (decide (r = i)) as [->|]; [done|]. apply Hmin. lia.
Qed.

Lemma rt_ffs_spec v :
  0 < v < 2 ^ 32 ->
  exists p, __rt_ffs v = p + 1 /\ 0 <= p < 32 /\ Z.testbit v p = true /\
    (forall q, 0 <= q < p -> Z.testbit v q = false).
Proof.
  intros Hv. destruct (ffs_from_spec 32 0 v) as (p & ? & ? & ? & ?); [lia| |eauto].
  exists (Z.log2 v). split; [|apply Z.bit_log2; lia].
  pose proof (Z.log2_nonneg v). pose proof (Z.log2_lt_pow2 v 32 ltac:(lia)). lia.
Qed.

Lemma stat_with_stat v st : 0 <= v < 8 -> Z.land (with_stat v st) RT_THREAD_STAT_MASK = v.
Proof.
  intros Hv. unfold with_stat, RT_THREAD_STAT_MASK.
  rewrite Z.land_lor_distr_l, <- Z.land_assoc.
  replace (Z.land (Z.lnot 7) 7) with 0 by reflexivity. rewrite Z.land_0_r, Z.lor_0_r.
  change 7 with (Z.ones 3). rewrite Z.land_ones by lia. by apply Z.mod_small.
Qed.

Lemma stat_clear_yield st :
  Z.land (Z.land st (Z.lnot RT_THREAD_STAT_YIELD_MASK)) RT_THREAD_STAT_MASK =
  Z.land st RT_THREAD_STAT_MASK.
Proof. by rewrite <- Z.land_assoc. Qed.

Lemma stat_set_yield st :
  Z.land (Z.lor st RT_THREAD_STAT_YIELD) RT_THREAD_STAT_MASK = Z.land st RT_THREAD_STAT_MASK.
Proof. rewrite Z.land_lor_distr_l. simpl. by rewrite Z.lor_0_r. Qed.

(** ** Invariants *)

Definition tstat (th : rt_thread) : Z := Z.land (th_stat th) RT_THREAD_STAT_MASK.

(** The thread has been started and not yet closed. *)
Definition started (st : Z) : Prop := st ≠ RT_THREAD_INIT /\ st ≠ RT_THREAD_CLOSE.

(** A thread block whose fields are in range and whose priority mask agrees with
    its priority while the thread is started. *)
Record th_ok (th : rt_thread) : Prop := {
  tho_stat : 0 <= th_stat th < 256;
  tho_prio : 0 <= th_current_priority th < RT_THREAD_PRIORITY_MAX;
  tho_init : 0 <= th_init_priority th < RT_THREAD_PRIORITY_MAX;
  tho_mask : started (tstat th) -> th_number_mask th = 2 ^ th_current_priority th
}.

(** The ready queues: each thread on them is READY and queued under its priority,
    each READY thread is queued (but for [x], in the middle of an operation), and
    bit [p] of the group is set exactly when queue [p] is not empty. *)
Record ready_inv (x : option tid) (s : kstate) : Prop := {
  ri_space : wf_space (k_tlist s);
  ri_ok : forall t th, k_threads s !! t = Some th -> th_ok th;
  ri_ready : forall p t, t ∈ k_tlist s (LReady p) ->
    exists th, k_threads s !! t = Some th /\ tstat th = RT_THREAD_READY /\
               th_current_priority th = p;
  ri_queued : forall t th, k_threads s !! t = Some th -> tstat th = RT_THREAD_READY ->
    x ≠ Some t -> t ∈ k_tlist s (LReady (th_current_priority th));
  ri_group : 0 <= k_group s < 2 ^ 32;
  ri_bits : forall p, 0 <= p -> Z.testbit (k_group s) p = bool_decide (k_tlist s (LReady p) ≠ [])
}.

(** The current thread exists and is not queued as READY; only it can be RUNNING, and
    a RUNNING thread hangs on no list at all. *)
Record current_inv (s : kstate) : Prop := {
  ci_current : forall c, k_current s = Some c ->
    exists th, k_threads s !! c = Some th /\ tstat th ≠ RT_THREAD_READY /\ tstat th ≠ RT_THREAD_INIT;
  ci_running : forall t th, k_threads s !! t = Some th -> tstat th = RT_THREAD_RUNNING ->
    k_current s = Some t /\ unlinked t (k_tlist s)
}.

Definition sched_inv (s : kstate) : Prop := ready_inv None s /\ current_inv s.

Lemma with_stat_range v st : 0 <= v < 8 -> 0 <= st < 256 -> 0 <= with_stat v st < 256.
Proof.
  intros Hv Hst. unfold with_stat. apply (lor_bound 8); [lia|lia|]. apply (land_bound 8); lia.
Qed.

Lemma th_ok_stat th f :
  th_ok th -> 0 <= f (th_stat th) < 256 ->
  (started (Z.land (f (th_stat th)) RT_THREAD_STAT_MASK) -> started (tstat th)) ->
  th_ok (set_th_stat f th).
Proof.
  intros [H1 H2 H3 H4] Hr Hi. split; simpl; [done..|].
  unfold tstat. simpl. intros Hne. by apply H4, Hi.
Qed.

Lemma tstat_with v th : 0 <= v < 8 -> tstat (set_th_stat (with_stat v) th) = v.
Proof. intros. by apply stat_with_stat. Qed.

(** Rewriting a thread block that is on no ready queue. *)
Lemma ready_inv_upd x y t th' s :
  ready_inv x s -> th_ok th' ->
  (forall p, t ∉ k_tlist s (LReady p)) ->
  (tstat th' = RT_THREAD_READY -> y = Some t) -> (x = y \/ x = Some t) ->
  ready_inv y (set_k_threads <[t := th']> s).
Proof.
  intros [H1 H2 H3 H4 H5 H6] Hok Hoff Hst Hxy. split; simpl; [done| | | |done|done].
  - intros u th [[<- <-]|[Hne Hu]]%lookup_insert_Some; [done|eauto].
  - intros p u Hu. destruct (decide (t = u)) as [<-|Hne]; [by destruct (Hoff p)|].
    rewrite lookup_insert_ne by done. by apply H3.
  - intros u th [[<- <-]|[Hne Hu]]%lookup_insert_Some Hs Hy; [by apply Hst in Hs|].
    apply H4; [done|done|]. destruct Hxy as [-> | ->]; [done|]. congruence.
Qed.

(** Rewriting fields the queues do not look at. *)
Lemma ready_inv_upd_same x t th th' s :
  ready_inv x s -> k_threads s !! t = Some th -> th_ok th' -> tstat th' = tstat th ->
  th_current_priority th' = th_current_priority th ->
  ready_inv x (set_k_threads <[t := th']> s).
Proof.
  intros [H1 H2 H3 H4 H5 H6] Ht Hok Hst Hp. split; simpl; [done| | | |done|done].
  - intros u th0 [[<- <-]|[Hne Hu]]%lookup_insert_Some; [done|eauto].
  - intros p u Hu. apply H3 in Hu as (th0 & Hu & ? & ?).
    destruct (decide (t = u)) as [<-|Hne]; [|rewrite lookup_insert_ne; eauto].
    exists th'. rewrite lookup_insert_eq. simplify_eq. by rewrite Hst, Hp.
  - intros u th0 [[<- <-]|[Hne Hu]]%lookup_insert_Some Hs Hy; [|eauto].
    rewrite Hp. apply H4; congruence.
Qed.

(** ** What insertion and removal compute *)

Definition insert_ready (t : tid) (th : rt_thread) (s : kstate) : kstate :=
  set_k_group (fun g => Z.lor g (th_number_mask th))
    (set_k_tlist (list_insert_before (LReady (th_current_priority th)) t)
       (set_k_threads <[t := set_th_stat (with_stat RT_THREAD_READY) th]> s)).

Definition remove_ready (t : tid) (th : rt_thread) (s : kstate) : kstate :=
  let L := list_remove t (k_tlist s) in
  set_k_group (fun g => if list_isempty (LReady (th_current_priority th)) L
                        then Z.land g (Z.lnot (th_number_mask th)) else g)
    (set_k_tlist (fun _ => L) s).

(** Unfold the monad and the state accessors. *)
Ltac run_k :=
  cbv beta iota delta [mbind M_bind mret M_ret gets modify deref rt_assert when get_thread upd_thread
    first_of self tlist_modify priority_index];
  cbn [k_current k_threads k_tlist k_group k_lock_nest set_k_current set_k_threads set_k_tlist
    set_k_group set_k_lock_nest th_current_priority th_number_mask set_th_stat set_k_current_priority].

Lemma priority_index_ok p : 0 <= p < RT_THREAD_PRIORITY_MAX -> (0 <=? p) && (p <? RT_THREAD_PRIORITY_MAX) = true.
Proof. unfold RT_THREAD_PRIORITY_MAX. intros. apply andb_true_iff. lia. Qed.

Lemma rt_schedule_insert_thread_eq t th s :
  k_threads s !! t = Some th -> th_ok th -> k_current s ≠ Some t ->
  rt_schedule_insert_thread t s = Some (tt, insert_ready t th s).
Proof.
  intros Ht [_ Hp _ _] Hc. unfold rt_schedule_insert_thread. run_k.
  rewrite bool_decide_eq_false_2 by done. run_k. rewrite Ht. run_k.
  rewrite lookup_insert_eq. run_k. by rewrite priority_index_ok.
Qed.

Lemma rt_schedule_insert_current_eq t th s :
  k_threads s !! t = Some th -> k_current s = Some t ->
  rt_schedule_insert_thread t s =
  Some (tt, set_k_threads <[t := set_th_stat (with_stat RT_THREAD_RUNNING) th]> s).
Proof.
  intros Ht Hc. unfold rt_schedule_insert_thread. run_k.
  rewrite bool_decide_eq_true_2 by done. run_k. by rewrite Ht.
Qed.

Lemma rt_schedule_remove_thread_eq t th s :
  k_threads s !! t = Some th -> th_ok th ->
  rt_schedule_remove_thread t s = Some (tt, remove_ready t th s).
Proof.
  intros Ht [_ Hp _ _]. unfold rt_schedule_remove_thread. run_k.
  rewrite Ht. run_k. rewrite priority_index_ok by done. run_k.
  unfold remove_ready. destruct (list_isempty _ _); done.
Qed.

Lemma ready_inv_weaken t s : ready_inv None s -> ready_inv (Some t) s.
Proof. intros [H1 H2 H3 H4 H5 H6]. split; try done. eauto. Qed.

Lemma bits_insert (L : lhead -> list tid) g p t :
  (forall q, 0 <= q -> Z.testbit g q = bool_decide (L (LReady q) ≠ [])) -> 0 <= p ->
  forall q, 0 <= q -> Z.testbit (Z.lor g (2 ^ p)) q =
    bool_decide (list_insert_before (LReady p) t L (LReady q) ≠ []).
Proof.
  intros H Hp q Hq. rewrite Z.lor_spec, H, pow2_testbit by done. unfold list_insert_before.
  destruct (decide (p = q)) as [<-|Hne].
  - rewrite insert_eq, (bool_decide_eq_true_2 (p = p)) by done. rewrite orb_true_r.
    symmetry. apply bool_decide_eq_true_2. by destruct (L (LReady p)).
  - rewrite insert_ne by congruence. rewrite (bool_decide_eq_false_2 (p = q)) by done.
    apply orb_false_r.
Qed.

Lemma bits_remove (L : lhead -> list tid) g p t :
  wf_space L ->
  (forall q, 0 <= q -> Z.testbit g q = bool_decide (L (LReady q) ≠ [])) -> 0 <= p ->
  (forall q, t ∈ L (LReady q) -> q = p) ->
  let L' := list_remove t L in
  let g' := if list_isempty (LReady p) L' then Z.land g (Z.lnot (2 ^ p)) else g in
  forall q, 0 <= q -> Z.testbit g' q = bool_decide (L' (LReady q) ≠ []).
Proof.
  intros Hw H Hp Ht L' g' q Hq. subst g'. unfold list_isempty.
  destruct (decide (p = q)) as [<-|Hne].
  - case_bool_decide as He.
    + rewrite Z.land_spec, Z.lnot_spec, pow2_testbit by done.
      rewrite bool_decide_eq_true_2 by done. rewrite andb_false_r.
      symmetry. apply bool_decide_eq_false_2. tauto.
    + rewrite H, !bool_decide_eq_true_2; [done|done| |done].
      intros E. apply He. subst L'. unfold list_remove. by rewrite E.
  - assert (L' (LReady q) = L (LReady q)) as ->.
    { apply list_remove_unlinked_id. intros Hin. apply Hne. symmetry. by apply Ht. }
    case_bool_decide; [|by apply H].
    rewrite Z.land_spec, Z.lnot_spec, pow2_testbit by done.
    rewrite bool_decide_eq_false_2 by done. rewrite andb_true_r. by apply H.
Qed.

Lemma ready_inv_insert t th s :
  ready_inv (Some t) s -> k_threads s !! t = Some th ->
  unlinked t (k_tlist s) -> started (tstat th) ->
  ready_inv None (insert_ready t th s).
Proof.
  intros [H1 H2 H3 H4 H5 H6] Ht Hu Hi.
  pose proof (H2 _ _ Ht) as [O1 O2 O3 O4]. specialize (O4 Hi).
  set (th' := set_th_stat (with_stat RT_THREAD_READY) th).
  assert (Hst : tstat th' = RT_THREAD_READY) by (by apply tstat_with).
  assert (Hok' : th_ok th').
  { apply th_ok_stat; [by apply H2 with t|by apply with_stat_range|done]. }
  split; simpl.
  - by apply wf_list_insert_before.
  - intros u thu [[<- <-]|[Hne Hu']]%lookup_insert_Some; [done|eauto].
  - intros p u Hin. destruct (decide (t = u)) as [<-|Hne].
    + exists th'. rewrite lookup_insert_eq. repeat split; [done|].
      unfold list_insert_before in Hin.
      destruct (decide (LReady (th_current_priority th) = LReady p)) as [E|E]; [by simplify_eq|].
      rewrite insert_ne in Hin by done. by destruct (Hu (LReady p)).
    + rewrite lookup_insert_ne by done. apply H3. unfold list_insert_before in Hin.
      destruct (decide (LReady (th_current_priority th) = LReady p)) as [E|E].
      * rewrite E, insert_eq in Hin. simplify_eq. mem.
      * by rewrite insert_ne in Hin.
  - intros u thu [[<- <-]|[Hne Hu']]%lookup_insert_Some Hs _.
    + simpl. unfold list_insert_before. rewrite insert_eq. mem.
    + assert (u ∈ k_tlist s (LReady (th_current_priority thu))) as Hin by (apply H4; congruence).
      unfold list_insert_before.
      destruct (decide (LReady (th_current_priority th) = LReady (th_current_priority thu))) as [E|E].
      * rewrite E, insert_eq. mem.
      * by rewrite insert_ne.
  - rewrite O4. apply lor_bound; [lia|done|]. by apply pow2_bound.
  - rewrite O4. apply bits_insert; [done|lia].
Qed.

Lemma ready_inv_remove x t th s :
  ready_inv x s -> (x = None \/ x = Some t) -> k_threads s !! t = Some th ->
  started (tstat th) ->
  ready_inv (Some t) (remove_ready t th s).
Proof.
  intros [H1 H2 H3 H4 H5 H6] Hx Ht Hi.
  pose proof (H2 _ _ Ht) as [O1 O2 O3 O4]. specialize (O4 Hi).
  split; simpl.
  - by apply wf_list_remove.
  - done.
  - intros p u [Hin _]%elem_of_list_remove. by apply H3.
  - intros u thu Hu Hs Hne. apply elem_of_list_remove. split; [|congruence].
    apply H4; [done|done|]. destruct Hx as [-> | ->]; congruence.
  - destruct (list_isempty _ _); [apply land_bound; [lia|done]|done].
  - rewrite O4. apply bits_remove; [done|done|lia|].
    intros q Hin. apply H3 in Hin as (th0 & ? & ? & <-). by simplify_eq.
Qed.

Lemma remove_ready_off t th s p : t ∉ k_tlist (remove_ready t th s) (LReady p).
Proof. apply list_remove_unlinked. Qed.

(** ** The dispatch decision *)

Lemma highest_bits s p :
  sched_inv s -> 0 <= p -> (forall q, 0 <= q < p -> Z.testbit (k_group s) q = false) ->
  forall t th, k_threads s !! t = Some th -> tstat th = RT_THREAD_READY ->
  p <= th_current_priority th.
Proof.
  intros [[H1 H2 H3 H4 H5 H6] _] Hp Hmin t th Ht Hs.
  pose proof (H2 _ _ Ht) as [_ O2 _ _].
  destruct (decide (p <= th_current_priority th)) as [|Hlt]; [done|exfalso].
  specialize (Hmin (th_current_priority th) ltac:(lia)). rewrite H6 in Hmin by lia.
  apply bool_decide_eq_false in Hmin. apply Hmin. intros E.
  pose proof (H4 _ _ Ht Hs ltac:(done)) as Hin. rewrite E in Hin. by apply elem_of_nil in Hin.
Qed.

(** The thread [_get_highest_priority_thread] picks: the longest-waiting one of the
    most urgent non-empty queue. *)
Lemma get_highest_eq s :
  sched_inv s -> k_group s ≠ 0 ->
  exists t th q, _get_highest_priority_thread s = Some ((t, th_current_priority th), s) /\
    k_threads s !! t = Some th /\ tstat th = RT_THREAD_READY /\
    k_tlist s (LReady (th_current_priority th)) = t :: q /\
    (forall u thu, k_threads s !! u = Some thu -> tstat thu = RT_THREAD_READY ->
       th_current_priority th <= th_current_priority thu).
Proof.
  intros Hi Hg. pose proof Hi as [[H1 H2 H3 H4 H5 H6] _].
  destruct (rt_ffs_spec (k_group s)) as (p & Hf & Hp & Hb & Hmin); [lia|].
  rewrite H6 in Hb by lia. apply bool_decide_eq_true in Hb.
  destruct (k_tlist s (LReady p)) as [|t q] eqn:Eq; [done|].
  destruct (H3 p t) as (th & Ht & Hs & <-); [rewrite Eq; mem|].
  exists t, th, q. repeat split; try done.
  - unfold _get_highest_priority_thread. run_k. rewrite Hf.
    rewrite Z.add_simpl_r, wrap_small by lia.
    rewrite priority_index_ok by (unfold RT_THREAD_PRIORITY_MAX; lia). run_k. by rewrite Eq.
  - apply highest_bits; [done|lia|done].
Qed.

(** ** Preservation *)

Lemma ready_inv_ext x s s' :
  k_threads s' = k_threads s -> k_tlist s' = k_tlist s -> k_group s' = k_group s ->
  ready_inv x s -> ready_inv x s'.
Proof.
  intros E1 E2 E3 [H1 H2 H3 H4 H5 H6]. split; rewrite ?E1, ?E2, ?E3; done.
Qed.

Lemma sched_inv_ext s s' :
  k_threads s' = k_threads s -> k_tlist s' = k_tlist s -> k_group s' = k_group s ->
  k_current s' = k_current s -> sched_inv s -> sched_inv s'.
Proof.
  intros E1 E2 E3 E4 [Hr [C1 C2]]. split; [by eapply ready_inv_ext|].
  split; rewrite ?E1, ?E2, ?E4; done.
Qed.

(** A thread block changes in fields the scheduler does not look at. *)
Lemma sched_inv_upd_same t th th' s :
  sched_inv s -> k_threads s !! t = Some th -> th_ok th' -> tstat th' = tstat th ->
  th_current_priority th' = th_current_priority th ->
  sched_inv (set_k_threads <[t := th']> s).
Proof.
  intros [Hr [C1 C2]] Ht Hok Hst Hp. split; [by eapply ready_inv_upd_same|]. split; simpl.
  - intros c Hc. destruct (C1 c Hc) as (thc & Hthc & ? & ?).
    destruct (decide (t = c)) as [<-|Hne].
    + exists th'. rewrite lookup_insert_eq. simplify_eq. by rewrite Hst.
    + exists thc. by rewrite lookup_insert_ne.
  - intros u thu [[<- <-]|[Hne Hu]]%lookup_insert_Some Hs; [|by eapply C2].
    rewrite Hst in Hs. by eapply C2.
Qed.

(** [h] leaves the ready queues and runs. *)
Definition dispatch (h : tid) (th : rt_thread) (s : kstate) : kstate :=
  set_k_threads <[h := set_th_stat (with_stat RT_THREAD_RUNNING) th]> (remove_ready h th s).

Lemma dispatch_inv h th s :
  ready_inv None s -> k_current s = Some h -> k_threads s !! h = Some th ->
  started (tstat th) ->
  (forall t tht, k_threads s !! t = Some tht -> tstat tht = RT_THREAD_RUNNING -> t = h) ->
  sched_inv (dispatch h th s).
Proof.
  intros Hr Hc Hh Hi Hrun. pose proof (ri_ok _ _ Hr _ _ Hh) as Hok.
  set (th' := set_th_stat (with_stat RT_THREAD_RUNNING) th).
  assert (Hst : tstat th' = RT_THREAD_RUNNING) by (by apply tstat_with).
  assert (Hok' : th_ok th').
  { apply th_ok_stat; [done|apply with_stat_range; [done|apply Hok]|done]. }
  split.
  - eapply (ready_inv_upd (Some h)); [by apply ready_inv_remove with None; auto|done| | |by right].
    + intros p. apply remove_ready_off.
    + intros E. exfalso. change (tstat th' = RT_THREAD_READY) in E. by rewrite Hst in E.
  - split; simpl; rewrite Hc.
    + intros c [= <-]. exists th'. by rewrite lookup_insert_eq, Hst.
    + intros u thu [[<- <-]|[Hne Hu]]%lookup_insert_Some Hs.
      * split; [done|]. apply list_remove_unlinked.
      * by destruct Hne; symmetry; eapply Hrun.
Qed.

(** What [rt_schedule] establishes: a RUNNING current thread that no READY thread
    beats. *)
Definition dispatched (s : kstate) : Prop :=
  exists c th, k_current s = Some c /\ k_threads s !! c = Some th /\
    tstat th = RT_THREAD_RUNNING /\
    forall t tht, k_threads s !! t = Some tht -> tstat tht = RT_THREAD_READY ->
      th_current_priority th <= th_current_priority tht.

Lemma dispatch_dispatched h th s :
  k_current s = Some h -> 
  (forall t tht, k_threads s !! t = Some tht -> tstat tht = RT_THREAD_READY ->
     th_current_priority th <= th_current_priority tht) ->
  dispatched (dispatch h th s).
Proof.
  intros Hc Hmin. exists h, (set_th_stat (with_stat RT_THREAD_RUNNING) th). simpl.
  rewrite lookup_insert_eq. repeat split; [done|by apply tstat_with|].
  intros u thu [[<- <-]|[Hne Hu]]%lookup_insert_Some Hs; [done|by eapply Hmin].
Qed.

Definition clear_yield (th : rt_thread) : rt_thread :=
  set_th_stat (fun st => Z.land st (Z.lnot RT_THREAD_STAT_YIELD_MASK)) th.

Lemma clear_yield_ok th : th_ok th -> th_ok (clear_yield th).
Proof.
  intros H. apply th_ok_stat; [done| |].
  - apply (land_bound 8); [lia|apply H].
  - by rewrite stat_clear_yield.
Qed.
Lemma clear_yield_stat th : tstat (clear_yield th) = tstat th.
Proof. apply stat_clear_yield. Qed.

(** The branches of [rt_schedule] past its guards; [h] heads the best ready queue. *)
Lemma rt_schedule_stay s c th h hp :
  k_lock_nest s = 0 -> k_group s ≠ 0 -> _get_highest_priority_thread s = Some ((h, hp), s) ->
  k_current s = Some c -> k_threads s !! c = Some th -> th_ok th ->
  tstat th = RT_THREAD_RUNNING ->
  th_current_priority th < hp \/
  th_current_priority th = hp /\ Z.land (th_stat th) RT_THREAD_STAT_YIELD_MASK = 0 ->
  rt_schedule s =
  Some (tt, dispatch c (clear_yield th) (set_k_threads <[c := clear_yield th]> s)).
Proof.
  intros Hl Hg Hh Hc Hth Hok Hst Hp. unfold rt_schedule, choose_to. run_k.
  rewrite Hl. simpl. run_k. rewrite (proj2 (Z.eqb_neq _ _) Hg), Hh. run_k. rewrite Hc. run_k.
  rewrite Hth. unfold tstat in Hst. rewrite Hst. run_k.
  assert ((if th_current_priority th <? hp then (c, false)
           else if (th_current_priority th =? hp) &&
                   (Z.land (th_stat th) RT_THREAD_STAT_YIELD_MASK =? 0)
                then (c, false) else (h, true)) = (c, false)) as ->.
  { destruct Hp as [Hp|[-> ->]]; [by rewrite (proj2 (Z.ltb_lt _ _) Hp)|].
    rewrite Z.ltb_irrefl, Z.eqb_refl. done. }
  rewrite Z.eqb_refl, Hth. rewrite bool_decide_eq_false_2 by tauto.
  rewrite rt_schedule_remove_thread_eq with (th := clear_yield th);
    [|apply lookup_insert_eq|by apply clear_yield_ok].
  unfold remove_ready at 1. simpl. by rewrite lookup_insert_eq.
Qed.

Lemma rt_schedule_switch s c th h hp thh (preempt : bool) :
  k_lock_nest s = 0 -> k_group s ≠ 0 -> _get_highest_priority_thread s = Some ((h, hp), s) ->
  k_current s = Some c -> k_threads s !! c = Some th -> th_ok th ->
  k_threads s !! h = Some thh -> th_ok thh -> h ≠ c ->
  (if preempt then tstat th = RT_THREAD_RUNNING /\
     (hp < th_current_priority th \/
      th_current_priority th = hp /\ Z.land (th_stat th) RT_THREAD_STAT_YIELD_MASK ≠ 0)
   else tstat th ≠ RT_THREAD_RUNNING) ->
  rt_schedule s =
  Some (tt, dispatch h thh
    (let s1 := if preempt then set_k_threads <[c := clear_yield th]> s else s in
     let s2 := set_k_current (fun _ => Some h) (set_k_current_priority (fun _ => u8 hp) s1) in
     if preempt then insert_ready c (clear_yield th) s2 else s2)).
Proof.
  intros Hl Hg Hh Hc Hth Hok Hthh Hokh Hne Hp. unfold rt_schedule, choose_to. run_k.
  rewrite Hl. simpl. run_k. rewrite (proj2 (Z.eqb_neq _ _) Hg), Hh. run_k. rewrite Hc. run_k.
  rewrite Hth. destruct preempt.
  - destruct Hp as [Hst Hp]. unfold tstat in Hst. rewrite Hst. run_k.
    assert ((if th_current_priority th <? hp then (c, false)
             else if (th_current_priority th =? hp) &&
                     (Z.land (th_stat th) RT_THREAD_STAT_YIELD_MASK =? 0)
                  then (c, false) else (h, true)) = (h, true)) as ->.
    { destruct Hp as [Hp|[-> Hy]].
      - destruct (Z.ltb_spec (th_current_priority th) hp); [lia|].
        by destruct (Z.eqb_spec (th_current_priority th) hp); [lia|].
      - rewrite Z.ltb_irrefl, Z.eqb_refl. simpl. by apply Z.eqb_neq in Hy as ->. }
    rewrite Z.eqb_refl, Hth. rewrite bool_decide_eq_true_2 by done. run_k.
    rewrite rt_schedule_insert_thread_eq with (th := clear_yield th);
      [|apply lookup_insert_eq|by apply clear_yield_ok|simpl; congruence].
    rewrite rt_schedule_remove_thread_eq with (th := thh); [| |done].
    2: { simpl. rewrite !lookup_insert_ne by done. done. }
    unfold remove_ready at 1. simpl. rewrite !lookup_insert_ne by done. by rewrite Hthh.
  - unfold tstat in Hp. apply Z.eqb_neq in Hp. rewrite Hp.
    rewrite bool_decide_eq_true_2 by done. run_k.
    rewrite rt_schedule_remove_thread_eq with (th := thh); [|done|done].
    unfold remove_ready at 1. simpl. by rewrite Hthh.
Qed.

Lemma insert_ready_other t th s u : u ≠ t -> k_threads (insert_ready t th s) !! u = k_threads s !! u.
Proof. intros. simpl. by rewrite lookup_insert_ne. Qed.

(** Nothing is READY when the group is zero. *)
Lemma group_zero s t th :
  sched_inv s -> k_group s = 0 -> k_threads s !! t = Some th -> tstat th ≠ RT_THREAD_READY.
Proof.
  intros [[H1 H2 H3 H4 H5 H6] _] Hg Ht Hs.
  pose proof (H4 _ _ Ht Hs ltac:(done)) as Hin. pose proof (H2 _ _ Ht) as [_ O2 _ _].
  pose proof (H6 (th_current_priority th) ltac:(lia)) as Hb.
  rewrite Hg, Z.bits_0 in Hb. symmetry in Hb. apply bool_decide_eq_false in Hb.
  apply Hb. intros E. rewrite E in Hin. by apply elem_of_nil in Hin.
Qed.

(** The three ways through [rt_schedule] with the scheduler unlocked. *)
Inductive schedule_case (s : kstate) (c : tid) (th : rt_thread) : kstate -> Prop :=
  | sched_idle :
      k_group s = 0 -> schedule_case s c th s
  | sched_stay h hp :
      _get_highest_priority_thread s = Some ((h, hp), s) ->
      tstat th = RT_THREAD_RUNNING ->
      th_current_priority th < hp \/
      th_current_priority th = hp /\ Z.land (th_stat th) RT_THREAD_STAT_YIELD_MASK = 0 ->
      schedule_case s c th
        (dispatch c (clear_yield th) (set_k_threads <[c := clear_yield th]> s))
  | sched_preempt h thh q :
      _get_highest_priority_thread s = Some ((h, th_current_priority thh), s) ->
      k_threads s !! h = Some thh -> tstat thh = RT_THREAD_READY -> h ≠ c ->
      k_tlist s (LReady (th_current_priority thh)) = h :: q ->
      tstat th = RT_THREAD_RUNNING ->
      th_current_priority thh < th_current_priority th \/
      th_current_priority th = th_current_priority thh /\
        Z.land (th_stat th) RT_THREAD_STAT_YIELD_MASK ≠ 0 ->
      schedule_case s c th
        (dispatch h thh (insert_ready c (clear_yield th)
           (set_k_current (fun _ => Some h)
             (set_k_current_priority (fun _ => u8 (th_current_priority thh))
               (set_k_threads <[c := clear_yield th]> s)))))
  | sched_switch h thh q :
      _get_highest_priority_thread s = Some ((h, th_current_priority thh), s) ->
      k_threads s !! h = Some thh -> tstat thh = RT_THREAD_READY -> h ≠ c ->
      k_tlist s (LReady (th_current_priority thh)) = h :: q ->
      tstat th ≠ RT_THREAD_RUNNING ->
      schedule_case s c th
        (dispatch h thh (set_k_current (fun _ => Some h)
             (set_k_current_priority (fun _ => u8 (th_current_priority thh)) s))).

Lemma rt_schedule_cases s c th :
  sched_inv s -> k_lock_nest s = 0 -> k_current s = Some c -> k_threads s !! c = Some th ->
  exists s', rt_schedule s = Some (tt, s') /\ schedule_case s c th s'.
Proof.
  intros Hi Hl Hc Hth. destruct (decide (k_group s = 0)) as [Hg|Hg].
  { exists s. split; [|by constructor]. unfold rt_schedule. run_k. rewrite Hl. simpl. run_k.
    by rewrite Hg. }
  destruct (get_highest_eq s Hi Hg) as (h & thh & q & Hh & Hthh & Hsh & Hq & _).
  pose proof Hi as [Hr [C1 _]]. pose proof (ri_ok _ _ Hr _ _ Hth) as Hok.
  pose proof (ri_ok _ _ Hr _ _ Hthh) as Hokh.
  assert (h ≠ c) as Hne.
  { intros ->. destruct (C1 _ Hc) as (? & ? & ? & ?). by simplify_eq. }
  destruct (decide (tstat th = RT_THREAD_RUNNING)) as [Hrun|Hrun].
  2: { eexists. split; [by eapply (rt_schedule_switch s c th h _ thh false)|].
       by econstructor. }
  destruct (decide (th_current_priority th < th_current_priority thh \/
      th_current_priority th = th_current_priority thh /\
      Z.land (th_stat th) RT_THREAD_STAT_YIELD_MASK = 0)) as [Hp|Hp].
  - eexists. split; [by eapply rt_schedule_stay|]. by econstructor.
  - assert (th_current_priority thh < th_current_priority th \/
      th_current_priority th = th_current_priority thh /\
        Z.land (th_stat th) RT_THREAD_STAT_YIELD_MASK ≠ 0) as Hp' by lia.
    eexists. split; [by eapply (rt_schedule_switch s c th h _ thh true)|]. by econstructor.
Qed.

Lemma highest_min s h hp :
  sched_inv s -> k_group s ≠ 0 -> _get_highest_priority_thread s = Some ((h, hp), s) ->
  forall t th, k_threads s !! t = Some th -> tstat th = RT_THREAD_READY ->
  hp <= th_current_priority th.
Proof.
  intros Hi Hg Hh. destruct (get_highest_eq s Hi Hg) as (? & ? & ? & E & ? & ? & ? & Hmin).
  rewrite E in Hh. simplify_eq. done.
Qed.

Lemma highest_group s h hp :
  _get_highest_priority_thread s = Some ((h, hp), s) -> k_group s ≠ 0.
Proof.
  intros H E. unfold _get_highest_priority_thread in H. revert H. run_k. by rewrite E.
Qed.

Lemma running_current s t th :
  sched_inv s -> k_threads s !! t = Some th -> tstat th = RT_THREAD_RUNNING -> k_current s = Some t.
Proof. intros [_ [_ C2]] ? ?. by eapply C2. Qed.

Lemma preempt_invs s c th p :
  sched_inv s -> k_current s = Some c -> k_threads s !! c = Some th ->
  tstat th = RT_THREAD_RUNNING ->
  let s1 := set_k_current (fun _ => p) (set_k_current_priority (fun _ => 0)
              (set_k_threads <[c := clear_yield th]> s)) in
  ready_inv None (insert_ready c (clear_yield th) s1).
Proof.
  intros Hi Hc Hth Hst s1. pose proof Hi as [Hr [_ C2]].
  apply ready_inv_insert.
  - apply ready_inv_weaken. eapply ready_inv_ext, ready_inv_upd_same; try done.
    + apply clear_yield_ok. by eapply ri_ok.
    + apply clear_yield_stat.
  - simpl. apply lookup_insert_eq.
  - simpl. by eapply C2.
  - rewrite clear_yield_stat. by rewrite Hst.
Qed.

Lemma schedule_case_inv s c th s' :
  sched_inv s -> k_current s = Some c -> k_threads s !! c = Some th ->
  schedule_case s c th s' -> sched_inv s'.
Proof.
  intros Hi Hc Hth Hcase. pose proof Hi as [Hr [C1 C2]].
  pose proof (ri_ok _ _ Hr _ _ Hth) as Hok.
  destruct Hcase as [Hg|h hp Hh Hst Hp|h thh q Hh Hthh Hsh Hne Hq Hst Hp|h thh q Hh Hthh Hsh Hne Hq Hst].
  - done.
  - assert (Hi1 : sched_inv (set_k_threads <[c := clear_yield th]> s)).
    { eapply sched_inv_upd_same; [done|done|by apply clear_yield_ok|apply clear_yield_stat|done]. }
    apply dispatch_inv; [apply Hi1|done|simpl; apply lookup_insert_eq| |].
    + by rewrite clear_yield_stat, Hst.
    + intros t tht Ht Hs. pose proof (running_current _ _ _ Hi1 Ht Hs) as E. simpl in E. congruence.
  - apply dispatch_inv; [|done| | |].
    + eapply ready_inv_ext; [..|by eapply (preempt_invs s c th (Some h))]; reflexivity.
    + rewrite insert_ready_other by done. simpl. by rewrite lookup_insert_ne.
    + by rewrite Hsh.
    + simpl. rewrite insert_insert_eq. intros t tht [[<- <-]|[Hne' Ht]]%lookup_insert_Some Hs.
      * by rewrite tstat_with in Hs.
      * pose proof (running_current _ _ _ Hi Ht Hs). congruence.
  - apply dispatch_inv; [by apply (ready_inv_ext _ s)|done|done|by rewrite Hsh|].
    simpl. intros t tht Ht Hs. pose proof (running_current _ _ _ Hi Ht Hs). congruence.
Qed.

Lemma schedule_case_dispatched s c th s' :
  sched_inv s -> k_current s = Some c -> k_threads s !! c = Some th ->
  (k_group s = 0 -> tstat th = RT_THREAD_RUNNING) ->
  schedule_case s c th s' -> dispatched s'.
Proof.
  intros Hi Hc Hth Hg0 Hcase.
  destruct Hcase as [Hg|h hp Hh Hst Hp|h thh q Hh Hthh Hsh Hne Hq Hst Hp|h thh q Hh Hthh Hsh Hne Hq Hst].
  - exists c, th. repeat split; [done..|auto|].
    intros t tht Ht Hs. by destruct (group_zero s t tht Hi Hg Ht).
  - apply dispatch_dispatched; [done|]. simpl.
    intros t tht [[<- <-]|[Hne' Ht]]%lookup_insert_Some Hs; [done|].
    pose proof (highest_min _ _ _ Hi (highest_group _ _ _ Hh) Hh _ _ Ht Hs). lia.
  - apply dispatch_dispatched; [done|]. simpl. rewrite insert_insert_eq.
    intros t tht [[<- <-]|[Hne' Ht]]%lookup_insert_Some Hs; [simpl; lia|].
    apply (highest_min _ _ _ Hi (highest_group _ _ _ Hh) Hh _ _ Ht Hs).
  - apply dispatch_dispatched; [done|]. simpl. intros t tht Ht Hs.
    apply (highest_min _ _ _ Hi (highest_group _ _ _ Hh) Hh _ _ Ht Hs).
Qed.

(** ** Frame: what scheduling leaves alone *)

(** The fields no scheduling operation touches. *)
Definition rest (s : kstate) :=
  (k_obj s, k_containers s, k_lock_nest s, k_irq_nest s, k_tick s, k_timers s, k_trow s, k_soft_status s,
   k_random_nr s, (k_sems s, k_mutexes s, k_events s, k_mailboxes s, k_cleanups s)).
(** A dispatch exchanges READY and RUNNING only. *)
Definition stat_class (st : Z) : Z := if st =? RT_THREAD_RUNNING then RT_THREAD_READY else st.
(** The thread blocks but for what a dispatch may change in [stat]. *)
Definition strip (th : rt_thread) : rt_thread :=
  set_th_stat (fun st => stat_class (Z.land st RT_THREAD_STAT_MASK)) th.
Definition stripped (s : kstate) : gmap tid rt_thread := strip <$> k_threads s.

Record frame (s s' : kstate) : Prop := {
  fr_rest : rest s' = rest s;
  fr_threads : stripped s' = stripped s;
  fr_lists : forall h, (forall p, h ≠ LReady p) -> k_tlist s' h = k_tlist s h
}.

#[global] Instance frame_preorder : PreOrder frame.
Proof.
  split.
  - intros s. by split.
  - intros s1 s2 s3 [H1 H2 H3] [H4 H5 H6]. split; [by rewrite H4|by rewrite H5|].
    intros h Hh. by rewrite H6, H3.
Qed.

Definition same_class (th th' : rt_thread) : Prop :=
  stat_class (tstat th') = stat_class (tstat th).

Lemma stripped_stat t th f s :
  k_threads s !! t = Some th -> same_class th (set_th_stat f th) -> stripped (set_k_threads <[t := set_th_stat f th]> s) = stripped s.
Proof.
  intros Ht Hc. unfold stripped. simpl. rewrite fmap_insert. apply insert_id.
  rewrite lookup_fmap, Ht. simpl. f_equal. unfold same_class, tstat in Hc.
  destruct th. unfold strip, set_th_stat in *. cbn in *. f_equal. symmetry. exact Hc.
Qed.

Lemma frame_stat t th f s :
  k_threads s !! t = Some th -> same_class th (set_th_stat f th) ->
  frame s (set_k_threads <[t := set_th_stat f th]> s).
Proof. intros Ht Hc. split; [done|by apply stripped_stat|done]. Qed.

Lemma same_class_clear th : same_class th (clear_yield th).
Proof. unfold same_class. by rewrite clear_yield_stat. Qed.
Lemma same_class_with th v :
  0 <= v < 8 -> stat_class v = stat_class (tstat th) -> same_class th (set_th_stat (with_stat v) th).
Proof. intros Hv E. unfold same_class. by rewrite tstat_with. Qed.

Lemma frame_remove t th s :
  (forall h, (forall p, h ≠ LReady p) -> t ∉ k_tlist s h) -> frame s (remove_ready t th s).
Proof. intros Ht. split; [done|done|]. intros h Hh. simpl. by apply list_remove_unlinked_id, Ht. Qed.

Lemma frame_insert t th s :
  k_threads s !! t = Some th -> stat_class (tstat th) = RT_THREAD_READY ->
  frame s (insert_ready t th s).
Proof.
  intros Ht Hc. assert (same_class th (set_th_stat (with_stat RT_THREAD_READY) th)).
  { by apply same_class_with. }
  split; [done|by apply stripped_stat|].
  intros h Hh. simpl. unfold list_insert_before. by rewrite insert_ne by congruence.
Qed.

Lemma frame_dispatch h th s :
  k_threads s !! h = Some th -> stat_class (tstat th) = RT_THREAD_READY ->
  (forall l, (forall p, l ≠ LReady p) -> h ∉ k_tlist s l) -> frame s (dispatch h th s).
Proof.
  intros Hh Hc Hl. transitivity (remove_ready h th s); [by apply frame_remove|].
  apply frame_stat; [done|]. by apply same_class_with.
Qed.

Lemma schedule_case_frame s c th s' :
  sched_inv s -> k_current s = Some c -> k_threads s !! c = Some th ->
  schedule_case s c th s' -> frame s s'.
Proof.
  intros [Hr [C1 C2]] Hc Hth Hcase.
  assert (Hoff : forall p h, h ∈ k_tlist s (LReady p) ->
            forall l, (forall p, l ≠ LReady p) -> h ∉ k_tlist s l).
  { intros p h Hin l Hl Hin'. destruct (Hl p). by eapply (ri_space _ _ Hr). }
  destruct Hcase as [Hg|h hp Hh Hst Hp|h thh q Hh Hthh Hsh Hne Hq Hst Hp|h thh q Hh Hthh Hsh Hne Hq Hst].
  - done.
  - transitivity (set_k_threads <[c := clear_yield th]> s); [apply frame_stat; [done|apply same_class_clear]|].
    apply frame_dispatch; [simpl; by rewrite lookup_insert_eq|by rewrite clear_yield_stat, Hst|]. intros l _. simpl. by eapply C2.
  - match goal with |- frame _ (dispatch _ _ (insert_ready _ _ ?s2)) => set (s1 := s2) end.
    assert (H1 : frame s s1).
    { transitivity (set_k_threads <[c := clear_yield th]> s); [|done].
      apply frame_stat; [done|apply same_class_clear]. }
    assert (H2 : frame s1 (insert_ready c (clear_yield th) s1)).
    { apply frame_insert; [simpl; by rewrite lookup_insert_eq|by rewrite clear_yield_stat, Hst]. }
    etransitivity; [exact H1|]. etransitivity; [exact H2|]. apply frame_dispatch.
    + rewrite insert_ready_other by done. simpl. by rewrite lookup_insert_ne.
    + by rewrite Hsh.
    + intros l Hl. rewrite (fr_lists _ _ H2) by done. apply (Hoff (th_current_priority thh)); [|done].
      rewrite Hq. clear. mem.
  - transitivity (set_k_current (fun _ => Some h) (set_k_current_priority (fun _ => u8 (th_current_priority thh)) s));
      [done|].
    apply frame_dispatch; [done|by rewrite Hsh|]. intros l Hl. apply (Hoff (th_current_priority thh)); [|done].
    rewrite Hq. clear. mem.
Qed.

(** ** Properties *)

(** [rt_schedule] never faults and keeps the invariant, whatever the lock. *)
Lemma wp_rt_schedule s :
  sched_inv s -> is_Some (k_current s) ->
  wp rt_schedule (fun _ s' => sched_inv s' /\ frame s s' /\ is_Some (k_current s')) s.
Proof.
  intros Hi [c Hc]. destruct (decide (k_lock_nest s = 0)) as [Hl|Hl].
  - pose proof Hi as [_ [C1 _]]. destruct (C1 _ Hc) as (th & Hth & _).
    destruct (rt_schedule_cases s c th Hi Hl Hc Hth) as (s' & E & Hcase).
    apply wp_unfold. exists tt, s'. split; [done|].
    split; [by eapply schedule_case_inv|]. split; [by eapply schedule_case_frame|].
    by destruct Hcase.
  - unfold rt_schedule, wp. run_k. apply Z.eqb_neq in Hl. by rewrite Hl.
Qed.

Lemma wp_rt_enter_critical (Q : unit -> kstate -> Prop) s :
  Q tt (set_k_lock_nest (fun n => i16 (n + 1)) s) -> wp rt_enter_critical Q s.
Proof. done. Qed.

(** Leaving the outermost critical section reschedules once the scheduler runs. *)
Lemma wp_rt_exit_critical s :
  sched_inv s ->
  wp rt_exit_critical (fun _ s' => sched_inv s' /\
    exists n, frame (set_k_lock_nest (fun _ => n) s) s' /\ n = Z.max 0 (i16 (k_lock_nest s - 1)) /\
              (is_Some (k_current s) <-> is_Some (k_current s'))) s.
Proof.
  intros Hi. unfold rt_exit_critical. repeat wp_step.
  - cbn [k_lock_nest set_k_lock_nest] in *.
    match goal with H : (_ <=? 0) = true |- _ => apply Z.leb_le in H end.
    eapply wp_mono, wp_rt_schedule.
    + intros _ s' (Hi' & Hf & Hc'). split; [done|]. exists 0. split; [done|]. split; [lia|].
      split; [done|]. intros _.
      match goal with H : bool_decide _ = true |- _ => by apply bool_decide_eq_true in H end.
    + by eapply sched_inv_ext; [..|exact Hi].
    + match goal with H : bool_decide _ = true |- _ => by apply bool_decide_eq_true in H end.
  - cbn [k_lock_nest set_k_lock_nest] in *.
    match goal with H : (_ <=? 0) = true |- _ => apply Z.leb_le in H end.
    split; [by eapply sched_inv_ext; [..|exact Hi]|]. exists 0. split; [done|]. split; [lia|done].
  - cbn [k_lock_nest set_k_lock_nest] in *.
    match goal with H : (_ <=? 0) = false |- _ => apply Z.leb_gt in H end.
    split; [by eapply sched_inv_ext; [..|exact Hi]|]. eexists. split; [done|]. split; [lia|done].
Qed.

Lemma wp_schedule_dispatched s c :
  sched_inv s -> k_lock_nest s = 0 -> k_current s = Some c ->
  (k_group s = 0 -> forall th, k_threads s !! c = Some th -> tstat th = RT_THREAD_RUNNING) ->
  wp rt_schedule (fun _ s' => sched_inv s' /\ dispatched s') s.
Proof.
  intros Hi Hl Hc Hg. pose proof Hi as [_ [C1 _]]. destruct (C1 _ Hc) as (th & Hth & _).
  destruct (rt_schedule_cases s c th Hi Hl Hc Hth) as (s' & E & Hcase).
  apply wp_unfold. exists tt, s'. split; [done|].
  split; [by eapply schedule_case_inv|]. eapply schedule_case_dispatched; eauto.
Qed.

(** C1: From a consistent scheduler state, unlocked and with the current thread still
    running if nothing else is ready, [rt_schedule] does not fault and leaves a
    consistent state whose current thread is RUNNING and has a priority number no
    READY thread undercuts. *)
Theorem rt_schedule_highest s c :
  sched_inv s -> k_lock_nest s = 0 -> k_current s = Some c ->
  (k_group s = 0 -> forall th, k_threads s !! c = Some th -> tstat th = RT_THREAD_RUNNING) ->
  wp rt_schedule (fun _ s' => sched_inv s' /\ dispatched s') s.
Proof. apply wp_schedule_dispatched. Qed.

(** Round robin: when the current thread has yielded and the most urgent ready
    queue is that of its own priority, [rt_schedule] runs the head of that queue and
    puts the yielding thread at its tail. *)
Theorem rt_schedule_round_robin s c th h q :
  sched_inv s -> k_lock_nest s = 0 -> k_current s = Some c -> k_threads s !! c = Some th ->
  tstat th = RT_THREAD_RUNNING -> Z.land (th_stat th) RT_THREAD_STAT_YIELD_MASK ≠ 0 ->
  k_tlist s (LReady (th_current_priority th)) = h :: q ->
  (forall p, 0 <= p < th_current_priority th -> k_tlist s (LReady p) = []) ->
  wp rt_schedule (fun _ s' => k_current s' = Some h /\
     k_tlist s' (LReady (th_current_priority th)) = q ++ [c]) s.
Proof.
  intros Hi Hl Hc Hth Hst Hy Hq Hlow.
  destruct (rt_schedule_cases s c th Hi Hl Hc Hth) as (s' & E & Hcase).
  apply wp_unfold. exists tt, s'. split; [done|]. clear E.
  pose proof Hi as [Hr [C1 C2]].
  assert (Hin : h ∈ k_tlist s (LReady (th_current_priority th))) by (rewrite Hq; mem).
  destruct (ri_ready _ _ Hr _ _ Hin) as (thh0 & Hthh0 & Hsh0 & Hph0).
  destruct Hcase as [Hg|h' hp Hh Hst' Hp|h' thh q' Hh Hthh Hsh Hne Hq' Hst' Hp|h' thh q' Hh Hthh Hsh Hne Hq' Hst'];
    [by destruct (group_zero s h thh0 Hi Hg Hthh0)| | |done].
  - pose proof (highest_min _ _ _ Hi (highest_group _ _ _ Hh) Hh _ _ Hthh0 Hsh0).
    destruct Hp as [?|[? ?]]; [lia|done].
  - pose proof (highest_min _ _ _ Hi (highest_group _ _ _ Hh) Hh _ _ Hthh0 Hsh0).
    pose proof (ri_ok _ _ Hr _ _ Hthh) as [_ O2 _ _].
    assert (th_current_priority thh = th_current_priority th) as Hpe.
    { destruct (decide (th_current_priority thh = th_current_priority th)); [done|].
      rewrite Hlow in Hq'; [done|lia]. }
    rewrite Hpe, Hq in Hq'. simplify_eq. split; [done|]. simpl.
    unfold list_remove, list_insert_before. simpl. rewrite insert_eq, Hq.
    pose proof (proj1 (ri_space _ _ Hr) (LReady (th_current_priority th))) as Hnd.
    rewrite Hq in Hnd. apply NoDup_cons in Hnd as [Hnin _].
    rewrite <- app_comm_cons, filter_cons_False by tauto. apply filter_notin. mem.
Qed.

(** ** A concrete state: thread 1 runs at priority 10, thread 2 waits beside it, thread
    3 at priority 20, thread 4 (priority 5) is suspended on a semaphore; it instantiates
    the hypotheses of the theorems. *)

Definition sample_thread (stat prio : Z) : rt_thread :=
  mkThread 1 0 0x20000000 1024 0 stat prio prio (2 ^ prio) 0 0 20 20 None 0.

Definition sample : kstate := {|
  k_obj := ∅; k_containers := fun _ => [];
  k_threads := {[1%positive := sample_thread (RT_THREAD_RUNNING + RT_THREAD_STAT_YIELD) 10;
                 2%positive := sample_thread RT_THREAD_READY 10;
                 3%positive := sample_thread RT_THREAD_READY 20;
                 4%positive := sample_thread RT_THREAD_SUSPEND 5]};
  k_tlist := <[LReady 10 := [2%positive]]> (<[LReady 20 := [3%positive]]>
               (<[LSuspend (OSem 1) := [4%positive]]> (fun _ => [])));
  k_group := Z.lor (2 ^ 10) (2 ^ 20); k_current := Some 1%positive; k_current_priority := 10;
  k_lock_nest := 0; k_irq_nest := 0; k_tick := 0; k_timers := ∅; k_trow := fun _ => [];
  k_soft_status := RT_SOFT_TIMER_IDLE; k_random_nr := 0; k_sems := ∅; k_mutexes := ∅;
  k_events := ∅; k_mailboxes := ∅; k_cleanups := [] |}.

Lemma sample_threads t th :
  k_threads sample !! t = Some th ->
  (t = 1%positive /\ th = sample_thread 11 10) \/ (t = 2%positive /\ th = sample_thread 1 10) \/
  (t = 3%positive /\ th = sample_thread 1 20) \/ (t = 4%positive /\ th = sample_thread 2 5).
Proof. cbn [k_threads sample]. rewrite !lookup_insert_Some, lookup_singleton_Some. naive_solver. Qed.

Lemma sample_tlist h t :
  t ∈ k_tlist sample h -> (h = LReady 10 /\ t = 2%positive) \/ (h = LReady 20 /\ t = 3%positive) \/
    (h = LSuspend (OSem 1) /\ t = 4%positive).
Proof.
  simpl. destruct (decide (LReady 10 = h)) as [<-|H1]; [rewrite insert_eq; clear; mem|].
  rewrite insert_ne by done.
  destruct (decide (LReady 20 = h)) as [<-|H2]; [rewrite insert_eq; clear; mem|].
  rewrite insert_ne by done.
  destruct (decide (LSuspend (OSem 1) = h)) as [<-|H3]; [rewrite insert_eq; clear; mem|].
  rewrite insert_ne by done. intros []%elem_of_nil.
Qed.

Lemma sample_bits p : Z.testbit (k_group sample) p = bool_decide (k_tlist sample (LReady p) ≠ []).
Proof.
  cbn [k_group k_tlist sample]. rewrite Z.lor_spec, !pow2_testbit by done.
  destruct (decide (p = 10)) as [->|H1]; [done|]. destruct (decide (p = 20)) as [->|H2]; [done|].
  rewrite !insert_ne by congruence.
  rewrite !bool_decide_eq_false_2 by (congruence || tauto). done.
Qed.

Lemma sample_inv : sched_inv sample.
Proof.
  split; split.
  - split.
    + intros h. simpl. unfold insert, fn_insert. repeat case_decide;
        repeat apply NoDup_singleton || apply NoDup_nil_2.
    + intros h1 h2 t Ha Hb; apply sample_tlist in Ha; apply sample_tlist in Hb. naive_solver.
  - intros t th Ht; apply sample_threads in Ht; destruct Ht as [[-> ->]|[[-> ->]|[[-> ->]|[-> ->]]]]; split; done.
  - intros p t Ht; apply sample_tlist in Ht; destruct Ht as [[[= ->] ->]|[[[= ->] ->]|[[=] _]]]; eexists; done.
  - intros t th Ht; apply sample_threads in Ht; destruct Ht as [[-> ->]|[[-> ->]|[[-> ->]|[-> ->]]]]; [done| | |done];
      intros _ _; simpl; apply list_elem_of_here.
  - done.
  - intros p _. apply sample_bits.
  - intros c [= <-]. eexists. done.
  - intros t th Ht; apply sample_threads in Ht; destruct Ht as [[-> ->]|[[-> ->]|[[-> ->]|[-> ->]]]]; [|done..].
    split; [done|]. intros h Ht; apply sample_tlist in Ht. naive_solver.
Qed.

Theorem rt_schedule_highest_witness : wp rt_schedule (fun _ s' => sched_inv s' /\ dispatched s') sample.
Proof. apply (rt_schedule_highest sample 1); [apply sample_inv|done..]. Defined.

Theorem rt_schedule_round_robin_witness :
  wp rt_schedule (fun _ s' => k_current s' = Some 2%positive /\
     k_tlist s' (LReady 10) = [1%positive]) sample.
Proof.
  apply (rt_schedule_round_robin sample 1 (sample_thread 11 10) 2 []);
    [apply sample_inv|done..|].
  intros p Hp. simpl in Hp. simpl. rewrite !insert_ne by (intros [=]; lia). done.
Defined.
