(* ===== verification/Object.v ===== *)
(** * Object: rt-thread/src/object.c

    The object containers and the header every kernel object inherits.  The hooks
    are not installed and there are no modules.  The address [rt_malloc] returns to
    [rt_object_allocate] is an argument. *)

From S2P Require Import Prelude Kernel Scheduler.

#[local] Open Scope Z_scope.

(** ** Definitions *)

(** The classes [rt_object_container] has an entry for, in its order. *)
Definition rt_object_container : list Z :=
  [RT_Object_Class_Thread; RT_Object_Class_Semaphore; RT_Object_Class_Mutex;
   RT_Object_Class_Event; RT_Object_Class_MailBox; RT_Object_Class_MessageQueue;
   RT_Object_Class_MemPool; RT_Object_Class_Device; RT_Object_Class_Timer].

(** The container of a class, named by the class; [None] is RT_NULL. *)
Definition rt_object_get_information (type : Z) : option Z :=
  if bool_decide (type ∈ rt_object_container) then Some type else None.

(** The string of at most [n] characters at the start of a [char] array. *)
Fixpoint cstr (n : nat) (l : list Z) : list Z :=
  match n, l with
  | S n, c :: l => if c =? 0 then [] else c :: cstr n l
  | _, _ => []
  end.
(** [rt_strncpy (object->name, name, RT_NAME_MAX)] and
    [rt_strncmp (object->name, name, RT_NAME_MAX) == 0], on the character arrays
    (KService: [rt_strncpy_spec], [rt_strncmp_zero]). *)
Definition name_copy (name : list Z) : list Z :=
  map (fun i => nth i (cstr RT_NAME_MAX name) 0) (seq 0 RT_NAME_MAX).
Definition name_eq (a b : list Z) : bool := bool_decide (cstr RT_NAME_MAX a = cstr RT_NAME_MAX b).

Definition containers_modify (f : (Z -> list objid) -> Z -> list objid) : K unit :=
  modify (set_k_containers f).

Definition rt_object_get_length (type : Z) : K Z :=
  match rt_object_get_information type with
  | None => mret 0
  | Some i => l ← gets (fun s => k_containers s i);
              mret (fold_left (fun count _ => count + 1) l 0)
  end.

(** [rt_list_for_each] with the break at [maxlen]; the result is the filled part of
    [pointers] and the returned index. *)
Fixpoint get_pointers_loop (l : list objid) (index maxlen : Z) (pointers : list objid) :
  list objid * Z :=
  match l with
  | [] => (pointers, index)
  | o :: l =>
      if maxlen <=? index + 1 then (pointers ++ [o], index + 1)
      else get_pointers_loop l (index + 1) maxlen (pointers ++ [o])
  end.
Definition rt_object_get_pointers (type maxlen : Z) : K (list objid * Z) :=
  if maxlen <=? 0 then mret ([], 0) else
  match rt_object_get_information type with
  | None => mret ([], 0)
  | Some i => l ← gets (fun s => k_containers s i); mret (get_pointers_loop l 0 maxlen [])
  end.

Definition rt_object_init (object : objid) (type : Z) (name : list Z) : K unit :=
  information ← deref (fun _ => rt_object_get_information type);
  rt_enter_critical ;;
  l ← gets (fun s => k_containers s information);
  rt_assert (forallb (fun obj => bool_decide (obj ≠ object)) l) ;;
  rt_exit_critical ;;
  modify (set_k_obj (fun m =>
    <[object := mkObject (name_copy name) (Z.lor type RT_Object_Class_Static)
                  (match m !! object with Some x => o_flag x | None => 0 end)]> m)) ;;
  containers_modify (list_insert_after information object).

Definition rt_object_detach (object : objid) : K unit :=
  upd_obj object (set_o_type (fun _ => 0)) ;;
  containers_modify (list_remove object).

(** [RT_DEBUG_NOT_IN_INTERRUPT] *)
Definition not_in_interrupt : K unit := n ← gets k_irq_nest; rt_assert (n =? 0).

Definition rt_object_allocate (malloc : option objid) (type : Z) (name : list Z) : K (option objid) :=
  not_in_interrupt ;;
  information ← deref (fun _ => rt_object_get_information type);
  match malloc with
  | None => mret None
  | Some object =>
      modify (set_k_obj <[object := mkObject (name_copy name) type 0]>) ;;
      containers_modify (list_insert_after information object) ;;
      mret (Some object)
  end.

Definition rt_object_delete (object : objid) : K unit :=
  o ← get_obj object;
  rt_assert (Z.land (o_type o) RT_Object_Class_Static =? 0) ;;
  upd_obj object (set_o_type (fun _ => RT_Object_Class_Null)) ;;
  containers_modify (list_remove object) ;;
  modify (set_k_obj (delete object)).

Definition rt_object_is_systemobject (object : objid) : K bool :=
  o ← get_obj object; mret (negb (Z.land (o_type o) RT_Object_Class_Static =? 0)).

Definition rt_object_get_type (object : objid) : K Z :=
  o ← get_obj object; mret (Z.land (o_type o) (u8 (Z.lnot RT_Object_Class_Static))).

(** The scan of [rt_object_find]. *)
Fixpoint find_loop (l : list objid) (name : list Z) : K (option objid) :=
  match l with
  | [] => mret None
  | object :: l =>
      o ← get_obj object;
      if name_eq (o_name o) name then mret (Some object) else find_loop l name
  end.
Definition rt_object_find (name : list Z) (type : Z) : K (option objid) :=
  match rt_object_get_information type with
  | None => mret None
  | Some information =>
      not_in_interrupt ;;
      rt_enter_critical ;;
      l ← gets (fun s => k_containers s information);
      r ← find_loop l name;
      rt_exit_critical ;;
      mret r
  end.

(** ** The registry invariant *)

(** Each container holds live objects of its class, each object is registered at most
    once. *)
Record obj_inv (s : kstate) : Prop := {
  oi_space : wf_space (k_containers s);
  oi_live : forall i o, o ∈ k_containers s i -> exists x, k_obj s !! o = Some x /\
    Z.land (o_type x) (u8 (Z.lnot RT_Object_Class_Static)) = i
}.

Lemma obj_inv_ext s s' : k_obj s' = k_obj s -> k_containers s' = k_containers s -> obj_inv s -> obj_inv s'.
Proof. intros E1 E2 [H1 H2]. split; rewrite ?E1, ?E2; done. Qed.

Lemma frame_obj s s' : frame s s' -> k_obj s' = k_obj s /\ k_containers s' = k_containers s.
Proof. intros [Hr _ _]. unfold rest in Hr. by simplify_eq. Qed.

Lemma frame_obj_inv s s' : frame s s' -> obj_inv s -> obj_inv s'.
Proof. intros [E1 E2]%frame_obj. by apply obj_inv_ext. Qed.

(** ** Names *)

Lemma cstr_nonzero n l : Forall (fun c => c ≠ 0) (cstr n l) /\ (length (cstr n l) <= n)%nat.
Proof.
  revert l. induction n as [|n IH]; intros l; [by destruct l|].
  destruct l as [|c l]; [split; [done|simpl; lia]|]. simpl.
  destruct (Z.eqb_spec c 0); [split; [done|simpl; lia]|].
  destruct (IH l). split; [by constructor|simpl; lia].
Qed.

Lemma cstr_pad n l :
  Forall (fun c => c ≠ 0) l -> (length l <= n)%nat ->
  cstr n (map (fun i => nth i l 0) (seq 0 n)) = l.
Proof.
  revert l. induction n as [|n IH]; intros l Hl Hn.
  - destruct l; [done|simpl in Hn; lia].
  - simpl. rewrite <- seq_shift, map_map. destruct l as [|c l]; [done|].
    apply Forall_cons in Hl as [Hc Hl]. simpl in *.
    apply Z.eqb_neq in Hc. rewrite Hc. f_equal. apply IH; [done|lia].
Qed.

Lemma name_copy_eq name : name_eq (name_copy name) name = true.
Proof.
  apply bool_decide_eq_true. destruct (cstr_nonzero RT_NAME_MAX name). by apply cstr_pad.
Qed.

(** ** Preservation *)

Lemma get_information_spec type i :
  rt_object_get_information type = Some i <-> i = type /\ type ∈ rt_object_container.
Proof.
  unfold rt_object_get_information. case_bool_decide; split; [by intros [= ->]|by intros [-> _]|done|].
  by intros [_ ?].
Qed.

Lemma class_type type :
  type ∈ rt_object_container ->
  Z.land (Z.lor type RT_Object_Class_Static) (u8 (Z.lnot RT_Object_Class_Static)) = type /\
  Z.land type (u8 (Z.lnot RT_Object_Class_Static)) = type.
Proof.
  intros H. unfold rt_object_container in H. rewrite !elem_of_cons, elem_of_nil in H.
  repeat destruct H as [->|H]; done.
Qed.

Lemma obj_inv_add o x i s :
  obj_inv s -> unlinked o (k_containers s) ->
  Z.land (o_type x) (u8 (Z.lnot RT_Object_Class_Static)) = i ->
  obj_inv (set_k_containers (list_insert_after i o) (set_k_obj <[o := x]> s)).
Proof.
  intros [H1 H2] Hu Ht. split; simpl; [by apply wf_list_insert_after|].
  intros j p Hin. destruct (decide (p = o)) as [->|Hne].
  - exists x. rewrite lookup_insert_eq. split; [done|]. unfold list_insert_after in Hin.
    destruct (decide (i = j)) as [<-|]; [done|]. rewrite insert_ne in Hin by done. by destruct (Hu j).
  - rewrite lookup_insert_ne by done. apply H2. unfold list_insert_after in Hin.
    destruct (decide (i = j)) as [<-|]; [|by rewrite insert_ne in Hin].
    rewrite insert_eq in Hin. by apply elem_of_cons in Hin as [->|].
Qed.

Lemma obj_inv_del o f s :
  obj_inv s -> (forall p, p ≠ o -> f (k_obj s) !! p = k_obj s !! p) ->
  obj_inv (set_k_containers (list_remove o) (set_k_obj f s)).
Proof.
  intros [H1 H2] Hf. split; simpl; [by apply wf_list_remove|].
  intros i p [Hin Hne]%elem_of_list_remove. rewrite Hf by done. by apply H2.
Qed.

(** ** Initialisation *)

Definition init_obj (o : objid) (type : Z) (name : list Z) (s : kstate) : kstate :=
  set_k_containers (list_insert_after type o) (set_k_obj (fun m =>
    <[o := mkObject (name_copy name) (Z.lor type RT_Object_Class_Static)
                  (match m !! o with Some x => o_flag x | None => 0 end)]> m) s).

Lemma sched_inv_init_obj o type name s : sched_inv s -> sched_inv (init_obj o type name s).
Proof. by apply sched_inv_ext. Qed.

Lemma wp_rt_object_init o type name s :
  sched_inv s -> obj_inv s -> type ∈ rt_object_container -> unlinked o (k_containers s) ->
  wp (rt_object_init o type name) (fun _ s' => exists n s1,
    frame (set_k_lock_nest (fun _ => n) s) s1 /\ n = Z.max 0 (i16 (i16 (k_lock_nest s + 1) - 1)) /\
    s' = init_obj o type name s1 /\
    sched_inv s' /\ obj_inv s' /\ (is_Some (k_current s) <-> is_Some (k_current s'))) s.
Proof.
  intros Hi Ho Ht Hu. unfold rt_object_init.
  rewrite wp_bind. eapply wp_deref; [by apply get_information_spec|].
  rewrite wp_bind. apply wp_rt_enter_critical. repeat wp_step.
  { cbn [k_containers set_k_lock_nest]. apply forallb_forall. intros p Hp. apply bool_decide_eq_true.
    intros ->. apply (Hu type). by apply list_elem_of_In. }
  eapply wp_mono, wp_rt_exit_critical; [|by eapply sched_inv_ext; [..|exact Hi]].
  intros _ s1 (Hi1 & n & Hf & Hn & Hc). repeat wp_step.
  pose proof (frame_obj _ _ Hf) as [E1 E2]. cbn in E1, E2.
  exists n, s1. split; [exact Hf|]. split; [exact Hn|]. split; [done|].
  split; [by apply (sched_inv_init_obj o type name)|]. split; [|exact Hc].
  apply obj_inv_add; [by eapply obj_inv_ext|by rewrite E2|]. by apply class_type.
Qed.

(** ** Lookup by name *)

Definition named (name : list Z) (s : kstate) (o : objid) : bool :=
  match k_obj s !! o with Some x => name_eq (o_name x) name | None => false end.

(** The scan returns the first registered object whose name matches. *)
Lemma wp_find_loop l name (Q : option objid -> kstate -> Prop) s :
  (forall o, o ∈ l -> is_Some (k_obj s !! o)) ->
  Q (List.find (named name s) l) s -> wp (find_loop l name) Q s.
Proof.
  induction l as [|o l IH]; intros Hl HQ; [done|]. simpl. rewrite wp_bind.
  destruct (Hl o ltac:(mem)) as [x Hx]. eapply wp_get_obj; [done|].
  simpl in HQ. unfold named in HQ at 1. rewrite Hx in HQ.
  destruct (name_eq _ _); [done|]. apply IH; [|done]. intros p Hp. apply Hl. clear -Hp. mem.
Qed.

Lemma wp_rt_object_find name type s :
  sched_inv s -> obj_inv s -> type ∈ rt_object_container -> k_irq_nest s = 0 ->
  wp (rt_object_find name type) (fun r s' =>
    r = List.find (named name s) (k_containers s type) /\ sched_inv s' /\ obj_inv s') s.
Proof.
  intros Hi Ho Ht Hn. unfold rt_object_find.
  rewrite (proj2 (get_information_spec type type)) by done.
  rewrite wp_bind. unfold not_in_interrupt. repeat wp_step; [by rewrite Hn|].
  apply wp_rt_enter_critical. repeat wp_step. apply wp_find_loop.
  { intros o Hin. destruct (oi_live _ Ho _ _ Hin) as (x & Hx & _). by exists x. }
  repeat wp_step. eapply wp_mono, wp_rt_exit_critical; [|by eapply sched_inv_ext; [..|exact Hi]].
  intros _ s1 (Hi1 & n & Hf & _). repeat wp_step. split; [done|]. split; [done|].
  eapply obj_inv_ext, Ho; apply (frame_obj _ _ Hf).
Qed.

(** An object that has just been initialised is found by the name it was given,
    also when the name is longer than the eight characters that are stored. *)
Theorem rt_object_find_init o type name s :
  sched_inv s -> obj_inv s -> type ∈ rt_object_container -> unlinked o (k_containers s) ->
  k_irq_nest s = 0 ->
  wp (rt_object_init o type name ;; rt_object_find name type)
     (fun r s' => r = Some o /\ sched_inv s' /\ obj_inv s') s.
Proof.
  intros Hi Ho Ht Hu Hn. rewrite wp_bind. eapply wp_mono, wp_rt_object_init; [|done..].
  intros _ s' (n & s1 & Hf & _ & -> & Hi' & Ho' & _).
  eapply wp_mono, wp_rt_object_find; [|done|done|done|].
  - intros r s2 (-> & ? & ?). split; [|done]. simpl. unfold list_insert_after.
    rewrite insert_eq. simpl. unfold named at 1. simpl. rewrite lookup_insert_eq. simpl.
    by rewrite name_copy_eq.
  - simpl. destruct Hf as [Hr _ _]. unfold rest in Hr. cbn in Hr. congruence.
Qed.

(** A detached object is no longer found, and the registry stays consistent. *)
Theorem rt_object_detach_find o type name s :
  sched_inv s -> obj_inv s -> type ∈ rt_object_container -> k_irq_nest s = 0 ->
  is_Some (k_obj s !! o) ->
  wp (rt_object_detach o ;; rt_object_find name type) (fun r s' => r ≠ Some o /\ obj_inv s') s.
Proof.
  intros Hi Ho Ht Hn [x Hx]. unfold rt_object_detach. rewrite !wp_bind.
  eapply wp_upd_obj; [done|]. unfold containers_modify. rewrite wp_modify.
  eapply wp_mono, wp_rt_object_find; [|by eapply sched_inv_ext; [..|exact Hi]| |done|done].
  - intros r s2 (-> & _ & ?). split; [|done]. intros [Hin _]%List.find_some.
    apply list_elem_of_In in Hin. simpl in Hin. apply elem_of_list_remove in Hin. tauto.
  - apply obj_inv_del; [done|]. intros p Hp. by rewrite lookup_insert_ne.
Qed.

(** [rt_object_get_pointers] reports the first [maxlen] objects of a container, all
    of them when there are fewer. *)
Theorem rt_object_get_pointers_spec type maxlen s :
  type ∈ rt_object_container -> 0 < maxlen ->
  rt_object_get_pointers type maxlen s =
  Some ((take (Z.to_nat maxlen) (k_containers s type),
         Z.min maxlen (Z.of_nat (length (k_containers s type)))), s).
Proof.
  intros Ht Hm. unfold rt_object_get_pointers.
  destruct (Z.leb_spec maxlen 0); [lia|].
  rewrite (proj2 (get_information_spec type type)) by done. run_k. do 2 f_equal.
  assert (forall l idx ps, idx < maxlen ->
    get_pointers_loop l idx maxlen ps =
    (ps ++ take (Z.to_nat (maxlen - idx)) l, Z.min maxlen (idx + Z.of_nat (length l)))) as Hl.
  { induction l as [|o l IH]; intros idx ps Hi; simpl.
    - rewrite take_nil, app_nil_r. f_equal. lia.
    - replace (Z.to_nat (maxlen - idx)) with (S (Z.to_nat (maxlen - (idx + 1)))) by lia. simpl.
      destruct (Z.leb_spec maxlen (idx + 1)).
      + replace (Z.to_nat (maxlen - (idx + 1))) with 0%nat by lia. rewrite take_0. f_equal. lia.
      + rewrite IH by lia. rewrite <- app_assoc. simpl. f_equal. lia. }
  rewrite Hl by lia. by rewrite Z.sub_0_r, Z.add_0_l.
Qed.

(** ** Concrete instances *)

Definition sample_objects : kstate :=
  set_k_containers (fun _ => <[RT_Object_Class_Semaphore := [OSem 1]]> (fun _ => []))
    (set_k_obj (fun _ => {[OSem 1 := mkObject (name_copy [115; 101; 109]) 0x82 0]}) sample).

Lemma sample_objects_inv : obj_inv sample_objects.
Proof.
  split.
  - split.
    + intros h. simpl. unfold insert, fn_insert. case_decide; [apply NoDup_singleton|apply NoDup_nil_2].
    + intros h1 h2 o. simpl. unfold insert, fn_insert. repeat case_decide; congruence || (clear; mem).
  - intros i o. simpl. unfold insert, fn_insert. case_decide; [|by intros []%elem_of_nil].
    subst. intros ->%list_elem_of_singleton. eexists. done.
Qed.

Theorem rt_object_find_init_witness :
  wp (rt_object_init (OMutex 1) RT_Object_Class_Mutex [97;98;99;100;101;102;103;104;105] ;;
      rt_object_find [97;98;99;100;101;102;103;104;105] RT_Object_Class_Mutex)
     (fun r s' => r = Some (OMutex 1) /\ sched_inv s' /\ obj_inv s') sample_objects.
Proof.
  apply rt_object_find_init; [by eapply sched_inv_ext; [..|exact sample_inv]
    |apply sample_objects_inv|by apply (bool_decide_unpack _)| |done].
  intros h. simpl. unfold insert, fn_insert. case_decide; clear; mem.
Defined.

Theorem rt_object_detach_find_witness :
  wp (rt_object_detach (OSem 1) ;; rt_object_find [115; 101; 109] RT_Object_Class_Semaphore)
     (fun r s' => r ≠ Some (OSem 1) /\ obj_inv s') sample_objects.
Proof.
  apply rt_object_detach_find; [by eapply sched_inv_ext; [..|exact sample_inv]
    |apply sample_objects_inv|by apply (bool_decide_unpack _)|done|by eexists].
Defined.

Theorem rt_object_get_pointers_spec_witness :
  rt_object_get_pointers RT_Object_Class_Semaphore 4 sample_objects =
  Some (([OSem 1], 1), sample_objects).
Proof.
  apply (rt_object_get_pointers_spec RT_Object_Class_Semaphore 4);
    [by apply (bool_decide_unpack _)|lia].
Defined.
