(* ===== verification/TimerCore.v ===== *)
(** * TimerCore: timers that are not running, rt-thread/src/timer.c

    Creation, removal, stopping and control; [rt_timer_start] and the checks, which
    need the thread operations, are in Timer.  With a skip list of one level a timer
    has the single node [row[0]]. *)

From S2P Require Import Prelude Kernel Scheduler Object.

#[local] Open Scope Z_scope.

(** ** Definitions *)

(** The list node is initialised too: it is on no list, as the object is not registered
    or its memory is new. *)
Definition _rt_timer_init (timer : tmid) (timeout : timeout_fn) (time flag : Z) : K unit :=
  upd_obj (OTimer timer) (set_o_flag (fun _ => Z.land flag (Z.lnot RT_TIMER_FLAG_ACTIVATED))) ;;
  modify (set_k_timers <[timer := mkTimer timeout time 0]>).

Definition rt_timer_list_next_timeout (timer_list : thead) : K Z :=
  L ← gets k_trow;
  if list_isempty timer_list L then mret RT_TICK_MAX
  else timer ← first_timer timer_list; t ← get_timer timer; mret (tm_timeout_tick t).

Definition _rt_timer_remove (timer : tmid) : K unit := trow_modify (list_remove timer).

Definition rt_timer_init (timer : tmid) (name : list Z) (timeout : timeout_fn) (time flag : Z) : K unit :=
  rt_object_init (OTimer timer) RT_Object_Class_Timer name ;;
  _rt_timer_init timer timeout time flag.

Definition is_timer (timer : tmid) : K unit :=
  ty ← rt_object_get_type (OTimer timer); rt_assert (ty =? RT_Object_Class_Timer).

Definition clear_active : rt_object -> rt_object :=
  set_o_flag (fun f => Z.land f (Z.lnot RT_TIMER_FLAG_ACTIVATED)).

Definition rt_timer_detach (timer : tmid) : K Z :=
  is_timer timer ;;
  sys ← rt_object_is_systemobject (OTimer timer);
  rt_assert sys ;;
  _rt_timer_remove timer ;;
  upd_obj (OTimer timer) clear_active ;;
  rt_object_detach (OTimer timer) ;;
  mret RT_EOK.

Definition rt_timer_create (malloc : option positive) (name : list Z) (timeout : timeout_fn)
    (time flag : Z) : K (option tmid) :=
  r ← rt_object_allocate (OTimer ∘ TUser <$> malloc) RT_Object_Class_Timer name;
  match r, malloc with
  | Some _, Some p =>
      _rt_timer_init (TUser p) timeout time flag ;;
      mret (Some (TUser p))
  | _, _ => mret None
  end.

Definition rt_timer_delete (timer : tmid) : K Z :=
  is_timer timer ;;
  sys ← rt_object_is_systemobject (OTimer timer);
  rt_assert (negb sys) ;;
  _rt_timer_remove timer ;;
  upd_obj (OTimer timer) clear_active ;;
  rt_object_delete (OTimer timer) ;;
  modify (set_k_timers (delete timer)) ;;
  mret RT_EOK.

Definition rt_timer_stop (timer : tmid) : K Z :=
  is_timer timer ;;
  o ← get_obj (OTimer timer);
  if Z.land (o_flag o) RT_TIMER_FLAG_ACTIVATED =? 0 then mret (- RT_ERROR) else
  _rt_timer_remove timer ;;
  upd_obj (OTimer timer) clear_active ;;
  mret RT_EOK.

(** [arg] is the word the pointer argument points to; the second result is its new value. *)
Definition rt_timer_control (timer : tmid) (cmd arg : Z) : K (Z * Z) :=
  is_timer timer ;;
  t ← get_timer timer;
  o ← get_obj (OTimer timer);
  if cmd =? RT_TIMER_CTRL_GET_TIME then mret (RT_EOK, tm_init_tick t)
  else if cmd =? RT_TIMER_CTRL_SET_TIME then
    upd_timer timer (set_tm_init_tick (fun _ => arg)) ;; mret (RT_EOK, arg)
  else if cmd =? RT_TIMER_CTRL_SET_ONESHOT then
    upd_obj (OTimer timer) (set_o_flag (fun f => Z.land f (Z.lnot RT_TIMER_FLAG_PERIODIC))) ;;
    mret (RT_EOK, arg)
  else if cmd =? RT_TIMER_CTRL_SET_PERIODIC then
    upd_obj (OTimer timer) (set_o_flag (fun f => Z.lor f RT_TIMER_FLAG_PERIODIC)) ;;
    mret (RT_EOK, arg)
  else if cmd =? RT_TIMER_CTRL_GET_STATE then
    mret (RT_EOK, if negb (Z.land (o_flag o) RT_TIMER_FLAG_ACTIVATED =? 0)
                  then RT_TIMER_FLAG_ACTIVATED else RT_TIMER_FLAG_DEACTIVATED)
  else mret (RT_EOK, arg).

Definition rt_system_timer_init : K unit := trow_modify (list_init TLHard).

(** ** Flags *)

Definition active (o : rt_object) : bool := Z.testbit (o_flag o) 0.
Definition periodic (o : rt_object) : bool := Z.testbit (o_flag o) 1.
Definition soft (o : rt_object) : bool := Z.testbit (o_flag o) 2.
Definition class_of (o : rt_object) : Z := Z.land (o_type o) (u8 (Z.lnot RT_Object_Class_Static)).

Lemma test_active o : (Z.land (o_flag o) RT_TIMER_FLAG_ACTIVATED =? 0) = negb (active o).
Proof. by apply (land_pow2 _ 0). Qed.
Lemma test_periodic o : (Z.land (o_flag o) RT_TIMER_FLAG_PERIODIC =? 0) = negb (periodic o).
Proof. by apply (land_pow2 _ 1). Qed.
Lemma test_soft o : (Z.land (o_flag o) RT_TIMER_FLAG_SOFT_TIMER =? 0) = negb (soft o).
Proof. by apply (land_pow2 _ 2). Qed.

Lemma clear_active_flags o :
  active (clear_active o) = false /\ periodic (clear_active o) = periodic o /\
  soft (clear_active o) = soft o /\ class_of (clear_active o) = class_of o.
Proof.
  unfold active, periodic, soft, clear_active. cbn [o_flag set_o_flag]. change RT_TIMER_FLAG_ACTIVATED with (2 ^ 0).
  rewrite !testbit_clear by done. simpl. by rewrite !andb_true_r, andb_false_r.
Qed.

Definition set_active : rt_object -> rt_object :=
  set_o_flag (fun f => Z.lor f RT_TIMER_FLAG_ACTIVATED).

Lemma set_active_flags o :
  active (set_active o) = true /\ periodic (set_active o) = periodic o /\
  soft (set_active o) = soft o /\ class_of (set_active o) = class_of o.
Proof.
  unfold active, periodic, soft, set_active. cbn [o_flag set_o_flag]. change RT_TIMER_FLAG_ACTIVATED with (2 ^ 0).
  rewrite !testbit_set by done. simpl. by rewrite !orb_false_r, orb_true_r.
Qed.

(** ** Invariant *)

(** A linked timer is a live timer object on the list its SOFT flag selects, active if
    it is on one of the two global lists; an active timer is linked. *)
Record timer_inv (s : kstate) : Prop := {
  ti_space : wf_space (k_trow s);
  ti_list : forall h tm, tm ∈ k_trow s h -> exists o v,
    k_obj s !! OTimer tm = Some o /\ k_timers s !! tm = Some v /\
    class_of o = RT_Object_Class_Timer /\
    soft o = bool_decide (h = TLSoft \/ h = TLSoftTmp) /\
    (h = TLHard \/ h = TLSoft -> active o = true);
  ti_active : forall tm o, k_obj s !! OTimer tm = Some o -> class_of o = RT_Object_Class_Timer ->
    active o = true -> exists h, tm ∈ k_trow s h
}.

(** The timer is a live object. *)
Definition timer_live (tm : tmid) (s : kstate) : Prop :=
  exists o v, k_obj s !! OTimer tm = Some o /\ k_timers s !! tm = Some v /\
              class_of o = RT_Object_Class_Timer.

Lemma timer_inv_ext s s' :
  k_obj s' = k_obj s -> k_timers s' = k_timers s -> k_trow s' = k_trow s ->
  timer_inv s -> timer_inv s'.
Proof. intros E1 E2 E3 [H1 H2 H3]. split; rewrite ?E1, ?E2, ?E3; done. Qed.

Lemma wp_is_timer tm (Q : unit -> kstate -> Prop) s :
  timer_live tm s -> Q tt s -> wp (is_timer tm) Q s.
Proof.
  intros (o & v & Ho & _ & Hc) HQ. unfold is_timer, rt_object_get_type. rewrite !wp_bind.
  eapply wp_get_obj; [done|]. repeat wp_step; [|done]. by apply Z.eqb_eq.
Qed.

(** The state after a timer is stopped. *)
Definition stop_timer (tm : tmid) (o : rt_object) (s : kstate) : kstate :=
  set_k_obj <[OTimer tm := clear_active o]> (set_k_trow (list_remove tm) s).

Lemma stop_timer_inv tm o s :
  timer_inv s -> k_obj s !! OTimer tm = Some o -> timer_inv (stop_timer tm o s).
Proof.
  intros [H1 H2 H3] Ho. split; simpl.
  - by apply wf_list_remove.
  - intros h u [Hin Hne]%elem_of_list_remove.
    rewrite lookup_insert_ne by congruence. by apply H2.
  - intros u ou [[[= <-] <-]|[Hne Hu]]%lookup_insert_Some Hc Ha.
    + pose proof (clear_active_flags o) as (E & _). congruence.
    + destruct (H3 u ou Hu Hc Ha) as [h Hin]. exists h. apply elem_of_list_remove. split; congruence.
Qed.

Lemma stop_timer_off tm o s h : tm ∉ k_trow (stop_timer tm o s) h.
Proof. apply list_remove_unlinked. Qed.

(** [rt_timer_stop] on a live timer: an error and no effect when it is not active. *)
Lemma wp_rt_timer_stop tm (Q : Z -> kstate -> Prop) s o :
  timer_live tm s -> k_obj s !! OTimer tm = Some o ->
  Q (if active o then RT_EOK else - RT_ERROR) (if active o then stop_timer tm o s else s) ->
  wp (rt_timer_stop tm) Q s.
Proof.
  intros Hl Ho HQ. unfold rt_timer_stop. rewrite wp_bind. apply wp_is_timer; [done|].
  rewrite wp_bind. eapply wp_get_obj; [done|]. rewrite test_active.
  destruct (active o); simpl; [|done]. unfold _rt_timer_remove, trow_modify. repeat wp_step.
  by eapply wp_upd_obj.
Qed.

(** Whatever the case, the timer is off afterwards. *)
Lemma timer_stopped s tm o :
  timer_inv s -> k_obj s !! OTimer tm = Some o -> class_of o = RT_Object_Class_Timer ->
  let s' := if active o then stop_timer tm o s else s in
  timer_inv s' /\ (forall h, h = TLHard \/ h = TLSoft -> tm ∉ k_trow s' h).
Proof.
  intros Hi Ho Hc. simpl. destruct (active o) eqn:Ea.
  - split; [by apply stop_timer_inv|]. intros h _. apply stop_timer_off.
  - split; [done|]. intros h Hh Hin.
    destruct (ti_list _ Hi _ _ Hin) as (o' & v & Ho' & _ & _ & _ & Ha). rewrite Ho in Ho'.
    simplify_eq. rewrite Ha in Ea; done.
Qed.

Lemma wp_rt_timer_detach tm (Q : Z -> kstate -> Prop) s o :
  timer_live tm s -> k_obj s !! OTimer tm = Some o ->
  Z.land (o_type o) RT_Object_Class_Static ≠ 0 ->
  Q RT_EOK (set_k_containers (list_remove (OTimer tm))
             (set_k_obj <[OTimer tm := set_o_type (fun _ => 0) (clear_active o)]>
               (set_k_trow (list_remove tm) s))) ->
  wp (rt_timer_detach tm) Q s.
Proof.
  intros Hl Ho Hs HQ. unfold rt_timer_detach. rewrite wp_bind. apply wp_is_timer; [done|].
  unfold rt_object_is_systemobject. rewrite wp_bind, wp_bind. eapply wp_get_obj; [done|].
  repeat wp_step; [by apply Z.eqb_neq in Hs as ->|]. unfold _rt_timer_remove, trow_modify.
  repeat wp_step. eapply wp_upd_obj; [done|]. unfold rt_object_detach. repeat wp_step.
  eapply wp_upd_obj; [simpl; by rewrite lookup_insert_eq|]. unfold containers_modify. repeat wp_step.
  revert HQ. unfold set_k_obj, set_k_trow, set_k_containers. cbn. by rewrite insert_insert_eq.
Qed.
