(* ===== verification/Thread.v ===== *)
(** * Thread: rt-thread/src/thread.c

    Thread creation, start, suspension, resumption, yielding, control, timeout and
    exit; the operations that sleep are in Sleep.  Stacks, and so the stack frame
    [rt_hw_stack_init] builds, are not modelled, nor the hooks.  Results of the
    allocator are arguments. *)

From S2P Require Import Prelude Kernel Scheduler Object TimerCore.

#[local] Open Scope Z_scope.

(** ** Definitions *)

Definition _thread_cleanup_execute (thread : tid) : K unit :=
  th ← get_thread thread;
  match th_cleanup th with
  | Some f => modify (set_k_cleanups (fun log => log ++ [(f, thread)]))
  | None => mret tt
  end.

Definition rt_thread_exit : K unit :=
  thread ← self;
  _thread_cleanup_execute thread ;;
  rt_schedule_remove_thread thread ;;
  upd_thread thread (set_th_stat (fun _ => RT_THREAD_CLOSE)) ;;
  rt_timer_detach (TThread thread) ;;
  sys ← rt_object_is_systemobject (OThread thread);
  (if (sys : bool) then rt_object_detach (OThread thread)
   else tlist_modify (list_insert_after LDefunct thread)) ;;
  rt_schedule.

(** The [tlist] node is initialised too: the object was not registered, so it is on no
    list. *)
Definition _rt_thread_init (thread : tid) (entry : positive)
    (parameter stack_start stack_size priority tick : Z) : K Z :=
  rt_assert (priority <? RT_THREAD_PRIORITY_MAX) ;;
  modify (set_k_threads (fun m =>
    let '(es, ei) := match m !! thread with
                     | Some th => (th_event_set th, th_event_info th) | None => (0, 0) end in
    <[thread := mkThread entry parameter stack_start stack_size RT_EOK RT_THREAD_INIT
                  priority priority 0 es ei tick tick None 0]> m)) ;;
  o ← get_obj (OThread thread);
  rt_timer_init (TThread thread) (o_name o) (FThreadTimeout thread) 0 RT_TIMER_FLAG_ONE_SHOT ;;
  mret RT_EOK.

Definition rt_thread_init (thread : tid) (name : list Z) (entry : positive)
    (parameter stack_start stack_size priority tick : Z) : K Z :=
  rt_assert (negb (stack_start =? 0)) ;;
  rt_object_init (OThread thread) RT_Object_Class_Thread name ;;
  _rt_thread_init thread entry parameter stack_start stack_size priority tick.

Definition rt_thread_create (malloc : option tid) (stack : option Z) (name : list Z)
    (entry : positive) (parameter stack_size priority tick : Z) : K (option tid) :=
  r ← rt_object_allocate (OThread <$> malloc) RT_Object_Class_Thread name;
  match r, malloc with
  | Some object, Some thread =>
      match stack with
      | None => rt_object_delete object ;; mret None
      | Some stack_start =>
          _rt_thread_init thread entry parameter stack_start stack_size priority tick ;;
          mret (Some thread)
      end
  | _, _ => mret None
  end.

Definition is_thread (thread : tid) : K unit :=
  ty ← rt_object_get_type (OThread thread); rt_assert (ty =? RT_Object_Class_Thread).

Definition rt_thread_suspend (thread : tid) : K Z :=
  is_thread thread ;;
  th ← get_thread thread;
  let stat := Z.land (th_stat th) RT_THREAD_STAT_MASK in
  if negb (stat =? RT_THREAD_READY) && negb (stat =? RT_THREAD_RUNNING) then mret (- RT_ERROR) else
  current ← rt_thread_self;
  when (stat =? RT_THREAD_RUNNING) (rt_assert (bool_decide (current = Some thread))) ;;
  rt_schedule_remove_thread thread ;;
  upd_thread thread (set_th_stat (with_stat RT_THREAD_SUSPEND)) ;;
  rt_timer_stop (TThread thread) ;;
  mret RT_EOK.

Definition rt_thread_resume (thread : tid) : K Z :=
  is_thread thread ;;
  th ← get_thread thread;
  if negb (Z.land (th_stat th) RT_THREAD_STAT_MASK =? RT_THREAD_SUSPEND) then mret (- RT_ERROR) else
  tlist_modify (list_remove thread) ;;
  rt_timer_stop (TThread thread) ;;
  rt_schedule_insert_thread thread ;;
  mret RT_EOK.

(** [1L << priority]; shifting by 32 or more is undefined. *)
Definition priority_mask (priority : Z) : K Z :=
  priority_index priority ;; mret (u32 (Z.shiftl 1 priority)).

Definition rt_thread_startup (thread : tid) : K Z :=
  th ← get_thread thread;
  rt_assert (Z.land (th_stat th) RT_THREAD_STAT_MASK =? RT_THREAD_INIT) ;;
  is_thread thread ;;
  upd_thread thread (set_th_current_priority (fun _ => th_init_priority th)) ;;
  mask ← priority_mask (th_init_priority th);
  upd_thread thread (set_th_number_mask (fun _ => mask)) ;;
  upd_thread thread (set_th_stat (fun _ => RT_THREAD_SUSPEND)) ;;
  rt_thread_resume thread ;;
  current ← rt_thread_self;
  when (bool_decide (is_Some current)) rt_schedule ;;
  mret RT_EOK.

Definition rt_thread_detach (thread : tid) : K Z :=
  is_thread thread ;;
  sys ← rt_object_is_systemobject (OThread thread);
  rt_assert sys ;;
  th ← get_thread thread;
  let stat := Z.land (th_stat th) RT_THREAD_STAT_MASK in
  if stat =? RT_THREAD_CLOSE then mret RT_EOK else
  when (negb (stat =? RT_THREAD_INIT)) (rt_schedule_remove_thread thread) ;;
  _thread_cleanup_execute thread ;;
  rt_timer_detach (TThread thread) ;;
  upd_thread thread (set_th_stat (fun _ => RT_THREAD_CLOSE)) ;;
  sys ← rt_object_is_systemobject (OThread thread);
  (if (sys : bool) then rt_object_detach (OThread thread)
   else tlist_modify (list_insert_after LDefunct thread)) ;;
  mret RT_EOK.

Definition rt_thread_delete (thread : tid) : K Z :=
  is_thread thread ;;
  sys ← rt_object_is_systemobject (OThread thread);
  rt_assert (negb sys) ;;
  th ← get_thread thread;
  let stat := Z.land (th_stat th) RT_THREAD_STAT_MASK in
  if stat =? RT_THREAD_CLOSE then mret RT_EOK else
  when (negb (stat =? RT_THREAD_INIT)) (rt_schedule_remove_thread thread) ;;
  _thread_cleanup_execute thread ;;
  rt_timer_detach (TThread thread) ;;
  upd_thread thread (set_th_stat (fun _ => RT_THREAD_CLOSE)) ;;
  tlist_modify (list_insert_after LDefunct thread) ;;
  mret RT_EOK.

Definition rt_thread_yield : K Z :=
  thread ← self;
  upd_thread thread (fun th => set_th_remaining_tick (fun _ => th_init_tick th) th) ;;
  upd_thread thread (set_th_stat (fun st => Z.lor st RT_THREAD_STAT_YIELD)) ;;
  rt_schedule ;;
  mret RT_EOK.

(** [arg] is the byte the argument points to, [None] when it points to no object. *)
Definition rt_thread_control (thread : tid) (cmd : Z) (arg : option Z) : K Z :=
  is_thread thread ;;
  if cmd =? RT_THREAD_CTRL_CHANGE_PRIORITY then
    th ← get_thread thread;
    (if Z.land (th_stat th) RT_THREAD_STAT_MASK =? RT_THREAD_READY then
       rt_schedule_remove_thread thread ;;
       p ← deref (fun _ => arg);
       upd_thread thread (set_th_current_priority (fun _ => p)) ;;
       mask ← priority_mask p;
       upd_thread thread (set_th_number_mask (fun _ => mask)) ;;
       rt_schedule_insert_thread thread
     else
       p ← deref (fun _ => arg);
       upd_thread thread (set_th_current_priority (fun _ => p)) ;;
       mask ← priority_mask p;
       upd_thread thread (set_th_number_mask (fun _ => mask))) ;;
    mret RT_EOK
  else if cmd =? RT_THREAD_CTRL_STARTUP then rt_thread_startup thread
  else if cmd =? RT_THREAD_CTRL_CLOSE then
    sys ← rt_object_is_systemobject (OThread thread);
    if (sys : bool) then rt_thread_detach thread else rt_thread_delete thread
  else mret RT_EOK.

Definition rt_thread_timeout (thread : tid) : K unit :=
  th ← get_thread thread;
  rt_assert (Z.land (th_stat th) RT_THREAD_STAT_MASK =? RT_THREAD_SUSPEND) ;;
  is_thread thread ;;
  upd_thread thread (set_th_error (fun _ => - RT_ETIMEOUT)) ;;
  tlist_modify (list_remove thread) ;;
  rt_schedule_insert_thread thread ;;
  rt_schedule.

Definition rt_thread_find (name : list Z) : K (option objid) :=
  rt_object_find name RT_Object_Class_Thread.

(** ** The kernel invariant *)

(** A thread that is not closed is a live thread object with its own timer. *)
Definition thread_live (t : tid) (s : kstate) : Prop :=
  exists x xt v, k_obj s !! OThread t = Some x /\ class_of x = RT_Object_Class_Thread /\
    k_obj s !! OTimer (TThread t) = Some xt /\ class_of xt = RT_Object_Class_Timer /\
    Z.land (o_type xt) RT_Object_Class_Static ≠ 0 /\
    soft xt = false /\ periodic xt = false /\
    k_timers s !! TThread t = Some v /\ tm_timeout_func v = FThreadTimeout t.

(** The scheduler, object and timer invariants, and: the timer of a thread runs only
    while the thread is suspended. *)
Record kinv (s : kstate) : Prop := {
  ki_sched : sched_inv s;
  ki_obj : obj_inv s;
  ki_timer : timer_inv s;
  ki_live : forall t th, k_threads s !! t = Some th -> tstat th ≠ RT_THREAD_CLOSE -> thread_live t s;
  ki_suspend : forall t h, h = TLHard \/ h = TLSoft -> TThread t ∈ k_trow s h ->
    exists th, k_threads s !! t = Some th /\ tstat th = RT_THREAD_SUSPEND
}.

(** ** Parking and waking a thread *)

(** [t] leaves the ready queues with the new status [f]. *)
Definition park (t : tid) (th : rt_thread) (f : Z -> Z) (s : kstate) : kstate :=
  set_k_threads <[t := set_th_stat f th]> (remove_ready t th s).

Lemma park_sched t th f s :
  sched_inv s -> k_threads s !! t = Some th -> started (tstat th) ->
  th_ok (set_th_stat f th) ->
  (let v := tstat (set_th_stat f th) in
   v ≠ RT_THREAD_READY /\ v ≠ RT_THREAD_RUNNING /\ v ≠ RT_THREAD_INIT) ->
  sched_inv (park t th f s).
Proof.
  intros [Hr [C1 C2]] Ht Hi Hok (Hv1 & Hv2 & Hv3). split.
  - apply (ready_inv_upd (Some t)); [by apply ready_inv_remove with None; auto|done| | |by right].
    + intros p. apply remove_ready_off.
    + intros E. by destruct Hv1.
  - split; simpl.
    + intros c Hc. destruct (C1 c Hc) as (thc & Hthc & ? & ?).
      destruct (decide (t = c)) as [<-|Hne].
      * rewrite lookup_insert_eq. by eexists.
      * rewrite lookup_insert_ne by done. by eexists.
    + intros u thu [[<- <-]|[Hne Hu]]%lookup_insert_Some Hs; [done|].
      destruct (C2 u thu Hu Hs) as [? Hul]. split; [done|].
      intros h [Hin _]%elem_of_list_remove. by apply (Hul h).
Qed.

Lemma unlink_ready x t th s :
  ready_inv x s -> k_threads s !! t = Some th -> tstat th ≠ RT_THREAD_READY ->
  ready_inv x (set_k_tlist (list_remove t) s).
Proof.
  intros [H1 H2 H3 H4 H5 H6] Ht Hs.
  assert (Hid : forall p, list_remove t (k_tlist s) (LReady p) = k_tlist s (LReady p)).
  { intros p. apply list_remove_unlinked_id. intros Hin.
    destruct (H3 p t Hin) as (th' & ? & ? & _). by simplify_eq. }
  split; simpl; [by apply wf_list_remove|done| | |done|].
  - intros p u. rewrite Hid. apply H3.
  - intros u thu. rewrite Hid. apply H4.
  - intros p Hp. rewrite Hid. by apply H6.
Qed.

(** [t] leaves the list it waits on and becomes ready, or goes on running if it is the
    current thread. *)
Definition wake (t : tid) (th : rt_thread) (s : kstate) : kstate :=
  let s := set_k_tlist (list_remove t) s in
  if bool_decide (k_current s = Some t)
  then set_k_threads <[t := set_th_stat (with_stat RT_THREAD_RUNNING) th]> s
  else insert_ready t th s.

Lemma wake_sched t th s :
  sched_inv s -> k_threads s !! t = Some th -> tstat th = RT_THREAD_SUSPEND ->
  sched_inv (wake t th s).
Proof.
  intros [Hr [C1 C2]] Ht Hs.
  assert (Hr1 : ready_inv None (set_k_tlist (list_remove t) s)).
  { eapply unlink_ready; [done|done|]. by rewrite Hs. }
  assert (Hul : unlinked t (list_remove t (k_tlist s))) by apply list_remove_unlinked.
  assert (Hok : forall v, 0 <= v < 8 -> th_ok (set_th_stat (with_stat v) th)).
  { intros v Hv. pose proof (ri_ok _ _ Hr _ _ Ht) as Hok. apply th_ok_stat; [done| |by rewrite Hs].
    apply with_stat_range; [done|apply Hok]. }
  unfold wake. simpl. case_bool_decide as Hc; split.
  - apply (ready_inv_upd None); [done|by apply Hok|intros p; apply Hul| |by left].
    by rewrite tstat_with.
  - split; simpl.
    + intros c Hc'. simplify_eq. exists (set_th_stat (with_stat RT_THREAD_RUNNING) th).
      by rewrite lookup_insert_eq, tstat_with.
    + intros u thu [[<- <-]|[Hne Hu]]%lookup_insert_Some Hsu; [done|].
      destruct (C2 u thu Hu Hsu). congruence.
  - apply ready_inv_insert; [by apply ready_inv_weaken|done|done|by rewrite Hs].
  - split; simpl.
    + intros c Hc'. destruct (C1 c Hc') as (thc & ? & ? & ?). exists thc.
      by rewrite lookup_insert_ne by congruence.
    + intros u thu [[<- <-]|[Hne Hu]]%lookup_insert_Some Hsu; [by rewrite tstat_with in Hsu|].
      destruct (C2 u thu Hu Hsu) as [? Hulu]. split; [done|].
      intros h. unfold list_insert_before.
      destruct (decide (LReady (th_current_priority th) = h)) as [<-|].
      * rewrite insert_eq. intros [Hin|Hin]%elem_of_app; [|by apply list_elem_of_singleton in Hin].
        apply elem_of_list_remove in Hin as [Hin _]. by destruct (Hulu (LReady (th_current_priority th))).
      * rewrite insert_ne by done. intros [Hin _]%elem_of_list_remove. by destruct (Hulu h).
Qed.

Lemma wp_insert_wake t th (Q : unit -> kstate -> Prop) s s0 :
  k_threads s !! t = Some th -> th_ok th ->
  s = set_k_tlist (list_remove t) s0 -> Q tt (wake t th s0) ->
  wp (rt_schedule_insert_thread t) Q s.
Proof.
  intros Ht Hok -> HQ. unfold wake in HQ. apply wp_unfold.
  case_bool_decide as Hc; eexists _, _; split; [|exact HQ| |exact HQ].
  - by apply rt_schedule_insert_current_eq.
  - by apply rt_schedule_insert_thread_eq.
Qed.

(** ** Frame rules for the kernel invariant *)

Lemma frame_lookup s s' t th' :
  frame s s' -> k_threads s' !! t = Some th' ->
  exists th, k_threads s !! t = Some th /\ strip th' = strip th.
Proof.
  intros [_ Hs _] Ht. apply (f_equal (lookup t)) in Hs. unfold stripped in Hs.
  rewrite !lookup_fmap, Ht in Hs. destruct (k_threads s !! t) as [th|]; [|done].
  exists th. split; [done|]. simpl in Hs. congruence.
Qed.

Lemma frame_sym s s' : frame s s' -> frame s' s.
Proof. intros [H1 H2 H3]. split; [done|done|]. intros. symmetry. by apply H3. Qed.

Lemma strip_stat th th' : strip th' = strip th -> stat_class (tstat th') = stat_class (tstat th).
Proof. intros E. by apply (f_equal th_stat) in E. Qed.

Lemma strip_same_stat v th th' :
  strip th' = strip th -> v ≠ RT_THREAD_READY -> v ≠ RT_THREAD_RUNNING ->
  (tstat th' = v <-> tstat th = v).
Proof.
  intros E%strip_stat H1 H2. unfold stat_class in E.
  destruct (Z.eqb_spec (tstat th') RT_THREAD_RUNNING), (Z.eqb_spec (tstat th) RT_THREAD_RUNNING);
    split; congruence.
Qed.

Lemma thread_live_ext t s s' :
  k_obj s' = k_obj s -> k_timers s' = k_timers s -> thread_live t s -> thread_live t s'.
Proof. intros E1 E2. unfold thread_live. by rewrite E1, E2. Qed.

(** A change to the scheduler's part of the state. *)
Lemma kinv_sched_change s s' :
  kinv s -> sched_inv s' -> k_obj s' = k_obj s -> k_containers s' = k_containers s ->
  k_timers s' = k_timers s -> k_trow s' = k_trow s ->
  (forall t th', k_threads s' !! t = Some th' -> tstat th' ≠ RT_THREAD_CLOSE ->
     exists th, k_threads s !! t = Some th /\ tstat th ≠ RT_THREAD_CLOSE) ->
  (forall t th h, k_threads s !! t = Some th -> tstat th = RT_THREAD_SUSPEND ->
     h = TLHard \/ h = TLSoft -> TThread t ∈ k_trow s h ->
     exists th', k_threads s' !! t = Some th' /\ tstat th' = RT_THREAD_SUSPEND) ->
  kinv s'.
Proof.
  intros [H1 H2 H3 H4 H5] Hi E1 E2 E3 E4 Hl Hs. split; [done| | | |].
  - by eapply obj_inv_ext.
  - by eapply timer_inv_ext.
  - intros t th' Ht Hc. destruct (Hl t th' Ht Hc) as (th & Ht' & Hc').
    eapply thread_live_ext; [done|done|]. by eapply H4.
  - intros t h Hh. rewrite E4. intros Hin. destruct (H5 t h Hh Hin) as (th & Ht & Hst). by eapply Hs.
Qed.

Lemma frame_rest s s' :
  frame s s' -> k_obj s' = k_obj s /\ k_containers s' = k_containers s /\
    k_timers s' = k_timers s /\ k_trow s' = k_trow s /\ k_lock_nest s' = k_lock_nest s /\
    k_irq_nest s' = k_irq_nest s /\ k_tick s' = k_tick s.
Proof. intros [Hr _ _]. unfold rest in Hr. by simplify_eq. Qed.

Lemma kinv_frame s s' : kinv s -> frame s s' -> sched_inv s' -> kinv s'.
Proof.
  intros Hk Hf Hi. destruct (frame_rest _ _ Hf) as (? & ? & ? & ? & _).
  eapply kinv_sched_change; try done.
  - intros t th' Ht Hc. destruct (frame_lookup _ _ _ _ Hf Ht) as (th & Ht' & E).
    exists th. split; [done|]. by rewrite <- (strip_same_stat RT_THREAD_CLOSE _ _ E).
  - intros t th h Ht Hs _ _.
    destruct (frame_lookup _ _ _ _ (frame_sym _ _ Hf) Ht) as (th' & Ht' & E).
    exists th'. split; [done|]. by rewrite <- (strip_same_stat RT_THREAD_SUSPEND _ _ E).
Qed.

Lemma kinv_ext s s' :
  kinv s -> k_threads s' = k_threads s -> k_tlist s' = k_tlist s -> k_group s' = k_group s ->
  k_current s' = k_current s -> k_obj s' = k_obj s -> k_containers s' = k_containers s ->
  k_timers s' = k_timers s -> k_trow s' = k_trow s -> kinv s'.
Proof.
  intros Hk E1 E2 E3 E4 E5 E6 E7 E8. eapply kinv_sched_change; try done.
  - eapply sched_inv_ext; [..|apply Hk]; done.
  - rewrite E1. eauto.
  - rewrite E1. eauto.
Qed.

Lemma wp_rt_schedule_k s :
  kinv s -> is_Some (k_current s) ->
  wp rt_schedule (fun _ s' => kinv s' /\ frame s s' /\ is_Some (k_current s')) s.
Proof.
  intros Hk Hc. eapply wp_mono, wp_rt_schedule; [|apply Hk|done].
  intros _ s' (Hi & Hf & Hc'). split; [by eapply kinv_frame|done].
Qed.

(** ** Suspension and resumption *)

Lemma obj_inv_upd o x x' s :
  obj_inv s -> k_obj s !! o = Some x -> class_of x' = class_of x ->
  obj_inv (set_k_obj <[o := x']> s).
Proof.
  intros [H1 H2] Hx Hc. split; simpl; [done|]. intros i p Hin.
  destruct (H2 i p Hin) as (y & Hy & Hi). destruct (decide (p = o)) as [->|Hne].
  - rewrite lookup_insert_eq. exists x'. split; [done|]. unfold class_of in Hc. simplify_eq. congruence.
  - rewrite lookup_insert_ne by done. eauto.
Qed.

(** Timer [tm] after [rt_timer_stop]. *)
Definition stopped (tm : tmid) (s : kstate) : kstate :=
  match k_obj s !! OTimer tm with
  | Some o => if active o then stop_timer tm o s else s
  | None => s
  end.

Lemma thread_live_upd_timer t u o o' s :
  k_obj s !! OTimer u = Some o -> o_type o' = o_type o -> soft o' = soft o -> periodic o' = periodic o ->
  thread_live t s -> thread_live t (set_k_obj <[OTimer u := o']> s).
Proof.
  intros Ho Ht Hs Hp (x & xt & v & H1 & H2 & H3 & H4 & H5 & H6 & H7 & H8 & H9).
  destruct (decide (u = TThread t)) as [->|Hne].
  - simplify_eq. exists x, o', v. simpl. rewrite lookup_insert_ne, lookup_insert_eq by done.
    unfold class_of. rewrite Ht, Hs, Hp. done.
  - exists x, xt, v. simpl. rewrite !lookup_insert_ne by congruence. done.
Qed.

Lemma kinv_stopped tm o s :
  kinv s -> k_obj s !! OTimer tm = Some o -> class_of o = RT_Object_Class_Timer ->
  kinv (stopped tm s) /\ (forall h, h = TLHard \/ h = TLSoft -> tm ∉ k_trow (stopped tm s) h).
Proof.
  intros [H1 H2 H3 H4 H5] Ho Hc. pose proof (timer_stopped s tm o H3 Ho Hc) as [Hi Hoff].
  unfold stopped. rewrite Ho. destruct (active o) eqn:Ea; [|done]. split; [|done].
  pose proof (clear_active_flags o) as (_ & Hp & Hs & Hcl).
  split; [by eapply sched_inv_ext; [..|exact H1]| |done| |].
  - apply (obj_inv_ext (set_k_obj <[OTimer tm := clear_active o]> s)); [done|done|]. by eapply obj_inv_upd.
  - intros t th Ht Hcl'.
    apply (thread_live_ext t (set_k_obj <[OTimer tm := clear_active o]> s)); [done|done|].
    eapply thread_live_upd_timer; [done..|]. by eapply H4.
  - intros t h Hh [Hin _]%elem_of_list_remove. by eapply H5.
Qed.

Lemma thread_timer t s :
  thread_live t s -> timer_live (TThread t) s /\
  exists o, k_obj s !! OTimer (TThread t) = Some o /\ class_of o = RT_Object_Class_Timer.
Proof.
  intros (x & xt & v & H1 & H2 & H3 & H4 & H5 & H6 & H7 & H8 & H9).
  split; [by exists xt, v|by exists xt].
Qed.

Lemma wp_timer_stop_thread t (Q : Z -> kstate -> Prop) s :
  thread_live t s -> (forall r, Q r (stopped (TThread t) s)) -> wp (rt_timer_stop (TThread t)) Q s.
Proof.
  intros (Hl & o & Ho & Hc)%thread_timer HQ. eapply wp_rt_timer_stop; [done|done|].
  specialize (HQ (if active o then RT_EOK else - RT_ERROR)). unfold stopped in HQ.
  by rewrite Ho in HQ.
Qed.

Lemma wp_is_thread t (Q : unit -> kstate -> Prop) s :
  thread_live t s -> Q tt s -> wp (is_thread t) Q s.
Proof.
  intros (x & xt & v & Hx & Hc & _) HQ. unfold is_thread, rt_object_get_type. rewrite !wp_bind.
  eapply wp_get_obj; [done|]. repeat wp_step; [|done]. by apply Z.eqb_eq.
Qed.

Lemma kinv_live s t th :
  kinv s -> k_threads s !! t = Some th -> tstat th ≠ RT_THREAD_CLOSE -> thread_live t s.
Proof. intros Hk. by apply (ki_live _ Hk). Qed.

Lemma kinv_th_ok s t th : kinv s -> k_threads s !! t = Some th -> th_ok th.
Proof. intros Hk. apply (ri_ok None). apply Hk. Qed.

Lemma park_kinv t th f s :
  kinv s -> k_threads s !! t = Some th -> stat_class (tstat th) = RT_THREAD_READY ->
  th_ok (set_th_stat f th) ->
  tstat (set_th_stat f th) = RT_THREAD_SUSPEND -> kinv (park t th f s).
Proof.
  intros Hk Ht Hc Hok Hv.
  assert (Hn : tstat th ≠ RT_THREAD_INIT /\ tstat th ≠ RT_THREAD_CLOSE /\ tstat th ≠ RT_THREAD_SUSPEND).
  { unfold stat_class in Hc. destruct (Z.eqb_spec (tstat th) RT_THREAD_RUNNING) as [E|E]; rewrite ?E, ?Hc; done. }
  destruct Hn as (Hn1 & Hn2 & Hn3).
  eapply kinv_sched_change; [exact Hk| |done..| |].
  - apply park_sched; [apply Hk|done|done|done|]. simpl. by rewrite Hv.
  - intros u thu Hu Hcl. simpl in Hu. apply lookup_insert_Some in Hu as [[<- <-]|[Hne Hu]]; eauto.
  - intros u thu h Hu Hs _ _. simpl. rewrite lookup_insert_ne by congruence. eauto.
Qed.

(** The state after a thread is suspended. *)
Definition suspended (t : tid) (th : rt_thread) (s : kstate) : kstate :=
  stopped (TThread t) (park t th (with_stat RT_THREAD_SUSPEND) s).

Lemma wp_rt_thread_suspend t th (Q : Z -> kstate -> Prop) s :
  kinv s -> k_threads s !! t = Some th -> tstat th ≠ RT_THREAD_CLOSE ->
  (if bool_decide (stat_class (tstat th) = RT_THREAD_READY)
   then kinv (suspended t th s) -> Q RT_EOK (suspended t th s) else Q (- RT_ERROR) s) ->
  wp (rt_thread_suspend t) Q s.
Proof.
  intros Hk Ht Hc HQ. pose proof (kinv_live _ _ _ Hk Ht Hc) as Hl.
  unfold rt_thread_suspend. rewrite wp_bind. apply wp_is_thread; [done|].
  rewrite wp_bind. eapply wp_get_thread; [done|]. fold (tstat th).
  assert (Hb : negb (tstat th =? RT_THREAD_READY) && negb (tstat th =? RT_THREAD_RUNNING) =
               negb (bool_decide (stat_class (tstat th) = RT_THREAD_READY))).
  { unfold stat_class. destruct (Z.eqb_spec (tstat th) RT_THREAD_RUNNING) as [E|E].
    - by rewrite E.
    - by destruct (Z.eqb_spec (tstat th) RT_THREAD_READY);
        [rewrite bool_decide_eq_true_2|rewrite bool_decide_eq_false_2]. }
  rewrite Hb. case_bool_decide as Hcl; simpl; [|done]. clear Hb.
  pose proof (kinv_th_ok _ _ _ Hk Ht) as Hok.
  assert (Hok' : th_ok (set_th_stat (with_stat RT_THREAD_SUSPEND) th)).
  { apply th_ok_stat; [done|apply with_stat_range; [done|apply Hok]|].
    intros _. split; intros E; rewrite E in Hcl; done. }
  assert (Hkp : kinv (park t th (with_stat RT_THREAD_SUSPEND) s)).
  { apply park_kinv; [done..|by apply tstat_with]. }
  unfold rt_thread_self. repeat wp_step.
  { apply bool_decide_eq_true. apply running_current with th; [apply Hk|done|]. by apply Z.eqb_eq. }
  all: apply wp_unfold; do 2 eexists; split; [by apply rt_schedule_remove_thread_eq|].
  all: repeat wp_step; eapply wp_upd_thread; [done|]; repeat wp_step; apply wp_timer_stop_thread;
    [by eapply thread_live_ext; [..|exact Hl]|].
  all: intros _; apply HQ; destruct (thread_timer _ _ Hl) as (_ & o & Ho & Hco).
  all: by eapply kinv_stopped.
Qed.

Lemma stopped_tlist tm f s : stopped tm (set_k_tlist f s) = set_k_tlist f (stopped tm s).
Proof. unfold stopped. simpl. destruct (k_obj s !! OTimer tm) as [o|]; [|done]. by destruct (active o). Qed.

Lemma stopped_threads tm s : k_threads (stopped tm s) = k_threads s.
Proof. unfold stopped. destruct (k_obj s !! OTimer tm) as [o|]; [|done]. by destruct (active o). Qed.

Lemma stopped_current tm s : k_current (stopped tm s) = k_current s.
Proof. unfold stopped. destruct (k_obj s !! OTimer tm) as [o|]; [|done]. by destruct (active o). Qed.

Lemma wake_threads t th s :
  exists v, k_threads (wake t th s) = <[t := set_th_stat (with_stat v) th]> (k_threads s) /\
    0 <= v < 8 /\ stat_class v = RT_THREAD_READY.
Proof. unfold wake. simpl. case_bool_decide; by eexists. Qed.

Lemma wake_current t th s : k_current (wake t th s) = k_current s.
Proof. unfold wake. simpl. by case_bool_decide. Qed.

Lemma wake_kinv t th s :
  kinv s -> k_threads s !! t = Some th -> tstat th = RT_THREAD_SUSPEND ->
  (forall h, h = TLHard \/ h = TLSoft -> TThread t ∉ k_trow s h) -> kinv (wake t th s).
Proof.
  intros Hk Ht Hs Hoff.
  pose proof (wake_sched t th s (ki_sched _ Hk) Ht Hs) as Hi.
  pose proof (wake_threads t th s) as (v & Hth & _).
  eapply kinv_sched_change; [exact Hk|done|unfold wake; simpl; by case_bool_decide..| |].
  - intros u thu. rewrite Hth. intros [[<- <-]|[Hne Hu]]%lookup_insert_Some Hcl; [|eauto].
    exists th. by rewrite Hs.
  - intros u thu h Hu Hsu Hh Hin. rewrite Hth.
    destruct (decide (t = u)) as [<-|Hne]; [by destruct (Hoff h Hh)|].
    rewrite lookup_insert_ne by done. eauto.
Qed.

(** The state after a suspended thread is resumed. *)
Definition resumed (t : tid) (th : rt_thread) (s : kstate) : kstate :=
  wake t th (stopped (TThread t) s).

Lemma wp_rt_thread_resume t th (Q : Z -> kstate -> Prop) s :
  kinv s -> k_threads s !! t = Some th -> tstat th ≠ RT_THREAD_CLOSE ->
  (if bool_decide (tstat th = RT_THREAD_SUSPEND)
   then kinv (resumed t th s) -> Q RT_EOK (resumed t th s) else Q (- RT_ERROR) s) ->
  wp (rt_thread_resume t) Q s.
Proof.
  intros Hk Ht Hc HQ. pose proof (kinv_live _ _ _ Hk Ht Hc) as Hl.
  unfold rt_thread_resume. rewrite wp_bind. apply wp_is_thread; [done|].
  rewrite wp_bind. eapply wp_get_thread; [done|]. fold (tstat th).
  destruct (Z.eqb_spec (tstat th) RT_THREAD_SUSPEND) as [E|E]; simpl.
  2: { rewrite bool_decide_eq_false_2 in HQ by done. done. }
  rewrite bool_decide_eq_true_2 in HQ by done.
  unfold tlist_modify. repeat wp_step. apply wp_timer_stop_thread.
  { by eapply thread_live_ext; [..|exact Hl]. }
  intros _. rewrite stopped_tlist. rewrite wp_bind.
  destruct (thread_timer _ _ Hl) as (_ & o & Ho & Hco).
  destruct (kinv_stopped _ _ _ Hk Ho Hco) as [Hk' Hoff].
  eapply wp_insert_wake; [simpl; by rewrite stopped_threads|exact (kinv_th_ok _ _ _ Hk Ht)|done|].
  repeat wp_step. apply HQ. apply wake_kinv; [done|by rewrite stopped_threads|done|done].
Qed.

(** ** Start, yield, timeout *)

(** Rewriting fields of a thread block that no invariant reads. *)
Lemma kinv_upd_same t th th' s :
  kinv s -> k_threads s !! t = Some th -> th_ok th' -> tstat th' = tstat th ->
  th_current_priority th' = th_current_priority th ->
  kinv (set_k_threads <[t := th']> s).
Proof.
  intros Hk Ht Hok Hst Hp. eapply kinv_sched_change; [exact Hk| |done..| |].
  - by eapply sched_inv_upd_same; [apply Hk|..].
  - intros u thu. simpl. intros [[<- <-]|[Hne Hu]]%lookup_insert_Some Hcl; [|eauto].
    exists th. by rewrite <- Hst.
  - intros u thu h Hu Hsu _ _. simpl. destruct (decide (t = u)) as [<-|Hne].
    + rewrite lookup_insert_eq. exists th'. simplify_eq. by rewrite Hst.
    + rewrite lookup_insert_ne by done. eauto.
Qed.

Lemma wp_rt_thread_timeout t th s :
  kinv s -> is_Some (k_current s) -> k_threads s !! t = Some th -> tstat th = RT_THREAD_SUSPEND ->
  (forall h, h = TLHard \/ h = TLSoft -> TThread t ∉ k_trow s h) ->
  wp (rt_thread_timeout t) (fun _ s' => kinv s' /\ is_Some (k_current s') /\
    exists th', k_threads s' !! t = Some th' /\ th_error th' = - RT_ETIMEOUT /\
                stat_class (tstat th') = RT_THREAD_READY /\
                k_trow s' = k_trow s /\ k_obj s' = k_obj s /\ k_timers s' = k_timers s /\
                k_containers s' = k_containers s /\ k_tick s' = k_tick s) s.
Proof.
  intros Hk Hcur Ht Hs Hoff. assert (Hc : tstat th ≠ RT_THREAD_CLOSE) by (by rewrite Hs).
  pose proof (kinv_live _ _ _ Hk Ht Hc) as Hl.
  unfold rt_thread_timeout. rewrite wp_bind. eapply wp_get_thread; [done|].
  repeat wp_step; [by apply Z.eqb_eq|]. apply wp_is_thread; [done|].
  repeat wp_step. eapply wp_upd_thread; [done|]. unfold tlist_modify. repeat wp_step.
  set (th1 := set_th_error (fun _ => - RT_ETIMEOUT) th).
  set (s1 := set_k_threads <[t := th1]> s).
  assert (Hok1 : th_ok th1) by (pose proof (kinv_th_ok _ _ _ Hk Ht) as []; by split).
  assert (Hk1 : kinv s1) by (by eapply kinv_upd_same).
  assert (Ht1 : k_threads s1 !! t = Some th1) by apply lookup_insert_eq.
  eapply wp_insert_wake; [exact Ht1|done|done|].
  assert (Hk2 : kinv (wake t th1 s1)) by (by apply wake_kinv).
  eapply wp_mono, wp_rt_schedule_k; [|done|by rewrite wake_current].
  intros _ s' (Hk' & Hf & Hc'). split; [done|]. split; [done|].
  pose proof (wake_threads t th1 s1) as (v & Hth & Hv & Hvc).
  destruct (frame_lookup _ _ t (set_th_stat (with_stat v) th1) (frame_sym _ _ Hf))
    as (th' & Ht' & E); [by rewrite Hth, lookup_insert_eq|].
  exists th'. split; [done|]. split; [by apply (f_equal th_error) in E|].
  split; [|].
  - apply strip_stat in E. by rewrite <- E, tstat_with.
  - destruct (frame_rest _ _ Hf) as (-> & -> & -> & -> & _ & _ & ->).
    unfold wake. simpl. by destruct (bool_decide _).
Qed.

(** Replacing the block of a thread that is on no ready queue. *)
Lemma sched_inv_replace t th' s :
  sched_inv s -> (forall p, t ∉ k_tlist s (LReady p)) -> th_ok th' ->
  tstat th' ≠ RT_THREAD_READY -> tstat th' ≠ RT_THREAD_RUNNING ->
  (tstat th' = RT_THREAD_INIT -> k_current s ≠ Some t) ->
  sched_inv (set_k_threads <[t := th']> s).
Proof.
  intros [Hr [C1 C2]] Hoff Hok H1 H2 H3. split.
  - apply (ready_inv_upd None); [done|done|done|done|by left].
  - split; simpl.
    + intros c Hc. destruct (decide (t = c)) as [<-|Hne].
      * rewrite lookup_insert_eq. exists th'. split; [done|]. split; [done|]. intros E. by apply H3.
      * rewrite lookup_insert_ne by done. by apply C1.
    + intros u thu [[<- <-]|[Hne Hu]]%lookup_insert_Some Hs; [done|by eapply C2].
Qed.

Lemma off_ready s t th p :
  sched_inv s -> k_threads s !! t = Some th -> tstat th ≠ RT_THREAD_READY ->
  t ∉ k_tlist s (LReady p).
Proof.
  intros [Hr _] Ht Hs Hin. destruct (ri_ready _ _ Hr _ _ Hin) as (th' & ? & ? & _). by simplify_eq.
Qed.

Lemma wp_priority_mask p (Q : Z -> kstate -> Prop) s :
  0 <= p < RT_THREAD_PRIORITY_MAX -> Q (2 ^ p) s -> wp (priority_mask p) Q s.
Proof.
  intros Hp HQ. unfold priority_mask, priority_index. repeat wp_step; [by apply priority_index_ok|].
  unfold RT_THREAD_PRIORITY_MAX in Hp. rewrite Z.shiftl_1_l, wrap_small; [done|].
  apply pow2_bound. lia.
Qed.

(** The thread block [rt_thread_startup] hands to [rt_thread_resume]. *)
Definition starting (th : rt_thread) : rt_thread :=
  set_th_stat (fun _ => RT_THREAD_SUSPEND) (set_th_number_mask (fun _ => 2 ^ th_init_priority th)
    (set_th_current_priority (fun _ => th_init_priority th) th)).

Lemma starting_ok th : th_ok th -> th_ok (starting th) /\ tstat (starting th) = RT_THREAD_SUSPEND.
Proof. intros [H1 H2 H3 H4]. split; [split; done|done]. Qed.

Lemma kinv_starting t th s :
  kinv s -> k_threads s !! t = Some th -> tstat th = RT_THREAD_INIT ->
  kinv (set_k_threads <[t := starting th]> s).
Proof.
  intros Hk Ht Hs. destruct (starting_ok th (kinv_th_ok _ _ _ Hk Ht)) as [Hok Hst].
  eapply kinv_sched_change; [exact Hk| |done..| |].
  - apply sched_inv_replace; [apply Hk| |done|by rewrite Hst..].
    intros p. eapply off_ready; [apply Hk|done|by rewrite Hs].
  - intros u thu. simpl. intros [[<- <-]|[Hne Hu]]%lookup_insert_Some Hcl; [|eauto].
    exists th. by rewrite Hs.
  - intros u thu h Hu Hsu _ _. simpl. rewrite lookup_insert_ne by (intros <-; simplify_eq; by rewrite Hs in Hsu). eauto.
Qed.

Lemma wp_rt_thread_startup t th s :
  kinv s -> k_threads s !! t = Some th -> tstat th = RT_THREAD_INIT ->
  wp (rt_thread_startup t) (fun r s' => r = RT_EOK /\ kinv s' /\
    exists th', k_threads s' !! t = Some th' /\ stat_class (tstat th') = RT_THREAD_READY /\
                th_current_priority th' = th_init_priority th) s.
Proof.
  intros Hk Ht Hs. assert (Hc : tstat th ≠ RT_THREAD_CLOSE) by (by rewrite Hs).
  pose proof (kinv_live _ _ _ Hk Ht Hc) as Hl. pose proof (kinv_th_ok _ _ _ Hk Ht) as Hok.
  set (s1 := set_k_threads <[t := starting th]> s).
  assert (Hk1 : kinv s1) by (by apply kinv_starting).
  assert (Ht1 : k_threads s1 !! t = Some (starting th)) by apply lookup_insert_eq.
  unfold rt_thread_startup. rewrite wp_bind. eapply wp_get_thread; [done|].
  repeat wp_step; [by apply Z.eqb_eq|]. apply wp_is_thread; [done|].
  repeat wp_step. eapply wp_upd_thread; [done|]. repeat wp_step. apply wp_priority_mask; [apply Hok|].
  repeat wp_step. eapply wp_upd_thread; [apply lookup_insert_eq|].
  repeat wp_step. eapply wp_upd_thread; [apply lookup_insert_eq|]. repeat wp_step.
  match goal with |- wp _ _ ?s2 => assert (s2 = s1) as -> end.
  { unfold s1, set_k_threads. cbn. by rewrite !insert_insert_eq. }
  eapply wp_rt_thread_resume; [done|exact Ht1|done|].
  rewrite bool_decide_eq_true_2 by done. intros Hk2. unfold rt_thread_self. repeat wp_step.
  - match goal with H : bool_decide _ = true |- _ => apply bool_decide_eq_true in H; rename H into Hcur end.
    eapply wp_mono, wp_rt_schedule_k; [|done|done].
    intros _ s' (Hk' & Hf & _). repeat wp_step. split; [done|]. split; [done|].
    pose proof (wake_threads t (starting th) (stopped (TThread t) s1)) as (v & Hth & Hv & Hvc).
    destruct (frame_lookup _ _ t (set_th_stat (with_stat v) (starting th)) (frame_sym _ _ Hf))
      as (th' & Ht' & E); [unfold resumed; by rewrite Hth, lookup_insert_eq|].
    exists th'. split; [done|].
    split.
    + apply strip_stat in E. by rewrite <- E, tstat_with.
    + by apply (f_equal th_current_priority) in E.
  - split; [done|]. split; [done|].
    pose proof (wake_threads t (starting th) (stopped (TThread t) s1)) as (v & Hth & Hv & Hvc).
    exists (set_th_stat (with_stat v) (starting th)). unfold resumed. rewrite Hth, lookup_insert_eq.
    by rewrite tstat_with.
Qed.

Lemma wp_rt_thread_yield s c th :
  kinv s -> k_current s = Some c -> k_threads s !! c = Some th ->
  wp rt_thread_yield (fun r s' => r = RT_EOK /\ kinv s' /\ is_Some (k_current s')) s.
Proof.
  intros Hk Hc Ht. pose proof (kinv_th_ok _ _ _ Hk Ht) as [H1 H2 H3 H4].
  unfold rt_thread_yield. rewrite wp_bind. eapply wp_self; [done|]. repeat wp_step.
  eapply wp_upd_thread; [done|]. repeat wp_step. eapply wp_upd_thread; [apply lookup_insert_eq|].
  repeat wp_step. eapply wp_mono, wp_rt_schedule_k.
  - intros _ s' (Hk' & _ & Hc'). repeat wp_step. done.
  - set (th1 := set_th_remaining_tick (fun _ => th_init_tick th) th).
    apply (kinv_ext (set_k_threads <[c := set_th_stat (fun st => Z.lor st RT_THREAD_STAT_YIELD) th1]> s));
      try done; [|cbn; by rewrite insert_insert_eq].
    eapply kinv_upd_same; [done|done| |apply stat_set_yield|done].
    split; simpl; [apply (lor_bound 8); done|done|done|].
    intros Hst. apply H4. revert Hst. unfold tstat. simpl. by rewrite stat_set_yield.
  - done.
Qed.

(** ** Changing the priority *)

Definition with_priority (p : Z) (th : rt_thread) : rt_thread :=
  set_th_number_mask (fun _ => 2 ^ p) (set_th_current_priority (fun _ => p) th).

Lemma with_priority_ok p th :
  th_ok th -> 0 <= p < RT_THREAD_PRIORITY_MAX -> th_ok (with_priority p th).
Proof. intros [H1 H2 H3 H4] Hp. by split. Qed.

(** The state after the priority of [t] is changed. *)
Definition reprioritised (t : tid) (th : rt_thread) (p : Z) (s : kstate) : kstate :=
  if tstat th =? RT_THREAD_READY
  then insert_ready t (with_priority p th)
         (set_k_threads <[t := with_priority p th]> (remove_ready t th s))
  else set_k_threads <[t := with_priority p th]> s.

Lemma reprioritised_sched t th p s :
  sched_inv s -> k_threads s !! t = Some th -> 0 <= p < RT_THREAD_PRIORITY_MAX ->
  sched_inv (reprioritised t th p s).
Proof.
  intros Hi Ht Hp. pose proof Hi as [Hr [C1 C2]].
  pose proof (with_priority_ok p th (ri_ok _ _ Hr _ _ Ht) Hp) as Hok.
  unfold reprioritised. destruct (Z.eqb_spec (tstat th) RT_THREAD_READY) as [Hs|Hs].
  - assert (Hst : started (tstat th)) by (by rewrite Hs).
    set (s1 := set_k_threads <[t := with_priority p th]> (remove_ready t th s)).
    assert (Hr1 : ready_inv (Some t) s1).
    { apply (ready_inv_upd (Some t)); [by apply ready_inv_remove with None; auto|done| |done|by left].
      intros q. apply remove_ready_off. }
    assert (Hul : unlinked t (k_tlist s1)) by apply list_remove_unlinked.
    split; [apply ready_inv_insert; [done|apply lookup_insert_eq|done|done]|].
    split; simpl.
    + intros c Hc. destruct (C1 c Hc) as (thc & Hthc & ? & ?). exists thc.
      by rewrite !lookup_insert_ne by congruence.
    + rewrite insert_insert_eq. intros u thu [[<- <-]|[Hne Hu]]%lookup_insert_Some Hsu;
        [by rewrite tstat_with in Hsu|].
      destruct (C2 u thu Hu Hsu) as [? Hulu]. split; [done|].
      intros h. unfold list_insert_before.
      destruct (decide (LReady p = h)) as [<-|].
      * rewrite insert_eq. intros [Hin|Hin]%elem_of_app; [|by apply list_elem_of_singleton in Hin].
        apply elem_of_list_remove in Hin as [Hin _]. by destruct (Hulu (LReady p)).
      * rewrite insert_ne by done. intros [Hin _]%elem_of_list_remove. by destruct (Hulu h).
  - split.
    + apply (ready_inv_upd None); [done|done| |done|by left].
      intros q. by eapply off_ready.
    + split; simpl.
      * intros c Hc. destruct (C1 c Hc) as (thc & Hthc & ? & ?).
        destruct (decide (t = c)) as [<-|Hne]; [|rewrite lookup_insert_ne; eauto].
        rewrite lookup_insert_eq. simplify_eq. by exists (with_priority p th).
      * intros u thu [[<- <-]|[Hne Hu]]%lookup_insert_Some Hsu; by eapply C2.
Qed.

Lemma reprioritised_threads t th p s :
  k_threads s !! t = Some th ->
  exists th', k_threads (reprioritised t th p s) = <[t := th']> (k_threads s) /\
    tstat th' = tstat th /\ th_current_priority th' = p.
Proof.
  intros Ht. unfold reprioritised. destruct (Z.eqb_spec (tstat th) RT_THREAD_READY) as [Hs|Hs].
  - exists (set_th_stat (with_stat RT_THREAD_READY) (with_priority p th)). simpl.
    rewrite insert_insert_eq, tstat_with, Hs by done. done.
  - by exists (with_priority p th).
Qed.

Lemma reprioritised_kinv t th p s :
  kinv s -> k_threads s !! t = Some th -> 0 <= p < RT_THREAD_PRIORITY_MAX ->
  kinv (reprioritised t th p s).
Proof.
  intros Hk Ht Hp. destruct (reprioritised_threads t th p s Ht) as (th' & Hth & Hst & _).
  eapply kinv_sched_change; [exact Hk|by apply reprioritised_sched; [apply Hk|..]
    |unfold reprioritised; by case_match..| |].
  - intros u thu. rewrite Hth. intros [[<- <-]|[Hne Hu]]%lookup_insert_Some Hcl; [|eauto].
    exists th. by rewrite <- Hst.
  - intros u thu h Hu Hsu _ _. rewrite Hth. destruct (decide (t = u)) as [<-|Hne].
    + rewrite lookup_insert_eq. exists th'. simplify_eq. by rewrite Hst.
    + rewrite lookup_insert_ne by done. eauto.
Qed.

Lemma wp_change_priority t th p (Q : Z -> kstate -> Prop) s :
  kinv s -> k_threads s !! t = Some th -> tstat th ≠ RT_THREAD_CLOSE ->
  0 <= p < RT_THREAD_PRIORITY_MAX ->
  (kinv (reprioritised t th p s) -> Q RT_EOK (reprioritised t th p s)) ->
  wp (rt_thread_control t RT_THREAD_CTRL_CHANGE_PRIORITY (Some p)) Q s.
Proof.
  intros Hk Ht Hc Hp HQ. specialize (HQ (reprioritised_kinv _ _ _ _ Hk Ht Hp)).
  pose proof (kinv_live _ _ _ Hk Ht Hc) as Hl. pose proof (kinv_th_ok _ _ _ Hk Ht) as Hok.
  unfold rt_thread_control. rewrite wp_bind. apply wp_is_thread; [done|].
  rewrite Z.eqb_refl, wp_bind. eapply wp_get_thread; [done|]. fold (tstat th).
  unfold reprioritised in HQ. destruct (Z.eqb_spec (tstat th) RT_THREAD_READY) as [Hs|Hs].
  - rewrite !wp_bind. apply wp_unfold. do 2 eexists. split; [by apply rt_schedule_remove_thread_eq|].
    repeat wp_step; [done|]. eapply wp_upd_thread; [done|]. repeat wp_step.
    apply wp_priority_mask; [done|]. repeat wp_step. eapply wp_upd_thread; [apply lookup_insert_eq|].
    match goal with |- wp _ _ ?s2 =>
      assert (s2 = set_k_threads <[t := with_priority p th]> (remove_ready t th s)) as -> end.
    { unfold set_k_threads. cbn. by rewrite !insert_insert_eq. }
    apply wp_unfold. do 2 eexists. split; [|exact HQ].
    apply rt_schedule_insert_thread_eq; [apply lookup_insert_eq|by apply with_priority_ok|].
    simpl. intros E. destruct (ci_current _ (proj2 (ki_sched _ Hk)) _ E) as (? & ? & ? & _).
    by simplify_eq.
  - repeat wp_step; [done|]. eapply wp_upd_thread; [done|]. repeat wp_step.
    apply wp_priority_mask; [done|]. repeat wp_step. eapply wp_upd_thread; [apply lookup_insert_eq|].
    repeat wp_step. revert HQ. unfold set_k_threads. cbn. by rewrite !insert_insert_eq.
Qed.

(** ** Closing a thread *)

(** What detaching thread [t] and its timer leaves, before any rescheduling. *)
Record closed_state (t : tid) (th : rt_thread) (s s' : kstate) : Prop := {
  cl_sched : sched_inv s';
  cl_threads : k_threads s' = <[t := set_th_stat (fun _ => RT_THREAD_CLOSE) th]> (k_threads s);
  cl_obj : forall o, o ≠ OThread t -> o ≠ OTimer (TThread t) -> k_obj s' !! o = k_obj s !! o;
  cl_type : forall o y, o = OThread t \/ o = OTimer (TThread t) -> k_obj s' !! o = Some y -> o_type y = 0;
  cl_containers : k_containers s' = list_remove (OThread t) (list_remove (OTimer (TThread t)) (k_containers s));
  cl_timers : k_timers s' = k_timers s;
  cl_trow : k_trow s' = list_remove (TThread t) (k_trow s)
}.

Lemma closed_kinv t th s s' : kinv s -> closed_state t th s s' -> kinv s'.
Proof.
  intros [H1 H2 H3 H4 H5] [C1 C2 C3 C4 C5 C6 C7]. split; [done| | | |].
  - destruct H2 as [O1 O2]. split; rewrite C5; [by do 2 apply wf_list_remove|].
    intros i o [[Hin ?]%elem_of_list_remove ?]%elem_of_list_remove. rewrite C3 by done. by apply O2.
  - destruct H3 as [T1 T2 T3]. split; rewrite C7; [by apply wf_list_remove| |].
    + intros h tm [Hin ?]%elem_of_list_remove. rewrite C3, C6 by congruence. by apply T2.
    + intros tm o Ho Hc Ha. destruct (decide (tm = TThread t)) as [->|Hne].
      * unfold class_of in Hc. rewrite (C4 _ _ (or_intror eq_refl) Ho) in Hc. done.
      * rewrite C3 in Ho by congruence. destruct (T3 tm o Ho Hc Ha) as [h Hin].
        exists h. by apply elem_of_list_remove.
  - intros u thu. rewrite C2. intros [[<- <-]|[Hne Hu]]%lookup_insert_Some Hcl; [done|].
    destruct (H4 u thu Hu Hcl) as (x & xt & v & Hx & ? & Hxt & Hrest).
    exists x, xt, v. rewrite !C3, C6 by congruence. done.
  - intros u h Hh. rewrite C7. intros [Hin ?]%elem_of_list_remove.
    destruct (H5 u h Hh Hin) as (thu & Hu & Hs). exists thu. rewrite C2, lookup_insert_ne by congruence.
    done.
Qed.

Lemma wp_cleanup t th (Q : unit -> kstate -> Prop) s :
  k_threads s !! t = Some th ->
  (forall log, Q tt (set_k_cleanups (fun _ => log) s)) -> wp (_thread_cleanup_execute t) Q s.
Proof.
  intros Ht HQ. unfold _thread_cleanup_execute. rewrite wp_bind. eapply wp_get_thread; [done|].
  destruct (th_cleanup th) as [f|]; [exact (HQ (k_cleanups s ++ [(f, t)]))|].
  specialize (HQ (k_cleanups s)). by destruct s.
Qed.

Lemma th_ok_closed th : th_ok th -> th_ok (set_th_stat (fun _ => RT_THREAD_CLOSE) th).
Proof. intros [H1 H2 H3 H4]. split; [done..|]. by intros [_ ?]. Qed.

Lemma wp_detach_timer t x xt (Q : Z -> kstate -> Prop) s :
  thread_live t s -> k_obj s !! OTimer (TThread t) = Some xt -> k_obj s !! OThread t = Some x ->
  Q RT_EOK (set_k_containers (list_remove (OTimer (TThread t)))
             (set_k_obj <[OTimer (TThread t) := set_o_type (fun _ => 0) (clear_active xt)]>
               (set_k_trow (list_remove (TThread t)) s))) ->
  wp (rt_timer_detach (TThread t)) Q s.
Proof.
  intros Hl Hxt Hx HQ. destruct Hl as (x' & xt' & v & H1 & H2 & H3 & H4 & H5 & H6 & H7 & H8 & H9).
  simplify_eq. eapply wp_rt_timer_detach; [by eexists _, v|done|done|done].
Qed.

(** [rt_thread_exit] of a static thread: the thread is closed, its object and timer are
    gone, and another thread runs. *)
Lemma wp_rt_thread_exit c th x s :
  kinv s -> k_current s = Some c -> k_threads s !! c = Some th ->
  stat_class (tstat th) = RT_THREAD_READY ->
  k_obj s !! OThread c = Some x -> Z.land (o_type x) RT_Object_Class_Static ≠ 0 ->
  wp rt_thread_exit (fun _ s' => kinv s' /\ is_Some (k_current s') /\
    exists th', k_threads s' !! c = Some th' /\ tstat th' = RT_THREAD_CLOSE) s.
Proof.
  intros Hk Hc Ht Hcl Hx Hst. pose proof (kinv_th_ok _ _ _ Hk Ht) as Hok.
  assert (Hns : started (tstat th)) by (split; intros E; by rewrite E in Hcl).
  pose proof (kinv_live _ _ _ Hk Ht (proj2 Hns)) as Hl.
  pose proof Hl as (x' & xt & v & H1 & H2 & H3 & H4 & H5 & H6 & H7 & H8 & H9). simplify_eq.
  unfold rt_thread_exit. rewrite wp_bind. eapply wp_self; [done|]. rewrite wp_bind.
  eapply wp_cleanup; [done|]. intros log. rewrite wp_bind.
  apply wp_unfold. do 2 eexists. split; [by apply rt_schedule_remove_thread_eq|].
  repeat wp_step. eapply wp_upd_thread; [done|]. repeat wp_step.
  eapply wp_detach_timer; [by eapply thread_live_ext; [..|exact Hl]|done|done|].
  unfold rt_object_is_systemobject. repeat wp_step.
  eapply wp_get_obj; [simpl; rewrite lookup_insert_ne by done; done|]. repeat wp_step.
  2: { match goal with H : negb _ = false |- _ => apply negb_false_iff, Z.eqb_eq in H; done end. }
  unfold rt_object_detach. repeat wp_step.
  eapply wp_upd_obj; [simpl; rewrite lookup_insert_ne by done; done|].
  unfold containers_modify. repeat wp_step.
  match goal with |- wp _ _ ?s2 => set (s1 := s2) end.
  assert (Hi1 : sched_inv s1).
  { eapply sched_inv_ext; [..|apply (park_sched c th (fun _ => RT_THREAD_CLOSE) s)]; try done.
    - apply Hk.
    - by apply th_ok_closed. }
  assert (Hcs : closed_state c th s s1).
  { split; try done.
    - intros o Hn1 Hn2. simpl. by rewrite !lookup_insert_ne by congruence.
    - intros o y [-> | ->]; simpl; [rewrite lookup_insert_eq; by intros [= <-]|].
      rewrite lookup_insert_ne, lookup_insert_eq by done. by intros [= <-]. }
  assert (Hk1 : kinv s1) by (by eapply closed_kinv).
  eapply wp_mono, wp_rt_schedule_k; [|done|done].
  intros _ s' (Hk' & Hf & Hc'). split; [done|]. split; [done|].
  destruct (frame_lookup _ _ c (set_th_stat (fun _ => RT_THREAD_CLOSE) th) (frame_sym _ _ Hf))
    as (th' & Ht' & E); [simpl; by rewrite lookup_insert_eq|].
  exists th'. split; [done|]. symmetry in E. by apply (strip_same_stat RT_THREAD_CLOSE _ _ E).
Qed.

(** ** Properties *)

(** Suspending a READY or RUNNING thread succeeds without a fault, keeps the kernel
    invariant, and leaves it SUSPENDed, on no list at all and with its timer off; in
    any other state [rt_thread_suspend] returns -RT_ERROR and changes nothing. *)
Theorem rt_thread_suspend_spec t th s :
  kinv s -> k_threads s !! t = Some th -> tstat th ≠ RT_THREAD_CLOSE ->
  wp (rt_thread_suspend t) (fun r s' =>
    if bool_decide (stat_class (tstat th) = RT_THREAD_READY) then
      r = RT_EOK /\ kinv s' /\ unlinked t (k_tlist s') /\
      (forall h, h = TLHard \/ h = TLSoft -> TThread t ∉ k_trow s' h) /\
      exists th', k_threads s' !! t = Some th' /\ tstat th' = RT_THREAD_SUSPEND
    else r = - RT_ERROR /\ s' = s) s.
Proof.
  intros Hk Ht Hc. eapply wp_rt_thread_suspend; [done..|]. case_bool_decide; [|done].
  intros Hk'. split; [done|]. split; [done|].
  assert (Hth : k_threads (suspended t th s) !! t = Some (set_th_stat (with_stat RT_THREAD_SUSPEND) th)).
  { unfold suspended. rewrite stopped_threads. apply lookup_insert_eq. }
  split; [|split].
  - unfold suspended, stopped. simpl. destruct (k_obj s !! OTimer (TThread t)) as [o|];
      [destruct (active o)|]; apply list_remove_unlinked.
  - destruct (thread_timer _ _ (kinv_live _ _ _ Hk Ht Hc)) as (_ & o & Ho & Hco).
    apply (timer_stopped (park t th (with_stat RT_THREAD_SUSPEND) s) (TThread t) o) in Hco as [_ Hoff]; [|by eapply timer_inv_ext; [..|apply Hk]|done].
    unfold suspended, stopped. simpl. by rewrite Ho.
  - eexists. split; [exact Hth|]. by apply tstat_with.
Qed.

(** Resuming a suspended thread that is not the current one takes it off the list
    it waits on and appends it, READY, to the ready queue of its priority; a thread in
    any other state gives -RT_ERROR and no change. *)
Theorem rt_thread_resume_spec t th s :
  kinv s -> k_threads s !! t = Some th -> tstat th ≠ RT_THREAD_CLOSE -> k_current s ≠ Some t ->
  wp (rt_thread_resume t) (fun r s' =>
    if bool_decide (tstat th = RT_THREAD_SUSPEND) then
      r = RT_EOK /\ kinv s' /\
      k_tlist s' (LReady (th_current_priority th)) = k_tlist s (LReady (th_current_priority th)) ++ [t] /\
      (forall h, h ≠ LReady (th_current_priority th) -> t ∉ k_tlist s' h) /\
      exists th', k_threads s' !! t = Some th' /\ tstat th' = RT_THREAD_READY
    else r = - RT_ERROR /\ s' = s) s.
Proof.
  intros Hk Ht Hc Hcur. eapply wp_rt_thread_resume; [done..|]. case_bool_decide as Hs; [|done].
  intros Hk'. split; [done|]. split; [done|].
  assert (Hl : k_tlist (stopped (TThread t) s) = k_tlist s).
  { unfold stopped. destruct (k_obj s !! OTimer (TThread t)) as [o|]; [|done]. by destruct (active o). }
  unfold resumed, wake. cbn [k_current set_k_tlist]. rewrite stopped_current.
  rewrite bool_decide_eq_false_2 by done. simpl. unfold list_insert_before.
  rewrite insert_eq, Hl. split; [|split].
  - f_equal. apply list_remove_unlinked_id. eapply off_ready; [apply Hk|done|by rewrite Hs].
  - intros h Hh. rewrite insert_ne by done. apply list_remove_unlinked.
  - eexists. rewrite lookup_insert_eq. split; [done|]. by apply tstat_with.
Qed.

(** Starting an initialised thread does not fault, keeps the kernel invariant, and
    makes it ready (or already running) at its initial priority. *)
Theorem rt_thread_startup_spec t th s :
  kinv s -> k_threads s !! t = Some th -> tstat th = RT_THREAD_INIT ->
  wp (rt_thread_startup t) (fun r s' => r = RT_EOK /\ kinv s' /\
    exists th', k_threads s' !! t = Some th' /\ stat_class (tstat th') = RT_THREAD_READY /\
                th_current_priority th' = th_init_priority th) s.
Proof. apply wp_rt_thread_startup. Qed.

(** Changing the priority of a READY thread moves it to the tail of its new queue,
    and changing that of any other thread leaves its status and the queues alone; both
    keep the kernel invariant, so queue, bitmap and priority mask agree again. *)
Theorem rt_thread_control_priority t th p s :
  kinv s -> k_threads s !! t = Some th -> tstat th ≠ RT_THREAD_CLOSE ->
  0 <= p < RT_THREAD_PRIORITY_MAX ->
  wp (rt_thread_control t RT_THREAD_CTRL_CHANGE_PRIORITY (Some p)) (fun r s' =>
    r = RT_EOK /\ kinv s' /\
    (exists th', k_threads s' !! t = Some th' /\ th_current_priority th' = p /\ tstat th' = tstat th) /\
    (if bool_decide (tstat th = RT_THREAD_READY)
     then k_tlist s' (LReady p) = list_remove t (k_tlist s) (LReady p) ++ [t]
     else k_tlist s' = k_tlist s)) s.
Proof.
  intros Hk Ht Hc Hp. eapply wp_change_priority; [done..|]. intros Hk'.
  split; [done|]. split; [done|]. split.
  - destruct (reprioritised_threads t th p s Ht) as (th' & Hth & Hst & Hpr).
    exists th'. by rewrite Hth, lookup_insert_eq.
  - unfold reprioritised. destruct (Z.eqb_spec (tstat th) RT_THREAD_READY).
    + rewrite bool_decide_eq_true_2 by done. simpl. unfold list_insert_before. by rewrite insert_eq.
    + by rewrite bool_decide_eq_false_2.
Qed.

(** The timeout of a suspended thread's timer wakes the thread with error
    -RT_ETIMEOUT, whatever list it waits on, and keeps the kernel invariant. *)
Theorem rt_thread_timeout_spec t th s :
  kinv s -> is_Some (k_current s) -> k_threads s !! t = Some th -> tstat th = RT_THREAD_SUSPEND ->
  (forall h, h = TLHard \/ h = TLSoft -> TThread t ∉ k_trow s h) ->
  wp (rt_thread_timeout t) (fun _ s' => kinv s' /\ exists th', k_threads s' !! t = Some th' /\
    th_error th' = - RT_ETIMEOUT /\ stat_class (tstat th') = RT_THREAD_READY) s.
Proof.
  intros. eapply wp_mono, wp_rt_thread_timeout; [|done..].
  intros _ s' (Hk & _ & th' & ? & ? & ? & _). eauto.
Qed.

(** A static thread that exits ends CLOSEd with its object and timer detached, the
    kernel invariant holds, and some thread is current. *)
Theorem rt_thread_exit_spec c th x s :
  kinv s -> k_current s = Some c -> k_threads s !! c = Some th ->
  stat_class (tstat th) = RT_THREAD_READY ->
  k_obj s !! OThread c = Some x -> Z.land (o_type x) RT_Object_Class_Static ≠ 0 ->
  wp rt_thread_exit (fun _ s' => kinv s' /\ is_Some (k_current s') /\
    exists th', k_threads s' !! c = Some th' /\ tstat th' = RT_THREAD_CLOSE) s.
Proof. apply wp_rt_thread_exit. Qed.

(** ** A concrete kernel: the threads of [sample] with their objects and timers; the
    timer of the suspended thread 4 is running. *)

Definition sample_kernel : kstate :=
  set_k_obj (fun _ => {[
      OThread 1 := mkObject [] 0x81 0; OThread 2 := mkObject [] 0x81 0;
      OThread 3 := mkObject [] 0x81 0; OThread 4 := mkObject [] 0x81 0;
      OTimer (TThread 1) := mkObject [] 0x8a 0; OTimer (TThread 2) := mkObject [] 0x8a 0;
      OTimer (TThread 3) := mkObject [] 0x8a 0; OTimer (TThread 4) := mkObject [] 0x8a 1;
      OSem 1 := mkObject [] 0x82 0 ]})
  (set_k_timers (fun _ => {[
      TThread 1 := mkTimer (FThreadTimeout 1) 0 0; TThread 2 := mkTimer (FThreadTimeout 2) 0 0;
      TThread 3 := mkTimer (FThreadTimeout 3) 0 0; TThread 4 := mkTimer (FThreadTimeout 4) 50 50 ]})
  (set_k_trow (fun _ => <[TLHard := [TThread 4]]> (fun _ => []))
  (set_k_sems (fun _ => {[ 1%positive := mkSem 0 ]}) sample))).

Lemma sample_trow h tm : tm ∈ k_trow sample_kernel h -> h = TLHard /\ tm = TThread 4.
Proof.
  simpl. unfold insert, fn_insert. case_decide as E; [|by intros []%elem_of_nil].
  intros ->%list_elem_of_singleton. by subst.
Qed.

Lemma sample_live t th : k_threads sample_kernel !! t = Some th -> thread_live t sample_kernel.
Proof.
  intros Ht. apply (sample_threads t th) in Ht.
  destruct Ht as [[-> _]|[[-> _]|[[-> _]|[-> _]]]]; do 3 eexists; by repeat split.
Qed.

Lemma sample_active tm o :
  k_obj sample_kernel !! OTimer tm = Some o -> active o = true -> tm = TThread 4.
Proof.
  cbn [k_obj set_k_obj sample_kernel]. rewrite !lookup_insert_Some, lookup_singleton_Some.
  intros H Ha. repeat (destruct H as [[H1 H2]|[_ H]]; [simplify_eq; done|]).
  destruct H as [H1 H2]. simplify_eq.
Qed.

Lemma sample_kinv : kinv sample_kernel.
Proof.
  split.
  - by eapply sched_inv_ext; [..|exact sample_inv].
  - split; [split|]; [intros h; apply NoDup_nil_2|by intros h1 h2 n []%elem_of_nil|].
    by intros i o []%elem_of_nil.
  - split.
    + split.
      * intros h. simpl. unfold insert, fn_insert. case_decide; [apply NoDup_singleton|apply NoDup_nil_2].
      * intros h1 h2 tm H1 H2. apply sample_trow in H1 as [-> _], H2 as [-> _]. done.
    + intros h tm Hin. apply sample_trow in Hin as [-> ->]. do 2 eexists. by repeat split.
    + intros tm o Ho _ Ha. apply (sample_active _ _ Ho) in Ha as ->. exists TLHard. by apply list_elem_of_singleton.
  - intros t th Ht _. by eapply sample_live.
  - intros t h _ Hin. apply sample_trow in Hin as [-> [= ->]]. eexists. done.
Qed.

Theorem rt_thread_suspend_spec_witness :
  wp (rt_thread_suspend 2) (fun r s' => r = RT_EOK /\ kinv s' /\ unlinked 2%positive (k_tlist s') /\
      (forall h, h = TLHard \/ h = TLSoft -> TThread 2 ∉ k_trow s' h) /\
      exists th', k_threads s' !! 2%positive = Some th' /\ tstat th' = RT_THREAD_SUSPEND) sample_kernel.
Proof.
  apply (rt_thread_suspend_spec 2 (sample_thread RT_THREAD_READY 10)); [apply sample_kinv|done..].
Defined.

Theorem rt_thread_resume_spec_witness :
  wp (rt_thread_resume 4) (fun r s' => r = RT_EOK /\ kinv s' /\
      k_tlist s' (LReady 5) = [4%positive] /\
      (forall h, h ≠ LReady 5 -> 4%positive ∉ k_tlist s' h) /\
      exists th', k_threads s' !! 4%positive = Some th' /\ tstat th' = RT_THREAD_READY) sample_kernel.
Proof.
  apply (rt_thread_resume_spec 4 (sample_thread RT_THREAD_SUSPEND 5)); [apply sample_kinv|done..].
Defined.

Theorem rt_thread_control_priority_witness :
  wp (rt_thread_control 3 RT_THREAD_CTRL_CHANGE_PRIORITY (Some 10)) (fun r s' =>
    r = RT_EOK /\ kinv s' /\
    (exists th', k_threads s' !! 3%positive = Some th' /\ th_current_priority th' = 10 /\
                 tstat th' = RT_THREAD_READY) /\
    k_tlist s' (LReady 10) = [2; 3]%positive) sample_kernel.
Proof.
  apply (rt_thread_control_priority 3 (sample_thread RT_THREAD_READY 20) 10);
    [apply sample_kinv|done..].
Defined.

Theorem rt_thread_timeout_spec_witness :
  let s := set_k_trow (fun _ _ => []) (set_k_obj <[OTimer (TThread 4) := mkObject [] 0x8a 0]> sample_kernel) in
  wp (rt_thread_timeout 4) (fun _ s' => kinv s' /\ exists th', k_threads s' !! 4%positive = Some th' /\
    th_error th' = - RT_ETIMEOUT /\ stat_class (tstat th') = RT_THREAD_READY) s.
Proof.
  apply (rt_thread_timeout_spec 4 (sample_thread RT_THREAD_SUSPEND 5)); [|by eexists|done|done|].
  2: { intros h _. apply not_elem_of_nil. }
  destruct (kinv_stopped (TThread 4) (mkObject [] 0x8a 1) sample_kernel sample_kinv) as [Hk _]; [done..|].
  destruct Hk as [H1 H2 H3 H4 H5]. split.
  - by eapply sched_inv_ext; [..|exact H1].
  - by eapply obj_inv_ext; [..|exact H2].
  - split; [split|..].
    + intros h. apply NoDup_nil_2.
    + by intros h1 h2 n []%elem_of_nil.
    + by intros h tm []%elem_of_nil.
    + intros tm o. simpl. intros [[[= <-] <-]|[Hne Ho]]%lookup_insert_Some _ Ha; [done|].
      apply (sample_active _ _ Ho) in Ha as ->. done.
  - intros t th Ht Hc. eapply thread_live_ext; [..|by eapply H4]; done.
  - by intros t h _ []%elem_of_nil.
Defined.

Theorem rt_thread_exit_spec_witness :
  wp rt_thread_exit (fun _ s' => kinv s' /\ is_Some (k_current s') /\
    exists th', k_threads s' !! 1%positive = Some th' /\ tstat th' = RT_THREAD_CLOSE) sample_kernel.
Proof.
  apply (rt_thread_exit_spec 1 (sample_thread 11 10) (mkObject [] 0x81 0)); [apply sample_kinv|done..].
Defined.

Theorem rt_thread_startup_spec_witness :
  let s := set_k_threads <[5%positive := sample_thread RT_THREAD_INIT 7]>
    (set_k_obj (fun m => <[OThread 5 := mkObject [] 0x81 0]> (<[OTimer (TThread 5) := mkObject [] 0x8a 0]> m))
      (set_k_timers <[TThread 5 := mkTimer (FThreadTimeout 5) 0 0]> sample_kernel)) in
  wp (rt_thread_startup 5) (fun r s' => r = RT_EOK /\ kinv s' /\
    exists th', k_threads s' !! 5%positive = Some th' /\ stat_class (tstat th') = RT_THREAD_READY /\
                th_current_priority th' = 7) s.
Proof.
  apply (rt_thread_startup_spec 5 (sample_thread RT_THREAD_INIT 7)); [|done|done].
  destruct sample_kinv as [H1 H2 H3 H4 H5]. split.
  - apply sched_inv_replace; [by eapply sched_inv_ext; [..|exact H1]| |split; done|done..].
    intros p Hin. apply sample_tlist in Hin. naive_solver.
  - destruct H2 as [O1 O2]. split; [done|]. by intros i o []%elem_of_nil.
  - destruct H3 as [T1 T2 T3]. split; [done| |].
    + intros h tm Hin. apply sample_trow in Hin as [-> ->]. do 2 eexists. by repeat split.
    + intros tm o. simpl. intros [[? _]|[_ Ho]]%lookup_insert_Some _ Ha; [done|].
      apply lookup_insert_Some in Ho as [[[= <-] <-]|[_ Ho]]; [done|].
      apply (sample_active _ _ Ho) in Ha as ->. exists TLHard. by apply list_elem_of_singleton.
  - intros t th. simpl. intros [[<- <-]|[Hne Ht]]%lookup_insert_Some _.
    + do 3 eexists. by repeat split.
    + destruct (sample_live t th Ht) as (x & xt & v & Hx & ? & Hxt & ? & ? & ? & ? & Hv & ?).
      exists x, xt, v. cbn [k_obj set_k_obj k_timers set_k_timers set_k_threads]. rewrite !lookup_insert_ne by congruence. done.
  - intros t h _ Hin. apply sample_trow in Hin as [-> [= ->]]. eexists. done.
Defined.
