(* ===== verification/Timer.v ===== *)
(** * Timer: running timers, rt-thread/src/timer.c

    [rt_timer_start] with its sorted insertion under wrap-around, the check of the hard
    timers by the tick interrupt and of the soft timers by the timer thread.  The skip
    list has one level, so the loops over the levels run once or not at all.  The two
    check functions take the user's timeout functions as [user] and their loops a
    fuel. *)

From Stdlib Require Import FunctionalExtensionality.
From S2P Require Import Prelude Kernel Scheduler Object TimerCore Thread.

#[local] Open Scope Z_scope.

(** ** Definitions *)

Definition rt_tick_get : K Z := gets k_tick.

(** The walk along [row_head] and the insertion behind it: [timeout] is the new timer's
    timeout tick, [time] reads that of a linked one. *)
Fixpoint row_insert (time : tmid -> option Z) (timer : tmid) (timeout : Z) (l : list tmid) :
  option (list tmid) :=
  match l with
  | [] => Some [timer]
  | t :: l' =>
      match time t with
      | None => None
      | Some t_tick =>
          let d := u32 (t_tick - timeout) in
          if d =? 0 then cons t <$> row_insert time timer timeout l'
          else if d <? RT_TICK_MAX / 2 then Some (timer :: t :: l')
          else cons t <$> row_insert time timer timeout l'
      end
  end.

Definition timeout_of (s : kstate) (tm : tmid) : option Z := tm_timeout_tick <$> k_timers s !! tm.

Section timer.
(** The static timer thread and the user's timeout functions. *)
Context (timer_thread : tid) (user : positive -> K unit).

Definition rt_timer_start (timer : tmid) : K Z :=
  is_timer timer ;;
  _rt_timer_remove timer ;;
  upd_obj (OTimer timer) clear_active ;;
  t ← get_timer timer;
  rt_assert (tm_init_tick t <? RT_TICK_MAX / 2) ;;
  now ← rt_tick_get;
  let timeout := u32 (now + tm_init_tick t) in
  upd_timer timer (set_tm_timeout_tick (fun _ => timeout)) ;;
  o ← get_obj (OTimer timer);
  let is_soft := negb (Z.land (o_flag o) RT_TIMER_FLAG_SOFT_TIMER =? 0) in
  let timer_list := if is_soft then TLSoft else TLHard in
  l ← deref (fun s => row_insert (timeout_of s) timer timeout (k_trow s timer_list));
  modify (set_k_random_nr (fun n => u32 (n + 1))) ;;
  trow_modify <[timer_list := l]> ;;
  upd_obj (OTimer timer) set_active ;;
  (if (is_soft : bool) then
     soft_timer_status ← gets k_soft_status;
     if soft_timer_status =? RT_SOFT_TIMER_IDLE then
       th ← get_thread timer_thread;
       when (Z.land (th_stat th) RT_THREAD_STAT_MASK =? RT_THREAD_SUSPEND)
         (rt_thread_resume timer_thread ;; rt_schedule)
     else mret tt
   else mret tt) ;;
  mret RT_EOK.

(** [t->timeout_func (t->parameter)] *)
Definition invoke (f : timeout_fn) : K unit :=
  match f with FThreadTimeout t => rt_thread_timeout t | FUser f => user f end.

Definition is_periodic (o : rt_object) : bool :=
  negb (Z.land (o_flag o) RT_TIMER_FLAG_PERIODIC =? 0).
Definition is_activated (o : rt_object) : bool :=
  negb (Z.land (o_flag o) RT_TIMER_FLAG_ACTIVATED =? 0).

(** A due timer moves to the local list [list] before its function is called. *)
Definition take_due (t : tmid) (list : thead) : K unit :=
  _rt_timer_remove t ;;
  o ← get_obj (OTimer t);
  when (negb (is_periodic o)) (upd_obj (OTimer t) clear_active) ;;
  trow_modify (list_insert_after list t).
(** A timer still on the local list afterwards was neither stopped, detached nor
    restarted by its function; a periodic one is started again. *)
Definition restart_due (t : tmid) (list : thead) : K unit :=
  L ← gets k_trow;
  if list_isempty list L then mret tt else
  _rt_timer_remove t ;;
  o ← get_obj (OTimer t);
  when (is_periodic o && is_activated o)
    (upd_obj (OTimer t) clear_active ;; rt_timer_start t ;; mret tt).

Fixpoint timer_check_loop (fuel : nat) (current_tick : Z) : K unit :=
  match fuel with
  | O => fault
  | S fuel =>
      L ← gets k_trow;
      if list_isempty TLHard L then mret tt else
      t ← first_timer TLHard;
      v ← get_timer t;
      if u32 (current_tick - tm_timeout_tick v) <? RT_TICK_MAX / 2 then
        take_due t TLTmp ;;
        invoke (tm_timeout_func v) ;;
        current_tick ← rt_tick_get;
        restart_due t TLTmp ;;
        timer_check_loop fuel current_tick
      else mret tt
  end.
Definition rt_timer_check (fuel : nat) : K unit :=
  trow_modify (list_init TLTmp) ;;
  current_tick ← rt_tick_get;
  timer_check_loop fuel current_tick.

Definition rt_timer_next_timeout_tick : K Z := rt_timer_list_next_timeout TLHard.

Fixpoint soft_timer_check_loop (fuel : nat) : K unit :=
  match fuel with
  | O => fault
  | S fuel =>
      L ← gets k_trow;
      if list_isempty TLSoft L then mret tt else
      t ← first_timer TLSoft;
      v ← get_timer t;
      current_tick ← rt_tick_get;
      if u32 (current_tick - tm_timeout_tick v) <? RT_TICK_MAX / 2 then
        take_due t TLSoftTmp ;;
        modify (set_k_soft_status (fun _ => RT_SOFT_TIMER_BUSY)) ;;
        invoke (tm_timeout_func v) ;;
        modify (set_k_soft_status (fun _ => RT_SOFT_TIMER_IDLE)) ;;
        restart_due t TLSoftTmp ;;
        soft_timer_check_loop fuel
      else mret tt
  end.
Definition rt_soft_timer_check (fuel : nat) : K unit :=
  trow_modify (list_init TLSoftTmp) ;; soft_timer_check_loop fuel.

(** The timer thread is created and started. *)
Definition rt_system_timer_thread_init (entry : positive) (name : list Z)
    (stack stack_size prio : Z) : K unit :=
  trow_modify (list_init TLSoft) ;;
  rt_thread_init timer_thread name entry 0 stack stack_size prio 10 ;;
  rt_thread_startup timer_thread ;;
  mret tt.
End timer.

(** ** Wrap-around time *)

(** Half the tick range: how far in the future a timeout may lie. *)
Abbreviation half := (RT_TICK_MAX / 2).

(** How far [x] lies after the base tick [b], modulo the 32-bit counter. *)
Definition off (b x : Z) : Z := u32 (x - b).

Lemma off_range b x : 0 <= off b x < 2 ^ 32.
Proof. by apply wrap_range. Qed.

(** The unsigned differences the code computes order two ticks by their distance from a
    base that both follow within half the range. *)
Lemma tick_diff b x y :
  off b x < half -> off b y < half ->
  u32 (x - y) = if decide (off b y <= off b x) then off b x - off b y
                else 2 ^ 32 - (off b y - off b x).
Proof.
  intros Hx Hy. pose proof (off_range b x). pose proof (off_range b y).
  change half with 2147483647 in *.
  assert (u32 (x - y) = u32 (off b x - off b y)) as ->.
  { unfold wrap, off, wrap. rewrite <- Zminus_mod. f_equal. lia. }
  case_decide; [by rewrite wrap_small by lia|].
  unfold wrap. rewrite <- (Z.mod_add _ 1) by lia. rewrite Z.mod_small by lia. lia.
Qed.

Lemma tick_later b x y :
  off b x < half -> off b y < half ->
  (u32 (x - y) =? 0) = bool_decide (off b x = off b y) /\
  (off b x ≠ off b y -> (u32 (x - y) <? half) = bool_decide (off b y < off b x)).
Proof.
  intros Hx Hy. rewrite (tick_diff b x y Hx Hy).
  pose proof (off_range b x). pose proof (off_range b y). change half with 2147483647 in *.
  split.
  - case_decide; case_bool_decide; lia.
  - intros Hne. case_decide; case_bool_decide; lia.
Qed.

Lemma off_add b n : off b (u32 (b + n)) = u32 n.
Proof.
  unfold off, wrap. rewrite Zminus_mod_idemp_l. f_equal. lia.
Qed.

(** ** Sorted insertion *)

Section insert.
Context (time : tmid -> option Z) (b : Z).
Definition toff (tm : tmid) : Z := off b (default 0 (time tm)).
Definition in_window (l : list tmid) : Prop :=
  Forall (fun t => is_Some (time t) /\ toff t < half) l.
Definition sorted (l : list tmid) : Prop := StronglySorted (fun t u => toff t <= toff u) l.

(** The new timer goes behind every timer that is due no later and before all that
    are due later. *)
Lemma row_insert_spec tm timeout l :
  in_window l -> off b timeout < half ->
  exists l1 l2, row_insert time tm timeout l = Some (l1 ++ tm :: l2) /\ l = l1 ++ l2 /\
    Forall (fun t => toff t <= off b timeout) l1 /\
    (forall t l', l2 = t :: l' -> off b timeout < toff t).
Proof.
  intros Hl Ho. induction Hl as [|t l [[x Hx] Ht] Hl IH].
  - exists [], []. repeat split; [by constructor|done].
  - destruct IH as (l1 & l2 & E & -> & H1 & H2).
    assert (Htx : toff t = off b x) by (unfold toff; by rewrite Hx). rewrite Htx in Ht.
    destruct (tick_later b x timeout Ht Ho) as [D0 D1]. simpl. rewrite Hx, D0, E.
    clear D0. destruct (decide (off b x = off b timeout)) as [C0|C0];
      [rewrite bool_decide_eq_true_2 by done
      |rewrite bool_decide_eq_false_2, D1 by done; clear D1; case_bool_decide as C1].
    + exists (t :: l1), l2. repeat split; [constructor; [lia|done]|done].
    + exists [], (t :: l1 ++ l2). repeat split; [by constructor|]. intros ? ? [= <- <-]. lia.
    + exists (t :: l1), l2. repeat split; [constructor; [lia|done]|done].
Qed.
End insert.

Lemma sorted_insert time time' b tm timeout l1 l2 :
  sorted time b (l1 ++ l2) -> 
  Forall (fun t => toff time b t <= off b timeout) l1 ->
  (forall t l', l2 = t :: l' -> off b timeout < toff time b t) ->
  (forall t, t ∈ l1 ++ l2 -> time' t = time t) -> time' tm = Some timeout ->
  sorted time' b (l1 ++ tm :: l2).
Proof.
  intros Hs H1 H2 Ht Htm.
  assert (E : forall t, t ∈ l1 ++ l2 -> toff time' b t = toff time b t).
  { intros t Hin. unfold toff. by rewrite Ht. }
  assert (Em : toff time' b tm = off b timeout) by (unfold toff; by rewrite Htm).
  unfold sorted in *. induction l1 as [|t l1 IH]; simpl in *.
  - constructor.
    + clear H1 Htm. induction Hs as [|u l2 Hs IH' Hf]; [constructor|]. constructor.
      * apply IH'; [|intros; apply Ht; clear -H; mem|intros; apply E; clear -H; mem].
        intros v l' ->. apply Forall_cons in Hf as [Hf _]. specialize (H2 u _ eq_refl). lia.
      * apply Forall_forall. intros v Hv. rewrite Forall_forall in Hf. specialize (Hf v Hv).
        rewrite !E by (clear -Hv; mem). done.
    + destruct l2 as [|u l2]; [constructor|]. specialize (H2 u l2 eq_refl).
      inversion Hs as [|? ? Hs' Hf]; subst. rewrite Forall_forall in Hf. apply Forall_forall.
      intros v Hv. rewrite Em, E by done. apply elem_of_cons in Hv as [->|Hv]; [lia|].
      specialize (Hf v Hv). lia.
  - inversion Hs as [|? ? Hs' Hf]; subst. apply Forall_cons in H1 as [Ht1 H1]. constructor.
    + apply IH; try done; intros; [apply Ht|apply E]; clear -H; mem.
    + rewrite Forall_forall in Hf. apply Forall_forall. intros v Hv.
      rewrite E by (clear; mem).
      assert (v = tm \/ v ∈ l1 ++ l2) as [->|Hv'] by (clear -Hv; mem); [by rewrite Em|].
      rewrite E by (clear -Hv'; mem). by apply Hf.
Qed.

(** ** Starting a hard timer *)

Definition start_tick (v : rt_timer) (s : kstate) : Z := u32 (k_tick s + tm_init_tick v).

(** The state after hard timer [tm] is started into the list [l]. *)
Definition started (tm : tmid) (o : rt_object) (v : rt_timer) (l : list tmid) (s : kstate) : kstate :=
  set_k_obj <[OTimer tm := set_active (clear_active o)]>
    (set_k_trow (fun L => <[TLHard := l]> (list_remove tm L))
      (set_k_random_nr (fun n => u32 (n + 1))
        (set_k_timers <[tm := set_tm_timeout_tick (fun _ => start_tick v s) v]> s))).

Lemma started_flags o :
  let o' := set_active (clear_active o) in
  active o' = true /\ soft o' = soft o /\ periodic o' = periodic o /\ class_of o' = class_of o.
Proof.
  pose proof (clear_active_flags o) as (A1 & A2 & A3 & A4).
  pose proof (set_active_flags (clear_active o)) as (B1 & B2 & B3 & B4). simpl.
  rewrite B1, B2, B3, B4. done.
Qed.

Lemma started_timer_inv tm o v l s :
  timer_inv s -> k_obj s !! OTimer tm = Some o -> class_of o = RT_Object_Class_Timer ->
  k_timers s !! tm = Some v -> soft o = false ->
  Permutation l (tm :: list_remove tm (k_trow s) TLHard) ->
  timer_inv (started tm o v l s).
Proof.
  intros [T1 T2 T3] Ho Hc Hv Hs Hp. pose proof (started_flags o) as (F1 & F2 & F3 & F4).
  split.
  - apply (wf_space_insert _ _ tm); [by apply wf_list_remove|apply list_remove_unlinked|done].
  - intros h u Hin. simpl in Hin. simpl. destruct (decide (u = tm)) as [->|Hne].
    + exists (set_active (clear_active o)), (set_tm_timeout_tick (fun _ => start_tick v s) v).
      rewrite !lookup_insert_eq, F1, F2, F4, Hs.
      assert (h = TLHard) as ->; [|by repeat split].
      destruct (decide (TLHard = h)) as [|Hh]; [done|]. rewrite insert_ne in Hin by done.
      by apply elem_of_list_remove in Hin as [_ []].
    + rewrite !lookup_insert_ne by congruence. apply T2.
      destruct (decide (TLHard = h)) as [<-|Hh].
      * rewrite insert_eq, Hp in Hin. apply elem_of_cons in Hin as [->|Hin]; [done|].
        by apply elem_of_list_remove in Hin as [? _].
      * rewrite insert_ne in Hin by done. by apply elem_of_list_remove in Hin as [? _].
  - intros u ou. simpl. intros [[[= <-] <-]|[Hne Hu]]%lookup_insert_Some Hcu Hau.
    + exists TLHard. rewrite insert_eq, Hp. by apply elem_of_cons; left.
    + destruct (T3 u ou Hu Hcu Hau) as [h Hin]. exists h.
      assert (u ∈ list_remove tm (k_trow s) h) as Hin' by (apply elem_of_list_remove; split; congruence).
      destruct (decide (TLHard = h)) as [<-|Hh]; [|by rewrite insert_ne].
      rewrite insert_eq, Hp. by apply elem_of_cons; right.
Qed.

Lemma started_kinv tm o v l s :
  kinv s -> k_obj s !! OTimer tm = Some o -> class_of o = RT_Object_Class_Timer ->
  k_timers s !! tm = Some v -> soft o = false ->
  Permutation l (tm :: list_remove tm (k_trow s) TLHard) ->
  (forall t, tm = TThread t -> exists th, k_threads s !! t = Some th /\ tstat th = RT_THREAD_SUSPEND) ->
  kinv (started tm o v l s).
Proof.
  intros [H1 H2 H3 H4 H5] Ho Hc Hv Hs Hp Ht. pose proof (started_flags o) as (F1 & F2 & F3 & F4).
  split; [by eapply sched_inv_ext; [..|exact H1]| |by apply started_timer_inv| |].
  - apply (obj_inv_ext (set_k_obj <[OTimer tm := set_active (clear_active o)]> s)); [done|done|].
    by eapply obj_inv_upd.
  - intros t th Hth Hcl.
    pose proof (thread_live_upd_timer t tm o (set_active (clear_active o)) s Ho eq_refl F2 F3
      (H4 t th Hth Hcl)) as (x & xt & w & L1 & L2 & L3 & L4 & L5 & L6 & L7 & L8 & L9).
    destruct (decide (tm = TThread t)) as [->|Hne].
    + simpl in L8. assert (w = v) as -> by congruence.
      exists x, xt, (set_tm_timeout_tick (fun _ => start_tick v s) v).
      simpl. rewrite (lookup_insert_eq (k_timers s)). done.
    + exists x, xt, w. simpl. rewrite (lookup_insert_ne (k_timers s)) by done. done.
  - intros t h Hh Hin. simpl in Hin. destruct (decide (TLHard = h)) as [<-|Hne].
    + rewrite insert_eq, Hp in Hin. apply elem_of_cons in Hin as [E|Hin]; [by apply Ht|].
      apply elem_of_list_remove in Hin as [Hin _]. by eapply H5.
    + rewrite insert_ne in Hin by done. apply elem_of_list_remove in Hin as [Hin _]. by eapply H5.
Qed.

Lemma row_insert_ext time time' tm timeout l :
  (forall t, t ∈ l -> time' t = time t) -> row_insert time' tm timeout l = row_insert time tm timeout l.
Proof.
  induction l as [|t l IH]; intros H; [done|]. simpl. rewrite H by (clear; mem).
  rewrite IH; [done|]. intros u Hu. apply H. clear -Hu. mem.
Qed.

Lemma wp_rt_timer_start_hard tt tm o v (Q : Z -> kstate -> Prop) s :
  timer_live tm s -> k_obj s !! OTimer tm = Some o -> k_timers s !! tm = Some v ->
  soft o = false -> 0 <= tm_init_tick v < half -> 0 <= k_tick s < 2 ^ 32 ->
  in_window (timeout_of s) (k_tick s) (list_remove tm (k_trow s) TLHard) ->
  (forall l1 l2, list_remove tm (k_trow s) TLHard = l1 ++ l2 ->
     Forall (fun t => toff (timeout_of s) (k_tick s) t <= tm_init_tick v) l1 ->
     (forall t l', l2 = t :: l' -> tm_init_tick v < toff (timeout_of s) (k_tick s) t) ->
     Q RT_EOK (started tm o v (l1 ++ tm :: l2) s)) ->
  wp (rt_timer_start tt tm) Q s.
Proof.
  intros Hl Ho Hv Hs Hi Htk Hw HQ. pose proof (clear_active_flags o) as (_ & _ & F3 & _).
  assert (Hoff : off (k_tick s) (start_tick v s) = tm_init_tick v).
  { unfold start_tick. rewrite off_add. change half with 2147483647 in Hi.
    apply wrap_small. lia. }
  destruct (row_insert_spec (timeout_of s) (k_tick s) tm (start_tick v s) _ Hw) as
    (l1 & l2 & Hr & Hl12 & Hf1 & Hf2); [rewrite Hoff; lia|].
  rewrite Hoff in Hf1, Hf2. specialize (HQ l1 l2 Hl12 Hf1 Hf2).
  unfold rt_timer_start. rewrite wp_bind. apply wp_is_timer; [done|].
  unfold _rt_timer_remove, trow_modify, rt_tick_get. repeat wp_step. eapply wp_upd_obj; [done|].
  repeat wp_step. eapply wp_get_timer; [done|]. repeat wp_step; [apply Z.ltb_lt; lia|].
  eapply wp_upd_timer; [done|]. repeat wp_step.
  eapply wp_get_obj; [simpl; apply lookup_insert_eq|].
  rewrite test_soft, F3, Hs. cbn [negb]. repeat wp_step.
  { etransitivity; [apply (row_insert_ext (timeout_of s))|exact Hr].
    intros t [_ Hne]%elem_of_list_remove. unfold timeout_of. simpl. by rewrite lookup_insert_ne. }
  eapply wp_upd_obj; [simpl; apply lookup_insert_eq|]. repeat wp_step.
  match goal with |- Q _ ?s2 => assert (s2 = started tm o v (l1 ++ tm :: l2) s) as -> end; [|done].
  unfold started, set_k_obj at 1 3. cbn [k_obj set_k_trow set_k_random_nr set_k_timers set_k_obj].
  rewrite insert_insert_eq. reflexivity.
Qed.

(** ** The steps of a check *)

(** The object header while the timer's function runs. *)
Definition taken_obj (o : rt_object) : rt_object := if periodic o then o else clear_active o.
Definition taken (t : tmid) (o : rt_object) (list : thead) (s : kstate) : kstate :=
  set_k_trow (fun L => list_insert_after list t (list_remove t L))
    (set_k_obj <[OTimer t := taken_obj o]> s).

Lemma taken_obj_flags o :
  soft (taken_obj o) = soft o /\ periodic (taken_obj o) = periodic o /\
  class_of (taken_obj o) = class_of o /\ o_type (taken_obj o) = o_type o.
Proof.
  pose proof (clear_active_flags o) as (_ & ? & ? & ?). unfold taken_obj. by destruct (periodic o) eqn:E.
Qed.

Lemma wp_take_due t list (Q : unit -> kstate -> Prop) s o :
  k_obj s !! OTimer t = Some o -> Q tt (taken t o list s) -> wp (take_due t list) Q s.
Proof.
  intros Ho HQ. unfold take_due, _rt_timer_remove, trow_modify, is_periodic. repeat wp_step.
  eapply wp_get_obj; [done|]. rewrite test_periodic, negb_involutive.
  unfold taken, taken_obj in HQ. repeat wp_step.
  - match goal with H : negb (periodic o) = true |- _ => apply negb_true_iff in H; rewrite H in HQ end.
    by eapply wp_upd_obj.
  - match goal with H : negb (periodic o) = false |- _ => apply negb_false_iff in H; rewrite H in HQ end.
    unfold set_k_obj in HQ. cbn in HQ. rewrite insert_id in HQ by done. exact HQ.
Qed.

Lemma taken_kinv t o s :
  kinv s -> k_obj s !! OTimer t = Some o -> t ∈ k_trow s TLHard -> kinv (taken t o TLTmp s).
Proof.
  intros [H1 H2 H3 H4 H5] Ho Hin. pose proof (taken_obj_flags o) as (F1 & F2 & F3 & F4).
  pose proof H3 as [T1 T2 T3].
  split; [by eapply sched_inv_ext; [..|exact H1]| | | |].
  - apply (obj_inv_ext (set_k_obj <[OTimer t := taken_obj o]> s)); [done|done|]. by eapply obj_inv_upd.
  - destruct (T2 _ _ Hin) as (o' & v & Ho' & Hv & Hc & Hs & Ha). rewrite Ho in Ho'. simplify_eq.
    split; simpl.
    + apply wf_list_insert_after; [by apply wf_list_remove|apply list_remove_unlinked].
    + intros h u Hu. unfold list_insert_after in Hu. destruct (decide (u = t)) as [->|Hne].
      * exists (taken_obj o'), v. rewrite lookup_insert_eq, F1, F3. repeat split; try done.
        -- destruct (decide (TLTmp = h)) as [<-|Hh]; [done|]. rewrite insert_ne in Hu by done.
           by apply elem_of_list_remove in Hu as [_ []].
        -- intros Hh. destruct (decide (TLTmp = h)) as [<-|Hn]; [by destruct Hh|].
           rewrite insert_ne in Hu by done. by apply elem_of_list_remove in Hu as [_ []].
      * rewrite lookup_insert_ne by congruence. apply T2.
        destruct (decide (TLTmp = h)) as [<-|Hh].
        -- rewrite insert_eq in Hu. apply elem_of_cons in Hu as [->|Hu]; [done|].
           by apply elem_of_list_remove in Hu as [? _].
        -- rewrite insert_ne in Hu by done. by apply elem_of_list_remove in Hu as [? _].
    + intros u ou Hou Hcu Hau. unfold list_insert_after. destruct (decide (u = t)) as [->|Hne].
      * exists TLTmp. rewrite insert_eq. by apply elem_of_cons; left.
      * rewrite lookup_insert_ne in Hou by congruence. destruct (T3 u ou Hou Hcu Hau) as [h Hu].
        exists h. assert (u ∈ list_remove t (k_trow s) h) as Hu' by (by apply elem_of_list_remove).
        destruct (decide (TLTmp = h)) as [<-|Hh]; [|by rewrite insert_ne].
        rewrite insert_eq. by apply elem_of_cons; right.
  - intros u thu Hu Hc.
    apply (thread_live_ext u (set_k_obj <[OTimer t := taken_obj o]> s)); [done|done|].
    eapply thread_live_upd_timer; [done..|]. by eapply H4.
  - intros u h Hh Hu. simpl in Hu. unfold list_insert_after in Hu.
    rewrite insert_ne in Hu by (intros <-; by destruct Hh).
    apply elem_of_list_remove in Hu as [Hu _]. by eapply H5.
Qed.

(** An inactive timer leaves whatever list it is on. *)
Lemma unlink_kinv t o s :
  kinv s -> k_obj s !! OTimer t = Some o -> active o = false ->
  kinv (set_k_trow (list_remove t) s).
Proof.
  intros [H1 H2 [T1 T2 T3] H4 H5] Ho Ha.
  split; [by eapply sched_inv_ext; [..|exact H1]|by apply (obj_inv_ext s)| |done|].
  - split; simpl; [by apply wf_list_remove| |].
    + intros h u [Hu _]%elem_of_list_remove. by apply T2.
    + intros u ou Hou Hcu Hau. destruct (T3 u ou Hou Hcu Hau) as [h Hu]. exists h.
      apply elem_of_list_remove. split; congruence.
  - intros u h Hh [Hu _]%elem_of_list_remove. by eapply H5.
Qed.

(** ** The check *)

(** The hard timers, seen from the current tick: none overdue, in order. *)
Definition pending (s : kstate) : Prop :=
  in_window (timeout_of s) (k_tick s) (k_trow s TLHard) /\
  sorted (timeout_of s) (k_tick s) (k_trow s TLHard).

(** Only thread timers call [rt_thread_timeout]; periodic timers have a period the
    counter can express. *)
Definition timers_ok (s : kstate) : Prop := forall tm o v,
  k_obj s !! OTimer tm = Some o -> k_timers s !! tm = Some v ->
  (forall p, tm = TUser p -> exists f, tm_timeout_func v = FUser f) /\
  (periodic o = true -> 0 < tm_init_tick v < half).

(** The timer part of the state is as before. *)
Definition quiet (s s' : kstate) : Prop :=
  k_trow s' = k_trow s /\ k_obj s' = k_obj s /\ k_timers s' = k_timers s /\ k_tick s' = k_tick s.

(** What a check does to timer [u]: due one-shot timers stop, due periodic ones are
    restarted for a full period, the others are left alone. *)
Definition checked (s s' : kstate) (u : tmid) : Prop :=
  match k_obj s !! OTimer u, k_timers s !! u with
  | Some o, Some v =>
      if decide (u ∈ k_trow s TLHard) then
        if decide (toff (timeout_of s) (k_tick s) u = 0) then
          if periodic o
          then u ∈ k_trow s' TLHard /\ timeout_of s' u = Some (start_tick v s)
          else u ∉ k_trow s' TLHard
        else u ∈ k_trow s' TLHard /\ timeout_of s' u = timeout_of s u
      else u ∉ k_trow s' TLHard
  | _, _ => True
  end.

Lemma due_off tick x :
  off tick x < half -> 0 <= tick < 2 ^ 32 ->
  (u32 (tick - x) <? half) = bool_decide (off tick x = 0).
Proof.
  intros Hx Ht. pose proof (off_range tick x).
  assert (E0 : off tick tick = 0) by (unfold off; by rewrite Z.sub_diag).
  rewrite (tick_diff tick tick x) by (rewrite ?E0; done). rewrite E0.
  change half with 2147483647 in *.
  destruct (decide (off tick x = 0)) as [->|Hne]; [done|].
  rewrite bool_decide_eq_false_2 by done. rewrite decide_False by lia. lia.
Qed.

(** ** One iteration *)

Definition check_inv (s : kstate) : Prop :=
  kinv s /\ is_Some (k_current s) /\ pending s /\ timers_ok s /\ 0 <= k_tick s < 2 ^ 32 /\
  k_trow s TLTmp = [].

(** A thread's timer is one-shot and wakes that thread. *)
Lemma live_timer t s o v :
  thread_live t s -> k_obj s !! OTimer (TThread t) = Some o -> k_timers s !! TThread t = Some v ->
  periodic o = false /\ tm_timeout_func v = FThreadTimeout t.
Proof.
  intros (x & xt & v' & L1 & L2 & L3 & L4 & L5 & L6 & L7 & L8 & L9) Ho Hv.
  rewrite L3 in Ho. rewrite L8 in Hv. by simplify_eq.
Qed.

(** How many of the timers [l] are due now. *)
Fixpoint due_count (s : kstate) (l : list tmid) : nat :=
  match l with
  | [] => O
  | u :: l => (if decide (toff (timeout_of s) (k_tick s) u = 0) then 1 else 0) + due_count s l
  end.

Lemma due_count_ext s s' l :
  k_tick s' = k_tick s -> (forall u, u ∈ l -> timeout_of s' u = timeout_of s u) ->
  due_count s' l = due_count s l.
Proof.
  intros Et. induction l as [|u l IH]; intros Hl; [done|]. simpl.
  rewrite IH by (intros; apply Hl; clear -H; mem). unfold toff. by rewrite Et, Hl by (clear; mem).
Qed.

Lemma due_count_app s l1 l2 : due_count s (l1 ++ l2) = (due_count s l1 + due_count s l2)%nat.
Proof. induction l1 as [|u l1 IH]; simpl; [done|]. rewrite IH. lia. Qed.

Section check.
Context (timer_thread : tid) (user : positive -> K unit).
(** The user's timeout functions leave the timers alone. *)
Hypothesis user_ok : forall f s, kinv s -> is_Some (k_current s) ->
  wp (user f) (fun _ s' => kinv s' /\ is_Some (k_current s') /\ quiet s s') s.

Lemma wp_invoke tm o v s :
  kinv s -> is_Some (k_current s) -> timers_ok s ->
  k_obj s !! OTimer tm = Some o -> k_timers s !! tm = Some v -> tm ∈ k_trow s TLHard ->
  wp (invoke user (tm_timeout_func v)) (fun _ s' => kinv s' /\ is_Some (k_current s') /\
    quiet (taken tm o TLTmp s) s') (taken tm o TLTmp s).
Proof.
  intros Hk Hc Hto Ho Hv Hin. pose proof (taken_kinv _ _ _ Hk Ho Hin) as Hk1.
  destruct tm as [t|p].
  - destruct (ki_suspend _ Hk t TLHard ltac:(by left) Hin) as (th & Ht & Hs).
    destruct (live_timer t s o v (ki_live _ Hk t th Ht ltac:(by rewrite Hs)) Ho Hv) as [_ ->].
    simpl.
    eapply wp_mono, wp_rt_thread_timeout; [|done|done|exact Ht|done|].
    + intros _ s' (? & ? & th' & ? & ? & ? & ? & ? & ? & ? & ?). done.
    + intros h Hh. simpl. unfold list_insert_after. rewrite insert_ne by (intros <-; by destruct Hh).
      intros Hn. by apply elem_of_list_remove in Hn as [_ []].
  - destruct (Hto _ _ _ Ho Hv) as [Hu _]. destruct (Hu p eq_refl) as [f ->]. simpl.
    by apply user_ok.
Qed.

(** One iteration on the due timer [t] at the head of the list. *)
Record check_step (t : tmid) (o : rt_object) (v : rt_timer) (s s' : kstate) : Prop := {
  st_inv : check_inv s';
  st_tick : k_tick s' = k_tick s;
  st_other : forall u, u ≠ t -> (u ∈ k_trow s' TLHard <-> u ∈ k_trow s TLHard) /\
    timeout_of s' u = timeout_of s u /\ k_obj s' !! OTimer u = k_obj s !! OTimer u /\
    k_timers s' !! u = k_timers s !! u;
  st_head : if periodic o
            then t ∈ k_trow s' TLHard /\ timeout_of s' t = Some (start_tick v s)
            else forall h, t ∉ k_trow s' h;
  st_due : S (due_count s' (k_trow s' TLHard)) = due_count s (k_trow s TLHard);
  st_live : exists o' v', k_obj s' !! OTimer t = Some o' /\ k_timers s' !! t = Some v' /\
    periodic o' = periodic o
}.


(** The invariant survives a change of [t] alone. *)
Lemma pending_other t s s' l :
  pending s -> k_trow s TLHard = t :: l -> k_tick s' = k_tick s ->
  (forall u, u ≠ t -> timeout_of s' u = timeout_of s u) -> t ∉ l ->
  in_window (timeout_of s') (k_tick s') l /\ sorted (timeout_of s') (k_tick s') l.
Proof.
  intros [Hw Hs] Hl Et Ht Hn. rewrite Hl in Hw, Hs. apply Forall_cons in Hw as [_ Hw].
  apply StronglySorted_inv in Hs as [Hs _]. rewrite Et.
  assert (E : forall u, u ∈ l -> timeout_of s' u = timeout_of s u).
  { intros u Hu. apply Ht. by intros ->. }
  split.
  - unfold in_window in *. rewrite Forall_forall in *. intros u Hu. unfold toff. rewrite E by done.
    by apply Hw.
  - unfold sorted in *. clear Hw Hl Hn Ht. induction Hs as [|u l Hs IH Hf]; constructor.
    + apply IH. intros; apply E; clear -H; mem.
    + rewrite Forall_forall in *. intros w Hu. unfold toff. rewrite !E by (clear -Hu; mem).
      by apply Hf.
Qed.

Lemma restart_oneshot t o v s s2 l :
  check_inv s -> k_trow s TLHard = t :: l -> toff (timeout_of s) (k_tick s) t = 0 ->
  k_obj s !! OTimer t = Some o -> k_timers s !! t = Some v -> periodic o = false ->
  kinv s2 -> is_Some (k_current s2) -> quiet (taken t o TLTmp s) s2 ->
  check_step t o v s (set_k_trow (list_remove t) s2).
Proof.
  intros (Hk & Hc & Hp & Hto & Htk & Htmp) Hl Hd Ho Hv Hper Hk2 Hc2 (Q1 & Q2 & Q3 & Q4).
  pose proof (ti_space _ (ki_timer _ Hk)) as [Hnd _].
  specialize (Hnd TLHard). rewrite Hl in Hnd. apply NoDup_cons in Hnd as [Hnl Hnd].
  simpl in Q1, Q2, Q3, Q4.
  assert (Hto' : taken_obj o = clear_active o) by (unfold taken_obj; by rewrite Hper).
  rewrite Hto' in Q2.
  set (s3 := set_k_trow (list_remove t) s2).
  assert (Hlist : k_trow s3 TLHard = l).
  { simpl. rewrite Q1. unfold list_insert_after, list_remove. rewrite insert_ne, Hl by done.
    rewrite filter_cons_False by tauto. by rewrite !filter_notin by (rewrite ?filter_notin; done). }
  assert (Htime : forall u, timeout_of s3 u = timeout_of s u) by (intros; unfold timeout_of; simpl; by rewrite Q3).
  split.
  - split; [|split; [done|split; [|split; [|split]]]].
    + apply (unlink_kinv t (clear_active o)); [done|by rewrite Q2, lookup_insert_eq|apply clear_active_flags].
    + unfold pending. rewrite Hlist. eapply pending_other; [done|done|done|by intros|done].
    + intros tm o' v' Ho' Hv'. simpl in Ho', Hv'. rewrite Q2 in Ho'. rewrite Q3 in Hv'.
      apply lookup_insert_Some in Ho' as [[[= <-] <-]|[Hne Ho']]; [|by eapply Hto].
      destruct (Hto t o v' Ho Hv') as [? ?]. split; [done|].
      destruct (clear_active_flags o) as (_ & -> & _). by rewrite Hper.
    + simpl. by rewrite Q4.
    + simpl. rewrite Q1. unfold list_insert_after, list_remove. rewrite insert_eq, Htmp.
      by rewrite filter_cons_False by tauto.
  - done.
  - intros u Hu. rewrite Hlist, Hl, elem_of_cons. split; [|split; [done|split]].
    + split; [by right|by intros [|]].
    + simpl. rewrite Q2. by rewrite lookup_insert_ne by congruence.
    + simpl. by rewrite Q3.
  - rewrite Hper. intros h. apply list_remove_unlinked.
  - rewrite Hlist, Hl. simpl due_count. rewrite decide_True by done.
    by rewrite (due_count_ext s s3) by done.
  - exists (clear_active o), v. simpl. rewrite Q2, Q3, lookup_insert_eq.
    split; [done|]. split; [done|]. apply clear_active_flags.
Qed.

(** The state a periodic timer is restarted in, and the restart. *)
Lemma restart_periodic t o v s s2 l l1 l2 :
  check_inv s -> k_trow s TLHard = t :: l ->
  k_obj s !! OTimer t = Some o -> k_timers s !! t = Some v -> periodic o = true ->
  toff (timeout_of s) (k_tick s) t = 0 ->
  kinv s2 -> is_Some (k_current s2) -> quiet (taken t o TLTmp s) s2 ->
  soft o = false -> active o = true -> class_of o = RT_Object_Class_Timer ->
  l = l1 ++ l2 ->
  Forall (fun u => toff (timeout_of s) (k_tick s) u <= tm_init_tick v) l1 ->
  (forall u l', l2 = u :: l' -> tm_init_tick v < toff (timeout_of s) (k_tick s) u) ->
  check_step t o v s (started t (clear_active o) v (l1 ++ t :: l2) (stop_timer t o s2)).
Proof.
  intros (Hk & Hc & Hp & Hto & Htk & Htmp) Hl Ho Hv Hper Hd Hk2 Hc2 (Q1 & Q2 & Q3 & Q4)
    Hsoft Hact Hcls El H1 H2.
  pose proof (ti_space _ (ki_timer _ Hk)) as [Hnd _].
  specialize (Hnd TLHard). rewrite Hl in Hnd. apply NoDup_cons in Hnd as [Hnl Hnd].
  simpl in Q1, Q2, Q3, Q4. destruct (Hto t o v Ho Hv) as [_ Hi]. specialize (Hi Hper).
  assert (Hto' : taken_obj o = o) by (unfold taken_obj; by rewrite Hper).
  rewrite Hto', insert_id in Q2 by done.
  pose proof (clear_active_flags o) as (C1 & C2 & C3 & C4).
  pose proof (started_flags (clear_active o)) as (F1 & F2 & F3 & F4).
  set (s3 := stop_timer t o s2). set (s4 := started t (clear_active o) v (l1 ++ t :: l2) s3).
  assert (Hk3 : kinv s3).
  { destruct (kinv_stopped t o s2 Hk2) as [Hk3 _]; [by rewrite Q2|done|].
    unfold stopped in Hk3. by rewrite Q2, Ho, Hact in Hk3. }
  assert (Hrow : list_remove t (k_trow s3) TLHard = l).
  { simpl. rewrite Q1. unfold list_insert_after, list_remove. rewrite insert_ne, Hl by done.
    rewrite filter_cons_False by tauto.
    by rewrite !filter_notin by (rewrite ?filter_notin by (rewrite ?filter_notin; done); done). }
  assert (Hlist : k_trow s4 TLHard = l1 ++ t :: l2) by (simpl; by rewrite insert_eq).
  assert (Hst : start_tick v s3 = start_tick v s) by (unfold start_tick; simpl; by rewrite Q4).
  assert (Htt : timeout_of s4 t = Some (start_tick v s)).
  { unfold timeout_of. simpl. rewrite lookup_insert_eq. simpl. by rewrite Hst. }
  assert (Htime : forall u, u ≠ t -> timeout_of s4 u = timeout_of s u).
  { intros u Hu. unfold timeout_of. simpl. by rewrite lookup_insert_ne, Q3. }
  assert (Hoff : off (k_tick s) (start_tick v s) = tm_init_tick v).
  { unfold start_tick. rewrite off_add. change half with 2147483647 in Hi. apply wrap_small. lia. }
  assert (Etick : k_tick s4 = k_tick s) by (simpl; by rewrite Q4).
  assert (Hperm : Permutation (l1 ++ t :: l2) (t :: list_remove t (k_trow s3) TLHard)).
  { rewrite Hrow, El. by rewrite Permutation_middle. }
  assert (Hin : forall u, u ∈ l1 ++ l2 -> timeout_of s4 u = timeout_of s u).
  { intros u Hu. apply Htime. intros ->. by rewrite <- El in Hu. }
  split.
  - split; [|split; [done|split; [|split; [|split]]]].
    + apply started_kinv; [done|simpl; by rewrite lookup_insert_eq|by rewrite C4
        |simpl; by rewrite Q3|by rewrite C3|done|].
      intros u ->. destruct (ki_suspend _ Hk u TLHard ltac:(by left)) as (th & Hth & Hs);
        [rewrite Hl; clear; mem|].
      destruct (live_timer u s o v (ki_live _ Hk u th Hth ltac:(by rewrite Hs)) Ho Hv) as [? _].
      congruence.
    + unfold pending. rewrite Hlist, Etick. destruct Hp as [Hw Hs]. rewrite Hl in Hw, Hs. split.
      * apply Forall_cons in Hw as [_ Hw]. unfold in_window in *. rewrite Forall_forall in *.
        intros u Hu. destruct (decide (u = t)) as [->|Hne].
        -- rewrite Htt. split; [done|]. unfold toff. rewrite Htt. simpl. rewrite Hoff. lia.
        -- unfold toff. rewrite Htime by done. apply Hw. rewrite El. clear -Hu Hne. mem.
      * apply StronglySorted_inv in Hs as [Hs _]. rewrite El in Hs.
        apply (sorted_insert (timeout_of s) (timeout_of s4) (k_tick s) t (start_tick v s));
          rewrite ?Hoff; [exact Hs|exact H1|exact H2|exact Hin|exact Htt].
    + intros tm o' v' Ho' Hv'. simpl in Ho', Hv'. rewrite Q2 in Ho'. rewrite Q3 in Hv'.
      destruct (decide (tm = t)) as [->|Hne].
      * rewrite !lookup_insert_eq in *. simplify_eq. split; [apply (Hto t o v Ho Hv)|intros _; exact Hi].
      * rewrite !lookup_insert_ne in Ho' by congruence. rewrite lookup_insert_ne in Hv' by done.
        by apply (Hto tm o' v').
    + by rewrite Etick.
    + simpl. rewrite insert_ne by done. rewrite Q1. unfold list_insert_after, list_remove.
      rewrite insert_eq, Htmp. by rewrite filter_cons_False by tauto.
  - done.
  - intros u Hu. rewrite Hlist, Hl, El. split; [clear -Hu; split; intros ?; mem|].
    split; [by apply Htime|]. simpl. rewrite Q2, Q3. by rewrite !lookup_insert_ne by congruence.
  - rewrite Hper. split; [rewrite Hlist; clear; mem|done].
  - rewrite Hlist, Hl, El. simpl due_count. rewrite decide_True by done.
    rewrite !due_count_app. simpl due_count. rewrite decide_False.
    + rewrite !(due_count_ext s s4) by (done || (intros; apply Hin; clear -H; mem)). lia.
    + unfold toff. rewrite Htt. change (off (k_tick s4) (start_tick v s) ≠ 0). rewrite Etick, Hoff. lia.
  - do 2 eexists. simpl. rewrite !lookup_insert_eq. split; [done|]. split; [done|]. by rewrite F3, C2.
Qed.

Lemma head_facts t l s :
  check_inv s -> k_trow s TLHard = t :: l -> exists o v,
    k_obj s !! OTimer t = Some o /\ k_timers s !! t = Some v /\
    class_of o = RT_Object_Class_Timer /\ soft o = false /\ active o = true.
Proof.
  intros (Hk & _) Hl. destruct (ti_list _ (ki_timer _ Hk) TLHard t) as (o & v & H1 & H2 & H3 & H4 & H5).
  { rewrite Hl. clear. mem. }
  exists o, v. repeat split; try done. apply H5. by left.
Qed.

Lemma wp_restart_due t o v s s2 l :
  check_inv s -> k_trow s TLHard = t :: l -> toff (timeout_of s) (k_tick s) t = 0 ->
  k_obj s !! OTimer t = Some o -> k_timers s !! t = Some v ->
  class_of o = RT_Object_Class_Timer -> soft o = false -> active o = true ->
  kinv s2 -> is_Some (k_current s2) -> quiet (taken t o TLTmp s) s2 ->
  wp (restart_due timer_thread t TLTmp) (fun _ s' => check_step t o v s s') s2.
Proof.
  intros Hci Hl Hd Ho Hv Hcls Hsoft Hact Hk2 Hc2 Hq.
  pose proof Hci as (Hk & Hc & Hp & Hto & Htk & Htmp). pose proof Hq as (Q1 & Q2 & Q3 & Q4).
  simpl in Q1, Q2, Q3, Q4. pose proof (taken_obj_flags o) as (_ & Hper & _ & _).
  pose proof (clear_active_flags o) as (_ & _ & C3 & C4).
  unfold restart_due. rewrite wp_bind, wp_gets. unfold list_isempty.
  rewrite bool_decide_eq_false_2 by (rewrite Q1; unfold list_insert_after; by rewrite insert_eq).
  unfold _rt_timer_remove, trow_modify. repeat wp_step.
  eapply wp_get_obj; [simpl; rewrite Q2; apply lookup_insert_eq|].
  unfold is_periodic, is_activated. rewrite test_periodic, test_active, !negb_involutive, Hper.
  destruct (periodic o) eqn:Eper; simpl; [|by eapply restart_oneshot].
  assert (Eo : taken_obj o = o) by (unfold taken_obj; by rewrite Eper).
  rewrite Eo, insert_id in Q2 by done. rewrite Eo, Hact. cbn [andb]. unfold when. repeat wp_step.
  eapply wp_upd_obj; [simpl; by rewrite Q2|]. repeat wp_step.
  pose proof (ti_space _ (ki_timer _ Hk)) as [Hnd _]. specialize (Hnd TLHard).
  rewrite Hl in Hnd. apply NoDup_cons in Hnd as [Hnl _].
  match goal with |- wp _ _ ?s3 => change s3 with (stop_timer t o s2) end.
  assert (Hrow : list_remove t (k_trow (stop_timer t o s2)) TLHard = l).
  { simpl. rewrite Q1. unfold list_insert_after, list_remove. rewrite insert_ne, Hl by done.
    rewrite filter_cons_False by tauto.
    by rewrite !filter_notin by (rewrite ?filter_notin by (rewrite ?filter_notin; done); done). }
  assert (Htime : timeout_of (stop_timer t o s2) = timeout_of s) by (unfold timeout_of; simpl; by rewrite Q3).
  eapply (wp_rt_timer_start_hard _ _ (clear_active o) v).
  - exists (clear_active o), v. simpl. rewrite lookup_insert_eq, Q3, C4. done.
  - simpl. by rewrite lookup_insert_eq.
  - simpl. by rewrite Q3.
  - by rewrite C3.
  - destruct (Hto t o v Ho Hv) as [_ Hi]. specialize (Hi Eper). lia.
  - simpl. by rewrite Q4.
  - rewrite Hrow, Htime. simpl. rewrite Q4. destruct Hp as [Hw _]. rewrite Hl in Hw.
    by apply Forall_cons in Hw as [_ Hw].
  - rewrite Hrow, Htime. simpl k_tick. rewrite Q4. intros l1 l2 El H1 H2.
    repeat wp_step. by eapply restart_periodic.
Qed.

Lemma check_step_checked t o v s s1 s' u :
  k_obj s !! OTimer t = Some o -> k_timers s !! t = Some v ->
  t ∈ k_trow s TLHard -> toff (timeout_of s) (k_tick s) t = 0 ->
  (periodic o = true -> 0 < tm_init_tick v < half) ->
  check_step t o v s s1 -> checked s1 s' u -> checked s s' u.
Proof.
  intros Ho Hv Hin Hd Hi [_ Et Hother Hhead _ (o' & v' & Ho' & Hv' & Ep)] Hc.
  destruct (decide (u = t)) as [->|Hne].
  - unfold checked in *. rewrite Ho, Hv, (decide_True _ _ Hin), (decide_True _ _ Hd).
    rewrite Ho', Hv', Ep in Hc. destruct (periodic o).
    + destruct Hhead as [Hin1 Ht1]. rewrite (decide_True _ _ Hin1) in Hc. rewrite decide_False in Hc.
      * by rewrite Ht1 in Hc.
      * unfold toff. rewrite Ht1, Et. simpl. unfold start_tick. rewrite off_add.
        specialize (Hi eq_refl). change half with 2147483647 in Hi. rewrite wrap_small; lia.
    + by rewrite decide_False in Hc.
  - destruct (Hother u Hne) as (Hm & Ht & Hou & Hvu). unfold checked in *.
    rewrite Hou, Hvu in Hc. destruct (k_obj s !! OTimer u) as [ou|]; [|done].
    destruct (k_timers s !! u) as [vu|]; [|done].
    assert (toff (timeout_of s1) (k_tick s1) u = toff (timeout_of s) (k_tick s) u) as Eoff
      by (unfold toff; by rewrite Ht, Et).
    assert (start_tick vu s1 = start_tick vu s) as Es by (unfold start_tick; by rewrite Et).
    rewrite Eoff, Es, Ht in Hc.
    destruct (decide (u ∈ k_trow s TLHard)) as [H|H];
      destruct (decide (u ∈ k_trow s1 TLHard)) as [H'|H']; tauto.
Qed.

Lemma not_due_checked s u : due_count s (k_trow s TLHard) = 0%nat -> checked s s u.
Proof.
  intros Hd. unfold checked. destruct (k_obj s !! OTimer u) as [o|]; [|done].
  destruct (k_timers s !! u) as [v|]; [|done].
  destruct (decide (u ∈ k_trow s TLHard)) as [Hin|]; [|done].
  rewrite decide_False; [done|]. revert Hd Hin. generalize (k_trow s TLHard). intros l.
  induction l as [|w l IH]; intros Hd Hin; [by apply elem_of_nil in Hin|]. simpl in Hd.
  apply elem_of_cons in Hin as [->|Hin]; [by case_decide|]. apply IH; [|done]. case_decide; lia.
Qed.

(** The loop, from any state the check can be in. *)
Lemma wp_timer_check_loop fuel s :
  check_inv s -> (due_count s (k_trow s TLHard) < fuel)%nat ->
  wp (timer_check_loop timer_thread user fuel (k_tick s)) (fun _ s' =>
    check_inv s' /\ k_tick s' = k_tick s /\ due_count s' (k_trow s' TLHard) = 0%nat /\
    forall u, checked s s' u) s.
Proof.
  revert s. induction fuel as [|fuel IH]; intros s Hci Hf; [lia|]. simpl.
  pose proof Hci as (Hk & Hc & Hp & Hto & Htk & Htmp).
  rewrite wp_bind, wp_gets. unfold list_isempty. destruct (k_trow s TLHard) as [|t l] eqn:El.
  { rewrite bool_decide_eq_true_2 by done. rewrite wp_ret. rewrite El.
    split; [done|]. split; [done|]. split; [done|]. intros u. apply not_due_checked. by rewrite El. }
  rewrite bool_decide_eq_false_2 by done.
  destruct (head_facts _ _ _ Hci El) as (o & v & Ho & Hv & Hcls & Hsoft & Hact).
  rewrite wp_bind. unfold first_timer. eapply wp_deref; [by rewrite El|].
  rewrite wp_bind. eapply wp_get_timer; [done|].
  assert (Htoff : toff (timeout_of s) (k_tick s) t = off (k_tick s) (tm_timeout_tick v)).
  { unfold toff, timeout_of. by rewrite Hv. }
  pose proof Hp as [Hw _]. rewrite El in Hw. apply Forall_cons in Hw as [[_ Hw] _].
  rewrite due_off by (rewrite <- ?Htoff; done). rewrite <- Htoff.
  case_bool_decide as Hd.
  - rewrite wp_bind. eapply wp_take_due; [done|]. rewrite wp_bind.
    eapply wp_mono, wp_invoke; [|done|done|done|exact Ho|exact Hv|rewrite El; clear; mem].
    intros _ s2 (Hk2 & Hc2 & Hq). unfold rt_tick_get. rewrite wp_bind, wp_gets, wp_bind.
    apply (wp_mono _ (fun _ s1 => check_step t o v s s1)); [|by eapply wp_restart_due].
    intros _ s1 Hs1. pose proof (st_inv _ _ _ _ _ Hs1) as Hci1.
    pose proof (st_tick _ _ _ _ _ Hs1) as Et1. pose proof (st_due _ _ _ _ _ Hs1) as Hd1.
    destruct Hq as (_ & _ & _ & Q4). simpl in Q4. rewrite Q4, <- Et1.
    assert (Hf1 : (due_count s1 (k_trow s1 TLHard) < fuel)%nat) by (rewrite El in Hd1; lia).
    eapply wp_mono, IH; [|done|done].
    intros _ s' (Hci' & Et' & Hd' & Hchk). split; [done|]. split; [by rewrite Et'|]. split; [done|].
    intros u. eapply check_step_checked; [done|done|rewrite El; clear; mem|done| |done|done].
    apply (Hto t o v Ho Hv).
  - rewrite wp_ret. split; [done|]. split; [done|].
    assert (Hz : due_count s (k_trow s TLHard) = 0%nat).
    { destruct Hp as [_ Hs]. rewrite El in *. simpl. rewrite decide_False by done. simpl.
      apply StronglySorted_inv in Hs as [_ Hs].
      pose proof (off_range (k_tick s) (default 0 (timeout_of s t))) as Hr.
      assert (Hpos : 0 < toff (timeout_of s) (k_tick s) t) by (unfold toff in *; lia).
      clear -Hs Hpos. induction Hs as [|w l Hle Hs IH]; [done|]. simpl.
      rewrite decide_False by lia. by apply IH. }
    split; [done|]. intros u. by apply not_due_checked.
Qed.
End check.

(** ** Properties *)

Lemma list_init_id {H N} `{EqDecision H} (L : H -> list N) hd :
  L hd = [] -> list_init hd L = L.
Proof.
  intros E. apply functional_extensionality. intros h.
  unfold list_init, insert, fn_insert. by case_decide; subst.
Qed.

Lemma set_k_trow_id f s : f (k_trow s) = k_trow s -> set_k_trow f s = s.
Proof. destruct s. unfold set_k_trow. cbn. by intros ->. Qed.

Lemma due_count_length s l : (due_count s l <= length l)%nat.
Proof. induction l as [|u l IH]; simpl; [done|]. case_decide; lia. Qed.

Lemma wp_rt_timer_check timer_thread user s :
  (forall f s, kinv s -> is_Some (k_current s) ->
     wp (user f) (fun _ s' => kinv s' /\ is_Some (k_current s') /\ quiet s s') s) ->
  check_inv s ->
  wp (rt_timer_check timer_thread user (S (length (k_trow s TLHard)))) (fun _ s' =>
    check_inv s' /\ k_tick s' = k_tick s /\ due_count s' (k_trow s' TLHard) = 0%nat /\
    forall u, checked s s' u) s.
Proof.
  intros Hu Hci. unfold rt_timer_check, trow_modify. repeat wp_step.
  assert (set_k_trow (list_init TLTmp) s = s) as ->.
  { apply set_k_trow_id, list_init_id. apply Hci. }
  unfold rt_tick_get. repeat wp_step. apply wp_timer_check_loop; [done|done|].
  pose proof (due_count_length s (k_trow s TLHard)). lia.
Qed.


(** Removing a timer keeps the others in order. *)
Lemma pending_remove tm s :
  pending s -> in_window (timeout_of s) (k_tick s) (list_remove tm (k_trow s) TLHard) /\
               sorted (timeout_of s) (k_tick s) (list_remove tm (k_trow s) TLHard).
Proof.
  intros [Hw Hso]. split.
  - unfold in_window in *. rewrite Forall_forall in *. intros u [Hu _]%elem_of_list_remove. by apply Hw.
  - unfold sorted, list_remove in *. clear -Hso. induction Hso as [|u l Hss IH Hf]; [constructor|].
    rewrite filter_cons. case_decide; [|done]. constructor; [done|].
    rewrite Forall_forall in *. intros w [_ Hw]%list_elem_of_filter. by apply Hf.
Qed.

Lemma start_off v s : 0 <= tm_init_tick v < half -> off (k_tick s) (start_tick v s) = tm_init_tick v.
Proof.
  intros Hi. unfold start_tick. rewrite off_add. change half with 2147483647 in Hi.
  apply wrap_small. lia.
Qed.

Lemma started_pending tm o v l1 l2 s :
  pending s -> 0 <= tm_init_tick v < half ->
  list_remove tm (k_trow s) TLHard = l1 ++ l2 ->
  Forall (fun t => toff (timeout_of s) (k_tick s) t <= tm_init_tick v) l1 ->
  (forall t l', l2 = t :: l' -> tm_init_tick v < toff (timeout_of s) (k_tick s) t) ->
  let s' := started tm o v (l1 ++ tm :: l2) s in
  pending s' /\ k_trow s' TLHard = l1 ++ tm :: l2 /\ timeout_of s' tm = Some (start_tick v s).
Proof.
  intros Hp Hi El H1 H2 s'. destruct (pending_remove tm s Hp) as [Hw Hso].
  pose proof (start_off v s Hi) as Hoff.
  assert (Hrow : k_trow s' TLHard = l1 ++ tm :: l2) by (simpl; by rewrite insert_eq).
  assert (Htt : timeout_of s' tm = Some (start_tick v s)).
  { unfold timeout_of. simpl. by rewrite lookup_insert_eq. }
  assert (Htime : forall u, u ∈ l1 ++ l2 -> timeout_of s' u = timeout_of s u).
  { intros u Hu. rewrite <- El in Hu. apply elem_of_list_remove in Hu as [_ Hu]. unfold timeout_of.
    simpl. by rewrite lookup_insert_ne. }
  rewrite El in Hw, Hso. split; [split|done]; rewrite Hrow; change (k_tick s') with (k_tick s).
  - unfold in_window in *. rewrite Forall_forall in *. intros u Hu.
    assert (u = tm \/ u ∈ l1 ++ l2) as [->|Hu'] by (clear -Hu; mem).
    + unfold toff. rewrite Htt. split; [done|]. simpl. rewrite Hoff. lia.
    + unfold toff. rewrite Htime by done. by apply Hw.
  - apply (sorted_insert (timeout_of s) (timeout_of s') (k_tick s) tm (start_tick v s));
      rewrite ?Hoff; [exact Hso|exact H1|exact H2|exact Htime|exact Htt].
Qed.

Lemma pending_ext s s' :
  k_timers s' = k_timers s -> k_tick s' = k_tick s -> k_trow s' TLHard = k_trow s TLHard ->
  pending s -> pending s'.
Proof. intros E1 E2 E3. unfold pending, timeout_of. by rewrite E1, E2, E3. Qed.

Lemma stopped_pending tm s : pending s -> pending (stopped tm s).
Proof.
  intros Hp. unfold stopped. destruct (k_obj s !! OTimer tm) as [o|]; [|done].
  destruct (active o); [|done]. destruct (pending_remove tm s Hp). by split.
Qed.

(** Starting a hard timer queues it [init_tick] ticks ahead, modulo 2^32: behind
    every timer due no later, so first come first served at equal times, and before
    those due later; the list stays in order and the kernel invariant holds. *)
Theorem rt_timer_start_spec timer_thread p o v s :
  kinv s -> k_obj s !! OTimer (TUser p) = Some o -> class_of o = RT_Object_Class_Timer ->
  k_timers s !! TUser p = Some v -> soft o = false ->
  0 <= tm_init_tick v < half -> 0 <= k_tick s < 2 ^ 32 -> pending s ->
  wp (rt_timer_start timer_thread (TUser p)) (fun r s' => r = RT_EOK /\ kinv s' /\ pending s' /\
    exists l1 l2, k_trow s' TLHard = l1 ++ TUser p :: l2 /\
      list_remove (TUser p) (k_trow s) TLHard = l1 ++ l2 /\
      timeout_of s' (TUser p) = Some (start_tick v s) /\
      Forall (fun t => toff (timeout_of s) (k_tick s) t <= tm_init_tick v) l1 /\
      Forall (fun t => tm_init_tick v < toff (timeout_of s) (k_tick s) t) l2) s.
Proof.
  intros Hk Ho Hc Hv Hs Hi Ht Hp. destruct (pending_remove (TUser p) s Hp) as [Hw Hso].
  eapply (wp_rt_timer_start_hard _ _ o v); [by exists o, v|done|done|done|done|done|done|].
  intros l1 l2 El H1 H2.
  destruct (started_pending (TUser p) o v l1 l2 s Hp Hi El H1 H2) as (Hp' & Hrow & Htt).
  split; [done|]. split; [|split; [done|]].
  - apply started_kinv; try done. rewrite El. by rewrite Permutation_middle.
  - exists l1, l2. split; [exact Hrow|]. split; [exact El|]. split; [exact Htt|]. split; [exact H1|].
    rewrite El in Hso. clear -Hso H2. unfold sorted in Hso. induction l1 as [|u l1 IH].
    + simpl in Hso. destruct l2 as [|u l2]; [constructor|]. specialize (H2 u l2 eq_refl).
      apply StronglySorted_inv in Hso as [_ Hf]. constructor; [done|].
      rewrite Forall_forall in *. intros w Hw. specialize (Hf w Hw). lia.
    + apply IH. by apply StronglySorted_inv in Hso as [? _].
Qed.

(** ** Concrete instances: tick 50, at which the timer of thread 4 is due, and a free
    periodic timer. *)

Definition sample_timers : kstate :=
  set_k_tick (fun _ => 50)
    (set_k_obj <[OTimer (TUser 1) := mkObject [] 0x8a RT_TIMER_FLAG_PERIODIC]>
      (set_k_timers <[TUser 1 := mkTimer (FUser 7) 100 0]> sample_kernel)).

Lemma sample_timers_kinv : kinv sample_timers.
Proof.
  destruct sample_kinv as [H1 H2 H3 H4 H5]. split.
  - by eapply sched_inv_ext; [..|exact H1].
  - destruct H2 as [O1 O2]. split; [done|]. by intros i o []%elem_of_nil.
  - destruct H3 as [T1 T2 T3]. split; [done| |].
    + intros h tm Hin. apply sample_trow in Hin as [-> ->]. do 2 eexists. by repeat split.
    + intros tm o. simpl. intros [[[= <-] <-]|[_ Ho]]%lookup_insert_Some _ Ha; [done|].
      apply (sample_active _ _ Ho) in Ha as ->. exists TLHard. by apply list_elem_of_singleton.
  - intros t th Ht _. destruct (sample_live t th Ht) as (x & xt & v & Hx & ? & Hxt & ? & ? & ? & ? & Hv & ?).
    exists x, xt, v. cbn [k_obj set_k_obj k_timers set_k_timers sample_timers set_k_tick].
    rewrite !lookup_insert_ne by congruence. done.
  - intros t h _ Hin. apply sample_trow in Hin as [-> [= ->]]. eexists. done.
Qed.

Lemma sample_timers_pending : pending sample_timers.
Proof.
  split.
  - apply Forall_singleton. split; [by eexists|done].
  - apply StronglySorted_cons. split; [constructor|]. constructor.
Qed.

Lemma sample_timers_ok : timers_ok sample_timers.
Proof.
  intros tm o v Ho Hv. cbn [k_obj set_k_obj k_timers set_k_timers sample_timers set_k_tick] in Ho, Hv.
  destruct (decide (tm = TUser 1)) as [->|Hne].
  - rewrite lookup_insert_eq in Ho. rewrite lookup_insert_eq in Hv. simplify_eq. split; [by eexists|done].
  - rewrite lookup_insert_ne in Ho by congruence. rewrite lookup_insert_ne in Hv by done.
    cbn [k_timers k_obj set_k_obj set_k_timers sample_kernel] in Ho, Hv. split.
    + intros p ->. exfalso. revert Hv. rewrite !lookup_insert_ne by done. by rewrite lookup_singleton_ne.
    + intros Hp. exfalso. revert Ho. rewrite !lookup_insert_Some, lookup_singleton_Some.
      intros H. repeat (destruct H as [[H1 H2]|[_ H]]; [by subst|]). by destruct H.
Qed.


Theorem rt_timer_start_spec_witness :
  wp (rt_timer_start 4 (TUser 1)) (fun r s' => r = RT_EOK /\ kinv s' /\ pending s' /\
    exists l1 l2, k_trow s' TLHard = l1 ++ TUser 1 :: l2 /\
      list_remove (TUser 1) (k_trow sample_timers) TLHard = l1 ++ l2 /\
      timeout_of s' (TUser 1) = Some (start_tick (mkTimer (FUser 7) 100 0) sample_timers) /\
      Forall (fun t => toff (timeout_of sample_timers) 50 t <= 100) l1 /\
      Forall (fun t => 100 < toff (timeout_of sample_timers) 50 t) l2) sample_timers.
Proof.
  apply (rt_timer_start_spec 4 1 (mkObject [] 0x8a 2) (mkTimer (FUser 7) 100 0));
    [apply sample_timers_kinv|done|done|done|done|done|done|apply sample_timers_pending].
Defined.
