(* ===== verification/Ipc.v ===== *)
(** * Ipc: rt-thread/src/ipc.c, the wait queues and the semaphores

    What all IPC objects share: suspending a thread on a queue in arrival or priority
    order, with its timer started if the wait is bounded, and waking the threads.  A call
    that may block is cut at its [rt_schedule ()]: it ends in [Returned r], or in
    [Waiting t l], the state in which thread [t] sleeps inside the call with the local
    variables [l]; the rest of the function, which runs when [t] is scheduled again, is a
    definition of its own ([.._resumed]).  Then the semaphores; Mutex, Event and Mailbox
    are the other objects. *)

From Stdlib Require Import FunctionalExtensionality.
From S2P Require Import Prelude RtList Kernel Scheduler Object TimerCore Thread Timer.

#[local] Open Scope Z_scope.

(** ** Definitions *)

Inductive outcome (L A : Type) := Returned (r : A) | Waiting (thread : tid) (l : L).
Arguments Returned {L A} _.
Arguments Waiting {L A} _ _.

(** [RT_ASSERT (rt_object_get_type (&ipc->parent.parent) == class)] *)
Definition is_class (o : objid) (class : Z) : K unit :=
  ty ← rt_object_get_type o; rt_assert (ty =? class).
Definition is_system (o : objid) (b : bool) : K unit :=
  sys ← rt_object_is_systemobject o; rt_assert (bool_decide (sys = b)).
(** [RT_DEBUG_IN_THREAD_CONTEXT] *)
Definition in_thread_context : K unit :=
  current ← rt_thread_self; rt_assert (bool_decide (is_Some current)) ;; not_in_interrupt.

Definition rt_ipc_object_init (ipc : objid) : K Z :=
  tlist_modify (list_init (LSuspend ipc)) ;; mret RT_EOK.

(** The first waiting thread that is less urgent than [priority]. *)
Fixpoint find_position (priority : Z) (l : list tid) : K (option tid) :=
  match l with
  | [] => mret None
  | n :: l =>
      sthread ← get_thread n;
      if priority <? th_current_priority sthread then mret (Some n) else find_position priority l
  end.

Definition rt_ipc_list_suspend (list : lhead) (thread : tid) (flag : Z) : K Z :=
  rt_thread_suspend thread ;;
  (if flag =? RT_IPC_FLAG_FIFO then tlist_modify (list_insert_before list thread)
   else if flag =? RT_IPC_FLAG_PRIO then
     th ← get_thread thread;
     l ← gets (fun s => k_tlist s list);
     n ← find_position (th_current_priority th) l;
     match n with
     | Some sthread => tlist_modify (list_insert_before_node list sthread thread)
     | None => tlist_modify (list_insert_before list thread)
     end
   else mret tt) ;;
  mret RT_EOK.

Definition rt_ipc_list_resume (list : lhead) : K Z :=
  thread ← first_of list;
  rt_thread_resume thread ;;
  mret RT_EOK.

Fixpoint resume_all_loop (fuel : nat) (list : lhead) : K unit :=
  L ← gets k_tlist;
  if list_isempty list L then mret tt
  else match fuel with
       | O => fault
       | S fuel =>
           thread ← first_of list;
           upd_thread thread (set_th_error (fun _ => - RT_ERROR)) ;;
           rt_thread_resume thread ;;
           resume_all_loop fuel list
       end.
(** Each turn wakes one thread, so the loop has as many turns as the list has threads. *)
Definition rt_ipc_list_resume_all (list : lhead) : K Z :=
  L ← gets k_tlist;
  resume_all_loop (length (L list)) list ;;
  mret RT_EOK.

Section ipc.
Context (timer_thread : tid).

(** The end of every wait: the timer of the suspended [thread] is started if [time] is
    positive, and the next thread runs.  The result is the tick at which the timer was
    started. *)
Definition start_and_schedule (thread : tid) (time : Z) : K Z :=
  start ← (if 0 <? time then
     tick ← rt_tick_get;
     rt_timer_control (TThread thread) RT_TIMER_CTRL_SET_TIME time ;;
     rt_timer_start timer_thread (TThread thread) ;;
     mret tick
   else mret 0);
  rt_schedule ;;
  mret start.

(** How the blocking calls put [thread] to sleep on [list]. *)
Definition block (list : lhead) (thread : tid) (flag time : Z) : K Z :=
  rt_ipc_list_suspend list thread flag ;;
  start_and_schedule thread time.

(** [flag] of the object *)
Definition flag_of (o : objid) : K Z := x ← get_obj o; mret (o_flag x).

(** *** Semaphores *)

Definition get_sem (sem : positive) : K rt_semaphore := deref (fun s => k_sems s !! sem).
Definition set_sem (sem : positive) (v : Z) : K unit :=
  get_sem sem ;; modify (set_k_sems <[sem := mkSem v]>).

Definition rt_sem_init (sem : positive) (name : list Z) (value flag : Z) : K Z :=
  rt_assert (value <? 0x10000) ;;
  rt_object_init (OSem sem) RT_Object_Class_Semaphore name ;;
  rt_ipc_object_init (OSem sem) ;;
  modify (set_k_sems <[sem := mkSem (u16 value)]>) ;;
  upd_obj (OSem sem) (set_o_flag (fun _ => flag)) ;;
  mret RT_EOK.

Definition rt_sem_detach (sem : positive) : K Z :=
  is_class (OSem sem) RT_Object_Class_Semaphore ;;
  is_system (OSem sem) true ;;
  rt_ipc_list_resume_all (LSuspend (OSem sem)) ;;
  rt_object_detach (OSem sem) ;;
  mret RT_EOK.

Definition rt_sem_create (malloc : option positive) (name : list Z) (value flag : Z) :
    K (option positive) :=
  not_in_interrupt ;;
  rt_assert (value <? 0x10000) ;;
  r ← rt_object_allocate (OSem <$> malloc) RT_Object_Class_Semaphore name;
  match r, malloc with
  | Some _, Some sem =>
      rt_ipc_object_init (OSem sem) ;;
      modify (set_k_sems <[sem := mkSem (u16 value)]>) ;;
      upd_obj (OSem sem) (set_o_flag (fun _ => flag)) ;;
      mret (Some sem)
  | _, _ => mret None
  end.

Definition rt_sem_delete (sem : positive) : K Z :=
  not_in_interrupt ;;
  is_class (OSem sem) RT_Object_Class_Semaphore ;;
  is_system (OSem sem) false ;;
  rt_ipc_list_resume_all (LSuspend (OSem sem)) ;;
  rt_object_delete (OSem sem) ;;
  modify (set_k_sems (delete sem)) ;;
  mret RT_EOK.

Definition rt_sem_take (sem : positive) (time : Z) : K (outcome unit Z) :=
  is_class (OSem sem) RT_Object_Class_Semaphore ;;
  sm ← get_sem sem;
  if 0 <? sem_value sm then
    set_sem sem (u16 (sem_value sm - 1)) ;;
    mret (Returned RT_EOK)
  else if time =? 0 then mret (Returned (- RT_ETIMEOUT))
  else
    in_thread_context ;;
    thread ← self;
    upd_thread thread (set_th_error (fun _ => RT_EOK)) ;;
    flag ← flag_of (OSem sem);
    block (LSuspend (OSem sem)) thread flag time ;;
    mret (Waiting thread tt).
Definition rt_sem_take_resumed (thread : tid) : K Z :=
  th ← get_thread thread;
  if negb (th_error th =? RT_EOK) then mret (th_error th) else mret RT_EOK.

Definition rt_sem_trytake (sem : positive) : K (outcome unit Z) := rt_sem_take sem 0.

Definition rt_sem_release (sem : positive) : K Z :=
  is_class (OSem sem) RT_Object_Class_Semaphore ;;
  sm ← get_sem sem;
  L ← gets k_tlist;
  if negb (list_isempty (LSuspend (OSem sem)) L) then
    rt_ipc_list_resume (LSuspend (OSem sem)) ;;
    rt_schedule ;;
    mret RT_EOK
  else if sem_value sm <? RT_SEM_VALUE_MAX then
    set_sem sem (u16 (sem_value sm + 1)) ;;
    mret RT_EOK
  else mret (- RT_EFULL).

(** [arg] is the value the pointer argument carries. *)
Definition rt_sem_control (sem : positive) (cmd arg : Z) : K Z :=
  is_class (OSem sem) RT_Object_Class_Semaphore ;;
  if cmd =? RT_IPC_CMD_RESET then
    rt_ipc_list_resume_all (LSuspend (OSem sem)) ;;
    set_sem sem (u16 arg) ;;
    rt_schedule ;;
    mret RT_EOK
  else mret (- RT_ERROR).
End ipc.

(** ** The invariant *)

Definition wait_head (h : lhead) : Prop :=
  match h with LSuspend _ | LSender _ | LWait _ => True | _ => False end.

(** The kernel invariant, and: whoever waits on an object is suspended. *)
Record ipc_inv (s : kstate) : Prop := {
  ii_kernel : kinv s;
  ii_wait : forall h t, wait_head h -> t ∈ k_tlist s h ->
    exists th, k_threads s !! t = Some th /\ tstat th = RT_THREAD_SUSPEND
}.

(** The state of the objects themselves, the headers of all but the timers, and the
    interrupt nesting. *)
Definition not_timer (x : objid * rt_object) : Prop :=
  match fst x with OTimer _ => False | _ => True end.
#[global] Instance not_timer_dec x : Decision (not_timer x).
Proof. unfold not_timer. destruct (fst x); apply _. Defined.
Definition objects (s : kstate) :=
  (k_sems s, k_mutexes s, k_events s, k_mailboxes s, k_irq_nest s, filter not_timer (k_obj s)).

Lemma filter_timer (m : gmap objid rt_object) tm o :
  filter not_timer (<[OTimer tm := o]> m) = filter not_timer m.
Proof.
  apply map_eq. intros p. destruct (decide (p = OTimer tm)) as [->|Hne].
  - rewrite !map_lookup_filter, lookup_insert_eq. destruct (m !! OTimer tm); simpl; rewrite ?option_guard_False by intros []; done.
  - by rewrite !map_lookup_filter, lookup_insert_ne by done.
Qed.

(** Equal objects: what that says of one object. *)
Lemma objects_obj s s' o x :
  objects s' = objects s -> (forall tm, o ≠ OTimer tm) -> k_obj s !! o = Some x -> k_obj s' !! o = Some x.
Proof.
  intros E Hn Hx. injection E. intros Ef _ _ _ _ _. apply (f_equal (lookup o)) in Ef.
  assert (Hnt : not_timer (o, x)) by (destruct o as [?|tm|?|?|?|?|?|?|?]; try done; by destruct (Hn tm)).
  assert (Hl : filter not_timer (k_obj s) !! o = Some x) by (by apply map_lookup_filter_Some).
  rewrite Hl in Ef. by apply map_lookup_filter_Some in Ef as [? _].
Qed.
Lemma objects_sems s s' : objects s' = objects s -> k_sems s' = k_sems s.
Proof. intros E. by injection E. Qed.
Lemma objects_mutexes s s' : objects s' = objects s -> k_mutexes s' = k_mutexes s.
Proof. intros E. by injection E. Qed.
Lemma objects_events s s' : objects s' = objects s -> k_events s' = k_events s.
Proof. intros E. by injection E. Qed.
Lemma objects_mailboxes s s' : objects s' = objects s -> k_mailboxes s' = k_mailboxes s.
Proof. intros E. by injection E. Qed.
Lemma objects_irq s s' : objects s' = objects s -> k_irq_nest s' = k_irq_nest s.
Proof. intros E. by injection E. Qed.

Lemma ipc_inv_ext s s' :
  ipc_inv s -> k_threads s' = k_threads s -> k_tlist s' = k_tlist s -> k_group s' = k_group s ->
  k_current s' = k_current s -> k_obj s' = k_obj s -> k_containers s' = k_containers s ->
  k_timers s' = k_timers s -> k_trow s' = k_trow s -> ipc_inv s'.
Proof. intros [H1 H2] E1 E2. intros. split; [by eapply kinv_ext|]. by rewrite E1, E2. Qed.

Lemma ipc_inv_frame s s' : ipc_inv s -> kinv s' -> frame s s' -> ipc_inv s'.
Proof.
  intros [H1 H2] Hk Hf. split; [done|]. intros h t Hh Hin.
  rewrite (fr_lists _ _ Hf) in Hin by (by intros p ->).
  destruct (H2 h t Hh Hin) as (th & Ht & Hs).
  destruct (frame_lookup _ _ _ _ (frame_sym _ _ Hf) Ht) as (th' & Ht' & E).
  exists th'. split; [done|]. by apply (strip_same_stat RT_THREAD_SUSPEND _ _ E).
Qed.

Lemma wp_schedule_ipc s :
  ipc_inv s -> is_Some (k_current s) ->
  wp rt_schedule (fun _ s' => ipc_inv s' /\ frame s s' /\ is_Some (k_current s')) s.
Proof.
  intros Hi Hc. eapply wp_mono, wp_rt_schedule_k; [|apply Hi|done].
  intros _ s' (Hk & Hf & Hc'). split; [by eapply ipc_inv_frame|done].
Qed.

Lemma frame_pending s s' : frame s s' -> pending s -> pending s'.
Proof.
  intros Hf. destruct (frame_rest _ _ Hf) as (_ & _ & E1 & E2 & _ & _ & E3).
  apply pending_ext; [done|done|by rewrite E2].
Qed.

Lemma frame_objects s s' : frame s s' -> objects s' = objects s.
Proof.
  intros [Hr _ _]. injection Hr. intros E1 E2 E3 E4 E5 _ _ _ _ _ E6 _ _ E7. unfold objects. congruence.
Qed.

Lemma wp_is_class o class x (Q : unit -> kstate -> Prop) s :
  k_obj s !! o = Some x -> class_of x = class -> Q tt s -> wp (is_class o class) Q s.
Proof.
  intros Hx Hc HQ. unfold is_class, rt_object_get_type. rewrite !wp_bind. eapply wp_get_obj; [done|].
  repeat wp_step; [|done]. by apply Z.eqb_eq.
Qed.

Lemma wp_in_thread_context (Q : unit -> kstate -> Prop) s :
  is_Some (k_current s) -> k_irq_nest s = 0 -> Q tt s -> wp in_thread_context Q s.
Proof.
  intros Hc Hn HQ. unfold in_thread_context, rt_thread_self, not_in_interrupt.
  repeat wp_step; [by apply bool_decide_eq_true|by rewrite Hn|done].
Qed.

(** ** The position in a queue *)

(** Where a thread of priority [p] goes in [l1 ++ l2]: last, or, by priority, behind the
    threads at least as urgent and before the first one less urgent. *)
Definition queue_pos (flag p : Z) (l1 l2 : list tid) (s : kstate) : Prop :=
  if flag =? RT_IPC_FLAG_FIFO then l2 = []
  else Forall (fun t => exists th, k_threads s !! t = Some th /\ th_current_priority th <= p) l1 /\
       match l2 with
       | [] => True
       | t :: _ => exists th, k_threads s !! t = Some th /\ p < th_current_priority th
       end.

Lemma wp_find_position p l (Q : option tid -> kstate -> Prop) s :
  Forall (fun t => is_Some (k_threads s !! t)) l ->
  (forall l1 l2, l = l1 ++ l2 -> queue_pos RT_IPC_FLAG_PRIO p l1 l2 s -> Q (head l2) s) ->
  wp (find_position p l) Q s.
Proof.
  intros Hl HQ. revert Q HQ. induction Hl as [|t l [th Ht] Hl IH]; intros Q HQ; cbn [find_position].
  - rewrite wp_ret. by apply (HQ [] []).
  - rewrite wp_bind. eapply wp_get_thread; [done|]. destruct (Z.ltb_spec p (th_current_priority th)).
    + rewrite wp_ret. apply (HQ [] (t :: l)); [done|]. split; [constructor|]. by exists th.
    + apply IH. intros l1 l2 -> [H1 H2]. apply (HQ (t :: l1) l2); [done|].
      split; [|done]. constructor; [by exists th|done].
Qed.

(** ** Going to sleep *)

(** [c] has been put on queue [h] between [l1] and [l2]. *)
Definition enqueued (h : lhead) (c : tid) (th : rt_thread) (l1 l2 : list tid) (s : kstate) : kstate :=
  set_k_tlist <[h := l1 ++ c :: l2]> (suspended c th s).

Lemma suspended_fields c th s :
  k_threads (suspended c th s) = <[c := set_th_stat (with_stat RT_THREAD_SUSPEND) th]> (k_threads s) /\
  k_tlist (suspended c th s) = list_remove c (k_tlist s) /\
  k_current (suspended c th s) = k_current s /\ objects (suspended c th s) = objects s /\
  k_tick (suspended c th s) = k_tick s.
Proof.
  unfold suspended, stopped. destruct (k_obj (park c th (with_stat RT_THREAD_SUSPEND) s) !! OTimer (TThread c)) as [o|];
    [destruct (active o)|]; repeat (split; [done|]); try done.
  split; [|done]. unfold objects. simpl. by rewrite filter_timer.
Qed.

Lemma list_remove_off {H N} `{EqDecision N} (n : N) (L : H -> list N) h :
  unlinked n L -> list_remove n L h = L h.
Proof. intros Hu. by apply list_remove_unlinked_id. Qed.

Lemma running_unlinked c th s :
  kinv s -> k_threads s !! c = Some th -> tstat th = RT_THREAD_RUNNING -> unlinked c (k_tlist s).
Proof. intros Hk Ht Hs. destruct (ki_sched _ Hk) as [_ [_ C2]]. by eapply C2. Qed.

Lemma kinv_enqueue h c th l1 l2 s :
  kinv s -> wait_head h -> k_threads s !! c = Some th -> tstat th = RT_THREAD_SUSPEND ->
  unlinked c (k_tlist s) -> k_tlist s h = l1 ++ l2 -> kinv (set_k_tlist <[h := l1 ++ c :: l2]> s).
Proof.
  intros Hk Hh Ht Hs Hu El.
  assert (Hready : forall p, <[h := l1 ++ c :: l2]> (k_tlist s) (LReady p) = k_tlist s (LReady p)).
  { intros p. rewrite insert_ne; [done|]. by intros ->. }
  eapply kinv_sched_change; [exact Hk| |done..|eauto|eauto].
  destruct (ki_sched _ Hk) as [[H1 H2 H3 H4 H5 H6] [C1 C2]]. split; split; simpl.
  - apply (wf_space_insert _ _ c); [done|done|]. rewrite El. by rewrite Permutation_middle.
  - done.
  - intros p t. rewrite Hready. apply H3.
  - intros t tht. rewrite Hready. apply H4.
  - done.
  - intros p Hp. rewrite Hready. by apply H6.
  - done.
  - intros t tht Htt Hst. destruct (C2 t tht Htt Hst) as [? Hul]. split; [done|].
    intros h'. destruct (decide (h = h')) as [<-|Hne]; [|rewrite insert_ne by done; apply Hul].
    rewrite insert_eq. assert (Htc : t ≠ c) by (intros ->; simplify_eq; by rewrite Hs in Hst).
    specialize (Hul h). rewrite El in Hul. clear -Hul Htc. mem.
Qed.

Lemma ipc_inv_enqueued h c th l1 l2 s :
  ipc_inv s -> wait_head h -> k_threads s !! c = Some th -> tstat th = RT_THREAD_RUNNING ->
  kinv (suspended c th s) -> k_tlist s h = l1 ++ l2 -> ipc_inv (enqueued h c th l1 l2 s).
Proof.
  intros Hi Hh Ht Hs Hk El. pose proof (running_unlinked _ _ _ (ii_kernel _ Hi) Ht Hs) as Hu.
  destruct (suspended_fields c th s) as (F1 & F2 & F3 & F4 & F5).
  assert (Hc : k_threads (suspended c th s) !! c = Some (set_th_stat (with_stat RT_THREAD_SUSPEND) th)).
  { by rewrite F1, lookup_insert_eq. }
  split.
  - eapply kinv_enqueue; [done|done|exact Hc|by apply tstat_with| |].
    + rewrite F2. apply list_remove_unlinked.
    + rewrite F2, list_remove_off by done. done.
  - intros h' t Hh'. unfold enqueued. cbn [k_tlist k_threads set_k_tlist]. rewrite F1, F2. intros Hin.
    destruct (decide (c = t)) as [<-|Hne].
    + eexists. split; [apply lookup_insert_eq|]. by apply tstat_with.
    + rewrite lookup_insert_ne by done. apply (ii_wait _ Hi h'); [done|].
      destruct (decide (h = h')) as [<-|Hn].
      * rewrite insert_eq in Hin. rewrite El. clear -Hin Hne. mem.
      * rewrite insert_ne, list_remove_off in Hin by done. done.
Qed.

Definition ipc_flag (flag : Z) : Prop := flag = RT_IPC_FLAG_FIFO \/ flag = RT_IPC_FLAG_PRIO.

Lemma wp_rt_ipc_list_suspend h c th flag (Q : Z -> kstate -> Prop) s :
  ipc_inv s -> wait_head h -> k_threads s !! c = Some th -> tstat th = RT_THREAD_RUNNING ->
  ipc_flag flag ->
  (forall l1 l2, k_tlist s h = l1 ++ l2 -> queue_pos flag (th_current_priority th) l1 l2 s ->
     ipc_inv (enqueued h c th l1 l2 s) -> Q RT_EOK (enqueued h c th l1 l2 s)) ->
  wp (rt_ipc_list_suspend h c flag) Q s.
Proof.
  intros Hi Hh Ht Hs Hf HQ. pose proof (running_unlinked _ _ _ (ii_kernel _ Hi) Ht Hs) as Hu.
  destruct (suspended_fields c th s) as (F1 & F2 & _).
  assert (El : k_tlist (suspended c th s) h = k_tlist s h) by (by rewrite F2, list_remove_off).
  unfold rt_ipc_list_suspend. rewrite wp_bind.
  eapply wp_rt_thread_suspend; [apply Hi|exact Ht|by rewrite Hs|].
  rewrite bool_decide_eq_true_2 by (by rewrite Hs). intros Hk.
  assert (HQ' : forall l1 l2, k_tlist s h = l1 ++ l2 -> queue_pos flag (th_current_priority th) l1 l2 s ->
    Q RT_EOK (set_k_tlist <[h := l1 ++ c :: l2]> (suspended c th s))).
  { intros l1 l2 E Hp. apply HQ; [done|done|]. by apply ipc_inv_enqueued. }
  rewrite wp_bind. unfold tlist_modify. destruct Hf as [-> | ->].
  - change (RT_IPC_FLAG_FIFO =? RT_IPC_FLAG_FIFO) with true. cbv iota. rewrite wp_modify, wp_ret.
    specialize (HQ' (k_tlist s h) [] (eq_sym (app_nil_r _)) eq_refl).
    revert HQ'. unfold set_k_tlist, list_insert_before. by rewrite El.
  - change (RT_IPC_FLAG_PRIO =? RT_IPC_FLAG_FIFO) with false.
    change (RT_IPC_FLAG_PRIO =? RT_IPC_FLAG_PRIO) with true. cbv iota.
    rewrite wp_bind. eapply wp_get_thread; [rewrite F1; apply lookup_insert_eq|].
    rewrite wp_bind, wp_gets, wp_bind, El.
    apply wp_find_position.
    { apply Forall_forall. intros t Hin. rewrite F1. destruct (decide (c = t)) as [<-|Hne].
      - by rewrite lookup_insert_eq.
      - rewrite lookup_insert_ne by done.
        destruct (ii_wait _ Hi h t Hh Hin) as (tht & -> & _). done. }
    intros l1 l2 E [P1 P2]. change (th_current_priority (set_th_stat (with_stat RT_THREAD_SUSPEND) th))
      with (th_current_priority th) in P1, P2.
    assert (Hc : forall t (R : Z -> Prop), t ∈ k_tlist s h ->
      (exists tht, k_threads (suspended c th s) !! t = Some tht /\ R (th_current_priority tht)) ->
      exists tht, k_threads s !! t = Some tht /\ R (th_current_priority tht)).
    { intros t R Hin (tht & Htt & HR). rewrite F1, lookup_insert_ne in Htt; [by exists tht|].
      intros ->. by destruct (Hu h). }
    specialize (HQ' l1 l2 E). assert (Hp : queue_pos RT_IPC_FLAG_PRIO (th_current_priority th) l1 l2 s).
    { split.
      - rewrite Forall_forall in *. intros t Hin. apply (Hc t (fun p => p <= th_current_priority th)).
        + rewrite E. clear -Hin. mem.
        + by apply P1.
      - destruct l2 as [|t l2]; [done|]. apply (Hc t (fun p => th_current_priority th < p)); [|done].
        rewrite E. clear. mem. }
    specialize (HQ' Hp). destruct l2 as [|t l2]; cbn [head].
    + rewrite wp_modify, wp_ret. revert HQ'. unfold set_k_tlist, list_insert_before. rewrite El, E, app_nil_r. done.
    + rewrite wp_modify, wp_ret. revert HQ'. unfold set_k_tlist, list_insert_before_node.
      rewrite El, E, RtList.Refine.insert_before_elem_mid; [done|].
      pose proof (proj1 (ri_space _ _ (proj1 (ki_sched _ (ii_kernel _ Hi)))) h) as Hd. rewrite E in Hd.
      apply NoDup_app in Hd as (_ & Hd & _). intros Hin. apply (Hd t Hin). clear. mem.
Qed.

(** ** The whole wait *)

Lemma timeout_of_ext s s' :
  (forall tm, tm_timeout_tick <$> k_timers s' !! tm = tm_timeout_tick <$> k_timers s !! tm) ->
  timeout_of s' = timeout_of s.
Proof. intros E. apply functional_extensionality. exact E. Qed.

(** A timer's period is changed. *)
Definition retimed (tm : tmid) (time : Z) (v : rt_timer) (s : kstate) : kstate :=
  set_k_timers <[tm := set_tm_init_tick (fun _ => time) v]> s.

Lemma retimed_timeouts tm time v s :
  k_timers s !! tm = Some v -> timeout_of (retimed tm time v s) = timeout_of s.
Proof.
  intros Hv. apply timeout_of_ext. intros u. simpl. destruct (decide (tm = u)) as [<-|Hne].
  - by rewrite lookup_insert_eq, Hv.
  - by rewrite lookup_insert_ne.
Qed.

Lemma retimed_kinv tm time v s :
  kinv s -> k_timers s !! tm = Some v -> kinv (retimed tm time v s).
Proof.
  intros [H1 H2 H3 H4 H5] Hv. split.
  - by eapply sched_inv_ext; [..|exact H1].
  - by eapply obj_inv_ext; [..|exact H2].
  - destruct H3 as [T1 T2 T3]. split; [done| |done]. intros h u Hin.
    destruct (T2 h u Hin) as (o & w & Ho & Hw & Hr). exists o. simpl.
    destruct (decide (tm = u)) as [<-|Hne].
    + eexists. rewrite lookup_insert_eq. split; [done|]. split; [done|exact Hr].
    + exists w. rewrite lookup_insert_ne by done. done.
  - intros t th Ht Hc. destruct (H4 t th Ht Hc) as (x & xt & w & L1 & L2 & L3 & L4 & L5 & L6 & L7 & L8 & L9).
    exists x, xt. simpl. destruct (decide (tm = TThread t)) as [->|Hne].
    + eexists. rewrite lookup_insert_eq. simplify_eq. repeat (split; [done|]). done.
    + exists w. rewrite lookup_insert_ne by done. repeat (split; [done|]). done.
  - exact H5.
Qed.

Lemma wp_set_time tm time o v (Q : Z * Z -> kstate -> Prop) s :
  k_obj s !! OTimer tm = Some o -> class_of o = RT_Object_Class_Timer -> k_timers s !! tm = Some v ->
  Q (RT_EOK, time) (retimed tm time v s) -> wp (rt_timer_control tm RT_TIMER_CTRL_SET_TIME time) Q s.
Proof.
  intros Ho Hc Hv HQ. unfold rt_timer_control. rewrite wp_bind. apply wp_is_timer; [by exists o, v|].
  rewrite wp_bind. eapply wp_get_timer; [done|]. rewrite wp_bind. eapply wp_get_obj; [done|].
  change (RT_TIMER_CTRL_SET_TIME =? RT_TIMER_CTRL_GET_TIME) with false.
  change (RT_TIMER_CTRL_SET_TIME =? RT_TIMER_CTRL_SET_TIME) with true. cbv iota.
  rewrite wp_bind. eapply wp_upd_timer; [done|]. by rewrite wp_ret.
Qed.

(** The timer of [c] has been started and nothing else has changed. *)
Record timed (c : tid) (time : Z) (s s' : kstate) : Prop := {
  td_kinv : kinv s';
  td_pending : pending s';
  td_threads : k_threads s' = k_threads s;
  td_tlist : k_tlist s' = k_tlist s;
  td_current : k_current s' = k_current s;
  td_objects : objects s' = objects s;
  td_tick : k_tick s' = k_tick s;
  td_timer : TThread c ∈ k_trow s' TLHard /\ timeout_of s' (TThread c) = Some (u32 (k_tick s + time))
}.

Lemma wp_start_thread_timer tt c th time (Q : Z -> kstate -> Prop) s :
  kinv s -> pending s -> k_threads s !! c = Some th -> tstat th = RT_THREAD_SUSPEND ->
  0 <= time < half -> 0 <= k_tick s < 2 ^ 32 ->
  (forall s', timed c time s s' -> Q (k_tick s) s') ->
  wp (tick ← rt_tick_get; rt_timer_control (TThread c) RT_TIMER_CTRL_SET_TIME time ;;
      rt_timer_start tt (TThread c) ;; mret tick) Q s.
Proof.
  intros Hk Hp Ht Hs Htime Htick HQ. assert (Hcl : tstat th ≠ RT_THREAD_CLOSE) by (by rewrite Hs).
  destruct (kinv_live _ _ _ Hk Ht Hcl) as (x & o & v & L1 & L2 & Ho & Hc & L5 & Hsoft & L7 & Hv & L9).
  unfold rt_tick_get. rewrite wp_bind, wp_gets, wp_bind. eapply wp_set_time; [done|done|done|].
  set (s1 := retimed (TThread c) time v s).
  assert (Hv1 : k_timers s1 !! TThread c = Some (set_tm_init_tick (fun _ => time) v)) by apply lookup_insert_eq.
  assert (Hk1 : kinv s1) by (by apply retimed_kinv).
  assert (Hp1 : pending s1). { unfold pending. unfold s1. by rewrite retimed_timeouts. }
  destruct (pending_remove (TThread c) s1 Hp1) as [Hw _].
  rewrite wp_bind. eapply (wp_rt_timer_start_hard tt (TThread c) o); [by exists o, (set_tm_init_tick (fun _ => time) v)|done|done|done|done|done|done|].
  intros l1 l2 El H1 H2. rewrite wp_ret. apply HQ.
  destruct (started_pending (TThread c) o (set_tm_init_tick (fun _ => time) v) l1 l2 s1 Hp1 Htime El H1 H2) as (P1 & P2 & P3).
  split; try done.
  - apply started_kinv; [done..| |].
    + rewrite El. by rewrite Permutation_middle.
    + intros t [= <-]. by exists th.
  - unfold objects. simpl. by rewrite filter_timer.
  - rewrite P2. split; [clear; mem|exact P3].
Qed.

(** What a wait leaves: [c] suspended on [h] between [l1] and [l2], its timer running if the
    wait is bounded, and everything else as it was but for the choice of the running
    thread. *)
Record asleep (h : lhead) (c : tid) (th : rt_thread) (l1 l2 : list tid) (time : Z) (s s' : kstate) : Prop := {
  as_inv : ipc_inv s';
  as_pending : pending s';
  as_current : is_Some (k_current s');
  as_objects : objects s' = objects s;
  as_tick : k_tick s' = k_tick s;
  as_queue : k_tlist s' h = l1 ++ c :: l2;
  as_queues : forall h', wait_head h' -> h' ≠ h -> k_tlist s' h' = k_tlist s h';
  as_thread : exists th', k_threads s' !! c = Some th' /\ tstat th' = RT_THREAD_SUSPEND /\
    th_error th' = th_error th /\ th_current_priority th' = th_current_priority th /\
    th_event_set th' = th_event_set th /\ th_event_info th' = th_event_info th;
  as_threads : forall t tht, t ≠ c -> k_threads s !! t = Some tht ->
    exists tht', k_threads s' !! t = Some tht' /\ strip tht' = strip tht;
  as_timer : if 0 <? time
    then TThread c ∈ k_trow s' TLHard /\ timeout_of s' (TThread c) = Some (u32 (k_tick s + time))
    else forall h, h = TLHard \/ h = TLSoft -> TThread c ∉ k_trow s' h
}.

(** What [block] leaves: the same, at the place the flag says. *)
Record blocked (h : lhead) (c : tid) (th : rt_thread) (flag time : Z) (s s' : kstate) : Prop := {
  bl_inv : ipc_inv s';
  bl_pending : pending s';
  bl_current : is_Some (k_current s');
  bl_objects : objects s' = objects s;
  bl_tick : k_tick s' = k_tick s;
  bl_queue : exists l1 l2, k_tlist s h = l1 ++ l2 /\ k_tlist s' h = l1 ++ c :: l2 /\
    queue_pos flag (th_current_priority th) l1 l2 s;
  bl_queues : forall h', wait_head h' -> h' ≠ h -> k_tlist s' h' = k_tlist s h';
  bl_thread : exists th', k_threads s' !! c = Some th' /\ tstat th' = RT_THREAD_SUSPEND /\
    th_error th' = th_error th /\ th_current_priority th' = th_current_priority th /\
    th_event_set th' = th_event_set th /\ th_event_info th' = th_event_info th;
  bl_threads : forall t tht, t ≠ c -> k_threads s !! t = Some tht ->
    exists tht', k_threads s' !! t = Some tht' /\ strip tht' = strip tht;
  bl_timer : if 0 <? time
    then TThread c ∈ k_trow s' TLHard /\ timeout_of s' (TThread c) = Some (u32 (k_tick s + time))
    else forall h, h = TLHard \/ h = TLSoft -> TThread c ∉ k_trow s' h
}.

Lemma asleep_blocked h c th l1 l2 flag time s s' :
  k_tlist s h = l1 ++ l2 -> queue_pos flag (th_current_priority th) l1 l2 s -> asleep h c th l1 l2 time s s' ->
  blocked h c th flag time s s'.
Proof. intros El Hq []. split; try done. by exists l1, l2. Qed.

Lemma frame_thread s s' t th :
  frame s s' -> k_threads s !! t = Some th -> exists th', k_threads s' !! t = Some th' /\ strip th' = strip th.
Proof.
  intros Hf Ht. destruct (frame_lookup _ _ _ _ (frame_sym _ _ Hf) Ht) as (th' & ? & ?). by exists th'.
Qed.

Lemma suspended_timer c th s :
  kinv s -> k_threads s !! c = Some th -> tstat th ≠ RT_THREAD_CLOSE -> pending s ->
  pending (suspended c th s) /\
  forall h, h = TLHard \/ h = TLSoft -> TThread c ∉ k_trow (suspended c th s) h.
Proof.
  intros Hk Ht Hc Hp. destruct (thread_timer _ _ (kinv_live _ _ _ Hk Ht Hc)) as (_ & o & Ho & Hco).
  split; [apply stopped_pending; by eapply pending_ext; [..|exact Hp]|].
  destruct (timer_stopped (park c th (with_stat RT_THREAD_SUSPEND) s) (TThread c) o) as [_ Hoff];
    [by eapply timer_inv_ext; [..|apply Hk]|done|done|].
  intros h Hh. unfold suspended, stopped. simpl. rewrite Ho. by apply Hoff.
Qed.

Lemma wp_start_and_schedule tt h c th l1 l2 time s :
  ipc_inv s -> pending s -> wait_head h -> k_current s = Some c ->
  k_threads s !! c = Some th -> tstat th = RT_THREAD_RUNNING -> time < half -> 0 <= k_tick s < 2 ^ 32 ->
  ipc_inv (enqueued h c th l1 l2 s) ->
  wp (start_and_schedule tt c time) (fun r s' => r = (if 0 <? time then k_tick s else 0) /\ asleep h c th l1 l2 time s s')
    (enqueued h c th l1 l2 s).
Proof.
  intros Hi Hp Hh Hc Ht Hs Htime Htick Hi1. pose proof (ii_kernel _ Hi) as Hk.
  assert (Hcl : tstat th ≠ RT_THREAD_CLOSE) by (by rewrite Hs).
  destruct (suspended_fields c th s) as (F1 & F2 & F3 & F4 & F5).
  destruct (suspended_timer c th s Hk Ht Hcl Hp) as [Hps Hoff].
  unfold start_and_schedule. set (s1 := enqueued h c th l1 l2 s) in *.
  pose proof (running_unlinked _ _ _ Hk Ht Hs) as Hu.
  set (th1 := set_th_stat (with_stat RT_THREAD_SUSPEND) th).
  assert (Hth1 : k_threads s1 !! c = Some th1) by (cbn; rewrite F1; apply lookup_insert_eq).
  assert (Hs1 : tstat th1 = RT_THREAD_SUSPEND) by (by apply tstat_with).
  assert (Hp1 : pending s1) by (by eapply pending_ext; [..|exact Hps]).
  (* from the state with the timer started or not, through the scheduler *)
  assert (Hend : forall (r : Z) s2, ipc_inv s2 -> pending s2 -> k_threads s2 = k_threads s1 -> k_tlist s2 = k_tlist s1 ->
    k_current s2 = k_current s1 -> objects s2 = objects s1 -> k_tick s2 = k_tick s1 ->
    (if 0 <? time
     then TThread c ∈ k_trow s2 TLHard /\ timeout_of s2 (TThread c) = Some (u32 (k_tick s + time))
     else forall h, h = TLHard \/ h = TLSoft -> TThread c ∉ k_trow s2 h) ->
    wp (rt_schedule ;; mret r) (fun r' s' => r' = r /\ asleep h c th l1 l2 time s s') s2).
  { intros r s2 Hi2 Hp2 E1 E2 E3 E4 E5 Htm. rewrite wp_bind. eapply wp_mono, wp_schedule_ipc; [|done|].
    2: { rewrite E3. cbn. rewrite F3. by exists c. }
    intros [] s' (Hi' & Hfr & Hc'). rewrite wp_ret. split; [done|].
    destruct (frame_rest _ _ Hfr) as (_ & _ & R3 & R4 & _ & _ & R7).
    split; [done|by eapply frame_pending|done| | | | | | |].
    - rewrite (frame_objects _ _ Hfr), E4. exact F4.
    - rewrite R7, E5. exact F5.
    - rewrite (fr_lists _ _ Hfr) by (by intros p ->). rewrite E2. apply insert_eq.
    - intros h' Hh' Hne. rewrite (fr_lists _ _ Hfr) by (by intros p ->). rewrite E2. cbn.
      rewrite insert_ne by done. by rewrite F2, list_remove_off.
    - destruct (frame_thread s2 s' c th1 Hfr) as (th' & Ht' & E); [by rewrite E1|].
      exists th'. split; [done|]. split; [by apply (strip_same_stat RT_THREAD_SUSPEND _ _ E)|].
      split; [by apply (f_equal th_error) in E|]. split; [by apply (f_equal th_current_priority) in E|].
      split; [by apply (f_equal th_event_set) in E|by apply (f_equal th_event_info) in E].
    - intros t tht Hne Htt. apply (frame_thread s2 s' t tht Hfr). rewrite E1. cbn. rewrite F1.
      by rewrite lookup_insert_ne.
    - unfold timeout_of. by rewrite R3, R4. }
  rewrite wp_bind. destruct (Z.ltb_spec 0 time) as [Hpos|Hpos].
  - eapply wp_start_thread_timer; [apply Hi1|done|exact Hth1|done|lia|change (k_tick s1) with (k_tick (suspended c th s)); by rewrite F5|].
    intros s2 [T1 T2 T3 T4 T5 T6 T7 T8]. change (k_tick s1) with (k_tick (suspended c th s)) in *. rewrite F5 in T8 |- *.
    apply Hend; [|done..]. split; [done|]. rewrite T3, T4. apply Hi1.
  - rewrite wp_ret. apply Hend; done.
Qed.

Lemma wp_block tt h c th flag time s :
  ipc_inv s -> pending s -> wait_head h -> ipc_flag flag -> k_current s = Some c ->
  k_threads s !! c = Some th -> tstat th = RT_THREAD_RUNNING -> time < half -> 0 <= k_tick s < 2 ^ 32 ->
  wp (block tt h c flag time) (fun r s' =>
    r = (if 0 <? time then k_tick s else 0) /\ blocked h c th flag time s s') s.
Proof.
  intros Hi Hp Hh Hf Hc Ht Hs Htime Htick. unfold block. rewrite wp_bind. eapply wp_rt_ipc_list_suspend; [done|done|done|done|done|].
  intros l1 l2 El Hq Hi1. eapply wp_mono, wp_start_and_schedule; [|done..]. intros r s' [-> Ha]. split; [done|].
  by eapply asleep_blocked.
Qed.

(** ** Waking *)

(** The waiting thread [t], whose block is [th], has left its queue and is ready (or goes
    on running), its timer off, and everything else is as it was but for the choice of the
    running thread. *)
Record woken (t : tid) (th : rt_thread) (s s' : kstate) : Prop := {
  wk_inv : ipc_inv s';
  wk_pending : pending s -> pending s';
  wk_current : is_Some (k_current s) -> is_Some (k_current s');
  wk_objects : objects s' = objects s;
  wk_tick : k_tick s' = k_tick s;
  wk_queues : forall h, wait_head h -> k_tlist s' h = list_remove t (k_tlist s) h;
  wk_thread : exists th', k_threads s' !! t = Some th' /\ stat_class (tstat th') = RT_THREAD_READY /\
    th_error th' = th_error th /\ th_current_priority th' = th_current_priority th /\
    th_event_set th' = th_event_set th;
  wk_threads : forall u thu, u ≠ t -> k_threads s !! u = Some thu ->
    exists thu', k_threads s' !! u = Some thu' /\ strip thu' = strip thu;
  wk_timer : forall r, r = TLHard \/ r = TLSoft -> TThread t ∉ k_trow s' r
}.

Lemma woken_frame t th s s1 s2 :
  woken t th s s1 -> frame s1 s2 -> ipc_inv s2 -> is_Some (k_current s2) -> woken t th s s2.
Proof.
  intros [W1 W2 W3 W4 W5 W7 W8 W9 W10] Hf Hi Hc.
  destruct (frame_rest _ _ Hf) as (_ & _ & _ & R4 & _ & _ & R7).
  split; [done| |done| | | | | |].
  - intros Hp. eapply frame_pending; [done|by apply W2].
  - by rewrite (frame_objects _ _ Hf).
  - by rewrite R7.
  - intros h Hh. rewrite (fr_lists _ _ Hf) by (by intros p ->). by apply W7.
  - destruct W8 as (th1 & Ht1 & Hs1 & He1 & Hp1 & Hv1).
    destruct (frame_thread _ _ _ _ Hf Ht1) as (th' & Ht' & E). exists th'. split; [done|].
    apply (f_equal th_error) in E as Ee. apply (f_equal th_current_priority) in E as Ep.
    apply (f_equal th_event_set) in E as Ev.
    apply strip_stat in E. cbn in Ee, Ep, Ev. by rewrite E, Ee, Ep, Ev.
  - intros u thu Hne Hu. destruct (W9 u thu Hne Hu) as (thu1 & Hu1 & E1).
    destruct (frame_thread _ _ _ _ Hf Hu1) as (thu' & Hu' & E). exists thu'. split; [done|]. by rewrite E.
  - intros r Hr. rewrite R4. by apply W10.
Qed.

Lemma stopped_fields tm s :
  k_threads (stopped tm s) = k_threads s /\ k_tlist (stopped tm s) = k_tlist s /\
  k_current (stopped tm s) = k_current s /\ objects (stopped tm s) = objects s /\
  k_tick (stopped tm s) = k_tick s.
Proof.
  unfold stopped. destruct (k_obj s !! OTimer tm) as [o|]; [destruct (active o)|]; try done.
  repeat (split; [done|]). split; [|done]. unfold objects. simpl. by rewrite filter_timer.
Qed.

Lemma wake_fields t th s :
  objects (wake t th s) = objects s /\ k_tick (wake t th s) = k_tick s /\
  k_trow (wake t th s) = k_trow s /\ k_timers (wake t th s) = k_timers s /\
  forall h, wait_head h -> k_tlist (wake t th s) h = list_remove t (k_tlist s) h.
Proof.
  unfold wake. cbn [k_current set_k_tlist]. case_bool_decide.
  all: repeat (split; [done|]).
  - done.
  - intros h Hh. simpl. unfold list_insert_before. rewrite insert_ne; [done|]. by intros <-.
Qed.

(** A waiting thread leaves its queue, and is on no other. *)
Lemma woken_mid h t q1 q2 th s s' :
  ipc_inv s -> wait_head h -> k_tlist s h = q1 ++ t :: q2 -> woken t th s s' ->
  k_tlist s' h = q1 ++ q2 /\ forall h', wait_head h' -> h' ≠ h -> k_tlist s' h' = k_tlist s h'.
Proof.
  intros Hi Hh El Hw. destruct (ri_space _ _ (proj1 (ki_sched _ (ii_kernel _ Hi)))) as [Hnd Hone]. split.
  - rewrite (wk_queues _ _ _ _ Hw) by done. unfold list_remove. specialize (Hnd h). rewrite El in *.
    apply filter_mid. exact Hnd.
  - intros h' Hh' Hne. rewrite (wk_queues _ _ _ _ Hw) by done. apply list_remove_unlinked_id.
    intros Hin. apply Hne. apply (Hone h' h t); [done|]. rewrite El. clear. mem.
Qed.
Lemma woken_head h t l th s s' :
  ipc_inv s -> wait_head h -> k_tlist s h = t :: l -> woken t th s s' ->
  k_tlist s' h = l /\ forall h', wait_head h' -> h' ≠ h -> k_tlist s' h' = k_tlist s h'.
Proof. apply (woken_mid h t []). Qed.

Lemma wake_woken t th s :
  ipc_inv s -> k_threads s !! t = Some th -> tstat th = RT_THREAD_SUSPEND ->
  (forall r, r = TLHard \/ r = TLSoft -> TThread t ∉ k_trow s r) -> woken t th s (wake t th s).
Proof.
  intros Hi Ht Hs Hoff. pose proof (ii_kernel _ Hi) as Hk.
  destruct (wake_fields t th s) as (F1 & F2 & F3 & F4 & F5).
  destruct (wake_threads t th s) as (v & Hth & Hv & Hvc).
  split; [split; [by apply wake_kinv|]| | | | | | | |].
  - intros h u Hh Hin. rewrite Hth.
    rewrite F5 in Hin by done. apply elem_of_list_remove in Hin as [Hu Hne].
    rewrite lookup_insert_ne by done. by apply (ii_wait _ Hi h).
  - intros Hp. eapply pending_ext; [exact F4|exact F2|by rewrite F3|done].
  - by rewrite wake_current.
  - by rewrite F1.
  - by rewrite F2.
  - exact F5.
  - rewrite Hth, lookup_insert_eq. eexists. split; [done|]. by rewrite tstat_with.
  - intros u thu Hne Hu. exists thu. rewrite Hth, lookup_insert_ne by done. done.
  - intros r Hr. rewrite F3. by apply Hoff.
Qed.

Lemma stopped_ipc_inv t th s :
  ipc_inv s -> k_threads s !! t = Some th -> tstat th ≠ RT_THREAD_CLOSE ->
  ipc_inv (stopped (TThread t) s) /\
  forall r, r = TLHard \/ r = TLSoft -> TThread t ∉ k_trow (stopped (TThread t) s) r.
Proof.
  intros Hi Ht Hcl. destruct (thread_timer _ _ (kinv_live _ _ _ (ii_kernel _ Hi) Ht Hcl)) as (_ & o & Ho & Hco).
  destruct (kinv_stopped _ _ _ (ii_kernel _ Hi) Ho Hco) as [Hk Hoff]. split; [|done].
  destruct (stopped_fields (TThread t) s) as (S1 & S2 & _).
  split; [done|]. rewrite S1, S2. apply Hi.
Qed.

Lemma resumed_woken t th s :
  ipc_inv s -> k_threads s !! t = Some th -> tstat th = RT_THREAD_SUSPEND ->
  woken t th s (resumed t th s).
Proof.
  intros Hi Ht Hs. assert (Hcl : tstat th ≠ RT_THREAD_CLOSE) by (by rewrite Hs).
  destruct (stopped_fields (TThread t) s) as (S1 & S2 & S3 & S4 & S5).
  destruct (stopped_ipc_inv t th s Hi Ht Hcl) as [Hi1 Hoff].
  destruct (wake_woken t th (stopped (TThread t) s)) as [W1 W2 W3 W4 W5 W7 W8 W9 W10]; [done|by rewrite S1|done|done|].
  split; try done.
  - intros Hp. by apply W2, stopped_pending.
  - by rewrite <- S3.
  - by rewrite <- S4.
  - by rewrite <- S5.
  - by rewrite <- S2.
  - by rewrite <- S1.
Qed.

(** Rewriting fields of a thread block that no invariant reads. *)
Lemma ipc_inv_upd_same t th th' s :
  ipc_inv s -> k_threads s !! t = Some th -> th_ok th' -> tstat th' = tstat th ->
  th_current_priority th' = th_current_priority th -> ipc_inv (set_k_threads <[t := th']> s).
Proof.
  intros [H1 H2] Ht Hok Hst Hp. split; [by eapply kinv_upd_same|].
  intros h u Hh Hin. destruct (H2 h u Hh Hin) as (thu & Hu & Hs). simpl.
  destruct (decide (t = u)) as [<-|Hne].
  - rewrite lookup_insert_eq. simplify_eq. exists th'. by rewrite Hst.
  - rewrite lookup_insert_ne by done. by exists thu.
Qed.

Lemma ipc_inv_upd_error t th e s :
  ipc_inv s -> k_threads s !! t = Some th ->
  ipc_inv (set_k_threads <[t := set_th_error (fun _ => e) th]> s).
Proof.
  intros Hi Ht. eapply ipc_inv_upd_same; [done|done| |done|done].
  pose proof (kinv_th_ok _ _ _ (ii_kernel _ Hi) Ht) as []. by split.
Qed.

(** A timed wait that runs out: the thread's timer has been taken off its list. *)
Lemma wp_timeout_ipc t th s :
  ipc_inv s -> is_Some (k_current s) -> k_threads s !! t = Some th -> tstat th = RT_THREAD_SUSPEND ->
  (forall r, r = TLHard \/ r = TLSoft -> TThread t ∉ k_trow s r) ->
  wp (rt_thread_timeout t) (fun _ s' => woken t (set_th_error (fun _ => - RT_ETIMEOUT) th) s s') s.
Proof.
  intros Hi Hc Ht Hs Hoff. set (th1 := set_th_error (fun _ => - RT_ETIMEOUT) th).
  assert (Hcl : tstat th ≠ RT_THREAD_CLOSE) by (by rewrite Hs).
  unfold rt_thread_timeout. rewrite wp_bind. eapply wp_get_thread; [done|].
  repeat wp_step; [by apply Z.eqb_eq|]. apply wp_is_thread; [by eapply kinv_live; [apply Hi|..]|].
  repeat wp_step. eapply wp_upd_thread; [done|]. unfold tlist_modify. repeat wp_step.
  assert (Hi1 : ipc_inv (set_k_threads <[t := th1]> s)) by (by apply ipc_inv_upd_error).
  assert (Ht1 : k_threads (set_k_threads <[t := th1]> s) !! t = Some th1) by apply lookup_insert_eq.
  eapply wp_insert_wake; [exact Ht1|by eapply kinv_th_ok; [apply Hi1|]|done|].
  assert (Hw : woken t th1 s (wake t th1 (set_k_threads <[t := th1]> s))).
  { destruct (wake_woken t th1 _ Hi1 Ht1 Hs Hoff) as [W1 W2 W3 W4 W5 W7 W8 W9 W10].
    split; try done. intros u thu Hne Hu. apply W9; [done|]. simpl. by rewrite lookup_insert_ne. }
  eapply wp_mono, wp_schedule_ipc; [|apply Hw|by apply Hw].
  intros [] s' (Hi' & Hfr & Hc'). by eapply woken_frame.
Qed.

Lemma wp_rt_ipc_list_resume h t l th (Q : Z -> kstate -> Prop) s :
  ipc_inv s -> wait_head h -> k_tlist s h = t :: l -> k_threads s !! t = Some th ->
  (forall s', woken t th s s' -> Q RT_EOK s') -> wp (rt_ipc_list_resume h) Q s.
Proof.
  intros Hi Hh El Ht HQ.
  destruct (ii_wait _ Hi h t Hh) as (th0 & Ht0 & Hs); [rewrite El; clear; mem|]. simplify_eq.
  unfold rt_ipc_list_resume, first_of. rewrite wp_bind. eapply wp_deref; [by rewrite El|].
  rewrite wp_bind. eapply wp_rt_thread_resume; [apply Hi|done|by rewrite Hs|].
  rewrite bool_decide_eq_true_2 by done. intros _. rewrite wp_ret. apply HQ. by apply resumed_woken.
Qed.

(** All of queue [h] is awake, each with error -RT_ERROR. *)
Record all_woken (h : lhead) (s s' : kstate) : Prop := {
  aw_inv : ipc_inv s';
  aw_pending : pending s -> pending s';
  aw_current : is_Some (k_current s) -> is_Some (k_current s');
  aw_objects : objects s' = objects s;
  aw_tick : k_tick s' = k_tick s;
  aw_queue : k_tlist s' h = [];
  aw_queues : forall h', wait_head h' -> h' ≠ h -> k_tlist s' h' = k_tlist s h';
  aw_woken : forall t, t ∈ k_tlist s h -> exists th', k_threads s' !! t = Some th' /\
    stat_class (tstat th') = RT_THREAD_READY /\ th_error th' = - RT_ERROR;
  aw_threads : forall u thu, u ∉ k_tlist s h -> k_threads s !! u = Some thu ->
    exists thu', k_threads s' !! u = Some thu' /\ strip thu' = strip thu
}.

Lemma wp_resume_all_loop h l s :
  ipc_inv s -> wait_head h -> k_tlist s h = l ->
  wp (resume_all_loop (length l) h) (fun _ s' => all_woken h s s') s.
Proof.
  revert s. induction l as [|t l IH]; intros s Hi Hh El; cbn [resume_all_loop length].
  - rewrite wp_bind, wp_gets. unfold list_isempty. rewrite bool_decide_eq_true_2, wp_ret by done.
    split; try done; [by rewrite El; intros t []%elem_of_nil|]. intros u thu _ Hu. by exists thu.
  - rewrite wp_bind, wp_gets. unfold list_isempty. rewrite bool_decide_eq_false_2 by (by rewrite El).
    destruct (ii_wait _ Hi h t Hh) as (th & Ht & Hs); [rewrite El; clear; mem|].
    set (th1 := set_th_error (fun _ => - RT_ERROR) th). set (s1 := set_k_threads <[t := th1]> s).
    assert (Hi1 : ipc_inv s1) by (by apply ipc_inv_upd_error).
    assert (Ht1 : k_threads s1 !! t = Some th1) by apply lookup_insert_eq.
    unfold first_of. rewrite wp_bind. eapply wp_deref; [by rewrite El|].
    rewrite wp_bind. eapply wp_upd_thread; [done|]. fold th1. fold s1.
    rewrite wp_bind. eapply wp_rt_thread_resume; [apply Hi1|done|by intros E; change (tstat th = RT_THREAD_CLOSE) in E; rewrite Hs in E|].
    rewrite bool_decide_eq_true_2 by done. intros _.
    pose proof (resumed_woken t th1 s1 Hi1 Ht1 Hs) as Hw.
    destruct (woken_head h t l th1 s1 _ Hi1 Hh El Hw) as [W6 W7].
    destruct Hw as [W1 W2 W3 W4 W5 _ W8 W9 W10].
    eapply wp_mono, IH; [|done|done|done]. intros _ s' [A1 A2 A3 A4 A5 A6 A7 A8 A9].
    assert (Hnt : t ∉ l).
    { pose proof (proj1 (ri_space _ _ (proj1 (ki_sched _ (ii_kernel _ Hi)))) h) as Hd.
      rewrite El in Hd. by apply NoDup_cons in Hd as [? _]. }
    split; [done| | | | |done| | |].
    + intros Hp. apply A2, W2. by eapply pending_ext; [..|exact Hp].
    + intros Hc. by apply A3, W3.
    + by rewrite A4, W4.
    + by rewrite A5, W5.
    + intros h' Hh' Hne. rewrite A7, W7 by done. done.
    + intros u. rewrite El. intros [->|Hu]%elem_of_cons; [|apply A8; by rewrite W6].
      destruct W8 as (th2 & Ht2 & Hs2 & He2 & _).
      destruct (A9 t th2) as (th' & Ht' & E); [by rewrite W6|done|]. exists th'. split; [done|].
      apply (f_equal th_error) in E as Ee. apply strip_stat in E. cbn in Ee. rewrite E, Ee, He2. done.
    + intros u thu. rewrite El. intros Hu Hthu. destruct (W9 u thu) as (thu2 & Hu2 & E2).
      * intros ->. clear -Hu. mem.
      * simpl. rewrite lookup_insert_ne; [done|]. intros ->. clear -Hu. mem.
      * destruct (A9 u thu2) as (thu' & Hu' & E); [rewrite W6; clear -Hu; mem|done|].
        exists thu'. split; [done|]. by rewrite E.
Qed.

(** ** Semaphores *)

(** A live semaphore with its header and its value. *)
Definition sem_live (sem : positive) (x : rt_object) (v : Z) (s : kstate) : Prop :=
  k_obj s !! OSem sem = Some x /\ class_of x = RT_Object_Class_Semaphore /\ ipc_flag (o_flag x) /\
  k_sems s !! sem = Some (mkSem v) /\ 0 <= v <= RT_SEM_VALUE_MAX.

(** Thread [c] runs, outside interrupts. *)
Definition runs (c : tid) (th : rt_thread) (s : kstate) : Prop :=
  k_current s = Some c /\ k_threads s !! c = Some th /\ tstat th = RT_THREAD_RUNNING /\ k_irq_nest s = 0.

(** The clock and the timers are in order. *)
Definition clock_ok (s : kstate) : Prop := pending s /\ 0 <= k_tick s < 2 ^ 32.

Definition no_error (th : rt_thread) : rt_thread := set_th_error (fun _ => RT_EOK) th.

(** A wait described from the state before the thread's error was reset. *)
Lemma blocked_reset h c th th1 flag time s s' :
  k_threads s !! c = Some th -> th_current_priority th1 = th_current_priority th ->
  blocked h c th1 flag time (set_k_threads <[c := th1]> s) s' -> blocked h c th1 flag time s s'.
Proof.
  intros Ht Ep [B1 B2 B3 B4 B5 B6 B7 B8 B9 B10]. split; try done.
  - destruct B6 as (l1 & l2 & E1 & E2 & Hq). exists l1, l2. split; [done|]. split; [done|].
    assert (Hc : forall t (R : Z -> Prop),
      (exists tht, k_threads (set_k_threads <[c := th1]> s) !! t = Some tht /\ R (th_current_priority tht)) ->
      exists tht, k_threads s !! t = Some tht /\ R (th_current_priority tht)).
    { intros t R (tht & Htt & HR). simpl in Htt. destruct (decide (c = t)) as [<-|Hne].
      - rewrite lookup_insert_eq in Htt. simplify_eq. exists th. by rewrite <- Ep.
      - rewrite lookup_insert_ne in Htt by done. by exists tht. }
    unfold queue_pos in *. destruct (flag =? RT_IPC_FLAG_FIFO); [done|]. destruct Hq as [Q1 Q2]. split.
    + rewrite Forall_forall in *. intros t Hin. by apply (Hc t (fun p => p <= _)), Q1.
    + destruct l2 as [|t l2]; [done|]. by apply (Hc t (fun p => _ < p)).
  - intros t tht Hne Htt. apply B9; [done|]. simpl. by rewrite lookup_insert_ne.
Qed.

Lemma wp_get_sem sem v (Q : rt_semaphore -> kstate -> Prop) s :
  k_sems s !! sem = Some v -> Q v s -> wp (get_sem sem) Q s.
Proof. intros. by eapply wp_deref. Qed.
Lemma wp_set_sem sem v w (Q : unit -> kstate -> Prop) s :
  k_sems s !! sem = Some v -> Q tt (set_k_sems <[sem := mkSem w]> s) -> wp (set_sem sem w) Q s.
Proof. intros Hv HQ. unfold set_sem. rewrite wp_bind. by eapply wp_get_sem. Qed.

(** A blocking call's reset of the error and its wait. *)
Lemma wp_reset_block tt h c th o x flag time (Q : outcome unit Z -> kstate -> Prop) s :
  ipc_inv s -> clock_ok s -> wait_head h -> runs c th s -> k_obj s !! o = Some x -> o_flag x = flag ->
  ipc_flag flag -> time < half ->
  (forall s', blocked h c (no_error th) flag time s s' -> Q (Waiting c Datatypes.tt) s') ->
  wp (upd_thread c (set_th_error (fun _ => RT_EOK)) ;;
      flag ← flag_of o; block tt h c flag time ;; mret (Waiting c Datatypes.tt)) Q s.
Proof.
  intros Hi [Hp Htick] Hh (Hc & Ht & Hs & Hn) Hx Ef Hf Htime HQ.
  rewrite wp_bind. eapply wp_upd_thread; [done|]. fold (no_error th).
  set (s1 := set_k_threads <[c := no_error th]> s).
  assert (Hi1 : ipc_inv s1) by (by apply ipc_inv_upd_error).
  rewrite wp_bind. unfold flag_of. rewrite wp_bind. eapply wp_get_obj; [exact Hx|]. rewrite wp_ret, Ef.
  rewrite wp_bind. eapply wp_mono, wp_block; [|done|by eapply pending_ext; [..|exact Hp]|done|done|done|apply lookup_insert_eq|done|done|done].
  intros r s' [_ Hb]. rewrite wp_ret. apply HQ. by eapply blocked_reset.
Qed.

Lemma wp_rt_sem_take tt sem x v c th time s :
  ipc_inv s -> clock_ok s -> sem_live sem x v s -> runs c th s -> time < half ->
  wp (rt_sem_take tt sem time) (fun r s' => ipc_inv s' /\
    if 0 <? v then r = Returned RT_EOK /\ s' = set_k_sems <[sem := mkSem (v - 1)]> s
    else if time =? 0 then r = Returned (- RT_ETIMEOUT) /\ s' = s
    else r = Waiting c Datatypes.tt /\ blocked (LSuspend (OSem sem)) c (no_error th) (o_flag x) time s s') s.
Proof.
  intros Hi Hcl (Hx & Hcx & Hf & Hv & Hr) Hrun Htime. unfold rt_sem_take.
  rewrite wp_bind. eapply wp_is_class; [done|done|]. rewrite wp_bind. eapply wp_get_sem; [done|].
  cbn [sem_value]. destruct (Z.ltb_spec 0 v) as [Hpos|Hpos].
  - rewrite wp_bind. eapply wp_set_sem; [done|]. rewrite wp_ret. unfold RT_SEM_VALUE_MAX in Hr.
    rewrite wrap_small by lia. split; [by eapply ipc_inv_ext|done].
  - destruct (Z.eqb_spec time 0) as [->|Hne]; [by rewrite wp_ret|].
    pose proof Hrun as (Hc & Ht & Hs & Hn).
    rewrite wp_bind. apply wp_in_thread_context; [by exists c|done|].
    rewrite wp_bind. eapply wp_self; [done|]. eapply wp_reset_block; try done.
    intros s' Hb. split; [apply Hb|done].
Qed.

Lemma wp_rt_sem_release sem x v s :
  ipc_inv s -> sem_live sem x v s -> is_Some (k_current s) ->
  wp (rt_sem_release sem) (fun r s' => ipc_inv s' /\
    match k_tlist s (LSuspend (OSem sem)) with
    | t :: _ => r = RT_EOK /\ exists th, k_threads s !! t = Some th /\
        woken t th s s'
    | [] => if v <? RT_SEM_VALUE_MAX then r = RT_EOK /\ s' = set_k_sems <[sem := mkSem (v + 1)]> s
            else r = - RT_EFULL /\ s' = s
    end) s.
Proof.
  intros Hi (Hx & Hcx & Hf & Hv & Hr) Hcur. unfold rt_sem_release.
  rewrite wp_bind. eapply wp_is_class; [done|done|]. rewrite wp_bind. eapply wp_get_sem; [done|].
  rewrite wp_bind, wp_gets. cbn [sem_value]. unfold list_isempty.
  destruct (k_tlist s (LSuspend (OSem sem))) as [|t l] eqn:El.
  - rewrite bool_decide_eq_true_2 by done. cbn [negb]. destruct (Z.ltb_spec v RT_SEM_VALUE_MAX) as [Hlt|Hge].
    + rewrite wp_bind. eapply wp_set_sem; [done|]. rewrite wp_ret. unfold RT_SEM_VALUE_MAX in *.
      rewrite wrap_small by lia. split; [by eapply ipc_inv_ext|done].
    + by rewrite wp_ret.
  - rewrite bool_decide_eq_false_2 by done. cbn [negb].
    destruct (ii_wait _ Hi (LSuspend (OSem sem)) t I) as (th & Ht & _); [rewrite El; clear; mem|].
    rewrite wp_bind. eapply wp_rt_ipc_list_resume; [done|done|done|done|]. intros s1 Hw.
    rewrite wp_bind. eapply wp_mono, wp_schedule_ipc; [|apply Hw|by apply Hw].
    intros [] s' (Hi' & Hfr & Hc'). rewrite wp_ret. split; [done|]. split; [done|]. exists th.
    split; [done|]. by eapply woken_frame.
Qed.

(** [rt_sem_take] on every branch: an available semaphore is counted down and nothing
    else changes; an unavailable one gives -RT_ETIMEOUT at once when the caller does not
    wait; otherwise the caller sleeps on the semaphore's queue, last or by priority as the
    object's flag says, with its timer due after [time] ticks unless it waits forever, and
    the semaphore, the other queues and the other threads are as they were. *)
Theorem rt_sem_take_spec tt sem x v c th time s :
  ipc_inv s -> clock_ok s -> sem_live sem x v s -> runs c th s -> time < half ->
  wp (rt_sem_take tt sem time) (fun r s' => ipc_inv s' /\
    if 0 <? v then r = Returned RT_EOK /\ s' = set_k_sems <[sem := mkSem (v - 1)]> s
    else if time =? 0 then r = Returned (- RT_ETIMEOUT) /\ s' = s
    else r = Waiting c Datatypes.tt /\ blocked (LSuspend (OSem sem)) c (no_error th) (o_flag x) time s s') s.
Proof. apply wp_rt_sem_take. Qed.

(** [rt_sem_release] on every branch: it wakes the first waiting thread and leaves the
    count alone; with nobody waiting it counts up, and at 65535 it gives -RT_EFULL and
    changes nothing. *)
Theorem rt_sem_release_spec sem x v s :
  ipc_inv s -> sem_live sem x v s -> is_Some (k_current s) ->
  wp (rt_sem_release sem) (fun r s' => ipc_inv s' /\
    match k_tlist s (LSuspend (OSem sem)) with
    | t :: _ => r = RT_EOK /\ exists th, k_threads s !! t = Some th /\
        woken t th s s'
    | [] => if v <? RT_SEM_VALUE_MAX then r = RT_EOK /\ s' = set_k_sems <[sem := mkSem (v + 1)]> s
            else r = - RT_EFULL /\ s' = s
    end) s.
Proof. apply wp_rt_sem_release. Qed.

(** Resetting a semaphore wakes every waiting thread with error -RT_ERROR, sets the
    count to the low sixteen bits of the argument, and leaves the other objects alone; any
    other command is refused. *)
Theorem rt_sem_control_spec sem x v cmd arg s :
  ipc_inv s -> sem_live sem x v s -> is_Some (k_current s) ->
  wp (rt_sem_control sem cmd arg) (fun r s' => ipc_inv s' /\
    if cmd =? RT_IPC_CMD_RESET then
      r = RT_EOK /\ k_sems s' = <[sem := mkSem (u16 arg)]> (k_sems s) /\
      k_tlist s' (LSuspend (OSem sem)) = [] /\
      (forall t, t ∈ k_tlist s (LSuspend (OSem sem)) -> exists th, k_threads s' !! t = Some th /\
         stat_class (tstat th) = RT_THREAD_READY /\ th_error th = - RT_ERROR)
    else r = - RT_ERROR /\ s' = s) s.
Proof.
  intros Hi (Hx & Hcx & Hf & Hv & Hr) Hcur. unfold rt_sem_control.
  rewrite wp_bind. eapply wp_is_class; [done|done|].
  destruct (Z.eqb_spec cmd RT_IPC_CMD_RESET) as [->|Hne]; [|by rewrite wp_ret].
  unfold rt_ipc_list_resume_all. rewrite !wp_bind, wp_gets, wp_bind.
  eapply wp_mono, wp_resume_all_loop; [|done|done|done]. intros [] s1 [A1 A2 A3 A4 A5 A6 A7 A8 A9].
  rewrite wp_ret, wp_bind. eapply wp_set_sem; [by rewrite (objects_sems _ _ A4)|].
  rewrite wp_bind. eapply wp_mono, wp_schedule_ipc; [|by eapply ipc_inv_ext|by apply A3].
  intros [] s' (Hi' & Hfr & Hc'). rewrite wp_ret. split; [done|]. split; [done|]. split; [|split].
  - rewrite (objects_sems _ _ (frame_objects _ _ Hfr)). simpl. by rewrite (objects_sems _ _ A4).
  - rewrite (fr_lists _ _ Hfr) by (by intros p). exact A6.
  - intros t Hin. destruct (A8 t Hin) as (th1 & Ht1 & Hs1 & He1).
    destruct (frame_thread _ s' t th1 Hfr) as (th & Ht & E); [done|]. exists th. split; [done|].
    apply (f_equal th_error) in E as Ee. apply strip_stat in E. cbn in Ee. by rewrite E, Ee.
Qed.

(** *** Refinement: a counting semaphore with a queue *)

(** The abstract semaphore: a count and the threads waiting, first come first served. *)
Record sem_abs := SemAbs { sa_value : Z; sa_queue : list tid }.

Inductive sem_label :=
  LTake (c : tid) (r : outcome unit Z) | LRelease (r : Z) | LTimeout (t : tid) | LEnv.

Inductive sem_spec : sem_abs -> sem_label -> sem_abs -> Prop :=
  | sp_take v q c : 0 < v -> sem_spec (SemAbs v q) (LTake c (Returned RT_EOK)) (SemAbs (v - 1) q)
  | sp_refuse q c : sem_spec (SemAbs 0 q) (LTake c (Returned (- RT_ETIMEOUT))) (SemAbs 0 q)
  | sp_wait q c : c ∉ q -> sem_spec (SemAbs 0 q) (LTake c (Waiting c tt)) (SemAbs 0 (q ++ [c]))
  | sp_wake v t q : sem_spec (SemAbs v (t :: q)) (LRelease RT_EOK) (SemAbs v q)
  | sp_up v : v < RT_SEM_VALUE_MAX -> sem_spec (SemAbs v []) (LRelease RT_EOK) (SemAbs (v + 1) [])
  | sp_full : sem_spec (SemAbs RT_SEM_VALUE_MAX []) (LRelease (- RT_EFULL)) (SemAbs RT_SEM_VALUE_MAX [])
  | sp_timeout v q1 t q2 : sem_spec (SemAbs v (q1 ++ t :: q2)) (LTimeout t) (SemAbs v (q1 ++ q2))
  | sp_env a : sem_spec a LEnv a.

(** The kernel's semaphore, and what the kernel keeps of it: nobody waits while the count
    is positive. *)
Definition sem_of (sem : positive) (s : kstate) : sem_abs :=
  SemAbs (default 0 (sem_value <$> k_sems s !! sem)) (k_tlist s (LSuspend (OSem sem))).

Record sem_ok (sem : positive) (s : kstate) : Prop := {
  so_inv : ipc_inv s;
  so_clock : clock_ok s;
  so_live : exists x v, sem_live sem x v s /\ o_flag x = RT_IPC_FLAG_FIFO;
  so_current : is_Some (k_current s);
  so_idle : 0 < sa_value (sem_of sem s) -> sa_queue (sem_of sem s) = []
}.

(** A step: a take by the thread that runs, a release, the timeout of a waiting thread, or
    anything else the kernel does that leaves this semaphore as it is. *)
Inductive sem_step (timer_thread : tid) (sem : positive) : kstate -> sem_label -> kstate -> Prop :=
  | ss_take c th time r s s' : runs c th s -> time < half ->
      rt_sem_take timer_thread sem time s = Some (r, s') -> sem_step timer_thread sem s (LTake c r) s'
  | ss_release r s s' : rt_sem_release sem s = Some (r, s') -> sem_step timer_thread sem s (LRelease r) s'
  | ss_timeout t s s' : t ∈ k_tlist s (LSuspend (OSem sem)) ->
      (forall r, r = TLHard \/ r = TLSoft -> TThread t ∉ k_trow s r) ->
      rt_thread_timeout t s = Some (tt, s') -> sem_step timer_thread sem s (LTimeout t) s'
  | ss_env s s' : sem_ok sem s' -> sem_of sem s' = sem_of sem s -> sem_step timer_thread sem s LEnv s'.


Lemma sem_of_eq sem x v s : sem_live sem x v s -> sem_of sem s = SemAbs v (k_tlist s (LSuspend (OSem sem))).
Proof. intros (_ & _ & _ & Hv & _). unfold sem_of. by rewrite Hv. Qed.

Lemma sem_live_objects sem x v s s' : objects s' = objects s -> sem_live sem x v s -> sem_live sem x v s'.
Proof.
  intros E (Hx & Hc & Hf & Hv & Hr). split; [by eapply objects_obj|]. by rewrite (objects_sems _ _ E).
Qed.

Lemma sem_live_set sem x v w s :
  sem_live sem x v s -> 0 <= w <= RT_SEM_VALUE_MAX -> sem_live sem x w (set_k_sems <[sem := mkSem w]> s).
Proof. intros (Hx & Hc & Hf & Hv & Hr) Hw. repeat (split; [done|]). split; [apply lookup_insert_eq|done]. Qed.

Lemma woken_sem_ok sem x v t th s s' :
  sem_ok sem s -> sem_live sem x v s -> o_flag x = RT_IPC_FLAG_FIFO -> t ∈ k_tlist s (LSuspend (OSem sem)) ->
  woken t th s s' -> sem_ok sem s'.
Proof.
  intros [S1 [S2 S3] S4 S5 S6] Hl Hx Hin Hw. pose proof (wk_objects _ _ _ _ Hw) as Eo.
  pose proof (sem_live_objects sem x v s s' Eo Hl) as Hl'.
  split.
  - apply Hw.
  - split; [by apply Hw|]. by rewrite (wk_tick _ _ _ _ Hw).
  - by exists x, v.
  - by apply Hw.
  - rewrite (sem_of_eq _ _ _ _ Hl'), (sem_of_eq _ _ _ _ Hl) in *. cbn in *. intros Hpos.
    rewrite S6 in Hin by done. by apply elem_of_nil in Hin.
Qed.

Lemma sem_take_simulates tt sem c th time r s s' :
  sem_ok sem s -> runs c th s -> time < half -> rt_sem_take tt sem time s = Some (r, s') ->
  sem_spec (sem_of sem s) (LTake c r) (sem_of sem s') /\ sem_ok sem s'.
Proof.
  intros [S1 S2 (x & v & Hl & Hx) S5 S6] Hrun Ht E.
  pose proof (wp_result _ _ _ _ _ (wp_rt_sem_take tt sem x v c th time s S1 S2 Hl Hrun Ht) E) as [Hi' Hpost].
  rewrite (sem_of_eq _ _ _ _ Hl) in *. pose proof Hl as (_ & _ & _ & _ & Hr). unfold RT_SEM_VALUE_MAX in Hr.
  destruct (Z.ltb_spec 0 v) as [Hpos|Hpos].
  - destruct Hpost as [-> ->]. assert (Hl' : sem_live sem x (v - 1) (set_k_sems <[sem := mkSem (v - 1)]> s)).
    { eapply sem_live_set; [done|]. unfold RT_SEM_VALUE_MAX. lia. }
    rewrite (sem_of_eq _ _ _ _ Hl'). split; [by apply sp_take|].
    split; [done|exact S2|by exists x, (v - 1)|exact S5|]. rewrite (sem_of_eq _ _ _ _ Hl'). intros _. by apply S6.
  - assert (v = 0) as -> by lia. destruct (Z.eqb_spec time 0) as [->|Hne].
    + destruct Hpost as [-> ->]. rewrite (sem_of_eq _ _ _ _ Hl). split; [apply sp_refuse|].
      split; [done|done|by exists x, 0|done|]. by rewrite (sem_of_eq _ _ _ _ Hl).
    + destruct Hpost as [-> Hb]. pose proof (sem_live_objects sem x 0 s s' (bl_objects _ _ _ _ _ _ _ Hb) Hl) as Hl'.
      rewrite (sem_of_eq _ _ _ _ Hl').
      destruct (bl_queue _ _ _ _ _ _ _ Hb) as (l1 & l2 & E1 & -> & Hq). rewrite Hx in Hq. cbn in Hq.
      subst l2. rewrite app_nil_r in E1. rewrite E1. split.
      * apply sp_wait. rewrite <- E1. destruct Hrun as (_ & Hc & Hs & _). by eapply running_unlinked; [apply S1|..].
      * split; [done| |by exists x, 0|apply Hb|by rewrite (sem_of_eq _ _ _ _ Hl')].
        split; [apply Hb|]. rewrite (bl_tick _ _ _ _ _ _ _ Hb). apply S2.
Qed.

Lemma sem_release_simulates sem r s s' :
  sem_ok sem s -> rt_sem_release sem s = Some (r, s') ->
  sem_spec (sem_of sem s) (LRelease r) (sem_of sem s') /\ sem_ok sem s'.
Proof.
  intros Hok E. pose proof Hok as [S1 S2 (x & v & Hl & Hx) S5 S6].
  pose proof (wp_result _ _ _ _ _ (wp_rt_sem_release sem x v s S1 Hl S5) E) as [Hi' Hpost].
  rewrite (sem_of_eq _ _ _ _ Hl) in *. pose proof Hl as (_ & _ & _ & _ & Hr). cbn in S6.
  destruct (k_tlist s (LSuspend (OSem sem))) as [|t l] eqn:El.
  - destruct (Z.ltb_spec v RT_SEM_VALUE_MAX) as [Hlt|Hge]; destruct Hpost as [-> ->].
    + assert (Hl' : sem_live sem x (v + 1) (set_k_sems <[sem := mkSem (v + 1)]> s)) by (eapply sem_live_set; [done|lia]).
      rewrite (sem_of_eq _ _ _ _ Hl'). cbn [k_tlist set_k_sems]. rewrite El. split; [by apply sp_up|].
      split; [done|exact S2|by exists x, (v + 1)|exact S5|]. rewrite (sem_of_eq _ _ _ _ Hl'). intros _. exact El.
    + assert (v = RT_SEM_VALUE_MAX) as -> by lia. rewrite (sem_of_eq _ _ _ _ Hl), El. split; [apply sp_full|done].
  - destruct Hpost as [-> (th & Ht & Hw)].
    destruct (woken_head (LSuspend (OSem sem)) t l th s s' S1 I El Hw) as [Eq _].
    rewrite (sem_of_eq _ _ _ _ (sem_live_objects sem x v s s' (wk_objects _ _ _ _ Hw) Hl)), Eq. split; [apply sp_wake|].
    eapply woken_sem_ok; [done|done|done| |done]. rewrite El. clear. mem.
Qed.

Lemma sem_timeout_simulates sem t s s' :
  sem_ok sem s -> t ∈ k_tlist s (LSuspend (OSem sem)) ->
  (forall r, r = TLHard \/ r = TLSoft -> TThread t ∉ k_trow s r) -> rt_thread_timeout t s = Some (tt, s') ->
  sem_spec (sem_of sem s) (LTimeout t) (sem_of sem s') /\ sem_ok sem s'.
Proof.
  intros Hok Hin Hoff E. pose proof Hok as [S1 S2 (x & v & Hl & Hx) S5 S6].
  destruct (ii_wait _ S1 (LSuspend (OSem sem)) t I Hin) as (th & Ht & Hs).
  pose proof (wp_result _ _ _ _ _ (wp_timeout_ipc t th s S1 S5 Ht Hs Hoff) E) as Hw. cbn beta in Hw.
  split; [|by eapply woken_sem_ok].
  rewrite (sem_of_eq _ _ _ _ Hl), (sem_of_eq _ _ _ _ (sem_live_objects sem x v s s' (wk_objects _ _ _ _ Hw) Hl)).
  rewrite (wk_queues _ _ _ _ Hw) by done. unfold list_remove.
  destruct (ri_space _ _ (proj1 (ki_sched _ (ii_kernel _ S1)))) as [Hnd _].
  specialize (Hnd (LSuspend (OSem sem))). apply list_elem_of_split in Hin as (q1 & q2 & Eq). rewrite Eq in *.
  rewrite filter_mid by done. apply sp_timeout.
Qed.


(** *** The longest wait *)


(** A wait of 0x7fffffff ticks, the largest [rt_int32_t] and the largest value the
    tick conversion documents, is not accepted: the assertion of [rt_timer_start] fires. *)
Theorem longest_wait_faults tt sem x c th s :
  ipc_inv s -> sem_live sem x 0 s -> runs c th s -> rt_sem_take tt sem 0x7fffffff s = None.
Proof.
  intros Hi (Hx & Hcx & Hf & Hv & Hr) (Hc & Ht & Hs & Hn).
  set (s1 := set_k_threads <[c := no_error th]> s).
  assert (Hi1 : ipc_inv s1) by (by apply ipc_inv_upd_error).
  assert (Ht1 : k_threads s1 !! c = Some (no_error th)) by apply lookup_insert_eq.
  assert (Hsus : exists r s2, rt_ipc_list_suspend (LSuspend (OSem sem)) c (o_flag x) s1 = Some (r, s2) /\
    kinv s2 /\ exists th2, k_threads s2 !! c = Some th2 /\ tstat th2 = RT_THREAD_SUSPEND).
  { apply wp_unfold. eapply wp_rt_ipc_list_suspend; [done|done|exact Ht1|done|done|].
    intros l1 l2 _ _ Hi2. split; [apply Hi2|]. destruct (suspended_fields c (no_error th) s1) as (F1 & _).
    cbn [enqueued k_threads set_k_tlist]. rewrite F1, lookup_insert_eq. eexists. split; [done|]. by apply tstat_with. }
  destruct Hsus as (r & s2 & E & Hk2 & th2 & Ht2 & Hs2).
  assert (Hcl : tstat th2 ≠ RT_THREAD_CLOSE) by (by rewrite Hs2).
  destruct (kinv_live _ _ _ Hk2 Ht2 Hcl) as (y & o & v & L1 & L2 & Ho & Hco & L5 & L6 & L7 & Hv2 & L9).
  assert (Hty : Z.land (o_type o) (u8 (Z.lnot RT_Object_Class_Static)) =? RT_Object_Class_Timer = true) by (by apply Z.eqb_eq).
  assert (Htx : Z.land (o_type x) (u8 (Z.lnot RT_Object_Class_Static)) =? RT_Object_Class_Semaphore = true) by (by apply Z.eqb_eq).
  assert (Hstart : rt_timer_start tt (TThread c) (retimed (TThread c) 0x7fffffff v s2) = None).
  { unfold rt_timer_start, is_timer, rt_object_get_type, get_obj, _rt_timer_remove, trow_modify, upd_obj, get_timer, mbind, M_bind, deref, mret, M_ret, rt_assert, modify, gets.
    cbn [k_obj k_timers set_k_obj set_k_timers set_k_trow retimed]. rewrite Ho. cbn beta iota. rewrite Hty. cbn beta iota.
    unfold get_obj, deref. cbn [k_obj k_timers set_k_obj set_k_timers set_k_trow retimed]. rewrite Ho. cbn beta iota.
    cbn [k_obj k_timers set_k_obj set_k_timers set_k_trow retimed]. rewrite lookup_insert_eq. done. }
  assert (Hset : rt_timer_control (TThread c) RT_TIMER_CTRL_SET_TIME 0x7fffffff s2 =
    Some ((RT_EOK, 0x7fffffff), retimed (TThread c) 0x7fffffff v s2)).
  { assert (Hw : wp (rt_timer_control (TThread c) RT_TIMER_CTRL_SET_TIME 0x7fffffff)
      (fun a s' => a = (RT_EOK, 0x7fffffff) /\ s' = retimed (TThread c) 0x7fffffff v s2) s2) by (by eapply wp_set_time).
    apply wp_unfold in Hw as (a & s' & -> & -> & ->). done. }
  unfold rt_sem_take, is_class, rt_object_get_type, get_obj, get_sem, in_thread_context, rt_thread_self, not_in_interrupt, self, upd_thread, get_thread, flag_of, gets, deref, rt_assert, modify.
  unfold mbind at 1, M_bind at 1, mret, M_ret.
  assert (Hblock : block tt (LSuspend (OSem sem)) c (o_flag x) 0x7fffffff s1 = None).
  { unfold block. erewrite bind_some by exact E. unfold start_and_schedule. cbv beta. change (0 <? 0x7fffffff) with true. cbv iota.
    unfold rt_tick_get, mbind, M_bind, gets. rewrite Hset. by rewrite Hstart. }
  unfold mbind, M_bind. unfold get_obj, deref. rewrite Hx. cbn beta iota. rewrite Htx. cbn beta iota. rewrite Hv. cbn beta iota.
  cbn [sem_value]. change (0 <? 0) with false. change (0x7fffffff =? 0) with false. cbv iota beta.
  rewrite Hc. rewrite bool_decide_eq_true_2 by (by eexists). cbv iota beta. rewrite Hn. cbv iota beta.
  change (0 =? 0) with true. cbv iota beta. rewrite Hc. cbv iota beta. rewrite Ht. cbv iota beta.
  cbn [k_obj set_k_threads]. rewrite Hx. cbv iota beta. fold (no_error th). fold s1. by rewrite Hblock.
Qed.

(** ** Witnesses: the kernel of [sample_timers], where thread 4 waits on semaphore 1 *)

Lemma sample_ipc_inv : ipc_inv sample_timers.
Proof.
  split; [apply sample_timers_kinv|]. intros h t Hh Hin. apply sample_tlist in Hin.
  destruct Hin as [[-> _]|[[-> _]|[-> ->]]]; [done|done|]. eexists. split; [done|done].
Qed.
(** The sample state with the headers of further objects. *)
Lemma sample_headers_ipc s :
  k_threads s = k_threads sample_timers -> k_tlist s = k_tlist sample_timers -> k_group s = k_group sample_timers ->
  k_current s = k_current sample_timers -> k_containers s = k_containers sample_timers ->
  k_timers s = k_timers sample_timers -> k_trow s = k_trow sample_timers ->
  (forall t, k_obj s !! OThread t = k_obj sample_timers !! OThread t) ->
  (forall tm, k_obj s !! OTimer tm = k_obj sample_timers !! OTimer tm) -> ipc_inv s.
Proof.
  intros E1 E2 E3 E4 E5 E6 E7 Ht Htm. split; [|rewrite E1, E2; apply sample_ipc_inv].
  destruct sample_timers_kinv as [H1 H2 H3 H4 H5]. split.
  - by eapply sched_inv_ext; [..|exact H1].
  - destruct H2 as [O1 O2]. split; [by rewrite E5|]. rewrite E5. by intros i o []%elem_of_nil.
  - destruct H3 as [T1 T2 T3]. split; [by rewrite E7| |].
    + intros h tm. rewrite E6, E7, Htm. apply T2.
    + intros tm o. rewrite E7, Htm. apply T3.
  - intros t th. rewrite E1. intros Hth Hc. destruct (H4 t th Hth Hc) as (x & xt & v & Hrest).
    exists x, xt, v. by rewrite E6, Ht, Htm.
  - intros t h. rewrite E1, E7. apply H5.
Qed.
Lemma sample_clock : clock_ok sample_timers.
Proof. split; [apply sample_timers_pending|done]. Qed.
Lemma sample_runs : runs 1 (sample_thread 11 10) sample_timers.
Proof. done. Qed.
Lemma sample_sem : sem_live 1 (mkObject [] 0x82 0) 0 sample_timers.
Proof. repeat (split; [done|]). split; [by left|]. done. Qed.
Lemma sample_sem_ok : sem_ok 1 sample_timers.
Proof.
  split; [apply sample_ipc_inv|apply sample_clock| |by eexists|done].
  exists (mkObject [] 0x82 0), 0. split; [apply sample_sem|done].
Qed.

Lemma rt_sem_take_spec_witness :
  wp (rt_sem_take 4 1 100) (fun r s' => ipc_inv s' /\ r = Waiting 1%positive tt /\
    blocked (LSuspend (OSem 1)) 1 (no_error (sample_thread 11 10)) 0 100 sample_timers s') sample_timers.
Proof.
  apply (rt_sem_take_spec 4 1 (mkObject [] 0x82 0) 0 1 (sample_thread 11 10) 100);
    [apply sample_ipc_inv|apply sample_clock|apply sample_sem|apply sample_runs|done].
Defined.

Lemma rt_sem_release_spec_witness :
  wp (rt_sem_release 1) (fun r s' => ipc_inv s' /\ r = RT_EOK /\
    exists th, k_threads sample_timers !! 4%positive = Some th /\ woken 4 th sample_timers s') sample_timers.
Proof.
  apply (rt_sem_release_spec 1 (mkObject [] 0x82 0) 0); [apply sample_ipc_inv|apply sample_sem|by eexists].
Defined.

Lemma rt_sem_control_spec_witness :
  wp (rt_sem_control 1 RT_IPC_CMD_RESET 0x10003) (fun r s' => ipc_inv s' /\
    r = RT_EOK /\ k_sems s' = <[1%positive := mkSem 3]> (k_sems sample_timers) /\
    k_tlist s' (LSuspend (OSem 1)) = [] /\
    (forall t, t ∈ k_tlist sample_timers (LSuspend (OSem 1)) -> exists th, k_threads s' !! t = Some th /\
       stat_class (tstat th) = RT_THREAD_READY /\ th_error th = - RT_ERROR)) sample_timers.
Proof.
  apply (rt_sem_control_spec 1 (mkObject [] 0x82 0) 0); [apply sample_ipc_inv|apply sample_sem|by eexists].
Defined.


Lemma longest_wait_faults_witness : rt_sem_take 4 1 0x7fffffff sample_timers = None.
Proof.
  apply (longest_wait_faults 4 1 (mkObject [] 0x82 0) 1 (sample_thread 11 10));
    [apply sample_ipc_inv|apply sample_sem|apply sample_runs].
Defined.
