(* ===== verification/Mutex.v ===== *)
(** * Mutex: rt-thread/src/ipc.c, mutexes

    Recursive locks with priority inheritance: a thread that has to wait lends its
    priority to the owner, who gives it back with the last release.  The abstract lock the
    kernel's mutex refines has an owner, a count of nested takes and a queue. *)

From S2P Require Import Prelude RtList Kernel Scheduler Object TimerCore Thread Timer Ipc.

#[local] Open Scope Z_scope.

(** ** Definitions *)

Section mutex.
Context (timer_thread : tid).

Definition get_mutex (mutex : positive) : K rt_mutex := deref (fun s => k_mutexes s !! mutex).
Definition upd_mutex (mutex : positive) (f : rt_mutex -> rt_mutex) : K unit :=
  mx ← get_mutex mutex; modify (set_k_mutexes <[mutex := f mx]>).

(** [value], [original_priority], [hold] and [owner] of a mutex nobody holds *)
Definition free_mutex : rt_mutex := mkMutex 1 0xFF 0 None.

Definition rt_mutex_init (mutex : positive) (name : list Z) (flag : Z) : K Z :=
  rt_object_init (OMutex mutex) RT_Object_Class_Mutex name ;;
  rt_ipc_object_init (OMutex mutex) ;;
  modify (set_k_mutexes <[mutex := free_mutex]>) ;;
  upd_obj (OMutex mutex) (set_o_flag (fun _ => flag)) ;;
  mret RT_EOK.

Definition rt_mutex_detach (mutex : positive) : K Z :=
  is_class (OMutex mutex) RT_Object_Class_Mutex ;;
  is_system (OMutex mutex) true ;;
  rt_ipc_list_resume_all (LSuspend (OMutex mutex)) ;;
  rt_object_detach (OMutex mutex) ;;
  mret RT_EOK.

Definition rt_mutex_create (malloc : option positive) (name : list Z) (flag : Z) : K (option positive) :=
  not_in_interrupt ;;
  r ← rt_object_allocate (OMutex <$> malloc) RT_Object_Class_Mutex name;
  match r, malloc with
  | Some _, Some mutex =>
      rt_ipc_object_init (OMutex mutex) ;;
      modify (set_k_mutexes <[mutex := free_mutex]>) ;;
      upd_obj (OMutex mutex) (set_o_flag (fun _ => flag)) ;;
      mret (Some mutex)
  | _, _ => mret None
  end.

Definition rt_mutex_delete (mutex : positive) : K Z :=
  not_in_interrupt ;;
  is_class (OMutex mutex) RT_Object_Class_Mutex ;;
  is_system (OMutex mutex) false ;;
  rt_ipc_list_resume_all (LSuspend (OMutex mutex)) ;;
  rt_object_delete (OMutex mutex) ;;
  modify (set_k_mutexes (delete mutex)) ;;
  mret RT_EOK.

(** [if (mutex->hold < RT_MUTEX_HOLD_MAX) mutex->hold ++; else return -RT_EFULL;] before
    what follows. *)
Definition count_hold {A} (mutex : positive) (full : A) (k : K A) : K A :=
  mx ← get_mutex mutex;
  if mx_hold mx <? RT_MUTEX_HOLD_MAX then
    upd_mutex mutex (set_mx_hold (fun h => u8 (h + 1))) ;; k
  else mret full.

Definition rt_mutex_take (mutex : positive) (time : Z) : K (outcome unit Z) :=
  in_thread_context ;;
  is_class (OMutex mutex) RT_Object_Class_Mutex ;;
  thread ← self;
  upd_thread thread (set_th_error (fun _ => RT_EOK)) ;;
  mx ← get_mutex mutex;
  if bool_decide (mx_owner mx = Some thread) then
    count_hold mutex (Returned (- RT_EFULL)) (mret (Returned RT_EOK))
  else if 0 <? mx_value mx then
    upd_mutex mutex (set_mx_value (fun v => u16 (v - 1))) ;;
    upd_mutex mutex (set_mx_owner (fun _ => Some thread)) ;;
    th ← get_thread thread;
    upd_mutex mutex (set_mx_original_priority (fun _ => th_current_priority th)) ;;
    count_hold mutex (Returned (- RT_EFULL)) (mret (Returned RT_EOK))
  else if time =? 0 then
    upd_thread thread (set_th_error (fun _ => - RT_ETIMEOUT)) ;;
    mret (Returned (- RT_ETIMEOUT))
  else
    th ← get_thread thread;
    owner ← deref (fun _ => mx_owner mx);
    oth ← get_thread owner;
    when (th_current_priority th <? th_current_priority oth)
      (rt_thread_control owner RT_THREAD_CTRL_CHANGE_PRIORITY (Some (th_current_priority th)) ;; mret tt) ;;
    flag ← flag_of (OMutex mutex);
    block timer_thread (LSuspend (OMutex mutex)) thread flag time ;;
    mret (Waiting thread tt).
Definition rt_mutex_take_resumed (thread : tid) : K Z :=
  th ← get_thread thread;
  if negb (th_error th =? RT_EOK) then mret (th_error th) else mret RT_EOK.

Definition rt_mutex_release (mutex : positive) : K Z :=
  is_class (OMutex mutex) RT_Object_Class_Mutex ;;
  in_thread_context ;;
  thread ← self;
  mx ← get_mutex mutex;
  if bool_decide (Some thread ≠ mx_owner mx) then
    upd_thread thread (set_th_error (fun _ => - RT_ERROR)) ;;
    mret (- RT_ERROR)
  else
    upd_mutex mutex (set_mx_hold (fun h => u8 (h - 1))) ;;
    mx ← get_mutex mutex;
    if mx_hold mx =? 0 then
      owner ← deref (fun _ => mx_owner mx);
      oth ← get_thread owner;
      when (negb (mx_original_priority mx =? th_current_priority oth))
        (rt_thread_control owner RT_THREAD_CTRL_CHANGE_PRIORITY (Some (mx_original_priority mx)) ;; mret tt) ;;
      L ← gets k_tlist;
      if negb (list_isempty (LSuspend (OMutex mutex)) L) then
        thread ← first_of (LSuspend (OMutex mutex));
        upd_mutex mutex (set_mx_owner (fun _ => Some thread)) ;;
        th ← get_thread thread;
        upd_mutex mutex (set_mx_original_priority (fun _ => th_current_priority th)) ;;
        count_hold mutex (- RT_EFULL)
          (rt_ipc_list_resume (LSuspend (OMutex mutex)) ;; rt_schedule ;; mret RT_EOK)
      else if mx_value mx <? RT_MUTEX_VALUE_MAX then
        upd_mutex mutex (set_mx_value (fun v => u16 (v + 1))) ;;
        upd_mutex mutex (set_mx_owner (fun _ => None)) ;;
        upd_mutex mutex (set_mx_original_priority (fun _ => 0xff)) ;;
        mret RT_EOK
      else mret (- RT_EFULL)
    else mret RT_EOK.

Definition rt_mutex_control (mutex : positive) : K Z :=
  is_class (OMutex mutex) RT_Object_Class_Mutex ;; mret (- RT_ERROR).
End mutex.

(** ** The invariant *)

(** A free mutex has no waiting threads; a held one is held once or more by a live thread
    that is not waiting for it. *)
Definition mutex_wf (m : positive) (mx : rt_mutex) (s : kstate) : Prop :=
  match mx_owner mx with
  | None => mx = free_mutex /\ k_tlist s (LSuspend (OMutex m)) = []
  | Some o => mx_value mx = 0 /\ 1 <= mx_hold mx <= RT_MUTEX_HOLD_MAX /\
      0 <= mx_original_priority mx < RT_THREAD_PRIORITY_MAX /\
      (o ∉ k_tlist s (LSuspend (OMutex m))) /\
      exists tho, k_threads s !! o = Some tho /\ tstat tho ≠ RT_THREAD_CLOSE
  end.

Definition mutex_live (m : positive) (x : rt_object) (mx : rt_mutex) (s : kstate) : Prop :=
  k_obj s !! OMutex m = Some x /\ class_of x = RT_Object_Class_Mutex /\ ipc_flag (o_flag x) /\
  k_mutexes s !! m = Some mx /\ mutex_wf m mx s.

Lemma wp_get_mutex m mx (Q : rt_mutex -> kstate -> Prop) s :
  k_mutexes s !! m = Some mx -> Q mx s -> wp (get_mutex m) Q s.
Proof. intros. by eapply wp_deref. Qed.
Lemma wp_upd_mutex m mx f (Q : unit -> kstate -> Prop) s :
  k_mutexes s !! m = Some mx -> Q tt (set_k_mutexes <[m := f mx]> s) -> wp (upd_mutex m f) Q s.
Proof. intros Hv HQ. unfold upd_mutex. rewrite wp_bind. by eapply wp_get_mutex. Qed.
Lemma wp_count_hold {A} m mx full (k : K A) (Q : A -> kstate -> Prop) s :
  k_mutexes s !! m = Some mx -> 0 <= mx_hold mx ->
  (if mx_hold mx <? RT_MUTEX_HOLD_MAX
   then wp k Q (set_k_mutexes <[m := set_mx_hold (fun h => h + 1) mx]> s) else Q full s) ->
  wp (count_hold m full k) Q s.
Proof.
  intros Hm Hh HQ. unfold count_hold. rewrite wp_bind. eapply wp_get_mutex; [done|].
  destruct (Z.ltb_spec (mx_hold mx) RT_MUTEX_HOLD_MAX) as [Hlt|]; [|done].
  rewrite wp_bind. eapply wp_upd_mutex; [done|]. unfold RT_MUTEX_HOLD_MAX in Hlt.
  revert HQ. unfold set_mx_hold. rewrite wrap_small by lia. done.
Qed.

(** ** Lending and returning priorities *)

(** A change of priority leaves the wait queues and the objects alone. *)
Lemma reprioritised_ipc t th p s :
  ipc_inv s -> k_threads s !! t = Some th -> 0 <= p < RT_THREAD_PRIORITY_MAX ->
  ipc_inv (reprioritised t th p s) /\ objects (reprioritised t th p s) = objects s /\
  k_current (reprioritised t th p s) = k_current s /\ k_tick (reprioritised t th p s) = k_tick s /\
  (pending s -> pending (reprioritised t th p s)) /\
  forall h, wait_head h -> k_tlist (reprioritised t th p s) h = k_tlist s h.
Proof.
  intros Hi Ht Hp.
  pose proof (reprioritised_kinv t th p s (ii_kernel _ Hi) Ht Hp) as Hk.
  destruct (reprioritised_threads t th p s Ht) as (th' & Hth & Hst & _).
  assert (HL : forall h, wait_head h -> k_tlist (reprioritised t th p s) h = k_tlist s h).
  { intros h Hh. unfold reprioritised. destruct (Z.eqb_spec (tstat th) RT_THREAD_READY) as [E|E]; [|done].
    simpl. unfold list_insert_before. rewrite insert_ne by (by intros <-).
    apply list_remove_unlinked_id. intros Hin.
    destruct (ii_wait _ Hi h t Hh Hin) as (th0 & Ht0 & Hs0). simplify_eq. by rewrite E in Hs0. }
  split; [split; [done|]|].
  - intros h u Hh. rewrite HL by done. intros Hin. destruct (ii_wait _ Hi h u Hh Hin) as (thu & Hu & Hs).
    rewrite Hth. destruct (decide (t = u)) as [<-|Hne].
    + rewrite lookup_insert_eq. exists th'. simplify_eq. by rewrite Hst.
    + rewrite lookup_insert_ne by done. by exists thu.
  - unfold reprioritised in *. destruct (tstat th =? RT_THREAD_READY); repeat (split; [done|]); done.
Qed.

(** [rt_thread_control] called to change a priority only if it differs. *)
Lemma wp_when_priority t th p (b : bool) (Q : unit -> kstate -> Prop) s :
  ipc_inv s -> k_threads s !! t = Some th -> tstat th ≠ RT_THREAD_CLOSE -> 0 <= p < RT_THREAD_PRIORITY_MAX ->
  (b = true -> Q tt (reprioritised t th p s)) -> (b = false -> Q tt s) ->
  wp (when b (rt_thread_control t RT_THREAD_CTRL_CHANGE_PRIORITY (Some p) ;; mret tt)) Q s.
Proof.
  intros Hi Ht Hc Hp H1 H2. apply wp_when; [|done]. intros Hb. rewrite wp_bind.
  eapply wp_change_priority; [apply Hi|done|done|done|]. intros _. rewrite wp_ret. by apply H1.
Qed.

(** ** Taking *)

(** The error of the calling thread is reset. *)
Definition reset (c : tid) (th : rt_thread) (s : kstate) : kstate := set_k_threads <[c := no_error th]> s.
(** The owner [o] runs at priority [p] if that is more urgent than its own. *)
Definition lend (o : tid) (tho : rt_thread) (p : Z) (s : kstate) : kstate :=
  if p <? th_current_priority tho then reprioritised o tho p s else s.

Lemma lend_ipc o tho p s :
  ipc_inv s -> k_threads s !! o = Some tho -> 0 <= p < RT_THREAD_PRIORITY_MAX ->
  ipc_inv (lend o tho p s) /\ objects (lend o tho p s) = objects s /\
  k_current (lend o tho p s) = k_current s /\ k_tick (lend o tho p s) = k_tick s /\
  (pending s -> pending (lend o tho p s)) /\
  (forall h, wait_head h -> k_tlist (lend o tho p s) h = k_tlist s h) /\
  exists tho', k_threads (lend o tho p s) = <[o := tho']> (k_threads s) /\
    tstat tho' = tstat tho /\ th_current_priority tho' = Z.min p (th_current_priority tho).
Proof.
  intros Hi Ht Hp. unfold lend. destruct (Z.ltb_spec p (th_current_priority tho)) as [Hlt|Hge].
  - destruct (reprioritised_ipc o tho p s Hi Ht Hp) as (R1 & R2 & R3 & R4 & R5 & R6).
    repeat (split; [done|]). destruct (reprioritised_threads o tho p s Ht) as (tho' & Hth & Hs & Hpr).
    exists tho'. rewrite Hpr. split; [done|]. split; [done|]. lia.
  - repeat (split; [done|]). exists tho. split; [by rewrite insert_id|]. split; [done|]. lia.
Qed.

(** What a take that has to wait leaves: the caller blocked on the mutex's queue, from the
    state in which its priority has been lent; the owner at least as urgent as the caller. *)
Definition waiting_for (m : positive) (x : rt_object) (o c : tid) (th : rt_thread) (time : Z) (s s' : kstate) : Prop :=
  exists tho, k_threads s !! o = Some tho /\
    blocked (LSuspend (OMutex m)) c (no_error th) (o_flag x) time
      (lend o tho (th_current_priority th) (reset c th s)) s' /\
    exists tho', k_threads s' !! o = Some tho' /\ tstat tho' ≠ RT_THREAD_CLOSE /\
      th_current_priority tho' = Z.min (th_current_priority th) (th_current_priority tho).

Lemma wp_rt_mutex_take tt m x mx c th time s :
  ipc_inv s -> clock_ok s -> mutex_live m x mx s -> runs c th s -> time < half ->
  wp (rt_mutex_take tt m time) (fun r s' => ipc_inv s' /\
    match mx_owner mx with
    | None => r = Returned RT_EOK /\
        s' = set_k_mutexes <[m := mkMutex 0 (th_current_priority th) 1 (Some c)]> (reset c th s)
    | Some o =>
        if bool_decide (o = c) then
          if mx_hold mx <? RT_MUTEX_HOLD_MAX then
            r = Returned RT_EOK /\
            s' = set_k_mutexes <[m := set_mx_hold (fun h => h + 1) mx]> (reset c th s)
          else r = Returned (- RT_EFULL) /\ s' = reset c th s
        else if time =? 0 then
          r = Returned (- RT_ETIMEOUT) /\ s' = set_k_threads <[c := set_th_error (fun _ => - RT_ETIMEOUT) (no_error th)]> s
        else r = Waiting c Datatypes.tt /\ waiting_for m x o c th time s s'
    end) s.
Proof.
  intros Hi [Hp Htick] (Hx & Hcx & Hf & Hm & Hwf) (Hc & Ht & Hs & Hn) Htime.
  pose proof (ii_kernel _ Hi) as Hk. pose proof (kinv_th_ok _ _ _ Hk Ht) as Hok.
  assert (Hi0 : ipc_inv (reset c th s)) by (by apply ipc_inv_upd_error).
  assert (Hobj : forall mm, k_mutexes (set_k_mutexes mm (reset c th s)) = mm (k_mutexes s)) by done.
  unfold rt_mutex_take. rewrite wp_bind. apply wp_in_thread_context; [by exists c|done|].
  rewrite wp_bind. eapply wp_is_class; [done|done|].
  rewrite wp_bind. eapply wp_self; [done|]. rewrite wp_bind. eapply wp_upd_thread; [done|].
  fold (no_error th). fold (reset c th s).
  assert (Ht0 : k_threads (reset c th s) !! c = Some (no_error th)) by apply lookup_insert_eq.
  rewrite wp_bind. eapply wp_get_mutex; [exact Hm|]. unfold mutex_wf in Hwf.
  destruct (mx_owner mx) as [o|] eqn:Eo.
  - destruct Hwf as (Hv & Hh & Hpr & Hq & tho & Hto & Hcl).
    case_bool_decide as Hoc; destruct (bool_decide_reflect (o = c)) as [E|E]; try (simplify_eq; done).
    + eapply wp_count_hold; [exact Hm|lia|]. destruct (mx_hold mx <? RT_MUTEX_HOLD_MAX); [rewrite wp_ret|];
        (split; [by eapply ipc_inv_ext|done]).
    + rewrite Hv. change (0 <? 0) with false. cbv iota. destruct (Z.eqb_spec time 0) as [->|Hne].
      * rewrite wp_bind. eapply wp_upd_thread; [exact Ht0|]. rewrite wp_ret.
        split; [by apply ipc_inv_upd_error|]. split; [done|].
        unfold reset, set_k_threads. cbn. by rewrite insert_insert_eq.
      * assert (Hto0 : k_threads (reset c th s) !! o = Some tho) by (cbn; by rewrite lookup_insert_ne).
        rewrite wp_bind. eapply wp_get_thread; [exact Ht0|]. rewrite wp_bind. eapply wp_deref; [done|].
        rewrite wp_bind. eapply wp_get_thread; [exact Hto0|].
        change (th_current_priority (no_error th)) with (th_current_priority th).
        destruct (lend_ipc o tho (th_current_priority th) (reset c th s) Hi0 Hto0 (tho_prio _ Hok))
          as (L1 & L2 & L3 & L4 & L5 & L6 & tho1 & L7 & L8 & L9).
        assert (Hrest : wp (flag ← flag_of (OMutex m);
            block tt (LSuspend (OMutex m)) c flag time ;; (mret (Waiting c Datatypes.tt) : K (outcome unit Z)))
          (fun r s' => ipc_inv s' /\ r = Waiting c Datatypes.tt /\ waiting_for m x o c th time s s')
          (lend o tho (th_current_priority th) (reset c th s))).
        { rewrite wp_bind. unfold flag_of. rewrite wp_bind.
          eapply wp_get_obj; [eapply objects_obj; [exact L2|done|exact Hx]|]. rewrite wp_ret, wp_bind.
          eapply wp_mono, (wp_block tt _ c (no_error th)); [|done|by apply L5; eapply pending_ext; [..|exact Hp]|done|done|by rewrite L3| |done|done|by rewrite L4].
          2: { rewrite L7, lookup_insert_ne by done. exact Ht0. }
          intros r s' [_ Hb]. rewrite wp_ret. split; [apply Hb|]. split; [done|].
          exists tho. split; [done|]. split; [done|].
          destruct (bl_threads _ _ _ _ _ _ _ Hb o tho1) as (tho' & Hto' & E'); [done|by rewrite L7, lookup_insert_eq|].
          exists tho'. split; [done|]. split.
          - intros E1. apply Hcl. rewrite <- L8. by apply (strip_same_stat RT_THREAD_CLOSE _ _ E').
          - apply (f_equal th_current_priority) in E'. cbn in E'. by rewrite E', L9. }
        rewrite wp_bind. eapply wp_when_priority; [exact Hi0|exact Hto0|done|apply Hok| |].
        -- intros Hb. unfold lend in Hrest. rewrite Hb in Hrest. exact Hrest.
        -- intros Hb. unfold lend in Hrest. rewrite Hb in Hrest. exact Hrest.
  - destruct Hwf as [-> Hq]. rewrite bool_decide_eq_false_2 by done. cbn [mx_value free_mutex].
    change (0 <? 1) with true. cbv iota.
    rewrite wp_bind. eapply wp_upd_mutex; [exact Hm|]. rewrite wp_bind. eapply wp_upd_mutex; [apply lookup_insert_eq|].
    rewrite wp_bind. eapply wp_get_thread; [exact Ht0|]. rewrite wp_bind. eapply wp_upd_mutex; [apply lookup_insert_eq|].
    eapply wp_count_hold; [apply lookup_insert_eq|done|]. cbn [mx_hold set_mx_hold set_mx_original_priority set_mx_owner set_mx_value free_mutex].
    change (0 <? RT_MUTEX_HOLD_MAX) with true. cbv iota. rewrite wp_ret.
    split; [by eapply ipc_inv_ext|]. split; [done|].
    unfold set_k_mutexes. cbn. by rewrite !insert_insert_eq.
Qed.

(** [rt_mutex_take] on every branch: a free mutex becomes the caller's, and its
    priority is remembered; a mutex the caller holds is counted, up to 255 nested takes,
    after which -RT_EFULL; a mutex of another thread gives -RT_ETIMEOUT at once when the
    caller does not wait, and otherwise the caller sleeps on the mutex's queue and the
    owner runs at least at the caller's priority until it releases the mutex. *)
Theorem rt_mutex_take_spec tt m x mx c th time s :
  ipc_inv s -> clock_ok s -> mutex_live m x mx s -> runs c th s -> time < half ->
  wp (rt_mutex_take tt m time) (fun r s' => ipc_inv s' /\
    match mx_owner mx with
    | None => r = Returned RT_EOK /\
        s' = set_k_mutexes <[m := mkMutex 0 (th_current_priority th) 1 (Some c)]> (reset c th s)
    | Some o =>
        if bool_decide (o = c) then
          if mx_hold mx <? RT_MUTEX_HOLD_MAX then
            r = Returned RT_EOK /\
            s' = set_k_mutexes <[m := set_mx_hold (fun h => h + 1) mx]> (reset c th s)
          else r = Returned (- RT_EFULL) /\ s' = reset c th s
        else if time =? 0 then
          r = Returned (- RT_ETIMEOUT) /\ s' = set_k_threads <[c := set_th_error (fun _ => - RT_ETIMEOUT) (no_error th)]> s
        else r = Waiting c Datatypes.tt /\ waiting_for m x o c th time s s'
    end) s.
Proof. apply wp_rt_mutex_take. Qed.

(** ** Releasing *)

(** The owner's block once it has its own priority again. *)
Definition restored (mx : rt_mutex) (th : rt_thread) : rt_thread :=
  if mx_original_priority mx =? th_current_priority th then th
  else with_priority (mx_original_priority mx) th.

Lemma ipc_inv_restored c th mx s :
  ipc_inv s -> k_threads s !! c = Some th -> tstat th = RT_THREAD_RUNNING ->
  0 <= mx_original_priority mx < RT_THREAD_PRIORITY_MAX ->
  ipc_inv (set_k_threads <[c := restored mx th]> s).
Proof.
  intros Hi Ht Hs Hp. unfold restored. destruct (mx_original_priority mx =? th_current_priority th).
  - eapply ipc_inv_ext; [exact Hi|cbn; by rewrite insert_id|done..].
  - destruct (reprioritised_ipc c th (mx_original_priority mx) s Hi Ht Hp) as [H _].
    unfold reprioritised in H. rewrite Hs in H. exact H.
Qed.

(** The state after the last release, before anybody is woken. *)
Definition returned (m : positive) (mx mx' : rt_mutex) (c : tid) (th : rt_thread) (s : kstate) : kstate :=
  set_k_mutexes <[m := mx']> (set_k_threads <[c := restored mx th]> s).

Lemma wp_rt_mutex_release m x mx c th s :
  ipc_inv s -> mutex_live m x mx s -> runs c th s ->
  wp (rt_mutex_release m) (fun r s' => ipc_inv s' /\
    if bool_decide (mx_owner mx = Some c) then
      if 1 <? mx_hold mx then r = RT_EOK /\ s' = set_k_mutexes <[m := set_mx_hold (fun h => h - 1) mx]> s
      else match k_tlist s (LSuspend (OMutex m)) with
        | [] => r = RT_EOK /\ s' = returned m mx free_mutex c th s
        | t :: _ => r = RT_EOK /\ exists tht, k_threads s !! t = Some tht /\
            woken t tht (returned m mx (mkMutex 0 (th_current_priority tht) 1 (Some t)) c th s) s'
        end
    else r = - RT_ERROR /\ s' = set_k_threads <[c := set_th_error (fun _ => - RT_ERROR) th]> s) s.
Proof.
  intros Hi (Hx & Hcx & Hf & Hm & Hwf) (Hc & Ht & Hs & Hn). pose proof (ii_kernel _ Hi) as Hk.
  unfold rt_mutex_release. rewrite wp_bind. eapply wp_is_class; [done|done|].
  rewrite wp_bind. apply wp_in_thread_context; [by exists c|done|].
  rewrite wp_bind. eapply wp_self; [done|]. rewrite wp_bind. eapply wp_get_mutex; [done|].
  destruct (bool_decide_reflect (mx_owner mx = Some c)) as [Eo|Eo].
  2: { rewrite bool_decide_eq_true_2 by congruence. rewrite wp_bind. eapply wp_upd_thread; [done|].
       rewrite wp_ret. split; [by apply ipc_inv_upd_error|done]. }
  rewrite bool_decide_eq_false_2 by congruence. unfold mutex_wf in Hwf. rewrite Eo in Hwf.
  destruct Hwf as (Hv & Hh & Hpr & Hq & _). unfold RT_MUTEX_HOLD_MAX in Hh.
  rewrite wp_bind. eapply wp_upd_mutex; [done|]. rewrite wp_bind. eapply wp_get_mutex; [apply lookup_insert_eq|].
  destruct mx as [v p h o]. cbn [mx_owner mx_value mx_hold mx_original_priority] in *. subst o v.
  unfold set_mx_hold. cbn [mx_owner mx_value mx_hold mx_original_priority]. rewrite (wrap_small 8) by lia.
  destruct (Z.ltb_spec 1 h) as [Hgt|Hle].
  { rewrite (proj2 (Z.eqb_neq (h - 1) 0)) by lia. rewrite wp_ret. split; [by eapply ipc_inv_ext|done]. }
  assert (h = 1) as -> by lia. change (1 - 1 =? 0) with true. change (1 - 1) with 0. cbv iota.
  rewrite wp_bind. eapply wp_deref; [done|].
  set (mx0 := mkMutex 0 p 0 (Some c)). set (s1 := set_k_mutexes <[m := mx0]> s).
  assert (Hi1 : ipc_inv s1) by (by eapply ipc_inv_ext).
  rewrite wp_bind. eapply wp_get_thread; [exact Ht|].
  set (s2 := set_k_mutexes <[m := mx0]> (set_k_threads <[c := restored (mkMutex 0 p 1 (Some c)) th]> s)).
  set (mx := mkMutex 0 p 1 (Some c)) in *.
  assert (Hi2 : ipc_inv s2).
  { eapply (ipc_inv_ext (set_k_threads <[c := restored mx th]> s)); try done. by apply ipc_inv_restored. }
  assert (Hm2 : k_mutexes s2 !! m = Some mx0) by apply lookup_insert_eq.
  rewrite wp_bind. cut (wp (L ← gets k_tlist;
      if negb (list_isempty (LSuspend (OMutex m)) L) then
        thread ← first_of (LSuspend (OMutex m));
        upd_mutex m (set_mx_owner (fun _ => Some thread)) ;;
        th ← get_thread thread;
        upd_mutex m (set_mx_original_priority (fun _ => th_current_priority th)) ;;
        count_hold m (- RT_EFULL) (rt_ipc_list_resume (LSuspend (OMutex m)) ;; rt_schedule ;; mret RT_EOK)
      else if 0 <? RT_MUTEX_VALUE_MAX then
        upd_mutex m (set_mx_value (fun v => u16 (v + 1))) ;;
        upd_mutex m (set_mx_owner (fun _ => None)) ;;
        upd_mutex m (set_mx_original_priority (fun _ => 0xff)) ;;
        mret RT_EOK
      else mret (- RT_EFULL)) (fun r s' => ipc_inv s' /\
      match k_tlist s (LSuspend (OMutex m)) with
      | [] => r = RT_EOK /\ s' = returned m mx free_mutex c th s
      | t :: _ => r = RT_EOK /\ exists tht, k_threads s !! t = Some tht /\
          woken t tht (returned m mx (mkMutex 0 (th_current_priority tht) 1 (Some t)) c th s) s'
      end) s2).
  { intros Hrest. eapply wp_when_priority; [exact Hi1|exact Ht|by rewrite Hs|done| |].
    - intros Hb. unfold reprioritised. rewrite Hs. change (RT_THREAD_RUNNING =? RT_THREAD_READY) with false. cbv iota.
      apply negb_true_iff in Hb. unfold s2, restored in Hrest. cbn [mx_original_priority mx] in Hrest.
      rewrite Hb in Hrest. exact Hrest.
    - intros Hb. apply negb_false_iff in Hb. unfold s2, restored in Hrest. cbn [mx_original_priority mx] in Hrest.
      rewrite Hb in Hrest. unfold set_k_threads in Hrest. rewrite insert_id in Hrest by done. destruct s. exact Hrest. }
  rewrite wp_bind, wp_gets. unfold list_isempty. change (k_tlist s2) with (k_tlist s).
  destruct (k_tlist s (LSuspend (OMutex m))) as [|t l] eqn:El.
  - rewrite bool_decide_eq_true_2 by done. cbn [negb]. change (0 <? RT_MUTEX_VALUE_MAX) with true. cbv iota.
    rewrite wp_bind. eapply wp_upd_mutex; [done|]. rewrite wp_bind. eapply wp_upd_mutex; [apply lookup_insert_eq|].
    rewrite wp_bind. eapply wp_upd_mutex; [apply lookup_insert_eq|]. rewrite wp_ret.
    assert (E : forall mx1 mx2 mx3, set_k_mutexes <[m := mx3]> (set_k_mutexes <[m := mx2]> (set_k_mutexes <[m := mx1]> s2)) =
      returned m mx mx3 c th s) by (intros; unfold s2, returned, set_k_mutexes; cbn; by rewrite !insert_insert_eq).
    rewrite E. split; [|done]. by eapply (ipc_inv_ext s2).
  - rewrite bool_decide_eq_false_2 by done. cbn [negb].
    assert (Hne : c ≠ t) by (intros ->; apply Hq; clear; mem).
    destruct (ii_wait _ Hi (LSuspend (OMutex m)) t I) as (tht & Htt & _); [rewrite El; clear; mem|].
    unfold first_of. rewrite wp_bind. eapply wp_deref; [change (k_tlist s2) with (k_tlist s); by rewrite El|].
    rewrite wp_bind. eapply wp_upd_mutex; [done|]. rewrite wp_bind.
    eapply wp_get_thread; [cbn; rewrite lookup_insert_ne by done; exact Htt|].
    rewrite wp_bind. eapply wp_upd_mutex; [apply lookup_insert_eq|]. eapply wp_count_hold; [apply lookup_insert_eq|done|].
    change (mx_hold (set_mx_original_priority (fun _ => th_current_priority tht) (set_mx_owner (fun _ => Some t) mx0)) <? RT_MUTEX_HOLD_MAX) with true.
    cbv iota. set (s3 := returned m mx (mkMutex 0 (th_current_priority tht) 1 (Some t)) c th s).
    match goal with |- wp _ _ ?s4 => assert (s4 = s3) as -> end.
    { unfold s3, s2, returned, set_k_mutexes. cbn. by rewrite !insert_insert_eq. }
    assert (Hi3 : ipc_inv s3) by (by eapply (ipc_inv_ext s2)).
    rewrite wp_bind. eapply (wp_rt_ipc_list_resume _ t l tht); [done|done|exact El|cbn; by rewrite lookup_insert_ne|].
    intros s4 Hw. rewrite wp_bind. eapply wp_mono, wp_schedule_ipc; [|apply Hw|apply Hw; by exists c].
    intros [] s' (Hi' & Hfr & Hc'). rewrite wp_ret. split; [done|]. split; [done|]. exists tht. split; [done|].
    by eapply woken_frame.
Qed.

(** [rt_mutex_release] on every branch: a thread that is not the owner gets -RT_ERROR;
    the owner's nested takes are counted down; the last release gives the owner its own
    priority back and hands the mutex to the first waiting thread, which becomes ready
    owning it with one hold, or frees the mutex when nobody waits. *)
Theorem rt_mutex_release_spec m x mx c th s :
  ipc_inv s -> mutex_live m x mx s -> runs c th s ->
  wp (rt_mutex_release m) (fun r s' => ipc_inv s' /\
    if bool_decide (mx_owner mx = Some c) then
      if 1 <? mx_hold mx then r = RT_EOK /\ s' = set_k_mutexes <[m := set_mx_hold (fun h => h - 1) mx]> s
      else match k_tlist s (LSuspend (OMutex m)) with
        | [] => r = RT_EOK /\ s' = returned m mx free_mutex c th s
        | t :: _ => r = RT_EOK /\ exists tht, k_threads s !! t = Some tht /\
            woken t tht (returned m mx (mkMutex 0 (th_current_priority tht) 1 (Some t)) c th s) s'
        end
    else r = - RT_ERROR /\ s' = set_k_threads <[c := set_th_error (fun _ => - RT_ERROR) th]> s) s.
Proof. apply wp_rt_mutex_release. Qed.

(** The release that frees a mutex gives the owner its own priority back without a
    rescheduling: if the priority had been lent by a thread that has since given up
    waiting, a ready thread more urgent than the owner's own priority stays behind the
    owner, contrary to what every dispatch establishes. *)
Theorem release_leaves_inversion m x mx c th t tht s :
  ipc_inv s -> mutex_live m x mx s -> runs c th s -> mx_owner mx = Some c -> mx_hold mx = 1 ->
  k_tlist s (LSuspend (OMutex m)) = [] ->
  k_threads s !! t = Some tht -> tstat tht = RT_THREAD_READY ->
  th_current_priority tht < mx_original_priority mx ->
  wp (rt_mutex_release m) (fun r s' => r = RT_EOK /\ k_current s' = Some c /\ ~ dispatched s') s.
Proof.
  intros Hi Hl Hrun Eo Eh El Ht Hst Hlt. eapply wp_mono, wp_rt_mutex_release; [|done..].
  intros r s' [_ Hpost]. rewrite bool_decide_eq_true_2 in Hpost by done. rewrite Eh, El in Hpost.
  destruct Hpost as [-> ->]. destruct Hrun as (Hc & Htc & Hsc & _). split; [done|]. split; [done|].
  intros (c' & thc & Hc' & Hthc & Hs & Hmin). cbn in Hc'. rewrite Hc in Hc'. injection Hc' as <-. cbn in Hthc.
  rewrite lookup_insert_eq in Hthc. simplify_eq.
  assert (Hne : c ≠ t) by (intros ->; simplify_eq; by rewrite Hsc in Hst).
  specialize (Hmin t tht). cbn in Hmin. rewrite lookup_insert_ne in Hmin by done. specialize (Hmin Ht Hst).
  unfold restored in Hmin. destruct (Z.eqb_spec (mx_original_priority mx) (th_current_priority th)) as [E|E]; cbn in Hmin; lia.
Qed.

(** ** Refinement: a recursive lock with a queue *)

Record lock_abs := LockAbs { la_owner : option tid; la_hold : Z; la_queue : list tid }.

Inductive lock_label := LLock (c : tid) (r : outcome unit Z) | LUnlock (c : tid) (r : Z) | LGiveUp (t : tid) | LOther.

Inductive lock_spec : lock_abs -> lock_label -> lock_abs -> Prop :=
  | lk_take c : lock_spec (LockAbs None 0 []) (LLock c (Returned RT_EOK)) (LockAbs (Some c) 1 [])
  | lk_again c h q : h < RT_MUTEX_HOLD_MAX ->
      lock_spec (LockAbs (Some c) h q) (LLock c (Returned RT_EOK)) (LockAbs (Some c) (h + 1) q)
  | lk_limit c q : lock_spec (LockAbs (Some c) RT_MUTEX_HOLD_MAX q) (LLock c (Returned (- RT_EFULL)))
                     (LockAbs (Some c) RT_MUTEX_HOLD_MAX q)
  | lk_refuse o c h q : o ≠ c ->
      lock_spec (LockAbs (Some o) h q) (LLock c (Returned (- RT_ETIMEOUT))) (LockAbs (Some o) h q)
  | lk_wait o c h q : o ≠ c -> c ∉ q ->
      lock_spec (LockAbs (Some o) h q) (LLock c (Waiting c tt)) (LockAbs (Some o) h (q ++ [c]))
  | lk_not_owner o c h q : o ≠ Some c -> lock_spec (LockAbs o h q) (LUnlock c (- RT_ERROR)) (LockAbs o h q)
  | lk_nested c h q : 1 < h -> lock_spec (LockAbs (Some c) h q) (LUnlock c RT_EOK) (LockAbs (Some c) (h - 1) q)
  | lk_hand_over c t q : lock_spec (LockAbs (Some c) 1 (t :: q)) (LUnlock c RT_EOK) (LockAbs (Some t) 1 q)
  | lk_free c : lock_spec (LockAbs (Some c) 1 []) (LUnlock c RT_EOK) (LockAbs None 0 [])
  | lk_give_up o h q1 t q2 : lock_spec (LockAbs o h (q1 ++ t :: q2)) (LGiveUp t) (LockAbs o h (q1 ++ q2))
  | lk_other a : lock_spec a LOther a.

Definition lock_of (m : positive) (s : kstate) : lock_abs :=
  LockAbs (mx ← k_mutexes s !! m; mx_owner mx) (default 0 (mx_hold <$> k_mutexes s !! m)) (k_tlist s (LSuspend (OMutex m))).

Record lock_ok (m : positive) (s : kstate) : Prop := {
  lo_inv : ipc_inv s;
  lo_clock : clock_ok s;
  lo_live : exists x mx, mutex_live m x mx s /\ o_flag x = RT_IPC_FLAG_FIFO;
  lo_current : is_Some (k_current s)
}.

Inductive lock_step (timer_thread : tid) (m : positive) : kstate -> lock_label -> kstate -> Prop :=
  | ls_take c th time r s s' : runs c th s -> time < half ->
      rt_mutex_take timer_thread m time s = Some (r, s') -> lock_step timer_thread m s (LLock c r) s'
  | ls_release c th r s s' : runs c th s -> rt_mutex_release m s = Some (r, s') ->
      lock_step timer_thread m s (LUnlock c r) s'
  | ls_timeout t s s' : t ∈ k_tlist s (LSuspend (OMutex m)) ->
      (forall r, r = TLHard \/ r = TLSoft -> TThread t ∉ k_trow s r) ->
      rt_thread_timeout t s = Some (tt, s') -> lock_step timer_thread m s (LGiveUp t) s'
  | ls_other s s' : lock_ok m s' -> lock_of m s' = lock_of m s -> lock_step timer_thread m s LOther s'.

Lemma lock_of_eq m x mx s :
  mutex_live m x mx s -> lock_of m s = LockAbs (mx_owner mx) (mx_hold mx) (k_tlist s (LSuspend (OMutex m))).
Proof. intros (_ & _ & _ & Hm & _). unfold lock_of. by rewrite Hm. Qed.

(** A live owner stays live when only scheduling changes its block. *)
Lemma live_strip o s' tho :
  (exists tho', k_threads s' !! o = Some tho' /\ strip tho' = strip tho) -> tstat tho ≠ RT_THREAD_CLOSE ->
  exists tho', k_threads s' !! o = Some tho' /\ tstat tho' ≠ RT_THREAD_CLOSE.
Proof.
  intros (tho' & Ho & E) Hc. exists tho'. split; [done|]. intros E'. apply Hc.
  by apply (strip_same_stat RT_THREAD_CLOSE _ _ E).
Qed.

Lemma reset_lock_ok m c th e s :
  lock_ok m s -> k_threads s !! c = Some th ->
  lock_ok m (set_k_threads <[c := set_th_error (fun _ => e) th]> s).
Proof.
  intros [L1 L2 (x & mx & (Hx & Hcx & Hf & Hm & Hwf) & Hx0) L4] Ht. split; [by apply ipc_inv_upd_error|done| |done].
  exists x, mx. split; [|done]. repeat (split; [done|]). unfold mutex_wf in *.
  destruct (mx_owner mx) as [o|]; [|done]. destruct Hwf as (? & ? & ? & ? & tho & Ho & Hcl). repeat (split; [done|]).
  cbn. destruct (decide (c = o)) as [<-|Hne].
  - rewrite lookup_insert_eq. simplify_eq. by eexists.
  - rewrite lookup_insert_ne by done. by exists tho.
Qed.

Lemma set_lock_ok m x mx mx' s :
  lock_ok m s -> mutex_live m x mx s -> o_flag x = RT_IPC_FLAG_FIFO -> mutex_wf m mx' s ->
  lock_ok m (set_k_mutexes <[m := mx']> s).
Proof.
  intros [L1 L2 _ L4] (Hx & Hcx & Hf & Hm & _) Hx0 Hwf. split; [by eapply ipc_inv_ext|done| |done].
  exists x, mx'. split; [|done]. repeat (split; [done|]). split; [apply lookup_insert_eq|exact Hwf].
Qed.

Lemma lock_take_simulates tt m c th time r s s' :
  lock_ok m s -> runs c th s -> time < half -> rt_mutex_take tt m time s = Some (r, s') ->
  lock_spec (lock_of m s) (LLock c r) (lock_of m s') /\ lock_ok m s'.
Proof.
  intros Hok Hrun Ht E. pose proof Hok as [L1 L2 (x & mx & Hl & Hx0) L4]. pose proof Hrun as (Hc & Htc & Hs & Hn).
  pose proof (wp_result _ _ _ _ _ (wp_rt_mutex_take tt m x mx c th time s L1 L2 Hl Hrun Ht) E) as [Hi' Hpost].
  rewrite (lock_of_eq _ _ _ _ Hl). pose proof Hl as (Hx & Hcx & Hf & Hm & Hwf).
  pose proof (reset_lock_ok m c th RT_EOK s Hok Htc) as Hok0. fold (no_error th) in Hok0. fold (reset c th s) in Hok0.
  assert (Hl0 : mutex_live m x mx (reset c th s)).
  { destruct Hok0 as [_ _ (x0 & mx0 & Hl0 & _) _]. pose proof Hl0 as (? & _ & _ & ? & _).
    cbn in *. simplify_eq. exact Hl0. }
  unfold mutex_wf in Hwf. destruct (mx_owner mx) as [o|] eqn:Eo.
  - destruct Hwf as (Hv & Hh & Hpr & Hq & tho & Hto & Hcl).
    destruct (bool_decide_reflect (o = c)) as [->|Hne].
    + destruct (Z.ltb_spec (mx_hold mx) RT_MUTEX_HOLD_MAX) as [Hlt|Hge]; destruct Hpost as [-> ->].
      * unfold lock_of. cbn. rewrite lookup_insert_eq. cbn. rewrite Eo. split; [by apply lk_again|].
        eapply set_lock_ok; [done|done|done|]. destruct Hl0 as (_ & _ & _ & _ & Hwf0). unfold mutex_wf in *. cbn. rewrite Eo in *.
        destruct Hwf0 as (? & ? & ? & ? & ?). repeat (split; [done|]). split; [lia|]. done.
      * assert (mx_hold mx = RT_MUTEX_HOLD_MAX) as Eh by lia.
        rewrite (lock_of_eq _ _ _ _ Hl0), Eo, Eh. split; [apply lk_limit|done].
    + destruct (Z.eqb_spec time 0) as [->|Htm]; destruct Hpost as [-> Hpost].
      * subst s'. pose proof (reset_lock_ok m c th (- RT_ETIMEOUT) s Hok Htc) as Hok1.
        unfold lock_of. cbn. rewrite Hm. cbn. rewrite Eo. split; [by apply lk_refuse|exact Hok1].
      * destruct Hpost as (tho0 & Hto0 & Hb & tho' & Hto' & Hcl' & Hp').
        assert (Hto1 : k_threads (reset c th s) !! o = Some tho0) by (cbn; by rewrite lookup_insert_ne).
        destruct (lend_ipc o tho0 (th_current_priority th) (reset c th s) (lo_inv _ _ Hok0) Hto1
          (tho_prio _ (kinv_th_ok _ _ _ (ii_kernel _ L1) Htc))) as (_ & E2 & _ & E4 & _ & E6 & _).
        pose proof (bl_objects _ _ _ _ _ _ _ Hb) as Eobj. rewrite E2 in Eobj. change (objects (reset c th s)) with (objects s) in Eobj.
        destruct (bl_queue _ _ _ _ _ _ _ Hb) as (l1 & l2 & Q1 & Q2 & Q3). rewrite Hx0 in Q3. cbn in Q3. subst l2.
        rewrite E6, app_nil_r in Q1 by done. change (k_tlist (reset c th s)) with (k_tlist s) in Q1. subst l1.
        assert (Hcq : c ∉ k_tlist s (LSuspend (OMutex m))) by (by eapply running_unlinked; [apply L1|..]).
        assert (Hl' : mutex_live m x mx s').
        { split; [by eapply objects_obj|]. split; [done|]. split; [done|].
          split; [by rewrite (objects_mutexes _ _ Eobj)|]. unfold mutex_wf. rewrite Eo, Q2. repeat (split; [done|]).
          split; [clear -Hq Hne; mem|]. by exists tho'. }
        rewrite (lock_of_eq _ _ _ _ Hl'), Eo, Q2. split; [by apply lk_wait|].
        split; [done| |by exists x, mx|apply Hb]. split; [apply Hb|]. rewrite (bl_tick _ _ _ _ _ _ _ Hb), E4. apply L2.
  - destruct Hwf as [-> Hq]. destruct Hpost as [-> ->]. unfold lock_of. cbn. rewrite lookup_insert_eq, Hq. cbn.
    split; [apply lk_take|]. eapply set_lock_ok; [done|done|done|]. unfold mutex_wf. cbn. split; [done|]. split; [done|].
    split; [apply (kinv_th_ok _ _ _ (ii_kernel _ L1) Htc)|]. rewrite Hq. split; [apply not_elem_of_nil|].
    exists (no_error th). rewrite lookup_insert_eq. split; [done|]. change (tstat (no_error th)) with (tstat th). by rewrite Hs.
Qed.

Lemma woken_lock_ok m x mx t th s s' :
  ipc_inv s -> clock_ok s -> mutex_live m x mx s -> o_flag x = RT_IPC_FLAG_FIFO -> is_Some (k_current s) ->
  woken t th s s' -> k_threads s !! t = Some th \/ mx_owner mx ≠ Some t -> lock_ok m s'.
Proof.
  intros Hi [H1 H2] (Hx & Hcx & Hf & Hm & Hwf) Hx0 Hcur Hw Hto. pose proof (wk_objects _ _ _ _ Hw) as Eo.
  split; [apply Hw| | |by apply Hw].
  - split; [by apply Hw|]. by rewrite (wk_tick _ _ _ _ Hw).
  - exists x, mx. split; [|done]. split; [by eapply objects_obj|]. split; [done|]. split; [done|].
    split; [by rewrite (objects_mutexes _ _ Eo)|]. unfold mutex_wf in *. rewrite (wk_queues _ _ _ _ Hw) by done.
    destruct (mx_owner mx) as [o|] eqn:Eow.
    + destruct Hwf as (? & ? & ? & Hq & tho & Ho & Hcl). repeat (split; [done|]).
      split; [intros Hin; apply elem_of_list_remove in Hin as [Hin _]; by apply Hq|].
      destruct (decide (o = t)) as [->|Hne].
      * destruct (wk_thread _ _ _ _ Hw) as (th' & Ht' & Hs' & _). exists th'. split; [done|].
        intros E. rewrite E in Hs'. done.
      * eapply live_strip; [by apply (wk_threads _ _ _ _ Hw)|done].
    + destruct Hwf as [-> Hq]. split; [done|]. unfold list_remove. by rewrite Hq.
Qed.

Lemma lock_release_simulates m c th r s s' :
  lock_ok m s -> runs c th s -> rt_mutex_release m s = Some (r, s') ->
  lock_spec (lock_of m s) (LUnlock c r) (lock_of m s') /\ lock_ok m s'.
Proof.
  intros Hok Hrun E. pose proof Hok as [L1 L2 (x & mx & Hl & Hx0) L4]. pose proof Hrun as (Hc & Htc & Hs & Hn).
  pose proof (wp_result _ _ _ _ _ (wp_rt_mutex_release m x mx c th s L1 Hl Hrun) E) as [Hi' Hpost].
  rewrite (lock_of_eq _ _ _ _ Hl). pose proof Hl as (Hx & Hcx & Hf & Hm & Hwf).
  destruct (bool_decide_reflect (mx_owner mx = Some c)) as [Eo|Eo].
  2: { destruct Hpost as [-> ->]. pose proof (reset_lock_ok m c th (- RT_ERROR) s Hok Htc) as Hok1.
       unfold lock_of. cbn. rewrite Hm. cbn. split; [by apply lk_not_owner|done]. }
  unfold mutex_wf in Hwf. rewrite Eo in *. destruct Hwf as (Hv & Hh & Hpr & Hq & tho & Hto & Hcl). assert (tho = th) as -> by congruence.
  destruct (Z.ltb_spec 1 (mx_hold mx)) as [Hgt|Hle].
  { destruct Hpost as [-> ->]. unfold lock_of. cbn. rewrite lookup_insert_eq. cbn. rewrite Eo.
    split; [by apply lk_nested|]. eapply set_lock_ok; [done|done|done|]. unfold mutex_wf. cbn. rewrite Eo.
    repeat (split; [done || lia|]). by exists th. }
  assert (mx_hold mx = 1) as Eh by lia. rewrite Eh.
  assert (Hret : forall mx', mutex_wf m mx' (set_k_threads <[c := restored mx th]> s) ->
    lock_ok m (returned m mx mx' c th s) /\ mutex_live m x mx' (returned m mx mx' c th s)).
  { intros mx' Hwf'. assert (Hl' : mutex_live m x mx' (returned m mx mx' c th s)).
    { repeat (split; [done|]). split; [apply lookup_insert_eq|exact Hwf']. }
    split; [|done]. split; [|exact L2|by exists x, mx'|done].
    eapply (ipc_inv_ext (set_k_threads <[c := restored mx th]> s)); try done. by apply ipc_inv_restored. }
  destruct (k_tlist s (LSuspend (OMutex m))) as [|t l] eqn:El.
  - destruct Hpost as [-> ->]. destruct (Hret free_mutex) as [Hok' Hl']; [by split|].
    rewrite (lock_of_eq _ _ _ _ Hl'). cbn. rewrite El. split; [apply lk_free|done].
  - destruct Hpost as [-> (tht & Htt & Hw)]. assert (Hne : c ≠ t) by (intros ->; apply Hq; clear; mem).
    set (mx' := mkMutex 0 (th_current_priority tht) 1 (Some t)) in *.
    set (s1 := returned m mx mx' c th s) in *.
    assert (Hi1 : ipc_inv s1).
    { eapply (ipc_inv_ext (set_k_threads <[c := restored mx th]> s)); try done. by apply ipc_inv_restored. }
    destruct (woken_head (LSuspend (OMutex m)) t l tht s1 s' Hi1 I El Hw) as [Eq _].
    pose proof (wk_objects _ _ _ _ Hw) as Eobj.
    assert (Hm' : k_mutexes s' !! m = Some mx') by (rewrite (objects_mutexes _ _ Eobj); apply lookup_insert_eq).
    assert (Hl' : mutex_live m x mx' s').
    { split; [by eapply objects_obj|]. split; [done|]. split; [done|]. split; [done|].
      unfold mutex_wf. cbn [mx_owner mx' mx_value mx_hold mx_original_priority]. split; [done|]. split; [done|].
      split; [apply (kinv_th_ok _ _ _ (ii_kernel _ L1) Htt)|]. rewrite Eq. split.
      - pose proof (proj1 (ri_space _ _ (proj1 (ki_sched _ (ii_kernel _ L1)))) (LSuspend (OMutex m))) as Hd.
        rewrite El in Hd. by apply NoDup_cons in Hd as [? _].
      - destruct (wk_thread _ _ _ _ Hw) as (th' & Ht' & Hs' & _). exists th'. split; [done|].
        intros E'. rewrite E' in Hs'. done. }
    rewrite (lock_of_eq _ _ _ _ Hl'), Eq. split; [apply lk_hand_over|].
    split; [done| |by exists x, mx'|apply Hw; by exists c].
    split; [apply Hw; apply L2|]. rewrite (wk_tick _ _ _ _ Hw). apply L2.
Qed.

Lemma lock_timeout_simulates m t s s' :
  lock_ok m s -> t ∈ k_tlist s (LSuspend (OMutex m)) ->
  (forall r, r = TLHard \/ r = TLSoft -> TThread t ∉ k_trow s r) -> rt_thread_timeout t s = Some (tt, s') ->
  lock_spec (lock_of m s) (LGiveUp t) (lock_of m s') /\ lock_ok m s'.
Proof.
  intros Hok Hin Hoff E. pose proof Hok as [L1 L2 (x & mx & Hl & Hx0) L4].
  destruct (ii_wait _ L1 (LSuspend (OMutex m)) t I Hin) as (th & Ht & Hs).
  pose proof (wp_result _ _ _ _ _ (wp_timeout_ipc t th s L1 L4 Ht Hs Hoff) E) as Hw. cbn beta in Hw.
  assert (Hno : mx_owner mx ≠ Some t).
  { intros Eo. destruct Hl as (_ & _ & _ & _ & Hwf). unfold mutex_wf in Hwf. rewrite Eo in Hwf. naive_solver. }
  split; [|by eapply woken_lock_ok; try done; right].
  rewrite (lock_of_eq _ _ _ _ Hl). pose proof Hl as (_ & _ & _ & Hm & _).
  unfold lock_of. rewrite (objects_mutexes _ _ (wk_objects _ _ _ _ Hw)), Hm. cbn.
  rewrite (wk_queues _ _ _ _ Hw) by done. unfold list_remove.
  pose proof (proj1 (ri_space _ _ (proj1 (ki_sched _ (ii_kernel _ L1)))) (LSuspend (OMutex m))) as Hnd.
  apply list_elem_of_split in Hin as (q1 & q2 & Eq). rewrite Eq in *.
  rewrite filter_mid by done. apply lk_give_up.
Qed.

(** C5: Refinement: whatever sequence of takes, releases, timeouts and other kernel steps
    happens, the kernel's mutex behaves as a recursive lock with one owner at a time and a
    first-come queue: results, owner, nesting depth and queue are the lock's, and the
    kernel's invariants hold at the end. *)
Theorem mutex_refines timer_thread m s tr s' :
  lock_ok m s -> steps (lock_step timer_thread m) s tr s' ->
  steps lock_spec (lock_of m s) tr (lock_of m s') /\ lock_ok m s'.
Proof.
  apply simulation. clear s tr s'. intros s l s' Hok Hstep.
  destruct Hstep as [c th time r s s2 Hr Ht E|c th r s s2 Hr E|t s s2 Hin Hoff E|s s2 Hok' E].
  - by eapply lock_take_simulates.
  - by eapply lock_release_simulates.
  - by apply lock_timeout_simulates.
  - rewrite E. split; [constructor|done].
Qed.

(** ** Witnesses: mutex 1 is free, mutex 2 belongs to thread 3, whose priority is 20, and
    mutex 3 to the running thread 1 since it had priority 25 *)

Definition sample_mutexes : kstate :=
  set_k_obj (fun m => <[OMutex 1 := mkObject [] 0x83 0]> (<[OMutex 2 := mkObject [] 0x83 0]>
                        (<[OMutex 3 := mkObject [] 0x83 0]> m)))
  (set_k_mutexes (fun _ => {[ 1%positive := free_mutex; 2%positive := mkMutex 0 20 1 (Some 3%positive);
                              3%positive := mkMutex 0 25 1 (Some 1%positive) ]}) sample_timers).

Lemma sample_mutexes_ipc : ipc_inv sample_mutexes.
Proof. by apply sample_headers_ipc. Qed.
Lemma sample_mutexes_clock : clock_ok sample_mutexes.
Proof. split; [by eapply pending_ext; [..|apply sample_timers_pending]|done]. Qed.
Lemma sample_mutexes_runs : runs 1 (sample_thread 11 10) sample_mutexes.
Proof. done. Qed.
Lemma sample_mutex1 : mutex_live 1 (mkObject [] 0x83 0) free_mutex sample_mutexes.
Proof. repeat (split; [done|]). split; [by left|]. split; [done|]. split; done. Qed.
Lemma sample_mutex2 : mutex_live 2 (mkObject [] 0x83 0) (mkMutex 0 20 1 (Some 3%positive)) sample_mutexes.
Proof.
  repeat (split; [done|]). split; [by left|]. split; [done|]. repeat (split; [done|]).
  split; [intros []%elem_of_nil|]. exists (sample_thread 1 20). done.
Qed.
Lemma sample_mutex3 : mutex_live 3 (mkObject [] 0x83 0) (mkMutex 0 25 1 (Some 1%positive)) sample_mutexes.
Proof.
  repeat (split; [done|]). split; [by left|]. split; [done|]. repeat (split; [done|]).
  split; [intros []%elem_of_nil|]. exists (sample_thread 11 10). done.
Qed.

Lemma rt_mutex_take_spec_witness :
  wp (rt_mutex_take 4 2 100) (fun r s' => ipc_inv s' /\ r = Waiting 1%positive tt /\
    waiting_for 2 (mkObject [] 0x83 0) 3 1 (sample_thread 11 10) 100 sample_mutexes s') sample_mutexes.
Proof.
  apply (rt_mutex_take_spec 4 2 (mkObject [] 0x83 0) (mkMutex 0 20 1 (Some 3%positive)) 1 (sample_thread 11 10) 100);
    [apply sample_mutexes_ipc|apply sample_mutexes_clock|apply sample_mutex2|apply sample_mutexes_runs|done].
Defined.

Lemma rt_mutex_release_spec_witness :
  wp (rt_mutex_release 3) (fun r s' => ipc_inv s' /\ r = RT_EOK /\
    s' = returned 3 (mkMutex 0 25 1 (Some 1%positive)) free_mutex 1 (sample_thread 11 10) sample_mutexes) sample_mutexes.
Proof.
  apply (rt_mutex_release_spec 3 (mkObject [] 0x83 0) (mkMutex 0 25 1 (Some 1%positive)) 1 (sample_thread 11 10));
    [apply sample_mutexes_ipc|apply sample_mutex3|apply sample_mutexes_runs].
Defined.

Lemma release_leaves_inversion_witness :
  wp (rt_mutex_release 3) (fun r s' => r = RT_EOK /\ k_current s' = Some 1%positive /\ ~ dispatched s') sample_mutexes.
Proof.
  apply (release_leaves_inversion 3 (mkObject [] 0x83 0) (mkMutex 0 25 1 (Some 1%positive)) 1 (sample_thread 11 10)
    2 (sample_thread 1 10)); [apply sample_mutexes_ipc|apply sample_mutex3|apply sample_mutexes_runs|done..].
Defined.

Lemma mutex_refines_witness : exists s', lock_ok 1 s' /\
  steps lock_spec (LockAbs None 0 []) [LLock 1 (Returned RT_EOK)] (lock_of 1 s').
Proof.
  destruct (proj1 (wp_unfold _ _ _) (wp_rt_mutex_take 4 1 (mkObject [] 0x83 0) free_mutex 1 (sample_thread 11 10) 100
    sample_mutexes sample_mutexes_ipc sample_mutexes_clock sample_mutex1 sample_mutexes_runs eq_refl))
    as (r & s1 & E1 & Hi1 & -> & _).
  exists s1. destruct (mutex_refines 4 1 sample_mutexes [LLock 1 (Returned RT_EOK)] s1) as [H1 H2].
  - split; [apply sample_mutexes_ipc|apply sample_mutexes_clock| |by eexists].
    exists (mkObject [] 0x83 0), free_mutex. split; [apply sample_mutex1|done].
  - eapply steps_cons; [|constructor].
    eapply (ls_take 4 1 1 (sample_thread 11 10) 100); [apply sample_mutexes_runs|done|exact E1].
  - by split.
Defined.
