(* ===== verification/Sleep.v ===== *)
(** * Sleep: rt-thread/src/clock.c and the delays of rt-thread/src/thread.c

    The tick, its conversion from milliseconds, the tick interrupt's work (the time slice
    of the running thread and the timer check) and the calls that put a thread to sleep
    for a time. *)

From S2P Require Import Prelude RtList Kernel Scheduler Object TimerCore Thread Timer Ipc.

#[local] Open Scope Z_scope.

(** ** Definitions *)

Definition rt_tick_set (tick : Z) : K unit := modify (set_k_tick (fun _ => tick)).

(** [rt_tick_t] is unsigned, [ms] a signed 32-bit number. *)
Definition rt_tick_from_millisecond (ms : Z) : Z :=
  if ms <? 0 then u32 RT_WAITING_FOREVER
  else
    let tick := u32 (RT_TICK_PER_SECOND * (ms / 1000)) in
    u32 (tick + (RT_TICK_PER_SECOND * (ms mod 1000) + 999) / 1000).

Definition rt_tick_get_millisecond : K Z :=
  tick ← rt_tick_get; mret (u32 (tick * (1000 / RT_TICK_PER_SECOND))).

Section sleep.
Context (timer_thread : tid) (user : positive -> K unit).

(** [fuel] is for the loop of [rt_timer_check]. *)
Definition rt_tick_increase (fuel : nat) : K unit :=
  modify (set_k_tick (fun t => u32 (t + 1))) ;;
  thread ← self;
  upd_thread thread (set_th_remaining_tick (fun r => u32 (r - 1))) ;;
  th ← get_thread thread;
  when (th_remaining_tick th =? 0)
    (upd_thread thread (set_th_remaining_tick (fun _ => th_init_tick th)) ;;
     upd_thread thread (set_th_stat (fun st => Z.lor st RT_THREAD_STAT_YIELD)) ;;
     rt_schedule) ;;
  rt_timer_check timer_thread user fuel.

(** The thread sleeps: suspended on no queue, its timer set. *)
Definition sleep_for (thread : tid) (tick : Z) : K unit :=
  rt_thread_suspend thread ;;
  rt_timer_control (TThread thread) RT_TIMER_CTRL_SET_TIME tick ;;
  rt_timer_start timer_thread (TThread thread) ;;
  rt_schedule.

Definition rt_thread_sleep (tick : Z) : K (outcome unit Z) :=
  thread ← self;
  is_thread thread ;;
  sleep_for thread tick ;;
  mret (Waiting thread tt).
Definition rt_thread_sleep_resumed (thread : tid) : K Z :=
  th ← get_thread thread;
  when (th_error th =? - RT_ETIMEOUT) (upd_thread thread (set_th_error (fun _ => RT_EOK))) ;;
  mret RT_EOK.

Definition rt_thread_delay (tick : Z) : K (outcome unit Z) := rt_thread_sleep tick.

Definition rt_thread_mdelay (ms : Z) : K (outcome unit Z) :=
  rt_thread_sleep (rt_tick_from_millisecond ms).

(** [tick] is the word the pointer argument points to; a call that returns gives its new
    value too. *)
Definition rt_thread_delay_until (tick inc_tick : Z) : K (outcome unit (Z * Z)) :=
  thread ← self;
  is_thread thread ;;
  now ← rt_tick_get;
  if u32 (now - tick) <? inc_tick then
    sleep_for thread (u32 (tick + inc_tick - now)) ;;
    mret (Waiting thread tt)
  else
    now ← rt_tick_get;
    mret (Returned (RT_EOK, now)).
Definition rt_thread_delay_until_resumed (thread : tid) : K (Z * Z) :=
  th ← get_thread thread;
  when (th_error th =? - RT_ETIMEOUT) (upd_thread thread (set_th_error (fun _ => RT_EOK))) ;;
  now ← rt_tick_get;
  mret (RT_EOK, now).
End sleep.

(** ** The conversion *)

(** At 1000 ticks per second the conversion is the identity on every number of
    milliseconds an [rt_int32_t] can hold, without overflow on the way; a negative number
    becomes the largest tick. *)
Theorem rt_tick_from_millisecond_spec ms :
  - 2 ^ 31 <= ms < 2 ^ 31 ->
  rt_tick_from_millisecond ms = (if ms <? 0 then 2 ^ 32 - 1 else ms) /\
  (0 <= ms -> 0 <= RT_TICK_PER_SECOND * (ms / 1000) < 2 ^ 31).
Proof.
  change (2 ^ 31) with 2147483648. change (2 ^ 32) with 4294967296.
  intros Hms. unfold rt_tick_from_millisecond, RT_TICK_PER_SECOND.
  destruct (Z.ltb_spec ms 0) as [Hneg|Hpos]; [split; [done|lia]|].
  assert (H : 0 <= 1000 * (ms / 1000) <= ms) by (Z.div_mod_to_equations; lia).
  assert (H1 : (1000 * (ms mod 1000) + 999) / 1000 = ms mod 1000) by (Z.div_mod_to_equations; lia).
  assert (H2 : 1000 * (ms / 1000) + ms mod 1000 = ms) by (Z.div_mod_to_equations; lia).
  rewrite H1, (wrap_small 32 (1000 * (ms / 1000))) by (change (2 ^ 32) with 4294967296; lia).
  rewrite H2, wrap_small by (change (2 ^ 32) with 4294967296; lia). split; [done|lia].
Qed.

(** ** Sleeping *)

Lemma wp_sleep_for tt c th tick s :
  ipc_inv s -> clock_ok s -> runs c th s -> 0 <= tick < half ->
  wp (sleep_for tt c tick) (fun _ s' => ipc_inv s' /\ clock_ok s' /\ k_tick s' = k_tick s /\
    is_Some (k_current s') /\ objects s' = objects s /\
    (exists th', k_threads s' !! c = Some th' /\ tstat th' = RT_THREAD_SUSPEND /\ th_error th' = th_error th) /\
    (forall h, wait_head h -> k_tlist s' h = k_tlist s h /\ c ∉ k_tlist s' h) /\
    (forall t tht, t ≠ c -> k_threads s !! t = Some tht ->
       exists tht', k_threads s' !! t = Some tht' /\ strip tht' = strip tht) /\
    TThread c ∈ k_trow s' TLHard /\ timeout_of s' (TThread c) = Some (u32 (k_tick s + tick))) s.
Proof.
  intros Hi [Hp Htick] (Hc & Ht & Hs & Hn) Hk0. pose proof (ii_kernel _ Hi) as Hk.
  assert (Hcl : tstat th ≠ RT_THREAD_CLOSE) by (by rewrite Hs).
  pose proof (running_unlinked _ _ _ Hk Ht Hs) as Hu.
  destruct (suspended_fields c th s) as (F1 & F2 & F3 & F4 & F5).
  destruct (suspended_timer c th s Hk Ht Hcl Hp) as [Hps _].
  unfold sleep_for. rewrite wp_bind. eapply wp_rt_thread_suspend; [done|exact Ht|done|].
  rewrite bool_decide_eq_true_2 by (by rewrite Hs). intros Hk1.
  set (s1 := suspended c th s) in *. set (th1 := set_th_stat (with_stat RT_THREAD_SUSPEND) th).
  assert (Ht1 : k_threads s1 !! c = Some th1) by (rewrite F1; apply lookup_insert_eq).
  assert (Hs1 : tstat th1 = RT_THREAD_SUSPEND) by (by apply tstat_with).
  assert (HL : forall h, wait_head h -> k_tlist s1 h = k_tlist s h) by (intros h _; by rewrite F2, list_remove_off).
  cut (wp (tick0 ← rt_tick_get; rt_timer_control (TThread c) RT_TIMER_CTRL_SET_TIME tick ;;
           rt_timer_start tt (TThread c) ;; mret tick0) (fun _ s2 => timed c tick s1 s2) s1).
  - intros Hw. revert Hw. unfold rt_tick_get. rewrite wp_bind, wp_gets, !wp_bind. apply wp_mono.
    intros _ s2. rewrite !wp_bind. apply wp_mono. intros _ s3. rewrite wp_ret.
    intros [T1 T2 T3 T4 T5 T6 T7 T8].
    assert (Hi3 : ipc_inv s3).
    { split; [done|]. intros h t Hh. rewrite T4, T3. intros Hin. rewrite HL in Hin by done.
      destruct (ii_wait _ Hi h t Hh Hin) as (tht & Htt & Hst). rewrite F1.
      rewrite lookup_insert_ne; [by exists tht|]. intros ->. by destruct (Hu h). }
    eapply wp_mono, wp_schedule_ipc; [|done|by rewrite T5, F3; exists c].
    intros [] s' (Hi' & Hfr & Hc'). destruct (frame_rest _ _ Hfr) as (_ & _ & R3 & R4 & _ & _ & R7).
    split; [done|]. split; [split; [by eapply frame_pending|by rewrite R7, T7, F5]|].
    split; [by rewrite R7, T7, F5|]. split; [done|]. split; [by rewrite (frame_objects _ _ Hfr), T6, F4|].
    split; [|split; [|split; [|by unfold timeout_of; rewrite R3, R4; rewrite F5 in T8]]].
    + destruct (frame_thread s3 s' c th1 Hfr) as (th' & Ht' & E); [by rewrite T3|]. exists th'. split; [done|].
      split; [by apply (strip_same_stat RT_THREAD_SUSPEND _ _ E)|by apply (f_equal th_error) in E].
    + intros h Hh. rewrite (fr_lists _ _ Hfr) by (by intros p ->). rewrite T4, HL by done. split; [done|apply Hu].
    + intros t tht Hne Htt. apply (frame_thread s3 s' t tht Hfr). by rewrite T3, F1, lookup_insert_ne.
  - eapply wp_start_thread_timer; [done|done|exact Ht1|done|done|by rewrite F5|]. done.
Qed.

(** [rt_thread_sleep] suspends the caller, on no wait queue, with its timer due [tick]
    ticks from now, and leaves the other threads and the objects as they were; what it
    returns when it runs again is RT_EOK, the expected timeout not being an error. *)
Theorem rt_thread_sleep_spec tt c th tick s :
  ipc_inv s -> clock_ok s -> runs c th s -> 0 <= tick < half ->
  wp (rt_thread_sleep tt tick) (fun r s' => r = Waiting c Datatypes.tt /\
    ipc_inv s' /\ k_tick s' = k_tick s /\
    (exists th', k_threads s' !! c = Some th' /\ tstat th' = RT_THREAD_SUSPEND) /\
    (forall h, wait_head h -> k_tlist s' h = k_tlist s h /\ c ∉ k_tlist s' h) /\
    (forall t tht, t ≠ c -> k_threads s !! t = Some tht ->
       exists tht', k_threads s' !! t = Some tht' /\ strip tht' = strip tht) /\
    TThread c ∈ k_trow s' TLHard /\ timeout_of s' (TThread c) = Some (u32 (k_tick s + tick)) /\
    wp (rt_thread_sleep_resumed c) (fun r s2 => r = RT_EOK) s') s.
Proof.
  intros Hi Hcl Hrun Htk. pose proof Hrun as (Hc & Ht & Hs & Hn). unfold rt_thread_sleep.
  rewrite wp_bind. eapply wp_self; [done|]. rewrite wp_bind. apply wp_is_thread.
  { eapply kinv_live; [apply Hi|done|by rewrite Hs]. }
  rewrite wp_bind. eapply wp_mono, wp_sleep_for; [|done..].
  intros [] s' (Hi' & _ & Et & _ & _ & (th' & Ht' & Hs' & _) & HL & Hth & Htm1 & Htm2). rewrite wp_ret.
  repeat (split; [done|]). split; [by exists th'|]. repeat (split; [done|]).
  unfold rt_thread_sleep_resumed. rewrite wp_bind. eapply wp_get_thread; [done|].
  rewrite wp_bind. apply wp_when; [|done]. intros _. by eapply wp_upd_thread.
Qed.

(** ** The tick *)

(** Between two ticks no timer is due: the check of the last tick saw to it. *)
Definition tick_inv (s : kstate) : Prop := check_inv s /\ due_count s (k_trow s TLHard) = 0%nat.

Lemma not_due s u l : due_count s l = 0%nat -> u ∈ l -> toff (timeout_of s) (k_tick s) u ≠ 0.
Proof.
  induction l as [|v l IH]; intros Hd Hu; [by apply elem_of_nil in Hu|]. simpl in Hd.
  destruct (decide (toff (timeout_of s) (k_tick s) v = 0)) as [E|E]; [lia|].
  apply elem_of_cons in Hu as [->|Hu]; [done|]. apply IH; [lia|done].
Qed.

Lemma off_tick b x : off b x ≠ 0 -> off (u32 (b + 1)) x = off b x - 1.
Proof.
  intros Hne. pose proof (off_range b x). unfold off, wrap in *. rewrite Zminus_mod_idemp_r.
  replace (x - (b + 1)) with (x - b - 1) by lia. rewrite <- Zminus_mod_idemp_l.
  apply Z.mod_small. lia.
Qed.

(** A tick later every timer is one tick nearer, and none has been missed. *)
Lemma tick_check_inv s :
  tick_inv s -> check_inv (set_k_tick (fun t => u32 (t + 1)) s).
Proof.
  intros [(H1 & H2 & [H3 H3'] & H4 & H5 & H6) Hd].
  set (s' := set_k_tick (fun t => u32 (t + 1)) s).
  assert (Hoff : forall u, u ∈ k_trow s TLHard ->
    toff (timeout_of s') (k_tick s') u = toff (timeout_of s) (k_tick s) u - 1).
  { intros u Hu. apply off_tick. by apply (not_due s u (k_trow s TLHard)). }
  split; [by apply (kinv_ext s)|]. split; [done|]. split; [split|].
  - unfold in_window in *. rewrite Forall_forall in *. intros u Hu. destruct (H3 u Hu) as [Ht Hw].
    split; [done|]. rewrite Hoff by done. lia.
  - unfold sorted in *. change (k_trow s') with (k_trow s). clear H3 H5 Hd. revert H3' Hoff.
    generalize (k_trow s TLHard). intros l Hs Hoff. induction Hs as [|u l Hs IH Hf]; constructor.
    + apply IH. intros v Hv. apply Hoff. clear -Hv. mem.
    + rewrite Forall_forall in *. intros v Hv. rewrite !Hoff by (clear -Hv; mem). specialize (Hf v Hv). lia.
  - split; [done|]. split; [apply (wrap_range 32); done|done].
Qed.

Lemma check_inv_frame s s' :
  check_inv s -> kinv s' -> frame s s' -> is_Some (k_current s') -> check_inv s'.
Proof.
  intros (H1 & H2 & H3 & H4 & H5 & H6) Hk Hf Hc.
  destruct (frame_rest _ _ Hf) as (R1 & _ & R3 & R4 & _ & _ & R7).
  split; [done|]. split; [done|]. split; [by eapply frame_pending|].
  split; [unfold timers_ok; rewrite R1, R3; exact H4|]. by rewrite R7, R4.
Qed.

(** The running thread's slice, counted down or filled up again. *)
Lemma wp_time_slice c th s :
  check_inv s -> k_current s = Some c -> k_threads s !! c = Some th ->
  wp (upd_thread c (set_th_remaining_tick (fun r => u32 (r - 1))) ;;
      th ← get_thread c;
      when (th_remaining_tick th =? 0)
        (upd_thread c (set_th_remaining_tick (fun _ => th_init_tick th)) ;;
         upd_thread c (set_th_stat (fun st => Z.lor st RT_THREAD_STAT_YIELD)) ;;
         rt_schedule)) (fun _ s' => check_inv s' /\ quiet s s' /\
    exists th', k_threads s' !! c = Some th' /\ th_remaining_tick th' =
      (if u32 (th_remaining_tick th - 1) =? 0 then th_init_tick th else u32 (th_remaining_tick th - 1))) s.
Proof.
  intros Hci Hc Ht. pose proof Hci as (Hk & _). pose proof (kinv_th_ok _ _ _ Hk Ht) as [K1 K2 K3 K4].
  rewrite wp_bind. eapply wp_upd_thread; [done|]. rewrite wp_bind. eapply wp_get_thread; [apply lookup_insert_eq|].
  set (th1 := set_th_remaining_tick (fun r => u32 (r - 1)) th).
  change (th_remaining_tick th1) with (u32 (th_remaining_tick th - 1)).
  assert (Hupd : forall th2, th_ok th2 -> tstat th2 = tstat th -> th_current_priority th2 = th_current_priority th ->
    kinv (set_k_threads <[c := th2]> s)) by (intros; by eapply kinv_upd_same).
  assert (Hext : forall th2, kinv (set_k_threads <[c := th2]> s) -> check_inv (set_k_threads <[c := th2]> s)).
  { intros th2 Hk2. destruct Hci as (_ & H). by split. }
  destruct (Z.eqb_spec (u32 (th_remaining_tick th - 1)) 0) as [E|E]; cbn [when].
  - rewrite wp_bind. eapply wp_upd_thread; [apply lookup_insert_eq|].
    rewrite wp_bind. eapply wp_upd_thread; [apply lookup_insert_eq|].
    set (th2 := set_th_stat (fun st => Z.lor st RT_THREAD_STAT_YIELD) (set_th_remaining_tick (fun _ => th_init_tick th1) th1)).
    match goal with |- wp _ _ ?s2 => assert (s2 = set_k_threads <[c := th2]> s) as -> end.
    { unfold set_k_threads. cbn. by rewrite !insert_insert_eq. }
    assert (Hst : tstat th2 = tstat th) by apply stat_set_yield.
    assert (Hk2 : kinv (set_k_threads <[c := th2]> s)).
    { apply Hupd; [|done|done]. split; [by apply (lor_bound 8)|done|done|]. rewrite Hst. exact K4. }
    eapply wp_mono, wp_rt_schedule_k; [|done|by exists c].
    intros [] s' (Hk' & Hf & Hc'). split; [by eapply check_inv_frame; [apply Hext| | |]|].
    destruct (frame_rest _ _ Hf) as (R1 & _ & R3 & R4 & _ & _ & R7). split; [by repeat split|].
    destruct (frame_thread _ s' c th2 Hf) as (th' & Ht' & E'); [apply lookup_insert_eq|].
    exists th'. split; [done|]. by apply (f_equal th_remaining_tick) in E'.
  - rewrite wp_ret. split; [apply Hext; by apply Hupd|]. split; [by repeat split|].
    exists th1. split; [apply lookup_insert_eq|done].
Qed.


(** ** Witnesses *)

Lemma rt_tick_from_millisecond_spec_witness :
  rt_tick_from_millisecond 201000 = 201000 /\ 0 <= RT_TICK_PER_SECOND * (201000 / 1000) < 2 ^ 31.
Proof.
  destruct (rt_tick_from_millisecond_spec 201000) as [H1 H2]; [done|]. split; [exact H1|by apply H2].
Defined.

Lemma rt_thread_sleep_spec_witness :
  wp (rt_thread_sleep 4 10) (fun r s' => r = Waiting 1%positive tt /\
    ipc_inv s' /\ k_tick s' = 50 /\
    (exists th', k_threads s' !! 1%positive = Some th' /\ tstat th' = RT_THREAD_SUSPEND) /\
    (forall h, wait_head h -> k_tlist s' h = k_tlist sample_timers h /\ 1%positive ∉ k_tlist s' h) /\
    (forall t tht, t ≠ 1%positive -> k_threads sample_timers !! t = Some tht ->
       exists tht', k_threads s' !! t = Some tht' /\ strip tht' = strip tht) /\
    TThread 1 ∈ k_trow s' TLHard /\ timeout_of s' (TThread 1) = Some 60 /\
    wp (rt_thread_sleep_resumed 1) (fun r s2 => r = RT_EOK) s') sample_timers.
Proof.
  apply (rt_thread_sleep_spec 4 1 (sample_thread 11 10) 10);
    [apply sample_ipc_inv|apply sample_clock|apply sample_runs|done].
Defined.

