(* ===== verification/Event.v ===== *)
(** * Event: rt-thread/src/ipc.c, event sets

    A thread waits for some or all of the bits it names; sending bits wakes, in queue
    order, every thread whose wish the set then fulfils, each one first clearing from the
    set what it asked to be cleared. *)

From S2P Require Import Prelude RtList Kernel Scheduler Object TimerCore Thread Timer Ipc.

#[local] Open Scope Z_scope.

(** ** Definitions *)

Section event.
Context (timer_thread : tid).

Definition get_event (event : positive) : K rt_event := deref (fun s => k_events s !! event).
Definition upd_event (event : positive) (f : Z -> Z) : K unit :=
  ev ← get_event event; modify (set_k_events <[event := set_ev_set f ev]>).

Definition rt_event_init (event : positive) (name : list Z) (flag : Z) : K Z :=
  rt_object_init (OEvent event) RT_Object_Class_Event name ;;
  upd_obj (OEvent event) (set_o_flag (fun _ => flag)) ;;
  rt_ipc_object_init (OEvent event) ;;
  modify (set_k_events <[event := mkEvent 0]>) ;;
  mret RT_EOK.

Definition rt_event_detach (event : positive) : K Z :=
  is_class (OEvent event) RT_Object_Class_Event ;;
  is_system (OEvent event) true ;;
  rt_ipc_list_resume_all (LSuspend (OEvent event)) ;;
  rt_object_detach (OEvent event) ;;
  mret RT_EOK.

Definition rt_event_create (malloc : option positive) (name : list Z) (flag : Z) : K (option positive) :=
  not_in_interrupt ;;
  r ← rt_object_allocate (OEvent <$> malloc) RT_Object_Class_Event name;
  match r, malloc with
  | Some _, Some event =>
      upd_obj (OEvent event) (set_o_flag (fun _ => flag)) ;;
      rt_ipc_object_init (OEvent event) ;;
      modify (set_k_events <[event := mkEvent 0]>) ;;
      mret (Some event)
  | _, _ => mret None
  end.

Definition rt_event_delete (event : positive) : K Z :=
  is_class (OEvent event) RT_Object_Class_Event ;;
  is_system (OEvent event) false ;;
  not_in_interrupt ;;
  rt_ipc_list_resume_all (LSuspend (OEvent event)) ;;
  rt_object_delete (OEvent event) ;;
  modify (set_k_events (delete event)) ;;
  mret RT_EOK.

Definition has (option flag : Z) : bool := negb (Z.land option flag =? 0).

(** The walk of [rt_event_send] along the queue.  The next node is read before a thread is
    resumed, which takes only that thread off the queue, so the walk visits the threads
    [l] that were on it.  The result is [need_schedule], or [None] for the return with
    -RT_EINVAL. *)
Fixpoint send_loop (event : positive) (l : list tid) (need_schedule : bool) : K (option bool) :=
  match l with
  | [] => mret (Some need_schedule)
  | thread :: l =>
      th ← get_thread thread;
      ev ← get_event event;
      if has (th_event_info th) RT_EVENT_FLAG_AND || has (th_event_info th) RT_EVENT_FLAG_OR then
        satisfied ← (if has (th_event_info th) RT_EVENT_FLAG_AND then
            mret (Z.land (th_event_set th) (ev_set ev) =? th_event_set th)
          else if negb (Z.land (th_event_set th) (ev_set ev) =? 0) then
            upd_thread thread (set_th_event_set (fun es => Z.land es (ev_set ev))) ;; mret true
          else mret false);
        if (satisfied : bool) then
          th ← get_thread thread;
          when (has (th_event_info th) RT_EVENT_FLAG_CLEAR)
            (upd_event event (fun set => Z.land set (Z.lnot (th_event_set th)))) ;;
          rt_thread_resume thread ;;
          send_loop event l true
        else send_loop event l need_schedule
      else mret None
  end.

Definition rt_event_send (event : positive) (set : Z) : K Z :=
  is_class (OEvent event) RT_Object_Class_Event ;;
  if set =? 0 then mret (- RT_ERROR) else
  upd_event event (fun s => Z.lor s set) ;;
  L ← gets k_tlist;
  r ← (if negb (list_isempty (LSuspend (OEvent event)) L)
       then send_loop event (L (LSuspend (OEvent event))) false
       else mret (Some false));
  match r with
  | None => mret (- RT_EINVAL)
  | Some need_schedule => when need_schedule rt_schedule ;; mret RT_EOK
  end.

(** With the result, what has been stored through [recved] unless it is RT_NULL. *)
Definition rt_event_recv (event : positive) (set option timeout : Z) :
    K (outcome unit (Z * Datatypes.option Z)) :=
  in_thread_context ;;
  is_class (OEvent event) RT_Object_Class_Event ;;
  if set =? 0 then mret (Returned (- RT_ERROR, None)) else
  thread ← self;
  upd_thread thread (set_th_error (fun _ => RT_EOK)) ;;
  ev ← get_event event;
  rt_assert (has option RT_EVENT_FLAG_AND || has option RT_EVENT_FLAG_OR) ;;
  let status := if has option RT_EVENT_FLAG_AND then Z.land (ev_set ev) set =? set
                else negb (Z.land (ev_set ev) set =? 0) in
  if status then
    upd_thread thread (set_th_event_set (fun _ => Z.land (ev_set ev) set)) ;;
    upd_thread thread (set_th_event_info (fun _ => option)) ;;
    when (has option RT_EVENT_FLAG_CLEAR) (upd_event event (fun s => Z.land s (Z.lnot set))) ;;
    th ← get_thread thread;
    mret (Returned (th_error th, Some (Z.land (ev_set ev) set)))
  else if timeout =? 0 then
    upd_thread thread (set_th_error (fun _ => - RT_ETIMEOUT)) ;;
    mret (Returned (- RT_ETIMEOUT, None))
  else
    upd_thread thread (set_th_event_set (fun _ => set)) ;;
    upd_thread thread (set_th_event_info (fun _ => option)) ;;
    flag ← flag_of (OEvent event);
    block timer_thread (LSuspend (OEvent event)) thread flag timeout ;;
    mret (Waiting thread tt).
Definition rt_event_recv_resumed (thread : tid) : K (Z * Datatypes.option Z) :=
  th ← get_thread thread;
  if negb (th_error th =? RT_EOK) then mret (th_error th, None)
  else mret (th_error th, Some (th_event_set th)).

Definition rt_event_control (event : positive) (cmd : Z) : K Z :=
  is_class (OEvent event) RT_Object_Class_Event ;;
  if cmd =? RT_IPC_CMD_RESET then
    rt_ipc_list_resume_all (LSuspend (OEvent event)) ;;
    upd_event event (fun _ => 0) ;;
    rt_schedule ;;
    mret RT_EOK
  else mret (- RT_ERROR).
End event.

(** ** What sending means *)

(** A wish for the bits [es], all or some of them as [info] says, against the set. *)
Definition fulfilled (es info set : Z) : bool :=
  if has info RT_EVENT_FLAG_AND then Z.land es set =? es else negb (Z.land es set =? 0).
Definition received (es info set : Z) : Z :=
  if has info RT_EVENT_FLAG_AND then es else Z.land es set.

(** The threads a set wakes, with the bits each receives, and what remains of the set. *)
Fixpoint receivers (set : Z) (l : list (tid * Z * Z)) : list (tid * Z) * Z :=
  match l with
  | [] => ([], set)
  | (t, es, info) :: l =>
      if fulfilled es info set then
        let got := received es info set in
        let set' := if has info RT_EVENT_FLAG_CLEAR then Z.land set (Z.lnot got) else set in
        ((t, got) :: (receivers set' l).1, (receivers set' l).2)
      else receivers set l
  end.

(** The threads of a queue with their wishes. *)
Definition wish (s : kstate) (t : tid) : tid * Z * Z :=
  match k_threads s !! t with
  | Some th => (t, th_event_set th, th_event_info th)
  | None => (t, 0, 0)
  end.

Definition event_live (e : positive) (x : rt_object) (set : Z) (s : kstate) : Prop :=
  k_obj s !! OEvent e = Some x /\ class_of x = RT_Object_Class_Event /\ ipc_flag (o_flag x) /\
  k_events s !! e = Some (mkEvent set).

(** Every waiting thread asks for all or for some of its bits. *)
Definition wishes_ok (e : positive) (s : kstate) : Prop :=
  forall t th, t ∈ k_tlist s (LSuspend (OEvent e)) -> k_threads s !! t = Some th ->
    has (th_event_info th) RT_EVENT_FLAG_AND || has (th_event_info th) RT_EVENT_FLAG_OR = true.

Lemma wp_get_event e v (Q : rt_event -> kstate -> Prop) s :
  k_events s !! e = Some v -> Q v s -> wp (get_event e) Q s.
Proof. intros. by eapply wp_deref. Qed.
Lemma wp_upd_event e v f (Q : unit -> kstate -> Prop) s :
  k_events s !! e = Some (mkEvent v) -> Q tt (set_k_events <[e := mkEvent (f v)]> s) -> wp (upd_event e f) Q s.
Proof. intros Hv HQ. unfold upd_event. rewrite wp_bind. by eapply wp_get_event. Qed.

Lemma filter_all {A} (P : A -> Prop) `{forall x, Decision (P x)} (l : list A) : (forall x, P x) -> filter P l = l.
Proof. intros HP. induction l as [|x l IH]; [done|]. rewrite filter_cons_True by apply HP. by rewrite IH. Qed.

(** What the walk along [l] leaves, having woken [ws]. *)
Record sent (e : positive) (ws : list (tid * Z)) (set' : Z) (s s' : kstate) : Prop := {
  se_inv : ipc_inv s';
  se_current : is_Some (k_current s) -> is_Some (k_current s');
  se_events : k_events s' = <[e := mkEvent set']> (k_events s);
  se_queue : k_tlist s' (LSuspend (OEvent e)) =
    filter (fun t => t ∉ ws.*1) (k_tlist s (LSuspend (OEvent e)));
  se_woken : forall t got, (t, got) ∈ ws -> exists th',
    k_threads s' !! t = Some th' /\ stat_class (tstat th') = RT_THREAD_READY /\
    th_event_set th' = got /\
    (forall th, k_threads s !! t = Some th -> th_error th' = th_error th);
  se_threads : forall t th, t ∉ ws.*1 -> k_threads s !! t = Some th ->
    exists th', k_threads s' !! t = Some th' /\ strip th' = strip th
}.

Lemma sent_refl e set s : ipc_inv s -> k_events s !! e = Some (mkEvent set) -> sent e [] set s s.
Proof.
  intros Hi He. split; [done|done|by rewrite insert_id| | |by eauto].
  - symmetry. apply filter_all. intros t. apply not_elem_of_nil.
  - by intros t got []%elem_of_nil.
Qed.

(** One thread woken first, then the rest of the walk. *)
Lemma sent_cons e t got ws v1 v2 th s s1 s' :
  ipc_inv s -> k_threads s !! t = Some th -> t ∉ ws.*1 ->
  t ∈ k_tlist s (LSuspend (OEvent e)) ->
  woken t (set_th_event_set (fun _ => got) th)
    (set_k_events <[e := mkEvent v1]> (set_k_threads <[t := set_th_event_set (fun _ => got) th]> s)) s1 ->
  sent e ws v2 s1 s' -> sent e ((t, got) :: ws) v2 s s'.
Proof.
  intros Hi Ht Hnt Hin Hw [S1 S2 S3 S4 S5 S6].
  assert (Hother : forall u thu, u ≠ t -> k_threads s !! u = Some thu ->
    exists thu', k_threads s1 !! u = Some thu' /\ strip thu' = strip thu).
  { intros u thu Hne Hu. apply (wk_threads _ _ _ _ Hw); [done|]. cbn. by rewrite lookup_insert_ne. }
  split; [done| | | | |].
  - intros Hc. apply S2. apply (wk_current _ _ _ _ Hw). exact Hc.
  - rewrite S3, (objects_events _ _ (wk_objects _ _ _ _ Hw)). cbn. by rewrite insert_insert_eq.
  - rewrite S4, (wk_queues _ _ _ _ Hw) by done. cbn [k_tlist set_k_events set_k_threads]. unfold list_remove.
    rewrite list_filter_filter. apply list_filter_iff. intros u. cbn. clear. rewrite not_elem_of_cons. tauto.
  - intros u g. rewrite elem_of_cons. intros [[= -> ->]|Hu].
    + destruct (wk_thread _ _ _ _ Hw) as (th1 & Ht1 & Hs1 & He1 & _ & Hv1).
      destruct (S6 t th1 Hnt Ht1) as (th' & Ht' & E). exists th'. split; [done|].
      apply (f_equal th_error) in E as Ee. apply (f_equal th_event_set) in E as Ev. apply strip_stat in E.
      cbn in Ee, Ev. rewrite E, Ee, Ev, He1, Hv1. split; [done|]. split; [done|].
      intros th0 Ht0. by simplify_eq.
    + destruct (S5 u g Hu) as (thu' & Hu' & Hs' & Hg & He). exists thu'. split; [done|]. split; [done|].
      split; [done|]. intros thu Hu0. assert (Hne : u ≠ t).
      { intros ->. destruct Hnt. apply (list_elem_of_fmap_2 fst) in Hu. exact Hu. }
      destruct (Hother u thu Hne Hu0) as (th1 & Hu2 & E). rewrite (He th1 Hu2).
      by apply (f_equal th_error) in E.
  - intros u thu. cbn. rewrite not_elem_of_cons. intros [Hne Hnu] Hu.
    destruct (Hother u thu Hne Hu) as (thu1 & Hu1 & E1). destruct (S6 u thu1 Hnu Hu1) as (thu' & Hu' & E).
    exists thu'. split; [done|]. by rewrite E.
Qed.

Lemma not_received ws t : (t : tid) ∉ (ws.*1 : list tid) -> forall g : Z, (t, g) ∉ ws.
Proof. intros Hn g Hin. apply Hn. by apply (list_elem_of_fmap_2 fst) in Hin. Qed.

Lemma receivers_incl set l t : t ∈ (receivers set l).1.*1 -> t ∈ (fst ∘ fst <$> l).
Proof.
  revert set. induction l as [|[[u es] info] l IH]; intros set Hin; [by apply elem_of_nil in Hin|].
  simpl in *. destruct (fulfilled es info set); simpl in Hin.
  - apply elem_of_cons in Hin as [->|Hin]; [by apply list_elem_of_here|]. apply list_elem_of_further. by eapply IH.
  - apply list_elem_of_further. by eapply IH.
Qed.

Lemma wish_fst s (l : list tid) : (fst ∘ fst <$> (wish s <$> l) : list tid) = l.
Proof.
  induction l as [|t l IH]; [done|]. simpl. f_equal; [|exact IH]. unfold wish. by destruct (k_threads s !! t).
Qed.

Lemma wish_ext s s' (l : list tid) :
  (forall t th, t ∈ l -> k_threads s !! t = Some th -> exists th', k_threads s' !! t = Some th' /\ strip th' = strip th) ->
  (forall t, t ∈ l -> is_Some (k_threads s !! t)) -> wish s' <$> l = wish s <$> l.
Proof.
  intros H1 H2. induction l as [|t l IH]; [done|]. simpl. f_equal.
  - destruct (H2 t) as [th Ht]; [by apply list_elem_of_here|].
    destruct (H1 t th) as (th' & Ht' & E); [by apply list_elem_of_here|done|]. unfold wish. rewrite Ht, Ht'.
    apply (f_equal th_event_set) in E as E1. apply (f_equal th_event_info) in E as E2. cbn in E1, E2. congruence.
  - apply IH; intros; [eapply H1|eapply H2]; try done; by apply list_elem_of_further.
Qed.

(** The part of the walk that wakes one thread. *)
Lemma wp_wake_one e t th v (Q : unit -> kstate -> Prop) s :
  ipc_inv s -> k_threads s !! t = Some th -> tstat th = RT_THREAD_SUSPEND -> k_events s !! e = Some (mkEvent v) ->
  let set' := if has (th_event_info th) RT_EVENT_FLAG_CLEAR then Z.land v (Z.lnot (th_event_set th)) else v in
  (forall s', woken t th (set_k_events <[e := mkEvent set']> s) s' -> Q tt s') ->
  wp (when (has (th_event_info th) RT_EVENT_FLAG_CLEAR)
        (upd_event e (fun set => Z.land set (Z.lnot (th_event_set th)))) ;; rt_thread_resume t ;; mret tt) Q s.
Proof.
  intros Hi Ht Hs He set' HQ. rewrite wp_bind.
  set (s2 := set_k_events <[e := mkEvent set']> s) in *.
  assert (Hi2 : ipc_inv s2) by (by apply (ipc_inv_ext s)).
  cut (wp (rt_thread_resume t ;; mret tt) Q s2).
  - intros Hw. subst s2 set'. destruct (has (th_event_info th) RT_EVENT_FLAG_CLEAR); cbn [when].
    + by eapply wp_upd_event.
    + rewrite wp_ret. assert (set_k_events <[e := mkEvent v]> s = s) as E; [|by rewrite E in Hw].
      unfold set_k_events. rewrite insert_id by done. by destruct s.
  - rewrite wp_bind. eapply wp_rt_thread_resume; [apply Hi2|exact Ht|by rewrite Hs|].
    rewrite bool_decide_eq_true_2 by done. intros _. rewrite wp_ret. apply HQ. by apply resumed_woken.
Qed.

Lemma wp_send_loop e l v need s :
  ipc_inv s -> k_events s !! e = Some (mkEvent v) -> NoDup l ->
  (forall t, t ∈ l -> t ∈ k_tlist s (LSuspend (OEvent e))) -> wishes_ok e s ->
  wp (send_loop e l need) (fun r s' =>
    r = Some (need || negb (bool_decide ((receivers v (wish s <$> l)).1 = []))) /\
    sent e (receivers v (wish s <$> l)).1 (receivers v (wish s <$> l)).2 s s') s.
Proof.
  revert v need s. induction l as [|t l IH]; intros v need s Hi He Hnd Hin Hok; cbn [send_loop].
  { rewrite wp_ret. cbn. rewrite orb_false_r. split; [done|by apply sent_refl]. }
  apply NoDup_cons in Hnd as [Hnt Hnd].
  assert (Htq : t ∈ k_tlist s (LSuspend (OEvent e))) by (apply Hin; clear; mem).
  assert (Hinl : forall u, u ∈ l -> u ∈ k_tlist s (LSuspend (OEvent e))) by (intros u Hu; apply Hin; clear -Hu; mem).
  destruct (ii_wait _ Hi (LSuspend (OEvent e)) t I Htq) as (th & Ht & Hs).
  rewrite wp_bind. eapply wp_get_thread; [done|]. rewrite wp_bind. eapply wp_get_event; [done|].
  rewrite (Hok t th Htq Ht). cbn [ev_set].
  rewrite fmap_cons. assert (Hwt : wish s t = (t, th_event_set th, th_event_info th)) by (unfold wish; by rewrite Ht).
  rewrite Hwt. cbn [receivers]. set (es := th_event_set th) in *. set (info := th_event_info th) in *.
  set (got := received es info v). set (th1 := set_th_event_set (fun _ => got) th).
  set (s1 := set_k_threads <[t := th1]> s).
  assert (Hbr : wp (if has info RT_EVENT_FLAG_AND then mret (Z.land es v =? es)
      else if negb (Z.land es v =? 0) then upd_thread t (set_th_event_set (fun es => Z.land es v)) ;; mret true
      else mret false) (fun r s' => r = fulfilled es info v /\ s' = if fulfilled es info v then s1 else s) s).
  { assert (Hid : got = es -> s1 = s).
    { intros E. unfold s1, th1. rewrite E. unfold es. replace (set_th_event_set (fun _ => th_event_set th) th) with th by (by destruct th).
      unfold set_k_threads. rewrite insert_id by done. by destruct s. }
    unfold fulfilled. unfold got, received in Hid.
    destruct (has info RT_EVENT_FLAG_AND) eqn:Eand.
    - rewrite wp_ret. split; [done|]. rewrite Hid by done. by destruct (Z.land es v =? es).
    - destruct (Z.land es v =? 0) eqn:E0; cbn [negb]; [by rewrite wp_ret|].
      rewrite wp_bind. eapply wp_upd_thread; [done|]. rewrite wp_ret. split; [done|].
      unfold s1, th1, got, received. by rewrite Eand. }
  rewrite wp_bind. eapply wp_mono; [|exact Hbr]. intros r s' [-> ->].
  destruct (fulfilled es info v) eqn:Ef.
  2: { by apply IH. }
  assert (Hi1 : ipc_inv s1).
  { eapply ipc_inv_upd_same; [done|done| |done|done]. pose proof (kinv_th_ok _ _ _ (ii_kernel _ Hi) Ht) as []. by split. }
  assert (Ht1 : k_threads s1 !! t = Some th1) by apply lookup_insert_eq.
  rewrite wp_bind. eapply wp_get_thread; [done|].
  set (set' := if has info RT_EVENT_FLAG_CLEAR then Z.land v (Z.lnot got) else v).
  assert (Hone := wp_wake_one e t th1 v (fun _ s' => woken t th1 (set_k_events <[e := mkEvent set']> s1) s') s1 Hi1 Ht1 Hs He).
  cbv zeta in Hone. specialize (Hone (fun _ H => H)). revert Hone. rewrite !wp_bind. apply wp_mono. intros _ s2.
  rewrite !wp_bind. apply wp_mono. intros _ s3. rewrite wp_ret. intros Hw.
  assert (Hother : forall u thu, u ≠ t -> k_threads s !! u = Some thu ->
    exists thu', k_threads s3 !! u = Some thu' /\ strip thu' = strip thu).
  { intros u thu Hne Hu. apply (wk_threads _ _ _ _ Hw); [done|]. cbn. by rewrite lookup_insert_ne. }
  assert (Hq : k_tlist s3 (LSuspend (OEvent e)) = list_remove t (k_tlist s) (LSuspend (OEvent e))) by (by rewrite (wk_queues _ _ _ _ Hw)).
  assert (Hwl : wish s3 <$> l = wish s <$> l).
  { apply wish_ext.
    - intros u thu Hu. apply Hother. by intros ->.
    - intros u Hu. destruct (ii_wait _ Hi (LSuspend (OEvent e)) u I (Hinl u Hu)) as (? & -> & _). done. }
  assert (He3 : k_events s3 = <[e := mkEvent set']> (k_events s)) by (by rewrite (objects_events _ _ (wk_objects _ _ _ _ Hw))).
  eapply wp_mono, (IH set'); [|apply Hw|by rewrite He3, lookup_insert_eq|done| |].
  - intros r s' [-> Hsent]. rewrite Hwl in Hsent. cbn [fst snd].
    rewrite (bool_decide_eq_false_2 (_ :: _ = [])) by done. cbn [negb orb]. rewrite orb_true_r. split; [done|].
    eapply (sent_cons e t got _ set' _ th s s3 s'); [done|done| |done|exact Hw|done].
    intros Hr. apply receivers_incl in Hr. rewrite wish_fst in Hr. done.
  - intros u Hu. rewrite Hq. apply elem_of_list_remove. split; [by apply Hinl|]. by intros ->.
  - intros u thu Hu Hthu. rewrite Hq in Hu. apply elem_of_list_remove in Hu as [Hu Hne].
    destruct (ii_wait _ Hi (LSuspend (OEvent e)) u I Hu) as (thu0 & Hu0 & _).
    destruct (Hother u thu0 Hne Hu0) as (thu1 & Hu1 & E). assert (thu1 = thu) as -> by congruence.
    apply (f_equal th_event_info) in E. cbn in E. rewrite E. by apply (Hok u).
Qed.

(** A dispatch after the walk changes nothing of what it did. *)
Lemma sent_frame e ws v s s1 s' :
  sent e ws v s s1 -> frame s1 s' -> ipc_inv s' -> is_Some (k_current s') -> sent e ws v s s'.
Proof.
  intros [S1 S2 S3 S4 S5 S6] Hf Hi Hc. split; [done|done| | | |].
  - by rewrite (objects_events _ _ (frame_objects _ _ Hf)).
  - by rewrite (fr_lists _ _ Hf) by (by intros p).
  - intros t got Hin. destruct (S5 t got Hin) as (th1 & Ht1 & Hs1 & Hg1 & He1).
    destruct (frame_thread _ _ _ _ Hf Ht1) as (th' & Ht' & E). exists th'. split; [done|].
    apply (f_equal th_event_set) in E as Eg. apply (f_equal th_error) in E as Ee. apply strip_stat in E.
    cbn in Eg, Ee. rewrite E, Eg, Ee. done.
  - intros t th Hn Ht. destruct (S6 t th Hn Ht) as (th1 & Ht1 & E1).
    destruct (frame_thread _ _ _ _ Hf Ht1) as (th' & Ht' & E). exists th'. split; [done|]. by rewrite E.
Qed.

(** C28: Sending bits does what [receivers] says: along the queue, each thread whose wish
    the set fulfils at its turn is woken with the bits it receives, and what it asked to
    clear is gone for the threads behind it; the others stay queued in order and
    untouched.  Sending no bits is refused. *)
Theorem rt_event_send_spec e x v set s :
  ipc_inv s -> event_live e x v s -> wishes_ok e s -> is_Some (k_current s) ->
  wp (rt_event_send e set) (fun r s' =>
    if set =? 0 then r = - RT_ERROR /\ s' = s
    else let w := receivers (Z.lor v set) (wish s <$> k_tlist s (LSuspend (OEvent e))) in
         r = RT_EOK /\ sent e w.1 w.2 s s') s.
Proof.
  intros Hi (Hx & Hcx & Hf & He) Hok Hc. unfold rt_event_send.
  rewrite wp_bind. eapply wp_is_class; [done|done|]. destruct (set =? 0); [by rewrite wp_ret|].
  rewrite wp_bind. eapply wp_upd_event; [done|]. set (s1 := set_k_events <[e := mkEvent (Z.lor v set)]> s).
  assert (Hi1 : ipc_inv s1) by (by apply (ipc_inv_ext s)).
  assert (He1 : k_events s1 !! e = Some (mkEvent (Z.lor v set))) by apply lookup_insert_eq.
  set (w := receivers (Z.lor v set) (wish s <$> k_tlist s (LSuspend (OEvent e)))).
  assert (Hback : forall s', sent e w.1 w.2 s1 s' -> sent e w.1 w.2 s s').
  { intros s' [S1 S2 S3 S4 S5 S6]. split; try done. rewrite S3. cbn. by rewrite insert_insert_eq. }
  rewrite wp_bind, wp_gets, wp_bind. unfold list_isempty.
  assert (Hw : wp (if negb (bool_decide (k_tlist s1 (LSuspend (OEvent e)) = []))
      then send_loop e (k_tlist s1 (LSuspend (OEvent e))) false else mret (Some false))
    (fun r s' => r = Some (negb (bool_decide (w.1 = []))) /\ sent e w.1 w.2 s1 s') s1).
  { case_bool_decide as El; cbn [negb].
    - rewrite wp_ret. unfold w. change (k_tlist s1) with (k_tlist s) in El. rewrite El. split; [done|]. by apply sent_refl.
    - apply (wp_send_loop e (k_tlist s1 (LSuspend (OEvent e))) (Z.lor v set) false s1); [done|done| |done|exact Hok].
      apply (ri_space _ _ (proj1 (ki_sched _ (ii_kernel _ Hi)))). }
  eapply wp_mono; [|exact Hw]. intros r s2 [-> Hs]. rewrite wp_bind.
  destruct (negb (bool_decide (w.1 = []))); cbn [when].
  - eapply wp_mono, wp_schedule_ipc; [|apply Hs|by apply Hs]. intros [] s' (Hi' & Hfr & Hc'). rewrite wp_ret.
    split; [done|]. apply Hback. by eapply sent_frame.
  - rewrite !wp_ret. split; [done|by apply Hback].
Qed.

(** [rt_event_recv] on every branch: no bits asked for is refused; a wish the set
    fulfils takes the bits, clearing the asked ones from the set if told to; otherwise
    -RT_ETIMEOUT at once when the caller does not wait, or the caller sleeps on the queue
    with its wish noted for the senders. *)
Theorem rt_event_recv_spec tt e x v set option timeout c th s :
  ipc_inv s -> clock_ok s -> event_live e x v s -> runs c th s -> timeout < half ->
  has option RT_EVENT_FLAG_AND || has option RT_EVENT_FLAG_OR = true ->
  wp (rt_event_recv tt e set option timeout) (fun r s' => ipc_inv s' /\
    if set =? 0 then r = Returned (- RT_ERROR, None) /\ s' = s
    else if fulfilled set option v then
      r = Returned (RT_EOK, Some (Z.land v set)) /\
      k_events s' = <[e := mkEvent (if has option RT_EVENT_FLAG_CLEAR then Z.land v (Z.lnot set) else v)]> (k_events s) /\
      k_tlist s' = k_tlist s /\ forall t, t ≠ c -> k_threads s' !! t = k_threads s !! t
    else if timeout =? 0 then
      r = Returned (- RT_ETIMEOUT, None) /\
      s' = set_k_threads <[c := set_th_error (fun _ => - RT_ETIMEOUT) (no_error th)]> s
    else r = Waiting c Datatypes.tt /\
      blocked (LSuspend (OEvent e)) c
        (set_th_event_info (fun _ => option) (set_th_event_set (fun _ => set) (no_error th)))
        (o_flag x) timeout s s') s.
Proof.
  intros Hi [Hp Htick] (Hx & Hcx & Hf & He) (Hc & Ht & Hs & Hn) Htime Hopt. unfold rt_event_recv.
  pose proof (kinv_th_ok _ _ _ (ii_kernel _ Hi) Ht) as [K1 K2 K3 K4].
  rewrite wp_bind. apply wp_in_thread_context; [by exists c|done|].
  rewrite wp_bind. eapply wp_is_class; [done|done|]. destruct (set =? 0); [by rewrite wp_ret|].
  rewrite wp_bind. eapply wp_self; [done|]. rewrite wp_bind. eapply wp_upd_thread; [done|]. fold (no_error th).
  rewrite wp_bind. eapply wp_get_event; [exact He|]. rewrite wp_bind. apply wp_assert; [done|]. cbn [ev_set].
  rewrite (Z.land_comm v set). change (if has option RT_EVENT_FLAG_AND then Z.land set v =? set else negb (Z.land set v =? 0))
    with (fulfilled set option v).
  assert (Hupd : forall th', th_ok th' -> tstat th' = tstat th -> th_current_priority th' = th_current_priority th ->
    ipc_inv (set_k_threads <[c := th']> s)) by (intros; by eapply ipc_inv_upd_same).
  assert (Hins : forall th1 th2, set_k_threads <[c := th2]> (set_k_threads <[c := th1]> s) = set_k_threads <[c := th2]> s).
  { intros. unfold set_k_threads. cbn. by rewrite insert_insert_eq. }
  destruct (fulfilled set option v).
  - rewrite wp_bind. eapply wp_upd_thread; [apply lookup_insert_eq|]. rewrite wp_bind. eapply wp_upd_thread; [apply lookup_insert_eq|].
    rewrite !Hins. match goal with |- context [<[c := ?th']> ] => set (th1 := th') end.
    set (s1 := set_k_threads <[c := th1]> s). assert (Hi1 : ipc_inv s1) by (by apply Hupd).
    rewrite wp_bind.
    assert (Hcut : forall w, wp (th ← get_thread c; mret (Returned (th_error th, Some (Z.land set v))) : K (outcome unit (Z * Datatypes.option Z)))
      (fun r s' => ipc_inv s' /\ r = Returned (RT_EOK, Some (Z.land set v)) /\ k_events s' = <[e := mkEvent w]> (k_events s) /\
         k_tlist s' = k_tlist s /\ forall t, t ≠ c -> k_threads s' !! t = k_threads s !! t) (set_k_events <[e := mkEvent w]> s1)).
    { intros w. rewrite wp_bind. eapply wp_get_thread; [apply lookup_insert_eq|]. rewrite wp_ret.
      split; [by apply (ipc_inv_ext s1)|]. split; [done|]. split; [done|]. split; [done|].
      intros t Hne. cbn. by rewrite lookup_insert_ne. }
    apply wp_when; intros Hb; rewrite Hb.
    + eapply wp_upd_event; [exact He|]. apply Hcut.
    + assert (set_k_events <[e := mkEvent v]> s1 = s1) as E.
      { unfold set_k_events, s1. cbn. by rewrite (insert_id (k_events s)). }
      specialize (Hcut v). rewrite E in Hcut. exact Hcut.
  - destruct (Z.eqb_spec timeout 0) as [->|Hne].
    + rewrite wp_bind. eapply wp_upd_thread; [apply lookup_insert_eq|]. rewrite wp_ret, Hins.
      split; [by apply Hupd|done].
    + rewrite wp_bind. eapply wp_upd_thread; [apply lookup_insert_eq|]. rewrite wp_bind. eapply wp_upd_thread; [apply lookup_insert_eq|].
      rewrite !Hins. match goal with |- context [<[c := ?th']> ] => set (th1 := th') end.
      set (s1 := set_k_threads <[c := th1]> s). assert (Hi1 : ipc_inv s1) by (by apply Hupd).
      rewrite wp_bind. unfold flag_of. rewrite wp_bind. eapply wp_get_obj; [exact Hx|]. rewrite wp_ret, wp_bind.
      eapply wp_mono, (wp_block tt _ c th1); [|done|by eapply pending_ext; [..|exact Hp]|done|done|done|apply lookup_insert_eq|done|done|done].
      intros r s' [_ Hb]. rewrite wp_ret. split; [apply Hb|]. split; [done|]. by eapply blocked_reset.
Qed.

(** ** Witnesses: event 1 holds bit 3; thread 2 waits for bits 0 and 1, which it will clear,
    and thread 3 for any of bits 1 and 2, with thread 1 running *)

Definition waiter (es info prio : Z) : rt_thread :=
  set_th_event_set (fun _ => es) (set_th_event_info (fun _ => info) (sample_thread RT_THREAD_SUSPEND prio)).

Definition sample_events : kstate :=
  set_k_threads (fun m => <[2%positive := waiter 3 5 10]> (<[3%positive := waiter 6 2 20]> m))
  (set_k_tlist (fun _ => <[LSuspend (OEvent 1) := [2; 3]%positive]> (<[LSuspend (OSem 1) := [4%positive]]> (fun _ => [])))
  (set_k_group (fun _ => 0)
  (set_k_obj <[OEvent 1 := mkObject [] 0x84 0]>
  (set_k_events (fun _ => {[ 1%positive := mkEvent 8 ]}) sample_timers)))).

Lemma sample_events_threads t th : k_threads sample_events !! t = Some th ->
  (t = 1%positive /\ th = sample_thread 11 10) \/ (t = 2%positive /\ th = waiter 3 5 10) \/
  (t = 3%positive /\ th = waiter 6 2 20) \/ (t = 4%positive /\ th = sample_thread 2 5).
Proof.
  cbn [k_threads sample_events set_k_threads set_k_tlist set_k_group set_k_obj set_k_events].
  intros [[<- <-]|[N1 Ht]]%lookup_insert_Some; [tauto|].
  apply lookup_insert_Some in Ht as [[<- <-]|[N2 Ht]]; [tauto|]. apply sample_threads in Ht. naive_solver.
Qed.

Lemma sample_events_tlist h t : t ∈ k_tlist sample_events h ->
  (h = LSuspend (OEvent 1) /\ (t = 2%positive \/ t = 3%positive)) \/ (h = LSuspend (OSem 1) /\ t = 4%positive).
Proof.
  simpl. destruct (decide (LSuspend (OEvent 1) = h)) as [<-|H1].
  { rewrite insert_eq. intros Hin. left. split; [done|]. clear -Hin. mem. }
  rewrite insert_ne by done. destruct (decide (LSuspend (OSem 1) = h)) as [<-|H2].
  { rewrite insert_eq. intros Hin. right. split; [done|]. clear -Hin. mem. }
  rewrite insert_ne by done. intros []%elem_of_nil.
Qed.

Lemma sample_events_ready p : k_tlist sample_events (LReady p) = [].
Proof. done. Qed.

Lemma sample_events_kinv : kinv sample_events.
Proof.
  assert (Hobj : forall o, (forall p, o ≠ OEvent p) -> k_obj sample_events !! o = k_obj sample_timers !! o).
  { intros o Ho. cbn [k_obj sample_events set_k_threads set_k_tlist set_k_group set_k_obj set_k_events].
    by rewrite lookup_insert_ne. }
  destruct sample_timers_kinv as [H1 H2 H3 H4 H5]. split.
  - split; split.
    + split.
      * intros h. simpl. unfold insert, fn_insert. repeat case_decide;
          repeat apply NoDup_singleton || apply NoDup_nil_2. apply NoDup_cons. split; [by intros ?%list_elem_of_singleton|apply NoDup_singleton].
      * intros h1 h2 t Ha Hb; apply sample_events_tlist in Ha; apply sample_events_tlist in Hb. naive_solver.
    + intros t th Ht; apply sample_events_threads in Ht; destruct Ht as [[-> ->]|[[-> ->]|[[-> ->]|[-> ->]]]]; split; done.
    + intros p t. rewrite sample_events_ready. intros []%elem_of_nil.
    + intros t th Ht; apply sample_events_threads in Ht; destruct Ht as [[-> ->]|[[-> ->]|[[-> ->]|[-> ->]]]]; done.
    + done.
    + intros p _. rewrite sample_events_ready, bool_decide_eq_false_2 by tauto. apply Z.bits_0.
    + intros c [= <-]. eexists. done.
    + intros t th Ht; apply sample_events_threads in Ht; destruct Ht as [[-> ->]|[[-> ->]|[[-> ->]|[-> ->]]]]; [|done..].
      split; [done|]. intros h Ht; apply sample_events_tlist in Ht. naive_solver.
  - destruct H2 as [O1 O2]. split; [done|]. by intros i o []%elem_of_nil.
  - destruct H3 as [T1 T2 T3]. split; [done| |].
    + intros h tm Hin. rewrite Hobj by done. by apply T2.
    + intros tm o. rewrite Hobj by done. apply T3.
  - intros t th Ht _. assert (is_Some (k_threads sample_timers !! t)) as [th0 Ht0].
    { apply sample_events_threads in Ht. destruct Ht as [[-> _]|[[-> _]|[[-> _]|[-> _]]]]; by eexists. }
    assert (Hc : tstat th0 ≠ RT_THREAD_CLOSE).
    { apply (sample_threads t th0) in Ht0. destruct Ht0 as [[_ ->]|[[_ ->]|[[_ ->]|[_ ->]]]]; done. }
    destruct (H4 t th0 Ht0 Hc) as (x & xt & v & L1 & L2 & L3 & Hrest). exists x, xt, v. rewrite !Hobj by done. done.
  - intros t h Hh Hin. destruct (H5 t h Hh Hin) as (th & Ht & Hs).
    apply (sample_threads t th) in Ht. destruct Ht as [[-> ->]|[[-> ->]|[[-> ->]|[-> ->]]]]; [done..|]. by eexists.
Qed.

Lemma sample_events_ipc : ipc_inv sample_events.
Proof.
  split; [apply sample_events_kinv|]. intros h t Hh Hin. apply sample_events_tlist in Hin.
  destruct Hin as [[_ [-> | ->]]|[_ ->]]; eexists; done.
Qed.

(** Sending bits 0 and 1: thread 2 takes and clears both, so that nothing is left for
    thread 3. *)
Lemma rt_event_send_spec_witness :
  wp (rt_event_send 1 3) (fun r s' => r = RT_EOK /\ sent 1 [(2%positive, 3)] 8 sample_events s') sample_events.
Proof.
  apply (rt_event_send_spec 1 (mkObject [] 0x84 0) 8 3 sample_events); [apply sample_events_ipc| | |by eexists].
  - split; [done|]. split; [done|]. split; [by left|done].
  - intros t th Hin Ht. apply sample_events_threads in Ht. apply sample_events_tlist in Hin.
    destruct Ht as [[-> ->]|[[-> ->]|[[-> ->]|[-> ->]]]]; try done; naive_solver.
Defined.

Lemma rt_event_recv_spec_witness :
  wp (rt_event_recv 4 1 7 RT_EVENT_FLAG_OR 10) (fun r s' => ipc_inv s' /\ r = Waiting 1%positive tt /\
    blocked (LSuspend (OEvent 1)) 1
      (set_th_event_info (fun _ => 2) (set_th_event_set (fun _ => 7) (no_error (sample_thread 11 10))))
      0 10 sample_events s') sample_events.
Proof.
  apply (rt_event_recv_spec 4 1 (mkObject [] 0x84 0) 8 7 2 10 1 (sample_thread 11 10)); [apply sample_events_ipc| | |done|done|done].
  - split; [|done]. eapply pending_ext; [..|apply sample_timers_pending]; done.
  - split; [done|]. split; [done|]. split; [by left|done].
Defined.
