(* ===== verification/Wait.v ===== *)
(** * Wait: the waiting loops of rt-thread/src/ipc.c

    Mailboxes, message queues and memory pools are waited for in a loop: a thread that is
    woken tries again with what is left of its time.  Here is what the loops share: a sleep
    that remembers its local variables, the time left after it, and waking the first
    thread of a queue when there is one. *)

From S2P Require Import Prelude RtList Kernel Scheduler Object TimerCore Thread Timer Ipc.

#[local] Open Scope Z_scope.

(** ** Definitions *)

(** [rt_ipc_list_suspend], the timer and [rt_schedule] of a waiting call on object [o]; the
    result is the thread and the tick at which the wait began. *)
Definition wait_on (timer_thread : tid) (o : objid) (list : lhead) (thread : tid) (timeout : Z) : K (tid * Z) :=
  flag ← flag_of o;
  tick_delta ← block timer_thread list thread flag timeout;
  mret (thread, tick_delta).

(** What is left of the timeout after a wait. *)
Definition time_left (timeout tick_delta tick : Z) : Z :=
  if 0 <? timeout then
    let timeout := i32 (timeout - u32 (tick - tick_delta)) in
    if timeout <? 0 then 0 else timeout
  else timeout.

(** [if (!rt_list_isempty (list)) { rt_ipc_list_resume (list); rt_schedule (); }] *)
Definition wake_first (list : lhead) : K unit :=
  L ← gets k_tlist;
  when (negb (list_isempty list L)) (rt_ipc_list_resume list ;; rt_schedule).

(** ** Lemmas *)

(** The time left is again one a timer can run for. *)
Lemma time_left_range timeout start tick :
  timeout < half -> u32 (tick - start) <= half -> time_left timeout start tick < half.
Proof.
  intros Ht He. pose proof (wrap_range 32 (tick - start) ltac:(done)). unfold time_left.
  destruct (Z.ltb_spec 0 timeout); [|done]. cbv zeta. change half with (2 ^ 31 - 1) in *.
  rewrite swrap_small by (done || lia). destruct (Z.ltb_spec (timeout - u32 (tick - start)) 0); lia.
Qed.

(** The sleep, with the reset of the error that comes before it. *)
Lemma wp_wait_on tt o h x c th timeout (Q : tid * Z -> kstate -> Prop) s :
  ipc_inv s -> clock_ok s -> wait_head h -> runs c th s -> k_obj s !! o = Some x -> ipc_flag (o_flag x) -> timeout < half ->
  (forall s', blocked h c (no_error th) (o_flag x) timeout s s' -> Q (c, if 0 <? timeout then k_tick s else 0) s') ->
  wp (wait_on tt o h c timeout) Q (set_k_threads <[c := no_error th]> s).
Proof.
  intros Hi [Hp Htick] Hh (Hc & Ht & Hs & Hn) Hx Hf Htime HQ.
  assert (Hi1 : ipc_inv (set_k_threads <[c := no_error th]> s)) by (by apply ipc_inv_upd_error).
  unfold wait_on. rewrite wp_bind. unfold flag_of. rewrite wp_bind. eapply wp_get_obj; [exact Hx|]. rewrite wp_ret, wp_bind.
  eapply wp_mono, wp_block; [|done|by eapply pending_ext; [..|exact Hp]|done|done|done|apply lookup_insert_eq|done|done|done].
  intros r s' [-> Hb]. rewrite wp_ret. apply HQ. by eapply blocked_reset.
Qed.

(** The first thread of queue [h], if any, is awake. *)
Definition roused (h : lhead) (s s' : kstate) : Prop :=
  match k_tlist s h with
  | [] => s' = s
  | t :: _ => exists th, k_threads s !! t = Some th /\ woken t th s s'
  end.

Lemma wp_wake_first h (Q : unit -> kstate -> Prop) s :
  ipc_inv s -> is_Some (k_current s) -> wait_head h ->
  (forall s', ipc_inv s' -> roused h s s' -> Q tt s') -> wp (wake_first h) Q s.
Proof.
  intros Hi Hc Hh HQ. unfold wake_first. rewrite wp_bind, wp_gets. unfold list_isempty, roused in *.
  destruct (k_tlist s h) as [|t l] eqn:El.
  - rewrite bool_decide_eq_true_2 by done. cbn [negb when]. rewrite wp_ret. by apply HQ.
  - rewrite bool_decide_eq_false_2 by done. cbn [negb when].
    destruct (ii_wait _ Hi h t Hh) as (th & Ht & _); [rewrite El; clear; mem|].
    rewrite wp_bind. eapply wp_rt_ipc_list_resume; [done|done|done|done|]. intros s1 Hw.
    eapply wp_mono, wp_schedule_ipc; [|apply Hw|by apply Hw].
    intros [] s' (Hi2 & Hfr & Hc'). apply HQ; [done|]. exists th. split; [done|]. by eapply woken_frame.
Qed.

(** What waking leaves as it was, and the queues. *)
Lemma roused_queues h s s' : ipc_inv s -> wait_head h -> roused h s s' ->
  k_tlist s' h = tail (k_tlist s h) /\ forall h', wait_head h' -> h' ≠ h -> k_tlist s' h' = k_tlist s h'.
Proof.
  intros Hi Hh Hr. unfold roused in Hr. destruct (k_tlist s h) as [|t l] eqn:El; [by subst s'|].
  destruct Hr as (th & Ht & Hw). by eapply woken_head.
Qed.
Lemma roused_rest h s s' : roused h s s' ->
  objects s' = objects s /\ k_tick s' = k_tick s /\ (pending s -> pending s') /\
  (is_Some (k_current s) -> is_Some (k_current s')).
Proof.
  unfold roused. destruct (k_tlist s h) as [|t l]; [by intros ->|]. intros (th & _ & []). done.
Qed.

(** *** Sleeping at a given place of a queue *)

Lemma asleep_reset h c th th1 l1 l2 time s s' :
  asleep h c th1 l1 l2 time (set_k_threads <[c := th1]> s) s' -> k_threads s !! c = Some th -> asleep h c th1 l1 l2 time s s'.
Proof.
  intros [A1 A2 A3 A4 A5 A6 A7 A8 A9 A10] Ht. split; try done. intros t tht Hne Htt. apply A9; [done|]. simpl. by rewrite lookup_insert_ne.
Qed.

(** The running thread is suspended, and [f] puts it between [l1] and [l2]. *)
Lemma wp_suspend_insert h c th (f : (lhead -> list tid) -> lhead -> list tid) l1 l2 s :
  ipc_inv s -> wait_head h -> runs c th s -> k_tlist s h = l1 ++ l2 ->
  (forall L, L h = l1 ++ l2 -> f L = <[h := l1 ++ c :: l2]> L) ->
  wp (rt_thread_suspend c) (fun _ s1 =>
    set_k_tlist f s1 = enqueued h c (no_error th) l1 l2 (set_k_threads <[c := no_error th]> s) /\ k_irq_nest s1 = 0 /\
    ipc_inv (enqueued h c (no_error th) l1 l2 (set_k_threads <[c := no_error th]> s))) (set_k_threads <[c := no_error th]> s).
Proof.
  intros Hi Hh (Hc & Ht & Hs & Hn) El HF. set (s1 := set_k_threads <[c := no_error th]> s).
  assert (Hi1 : ipc_inv s1) by (by apply ipc_inv_upd_error).
  assert (Ht1 : k_threads s1 !! c = Some (no_error th)) by apply lookup_insert_eq.
  pose proof (running_unlinked _ _ _ (ii_kernel _ Hi1) Ht1 Hs) as Hu. destruct (suspended_fields c (no_error th) s1) as (F1 & F2 & _ & F4 & _).
  eapply wp_rt_thread_suspend; [apply Hi1|exact Ht1|by change (tstat (no_error th)) with (tstat th); rewrite Hs|].
  rewrite bool_decide_eq_true_2 by (change (tstat (no_error th)) with (tstat th); by rewrite Hs). intros Hk.
  split; [|split; [|by apply ipc_inv_enqueued]].
  - unfold enqueued, set_k_tlist. rewrite HF; [done|]. by rewrite F2, list_remove_off.
  - injection F4. intros. congruence.
Qed.
