(* ===== verification/Linked.v ===== *)
(** * Linked: singly linked lists in memory

    Message queues and memory pools keep their free nodes, and the queues their messages,
    in lists threaded through the nodes themselves and ended by the null pointer, here 0.
    [linked next h l]: from the head pointer [h] the list runs through the nodes [l]. *)

From S2P Require Import Prelude.

#[local] Open Scope Z_scope.

Section linked.
Context (next : Z -> option Z).

Fixpoint linked (h : Z) (l : list Z) : Prop :=
  match l with
  | [] => h = 0
  | a :: l => h = a /\ a ≠ 0 /\ exists b, next a = Some b /\ linked b l
  end.

(** The nodes, at most [fuel] of them. *)
Fixpoint walk (fuel : nat) (h : Z) : list Z :=
  match fuel with
  | O => []
  | S fuel => if h =? 0 then [] else h :: match next h with Some b => walk fuel b | None => [] end
  end.

Lemma linked_walk fuel h l : linked h l -> (length l <= fuel)%nat -> walk fuel h = l.
Proof.
  revert h l. induction fuel as [|fuel IH]; intros h [|a l] Hl Hf; cbn in *; try done; try lia.
  - by subst h.
  - destruct Hl as (-> & Ha & b & -> & Hl). rewrite (proj2 (Z.eqb_neq a 0) Ha). by rewrite (IH b l) by (done || lia).
Qed.
Lemma linked_head h l : linked h l -> h = default 0 (head l).
Proof. destruct l; [done|]. by intros [-> _]. Qed.
Lemma linked_nil h l : linked h l -> h = 0 <-> l = [].
Proof. destruct l as [|a l]; [done|]. intros (-> & Ha & _). done. Qed.
Lemma linked_next a h l : linked h l -> a ∈ l -> is_Some (next a).
Proof.
  revert h. induction l as [|b l IH]; intros h Hl Ha; [by apply elem_of_nil in Ha|].
  destruct Hl as (_ & _ & c & Hc & Hl). apply elem_of_cons in Ha as [->|Ha]; [by exists c|by eapply IH].
Qed.
Lemma linked_push a h l : linked h l -> a ≠ 0 -> next a = Some h -> linked a (a :: l).
Proof. intros. split; [done|]. split; [done|]. by exists h. Qed.
End linked.

(** The list does not see the nodes that are not on it. *)
Lemma linked_ext next next' h l :
  (forall a, a ∈ l -> next' a = next a) -> linked next h l -> linked next' h l.
Proof.
  revert h. induction l as [|a l IH]; intros h He; [done|]. intros (-> & Ha & b & Hb & Hl).
  split; [done|]. split; [done|]. exists b. split; [by rewrite He by (by left)|]. apply IH; [|done]. intros c Hc. apply He. by right.
Qed.

(** The new last node is linked from the old one, which is on the list once. *)
Lemma linked_snoc next next' h l a :
  linked next h l -> NoDup l -> a ∉ l -> a ≠ 0 -> next' a = Some 0 ->
  (forall b, b ∈ l -> next' b = if bool_decide (last l = Some b) then Some a else next b) ->
  linked next' (if h =? 0 then a else h) (l ++ [a]).
Proof.
  revert h. induction l as [|b l IH]; intros h Hl Hd Hn Ha Hna He.
  - cbn in Hl. subst h. cbn. split; [done|]. split; [done|]. by exists 0.
  - destruct Hl as (-> & Hb & c & Hc & Hl). apply NoDup_cons in Hd as [Hbl Hd]. rewrite (proj2 (Z.eqb_neq b 0) Hb).
    rewrite <- app_comm_cons. split; [done|]. split; [done|]. exists (if c =? 0 then a else c). split.
    + rewrite He by (by left). destruct l as [|d l].
      * cbn in Hl. subst c. by rewrite bool_decide_eq_true_2.
      * rewrite last_cons_cons. destruct Hl as (-> & Hd0 & _). rewrite (proj2 (Z.eqb_neq d 0) Hd0).
        rewrite bool_decide_eq_false_2; [done|]. intros E. apply Hbl. by apply last_Some_elem_of in E.
    + apply IH; [done|done| |done|done|].
      * intros H. apply Hn. by right.
      * intros d Hdl. rewrite He by (by right). destruct l as [|e l]; [by apply elem_of_nil in Hdl|]. done.
Qed.
