(* ===== verification/Extend.v ===== *)
(** * Extend: a component on top of the kernel

    The state of a component that keeps tables of its own beside the kernel's, and the
    kernel's calls in it. *)

From S2P Require Import Prelude RtList Kernel Scheduler Object TimerCore Thread Ipc.

#[local] Open Scope Z_scope.

Section extend.
Context {T : Type}.

Definition ext : Type := kstate * T.
Definition set_k (k : kstate) (s : ext) : ext := (k, s.2).
Definition set_own (f : T -> T) (s : ext) : ext := (s.1, f s.2).

(** A kernel call. *)
Definition kcall {A} (m : K A) : M ext A := fun s =>
  match m s.1 with Some (a, k) => Some (a, set_k k s) | None => None end.

Lemma wp_kcall {A} (m : K A) (Q : A -> ext -> Prop) k t :
  wp m (fun a k' => Q a (k', t)) k -> wp (kcall m) Q (k, t).
Proof. unfold wp, kcall. cbn. by destruct (m k) as [[a k']|]. Qed.

(** kservice.c: the error number of the running thread, or outside threads the one that
    [set_outer] writes. *)
Definition rt_set_errno (set_outer : Z -> T -> T) (error : Z) : M ext unit :=
  nest ← kcall (gets k_irq_nest);
  if negb (nest =? 0) then modify (set_own (set_outer error))
  else
    tid ← kcall rt_thread_self;
    match tid with
    | None => modify (set_own (set_outer error))
    | Some tid => kcall (upd_thread tid (set_th_error (fun _ => error)))
    end.

Lemma wp_set_errno set_outer error c th (Q : unit -> ext -> Prop) k t :
  k_irq_nest k = 0 -> k_current k = Some c -> k_threads k !! c = Some th ->
  Q tt (set_k_threads <[c := set_th_error (fun _ => error) th]> k, t) -> wp (rt_set_errno set_outer error) Q (k, t).
Proof.
  intros Hn Hc Ht HQ. unfold rt_set_errno, rt_thread_self. rewrite !wp_bind. apply wp_kcall. rewrite wp_gets, Hn. cbn [Z.eqb negb].
  rewrite wp_bind. apply wp_kcall. rewrite wp_gets, Hc. apply wp_kcall. by eapply wp_upd_thread.
Qed.
End extend.
Arguments ext T : clear implicits.
