(* ===== verification/Mailbox.v ===== *)
(** * Mailbox: rt-thread/src/ipc.c, the mailboxes

    A ring of words with a queue of waiting receivers and one of waiting senders.  A thread
    that is woken tries again, with what is left of its time: one turn of the loop is a
    definition ([mb_send_turn], [mb_recv_turn]), and a call that waits ends with the local
    variables the loop still needs, the timeout and the tick at which the wait began. *)

From S2P Require Import Prelude Cyclic RtList Kernel Scheduler Object TimerCore Thread Timer Ipc Wait.

#[local] Open Scope Z_scope.

Section mailbox.
Context (timer_thread : tid).

Definition get_mb (mb : positive) : K rt_mailbox := deref (fun s => k_mailboxes s !! mb).
Definition upd_mb (mb : positive) (f : rt_mailbox -> rt_mailbox) : K unit :=
  m ← get_mb mb; modify (set_k_mailboxes <[mb := f m]>).

(** The memory of the pool is given; [size] is cut to the field's sixteen bits. *)
Definition rt_mb_init (mb : positive) (name : list Z) (msgpool : list Z) (size flag : Z) : K Z :=
  rt_object_init (OMailBox mb) RT_Object_Class_MailBox name ;;
  upd_obj (OMailBox mb) (set_o_flag (fun _ => flag)) ;;
  rt_ipc_object_init (OMailBox mb) ;;
  modify (set_k_mailboxes <[mb := mkMailbox msgpool (u16 size) 0 0 0]>) ;;
  tlist_modify (list_init (LSender (OMailBox mb))) ;;
  mret RT_EOK.

Definition rt_mb_detach (mb : positive) : K Z :=
  is_class (OMailBox mb) RT_Object_Class_MailBox ;;
  is_system (OMailBox mb) true ;;
  rt_ipc_list_resume_all (LSuspend (OMailBox mb)) ;;
  rt_ipc_list_resume_all (LSender (OMailBox mb)) ;;
  rt_object_detach (OMailBox mb) ;;
  mret RT_EOK.

(** [malloc] gives the control block, [pool_malloc] the memory of the pool. *)
Definition rt_mb_create (malloc : option positive) (pool_malloc : Z -> option (list Z))
    (name : list Z) (size flag : Z) : K (option positive) :=
  not_in_interrupt ;;
  r ← rt_object_allocate (OMailBox <$> malloc) RT_Object_Class_MailBox name;
  match r, malloc with
  | Some _, Some mb =>
      upd_obj (OMailBox mb) (set_o_flag (fun _ => flag)) ;;
      rt_ipc_object_init (OMailBox mb) ;;
      match pool_malloc (u32 (u16 size * 4)) with
      | None => rt_object_delete (OMailBox mb) ;; mret None
      | Some pool =>
          modify (set_k_mailboxes <[mb := mkMailbox pool (u16 size) 0 0 0]>) ;;
          tlist_modify (list_init (LSender (OMailBox mb))) ;;
          mret (Some mb)
      end
  | _, _ => mret None
  end.

Definition rt_mb_delete (mb : positive) : K Z :=
  not_in_interrupt ;;
  is_class (OMailBox mb) RT_Object_Class_MailBox ;;
  is_system (OMailBox mb) false ;;
  rt_ipc_list_resume_all (LSuspend (OMailBox mb)) ;;
  rt_ipc_list_resume_all (LSender (OMailBox mb)) ;;
  rt_object_delete (OMailBox mb) ;;
  modify (set_k_mailboxes (delete mb)) ;;
  mret RT_EOK.

(** [thread] is the result of [rt_thread_self ()], which the wait dereferences. *)
Definition mb_wait (mb : positive) (list : lhead) (thread : option tid) (timeout : Z) : K (tid * Z) :=
  thread ← deref (fun _ => thread);
  in_thread_context ;;
  wait_on timer_thread (OMailBox mb) list thread timeout.

(** *** Sending *)

(** Storing the mail and waking a receiver. *)
Definition mb_put (mb : positive) (value : Z) : K Z :=
  m ← get_mb mb;
  rt_assert ((0 <=? mb_in_offset m) && (mb_in_offset m <? Z.of_nat (length (mb_msg_pool m)))) ;;
  upd_mb mb (set_mb_msg_pool (fun pool => <[Z.to_nat (mb_in_offset m) := value]> pool)) ;;
  upd_mb mb (set_mb_in_offset (fun i => u16 (i + 1))) ;;
  m ← get_mb mb;
  when (mb_size m <=? mb_in_offset m) (upd_mb mb (set_mb_in_offset (fun _ => 0))) ;;
  if mb_entry m <? RT_MB_ENTRY_MAX then
    upd_mb mb (set_mb_entry (fun e => u16 (e + 1))) ;;
    wake_first (LSuspend (OMailBox mb)) ;;
    mret RT_EOK
  else mret (- RT_EFULL).

(** From the test of the loop on. *)
Definition mb_send_turn (mb : positive) (thread : option tid) (value timeout : Z) : K (outcome (Z * Z) Z) :=
  m ← get_mb mb;
  if mb_entry m =? mb_size m then
    t ← deref (fun _ => thread);
    upd_thread t (set_th_error (fun _ => RT_EOK)) ;;
    if timeout =? 0 then mret (Returned (- RT_EFULL))
    else
      '(t, tick_delta) ← mb_wait mb (LSender (OMailBox mb)) thread timeout;
      mret (Waiting t (timeout, tick_delta))
  else r ← mb_put mb value; mret (Returned r).

Definition rt_mb_send_wait (mb : positive) (value timeout : Z) : K (outcome (Z * Z) Z) :=
  is_class (OMailBox mb) RT_Object_Class_MailBox ;;
  thread ← rt_thread_self;
  m ← get_mb mb;
  if (mb_entry m =? mb_size m) && (timeout =? 0) then mret (Returned (- RT_EFULL))
  else mb_send_turn mb thread value timeout.
Definition rt_mb_send_resumed (mb : positive) (thread : tid) (value : Z) (locals : Z * Z) : K (outcome (Z * Z) Z) :=
  th ← get_thread thread;
  if negb (th_error th =? RT_EOK) then mret (Returned (th_error th))
  else
    tick ← rt_tick_get;
    mb_send_turn mb (Some thread) value (time_left locals.1 locals.2 tick).

Definition rt_mb_send (mb : positive) (value : Z) : K (outcome (Z * Z) Z) := rt_mb_send_wait mb value 0.

(** *** Receiving *)

(** Taking the oldest mail and waking a sender; with the mail. *)
Definition mb_get (mb : positive) : K (Z * option Z) :=
  m ← get_mb mb;
  value ← deref (fun _ => mb_msg_pool m !! Z.to_nat (mb_out_offset m));
  upd_mb mb (set_mb_out_offset (fun o => u16 (o + 1))) ;;
  m ← get_mb mb;
  when (mb_size m <=? mb_out_offset m) (upd_mb mb (set_mb_out_offset (fun _ => 0))) ;;
  when (0 <? mb_entry m) (upd_mb mb (set_mb_entry (fun e => u16 (e - 1)))) ;;
  wake_first (LSender (OMailBox mb)) ;;
  mret (RT_EOK, Some value).

Definition mb_recv_turn (mb : positive) (thread : option tid) (timeout : Z) : K (outcome (Z * Z) (Z * option Z)) :=
  m ← get_mb mb;
  if mb_entry m =? 0 then
    t ← deref (fun _ => thread);
    upd_thread t (set_th_error (fun _ => RT_EOK)) ;;
    if timeout =? 0 then
      upd_thread t (set_th_error (fun _ => - RT_ETIMEOUT)) ;;
      mret (Returned (- RT_ETIMEOUT, None))
    else
      '(t, tick_delta) ← mb_wait mb (LSuspend (OMailBox mb)) thread timeout;
      mret (Waiting t (timeout, tick_delta))
  else r ← mb_get mb; mret (Returned r).

(** With the mail stored through [value]. *)
Definition rt_mb_recv (mb : positive) (timeout : Z) : K (outcome (Z * Z) (Z * option Z)) :=
  is_class (OMailBox mb) RT_Object_Class_MailBox ;;
  thread ← rt_thread_self;
  m ← get_mb mb;
  if (mb_entry m =? 0) && (timeout =? 0) then mret (Returned (- RT_ETIMEOUT, None))
  else mb_recv_turn mb thread timeout.
Definition rt_mb_recv_resumed (mb : positive) (thread : tid) (locals : Z * Z) : K (outcome (Z * Z) (Z * option Z)) :=
  th ← get_thread thread;
  if negb (th_error th =? RT_EOK) then mret (Returned (th_error th, None))
  else
    tick ← rt_tick_get;
    mb_recv_turn mb (Some thread) (time_left locals.1 locals.2 tick).

Definition rt_mb_control (mb : positive) (cmd : Z) : K Z :=
  is_class (OMailBox mb) RT_Object_Class_MailBox ;;
  if cmd =? RT_IPC_CMD_RESET then
    rt_ipc_list_resume_all (LSuspend (OMailBox mb)) ;;
    rt_ipc_list_resume_all (LSender (OMailBox mb)) ;;
    upd_mb mb (fun m => mkMailbox (mb_msg_pool m) (mb_size m) 0 0 0) ;;
    rt_schedule ;;
    mret RT_EOK
  else mret (- RT_ERROR).
End mailbox.

(** ** The mails *)

Record mb_ok (m : rt_mailbox) : Prop := {
  mo_size : 0 < mb_size m <= RT_MB_ENTRY_MAX;
  mo_pool : Z.of_nat (length (mb_msg_pool m)) = mb_size m;
  mo_in : 0 <= mb_in_offset m < mb_size m;
  mo_out : 0 <= mb_out_offset m < mb_size m;
  mo_entry : 0 <= mb_entry m <= mb_size m;
  mo_next : forall x, slot (mb_size m) (mb_in_offset m + x) = slot (mb_size m) (mb_out_offset m + mb_entry m + x)
}.

(** The words stored, oldest first. *)
Definition mails (m : rt_mailbox) : list Z := stretch (mb_size m) (mb_out_offset m) (mb_entry m) (mb_msg_pool m).

Lemma mails_segment m : mb_ok m -> segment (mb_size m) (mb_out_offset m) (mb_entry m) (mb_msg_pool m) (mails m).
Proof. intros []. apply stretch_segment; lia. Qed.
Lemma mails_length m : mb_ok m -> Z.of_nat (length (mails m)) = mb_entry m.
Proof. intros H. apply (mails_segment m H). Qed.

Definition next_offset (size i : Z) : Z := if size <=? i + 1 then 0 else i + 1.
Definition deposit (v : Z) (m : rt_mailbox) : rt_mailbox :=
  mkMailbox (<[Z.to_nat (mb_in_offset m) := v]> (mb_msg_pool m)) (mb_size m) (mb_entry m + 1)
    (next_offset (mb_size m) (mb_in_offset m)) (mb_out_offset m).
Definition collect (m : rt_mailbox) : rt_mailbox :=
  mkMailbox (mb_msg_pool m) (mb_size m) (mb_entry m - 1) (mb_in_offset m)
    (next_offset (mb_size m) (mb_out_offset m)).

Lemma next_offset_slot size i x : 0 <= i < size -> slot size (next_offset size i + x) = slot size (i + 1 + x).
Proof.
  intros. unfold next_offset. destruct (Z.leb_spec size (i + 1)); [|done].
  rewrite <- slot_over by lia. f_equal. lia.
Qed.
Lemma next_offset_range size i : 0 <= i < size -> 0 <= next_offset size i < size.
Proof. intros. unfold next_offset. destruct (Z.leb_spec size (i + 1)); lia. Qed.

Lemma deposit_ok v m : mb_ok m -> mb_entry m < mb_size m -> mb_ok (deposit v m) /\ mails (deposit v m) = mails m ++ [v].
Proof.
  intros Hm Hlt. pose proof Hm as []. assert (Hok : mb_ok (deposit v m)).
  { constructor; cbn [deposit mb_size mb_msg_pool mb_in_offset mb_out_offset mb_entry]; try lia.
    - by rewrite length_insert.
    - by apply next_offset_range.
    - intros x. rewrite next_offset_slot by lia. rewrite <- Z.add_assoc, mo_next0. f_equal. lia. }
  split; [done|]. eapply segment_unique; [by apply mails_segment|].
  rewrite <- (drop_0 (mails m ++ [v])). change 0%nat with (Z.to_nat 0). cbn [deposit mb_size mb_msg_pool mb_out_offset mb_entry].
  replace (mb_entry m + 1) with (mb_entry m + Z.of_nat (length [v]) - 0) by (cbn; lia).
  eapply segment_write; [lia| |by apply mails_segment|cbn; lia| |exact mo_next0|lia|cbn; lia|intros x; f_equal; lia].
  - lia.
  - apply (wrote_once _ _ [v]); [done|done|cbn; lia].
Qed.

Lemma collect_ok m v q : mb_ok m -> mails m = v :: q ->
  mb_msg_pool m !! Z.to_nat (mb_out_offset m) = Some v /\ mb_ok (collect m) /\ mails (collect m) = q.
Proof.
  intros Hm Hq. pose proof Hm as []. pose proof (mails_segment m Hm) as Hs. pose proof (mails_length m Hm) as Hl.
  rewrite Hq in Hs, Hl. cbn [length] in Hl. assert (Hok : mb_ok (collect m)).
  { constructor; cbn [collect mb_size mb_msg_pool mb_in_offset mb_out_offset mb_entry]; try lia.
    - by apply next_offset_range.
    - intros x. rewrite mo_next0, <- !Z.add_assoc, next_offset_slot by lia. f_equal. lia. }
  split; [|split; [done|]].
  - destruct Hs as [_ Hs]. specialize (Hs 0 ltac:(lia)). rewrite Z.add_0_r, slot_small in Hs by lia. by rewrite <- Hs.
  - eapply segment_unique; [by apply mails_segment|].
    change q with (drop (Z.to_nat 1) (v :: q)). cbn [collect mb_size mb_msg_pool mb_out_offset mb_entry].
    eapply segment_read; [done|lia|]. intros x. by rewrite next_offset_slot by lia.
Qed.

(** ** The calls *)

Definition mb_live (mb : positive) (x : rt_object) (m : rt_mailbox) (s : kstate) : Prop :=
  k_obj s !! OMailBox mb = Some x /\ class_of x = RT_Object_Class_MailBox /\ ipc_flag (o_flag x) /\
  k_mailboxes s !! mb = Some m /\ mb_ok m.

Definition set_mailbox (mb : positive) (m : rt_mailbox) (s : kstate) : kstate := set_k_mailboxes <[mb := m]> s.

(** The mailbox has become [m], and the first thread of queue [h], if any, is awake. *)
Definition served (mb : positive) (m : rt_mailbox) (h : lhead) (s s' : kstate) : Prop :=
  roused h (set_mailbox mb m s) s'.

Lemma wp_get_mb mb m (Q : rt_mailbox -> kstate -> Prop) s :
  k_mailboxes s !! mb = Some m -> Q m s -> wp (get_mb mb) Q s.
Proof. intros. by eapply wp_deref. Qed.
Lemma wp_upd_mb mb f m (Q : unit -> kstate -> Prop) s :
  k_mailboxes s !! mb = Some m -> Q tt (set_mailbox mb (f m) s) -> wp (upd_mb mb f) Q s.
Proof. intros. unfold upd_mb. rewrite wp_bind. by eapply wp_get_mb. Qed.

Lemma set_mailbox_twice mb m m' s : set_mailbox mb m' (set_mailbox mb m s) = set_mailbox mb m' s.
Proof. unfold set_mailbox, set_k_mailboxes. cbn. by rewrite insert_insert_eq. Qed.
Lemma set_mailbox_lookup mb m s : k_mailboxes (set_mailbox mb m s) !! mb = Some m.
Proof. apply lookup_insert_eq. Qed.
Lemma ipc_inv_mailbox mb m s : ipc_inv s -> ipc_inv (set_mailbox mb m s).
Proof. intros. by eapply ipc_inv_ext. Qed.

Lemma wp_mb_put mb m v (Q : Z -> kstate -> Prop) s :
  ipc_inv s -> is_Some (k_current s) -> k_mailboxes s !! mb = Some m -> mb_ok m -> mb_entry m < mb_size m ->
  (forall s', ipc_inv s' -> served mb (deposit v m) (LSuspend (OMailBox mb)) s s' -> Q RT_EOK s') ->
  wp (mb_put mb v) Q s.
Proof.
  intros Hi Hc Hm [] Hlt HQ. unfold mb_put. rewrite wp_bind. eapply wp_get_mb; [done|].
  rewrite wp_bind. apply wp_assert; [apply andb_true_intro; split; [apply Z.leb_le|apply Z.ltb_lt]; lia|].
  rewrite wp_bind. eapply wp_upd_mb; [done|]. rewrite wp_bind. eapply wp_upd_mb; [apply set_mailbox_lookup|].
  rewrite set_mailbox_twice, wp_bind. unfold RT_MB_ENTRY_MAX in *.
  unfold set_mb_in_offset at 2, set_mb_msg_pool. cbn [mb_size mb_msg_pool mb_in_offset mb_out_offset mb_entry].
  rewrite (wrap_small 16 (mb_in_offset m + 1)) by lia.
  eapply wp_get_mb; [apply set_mailbox_lookup|]. cbn [mb_size mb_in_offset mb_entry].
  assert (Hw : wp (if mb_entry m <? 2 ^ 16 - 1 then
      upd_mb mb (set_mb_entry (fun e => u16 (e + 1))) ;;
      wake_first (LSuspend (OMailBox mb)) ;;
      mret RT_EOK else mret (- RT_EFULL)) Q
    (set_mailbox mb (mkMailbox (<[Z.to_nat (mb_in_offset m) := v]> (mb_msg_pool m)) (mb_size m) (mb_entry m)
       (next_offset (mb_size m) (mb_in_offset m)) (mb_out_offset m)) s)).
  { destruct (Z.ltb_spec (mb_entry m) (2 ^ 16 - 1)); [|lia].
    rewrite wp_bind. eapply wp_upd_mb; [apply set_mailbox_lookup|]. rewrite set_mailbox_twice.
    unfold set_mb_entry. cbn [mb_size mb_msg_pool mb_in_offset mb_out_offset mb_entry]. rewrite wrap_small by lia.
    rewrite wp_bind. apply wp_wake_first; [by apply ipc_inv_mailbox|done|done|]. intros. rewrite wp_ret. by apply HQ. }
  rewrite wp_bind. unfold next_offset in Hw. destruct (Z.leb_spec (mb_size m) (mb_in_offset m + 1)); cbn [when].
  - eapply wp_upd_mb; [apply set_mailbox_lookup|]. by rewrite set_mailbox_twice.
  - rewrite wp_ret. exact Hw.
Qed.

Lemma wp_mb_get mb m v q (Q : Z * option Z -> kstate -> Prop) s :
  ipc_inv s -> is_Some (k_current s) -> k_mailboxes s !! mb = Some m -> mb_ok m -> mails m = v :: q ->
  (forall s', ipc_inv s' -> served mb (collect m) (LSender (OMailBox mb)) s s' -> Q (RT_EOK, Some v) s') ->
  wp (mb_get mb) Q s.
Proof.
  intros Hi Hc Hm Hok Hq HQ. destruct (collect_ok m v q Hok Hq) as [Hv _].
  pose proof (mails_length m Hok) as Hl. rewrite Hq in Hl. cbn [length] in Hl. destruct Hok.
  unfold mb_get. rewrite wp_bind. eapply wp_get_mb; [done|].
  rewrite wp_bind. eapply wp_deref; [done|]. cbn beta.
  rewrite wp_bind. eapply wp_upd_mb; [done|]. rewrite wp_bind. unfold RT_MB_ENTRY_MAX in *.
  unfold set_mb_out_offset at 2. cbn [mb_size mb_msg_pool mb_in_offset mb_out_offset mb_entry].
  rewrite (wrap_small 16 (mb_out_offset m + 1)) by lia.
  eapply wp_get_mb; [apply set_mailbox_lookup|]. cbn [mb_size mb_out_offset mb_entry].
  destruct (Z.ltb_spec 0 (mb_entry m)) as [_|]; [|lia]. cbn [when].
  assert (Hw : wp (upd_mb mb (set_mb_entry (fun e => u16 (e - 1))) ;;
      wake_first (LSender (OMailBox mb)) ;;
      mret (RT_EOK, Some v)) Q
    (set_mailbox mb (mkMailbox (mb_msg_pool m) (mb_size m) (mb_entry m) (mb_in_offset m)
       (next_offset (mb_size m) (mb_out_offset m))) s)).
  { rewrite wp_bind. eapply wp_upd_mb; [apply set_mailbox_lookup|]. rewrite set_mailbox_twice.
    unfold set_mb_entry. cbn [mb_size mb_msg_pool mb_in_offset mb_out_offset mb_entry]. rewrite wrap_small by lia.
    rewrite wp_bind. apply wp_wake_first; [by apply ipc_inv_mailbox|done|done|]. intros. rewrite wp_ret. by apply HQ. }
  rewrite wp_bind. unfold next_offset in Hw. destruct (Z.leb_spec (mb_size m) (mb_out_offset m + 1)); cbn [when].
  - eapply wp_upd_mb; [apply set_mailbox_lookup|]. by rewrite set_mailbox_twice.
  - rewrite wp_ret. exact Hw.
Qed.

(** The wait of a turn, its reset of the error included. *)
Lemma wp_mb_wait {A} tt mb h x m c th timeout (Q : outcome (Z * Z) A -> kstate -> Prop) s :
  ipc_inv s -> clock_ok s -> wait_head h -> runs c th s -> mb_live mb x m s -> timeout < half ->
  (forall s', blocked h c (no_error th) (o_flag x) timeout s s' ->
     Q (Waiting c (timeout, if 0 <? timeout then k_tick s else 0)) s') ->
  wp ('(t, tick_delta) ← mb_wait tt mb h (Some c) timeout; mret (Waiting t (timeout, tick_delta)))
    Q (set_k_threads <[c := no_error th]> s).
Proof.
  intros Hi Hcl Hh Hr (Hx & _ & Hf & _) Htime HQ. pose proof Hr as (Hc & _ & _ & Hn).
  rewrite wp_bind. unfold mb_wait. rewrite wp_bind. eapply wp_deref; [done|]. cbn beta.
  rewrite wp_bind. apply wp_in_thread_context; [by exists c|done|].
  eapply wp_wait_on; [done|done|done|done|done|done|done|]. intros s' Hb. rewrite wp_ret. by apply HQ.
Qed.

(** One turn of a send: what is done when there is room, when there is none and no time,
    and the wait. *)
Definition send_post (mb : positive) (x : rt_object) (m : rt_mailbox) (c : tid) (th : rt_thread)
    (v timeout : Z) (r : outcome (Z * Z) Z) (s s' : kstate) : Prop :=
  if mb_entry m <? mb_size m then
    r = Returned RT_EOK /\ served mb (deposit v m) (LSuspend (OMailBox mb)) s s'
  else if timeout =? 0 then
    r = Returned (- RT_EFULL) /\ (s' = s \/ s' = set_k_threads <[c := no_error th]> s)
  else r = Waiting c (timeout, if 0 <? timeout then k_tick s else 0) /\
    blocked (LSender (OMailBox mb)) c (no_error th) (o_flag x) timeout s s'.

Lemma wp_mb_send_turn tt mb x m c th v timeout s :
  ipc_inv s -> clock_ok s -> mb_live mb x m s -> runs c th s -> timeout < half ->
  wp (mb_send_turn tt mb (Some c) v timeout) (fun r s' => ipc_inv s' /\ send_post mb x m c th v timeout r s s') s.
Proof.
  intros Hi Hcl Hl Hr Ht. pose proof Hl as (_ & _ & _ & Hm & Hok). pose proof (mo_entry _ Hok).
  pose proof Hr as (Hc & Hth & Hs & _). unfold mb_send_turn, send_post. rewrite wp_bind. eapply wp_get_mb; [done|].
  destruct (Z.eqb_spec (mb_entry m) (mb_size m)) as [E|E], (Z.ltb_spec (mb_entry m) (mb_size m)) as [L|L]; try lia.
  - rewrite wp_bind. eapply wp_deref; [done|]. cbn beta. rewrite wp_bind. eapply wp_upd_thread; [done|]. fold (no_error th).
    destruct (Z.eqb_spec timeout 0).
    + rewrite wp_ret. split; [by apply ipc_inv_upd_error|]. split; [done|by right].
    + eapply wp_mb_wait; try done. intros s' Hb. split; [apply Hb|done].
  - rewrite wp_bind. eapply wp_mb_put; [done|by exists c|done|done|done|].
    intros s' Hi' Hsv. by rewrite wp_ret.
Qed.

Lemma wp_rt_mb_send_wait tt mb x m c th v timeout s :
  ipc_inv s -> clock_ok s -> mb_live mb x m s -> runs c th s -> timeout < half ->
  wp (rt_mb_send_wait tt mb v timeout) (fun r s' => ipc_inv s' /\ send_post mb x m c th v timeout r s s') s.
Proof.
  intros Hi Hcl Hl Hr Ht. pose proof Hl as (Hx & Hcx & _ & Hm & Hok). pose proof Hr as (Hc & _).
  unfold rt_mb_send_wait, rt_thread_self. rewrite wp_bind. eapply wp_is_class; [done|done|].
  rewrite wp_bind, wp_gets, wp_bind. eapply wp_get_mb; [done|]. rewrite Hc.
  destruct (Z.eqb_spec (mb_entry m) (mb_size m)) as [E|E], (Z.eqb_spec timeout 0) as [E0|E0]; cbn [andb]; try by apply wp_mb_send_turn.
  rewrite wp_ret. split; [done|]. unfold send_post. rewrite (proj2 (Z.ltb_ge _ _)) by lia. subst timeout. split; [done|by left].
Qed.

(** One turn of a receive. *)
Definition recv_post (mb : positive) (x : rt_object) (m : rt_mailbox) (c : tid) (th : rt_thread)
    (timeout : Z) (r : outcome (Z * Z) (Z * option Z)) (s s' : kstate) : Prop :=
  match mails m with
  | v :: _ => r = Returned (RT_EOK, Some v) /\ served mb (collect m) (LSender (OMailBox mb)) s s'
  | [] =>
      if timeout =? 0 then
        r = Returned (- RT_ETIMEOUT, None) /\
        (s' = s \/ s' = set_k_threads <[c := set_th_error (fun _ => - RT_ETIMEOUT) (no_error th)]> s)
      else r = Waiting c (timeout, if 0 <? timeout then k_tick s else 0) /\
        blocked (LSuspend (OMailBox mb)) c (no_error th) (o_flag x) timeout s s'
  end.

Lemma mails_nil m : mb_ok m -> mails m = [] <-> mb_entry m = 0.
Proof.
  intros H. pose proof (mails_length m H) as Hl. split; [by intros E; rewrite E in Hl|].
  intros E. apply nil_length_inv. lia.
Qed.

Lemma wp_mb_recv_turn tt mb x m c th timeout s :
  ipc_inv s -> clock_ok s -> mb_live mb x m s -> runs c th s -> timeout < half ->
  wp (mb_recv_turn tt mb (Some c) timeout) (fun r s' => ipc_inv s' /\ recv_post mb x m c th timeout r s s') s.
Proof.
  intros Hi Hcl Hl Hr Ht. pose proof Hl as (_ & _ & _ & Hm & Hok). pose proof (mails_nil m Hok) as Hnil.
  pose proof Hr as (Hc & Hth & Hs & _). unfold mb_recv_turn, recv_post. rewrite wp_bind. eapply wp_get_mb; [done|].
  destruct (Z.eqb_spec (mb_entry m) 0) as [E|E].
  - rewrite (proj2 Hnil E). rewrite wp_bind. eapply wp_deref; [done|]. cbn beta. rewrite wp_bind.
    eapply wp_upd_thread; [done|]. fold (no_error th). destruct (Z.eqb_spec timeout 0).
    + rewrite wp_bind. eapply wp_upd_thread; [apply lookup_insert_eq|]. rewrite wp_ret.
      assert (Hs2 : forall th1 th2, set_k_threads <[c := th2]> (set_k_threads <[c := th1]> s) = set_k_threads <[c := th2]> s).
      { intros. unfold set_k_threads. cbn. by rewrite insert_insert_eq. }
      rewrite Hs2. split; [|split; [done|by right]]. change (no_error th) with (set_th_error (fun _ => RT_EOK) th).
      change (set_th_error (fun _ => - RT_ETIMEOUT) (set_th_error (fun _ => RT_EOK) th)) with (set_th_error (fun _ => - RT_ETIMEOUT) th).
      by apply ipc_inv_upd_error.
    + eapply wp_mb_wait; try done. intros s' Hb. split; [apply Hb|done].
  - destruct (mails m) as [|v q] eqn:Eq; [by destruct E; apply Hnil|].
    rewrite wp_bind. eapply wp_mb_get; [done|by exists c|done|done|done|].
    intros s' Hi' Hsv. by rewrite wp_ret.
Qed.

Lemma wp_rt_mb_recv tt mb x m c th timeout s :
  ipc_inv s -> clock_ok s -> mb_live mb x m s -> runs c th s -> timeout < half ->
  wp (rt_mb_recv tt mb timeout) (fun r s' => ipc_inv s' /\ recv_post mb x m c th timeout r s s') s.
Proof.
  intros Hi Hcl Hl Hr Ht. pose proof Hl as (Hx & Hcx & _ & Hm & Hok). pose proof Hr as (Hc & _).
  unfold rt_mb_recv, rt_thread_self. rewrite wp_bind. eapply wp_is_class; [done|done|].
  rewrite wp_bind, wp_gets, wp_bind. eapply wp_get_mb; [done|]. rewrite Hc.
  destruct (Z.eqb_spec (mb_entry m) 0) as [E|E], (Z.eqb_spec timeout 0) as [E0|E0]; cbn [andb]; try by apply wp_mb_recv_turn.
  rewrite wp_ret. split; [done|]. unfold recv_post. rewrite (proj2 (mails_nil m Hok) E). subst timeout. split; [done|by left].
Qed.

(** Sending on every branch: with room the mail goes to the end of the queue and the first
    waiting receiver is woken; without it the call gives -RT_EFULL, or sleeps among the
    senders. *)
Theorem rt_mb_send_wait_spec tt mb x m c th v timeout s :
  ipc_inv s -> clock_ok s -> mb_live mb x m s -> runs c th s -> timeout < half ->
  wp (rt_mb_send_wait tt mb v timeout) (fun r s' => ipc_inv s' /\
    if mb_entry m <? mb_size m then
      r = Returned RT_EOK /\ mails (deposit v m) = mails m ++ [v] /\
      served mb (deposit v m) (LSuspend (OMailBox mb)) s s'
    else if timeout =? 0 then
      r = Returned (- RT_EFULL) /\ (s' = s \/ s' = set_k_threads <[c := no_error th]> s)
    else r = Waiting c (timeout, if 0 <? timeout then k_tick s else 0) /\
      blocked (LSender (OMailBox mb)) c (no_error th) (o_flag x) timeout s s') s.
Proof.
  intros Hi Hcl Hl Hr Ht. eapply wp_mono, wp_rt_mb_send_wait; try done. intros r s' [Hi' Hp]. split; [done|].
  unfold send_post in Hp. destruct (Z.ltb_spec (mb_entry m) (mb_size m)); [|done].
  destruct Hp. split; [done|]. split; [|done]. apply deposit_ok; [apply Hl|done].
Qed.

(** Receiving on every branch: the oldest mail, and the first waiting sender is woken; or,
    with no mail, -RT_ETIMEOUT, or sleep among the receivers. *)
Theorem rt_mb_recv_spec tt mb x m c th timeout s :
  ipc_inv s -> clock_ok s -> mb_live mb x m s -> runs c th s -> timeout < half ->
  wp (rt_mb_recv tt mb timeout) (fun r s' => ipc_inv s' /\
    match mails m with
    | v :: q => r = Returned (RT_EOK, Some v) /\ mails (collect m) = q /\
        served mb (collect m) (LSender (OMailBox mb)) s s'
    | [] =>
      if timeout =? 0 then
        r = Returned (- RT_ETIMEOUT, None) /\
        (s' = s \/ s' = set_k_threads <[c := set_th_error (fun _ => - RT_ETIMEOUT) (no_error th)]> s)
      else r = Waiting c (timeout, if 0 <? timeout then k_tick s else 0) /\
        blocked (LSuspend (OMailBox mb)) c (no_error th) (o_flag x) timeout s s'
    end) s.
Proof.
  intros Hi Hcl Hl Hr Ht. eapply wp_mono, wp_rt_mb_recv; try done. intros r s' [Hi' Hp]. split; [done|].
  unfold recv_post in Hp. destruct (mails m) as [|v q] eqn:E; [done|]. destruct Hp. split; [done|]. split; [|done].
  apply (collect_ok m v q); [apply Hl|done].
Qed.

(** ** Refinement: a bounded queue of mails *)

(** The mails, the threads waiting for one and the threads waiting for room. *)
Record mb_abs := MbAbs { ma_mails : list Z; ma_receivers : list tid; ma_senders : list tid }.

Inductive mb_label :=
  | MSend (v : Z) (r : outcome (Z * Z) Z)
  | MRecv (r : outcome (Z * Z) (Z * option Z))
  | MGiveUp
  | MTimeout (t : tid)
  | MEnv.

Inductive mb_spec (size : Z) : mb_abs -> mb_label -> mb_abs -> Prop :=
  | ms_send q rs ss v : Z.of_nat (length q) < size ->
      mb_spec size (MbAbs q rs ss) (MSend v (Returned RT_EOK)) (MbAbs (q ++ [v]) (tail rs) ss)
  | ms_full q rs ss v : Z.of_nat (length q) = size ->
      mb_spec size (MbAbs q rs ss) (MSend v (Returned (- RT_EFULL))) (MbAbs q rs ss)
  | ms_sleep q rs ss v c l : Z.of_nat (length q) = size -> c ∉ ss ->
      mb_spec size (MbAbs q rs ss) (MSend v (Waiting c l)) (MbAbs q rs (ss ++ [c]))
  | ms_recv q rs ss v : mb_spec size (MbAbs (v :: q) rs ss) (MRecv (Returned (RT_EOK, Some v))) (MbAbs q rs (tail ss))
  | ms_empty rs ss : mb_spec size (MbAbs [] rs ss) (MRecv (Returned (- RT_ETIMEOUT, None))) (MbAbs [] rs ss)
  | ms_wait rs ss c l : c ∉ rs -> mb_spec size (MbAbs [] rs ss) (MRecv (Waiting c l)) (MbAbs [] (rs ++ [c]) ss)
  | ms_giveup a : mb_spec size a MGiveUp a
  | ms_timeout_recv q r1 t r2 ss : mb_spec size (MbAbs q (r1 ++ t :: r2) ss) (MTimeout t) (MbAbs q (r1 ++ r2) ss)
  | ms_timeout_send q rs s1 t s2 : mb_spec size (MbAbs q rs (s1 ++ t :: s2)) (MTimeout t) (MbAbs q rs (s1 ++ s2))
  | ms_env a : mb_spec size a MEnv a.

Definition mailbox_at (mb : positive) (s : kstate) : rt_mailbox := default (mkMailbox [] 0 0 0 0) (k_mailboxes s !! mb).
Definition mb_of (mb : positive) (s : kstate) : mb_abs :=
  MbAbs (mails (mailbox_at mb s)) (k_tlist s (LSuspend (OMailBox mb))) (k_tlist s (LSender (OMailBox mb))).

(** A live mailbox of [size] words whose queues are in order of arrival. *)
Record mb_state_ok (size : Z) (mb : positive) (s : kstate) : Prop := {
  mk_inv : ipc_inv s;
  mk_clock : clock_ok s;
  mk_live : exists x m, mb_live mb x m s /\ o_flag x = RT_IPC_FLAG_FIFO /\ mb_size m = size;
  mk_current : is_Some (k_current s)
}.

(** A call by the running thread, the rest of one that has slept (and was woken within
    half the range of the tick), the timeout of a waiting
    thread, or anything else the kernel does that leaves this mailbox as it is. *)
Inductive mb_step (timer_thread : tid) (size : Z) (mb : positive) : kstate -> mb_label -> kstate -> Prop :=
  | mt_send c th v timeout r s s' : runs c th s -> timeout < half ->
      rt_mb_send_wait timer_thread mb v timeout s = Some (r, s') -> mb_step timer_thread size mb s (MSend v r) s'
  | mt_send_resumed c th v l r s s' : runs c th s -> th_error th = RT_EOK -> l.1 < half -> u32 (k_tick s - l.2) <= half ->
      rt_mb_send_resumed timer_thread mb c v l s = Some (r, s') -> mb_step timer_thread size mb s (MSend v r) s'
  | mt_recv c th timeout r s s' : runs c th s -> timeout < half ->
      rt_mb_recv timer_thread mb timeout s = Some (r, s') -> mb_step timer_thread size mb s (MRecv r) s'
  | mt_recv_resumed c th l r s s' : runs c th s -> th_error th = RT_EOK -> l.1 < half -> u32 (k_tick s - l.2) <= half ->
      rt_mb_recv_resumed timer_thread mb c l s = Some (r, s') -> mb_step timer_thread size mb s (MRecv r) s'
  | mt_send_giveup c th v l r s s' : runs c th s -> th_error th ≠ RT_EOK ->
      rt_mb_send_resumed timer_thread mb c v l s = Some (r, s') -> mb_step timer_thread size mb s MGiveUp s'
  | mt_recv_giveup c th l r s s' : runs c th s -> th_error th ≠ RT_EOK ->
      rt_mb_recv_resumed timer_thread mb c l s = Some (r, s') -> mb_step timer_thread size mb s MGiveUp s'
  | mt_timeout t h s s' : h = LSuspend (OMailBox mb) \/ h = LSender (OMailBox mb) -> t ∈ k_tlist s h ->
      (forall r, r = TLHard \/ r = TLSoft -> TThread t ∉ k_trow s r) ->
      rt_thread_timeout t s = Some (tt, s') -> mb_step timer_thread size mb s (MTimeout t) s'
  | mt_env s s' : mb_state_ok size mb s' -> mb_of mb s' = mb_of mb s -> mb_step timer_thread size mb s MEnv s'.

Lemma mb_of_live mb x m s : mb_live mb x m s ->
  mb_of mb s = MbAbs (mails m) (k_tlist s (LSuspend (OMailBox mb))) (k_tlist s (LSender (OMailBox mb))).
Proof. intros (_ & _ & _ & Hm & _). unfold mb_of, mailbox_at. by rewrite Hm. Qed.

Lemma mb_live_objects mb x m s s' : objects s' = objects s -> mb_live mb x m s -> mb_live mb x m s'.
Proof.
  intros E (Hx & Hc & Hf & Hv & Hr). split; [by eapply objects_obj|]. by rewrite (objects_mailboxes _ _ E).
Qed.
Lemma mb_live_set mb x m m' s : mb_live mb x m s -> mb_ok m' -> mb_live mb x m' (set_mailbox mb m' s).
Proof. intros (Hx & Hc & Hf & Hv & Hr) Hw. repeat (split; [done|]). split; [apply set_mailbox_lookup|done]. Qed.

(** What keeps the mailbox's state in order. *)
Lemma mb_state_ok_change size mb x m s s' :
  mb_state_ok size mb s -> ipc_inv s' -> (pending s -> pending s') -> k_tick s' = k_tick s -> is_Some (k_current s') ->
  mb_live mb x m s' -> o_flag x = RT_IPC_FLAG_FIFO -> mb_size m = size -> mb_state_ok size mb s'.
Proof. intros [_ [Hp Ht] _ _] Hi Hp' Et Hc Hl Hf Hs. split; [done|split; [by apply Hp'|by rewrite Et]|by exists x, m|done]. Qed.

(** The first thread of a queue leaves it. *)
Lemma served_simulates size mb x m m' h s s' :
  mb_state_ok size mb s -> mb_live mb x m s -> o_flag x = RT_IPC_FLAG_FIFO -> mb_ok m' -> mb_size m' = size ->
  wait_head h -> ipc_inv s' -> served mb m' h s s' ->
  mb_live mb x m' s' /\ mb_state_ok size mb s' /\ k_tlist s' h = tail (k_tlist s h) /\
  forall h', wait_head h' -> h' ≠ h -> k_tlist s' h' = k_tlist s h'.
Proof.
  intros Hok Hl Hf Hm' Hs Hh Hi' Hsv. pose proof (mk_inv _ _ _ Hok) as Hi.
  destruct (roused_rest _ _ _ Hsv) as (E1 & E2 & E3 & E4).
  assert (Hl' : mb_live mb x m' s') by (by eapply mb_live_objects, mb_live_set).
  split; [done|]. split; [|apply (roused_queues h (set_mailbox mb m' s) s'); [by apply ipc_inv_mailbox|done|done]].
  eapply mb_state_ok_change; [done|done| |exact E2|apply E4, Hok|done|done|done].
  intros Hp. apply E3. by eapply pending_ext; [..|exact Hp].
Qed.

Lemma slept_simulates size mb x m c th timeout h s s' :
  mb_state_ok size mb s -> mb_live mb x m s -> o_flag x = RT_IPC_FLAG_FIFO -> mb_size m = size ->
  runs c th s -> blocked h c (no_error th) (o_flag x) timeout s s' ->
  mb_live mb x m s' /\ mb_state_ok size mb s' /\ k_tlist s' h = k_tlist s h ++ [c] /\ c ∉ k_tlist s h.
Proof.
  intros Hok Hl Hf Hs (Hc & Ht & Hst & _) Hb.
  assert (Hl' : mb_live mb x m s') by (by eapply mb_live_objects; [apply Hb|]).
  split; [done|]. split.
  - eapply mb_state_ok_change; [done|apply Hb|intros _; apply Hb|apply Hb|apply Hb|done|done|done].
  - destruct (bl_queue _ _ _ _ _ _ _ Hb) as (l1 & l2 & E1 & -> & Hq). rewrite Hf in Hq. cbn in Hq. subst l2.
    rewrite app_nil_r in E1. rewrite E1. split; [done|]. rewrite <- E1. by eapply running_unlinked; [apply Hok|..].
Qed.

(** A failed call changes at most the error of the calling thread. *)
Lemma refused_simulates size mb c th e s s' :
  mb_state_ok size mb s -> runs c th s -> ipc_inv s' -> s' = s \/ s' = set_k_threads <[c := set_th_error (fun _ => e) th]> s ->
  mb_of mb s' = mb_of mb s /\ mb_state_ok size mb s'.
Proof.
  intros Hok (Hc & _) Hi' [-> | ->]; [done|]. split; [done|]. pose proof Hok as [_ _ (x & m & Hl & Hf & Hs) _].
  eapply (mb_state_ok_change size mb x m s); [done|done|by apply pending_ext|done|by exists c|exact Hl|done|done].
Qed.

Lemma send_simulates size mb x m c th v timeout r s s' :
  mb_state_ok size mb s -> mb_live mb x m s -> o_flag x = RT_IPC_FLAG_FIFO -> mb_size m = size -> runs c th s ->
  ipc_inv s' -> send_post mb x m c th v timeout r s s' ->
  mb_spec size (mb_of mb s) (MSend v r) (mb_of mb s') /\ mb_state_ok size mb s'.
Proof.
  intros Hok Hl Hf Hs Hr Hi' Hp. pose proof Hl as (_ & _ & _ & _ & Hm). pose proof (mails_length m Hm) as Hlen.
  pose proof (mo_entry _ Hm). unfold send_post in Hp.
  destruct (Z.ltb_spec (mb_entry m) (mb_size m)); [|destruct (Z.eqb_spec timeout 0)].
  - destruct Hp as [-> Hsv]. destruct (deposit_ok v m Hm) as [Hm' Eq]; [done|].
    destruct (served_simulates size mb x m (deposit v m) (LSuspend (OMailBox mb)) s s' Hok Hl Hf Hm' Hs I Hi' Hsv) as (Hl' & Hok' & E1 & E2).
    split; [|done]. rewrite (mb_of_live _ _ _ _ Hl), (mb_of_live _ _ _ _ Hl'), E1, E2, Eq by done. constructor. lia.
  - destruct Hp as [-> Hs']. destruct (refused_simulates size mb c th RT_EOK s s' Hok Hr Hi' Hs') as [-> Hok']. split; [|done].
    rewrite (mb_of_live _ _ _ _ Hl). constructor. lia.
  - destruct Hp as [-> Hb]. destruct (slept_simulates size mb x m c th timeout _ s s' Hok Hl Hf Hs Hr Hb) as (Hl' & Hok' & E1 & Hn).
    split; [|done]. rewrite (mb_of_live _ _ _ _ Hl), (mb_of_live _ _ _ _ Hl'), E1, (bl_queues _ _ _ _ _ _ _ Hb) by done.
    constructor; [lia|done].
Qed.

Lemma recv_simulates size mb x m c th timeout r s s' :
  mb_state_ok size mb s -> mb_live mb x m s -> o_flag x = RT_IPC_FLAG_FIFO -> mb_size m = size -> runs c th s ->
  ipc_inv s' -> recv_post mb x m c th timeout r s s' ->
  mb_spec size (mb_of mb s) (MRecv r) (mb_of mb s') /\ mb_state_ok size mb s'.
Proof.
  intros Hok Hl Hf Hs Hr Hi' Hp. pose proof Hl as (_ & _ & _ & _ & Hm). rewrite (mb_of_live _ _ _ _ Hl).
  unfold recv_post in Hp. destruct (mails m) as [|v q] eqn:Eq; [destruct (Z.eqb_spec timeout 0)|].
  - destruct Hp as [-> Hs']. destruct (refused_simulates size mb c th (- RT_ETIMEOUT) s s' Hok Hr Hi' Hs') as [E Hok']. split; [|done].
    rewrite E, (mb_of_live _ _ _ _ Hl), Eq. constructor.
  - destruct Hp as [-> Hb]. destruct (slept_simulates size mb x m c th timeout _ s s' Hok Hl Hf Hs Hr Hb) as (Hl' & Hok' & E1 & Hn).
    split; [|done]. rewrite (mb_of_live _ _ _ _ Hl'), E1, (bl_queues _ _ _ _ _ _ _ Hb), Eq by done. by constructor.
  - destruct Hp as [-> Hsv]. destruct (collect_ok m v q Hm Eq) as (_ & Hm' & Eq').
    destruct (served_simulates size mb x m (collect m) (LSender (OMailBox mb)) s s' Hok Hl Hf Hm' Hs I Hi' Hsv) as (Hl' & Hok' & E1 & E2).
    split; [|done]. rewrite (mb_of_live _ _ _ _ Hl'), E1, E2, Eq' by done. constructor.
Qed.

(** A timed-out thread leaves the queue it waits on. *)
Lemma timeout_simulates size mb t h s s' :
  mb_state_ok size mb s -> h = LSuspend (OMailBox mb) \/ h = LSender (OMailBox mb) -> t ∈ k_tlist s h ->
  (forall r, r = TLHard \/ r = TLSoft -> TThread t ∉ k_trow s r) -> rt_thread_timeout t s = Some (tt, s') ->
  mb_spec size (mb_of mb s) (MTimeout t) (mb_of mb s') /\ mb_state_ok size mb s'.
Proof.
  intros Hok Hh Hin Hoff E. pose proof Hok as [Hi _ (x & m & Hl & Hf & Hs) Hc].
  assert (Hwh : wait_head h) by (by destruct Hh as [-> | ->]).
  destruct (ii_wait _ Hi h t Hwh Hin) as (th & Ht & Hst).
  pose proof (wp_result _ _ _ _ _ (wp_timeout_ipc t th s Hi Hc Ht Hst Hoff) E) as Hw. cbn beta in Hw.
  assert (Hl' : mb_live mb x m s') by (by eapply mb_live_objects; [apply Hw|]).
  split.
  - apply list_elem_of_split in Hin as (q1 & q2 & Eq).
    destruct (woken_mid h t q1 q2 _ s s' Hi Hwh Eq Hw) as [E1 E2].
    rewrite (mb_of_live _ _ _ _ Hl), (mb_of_live _ _ _ _ Hl').
    destruct Hh as [-> | ->]; rewrite Eq, E1, E2 by done; constructor.
  - eapply mb_state_ok_change; [done|apply Hw|apply Hw|apply Hw|by apply Hw|done|done|done].
Qed.

Lemma mb_step_simulates tt size mb s l s' :
  mb_state_ok size mb s -> mb_step tt size mb s l s' -> mb_spec size (mb_of mb s) l (mb_of mb s') /\ mb_state_ok size mb s'.
Proof.
  intros Hok Hstep. pose proof Hok as [Hi Hcl (x & m & Hl & Hf & Hs) Hc].
  destruct Hstep as [c th v time r s s' Hr Ht E|c th v l r s s' Hr He Ht Htl E|c th time r s s' Hr Ht E
    |c th l r s s' Hr He Ht Htl E|c th v l r s s' Hr He E|c th l r s s' Hr He E|t h s s' Hh Hin Hoff E|s s' Hok' E].
  - destruct (wp_result _ _ _ _ _ (wp_rt_mb_send_wait tt mb x m c th v time s Hi Hcl Hl Hr Ht) E) as [Hi' Hp].
    by eapply send_simulates.
  - pose proof (time_left_range l.1 l.2 (k_tick s) Ht Htl) as Ht'.
    unfold rt_mb_send_resumed in E. destruct Hr as (Hc' & Hth & Hst). assert (Hr : runs c th s) by done.
    erewrite bind_some in E by (unfold get_thread, deref; by rewrite Hth). rewrite He in E.
    destruct (wp_result _ _ _ _ _ (wp_mb_send_turn tt mb x m c th v _ s Hi Hcl Hl Hr Ht') E) as [Hi' Hp].
    by eapply send_simulates.
  - destruct (wp_result _ _ _ _ _ (wp_rt_mb_recv tt mb x m c th time s Hi Hcl Hl Hr Ht) E) as [Hi' Hp].
    by eapply recv_simulates.
  - pose proof (time_left_range l.1 l.2 (k_tick s) Ht Htl) as Ht'.
    unfold rt_mb_recv_resumed in E. destruct Hr as (Hc' & Hth & Hst). assert (Hr : runs c th s) by done.
    erewrite bind_some in E by (unfold get_thread, deref; by rewrite Hth). rewrite He in E.
    destruct (wp_result _ _ _ _ _ (wp_mb_recv_turn tt mb x m c th _ s Hi Hcl Hl Hr Ht') E) as [Hi' Hp].
    by eapply recv_simulates.
  - destruct Hr as (_ & Hth & _). unfold rt_mb_send_resumed in E.
    erewrite bind_some in E by (unfold get_thread, deref; by rewrite Hth).
    rewrite (proj2 (Z.eqb_neq _ _) He) in E. injection E as _ <-. split; [constructor|done].
  - destruct Hr as (_ & Hth & _). unfold rt_mb_recv_resumed in E.
    erewrite bind_some in E by (unfold get_thread, deref; by rewrite Hth).
    rewrite (proj2 (Z.eqb_neq _ _) He) in E. injection E as _ <-. split; [constructor|done].
  - by eapply timeout_simulates.
  - rewrite E. split; [constructor|done].
Qed.

(** C9: Refinement: whatever the threads, the tick and the rest of the kernel do, the mails
    that are sent are received in the order they were sent, none twice and none lost; at
    most [size] are stored; and the waiting receivers and senders are served in the order
    they came. *)
Theorem mailbox_refines timer_thread size mb s tr s' :
  mb_state_ok size mb s -> steps (mb_step timer_thread size mb) s tr s' ->
  steps (mb_spec size) (mb_of mb s) tr (mb_of mb s') /\ mb_state_ok size mb s'.
Proof. apply simulation. intros. by eapply mb_step_simulates. Qed.

(** ** Witnesses: mailbox 1 holds one mail of at most two, mailbox 2 is full *)

Definition sample_mailboxes : kstate :=
  set_k_obj (fun m => <[OMailBox 1 := mkObject [] 0x85 0]> (<[OMailBox 2 := mkObject [] 0x85 0]> m))
  (set_k_mailboxes (fun _ => {[ 1%positive := mkMailbox [0; 7] 2 1 0 1; 2%positive := mkMailbox [8] 1 1 0 0 ]}) sample_timers).

Lemma sample_mailboxes_ipc : ipc_inv sample_mailboxes.
Proof. by apply sample_headers_ipc. Qed.
Lemma sample_mailboxes_clock : clock_ok sample_mailboxes.
Proof. split; [by eapply pending_ext; [..|apply sample_timers_pending]|done]. Qed.
Lemma sample_mailboxes_runs : runs 1 (sample_thread 11 10) sample_mailboxes.
Proof. done. Qed.
Lemma sample_mailbox1 : mb_live 1 (mkObject [] 0x85 0) (mkMailbox [0; 7] 2 1 0 1) sample_mailboxes.
Proof.
  repeat (split; [done|]). split; [by left|]. split; [done|]. constructor; try done. intros x.
  change (slot 2 x = slot 2 (2 + x)). rewrite <- (slot_over 2 x) by lia. f_equal. lia.
Qed.
Lemma sample_mailbox2 : mb_live 2 (mkObject [] 0x85 0) (mkMailbox [8] 1 1 0 0) sample_mailboxes.
Proof.
  repeat (split; [done|]). split; [by left|]. split; [done|]. constructor; try done. intros x.
  change (slot 1 x = slot 1 (1 + x)). rewrite <- (slot_over 1 x) by lia. f_equal. lia.
Qed.

Lemma rt_mb_send_wait_spec_witness :
  wp (rt_mb_send_wait 4 2 9 100) (fun r s' => ipc_inv s' /\ r = Waiting 1%positive (100, 50) /\
    blocked (LSender (OMailBox 2)) 1 (no_error (sample_thread 11 10)) 0 100 sample_mailboxes s') sample_mailboxes.
Proof.
  apply (rt_mb_send_wait_spec 4 2 (mkObject [] 0x85 0) (mkMailbox [8] 1 1 0 0) 1 (sample_thread 11 10) 9 100);
    [apply sample_mailboxes_ipc|apply sample_mailboxes_clock|apply sample_mailbox2|apply sample_mailboxes_runs|done].
Defined.

Lemma rt_mb_recv_spec_witness :
  wp (rt_mb_recv 4 1 0) (fun r s' => ipc_inv s' /\ r = Returned (RT_EOK, Some 7) /\
    mails (mkMailbox [0; 7] 2 0 0 0) = [] /\
    served 1 (mkMailbox [0; 7] 2 0 0 0) (LSender (OMailBox 1)) sample_mailboxes s') sample_mailboxes.
Proof.
  apply (rt_mb_recv_spec 4 1 (mkObject [] 0x85 0) (mkMailbox [0; 7] 2 1 0 1) 1 (sample_thread 11 10) 0);
    [apply sample_mailboxes_ipc|apply sample_mailboxes_clock|apply sample_mailbox1|apply sample_mailboxes_runs|done].
Defined.

Lemma mailbox_refines_witness : exists s', mb_state_ok 2 1 s' /\
  steps (mb_spec 2) (MbAbs [7] [] []) [MSend 9 (Returned RT_EOK)] (mb_of 1 s').
Proof.
  destruct (proj1 (wp_unfold _ _ _) (wp_rt_mb_send_wait 4 1 (mkObject [] 0x85 0) (mkMailbox [0; 7] 2 1 0 1) 1 (sample_thread 11 10) 9 100
    sample_mailboxes sample_mailboxes_ipc sample_mailboxes_clock sample_mailbox1 sample_mailboxes_runs eq_refl))
    as (r & s1 & E1 & Hi1 & -> & _).
  exists s1. destruct (mailbox_refines 4 2 1 sample_mailboxes [MSend 9 (Returned RT_EOK)] s1) as [H1 H2].
  - split; [apply sample_mailboxes_ipc|apply sample_mailboxes_clock| |by eexists].
    exists (mkObject [] 0x85 0), (mkMailbox [0; 7] 2 1 0 1). split; [apply sample_mailbox1|done].
  - eapply steps_cons; [|constructor].
    eapply (mt_send 4 2 1 1 (sample_thread 11 10) 9 100); [apply sample_mailboxes_runs|done|exact E1].
  - by split.
Defined.
