(* ===== verification/MsgQueue.v ===== *)
(** * MsgQueue: rt-thread/src/ipc.c, the message queues

    A queue of messages of at most a given size, kept in the nodes of a pool: a node is on
    the free list, in the queue, or held by a call in progress.  Sending and receiving
    enable interrupts while they copy a message, so a call is cut into the pieces between
    which other calls can come: taking a node ([..] up to the first unlock), copying, and
    linking it in or giving it back.  A call that waits ends in [Waiting] as in Ipc; one
    that goes on to the copy ends in [Returned (inr msg)] with its node. *)

From S2P Require Import Prelude RtList Kernel Scheduler Object TimerCore Thread Timer Ipc Wait Linked Extend.

#[local] Open Scope Z_scope.

(** struct rt_mq_message, with the bytes that follow it *)
Record rt_mq_message := mkMsg { msg_next : Z; msg_data : list Z }.
Definition sizeof_mq_message : Z := 4.

(** struct rt_messagequeue; [mq_nodes] is the memory of the pool by the addresses of its
    nodes *)
Record rt_messagequeue := mkMq {
  mq_nodes : gmap Z rt_mq_message;
  mq_msg_pool : Z;
  mq_msg_size : Z;
  mq_max_msgs : Z;
  mq_entry : Z;
  mq_queue_head : Z;
  mq_queue_tail : Z;
  mq_queue_free : Z
}.
Definition set_nodes (f : gmap Z rt_mq_message -> gmap Z rt_mq_message) (m : rt_messagequeue) : rt_messagequeue :=
  mkMq (f (mq_nodes m)) (mq_msg_pool m) (mq_msg_size m) (mq_max_msgs m) (mq_entry m) (mq_queue_head m) (mq_queue_tail m) (mq_queue_free m).
Definition set_entry (n : Z) (m : rt_messagequeue) : rt_messagequeue :=
  mkMq (mq_nodes m) (mq_msg_pool m) (mq_msg_size m) (mq_max_msgs m) n (mq_queue_head m) (mq_queue_tail m) (mq_queue_free m).
Definition set_queue_head (a : Z) (m : rt_messagequeue) : rt_messagequeue :=
  mkMq (mq_nodes m) (mq_msg_pool m) (mq_msg_size m) (mq_max_msgs m) (mq_entry m) a (mq_queue_tail m) (mq_queue_free m).
Definition set_queue_tail (a : Z) (m : rt_messagequeue) : rt_messagequeue :=
  mkMq (mq_nodes m) (mq_msg_pool m) (mq_msg_size m) (mq_max_msgs m) (mq_entry m) (mq_queue_head m) a (mq_queue_free m).
Definition set_queue_free (a : Z) (m : rt_messagequeue) : rt_messagequeue :=
  mkMq (mq_nodes m) (mq_msg_pool m) (mq_msg_size m) (mq_max_msgs m) (mq_entry m) (mq_queue_head m) (mq_queue_tail m) a.
Definition msg_set_next (a : Z) (x : rt_mq_message) : rt_mq_message := mkMsg a (msg_data x).
(** [rt_memcpy (msg + 1, buffer, size)], with the bytes [buffer] *)
Definition msg_write (buffer : list Z) (x : rt_mq_message) : rt_mq_message :=
  mkMsg (msg_next x) (buffer ++ drop (length buffer) (msg_data x)).

(** The kernel and the message queues. *)
Definition mstate : Type := ext (gmap positive rt_messagequeue).
Abbreviation Q := (M mstate).

Section mq.
(** The bytes [n] of the memory at [a], before it became a pool. *)
Context (timer_thread : tid) (raw : Z -> Z -> list Z).

Definition get_mq (mq : positive) : Q rt_messagequeue := deref (fun s => s.2 !! mq).
Definition upd_mq (mq : positive) (f : rt_messagequeue -> rt_messagequeue) : Q unit :=
  m ← get_mq mq; modify (set_own <[mq := f m]>).
Definition get_msg (mq : positive) (a : Z) : Q rt_mq_message :=
  m ← get_mq mq; deref (fun _ => mq_nodes m !! a).
Definition upd_msg (mq : positive) (a : Z) (f : rt_mq_message -> rt_mq_message) : Q unit :=
  x ← get_msg mq a; upd_mq mq (set_nodes <[a := f x]>).

(** The loop that threads the nodes onto the free list, from number [temp] on. *)
Fixpoint mq_free_loop (n : nat) (temp : Z) (m : rt_messagequeue) : rt_messagequeue :=
  match n with
  | O => m
  | S n =>
      let head := mq_msg_pool m + temp * (mq_msg_size m + sizeof_mq_message) in
      mq_free_loop n (temp + 1)
        (set_queue_free head
           (set_nodes <[head := mkMsg (mq_queue_free m) (raw (head + sizeof_mq_message) (mq_msg_size m))]> m))
  end.
Definition mq_pool_init (msgpool msg_size max_msgs : Z) : rt_messagequeue :=
  mq_free_loop (Z.to_nat max_msgs) 0 (mkMq ∅ msgpool msg_size max_msgs 0 0 0 0).

Definition rt_mq_init (mq : positive) (name : list Z) (msgpool msg_size pool_size flag : Z) : Q Z :=
  kcall (rt_object_init (OMq mq) RT_Object_Class_MessageQueue name) ;;
  kcall (upd_obj (OMq mq) (set_o_flag (fun _ => flag))) ;;
  kcall (rt_ipc_object_init (OMq mq)) ;;
  let msg_size := u16 (RT_ALIGN msg_size RT_ALIGN_SIZE) in
  let max_msgs := u16 (pool_size / (msg_size + sizeof_mq_message)) in
  modify (set_own <[mq := mq_pool_init msgpool msg_size max_msgs]>) ;;
  kcall (tlist_modify (list_init (LSender (OMq mq)))) ;;
  mret RT_EOK.

Definition rt_mq_detach (mq : positive) : Q Z :=
  kcall (is_class (OMq mq) RT_Object_Class_MessageQueue) ;;
  kcall (is_system (OMq mq) true) ;;
  kcall (rt_ipc_list_resume_all (LSuspend (OMq mq))) ;;
  kcall (rt_ipc_list_resume_all (LSender (OMq mq))) ;;
  kcall (rt_object_detach (OMq mq)) ;;
  mret RT_EOK.

(** [malloc] gives the control block, [pool_malloc] the address of the pool. *)
Definition rt_mq_create (malloc : option positive) (pool_malloc : Z -> option Z)
    (name : list Z) (msg_size max_msgs flag : Z) : Q (option positive) :=
  kcall not_in_interrupt ;;
  r ← kcall (rt_object_allocate (OMq <$> malloc) RT_Object_Class_MessageQueue name);
  match r, malloc with
  | Some _, Some mq =>
      kcall (upd_obj (OMq mq) (set_o_flag (fun _ => flag))) ;;
      kcall (rt_ipc_object_init (OMq mq)) ;;
      let msg_size := u16 (RT_ALIGN msg_size RT_ALIGN_SIZE) in
      let max_msgs := u16 max_msgs in
      match pool_malloc (u32 ((msg_size + sizeof_mq_message) * max_msgs)) with
      | None => kcall (rt_object_delete (OMq mq)) ;; mret None
      | Some msgpool =>
          modify (set_own <[mq := mq_pool_init msgpool msg_size max_msgs]>) ;;
          kcall (tlist_modify (list_init (LSender (OMq mq)))) ;;
          mret (Some mq)
      end
  | _, _ => mret None
  end.

Definition rt_mq_delete (mq : positive) : Q Z :=
  kcall not_in_interrupt ;;
  kcall (is_class (OMq mq) RT_Object_Class_MessageQueue) ;;
  kcall (is_system (OMq mq) false) ;;
  kcall (rt_ipc_list_resume_all (LSuspend (OMq mq))) ;;
  kcall (rt_ipc_list_resume_all (LSender (OMq mq))) ;;
  kcall (rt_object_delete (OMq mq)) ;;
  modify (set_own (delete mq)) ;;
  mret RT_EOK.

(** *** Sending *)

(** Taking a node off the free list. *)
Definition mq_claim (mq : positive) : Q Z :=
  m ← get_mq mq;
  x ← get_msg mq (mq_queue_free m);
  upd_mq mq (set_queue_free (msg_next x)) ;;
  mret (mq_queue_free m).

(** From the test of the loop to the first unlock. *)
Definition mq_send_turn (mq : positive) (thread : option tid) (timeout : Z) : Q (outcome (Z * Z) (Z + Z)) :=
  m ← get_mq mq;
  if mq_queue_free m =? 0 then
    t ← deref (fun _ => thread);
    kcall (upd_thread t (set_th_error (fun _ => RT_EOK))) ;;
    if timeout =? 0 then mret (Returned (inl (- RT_EFULL)))
    else
      kcall in_thread_context ;;
      '(t, tick_delta) ← kcall (wait_on timer_thread (OMq mq) (LSender (OMq mq)) t timeout);
      mret (Waiting t (timeout, tick_delta))
  else msg ← mq_claim mq; mret (Returned (inr msg)).

Definition rt_mq_send_wait (mq : positive) (size timeout : Z) : Q (outcome (Z * Z) (Z + Z)) :=
  kcall (is_class (OMq mq) RT_Object_Class_MessageQueue) ;;
  rt_assert (negb (size =? 0)) ;;
  m ← get_mq mq;
  if mq_msg_size m <? size then mret (Returned (inl (- RT_ERROR)))
  else
    thread ← kcall rt_thread_self;
    if (mq_queue_free m =? 0) && (timeout =? 0) then mret (Returned (inl (- RT_EFULL)))
    else mq_send_turn mq thread timeout.
Definition rt_mq_send_resumed (mq : positive) (thread : tid) (locals : Z * Z) : Q (outcome (Z * Z) (Z + Z)) :=
  th ← kcall (get_thread thread);
  if negb (th_error th =? RT_EOK) then mret (Returned (inl (th_error th)))
  else
    tick ← kcall rt_tick_get;
    mq_send_turn mq (Some thread) (time_left locals.1 locals.2 tick).

Definition rt_mq_send (mq : positive) (size : Z) : Q (outcome (Z * Z) (Z + Z)) := rt_mq_send_wait mq size 0.

Definition rt_mq_urgent (mq : positive) (size : Z) : Q (Z + Z) :=
  kcall (is_class (OMq mq) RT_Object_Class_MessageQueue) ;;
  rt_assert (negb (size =? 0)) ;;
  m ← get_mq mq;
  if mq_msg_size m <? size then mret (inl (- RT_ERROR))
  else if mq_queue_free m =? 0 then mret (inl (- RT_EFULL))
  else msg ← mq_claim mq; mret (inr msg).

(** Between the locks; an urgent message gets its link later. *)
Definition mq_copy_in (urgent : bool) (mq : positive) (msg : Z) (buffer : list Z) : Q unit :=
  when (negb urgent) (upd_msg mq msg (msg_set_next 0)) ;;
  upd_msg mq msg (msg_write buffer).

(** Counting the new message and waking a receiver, the end of both sending calls. *)
Definition mq_posted (mq : positive) : Q Z :=
  m ← get_mq mq;
  if mq_entry m <? RT_MQ_ENTRY_MAX then
    upd_mq mq (set_entry (u16 (mq_entry m + 1))) ;;
    kcall (wake_first (LSuspend (OMq mq))) ;;
    mret RT_EOK
  else mret (- RT_EFULL).

(** The second lock of [rt_mq_send_wait], to its end. *)
Definition mq_append (mq : positive) (msg : Z) : Q Z :=
  m ← get_mq mq;
  when (negb (mq_queue_tail m =? 0)) (upd_msg mq (mq_queue_tail m) (msg_set_next msg)) ;;
  upd_mq mq (set_queue_tail msg) ;;
  m ← get_mq mq;
  when (mq_queue_head m =? 0) (upd_mq mq (set_queue_head msg)) ;;
  mq_posted mq.

(** The second lock of [rt_mq_urgent], to its end. *)
Definition mq_prepend (mq : positive) (msg : Z) : Q Z :=
  m ← get_mq mq;
  upd_msg mq msg (msg_set_next (mq_queue_head m)) ;;
  upd_mq mq (set_queue_head msg) ;;
  m ← get_mq mq;
  when (mq_queue_tail m =? 0) (upd_mq mq (set_queue_tail msg)) ;;
  mq_posted mq.

Definition mq_link (urgent : bool) (mq : positive) (msg : Z) : Q Z :=
  if urgent then mq_prepend mq msg else mq_append mq msg.

(** *** Receiving *)

(** Taking the first message out of the queue. *)
Definition mq_unlink (mq : positive) : Q Z :=
  m ← get_mq mq;
  let msg := mq_queue_head m in
  x ← get_msg mq msg;
  upd_mq mq (set_queue_head (msg_next x)) ;;
  when (mq_queue_tail m =? msg) (upd_mq mq (set_queue_tail 0)) ;;
  when (0 <? mq_entry m) (upd_mq mq (set_entry (u16 (mq_entry m - 1)))) ;;
  mret msg.

Definition mq_recv_turn (mq : positive) (thread : option tid) (timeout : Z) : Q (outcome (Z * Z) (Z + Z)) :=
  m ← get_mq mq;
  if mq_entry m =? 0 then
    kcall in_thread_context ;;
    t ← deref (fun _ => thread);
    kcall (upd_thread t (set_th_error (fun _ => RT_EOK))) ;;
    if timeout =? 0 then
      kcall (upd_thread t (set_th_error (fun _ => - RT_ETIMEOUT))) ;;
      mret (Returned (inl (- RT_ETIMEOUT)))
    else
      '(t, tick_delta) ← kcall (wait_on timer_thread (OMq mq) (LSuspend (OMq mq)) t timeout);
      mret (Waiting t (timeout, tick_delta))
  else msg ← mq_unlink mq; mret (Returned (inr msg)).

Definition rt_mq_recv (mq : positive) (size timeout : Z) : Q (outcome (Z * Z) (Z + Z)) :=
  kcall (is_class (OMq mq) RT_Object_Class_MessageQueue) ;;
  rt_assert (negb (size =? 0)) ;;
  thread ← kcall rt_thread_self;
  m ← get_mq mq;
  if (mq_entry m =? 0) && (timeout =? 0) then mret (Returned (inl (- RT_ETIMEOUT)))
  else mq_recv_turn mq thread timeout.
Definition rt_mq_recv_resumed (mq : positive) (thread : tid) (locals : Z * Z) : Q (outcome (Z * Z) (Z + Z)) :=
  th ← kcall (get_thread thread);
  if negb (th_error th =? RT_EOK) then mret (Returned (inl (th_error th)))
  else
    tick ← kcall rt_tick_get;
    mq_recv_turn mq (Some thread) (time_left locals.1 locals.2 tick).

(** The bytes stored in the buffer of the caller. *)
Definition mq_copy_out (mq : positive) (msg size : Z) : Q (list Z) :=
  m ← get_mq mq;
  x ← get_msg mq msg;
  mret (take (Z.to_nat (if mq_msg_size m <? size then mq_msg_size m else size)) (msg_data x)).

(** The second lock of [rt_mq_recv], to its end. *)
Definition mq_release (mq : positive) (msg : Z) : Q Z :=
  m ← get_mq mq;
  upd_msg mq msg (msg_set_next (mq_queue_free m)) ;;
  upd_mq mq (set_queue_free msg) ;;
  kcall (wake_first (LSender (OMq mq))) ;;
  mret RT_EOK.

(** The loop that moves the messages to the free list; the queue has at most [max_msgs]
    of them. *)
Fixpoint mq_drain (fuel : nat) (mq : positive) : Q unit :=
  m ← get_mq mq;
  if mq_queue_head m =? 0 then mret tt
  else match fuel with
       | O => fault
       | S fuel =>
           let msg := mq_queue_head m in
           x ← get_msg mq msg;
           upd_mq mq (set_queue_head (msg_next x)) ;;
           when (mq_queue_tail m =? msg) (upd_mq mq (set_queue_tail 0)) ;;
           upd_msg mq msg (msg_set_next (mq_queue_free m)) ;;
           upd_mq mq (set_queue_free msg) ;;
           mq_drain fuel mq
       end.

Definition rt_mq_control (mq : positive) (cmd : Z) : Q Z :=
  kcall (is_class (OMq mq) RT_Object_Class_MessageQueue) ;;
  if cmd =? RT_IPC_CMD_RESET then
    kcall (rt_ipc_list_resume_all (LSuspend (OMq mq))) ;;
    kcall (rt_ipc_list_resume_all (LSender (OMq mq))) ;;
    m ← get_mq mq;
    mq_drain (Z.to_nat (mq_max_msgs m)) mq ;;
    upd_mq mq (set_entry 0) ;;
    kcall rt_schedule ;;
    mret RT_EOK
  else mret (- RT_ERROR).
End mq.

(** ** The nodes *)

Definition next_of (m : rt_messagequeue) (a : Z) : option Z := msg_next <$> mq_nodes m !! a.
Definition content (m : rt_messagequeue) (a : Z) : list Z := default [] (msg_data <$> mq_nodes m !! a).

(** Every node of the pool is free, in the queue, or held by a call. *)
Record mq_ok (m : rt_messagequeue) (free queue held : list Z) : Prop := {
  qo_size : 0 <= mq_msg_size m < 2 ^ 16;
  qo_max : mq_max_msgs m <= RT_MQ_ENTRY_MAX;
  qo_count : Z.of_nat (length (free ++ queue ++ held)) = mq_max_msgs m;
  qo_free : linked (next_of m) (mq_queue_free m) free;
  qo_queue : linked (next_of m) (mq_queue_head m) queue;
  qo_tail : mq_queue_tail m = default 0 (last queue);
  qo_entry : mq_entry m = Z.of_nat (length queue);
  qo_nodup : NoDup (free ++ queue ++ held);
  qo_nodes : forall a, a ∈ free ++ queue ++ held -> a ≠ 0 /\ is_Some (mq_nodes m !! a) /\
    Z.of_nat (length (content m a)) = mq_msg_size m
}.

Definition relink (a b : Z) (m : rt_messagequeue) : rt_messagequeue := set_nodes (alter (msg_set_next b) a) m.
Definition fill (a : Z) (buffer : list Z) (m : rt_messagequeue) : rt_messagequeue := set_nodes (alter (msg_write buffer) a) m.

Lemma next_relink a b c m : is_Some (mq_nodes m !! a) -> next_of (relink a b m) c = if bool_decide (c = a) then Some b else next_of m c.
Proof.
  intros [x Hx]. unfold next_of, relink. cbn. case_bool_decide as E; [subst c|].
  - by rewrite lookup_alter_eq, Hx.
  - by rewrite lookup_alter_ne by done.
Qed.
Lemma content_relink a b c m : content (relink a b m) c = content m c.
Proof.
  unfold content, relink. cbn. destruct (decide (c = a)) as [->|Hne]; [|by rewrite lookup_alter_ne by done].
  rewrite lookup_alter_eq. by destruct (mq_nodes m !! a).
Qed.
Lemma next_fill a buf c m : next_of (fill a buf m) c = next_of m c.
Proof.
  unfold next_of, fill. cbn. destruct (decide (c = a)) as [->|Hne]; [|by rewrite lookup_alter_ne by done].
  rewrite lookup_alter_eq. by destruct (mq_nodes m !! a).
Qed.
Lemma content_fill a buf c m : is_Some (mq_nodes m !! a) ->
  content (fill a buf m) c = if bool_decide (c = a) then buf ++ drop (length buf) (content m a) else content m c.
Proof.
  intros [x Hx]. unfold content, fill. cbn. case_bool_decide as E; [subst c|].
  - by rewrite lookup_alter_eq, Hx.
  - by rewrite lookup_alter_ne by done.
Qed.
Lemma nodes_alter {f : rt_mq_message -> rt_mq_message} {a c m} :
  is_Some (mq_nodes m !! c) -> is_Some (alter f a (mq_nodes m) !! c).
Proof.
  intros [x Hx]. destruct (decide (c = a)) as [->|Hne]; [rewrite lookup_alter_eq, Hx|rewrite lookup_alter_ne, Hx by done]; by eexists.
Qed.

(** Which node a call holds does not depend on the order of the calls. *)
Lemma mq_ok_held m free queue held held' : held ≡ₚ held' -> mq_ok m free queue held -> mq_ok m free queue held'.
Proof.
  intros Hp []. split; try done.
  - by rewrite <- Hp.
  - by rewrite <- Hp.
  - intros a Ha. apply qo_nodes0. by rewrite Hp.
Qed.

(** *** What the pieces of the calls do to the nodes *)

Lemma claim_ok m a free queue held : mq_ok m (a :: free) queue held ->
  exists x, mq_nodes m !! a = Some x /\ mq_queue_free m = a /\ mq_ok (set_queue_free (msg_next x) m) free queue (held ++ [a]).
Proof.
  intros [H1 H2 H3 (Ea & Ha & b & Hb & Hl) H5 H6 H7 H8 H9]. unfold next_of in Hb.
  destruct (mq_nodes m !! a) as [x|] eqn:Ex; [|done]. injection Hb as <-. exists x. split; [done|]. split; [done|].
  assert (Hp : free ++ queue ++ held ++ [a] ≡ₚ (a :: free) ++ queue ++ held) by (cbn; rewrite !app_assoc; by rewrite <- Permutation_cons_append).
  split; try done; cbn [set_queue_free mq_msg_size mq_max_msgs].
  - by rewrite Hp.
  - by rewrite Hp.
  - intros c. rewrite Hp. apply H9.
Qed.

(** A held node may be written to. *)
Lemma held_relink_ok m a b free queue held : mq_ok m free queue held -> a ∈ held -> mq_ok (relink a b m) free queue held.
Proof.
  intros [H1 H2 H3 H4 H5 H6 H7 H8 H9] Ha. pose proof H8 as Hd. apply NoDup_app in Hd as (_ & Hd1 & Hd).
  apply NoDup_app in Hd as (_ & Hd2 & _).
  destruct (H9 a) as (_ & Hs & _); [clear -Ha; mem|]. split; try done.
  - eapply linked_ext; [|exact H4]. intros c Hc. rewrite next_relink by done. rewrite bool_decide_eq_false_2; [done|].
    intros ->. apply (Hd1 a Hc). clear -Ha. mem.
  - eapply linked_ext; [|exact H5]. intros c Hc. rewrite next_relink by done. rewrite bool_decide_eq_false_2; [done|].
    intros ->. by apply (Hd2 a Hc).
  - intros c Hc. destruct (H9 c Hc) as (? & ? & ?). split; [done|]. split; [by apply nodes_alter|]. by rewrite content_relink.
Qed.
Lemma held_fill_ok m a buf free queue held : mq_ok m free queue held -> a ∈ held ->
  Z.of_nat (length buf) <= mq_msg_size m -> mq_ok (fill a buf m) free queue held.
Proof.
  intros [H1 H2 H3 H4 H5 H6 H7 H8 H9] Ha Hb. destruct (H9 a) as (_ & Hs & Hl); [clear -Ha; mem|]. split; try done.
  - eapply linked_ext; [|exact H4]. intros c _. apply next_fill.
  - eapply linked_ext; [|exact H5]. intros c _. apply next_fill.
  - intros c Hc. destruct (H9 c Hc) as (? & ? & Hlc). split; [done|]. split; [by apply nodes_alter|].
    rewrite content_fill by done. case_bool_decide; [|done]. rewrite length_app, length_drop. cbn. lia.
Qed.

Definition appended (a : Z) (m : rt_messagequeue) : rt_messagequeue :=
  let m1 := set_queue_tail a (if mq_queue_tail m =? 0 then m else relink (mq_queue_tail m) a m) in
  set_entry (mq_entry m + 1) (if mq_queue_head m =? 0 then set_queue_head a m1 else m1).
Definition prepended (a : Z) (m : rt_messagequeue) : rt_messagequeue :=
  let m1 := set_queue_head a (relink a (mq_queue_head m) m) in
  set_entry (mq_entry m + 1) (if mq_queue_tail m =? 0 then set_queue_tail a m1 else m1).
Definition unlinked_first (next : Z) (m : rt_messagequeue) : rt_messagequeue :=
  let m1 := set_queue_head next m in
  set_entry (mq_entry m - 1) (if mq_queue_tail m =? mq_queue_head m then set_queue_tail 0 m1 else m1).
Definition released (a : Z) (m : rt_messagequeue) : rt_messagequeue :=
  set_queue_free a (relink a (mq_queue_free m) m).

Lemma appended_fields a m :
  mq_nodes (appended a m) = (if mq_queue_tail m =? 0 then mq_nodes m else mq_nodes (relink (mq_queue_tail m) a m)) /\
  mq_queue_head (appended a m) = (if mq_queue_head m =? 0 then a else mq_queue_head m) /\
  mq_queue_tail (appended a m) = a /\ mq_queue_free (appended a m) = mq_queue_free m /\
  mq_msg_size (appended a m) = mq_msg_size m /\ mq_max_msgs (appended a m) = mq_max_msgs m /\
  mq_entry (appended a m) = mq_entry m + 1.
Proof. unfold appended. by destruct (mq_queue_tail m =? 0), (mq_queue_head m =? 0). Qed.

Lemma last_zero m free queue held : mq_ok m free queue held -> mq_queue_tail m = 0 <-> queue = [].
Proof.
  intros [_ _ _ _ _ H6 _ _ H9]. rewrite H6. destruct (last queue) as [t|] eqn:El.
  - split; [|intros ->; done]. cbn. intros ->. destruct (H9 0); [|done]. apply last_Some_elem_of in El. clear -El. mem.
  - apply last_None in El. done.
Qed.

(** Taking one element out of the middle does not matter for what is linked elsewhere. *)
Lemma held_mid (a : Z) free queue h1 h2 :
  NoDup (free ++ queue ++ h1 ++ a :: h2) -> (a ∉ free) /\ (a ∉ queue) /\ NoDup free /\ NoDup queue /\
  (forall b, b ∈ free -> b ∉ queue) /\ forall b, b ∈ h1 ++ h2 -> b ≠ a /\ (b ∉ queue).
Proof.
  intros Hd. apply NoDup_app in Hd as (Hf & Hd1 & Hd). apply NoDup_app in Hd as (Hq & Hd2 & Hd).
  rewrite <- Permutation_middle in Hd. apply NoDup_cons in Hd as [Hah _].
  split; [intros Ha; apply (Hd1 a Ha); clear; mem|]. split; [intros Ha; apply (Hd2 a Ha); clear; mem|].
  do 2 (split; [done|]). split; [intros b Hb Hbq; apply (Hd1 b Hb); clear -Hbq; mem|].
  intros b Hb. split; [by intros ->|]. intros Hbq. apply (Hd2 b Hbq). clear -Hb. mem.
Qed.

(** The other held nodes are as they were. *)
Definition held_same (m m' : rt_messagequeue) (held : list Z) : Prop :=
  (forall b, content m' b = content m b) /\ (forall b, b ∈ held -> next_of m' b = next_of m b) /\
  mq_msg_size m' = mq_msg_size m /\ mq_max_msgs m' = mq_max_msgs m.

Lemma append_ok m a free queue h1 h2 : mq_ok m free queue (h1 ++ a :: h2) -> next_of m a = Some 0 ->
  mq_ok (appended a m) free (queue ++ [a]) (h1 ++ h2) /\ held_same m (appended a m) (h1 ++ h2).
Proof.
  intros Hok Hna. pose proof (last_zero _ _ _ _ Hok) as Htz. pose proof Hok as [H1 H2 H3 H4 H5 H6 H7 H8 H9].
  destruct (held_mid _ _ _ _ _ H8) as (Naf & Naq & Df & Dq & Dfq & Dh).
  destruct (H9 a) as (Ha0 & Hsa & _); [clear; mem|].
  destruct (appended_fields a m) as (F1 & F2 & F3 & F4 & F5 & F6 & F7).
  assert (Hnx : forall c, next_of (appended a m) c = if bool_decide (last queue = Some c) then Some a else next_of m c).
  { intros c. unfold next_of at 1. rewrite F1. destruct (last queue) as [t|] eqn:El; cbn in H6.
    - assert (Ht : t ∈ queue) by (by apply last_Some_elem_of).
      destruct (H9 t) as (Ht0 & Hst & _); [clear -Ht; mem|]. rewrite H6, (proj2 (Z.eqb_neq t 0) Ht0).
      change (next_of (relink t a m) c = if bool_decide (Some t = Some c) then Some a else next_of m c).
      rewrite next_relink by done. destruct (decide (c = t)) as [->|]; [by rewrite !bool_decide_eq_true_2|].
      rewrite !bool_decide_eq_false_2 by congruence. done.
    - rewrite H6. cbn [Z.eqb]. by rewrite bool_decide_eq_false_2. }
  assert (Hcont : forall c, content (appended a m) c = content m c).
  { intros c. unfold content at 1. rewrite F1. destruct (mq_queue_tail m =? 0); [done|]. apply content_relink. }
  assert (Hp : free ++ (queue ++ [a]) ++ h1 ++ h2 ≡ₚ free ++ queue ++ h1 ++ a :: h2)
    by (rewrite <- (app_assoc queue); cbn; by rewrite Permutation_middle).
  split; [|split; [done|]; split; [|done]; intros c Hc; rewrite Hnx, bool_decide_eq_false_2; [done|];
    intros El; apply (proj2 (Dh c Hc)); by apply last_Some_elem_of].
  split; rewrite ?F2, ?F3, ?F4, ?F5, ?F6, ?F7, ?Hp; try done.
  - eapply linked_ext; [|exact H4]. intros c Hc. rewrite Hnx, bool_decide_eq_false_2; [done|].
    intros El. apply (Dfq c Hc). by apply last_Some_elem_of.
  - eapply linked_snoc; [exact H5|done|done|done| |intros c _; apply Hnx].
    rewrite Hnx, bool_decide_eq_false_2; [done|]. intros El. by apply last_Some_elem_of in El.
  - by rewrite last_snoc.
  - rewrite H7, length_app. cbn. lia.
  - intros c Hc. rewrite Hp in Hc. destruct (H9 c Hc) as (? & ? & ?). rewrite Hcont. split; [done|]. split; [|done].
    rewrite F1. destruct (mq_queue_tail m =? 0); [done|]. by apply nodes_alter.
Qed.

Lemma prepended_fields a m :
  mq_nodes (prepended a m) = mq_nodes (relink a (mq_queue_head m) m) /\ mq_queue_head (prepended a m) = a /\
  mq_queue_tail (prepended a m) = (if mq_queue_tail m =? 0 then a else mq_queue_tail m) /\
  mq_queue_free (prepended a m) = mq_queue_free m /\
  mq_msg_size (prepended a m) = mq_msg_size m /\ mq_max_msgs (prepended a m) = mq_max_msgs m /\
  mq_entry (prepended a m) = mq_entry m + 1.
Proof. unfold prepended. by destruct (mq_queue_tail m =? 0). Qed.

Lemma prepend_ok m a free queue h1 h2 : mq_ok m free queue (h1 ++ a :: h2) ->
  mq_ok (prepended a m) free (a :: queue) (h1 ++ h2) /\ held_same m (prepended a m) (h1 ++ h2).
Proof.
  intros Hok. pose proof (last_zero _ _ _ _ Hok) as Htz.
  assert (Hok' : mq_ok (relink a (mq_queue_head m) m) free queue (h1 ++ a :: h2)) by (apply held_relink_ok; [done|clear; mem]).
  pose proof Hok as [H1 H2 H3 H4 H5 H6 H7 H8 H9]. destruct (H9 a) as (Ha0 & Hsa & _); [clear; mem|].
  destruct (prepended_fields a m) as (F1 & F2 & F3 & F4 & F5 & F6 & F7).
  assert (Hnx : forall c, next_of (prepended a m) c = next_of (relink a (mq_queue_head m) m) c) by (intros c; unfold next_of; by rewrite F1).
  assert (Hcont : forall c, content (prepended a m) c = content m c).
  { intros c. unfold content at 1. rewrite F1. apply content_relink. }
  assert (Hp : free ++ (a :: queue) ++ h1 ++ h2 ≡ₚ free ++ queue ++ h1 ++ a :: h2).
  { cbn. rewrite app_assoc, (app_assoc queue), <- (Permutation_middle (queue ++ h1)). by rewrite <- app_assoc. }
  destruct (held_mid _ _ _ _ _ H8) as (_ & _ & _ & _ & _ & Dh).
  split; [|split; [done|]; split; [|done]; intros c Hc; rewrite Hnx, next_relink by done; by rewrite bool_decide_eq_false_2 by (by apply Dh)].
  destruct Hok' as [_ _ _ G4 G5 _ _ _ G9]. split; rewrite ?F2, ?F3, ?F4, ?F5, ?F6, ?F7, ?Hp; try done.
  - eapply linked_ext; [intros c _; apply Hnx|exact G4].
  - apply linked_push with (mq_queue_head m); [|done|].
    + eapply linked_ext; [intros c _; apply Hnx|exact G5].
    + rewrite Hnx, next_relink by done. by rewrite bool_decide_eq_true_2.
  - destruct (Z.eqb_spec (mq_queue_tail m) 0) as [E|E].
    + by rewrite (proj1 Htz E).
    + rewrite H6. destruct queue as [|b queue]; [by destruct E; apply Htz|]. by rewrite last_cons_cons.
  - rewrite H7. cbn [length]. lia.
  - intros c Hc. rewrite Hp in Hc. destruct (G9 c Hc) as (? & ? & ?). rewrite Hcont, <- (content_relink a (mq_queue_head m)).
    split; [done|]. split; [by rewrite F1|done].
Qed.

Lemma unlink_ok m a free queue held : mq_ok m free (a :: queue) held ->
  exists x, mq_nodes m !! a = Some x /\ mq_queue_head m = a /\
    mq_ok (unlinked_first (msg_next x) m) free queue (held ++ [a]) /\
    held_same m (unlinked_first (msg_next x) m) held.
Proof.
  intros [H1 H2 H3 H4 (Ea & Ha & b & Hb & Hl) H6 H7 H8 H9]. unfold next_of in Hb.
  destruct (mq_nodes m !! a) as [x|] eqn:Ex; [|done]. injection Hb as <-. exists x. split; [done|]. split; [done|].
  assert (Hp : free ++ queue ++ held ++ [a] ≡ₚ free ++ (a :: queue) ++ held)
    by (cbn; rewrite (app_assoc queue), <- Permutation_cons_append; done).
  assert (Hn : a ∉ queue).
  { apply NoDup_app in H8 as (_ & _ & Hd). cbn in Hd. apply NoDup_cons in Hd as [Hd _]. clear -Hd. mem. }
  unfold unlinked_first. split; [|by destruct (mq_queue_tail m =? mq_queue_head m)].
  split; try (destruct (mq_queue_tail m =? mq_queue_head m); cbn -[app]; rewrite ?Hp; done).
  - destruct queue as [|b queue].
    + cbn in H6. by rewrite Ea, H6, Z.eqb_refl.
    + rewrite last_cons_cons in H6. destruct (Z.eqb_spec (mq_queue_tail m) (mq_queue_head m)) as [E|E]; [|done].
      destruct Hn. apply last_Some_elem_of. destruct (last (b :: queue)) as [t|] eqn:El; [|by apply last_None in El].
      cbn in H6. congruence.
  - cbn [set_entry mq_entry]. rewrite H7. cbn [length]. lia.
  - intros c Hc. rewrite Hp in Hc. destruct (H9 c Hc) as (? & ? & ?). by destruct (mq_queue_tail m =? mq_queue_head m).
Qed.

Lemma release_ok m a free queue h1 h2 : mq_ok m free queue (h1 ++ a :: h2) ->
  mq_ok (released a m) (a :: free) queue (h1 ++ h2) /\ held_same m (released a m) (h1 ++ h2).
Proof.
  intros Hok.
  assert (Hok' : mq_ok (relink a (mq_queue_free m) m) free queue (h1 ++ a :: h2)) by (apply held_relink_ok; [done|clear; mem]).
  pose proof Hok as [_ _ _ _ _ _ _ H8 H9]. destruct (H9 a) as (Ha0 & Hsa & _); [clear; mem|].
  destruct (held_mid _ _ _ _ _ H8) as (_ & _ & _ & _ & _ & Dh).
  assert (Hp : (a :: free) ++ queue ++ h1 ++ h2 ≡ₚ free ++ queue ++ h1 ++ a :: h2).
  { cbn. rewrite !app_assoc. by rewrite Permutation_middle. }
  destruct Hok' as [G1 G2 G3 G4 G5 G6 G7 G8 G9]. split; [|split; [intros c; apply content_relink|]; split; [|done]; intros c Hc;
    change (next_of (relink a (mq_queue_free m) m) c = next_of m c); rewrite next_relink by done; by rewrite bool_decide_eq_false_2 by (by apply Dh)].
  unfold released.
  split; try done.
  - by rewrite Hp.
  - apply linked_push with (mq_queue_free m); [exact G4|done|].
    change (next_of (relink a (mq_queue_free m) m) a = Some (mq_queue_free m)).
    rewrite next_relink by done. by rewrite bool_decide_eq_true_2.
  - by rewrite Hp.
  - intros c Hc. rewrite Hp in Hc. by apply G9.
Qed.

(** ** The calls *)

Lemma wp_get_mq mq m (P : rt_messagequeue -> mstate -> Prop) k t :
  t !! mq = Some m -> P m (k, t) -> wp (get_mq mq) P (k, t).
Proof. intros. by eapply wp_deref. Qed.
Lemma wp_upd_mq mq f m (P : unit -> mstate -> Prop) k t :
  t !! mq = Some m -> P tt (k, <[mq := f m]> t) -> wp (upd_mq mq f) P (k, t).
Proof. intros. unfold upd_mq. rewrite wp_bind. by eapply wp_get_mq. Qed.
Lemma wp_get_msg mq m a x (P : rt_mq_message -> mstate -> Prop) k t :
  t !! mq = Some m -> mq_nodes m !! a = Some x -> P x (k, t) -> wp (get_msg mq a) P (k, t).
Proof. intros. unfold get_msg. rewrite wp_bind. eapply wp_get_mq; [done|]. by eapply wp_deref. Qed.
Lemma wp_upd_msg mq m a f (P : unit -> mstate -> Prop) k t :
  t !! mq = Some m -> is_Some (mq_nodes m !! a) -> P tt (k, <[mq := set_nodes (alter f a) m]> t) -> wp (upd_msg mq a f) P (k, t).
Proof.
  intros Hm [x Hx] HP. unfold upd_msg. rewrite wp_bind. eapply wp_get_msg; [done|done|]. eapply wp_upd_mq; [done|].
  replace (set_nodes <[a := f x]> m) with (set_nodes (alter f a) m); [done|]. unfold set_nodes. f_equal.
  apply map_eq. intros c. destruct (decide (c = a)) as [->|Hne].
  - by rewrite lookup_alter_eq, lookup_insert_eq, Hx.
  - by rewrite lookup_alter_ne, lookup_insert_ne.
Qed.

(** A live message queue, with its nodes. *)
Definition mq_live (mq : positive) (x : rt_object) (m : rt_messagequeue) (free queue held : list Z) (s : mstate) : Prop :=
  k_obj s.1 !! OMq mq = Some x /\ class_of x = RT_Object_Class_MessageQueue /\ ipc_flag (o_flag x) /\
  s.2 !! mq = Some m /\ mq_ok m free queue held.

(** The calling thread has been put to sleep on [h], and the queues are as they were. *)
Definition slept {A} (mq : positive) (h : lhead) (x : rt_object) (c : tid) (th : rt_thread) (timeout : Z)
    (r : outcome (Z * Z) A) (s s' : mstate) : Prop :=
  r = Waiting c (timeout, if 0 <? timeout then k_tick s.1 else 0) /\
  blocked h c (no_error th) (o_flag x) timeout s.1 s'.1 /\ s'.2 = s.2.

(** The first piece of a send: a free node is taken, or the call fails or sleeps. *)
Definition claim_post (mq : positive) (x : rt_object) (m : rt_messagequeue) (free queue held : list Z) (c : tid) (th : rt_thread)
    (timeout : Z) (r : outcome (Z * Z) (Z + Z)) (s s' : mstate) : Prop :=
  match free with
  | a :: free => r = Returned (inr a) /\ exists m', s' = (s.1, <[mq := m']> s.2) /\ mq_ok m' free queue (held ++ [a]) /\ held_same m m' held
  | [] =>
      if timeout =? 0 then
        r = Returned (inl (- RT_EFULL)) /\ (s' = s \/ s' = (set_k_threads <[c := no_error th]> s.1, s.2))
      else slept mq (LSender (OMq mq)) x c th timeout r s s'
  end.

Lemma wp_mq_claim mq m a free queue held (P : Z -> mstate -> Prop) k t :
  t !! mq = Some m -> mq_ok m (a :: free) queue held ->
  (forall m', mq_ok m' free queue (held ++ [a]) -> held_same m m' held -> P a (k, <[mq := m']> t)) ->
  wp (mq_claim mq) P (k, t).
Proof.
  intros Hm Hok HP. destruct (claim_ok _ _ _ _ _ Hok) as (x & Hx & Ea & Hok'). unfold mq_claim. rewrite wp_bind.
  eapply wp_get_mq; [done|]. rewrite wp_bind, Ea. eapply wp_get_msg; [done|done|]. rewrite wp_bind. eapply wp_upd_mq; [done|].
  rewrite wp_ret. by apply HP.
Qed.

Lemma mq_free_zero m free queue held : mq_ok m free queue held -> mq_queue_free m = 0 <-> (free = []).
Proof. intros H. apply (linked_nil _ _ _ (qo_free _ _ _ _ H)). Qed.

Lemma wp_mq_send_turn tt mq x m free queue held c th timeout k t :
  ipc_inv k -> clock_ok k -> mq_live mq x m free queue held (k, t) -> runs c th k -> timeout < half ->
  wp (mq_send_turn tt mq (Some c) timeout)
    (fun r s' => ipc_inv s'.1 /\ claim_post mq x m free queue held c th timeout r (k, t) s') (k, t).
Proof.
  intros Hi Hcl Hl Hr Ht. pose proof Hl as (Hx & _ & Hf & Hm & Hok). cbn [fst snd] in Hx, Hm. pose proof Hr as (Hc & Hth & Hs & Hn).
  unfold mq_send_turn, claim_post. rewrite wp_bind. eapply wp_get_mq; [done|]. pose proof (mq_free_zero _ _ _ _ Hok) as Hz.
  destruct (Z.eqb_spec (mq_queue_free m) 0) as [E|E], free as [|a free]; [|by (apply Hz in E)|by destruct E; apply Hz|].
  - rewrite wp_bind. eapply wp_deref; [done|]. cbn beta. rewrite wp_bind. apply wp_kcall. eapply wp_upd_thread; [done|]. fold (no_error th).
    destruct (Z.eqb_spec timeout 0).
    + rewrite wp_ret. split; [by apply ipc_inv_upd_error|]. split; [done|by right].
    + rewrite wp_bind. apply wp_kcall, wp_in_thread_context; [by exists c|done|]. rewrite wp_bind. apply wp_kcall.
      eapply wp_wait_on; [done|done|done|done|exact Hx|done|done|]. intros s' Hb. rewrite wp_ret. split; [apply Hb|done].
  - rewrite wp_bind. eapply wp_mq_claim; [done|done|]. intros m' Hok' Hsm. rewrite wp_ret. split; [done|]. split; [done|]. by exists m'.
Qed.

Lemma wp_rt_mq_send_wait tt mq x m free queue held c th size timeout k t :
  ipc_inv k -> clock_ok k -> mq_live mq x m free queue held (k, t) -> runs c th k -> timeout < half -> size ≠ 0 ->
  wp (rt_mq_send_wait tt mq size timeout) (fun r s' => ipc_inv s'.1 /\
    if mq_msg_size m <? size then r = Returned (inl (- RT_ERROR)) /\ s' = (k, t)
    else claim_post mq x m free queue held c th timeout r (k, t) s') (k, t).
Proof.
  intros Hi Hcl Hl Hr Ht Hsz. pose proof Hl as (Hx & Hcx & _ & Hm & Hok). cbn [fst snd] in Hx, Hm. pose proof Hr as (Hc & _).
  unfold rt_mq_send_wait, rt_thread_self. rewrite wp_bind. apply wp_kcall. eapply wp_is_class; [done|done|].
  rewrite wp_bind. apply wp_assert; [by rewrite (proj2 (Z.eqb_neq _ _) Hsz)|]. rewrite wp_bind. eapply wp_get_mq; [done|].
  destruct (mq_msg_size m <? size); [by rewrite wp_ret|]. rewrite wp_bind. apply wp_kcall. rewrite wp_gets, Hc.
  destruct (Z.eqb_spec (mq_queue_free m) 0) as [E|E], (Z.eqb_spec timeout 0) as [E0|E0]; cbn [andb]; try by apply wp_mq_send_turn.
  rewrite wp_ret. split; [done|]. unfold claim_post. rewrite (proj1 (mq_free_zero _ _ _ _ Hok) E). subst timeout. split; [done|by left].
Qed.

Lemma wp_rt_mq_urgent mq x m free queue held size k t :
  ipc_inv k -> mq_live mq x m free queue held (k, t) -> size ≠ 0 ->
  wp (rt_mq_urgent mq size) (fun r s' =>
    if mq_msg_size m <? size then r = inl (- RT_ERROR) /\ s' = (k, t)
    else match free with
      | [] => r = inl (- RT_EFULL) /\ s' = (k, t)
      | a :: free => r = inr a /\ exists m', s' = (k, <[mq := m']> t) /\ mq_ok m' free queue (held ++ [a]) /\ held_same m m' held
      end) (k, t).
Proof.
  intros Hi (Hx & Hcx & _ & Hm & Hok) Hsz. cbn [fst snd] in Hx, Hm.
  unfold rt_mq_urgent. rewrite wp_bind. apply wp_kcall. eapply wp_is_class; [done|done|].
  rewrite wp_bind. apply wp_assert; [by rewrite (proj2 (Z.eqb_neq _ _) Hsz)|]. rewrite wp_bind. eapply wp_get_mq; [done|].
  destruct (mq_msg_size m <? size); [by rewrite wp_ret|]. pose proof (mq_free_zero _ _ _ _ Hok) as Hz.
  destruct (Z.eqb_spec (mq_queue_free m) 0) as [E|E], free as [|a free]; [by rewrite wp_ret|by (apply Hz in E)|by destruct E; apply Hz|].
  rewrite wp_bind. eapply wp_mq_claim; [done|done|]. intros m' Hok' Hsm. rewrite wp_ret. split; [done|]. by exists m'.
Qed.

(** Between the locks: the held node gets the message; its link, if the message goes to
    the end of the queue, is cleared. *)
Lemma wp_mq_copy_in u mq m a buf free queue h1 h2 (P : unit -> mstate -> Prop) k t :
  t !! mq = Some m -> mq_ok m free queue (h1 ++ a :: h2) -> Z.of_nat (length buf) <= mq_msg_size m ->
  (forall m', mq_ok m' free queue (h1 ++ a :: h2) -> (u = false -> next_of m' a = Some 0) ->
     (forall b, b ≠ a -> next_of m' b = next_of m b /\ content m' b = content m b) ->
     content m' a = buf ++ drop (length buf) (content m a) ->
     mq_msg_size m' = mq_msg_size m -> mq_max_msgs m' = mq_max_msgs m -> P tt (k, <[mq := m']> t)) ->
  wp (mq_copy_in u mq a buf) P (k, t).
Proof.
  intros Hm Hok Hb HP. unfold mq_copy_in. assert (Ha : a ∈ h1 ++ a :: h2) by (clear; mem).
  assert (Hs : is_Some (mq_nodes m !! a)) by (destruct (qo_nodes _ _ _ _ Hok a) as (_ & ? & _); [clear; mem|done]).
  rewrite wp_bind. destruct u; cbn [negb when].
  - rewrite wp_ret. eapply wp_upd_msg; [done|done|]. fold (fill a buf m).
    apply HP; [by apply held_fill_ok|done| | |done|done].
    + intros b Hne. by rewrite next_fill, content_fill, bool_decide_eq_false_2.
    + by rewrite content_fill, bool_decide_eq_true_2.
  - eapply wp_upd_msg; [done|done|]. fold (relink a 0 m). eapply wp_upd_msg; [apply lookup_insert_eq|by apply nodes_alter|].
    rewrite insert_insert_eq. fold (fill a buf (relink a 0 m)).
    assert (Hs' : is_Some (mq_nodes (relink a 0 m) !! a)) by (by apply nodes_alter).
    apply HP; [by apply held_fill_ok; [apply held_relink_ok|..]| | | |done|done].
    + intros _. by rewrite next_fill, next_relink, bool_decide_eq_true_2.
    + intros b Hne. by rewrite next_fill, content_fill, bool_decide_eq_false_2, next_relink, bool_decide_eq_false_2, content_relink.
    + by rewrite content_fill, bool_decide_eq_true_2, content_relink.
Qed.

Lemma wp_mq_posted mq m (P : Z -> mstate -> Prop) k t :
  ipc_inv k -> is_Some (k_current k) -> t !! mq = Some m -> 0 <= mq_entry m < RT_MQ_ENTRY_MAX ->
  (forall k', ipc_inv k' -> roused (LSuspend (OMq mq)) k k' -> P RT_EOK (k', <[mq := set_entry (mq_entry m + 1) m]> t)) ->
  wp (mq_posted mq) P (k, t).
Proof.
  intros Hi Hc Hm He HP. unfold mq_posted. rewrite wp_bind. eapply wp_get_mq; [done|].
  rewrite (proj2 (Z.ltb_lt _ _)) by lia. unfold RT_MQ_ENTRY_MAX in He. rewrite wrap_small by lia.
  rewrite wp_bind. eapply wp_upd_mq; [done|]. rewrite wp_bind. apply wp_kcall, wp_wake_first; [done|done|done|].
  intros k' Hi' Hr. rewrite wp_ret. by apply HP.
Qed.

Lemma entry_room m free queue h1 a h2 : mq_ok m free queue (h1 ++ a :: h2) -> 0 <= mq_entry m < RT_MQ_ENTRY_MAX.
Proof. intros [_ H2 H3 _ _ _ H7 _ _]. rewrite !length_app in H3. cbn [length] in H3. lia. Qed.

Lemma wp_mq_prepend mq m a free queue h1 h2 (P : Z -> mstate -> Prop) k t :
  ipc_inv k -> is_Some (k_current k) -> t !! mq = Some m -> mq_ok m free queue (h1 ++ a :: h2) ->
  (forall k', ipc_inv k' -> roused (LSuspend (OMq mq)) k k' -> P RT_EOK (k', <[mq := prepended a m]> t)) ->
  wp (mq_prepend mq a) P (k, t).
Proof.
  intros Hi Hc Hm Hok HP. pose proof (entry_room _ _ _ _ _ _ Hok) as He.
  assert (Hs : is_Some (mq_nodes m !! a)) by (destruct (qo_nodes _ _ _ _ Hok a) as (_ & ? & _); [clear; mem|done]).
  unfold mq_prepend. rewrite wp_bind. eapply wp_get_mq; [done|]. rewrite wp_bind. eapply wp_upd_msg; [done|done|].
  fold (relink a (mq_queue_head m) m). rewrite wp_bind. eapply wp_upd_mq; [apply lookup_insert_eq|]. rewrite insert_insert_eq, wp_bind.
  eapply wp_get_mq; [apply lookup_insert_eq|].
  unfold prepended in HP. cbn [mq_queue_tail set_queue_head relink set_nodes]. rewrite wp_bind.
  destruct (mq_queue_tail m =? 0); cbn [when]; [eapply wp_upd_mq; [apply lookup_insert_eq|]; rewrite insert_insert_eq|rewrite wp_ret];
    (eapply wp_mq_posted; [done|done|apply lookup_insert_eq|exact He|]; intros k' Hi' Hr; rewrite insert_insert_eq; by apply HP).
Qed.

Lemma wp_mq_append mq m a free queue h1 h2 (P : Z -> mstate -> Prop) k t :
  ipc_inv k -> is_Some (k_current k) -> t !! mq = Some m -> mq_ok m free queue (h1 ++ a :: h2) ->
  (forall k', ipc_inv k' -> roused (LSuspend (OMq mq)) k k' -> P RT_EOK (k', <[mq := appended a m]> t)) ->
  wp (mq_append mq a) P (k, t).
Proof.
  intros Hi Hc Hm Hok HP. pose proof (entry_room _ _ _ _ _ _ Hok) as He.
  assert (Hst : mq_queue_tail m ≠ 0 -> is_Some (mq_nodes m !! mq_queue_tail m)).
  { intros Hne. destruct (qo_nodes _ _ _ _ Hok (mq_queue_tail m)) as (_ & ? & _); [|done].
    rewrite (qo_tail _ _ _ _ Hok) in *. destruct (last queue) as [b|] eqn:El; [|done]. apply last_Some_elem_of in El. clear -El. cbn. mem. }
  unfold mq_append. rewrite wp_bind. eapply wp_get_mq; [done|]. unfold appended in HP. rewrite wp_bind.
  destruct (Z.eqb_spec (mq_queue_tail m) 0) as [E|E]; cbn [negb when].
  1: rewrite wp_ret, wp_bind; eapply wp_upd_mq; [done|].
  2: eapply wp_upd_msg; [done|by apply Hst|]; fold (relink (mq_queue_tail m) a m); rewrite wp_bind;
     eapply wp_upd_mq; [apply lookup_insert_eq|]; rewrite insert_insert_eq.
  all: rewrite wp_bind; eapply wp_get_mq; [apply lookup_insert_eq|]; cbn [mq_queue_head set_queue_tail relink set_nodes]; rewrite wp_bind.
  all: destruct (mq_queue_head m =? 0); cbn [when]; [eapply wp_upd_mq; [apply lookup_insert_eq|]; rewrite insert_insert_eq|rewrite wp_ret].
  all: eapply wp_mq_posted; [done|done|apply lookup_insert_eq|exact He|]; intros k' Hi' Hr; rewrite insert_insert_eq; by apply HP.
Qed.

(** The held node [a] goes into the queue and the first receiver is awake. *)
Lemma wp_mq_link u mq m a free queue h1 h2 (P : Z -> mstate -> Prop) k t :
  ipc_inv k -> is_Some (k_current k) -> t !! mq = Some m -> mq_ok m free queue (h1 ++ a :: h2) ->
  (u = false -> next_of m a = Some 0) ->
  (forall k' m', ipc_inv k' -> roused (LSuspend (OMq mq)) k k' ->
     mq_ok m' free (if u then a :: queue else queue ++ [a]) (h1 ++ h2) -> held_same m m' (h1 ++ h2) ->
     P RT_EOK (k', <[mq := m']> t)) ->
  wp (mq_link u mq a) P (k, t).
Proof.
  intros Hi Hc Hm Hok Hna HP. destruct u; cbn [mq_link].
  - destruct (prepend_ok _ _ _ _ _ _ Hok). eapply wp_mq_prepend; [done|done|done|done|]. intros. by apply HP.
  - destruct (append_ok _ _ _ _ _ _ Hok (Hna eq_refl)). eapply wp_mq_append; [done|done|done|done|]. intros. by apply HP.
Qed.

(** The first piece of a receive: the first message is taken out, or the call fails or
    sleeps. *)
Definition take_post (mq : positive) (x : rt_object) (m : rt_messagequeue) (free queue held : list Z) (c : tid) (th : rt_thread)
    (timeout : Z) (r : outcome (Z * Z) (Z + Z)) (s s' : mstate) : Prop :=
  match queue with
  | a :: queue => r = Returned (inr a) /\ exists m', s' = (s.1, <[mq := m']> s.2) /\ mq_ok m' free queue (held ++ [a]) /\
      held_same m m' held
  | [] =>
      if timeout =? 0 then
        r = Returned (inl (- RT_ETIMEOUT)) /\
        (s' = s \/ s' = (set_k_threads <[c := set_th_error (fun _ => - RT_ETIMEOUT) (no_error th)]> s.1, s.2))
      else slept mq (LSuspend (OMq mq)) x c th timeout r s s'
  end.

Lemma wp_mq_unlink mq m a free queue held (P : Z -> mstate -> Prop) k t :
  t !! mq = Some m -> mq_ok m free (a :: queue) held ->
  (forall m', mq_ok m' free queue (held ++ [a]) -> held_same m m' held -> P a (k, <[mq := m']> t)) ->
  wp (mq_unlink mq) P (k, t).
Proof.
  intros Hm Hok HP. destruct (unlink_ok _ _ _ _ _ Hok) as (x & Hx & Ea & Hok' & Hsm).
  pose proof (qo_entry _ _ _ _ Hok) as He. pose proof (qo_max _ _ _ _ Hok) as Hmx. pose proof (qo_count _ _ _ _ Hok) as Hct.
  rewrite !length_app in Hct. cbn [length] in He, Hct. unfold RT_MQ_ENTRY_MAX in Hmx.
  unfold mq_unlink. rewrite wp_bind. eapply wp_get_mq; [done|]. rewrite wp_bind. eapply wp_get_msg; [done|by rewrite Ea|].
  rewrite wp_bind. eapply wp_upd_mq; [done|]. specialize (HP _ Hok' Hsm). unfold unlinked_first in HP. rewrite Ea in *.
  rewrite (proj2 (Z.ltb_lt 0 (mq_entry m))), wrap_small by lia. cbn [when]. rewrite wp_bind.
  destruct (mq_queue_tail m =? a); cbn [when];
    [eapply wp_upd_mq; [apply lookup_insert_eq|]; rewrite insert_insert_eq|rewrite wp_ret];
    (rewrite wp_bind; eapply wp_upd_mq; [apply lookup_insert_eq|]; by rewrite insert_insert_eq, wp_ret).
Qed.

Lemma mq_entry_zero m free queue held : mq_ok m free queue held -> mq_entry m = 0 <-> (queue = []).
Proof. intros H. rewrite (qo_entry _ _ _ _ H). destruct queue; [done|]. by cbn. Qed.

Lemma wp_mq_recv_turn tt mq x m free queue held c th timeout k t :
  ipc_inv k -> clock_ok k -> mq_live mq x m free queue held (k, t) -> runs c th k -> timeout < half ->
  wp (mq_recv_turn tt mq (Some c) timeout)
    (fun r s' => ipc_inv s'.1 /\ take_post mq x m free queue held c th timeout r (k, t) s') (k, t).
Proof.
  intros Hi Hcl Hl Hr Ht. pose proof Hl as (Hx & _ & Hf & Hm & Hok). cbn [fst snd] in Hx, Hm. pose proof Hr as (Hc & Hth & Hs & Hn).
  unfold mq_recv_turn, take_post. rewrite wp_bind. eapply wp_get_mq; [done|]. pose proof (mq_entry_zero _ _ _ _ Hok) as Hz.
  destruct (Z.eqb_spec (mq_entry m) 0) as [E|E], queue as [|a queue]; [|by (apply Hz in E)|by destruct E; apply Hz|].
  - rewrite wp_bind. apply wp_kcall, wp_in_thread_context; [by exists c|done|]. rewrite wp_bind. eapply wp_deref; [done|]. cbn beta.
    rewrite wp_bind. apply wp_kcall. eapply wp_upd_thread; [done|]. fold (no_error th). destruct (Z.eqb_spec timeout 0).
    + rewrite wp_bind. apply wp_kcall. eapply wp_upd_thread; [apply lookup_insert_eq|]. rewrite wp_ret.
      assert (Hs2 : forall th1 th2, set_k_threads <[c := th2]> (set_k_threads <[c := th1]> k) = set_k_threads <[c := th2]> k).
      { intros. unfold set_k_threads. cbn. by rewrite insert_insert_eq. }
      rewrite Hs2. split; [|split; [done|by right]]. cbn [fst]. change (no_error th) with (set_th_error (fun _ => RT_EOK) th).
      change (set_th_error (fun _ => - RT_ETIMEOUT) (set_th_error (fun _ => RT_EOK) th)) with (set_th_error (fun _ => - RT_ETIMEOUT) th).
      by apply ipc_inv_upd_error.
    + rewrite wp_bind. apply wp_kcall.
      eapply wp_wait_on; [done|done|done|done|exact Hx|done|done|]. intros s' Hb. rewrite wp_ret. split; [apply Hb|done].
  - rewrite wp_bind. eapply wp_mq_unlink; [done|done|]. intros m' Hok' Hsm. rewrite wp_ret. split; [done|]. split; [done|]. by exists m'.
Qed.

Lemma wp_rt_mq_recv tt mq x m free queue held c th size timeout k t :
  ipc_inv k -> clock_ok k -> mq_live mq x m free queue held (k, t) -> runs c th k -> timeout < half -> size ≠ 0 ->
  wp (rt_mq_recv tt mq size timeout)
    (fun r s' => ipc_inv s'.1 /\ take_post mq x m free queue held c th timeout r (k, t) s') (k, t).
Proof.
  intros Hi Hcl Hl Hr Ht Hsz. pose proof Hl as (Hx & Hcx & _ & Hm & Hok). cbn [fst snd] in Hx, Hm. pose proof Hr as (Hc & _).
  unfold rt_mq_recv, rt_thread_self. rewrite wp_bind. apply wp_kcall. eapply wp_is_class; [done|done|].
  rewrite wp_bind. apply wp_assert; [by rewrite (proj2 (Z.eqb_neq _ _) Hsz)|]. rewrite wp_bind. apply wp_kcall. rewrite wp_gets, Hc.
  rewrite wp_bind. eapply wp_get_mq; [done|].
  destruct (Z.eqb_spec (mq_entry m) 0) as [E|E], (Z.eqb_spec timeout 0) as [E0|E0]; cbn [andb]; try by apply wp_mq_recv_turn.
  rewrite wp_ret. split; [done|]. unfold take_post. rewrite (proj1 (mq_entry_zero _ _ _ _ Hok) E). subst timeout. split; [done|by left].
Qed.

Lemma wp_mq_copy_out mq m a size (P : list Z -> mstate -> Prop) k t :
  t !! mq = Some m -> is_Some (mq_nodes m !! a) ->
  P (take (Z.to_nat (Z.min (mq_msg_size m) size)) (content m a)) (k, t) -> wp (mq_copy_out mq a size) P (k, t).
Proof.
  intros Hm [x Hx] HP. unfold mq_copy_out. rewrite wp_bind. eapply wp_get_mq; [done|]. rewrite wp_bind.
  eapply wp_get_msg; [done|done|]. rewrite wp_ret. unfold content in HP. rewrite Hx in HP. cbn in HP.
  replace (if mq_msg_size m <? size then mq_msg_size m else size) with (Z.min (mq_msg_size m) size); [done|].
  destruct (Z.ltb_spec (mq_msg_size m) size); lia.
Qed.

(** The held node goes back to the free list and the first sender is awake. *)
Lemma wp_mq_release mq m a free queue h1 h2 (P : Z -> mstate -> Prop) k t :
  ipc_inv k -> is_Some (k_current k) -> t !! mq = Some m -> mq_ok m free queue (h1 ++ a :: h2) ->
  (forall k' m', ipc_inv k' -> roused (LSender (OMq mq)) k k' ->
     mq_ok m' (a :: free) queue (h1 ++ h2) -> held_same m m' (h1 ++ h2) -> P RT_EOK (k', <[mq := m']> t)) ->
  wp (mq_release mq a) P (k, t).
Proof.
  intros Hi Hc Hm Hok HP. destruct (release_ok _ _ _ _ _ _ Hok) as [Hok' Hsm].
  assert (Hs : is_Some (mq_nodes m !! a)) by (destruct (qo_nodes _ _ _ _ Hok a) as (_ & ? & _); [clear; mem|done]).
  unfold mq_release. rewrite wp_bind. eapply wp_get_mq; [done|]. rewrite wp_bind. eapply wp_upd_msg; [done|done|].
  rewrite wp_bind. eapply wp_upd_mq; [apply lookup_insert_eq|]. rewrite insert_insert_eq, wp_bind.
  apply wp_kcall, wp_wake_first; [done|done|done|]. intros k' Hi' Hr. rewrite wp_ret. by apply HP.
Qed.


Lemma held_same_trans m1 m2 m3 held : held_same m1 m2 held -> held_same m2 m3 held -> held_same m1 m3 held.
Proof.
  intros (S1 & S2 & S3 & S4) (T1 & T2 & T3 & T4). split; [intros b; by rewrite T1|].
  split; [intros b Hb; by rewrite T2, S2|]. split; congruence.
Qed.

(** The reset moves the messages to the free list; the entry count comes after it. *)
Definition drained (a next : Z) (m : rt_messagequeue) : rt_messagequeue :=
  let m1 := set_queue_head next m in
  set_queue_free a (relink a (mq_queue_free m) (if mq_queue_tail m =? a then set_queue_tail 0 m1 else m1)).

Lemma drained_ok m a free queue held : mq_ok (set_entry (Z.of_nat (length (a :: queue))) m) free (a :: queue) held ->
  exists x, mq_nodes m !! a = Some x /\ mq_queue_head m = a /\ a ≠ 0 /\
    mq_ok (set_entry (Z.of_nat (length queue)) (drained a (msg_next x) m)) (a :: free) queue held /\
    held_same m (drained a (msg_next x) m) held.
Proof.
  intros Hok. destruct (qo_nodes _ _ _ _ Hok a) as (Ha0 & _ & _); [clear; mem|].
  destruct (unlink_ok _ _ _ _ _ Hok) as (x & Hx & Ea & Hok1 & _).
  destruct (release_ok _ a free queue held [] Hok1) as [Hok2 _]. rewrite app_nil_r in Hok2.
  exists x. split; [exact Hx|]. split; [exact Ea|]. split; [done|]. change (mq_queue_head m = a) in Ea.
  change (mq_nodes m !! a = Some x) in Hx. split.
  - revert Hok2. unfold released, unlinked_first, drained. cbn [mq_queue_head mq_queue_tail mq_entry set_entry length]. rewrite Ea.
    replace (Z.of_nat (S (length queue)) - 1) with (Z.of_nat (length queue)) by lia. by destruct (mq_queue_tail m =? a).
  - unfold drained. split; [|split; [|by destruct (mq_queue_tail m =? a)]].
    + intros b. transitivity (content (relink a (mq_queue_free m) m) b); [by destruct (mq_queue_tail m =? a)|apply content_relink].
    + intros b Hb. transitivity (next_of (relink a (mq_queue_free m) m) b); [by destruct (mq_queue_tail m =? a)|].
      rewrite next_relink, bool_decide_eq_false_2; [done| |by eexists]. intros ->.
      pose proof (qo_nodup _ _ _ _ Hok) as Hd. apply NoDup_app in Hd as (_ & _ & Hd). apply NoDup_app in Hd as (_ & Hd & _).
      apply (Hd a); [by left|done].
Qed.

Lemma wp_mq_drain fuel mq m free queue held (P : unit -> mstate -> Prop) k t :
  t !! mq = Some m -> mq_ok (set_entry (Z.of_nat (length queue)) m) free queue held -> (length queue <= fuel)%nat ->
  (forall m', mq_ok (set_entry 0 m') (rev queue ++ free) [] held -> held_same m m' held -> P tt (k, <[mq := m']> t)) ->
  wp (mq_drain fuel mq) P (k, t).
Proof.
  revert fuel m free t P. induction queue as [|a queue IH]; intros fuel m free t P Hm Hok Hf HP.
  - pose proof (linked_head _ _ _ (qo_queue _ _ _ _ Hok)) as Eh. change (mq_queue_head m = 0) in Eh.
    destruct fuel; cbn [mq_drain]; rewrite wp_bind; (eapply wp_get_mq; [done|]);
      rewrite Eh; cbn [Z.eqb]; rewrite wp_ret, <- (insert_id t mq m Hm); by apply HP.
  - destruct fuel as [|fuel]; [cbn in Hf; lia|]. destruct (drained_ok _ _ _ _ _ Hok) as (x & Hx & Ea & Ha0 & Hok' & Hsm).
    cbn [mq_drain]. rewrite wp_bind. eapply wp_get_mq; [done|]. rewrite Ea, (proj2 (Z.eqb_neq a 0) Ha0). cbv zeta.
    rewrite wp_bind. eapply wp_get_msg; [done|done|]. rewrite wp_bind. eapply wp_upd_mq; [done|]. rewrite wp_bind.
    assert (Hw : wp (mq_drain fuel mq) P (k, <[mq := drained a (msg_next x) m]> t)).
    { eapply IH; [apply lookup_insert_eq|exact Hok'|cbn in Hf; lia|]. intros m' Hok2 Hsm2. rewrite insert_insert_eq.
      apply HP; [cbn [rev]; by rewrite <- app_assoc|by eapply held_same_trans]. }
    unfold drained in Hw. destruct (mq_queue_tail m =? a); cbn [when];
      [eapply wp_upd_mq; [apply lookup_insert_eq|]; rewrite insert_insert_eq|rewrite wp_ret];
      (rewrite wp_bind; eapply wp_upd_msg; [apply lookup_insert_eq|by eexists|]; rewrite insert_insert_eq, wp_bind;
       eapply wp_upd_mq; [apply lookup_insert_eq|]; by rewrite insert_insert_eq).
Qed.

Lemma wp_rt_mq_reset mq x m free queue held (P : Z -> mstate -> Prop) k t :
  ipc_inv k -> mq_live mq x m free queue held (k, t) -> is_Some (k_current k) ->
  (forall k' m', ipc_inv k' -> objects k' = objects k -> k_tick k' = k_tick k -> (pending k -> pending k') ->
     is_Some (k_current k') -> k_tlist k' (LSuspend (OMq mq)) = [] -> k_tlist k' (LSender (OMq mq)) = [] ->
     mq_ok m' (rev queue ++ free) [] held -> held_same m m' held -> P RT_EOK (k', <[mq := m']> t)) ->
  wp (rt_mq_control mq RT_IPC_CMD_RESET) P (k, t).
Proof.
  intros Hi (Hx & Hcx & _ & Hm & Hok) Hc HP. cbn [fst snd] in Hx, Hm. unfold rt_mq_control, rt_ipc_list_resume_all.
  rewrite wp_bind. apply wp_kcall. eapply wp_is_class; [done|done|].
  change (RT_IPC_CMD_RESET =? RT_IPC_CMD_RESET) with true. cbv iota.
  rewrite wp_bind. apply wp_kcall. rewrite wp_bind, wp_gets, wp_bind.
  eapply wp_mono, (wp_resume_all_loop (LSuspend (OMq mq))); [|done|done|done]. intros [] k1 [A1 A2 A3 A4 A5 A6 _ _ _]. rewrite wp_ret.
  rewrite wp_bind. apply wp_kcall. rewrite wp_bind, wp_gets, wp_bind.
  eapply wp_mono, (wp_resume_all_loop (LSender (OMq mq))); [|done|done|done]. intros [] k2 [B1 B2 B3 B4 B5 B6 B7 _ _]. rewrite wp_ret.
  rewrite wp_bind. eapply wp_get_mq; [done|]. rewrite wp_bind. eapply wp_mq_drain; [done| | |].
  - rewrite <- (qo_entry _ _ _ _ Hok). by destruct m.
  - pose proof (qo_count _ _ _ _ Hok) as Hct. rewrite !length_app in Hct. lia.
  - intros m' Hok' Hsm. rewrite wp_bind. eapply wp_upd_mq; [apply lookup_insert_eq|]. rewrite insert_insert_eq.
    rewrite wp_bind. apply wp_kcall. eapply wp_mono, wp_schedule_ipc; [|done|by apply B3, A3].
    intros [] k3 (Hi3 & Hfr & Hc3). rewrite wp_ret. destruct (frame_rest _ _ Hfr) as (_ & _ & _ & _ & _ & _ & R7).
    apply HP; [done|by rewrite (frame_objects _ _ Hfr), B4|by rewrite R7, B5| |done| | |done|done].
    + intros Hp. by eapply frame_pending, B2, A2.
    + by rewrite (fr_lists _ _ Hfr), B7 by (by intros p || done).
    + by rewrite (fr_lists _ _ Hfr) by (by intros p).
Qed.

(** ** Refinement: a bounded queue of messages *)

(** The calls in progress: a node to fill, a filled node to link, a node to read, and a
    node that has been read. *)
Inductive mq_call :=
  | CFill (urgent : bool) (msg : Z) (buffer : list Z)
  | CLink (urgent : bool) (msg : Z)
  | CRead (msg size : Z)
  | CDone (msg : Z).
Definition call_msg (c : mq_call) : Z :=
  match c with CFill _ a _ | CLink _ a | CRead a _ | CDone a => a end.

(** Messages as byte sequences: those in the queue, oldest first; the calls in progress,
    which send a message, are going to return one, or have; the waiting threads. *)
Inductive acall := ASend (urgent : bool) (d : list Z) | ARecv (d : list Z) | ADone.
Record mq_abs := QAbs { qa_msgs : list (list Z); qa_calls : list acall; qa_receivers : list tid; qa_senders : list tid }.

Inductive mq_label :=
  | QSend (urgent : bool) (buffer : list Z) (r : outcome (Z * Z) (option Z))
  | QTau
  | QPost (i : nat) (r : Z)
  | QRecv (size : Z) (r : outcome (Z * Z) (option Z))
  | QGot (i : nat) (d : list Z)
  | QDone (i : nat) (r : Z)
  | QReset
  | QGiveUp
  | QTimeout (t : tid)
  | QEnv.

(** [cap] messages of [wid] bytes.  A node holds [wid] bytes: the message and what was
    there before. *)
Inductive mq_spec (cap wid : Z) : mq_abs -> mq_label -> mq_abs -> Prop :=
  | qs_begin q cs rs ss u b rest : Z.of_nat (length q + length cs) < cap -> Z.of_nat (length (b ++ rest)) = wid ->
      mq_spec cap wid (QAbs q cs rs ss) (QSend u b (Returned None)) (QAbs q (cs ++ [ASend u (b ++ rest)]) rs ss)
  | qs_long a u b : wid < Z.of_nat (length b) -> mq_spec cap wid a (QSend u b (Returned (Some (- RT_ERROR)))) a
  | qs_full q cs rs ss u b : Z.of_nat (length q + length cs) = cap ->
      mq_spec cap wid (QAbs q cs rs ss) (QSend u b (Returned (Some (- RT_EFULL)))) (QAbs q cs rs ss)
  | qs_sleep q cs rs ss b c l : Z.of_nat (length q + length cs) = cap -> c ∉ ss ->
      mq_spec cap wid (QAbs q cs rs ss) (QSend false b (Waiting c l)) (QAbs q cs rs (ss ++ [c]))
  | qs_tau a : mq_spec cap wid a QTau a
  | qs_post q c1 u d c2 rs ss :
      mq_spec cap wid (QAbs q (c1 ++ ASend u d :: c2) rs ss) (QPost (length c1) RT_EOK)
        (QAbs (if u then d :: q else q ++ [d]) (c1 ++ c2) (tail rs) ss)
  | qs_take d q cs rs ss n :
      mq_spec cap wid (QAbs (d :: q) cs rs ss) (QRecv n (Returned None))
        (QAbs q (cs ++ [ARecv (take (Z.to_nat (Z.min wid n)) d)]) rs ss)
  | qs_empty cs rs ss n : mq_spec cap wid (QAbs [] cs rs ss) (QRecv n (Returned (Some (- RT_ETIMEOUT)))) (QAbs [] cs rs ss)
  | qs_wait cs rs ss n c l : c ∉ rs -> mq_spec cap wid (QAbs [] cs rs ss) (QRecv n (Waiting c l)) (QAbs [] cs (rs ++ [c]) ss)
  | qs_got q c1 d c2 rs ss :
      mq_spec cap wid (QAbs q (c1 ++ ARecv d :: c2) rs ss) (QGot (length c1) d) (QAbs q (c1 ++ ADone :: c2) rs ss)
  | qs_done q c1 c2 rs ss :
      mq_spec cap wid (QAbs q (c1 ++ ADone :: c2) rs ss) (QDone (length c1) RT_EOK) (QAbs q (c1 ++ c2) rs (tail ss))
  | qs_reset q cs rs ss : mq_spec cap wid (QAbs q cs rs ss) QReset (QAbs [] cs [] [])
  | qs_giveup a : mq_spec cap wid a QGiveUp a
  | qs_timeout_recv q cs r1 t r2 ss : mq_spec cap wid (QAbs q cs (r1 ++ t :: r2) ss) (QTimeout t) (QAbs q cs (r1 ++ r2) ss)
  | qs_timeout_send q cs rs s1 t s2 : mq_spec cap wid (QAbs q cs rs (s1 ++ t :: s2)) (QTimeout t) (QAbs q cs rs (s1 ++ s2))
  | qs_env a : mq_spec cap wid a QEnv a.

(** The kernel with the queue, and the calls in progress. *)
Record mq_sys := Sys { y_state : mstate; y_calls : list mq_call }.

Definition abs_call (m : rt_messagequeue) (c : mq_call) : acall :=
  match c with
  | CFill u a buf => ASend u (buf ++ drop (length buf) (content m a))
  | CLink u a => ASend u (content m a)
  | CRead a n => ARecv (take (Z.to_nat (Z.min (mq_msg_size m) n)) (content m a))
  | CDone _ => ADone
  end.
Definition mq_at (mq : positive) (s : mstate) : rt_messagequeue := default (mkMq ∅ 0 0 0 0 0 0 0) (s.2 !! mq).
Definition mq_of (mq : positive) (y : mq_sys) : mq_abs :=
  let m := mq_at mq (y_state y) in
  QAbs (content m <$> walk (next_of m) (Z.to_nat (mq_max_msgs m)) (mq_queue_head m)) (abs_call m <$> y_calls y)
    (k_tlist (y_state y).1 (LSuspend (OMq mq))) (k_tlist (y_state y).1 (LSender (OMq mq))).

(** What holds of the node of a call. *)
Definition call_ok (m : rt_messagequeue) (c : mq_call) : Prop :=
  match c with
  | CFill _ _ buf => Z.of_nat (length buf) <= mq_msg_size m
  | CLink u a => u = false -> next_of m a = Some 0
  | _ => True
  end.

Definition mq_shape (cap wid : Z) (mq : positive) (x : rt_object) (m : rt_messagequeue) (free queue : list Z) (y : mq_sys) : Prop :=
  mq_live mq x m free queue (call_msg <$> y_calls y) (y_state y) /\ o_flag x = RT_IPC_FLAG_FIFO /\
  mq_max_msgs m = cap /\ mq_msg_size m = wid /\ Forall (call_ok m) (y_calls y).

Record mq_sys_ok (cap wid : Z) (mq : positive) (y : mq_sys) : Prop := {
  yk_inv : ipc_inv (y_state y).1;
  yk_clock : clock_ok (y_state y).1;
  yk_current : is_Some (k_current (y_state y).1);
  yk_shape : exists x m free queue, mq_shape cap wid mq x m free queue y
}.

(** The outcome of the first piece of a call, without the node; the call it begins. *)
Definition told (r : outcome (Z * Z) (Z + Z)) : outcome (Z * Z) (option Z) :=
  match r with Returned (inl e) => Returned (Some e) | Returned (inr _) => Returned None | Waiting t l => Waiting t l end.
Definition begun (f : Z -> mq_call) (r : outcome (Z * Z) (Z + Z)) : list mq_call :=
  match r with Returned (inr a) => [f a] | _ => [] end.

(** A call begins, in the running thread; one that slept goes on; the next piece of any
    call in progress; a timeout; or anything else that leaves the queue as it is. *)
Inductive mq_step (timer_thread : tid) (cap wid : Z) (mq : positive) : mq_sys -> mq_label -> mq_sys -> Prop :=
  | qt_send c th buf timeout r s s' cs : runs c th s.1 -> timeout < half -> buf ≠ [] ->
      rt_mq_send_wait timer_thread mq (Z.of_nat (length buf)) timeout s = Some (r, s') ->
      mq_step timer_thread cap wid mq (Sys s cs) (QSend false buf (told r)) (Sys s' (cs ++ begun (fun a => CFill false a buf) r))
  | qt_send_resumed c th buf l r s s' cs : runs c th s.1 -> th_error th = RT_EOK -> l.1 < half ->
      u32 (k_tick s.1 - l.2) <= half -> Z.of_nat (length buf) <= wid ->
      rt_mq_send_resumed timer_thread mq c l s = Some (r, s') ->
      mq_step timer_thread cap wid mq (Sys s cs) (QSend false buf (told r)) (Sys s' (cs ++ begun (fun a => CFill false a buf) r))
  | qt_urgent buf r s s' cs : buf ≠ [] -> rt_mq_urgent mq (Z.of_nat (length buf)) s = Some (r, s') ->
      mq_step timer_thread cap wid mq (Sys s cs) (QSend true buf (told (Returned r))) (Sys s' (cs ++ begun (fun a => CFill true a buf) (Returned r)))
  | qt_fill u a buf c1 c2 s s' : mq_copy_in u mq a buf s = Some (tt, s') ->
      mq_step timer_thread cap wid mq (Sys s (c1 ++ CFill u a buf :: c2)) QTau (Sys s' (c1 ++ CLink u a :: c2))
  | qt_link u a r c1 c2 s s' : mq_link u mq a s = Some (r, s') ->
      mq_step timer_thread cap wid mq (Sys s (c1 ++ CLink u a :: c2)) (QPost (length c1) r) (Sys s' (c1 ++ c2))
  | qt_recv c th size timeout r s s' cs : runs c th s.1 -> timeout < half -> size ≠ 0 ->
      rt_mq_recv timer_thread mq size timeout s = Some (r, s') ->
      mq_step timer_thread cap wid mq (Sys s cs) (QRecv size (told r)) (Sys s' (cs ++ begun (fun a => CRead a size) r))
  | qt_recv_resumed c th size l r s s' cs : runs c th s.1 -> th_error th = RT_EOK -> l.1 < half ->
      u32 (k_tick s.1 - l.2) <= half -> rt_mq_recv_resumed timer_thread mq c l s = Some (r, s') ->
      mq_step timer_thread cap wid mq (Sys s cs) (QRecv size (told r)) (Sys s' (cs ++ begun (fun a => CRead a size) r))
  | qt_read a size d c1 c2 s s' : mq_copy_out mq a size s = Some (d, s') ->
      mq_step timer_thread cap wid mq (Sys s (c1 ++ CRead a size :: c2)) (QGot (length c1) d) (Sys s' (c1 ++ CDone a :: c2))
  | qt_done a r c1 c2 s s' : mq_release mq a s = Some (r, s') ->
      mq_step timer_thread cap wid mq (Sys s (c1 ++ CDone a :: c2)) (QDone (length c1) r) (Sys s' (c1 ++ c2))
  | qt_reset r s s' cs : rt_mq_control mq RT_IPC_CMD_RESET s = Some (r, s') ->
      mq_step timer_thread cap wid mq (Sys s cs) QReset (Sys s' cs)
  | qt_giveup c th l r s s' cs : runs c th s.1 -> th_error th ≠ RT_EOK ->
      rt_mq_send_resumed timer_thread mq c l s = Some (r, s') \/ rt_mq_recv_resumed timer_thread mq c l s = Some (r, s') ->
      mq_step timer_thread cap wid mq (Sys s cs) QGiveUp (Sys s' cs)
  | qt_timeout t h s k cs : h = LSuspend (OMq mq) \/ h = LSender (OMq mq) -> t ∈ k_tlist s.1 h ->
      (forall r, r = TLHard \/ r = TLSoft -> TThread t ∉ k_trow s.1 r) ->
      rt_thread_timeout t s.1 = Some (tt, k) -> mq_step timer_thread cap wid mq (Sys s cs) (QTimeout t) (Sys (k, s.2) cs)
  | qt_env y y' : mq_sys_ok cap wid mq y' -> mq_of mq y' = mq_of mq y -> mq_step timer_thread cap wid mq y QEnv y'.

Lemma mq_of_shape cap wid mq x m free queue k t cs : mq_shape cap wid mq x m free queue (Sys (k, t) cs) ->
  mq_of mq (Sys (k, t) cs) =
    QAbs (content m <$> queue) (abs_call m <$> cs) (k_tlist k (LSuspend (OMq mq))) (k_tlist k (LSender (OMq mq))).
Proof.
  intros ((_ & _ & _ & Hm & Hok) & _). cbn [y_state fst snd] in *. unfold mq_of, mq_at. cbn [y_state y_calls fst snd]. rewrite Hm. cbn.
  pose proof (qo_count _ _ _ _ Hok) as Hct. rewrite !length_app in Hct.
  rewrite (linked_walk _ _ _ _ (qo_queue _ _ _ _ Hok)) by lia. done.
Qed.

Lemma mq_shape_count cap wid mq x m free queue y : mq_shape cap wid mq x m free queue y ->
  Z.of_nat (length free) + Z.of_nat (length queue + length (y_calls y)) = cap.
Proof.
  intros ((_ & _ & _ & _ & Hok) & _ & <- & _). rewrite <- (qo_count _ _ _ _ Hok), !length_app, length_fmap. lia.
Qed.

(** The calls whose nodes are held see nothing of what happens to the others. *)
Lemma held_same_calls m m' (cs : list mq_call) held : held_same m m' held -> (forall c, c ∈ cs -> call_msg c ∈ held) ->
  abs_call m' <$> cs = abs_call m <$> cs /\ (Forall (call_ok m) cs -> Forall (call_ok m') cs).
Proof.
  intros (H1 & H2 & H3 & _) Hcs. split.
  - apply list_fmap_ext. intros i c _. destruct c; cbn; by rewrite ?H1, ?H3.
  - intros Hf. apply Forall_forall. intros c Hc. pose proof (proj1 (Forall_forall _ _) Hf c Hc) as Hok. specialize (Hcs c Hc).
    destruct c; cbn in *; try done; [by rewrite H3|]. intros Hu. rewrite H2 by done. by apply Hok.
Qed.
Lemma call_msg_in c (cs : list mq_call) : c ∈ cs -> call_msg c ∈ call_msg <$> cs.
Proof. apply list_elem_of_fmap_2. Qed.

(** A state with the queue's table changed and the kernel's objects as they were. *)
Lemma mq_sys_change cap wid mq x m m' free free' queue queue' k k' t cs cs' :
  mq_sys_ok cap wid mq (Sys (k, t) cs) -> mq_shape cap wid mq x m free queue (Sys (k, t) cs) ->
  ipc_inv k' -> objects k' = objects k -> k_tick k' = k_tick k -> (pending k -> pending k') -> is_Some (k_current k') ->
  mq_ok m' free' queue' (call_msg <$> cs') -> mq_msg_size m' = mq_msg_size m -> mq_max_msgs m' = mq_max_msgs m ->
  Forall (call_ok m') cs' ->
  mq_shape cap wid mq x m' free' queue' (Sys (k', <[mq := m']> t) cs') /\ mq_sys_ok cap wid mq (Sys (k', <[mq := m']> t) cs').
Proof.
  intros [_ [Hp Ht] _ _] ((Hx & Hcx & Hf & _) & Hfl & Hmx & Hsz & _) Hi Ho Hk Hp' Hc Hok Es Em Hcalls.
  cbn [y_state y_calls fst snd] in *.
  assert (Hs : mq_shape cap wid mq x m' free' queue' (Sys (k', <[mq := m']> t) cs')).
  { split; [|by rewrite Es, Em]. split; [by eapply objects_obj|]. do 2 (split; [done|]). split; [apply lookup_insert_eq|done]. }
  split; [done|]. split; [done|split; [by apply Hp'|by cbn [y_state fst]; rewrite Hk]|done|]. by exists x, m', free', queue'.
Qed.

Lemma slept_simulates_mq {A} cap wid mq x m free queue k t cs h c th timeout (r : outcome (Z * Z) A) s' :
  mq_sys_ok cap wid mq (Sys (k, t) cs) -> mq_shape cap wid mq x m free queue (Sys (k, t) cs) -> runs c th k ->
  slept mq h x c th timeout r (k, t) s' ->
  exists k', s' = (k', t) /\ mq_shape cap wid mq x m free queue (Sys s' cs) /\ mq_sys_ok cap wid mq (Sys s' cs) /\
    k_tlist k' h = k_tlist k h ++ [c] /\ (c ∉ k_tlist k h) /\ forall h', wait_head h' -> h' ≠ h -> k_tlist k' h' = k_tlist k h'.
Proof.
  intros Hok Hsh (Hc & Ht & Hst & _) (_ & Hb & Et). destruct s' as [k' t']. cbn [fst snd] in Hb, Et. subst t'.
  exists k'. split; [done|]. pose proof Hsh as ((_ & _ & _ & Hm & Hmq) & Hf & _ & _ & Hcs). cbn [y_state y_calls fst snd] in *.
  destruct (mq_sys_change cap wid mq x m m free free queue queue k k' t cs cs) as [H1 H2];
    [done|done|apply Hb|apply Hb|apply Hb|intros _; apply Hb|apply Hb|done|done|done|done|].
  rewrite (insert_id t mq m Hm) in H1, H2. split; [done|]. split; [done|].
  destruct (bl_queue _ _ _ _ _ _ _ Hb) as (l1 & l2 & E1 & -> & Hq). rewrite Hf in Hq. cbn in Hq. subst l2.
  rewrite app_nil_r in E1. rewrite E1. split; [done|]. split; [|apply (bl_queues _ _ _ _ _ _ _ Hb)].
  rewrite <- E1. by eapply running_unlinked; [apply Hok|..].
Qed.

Lemma refused_simulates_mq cap wid mq c th e k t cs s' :
  mq_sys_ok cap wid mq (Sys (k, t) cs) -> runs c th k -> ipc_inv s'.1 ->
  s' = (k, t) \/ s' = (set_k_threads <[c := set_th_error (fun _ => e) th]> k, t) ->
  mq_of mq (Sys s' cs) = mq_of mq (Sys (k, t) cs) /\ mq_sys_ok cap wid mq (Sys s' cs).
Proof.
  intros Hok (Hc & _) Hi' [-> | ->]; [done|]. split; [done|]. pose proof Hok as [_ [Hp Ht] _ (x & m & free & queue & Hsh)].
  split; [done|split; [by eapply pending_ext; [..|exact Hp]|done]|by exists c|]. by exists x, m, free, queue.
Qed.

(** A call begins by taking a free node, whatever kind of message it sends. *)
Lemma begin_simulates cap wid mq x m a free queue u buf k t cs m' :
  mq_sys_ok cap wid mq (Sys (k, t) cs) -> mq_shape cap wid mq x m (a :: free) queue (Sys (k, t) cs) ->
  Z.of_nat (length buf) <= wid -> mq_ok m' free queue ((call_msg <$> cs) ++ [a]) -> held_same m m' (call_msg <$> cs) ->
  mq_spec cap wid (mq_of mq (Sys (k, t) cs)) (QSend u buf (Returned None)) (mq_of mq (Sys (k, <[mq := m']> t) (cs ++ [CFill u a buf]))) /\
  mq_sys_ok cap wid mq (Sys (k, <[mq := m']> t) (cs ++ [CFill u a buf])).
Proof.
  intros Hok Hsh Hb Hok' Hsm. pose proof (mq_shape_count _ _ _ _ _ _ _ _ Hsh) as Hct. cbn [length y_calls] in Hct.
  pose proof Hsh as ((_ & _ & _ & _ & Hmq) & _ & _ & Hwid & Hcs). cbn [y_state y_calls fst snd] in *.
  destruct (held_same_calls m m' cs _ Hsm) as [Ea Hcs']; [intros c0 Hc0; by apply call_msg_in|]. pose proof Hsm as (S1 & _ & S3 & S4).
  destruct (mq_sys_change cap wid mq x m m' (a :: free) free queue queue k k t cs (cs ++ [CFill u a buf])) as [Hsh' Hok2];
    [done|done|apply Hok|done|done|done|apply Hok|by rewrite fmap_app|done|done| |].
  { apply Forall_app. split; [by apply Hcs'|]. constructor; [|constructor]. cbn. by rewrite S3, Hwid. }
  split; [|done]. rewrite (mq_of_shape _ _ _ _ _ _ _ _ _ _ Hsh), (mq_of_shape _ _ _ _ _ _ _ _ _ _ Hsh').
  rewrite fmap_app, Ea. cbn [fmap list_fmap abs_call]. rewrite (list_fmap_ext (content m') (content m) queue) by done.
  rewrite S1. destruct (qo_nodes _ _ _ _ Hmq a) as (_ & _ & Hl); [clear; mem|].
  constructor; [rewrite !length_fmap; lia|rewrite length_app, length_drop; lia].
Qed.

Lemma send_simulates_mq cap wid mq x m free queue c th buf timeout r k t cs s' :
  mq_sys_ok cap wid mq (Sys (k, t) cs) -> mq_shape cap wid mq x m free queue (Sys (k, t) cs) -> runs c th k ->
  Z.of_nat (length buf) <= wid -> ipc_inv s'.1 -> claim_post mq x m free queue (call_msg <$> cs) c th timeout r (k, t) s' ->
  mq_spec cap wid (mq_of mq (Sys (k, t) cs)) (QSend false buf (told r)) (mq_of mq (Sys s' (cs ++ begun (fun a => CFill false a buf) r))) /\
  mq_sys_ok cap wid mq (Sys s' (cs ++ begun (fun a => CFill false a buf) r)).
Proof.
  intros Hok Hsh Hr Hb Hi' Hp. pose proof (mq_shape_count _ _ _ _ _ _ _ _ Hsh) as Hct. cbn [y_calls] in Hct.
  unfold claim_post in Hp. destruct free as [|a free]; [cbn [length] in Hct; destruct (Z.eqb_spec timeout 0)|].
  - destruct Hp as [-> Hs']. cbn [told begun]. rewrite app_nil_r.
    destruct (refused_simulates_mq cap wid mq c th RT_EOK k t cs s' Hok Hr Hi' Hs') as [-> Hok']. split; [|done].
    rewrite (mq_of_shape _ _ _ _ _ _ _ _ _ _ Hsh). constructor. rewrite !length_fmap. lia.
  - destruct (slept_simulates_mq cap wid mq x m [] queue k t cs _ c th timeout r s' Hok Hsh Hr Hp) as (k' & -> & Hsh' & Hok' & E1 & Hn & E2).
    destruct Hp as (-> & _). cbn [told begun]. rewrite app_nil_r. split; [|done].
    rewrite (mq_of_shape _ _ _ _ _ _ _ _ _ _ Hsh), (mq_of_shape _ _ _ _ _ _ _ _ _ _ Hsh'), E1, E2 by done.
    constructor; [rewrite !length_fmap; lia|done].
  - destruct Hp as (-> & m' & -> & Hok' & Hsm). by eapply begin_simulates.
Qed.

Lemma recv_simulates_mq cap wid mq x m free queue c th size timeout r k t cs s' :
  mq_sys_ok cap wid mq (Sys (k, t) cs) -> mq_shape cap wid mq x m free queue (Sys (k, t) cs) -> runs c th k ->
  ipc_inv s'.1 -> take_post mq x m free queue (call_msg <$> cs) c th timeout r (k, t) s' ->
  mq_spec cap wid (mq_of mq (Sys (k, t) cs)) (QRecv size (told r)) (mq_of mq (Sys s' (cs ++ begun (fun a => CRead a size) r))) /\
  mq_sys_ok cap wid mq (Sys s' (cs ++ begun (fun a => CRead a size) r)).
Proof.
  intros Hok Hsh Hr Hi' Hp. pose proof Hsh as ((_ & _ & _ & _ & Hmq) & _ & _ & Hwid & Hcs). cbn [y_state y_calls fst snd] in *.
  unfold take_post in Hp. destruct queue as [|a queue]; [destruct (Z.eqb_spec timeout 0)|].
  - destruct Hp as [-> Hs']. cbn [told begun]. rewrite app_nil_r.
    destruct (refused_simulates_mq cap wid mq c th (- RT_ETIMEOUT) k t cs s' Hok Hr Hi' Hs') as [-> Hok']. split; [|done].
    rewrite (mq_of_shape _ _ _ _ _ _ _ _ _ _ Hsh). constructor.
  - destruct (slept_simulates_mq cap wid mq x m free [] k t cs _ c th timeout r s' Hok Hsh Hr Hp) as (k' & -> & Hsh' & Hok' & E1 & Hn & E2).
    destruct Hp as (-> & _). cbn [told begun]. rewrite app_nil_r. split; [|done].
    rewrite (mq_of_shape _ _ _ _ _ _ _ _ _ _ Hsh), (mq_of_shape _ _ _ _ _ _ _ _ _ _ Hsh'), E1, E2 by done. by constructor.
  - destruct Hp as (-> & m' & -> & Hok' & Hsm). cbn [told begun fst snd].
    destruct (held_same_calls m m' cs _ Hsm) as [Ea Hcs']; [intros c0 Hc0; by apply call_msg_in|]. pose proof Hsm as (S1 & _ & S3 & S4).
    destruct (mq_sys_change cap wid mq x m m' free free (a :: queue) queue k k t cs (cs ++ [CRead a size])) as [Hsh' Hok2];
      [done|done|done|done|done|done|apply Hok|by rewrite fmap_app|done|done| |].
    { apply Forall_app. split; [by apply Hcs'|]. by constructor. }
    split; [|done]. rewrite (mq_of_shape _ _ _ _ _ _ _ _ _ _ Hsh), (mq_of_shape _ _ _ _ _ _ _ _ _ _ Hsh').
    rewrite fmap_app, Ea. cbn [fmap list_fmap abs_call]. rewrite (list_fmap_ext (content m') (content m) queue) by done.
    rewrite S1, S3, Hwid. constructor.
Qed.

(** The calls but the one whose piece runs. *)
Lemma other_calls (m m' : rt_messagequeue) (c1 c2 : list mq_call) (c : mq_call) held :
  held_same m m' held -> (forall d, d ∈ c1 ++ c2 -> call_msg d ∈ held) -> Forall (call_ok m) (c1 ++ c :: c2) ->
  abs_call m' <$> c1 = abs_call m <$> c1 /\ abs_call m' <$> c2 = abs_call m <$> c2 /\ Forall (call_ok m') (c1 ++ c2).
Proof.
  intros Hsm Hin Hf. rewrite Forall_app, Forall_cons in Hf. destruct Hf as (Hf1 & _ & Hf2).
  destruct (held_same_calls m m' c1 held Hsm) as [E1 F1]; [intros d Hd; apply Hin; clear -Hd; mem|].
  destruct (held_same_calls m m' c2 held Hsm) as [E2 F2]; [intros d Hd; apply Hin; clear -Hd; mem|].
  split; [done|]. split; [done|]. apply Forall_app. split; [by apply F1|by apply F2].
Qed.

(** The last piece of a call: its node has gone to the queue or the free list, and the first
    thread of [h] is awake. *)
Lemma last_piece cap wid mq x m free free' queue queue' h c c1 c2 k k' t m' :
  mq_sys_ok cap wid mq (Sys (k, t) (c1 ++ c :: c2)) -> mq_shape cap wid mq x m free queue (Sys (k, t) (c1 ++ c :: c2)) ->
  wait_head h -> ipc_inv k' -> roused h k k' -> mq_ok m' free' queue' (call_msg <$> c1 ++ c2) -> held_same m m' (call_msg <$> c1 ++ c2) ->
  mq_sys_ok cap wid mq (Sys (k', <[mq := m']> t) (c1 ++ c2)) /\
  mq_of mq (Sys (k', <[mq := m']> t) (c1 ++ c2)) =
    QAbs (content m <$> queue') ((abs_call m <$> c1) ++ (abs_call m <$> c2)) (k_tlist k' (LSuspend (OMq mq))) (k_tlist k' (LSender (OMq mq))) /\
  k_tlist k' h = tail (k_tlist k h) /\ forall h', wait_head h' -> h' ≠ h -> k_tlist k' h' = k_tlist k h'.
Proof.
  intros Hok Hsh Hh Hi' Hr Hok' Hsm. pose proof Hsh as (_ & _ & _ & _ & Hcs). cbn [y_calls] in Hcs.
  destruct (other_calls m m' c1 c2 c _ Hsm) as (E1 & E2 & Hcs'); [intros d Hd; by apply call_msg_in|exact Hcs|].
  destruct (roused_rest _ _ _ Hr) as (R1 & R2 & R3 & R4). pose proof Hsm as (S1 & _ & S3 & S4).
  destruct (mq_sys_change cap wid mq x m m' free free' queue queue' k k' t _ (c1 ++ c2) Hok Hsh)
    as [Hsh' Hok2]; [done|done|done|done|apply R4, Hok|done|done|done|done|].
  split; [done|]. rewrite (mq_of_shape _ _ _ _ _ _ _ _ _ _ Hsh'), fmap_app, E1, E2.
  rewrite (list_fmap_ext (content m') (content m)) by done. split; [done|].
  apply roused_queues; [apply (yk_inv _ _ _ _ Hok)|done|done].
Qed.

Lemma link_simulates cap wid mq x m free queue u a r c1 c2 k t s' :
  mq_sys_ok cap wid mq (Sys (k, t) (c1 ++ CLink u a :: c2)) ->
  mq_shape cap wid mq x m free queue (Sys (k, t) (c1 ++ CLink u a :: c2)) -> mq_link u mq a (k, t) = Some (r, s') ->
  mq_spec cap wid (mq_of mq (Sys (k, t) (c1 ++ CLink u a :: c2))) (QPost (length c1) r) (mq_of mq (Sys s' (c1 ++ c2))) /\
  mq_sys_ok cap wid mq (Sys s' (c1 ++ c2)).
Proof.
  intros Hok Hsh E. pose proof Hsh as ((_ & _ & _ & Hm & Hmq) & _ & _ & _ & Hcs). cbn [y_state y_calls fst snd] in *.
  rewrite fmap_app in Hmq. cbn [fmap list_fmap call_msg] in Hmq.
  assert (Hw : wp (mq_link u mq a) (fun r s' => r = RT_EOK /\ exists k' m', s' = (k', <[mq := m']> t) /\ ipc_inv k' /\
    roused (LSuspend (OMq mq)) k k' /\ mq_ok m' free (if u then a :: queue else queue ++ [a]) (call_msg <$> c1 ++ c2) /\
    held_same m m' (call_msg <$> c1 ++ c2)) (k, t)).
  { eapply wp_mq_link; [apply Hok|apply Hok|done|exact Hmq| |].
    - rewrite Forall_app, Forall_cons in Hcs. by destruct Hcs as (_ & ? & _).
    - intros k' m' Hi' Hr Hok' Hsm. rewrite fmap_app. split; [done|]. by exists k', m'. }
  unfold wp in Hw. rewrite E in Hw. destruct Hw as (-> & k' & m' & -> & Hi' & Hr & Hok' & Hsm).
  edestruct last_piece as (Hok2 & Hof & Q1 & Q2); [exact Hok|exact Hsh| |exact Hi'|exact Hr|exact Hok'|exact Hsm|]; [done|]; rewrite Hof; clear Hof.
  split; [|done]. rewrite (mq_of_shape _ _ _ _ _ _ _ _ _ _ Hsh), Q1, Q2, fmap_app by done. cbn [fmap list_fmap abs_call].
  replace (length c1) with (length (abs_call m <$> c1)) by apply length_fmap.
  pose proof (qs_post cap wid (content m <$> queue) (abs_call m <$> c1) u (content m a) (abs_call m <$> c2)) as H.
  destruct u; [|rewrite fmap_app]; apply H.
Qed.

Lemma done_simulates cap wid mq x m free queue a r c1 c2 k t s' :
  mq_sys_ok cap wid mq (Sys (k, t) (c1 ++ CDone a :: c2)) ->
  mq_shape cap wid mq x m free queue (Sys (k, t) (c1 ++ CDone a :: c2)) -> mq_release mq a (k, t) = Some (r, s') ->
  mq_spec cap wid (mq_of mq (Sys (k, t) (c1 ++ CDone a :: c2))) (QDone (length c1) r) (mq_of mq (Sys s' (c1 ++ c2))) /\
  mq_sys_ok cap wid mq (Sys s' (c1 ++ c2)).
Proof.
  intros Hok Hsh E. pose proof Hsh as ((_ & _ & _ & Hm & Hmq) & _). cbn [y_state y_calls fst snd] in *.
  rewrite fmap_app in Hmq. cbn [fmap list_fmap call_msg] in Hmq.
  assert (Hw : wp (mq_release mq a) (fun r s' => r = RT_EOK /\ exists k' m', s' = (k', <[mq := m']> t) /\ ipc_inv k' /\
    roused (LSender (OMq mq)) k k' /\ mq_ok m' (a :: free) queue (call_msg <$> c1 ++ c2) /\
    held_same m m' (call_msg <$> c1 ++ c2)) (k, t)).
  { eapply wp_mq_release; [apply Hok|apply Hok|done|exact Hmq|].
    intros k' m' Hi' Hr Hok' Hsm. rewrite fmap_app. split; [done|]. by exists k', m'. }
  unfold wp in Hw. rewrite E in Hw. destruct Hw as (-> & k' & m' & -> & Hi' & Hr & Hok' & Hsm).
  edestruct last_piece as (Hok2 & Hof & Q1 & Q2); [exact Hok|exact Hsh| |exact Hi'|exact Hr|exact Hok'|exact Hsm|]; [done|]; rewrite Hof; clear Hof.
  split; [|done]. rewrite (mq_of_shape _ _ _ _ _ _ _ _ _ _ Hsh), Q1, Q2, fmap_app by done. cbn [fmap list_fmap abs_call].
  replace (length c1) with (length (abs_call m <$> c1)) by apply length_fmap. constructor.
Qed.

(** Filling a node is not seen from outside: the message is the one announced. *)
Lemma fill_simulates cap wid mq x m free queue u a buf c1 c2 k t s' :
  mq_sys_ok cap wid mq (Sys (k, t) (c1 ++ CFill u a buf :: c2)) ->
  mq_shape cap wid mq x m free queue (Sys (k, t) (c1 ++ CFill u a buf :: c2)) -> mq_copy_in u mq a buf (k, t) = Some (tt, s') ->
  mq_of mq (Sys s' (c1 ++ CLink u a :: c2)) = mq_of mq (Sys (k, t) (c1 ++ CFill u a buf :: c2)) /\
  mq_sys_ok cap wid mq (Sys s' (c1 ++ CLink u a :: c2)).
Proof.
  intros Hok Hsh E. pose proof Hsh as ((_ & _ & _ & Hm & Hmq) & _ & _ & Hwid & Hcs). cbn [y_state y_calls fst snd] in *.
  rewrite fmap_app in Hmq. cbn [fmap list_fmap call_msg] in Hmq. rewrite Forall_app, Forall_cons in Hcs. destruct Hcs as (F1 & F & F2).
  assert (Hw : wp (mq_copy_in u mq a buf) (fun _ s' => exists m', s' = (k, <[mq := m']> t) /\
    mq_ok m' free queue (call_msg <$> c1 ++ CLink u a :: c2) /\ (u = false -> next_of m' a = Some 0) /\
    (forall b, b ≠ a -> next_of m' b = next_of m b /\ content m' b = content m b) /\
    content m' a = buf ++ drop (length buf) (content m a) /\ mq_msg_size m' = mq_msg_size m /\ mq_max_msgs m' = mq_max_msgs m) (k, t)).
  { eapply wp_mq_copy_in; [done|exact Hmq|exact F|]. intros m' H1 H2 H3 H4 H5 H6. exists m'. rewrite fmap_app. done. }
  unfold wp in Hw. rewrite E in Hw. destruct Hw as (m' & -> & Hok' & Hna & Hoth & Hca & S3 & S4).
  destruct (held_mid _ _ _ _ _ (qo_nodup _ _ _ _ Hmq)) as (_ & Hnq & _ & _ & _ & Hd).
  assert (Hc : forall c, c ∈ c1 ++ c2 -> call_msg c ≠ a).
  { intros c Hc. apply Hd. rewrite <- fmap_app. by apply call_msg_in. }
  assert (Hsame : forall c, c ∈ c1 ++ c2 -> abs_call m' c = abs_call m c /\ (call_ok m c -> call_ok m' c)).
  { intros c Hin. specialize (Hc c Hin). destruct (Hoth _ Hc) as [N1 N2]. destruct c; cbn in *; rewrite ?S3, ?N1, ?N2; done. }
  destruct (mq_sys_change cap wid mq x m m' free free queue queue k k t _ (c1 ++ CLink u a :: c2) Hok Hsh)
    as [Hsh' Hok2]; [apply Hok|done|done|done|apply Hok|done|done|done| |].
  { rewrite Forall_app, Forall_cons. rewrite Forall_forall in F1, F2. split; [|split; [done|]]; apply Forall_forall; intros c Hin;
      (apply Hsame; [clear -Hin; mem|auto]). }
  split; [|done]. rewrite (mq_of_shape _ _ _ _ _ _ _ _ _ _ Hsh), (mq_of_shape _ _ _ _ _ _ _ _ _ _ Hsh').
  rewrite !fmap_app. cbn [fmap list_fmap abs_call]. rewrite Hca. f_equal.
  - apply list_fmap_ext. intros i b Hb. apply Hoth. intros ->. apply Hnq. by eapply list_elem_of_lookup_2.
  - f_equal; [|f_equal]; apply list_fmap_ext; intros i c Hi; apply list_elem_of_lookup_2 in Hi; (apply Hsame; clear -Hi; mem).
Qed.

Lemma read_simulates cap wid mq x m free queue a n d c1 c2 k t s' :
  mq_sys_ok cap wid mq (Sys (k, t) (c1 ++ CRead a n :: c2)) ->
  mq_shape cap wid mq x m free queue (Sys (k, t) (c1 ++ CRead a n :: c2)) -> mq_copy_out mq a n (k, t) = Some (d, s') ->
  mq_spec cap wid (mq_of mq (Sys (k, t) (c1 ++ CRead a n :: c2))) (QGot (length c1) d) (mq_of mq (Sys s' (c1 ++ CDone a :: c2))) /\
  mq_sys_ok cap wid mq (Sys s' (c1 ++ CDone a :: c2)).
Proof.
  intros Hok Hsh E. pose proof Hsh as (Hl & Hfl & Hmx & Hwid & Hcs). pose proof Hl as (_ & _ & _ & Hm & Hmq). cbn [y_state y_calls fst snd] in *.
  assert (Hw : wp (mq_copy_out mq a n) (fun d s' => d = take (Z.to_nat (Z.min (mq_msg_size m) n)) (content m a) /\ s' = (k, t)) (k, t)).
  { eapply wp_mq_copy_out; [done| |done]. apply (qo_nodes _ _ _ _ Hmq). rewrite fmap_app. cbn. clear. mem. }
  unfold wp in Hw. rewrite E in Hw. destruct Hw as [-> ->].
  assert (Hsh' : mq_shape cap wid mq x m free queue (Sys (k, t) (c1 ++ CDone a :: c2))).
  { split; [cbn [y_calls] in *; rewrite fmap_app in *; exact Hl|]. do 3 (split; [done|]). cbn [y_calls]. rewrite Forall_app, Forall_cons in Hcs |- *.
    by destruct Hcs as (? & _ & ?). }
  split; [|split; [apply Hok|apply Hok|apply Hok|by exists x, m, free, queue]].
  rewrite (mq_of_shape _ _ _ _ _ _ _ _ _ _ Hsh), (mq_of_shape _ _ _ _ _ _ _ _ _ _ Hsh').
  rewrite !fmap_app. cbn [fmap list_fmap abs_call]. replace (length c1) with (length (abs_call m <$> c1)) by apply length_fmap. constructor.
Qed.

Lemma reset_simulates cap wid mq x m free queue cs r k t s' :
  mq_sys_ok cap wid mq (Sys (k, t) cs) -> mq_shape cap wid mq x m free queue (Sys (k, t) cs) ->
  rt_mq_control mq RT_IPC_CMD_RESET (k, t) = Some (r, s') ->
  mq_spec cap wid (mq_of mq (Sys (k, t) cs)) QReset (mq_of mq (Sys s' cs)) /\ mq_sys_ok cap wid mq (Sys s' cs).
Proof.
  intros Hok Hsh E. pose proof Hsh as (Hl & _ & _ & _ & Hcs). cbn [y_state y_calls] in *.
  assert (Hw : wp (rt_mq_control mq RT_IPC_CMD_RESET) (fun _ s' => mq_spec cap wid (mq_of mq (Sys (k, t) cs)) QReset (mq_of mq (Sys s' cs)) /\
    mq_sys_ok cap wid mq (Sys s' cs)) (k, t)).
  { eapply wp_rt_mq_reset; [apply Hok|exact Hl|apply Hok|]. intros k' m' Hi' Ho Hk Hp Hc E1 E2 Hok' Hsm.
    destruct (held_same_calls m m' cs _ Hsm) as [Ea Hcs']; [intros c0 Hc0; by apply call_msg_in|]. pose proof Hsm as (_ & _ & S3 & S4).
    destruct (mq_sys_change cap wid mq x m m' free (rev queue ++ free) queue [] k k' t cs cs Hok Hsh) as [Hsh' Hok2];
      [done|done|done|done|done|done|done|done|by apply Hcs'|]. split; [|done].
    rewrite (mq_of_shape _ _ _ _ _ _ _ _ _ _ Hsh), (mq_of_shape _ _ _ _ _ _ _ _ _ _ Hsh'), Ea, E1, E2. constructor. }
  unfold wp in Hw. by rewrite E in Hw.
Qed.

Lemma timeout_simulates_mq cap wid mq x m free queue cs t0 h k t k' :
  mq_sys_ok cap wid mq (Sys (k, t) cs) -> mq_shape cap wid mq x m free queue (Sys (k, t) cs) ->
  h = LSuspend (OMq mq) \/ h = LSender (OMq mq) -> t0 ∈ k_tlist k h ->
  (forall r, r = TLHard \/ r = TLSoft -> TThread t0 ∉ k_trow k r) -> rt_thread_timeout t0 k = Some (tt, k') ->
  mq_spec cap wid (mq_of mq (Sys (k, t) cs)) (QTimeout t0) (mq_of mq (Sys (k', t) cs)) /\ mq_sys_ok cap wid mq (Sys (k', t) cs).
Proof.
  intros Hok Hsh Hh Hin Hoff E. pose proof Hok as [Hi _ Hc _]. cbn [y_state fst] in Hi, Hc.
  assert (Hwh : wait_head h) by (by destruct Hh as [-> | ->]).
  destruct (ii_wait _ Hi h t0 Hwh Hin) as (th & Ht & Hst).
  pose proof (wp_result _ _ _ _ _ (wp_timeout_ipc t0 th k Hi Hc Ht Hst Hoff) E) as Hw. cbn beta in Hw.
  pose proof Hsh as ((_ & _ & _ & Hm & Hmq) & _ & _ & _ & Hcs). cbn [y_state y_calls fst snd] in *.
  destruct (mq_sys_change cap wid mq x m m free free queue queue k k' t cs cs Hok Hsh) as [Hsh' Hok2];
    [apply Hw|apply Hw|apply Hw|apply Hw|by apply Hw|done|done|done|done|].
  rewrite (insert_id t mq m Hm) in Hsh', Hok2. split; [|done].
  apply list_elem_of_split in Hin as (q1 & q2 & Eq). destruct (woken_mid h t0 q1 q2 _ k k' Hi Hwh Eq Hw) as [E1 E2].
  rewrite (mq_of_shape _ _ _ _ _ _ _ _ _ _ Hsh), (mq_of_shape _ _ _ _ _ _ _ _ _ _ Hsh').
  destruct Hh as [-> | ->]; rewrite Eq, E1, E2 by done; constructor.
Qed.

Lemma resumed_turn {A} c th l (turn : Z -> Q (outcome (Z * Z) (Z + A))) k t :
  runs c th k -> th_error th = RT_EOK ->
  (th ← kcall (get_thread c);
   if negb (th_error th =? RT_EOK) then mret (Returned (inl (th_error th)))
   else tick ← kcall rt_tick_get; turn (time_left l.1 l.2 tick)) (k, t) = turn (time_left l.1 l.2 (k_tick k)) (k, t).
Proof.
  intros (_ & Hth & _) He. rewrite (bind_some _ _ (k, t) th (k, t)); [|unfold kcall, get_thread, deref; cbn; by rewrite Hth].
  by rewrite He.
Qed.

Lemma giveup_same {A} c th (f : Z -> A) (rest : Q A) k t r s' :
  runs c th k -> th_error th ≠ RT_EOK ->
  (th ← kcall (get_thread c); if negb (th_error th =? RT_EOK) then mret (f (th_error th)) else rest) (k, t) = Some (r, s') ->
  s' = (k, t).
Proof.
  intros (_ & Hth & _) He. rewrite (bind_some _ _ (k, t) th (k, t)); [|unfold kcall, get_thread, deref; cbn; by rewrite Hth].
  rewrite (proj2 (Z.eqb_neq _ _) He). by intros [= _ <-].
Qed.

Lemma urgent_simulates cap wid mq x m free queue buf r cs k t s' :
  mq_sys_ok cap wid mq (Sys (k, t) cs) -> mq_shape cap wid mq x m free queue (Sys (k, t) cs) -> buf ≠ [] ->
  rt_mq_urgent mq (Z.of_nat (length buf)) (k, t) = Some (r, s') ->
  mq_spec cap wid (mq_of mq (Sys (k, t) cs)) (QSend true buf (told (Returned r)))
    (mq_of mq (Sys s' (cs ++ begun (fun a => CFill true a buf) (Returned r)))) /\
  mq_sys_ok cap wid mq (Sys s' (cs ++ begun (fun a => CFill true a buf) (Returned r))).
Proof.
  intros Hok Hsh Hb E. pose proof Hsh as (Hl & _ & _ & Hwid & _). pose proof (mq_shape_count _ _ _ _ _ _ _ _ Hsh) as Hct. cbn [y_calls] in Hct.
  assert (Hsz : Z.of_nat (length buf) ≠ 0) by (destruct buf; cbn; [done|lia]).
  pose proof (wp_result _ _ _ _ _ (wp_rt_mq_urgent mq x m free queue _ _ k t (yk_inv _ _ _ _ Hok) Hl Hsz) E) as Hp. cbn beta in Hp.
  rewrite Hwid in Hp. destruct (Z.ltb_spec wid (Z.of_nat (length buf))); [|destruct free as [|a free]].
  - destruct Hp as [-> ->]. cbn [told begun]. rewrite app_nil_r. split; [|done]. by constructor.
  - destruct Hp as [-> ->]. cbn [told begun length] in *. rewrite app_nil_r. split; [|done].
    rewrite (mq_of_shape _ _ _ _ _ _ _ _ _ _ Hsh). constructor. rewrite !length_fmap. lia.
  - destruct Hp as (-> & m' & -> & Hok' & Hsm). by eapply begin_simulates.
Qed.

Lemma mq_step_simulates tt cap wid mq y l y' :
  mq_sys_ok cap wid mq y -> mq_step tt cap wid mq y l y' -> mq_spec cap wid (mq_of mq y) l (mq_of mq y') /\ mq_sys_ok cap wid mq y'.
Proof.
  intros Hok Hstep. pose proof Hok as [Hi Hcl Hc (x & m & free & queue & Hsh)].
  destruct Hstep as [c th buf timeout r [k t] s' cs Hr Ht Hb E|c th buf l r [k t] s' cs Hr He Ht Htl Hb E|buf r [k t] s' cs Hb E
    |u a buf c1 c2 [k t] s' E|u a r c1 c2 [k t] s' E|c th size timeout r [k t] s' cs Hr Ht Hb E
    |c th size l r [k t] s' cs Hr He Ht Htl E|a size d c1 c2 [k t] s' E|a r c1 c2 [k t] s' E|r [k t] s' cs E
    |c th l r [k t] s' cs Hr He E|t0 h [k t] k' cs Hh Hin Hoff E|y y' Hok' E]; cbn [y_state y_calls fst snd] in *.
  - assert (Hsz : Z.of_nat (length buf) ≠ 0) by (destruct buf; cbn; [done|lia]). pose proof Hsh as (Hl & _ & _ & Hwid & _).
    destruct (wp_result _ _ _ _ _ (wp_rt_mq_send_wait tt mq x m free queue _ c th _ timeout k t Hi Hcl Hl Hr Ht Hsz) E) as [Hi' Hp].
    rewrite Hwid in Hp. destruct (Z.ltb_spec wid (Z.of_nat (length buf))); [|by eapply send_simulates_mq].
    destruct Hp as [-> ->]. cbn [told begun]. rewrite app_nil_r. split; [|done]. by constructor.
  - unfold rt_mq_send_resumed in E. rewrite (resumed_turn c th l) in E by done.
    destruct (wp_result _ _ _ _ _ (wp_mq_send_turn tt mq x m free queue _ c th _ k t Hi Hcl (proj1 Hsh) Hr (time_left_range _ _ _ Ht Htl)) E) as [Hi' Hp].
    by eapply send_simulates_mq.
  - by eapply urgent_simulates.
  - destruct (fill_simulates _ _ _ _ _ _ _ _ _ _ _ _ _ _ _ Hok Hsh E) as [-> H2]. split; [constructor|done].
  - by eapply link_simulates.
  - destruct (wp_result _ _ _ _ _ (wp_rt_mq_recv tt mq x m free queue _ c th size timeout k t Hi Hcl (proj1 Hsh) Hr Ht Hb) E) as [Hi' Hp].
    by eapply recv_simulates_mq.
  - unfold rt_mq_recv_resumed in E. rewrite (resumed_turn c th l) in E by done.
    destruct (wp_result _ _ _ _ _ (wp_mq_recv_turn tt mq x m free queue _ c th _ k t Hi Hcl (proj1 Hsh) Hr (time_left_range _ _ _ Ht Htl)) E) as [Hi' Hp].
    by eapply recv_simulates_mq.
  - by eapply read_simulates.
  - by eapply done_simulates.
  - by eapply reset_simulates.
  - assert (s' = (k, t)) as -> by (destruct E as [E|E]; exact (giveup_same c th (fun e => Returned (inl e)) _ k t r s' Hr He E)).
    split; [constructor|done].
  - by eapply timeout_simulates_mq.
  - rewrite E. split; [constructor|done].
Qed.

(** C10: Refinement: however the pieces of the calls interleave with each other, the tick and the
    rest of the kernel, the message queue is a queue of at most [cap] messages: each
    message posted is received once, whole, in the order of posting (urgent ones first); a
    node counts against the capacity from the moment a sender takes it until the receiver
    has copied it; and the waiting threads are served in the order they came. *)
Theorem mq_refines timer_thread cap wid mq y tr y' :
  mq_sys_ok cap wid mq y -> steps (mq_step timer_thread cap wid mq) y tr y' ->
  steps (mq_spec cap wid) (mq_of mq y) tr (mq_of mq y') /\ mq_sys_ok cap wid mq y'.
Proof. apply simulation. intros. by eapply mq_step_simulates. Qed.

(** ** The initial queue *)

Definition node_at (msgpool msg_size i : Z) : Z := msgpool + i * (msg_size + sizeof_mq_message).

(** What the loop has done after [j] nodes. *)
Definition pool_built (raw : Z -> Z -> list Z) (j : nat) (m : rt_messagequeue) : Prop :=
  linked (next_of m) (mq_queue_free m) (rev (node_at (mq_msg_pool m) (mq_msg_size m) <$> seqZ 0 (Z.of_nat j))) /\
  forall i, 0 <= i < Z.of_nat j -> content m (node_at (mq_msg_pool m) (mq_msg_size m) i) =
    raw (node_at (mq_msg_pool m) (mq_msg_size m) i + sizeof_mq_message) (mq_msg_size m).

Lemma mq_free_loop_built raw n j m : 0 < mq_msg_pool m -> 0 <= mq_msg_size m -> pool_built raw j m ->
  let m' := mq_free_loop raw n (Z.of_nat j) m in
  pool_built raw (j + n) m' /\ mq_msg_pool m' = mq_msg_pool m /\ mq_msg_size m' = mq_msg_size m /\ mq_max_msgs m' = mq_max_msgs m /\
  mq_entry m' = mq_entry m /\ mq_queue_head m' = mq_queue_head m /\ mq_queue_tail m' = mq_queue_tail m.
Proof.
  intros Hp Hs. revert j m Hp Hs. induction n as [|n IH]; intros j m Hp Hs [Hl Hc]; cbn [mq_free_loop].
  - by rewrite Nat.add_0_r.
  - replace (j + S n)%nat with (S j + n)%nat by lia. replace (Z.of_nat j + 1) with (Z.of_nat (S j)) by lia.
    fold (node_at (mq_msg_pool m) (mq_msg_size m) (Z.of_nat j)). set (a := node_at (mq_msg_pool m) (mq_msg_size m) (Z.of_nat j)).
    set (m1 := set_queue_free a _). change (mq_msg_pool m) with (mq_msg_pool m1). change (mq_msg_size m) with (mq_msg_size m1).
    change (mq_max_msgs m) with (mq_max_msgs m1). change (mq_entry m) with (mq_entry m1).
    change (mq_queue_head m) with (mq_queue_head m1). change (mq_queue_tail m) with (mq_queue_tail m1).
    assert (Hne : forall i, 0 <= i < Z.of_nat j -> node_at (mq_msg_pool m) (mq_msg_size m) i ≠ a) by (intros i Hi; unfold a, node_at, sizeof_mq_message; nia).
    apply IH; [done|done|]. split.
    + change (mq_msg_pool m1) with (mq_msg_pool m). change (mq_msg_size m1) with (mq_msg_size m).
      replace (Z.of_nat (S j)) with (Z.of_nat j + 1) by lia. rewrite seqZ_app, fmap_app, rev_app_distr by lia. cbn [seqZ rev app fmap list_fmap].
      rewrite Z.add_0_l. change (mq_queue_free m1) with a. apply linked_push with (mq_queue_free m).
      * eapply linked_ext; [|exact Hl]. intros b Hb. unfold next_of, m1. cbn. rewrite lookup_insert_ne; [done|]. intros <-.
        apply list_elem_of_In, in_rev, list_elem_of_In, list_elem_of_fmap in Hb as (i & Ei & Hi). apply elem_of_seqZ in Hi. apply (Hne i); [lia|done].
      * unfold a, node_at, sizeof_mq_message. nia.
      * unfold next_of, m1. cbn. by rewrite lookup_insert_eq.
    + intros i Hi. change (mq_msg_pool m1) with (mq_msg_pool m). change (mq_msg_size m1) with (mq_msg_size m).
      unfold content, m1. cbn. destruct (decide (i = Z.of_nat j)) as [->|Hi']; [fold a; by rewrite lookup_insert_eq|].
      rewrite lookup_insert_ne by (apply not_eq_sym, Hne; lia). apply Hc. lia.
Qed.

(** All nodes of a new pool are free. *)
Theorem mq_pool_init_ok raw msgpool wid cap :
  0 < msgpool -> 0 <= wid < 2 ^ 16 -> 0 <= cap <= RT_MQ_ENTRY_MAX -> (forall a n, 0 <= n -> Z.of_nat (length (raw a n)) = n) ->
  mq_ok (mq_pool_init raw msgpool wid cap) (rev (node_at msgpool wid <$> seqZ 0 cap)) [] [].
Proof.
  intros Hp Hw Hc Hraw. unfold mq_pool_init.
  destruct (mq_free_loop_built raw (Z.to_nat cap) 0 (mkMq ∅ msgpool wid cap 0 0 0 0)) as ((Hl & Hd) & E1 & E2 & E3 & E4 & E5 & E6);
    [done|cbn; lia|split; [done|intros i Hi; lia]|]. change (Z.of_nat 0) with 0 in *. set (m := mq_free_loop _ _ _ _) in *.
  cbn [mq_msg_pool mq_msg_size mq_max_msgs mq_entry mq_queue_head mq_queue_tail] in *. rewrite E1, E2 in *.
  rewrite Nat.add_0_l, Z2Nat.id in * by lia.
  assert (Hin : forall a, a ∈ rev (node_at msgpool wid <$> seqZ 0 cap) -> exists i, a = node_at msgpool wid i /\ 0 <= i < cap).
  { intros a Ha. apply list_elem_of_In, in_rev, list_elem_of_In, list_elem_of_fmap in Ha as (i & -> & Hi).
    apply elem_of_seqZ in Hi. exists i. split; [done|lia]. }
  split; rewrite ?app_nil_r, ?E2, ?E3, ?E4, ?E5, ?E6; try done; try lia.
  - rewrite length_rev, length_fmap, length_seqZ. lia.
  - rewrite <- Permutation_rev. apply NoDup_fmap_2_strong; [|apply NoDup_seqZ].
    intros i j _ _. unfold node_at, sizeof_mq_message. nia.
  - intros a Ha. pose proof (linked_next _ _ _ _ Hl Ha) as Hn. destruct (Hin a Ha) as (i & -> & Hi).
    split; [unfold node_at, sizeof_mq_message; nia|]. split; [|by rewrite Hd, Hraw by lia].
    destruct Hn as [b Hb]. unfold next_of in Hb. destruct (mq_nodes m !! node_at msgpool wid i); [by eexists|done].
Qed.

(** ** Witnesses: queue 1 has two nodes of four bytes *)

Definition zeros (a n : Z) : list Z := repeat 0 (Z.to_nat n).
Definition sample_queue : mq_sys :=
  Sys (set_k_obj <[OMq 1 := mkObject [] 0x86 0]> sample_timers, {[ 1%positive := mq_pool_init zeros 0x1000 4 2 ]}) [].

Lemma zeros_length a n : 0 <= n -> Z.of_nat (length (zeros a n)) = n.
Proof. intros. unfold zeros. rewrite repeat_length. lia. Qed.

Lemma mq_pool_init_ok_witness : mq_ok (mq_pool_init zeros 0x1000 4 2) [0x1008; 0x1000] [] [].
Proof. apply (mq_pool_init_ok zeros 0x1000 4 2); [done|done|done|apply zeros_length]. Defined.

Lemma sample_queue_nodes : mq_ok (mq_pool_init zeros 0x1000 4 2) [0x1008; 0x1000] [] [].
Proof.
  split; try done.
  - split; [done|]. split; [done|]. eexists. split; [reflexivity|]. split; [done|]. split; [done|]. by eexists.
  - cbn. apply NoDup_cons. split; [by intros ?%list_elem_of_singleton|]. apply NoDup_singleton.
  - intros a. cbn. rewrite !elem_of_cons, elem_of_nil. intros [->|[->|[]]]; (split; [done|split; [by eexists|done]]).
Qed.
Lemma sample_queue_ok : mq_sys_ok 2 4 1 sample_queue.
Proof.
  split; cbn [sample_queue y_state y_calls fst snd].
  - apply sample_headers_ipc; try done; intros ?; cbn [k_obj set_k_obj]; by rewrite lookup_insert_ne.
  - split; [by eapply pending_ext; [..|apply sample_timers_pending]|done].
  - by eexists.
  - exists (mkObject [] 0x86 0), (mq_pool_init zeros 0x1000 4 2), [0x1008; 0x1000], [].
    split; [|done]. split; [done|]. split; [done|]. split; [by left|]. split; [done|apply sample_queue_nodes].
Qed.

(** An urgent message of three bytes is posted and received. *)
Definition sample_trace : list mq_label :=
  [QSend true [1; 2; 3] (Returned None); QTau; QPost 0 RT_EOK; QRecv 4 (Returned None); QGot 0 [1; 2; 3; 0]; QDone 0 RT_EOK].

Definition s_taken : mstate := after (rt_mq_urgent 1 3) (y_state sample_queue).
Definition s_filled : mstate := after (mq_copy_in true 1 0x1008 [1; 2; 3]) s_taken.
Definition s_posted : mstate := after (mq_link true 1 0x1008) s_filled.
Definition s_received : mstate := after (rt_mq_recv 4 1 4 0) s_posted.
Definition s_read : mstate := after (mq_copy_out 1 0x1008 4) s_received.

Lemma sample_run : exists y, steps (mq_step 4 2 4 1) sample_queue sample_trace y.
Proof.
  eexists. unfold sample_trace.
  eapply steps_cons; [refine (qt_urgent 4 2 4 1 [1; 2; 3] (inr 0x1008) _ s_taken [] _ _); [done|apply (after_some (rt_mq_urgent 1 3) (y_state sample_queue)); by vm_compute]|].
  eapply steps_cons; [refine (qt_fill 4 2 4 1 true 0x1008 [1; 2; 3] [] [] _ s_filled _); apply (after_some (mq_copy_in true 1 0x1008 [1; 2; 3]) s_taken); by vm_compute|].
  eapply steps_cons; [refine (qt_link 4 2 4 1 true 0x1008 _ [] [] _ s_posted _); apply (after_some (mq_link true 1 0x1008) s_filled); by vm_compute|].
  eapply steps_cons; [refine (qt_recv 4 2 4 1 1 (sample_thread 11 10) 4 0 (Returned (inr 0x1008)) s_posted s_received _ _ _ _ _);
    [split; [|split; [|split]]; by vm_compute|done|done|apply (after_some (rt_mq_recv 4 1 4 0) s_posted); by vm_compute]|].
  eapply steps_cons; [refine (qt_read 4 2 4 1 0x1008 4 _ [] [] _ s_read _); apply (after_some (mq_copy_out 1 0x1008 4) s_received); by vm_compute|].
  eapply steps_cons; [refine (qt_done 4 2 4 1 0x1008 _ [] [] _ (after (mq_release 1 0x1008) s_read) _); apply (after_some (mq_release 1 0x1008) s_read); by vm_compute|].
  apply steps_nil.
Qed.

Lemma mq_refines_witness : exists y, mq_sys_ok 2 4 1 y /\ steps (mq_spec 2 4) (QAbs [] [] [] []) sample_trace (mq_of 1 y).
Proof.
  destruct sample_run as [y Hy]. exists y.
  destruct (mq_refines 4 2 4 1 sample_queue sample_trace y sample_queue_ok Hy) as [H1 H2]. split; [exact H2|exact H1].
Defined.
