(* ===== verification/MemPool.v ===== *)
(** * MemPool: rt-thread/src/mempool.c, pools of blocks of one size

    The word before a block links it into the free list of its pool, or names the pool while
    the block is given out; [rt_mp_free] finds the pool by it.  Threads that wait for a
    block are put at the FRONT of the pool's queue.  An allocation that waits ends in
    [Waiting]; what it does when the thread is scheduled again is [rt_mp_alloc_resumed]. *)

From S2P Require Import Prelude RtList Kernel Scheduler Object TimerCore Thread Timer Ipc Wait Linked Extend.

#[local] Open Scope Z_scope.

(** The word before a block. *)
Inductive mp_word := Link (a : Z) | Owner (mp : positive).
Definition sizeof_ptr : Z := 4.

(** struct rt_mempool *)
Record rt_mempool := mkMp {
  mp_start : Z;
  mp_size : Z;
  mp_block_size : Z;
  mp_block_list : Z;
  mp_block_total : Z;
  mp_block_free : Z
}.
Definition set_block_list (a : Z) (m : rt_mempool) : rt_mempool :=
  mkMp (mp_start m) (mp_size m) (mp_block_size m) a (mp_block_total m) (mp_block_free m).
Definition set_block_free (n : Z) (m : rt_mempool) : rt_mempool :=
  mkMp (mp_start m) (mp_size m) (mp_block_size m) (mp_block_list m) (mp_block_total m) n.

(** The words before the blocks of all pools, the pools, and the errno outside threads. *)
Record pools := mkPools { po_words : gmap Z mp_word; po_pools : gmap positive rt_mempool; po_errno : Z }.
Definition set_words (f : gmap Z mp_word -> gmap Z mp_word) (p : pools) : pools := mkPools (f (po_words p)) (po_pools p) (po_errno p).
Definition set_pools (f : gmap positive rt_mempool -> gmap positive rt_mempool) (p : pools) : pools := mkPools (po_words p) (f (po_pools p)) (po_errno p).
Definition set_po_errno (e : Z) (p : pools) : pools := mkPools (po_words p) (po_pools p) e.

Definition mpstate : Type := ext pools.
Abbreviation P := (M mpstate).

Section mp.
Context (timer_thread : tid).

Definition get_mp (mp : positive) : P rt_mempool := deref (fun s => po_pools s.2 !! mp).
Definition upd_mp (mp : positive) (f : rt_mempool -> rt_mempool) : P unit :=
  m ← get_mp mp; modify (set_own (set_pools <[mp := f m]>)).
Definition get_word (a : Z) : P mp_word := deref (fun s => po_words s.2 !! a).
Definition set_word (a : Z) (w : mp_word) : P unit := modify (set_own (set_words <[a := w]>)).

(** The loop over the blocks from number [offset] on, blocks [w] bytes apart. *)
Fixpoint mp_link_loop (n : nat) (offset start w : Z) (words : gmap Z mp_word) : gmap Z mp_word :=
  match n with
  | O => words
  | S n => mp_link_loop n (offset + 1) start w (<[u32 (start + offset * w) := Link (u32 (start + (offset + 1) * w))]> words)
  end.
(** The free list over the whole area: the last link, at number [total - 1], is then
    ended.  The address is computed in 32 bits. *)
Definition mp_link_blocks (start block_size total : Z) (words : gmap Z mp_word) : gmap Z mp_word :=
  let w := u32 (block_size + sizeof_ptr) in
  <[u32 (start + u32 (total - 1) * w) := Link 0]> (mp_link_loop (Z.to_nat total) 0 start w words).

Definition rt_mp_init (mp : positive) (name : list Z) (start size block_size : Z) : P Z :=
  rt_assert (negb (start =? 0)) ;;
  rt_assert ((0 <? size) && (0 <? block_size)) ;;
  kcall (rt_object_init (OMemPool mp) RT_Object_Class_MemPool name) ;;
  let size := RT_ALIGN_DOWN size RT_ALIGN_SIZE in
  let block_size := RT_ALIGN block_size RT_ALIGN_SIZE in
  let total := size / u32 (block_size + sizeof_ptr) in
  kcall (tlist_modify (list_init (LSuspend (OMemPool mp)))) ;;
  modify (set_own (set_words (mp_link_blocks start block_size total))) ;;
  modify (set_own (set_pools <[mp := mkMp start size block_size start total total]>)) ;;
  mret RT_EOK.

(** [while (!rt_list_isempty (&(mp->suspend_thread)))]: every waiting thread is woken with
    an error. *)
Definition mp_wake_all (mp : positive) : P unit :=
  L ← kcall (gets k_tlist);
  kcall (resume_all_loop (length (L (LSuspend (OMemPool mp)))) (LSuspend (OMemPool mp))).

Definition rt_mp_detach (mp : positive) : P Z :=
  kcall (is_class (OMemPool mp) RT_Object_Class_MemPool) ;;
  kcall (is_system (OMemPool mp) true) ;;
  mp_wake_all mp ;;
  kcall (rt_object_detach (OMemPool mp)) ;;
  mret RT_EOK.

(** [malloc] gives the control block, [area_malloc] the address of the area. *)
Definition rt_mp_create (malloc : option positive) (area_malloc : Z -> option Z)
    (name : list Z) (block_count block_size : Z) : P (option positive) :=
  kcall not_in_interrupt ;;
  rt_assert ((0 <? block_count) && (0 <? block_size)) ;;
  r ← kcall (rt_object_allocate (OMemPool <$> malloc) RT_Object_Class_MemPool name);
  match r, malloc with
  | Some _, Some mp =>
      let block_size := RT_ALIGN block_size RT_ALIGN_SIZE in
      let size := u32 ((block_size + sizeof_ptr) * block_count) in
      match area_malloc size with
      | None => kcall (rt_object_delete (OMemPool mp)) ;; mret None
      | Some start =>
          kcall (tlist_modify (list_init (LSuspend (OMemPool mp)))) ;;
          modify (set_own (set_words (mp_link_blocks start block_size block_count))) ;;
          modify (set_own (set_pools <[mp := mkMp start size block_size start block_count block_count]>)) ;;
          mret (Some mp)
      end
  | _, _ => mret None
  end.

Definition rt_mp_delete (mp : positive) : P Z :=
  kcall not_in_interrupt ;;
  kcall (is_class (OMemPool mp) RT_Object_Class_MemPool) ;;
  kcall (is_system (OMemPool mp) false) ;;
  mp_wake_all mp ;;
  kcall (rt_object_delete (OMemPool mp)) ;;
  modify (set_own (set_pools (delete mp))) ;;
  mret RT_EOK.

(** Taking the first block off the list. *)
Definition mp_take (mp : positive) : P Z :=
  m ← get_mp mp;
  upd_mp mp (set_block_free (u32 (mp_block_free m - 1))) ;;
  let block_ptr := mp_block_list m in
  rt_assert (negb (block_ptr =? 0)) ;;
  w ← get_word block_ptr;
  next ← deref (fun _ => match w with Link a => Some a | Owner _ => None end);
  upd_mp mp (set_block_list next) ;;
  set_word block_ptr (Owner mp) ;;
  mret (block_ptr + sizeof_ptr).

(** Going to sleep in front of the other waiting threads. *)
Definition mp_wait (mp : positive) (thread : tid) (time : Z) : K Z :=
  rt_thread_suspend thread ;;
  tlist_modify (list_insert_after (LSuspend (OMemPool mp)) thread) ;;
  start_and_schedule timer_thread thread time.

(** From the test of the loop on; RT_NULL is 0. *)
Definition mp_alloc_turn (mp : positive) (thread : option tid) (time : Z) : P (outcome (Z * Z) Z) :=
  m ← get_mp mp;
  if mp_block_free m =? 0 then
    if time =? 0 then rt_set_errno set_po_errno (- RT_ETIMEOUT) ;; mret (Returned 0)
    else
      kcall not_in_interrupt ;;
      t ← deref (fun _ => thread);
      kcall (upd_thread t (set_th_error (fun _ => RT_EOK))) ;;
      before_sleep ← kcall (mp_wait mp t time);
      mret (Waiting t (time, before_sleep))
  else r ← mp_take mp; mret (Returned r).

Definition rt_mp_alloc (mp : positive) (time : Z) : P (outcome (Z * Z) Z) :=
  thread ← kcall rt_thread_self;
  mp_alloc_turn mp thread time.
Definition rt_mp_alloc_resumed (mp : positive) (thread : tid) (locals : Z * Z) : P (outcome (Z * Z) Z) :=
  th ← kcall (get_thread thread);
  if negb (th_error th =? RT_EOK) then mret (Returned 0)
  else
    tick ← kcall rt_tick_get;
    mp_alloc_turn mp (Some thread) (time_left locals.1 locals.2 tick).

Definition rt_mp_free (block : Z) : P unit :=
  if block =? 0 then mret tt
  else
    let block_ptr := block - sizeof_ptr in
    w ← get_word block_ptr;
    mp ← deref (fun _ => match w with Owner mp => Some mp | Link _ => None end);
    m ← get_mp mp;
    upd_mp mp (set_block_free (u32 (mp_block_free m + 1))) ;;
    set_word block_ptr (Link (mp_block_list m)) ;;
    upd_mp mp (set_block_list block_ptr) ;;
    L ← kcall (gets k_tlist);
    when (negb (list_isempty (LSuspend (OMemPool mp)) L))
      (thread ← kcall (first_of (LSuspend (OMemPool mp)));
       kcall (upd_thread thread (set_th_error (fun _ => RT_EOK))) ;;
       kcall (rt_thread_resume thread) ;;
       kcall rt_schedule).
End mp.

(** ** The blocks *)

Definition link_of (words : gmap Z mp_word) (a : Z) : option Z :=
  match words !! a with Some (Link b) => Some b | _ => None end.

(** The blocks of pool [mp], by their words: the free ones in the order of the list, and
    those given out. *)
Record mp_ok (mp : positive) (words : gmap Z mp_word) (m : rt_mempool) (free used : list Z) : Prop := {
  po_list : linked (link_of words) (mp_block_list m) free;
  po_free : mp_block_free m = Z.of_nat (length free);
  po_total : mp_block_total m = Z.of_nat (length (free ++ used));
  po_bound : mp_block_total m < 2 ^ 32;
  po_nodup : NoDup (free ++ used);
  po_owner : forall a, a ∈ used -> words !! a = Some (Owner mp);
  po_addr : forall a, a ∈ free ++ used -> 0 < a
}.

Lemma link_of_insert words a w b : b ≠ a -> link_of (<[a := w]> words) b = link_of words b.
Proof. intros. unfold link_of. by rewrite lookup_insert_ne. Qed.

(** The first free block is given out. *)
Lemma take_ok mp words m a free used : mp_ok mp words m (a :: free) used ->
  exists b, mp_block_list m = a /\ 0 < a /\ words !! a = Some (Link b) /\ 0 < mp_block_free m < 2 ^ 32 /\
    mp_ok mp (<[a := Owner mp]> words) (set_block_list b (set_block_free (mp_block_free m - 1) m)) free (a :: used).
Proof.
  intros [(Ea & Ha & b & Hb & Hl) H2 H3 H4 H5 H6 H7]. exists b. split; [done|]. split; [apply H7; by left|].
  unfold link_of in Hb. split; [by destruct (words !! a) as [[]|]; simplify_eq|]. rewrite length_app in H3. cbn [length] in H2, H3.
  split; [lia|]. pose proof H5 as Hd. cbn in Hd. apply NoDup_cons in Hd as [Hn Hd].
  assert (Hp : free ++ a :: used ≡ₚ (a :: free) ++ used) by (cbn; by rewrite Permutation_middle).
  split; cbn [mp_block_list mp_block_free mp_block_total set_block_list set_block_free]; rewrite ?Hp; try done.
  - eapply linked_ext; [|exact Hl]. intros c Hc. apply link_of_insert. intros ->. apply Hn. clear -Hc. mem.
  - lia.
  - rewrite length_app. cbn [length]. lia.
  - intros c Hc. destruct (decide (c = a)) as [->|Hne]; [apply lookup_insert_eq|]. rewrite lookup_insert_ne by done.
    apply H6. clear -Hc Hne. mem.
  - intros c. rewrite Hp. apply H7.
Qed.

(** A block comes back, to the front of the list. *)
Lemma give_ok mp words m a free u1 u2 : mp_ok mp words m free (u1 ++ a :: u2) ->
  words !! a = Some (Owner mp) /\ 0 < a /\ 0 <= mp_block_free m + 1 < 2 ^ 32 /\
  mp_ok mp (<[a := Link (mp_block_list m)]> words) (set_block_list a (set_block_free (mp_block_free m + 1) m)) (a :: free) (u1 ++ u2).
Proof.
  intros [H1 H2 H3 H4 H5 H6 H7]. assert (Ha : a ∈ u1 ++ a :: u2) by (clear; mem).
  assert (Ha0 : 0 < a) by (apply H7; clear; mem). split; [by apply H6|]. split; [done|].
  pose proof H3 as H3'. rewrite !length_app in H3'. cbn [length] in H3'. split; [lia|].
  assert (Hp : (a :: free) ++ u1 ++ u2 ≡ₚ free ++ u1 ++ a :: u2) by (cbn; rewrite !app_assoc; by rewrite Permutation_middle).
  pose proof H5 as Hd. rewrite <- Hp in Hd. cbn in Hd. apply NoDup_cons in Hd as [Hn _].
  split; cbn [mp_block_list mp_block_free mp_block_total set_block_list set_block_free]; rewrite ?Hp; try done.
  - apply linked_push with (mp_block_list m); [|lia|unfold link_of; by rewrite lookup_insert_eq].
    eapply linked_ext; [|exact H1]. intros c Hc. apply link_of_insert. intros ->. apply Hn. clear -Hc. mem.
  - cbn [length]. lia.
  - intros c Hc. rewrite lookup_insert_ne; [apply H6; clear -Hc; mem|]. intros ->. apply Hn. clear -Hc. mem.
  - intros c. rewrite Hp. apply H7.
Qed.

(** ** The calls *)

Lemma wp_get_mp mp m (R : rt_mempool -> mpstate -> Prop) k p : po_pools p !! mp = Some m -> R m (k, p) -> wp (get_mp mp) R (k, p).
Proof. intros. by eapply wp_deref. Qed.
Lemma wp_upd_mp mp f m (R : unit -> mpstate -> Prop) k p :
  po_pools p !! mp = Some m -> R tt (k, set_pools <[mp := f m]> p) -> wp (upd_mp mp f) R (k, p).
Proof. intros. unfold upd_mp. rewrite wp_bind. by eapply wp_get_mp. Qed.

Lemma set_pools_twice mp m1 m2 p : set_pools <[mp := m2]> (set_pools <[mp := m1]> p) = set_pools <[mp := m2]> p.
Proof. unfold set_pools. cbn. by rewrite insert_insert_eq. Qed.

(** The state of the pools after a change of one of them. *)
Definition with_pool (mp : positive) (a : Z) (w : mp_word) (m : rt_mempool) (p : pools) : pools :=
  mkPools (<[a := w]> (po_words p)) (<[mp := m]> (po_pools p)) (po_errno p).

Lemma wp_mp_take mp m a free used (R : Z -> mpstate -> Prop) k p :
  po_pools p !! mp = Some m -> mp_ok mp (po_words p) m (a :: free) used ->
  (forall m', mp_ok mp (<[a := Owner mp]> (po_words p)) m' free (a :: used) -> mp_block_total m' = mp_block_total m ->
     R (a + sizeof_ptr) (k, with_pool mp a (Owner mp) m' p)) ->
  wp (mp_take mp) R (k, p).
Proof.
  intros Hm Hok HR. destruct (take_ok _ _ _ _ _ _ Hok) as (b & Ea & Ha & Hb & Hf & Hok'). unfold mp_take.
  rewrite wp_bind. eapply wp_get_mp; [done|]. rewrite wrap_small by lia. rewrite wp_bind. eapply wp_upd_mp; [done|]. rewrite Ea.
  rewrite wp_bind. apply wp_assert; [by destruct (Z.eqb_spec a 0); [lia|]|]. rewrite wp_bind. unfold get_word. eapply wp_deref; [exact Hb|]. cbn beta iota.
  rewrite wp_bind. eapply wp_deref; [done|]. cbn beta. rewrite wp_bind. eapply wp_upd_mp; [apply lookup_insert_eq|]. rewrite set_pools_twice.
  unfold set_word. rewrite wp_bind, wp_modify, wp_ret. by apply (HR _ Hok').
Qed.

(** A live pool, with its blocks. *)
Definition mp_live (mp : positive) (m : rt_mempool) (free used : list Z) (s : mpstate) : Prop :=
  po_pools s.2 !! mp = Some m /\ mp_ok mp (po_words s.2) m free used.

(** The wait: the thread goes to the front of the queue. *)
Lemma wp_mp_wait tt mp c th time k :
  ipc_inv k -> clock_ok k -> runs c th k -> time < half ->
  wp (mp_wait tt mp c time) (fun r k' => r = (if 0 <? time then k_tick k else 0) /\
    asleep (LSuspend (OMemPool mp)) c (no_error th) [] (k_tlist k (LSuspend (OMemPool mp))) time k k')
    (set_k_threads <[c := no_error th]> k).
Proof.
  intros Hi [Hp Htick] Hr Htime. pose proof Hr as (Hc & Ht & Hs & Hn). unfold mp_wait.
  set (h := LSuspend (OMemPool mp)). rewrite wp_bind.
  eapply wp_mono, (wp_suspend_insert h c th (list_insert_after h c) [] (k_tlist k h)); [|done..|].
  - intros r s1 (E & _ & Hi1). rewrite wp_bind. unfold tlist_modify. rewrite wp_modify, E.
    eapply wp_mono, (wp_start_and_schedule tt h c (no_error th)); [|by apply ipc_inv_upd_error|by eapply pending_ext; [..|exact Hp]|done|done|apply lookup_insert_eq|done|done|done|done].
    intros r' k' [-> Ha]. split; [done|]. by eapply asleep_reset.
  - intros L El. unfold list_insert_after. by rewrite El.
Qed.

(** One turn of an allocation: the first free block, failure, or sleep. *)
Definition alloc_post (mp : positive) (m : rt_mempool) (free used : list Z) (c : tid) (th : rt_thread) (time : Z)
    (r : outcome (Z * Z) Z) (s s' : mpstate) : Prop :=
  match free with
  | a :: free => r = Returned (a + sizeof_ptr) /\ exists m', s' = (s.1, with_pool mp a (Owner mp) m' s.2) /\
      mp_ok mp (<[a := Owner mp]> (po_words s.2)) m' free (a :: used) /\ mp_block_total m' = mp_block_total m
  | [] =>
      if time =? 0 then r = Returned 0 /\ s' = (set_k_threads <[c := set_th_error (fun _ => - RT_ETIMEOUT) th]> s.1, s.2)
      else r = Waiting c (time, if 0 <? time then k_tick s.1 else 0) /\ s'.2 = s.2 /\
        asleep (LSuspend (OMemPool mp)) c (no_error th) [] (k_tlist s.1 (LSuspend (OMemPool mp))) time s.1 s'.1
  end.

Lemma mp_free_zero mp words m free used : mp_ok mp words m free used -> mp_block_free m = 0 <-> (free = []).
Proof. intros H. rewrite (po_free _ _ _ _ _ H). by destruct free. Qed.

Lemma wp_mp_alloc_turn tt mp m free used c th time k p :
  ipc_inv k -> clock_ok k -> mp_live mp m free used (k, p) -> runs c th k -> time < half ->
  wp (mp_alloc_turn tt mp (Some c) time) (fun r s' => ipc_inv s'.1 /\ alloc_post mp m free used c th time r (k, p) s') (k, p).
Proof.
  intros Hi Hcl [Hm Hok] Hr Ht. cbn [fst snd] in *. pose proof Hr as (Hc & Hth & Hs & Hn). pose proof (mp_free_zero _ _ _ _ _ Hok) as Hz.
  unfold mp_alloc_turn, alloc_post. rewrite wp_bind. eapply wp_get_mp; [done|].
  destruct (Z.eqb_spec (mp_block_free m) 0) as [E|E], free as [|a free]; [|by (apply Hz in E)|by destruct E; apply Hz|].
  - destruct (Z.eqb_spec time 0).
    + rewrite wp_bind. eapply wp_set_errno; [done..|]. rewrite wp_ret.
      split; [by apply ipc_inv_upd_error|done].
    + rewrite wp_bind. apply wp_kcall. unfold not_in_interrupt. rewrite wp_bind, wp_gets. apply wp_assert; [by rewrite Hn|].
      rewrite wp_bind. eapply wp_deref; [done|]. cbn beta.
      rewrite wp_bind. apply wp_kcall. eapply wp_upd_thread; [done|]. fold (no_error th). rewrite wp_bind. apply wp_kcall.
      eapply wp_mono, wp_mp_wait; [|done..]. intros r k' [-> Ha]. rewrite wp_ret. split; [apply Ha|done].
  - rewrite wp_bind. eapply wp_mp_take; [done|done|]. intros m' Hok' Et. rewrite wp_ret. split; [done|]. split; [done|]. by exists m'.
Qed.

Lemma wp_rt_mp_alloc tt mp m free used c th time k p :
  ipc_inv k -> clock_ok k -> mp_live mp m free used (k, p) -> runs c th k -> time < half ->
  wp (rt_mp_alloc tt mp time) (fun r s' => ipc_inv s'.1 /\ alloc_post mp m free used c th time r (k, p) s') (k, p).
Proof.
  intros. unfold rt_mp_alloc, rt_thread_self. rewrite wp_bind. apply wp_kcall. rewrite wp_gets, (proj1 H2). by apply wp_mp_alloc_turn.
Qed.

(** The first waiting thread, if any, is awake, its error cleared. *)
Definition cleared (h : lhead) (k k' : kstate) : Prop :=
  match k_tlist k h with
  | [] => k' = k
  | t :: _ => exists th, k_threads k !! t = Some th /\ woken t (no_error th) k k'
  end.

Lemma woken_reset t th th1 k k' : k_threads k !! t = Some th -> woken t th1 (set_k_threads <[t := th1]> k) k' -> woken t th1 k k'.
Proof.
  intros Ht [W1 W2 W3 W4 W5 W7 W8 W9 W10]. split; try done. intros u thu Hne Hu. apply W9; [done|]. simpl. by rewrite lookup_insert_ne.
Qed.

Lemma wp_wake_cleared {T} h (R : unit -> ext T -> Prop) k (p : T) :
  ipc_inv k -> is_Some (k_current k) -> wait_head h ->
  (forall k', ipc_inv k' -> cleared h k k' -> R tt (k', p)) ->
  wp (L ← kcall (gets k_tlist);
      when (negb (list_isempty h L))
        (thread ← kcall (first_of h);
         kcall (upd_thread thread (set_th_error (fun _ => RT_EOK))) ;;
         kcall (rt_thread_resume thread) ;;
         kcall rt_schedule)) R (k, p).
Proof.
  intros Hi Hc Hh HR. rewrite wp_bind. apply wp_kcall. rewrite wp_gets. unfold list_isempty, cleared in *.
  destruct (k_tlist k h) as [|t l] eqn:El.
  - rewrite bool_decide_eq_true_2 by done. cbn [negb when]. rewrite wp_ret. by apply HR.
  - rewrite bool_decide_eq_false_2 by done. cbn [negb when].
    destruct (ii_wait _ Hi h t Hh) as (th & Ht & Hs); [rewrite El; clear; mem|].
    set (k1 := set_k_threads <[t := no_error th]> k). assert (Hi1 : ipc_inv k1) by (by apply ipc_inv_upd_error).
    assert (Ht1 : k_threads k1 !! t = Some (no_error th)) by apply lookup_insert_eq.
    rewrite wp_bind. apply wp_kcall. unfold first_of. eapply wp_deref; [by rewrite El|].
    rewrite wp_bind. apply wp_kcall. eapply wp_upd_thread; [done|]. fold (no_error th). fold k1. rewrite wp_bind. apply wp_kcall.
    eapply wp_rt_thread_resume; [apply Hi1|exact Ht1|by change (tstat (no_error th)) with (tstat th); rewrite Hs|].
    rewrite bool_decide_eq_true_2 by done. intros _. pose proof (resumed_woken t (no_error th) k1 Hi1 Ht1 Hs) as Hw.
    apply wp_kcall. eapply wp_mono, wp_schedule_ipc; [|apply Hw|by apply Hw].
    intros [] k' (Hi' & Hfr & Hc'). apply HR; [done|]. exists th. split; [done|]. eapply woken_reset; [done|]. by eapply woken_frame.
Qed.

Lemma wp_rt_mp_free mp m a free u1 u2 (R : unit -> mpstate -> Prop) k p :
  ipc_inv k -> is_Some (k_current k) -> mp_live mp m free (u1 ++ a :: u2) (k, p) ->
  (forall k' m', ipc_inv k' -> cleared (LSuspend (OMemPool mp)) k k' ->
     mp_ok mp (<[a := Link (mp_block_list m)]> (po_words p)) m' (a :: free) (u1 ++ u2) -> mp_block_total m' = mp_block_total m ->
     R tt (k', with_pool mp a (Link (mp_block_list m)) m' p)) ->
  wp (rt_mp_free (a + sizeof_ptr)) R (k, p).
Proof.
  intros Hi Hc [Hm Hok] HR. cbn [fst snd] in *. destruct (give_ok _ _ _ _ _ _ _ Hok) as (Ho & Ha & Hf & Hok').
  unfold rt_mp_free. rewrite (proj2 (Z.eqb_neq _ _)) by (unfold sizeof_ptr; lia). cbv zeta.
  replace (a + sizeof_ptr - sizeof_ptr) with a by lia. unfold get_word. rewrite wp_bind. eapply wp_deref; [exact Ho|]. cbn beta iota.
  rewrite wp_bind. eapply wp_deref; [done|]. cbn beta. rewrite wp_bind. eapply wp_get_mp; [done|]. rewrite wrap_small by lia.
  rewrite wp_bind. eapply wp_upd_mp; [done|]. unfold set_word. rewrite wp_bind, wp_modify, wp_bind.
  eapply wp_upd_mp; [apply lookup_insert_eq|].
  set (m' := set_block_list a _) in *.
  assert (E : set_pools <[mp := m']> (set_words <[a := Link (mp_block_list m)]> (set_pools <[mp := set_block_free (mp_block_free m + 1) m]> p)) =
    with_pool mp a (Link (mp_block_list m)) m' p) by (unfold set_pools, set_words, with_pool; cbn; by rewrite insert_insert_eq).
  unfold set_own. cbn [fst snd]. rewrite E. apply wp_wake_cleared; [done|done|done|]. intros k' Hi' Hcl. by apply HR.
Qed.

(** A small area: no block fits, and the link that ends the free list is written before the
    area. *)
Lemma small_area_writes_before start block_size words :
  0 < block_size < 2 ^ 31 -> block_size + sizeof_ptr <= start < 2 ^ 32 ->
  mp_link_blocks start block_size 0 words = <[start - (block_size + sizeof_ptr) := Link 0]> words.
Proof.
  intros Hb Hs. unfold mp_link_blocks, sizeof_ptr in *. cbn [Z.to_nat mp_link_loop]. f_equal.
  change (2 ^ 31) with 2147483648 in *. change (2 ^ 32) with 4294967296 in *. rewrite (wrap_small 32 (block_size + 4)) by (change (2 ^ 32) with 4294967296; lia).
  change (u32 (0 - 1)) with 4294967295. unfold wrap. change (2 ^ 32) with 4294967296. symmetry.
  apply Z.mod_unique with (block_size + 4); lia.
Qed.

(** ** Refinement: free blocks, blocks given out, waiting threads *)

Lemma cleared_queues h k k' : ipc_inv k -> wait_head h -> cleared h k k' ->
  k_tlist k' h = tail (k_tlist k h) /\ forall h', wait_head h' -> h' ≠ h -> k_tlist k' h' = k_tlist k h'.
Proof.
  intros Hi Hh Hr. unfold cleared in Hr. destruct (k_tlist k h) as [|t l] eqn:El; [by subst k'|].
  destruct Hr as (th & Ht & Hw). by eapply woken_head.
Qed.
Lemma cleared_rest h k k' : cleared h k k' ->
  k_tick k' = k_tick k /\ (pending k -> pending k') /\ (is_Some (k_current k) -> is_Some (k_current k')).
Proof. unfold cleared. destruct (k_tlist k h) as [|t l]; [by intros ->|]. intros (th & _ & []). done. Qed.

(** The addresses of the words before the blocks: free, first to be given out first, and
    given out; the waiting threads, first to be woken first. *)
Record mp_abs := PAbs { pa_free : list Z; pa_used : list Z; pa_waiting : list tid }.

Inductive mp_label :=
  | PAlloc (r : outcome (Z * Z) Z)
  | PFree (block : Z)
  | PGiveUp
  | PTimeout (t : tid)
  | PEnv.

Inductive mp_spec : mp_abs -> mp_label -> mp_abs -> Prop :=
  | ps_alloc a f u w : mp_spec (PAbs (a :: f) u w) (PAlloc (Returned (a + sizeof_ptr))) (PAbs f (a :: u) w)
  | ps_fail u w : mp_spec (PAbs [] u w) (PAlloc (Returned 0)) (PAbs [] u w)
  | ps_wait u w c l : c ∉ w -> mp_spec (PAbs [] u w) (PAlloc (Waiting c l)) (PAbs [] u (c :: w))
  | ps_free f u1 a u2 w : mp_spec (PAbs f (u1 ++ a :: u2) w) (PFree (a + sizeof_ptr)) (PAbs (a :: f) (u1 ++ u2) (tail w))
  | ps_giveup x : mp_spec x PGiveUp x
  | ps_timeout f u w1 t w2 : mp_spec (PAbs f u (w1 ++ t :: w2)) (PTimeout t) (PAbs f u (w1 ++ w2))
  | ps_env x : mp_spec x PEnv x.

(** The kernel with the pools, and the blocks of the pool that are given out. *)
Record mp_sys := MpSys { z_state : mpstate; z_used : list Z }.

Definition mp_at (mp : positive) (s : mpstate) : rt_mempool := default (mkMp 0 0 0 0 0 0) (po_pools s.2 !! mp).
Definition mp_of (mp : positive) (z : mp_sys) : mp_abs :=
  let m := mp_at mp (z_state z) in
  PAbs (walk (link_of (po_words (z_state z).2)) (Z.to_nat (mp_block_total m)) (mp_block_list m)) (z_used z)
    (k_tlist (z_state z).1 (LSuspend (OMemPool mp))).

Definition mp_shape (total : Z) (mp : positive) (m : rt_mempool) (free : list Z) (z : mp_sys) : Prop :=
  mp_live mp m free (z_used z) (z_state z) /\ mp_block_total m = total.

Record mp_sys_ok (total : Z) (mp : positive) (z : mp_sys) : Prop := {
  zk_inv : ipc_inv (z_state z).1;
  zk_clock : clock_ok (z_state z).1;
  zk_current : is_Some (k_current (z_state z).1);
  zk_shape : exists m free, mp_shape total mp m free z
}.

(** The block of an allocation that returns one. *)
Definition given (r : outcome (Z * Z) Z) : list Z :=
  match r with Returned b => if b =? 0 then [] else [b - sizeof_ptr] | Waiting _ _ => [] end.

(** An allocation by the running thread, from its start or after a wait; the return of a
    block that was given out; a timeout; or anything else that leaves the pool as it is. *)
Inductive mp_step (timer_thread : tid) (total : Z) (mp : positive) : mp_sys -> mp_label -> mp_sys -> Prop :=
  | pt_alloc c th time r s s' u : runs c th s.1 -> time < half -> rt_mp_alloc timer_thread mp time s = Some (r, s') ->
      mp_step timer_thread total mp (MpSys s u) (PAlloc r) (MpSys s' (given r ++ u))
  | pt_alloc_resumed c th l r s s' u : runs c th s.1 -> th_error th = RT_EOK -> l.1 < half -> u32 (k_tick s.1 - l.2) <= half ->
      rt_mp_alloc_resumed timer_thread mp c l s = Some (r, s') ->
      mp_step timer_thread total mp (MpSys s u) (PAlloc r) (MpSys s' (given r ++ u))
  | pt_free a u1 u2 s s' : rt_mp_free (a + sizeof_ptr) s = Some (tt, s') ->
      mp_step timer_thread total mp (MpSys s (u1 ++ a :: u2)) (PFree (a + sizeof_ptr)) (MpSys s' (u1 ++ u2))
  | pt_giveup c th l r s s' u : runs c th s.1 -> th_error th ≠ RT_EOK -> rt_mp_alloc_resumed timer_thread mp c l s = Some (r, s') ->
      mp_step timer_thread total mp (MpSys s u) PGiveUp (MpSys s' (given r ++ u))
  | pt_timeout t s k u : t ∈ k_tlist s.1 (LSuspend (OMemPool mp)) ->
      (forall r, r = TLHard \/ r = TLSoft -> TThread t ∉ k_trow s.1 r) ->
      rt_thread_timeout t s.1 = Some (tt, k) -> mp_step timer_thread total mp (MpSys s u) (PTimeout t) (MpSys (k, s.2) u)
  | pt_env z z' : mp_sys_ok total mp z' -> mp_of mp z' = mp_of mp z -> mp_step timer_thread total mp z PEnv z'.

Lemma mp_of_shape total mp m free k p u : mp_shape total mp m free (MpSys (k, p) u) ->
  mp_of mp (MpSys (k, p) u) = PAbs free u (k_tlist k (LSuspend (OMemPool mp))).
Proof.
  intros [[Hm Hok] _]. cbn [z_state z_used fst snd] in *. unfold mp_of, mp_at. cbn [z_state z_used fst snd]. rewrite Hm. cbn.
  pose proof (po_total _ _ _ _ _ Hok) as Ht. rewrite length_app in Ht.
  by rewrite (linked_walk _ _ _ _ (po_list _ _ _ _ _ Hok)) by lia.
Qed.

(** What all steps end with. *)
Lemma mp_sys_change total mp m m' free' k k' p p' u u' :
  mp_sys_ok total mp (MpSys (k, p) u) -> mp_block_total m = total -> ipc_inv k' -> k_tick k' = k_tick k -> (pending k -> pending k') ->
  is_Some (k_current k') -> po_pools p' !! mp = Some m' -> mp_ok mp (po_words p') m' free' u' -> mp_block_total m' = mp_block_total m ->
  mp_shape total mp m' free' (MpSys (k', p') u') /\ mp_sys_ok total mp (MpSys (k', p') u').
Proof.
  intros [_ [Hp Ht] _ _] Et Hi Hk Hp' Hc Hm Hok E. cbn [z_state z_used fst snd] in *.
  assert (Hs : mp_shape total mp m' free' (MpSys (k', p') u')) by (split; [done|by rewrite E]).
  split; [done|]. split; [done|split; [by apply Hp'|by cbn [z_state fst]; rewrite Hk]|done|]. by exists m', free'.
Qed.

Lemma alloc_simulates total mp m free c th time r k p u s' :
  mp_sys_ok total mp (MpSys (k, p) u) -> mp_shape total mp m free (MpSys (k, p) u) -> runs c th k ->
  ipc_inv s'.1 -> alloc_post mp m free u c th time r (k, p) s' ->
  mp_spec (mp_of mp (MpSys (k, p) u)) (PAlloc r) (mp_of mp (MpSys s' (given r ++ u))) /\ mp_sys_ok total mp (MpSys s' (given r ++ u)).
Proof.
  intros Hok Hsh (Hc & Hth & Hst & _) Hi' Hp. pose proof Hsh as [[Hm Hmp] Et]. cbn [z_state z_used fst snd] in *.
  unfold alloc_post in Hp. cbn [fst snd] in Hp. destruct free as [|a free]; [destruct (Z.eqb_spec time 0)|].
  - destruct Hp as [-> ->]. cbn [fst snd given] in *. change (0 =? 0) with true. cbv iota. cbn [app].
    edestruct (mp_sys_change total mp m m [] k) as [Hsh' Hok']; [exact Hok|exact Et|exact Hi'|done| |by exists c|exact Hm|exact Hmp|done|].
    + by apply pending_ext.
    + split; [|done]. rewrite (mp_of_shape _ _ _ _ _ _ _ Hsh), (mp_of_shape _ _ _ _ _ _ _ Hsh'). constructor.
  - destruct s' as [k' p'], Hp as (-> & Ep & Ha). cbn [fst snd given app] in *. subst p'.
    destruct (mp_sys_change total mp m m [] k k' p p u u) as [Hsh' Hok']; [done|done|done|by apply Ha|intros _; apply Ha|by apply Ha|done..|].
    split; [|done]. rewrite (mp_of_shape _ _ _ _ _ _ _ Hsh), (mp_of_shape _ _ _ _ _ _ _ Hsh'), (as_queue _ _ _ _ _ _ _ _ Ha).
    constructor. by eapply running_unlinked; [apply (ii_kernel k), Hok|..].
  - destruct Hp as (-> & m' & -> & Hok' & E). pose proof (po_addr _ _ _ _ _ Hmp a ltac:(clear; mem)) as Ha.
    cbn [given]. rewrite (proj2 (Z.eqb_neq _ _)) by (unfold sizeof_ptr; lia). replace (a + sizeof_ptr - sizeof_ptr) with a by lia. cbn [app].
    destruct (mp_sys_change total mp m m' free k k p (with_pool mp a (Owner mp) m' p) u (a :: u)) as [Hsh' Hok2];
      [done|done|apply Hok|done|done|apply Hok|apply lookup_insert_eq|done|done|].
    split; [|done]. rewrite (mp_of_shape _ _ _ _ _ _ _ Hsh), (mp_of_shape _ _ _ _ _ _ _ Hsh'). constructor.
Qed.

Lemma free_simulates total mp m free a u1 u2 k p s' :
  mp_sys_ok total mp (MpSys (k, p) (u1 ++ a :: u2)) -> mp_shape total mp m free (MpSys (k, p) (u1 ++ a :: u2)) ->
  rt_mp_free (a + sizeof_ptr) (k, p) = Some (tt, s') ->
  mp_spec (mp_of mp (MpSys (k, p) (u1 ++ a :: u2))) (PFree (a + sizeof_ptr)) (mp_of mp (MpSys s' (u1 ++ u2))) /\
  mp_sys_ok total mp (MpSys s' (u1 ++ u2)).
Proof.
  intros Hok Hsh E. pose proof Hsh as [Hl Et]. cbn [z_state z_used] in Hl.
  assert (Hw : wp (rt_mp_free (a + sizeof_ptr)) (fun _ s' => exists k' m', s' = (k', with_pool mp a (Link (mp_block_list m)) m' p) /\
    ipc_inv k' /\ cleared (LSuspend (OMemPool mp)) k k' /\
    mp_ok mp (<[a := Link (mp_block_list m)]> (po_words p)) m' (a :: free) (u1 ++ u2) /\ mp_block_total m' = mp_block_total m) (k, p)).
  { eapply wp_rt_mp_free; [apply Hok|apply Hok|exact Hl|]. intros k' m' ????. by exists k', m'. }
  apply (wp_result _ _ _ _ _ Hw) in E as (k' & m' & -> & Hi' & Hcl & Hok' & E).
  destruct (cleared_rest _ _ _ Hcl) as (R1 & R2 & R3).
  destruct (cleared_queues (LSuspend (OMemPool mp)) k k' (zk_inv _ _ _ Hok) ltac:(done) Hcl) as [Q1 _]. cbn [z_state fst] in Q1.
  destruct (mp_sys_change total mp m m' (a :: free) k k' p (with_pool mp a (Link (mp_block_list m)) m' p) _ (u1 ++ u2) Hok)
    as [Hsh' Hok2]; [done..|by apply R3, Hok|apply lookup_insert_eq|done|done|].
  split; [|done]. rewrite (mp_of_shape _ _ _ _ _ _ _ Hsh), (mp_of_shape _ _ _ _ _ _ _ Hsh'), Q1. constructor.
Qed.

Lemma timeout_simulates_mp total mp m free u t k p k' :
  mp_sys_ok total mp (MpSys (k, p) u) -> mp_shape total mp m free (MpSys (k, p) u) -> t ∈ k_tlist k (LSuspend (OMemPool mp)) ->
  (forall r, r = TLHard \/ r = TLSoft -> TThread t ∉ k_trow k r) -> rt_thread_timeout t k = Some (tt, k') ->
  mp_spec (mp_of mp (MpSys (k, p) u)) (PTimeout t) (mp_of mp (MpSys (k', p) u)) /\ mp_sys_ok total mp (MpSys (k', p) u).
Proof.
  intros Hok Hsh Hin Hoff E. pose proof Hok as [Hi _ Hc _]. cbn [z_state fst] in Hi, Hc. set (h := LSuspend (OMemPool mp)) in *.
  destruct (ii_wait _ Hi h t ltac:(done) Hin) as (th & Ht & Hst).
  pose proof (wp_result _ _ _ _ _ (wp_timeout_ipc t th k Hi Hc Ht Hst Hoff) E) as Hw. cbn beta in Hw.
  pose proof Hsh as [[Hm Hmp] Et]. cbn [z_state z_used fst snd] in *.
  destruct (mp_sys_change total mp m m free k k' p p u u Hok Et) as [Hsh' Hok2];
    [apply Hw|apply Hw|apply Hw|by apply Hw|done..|]. split; [|done].
  apply list_elem_of_split in Hin as (q1 & q2 & Eq). destruct (woken_mid h t q1 q2 _ k k' Hi ltac:(done) Eq Hw) as [E1 _].
  rewrite (mp_of_shape _ _ _ _ _ _ _ Hsh), (mp_of_shape _ _ _ _ _ _ _ Hsh'). fold h. rewrite Eq, E1. constructor.
Qed.

Lemma mp_step_simulates tt total mp z l z' :
  mp_sys_ok total mp z -> mp_step tt total mp z l z' -> mp_spec (mp_of mp z) l (mp_of mp z') /\ mp_sys_ok total mp z'.
Proof.
  intros Hok Hstep. pose proof Hok as [Hi Hcl Hc (m & free & Hsh)].
  destruct Hstep as [c th time r [k p] s' u Hr Ht E|c th l r [k p] s' u Hr He Ht Htl E|a u1 u2 [k p] s' E
    |c th l r [k p] s' u Hr He E|t [k p] k' u Hin Hoff E|z z' Hok' E]; cbn [z_state z_used fst snd] in *.
  - destruct (wp_result _ _ _ _ _ (wp_rt_mp_alloc tt mp m free u c th time k p Hi Hcl (proj1 Hsh) Hr Ht) E). by eapply alloc_simulates.
  - unfold rt_mp_alloc_resumed in E. rewrite (bind_some _ _ (k, p) th (k, p)), He in E
      by (unfold kcall, get_thread, deref; cbn; by rewrite (proj1 (proj2 Hr))).
    destruct (wp_result _ _ _ _ _ (wp_mp_alloc_turn tt mp m free u c th _ k p Hi Hcl (proj1 Hsh) Hr (time_left_range _ _ _ Ht Htl)) E).
    by eapply alloc_simulates.
  - by eapply free_simulates.
  - unfold rt_mp_alloc_resumed in E. rewrite (bind_some _ _ (k, p) th (k, p)) in E
      by (unfold kcall, get_thread, deref; cbn; by rewrite (proj1 (proj2 Hr))).
    rewrite (proj2 (Z.eqb_neq _ _) He) in E. injection E as <- <-. split; [constructor|done].
  - by eapply timeout_simulates_mp.
  - rewrite E. split; [constructor|done].
Qed.

(** C11: Refinement: however the calls interleave with the tick and the rest of the kernel, a pool
    gives out each of its blocks to one holder at a time: an allocation takes the block that
    came back last, fails or waits exactly when none is free, and a block that comes back
    wakes the thread that began to wait last. *)
Theorem mempool_refines timer_thread total mp z tr z' :
  mp_sys_ok total mp z -> steps (mp_step timer_thread total mp) z tr z' ->
  steps mp_spec (mp_of mp z) tr (mp_of mp z') /\ mp_sys_ok total mp z'.
Proof. apply simulation. intros. by eapply mp_step_simulates. Qed.

(** ** The initial pool *)

Definition block_at (start block_size i : Z) : Z := start + i * (block_size + sizeof_ptr).

(** The words after the loop, in an area below 2^32. *)
Lemma mp_link_loop_words n offset start block_size words i :
  0 < block_size -> 0 <= start -> 0 <= offset -> block_at start block_size (offset + Z.of_nat n) < 2 ^ 32 -> 0 <= i < offset + Z.of_nat n ->
  mp_link_loop n offset start (block_size + sizeof_ptr) words !! block_at start block_size i =
  if i <? offset then words !! block_at start block_size i else Some (Link (block_at start block_size (i + 1))).
Proof.
  intros Hb Hs. unfold block_at, sizeof_ptr. revert offset words. induction n as [|n IH]; intros offset words Ho Hlt Hi; cbn [mp_link_loop].
  - by rewrite (proj2 (Z.ltb_lt _ _)) by lia.
  - rewrite !wrap_small by (unfold sizeof_ptr; nia). rewrite IH by (replace (offset + 1 + Z.of_nat n) with (offset + Z.of_nat (S n)) by lia; lia).
    destruct (Z.ltb_spec i (offset + 1)), (Z.ltb_spec i offset); try lia; [by rewrite lookup_insert_ne by nia| |done].
    assert (i = offset) as -> by lia. by rewrite lookup_insert_eq.
Qed.

Lemma mp_link_blocks_words start block_size total words i :
  0 < block_size < 2 ^ 31 -> 0 < start -> 0 < total -> block_at start block_size total < 2 ^ 32 -> 0 <= i < total ->
  mp_link_blocks start block_size total words !! block_at start block_size i =
  Some (Link (if i =? total - 1 then 0 else block_at start block_size (i + 1))).
Proof.
  intros Hb Hs Ht Hlt Hi. change (2 ^ 31) with 2147483648 in *. unfold mp_link_blocks. unfold block_at, sizeof_ptr in Hlt.
  pose proof (eq_refl : 2 ^ 32 = 4294967296) as E32. rewrite (wrap_small 32 (block_size + sizeof_ptr)) by (unfold sizeof_ptr; lia).
  rewrite (wrap_small 32 (total - 1)) by nia. rewrite wrap_small by (unfold sizeof_ptr; nia).
  fold (block_at start block_size (total - 1)). destruct (Z.eqb_spec i (total - 1)) as [->|Hne]; [by rewrite lookup_insert_eq|].
  rewrite lookup_insert_ne by (unfold block_at, sizeof_ptr; nia).
  rewrite mp_link_loop_words by (unfold block_at, sizeof_ptr; nia). by rewrite (proj2 (Z.ltb_ge _ _)) by lia.
Qed.

Lemma linked_blocks next start block_size total (n : nat) i :
  0 < block_size -> 0 < start -> 0 <= i -> i + Z.of_nat n = total ->
  (forall j, 0 <= j < total -> next (block_at start block_size j) = Some (if j =? total - 1 then 0 else block_at start block_size (j + 1))) ->
  linked next (if i =? total then 0 else block_at start block_size i) (block_at start block_size <$> seqZ i (Z.of_nat n)).
Proof.
  intros Hb Hs. revert i. induction n as [|n IH]; intros i Hi Ht Hn.
  - rewrite (proj2 (Z.eqb_eq _ _)) by lia. done.
  - rewrite (proj2 (Z.eqb_neq _ _)) by lia. rewrite seqZ_cons by lia. cbn [fmap list_fmap].
    replace (Z.pred (Z.of_nat (S n))) with (Z.of_nat n) by lia. eapply linked_push; [apply (IH (Z.succ i)); [lia|lia|done]|unfold block_at, sizeof_ptr; nia|].
    rewrite Hn by lia. by destruct (Z.eqb_spec i (total - 1)), (Z.eqb_spec (Z.succ i) total); try lia.
Qed.

Lemma link_blocks_ok mp start size block_size total words :
  0 < block_size < 2 ^ 31 -> 0 < start -> 0 < total -> block_at start block_size total < 2 ^ 32 ->
  mp_ok mp (mp_link_blocks start block_size total words) (mkMp start size block_size start total total)
    (block_at start block_size <$> seqZ 0 total) [].
Proof.
  intros Hb Hs Ht Hlt. assert (Hlen : Z.of_nat (length (block_at start block_size <$> seqZ 0 total)) = total).
  { rewrite length_fmap, length_seqZ. lia. }
  split; cbn [mp_block_list mp_block_free mp_block_total]; rewrite ?app_nil_r, ?Hlen; try done.
  - pose proof (linked_blocks (link_of (mp_link_blocks start block_size total words)) start block_size total (Z.to_nat total) 0) as H.
    rewrite Z2Nat.id in H by lia. rewrite (proj2 (Z.eqb_neq 0 total)) in H by lia. replace (block_at start block_size 0) with start in H by (unfold block_at; lia).
    apply H; [lia|done|done|done|]. intros j Hj. unfold link_of. by rewrite mp_link_blocks_words.
  - unfold block_at, sizeof_ptr in Hlt. nia.
  - apply NoDup_fmap_2_strong; [|apply NoDup_seqZ]. intros i j _ _. unfold block_at, sizeof_ptr. nia.
  - intros a Ha. by apply elem_of_nil in Ha.
  - intros a (i & -> & Hi%elem_of_seqZ)%list_elem_of_fmap. unfold block_at, sizeof_ptr. nia.
Qed.

(** The words written by [rt_mp_init] and [rt_mp_create] make every block of the area free,
    in the order of the addresses. *)
Theorem mp_link_blocks_ok mp start size block_size total words :
  0 < block_size < 2 ^ 31 -> 0 < start -> 0 < total -> block_at start block_size total < 2 ^ 32 ->
  mp_ok mp (mp_link_blocks start block_size total words) (mkMp start size block_size start total total)
    (block_at start block_size <$> seqZ 0 total) [].
Proof. apply link_blocks_ok. Qed.

Lemma mp_link_blocks_ok_witness :
  mp_ok 1 (mp_link_blocks 0x1000 16 2 ∅) (mkMp 0x1000 40 16 0x1000 2 2) [0x1000; 0x1014] [].
Proof. apply (mp_link_blocks_ok 1 0x1000 40 16 2 ∅); done. Defined.

(** ** Witness: pool 1 has one block, taken, waited for and given back *)

Definition sample_pools : pools := mkPools (mp_link_blocks 0x1000 16 1 ∅) {[ 1%positive := mkMp 0x1000 20 16 0x1000 1 1 ]} 0.
Definition sample_pool : mp_sys := MpSys (sample_timers, sample_pools) [].

Lemma sample_pool_ok : mp_sys_ok 1 1 sample_pool.
Proof.
  split; cbn [sample_pool z_state fst].
  - apply sample_ipc_inv.
  - apply sample_clock.
  - by eexists.
  - exists (mkMp 0x1000 20 16 0x1000 1 1), [0x1000]. split; [|done]. split; [done|].
    apply (link_blocks_ok 1 0x1000 20 16 1 ∅); done.
Qed.

Definition s_taken : mpstate := after (rt_mp_alloc 4 1 0) (z_state sample_pool).
Definition s_waiting : mpstate := after (rt_mp_alloc 4 1 (-1)) s_taken.
Definition s_freed : mpstate := after (rt_mp_free 0x1004) s_waiting.
Definition sample_pool_trace : list mp_label := [PAlloc (Returned 0x1004); PAlloc (Waiting 1 (-1, 0)); PFree 0x1004].

Lemma sample_pool_run : exists z, steps (mp_step 4 1 1) sample_pool sample_pool_trace z.
Proof.
  eexists. unfold sample_pool_trace.
  eapply steps_cons; [refine (pt_alloc 4 1 1 1 (sample_thread 11 10) 0 (Returned 0x1004) (z_state sample_pool) s_taken [] _ _ _);
    [apply sample_runs|done|apply (after_some (rt_mp_alloc 4 1 0) (z_state sample_pool)); by vm_compute]|].
  eapply steps_cons; [refine (pt_alloc 4 1 1 1 (sample_thread 11 10) (-1) (Waiting 1%positive (-1, 0)) s_taken s_waiting [0x1000] _ _ _);
    [split; [|split; [|split]]; by vm_compute|done|apply (after_some (rt_mp_alloc 4 1 (-1)) s_taken); by vm_compute]|].
  eapply steps_cons; [refine (pt_free 4 1 1 0x1000 [] [] s_waiting s_freed _); apply (after_some (rt_mp_free 0x1004) s_waiting); by vm_compute|].
  apply steps_nil.
Qed.

Lemma mempool_refines_witness :
  exists z, mp_sys_ok 1 1 z /\ steps mp_spec (PAbs [0x1000] [] []) sample_pool_trace (mp_of 1 z).
Proof.
  destruct sample_pool_run as [z Hz]. exists z.
  destruct (mempool_refines 4 1 1 sample_pool sample_pool_trace z sample_pool_ok Hz) as [H1 H2]. split; [exact H2|exact H1].
Defined.
