(* ===== verification/Completion.v ===== *)
(** * Completion: rt-thread/components/drivers/src/completion.c

    A completion is a flag and the list of the one thread that waits for it.  A wait that
    sleeps ends in [Waiting]; what it does when the thread is scheduled again is
    [rt_completion_wait_resumed].  [rt_completion_done] reads the flag with interrupts on:
    what follows the test is [completion_done], a piece of its own. *)

From S2P Require Import Prelude RtList Kernel Scheduler Object TimerCore Thread Timer Ipc Wait Extend.

#[local] Open Scope Z_scope.

Definition RT_COMPLETED : Z := 1.
Definition RT_UNCOMPLETED : Z := 0.

(** The flags of the completions. *)
Definition cstate : Type := ext (gmap positive Z).
Abbreviation C := (M cstate).

Section completion.
Context (timer_thread : tid).

Definition get_flag (c : positive) : C Z := deref (fun s => s.2 !! c).
Definition put_flag (c : positive) (v : Z) : C unit := modify (set_own <[c := v]>).

Definition rt_completion_init (completion : positive) : C unit :=
  put_flag completion RT_UNCOMPLETED ;;
  kcall (tlist_modify (list_init (LWait completion))).

(** The sleep of [rt_completion_wait]; the interrupt check comes after the suspension. *)
Definition completion_sleep (completion : positive) (thread : tid) (timeout : Z) : K unit :=
  rt_thread_suspend thread ;;
  tlist_modify (list_insert_before (LWait completion) thread) ;;
  not_in_interrupt ;;
  start_and_schedule timer_thread thread timeout ;;
  mret tt.

Definition rt_completion_wait (completion : positive) (timeout : Z) : C (outcome unit Z) :=
  thread ← kcall rt_thread_self;
  flag ← get_flag completion;
  if negb (flag =? RT_COMPLETED) then
    L ← kcall (gets k_tlist);
    rt_assert (list_isempty (LWait completion) L) ;;
    if timeout =? 0 then mret (Returned (- RT_ETIMEOUT))
    else
      t ← deref (fun _ => thread);
      kcall (upd_thread t (set_th_error (fun _ => RT_EOK))) ;;
      kcall (completion_sleep completion t timeout) ;;
      mret (Waiting t tt)
  else put_flag completion RT_UNCOMPLETED ;; mret (Returned RT_EOK).
Definition rt_completion_wait_resumed (completion : positive) (thread : tid) : C Z :=
  th ← kcall (get_thread thread);
  put_flag completion RT_UNCOMPLETED ;;
  mret (th_error th).

(** With interrupts off. *)
Definition completion_done (completion : positive) : C unit :=
  put_flag completion RT_COMPLETED ;;
  L ← kcall (gets k_tlist);
  when (negb (list_isempty (LWait completion) L))
    (thread ← kcall (first_of (LWait completion));
     kcall (rt_thread_resume thread) ;;
     kcall rt_schedule).
Definition rt_completion_done (completion : positive) : C unit :=
  flag ← get_flag completion;
  if flag =? RT_COMPLETED then mret tt else completion_done completion.
End completion.

(** ** The calls *)

Lemma wp_completion_sleep tt c t th timeout k :
  ipc_inv k -> clock_ok k -> runs t th k -> timeout < half -> k_tlist k (LWait c) = [] ->
  wp (completion_sleep tt c t timeout) (fun _ k' => asleep (LWait c) t (no_error th) [] [] timeout k k') (set_k_threads <[t := no_error th]> k).
Proof.
  intros Hi [Hp Htick] Hr Htime El. pose proof Hr as (Hc & Ht & Hs & Hn). unfold completion_sleep. set (h := LWait c) in *. rewrite wp_bind.
  eapply wp_mono, (wp_suspend_insert h t th (list_insert_before h t) [] []); [|done..|].
  - intros r s1 (E & Hn1 & Hi1). rewrite wp_bind. unfold tlist_modify. rewrite wp_modify. change (k_irq_nest s1 = 0) with (k_irq_nest (set_k_tlist (list_insert_before h t) s1) = 0) in Hn1.
    rewrite E in Hn1 |- *. rewrite wp_bind. unfold not_in_interrupt. rewrite wp_bind, wp_gets. apply wp_assert; [by apply Z.eqb_eq|].
    rewrite wp_bind.
    eapply wp_mono, (wp_start_and_schedule tt h t (no_error th)); [|by apply ipc_inv_upd_error|by eapply pending_ext; [..|exact Hp]|done|done|apply lookup_insert_eq|done|done|done|done].
    intros r' k' [_ Ha]. rewrite wp_ret. by eapply asleep_reset.
  - intros L EL. unfold list_insert_before. by rewrite EL.
Qed.

Lemma wp_get_flag c v (Q : Z -> cstate -> Prop) (k : kstate) (m : gmap positive Z) : m !! c = Some v -> Q v (k, m) -> wp (get_flag c) Q (k, m).
Proof. intros. by eapply wp_deref. Qed.

(** A wait: a completion that is there is taken; otherwise time out, or sleep. *)
Lemma wp_rt_completion_wait tt c v t th timeout (Q : outcome unit Z -> cstate -> Prop) k m :
  ipc_inv k -> clock_ok k -> runs t th k -> timeout < half -> m !! c = Some v -> (v ≠ RT_COMPLETED -> k_tlist k (LWait c) = []) ->
  (v = RT_COMPLETED -> Q (Returned RT_EOK) (k, <[c := RT_UNCOMPLETED]> m)) ->
  (v ≠ RT_COMPLETED -> timeout = 0 -> Q (Returned (- RT_ETIMEOUT)) (k, m)) ->
  (forall k', v ≠ RT_COMPLETED -> asleep (LWait c) t (no_error th) [] [] timeout k k' -> Q (Waiting t ()) (k', m)) ->
  wp (rt_completion_wait tt c timeout) Q (k, m).
Proof.
  intros Hi Hcl Hr Ht Hm He H1 H2 H3. pose proof Hr as (Hc & Hth & Hs & Hn). unfold rt_completion_wait, rt_thread_self.
  rewrite wp_bind. apply wp_kcall. rewrite wp_gets. rewrite wp_bind. eapply wp_get_flag; [done|].
  destruct (Z.eqb_spec v RT_COMPLETED) as [E|E]; cbn [negb].
  - unfold put_flag. rewrite wp_bind, wp_modify, wp_ret. by apply H1.
  - rewrite wp_bind. apply wp_kcall. rewrite wp_gets. rewrite wp_bind. unfold list_isempty. apply wp_assert; [by apply bool_decide_eq_true_2, He|].
    destruct (Z.eqb_spec timeout 0); [rewrite wp_ret; by apply H2|]. rewrite wp_bind. eapply wp_deref; [exact Hc|].
    rewrite wp_bind. apply wp_kcall. eapply wp_upd_thread; [done|]. fold (no_error th). rewrite wp_bind. apply wp_kcall.
    eapply wp_mono, wp_completion_sleep; [|done..|by apply He]. intros [] k' Ha. rewrite wp_ret. by apply H3.
Qed.

(** Completing wakes the waiting thread, if there is one. *)
Lemma wp_completion_done c (Q : unit -> cstate -> Prop) k m :
  ipc_inv k -> is_Some (k_current k) -> (forall k', ipc_inv k' -> roused (LWait c) k k' -> Q () (k', <[c := RT_COMPLETED]> m)) ->
  wp (completion_done c) Q (k, m).
Proof.
  intros Hi Hc HQ. unfold completion_done, put_flag. rewrite wp_bind, wp_modify. rewrite wp_bind. apply wp_kcall. cbn [fst]. rewrite wp_gets.
  unfold list_isempty, roused in *. destruct (k_tlist k (LWait c)) as [|t l] eqn:El.
  - rewrite bool_decide_eq_true_2 by done. cbn [negb when]. rewrite wp_ret. by apply HQ.
  - rewrite bool_decide_eq_false_2 by done. cbn [negb when].
    destruct (ii_wait _ Hi (LWait c) t) as (th & Ht & Hs); [done|rewrite El; clear; mem|].
    rewrite wp_bind. apply wp_kcall. unfold first_of. eapply wp_deref; [by rewrite El|]. rewrite wp_bind. apply wp_kcall.
    eapply wp_rt_thread_resume; [apply Hi|exact Ht|by rewrite Hs|]. rewrite bool_decide_eq_true_2 by done. intros _.
    pose proof (resumed_woken t th k Hi Ht Hs) as Hw. apply wp_kcall. eapply wp_mono, wp_schedule_ipc; [|apply Hw|by apply Hw].
    intros [] k' (Hi' & Hfr & Hc'). apply HQ; [done|]. exists th. split; [done|]. by eapply woken_frame.
Qed.

(** ** Refinement: a flag and at most one waiting thread *)

Record c_abs := CAbs { ca_flag : bool; ca_waiting : option tid }.

Inductive c_label :=
  | CWait (r : outcome unit Z)
  | CWoken (r : Z)
  | CDone
  | CTimeout (t : tid)
  | CEnv.

(** A thread that wakes takes the completion whatever woke it. *)
Inductive c_spec : c_abs -> c_label -> c_abs -> Prop :=
  | cs_take w : c_spec (CAbs true w) (CWait (Returned RT_EOK)) (CAbs false w)
  | cs_none : c_spec (CAbs false None) (CWait (Returned (- RT_ETIMEOUT))) (CAbs false None)
  | cs_sleep t : c_spec (CAbs false None) (CWait (Waiting t ())) (CAbs false (Some t))
  | cs_woken b w r : c_spec (CAbs b w) (CWoken r) (CAbs false w)
  | cs_done b w : c_spec (CAbs b w) CDone (CAbs true None)
  | cs_timeout b t : c_spec (CAbs b (Some t)) (CTimeout t) (CAbs b None)
  | cs_env a : c_spec a CEnv a.

Definition flag_at (c : positive) (s : cstate) : bool := bool_decide (s.2 !! c = Some RT_COMPLETED).
Definition c_of (c : positive) (s : cstate) : c_abs := CAbs (flag_at c s) (head (k_tlist s.1 (LWait c))).

(** A completion that is set has no waiting thread. *)
Record c_ok (c : positive) (s : cstate) : Prop := {
  co_inv : ipc_inv s.1;
  co_clock : clock_ok s.1;
  co_current : is_Some (k_current s.1);
  co_flag : exists v, s.2 !! c = Some v;
  co_one : (length (k_tlist s.1 (LWait c)) <= 1)%nat;
  co_set : s.2 !! c = Some RT_COMPLETED -> k_tlist s.1 (LWait c) = []
}.

(** Waiting needs that no other thread waits: the code stops the system otherwise. *)
Inductive c_step (timer_thread : tid) (c : positive) : cstate -> c_label -> cstate -> Prop :=
  | ct_wait t th timeout r s s' : runs t th s.1 -> timeout < half -> (s.2 !! c ≠ Some RT_COMPLETED -> k_tlist s.1 (LWait c) = []) ->
      rt_completion_wait timer_thread c timeout s = Some (r, s') -> c_step timer_thread c s (CWait r) s'
  | ct_woken t th r s s' : runs t th s.1 -> rt_completion_wait_resumed c t s = Some (r, s') -> c_step timer_thread c s (CWoken r) s'
  | ct_done s s' : rt_completion_done c s = Some ((), s') -> c_step timer_thread c s CDone s'
  | ct_done_late s s' : completion_done c s = Some ((), s') -> c_step timer_thread c s CDone s'
  | ct_timeout t s k : t ∈ k_tlist s.1 (LWait c) -> (forall r, r = TLHard \/ r = TLSoft -> TThread t ∉ k_trow s.1 r) ->
      rt_thread_timeout t s.1 = Some ((), k) -> c_step timer_thread c s (CTimeout t) (k, s.2)
  | ct_env s s' : c_ok c s' -> c_of c s' = c_of c s -> c_step timer_thread c s CEnv s'.

(** *** The simulation *)

Lemma c_of_intro c k m v : m !! c = Some v -> c_of c (k, m) = CAbs (v =? RT_COMPLETED) (head (k_tlist k (LWait c))).
Proof.
  intros Hm. unfold c_of, flag_at. cbn [fst snd]. rewrite Hm. f_equal.
  destruct (Z.eqb_spec v RT_COMPLETED) as [->|Hv]; [by apply bool_decide_eq_true_2|]. apply bool_decide_eq_false_2. congruence.
Qed.

(** What all steps end with. *)
Lemma c_change c k k' m v :
  ipc_inv k' -> pending k' -> k_tick k' = k_tick k -> is_Some (k_current k') -> (length (k_tlist k' (LWait c)) <= 1)%nat ->
  (v = RT_COMPLETED -> k_tlist k' (LWait c) = []) -> c_ok c (k, m) ->
  c_of c (k', <[c := v]> m) = CAbs (v =? RT_COMPLETED) (head (k_tlist k' (LWait c))) /\ c_ok c (k', <[c := v]> m).
Proof.
  intros Hi Hp Ht Hc H1 H2 [_ [_ Hk] _ _ _ _]. cbn [fst snd] in *. split; [by apply c_of_intro, lookup_insert_eq|].
  split; cbn [fst snd]; [done|split; [done|by rewrite Ht]|done|by exists v; apply lookup_insert_eq|done|].
  rewrite lookup_insert_eq. intros [= ->]. by apply H2.
Qed.

Lemma asleep_sole c t th timeout k k' : asleep (LWait c) t th [] [] timeout k k' -> k_tlist k' (LWait c) = [t].
Proof. intros Ha. by rewrite (as_queue _ _ _ _ _ _ _ _ Ha). Qed.

Lemma c_wait_simulates tt c t th timeout r s s' :
  c_ok c s -> runs t th s.1 -> timeout < half -> (s.2 !! c ≠ Some RT_COMPLETED -> k_tlist s.1 (LWait c) = []) ->
  rt_completion_wait tt c timeout s = Some (r, s') -> c_spec (c_of c s) (CWait r) (c_of c s') /\ c_ok c s'.
Proof.
  destruct s as [k m]. intros Hok Hr Ht He E. pose proof Hok as [Hi Hcl Hc [v Hm] Hl Hset]. cbn [fst snd] in *. rewrite (c_of_intro c k m v Hm).
  assert (He' : v ≠ RT_COMPLETED -> k_tlist k (LWait c) = []) by (intros; apply He; congruence).
  refine (wp_result _ (fun r s' => c_spec (CAbs (v =? RT_COMPLETED) (head (k_tlist k (LWait c)))) (CWait r) (c_of c s') /\ c_ok c s') _ _ _ _ E).
  eapply wp_rt_completion_wait; [done..| | |].
  - intros ->. destruct (c_change c k k m RT_UNCOMPLETED) as [-> Hok']; [done|apply Hcl|done..|]. split; [constructor|done].
  - intros Hv _. rewrite (c_of_intro c k m v Hm), He' by done. rewrite (proj2 (Z.eqb_neq _ _) Hv). split; [constructor|done].
  - intros k' Hv Ha. pose proof (asleep_sole _ _ _ _ _ _ Ha) as El. rewrite (c_of_intro c k' m v Hm), He', El by done.
    rewrite (proj2 (Z.eqb_neq _ _) Hv). split; [constructor|].
    split; cbn [fst snd]; [apply Ha|split; [apply Ha|by rewrite (as_tick _ _ _ _ _ _ _ _ Ha); apply Hcl]|apply Ha|by exists v|by rewrite El; cbn; lia|].
    rewrite Hm. intros [= ->]. done.
Qed.

Lemma c_done_simulates c s s' :
  c_ok c s -> completion_done c s = Some ((), s') -> c_spec (c_of c s) CDone (c_of c s') /\ c_ok c s'.
Proof.
  destruct s as [k m]. intros Hok E. pose proof Hok as [Hi Hcl Hc [v Hm] Hl Hset]. cbn [fst snd] in *.
  refine (wp_result _ (fun _ s' => c_spec (c_of c (k, m)) CDone (c_of c s') /\ c_ok c s') _ _ _ _ E).
  apply wp_completion_done; [done..|]. intros k' Hi' Hro.
  destruct (roused_queues (LWait c) k k' Hi I Hro) as [El _]. destruct (roused_rest _ _ _ Hro) as (_ & Et & Hp & Hc').
  assert (k_tlist k' (LWait c) = []) as E0 by (rewrite El; destruct (k_tlist k (LWait c)) as [|? []]; cbn in *; [done..|lia]).
  destruct (c_change c k k' m RT_COMPLETED) as [-> Hok']; [done|by apply Hp, Hcl|done|by apply Hc'|by rewrite E0; cbn; lia|done|done|].
  rewrite (c_of_intro c k m v Hm), E0. split; [constructor|done].
Qed.

Lemma c_timeout_simulates c t s k' :
  c_ok c s -> t ∈ k_tlist s.1 (LWait c) -> (forall r, r = TLHard \/ r = TLSoft -> TThread t ∉ k_trow s.1 r) ->
  rt_thread_timeout t s.1 = Some ((), k') -> c_spec (c_of c s) (CTimeout t) (c_of c (k', s.2)) /\ c_ok c (k', s.2).
Proof.
  destruct s as [k m]. intros Hok Hin Hoff E. pose proof Hok as [Hi Hcl Hc [v Hm] Hl Hset]. cbn [fst snd] in *.
  destruct (ii_wait _ Hi (LWait c) t I Hin) as (th & Ht & Hst).
  pose proof (wp_result _ _ _ _ _ (wp_timeout_ipc t th k Hi Hc Ht Hst Hoff) E) as Hw. cbn beta in Hw.
  apply list_elem_of_split in Hin as (q1 & q2 & Eq). destruct (woken_mid (LWait c) t q1 q2 _ k k' Hi I Eq Hw) as [E1 _].
  rewrite Eq, length_app in Hl. cbn in Hl. destruct q1; [|cbn in Hl; lia]. destruct q2; [|cbn in Hl; lia]. cbn in E1, Eq.
  rewrite (c_of_intro c k m v Hm), (c_of_intro c k' m v Hm), Eq, E1. split; [constructor|].
  split; cbn [fst snd]; [apply Hw|split; [by apply Hw, Hcl|by rewrite (wk_tick _ _ _ _ Hw); apply Hcl]|by apply Hw|by exists v|by rewrite E1; cbn; lia|done].
Qed.

Lemma c_woken_simulates c t th r s s' :
  c_ok c s -> runs t th s.1 -> rt_completion_wait_resumed c t s = Some (r, s') -> c_spec (c_of c s) (CWoken r) (c_of c s') /\ c_ok c s'.
Proof.
  destruct s as [k m]. intros Hok (Hc & Ht & _) E. pose proof Hok as [Hi Hcl _ [v Hm] Hl Hset]. cbn [fst snd] in *.
  unfold rt_completion_wait_resumed in E. rewrite (bind_some _ _ (k, m) th (k, m)) in E by (unfold kcall, get_thread, deref; cbn; by rewrite Ht).
  injection E as <- <-. destruct (c_change c k k m RT_UNCOMPLETED) as [E' Hok']; [done|apply Hcl|done|by eexists|done..|]. unfold set_own. cbn [fst snd].
  rewrite E', (c_of_intro c k m v Hm). split; [constructor|done].
Qed.

Lemma c_step_simulates tt c s l s' : c_ok c s -> c_step tt c s l s' -> c_spec (c_of c s) l (c_of c s') /\ c_ok c s'.
Proof.
  intros Hok Hstep. destruct Hstep as [t th timeout r s s' Hr Ht He E|t th r s s' Hr E|s s' E|s s' E|t s k Hin Hoff E|s s' Hok' E].
  - by eapply c_wait_simulates.
  - by eapply c_woken_simulates.
  - destruct s as [k m]. pose proof Hok as [_ _ _ [v Hm] _ Hset]. cbn [fst snd] in *. unfold rt_completion_done in E.
    rewrite (bind_some _ _ (k, m) v (k, m)) in E by (unfold get_flag, deref; cbn; by rewrite Hm).
    destruct (Z.eqb_spec v RT_COMPLETED) as [Hv|Hv]; [subst v|by apply (c_done_simulates c (k, m))].
    injection E as <-. rewrite (c_of_intro c k m _ Hm), (Hset Hm). split; [constructor|done].
  - by apply c_done_simulates.
  - by eapply c_timeout_simulates.
  - rewrite E. split; [constructor|done].
Qed.


(** ** Witness: thread 1 waits for completion 1, which another thread sets *)

Definition sample_completion : cstate := (sample_timers, {[ 1%positive := RT_UNCOMPLETED ]}).

Lemma sample_completion_ok : c_ok 1 sample_completion.
Proof.
  split; cbn [sample_completion fst snd].
  - apply sample_ipc_inv.
  - apply sample_clock.
  - by eexists.
  - by eexists.
  - apply Nat.leb_le. by vm_compute.
  - done.
Qed.

Definition c_waiting : cstate := after (rt_completion_wait 4 1 (-1)) sample_completion.
Definition c_done : cstate := after (rt_completion_done 1) c_waiting.
Definition sample_completion_trace : list c_label := [CWait (Waiting 1%positive ()); CDone].

Lemma sample_completion_run : steps (c_step 4 1) sample_completion sample_completion_trace c_done.
Proof.
  unfold sample_completion_trace.
  eapply steps_cons; [refine (ct_wait 4 1 1 (sample_thread 11 10) (-1) (Waiting 1%positive ()) sample_completion c_waiting _ _ _ _);
    [apply sample_runs|done|done|apply (after_some (rt_completion_wait 4 1 (-1)) sample_completion); by vm_compute]|].
  eapply steps_cons; [refine (ct_done 4 1 c_waiting c_done _); apply (after_some (rt_completion_done 1) c_waiting); by vm_compute|].
  apply steps_nil.
Qed.


(** ** A completion that arrives late is lost

    Thread 1 times out; before it runs again the completion is set.  The wait returns
    [- RT_ETIMEOUT] and clears the flag, so that the next wait sleeps. *)
Definition c_late (k : kstate) : cstate := after (rt_completion_done 1) (after (rt_thread_timeout 1) k, {[ 1%positive := RT_UNCOMPLETED ]}).

Lemma late_completion_lost :
  let s := c_late c_waiting.1 in
  s.2 !! 1%positive = Some RT_COMPLETED /\
  exists s', rt_completion_wait_resumed 1 1 s = Some (- RT_ETIMEOUT, s') /\ s'.2 !! 1%positive = Some RT_UNCOMPLETED.
Proof.
  split; [by vm_compute|]. exists (after (rt_completion_wait_resumed 1 1) (c_late c_waiting.1)). split; [|by vm_compute].
  apply (after_some (rt_completion_wait_resumed 1 1) (c_late c_waiting.1)). by vm_compute.
Qed.
