(* ===== verification/Device.v ===== *)
(** * Device: rt-thread/src/device.c

    Devices and their drivers.  The functions of the drivers are parameters: each takes the
    device and the state [D] of the hardware, and may change both.  [RT_USING_POSIX] is not
    defined.  The address [rt_malloc] returns to [rt_device_create] is an argument. *)

From S2P Require Import Prelude RtList Kernel Scheduler Object TimerCore Thread Timer Ipc Extend.

#[local] Open Scope Z_scope.

Definition RT_DEVICE_FLAG_STANDALONE : Z := 0x008.
Definition RT_DEVICE_FLAG_ACTIVATED : Z := 0x010.
Definition RT_DEVICE_OFLAG_CLOSE : Z := 0x000.
Definition RT_DEVICE_OFLAG_OPEN : Z := 0x008.
Definition RT_DEVICE_OFLAG_MASK : Z := 0xf0f.

(** struct rt_device, without the header, the driver's functions and its data *)
Record rt_device := mkDev {
  dv_type : Z;
  dv_flag : Z;
  dv_open_flag : Z;
  dv_ref_count : Z;
  dv_rx_indicate : option positive;
  dv_tx_complete : option positive
}.
Definition set_flag (f : Z) (d : rt_device) : rt_device := mkDev (dv_type d) f (dv_open_flag d) (dv_ref_count d) (dv_rx_indicate d) (dv_tx_complete d).
Definition set_open_flag (f : Z) (d : rt_device) : rt_device := mkDev (dv_type d) (dv_flag d) f (dv_ref_count d) (dv_rx_indicate d) (dv_tx_complete d).
Definition set_ref_count (n : Z) (d : rt_device) : rt_device := mkDev (dv_type d) (dv_flag d) (dv_open_flag d) n (dv_rx_indicate d) (dv_tx_complete d).
Definition set_rx_indicate (f : option positive) (d : rt_device) : rt_device := mkDev (dv_type d) (dv_flag d) (dv_open_flag d) (dv_ref_count d) f (dv_tx_complete d).
Definition set_tx_complete (f : option positive) (d : rt_device) : rt_device := mkDev (dv_type d) (dv_flag d) (dv_open_flag d) (dv_ref_count d) (dv_rx_indicate d) f.

Section device.
Context {D : Type}.

(** A function of a driver: its result, the device and the hardware. *)
Definition driver_fn (A : Type) : Type := rt_device -> D -> A * rt_device * D.

(** struct rt_device_ops; [None] is RT_NULL. *)
Record rt_device_ops := mkOps {
  op_init : option (driver_fn Z);
  op_open : option (Z -> driver_fn Z);
  op_close : option (driver_fn Z);
  op_read : option (Z -> Z -> driver_fn (Z * list Z));
  op_write : option (Z -> list Z -> Z -> driver_fn Z);
  op_control : option (Z -> Z -> driver_fn Z)
}.

(** The devices, the errno outside threads, and the hardware. *)
Record devices := mkDevs { dx_devs : gmap positive rt_device; dx_errno : Z; dx_hw : D }.
Definition set_devs (f : gmap positive rt_device -> gmap positive rt_device) (x : devices) : devices := mkDevs (f (dx_devs x)) (dx_errno x) (dx_hw x).
Definition set_dx_errno (e : Z) (x : devices) : devices := mkDevs (dx_devs x) e (dx_hw x).

Definition dstate : Type := ext devices.
Abbreviation V := (M dstate).

Context (ops : positive -> rt_device_ops).

Definition get_dev (dev : positive) : V rt_device := deref (fun s => dx_devs s.2 !! dev).
Definition upd_dev (dev : positive) (f : rt_device -> rt_device) : V unit :=
  d ← get_dev dev; modify (set_own (set_devs <[dev := f d]>)).
(** A call of a driver's function. *)
Definition drive {A} (dev : positive) (f : driver_fn A) : V A := fun s =>
  match dx_devs s.2 !! dev with
  | None => None
  | Some d => let '(r, d', w) := f d (dx_hw s.2) in Some (r, (s.1, mkDevs (<[dev := d']> (dx_devs s.2)) (dx_errno s.2) w))
  end.

Definition is_device (dev : positive) : V unit := kcall (is_class (ODevice dev) RT_Object_Class_Device).

(** The container of the devices holds devices. *)
Definition rt_device_find (name : list Z) : V (option positive) :=
  r ← kcall (rt_object_find name RT_Object_Class_Device);
  deref (fun _ => match r with None => Some None | Some (ODevice dev) => Some (Some dev) | Some _ => None end).

Definition rt_device_register (dev : option positive) (name : list Z) (flags : Z) : V Z :=
  match dev with
  | None => mret (- RT_ERROR)
  | Some dev =>
      found ← rt_device_find name;
      match found with
      | Some _ => mret (- RT_ERROR)
      | None =>
          kcall (rt_object_init (ODevice dev) RT_Object_Class_Device name) ;;
          upd_dev dev (fun d => set_open_flag 0 (set_ref_count 0 (set_flag flags d))) ;;
          mret RT_EOK
      end
  end.

Definition rt_device_unregister (dev : positive) : V Z :=
  is_device dev ;;
  kcall (is_system (ODevice dev) true) ;;
  kcall (rt_object_detach (ODevice dev)) ;;
  mret RT_EOK.

Definition rt_device_create (malloc : option positive) (type : Z) : V (option positive) :=
  match malloc with
  | None => mret None
  | Some dev =>
      kcall (modify (set_k_obj <[ODevice dev := mkObject (repeat 0 RT_NAME_MAX) 0 0]>)) ;;
      modify (set_own (set_devs <[dev := mkDev type 0 0 0 None None]>)) ;;
      mret (Some dev)
  end.

Definition rt_device_destroy (dev : positive) : V unit :=
  is_device dev ;;
  kcall (is_system (ODevice dev) false) ;;
  kcall (rt_object_detach (ODevice dev)) ;;
  kcall (modify (set_k_obj (delete (ODevice dev)))) ;;
  modify (set_own (set_devs (delete dev))).

Definition activated (d : rt_device) : bool := negb (Z.land (dv_flag d) RT_DEVICE_FLAG_ACTIVATED =? 0).

Definition rt_device_init (dev : positive) : V Z :=
  match op_init (ops dev) with
  | None => mret RT_EOK
  | Some device_init =>
      d ← get_dev dev;
      if negb (activated d) then
        result ← drive dev device_init;
        when (result =? RT_EOK) (upd_dev dev (fun d => set_flag (Z.lor (dv_flag d) RT_DEVICE_FLAG_ACTIVATED) d)) ;;
        mret result
      else mret RT_EOK
  end.

(** The end of [rt_device_open]: the driver is called, and the use counted. *)
Definition device_opened (dev : positive) (oflag : Z) : V Z :=
  result ← match op_open (ops dev) with
           | Some device_open => drive dev (device_open oflag)
           | None => upd_dev dev (set_open_flag (Z.land oflag RT_DEVICE_OFLAG_MASK)) ;; mret RT_EOK
           end;
  when ((result =? RT_EOK) || (result =? - RT_ENOSYS))
    (upd_dev dev (fun d => set_open_flag (Z.lor (dv_open_flag d) RT_DEVICE_OFLAG_OPEN) d) ;;
     upd_dev dev (fun d => set_ref_count (u8 (dv_ref_count d + 1)) d) ;;
     d ← get_dev dev;
     rt_assert (negb (dv_ref_count d =? 0))) ;;
  mret result.

Definition rt_device_open (dev : positive) (oflag : Z) : V Z :=
  is_device dev ;;
  d ← get_dev dev;
  failed ← (if negb (activated d) then
              result ← match op_init (ops dev) with Some device_init => drive dev device_init | None => mret RT_EOK end;
              if negb (result =? RT_EOK) then mret (Some result)
              else upd_dev dev (fun d => set_flag (Z.lor (dv_flag d) RT_DEVICE_FLAG_ACTIVATED) d) ;; mret None
            else mret None);
  match failed with
  | Some result => mret result
  | None =>
    d ← get_dev dev;
    if negb (Z.land (dv_flag d) RT_DEVICE_FLAG_STANDALONE =? 0) && negb (Z.land (dv_open_flag d) RT_DEVICE_OFLAG_OPEN =? 0)
    then mret (- RT_EBUSY)
    else device_opened dev oflag
  end.

Definition rt_device_close (dev : positive) : V Z :=
  is_device dev ;;
  d ← get_dev dev;
  if dv_ref_count d =? 0 then mret (- RT_ERROR)
  else
    upd_dev dev (fun d => set_ref_count (u8 (dv_ref_count d - 1)) d) ;;
    d ← get_dev dev;
    if negb (dv_ref_count d =? 0) then mret RT_EOK
    else
      result ← match op_close (ops dev) with Some device_close => drive dev device_close | None => mret RT_EOK end;
      when ((result =? RT_EOK) || (result =? - RT_ENOSYS)) (upd_dev dev (set_open_flag RT_DEVICE_OFLAG_CLOSE)) ;;
      mret result.

(** The bytes read, and their number. *)
Definition rt_device_read (dev : positive) (pos size : Z) : V (Z * list Z) :=
  is_device dev ;;
  d ← get_dev dev;
  if dv_ref_count d =? 0 then rt_set_errno set_dx_errno (- RT_ERROR) ;; mret (0, [])
  else
    match op_read (ops dev) with
    | Some device_read => drive dev (device_read pos size)
    | None => rt_set_errno set_dx_errno (- RT_ENOSYS) ;; mret (0, [])
    end.

Definition rt_device_write (dev : positive) (pos : Z) (buffer : list Z) (size : Z) : V Z :=
  is_device dev ;;
  d ← get_dev dev;
  if dv_ref_count d =? 0 then rt_set_errno set_dx_errno (- RT_ERROR) ;; mret 0
  else
    match op_write (ops dev) with
    | Some device_write => drive dev (device_write pos buffer size)
    | None => rt_set_errno set_dx_errno (- RT_ENOSYS) ;; mret 0
    end.

Definition rt_device_control (dev : positive) (cmd arg : Z) : V Z :=
  is_device dev ;;
  match op_control (ops dev) with
  | Some device_control => drive dev (device_control cmd arg)
  | None => mret (- RT_ENOSYS)
  end.

Definition rt_device_set_rx_indicate (dev : positive) (rx_ind : option positive) : V Z :=
  is_device dev ;; upd_dev dev (set_rx_indicate rx_ind) ;; mret RT_EOK.
Definition rt_device_set_tx_complete (dev : positive) (tx_done : option positive) : V Z :=
  is_device dev ;; upd_dev dev (set_tx_complete tx_done) ;; mret RT_EOK.

(** kservice.c: from the console device to the console device, with the result. *)
Definition rt_console_set_device (old_device : option positive) (name : list Z) : V (option positive * option positive) :=
  new_device ← rt_device_find name;
  if bool_decide (new_device = old_device) then mret (old_device, None)
  else
    match new_device with
    | None => mret (old_device, old_device)
    | Some new =>
        match old_device with Some old => _ ← rt_device_close old; mret tt | None => mret tt end ;;
        _ ← rt_device_open new (Z.lor 0x003 0x040);
        mret (new_device, old_device)
    end.

(** ** The uses of a device *)

Definition is_open (d : rt_device) : bool := negb (Z.land (dv_open_flag d) RT_DEVICE_OFLAG_OPEN =? 0).
Definition standalone (d : rt_device) : bool := negb (Z.land (dv_flag d) RT_DEVICE_FLAG_STANDALONE =? 0).

(** The results of open and close that count as success. *)
Definition counted (r : Z) : bool := (r =? RT_EOK) || (r =? - RT_ENOSYS).

(** What is asked of a driver: its functions do not count uses, nor open, close or change the
    kind of the device, though opening it may reset its flags; closing does not fail;
    -RT_ENOSYS is not what init returns. *)
Definition keeps {A} (f : driver_fn A) : Prop := forall d w, let d' := (f d w).1.2 in
  dv_ref_count d' = dv_ref_count d /\ is_open d' = is_open d /\ standalone d' = standalone d.
Definition keeps_open (f : driver_fn Z) : Prop := forall d w, let d' := (f d w).1.2 in
  dv_ref_count d' = dv_ref_count d /\ (counted (f d w).1.1 = false -> is_open d' = is_open d) /\ standalone d' = standalone d.
Record driver_ok (o : rt_device_ops) : Prop := {
  do_init : forall f, op_init o = Some f -> keeps f /\ forall d w, (f d w).1.1 ≠ - RT_ENOSYS;
  do_open : forall f oflag, op_open o = Some f -> keeps_open (f oflag);
  do_close : forall f, op_close o = Some f -> keeps f /\ forall d w, (f d w).1.1 = RT_EOK \/ (f d w).1.1 = - RT_ENOSYS;
  do_read : forall f pos size, op_read o = Some f -> keeps (f pos size);
  do_write : forall f pos buffer size, op_write o = Some f -> keeps (f pos buffer size);
  do_control : forall f cmd arg, op_control o = Some f -> keeps (f cmd arg)
}.

(** A registered device with [n] uses. *)
Definition dev_is (st : bool) (n : Z) (d : rt_device) : Prop :=
  dv_ref_count d = n /\ is_open d = negb (n =? 0) /\ standalone d = st.
Record dev_live (dev : positive) (d : rt_device) (s : dstate) : Prop := {
  dl_obj : exists x, k_obj s.1 !! ODevice dev = Some x /\ class_of x = RT_Object_Class_Device;
  dl_dev : dx_devs s.2 !! dev = Some d
}.

Lemma wp_is_device dev d (Q : unit -> dstate -> Prop) s : dev_live dev d s -> Q tt s -> wp (is_device dev) Q s.
Proof. intros [(x & Hx & Hc) _] HQ. destruct s as [k t]. unfold is_device. apply wp_kcall. by eapply wp_is_class. Qed.
Lemma wp_get_dev dev d (Q : rt_device -> dstate -> Prop) s : dev_live dev d s -> Q d s -> wp (get_dev dev) Q s.
Proof. intros [_ Hd] HQ. by eapply wp_deref. Qed.
Lemma wp_upd_dev dev f d (Q : unit -> dstate -> Prop) s :
  dev_live dev d s -> (forall s', dev_live dev (f d) s' -> s'.1 = s.1 -> Q tt s') -> wp (upd_dev dev f) Q s.
Proof.
  intros Hd HQ. unfold upd_dev. rewrite wp_bind. eapply wp_get_dev; [done|]. rewrite wp_modify. apply HQ; [|done].
  destruct Hd as [H1 H2]. split; [done|]. apply lookup_insert_eq.
Qed.
Lemma wp_drive {A} dev (f : driver_fn A) d (Q : A -> dstate -> Prop) s :
  dev_live dev d s -> (forall w s', w = dx_hw s.2 -> dev_live dev (f d w).1.2 s' -> s'.1 = s.1 -> Q (f d w).1.1 s') -> wp (drive dev f) Q s.
Proof.
  intros Hd HQ. unfold wp, drive. rewrite (dl_dev _ _ _ Hd). specialize (HQ (dx_hw s.2)).
  destruct (f d (dx_hw s.2)) as [[r d'] w] eqn:E. cbn in HQ. apply HQ; [done| |done]. split; [apply Hd|]. apply lookup_insert_eq.
Qed.

Lemma land_lor_bit a b : Z.land (Z.lor a b) b = b.
Proof. apply Z.bits_inj'. intros i _. rewrite Z.land_spec, Z.lor_spec. by destruct (Z.testbit a i), (Z.testbit b i). Qed.
Lemma is_open_marked d : is_open (set_open_flag (Z.lor (dv_open_flag d) RT_DEVICE_OFLAG_OPEN) d) = true.
Proof. unfold is_open. cbn [dv_open_flag set_open_flag]. by rewrite land_lor_bit. Qed.
Lemma standalone_activated d : standalone (set_flag (Z.lor (dv_flag d) RT_DEVICE_FLAG_ACTIVATED) d) = standalone d.
Proof.
  unfold standalone. cbn [dv_flag set_flag]. rewrite Z.land_lor_distr_l.
  change (Z.land RT_DEVICE_FLAG_ACTIVATED RT_DEVICE_FLAG_STANDALONE) with 0. by rewrite Z.lor_0_r.
Qed.

Lemma wp_device_opened dev oflag st n d (Q : Z -> dstate -> Prop) s :
  driver_ok (ops dev) -> dev_live dev d s -> dev_is st n d -> 0 <= n < 255 ->
  (forall r s' d', dev_live dev d' s' -> s'.1 = s.1 -> dev_is st (if counted r then n + 1 else n) d' -> Q r s') ->
  wp (device_opened dev oflag) Q s.
Proof.
  intros Ho Hd (H1 & H2 & H3) Hn HQ. unfold device_opened. rewrite wp_bind.
  set (R := fun r (s' : dstate) => exists d', dev_live dev d' s' /\ s'.1 = s.1 /\ dv_ref_count d' = n /\ standalone d' = st /\
    (counted r = false -> is_open d' = negb (n =? 0))).
  assert (HR : wp (match op_open (ops dev) with
      | Some device_open => drive dev (device_open oflag)
      | None => upd_dev dev (set_open_flag (Z.land oflag RT_DEVICE_OFLAG_MASK)) ;; mret RT_EOK end) R s).
  { destruct (op_open (ops dev)) as [f|] eqn:Ef.
    - eapply wp_drive; [done|]. intros w s' _ Hd' Ek. destruct (do_open _ Ho f oflag Ef d w) as (K1 & K2 & K3).
      exists ((f oflag d w).1.2). rewrite K1, K3. split; [done|]. split; [done|]. split; [done|]. split; [done|]. intros Hc. by rewrite K2.
    - rewrite wp_bind. eapply wp_upd_dev; [done|]. intros s' Hd' Ek. rewrite wp_ret. eexists. by split. }
  eapply wp_mono; [|exact HR]. intros r s1 (d1 & Hd1 & Ek & N1 & N2 & N3). rewrite wp_bind. fold (counted r).
  destruct (counted r) eqn:Er; cbn [when].
  - rewrite wp_bind. eapply wp_upd_dev; [done|]. intros s2 Hd2 Ek2. rewrite wp_bind. eapply wp_upd_dev; [done|]. intros s3 Hd3 Ek3.
    rewrite wp_bind. eapply wp_get_dev; [done|]. cbn [dv_ref_count set_ref_count set_open_flag] in *. rewrite N1 in *.
    rewrite wrap_small in * by (change (2 ^ 8) with 256; lia). apply wp_assert; [by rewrite (proj2 (Z.eqb_neq _ _)) by lia|]. rewrite wp_ret.
    eapply HQ; [exact Hd3|by rewrite Ek3, Ek2|]. rewrite Er. split; [done|]. split; [|done].
    rewrite (proj2 (Z.eqb_neq _ _)) by lia. apply (is_open_marked d1).
  - rewrite wp_ret. eapply HQ; [done|done|]. rewrite Er. split; [done|]. by split; [apply N3|].
Qed.

Lemma wp_rt_device_open dev oflag st n d (Q : Z -> dstate -> Prop) s :
  driver_ok (ops dev) -> dev_live dev d s -> dev_is st n d -> 0 <= n < 255 ->
  (forall r s' d', dev_live dev d' s' -> s'.1 = s.1 ->
     (dev_is st (n + 1) d' /\ counted r = true /\ (st = true -> n = 0)) \/ (dev_is st n d' /\ counted r = false) -> Q r s') ->
  wp (rt_device_open dev oflag) Q s.
Proof.
  intros Ho Hd Hi Hn HQ. unfold rt_device_open. rewrite wp_bind. eapply wp_is_device; [done|]. rewrite wp_bind. eapply wp_get_dev; [done|].
  rewrite wp_bind.
  set (R := fun (r : option Z) (s' : dstate) => exists d', dev_live dev d' s' /\ s'.1 = s.1 /\ dev_is st n d' /\
    (forall e, r = Some e -> counted e = false)).
  assert (Hmark : forall (d1 : rt_device) s1, dev_live dev d1 s1 -> s1.1 = s.1 -> dev_is st n d1 ->
    wp (upd_dev dev (fun d => set_flag (Z.lor (dv_flag d) RT_DEVICE_FLAG_ACTIVATED) d) ;; mret None) R s1).
  { intros d1 s1 Hd1 Ek (N1 & N2 & N3). rewrite wp_bind. eapply wp_upd_dev; [done|]. intros s2 Hd2 Ek2. rewrite wp_ret.
    eexists. split; [exact Hd2|]. split; [by rewrite Ek2|]. split; [|done]. split; [done|]. split; [done|]. by rewrite standalone_activated. }
  eapply wp_mono with (P := R).
  - intros failed s1 (d1 & Hd1 & Ek & Hi1 & Hf). destruct failed as [e|]; cbn beta iota.
    + rewrite wp_ret. eapply HQ; [done|done|]. right. split; [done|]. by apply Hf.
    + rewrite wp_bind. eapply wp_get_dev; [done|]. fold (standalone d1) (is_open d1). pose proof Hi1 as (N1 & N2 & N3). rewrite N2, N3.
      destruct st; cbn [andb].
      * destruct (Z.eqb_spec n 0) as [->|Hne]; cbn [negb].
        -- eapply wp_device_opened; [done|done|done|lia|]. intros r s2 d2 Hd2 Ek2 Hi2. eapply HQ; [done|by rewrite Ek2|].
           destruct (counted r) eqn:Er; [by left|by right].
        -- rewrite wp_ret. eapply HQ; [done|done|]. by right.
      * eapply wp_device_opened; [done|done|done|lia|]. intros r s2 d2 Hd2 Ek2 Hi2. eapply HQ; [done|by rewrite Ek2|].
        destruct (counted r) eqn:Er; [by left|by right].
  - destruct (activated d); cbn [negb]; [rewrite wp_ret; exists d; split; [done|]; split; [done|]; by split|].
    rewrite wp_bind. destruct (op_init (ops dev)) as [f|] eqn:Ef.
    + eapply wp_drive; [done|]. intros w s1 _ Hd1 Ek. destruct (do_init _ Ho f Ef) as [Hkeep Hne]. destruct (Hkeep d w) as (K1 & K2 & K3).
      destruct Hi as (N1 & N2 & N3). assert (Hi1 : dev_is st n (f d w).1.2) by (unfold dev_is; by rewrite K1, K2, K3).
      destruct (Z.eqb_spec (f d w).1.1 RT_EOK); cbn [negb]; [by apply (Hmark _ _ Hd1)|]. rewrite wp_ret. eexists. split; [exact Hd1|].
      do 2 (split; [done|]). intros e [= <-]. unfold counted. rewrite (proj2 (Z.eqb_neq _ _)) by done. by rewrite (proj2 (Z.eqb_neq _ _)) by apply Hne.
    + rewrite wp_ret. cbn [negb Z.eqb]. by apply (Hmark d s).
Qed.

Lemma wp_rt_device_close dev st n d (Q : Z -> dstate -> Prop) s :
  driver_ok (ops dev) -> dev_live dev d s -> dev_is st n d -> 0 <= n < 256 ->
  (forall r s' d', dev_live dev d' s' -> s'.1 = s.1 -> dev_is st (Z.max 0 (n - 1)) d' ->
     (n = 0 -> r = - RT_ERROR) -> (0 < n -> counted r = true) -> Q r s') ->
  wp (rt_device_close dev) Q s.
Proof.
  intros Ho Hd Hi Hn HQ. pose proof Hi as (H1 & H2 & H3). unfold rt_device_close. rewrite wp_bind. eapply wp_is_device; [done|].
  rewrite wp_bind. eapply wp_get_dev; [done|]. rewrite H1. destruct (Z.eqb_spec n 0) as [->|Hne].
  { rewrite wp_ret. by eapply HQ. }
  rewrite wp_bind. eapply wp_upd_dev; [done|]. intros s1 Hd1 Ek1. rewrite wp_bind. eapply wp_get_dev; [done|].
  cbn [dv_ref_count set_ref_count]. rewrite H1 in *. rewrite wrap_small in * by (change (2 ^ 8) with 256; lia).
  rewrite Z.max_r in HQ by lia. destruct (Z.eqb_spec (n - 1) 0) as [E|E]; cbn [negb].
  - rewrite wp_bind.
    set (R := fun r (s' : dstate) => exists d', dev_live dev d' s' /\ s'.1 = s.1 /\ dv_ref_count d' = 0 /\ standalone d' = st /\ counted r = true).
    eapply wp_mono with (P := R).
    + intros r s2 (d2 & Hd2 & Ek2 & K1 & K2 & K3). rewrite wp_bind. fold (counted r). rewrite K3. cbn [when].
      eapply wp_upd_dev; [done|]. intros s3 Hd3 Ek3. rewrite wp_ret. eapply HQ; [exact Hd3|by rewrite Ek3| |lia|done].
      rewrite E. split; [done|]. by split.
    + destruct (op_close (ops dev)) as [f|] eqn:Ef.
      * eapply wp_drive; [done|]. intros w s2 _ Hd2 Ek2. destruct (do_close _ Ho f Ef) as [Hk Hr].
        destruct (Hk (set_ref_count (n - 1) d) w) as (K1 & K2 & K3). eexists. split; [exact Hd2|]. split; [by rewrite Ek2|]. rewrite K1, K3. split; [done|].
        split; [done|]. unfold counted. by destruct (Hr (set_ref_count (n - 1) d) w) as [-> | ->].
      * rewrite wp_ret. eexists. by split.
  - rewrite wp_ret. eapply HQ; [exact Hd1|done| |lia|done]. split; [done|]. split; [|done].
    rewrite (proj2 (Z.eqb_neq (n - 1) 0)) by done. exact H2.
Qed.

(** A call that does not count: reading, writing, control and the callbacks. *)

Lemma set_errno_live dev d error s s' : dev_live dev d s -> rt_set_errno set_dx_errno error s = Some (tt, s') -> dev_live dev d s'.
Proof.
  intros [Hx Hd] E. destruct s as [k t]. unfold rt_set_errno, kcall, rt_thread_self, upd_thread, get_thread, gets, deref, modify, mbind, M_bind in E. cbn in E.
  assert (Hl : forall s1 : dstate, Some (tt, s1) = Some (tt, s') -> k_obj s1.1 = k_obj k -> dx_devs s1.2 = dx_devs t -> dev_live dev d s').
  { intros s1 [= <-] E1 E2. split; [by rewrite E1|by rewrite E2]. }
  destruct (negb (k_irq_nest k =? 0)); cbn in E; [by apply (Hl _ E)|]. destruct (k_current k) as [c|]; cbn in E; [|by apply (Hl _ E)].
  destruct (k_threads k !! c); cbn in E; [|done]. by apply (Hl _ E).
Qed.
Lemma drive_live {A} dev (f : driver_fn A) st n d r s s' :
  keeps f -> dev_live dev d s -> dev_is st n d -> drive dev f s = Some (r, s') -> exists d', dev_live dev d' s' /\ dev_is st n d'.
Proof.
  intros Hk Hd (N1 & N2 & N3) E. unfold drive in E. rewrite (dl_dev _ _ _ Hd) in E. destruct (Hk d (dx_hw s.2)) as (K1 & K2 & K3).
  destruct (f d (dx_hw s.2)) as [[r' d'] w]. injection E as <- <-. cbn in K1, K2, K3. exists d'.
  split; [|unfold dev_is; by rewrite K1, K2, K3]. split; [apply Hd|apply lookup_insert_eq].
Qed.

(** ** Refinement: a counter of uses *)

Inductive dev_label :=
  | VOpen (r : Z)
  | VClose (r : Z)
  | VRead (r : Z * list Z)
  | VWrite (r : Z)
  | VOther.

(** [st]: whether the device is one for a single user. *)
Inductive dev_spec (st : bool) : Z -> dev_label -> Z -> Prop :=
  | vs_open n r : counted r = true -> (st = true -> n = 0) -> n < 255 -> dev_spec st n (VOpen r) (n + 1)
  | vs_refused n r : counted r = false -> dev_spec st n (VOpen r) n
  | vs_close n r : 0 < n -> counted r = true -> dev_spec st n (VClose r) (n - 1)
  | vs_not_open : dev_spec st 0 (VClose (- RT_ERROR)) 0
  | vs_read n r : (n = 0 -> r = (0, [])) -> dev_spec st n (VRead r) n
  | vs_write n r : (n = 0 -> r = 0) -> dev_spec st n (VWrite r) n
  | vs_other n : dev_spec st n VOther n.

Record dev_ok (st : bool) (dev : positive) (s : dstate) : Prop := {
  dk_driver : driver_ok (ops dev);
  dk_live : exists n d, dev_live dev d s /\ dev_is st n d /\ 0 <= n < 256
}.
Definition uses (dev : positive) (s : dstate) : Z := match dx_devs s.2 !! dev with Some d => dv_ref_count d | None => 0 end.

(** The calls on the device; opening it the 256th time stops the system; anything else that
    leaves the device as it is. *)
Inductive dev_step (st : bool) (dev : positive) : dstate -> dev_label -> dstate -> Prop :=
  | vt_open oflag r s s' : uses dev s < 255 -> rt_device_open dev oflag s = Some (r, s') -> dev_step st dev s (VOpen r) s'
  | vt_close r s s' : rt_device_close dev s = Some (r, s') -> dev_step st dev s (VClose r) s'
  | vt_read pos size r s s' : rt_device_read dev pos size s = Some (r, s') -> dev_step st dev s (VRead r) s'
  | vt_write pos buffer size r s s' : rt_device_write dev pos buffer size s = Some (r, s') -> dev_step st dev s (VWrite r) s'
  | vt_control cmd arg r s s' : rt_device_control dev cmd arg s = Some (r, s') -> dev_step st dev s VOther s'
  | vt_rx f r s s' : rt_device_set_rx_indicate dev f s = Some (r, s') -> dev_step st dev s VOther s'
  | vt_tx f r s s' : rt_device_set_tx_complete dev f s = Some (r, s') -> dev_step st dev s VOther s'
  | vt_env s s' : dev_ok st dev s' -> uses dev s' = uses dev s -> dev_step st dev s VOther s'.

Lemma uses_live dev st n d s : dev_live dev d s -> dev_is st n d -> uses dev s = n.
Proof. intros [_ Hd] [<- _]. unfold uses. by rewrite Hd. Qed.

Lemma kept st dev n d d' s s' : dev_ok st dev s -> dev_live dev d s -> dev_is st n d -> 0 <= n < 256 ->
  dev_live dev d' s' -> dev_is st n d' -> uses dev s' = uses dev s /\ dev_ok st dev s'.
Proof.
  intros Hok Hd Hi Hn Hd' Hi'. rewrite (uses_live _ _ _ _ _ Hd Hi), (uses_live _ _ _ _ _ Hd' Hi'). split; [done|].
  split; [apply Hok|]. by exists n, d'.
Qed.

(** The calls that first test the use count. *)
Lemma transfer_step {A} st dev n d (zero : A) (e1 e2 : Z) (op : option (driver_fn A)) r s s' :
  dev_ok st dev s -> dev_live dev d s -> dev_is st n d -> 0 <= n < 256 -> (forall f, op = Some f -> keeps f) ->
  (is_device dev ;;
   d ← get_dev dev;
   if dv_ref_count d =? 0 then rt_set_errno set_dx_errno e1 ;; mret zero
   else match op with Some f => drive dev f | None => rt_set_errno set_dx_errno e2 ;; mret zero end) s = Some (r, s') ->
  uses dev s' = uses dev s /\ dev_ok st dev s' /\ (n = 0 -> r = zero).
Proof.
  intros Hok Hd Hi Hn Hk E.
  assert (Hdev : is_device dev s = Some (tt, s)).
  { assert (Hw : wp (is_device dev) (fun _ s' => s' = s) s) by (by eapply wp_is_device).
    unfold wp in Hw. destruct (is_device dev s) as [[[] s1]|]; [by subst|done]. }
  rewrite (bind_some _ _ _ _ _ Hdev) in E. rewrite (bind_some (get_dev dev) _ s d s) in E by (unfold get_dev, deref; by rewrite (dl_dev _ _ _ Hd)).
  rewrite (proj1 Hi) in E.
  assert (Herr : forall e, (rt_set_errno set_dx_errno e ;; mret zero) s = Some (r, s') -> r = zero /\ dev_live dev d s').
  { intros e Ee. unfold mbind, M_bind in Ee. destruct (rt_set_errno set_dx_errno e s) as [[[] s1]|] eqn:E1; [|done]. injection Ee as <- <-.
    split; [done|]. by eapply set_errno_live. }
  destruct (Z.eqb_spec n 0) as [->|Hne].
  - destruct (Herr _ E) as [-> Hl]. destruct (kept st dev 0 d d s s' Hok Hd Hi ltac:(lia) Hl Hi). done.
  - destruct op as [f|].
    + destruct (drive_live dev f st n d r s s' (Hk f eq_refl) Hd Hi E) as (d' & Hd' & Hi').
      destruct (kept st dev n d d' s s' Hok Hd Hi Hn Hd' Hi'). done.
    + destruct (Herr _ E) as [-> Hl]. destruct (kept st dev n d d s s' Hok Hd Hi Hn Hl Hi). done.
Qed.

Lemma dev_step_simulates st dev s l s' :
  dev_ok st dev s -> dev_step st dev s l s' -> dev_spec st (uses dev s) l (uses dev s') /\ dev_ok st dev s'.
Proof.
  intros Hok Hstep. pose proof Hok as [Ho (n & d & Hd & Hi & Hn)]. pose proof (uses_live _ _ _ _ _ Hd Hi) as Eu.
  destruct Hstep as [oflag r s s' Hu E|r s s' E|pos size r s s' E|pos buffer size r s s' E|cmd arg r s s' E|f r s s' E|f r s s' E|s s' Hok' E].
  - refine (wp_result _ (fun r s' => dev_spec st (uses dev s) (VOpen r) (uses dev s') /\ dev_ok st dev s') _ _ _ _ E). eapply wp_rt_device_open; [done|done|done|lia|]. intros r' s2 d' Hd' _ Hr. rewrite Eu.
    destruct Hr as [(Hi' & Hr & Hst)|[Hi' Hr]]; rewrite (uses_live _ _ _ _ _ Hd' Hi').
    + split; [constructor; [done|done|lia]|]. split; [done|]. exists (n + 1), d'. repeat split; try apply Hd'; try apply Hi'; lia.
    + split; [by constructor|]. split; [done|]. by exists n, d'.
  - refine (wp_result _ (fun r s' => dev_spec st (uses dev s) (VClose r) (uses dev s') /\ dev_ok st dev s') _ _ _ _ E). eapply wp_rt_device_close; [done|done|done|lia|]. intros r' s2 d' Hd' _ Hi' H0 H1.
    rewrite Eu, (uses_live _ _ _ _ _ Hd' Hi'). split.
    + destruct (decide (n = 0)) as [->|Hne]; [rewrite (H0 eq_refl); constructor|]. rewrite Z.max_r by lia. constructor; [lia|apply H1; lia].
    + split; [done|]. exists (Z.max 0 (n - 1)), d'. repeat split; try apply Hd'; try apply Hi'; lia.
  - destruct (transfer_step st dev n d (0, []) (- RT_ERROR) (- RT_ENOSYS) ((fun f => f pos size) <$> op_read (ops dev)) r s s' Hok Hd Hi Hn) as (Eu' & Hok' & Hr).
    + intros f Hf. destruct (op_read (ops dev)) as [g|] eqn:Eg; [|done]. injection Hf as <-. by apply (do_read _ Ho).
    + unfold rt_device_read in E. by destruct (op_read (ops dev)).
    + rewrite Eu'. split; [|done]. constructor. by rewrite Eu.
  - destruct (transfer_step st dev n d 0 (- RT_ERROR) (- RT_ENOSYS) ((fun f => f pos buffer size) <$> op_write (ops dev)) r s s' Hok Hd Hi Hn) as (Eu' & Hok' & Hr).
    + intros f Hf. destruct (op_write (ops dev)) as [g|] eqn:Eg; [|done]. injection Hf as <-. by apply (do_write _ Ho).
    + unfold rt_device_write in E. by destruct (op_write (ops dev)).
    + rewrite Eu'. split; [|done]. constructor. by rewrite Eu.
  - refine (wp_result _ (fun r s' => dev_spec st (uses dev s) VOther (uses dev s') /\ dev_ok st dev s') _ _ _ _ E). unfold rt_device_control. rewrite wp_bind. eapply wp_is_device; [done|].
    assert (Hsame : forall d' s2, dev_live dev d' s2 -> dev_is st n d' -> dev_spec st (uses dev s) VOther (uses dev s2) /\ dev_ok st dev s2).
    { intros d' s2 Hd' Hi'. destruct (kept st dev n d d' s s2 Hok Hd Hi Hn Hd' Hi') as [-> ?]. split; [constructor|done]. }
    destruct (op_control (ops dev)) as [f|] eqn:Ef; [|rewrite wp_ret; by eapply Hsame].
    eapply wp_drive; [done|]. intros w s2 _ Hd2 _. eapply Hsame; [done|]. destruct (do_control _ Ho f cmd arg Ef d w) as (K1 & K2 & K3).
    destruct Hi as (N1 & N2 & N3). unfold dev_is. by rewrite K1, K2, K3.
  - refine (wp_result _ (fun r s' => dev_spec st (uses dev s) VOther (uses dev s') /\ dev_ok st dev s') _ _ _ _ E). unfold rt_device_set_rx_indicate. rewrite wp_bind. eapply wp_is_device; [done|]. rewrite wp_bind.
    eapply wp_upd_dev; [done|]. intros s2 Hd2 _. rewrite wp_ret. destruct (kept st dev n d _ s s2 Hok Hd Hi Hn Hd2 Hi) as [-> ?]. split; [constructor|done].
  - refine (wp_result _ (fun r s' => dev_spec st (uses dev s) VOther (uses dev s') /\ dev_ok st dev s') _ _ _ _ E). unfold rt_device_set_tx_complete. rewrite wp_bind. eapply wp_is_device; [done|]. rewrite wp_bind.
    eapply wp_upd_dev; [done|]. intros s2 Hd2 _. rewrite wp_ret. destruct (kept st dev n d _ s s2 Hok Hd Hi Hn Hd2 Hi) as [-> ?]. split; [constructor|done].
  - rewrite E. split; [constructor|done].
Qed.

(** ** Two defects *)

(** A device for a single user whose driver fails to close: from then on it is neither open
    nor can it be opened. *)
Lemma failed_close_locks_out dev d s f r w :
  op_close (ops dev) = Some f -> keeps f -> dev_live dev d s -> dev_is true 1 d -> activated d = true ->
  (forall d w, (f d w).1.1 = r /\ activated (f d w).1.2 = activated d) -> counted r = false -> w = dx_hw s.2 ->
  wp (rt_device_close dev) (fun e s' => e = r /\
    (forall oflag, rt_device_open dev oflag s' = Some (- RT_EBUSY, s')) /\ rt_device_close dev s' = Some (- RT_ERROR, s')) s.
Proof.
  intros Ef Hk Hd (N1 & N2 & N3) Ha Hf Hr _. unfold rt_device_close at 1. rewrite wp_bind. eapply wp_is_device; [done|].
  rewrite wp_bind. eapply wp_get_dev; [done|]. rewrite N1. cbn [Z.eqb].
  rewrite wp_bind. eapply wp_upd_dev; [done|]. intros s1 Hd1 Ek1. rewrite wp_bind. eapply wp_get_dev; [done|].
  cbn [dv_ref_count set_ref_count] in *. rewrite N1 in *. change (u8 (1 - 1)) with 0 in *. cbn [Z.eqb negb].
  rewrite wp_bind, Ef. eapply wp_drive; [done|]. intros w1 s2 _ Hd2 Ek2.
  destruct (Hf (set_ref_count 0 d) w1) as [E1 E2]. destruct (Hk (set_ref_count 0 d) w1) as (K1 & K2 & K3). rewrite E1.
  rewrite wp_bind. fold (counted r). rewrite Hr. cbn [when]. rewrite wp_ret. set (d2 := (f (set_ref_count 0 d) w1).1.2) in *.
  cbn [dv_ref_count set_ref_count] in K1. change (is_open (set_ref_count 0 d)) with (is_open d) in K2. rewrite N2 in K2.
  change (standalone (set_ref_count 0 d)) with (standalone d) in K3. rewrite N3 in K3. change (activated (set_ref_count 0 d)) with (activated d) in E2. rewrite Ha in E2.
  split; [done|]. split.
  - intros oflag. assert (Hw : wp (rt_device_open dev oflag) (fun e s' => e = - RT_EBUSY /\ s' = s2) s2).
    { unfold rt_device_open. rewrite wp_bind. eapply wp_is_device; [done|]. rewrite wp_bind. eapply wp_get_dev; [done|]. rewrite E2. cbn [negb].
      rewrite wp_bind, wp_ret. cbn beta iota. rewrite wp_bind. eapply wp_get_dev; [done|]. fold (standalone d2) (is_open d2). rewrite K2, K3. cbn [andb negb Z.eqb]. by rewrite wp_ret. }
    apply wp_unfold in Hw as (e & s3 & -> & -> & ->). done.
  - assert (Hw : wp (rt_device_close dev) (fun e s' => e = - RT_ERROR /\ s' = s2) s2).
    { unfold rt_device_close. rewrite wp_bind. eapply wp_is_device; [done|]. rewrite wp_bind. eapply wp_get_dev; [done|]. rewrite K1. cbn [Z.eqb]. by rewrite wp_ret. }
    apply wp_unfold in Hw as (e & s3 & -> & -> & ->). done.
Qed.

(** Devices are registered as static objects. *)
Definition devices_static (k : kstate) : Prop := forall dev x,
  k_obj k !! ODevice dev = Some x -> class_of x = RT_Object_Class_Device -> negb (Z.land (o_type x) RT_Object_Class_Static =? 0) = true.

(** [rt_device_destroy] asks for a device that is not, and always fails an assertion. *)
Lemma device_destroy_faults dev s : devices_static s.1 -> rt_device_destroy dev s = None.
Proof.
  intros Hs. destruct s as [k t]. unfold rt_device_destroy, is_device, is_class, rt_object_get_type, is_system, rt_object_is_systemobject, kcall, get_obj, deref, rt_assert, mbind, M_bind.
  cbn. destruct (k_obj k !! ODevice dev) as [x|] eqn:Ex; cbn; [|done].
  destruct (Z.eqb_spec (Z.land (o_type x) (u8 (Z.lnot RT_Object_Class_Static))) RT_Object_Class_Device) as [E|E]; cbn; [|done].
  rewrite Ex. cbn. rewrite (Hs dev x Ex E). done.
Qed.
(** Creating a device does not make it one: only registering does, as a static object. *)
Lemma device_create_static malloc type r s s' : devices_static s.1 -> rt_device_create malloc type s = Some (r, s') -> devices_static s'.1.
Proof.
  intros Hs E. destruct s as [k t], malloc as [dev|]; [|by injection E as <- <-]. cbn in E. injection E as <- <-. intros dev' x. cbn [fst].
  change (<[ODevice dev := mkObject (repeat 0 RT_NAME_MAX) 0 0]> (k_obj k) !! ODevice dev' = Some x -> class_of x = RT_Object_Class_Device ->
    negb (Z.land (o_type x) RT_Object_Class_Static =? 0) = true).
  destruct (decide (dev' = dev)) as [->|Hne]; [rewrite lookup_insert_eq; by intros [= <-]|].
  rewrite lookup_insert_ne by congruence. apply Hs.
Qed.

(** C13: Refinement: a device counts its users: it is open as long as there is one, a device for a
    single user is not opened twice, only the last user closes it, and who has not opened
    it reads and writes nothing. *)
Theorem device_refines st dev s tr s' :
  dev_ok st dev s -> steps (dev_step st dev) s tr s' -> steps (dev_spec st) (uses dev s) tr (uses dev s') /\ dev_ok st dev s'.
Proof. apply simulation. intros. by eapply dev_step_simulates. Qed.
End device.

(** ** Witness: a device without driver functions, opened, opened again and closed *)

Definition no_ops : positive -> @rt_device_ops unit := fun _ => mkOps None None None None None None.
Definition sample_device : dstate :=
  (set_k_obj <[ODevice 1 := mkObject [] 0x89 0]> sample_timers, mkDevs {[ 1%positive := mkDev 0 0 0 0 None None ]} 0 tt).

Lemma sample_device_ok : dev_ok no_ops false 1 sample_device.
Proof.
  split; [by split|]. exists 0, (mkDev 0 0 0 0 None None). split; [|done]. split; [|done]. exists (mkObject [] 0x89 0).
  split; [|done]. apply lookup_insert_eq.
Qed.

Definition s_opened : dstate := after (rt_device_open no_ops 1 3) sample_device.
Definition s_opened2 : dstate := after (rt_device_open no_ops 1 3) s_opened.
Definition s_read : dstate := after (rt_device_read no_ops 1 0 8) s_opened2.
Definition s_closed : dstate := after (rt_device_close no_ops 1) s_read.
Definition sample_device_trace : list dev_label := [VOpen 0; VOpen 0; VRead (0, []); VClose 0].

Lemma sample_device_run : steps (dev_step no_ops false 1) sample_device sample_device_trace s_closed.
Proof.
  eapply steps_cons; [refine (vt_open no_ops false 1 3 0 sample_device s_opened _ _); [by vm_compute|apply (after_some (rt_device_open no_ops 1 3) sample_device); by vm_compute]|].
  eapply steps_cons; [refine (vt_open no_ops false 1 3 0 s_opened s_opened2 _ _); [by vm_compute|apply (after_some (rt_device_open no_ops 1 3) s_opened); by vm_compute]|].
  eapply steps_cons; [refine (vt_read no_ops false 1 0 8 (0, []) s_opened2 s_read _); apply (after_some (rt_device_read no_ops 1 0 8) s_opened2); by vm_compute|].
  eapply steps_cons; [refine (vt_close no_ops false 1 0 s_read s_closed _); apply (after_some (rt_device_close no_ops 1) s_read); by vm_compute|].
  apply steps_nil.
Qed.

Lemma device_refines_witness : steps (dev_spec false) 0 sample_device_trace (uses 1 s_closed) /\ dev_ok no_ops false 1 s_closed.
Proof. exact (device_refines no_ops false 1 sample_device sample_device_trace s_closed sample_device_ok sample_device_run). Defined.
