(* ===== verification/Serial.v ===== *)
(** * Serial: rt-thread/components/drivers/serial/serial.c

    The serial device between the UART's driver and rt-thread/src/device.c: opening, closing and
    configuring it, reading and writing by polling and by interrupt, and its interrupt handler
    with the buffer of received characters.  RT_SERIAL_USING_DMA and RT_USING_POSIX are not
    defined in the configuration.  The functions of the UART and of the kernel that the driver
    calls are the interface [serial_env], over a state [W] of everything else. *)

From S2P Require Import Prelude Cyclic Kernel Scheduler Object TimerCore Thread Timer Ipc Extend Device.

#[local] Open Scope Z_scope.

Definition RT_DEVICE_FLAG_SUSPENDED : Z := 0x020.
Definition RT_DEVICE_FLAG_STREAM : Z := 0x040.
Definition RT_DEVICE_FLAG_INT_RX : Z := 0x100.
Definition RT_DEVICE_FLAG_DMA_RX : Z := 0x200.
Definition RT_DEVICE_FLAG_INT_TX : Z := 0x400.
Definition RT_DEVICE_FLAG_DMA_TX : Z := 0x800.
Definition RT_DEVICE_CTRL_RESUME : Z := 0x01.
Definition RT_DEVICE_CTRL_SUSPEND : Z := 0x02.
Definition RT_DEVICE_CTRL_CONFIG : Z := 0x03.
Definition RT_DEVICE_CTRL_SET_INT : Z := 0x10.
Definition RT_DEVICE_CTRL_CLR_INT : Z := 0x11.
Definition RT_Device_Class_Char : Z := 0.

(** struct serial_configure *)
Record serial_configure := mkCfg {
  baud_rate : Z; data_bits : Z; stop_bits : Z; parity : Z; bit_order : Z; invert : Z; bufsz : Z
}.
(** RT_SERIAL_CONFIG_DEFAULT, with RT_SERIAL_RB_BUFSZ of rtconfig.h *)
Definition RT_SERIAL_CONFIG_DEFAULT : serial_configure := mkCfg 115200 8 0 0 0 0 64.

(** struct rt_serial_rx_fifo; the size of an object of it *)
Record rt_serial_rx_fifo := mkRx { rx_buffer : list Z; put_index : Z; get_index : Z; is_full : bool }.
Definition sizeof_rx_fifo : Z := 12.
Definition sizeof_tx_fifo : Z := 12.

(** What the driver calls: struct rt_uart_ops, the heap, the completion of the transmission
    and the log. *)
Class serial_env (W : Type) := {
  uart_configure : option (serial_configure -> W -> Z * W);
  uart_control : Z -> Z -> W -> Z * W;
  uart_putc : Z -> W -> Z * W;
  uart_getc : W -> Z * W;
  env_malloc : Z -> W -> bool * W;
  env_free : W -> W;
  env_completion_init : W -> W;
  env_completion_done : W -> W;
  env_warn : W -> W
}.

Section serial.
Context {W : Type} `{!serial_env W}.

(** struct rt_serial_device without its device, and the flag of [_serial_check_buffer_size]. *)
Record serial := mkSer {
  se_config : serial_configure;
  se_rx : option rt_serial_rx_fifo;
  se_tx : bool;
  se_warned : bool;
  se_env : W
}.
Definition set_rx (f : option rt_serial_rx_fifo) (s : serial) : serial := mkSer (se_config s) f (se_tx s) (se_warned s) (se_env s).
Definition set_tx (b : bool) (s : serial) : serial := mkSer (se_config s) (se_rx s) b (se_warned s) (se_env s).
Definition set_config (c : serial_configure) (s : serial) : serial := mkSer c (se_rx s) (se_tx s) (se_warned s) (se_env s).
Definition set_warned (s : serial) : serial := mkSer (se_config s) (se_rx s) (se_tx s) true (se_env s).
Definition set_env (w : W) (s : serial) : serial := mkSer (se_config s) (se_rx s) (se_tx s) (se_warned s) w.

Definition sstate : Type := rt_device * serial.
Abbreviation U := (M sstate).

Definition on_dev (f : rt_device -> rt_device) : U unit := modify (fun s => (f s.1, s.2)).
Definition on_serial (f : serial -> serial) : U unit := modify (fun s => (s.1, f s.2)).
Definition call {A} (f : W -> A * W) : U A := fun s => let '(a, w) := f (se_env s.2) in Some (a, (s.1, set_env w s.2)).
Definition run (f : W -> W) : U unit := on_serial (fun s => set_env (f (se_env s)) s).

(** [flag & bits] as a condition *)
Definition has_flag (flag bits : Z) : bool := negb (Z.land flag bits =? 0).
Definition or_open_flag (bits : Z) : U unit := on_dev (fun d => set_open_flag (Z.lor (dv_open_flag d) bits) d).
Definition clear_open_flag (bits : Z) : U unit := on_dev (fun d => set_open_flag (Z.land (dv_open_flag d) (Z.lnot bits)) d).

(** ** Opening and closing *)

Definition rt_serial_init : U Z :=
  on_serial (set_rx None) ;;
  on_serial (set_tx false) ;;
  match uart_configure with
  | Some configure => c ← gets (fun s => se_config s.2); call (configure c)
  | None => mret RT_EOK
  end.

Definition rt_serial_open (oflag : Z) : U Z :=
  d ← gets fst;
  if has_flag oflag RT_DEVICE_FLAG_DMA_RX && negb (has_flag (dv_flag d) RT_DEVICE_FLAG_DMA_RX) then mret (- RT_EIO)
  else if has_flag oflag RT_DEVICE_FLAG_DMA_TX && negb (has_flag (dv_flag d) RT_DEVICE_FLAG_DMA_TX) then mret (- RT_EIO)
  else if has_flag oflag RT_DEVICE_FLAG_INT_RX && negb (has_flag (dv_flag d) RT_DEVICE_FLAG_INT_RX) then mret (- RT_EIO)
  else if has_flag oflag RT_DEVICE_FLAG_INT_TX && negb (has_flag (dv_flag d) RT_DEVICE_FLAG_INT_TX) then mret (- RT_EIO)
  else
    let stream_flag := if has_flag oflag RT_DEVICE_FLAG_STREAM || has_flag (dv_open_flag d) RT_DEVICE_FLAG_STREAM then RT_DEVICE_FLAG_STREAM else 0 in
    on_dev (set_open_flag (Z.land oflag 0xff)) ;;
    s ← gets snd;
    match se_rx s with
    | None =>
        if has_flag oflag RT_DEVICE_FLAG_INT_RX then
          room ← call (env_malloc (sizeof_rx_fifo + bufsz (se_config s)));
          rt_assert room ;;
          on_serial (set_rx (Some (mkRx (repeat 0 (Z.to_nat (bufsz (se_config s)))) 0 0 false))) ;;
          or_open_flag RT_DEVICE_FLAG_INT_RX ;;
          _ ← call (uart_control RT_DEVICE_CTRL_SET_INT RT_DEVICE_FLAG_INT_RX);
          mret tt
        else on_serial (set_rx None)
    | Some _ => when (has_flag oflag RT_DEVICE_FLAG_INT_RX) (or_open_flag RT_DEVICE_FLAG_INT_RX)
    end ;;
    tx ← gets (fun s => se_tx s.2);
    (if tx : bool then when (has_flag oflag RT_DEVICE_FLAG_INT_TX) (or_open_flag RT_DEVICE_FLAG_INT_TX)
     else if has_flag oflag RT_DEVICE_FLAG_INT_TX then
       room ← call (env_malloc sizeof_tx_fifo);
       rt_assert room ;;
       run env_completion_init ;;
       on_serial (set_tx true) ;;
       or_open_flag RT_DEVICE_FLAG_INT_TX ;;
       _ ← call (uart_control RT_DEVICE_CTRL_SET_INT RT_DEVICE_FLAG_INT_TX);
       mret tt
     else on_serial (set_tx false)) ;;
    or_open_flag stream_flag ;;
    mret RT_EOK.

Definition rt_serial_close : U Z :=
  d ← gets fst;
  if dv_ref_count d >? 1 then mret RT_EOK
  else
    when (has_flag (dv_open_flag d) RT_DEVICE_FLAG_INT_RX)
      (s ← gets snd;
       rt_assert (bool_decide (is_Some (se_rx s))) ;;
       run env_free ;;
       on_serial (set_rx None) ;;
       clear_open_flag RT_DEVICE_FLAG_INT_RX ;;
       _ ← call (uart_control RT_DEVICE_CTRL_CLR_INT RT_DEVICE_FLAG_INT_RX);
       mret tt) ;;
    d ← gets fst;
    when (has_flag (dv_open_flag d) RT_DEVICE_FLAG_INT_TX)
      (s ← gets snd;
       rt_assert (se_tx s) ;;
       run env_free ;;
       on_serial (set_tx false) ;;
       clear_open_flag RT_DEVICE_FLAG_INT_TX ;;
       _ ← call (uart_control RT_DEVICE_CTRL_CLR_INT RT_DEVICE_FLAG_INT_TX);
       mret tt) ;;
    mret RT_EOK.

(** ** Reading and writing *)

Definition is_stream : U bool := gets (fun s => has_flag (dv_open_flag s.1) RT_DEVICE_FLAG_STREAM).

(** The characters read; [length] of the code counts down from [n]. *)
Fixpoint _serial_poll_rx (n : nat) : U (list Z) :=
  match n with
  | O => mret []
  | S n =>
      ch ← call uart_getc;
      if ch =? -1 then mret []
      else
        stream ← is_stream;
        if stream && (ch =? 10) then mret [u8 ch]
        else cs ← _serial_poll_rx n; mret (u8 ch :: cs)
  end.

Fixpoint _serial_poll_tx (data : list Z) : U unit :=
  match data with
  | [] => mret tt
  | c :: data =>
      stream ← is_stream;
      when ((c =? 10) && stream) (_ ← call (uart_putc 13); mret tt) ;;
      _ ← call (uart_putc c);
      _serial_poll_tx data
  end.

(** One character of the buffer: [None] when there is none. *)
Definition rx_get : U (option Z) :=
  s ← gets snd;
  fifo ← deref (fun _ => se_rx s);
  if (get_index fifo =? put_index fifo) && negb (is_full fifo) then mret None
  else
    ch ← deref (fun _ => rx_buffer fifo !! Z.to_nat (get_index fifo));
    let get := u16 (get_index fifo + 1) in
    let get := if get >=? bufsz (se_config s) then 0 else get in
    on_serial (set_rx (Some (mkRx (rx_buffer fifo) (put_index fifo) get false))) ;;
    mret (Some (Z.land ch 0xff)).

Fixpoint _serial_int_rx (n : nat) : U (list Z) :=
  match n with
  | O => mret []
  | S n =>
      r ← rx_get;
      match r with
      | None => mret []
      | Some ch => cs ← _serial_int_rx n; mret (ch :: cs)
      end
  end.

(** Where the writer is: done, or asleep on the completion with the data still to send.  It
    goes on by calling [_serial_int_tx] on them. *)
Inductive tx_outcome := TxSent | TxWaits (todo : list Z).

Fixpoint _serial_int_tx (data : list Z) : U tx_outcome :=
  match data with
  | [] => mret TxSent
  | c :: rest =>
      stream ← is_stream;
      cr ← (if (c =? 10) && stream then call (uart_putc 13) else mret 0);
      if cr =? -1 then mret (TxWaits data)
      else
        r ← call (uart_putc c);
        if r =? -1 then mret (TxWaits data) else _serial_int_tx rest
  end.

(** The number of characters, and the characters. *)
Definition rt_serial_read (size : Z) : U (Z * list Z) :=
  if size =? 0 then mret (0, [])
  else
    d ← gets fst;
    cs ← (if has_flag (dv_open_flag d) RT_DEVICE_FLAG_INT_RX
          then (s ← gets snd; rt_assert (bool_decide (is_Some (se_rx s))) ;; _serial_int_rx (Z.to_nat size))
          else _serial_poll_rx (Z.to_nat size));
    mret (Z.of_nat (length cs), cs).

(** [inr]: the writer sleeps, with the data left to send. *)
Definition rt_serial_write (buffer : list Z) : U (Z + list Z) :=
  if bool_decide (buffer = []) then mret (inl 0)
  else
    d ← gets fst;
    if has_flag (dv_open_flag d) RT_DEVICE_FLAG_INT_TX then
      s ← gets snd;
      rt_assert (se_tx s) ;;
      r ← _serial_int_tx buffer;
      match r with
      | TxSent => mret (inl (Z.of_nat (length buffer)))
      | TxWaits todo => mret (inr todo)
      end
    else _serial_poll_tx buffer ;; mret (inl (Z.of_nat (length buffer))).

(** [args]: what the argument points to. *)
Definition rt_serial_control (cmd args : Z) (config_at : option serial_configure) : U Z :=
  if cmd =? RT_DEVICE_CTRL_SUSPEND then on_dev (fun d => set_flag (Z.lor (dv_flag d) RT_DEVICE_FLAG_SUSPENDED) d) ;; mret RT_EOK
  else if cmd =? RT_DEVICE_CTRL_RESUME then on_dev (fun d => set_flag (Z.land (dv_flag d) (Z.lnot RT_DEVICE_FLAG_SUSPENDED)) d) ;; mret RT_EOK
  else if cmd =? RT_DEVICE_CTRL_CONFIG then
    if args =? 0 then mret RT_EOK
    else
      pconfig ← deref (fun _ => config_at);
      d ← gets fst;
      s ← gets snd;
      if negb (bufsz pconfig =? bufsz (se_config s)) && negb (dv_ref_count d =? 0) then mret RT_EBUSY
      else
        on_serial (set_config pconfig) ;;
        when (negb (dv_ref_count d =? 0))
          (configure ← deref (fun _ => uart_configure); _ ← call (configure pconfig); mret tt) ;;
        mret RT_EOK
  else call (uart_control cmd args).

(** ** The interrupt *)

Definition _serial_check_buffer_size : U unit :=
  s ← gets snd;
  when (negb (se_warned s)) (run env_warn ;; on_serial set_warned).

(** One character received. *)
Definition rx_put (ch : Z) : U unit :=
  s ← gets snd;
  fifo ← deref (fun _ => se_rx s);
  rt_assert (put_index fifo <? Z.of_nat (length (rx_buffer fifo))) ;;
  let size := bufsz (se_config s) in
  let buffer := <[Z.to_nat (put_index fifo) := u8 ch]> (rx_buffer fifo) in
  let put := u16 (put_index fifo + 1) in
  let put := if put >=? size then 0 else put in
  if put =? get_index fifo then
    let get := u16 (get_index fifo + 1) in
    let get := if get >=? size then 0 else get in
    on_serial (set_rx (Some (mkRx buffer put get true))) ;;
    _serial_check_buffer_size
  else on_serial (set_rx (Some (mkRx buffer put (get_index fifo) (is_full fifo)))).

(** [fuel] bounds the characters the UART gives in one interrupt. *)
Fixpoint rx_loop (fuel : nat) : U unit :=
  match fuel with
  | O => fault
  | S fuel =>
      ch ← call uart_getc;
      if ch =? -1 then mret tt else rx_put ch ;; rx_loop fuel
  end.

(** The callback to run, and the number of characters it is told. *)
Definition rx_notify : U (option (positive * Z)) :=
  s ← gets (fun s => s);
  fifo ← deref (fun _ => se_rx s.2);
  match dv_rx_indicate s.1 with
  | None => mret None
  | Some rx_indicate =>
      let rx_length := if put_index fifo >=? get_index fifo then u32 (put_index fifo - get_index fifo)
                       else u32 (bufsz (se_config s.2) - (get_index fifo - put_index fifo)) in
      mret (if negb (rx_length =? 0) then Some (rx_indicate, rx_length) else None)
  end.

Definition RT_SERIAL_EVENT_RX_IND : Z := 0x01.
Definition RT_SERIAL_EVENT_TX_DONE : Z := 0x02.

Definition rt_hw_serial_isr (fuel : nat) (event : Z) : U (option (positive * Z)) :=
  if Z.land event 0xff =? RT_SERIAL_EVENT_RX_IND then
    s ← gets snd;
    rt_assert (bool_decide (is_Some (se_rx s))) ;;
    rx_loop fuel ;;
    rx_notify
  else if Z.land event 0xff =? RT_SERIAL_EVENT_TX_DONE then
    s ← gets snd;
    rt_assert (se_tx s) ;;
    run env_completion_done ;;
    mret None
  else mret None.

(** ** The buffer holds a queue *)

(** The last [k] of a list. *)
Definition lastn {A} (k : nat) (l : list A) : list A := drop (length l - k) l.

(** [f] is a buffer of [n] bytes with the characters [q]. *)
Record fifo_is (n : Z) (q : list Z) (f : rt_serial_rx_fifo) : Prop := {
  fi_size : 2 <= n < 65536 /\ Z.of_nat (length (rx_buffer f)) = n;
  fi_put : 0 <= put_index f < n;
  fi_get : 0 <= get_index f < n;
  fi_at : put_index f = get_index f + Z.of_nat (length q) \/ put_index f = get_index f + Z.of_nat (length q) - n;
  fi_room : Z.of_nat (length q) < n;
  fi_full : is_full f = true -> q ≠ [];
  fi_bytes : Forall (fun c => 0 <= c < 256) q;
  fi_seq : segment n (get_index f) (Z.of_nat (length q)) (rx_buffer f) q
}.

(** The next position in a buffer, as the code computes it. *)
Lemma next_index n i : 0 <= i < n -> n < 65536 ->
  (if u16 (i + 1) >=? n then 0 else u16 (i + 1)) = i + 1 /\ i + 1 < n \/
  (if u16 (i + 1) >=? n then 0 else u16 (i + 1)) = 0 /\ i + 1 = n.
Proof.
  intros Hi Hn. rewrite wrap_small by (change (2 ^ 16) with 65536; lia). rewrite Z.geb_leb.
  destruct (Z.leb_spec n (i + 1)); [right|left]; lia.
Qed.
Lemma next_slot n i j x : 0 < n -> j = i \/ j = i - n -> slot n (j + x) = slot n (i + x).
Proof. intros Hn [-> | ->]; [done|]. rewrite <- (slot_over n (i - n + x)) by done. f_equal. lia. Qed.

Lemma u8_byte c : 0 <= u8 c < 256.
Proof. apply (wrap_range 8). lia. Qed.
Lemma land_byte c : 0 <= c < 256 -> Z.land c 0xff = c.
Proof. intros. change 0xff with (Z.ones 8). rewrite Z.land_ones by lia. by apply Z.mod_small. Qed.

Lemma lastn_app_full {A} (k : nat) (l : list A) c : length l = k -> lastn k (l ++ [c]) = drop 1 (l ++ [c]).
Proof. intros <-. unfold lastn. rewrite length_app. cbn [length]. f_equal. lia. Qed.
Lemma lastn_all {A} (k : nat) (l : list A) : (length l <= k)%nat -> lastn k l = l.
Proof. intros. unfold lastn. by replace (length l - k)%nat with 0%nat by lia. Qed.
(** Forgetting early or late comes to the same. *)
Lemma lastn_app {A} (k : nat) (l l' : list A) : lastn k (lastn k l ++ l') = lastn k (l ++ l').
Proof.
  unfold lastn. rewrite !length_app, length_drop.
  destruct (decide (length l <= k)%nat) as [H|H].
  - replace (length l - k)%nat with 0%nat by lia. by rewrite drop_0, Nat.sub_0_r.
  - rewrite <- (drop_app_le l l' (length l - k)) by lia. rewrite drop_drop. f_equal. lia.
Qed.

(** What [rx_put] makes of the buffer, as a function; and whether a character was lost. *)
Definition fifo_put (n ch : Z) (f : rt_serial_rx_fifo) : rt_serial_rx_fifo * bool :=
  let buffer := <[Z.to_nat (put_index f) := u8 ch]> (rx_buffer f) in
  let put := if u16 (put_index f + 1) >=? n then 0 else u16 (put_index f + 1) in
  if put =? get_index f then (mkRx buffer put (if u16 (get_index f + 1) >=? n then 0 else u16 (get_index f + 1)) true, true)
  else (mkRx buffer put (get_index f) (is_full f), false).

Lemma put_segment n q f ch k get' : fifo_is n q f -> 0 <= k <= 1 -> Z.of_nat (length q) + 1 - k < n ->
  get' = get_index f + k \/ get' = get_index f + k - n ->
  segment n get' (Z.of_nat (length q) + 1 - k) (<[Z.to_nat (put_index f) := u8 ch]> (rx_buffer f)) (drop (Z.to_nat k) (q ++ [u8 ch])).
Proof.
  intros [Hn Hp Hg Ha Hr Hf Hb Hs] Hk Hl Hg'.
  change (Z.of_nat (length q) + 1 - k) with (Z.of_nat (length q) + Z.of_nat (length [u8 ch]) - k).
  eapply (segment_write n (get_index f) _ (put_index f)); try done; try (cbn [length]; lia).
  - change (<[Z.to_nat (put_index f) := u8 ch]> (rx_buffer f)) with (list_inserts (Z.to_nat (put_index f)) [u8 ch] (rx_buffer f)).
    apply wrote_once; cbn [length]; lia.
  - intros x. by apply next_slot; [lia|].
  - intros x. by apply next_slot; [lia|].
Qed.

Lemma fifo_put_spec n q f ch : fifo_is n q f -> fifo_is n (lastn (Z.to_nat (n - 1)) (q ++ [u8 ch])) (fifo_put n ch f).1.
Proof.
  intros Hfi. pose proof Hfi as [Hn Hp Hg Ha Hr Hf Hb Hs]. unfold fifo_put.
  pose proof (next_index n (put_index f) Hp ltac:(lia)) as Ep.
  assert (Hb' : Forall (fun c => 0 <= c < 256) (q ++ [u8 ch])) by (apply Forall_app; split; [done|constructor; [apply u8_byte|done]]).
  set (put := if u16 (put_index f + 1) >=? n then 0 else u16 (put_index f + 1)) in *.
  pose proof (next_index n (get_index f) Hg ltac:(lia)) as Eg.
  set (get := if u16 (get_index f + 1) >=? n then 0 else u16 (get_index f + 1)) in *.
  destruct (Z.eqb_spec put (get_index f)) as [E|E]; cbn [fst].
  - assert (El : Z.of_nat (length q) = n - 1) by lia.
    rewrite lastn_app_full by lia. assert (Hd : length (drop 1 (q ++ [u8 ch])) = length q) by (rewrite length_drop, length_app; cbn [length]; lia).
    split; cbn [rx_buffer put_index get_index is_full]; rewrite ?length_insert, ?Hd; try done; try lia.
    + intros _ H. rewrite H in Hd. cbn [length] in Hd. lia.
    + by apply Forall_drop.
    + replace (Z.of_nat (length q)) with (Z.of_nat (length q) + 1 - 1) by lia.
      change 1%nat with (Z.to_nat 1). apply put_segment; [done|lia|lia|lia].
  - rewrite lastn_all by (rewrite length_app; cbn [length]; lia).
    split; cbn [rx_buffer put_index get_index is_full]; rewrite ?length_insert, ?length_app; cbn [length]; try done; try lia.
    + intros _. by destruct q.
    + replace (Z.of_nat (length q + 1)) with (Z.of_nat (length q) + 1 - 0) by lia.
      change (q ++ [u8 ch]) with (drop (Z.to_nat 0) (q ++ [u8 ch])). apply put_segment; [done|lia|lia|lia].
Qed.

(** What [rx_get] makes of it. *)
Lemma get_char_spec n c q f : fifo_is n (c :: q) f ->
  (get_index f =? put_index f) && negb (is_full f) = false /\ rx_buffer f !! Z.to_nat (get_index f) = Some c /\ Z.land c 0xff = c /\
  fifo_is n q (mkRx (rx_buffer f) (put_index f) (if u16 (get_index f + 1) >=? n then 0 else u16 (get_index f + 1)) false).
Proof.
  intros [Hn Hp Hg Ha Hr Hf Hb Hs]. cbn [length] in *.
  pose proof (next_index n (get_index f) Hg ltac:(lia)) as Eg. set (get := if u16 (get_index f + 1) >=? n then 0 else u16 (get_index f + 1)) in *.
  split; [rewrite (proj2 (Z.eqb_neq _ _)) by lia; done|]. split.
  { destruct Hs as [_ Hs]. specialize (Hs 0 ltac:(lia)). by rewrite Z.add_0_r, slot_small in Hs by lia. }
  apply Forall_cons in Hb as [Hc Hb]. split; [by apply land_byte|].
  split; cbn [rx_buffer put_index get_index is_full]; try done; try lia.
  replace (Z.of_nat (length q)) with (Z.of_nat (S (length q)) - 1) by lia.
  change q with (drop (Z.to_nat 1) (c :: q)) at 2. eapply segment_read; [done|lia|]. intros x. apply next_slot; lia.
Qed.
Lemma get_none n f : fifo_is n [] f -> (get_index f =? put_index f) && negb (is_full f) = true.
Proof.
  intros [Hn Hp Hg Ha Hr Hf Hb Hs]. cbn [length] in *. rewrite (proj2 (Z.eqb_eq _ _)) by lia.
  destruct (is_full f); [by destruct Hf|done].
Qed.

(** The queue, computed. *)
Definition fifo_queue (f : rt_serial_rx_fifo) : list Z :=
  let n := Z.of_nat (length (rx_buffer f)) in stretch n (get_index f) ((put_index f - get_index f) mod n) (rx_buffer f).
Lemma fifo_queue_spec n q f : fifo_is n q f -> fifo_queue f = q.
Proof.
  intros [Hn Hp Hg Ha Hr Hf Hb Hs]. unfold fifo_queue. destruct Hn as [Hn E]. rewrite E.
  assert ((put_index f - get_index f) mod n = Z.of_nat (length q)) as ->.
  { symmetry. destruct Ha; [apply (Z.mod_unique _ _ 0)|apply (Z.mod_unique _ _ (-1))]; lia. }
  eapply segment_unique; [|exact Hs]. apply stretch_segment; lia.
Qed.

(** ** Receiving *)

(** The device is open for reading by interrupt and holds [q]. *)
Definition rx_open (n : Z) (q : list Z) (s : sstate) : Prop :=
  (exists f, se_rx s.2 = Some f /\ fifo_is n q f) /\ bufsz (se_config s.2) = n /\
  has_flag (dv_open_flag s.1) RT_DEVICE_FLAG_INT_RX = true /\ 1 <= dv_ref_count s.1.

Lemma rx_open_env n q s w b : rx_open n q s -> rx_open n q (s.1, mkSer (se_config s.2) (se_rx s.2) (se_tx s.2) b w).
Proof. done. Qed.

(** What the UART has received. *)
Inductive pending : list Z -> W -> Prop :=
  | pending_none w : (uart_getc w).1 = -1 -> pending [] w
  | pending_some c cs w : (uart_getc w).1 = c -> c ≠ -1 -> pending cs (uart_getc w).2 -> pending (c :: cs) w.

(** Reporting a lost character takes none from the UART. *)
Context (warn_keeps : forall cs w, pending cs w -> pending cs (env_warn w)).

Lemma wp_call {A} (f : W -> A * W) (Q : A -> sstate -> Prop) s :
  Q (f (se_env s.2)).1 (s.1, set_env (f (se_env s.2)).2 s.2) -> wp (call f) Q s.
Proof. unfold wp, call. by destruct (f (se_env s.2)). Qed.

Lemma wp_rx_put n q ch cs (Q : unit -> sstate -> Prop) s : rx_open n q s -> pending cs (se_env s.2) ->
  (forall s', rx_open n (lastn (Z.to_nat (n - 1)) (q ++ [u8 ch])) s' -> pending cs (se_env s'.2) -> s'.1 = s.1 -> Q tt s') ->
  wp (rx_put ch) Q s.
Proof.
  intros ((f & Ef & Hf) & Ec & Ho & Hr) Hp HQ. pose proof (fifo_put_spec n q f ch Hf) as Hnew. unfold fifo_put in Hnew.
  unfold rx_put. wp_step. wp_step. wp_step. wp_step; [exact Ef|]. wp_step.
  apply wp_assert. { destruct Hf as [[_ El] ? _ _ _ _ _ _]. rewrite El. apply Z.ltb_lt. lia. }
  cbv zeta. rewrite Ec.
  set (put := if u16 (put_index f + 1) >=? n then 0 else u16 (put_index f + 1)) in *.
  destruct (put =? get_index f) eqn:E; cbn [fst] in Hnew.
  - wp_step. unfold on_serial at 1. wp_step. unfold _serial_check_buffer_size. wp_step. wp_step. wp_step; intros.
    + wp_step. unfold run, on_serial. wp_step. wp_step. apply HQ; [|by apply warn_keeps|done]. split; [by eexists|done].
    + apply HQ; [|done|done]. split; [by eexists|done].
  - unfold on_serial. wp_step. apply HQ; [|done|done]. split; [by eexists|done].
Qed.

Lemma wp_rx_loop n cs : forall fuel q (Q : unit -> sstate -> Prop) s, rx_open n q s -> pending cs (se_env s.2) -> (length cs < fuel)%nat ->
  (forall s', rx_open n (lastn (Z.to_nat (n - 1)) (q ++ (u8 <$> cs))) s' -> s'.1 = s.1 -> Q tt s') ->
  wp (rx_loop fuel) Q s.
Proof.
  induction cs as [|c cs IH]; intros fuel q Q s Hs Hp Hfuel HQ; (destruct fuel as [|fuel]; [cbn in Hfuel; lia|]); cbn [rx_loop];
    wp_step; apply wp_call; inversion Hp as [w Hw|c' cs' w Hw Hne Hp']; subst; rewrite ?Hw.
  - cbn [Z.eqb Pos.eqb]. wp_step. apply HQ; [|done]. rewrite app_nil_r, lastn_all.
    + by apply rx_open_env.
    + destruct Hs as [(f & _ & [? ? ? ? ? ? ? ?]) _]. lia.
  - rewrite (proj2 (Z.eqb_neq _ _)) by done. wp_step. eapply wp_rx_put; [by apply rx_open_env|exact Hp'|].
    intros s1 Hs1 Hp1 Ed. eapply IH; [exact Hs1|done|cbn [length] in Hfuel; lia|]. intros s2 Hs2 Ed2. apply HQ; [|by rewrite Ed2].
    by rewrite lastn_app, <- app_assoc in Hs2.
Qed.

Lemma wp_rx_notify n q (Q : option (positive * Z) -> sstate -> Prop) s : rx_open n q s ->
  Q (match dv_rx_indicate s.1 with
     | Some cb => if bool_decide (q = []) then None else Some (cb, Z.of_nat (length q))
     | None => None end) s ->
  wp rx_notify Q s.
Proof.
  intros ((f & Ef & [Hn Hp Hg Ha Hr Hf Hb Hs]) & Ec & Ho & Hc) HQ. unfold rx_notify. wp_step. wp_step. wp_step. wp_step; [exact Ef|].
  revert HQ. destruct (dv_rx_indicate s.1) as [cb|]; intros HQ; [|exact HQ]. rewrite Ec. cbv zeta. wp_step.
  assert ((if put_index f >=? get_index f then u32 (put_index f - get_index f) else u32 (n - (get_index f - put_index f))) = Z.of_nat (length q)) as ->.
  { rewrite Z.geb_leb. destruct (Z.leb_spec (get_index f) (put_index f)); rewrite wrap_small by (change (2 ^ 32) with 4294967296; lia); lia. }
  case_bool_decide as E; [subst; done|]. rewrite (proj2 (Z.eqb_neq (Z.of_nat (length q)) 0)); [done|]. destruct q; [done|]. cbn [length]. lia.
Qed.

Lemma wp_rx_isr n q cs fuel (Q : option (positive * Z) -> sstate -> Prop) s :
  rx_open n q s -> pending cs (se_env s.2) -> (length cs < fuel)%nat ->
  (forall s', let q' := lastn (Z.to_nat (n - 1)) (q ++ (u8 <$> cs)) in
    rx_open n q' s' -> s'.1 = s.1 ->
    Q (match dv_rx_indicate s.1 with Some cb => if bool_decide (q' = []) then None else Some (cb, Z.of_nat (length q')) | None => None end) s') ->
  wp (rt_hw_serial_isr fuel RT_SERIAL_EVENT_RX_IND) Q s.
Proof.
  intros Hs Hp Hfuel HQ. unfold rt_hw_serial_isr. change (Z.land RT_SERIAL_EVENT_RX_IND 0xff =? RT_SERIAL_EVENT_RX_IND) with true. cbv iota.
  wp_step. wp_step. wp_step. apply wp_assert. { destruct Hs as [(f & -> & _) _]. by apply bool_decide_eq_true_2. }
  wp_step. eapply wp_rx_loop; [done|done|done|]. intros s' Hs' Ed. eapply wp_rx_notify; [done|]. rewrite Ed. by apply HQ.
Qed.

(** ** Taking the characters *)

Lemma wp_rx_get n c q (Q : option Z -> sstate -> Prop) s : rx_open n (c :: q) s ->
  (forall s', rx_open n q s' -> s'.1 = s.1 -> Q (Some c) s') -> wp rx_get Q s.
Proof.
  intros ((f & Ef & Hf) & Ec & Ho & Hr) HQ. destruct (get_char_spec _ _ _ _ Hf) as (E1 & E2 & E3 & Hf').
  unfold rx_get. wp_step. wp_step. wp_step. wp_step; [exact Ef|]. rewrite E1. wp_step. wp_step; [exact E2|].
  cbv zeta. rewrite Ec, E3. wp_step. unfold on_serial. wp_step. wp_step. apply HQ; [|done]. split; [by eexists|done].
Qed.
Lemma wp_rx_get_none n (Q : option Z -> sstate -> Prop) s : rx_open n [] s -> Q None s -> wp rx_get Q s.
Proof.
  intros ((f & Ef & Hf) & _) HQ. unfold rx_get. wp_step. wp_step. wp_step. wp_step; [exact Ef|]. by rewrite (get_none _ _ Hf).
Qed.

Lemma wp_int_rx n k : forall q (Q : list Z -> sstate -> Prop) s, rx_open n q s ->
  (forall s', rx_open n (drop k q) s' -> s'.1 = s.1 -> Q (take k q) s') -> wp (_serial_int_rx k) Q s.
Proof.
  induction k as [|k IH]; intros q Q s Hs HQ; cbn [_serial_int_rx]; [wp_step; by apply HQ|]. wp_step.
  destruct q as [|c q].
  - eapply wp_rx_get_none; [done|]. cbv iota. wp_step. by apply HQ.
  - eapply wp_rx_get; [done|]. intros s1 Hs1 Ed. cbv iota. wp_step. eapply IH; [done|]. intros s2 Hs2 Ed2. wp_step.
    apply HQ; [done|by rewrite Ed2].
Qed.

Lemma wp_rt_serial_read n q size (Q : Z * list Z -> sstate -> Prop) s : rx_open n q s -> 0 <= size ->
  (forall s', let r := take (Z.to_nat size) q in rx_open n (drop (Z.to_nat size) q) s' -> s'.1 = s.1 -> Q (Z.of_nat (length r), r) s') ->
  wp (rt_serial_read size) Q s.
Proof.
  intros Hs Hsize HQ. unfold rt_serial_read. destruct (Z.eqb_spec size 0) as [->|Hne]; [wp_step; by apply HQ|].
  wp_step. wp_step. rewrite (proj1 (proj2 (proj2 Hs))). wp_step. wp_step. wp_step. wp_step.
  apply wp_assert. { destruct Hs as [(f & -> & _) _]. by apply bool_decide_eq_true_2. }
  eapply wp_int_rx; [done|]. intros s' Hs' Ed. wp_step. by apply HQ.
Qed.

(** ** Sending *)

(** The characters that go out: in stream mode a line feed is preceded by a carriage return. *)
Definition crlf (stream : bool) (data : list Z) : list Z := data ≫= (fun c => if (c =? 10) && stream then [13; 10] else [c]).
Definition sent (cs : list Z) (w : W) : W := foldl (fun w c => (uart_putc c w).2) w cs.
Definition stream_of (s : sstate) : bool := has_flag (dv_open_flag s.1) RT_DEVICE_FLAG_STREAM.
Definition with_env (w : W) (s : sstate) : sstate := (s.1, set_env w s.2).

Lemma call_eq {A} (f : W -> A * W) s : call f s = Some ((f (se_env s.2)).1, with_env (f (se_env s.2)).2 s).
Proof. unfold call. by destruct (f (se_env s.2)). Qed.
Lemma with_env_twice w w' s : with_env w (with_env w' s) = with_env w s.
Proof. done. Qed.
Lemma with_env_same s : with_env (se_env s.2) s = s.
Proof. by destruct s as [d [? ? ? ? ?]]. Qed.

Lemma poll_tx_eq data : forall s, _serial_poll_tx data s = Some (tt, with_env (sent (crlf (stream_of s) data) (se_env s.2)) s).
Proof.
  induction data as [|c data IH]; intros s; cbn [_serial_poll_tx]; [by rewrite <- (with_env_same s) at 1|].
  rewrite (bind_some _ _ s (stream_of s) s) by done. cbn [crlf mbind list_bind]. destruct ((c =? 10) && stream_of s) eqn:E; cbn [when].
  - apply andb_prop in E as [->%Z.eqb_eq _].
    erewrite bind_some by (erewrite bind_some by apply call_eq; done).
    erewrite bind_some by apply call_eq. rewrite IH. done.
  - rewrite (bind_some _ _ _ tt s) by done. erewrite bind_some by apply call_eq. rewrite IH. done.
Qed.

Lemma int_tx_spec data : forall s, exists r w, _serial_int_tx data s = Some (r, with_env w s) /\
  match r with
  | TxSent => w = sent (crlf (stream_of s) data) (se_env s.2)
  | TxWaits todo => todo ≠ [] /\ exists before, data = before ++ todo
  end.
Proof.
  induction data as [|c data IH]; intros s; cbn [_serial_int_tx].
  { exists TxSent, (se_env s.2). by rewrite with_env_same. }
  rewrite (bind_some _ _ s (stream_of s) s) by done. cbn [crlf mbind list_bind].
  assert (Hlast : forall s1 pre, stream_of s1 = stream_of s -> pre ++ [c] = (if (c =? 10) && stream_of s then [13; 10] else [c]) ->
    se_env s1.2 = sent pre (se_env s.2) -> (forall w, with_env w s1 = with_env w s) ->
    exists r w, (r ← call (uart_putc c); if r =? -1 then mret (TxWaits (c :: data)) else _serial_int_tx data) s1 = Some (r, with_env w s) /\
    match r with
    | TxSent => w = sent ((if (c =? 10) && stream_of s then [13; 10] else [c]) ++ crlf (stream_of s) data) (se_env s.2)
    | TxWaits todo => todo ≠ [] /\ exists before, c :: data = before ++ todo
    end).
  { intros s1 pre Hst Hpre Henv Hw. erewrite bind_some by apply call_eq. destruct (Z.eqb_spec (uart_putc c (se_env s1.2)).1 (-1)) as [E|E].
    - eexists _, _. split; [by rewrite Hw|]. split; [done|]. by exists [].
    - destruct (IH (with_env (uart_putc c (se_env s1.2)).2 s1)) as (r & w & -> & Hr). eexists r, w. rewrite with_env_twice, Hw. split; [done|].
      destruct r as [|todo].
      + rewrite Hr. change (stream_of (with_env (uart_putc c (se_env s1.2)).2 s1)) with (stream_of s1). rewrite Hst, <- Hpre.
        cbn [with_env se_env set_env snd]. rewrite Henv. unfold sent. by rewrite !foldl_app.
      + destruct Hr as (Hne & before & ->). split; [done|]. by exists (c :: before). }
  destruct ((c =? 10) && stream_of s) eqn:Ec.
  - erewrite bind_some by apply call_eq. destruct (Z.eqb_spec (uart_putc 13 (se_env s.2)).1 (-1)) as [E|E].
    + eexists _, _. split; [done|]. split; [done|]. by exists [].
    + apply andb_prop in Ec as [->%Z.eqb_eq _]. by apply (Hlast _ [13]).
  - rewrite (bind_some _ _ _ 0 s) by done. cbn [Z.eqb Pos.eqb]. by apply (Hlast s []).
Qed.

(** ** Calls that leave the characters received alone *)

Definition leaves_rx (s s' : sstate) : Prop := forall n q, rx_open n q s -> rx_open n q s'.

Lemma write_keeps_rx buffer r s s' : rt_serial_write buffer s = Some (r, s') -> leaves_rx s s'.
Proof.
  unfold rt_serial_write. case_bool_decide; [intros [= <- <-]; by intros n q|].
  rewrite (bind_some _ _ s s.1 s) by done. destruct (has_flag (dv_open_flag s.1) RT_DEVICE_FLAG_INT_TX).
  - rewrite (bind_some _ _ s s.2 s) by done. unfold rt_assert, mbind at 1, M_bind at 1. destruct (se_tx s.2); [|done].
    destruct (int_tx_spec buffer s) as (o & w & E & _). rewrite (bind_some _ _ _ _ _ E). destruct o; intros [= <- <-]; by intros n q.
  - rewrite (bind_some _ _ _ _ _ (poll_tx_eq buffer s)). intros [= <- <-]. by intros n q.
Qed.

Lemma control_keeps_rx cmd args config_at r s s' : rt_serial_control cmd args config_at s = Some (r, s') -> leaves_rx s s'.
Proof.
  unfold rt_serial_control. destruct (cmd =? RT_DEVICE_CTRL_SUSPEND); [intros [= <- <-]; by intros n q|].
  destruct (cmd =? RT_DEVICE_CTRL_RESUME); [intros [= <- <-]; by intros n q|].
  destruct (cmd =? RT_DEVICE_CTRL_CONFIG).
  - destruct (args =? 0); [intros [= <- <-]; by intros n q|]. destruct config_at as [c|]; [|done].
    rewrite (bind_some _ _ s c s) by done. rewrite (bind_some _ _ s s.1 s) by done. rewrite (bind_some _ _ s s.2 s) by done.
    destruct (Z.eqb_spec (bufsz c) (bufsz (se_config s.2))) as [E|E]; cbn [negb andb].
    + unfold on_serial at 1. rewrite (bind_some _ _ s tt (s.1, set_config c s.2)) by done.
      intros Hr n q (Hf & Ec & Ho & Hc). rewrite (proj2 (Z.eqb_neq (dv_ref_count s.1) 0)) in Hr by lia. cbn [negb when] in Hr.
      unfold deref, mbind, M_bind in Hr. destruct uart_configure as [f|]; [|done]. rewrite call_eq in Hr. injection Hr as <- <-.
      split; [done|]. split; [|done]. cbn. by rewrite E.
    + intros Hr n q (Hf & Ec & Ho & Hc). rewrite (proj2 (Z.eqb_neq (dv_ref_count s.1) 0)) in Hr by lia. cbn [negb] in Hr. injection Hr as <- <-. done.
  - rewrite call_eq. intros [= <- <-]. by intros n q.
Qed.

Lemma tx_done_keeps_rx fuel r s s' : rt_hw_serial_isr fuel RT_SERIAL_EVENT_TX_DONE s = Some (r, s') -> leaves_rx s s'.
Proof.
  unfold rt_hw_serial_isr. change (Z.land RT_SERIAL_EVENT_TX_DONE 0xff =? RT_SERIAL_EVENT_RX_IND) with false.
  change (Z.land RT_SERIAL_EVENT_TX_DONE 0xff =? RT_SERIAL_EVENT_TX_DONE) with true. cbv iota.
  rewrite (bind_some _ _ s s.2 s) by done. unfold rt_assert, run, on_serial, modify, mbind, M_bind. destruct (se_tx s.2); [|done].
  intros [= <- <-]. by intros n q.
Qed.

Lemma has_int_rx f : has_flag f RT_DEVICE_FLAG_INT_RX = Z.testbit f 8.
Proof. unfold has_flag. change RT_DEVICE_FLAG_INT_RX with (2 ^ 8). by rewrite land_pow2, negb_involutive. Qed.

(** Setting bits of the open flag, or anything else that is not the receiver's. *)
Lemma or_flag_open n q bits d x : rx_open n q (d, x) -> rx_open n q (set_open_flag (Z.lor (dv_open_flag d) bits) d, x).
Proof.
  intros (Hf & Ec & Ho & Hc). split; [done|]. split; [done|]. split; [|done]. rewrite has_int_rx in *. cbn [fst dv_open_flag set_open_flag] in *. by rewrite Z.lor_spec, Ho.
Qed.

(** The second half of [rt_serial_open], the transmitter. *)
Lemma open_tx_keeps_rx (tx : bool) oflag stream_flag (r : Z) n q s s' : rx_open n q s ->
  ((if tx then when (has_flag oflag RT_DEVICE_FLAG_INT_TX) (or_open_flag RT_DEVICE_FLAG_INT_TX)
    else if has_flag oflag RT_DEVICE_FLAG_INT_TX then
      room ← call (env_malloc sizeof_tx_fifo);
      rt_assert room ;;
      run env_completion_init ;;
      on_serial (set_tx true) ;;
      or_open_flag RT_DEVICE_FLAG_INT_TX ;;
      _ ← call (uart_control RT_DEVICE_CTRL_SET_INT RT_DEVICE_FLAG_INT_TX);
      mret tt
    else on_serial (set_tx false)) ;;
   or_open_flag stream_flag ;;
   mret RT_EOK) s = Some (r, s') -> rx_open n q s'.
Proof.
  intros Hs. destruct s as [d x], tx.
  - destruct (has_flag oflag RT_DEVICE_FLAG_INT_TX); intros [= <- <-]; by repeat apply or_flag_open.
  - destruct (has_flag oflag RT_DEVICE_FLAG_INT_TX).
    + destruct (env_malloc sizeof_tx_fifo (se_env x)) as [room w] eqn:Em.
      cbv [mbind M_bind mret M_ret call run on_serial rt_assert or_open_flag on_dev modify]. cbn [snd]. rewrite Em. destruct room; [|done]. cbn.
      destruct (uart_control _ _ _) as [y w']. intros [= <- <-]. by do 2 apply or_flag_open.
    + intros [= <- <-]. by apply or_flag_open.
Qed.

(** Opening once more, for reading by interrupt. *)
Lemma open_keeps_rx oflag r s s' : has_flag oflag RT_DEVICE_FLAG_INT_RX = true -> rt_serial_open oflag s = Some (r, s') -> leaves_rx s s'.
Proof.
  intros Hi E n q Hs. revert E. unfold rt_serial_open. rewrite (bind_some _ _ s s.1 s) by done.
  destruct (_ && _); [intros [= <- <-]; done|]. destruct (_ && _); [intros [= <- <-]; done|].
  rewrite Hi. destruct (_ && _); [intros [= <- <-]; done|]. destruct (_ && _); [intros [= <- <-]; done|].
  set (s1 := (set_open_flag (Z.land oflag 0xff) s.1, s.2) : sstate). rewrite (bind_some _ _ s tt s1) by done.
  rewrite (bind_some _ _ s1 s.2 s1) by done. pose proof Hs as ((f & Ef & _) & _). rewrite Ef. cbn [when].
  set (s2 := (set_open_flag (Z.lor (Z.land oflag 0xff) RT_DEVICE_FLAG_INT_RX) s.1, s.2) : sstate).
  rewrite (bind_some _ _ s1 tt s2) by done. rewrite (bind_some _ _ s2 (se_tx s2.2) s2) by done. apply open_tx_keeps_rx.
  destruct Hs as (Hf & Ec & Ho & Hc). split; [done|]. split; [done|]. split; [|done]. rewrite has_int_rx. unfold s2. cbn [fst dv_open_flag set_open_flag]. rewrite Z.lor_spec. apply orb_true_r.
Qed.

(** Closing, while others have the device open. *)
Lemma close_keeps_rx r s s' : 1 < dv_ref_count s.1 -> rt_serial_close s = Some (r, s') -> leaves_rx s s'.
Proof.
  intros Hc. unfold rt_serial_close. rewrite (bind_some _ _ s s.1 s) by done. rewrite Z.gtb_ltb, (proj2 (Z.ltb_lt _ _)) by done.
  intros [= <- <-]. by intros n q.
Qed.

(** Opening the closed device gives an empty buffer. *)
Lemma open_empty oflag r s s' : has_flag oflag RT_DEVICE_FLAG_INT_RX = true -> se_rx s.2 = None -> 1 <= dv_ref_count s.1 ->
  2 <= bufsz (se_config s.2) < 65536 -> rt_serial_open oflag s = Some (r, s') -> r = RT_EOK -> rx_open (bufsz (se_config s.2)) [] s'.
Proof.
  intros Hi Hrx Hc Hb E Hr. revert E. unfold rt_serial_open. rewrite (bind_some _ _ s s.1 s) by done.
  destruct (_ && _); [intros [= <- <-]; done|]. destruct (_ && _); [intros [= <- <-]; done|].
  rewrite Hi. destruct (_ && _); [intros [= <- <-]; done|]. destruct (_ && _); [intros [= <- <-]; done|].
  set (s1 := (set_open_flag (Z.land oflag 0xff) s.1, s.2) : sstate). rewrite (bind_some _ _ s tt s1) by done.
  rewrite (bind_some _ _ s1 s.2 s1) by done. rewrite Hrx.
  destruct (env_malloc (sizeof_rx_fifo + bufsz (se_config s.2)) (se_env s.2)) as [room w] eqn:Em.
  set (fifo := mkRx (repeat 0 (Z.to_nat (bufsz (se_config s.2)))) 0 0 false).
  destruct room.
  - set (w' := (uart_control RT_DEVICE_CTRL_SET_INT RT_DEVICE_FLAG_INT_RX w).2).
    set (s2 := (set_open_flag (Z.lor (Z.land oflag 0xff) RT_DEVICE_FLAG_INT_RX) s.1, mkSer (se_config s.2) (Some fifo) (se_tx s.2) (se_warned s.2) w') : sstate).
    rewrite (bind_some _ _ s1 tt s2).
    2:{ cbv [mbind M_bind mret M_ret call run on_serial rt_assert or_open_flag on_dev modify]. change (se_env s1.2) with (se_env s.2). rewrite Em. cbn. unfold s2, w'. by destruct (uart_control _ _ w). }
    rewrite (bind_some _ _ s2 (se_tx s2.2) s2) by done. apply open_tx_keeps_rx.
    split; [|split; [done|split; [|done]]].
    + exists fifo. split; [done|]. split; unfold fifo; cbn [rx_buffer put_index get_index is_full length]; try done; try lia.
      * split; [lia|]. rewrite repeat_length. lia.
      * by split; [|intros; lia].
    + rewrite has_int_rx. unfold s2. cbn [fst dv_open_flag set_open_flag]. rewrite Z.lor_spec. apply orb_true_r.
  - cbv [mbind M_bind mret M_ret call rt_assert]. change (se_env s1.2) with (se_env s.2). by rewrite Em.
Qed.

(** ** Refinement: a queue that forgets its oldest characters *)

Inductive ser_label :=
  | SReceived (cs : list Z) (callback : option positive) (told : option (positive * Z))
  | SRead (size : Z) (r : Z * list Z)
  | SOther.

Inductive ser_spec (n : Z) : list Z -> ser_label -> list Z -> Prop :=
  | sp_received q cs callback : let q' := lastn (Z.to_nat (n - 1)) (q ++ (u8 <$> cs)) in
      ser_spec n q (SReceived cs callback (match callback with
        | Some cb => if bool_decide (q' = []) then None else Some (cb, Z.of_nat (length q')) | None => None end)) q'
  | sp_read q size : 0 <= size -> let r := take (Z.to_nat size) q in ser_spec n q (SRead size (Z.of_nat (length r), r)) (drop (Z.to_nat size) q)
  | sp_other q : ser_spec n q SOther q.

Definition ser_ok (n : Z) (s : sstate) : Prop := exists q, rx_open n q s.
Definition queue_of (s : sstate) : list Z := match se_rx s.2 with Some f => fifo_queue f | None => [] end.

Lemma queue_of_open n q s : rx_open n q s -> queue_of s = q.
Proof. intros ((f & Ef & Hf) & _). unfold queue_of. rewrite Ef. by eapply fifo_queue_spec. Qed.

(** The calls on the device and its interrupts, while someone keeps it open; and anything else
    that leaves the buffer and the mode of the device as they are. *)
Inductive ser_step : sstate -> ser_label -> sstate -> Prop :=
  | st_received fuel cs told s s' : pending cs (se_env s.2) -> (length cs < fuel)%nat ->
      rt_hw_serial_isr fuel RT_SERIAL_EVENT_RX_IND s = Some (told, s') -> ser_step s (SReceived cs (dv_rx_indicate s.1) told) s'
  | st_read size r s s' : 0 <= size -> rt_serial_read size s = Some (r, s') -> ser_step s (SRead size r) s'
  | st_write buffer r s s' : rt_serial_write buffer s = Some (r, s') -> ser_step s SOther s'
  | st_control cmd args config_at r s s' : rt_serial_control cmd args config_at s = Some (r, s') -> ser_step s SOther s'
  | st_tx_done fuel r s s' : rt_hw_serial_isr fuel RT_SERIAL_EVENT_TX_DONE s = Some (r, s') -> ser_step s SOther s'
  | st_open oflag r s s' : has_flag oflag RT_DEVICE_FLAG_INT_RX = true -> rt_serial_open oflag s = Some (r, s') -> ser_step s SOther s'
  | st_close r s s' : 1 < dv_ref_count s.1 -> rt_serial_close s = Some (r, s') -> ser_step s SOther s'
  | st_env s s' : leaves_rx s s' -> ser_step s SOther s'.

Lemma ser_step_simulates n s l s' : ser_ok n s -> ser_step s l s' -> ser_spec n (queue_of s) l (queue_of s') /\ ser_ok n s'.
Proof.
  intros [q Hs] Hstep.
  assert (Hkeep : forall s', leaves_rx s s' -> ser_spec n (queue_of s) SOther (queue_of s') /\ ser_ok n s').
  { intros s2 Hl. specialize (Hl n q Hs). rewrite (queue_of_open _ _ _ Hs), (queue_of_open _ _ _ Hl). split; [constructor|by exists q]. }
  rewrite (queue_of_open _ _ _ Hs) in *.
  destruct Hstep as [fuel cs told s s' Hp Hf E|size r s s' Hz E|buffer r s s' E|cmd args c r s s' E|fuel r s s' E|oflag r s s' Hi E|r s s' Hc E|s s' E].
  - refine (wp_result _ (fun told s' => ser_spec n q (SReceived cs (dv_rx_indicate s.1) told) (queue_of s') /\ ser_ok n s') _ _ _ _ E).
    eapply wp_rx_isr; [done|done|done|]. intros s2 q' Hs2 Ed. rewrite (queue_of_open _ _ _ Hs2). split; [constructor|by eexists].
  - refine (wp_result _ (fun r s' => ser_spec n q (SRead size r) (queue_of s') /\ ser_ok n s') _ _ _ _ E).
    eapply wp_rt_serial_read; [done|done|]. intros s2 r' Hs2 Ed. rewrite (queue_of_open _ _ _ Hs2). split; [by constructor|by eexists].
  - by eapply Hkeep, write_keeps_rx.
  - by eapply Hkeep, control_keeps_rx.
  - by eapply Hkeep, tx_done_keeps_rx.
  - by eapply Hkeep, open_keeps_rx.
  - by eapply Hkeep, close_keeps_rx.
  - by apply Hkeep.
Qed.


(** ** The serial device as a driver of device.c *)

(** A call relates the device before and after by [R]. *)
Definition relates {A} (R : rt_device -> rt_device -> Prop) (m : U A) : Prop := forall s a s', m s = Some (a, s') -> R s.1 s'.1.

Section relates.
Context (R : rt_device -> rt_device -> Prop) `{!PreOrder R}.

Lemma relates_ret {A} (a : A) : relates R (mret a).
Proof. intros s b s' [= <- <-]. reflexivity. Qed.
Lemma relates_bind {A B} (m : U A) (f : A -> U B) : relates R m -> (forall a, relates R (f a)) -> relates R (mbind f m).
Proof.
  intros Hm Hf s b s' E. unfold mbind, M_bind in E. destruct (m s) as [[a s1]|] eqn:Em; [|done].
  etransitivity; [by eapply Hm|by eapply Hf].
Qed.
Lemma relates_gets {A} (f : sstate -> A) : relates R (gets f).
Proof. intros s b s' [= <- <-]. reflexivity. Qed.
Lemma relates_deref {A} (f : sstate -> option A) : relates R (deref f).
Proof. intros s b s' E. unfold deref in E. destruct (f s); [|done]. injection E as <- <-. reflexivity. Qed.
Lemma relates_assert b : relates R (rt_assert b).
Proof. intros s a s' E. unfold rt_assert in E. destruct b; [|done]. injection E as <- <-. reflexivity. Qed.
Lemma relates_call {A} (f : W -> A * W) : relates R (call f).
Proof. intros s a s'. rewrite call_eq. intros [= <- <-]. reflexivity. Qed.
Lemma relates_on_serial f : relates R (on_serial f).
Proof. intros s a s' [= <- <-]. reflexivity. Qed.
Lemma relates_on_dev f : (forall d, R d (f d)) -> relates R (on_dev f).
Proof. intros Hf s a s' [= <- <-]. apply Hf. Qed.
Lemma relates_fault {A} : relates R (@fault sstate A).
Proof. by intros s a s'. Qed.
End relates.

Create HintDb serial.
#[local] Hint Resolve relates_ret relates_gets relates_deref relates_assert relates_call relates_on_serial relates_fault : serial.

(** Through the structure of a call. *)
Ltac relates :=
  repeat first
    [ solve [eauto with serial typeclass_instances nocore]
    | apply relates_bind; [typeclasses eauto| |intros ?]
    | progress unfold run, when
    | case_match ].

(** What a driver leaves alone; opening may reset the open flag. *)
Definition kept (d d' : rt_device) : Prop := dv_ref_count d' = dv_ref_count d /\ is_open d' = is_open d /\ standalone d' = standalone d.
Definition kept_open (d d' : rt_device) : Prop := dv_ref_count d' = dv_ref_count d /\ standalone d' = standalone d.
#[local] Instance kept_preorder : PreOrder kept.
Proof. split; [done|]. intros d1 d2 d3 (? & ? & ?) (? & ? & ?). split; [congruence|split; congruence]. Qed.
#[local] Instance kept_open_preorder : PreOrder kept_open.
Proof. split; [done|]. intros d1 d2 d3 (? & ?) (? & ?). split; congruence. Qed.

Lemma bit_kept (f b i : Z) : 0 <= i -> Z.testbit b i = false ->
  (Z.land (Z.lor f b) (2 ^ i) =? 0) = (Z.land f (2 ^ i) =? 0) /\ (Z.land (Z.land f (Z.lnot b)) (2 ^ i) =? 0) = (Z.land f (2 ^ i) =? 0).
Proof.
  intros Hi Hb. rewrite !land_pow2, Z.lor_spec, Z.land_spec, Z.lnot_spec, Hb by done. by destruct (Z.testbit f i).
Qed.
Lemma kept_clear bits d : Z.testbit bits 3 = false -> kept d (set_open_flag (Z.land (dv_open_flag d) (Z.lnot bits)) d).
Proof. intros Hb. split; [done|]. split; [|done]. unfold is_open. cbn [dv_open_flag set_open_flag]. f_equal. by apply (bit_kept _ _ 3). Qed.
Lemma kept_suspend d : kept d (set_flag (Z.lor (dv_flag d) RT_DEVICE_FLAG_SUSPENDED) d).
Proof. split; [done|]. split; [done|]. unfold standalone. cbn [dv_flag set_flag]. f_equal. by apply (bit_kept _ _ 3). Qed.
Lemma kept_resume d : kept d (set_flag (Z.land (dv_flag d) (Z.lnot RT_DEVICE_FLAG_SUSPENDED)) d).
Proof. split; [done|]. split; [done|]. unfold standalone. cbn [dv_flag set_flag]. f_equal. by apply (bit_kept _ _ 3). Qed.

Lemma init_kept : relates kept rt_serial_init.
Proof. unfold rt_serial_init. relates. Qed.
Lemma close_kept : relates kept rt_serial_close.
Proof. unfold rt_serial_close, clear_open_flag. relates; apply relates_on_dev; intros d; by apply kept_clear. Qed.
Lemma control_kept cmd args config_at : relates kept (rt_serial_control cmd args config_at).
Proof. unfold rt_serial_control. relates; apply relates_on_dev; [apply kept_suspend|apply kept_resume]. Qed.
Lemma poll_rx_kept n : relates kept (_serial_poll_rx n).
Proof. induction n as [|n IH]; cbn [_serial_poll_rx]; unfold is_stream; relates. Qed.
Lemma int_rx_kept n : relates kept (_serial_int_rx n).
Proof. induction n as [|n IH]; cbn [_serial_int_rx]; unfold rx_get; relates. Qed.
Lemma read_kept size : relates kept (rt_serial_read size).
Proof. unfold rt_serial_read. pose proof (int_rx_kept (Z.to_nat size)). pose proof (poll_rx_kept (Z.to_nat size)). relates. Qed.
Lemma poll_tx_kept data : relates kept (_serial_poll_tx data).
Proof. induction data as [|c data IH]; cbn [_serial_poll_tx]; unfold is_stream; relates. Qed.
Lemma int_tx_kept data : relates kept (_serial_int_tx data).
Proof. induction data as [|c data IH]; cbn [_serial_int_tx]; unfold is_stream; relates. Qed.
Lemma write_kept buffer : relates kept (rt_serial_write buffer).
Proof. unfold rt_serial_write. pose proof (int_tx_kept buffer). pose proof (poll_tx_kept buffer). relates. Qed.
Lemma open_kept oflag : relates kept_open (rt_serial_open oflag).
Proof. unfold rt_serial_open, or_open_flag. cbv zeta. relates; by apply relates_on_dev. Qed.

Definition returns {A} (r : A) (m : U A) : Prop := forall s a s', m s = Some (a, s') -> a = r.
Lemma returns_bind {A B} (r : B) (m : U A) (f : A -> U B) : (forall a, returns r (f a)) -> returns r (mbind f m).
Proof. intros Hf s b s' E. unfold mbind, M_bind in E. destruct (m s) as [[a s1]|]; [|done]. by eapply Hf. Qed.
Lemma returns_ret {A} (r : A) : returns r (mret r).
Proof. by intros s a s' [= <- _]. Qed.

Lemma close_returns : returns RT_EOK rt_serial_close.
Proof. unfold rt_serial_close. apply returns_bind. intros d. case_match; [apply returns_ret|]. repeat (apply returns_bind; intros ?). apply returns_ret. Qed.
(** Opening succeeds, or changes nothing. *)
Lemma open_refused oflag r s s' : rt_serial_open oflag s = Some (r, s') -> r = RT_EOK \/ s' = s.
Proof.
  unfold rt_serial_open. rewrite (bind_some _ _ s s.1 s) by done.
  do 4 (destruct (_ && _); [intros [= <- <-]; by right|]). intros E. left. revert E. apply returns_bind.
  intros _. repeat (apply returns_bind; intros ?). apply returns_ret.
Qed.

(** A call as a function of a driver; in the state [None] a call has not returned. *)
Definition driver_of {A} (zero : A) (m : U A) : driver_fn (D := option serial) A := fun d w =>
  match w with
  | None => (zero, d, None)
  | Some x => match m (d, x) with Some (a, (d', x')) => (a, d', Some x') | None => (zero, d, None) end
  end.

(** What the argument of [rt_serial_control] points to. *)
Context (config_at : Z -> option serial_configure).

Definition serial_ops : rt_device_ops (D := option serial) := mkOps
  (Some (driver_of RT_EOK rt_serial_init))
  (Some (fun oflag => driver_of RT_EOK (rt_serial_open oflag)))
  (Some (driver_of RT_EOK rt_serial_close))
  (Some (fun _ size => driver_of (0, []) (rt_serial_read size)))
  (Some (fun _ buffer size => driver_of 0 (
    rt_assert (size <=? Z.of_nat (length buffer)) ;;
    r ← rt_serial_write (take (Z.to_nat size) buffer);
    match r with inl n => mret n | inr _ => fault end)))
  (Some (fun cmd args => driver_of RT_EOK (rt_serial_control cmd args (config_at args)))).

(** rt_hw_serial_register *)
Definition rt_hw_serial_register (dev : positive) (name : list Z) (flag : Z) : M (dstate (D := option serial)) Z :=
  upd_dev dev (fun d => mkDev RT_Device_Class_Char (dv_flag d) (dv_open_flag d) (dv_ref_count d) None None) ;;
  rt_device_register (Some dev) name flag.

Lemma driver_of_keeps {A} (zero : A) (m : U A) : relates kept m -> keeps (driver_of zero m).
Proof.
  intros Hm d w. unfold driver_of. destruct w as [x|]; [|done]. destruct (m (d, x)) as [[a [d' x']]|] eqn:E; [|done].
  exact (Hm _ _ _ E).
Qed.
Lemma driver_of_returns (r : Z) (m : U Z) d w : returns r m -> (driver_of r m d w).1.1 = r.
Proof.
  intros Hm. unfold driver_of. destruct w as [x|]; [|done]. destruct (m (d, x)) as [[a [d' x']]|] eqn:E; [|done]. exact (Hm _ _ _ E).
Qed.

(** The driver of the UART does not answer its configuration with -RT_ENOSYS. *)
Definition configure_ok : Prop := forall f c w, uart_configure = Some f -> (f c w).1 ≠ - RT_ENOSYS.

Lemma init_result d w : configure_ok -> (driver_of RT_EOK rt_serial_init d w).1.1 ≠ - RT_ENOSYS.
Proof.
  intros Hc. unfold driver_of. destruct w as [x|]; [|done]. unfold rt_serial_init.
  rewrite (bind_some _ _ (d, x) tt (d, set_rx None x)) by done. rewrite (bind_some _ _ _ tt (d, set_tx false (set_rx None x))) by done.
  unfold configure_ok in Hc. destruct uart_configure as [f|]; [|done].
  rewrite (bind_some _ _ _ (se_config x) (d, set_tx false (set_rx None x))) by done. rewrite call_eq. by apply Hc.
Qed.

Lemma serial_ops_ok : configure_ok -> driver_ok serial_ops.
Proof.
  intros Hc. split; cbn [serial_ops op_init op_open op_close op_read op_write op_control].
  - intros f [= <-]. split; [apply driver_of_keeps, init_kept|]. intros d w. by apply init_result.
  - intros f oflag [= <-] d w. unfold driver_of. destruct w as [x|]; [|done].
    destruct (rt_serial_open oflag (d, x)) as [[r [d' x']]|] eqn:E; [|done]. cbn [fst snd].
    destruct (open_kept _ _ _ _ E) as [H1 H2]. split; [done|]. split; [|done]. intros Hr.
    destruct (open_refused _ _ _ _ E) as [-> | [= -> _]]; done.
  - intros f [= <-]. split; [apply driver_of_keeps, close_kept|]. intros d w. left. apply driver_of_returns, close_returns.
  - intros f pos size [= <-]. apply driver_of_keeps, read_kept.
  - intros f pos buffer size [= <-]. apply driver_of_keeps. apply relates_bind; [apply _|apply relates_assert, _|intros _].
    apply relates_bind; [apply _|apply write_kept|]. intros [n|l]; [apply relates_ret, _|apply relates_fault].
  - intros f cmd args [= <-]. apply driver_of_keeps, control_kept.
Qed.

(** ** A defect: the carriage return goes out twice

    When the UART has room for the carriage return and not for the line feed, the writer
    sleeps and starts again with the carriage return. *)
Lemma carriage_return_repeated rest s : stream_of s = true -> (uart_putc 13 (se_env s.2)).1 ≠ -1 ->
  (uart_putc 10 (uart_putc 13 (se_env s.2)).2).1 = -1 ->
  exists w, _serial_int_tx (10 :: rest) s = Some (TxWaits (10 :: rest), with_env w s) /\
    forall w', (uart_putc 13 w').1 ≠ -1 -> (uart_putc 10 (uart_putc 13 w').2).1 ≠ -1 ->
      _serial_int_tx (10 :: rest) (with_env w' s) = _serial_int_tx rest (with_env (sent [13; 10] w') s).
Proof.
  intros Hst H1 H2. eexists. split.
  - cbn [_serial_int_tx]. rewrite (bind_some _ _ s true s) by (unfold is_stream, gets; by rewrite <- Hst). cbn [Z.eqb Pos.eqb andb].
    erewrite bind_some by apply call_eq. rewrite (proj2 (Z.eqb_neq _ _) H1). erewrite bind_some by apply call_eq.
    cbn [with_env se_env set_env snd]. rewrite H2. done.
  - intros w' H3 H4. cbn [_serial_int_tx].
    rewrite (bind_some _ _ (with_env w' s) true (with_env w' s)) by (unfold is_stream, gets; by rewrite <- Hst). cbn [Z.eqb Pos.eqb andb].
    erewrite bind_some by apply call_eq. cbn [with_env se_env set_env snd]. rewrite (proj2 (Z.eqb_neq _ _) H3).
    erewrite bind_some by apply call_eq. cbn [with_env se_env set_env snd]. rewrite (proj2 (Z.eqb_neq _ _) H4). done.
Qed.

End serial.
Arguments serial : clear implicits.

(** ** Witnesses: a UART as a list of characters to receive and one of those sent, with room
    for some more *)

Record uart := mkUart { u_in : list Z; u_out : list Z; u_room : nat }.
#[local] Instance sample_env : serial_env uart := {
  uart_configure := Some (fun _ w => (RT_EOK, w));
  uart_control _ _ w := (RT_EOK, w);
  uart_putc c w := match u_room w with O => (-1, w) | S k => (1, mkUart (u_in w) (u_out w ++ [c]) k) end;
  uart_getc w := match u_in w with [] => (-1, w) | c :: cs => (c, mkUart cs (u_out w) (u_room w)) end;
  env_malloc _ w := (true, w);
  env_free w := w;
  env_completion_init w := w;
  env_completion_done w := w;
  env_warn w := mkUart (u_in w) (u_out w ++ [33]) (u_room w)
}.

Lemma sample_pending cs : Forall (fun c => c ≠ -1) cs -> forall out k, pending cs (mkUart cs out k).
Proof. induction 1 as [|c cs Hc _ IH]; intros out k; [by apply pending_none|]. by apply pending_some; [|done|apply IH]. Qed.
Lemma sample_warn_keeps cs w : pending cs w -> pending cs (env_warn w).
Proof.
  destruct w as [i o k]. intros Hp. cbn. assert (Hi : forall o', pending cs (mkUart i o' k)); [|apply Hi].
  revert i o Hp. induction cs as [|c cs IH]; intros i o Hp o'; inversion Hp as [w Hw|c' cs' w Hw Hne Hp']; subst.
  - apply pending_none. by destruct i.
  - destruct i as [|a i]; [done|]. by apply pending_some; [|done|apply (IH i o)].
Qed.

(** A device of 4 bytes opened for reading by interrupt, in stream mode. *)
Definition sample_config : serial_configure := mkCfg 115200 8 0 0 0 0 4.
Definition closed_serial : sstate := (mkDev 0 0x113 0 1 (Some 7%positive) None, mkSer sample_config None false false (mkUart [65; 66; 67; 68; 69] [] 9)).
Definition sample_serial : sstate := after (rt_serial_open 0x143) closed_serial.
Lemma sample_serial_ok : ser_ok 4 sample_serial.
Proof.
  exists []. refine (open_empty 0x143 RT_EOK closed_serial sample_serial eq_refl eq_refl _ _ _ eq_refl); [cbn; lia|cbn; lia|].
  apply (after_some (rt_serial_open 0x143)). by vm_compute.
Qed.

Definition ser_1 : sstate := after (rt_hw_serial_isr 6 RT_SERIAL_EVENT_RX_IND) sample_serial.
Definition ser_2 : sstate := after (rt_serial_read 2) ser_1.
Definition ser_3 : sstate := after (rt_serial_write [72; 10]) ser_2.
Definition ser_4 : sstate := after (rt_serial_read 80) ser_3.
Definition sample_serial_trace : list ser_label :=
  [SReceived [65; 66; 67; 68; 69] (Some 7%positive) (Some (7%positive, 3)); SRead 2 (2, [67; 68]); SOther; SRead 80 (1, [69])].

Lemma sample_serial_run : steps ser_step sample_serial sample_serial_trace ser_4.
Proof.
  eapply steps_cons; [refine (st_received 6 [65; 66; 67; 68; 69] (Some (7%positive, 3)) sample_serial ser_1 _ _ _)|].
  { apply sample_pending. by repeat constructor. }
  { cbn. lia. }
  { apply (after_some (rt_hw_serial_isr 6 RT_SERIAL_EVENT_RX_IND)). by vm_compute. }
  eapply steps_cons; [refine (st_read 2 (2, [67; 68]) ser_1 ser_2 _ _); [done|apply (after_some (rt_serial_read 2)); by vm_compute]|].
  eapply steps_cons; [refine (st_write [72; 10] (inl 2) ser_2 ser_3 _); apply (after_some (rt_serial_write [72; 10])); by vm_compute|].
  eapply steps_cons; [refine (st_read 80 (1, [69]) ser_3 ser_4 _ _); [done|apply (after_some (rt_serial_read 80)); by vm_compute]|].
  apply steps_nil.
Qed.


(** What has gone out: the warning, and the line with its carriage return. *)
Example sample_serial_sent : u_out (se_env ser_4.2) = [33; 72; 13; 10].
Proof. by vm_compute. Qed.


(** ** A defect: a buffer forgotten

    Opening the device again without reading by interrupt makes it forget that it reads by
    interrupt, so the last close neither frees the buffer nor stops the interrupt.  The closed
    device may then be configured with a larger buffer, and its interrupt writes past the end
    of the one it has. *)

Definition larger_config : serial_configure := mkCfg 115200 8 0 0 0 0 8.
Definition uart3_ops : positive -> rt_device_ops := fun _ => serial_ops (W := uart) (fun _ => Some larger_config).
Definition uart3 : dstate :=
  (set_k_obj <[ODevice 1 := mkObject [] 0x89 0]> sample_timers,
   mkDevs {[ 1%positive := mkDev 0 0x103 0 0 None None ]} 0 (Some (mkSer sample_config None false false (mkUart [65; 66; 67; 68; 69; 70] [] 9)))).

Definition forgets : M dstate (Z * Z * Z * Z * Z) :=
  a ← rt_device_open uart3_ops 1 0x143;
  b ← rt_device_open uart3_ops 1 0x43;
  c ← rt_device_close uart3_ops 1;
  d ← rt_device_close uart3_ops 1;
  e ← rt_device_control uart3_ops 1 RT_DEVICE_CTRL_CONFIG 1;
  mret (a, b, c, d, e).

Lemma forgotten_buffer_overflow : exists s d x,
  forgets uart3 = Some ((RT_EOK, RT_EOK, RT_EOK, RT_EOK, RT_EOK), s) /\ dx_devs s.2 !! 1%positive = Some d /\ dx_hw s.2 = Some x /\
  dv_ref_count d = 0 /\ (exists f, se_rx x = Some f /\ length (rx_buffer f) = 4%nat) /\ bufsz (se_config x) = 8 /\
  rt_hw_serial_isr 7 RT_SERIAL_EVENT_RX_IND (d, x) = None.
Proof.
  assert (E : fst <$> forgets uart3 = Some (RT_EOK, RT_EOK, RT_EOK, RT_EOK, RT_EOK)) by (by vm_compute).
  apply after_some in E. eexists _, _, _. split; [exact E|]. split; [by vm_compute|]. split; [by vm_compute|]. split; [by vm_compute|].
  split; [eexists; by split|]. split; by vm_compute.
Qed.
