(* ===== verification/Gpio.v ===== *)
(** * Gpio: the port driver of the vendor

    libraries/STM32H7xx_HAL_Driver/Src/stm32h7xx_hal_gpio.c and the interrupt controller calls of
    stm32h7xx_hal_cortex.c, on the registers of the chip: the ports A to K, the selection of a
    port for each external interrupt line, and the interrupt lines.  What the chip does when
    BSRR, which sets and resets output bits, and PR1, whose bits are cleared by writing them,
    are written is a parameter.  assert_param is empty in the configuration. *)

From S2P Require Import Prelude.

#[local] Open Scope Z_scope.

(** ** Fields of registers *)

(** The field of [w] bits of pin [p]. *)
Definition field (w p reg : Z) : Z := Z.land (Z.shiftr reg (w * p)) (Z.ones w).
(** [temp &= ~(mask << (p * w)); temp |= v << (p * w);] *)
Definition set_field (mask w p v temp : Z) : Z :=
  Z.lor (Z.land temp (Z.lnot (u32 (Z.shiftl mask (p * w))))) (u32 (Z.shiftl v (p * w))).

(** An array of registers with the fields of [per] pins in each, [per] a power of two. *)
Definition arr_field (w per p : Z) (regs : list Z) : Z := field w (p mod per) (regs !!! Z.to_nat (p / per)).

Lemma field_bit w p reg i : 0 <= w -> 0 <= p -> 0 <= i -> Z.testbit (field w p reg) i = Z.testbit reg (i + w * p) && (i <? w).
Proof.
  intros. unfold field. rewrite Z.land_spec, Z.shiftr_spec by lia. f_equal. destruct (Z.ltb_spec i w).
  - by apply Z.ones_spec_low.
  - by apply Z.ones_spec_high.
Qed.
Lemma u32_bit x i : 0 <= i -> Z.testbit (u32 x) i = Z.testbit x i && (i <? 32).
Proof.
  intros. unfold wrap. destruct (Z.ltb_spec i 32).
  - rewrite Z.mod_pow2_bits_low by lia. by rewrite andb_true_r.
  - rewrite Z.mod_pow2_bits_high by lia. by rewrite andb_false_r.
Qed.
Lemma gpio_shifted_bit n x k i : 0 <= n -> 0 <= x < 2 ^ n -> 0 <= k -> 0 <= i ->
  Z.testbit (Z.shiftl x k) i = Z.testbit x (i - k) && (k <=? i) && (i <? k + n).
Proof.
  intros Hn Hx Hk Hi. rewrite Z.shiftl_spec by done. destruct (Z.leb_spec k i), (Z.ltb_spec i (k + n)); cbn [andb]; rewrite ?andb_true_r, ?andb_false_r.
  - done.
  - apply (bound_bits n); lia.
  - by apply Z.testbit_neg_r; lia.
  - by apply Z.testbit_neg_r; lia.
Qed.

(** Writing the field of one pin, and reading that of any. *)
Lemma set_field_bit w p v temp i : 0 < w -> 0 <= p -> w * p + w <= 32 -> 0 <= v < 2 ^ w -> 0 <= i ->
  Z.testbit (set_field (Z.ones w) w p v temp) i = if (w * p <=? i) && (i <? w * p + w) then Z.testbit v (i - w * p) else Z.testbit temp i.
Proof.
  intros Hw Hp H32 Hv Hi. unfold set_field. rewrite Z.lor_spec, Z.land_spec, Z.lnot_spec, !u32_bit by done.
  rewrite (Z.mul_comm p w). rewrite (gpio_shifted_bit w v), (gpio_shifted_bit w (Z.ones w)); try lia.
  2:{ rewrite Z.ones_equiv. lia. }
  destruct (Z.leb_spec (w * p) i); cbn [andb]; rewrite ?andb_false_r; cbn [negb orb andb]; rewrite ?andb_true_r, ?orb_false_r; [|done].
  destruct (Z.ltb_spec i (w * p + w)); rewrite ?andb_false_r; cbn [negb orb andb]; rewrite ?andb_true_r, ?orb_false_r; [|done].
  rewrite Z.ones_spec_low by lia. rewrite (proj2 (Z.ltb_lt _ _)) by lia. rewrite ?andb_true_r. cbn [negb andb]. by rewrite andb_false_r.
Qed.
Lemma field_set_field w p q v temp : 0 < w -> 0 <= p -> w * p + w <= 32 -> 0 <= q -> 0 <= v < 2 ^ w ->
  field w q (set_field (Z.ones w) w p v temp) = if decide (q = p) then v else field w q temp.
Proof.
  intros Hw Hp H32 Hq Hv. apply Z.bits_inj'. intros i Hi. rewrite field_bit by lia. rewrite set_field_bit by nia.
  destruct (decide (q = p)) as [->|Hne].
  - destruct (Z.leb_spec (w * p) (i + w * p)); [|lia]. cbn [andb]. destruct (Z.ltb_spec i w).
    + rewrite (proj2 (Z.ltb_lt _ _)) by lia. rewrite andb_true_r. f_equal. lia.
    + rewrite andb_false_r. symmetry. apply (bound_bits w); lia.
  - rewrite field_bit by lia. destruct (Z.ltb_spec i w); [|by rewrite !andb_false_r]. rewrite !andb_true_r.
    destruct (Z.leb_spec (w * p) (i + w * q)), (Z.ltb_spec (i + w * q) (w * p + w)); cbn [andb]; try done. exfalso. apply Hne. nia.
Qed.
Lemma arr_field_set w per p q v (regs : list Z) : 0 < w -> 0 < per -> w * per <= 32 -> 0 <= p -> 0 <= q -> 0 <= v < 2 ^ w ->
  p / per < Z.of_nat (length regs) ->
  arr_field w per q (<[Z.to_nat (p / per) := set_field (Z.ones w) w (p mod per) v (regs !!! Z.to_nat (p / per))]> regs) =
  if decide (q = p) then v else arr_field w per q regs.
Proof.
  intros Hw Hper H32 Hp Hq Hv Hlen. unfold arr_field. pose proof (Z.mod_pos_bound p per Hper). pose proof (Z.mod_pos_bound q per Hper).
  pose proof (Z.div_mod p per ltac:(lia)). pose proof (Z.div_mod q per ltac:(lia)).
  pose proof (Z.div_pos p per Hp Hper). pose proof (Z.div_pos q per Hq Hper).
  destruct (decide (q / per = p / per)) as [E|E].
  - rewrite E, list_lookup_total_insert_eq by lia. rewrite field_set_field by nia. repeat case_decide; try done; exfalso; nia.
  - rewrite list_lookup_total_insert_ne by lia. case_decide; [subst; done|done].
Qed.

(** ** Registers *)

Record gpio_regs := mkPort {
  MODER : Z; OTYPER : Z; OSPEEDR : Z; PUPDR : Z; IDR : Z; ODR : Z; AFR : list Z
}.
Definition set_MODER (v : Z) (r : gpio_regs) : gpio_regs := mkPort v (OTYPER r) (OSPEEDR r) (PUPDR r) (IDR r) (ODR r) (AFR r).
Definition set_OTYPER (v : Z) (r : gpio_regs) : gpio_regs := mkPort (MODER r) v (OSPEEDR r) (PUPDR r) (IDR r) (ODR r) (AFR r).
Definition set_OSPEEDR (v : Z) (r : gpio_regs) : gpio_regs := mkPort (MODER r) (OTYPER r) v (PUPDR r) (IDR r) (ODR r) (AFR r).
Definition set_PUPDR (v : Z) (r : gpio_regs) : gpio_regs := mkPort (MODER r) (OTYPER r) (OSPEEDR r) v (IDR r) (ODR r) (AFR r).
Definition set_ODR (v : Z) (r : gpio_regs) : gpio_regs := mkPort (MODER r) (OTYPER r) (OSPEEDR r) (PUPDR r) (IDR r) v (AFR r).
Definition set_AFR (v : list Z) (r : gpio_regs) : gpio_regs := mkPort (MODER r) (OTYPER r) (OSPEEDR r) (PUPDR r) (IDR r) (ODR r) v.

(** The registers of SYSCFG and EXTI, and what the interrupt controller is set to: the lines
    enabled, with their priorities. *)
Record exti_regs := mkExti { EXTICR : list Z; IMR1 : Z; EMR1 : Z; RTSR1 : Z; FTSR1 : Z; PR1 : Z }.
Definition set_EXTICR (v : list Z) (e : exti_regs) : exti_regs := mkExti v (IMR1 e) (EMR1 e) (RTSR1 e) (FTSR1 e) (PR1 e).
Definition set_IMR1 (v : Z) (e : exti_regs) : exti_regs := mkExti (EXTICR e) v (EMR1 e) (RTSR1 e) (FTSR1 e) (PR1 e).
Definition set_EMR1 (v : Z) (e : exti_regs) : exti_regs := mkExti (EXTICR e) (IMR1 e) v (RTSR1 e) (FTSR1 e) (PR1 e).
Definition set_RTSR1 (v : Z) (e : exti_regs) : exti_regs := mkExti (EXTICR e) (IMR1 e) (EMR1 e) v (FTSR1 e) (PR1 e).
Definition set_FTSR1 (v : Z) (e : exti_regs) : exti_regs := mkExti (EXTICR e) (IMR1 e) (EMR1 e) (RTSR1 e) v (PR1 e).
Definition set_PR1 (v : Z) (e : exti_regs) : exti_regs := mkExti (EXTICR e) (IMR1 e) (EMR1 e) (RTSR1 e) (FTSR1 e) v.

(** with AHB4ENR of RCC, whose bit [n] is the clock of port [n] *)
Record chip := mkChip { c_ports : list gpio_regs; c_exti : exti_regs; c_syscfg_clock : bool; c_nvic : gset Z; c_priority : gmap Z (Z * Z); AHB4ENR : Z }.
Definition set_ports (f : list gpio_regs -> list gpio_regs) (c : chip) : chip := mkChip (f (c_ports c)) (c_exti c) (c_syscfg_clock c) (c_nvic c) (c_priority c) (AHB4ENR c).
Definition set_exti (f : exti_regs -> exti_regs) (c : chip) : chip := mkChip (c_ports c) (f (c_exti c)) (c_syscfg_clock c) (c_nvic c) (c_priority c) (AHB4ENR c).
Definition set_nvic (f : gset Z -> gset Z) (c : chip) : chip := mkChip (c_ports c) (c_exti c) (c_syscfg_clock c) (f (c_nvic c)) (c_priority c) (AHB4ENR c).
Definition set_priority (f : gmap Z (Z * Z) -> gmap Z (Z * Z)) (c : chip) : chip := mkChip (c_ports c) (c_exti c) (c_syscfg_clock c) (c_nvic c) (f (c_priority c)) (AHB4ENR c).
Definition syscfg_clock_on (c : chip) : chip := mkChip (c_ports c) (c_exti c) true (c_nvic c) (c_priority c) (AHB4ENR c).

Definition set_AHB4ENR (f : Z -> Z) (c : chip) : chip := mkChip (c_ports c) (c_exti c) (c_syscfg_clock c) (c_nvic c) (c_priority c) (f (AHB4ENR c)).

Abbreviation G := (M chip).

(** A port is the index GPIO_GET_INDEX gives: 0 for GPIOA to 10 for GPIOK. *)
Definition on_port (port : nat) (f : gpio_regs -> option gpio_regs) : G unit := fun c =>
  match c_ports c !! port with
  | Some r => match f r with Some r' => Some (tt, set_ports <[port := r']> c) | None => None end
  | None => None
  end.
Definition on_exti (f : exti_regs -> option exti_regs) : G unit := fun c =>
  match f (c_exti c) with Some e => Some (tt, set_exti (fun _ => e) c) | None => None end.

(** What the chip makes of a register when it is written: BSRR on ODR, and PR1. *)
Class chip_writes := { bsrr_write : Z -> Z -> Z; pr1_write : Z -> Z -> Z }.

(** ** Constants *)

Definition GPIO_MODE_INPUT : Z := 0x00000000.
Definition GPIO_MODE_OUTPUT_PP : Z := 0x00000001.
Definition GPIO_MODE_OUTPUT_OD : Z := 0x00000011.
Definition GPIO_MODE_AF_PP : Z := 0x00000002.
Definition GPIO_MODE_AF_OD : Z := 0x00000012.
Definition GPIO_MODE_ANALOG : Z := 0x00000003.
Definition GPIO_MODE_IT_RISING : Z := 0x11110000.
Definition GPIO_MODE_IT_FALLING : Z := 0x11210000.
Definition GPIO_MODE_IT_RISING_FALLING : Z := 0x11310000.
Definition GPIO_SPEED_FREQ_HIGH : Z := 2.
Definition GPIO_NOPULL : Z := 0.
Definition GPIO_PULLUP : Z := 1.
Definition GPIO_PULLDOWN : Z := 2.
Definition GPIO_MODE : Z := 0x00000003.
Definition EXTI_MODE : Z := 0x10000000.
Definition GPIO_MODE_IT : Z := 0x00010000.
Definition GPIO_MODE_EVT : Z := 0x00020000.
Definition RISING_EDGE : Z := 0x00100000.
Definition FALLING_EDGE : Z := 0x00200000.
Definition GPIO_OUTPUT_TYPE : Z := 0x00000010.
Definition GPIO_NUMBER : Z := 16.

(** GPIO_InitTypeDef *)
Record GPIO_InitTypeDef := mkInit { Pin : Z; Mode : Z; Pull : Z; Speed : Z; Alternate : Z }.

(** ** Initialization *)

Definition has_mode (mode bits : Z) : bool := Z.land mode bits =? bits.
Definition is_af (mode : Z) : bool := (mode =? GPIO_MODE_AF_PP) || (mode =? GPIO_MODE_AF_OD).
Definition is_driven (mode : Z) : bool :=
  (mode =? GPIO_MODE_OUTPUT_PP) || (mode =? GPIO_MODE_AF_PP) || (mode =? GPIO_MODE_OUTPUT_OD) || (mode =? GPIO_MODE_AF_OD).
(** [temp &= ~iocurrent; if (b) temp |= iocurrent;] *)
Definition put_line (iocurrent : Z) (b : bool) (temp : Z) : Z :=
  let temp := Z.land temp (Z.lnot iocurrent) in if b then Z.lor temp iocurrent else temp.

(** The registers of the port, for the pin at [position]. *)
Definition init_alternate (i : GPIO_InitTypeDef) (position : Z) (r : gpio_regs) : option gpio_regs :=
  let n := Z.to_nat (Z.shiftr position 3) in
  temp ← AFR r !! n;
  Some (set_AFR (<[n := set_field 0xF 4 (Z.land position 7) (Alternate i) temp]> (AFR r)) r).
Definition init_mode (i : GPIO_InitTypeDef) (position : Z) (r : gpio_regs) : option gpio_regs :=
  Some (set_MODER (set_field 3 2 position (Z.land (Mode i) GPIO_MODE) (MODER r)) r).
Definition init_output (i : GPIO_InitTypeDef) (position : Z) (r : gpio_regs) : option gpio_regs :=
  let r := set_OSPEEDR (set_field 3 2 position (Speed i) (OSPEEDR r)) r in
  Some (set_OTYPER (set_field 1 1 position (Z.shiftr (Z.land (Mode i) GPIO_OUTPUT_TYPE) 4) (OTYPER r)) r).
Definition init_pull (i : GPIO_InitTypeDef) (position : Z) (r : gpio_regs) : option gpio_regs :=
  Some (set_PUPDR (set_field 3 2 position (Pull i) (PUPDR r)) r).

(** The line of the external interrupt. *)
Definition init_source (port : nat) (position : Z) (e : exti_regs) : option exti_regs :=
  let n := Z.to_nat (Z.shiftr position 2) in
  temp ← EXTICR e !! n;
  Some (set_EXTICR (<[n := set_field 0xF 4 (Z.land position 3) (Z.of_nat port) temp]> (EXTICR e)) e).
Definition init_line (i : GPIO_InitTypeDef) (iocurrent : Z) (e : exti_regs) : option exti_regs :=
  let e := set_IMR1 (put_line iocurrent (has_mode (Mode i) GPIO_MODE_IT) (IMR1 e)) e in
  let e := set_EMR1 (put_line iocurrent (has_mode (Mode i) GPIO_MODE_EVT) (EMR1 e)) e in
  let e := set_RTSR1 (put_line iocurrent (has_mode (Mode i) RISING_EDGE) (RTSR1 e)) e in
  Some (set_FTSR1 (put_line iocurrent (has_mode (Mode i) FALLING_EDGE) (FTSR1 e)) e).

(** The body of the loop of [HAL_GPIO_Init]. *)
Definition init_pin (port : nat) (i : GPIO_InitTypeDef) (position : Z) : G unit :=
  let iocurrent := Z.land (Pin i) (u32 (Z.shiftl 1 position)) in
  when (negb (iocurrent =? 0))
    (when (is_af (Mode i)) (on_port port (init_alternate i position)) ;;
     on_port port (init_mode i position) ;;
     when (is_driven (Mode i)) (on_port port (init_output i position)) ;;
     on_port port (init_pull i position) ;;
     when (has_mode (Mode i) EXTI_MODE)
       (modify syscfg_clock_on ;;
        on_exti (init_source port position) ;;
        on_exti (init_line i iocurrent))).

(** [while ((pins >> position) != 0) { body; position++; }]; the 32 bits of [pins] are shifted
    out after 32 rounds. *)
Fixpoint pin_loop (fuel : nat) (pins position : Z) (body : Z -> G unit) : G unit :=
  match fuel with
  | O => fault
  | S fuel => if Z.shiftr pins position =? 0 then mret tt else body position ;; pin_loop fuel pins (position + 1) body
  end.

Definition HAL_GPIO_Init (port : nat) (i : GPIO_InitTypeDef) : G unit := pin_loop 33 (Pin i) 0 (init_pin port i).

(** The body of the loop of [HAL_GPIO_DeInit]. *)
Definition clear_source (port : nat) (position iocurrent : Z) (e : exti_regs) : option exti_regs :=
  let n := Z.to_nat (Z.shiftr position 2) in
  reg ← EXTICR e !! n;
  let mask := u32 (Z.shiftl 0xF (4 * Z.land position 3)) in
  if Z.land reg mask =? Z.shiftl (Z.of_nat port) (4 * Z.land position 3) then
    let off x := Z.land x (Z.lnot iocurrent) in
    Some (mkExti (<[n := Z.land reg (Z.lnot mask)]> (EXTICR e)) (off (IMR1 e)) (off (EMR1 e)) (off (RTSR1 e)) (off (FTSR1 e)) (PR1 e))
  else Some e.
Definition reset_port (position : Z) (r : gpio_regs) : option gpio_regs :=
  let n := Z.to_nat (Z.shiftr position 3) in
  temp ← AFR r !! n;
  let clear mask k x := Z.land x (Z.lnot (u32 (Z.shiftl mask k))) in
  Some (mkPort (Z.lor (MODER r) (u32 (Z.shiftl 3 (position * 2)))) (clear 1 position (OTYPER r)) (clear 3 (position * 2) (OSPEEDR r))
    (clear 3 (position * 2) (PUPDR r)) (IDR r) (ODR r) (<[n := clear 0xF (Z.land position 7 * 4) temp]> (AFR r))).

Definition deinit_pin (port : nat) (pins position : Z) : G unit :=
  let iocurrent := Z.land pins (u32 (Z.shiftl 1 position)) in
  when (negb (iocurrent =? 0))
    (on_exti (clear_source port position iocurrent) ;;
     on_port port (reset_port position)).

Definition HAL_GPIO_DeInit (port : nat) (GPIO_Pin : Z) : G unit := pin_loop 33 GPIO_Pin 0 (deinit_pin port GPIO_Pin).

(** ** Reading, writing and interrupts *)

Section io.
Context `{!chip_writes}.

Definition HAL_GPIO_ReadPin (port : nat) (GPIO_Pin : Z) : G bool :=
  r ← deref (fun c => c_ports c !! port);
  mret (negb (Z.land (IDR r) GPIO_Pin =? 0)).
Definition write_BSRR (port : nat) (v : Z) : G unit := on_port port (fun r => Some (set_ODR (bsrr_write (ODR r) v) r)).
Definition HAL_GPIO_WritePin (port : nat) (GPIO_Pin PinState : Z) : G unit :=
  if negb (PinState =? 0) then write_BSRR port GPIO_Pin else write_BSRR port (u32 (Z.shiftl GPIO_Pin GPIO_NUMBER)).
Definition HAL_GPIO_TogglePin (port : nat) (GPIO_Pin : Z) : G unit :=
  r ← deref (fun c => c_ports c !! port);
  if Z.land (ODR r) GPIO_Pin =? GPIO_Pin then write_BSRR port (u32 (Z.shiftl GPIO_Pin GPIO_NUMBER)) else write_BSRR port GPIO_Pin.

(** [callback] is HAL_GPIO_EXTI_Callback, a function of the program: it acts on a state that
    has the chip in it, as [hal] says. *)
Definition HAL_GPIO_EXTI_IRQHandler {S} (hal : forall A, G A -> M S A) (callback : Z -> M S unit) (GPIO_Pin : Z) : M S unit :=
  e ← hal _ (gets c_exti);
  when (negb (Z.land (PR1 e) GPIO_Pin =? 0))
    (hal _ (on_exti (fun e => Some (set_PR1 (pr1_write (PR1 e) GPIO_Pin) e))) ;;
     callback GPIO_Pin).
End io.

(** stm32h7xx_hal_cortex.c, for the interrupts of devices *)
Definition HAL_NVIC_SetPriority (IRQn PreemptPriority SubPriority : Z) : G unit := modify (set_priority <[IRQn := (PreemptPriority, SubPriority)]>).
Definition HAL_NVIC_EnableIRQ (IRQn : Z) : G unit := modify (set_nvic (fun s => {[ IRQn ]} ∪ s)).
Definition HAL_NVIC_DisableIRQ (IRQn : Z) : G unit := modify (set_nvic (fun s => s ∖ {[ IRQn ]})).

(** stm32h7xx_hal_rcc.h: the clock of a port *)
Definition __HAL_RCC_GPIO_CLK_ENABLE (port : nat) : G unit := modify (set_AHB4ENR (fun v => Z.lor v (Z.shiftl 1 (Z.of_nat port)))).

(** ** What is set up for each pin *)

Record gpio_cfg := mkCfgPin { g_mode : Z; g_type : Z; g_speed : Z; g_pull : Z; g_af : Z }.
Definition cfg_of (r : gpio_regs) (p : Z) : gpio_cfg :=
  mkCfgPin (field 2 p (MODER r)) (field 1 p (OTYPER r)) (field 2 p (OSPEEDR r)) (field 2 p (PUPDR r)) (arr_field 4 8 p (AFR r)).
Record line_cfg := mkLine { l_port : Z; l_irq : bool; l_event : bool; l_rise : bool; l_fall : bool }.
Definition line_of (e : exti_regs) (p : Z) : line_cfg :=
  mkLine (arr_field 4 4 p (EXTICR e)) (Z.testbit (IMR1 e) p) (Z.testbit (EMR1 e) p) (Z.testbit (RTSR1 e) p) (Z.testbit (FTSR1 e) p).

(** What [HAL_GPIO_Init] is to make of a pin and of its line. *)
Definition cfg_init (i : GPIO_InitTypeDef) (c : gpio_cfg) : gpio_cfg :=
  let m := Mode i in
  mkCfgPin (Z.land m 3) (if is_driven m then Z.shiftr (Z.land m 0x10) 4 else g_type c) (if is_driven m then Speed i else g_speed c)
    (Pull i) (if is_af m then Alternate i else g_af c).
Definition line_init (port : nat) (i : GPIO_InitTypeDef) (l : line_cfg) : line_cfg :=
  if has_mode (Mode i) EXTI_MODE
  then mkLine (Z.of_nat port) (has_mode (Mode i) GPIO_MODE_IT) (has_mode (Mode i) GPIO_MODE_EVT) (has_mode (Mode i) RISING_EDGE) (has_mode (Mode i) FALLING_EDGE)
  else l.
(** And what [HAL_GPIO_DeInit] is to: an analog pin, and no interrupt if its line is the port's. *)
Definition cfg_reset (c : gpio_cfg) : gpio_cfg := mkCfgPin 3 0 0 0 0.
Definition line_reset (port : nat) (l : line_cfg) : line_cfg := if l_port l =? Z.of_nat port then mkLine 0 false false false false else l.

(** The fields of the chip: 11 ports of 16 pins. *)
Record chip_ok (c : chip) : Prop := {
  co_ports : length (c_ports c) = 11%nat;
  co_afr : forall q r, c_ports c !! q = Some r -> length (AFR r) = 2%nat;
  co_source : length (EXTICR (c_exti c)) = 4%nat
}.
Record init_ok (i : GPIO_InitTypeDef) : Prop := {
  io_pins : 0 <= Pin i < 2 ^ 16;
  io_pull : 0 <= Pull i < 4;
  io_speed : 0 <= Speed i < 4;
  io_af : 0 <= Alternate i < 16
}.

(** [c'] is [c] with the pins [p] of [port] changed by [U p] and the lines [p] by [V p]. *)
Record changes (port : nat) (U : Z -> gpio_cfg -> gpio_cfg) (V : Z -> line_cfg -> line_cfg) (c c' : chip) : Prop := {
  ch_ok : chip_ok c';
  ch_cfg : forall q r, c_ports c !! q = Some r -> exists r', c_ports c' !! q = Some r' /\ IDR r' = IDR r /\ ODR r' = ODR r /\
    forall p, 0 <= p < 16 -> cfg_of r' p = if decide (q = port) then U p (cfg_of r p) else cfg_of r p;
  ch_line : forall p, 0 <= p < 16 -> line_of (c_exti c') p = V p (line_of (c_exti c) p);
  ch_rest : PR1 (c_exti c') = PR1 (c_exti c) /\ c_nvic c' = c_nvic c /\ c_priority c' = c_priority c
}.
Definition acts (port : nat) (U : Z -> gpio_cfg -> gpio_cfg) (V : Z -> line_cfg -> line_cfg) (m : G unit) : Prop :=
  forall c, chip_ok c -> wp m (fun _ => changes port U V c) c.
Definition at_pin {A} (pos : Z) (f : A -> A) (p : Z) (x : A) : A := if decide (p = pos) then f x else x.
Definition same {A} (p : Z) (x : A) : A := x.

Section acts.
Context (port : nat).
Implicit Types (U : Z -> gpio_cfg -> gpio_cfg) (V : Z -> line_cfg -> line_cfg).

Lemma acts_ret : acts port same same (mret tt).
Proof.
  intros c Hc. rewrite wp_ret. split; [done| |done|done]. intros q r Hr. exists r. repeat split; try done. intros p _. by case_decide.
Qed.
Lemma acts_bind U1 V1 U2 V2 m1 m2 : acts port U1 V1 m1 -> acts port U2 V2 m2 ->
  acts port (fun p x => U2 p (U1 p x)) (fun p x => V2 p (V1 p x)) (m1 ;; m2).
Proof.
  intros H1 H2 c Hc. rewrite wp_bind. eapply wp_mono; [|by apply H1]. intros [] c1 [A1 A2 A3 (A4 & A5 & A6)].
  eapply wp_mono; [|by apply H2]. intros [] c2 [B1 B2 B3 (B4 & B5 & B6)]. split; [done| | |split; [|split]; congruence].
  - intros q r Hr. destruct (A2 q r Hr) as (r1 & Hr1 & I1 & O1 & C1). destruct (B2 q r1 Hr1) as (r2 & Hr2 & I2 & O2 & C2).
    exists r2. split; [done|]. split; [congruence|]. split; [congruence|]. intros p Hp. rewrite C2, C1 by done. by case_decide.
  - intros p Hp. by rewrite B3, A3.
Qed.
Lemma acts_ext U V U' V' m : acts port U V m -> (forall p x, U p x = U' p x) -> (forall p x, V p x = V' p x) -> acts port U' V' m.
Proof.
  intros H HU HV c Hc. eapply wp_mono; [|by apply H]. intros [] c' [A1 A2 A3 A4]. split; [done| | |done].
  - intros q r Hr. destruct (A2 q r Hr) as (r1 & Hr1 & I1 & O1 & C1). exists r1. do 3 (split; [done|]). intros p Hp. by rewrite C1, HU.
  - intros p Hp. by rewrite A3, HV.
Qed.
Lemma acts_when (b : bool) U V m : (b = true -> acts port U V m) ->
  acts port (fun p x => if b then U p x else x) (fun p x => if b then V p x else x) (when b m).
Proof. destruct b; cbn; intros H; [by apply H|apply acts_ret]. Qed.

(** A change of the registers of the port, or of the line. *)
Lemma acts_port U f : (port < 11)%nat ->
  (forall r, length (AFR r) = 2%nat -> exists r', f r = Some r' /\ length (AFR r') = 2%nat /\ IDR r' = IDR r /\ ODR r' = ODR r /\
     forall p, 0 <= p < 16 -> cfg_of r' p = U p (cfg_of r p)) -> acts port U same (on_port port f).
Proof.
  intros Hp Hf c Hc. destruct (lookup_lt_is_Some_2 (c_ports c) port) as [r Hr]; [by rewrite (co_ports _ Hc)|].
  destruct (Hf r (co_afr _ Hc _ _ Hr)) as (r' & Er & L & I & O & C). unfold wp, on_port. rewrite Hr, Er. split; [|..|done].
  - destruct Hc as [H1 H2 H3]. split; cbn; [by rewrite length_insert| |done]. intros q x [(-> & <- & _)|(_ & Hx)]%list_lookup_insert_Some; [done|by eapply H2].
  - cbn [c_ports set_ports]. intros q x Hx. case_decide as E.
    + subst q. assert (x = r) as -> by congruence. exists r'. rewrite list_lookup_insert_eq by (by eapply lookup_lt_Some). by repeat split.
    + exists x. rewrite list_lookup_insert_ne by done. by repeat split.
  - done.
Qed.
Lemma acts_exti V f :
  (forall e, length (EXTICR e) = 4%nat -> exists e', f e = Some e' /\ length (EXTICR e') = 4%nat /\ PR1 e' = PR1 e /\
     forall p, 0 <= p < 16 -> line_of e' p = V p (line_of e p)) -> acts port same V (on_exti f).
Proof.
  intros Hf c Hc. destruct (Hf (c_exti c) (co_source _ Hc)) as (e' & Ee & L & P & C). unfold wp, on_exti. rewrite Ee. split; cbn.
  - destruct Hc. by split.
  - intros q r Hr. exists r. repeat split; try done. intros p _. by case_decide.
  - done.
  - done.
Qed.
Lemma acts_clock : acts port same same (modify syscfg_clock_on).
Proof.
  intros c [H1 H2 H3]. rewrite wp_modify. split; [done| |done|done]. intros q r Hr. exists r. repeat split; try done. intros p _. by case_decide.
Qed.
End acts.

(** A loop over pins acts on each pin that is in the mask. *)
Definition masked {A} (pins from : Z) (f : A -> A) (p : Z) (x : A) : A := if (from <=? p) && Z.testbit pins p then f x else x.

Lemma pin_loop_acts port pins u v body : 0 <= pins < 2 ^ 16 ->
  (forall pos, 0 <= pos < 16 ->
    acts port (fun p x => if Z.testbit pins pos then at_pin pos u p x else x) (fun p x => if Z.testbit pins pos then at_pin pos v p x else x) (body pos)) ->
  forall fuel from, 0 <= from -> 33 - from <= Z.of_nat fuel -> 0 < Z.of_nat fuel ->
  acts port (masked pins from u) (masked pins from v) (pin_loop fuel pins from body).
Proof.
  intros Hpins Hbody. induction fuel as [|fuel IH]; intros from Hfrom Hfuel Hpos; [lia|]. cbn [pin_loop].
  destruct (Z.eqb_spec (Z.shiftr pins from) 0) as [E|E].
  - eapply acts_ext; [apply acts_ret|..]; intros p x; unfold masked, same; (destruct (Z.leb_spec from p); [|done]);
      assert (Z.testbit pins p = false) as ->; try done;
      rewrite <- (Z.sub_add from p), <- Z.shiftr_spec by lia; by rewrite E, Z.bits_0.
  - assert (Hlt : from < 16).
    { destruct (Z.ltb_spec from 16); [done|]. exfalso. apply E. apply Z.bits_inj'. intros i Hi. rewrite Z.bits_0, Z.shiftr_spec by done.
      apply (bound_bits 16); lia. }
    eapply acts_ext; [apply acts_bind; [by apply Hbody|apply IH; lia]|..]; intros p x; unfold masked, at_pin;
      (case_decide as Ep; [subst|]);
      repeat match goal with |- context [Z.leb ?a ?b] => destruct (Z.leb_spec a b); try lia end; cbn [andb]; try done;
      by repeat match goal with |- context [Z.testbit ?a ?b] => destruct (Z.testbit a b) end.
Qed.

(** ** The register operations *)

Lemma land_7 p : Z.land p 7 = p mod 8.
Proof. change 7 with (Z.ones 3). by rewrite Z.land_ones. Qed.
Lemma land_3 p : Z.land p 3 = p mod 4.
Proof. change 3 with (Z.ones 2). by rewrite Z.land_ones. Qed.
Lemma shiftr_3 p : Z.shiftr p 3 = p / 8.
Proof. by rewrite Z.shiftr_div_pow2. Qed.
Lemma shiftr_2 p : Z.shiftr p 2 = p / 4.
Proof. by rewrite Z.shiftr_div_pow2. Qed.

(** Fields of the registers of 16 pins *)
Lemma field2_set p q v temp : 0 <= p < 16 -> 0 <= q -> 0 <= v < 4 -> field 2 q (set_field 3 2 p v temp) = if decide (q = p) then v else field 2 q temp.
Proof. intros. apply (field_set_field 2); lia. Qed.
Lemma field1_set p q v temp : 0 <= p < 16 -> 0 <= q -> 0 <= v < 2 -> field 1 q (set_field 1 1 p v temp) = if decide (q = p) then v else field 1 q temp.
Proof. intros. apply (field_set_field 1); lia. Qed.

Lemma lookup_index {A} (l : list A) per p n : 0 < per -> 0 <= p < per * Z.of_nat n -> length l = n -> is_Some (l !! Z.to_nat (p / per)) /\ p / per < Z.of_nat (length l).
Proof.
  intros Hper Hp <-. assert (0 <= p / per < Z.of_nat (length l)).
  { split; [apply Z.div_pos; lia|apply Z.div_lt_upper_bound; lia]. }
  split; [|lia]. apply lookup_lt_is_Some_2. lia.
Qed.

Lemma land_range x k : 0 <= k -> 0 <= Z.land x (Z.ones k) < 2 ^ k.
Proof. intros. rewrite Z.land_ones by done. apply Z.mod_pos_bound. lia. Qed.
Lemma type_bit m : 0 <= Z.shiftr (Z.land m 0x10) 4 < 2.
Proof.
  rewrite Z.shiftr_land. change (Z.shiftr 16 4) with (Z.ones 1). apply (land_range _ 1). lia.
Qed.

Section init.
Context (port : nat) (i : GPIO_InitTypeDef) (pos : Z) (Hport : (port < 11)%nat) (Hi : init_ok i) (Hpos : 0 <= pos < 16).

Lemma cfg_eq a b c d e a' b' c' d' e' : a = a' -> b = b' -> c = c' -> d = d' -> e = e' -> mkCfgPin a b c d e = mkCfgPin a' b' c' d' e'.
Proof. congruence. Qed.

Lemma init_alternate_acts :
  acts port (at_pin pos (fun c => mkCfgPin (g_mode c) (g_type c) (g_speed c) (g_pull c) (Alternate i))) same (on_port port (init_alternate i pos)).
Proof.
  apply acts_port; [done|]. intros r Hr. unfold init_alternate. rewrite shiftr_3, land_7.
  destruct (lookup_index (AFR r) 8 pos 2) as [[x Hx] Hlt]; [lia|lia|done|]. rewrite Hx. cbn. eexists. split; [done|]. cbn.
  split; [by rewrite length_insert|]. do 2 (split; [done|]). intros p Hp. unfold at_pin, cfg_of. cbn.
  rewrite <- (list_lookup_total_correct _ _ _ Hx) at 1. change 15 with (Z.ones 4). destruct Hi as [_ _ _ Ha].
  rewrite arr_field_set by lia. by case_decide.
Qed.
Lemma init_mode_acts :
  acts port (at_pin pos (fun c => mkCfgPin (Z.land (Mode i) 3) (g_type c) (g_speed c) (g_pull c) (g_af c))) same (on_port port (init_mode i pos)).
Proof.
  apply acts_port; [done|]. intros r Hr. eexists. split; [done|]. split; [done|]. do 2 (split; [done|]). intros p Hp. unfold at_pin, cfg_of. cbn.
  rewrite field2_set by (try apply (land_range _ 2); lia). by case_decide.
Qed.
Lemma init_output_acts :
  acts port (at_pin pos (fun c => mkCfgPin (g_mode c) (Z.shiftr (Z.land (Mode i) 0x10) 4) (Speed i) (g_pull c) (g_af c))) same (on_port port (init_output i pos)).
Proof.
  apply acts_port; [done|]. intros r Hr. eexists. split; [done|]. split; [done|]. do 2 (split; [done|]). intros p Hp. unfold at_pin, cfg_of. cbn.
  destruct Hi as [_ _ Hs _]. rewrite field2_set, field1_set by (try apply type_bit; lia). by case_decide.
Qed.
Lemma init_pull_acts :
  acts port (at_pin pos (fun c => mkCfgPin (g_mode c) (g_type c) (g_speed c) (Pull i) (g_af c))) same (on_port port (init_pull i pos)).
Proof.
  apply acts_port; [done|]. intros r Hr. eexists. split; [done|]. split; [done|]. do 2 (split; [done|]). intros p Hp. unfold at_pin, cfg_of. cbn.
  destruct Hi as [_ Hs _ _]. rewrite field2_set by lia. by case_decide.
Qed.

Lemma init_source_acts :
  acts port same (at_pin pos (fun l => mkLine (Z.of_nat port) (l_irq l) (l_event l) (l_rise l) (l_fall l))) (on_exti (init_source port pos)).
Proof.
  apply acts_exti. intros e He. unfold init_source. rewrite shiftr_2, land_3.
  destruct (lookup_index (EXTICR e) 4 pos 4) as [[x Hx] Hlt]; [lia|lia|done|]. rewrite Hx. cbn. eexists. split; [done|]. cbn.
  split; [by rewrite length_insert|]. split; [done|]. intros p Hp. unfold at_pin, line_of. cbn.
  rewrite <- (list_lookup_total_correct _ _ _ Hx) at 1. change 15 with (Z.ones 4). rewrite arr_field_set by lia. by case_decide.
Qed.

Lemma put_line_bit b temp p : 0 <= p -> Z.testbit (put_line (2 ^ pos) b temp) p = if decide (p = pos) then b else Z.testbit temp p.
Proof.
  intros Hp. unfold put_line. destruct b.
  - rewrite testbit_set, testbit_clear by lia. repeat (case_bool_decide || case_decide); try done; subst; rewrite ?andb_true_r, ?orb_false_r, ?orb_true_r; done.
  - rewrite testbit_clear by lia. repeat (case_bool_decide || case_decide); try done; subst; rewrite ?andb_true_r, ?andb_false_r; done.
Qed.
Lemma init_line_acts :
  acts port same (at_pin pos (fun l => mkLine (l_port l) (has_mode (Mode i) GPIO_MODE_IT) (has_mode (Mode i) GPIO_MODE_EVT)
    (has_mode (Mode i) RISING_EDGE) (has_mode (Mode i) FALLING_EDGE))) (on_exti (init_line i (2 ^ pos))).
Proof.
  apply acts_exti. intros e He. eexists. split; [done|]. split; [done|]. split; [done|]. intros p Hp. unfold at_pin, line_of. cbn.
  rewrite !put_line_bit by lia. by case_decide.
Qed.
End init.

(** [iocurrent] is the bit of the position, or 0. *)
Lemma iocurrent_eq pins pos : 0 <= pos < 32 -> Z.land pins (u32 (Z.shiftl 1 pos)) = if Z.testbit pins pos then 2 ^ pos else 0.
Proof.
  intros Hpos. apply Z.bits_inj'. intros k Hk. rewrite Z.land_spec, u32_bit, Z.shiftl_1_l, pow2_testbit by lia.
  case_bool_decide as E; cbn [andb].
  - subst. rewrite (proj2 (Z.ltb_lt _ _)) by lia. destruct (Z.testbit pins k); [by rewrite pow2_testbit, bool_decide_eq_true_2 by lia|by rewrite Z.bits_0].
  - rewrite andb_false_r. destruct (Z.testbit pins pos); [by rewrite pow2_testbit, bool_decide_eq_false_2 by lia|by rewrite Z.bits_0].
Qed.

Lemma init_pin_acts port i pos : (port < 11)%nat -> init_ok i -> 0 <= pos < 16 ->
  acts port (fun p x => if Z.testbit (Pin i) pos then at_pin pos (cfg_init i) p x else x)
    (fun p x => if Z.testbit (Pin i) pos then at_pin pos (line_init port i) p x else x) (init_pin port i pos).
Proof.
  intros Hport Hi Hpos. unfold init_pin. rewrite iocurrent_eq by lia. destruct (Z.testbit (Pin i) pos); [|apply acts_ret].
  rewrite (proj2 (Z.eqb_neq (2 ^ pos) 0)) by (pose proof (Z.pow_pos_nonneg 2 pos); lia). cbn [negb]. unfold when at 1.
  eapply acts_ext.
  - apply acts_bind; [apply acts_when; intros _; by apply init_alternate_acts|]. apply acts_bind; [by apply init_mode_acts|].
    apply acts_bind; [apply acts_when; intros _; by apply init_output_acts|]. apply acts_bind; [by apply init_pull_acts|].
    apply acts_when. intros _. apply acts_bind; [apply acts_clock|]. apply acts_bind; [by apply init_source_acts|by apply init_line_acts].
  - intros p x. unfold at_pin, same, cfg_init. destruct x. by case_decide; destruct (is_af (Mode i)), (is_driven (Mode i)), (has_mode (Mode i) EXTI_MODE).
  - intros p x. unfold at_pin, same, line_init. destruct x. by case_decide; destruct (is_af (Mode i)), (is_driven (Mode i)), (has_mode (Mode i) EXTI_MODE).
Qed.

Lemma init_acts port i : (port < 11)%nat -> init_ok i ->
  acts port (masked (Pin i) 0 (cfg_init i)) (masked (Pin i) 0 (line_init port i)) (HAL_GPIO_Init port i).
Proof. intros Hport Hi. apply pin_loop_acts; [apply Hi| |lia|lia|lia]. intros pos Hpos. by apply init_pin_acts. Qed.

(** ** Back to the reset state *)

Lemma clear_field mask w p temp : Z.land temp (Z.lnot (u32 (Z.shiftl mask (p * w)))) = set_field mask w p 0 temp.
Proof. unfold set_field. rewrite Z.shiftl_0_l. by rewrite Z.lor_0_r. Qed.
Lemma raise_field mask w p temp : Z.lor temp (u32 (Z.shiftl mask (p * w))) = set_field mask w p mask temp.
Proof.
  unfold set_field. apply Z.bits_inj'. intros i Hi. rewrite !Z.lor_spec, Z.land_spec, Z.lnot_spec by done.
  by destruct (Z.testbit temp i), (Z.testbit (u32 _) i).
Qed.
(** A field in its place. *)
Lemma field_in_place w p reg : 0 < w -> 0 <= p -> w * p + w <= 32 ->
  Z.land reg (u32 (Z.shiftl (Z.ones w) (w * p))) = Z.shiftl (field w p reg) (w * p).
Proof.
  intros Hw Hp H32. apply Z.bits_inj'. intros i Hi. rewrite Z.land_spec, u32_bit by done.
  rewrite (gpio_shifted_bit w (Z.ones w)) by (try (rewrite Z.ones_equiv; lia); lia). rewrite Z.shiftl_spec by done.
  destruct (Z.leb_spec (w * p) i).
  - rewrite field_bit by lia. rewrite Z.sub_add. destruct (Z.ltb_spec (i - w * p) w).
    + rewrite Z.ones_spec_low by lia. rewrite !(proj2 (Z.ltb_lt _ _)) by lia. done.
    + rewrite Z.ones_spec_high by lia. by rewrite !andb_false_r.
  - rewrite (Z.testbit_neg_r (field w p reg)) by lia. rewrite andb_false_r. cbn [andb]. by rewrite andb_false_r.
Qed.
Lemma field_eq w p reg v : 0 < w -> 0 <= p -> w * p + w <= 32 ->
  (Z.land reg (u32 (Z.shiftl (Z.ones w) (w * p))) =? Z.shiftl v (w * p)) = (field w p reg =? v).
Proof.
  intros Hw Hp H32. rewrite field_in_place by done. rewrite !Z.shiftl_mul_pow2 by lia.
  pose proof (Z.pow_pos_nonneg 2 (w * p)). apply eq_iff_eq_true. rewrite !Z.eqb_eq. split; [intros E|intros ->; done]. nia.
Qed.

Lemma clear_line_bit pos x p : 0 <= pos -> 0 <= p -> Z.testbit (Z.land x (Z.lnot (2 ^ pos))) p = if decide (p = pos) then false else Z.testbit x p.
Proof.
  intros. rewrite testbit_clear by done. repeat (case_bool_decide || case_decide); try done; subst; rewrite ?andb_true_r, ?andb_false_r; done.
Qed.

Lemma clear_source_acts port pos : (port < 11)%nat -> 0 <= pos < 16 ->
  acts port same (at_pin pos (line_reset port)) (on_exti (clear_source port pos (2 ^ pos))).
Proof.
  intros Hport Hpos. apply acts_exti. intros e He. unfold clear_source. rewrite shiftr_2, land_3.
  destruct (lookup_index (EXTICR e) 4 pos 4) as [[x Hx] Hlt]; [lia|lia|done|]. rewrite Hx. cbn.
  pose proof (Z.mod_pos_bound pos 4 ltac:(lia)) as Hm. change 15 with (Z.ones 4). rewrite field_eq by lia.
  assert (Hsrc : arr_field 4 4 pos (EXTICR e) = field 4 (pos mod 4) x) by (unfold arr_field; by rewrite (list_lookup_total_correct _ _ _ Hx)).
  destruct (field 4 (pos mod 4) x =? Z.of_nat port) eqn:E.
  - eexists. split; [done|]. cbn. split; [by rewrite length_insert|]. split; [done|]. intros p Hp. unfold at_pin, line_reset.
    unfold line_of at 1. cbn. rewrite !clear_line_bit by lia. rewrite (Z.mul_comm 4 (pos mod 4)), clear_field.
    rewrite <- (list_lookup_total_correct _ _ _ Hx) at 1. rewrite arr_field_set by lia. case_decide as Ep; [|done].
    subst p. by rewrite Hsrc, E.
  - exists e. split; [done|]. split; [done|]. split; [done|]. intros p Hp. unfold at_pin, line_reset. case_decide as Ep; [|done].
    subst p. cbn. by rewrite Hsrc, E.
Qed.

Lemma reset_port_acts port pos : (port < 11)%nat -> 0 <= pos < 16 -> acts port (at_pin pos cfg_reset) same (on_port port (reset_port pos)).
Proof.
  intros Hport Hpos. apply acts_port; [done|]. intros r Hr. unfold reset_port. rewrite shiftr_3, land_7.
  destruct (lookup_index (AFR r) 8 pos 2) as [[x Hx] Hlt]; [lia|lia|done|]. rewrite Hx. cbn. eexists. split; [done|]. cbn.
  split; [by rewrite length_insert|]. do 2 (split; [done|]). intros p Hp. unfold at_pin, cfg_of. cbn.
  rewrite raise_field, !clear_field. rewrite <- (Z.mul_1_r pos) at 2. rewrite clear_field, !field2_set, field1_set by lia.
  rewrite <- (list_lookup_total_correct _ _ _ Hx) at 1. change 15 with (Z.ones 4). rewrite arr_field_set by lia. by case_decide.
Qed.

Lemma deinit_pin_acts port pins pos : (port < 11)%nat -> 0 <= pos < 16 ->
  acts port (fun p x => if Z.testbit pins pos then at_pin pos cfg_reset p x else x)
    (fun p x => if Z.testbit pins pos then at_pin pos (line_reset port) p x else x) (deinit_pin port pins pos).
Proof.
  intros Hport Hpos. unfold deinit_pin. rewrite iocurrent_eq by lia. destruct (Z.testbit pins pos); [|apply acts_ret].
  rewrite (proj2 (Z.eqb_neq (2 ^ pos) 0)) by (pose proof (Z.pow_pos_nonneg 2 pos); lia). cbn [negb]. unfold when.
  eapply acts_ext; [apply acts_bind; [by apply clear_source_acts|by apply reset_port_acts]|done|done].
Qed.

Lemma deinit_acts port pins : (port < 11)%nat -> 0 <= pins < 2 ^ 16 ->
  acts port (masked pins 0 cfg_reset) (masked pins 0 (line_reset port)) (HAL_GPIO_DeInit port pins).
Proof. intros Hport Hp. apply pin_loop_acts; [done| |lia|lia|lia]. intros pos Hpos. by apply deinit_pin_acts. Qed.

(** C18: Setting up pins ends, and gives each pin of the mask the mode, speed, type, pull and function
    asked for, each its own line the port and the edges asked for, and changes nothing else: no
    other pin of the port, no other port, no other line. *)
Theorem HAL_GPIO_Init_spec port i c : (port < 11)%nat -> init_ok i -> chip_ok c ->
  exists c', HAL_GPIO_Init port i c = Some (tt, c') /\ chip_ok c' /\
  (forall q r, c_ports c !! q = Some r -> exists r', c_ports c' !! q = Some r' /\ IDR r' = IDR r /\ ODR r' = ODR r /\
    forall p, 0 <= p < 16 -> cfg_of r' p = if bool_decide (q = port) && Z.testbit (Pin i) p then cfg_init i (cfg_of r p) else cfg_of r p) /\
  (forall p, 0 <= p < 16 -> line_of (c_exti c') p = if Z.testbit (Pin i) p then line_init port i (line_of (c_exti c) p) else line_of (c_exti c) p) /\
  PR1 (c_exti c') = PR1 (c_exti c) /\ c_nvic c' = c_nvic c /\ c_priority c' = c_priority c.
Proof.
  intros Hport Hi Hc. pose proof (init_acts port i Hport Hi c Hc) as Hw. apply wp_unfold in Hw as ([] & c' & E & [A1 A2 A3 A4]).
  exists c'. split; [done|]. split; [done|]. split; [|split; [|done]].
  - intros q r Hr. destruct (A2 q r Hr) as (r' & Hr' & I & O & C). exists r'. do 3 (split; [done|]). intros p Hp. rewrite C by done.
    unfold masked. rewrite (proj2 (Z.leb_le 0 p)) by lia. case_decide; case_bool_decide; done.
  - intros p Hp. rewrite A3 by done. unfold masked. by rewrite (proj2 (Z.leb_le 0 p)) by lia.
Qed.

(** A chip after reset, and the button on pin 13 of port C. *)
Definition reset_regs : gpio_regs := mkPort 0xFFFFFFFF 0 0 0 0 0 [0; 0].
Definition reset_chip : chip := mkChip (repeat reset_regs 11) (mkExti [0; 0; 0; 0] 0 0 0 0 0) false ∅ ∅ 0.
Lemma reset_chip_ok : chip_ok reset_chip.
Proof. split; [done| |done]. intros q r Hr. do 11 (destruct q as [|q]; [by injection Hr as <-|]). done. Qed.

Definition button_init : GPIO_InitTypeDef := mkInit 0x2000 GPIO_MODE_IT_RISING GPIO_PULLDOWN GPIO_SPEED_FREQ_HIGH 0.
Lemma button_init_ok : init_ok button_init.
Proof. split; cbn [button_init Pin Pull Speed Alternate]; unfold GPIO_PULLDOWN, GPIO_SPEED_FREQ_HIGH; lia. Qed.
Lemma HAL_GPIO_Init_spec_witness : exists c', HAL_GPIO_Init 2 button_init reset_chip = Some (tt, c') /\
  line_of (c_exti c') 13 = mkLine 2 true false true false.
Proof.
  destruct (HAL_GPIO_Init_spec 2 button_init reset_chip ltac:(lia) button_init_ok reset_chip_ok) as (c' & E & _ & _ & L & _).
  exists c'. split; [exact E|]. rewrite (L 13) by lia. reflexivity.
Defined.
