(* ===== verification/Pin.v ===== *)
(** * Pin: the pins and their interrupts

    rt-thread/components/drivers/misc/pin.c, the calls for pins, over the functions of a board
    (struct rt_pin_ops, a parameter), and the functions of this board, drivers/drv_gpio.c, over
    the port driver of the vendor (Gpio).  The functions attached to pins are those of the
    application; they are run by the interrupt handlers, between rt_interrupt_enter and
    rt_interrupt_leave, on the state [S] of the rest of the program.  The branches of the other
    series of chips are not compiled. *)

From S2P Require Import Prelude Kernel Gpio.

#[local] Open Scope Z_scope.

Definition PIN_LOW : Z := 0x00.
Definition PIN_MODE_OUTPUT : Z := 0x00.
Definition PIN_MODE_INPUT : Z := 0x01.
Definition PIN_MODE_INPUT_PULLUP : Z := 0x02.
Definition PIN_MODE_INPUT_PULLDOWN : Z := 0x03.
Definition PIN_MODE_OUTPUT_OD : Z := 0x04.
Definition PIN_IRQ_MODE_RISING : Z := 0x00.
Definition PIN_IRQ_MODE_FALLING : Z := 0x01.
Definition PIN_IRQ_MODE_RISING_FALLING : Z := 0x02.
Definition PIN_IRQ_DISABLE : Z := 0x00.
Definition PIN_IRQ_ENABLE : Z := 0x01.

(** ** pin.c *)

Section device.
Context {S : Type}.

(** struct rt_pin_ops; [None] is RT_NULL.  A function to attach is named, [None] for RT_NULL. *)
Record rt_pin_ops := mkPinOps {
  pin_mode : Z -> Z -> M S unit;
  pin_write : Z -> Z -> M S unit;
  pin_read : Z -> M S Z;
  pin_attach_irq : option (Z -> Z -> option positive -> Z -> M S Z);
  pin_detach_irq : option (Z -> M S Z);
  pin_irq_enable : option (Z -> Z -> M S Z);
  pin_get : option (list Z -> M S Z)
}.

(** [_hw_pin.ops], which [rt_device_pin_register] sets. *)
Definition hw_pin : Type := option rt_pin_ops * S.
Definition board {A} (m : M S A) : M hw_pin A := fun s => match m s.2 with Some (a, s') => Some (a, (s.1, s')) | None => None end.
Definition hw_ops : M hw_pin rt_pin_ops := deref fst.

Definition register_ops (ops : rt_pin_ops) : M hw_pin unit := modify (fun s => (Some ops, s.2)).

Definition rt_pin_attach_irq (pin mode : Z) (hdr : option positive) (args : Z) : M hw_pin Z :=
  ops ← hw_ops;
  match pin_attach_irq ops with Some f => board (f pin mode hdr args) | None => mret RT_ENOSYS end.
Definition rt_pin_detach_irq (pin : Z) : M hw_pin Z :=
  ops ← hw_ops;
  match pin_detach_irq ops with Some f => board (f pin) | None => mret RT_ENOSYS end.
Definition rt_pin_irq_enable (pin enabled : Z) : M hw_pin Z :=
  ops ← hw_ops;
  match pin_irq_enable ops with Some f => board (f pin enabled) | None => mret RT_ENOSYS end.
Definition rt_pin_mode (pin mode : Z) : M hw_pin unit := ops ← hw_ops; board (pin_mode ops pin mode).
Definition rt_pin_write (pin value : Z) : M hw_pin unit := ops ← hw_ops; board (pin_write ops pin value).
Definition rt_pin_read (pin : Z) : M hw_pin Z := ops ← hw_ops; board (pin_read ops pin).
(** "P" is 80. *)
Definition rt_pin_get (name : list Z) : M hw_pin Z :=
  ops ← hw_ops;
  rt_assert (bool_decide (head name = Some 80)) ;;
  match pin_get ops with None => mret (- RT_ENOSYS) | Some f => board (f name) end.

(** struct rt_device_pin_status and rt_device_pin_mode are two 16-bit numbers; [None] for
    RT_NULL.  The status read comes back with the size. *)
Definition sizeof_pin_status : Z := 4.
Definition _pin_read (status : option (Z * Z)) (size : Z) : M hw_pin (Z * option (Z * Z)) :=
  match status with
  | Some (pin, old) =>
      if negb (size =? sizeof_pin_status) then mret (0, Some (pin, old))
      else ops ← hw_ops; v ← board (pin_read ops pin); mret (size, Some (pin, u16 v))
  | None => mret (0, None)
  end.
Definition _pin_write (status : option (Z * Z)) (size : Z) : M hw_pin Z :=
  match status with
  | Some (pin, value) =>
      if negb (size =? sizeof_pin_status) then mret 0 else ops ← hw_ops; board (pin_write ops pin value) ;; mret size
  | None => mret 0
  end.
Definition _pin_control (args : option (Z * Z)) : M hw_pin Z :=
  match args with
  | None => mret (- RT_ERROR)
  | Some (pin, mode) => ops ← hw_ops; board (pin_mode ops pin mode) ;; mret 0
  end.
End device.
Arguments rt_pin_ops : clear implicits.
Arguments hw_pin : clear implicits.

(** ** drv_gpio.c *)

Definition GPIOA : nat := 0.
Definition GPIOB : nat := 1.
Definition GPIOC : nat := 2.
Definition GPIOD : nat := 3.
Definition GPIOE : nat := 4.
Definition GPIOF : nat := 5.
Definition GPIOG : nat := 6.
Definition GPIOH : nat := 7.
Definition GPIOI : nat := 8.
Definition GPIOJ : nat := 9.
Definition GPIOK : nat := 10.
(** GPIO_PIN_0 to GPIO_PIN_15 *)
Definition GPIO_PIN (n : Z) : Z := Z.shiftl 0x0001 n.

(** drv_common.h: the ports are 0x400 apart. *)
Definition GPIOA_BASE : Z := 0x58020000.
Definition port_base (port : nat) : Z := GPIOA_BASE + 0x0400 * Z.of_nat port.
Definition GET_PIN (port : nat) (PIN : Z) : Z := 16 * ((port_base port - GPIOA_BASE) / 0x0400) + PIN.

Record pin_index := mkPin { pi_index : Z; pi_gpio : nat; pi_pin : Z }.
Definition __STM32_PIN (index : Z) (gpio : nat) (gpio_index : Z) : pin_index := mkPin index gpio (GPIO_PIN gpio_index).

Definition pins : list pin_index := [
  __STM32_PIN 0 GPIOA 0; __STM32_PIN 1 GPIOA 1; __STM32_PIN 2 GPIOA 2; __STM32_PIN 3 GPIOA 3;
  __STM32_PIN 4 GPIOA 4; __STM32_PIN 5 GPIOA 5; __STM32_PIN 6 GPIOA 6; __STM32_PIN 7 GPIOA 7;
  __STM32_PIN 8 GPIOA 8; __STM32_PIN 9 GPIOA 9; __STM32_PIN 10 GPIOA 10; __STM32_PIN 11 GPIOA 11;
  __STM32_PIN 12 GPIOA 12; __STM32_PIN 13 GPIOA 13; __STM32_PIN 14 GPIOA 14; __STM32_PIN 15 GPIOA 15;
  __STM32_PIN 16 GPIOB 0; __STM32_PIN 17 GPIOB 1; __STM32_PIN 18 GPIOB 2; __STM32_PIN 19 GPIOB 3;
  __STM32_PIN 20 GPIOB 4; __STM32_PIN 21 GPIOB 5; __STM32_PIN 22 GPIOB 6; __STM32_PIN 23 GPIOB 7;
  __STM32_PIN 24 GPIOB 8; __STM32_PIN 25 GPIOB 9; __STM32_PIN 26 GPIOB 10; __STM32_PIN 27 GPIOB 11;
  __STM32_PIN 28 GPIOB 12; __STM32_PIN 29 GPIOB 13; __STM32_PIN 30 GPIOB 14; __STM32_PIN 31 GPIOB 15;
  __STM32_PIN 32 GPIOC 0; __STM32_PIN 33 GPIOC 1; __STM32_PIN 34 GPIOC 2; __STM32_PIN 35 GPIOC 3;
  __STM32_PIN 36 GPIOC 4; __STM32_PIN 37 GPIOC 5; __STM32_PIN 38 GPIOC 6; __STM32_PIN 39 GPIOC 7;
  __STM32_PIN 40 GPIOC 8; __STM32_PIN 41 GPIOC 9; __STM32_PIN 42 GPIOC 10; __STM32_PIN 43 GPIOC 11;
  __STM32_PIN 44 GPIOC 12; __STM32_PIN 45 GPIOC 13; __STM32_PIN 46 GPIOC 14; __STM32_PIN 47 GPIOC 15;
  __STM32_PIN 48 GPIOD 0; __STM32_PIN 49 GPIOD 1; __STM32_PIN 50 GPIOD 2; __STM32_PIN 51 GPIOD 3;
  __STM32_PIN 52 GPIOD 4; __STM32_PIN 53 GPIOD 5; __STM32_PIN 54 GPIOD 6; __STM32_PIN 55 GPIOD 7;
  __STM32_PIN 56 GPIOD 8; __STM32_PIN 57 GPIOD 9; __STM32_PIN 58 GPIOD 10; __STM32_PIN 59 GPIOD 11;
  __STM32_PIN 60 GPIOD 12; __STM32_PIN 61 GPIOD 13; __STM32_PIN 62 GPIOD 14; __STM32_PIN 63 GPIOD 15;
  __STM32_PIN 64 GPIOE 0; __STM32_PIN 65 GPIOE 1; __STM32_PIN 66 GPIOE 2; __STM32_PIN 67 GPIOE 3;
  __STM32_PIN 68 GPIOE 4; __STM32_PIN 69 GPIOE 5; __STM32_PIN 70 GPIOE 6; __STM32_PIN 71 GPIOE 7;
  __STM32_PIN 72 GPIOE 8; __STM32_PIN 73 GPIOE 9; __STM32_PIN 74 GPIOE 10; __STM32_PIN 75 GPIOE 11;
  __STM32_PIN 76 GPIOE 12; __STM32_PIN 77 GPIOE 13; __STM32_PIN 78 GPIOE 14; __STM32_PIN 79 GPIOE 15;
  __STM32_PIN 80 GPIOF 0; __STM32_PIN 81 GPIOF 1; __STM32_PIN 82 GPIOF 2; __STM32_PIN 83 GPIOF 3;
  __STM32_PIN 84 GPIOF 4; __STM32_PIN 85 GPIOF 5; __STM32_PIN 86 GPIOF 6; __STM32_PIN 87 GPIOF 7;
  __STM32_PIN 88 GPIOF 8; __STM32_PIN 89 GPIOF 9; __STM32_PIN 90 GPIOF 10; __STM32_PIN 91 GPIOF 11;
  __STM32_PIN 92 GPIOF 12; __STM32_PIN 93 GPIOF 13; __STM32_PIN 94 GPIOF 14; __STM32_PIN 95 GPIOF 15;
  __STM32_PIN 96 GPIOG 0; __STM32_PIN 97 GPIOG 1; __STM32_PIN 98 GPIOG 2; __STM32_PIN 99 GPIOG 3;
  __STM32_PIN 100 GPIOG 4; __STM32_PIN 101 GPIOG 5; __STM32_PIN 102 GPIOG 6; __STM32_PIN 103 GPIOG 7;
  __STM32_PIN 104 GPIOG 8; __STM32_PIN 105 GPIOG 9; __STM32_PIN 106 GPIOG 10; __STM32_PIN 107 GPIOG 11;
  __STM32_PIN 108 GPIOG 12; __STM32_PIN 109 GPIOG 13; __STM32_PIN 110 GPIOG 14; __STM32_PIN 111 GPIOG 15;
  __STM32_PIN 112 GPIOH 0; __STM32_PIN 113 GPIOH 1; __STM32_PIN 114 GPIOH 2; __STM32_PIN 115 GPIOH 3;
  __STM32_PIN 116 GPIOH 4; __STM32_PIN 117 GPIOH 5; __STM32_PIN 118 GPIOH 6; __STM32_PIN 119 GPIOH 7;
  __STM32_PIN 120 GPIOH 8; __STM32_PIN 121 GPIOH 9; __STM32_PIN 122 GPIOH 10; __STM32_PIN 123 GPIOH 11;
  __STM32_PIN 124 GPIOH 12; __STM32_PIN 125 GPIOH 13; __STM32_PIN 126 GPIOH 14; __STM32_PIN 127 GPIOH 15;
  __STM32_PIN 128 GPIOI 0; __STM32_PIN 129 GPIOI 1; __STM32_PIN 130 GPIOI 2; __STM32_PIN 131 GPIOI 3;
  __STM32_PIN 132 GPIOI 4; __STM32_PIN 133 GPIOI 5; __STM32_PIN 134 GPIOI 6; __STM32_PIN 135 GPIOI 7;
  __STM32_PIN 136 GPIOI 8; __STM32_PIN 137 GPIOI 9; __STM32_PIN 138 GPIOI 10; __STM32_PIN 139 GPIOI 11;
  __STM32_PIN 140 GPIOI 12; __STM32_PIN 141 GPIOI 13; __STM32_PIN 142 GPIOI 14; __STM32_PIN 143 GPIOI 15;
  __STM32_PIN 144 GPIOJ 0; __STM32_PIN 145 GPIOJ 1; __STM32_PIN 146 GPIOJ 2; __STM32_PIN 147 GPIOJ 3;
  __STM32_PIN 148 GPIOJ 4; __STM32_PIN 149 GPIOJ 5; __STM32_PIN 150 GPIOJ 6; __STM32_PIN 151 GPIOJ 7;
  __STM32_PIN 152 GPIOJ 8; __STM32_PIN 153 GPIOJ 9; __STM32_PIN 154 GPIOJ 10; __STM32_PIN 155 GPIOJ 11;
  __STM32_PIN 156 GPIOJ 12; __STM32_PIN 157 GPIOJ 13; __STM32_PIN 158 GPIOJ 14; __STM32_PIN 159 GPIOJ 15;
  __STM32_PIN 160 GPIOK 0; __STM32_PIN 161 GPIOK 1; __STM32_PIN 162 GPIOK 2; __STM32_PIN 163 GPIOK 3;
  __STM32_PIN 164 GPIOK 4; __STM32_PIN 165 GPIOK 5; __STM32_PIN 166 GPIOK 6; __STM32_PIN 167 GPIOK 7;
  __STM32_PIN 168 GPIOK 8; __STM32_PIN 169 GPIOK 9; __STM32_PIN 170 GPIOK 10; __STM32_PIN 171 GPIOK 11;
  __STM32_PIN 172 GPIOK 12; __STM32_PIN 173 GPIOK 13; __STM32_PIN 174 GPIOK 14; __STM32_PIN 175 GPIOK 15
].

(** struct pin_irq_map *)
Definition EXTI0_IRQn : Z := 6.
Definition EXTI1_IRQn : Z := 7.
Definition EXTI2_IRQn : Z := 8.
Definition EXTI3_IRQn : Z := 9.
Definition EXTI4_IRQn : Z := 10.
Definition EXTI9_5_IRQn : Z := 23.
Definition EXTI15_10_IRQn : Z := 40.
Definition pin_irq_map : list (Z * Z) := [
  (GPIO_PIN 0, EXTI0_IRQn); (GPIO_PIN 1, EXTI1_IRQn); (GPIO_PIN 2, EXTI2_IRQn); (GPIO_PIN 3, EXTI3_IRQn); (GPIO_PIN 4, EXTI4_IRQn);
  (GPIO_PIN 5, EXTI9_5_IRQn); (GPIO_PIN 6, EXTI9_5_IRQn); (GPIO_PIN 7, EXTI9_5_IRQn); (GPIO_PIN 8, EXTI9_5_IRQn); (GPIO_PIN 9, EXTI9_5_IRQn);
  (GPIO_PIN 10, EXTI15_10_IRQn); (GPIO_PIN 11, EXTI15_10_IRQn); (GPIO_PIN 12, EXTI15_10_IRQn);
  (GPIO_PIN 13, EXTI15_10_IRQn); (GPIO_PIN 14, EXTI15_10_IRQn); (GPIO_PIN 15, EXTI15_10_IRQn)].

(** struct rt_pin_irq_hdr *)
Record rt_pin_irq_hdr := mkHdr { h_pin : Z; h_mode : Z; h_hdr : option positive; h_args : Z }.
#[global] Instance hdr_dec : EqDecision rt_pin_irq_hdr.
Proof. solve_decision. Defined.
Definition no_hdr : rt_pin_irq_hdr := mkHdr (-1) 0 None 0.

(** pin_irq_hdr_tab, pin_irq_enable_mask and the chip *)
Record pin_state := mkPins { p_chip : chip; pin_irq_hdr_tab : list rt_pin_irq_hdr; pin_irq_enable_mask : Z }.
Definition set_chip (c : chip) (s : pin_state) : pin_state := mkPins c (pin_irq_hdr_tab s) (pin_irq_enable_mask s).
Definition set_tab (f : list rt_pin_irq_hdr -> list rt_pin_irq_hdr) (s : pin_state) : pin_state := mkPins (p_chip s) (f (pin_irq_hdr_tab s)) (pin_irq_enable_mask s).
Definition set_mask (f : Z -> Z) (s : pin_state) : pin_state := mkPins (p_chip s) (pin_irq_hdr_tab s) (f (pin_irq_enable_mask s)).

Definition get_pin (pin : Z) : option pin_index :=
  let pin := u8 pin in
  if pin <? Z.of_nat (length pins) then
    index ← pins !! Z.to_nat pin; if pi_index index =? -1 then None else Some index
  else None.

(** The loop of [bit2bitno]; [1 << 31] compares as an unsigned number. *)
Fixpoint bit_loop (n : nat) (i bit : Z) : Z :=
  match n with O => -1 | S n => if u32 (Z.shiftl 0x01 i) =? bit then i else bit_loop n (i + 1) bit end.
Definition bit2bitno (bit : Z) : Z := bit_loop 32 0 bit.
Definition get_pin_irq_map (pinbit : Z) : option (Z * Z) :=
  let mapindex := bit2bitno pinbit in
  if (mapindex <? 0) || (mapindex >=? Z.of_nat (length pin_irq_map)) then None else pin_irq_map !! Z.to_nat mapindex.

Section board.
Context {S : Type} `{!chip_writes} (handler : positive -> Z -> M S unit) (rt_interrupt_enter rt_interrupt_leave : M S unit).

Abbreviation P := (M (pin_state * S)).
Definition hal {A} (m : G A) : P A := fun s =>
  match m (p_chip s.1) with Some (a, c) => Some (a, (set_chip c s.1, s.2)) | None => None end.
Definition app {A} (m : M S A) : P A := fun s => match m s.2 with Some (a, t) => Some (a, (s.1, t)) | None => None end.
Definition on_pins (f : pin_state -> pin_state) : P unit := modify (fun s => (f s.1, s.2)).

Definition stm32_pin_write (pin value : Z) : P unit :=
  match get_pin pin with None => mret tt | Some index => hal (HAL_GPIO_WritePin (pi_gpio index) (pi_pin index) value) end.
Definition stm32_pin_read (pin : Z) : P Z :=
  match get_pin pin with
  | None => mret PIN_LOW
  | Some index => v ← hal (HAL_GPIO_ReadPin (pi_gpio index) (pi_pin index)); mret (Z.b2z v)
  end.

(** The mode and pull of a pin's mode; Alternate is not set and not read. *)
Definition mode_and_pull (mode : Z) : Z * Z :=
  if mode =? PIN_MODE_OUTPUT then (GPIO_MODE_OUTPUT_PP, GPIO_NOPULL)
  else if mode =? PIN_MODE_INPUT then (GPIO_MODE_INPUT, GPIO_NOPULL)
  else if mode =? PIN_MODE_INPUT_PULLUP then (GPIO_MODE_INPUT, GPIO_PULLUP)
  else if mode =? PIN_MODE_INPUT_PULLDOWN then (GPIO_MODE_INPUT, GPIO_PULLDOWN)
  else if mode =? PIN_MODE_OUTPUT_OD then (GPIO_MODE_OUTPUT_OD, GPIO_NOPULL)
  else (GPIO_MODE_OUTPUT_PP, GPIO_NOPULL).
Definition stm32_pin_mode (pin mode : Z) : P unit :=
  match get_pin pin with
  | None => mret tt
  | Some index =>
      let '(m, pull) := mode_and_pull mode in
      hal (HAL_GPIO_Init (pi_gpio index) (mkInit (pi_pin index) m pull GPIO_SPEED_FREQ_HIGH 0))
  end.

(** The line of a pin: [irqindex]. *)
Definition irqindex_of (index : pin_index) : option Z :=
  let irqindex := bit2bitno (pi_pin index) in
  if (irqindex <? 0) || (irqindex >=? Z.of_nat (length pin_irq_map)) then None else Some irqindex.
Definition get_hdr (irqindex : Z) : P rt_pin_irq_hdr := deref (fun s => pin_irq_hdr_tab s.1 !! Z.to_nat irqindex).
Definition put_hdr (irqindex : Z) (h : rt_pin_irq_hdr) : P unit := on_pins (set_tab <[Z.to_nat irqindex := h]>).

Definition stm32_pin_attach_irq (pin mode : Z) (hdr : option positive) (args : Z) : P Z :=
  match get_pin pin ≫= irqindex_of with
  | None => mret RT_ENOSYS
  | Some irqindex =>
      h ← get_hdr irqindex;
      if (h_pin h =? pin) && bool_decide (h_hdr h = hdr) && (h_mode h =? mode) && (h_args h =? args) then mret RT_EOK
      else if negb (h_pin h =? -1) then mret RT_EBUSY
      else put_hdr irqindex (mkHdr (i16 pin) (u16 mode) hdr args) ;; mret RT_EOK
  end.

Definition stm32_pin_dettach_irq (pin : Z) : P Z :=
  match get_pin pin ≫= irqindex_of with
  | None => mret RT_ENOSYS
  | Some irqindex =>
      h ← get_hdr irqindex;
      if h_pin h =? -1 then mret RT_EOK else put_hdr irqindex no_hdr ;; mret RT_EOK
  end.

(** The switch of [stm32_pin_irq_enable], the mode and the pull: without a case for the other
    modes, which leaves both unset. *)
Definition irq_mode_and_pull (mode : Z) : option (Z * Z) :=
  if mode =? PIN_IRQ_MODE_RISING then Some (GPIO_MODE_IT_RISING, GPIO_PULLDOWN)
  else if mode =? PIN_IRQ_MODE_FALLING then Some (GPIO_MODE_IT_FALLING, GPIO_PULLUP)
  else if mode =? PIN_IRQ_MODE_RISING_FALLING then Some (GPIO_MODE_IT_RISING_FALLING, GPIO_NOPULL)
  else None.

Definition irq_on (index : pin_index) : P Z :=
  match irqindex_of index with
  | None => mret RT_ENOSYS
  | Some irqindex =>
      h ← get_hdr irqindex;
      if h_pin h =? -1 then mret RT_ENOSYS
      else
        irqmap ← deref (fun _ => pin_irq_map !! Z.to_nat irqindex);
        mp ← deref (fun _ => irq_mode_and_pull (h_mode h));
        hal (HAL_GPIO_Init (pi_gpio index) (mkInit (pi_pin index) mp.1 mp.2 GPIO_SPEED_FREQ_HIGH 0)) ;;
        hal (HAL_NVIC_SetPriority irqmap.2 5 0) ;;
        hal (HAL_NVIC_EnableIRQ irqmap.2) ;;
        on_pins (set_mask (fun m => Z.lor m irqmap.1)) ;;
        mret RT_EOK
  end.

(** GPIO_PIN_5|...|GPIO_PIN_9 and GPIO_PIN_10|...|GPIO_PIN_15 *)
Definition PINS_9_5 : Z := 0x03E0.
Definition PINS_15_10 : Z := 0xFC00.
Definition irq_off (index : pin_index) : P Z :=
  match get_pin_irq_map (pi_pin index) with
  | None => mret RT_ENOSYS
  | Some (pinbit, irqno) =>
      hal (HAL_GPIO_DeInit (pi_gpio index) (pi_pin index)) ;;
      on_pins (set_mask (fun m => Z.land m (Z.lnot pinbit))) ;;
      m ← gets (fun s => pin_irq_enable_mask s.1);
      (if (pinbit >=? GPIO_PIN 5) && (pinbit <=? GPIO_PIN 9) then when (Z.land m PINS_9_5 =? 0) (hal (HAL_NVIC_DisableIRQ irqno))
       else if (pinbit >=? GPIO_PIN 10) && (pinbit <=? GPIO_PIN 15) then when (Z.land m PINS_15_10 =? 0) (hal (HAL_NVIC_DisableIRQ irqno))
       else hal (HAL_NVIC_DisableIRQ irqno)) ;;
      mret RT_EOK
  end.

Definition stm32_pin_irq_enable (pin enabled : Z) : P Z :=
  match get_pin pin with
  | None => mret RT_ENOSYS
  | Some index =>
      if enabled =? PIN_IRQ_ENABLE then irq_on index
      else if enabled =? PIN_IRQ_DISABLE then irq_off index
      else mret (- RT_ENOSYS)
  end.

Definition _stm32_pin_ops : rt_pin_ops (pin_state * S) :=
  mkPinOps stm32_pin_mode stm32_pin_write stm32_pin_read (Some stm32_pin_attach_irq) (Some stm32_pin_dettach_irq) (Some stm32_pin_irq_enable) None.

(** ** The interrupts *)

Definition pin_irq_hdr (irqno : Z) : P unit :=
  h ← get_hdr irqno;
  match h_hdr h with Some f => app (handler f (h_args h)) | None => mret tt end.
Definition HAL_GPIO_EXTI_Callback (GPIO_Pin : Z) : P unit := pin_irq_hdr (bit2bitno GPIO_Pin).

(** The lines of one interrupt. *)
Fixpoint exti_lines (lines : list Z) : P unit :=
  match lines with [] => mret tt | n :: lines => HAL_GPIO_EXTI_IRQHandler (@hal) HAL_GPIO_EXTI_Callback (GPIO_PIN n) ;; exti_lines lines end.
Definition irq_handler (lines : list Z) : P unit := app rt_interrupt_enter ;; exti_lines lines ;; app rt_interrupt_leave.

Definition EXTI0_IRQHandler : P unit := irq_handler [0].
Definition EXTI1_IRQHandler : P unit := irq_handler [1].
Definition EXTI2_IRQHandler : P unit := irq_handler [2].
Definition EXTI3_IRQHandler : P unit := irq_handler [3].
Definition EXTI4_IRQHandler : P unit := irq_handler [4].
Definition EXTI9_5_IRQHandler : P unit := irq_handler [5; 6; 7; 8; 9].
Definition EXTI15_10_IRQHandler : P unit := irq_handler [10; 11; 12; 13; 14; 15].

End board.

(** ** The table of the pins *)

Definition pin_row_ok (n : nat) : bool :=
  match pins !! n with
  | Some r => bool_decide (pi_index r = Z.of_nat n) && bool_decide (pi_gpio r = (n / 16)%nat) && bool_decide (pi_pin r = 2 ^ Z.of_nat (n mod 16)) &&
      bool_decide (irqindex_of r = Some (Z.of_nat (n mod 16)))
  | None => false
  end.
Lemma pins_rows : forallb pin_row_ok (seq 0 176) = true.
Proof. by vm_compute. Qed.
Lemma pins_length : length pins = 176%nat.
Proof. done. Qed.
Lemma pins_row n : (n < 176)%nat -> exists r, pins !! n = Some r /\ pi_index r = Z.of_nat n /\ pi_gpio r = (n / 16)%nat /\
  pi_pin r = 2 ^ Z.of_nat (n mod 16) /\ irqindex_of r = Some (Z.of_nat (n mod 16)).
Proof.
  intros Hn. pose proof pins_rows as Hall. rewrite forallb_forall in Hall. specialize (Hall n). rewrite in_seq in Hall.
  specialize (Hall ltac:(lia)). unfold pin_row_ok in Hall. destruct (pins !! n) as [r|]; [|done]. exists r.
  rewrite !andb_true_iff, !bool_decide_eq_true in Hall. tauto.
Qed.

(** The pin [n] of a port, as the board numbers them. *)
Definition pin_at (port : nat) (n : Z) : pin_index := mkPin (16 * Z.of_nat port + n) port (2 ^ n).
Lemma get_pin_spec pin r : get_pin pin = Some r -> exists port n, (port < 11)%nat /\ 0 <= n < 16 /\ r = pin_at port n /\
  u8 pin = 16 * Z.of_nat port + n /\ irqindex_of r = Some n.
Proof.
  unfold get_pin. rewrite pins_length. destruct (Z.ltb_spec (u8 pin) (Z.of_nat 176)) as [H|H]; [|done].
  pose proof (wrap_range 8 pin ltac:(lia)). destruct (pins_row (Z.to_nat (u8 pin)) ltac:(lia)) as (x & -> & E1 & E2 & E3 & E4). cbn.
  intros E. rewrite (proj2 (Z.eqb_neq _ _)) in E by lia. injection E as <-.
  pose proof (Nat.mod_upper_bound (Z.to_nat (u8 pin)) 16 ltac:(lia)). pose proof (Nat.div_mod_eq (Z.to_nat (u8 pin)) 16).
  exists (Z.to_nat (u8 pin) / 16)%nat, (Z.of_nat (Z.to_nat (u8 pin) mod 16)). split; [apply Nat.Div0.div_lt_upper_bound; lia|]. split; [lia|].
  destruct x as [a b c]. cbn in *. subst. split; [|split; [lia|done]]. unfold pin_at. f_equal. lia.
Qed.
Lemma get_pin_at port n : (port < 11)%nat -> 0 <= n < 16 -> get_pin (GET_PIN port n) = Some (pin_at port n) /\ irqindex_of (pin_at port n) = Some n.
Proof.
  intros Hp Hn. assert (EG : GET_PIN port n = 16 * Z.of_nat port + n).
  { unfold GET_PIN, port_base. rewrite Z.add_simpl_l, (Z.mul_comm 1024), Z.div_mul by lia. done. }
  assert (Eu : u8 (GET_PIN port n) = 16 * Z.of_nat port + n) by (rewrite EG; apply wrap_small; change (2 ^ 8) with 256; lia).
  assert (Hrow : exists r, get_pin (GET_PIN port n) = Some r).
  { unfold get_pin. rewrite Eu, pins_length, (proj2 (Z.ltb_lt _ _)) by lia.
    destruct (pins_row (Z.to_nat (16 * Z.of_nat port + n)) ltac:(lia)) as (x & -> & E1 & _). exists x. cbn. by rewrite (proj2 (Z.eqb_neq _ _)) by lia. }
  destruct Hrow as [r Hr]. destruct (get_pin_spec _ _ Hr) as (port' & n' & Hp' & Hn' & -> & E & Hi).
  assert (port' = port /\ n' = n) as [-> ->] by lia. done.
Qed.

Definition irqno (n : Z) : Z := (pin_irq_map !!! Z.to_nat n).2.
Lemma pin_irq_map_row n : 0 <= n < 16 -> pin_irq_map !! Z.to_nat n = Some (2 ^ n, irqno n) /\ get_pin_irq_map (2 ^ n) = Some (2 ^ n, irqno n) /\ bit2bitno (2 ^ n) = n.
Proof.
  intros Hn. assert (Hall : forallb (fun k => bool_decide (pin_irq_map !! k = Some (2 ^ Z.of_nat k, irqno (Z.of_nat k))) &&
    bool_decide (get_pin_irq_map (2 ^ Z.of_nat k) = Some (2 ^ Z.of_nat k, irqno (Z.of_nat k))) && bool_decide (bit2bitno (2 ^ Z.of_nat k) = Z.of_nat k)) (seq 0 16) = true) by (by vm_compute).
  rewrite forallb_forall in Hall. specialize (Hall (Z.to_nat n)). rewrite in_seq in Hall. specialize (Hall ltac:(lia)).
  rewrite !andb_true_iff, !bool_decide_eq_true, Z2Nat.id in Hall by lia. tauto.
Qed.
Lemma GPIO_PIN_eq n : 0 <= n -> GPIO_PIN n = 2 ^ n.
Proof. intros. unfold GPIO_PIN. by rewrite Z.shiftl_1_l. Qed.

(** ** What holds of the pins *)

Record pin_inv (s : pin_state) : Prop := {
  pv_chip : chip_ok (p_chip s);
  pv_tab : length (pin_irq_hdr_tab s) = 16%nat;
  pv_mask : 0 <= pin_irq_enable_mask s < 2 ^ 16;
  pv_line : forall n, 0 <= n < 16 -> Z.testbit (pin_irq_enable_mask s) n = true -> l_irq (line_of (c_exti (p_chip s)) n) = true;
  pv_on : forall n, 0 <= n < 16 -> Z.testbit (pin_irq_enable_mask s) n = true -> irqno n ∈ c_nvic (p_chip s);
  pv_off : forall n, 0 <= n < 16 -> irqno n ∈ c_nvic (p_chip s) -> exists k, 0 <= k < 16 /\ irqno k = irqno n /\ Z.testbit (pin_irq_enable_mask s) k = true
}.

Section board_proofs.
Context {S : Type} `{!chip_writes}.
Implicit Types (s : pin_state * S).

Lemma wp_hal {A} (m : G A) (Q : A -> pin_state * S -> Prop) s :
  wp m (fun a c => Q a (set_chip c s.1, s.2)) (p_chip s.1) -> wp (hal m) Q s.
Proof. unfold wp, hal. by destruct (m (p_chip s.1)) as [[a c]|]. Qed.
Lemma wp_get_hdr n (Q : rt_pin_irq_hdr -> pin_state * S -> Prop) s : pin_inv s.1 -> 0 <= n < 16 ->
  (forall h, pin_irq_hdr_tab s.1 !! Z.to_nat n = Some h -> Q h s) -> wp (get_hdr n) Q s.
Proof.
  intros Hi Hn HQ. destruct (lookup_lt_is_Some_2 (pin_irq_hdr_tab s.1) (Z.to_nat n)) as [h Hh]; [rewrite (pv_tab _ Hi); lia|].
  eapply wp_deref; [exact Hh|by apply HQ].
Qed.

Lemma inv_put_hdr n h x : pin_inv x -> pin_inv (set_tab <[n := h]> x).
Proof. intros [H1 H2 H3 H4 H5 H6]. split; try done. cbn. by rewrite length_insert. Qed.

(** ** Attaching *)

Lemma wp_attach pin mode hdr args (Q : Z -> pin_state * S -> Prop) s : pin_inv s.1 ->
  (get_pin pin = None -> Q RT_ENOSYS s) ->
  (forall port n h, (port < 11)%nat -> 0 <= n < 16 -> get_pin pin = Some (pin_at port n) -> pin_irq_hdr_tab s.1 !! Z.to_nat n = Some h ->
     (h = mkHdr pin mode hdr args -> Q RT_EOK s) /\
     (h ≠ mkHdr pin mode hdr args -> h_pin h ≠ -1 -> Q RT_EBUSY s) /\
     (h ≠ mkHdr pin mode hdr args -> h_pin h = -1 -> Q RT_EOK (set_tab <[Z.to_nat n := mkHdr (i16 pin) (u16 mode) hdr args]> s.1, s.2))) ->
  wp (stm32_pin_attach_irq pin mode hdr args) Q s.
Proof.
  intros Hi Hno Hyes. unfold stm32_pin_attach_irq. destruct (get_pin pin) as [r|] eqn:Er; [|by apply Hno]. cbn.
  destruct (get_pin_spec _ _ Er) as (port & n & Hp & Hn & -> & _ & ->). wp_step. apply wp_get_hdr; [done|done|]. intros h Hh.
  destruct (Hyes port n h Hp Hn eq_refl Hh) as (Q1 & Q2 & Q3). destruct h as [p m f a]. cbn [h_pin h_mode h_hdr h_args] in *.
  destruct (bool_decide (mkHdr p m f a = mkHdr pin mode hdr args)) eqn:Eh.
  - apply bool_decide_eq_true in Eh. injection Eh as -> -> -> ->. rewrite !Z.eqb_refl, bool_decide_eq_true_2 by done. by apply Q1.
  - apply bool_decide_eq_false in Eh.
    assert ((p =? pin) && bool_decide (f = hdr) && (m =? mode) && (a =? args) = false) as ->.
    { apply not_true_iff_false. rewrite !andb_true_iff, !Z.eqb_eq, bool_decide_eq_true. intros (((-> & ->) & ->) & ->). by apply Eh. }
    destruct (Z.eqb_spec p (-1)) as [Hm|Hm]; cbn [negb]; [|by apply Q2]. wp_step. unfold put_hdr, on_pins. wp_step. by apply Q3.
Qed.

(** ** Enabling and disabling *)

Lemma acts_pow2 port n u v m : 0 <= n < 16 -> acts port (masked (2 ^ n) 0 u) (masked (2 ^ n) 0 v) m ->
  forall c, chip_ok c -> wp m (fun _ => changes port (at_pin n u) (at_pin n v) c) c.
Proof.
  intros Hn Ha. assert (Hm : forall A (f : A -> A) p x, 0 <= p < 16 -> masked (2 ^ n) 0 f p x = at_pin n f p x).
  { intros A f p x Hp. unfold masked, at_pin. rewrite (proj2 (Z.leb_le 0 p)), pow2_testbit by lia. cbn [andb].
    case_bool_decide; case_decide; congruence. }
  intros c Hc. eapply wp_mono; [|by apply Ha]. intros [] c' [A1 A2 A3 A4]. split; [done| | |done].
  - intros q r Hr. destruct (A2 q r Hr) as (r' & Hr' & I & O & C). exists r'. do 3 (split; [done|]). intros p Hp. rewrite C by done. by rewrite Hm.
  - intros p Hp. rewrite A3 by done. by rewrite Hm.
Qed.

Definition init_of (n m pull : Z) : GPIO_InitTypeDef := mkInit (2 ^ n) m pull GPIO_SPEED_FREQ_HIGH 0.
Lemma init_of_ok n m pull : 0 <= n < 16 -> 0 <= pull < 4 -> init_ok (init_of n m pull).
Proof.
  intros Hn Hp. split; cbn [init_of Pin Pull Speed Alternate]; unfold GPIO_SPEED_FREQ_HIGH; try lia. by apply pow2_bound.
Qed.
Lemma wp_init port n m pull (Q : unit -> pin_state * S -> Prop) s : (port < 11)%nat -> 0 <= n < 16 -> 0 <= pull < 4 -> pin_inv s.1 ->
  (forall c, changes port (at_pin n (cfg_init (init_of n m pull))) (at_pin n (line_init port (init_of n m pull))) (p_chip s.1) c ->
     Q tt (set_chip c s.1, s.2)) ->
  wp (hal (HAL_GPIO_Init port (init_of n m pull))) Q s.
Proof.
  intros Hp Hn Hpull Hi HQ. apply wp_hal. eapply wp_mono; [|apply (acts_pow2 port n)]; [|done|by apply (init_acts port (init_of n m pull)), init_of_ok|apply Hi].
  intros [] c. apply HQ.
Qed.

(** The modes there are *)
Lemma irq_modes m mp : irq_mode_and_pull m = Some mp -> 0 <= mp.2 < 4 /\ has_mode mp.1 EXTI_MODE = true /\ has_mode mp.1 GPIO_MODE_IT = true /\
  has_mode mp.1 RISING_EDGE = (m =? PIN_IRQ_MODE_RISING) || (m =? PIN_IRQ_MODE_RISING_FALLING) /\
  has_mode mp.1 FALLING_EDGE = (m =? PIN_IRQ_MODE_FALLING) || (m =? PIN_IRQ_MODE_RISING_FALLING).
Proof.
  unfold irq_mode_and_pull. destruct (Z.eqb_spec m PIN_IRQ_MODE_RISING) as [->|]; [intros [= <-]; repeat split; done|].
  destruct (Z.eqb_spec m PIN_IRQ_MODE_FALLING) as [->|]; [intros [= <-]; repeat split; done|].
  destruct (Z.eqb_spec m PIN_IRQ_MODE_RISING_FALLING) as [->|]; [intros [= <-]; repeat split; done|]. done.
Qed.

(** The state after enabling: the line is the pin's, for the edges of its mode. *)
Definition enabled_state (n : Z) (c : chip) (x : pin_state) : pin_state :=
  mkPins (set_nvic (fun irqs => {[ irqno n ]} ∪ irqs) (set_priority <[irqno n := (5, 0)]> c)) (pin_irq_hdr_tab x) (Z.lor (pin_irq_enable_mask x) (2 ^ n)).

Lemma enabled_inv port n m pull c x : 0 <= n < 16 -> pin_inv x -> has_mode m EXTI_MODE = true -> has_mode m GPIO_MODE_IT = true ->
  changes port (at_pin n (cfg_init (init_of n m pull))) (at_pin n (line_init port (init_of n m pull))) (p_chip x) c ->
  pin_inv (enabled_state n c x).
Proof.
  intros Hn [H1 H2 H3 H4 H5 H6] He Hit [A1 A2 A3 (A4 & A5 & A6)]. split; cbn [enabled_state p_chip pin_irq_hdr_tab pin_irq_enable_mask set_nvic set_priority c_exti c_nvic]; [by destruct A1|done| | | |].
  - apply lor_bound; [lia|done|by apply pow2_bound].
  - intros k Hk. rewrite testbit_set by lia. intros Hb. rewrite A3 by done. unfold at_pin. destruct (decide (k = n)) as [E|E].
    + unfold line_init. cbn [init_of Mode]. rewrite He. exact Hit.
    + rewrite bool_decide_eq_false_2, orb_false_r in Hb by congruence. by apply H4.
  - intros k Hk. rewrite testbit_set by lia. case_bool_decide as E; [subst; set_solver|]. rewrite orb_false_r, A5. intros Hb.
    specialize (H5 k Hk Hb). set_solver.
  - intros k Hk. rewrite elem_of_union, elem_of_singleton, A5. intros [E|Hin].
    + exists n. split; [done|]. split; [done|]. rewrite testbit_set, bool_decide_eq_true_2, orb_true_r by lia. done.
    + destruct (H6 k Hk Hin) as (j & Hj & E & Hb). exists j. split; [done|]. split; [done|]. rewrite testbit_set by lia. by rewrite Hb.
Qed.

Lemma wp_irq_on port n (Q : Z -> pin_state * S -> Prop) s h : (port < 11)%nat -> 0 <= n < 16 -> pin_inv s.1 ->
  pin_irq_hdr_tab s.1 !! Z.to_nat n = Some h ->
  (h_pin h = -1 -> Q RT_ENOSYS s) ->
  (h_pin h ≠ -1 -> exists mp, irq_mode_and_pull (h_mode h) = Some mp /\ forall c,
     changes port (at_pin n (cfg_init (init_of n mp.1 mp.2))) (at_pin n (line_init port (init_of n mp.1 mp.2))) (p_chip s.1) c ->
     pin_inv (enabled_state n c s.1) -> Q RT_EOK (enabled_state n c s.1, s.2)) ->
  wp (irq_on (pin_at port n)) Q s.
Proof.
  intros Hp Hn Hi Hh Hno Hyes. unfold irq_on.
  assert (irqindex_of (pin_at port n) = Some n) as ->.
  { unfold irqindex_of. cbn [pin_at pi_pin]. destruct (pin_irq_map_row n Hn) as (_ & _ & ->). rewrite (proj2 (Z.ltb_ge _ _)) by lia.
    rewrite Z.geb_leb, (proj2 (Z.leb_gt _ _)); [done|]. change (Z.of_nat (length pin_irq_map)) with 16. lia. }
  wp_step. apply wp_get_hdr; [done|done|]. intros h' Hh'. assert (h' = h) as -> by congruence.
  destruct (Z.eqb_spec (h_pin h) (-1)) as [E|E]; [by apply Hno|]. destruct (Hyes E) as (mp & Em & HQ).
  wp_step. wp_step; [apply (pin_irq_map_row n Hn)|]. wp_step. wp_step; [exact Em|]. wp_step.
  destruct (irq_modes _ _ Em) as (P1 & P2 & P3 & _ & _).
  apply (wp_init port n mp.1 mp.2); [done|done|done|done|]. intros c Hc.
  wp_step. apply wp_hal. unfold HAL_NVIC_SetPriority. wp_step. wp_step. apply wp_hal. unfold HAL_NVIC_EnableIRQ. wp_step.
  wp_step. unfold on_pins. wp_step. wp_step. apply (HQ c); [done|]. by eapply enabled_inv.
Qed.

(** The lines that share the interrupt of line [n]. *)
Definition group (n : Z) : Z := if (5 <=? n) && (n <=? 9) then PINS_9_5 else if (10 <=? n) then PINS_15_10 else 2 ^ n.
Lemma group_bits n k : 0 <= n < 16 -> 0 <= k < 16 -> Z.testbit (group n) k = bool_decide (irqno k = irqno n).
Proof.
  intros Hn Hk. assert (Hall : forallb (fun a => forallb (fun b => eqb (Z.testbit (group (Z.of_nat a)) (Z.of_nat b))
    (bool_decide (irqno (Z.of_nat b) = irqno (Z.of_nat a)))) (seq 0 16)) (seq 0 16) = true) by (by vm_compute).
  rewrite forallb_forall in Hall. specialize (Hall (Z.to_nat n)). rewrite in_seq in Hall. specialize (Hall ltac:(lia)).
  rewrite forallb_forall in Hall. specialize (Hall (Z.to_nat k)). rewrite in_seq in Hall. specialize (Hall ltac:(lia)).
  rewrite !Z2Nat.id in Hall by lia. by apply eqb_prop in Hall.
Qed.
Lemma group_free m n : 0 <= n < 16 -> 0 <= m < 2 ^ 16 -> Z.land m (group n) = 0 <-> forall k, 0 <= k < 16 -> irqno k = irqno n -> Z.testbit m k = false.
Proof.
  intros Hn Hm. split.
  - intros E k Hk Ek. apply (f_equal (fun x => Z.testbit x k)) in E. rewrite Z.land_spec, group_bits, bool_decide_eq_true_2, Z.bits_0, andb_true_r in E by done. done.
  - intros Hf. apply Z.bits_inj'. intros k Hk. rewrite Z.land_spec, Z.bits_0. destruct (Z.ltb_spec k 16); [|by rewrite (bound_bits 16 m) by lia].
    rewrite group_bits by lia. case_bool_decide; [by rewrite Hf by lia|by rewrite andb_false_r].
Qed.

Lemma group_taken m n : 0 <= n < 16 -> 0 <= m < 2 ^ 16 -> Z.land m (group n) ≠ 0 -> exists k, 0 <= k < 16 /\ irqno k = irqno n /\ Z.testbit m k = true.
Proof.
  intros Hn Hm Hne. destruct (decide (Exists (fun k => irqno k = irqno n /\ Z.testbit m k = true) (seqZ 0 16))) as [Hx|Hx].
  - apply Exists_exists in Hx as (k & Hk%elem_of_seqZ & E & Hb). exists k. split; [lia|done].
  - destruct Hne. apply group_free; [done|done|]. intros k Hk E. apply not_true_iff_false. intros Hb. apply Hx, Exists_exists.
    exists k. split; [apply elem_of_seqZ; lia|done].
Qed.

(** The branches of [irq_off] come to one test. *)
Lemma off_branches {A} n m (x y : A) : 0 <= n < 16 -> Z.testbit m n = false ->
  (if (2 ^ n >=? GPIO_PIN 5) && (2 ^ n <=? GPIO_PIN 9) then if Z.land m PINS_9_5 =? 0 then x else y
   else if (2 ^ n >=? GPIO_PIN 10) && (2 ^ n <=? GPIO_PIN 15) then if Z.land m PINS_15_10 =? 0 then x else y else x) =
  if Z.land m (group n) =? 0 then x else y.
Proof.
  intros Hn Hb. rewrite !GPIO_PIN_eq, !Z.geb_leb by lia. unfold group.
  assert (Hle : forall a b, 0 <= a -> 0 <= b -> (2 ^ a <=? 2 ^ b) = (a <=? b)).
  { intros a b Ha Hb'. apply eq_iff_eq_true. rewrite !Z.leb_le. symmetry. apply Z.pow_le_mono_r_iff; lia. }
  rewrite !Hle by lia. destruct (Z.leb_spec 5 n), (Z.leb_spec n 9), (Z.leb_spec 10 n), (Z.leb_spec n 15); cbn [andb]; try lia; try done;
    rewrite (land_pow2 m n), Hb by lia; done.
Qed.

Definition disabled_state (n : Z) (c : chip) (x : pin_state) : pin_state :=
  let m := Z.land (pin_irq_enable_mask x) (Z.lnot (2 ^ n)) in
  mkPins (if Z.land m (group n) =? 0 then set_nvic (fun irqs => irqs ∖ {[ irqno n ]}) c else c) (pin_irq_hdr_tab x) m.

Lemma disabled_inv port n u c x : 0 <= n < 16 -> pin_inv x -> changes port (at_pin n u) (at_pin n (line_reset port)) (p_chip x) c -> pin_inv (disabled_state n c x).
Proof.
  intros Hn [H1 H2 H3 H4 H5 H6] [A1 A2 A3 (A4 & A5 & A6)]. set (m := Z.land (pin_irq_enable_mask x) (Z.lnot (2 ^ n))).
  assert (Hm : 0 <= m < 2 ^ 16) by (by apply land_bound).
  assert (Hbit : forall k, 0 <= k -> Z.testbit m k = true <-> Z.testbit (pin_irq_enable_mask x) k = true /\ n ≠ k).
  { intros k Hk. unfold m. rewrite testbit_clear by lia. by rewrite andb_true_iff, bool_decide_eq_true. }
  assert (Hline : forall k, 0 <= k < 16 -> Z.testbit m k = true -> l_irq (line_of (c_exti c) k) = true).
  { intros k Hk [Hb Hne]%Hbit; [|lia]. rewrite A3 by done. unfold at_pin. rewrite decide_False by congruence. by apply H4. }
  unfold disabled_state. fold m. destruct (Z.eqb_spec (Z.land m (group n)) 0) as [E|E].
  - rewrite group_free in E by done. split; cbn [p_chip pin_irq_hdr_tab pin_irq_enable_mask set_nvic c_exti c_nvic]; [by destruct A1|done|done|done| |].
    + intros k Hk Hb. rewrite A5. pose proof Hb as [Hb' _]%Hbit; [|lia]. apply elem_of_difference. split; [by apply H5|].
      rewrite elem_of_singleton. intros Ek. specialize (E k Hk Ek). congruence.
    + intros k Hk [Hin Hne]%elem_of_difference. rewrite A5 in Hin. rewrite elem_of_singleton in Hne.
      destruct (H6 k Hk Hin) as (j & Hj & Ej & Hb). exists j. split; [done|]. split; [done|]. apply Hbit; [lia|]. split; [done|]. congruence.
  - split; cbn [p_chip pin_irq_hdr_tab pin_irq_enable_mask]; [done|done|done|done| |]; rewrite A5.
    + intros k Hk [Hb _]%Hbit; [by apply H5|lia].
    + intros k Hk Hin. destruct (H6 k Hk Hin) as (j & Hj & Ej & Hb). destruct (decide (n = j)) as [->|Hne]; [|exists j; by rewrite Hbit by lia].
      destruct (group_taken m j Hn Hm E) as (i & Hi & Ei & Hb'). exists i. split; [done|]. split; [congruence|done].
Qed.

Lemma wp_irq_off port n (Q : Z -> pin_state * S -> Prop) s : (port < 11)%nat -> 0 <= n < 16 -> pin_inv s.1 ->
  (forall c, changes port (at_pin n cfg_reset) (at_pin n (line_reset port)) (p_chip s.1) c ->
     pin_inv (disabled_state n c s.1) -> Q RT_EOK (disabled_state n c s.1, s.2)) ->
  wp (irq_off (pin_at port n)) Q s.
Proof.
  intros Hp Hn Hi HQ. unfold irq_off. cbn [pin_at pi_pin pi_gpio]. destruct (pin_irq_map_row n Hn) as (_ & -> & _).
  wp_step. apply wp_hal. eapply wp_mono; [|apply (acts_pow2 port n); [done|apply deinit_acts; [done|by apply pow2_bound]|apply Hi]].
  intros [] c Hc. specialize (HQ c Hc ltac:(by eapply disabled_inv)). wp_step. unfold on_pins. wp_step. wp_step. wp_step.
  cbn [fst snd set_chip set_mask pin_irq_enable_mask]. set (m := Z.land (pin_irq_enable_mask s.1) (Z.lnot (2 ^ n))) in *.
  assert (Hb : Z.testbit m n = false) by (unfold m; rewrite testbit_clear by lia; by rewrite bool_decide_eq_false_2, andb_false_r by tauto).
  unfold when. rewrite off_branches by done. unfold disabled_state in HQ. fold m in HQ. wp_step. destruct (Z.land m (group n) =? 0).
  - apply wp_hal. unfold HAL_NVIC_DisableIRQ. wp_step. wp_step. exact HQ.
  - wp_step. exact HQ.
Qed.

(** ** The other calls *)

Lemma inv_chip x c : pin_inv x -> chip_ok c -> (forall n, 0 <= n < 16 -> l_irq (line_of (c_exti c) n) = l_irq (line_of (c_exti (p_chip x)) n)) ->
  c_nvic c = c_nvic (p_chip x) -> pin_inv (set_chip c x).
Proof.
  intros [H1 H2 H3 H4 H5 H6] Hc Hl Hn. split; cbn [set_chip p_chip pin_irq_hdr_tab pin_irq_enable_mask]; rewrite ?Hn; try done.
  intros n Hn' Hb. rewrite Hl by done. by apply H4.
Qed.

Lemma wp_detach pin (Q : Z -> pin_state * S -> Prop) s : pin_inv s.1 ->
  (get_pin pin = None -> Q RT_ENOSYS s) ->
  (forall port n h, (port < 11)%nat -> 0 <= n < 16 -> get_pin pin = Some (pin_at port n) -> pin_irq_hdr_tab s.1 !! Z.to_nat n = Some h ->
     Q RT_EOK (if h_pin h =? -1 then s.1 else set_tab <[Z.to_nat n := no_hdr]> s.1, s.2)) ->
  wp (stm32_pin_dettach_irq pin) Q s.
Proof.
  intros Hi Hno Hyes. unfold stm32_pin_dettach_irq. destruct (get_pin pin) as [r|] eqn:Er; [|by apply Hno]. cbn.
  destruct (get_pin_spec _ _ Er) as (port & n & Hp & Hn & -> & _ & ->). wp_step. apply wp_get_hdr; [done|done|]. intros h Hh.
  specialize (Hyes port n h Hp Hn eq_refl Hh). destruct (h_pin h =? -1); [by destruct s|].
  wp_step. unfold put_hdr, on_pins. wp_step. by wp_step.
Qed.

Lemma mode_pull_range mode : 0 <= (mode_and_pull mode).2 < 4 /\ has_mode (mode_and_pull mode).1 EXTI_MODE = false.
Proof. unfold mode_and_pull. by repeat case_match. Qed.

Lemma wp_mode pin mode (Q : unit -> pin_state * S -> Prop) s : pin_inv s.1 ->
  (get_pin pin = None -> Q tt s) ->
  (forall port n c, (port < 11)%nat -> 0 <= n < 16 -> get_pin pin = Some (pin_at port n) ->
     changes port (at_pin n (cfg_init (init_of n (mode_and_pull mode).1 (mode_and_pull mode).2))) same (p_chip s.1) c ->
     pin_inv (set_chip c s.1) -> Q tt (set_chip c s.1, s.2)) ->
  wp (stm32_pin_mode pin mode) Q s.
Proof.
  intros Hi Hno Hyes. unfold stm32_pin_mode. destruct (get_pin pin) as [r|] eqn:Er; [|by apply Hno].
  destruct (get_pin_spec _ _ Er) as (port & n & Hp & Hn & -> & _ & _). destruct (mode_pull_range mode) as [P1 P2].
  specialize (Hyes port n). destruct (mode_and_pull mode) as [m pull]. cbn [fst snd] in *.
  apply (wp_init port n m pull); [done|done|done|done|]. intros c [A1 A2 A3 A4].
  assert (Hl : forall p, 0 <= p < 16 -> line_of (c_exti c) p = line_of (c_exti (p_chip s.1)) p).
  { intros p Hpp. rewrite A3 by done. unfold at_pin, line_init. cbn [init_of Mode]. rewrite P2. by case_decide. }
  apply Hyes; [done|done|done|by split|]. apply inv_chip; [done|done| |apply A4]. intros k Hk. by rewrite Hl.
Qed.

Lemma wp_write pin value (Q : unit -> pin_state * S -> Prop) s : pin_inv s.1 ->
  (get_pin pin = None -> Q tt s) ->
  (forall port n r, (port < 11)%nat -> 0 <= n < 16 -> get_pin pin = Some (pin_at port n) -> c_ports (p_chip s.1) !! port = Some r ->
     let c := set_ports <[port := set_ODR (bsrr_write (ODR r) (if value =? 0 then 2 ^ (n + 16) else 2 ^ n)) r]> (p_chip s.1) in
     pin_inv (set_chip c s.1) -> Q tt (set_chip c s.1, s.2)) ->
  wp (stm32_pin_write pin value) Q s.
Proof.
  intros Hi Hno Hyes. unfold stm32_pin_write. destruct (get_pin pin) as [i|] eqn:Er; [|by apply Hno].
  destruct (get_pin_spec _ _ Er) as (port & n & Hp & Hn & -> & _ & _). cbn [pin_at pi_gpio pi_pin].
  destruct (lookup_lt_is_Some_2 (c_ports (p_chip s.1)) port) as [r Hr]; [rewrite (co_ports _ (pv_chip _ Hi)); lia|].
  specialize (Hyes port n r Hp Hn eq_refl Hr). apply wp_hal. unfold HAL_GPIO_WritePin.
  assert (u32 (Z.shiftl (2 ^ n) GPIO_NUMBER) = 2 ^ (n + 16)) as ->.
  { rewrite Z.shiftl_mul_pow2, <- Z.pow_add_r by (unfold GPIO_NUMBER; lia). apply wrap_small. apply pow2_bound. unfold GPIO_NUMBER. lia. }
  assert (HQ : forall v, v = (if value =? 0 then 2 ^ (n + 16) else 2 ^ n) ->
    wp (write_BSRR port v) (fun a c => Q a (set_chip c s.1, s.2)) (p_chip s.1)); [|destruct (value =? 0); by apply HQ].
  intros v ->. unfold wp, write_BSRR, on_port. rewrite Hr. apply Hyes. apply inv_chip; [done| |done|done].
  destruct (pv_chip _ Hi) as [C1 C2 C3]. split; cbn; [by rewrite length_insert| |done].
  intros q x [(E & <- & _)|(_ & Hx)]%list_lookup_insert_Some; [exact (C2 port r Hr)|by eapply C2].
Qed.

Lemma wp_read pin (Q : Z -> pin_state * S -> Prop) s : pin_inv s.1 ->
  (get_pin pin = None -> Q PIN_LOW s) ->
  (forall port n r, get_pin pin = Some (pin_at port n) -> c_ports (p_chip s.1) !! port = Some r -> Q (Z.b2z (Z.testbit (IDR r) n)) s) ->
  wp (stm32_pin_read pin) Q s.
Proof.
  intros Hi Hno Hyes. unfold stm32_pin_read. destruct (get_pin pin) as [i|] eqn:Er; [|by apply Hno].
  destruct (get_pin_spec _ _ Er) as (port & n & Hp & Hn & -> & _ & _). cbn [pin_at pi_gpio pi_pin].
  destruct (lookup_lt_is_Some_2 (c_ports (p_chip s.1)) port) as [r Hr]; [rewrite (co_ports _ (pv_chip _ Hi)); lia|].
  specialize (Hyes port n r eq_refl Hr). wp_step. apply wp_hal. unfold HAL_GPIO_ReadPin. wp_step. wp_step; [exact Hr|]. wp_step.
  wp_step. rewrite land_pow2, negb_involutive by lia. destruct s as [[a b d] t]. exact Hyes.
Qed.

(** ** An attached function *)

(** Attaching a function to a free line and enabling its interrupt. *)
Definition attach_enable (pin mode : Z) (f : positive) (args : Z) : M (pin_state * S) (Z * Z) :=
  r ← stm32_pin_attach_irq pin mode (Some f) args;
  e ← stm32_pin_irq_enable pin PIN_IRQ_ENABLE;
  mret (r, e).

(** Line [n] is set to interrupt for the edges of [mode] on the pin of [port], and calls [f]. *)
Record armed (port : nat) (n mode : Z) (f : positive) (args : Z) (x : pin_state) : Prop := {
  ar_line : line_of (c_exti (p_chip x)) n = mkLine (Z.of_nat port) true false
    ((mode =? PIN_IRQ_MODE_RISING) || (mode =? PIN_IRQ_MODE_RISING_FALLING)) ((mode =? PIN_IRQ_MODE_FALLING) || (mode =? PIN_IRQ_MODE_RISING_FALLING));
  ar_nvic : irqno n ∈ c_nvic (p_chip x);
  ar_tab : pin_irq_hdr_tab x !! Z.to_nat n = Some (mkHdr (GET_PIN port n) mode (Some f) args)
}.

(** The other lines are as they were. *)
Definition other_lines (n : Z) (x y : pin_state) : Prop := forall k, 0 <= k < 16 -> k ≠ n ->
  line_of (c_exti (p_chip y)) k = line_of (c_exti (p_chip x)) k /\ pin_irq_hdr_tab y !! Z.to_nat k = pin_irq_hdr_tab x !! Z.to_nat k /\
  (irqno k ∈ c_nvic (p_chip x) -> irqno k ∈ c_nvic (p_chip y)).

Lemma GET_PIN_range port n : (port < 11)%nat -> 0 <= n < 16 -> GET_PIN port n = 16 * Z.of_nat port + n.
Proof. intros Hp Hn. unfold GET_PIN, port_base. by rewrite Z.add_simpl_l, (Z.mul_comm 1024), Z.div_mul by lia. Qed.

Lemma wp_attach_enable port n mode f args h (Q : Z * Z -> pin_state * S -> Prop) s : (port < 11)%nat -> 0 <= n < 16 -> pin_inv s.1 ->
  pin_irq_hdr_tab s.1 !! Z.to_nat n = Some h -> h_pin h = -1 -> 0 <= mode <= 2 ->
  (forall x, pin_inv x -> armed port n mode f args x -> other_lines n s.1 x -> Q (RT_EOK, RT_EOK) (x, s.2)) ->
  wp (attach_enable (GET_PIN port n) mode f args) Q s.
Proof.
  intros Hp Hn Hi Hh Hfree Hmode HQ. unfold attach_enable. wp_step. pose proof (GET_PIN_range port n Hp Hn) as EG.
  destruct (get_pin_at port n Hp Hn) as [Eg Ei]. apply wp_attach; [done|by rewrite Eg|].
  intros port' n' h' Hp' Hn' E' Hh'. rewrite Eg in E'.
  assert (n' = n) as ->. { injection E' as E1 E2. subst port'. lia. }
  assert (h' = h) as -> by congruence. split; [intros ->; cbn in Hfree; lia|]. split; [done|]. intros _ _.
  set (e := mkHdr (i16 (GET_PIN port n)) (u16 mode) (Some f) args).
  assert (Ee : e = mkHdr (GET_PIN port n) mode (Some f) args).
  { unfold e. rewrite swrap_small by (change (2 ^ (16 - 1)) with 32768; lia). rewrite wrap_small by (change (2 ^ 16) with 65536; lia). done. }
  rewrite Ee. clear e Ee. set (x1 := set_tab _ s.1).
  assert (Hi1 : pin_inv x1) by (by apply inv_put_hdr).
  assert (Ht1 : pin_irq_hdr_tab x1 !! Z.to_nat n = Some (mkHdr (GET_PIN port n) mode (Some f) args)).
  { cbn. apply list_lookup_insert_eq. rewrite (pv_tab _ Hi). lia. }
  wp_step. unfold stm32_pin_irq_enable. rewrite Eg. change (PIN_IRQ_ENABLE =? PIN_IRQ_ENABLE) with true. cbv iota.
  eapply (wp_irq_on port n); [done|done|exact Hi1|exact Ht1|cbn; lia|]. intros _. cbn [h_mode].
  destruct (irq_mode_and_pull mode) as [mp|] eqn:Em.
  2:{ unfold irq_mode_and_pull, PIN_IRQ_MODE_RISING, PIN_IRQ_MODE_FALLING, PIN_IRQ_MODE_RISING_FALLING in Em.
      destruct (Z.eqb_spec mode 0), (Z.eqb_spec mode 1), (Z.eqb_spec mode 2); try done; lia. }
  exists mp. split; [done|]. destruct (irq_modes _ _ Em) as (P1 & P2 & P3 & P4 & P5). intros c [A1 A2 A3 (A4 & A5 & A6)] Hinv. wp_step.
  apply HQ; [done| |].
  - split; cbn [enabled_state p_chip pin_irq_hdr_tab c_exti c_nvic set_nvic set_priority]; [|set_solver|exact Ht1].
    rewrite A3 by done. unfold at_pin. rewrite decide_True by done. unfold line_init. cbn [init_of Mode]. rewrite P2, P3, P4, P5. f_equal.
    clear - Em. unfold irq_mode_and_pull in Em. by repeat case_match; simplify_eq.
  - intros k Hk Hne. cbn [enabled_state p_chip pin_irq_hdr_tab c_exti c_nvic set_nvic set_priority]. split; [|split].
    + rewrite A3 by done. unfold at_pin. by rewrite decide_False.
    + cbn. rewrite list_lookup_insert_ne by lia. done.
    + rewrite A5. cbn. set_solver.
Qed.

Lemma pin_at_inj port n port' n' : pin_at port n = pin_at port' n' -> 0 <= n < 16 -> 0 <= n' < 16 -> port = port' /\ n = n'.
Proof. intros [= E1 E2 _] Hn Hn'. subst port'. split; [done|lia]. Qed.

(** ** Defects: the pin of a line is not compared

    The table has a line's function with its pin, but only attaching looks at the pin: detaching,
    enabling and disabling the pin of the same number of another port act on the line. *)

Lemma detach_foreign port n h s : (port < 11)%nat -> 0 <= n < 16 -> pin_inv s.1 -> pin_irq_hdr_tab s.1 !! Z.to_nat n = Some h -> h_pin h ≠ -1 ->
  stm32_pin_dettach_irq (GET_PIN port n) s = Some (RT_EOK, (set_tab <[Z.to_nat n := no_hdr]> s.1, s.2)).
Proof.
  intros Hp Hn Hi Hh Hne. assert (Hw : wp (stm32_pin_dettach_irq (GET_PIN port n)) (fun r s' => r = RT_EOK /\ s' = (set_tab <[Z.to_nat n := no_hdr]> s.1, s.2)) s).
  { destruct (get_pin_at port n Hp Hn) as [Eg _]. apply wp_detach; [done|by rewrite Eg|]. intros port' n' h' Hp' Hn' E' Hh'. rewrite Eg in E'.
    apply (inj Some) in E'. apply (pin_at_inj port n port' n') in E' as [<- <-]; [|done|done]. assert (h' = h) as -> by congruence.
    by rewrite (proj2 (Z.eqb_neq _ _)). }
  apply wp_unfold in Hw as (r & s' & E & -> & ->). exact E.
Qed.

(** Enabling it takes the line away from the pin it was attached for. *)
Lemma enable_foreign port port' n mode f args s : (port' < 11)%nat -> port' ≠ port -> 0 <= n < 16 -> 0 <= mode <= 2 -> (port < 11)%nat ->
  pin_inv s.1 -> armed port n mode f args s.1 ->
  wp (stm32_pin_irq_enable (GET_PIN port' n) PIN_IRQ_ENABLE) (fun r s' => r = RT_EOK /\
    l_port (line_of (c_exti (p_chip s'.1)) n) = Z.of_nat port' /\ pin_irq_hdr_tab s'.1 = pin_irq_hdr_tab s.1 /\ ~ armed port n mode f args s'.1) s.
Proof.
  intros Hp' Hne Hn Hmode Hp Hi [_ _ Ht]. unfold stm32_pin_irq_enable. destruct (get_pin_at port' n Hp' Hn) as [-> _].
  change (PIN_IRQ_ENABLE =? PIN_IRQ_ENABLE) with true. cbv iota. pose proof (GET_PIN_range port n Hp Hn).
  eapply (wp_irq_on port' n); [done|done|done|exact Ht|cbn; lia|]. intros _. cbn [h_mode].
  destruct (irq_mode_and_pull mode) as [mp|] eqn:Em.
  2:{ unfold irq_mode_and_pull, PIN_IRQ_MODE_RISING, PIN_IRQ_MODE_FALLING, PIN_IRQ_MODE_RISING_FALLING in Em.
      destruct (Z.eqb_spec mode 0), (Z.eqb_spec mode 1), (Z.eqb_spec mode 2); try done; lia. }
  exists mp. split; [done|]. destruct (irq_modes _ _ Em) as (P1 & P2 & _). intros c [A1 A2 A3 A4] Hinv.
  assert (El : l_port (line_of (c_exti c) n) = Z.of_nat port').
  { rewrite A3 by done. unfold at_pin. rewrite decide_True by done. unfold line_init. cbn [init_of Mode]. by rewrite P2. }
  split; [done|]. split; [exact El|]. split; [done|]. intros [B _ _]. cbn [fst enabled_state p_chip c_exti set_nvic set_priority] in B.
  rewrite B in El. cbn in El. lia.
Qed.

(** Disabling it stops the interrupt, though the line stays with the other port. *)
Lemma disable_foreign port port' n mode f args s : (port' < 11)%nat -> port' ≠ port -> 0 <= n < 16 ->
  pin_inv s.1 -> armed port n mode f args s.1 -> (forall k, 0 <= k < 16 -> irqno k = irqno n -> k ≠ n -> Z.testbit (pin_irq_enable_mask s.1) k = false) ->
  wp (stm32_pin_irq_enable (GET_PIN port' n) PIN_IRQ_DISABLE) (fun r s' => r = RT_EOK /\
    line_of (c_exti (p_chip s'.1)) n = line_of (c_exti (p_chip s.1)) n /\ irqno n ∉ c_nvic (p_chip s'.1)) s.
Proof.
  intros Hp' Hne Hn Hi [Hl _ Ht] Hother. unfold stm32_pin_irq_enable. destruct (get_pin_at port' n Hp' Hn) as [-> _].
  change (PIN_IRQ_DISABLE =? PIN_IRQ_ENABLE) with false. change (PIN_IRQ_DISABLE =? PIN_IRQ_DISABLE) with true. cbv iota.
  eapply (wp_irq_off port' n); [done|done|done|]. intros c [A1 A2 A3 (_ & A5 & _)] _.
  assert (E : Z.land (Z.land (pin_irq_enable_mask s.1) (Z.lnot (2 ^ n))) (group n) = 0).
  { apply group_free; [done|apply land_bound; [lia|apply Hi]|]. intros k Hk Ek. rewrite testbit_clear by lia.
    case_bool_decide as Hkn; [|by rewrite andb_false_r]. rewrite Hother; [done|done|done|congruence]. }
  split; [done|]. unfold disabled_state. rewrite E. cbn [fst p_chip c_exti c_nvic set_nvic Z.eqb]. split.
  - rewrite A3 by done. unfold at_pin. rewrite decide_True by done. unfold line_reset. rewrite Hl. cbn [l_port].
    rewrite (proj2 (Z.eqb_neq _ _)) by lia. done.
  - intros [_ Hx]%elem_of_difference. by apply Hx, elem_of_singleton.
Qed.

(** A function is attached for a level; enabling it then reads what no case of the switch has
    set (no result here). *)
Lemma level_unset port n mode f args h s : (port < 11)%nat -> 0 <= n < 16 -> pin_inv s.1 -> pin_irq_hdr_tab s.1 !! Z.to_nat n = Some h -> h_pin h = -1 ->
  3 <= mode <= 4 -> exists s', stm32_pin_attach_irq (GET_PIN port n) mode (Some f) args s = Some (RT_EOK, s') /\
    stm32_pin_irq_enable (GET_PIN port n) PIN_IRQ_ENABLE s' = None.
Proof.
  intros Hp Hn Hi Hh Hfree Hmode. pose proof (GET_PIN_range port n Hp Hn) as EG. destruct (get_pin_at port n Hp Hn) as [Eg Ei].
  set (e := mkHdr (i16 (GET_PIN port n)) (u16 mode) (Some f) args).
  assert (Hw : wp (stm32_pin_attach_irq (GET_PIN port n) mode (Some f) args) (fun r s' => r = RT_EOK /\ s' = (set_tab <[Z.to_nat n := e]> s.1, s.2)) s).
  { apply wp_attach; [done|by rewrite Eg|]. intros port' n' h' Hp' Hn' E' Hh'. rewrite Eg in E'. apply (inj Some) in E'.
    apply (pin_at_inj port n port' n') in E' as [<- <-]; [|done|done]. assert (h' = h) as -> by congruence.
    split; [intros ->; cbn in Hfree; lia|]. by split. }
  apply wp_unfold in Hw as (r & s' & E & -> & ->). eexists. split; [exact E|]. unfold stm32_pin_irq_enable. rewrite Eg.
  change (PIN_IRQ_ENABLE =? PIN_IRQ_ENABLE) with true. cbv iota. unfold irq_on. rewrite Ei.
  assert (He : h_pin e ≠ -1 /\ h_mode e = mode).
  { unfold e. cbn [h_pin h_mode]. rewrite swrap_small by (change (2 ^ (16 - 1)) with 32768; lia). rewrite wrap_small by (change (2 ^ 16) with 65536; lia). lia. }
  rewrite (bind_some _ _ _ e (set_tab <[Z.to_nat n := e]> s.1, s.2)).
  2:{ unfold get_hdr, deref. cbn. rewrite list_lookup_insert_eq; [done|]. rewrite (pv_tab _ Hi). lia. }
  rewrite (proj2 (Z.eqb_neq _ _)) by apply He. rewrite (bind_some _ _ _ (2 ^ n, irqno n) (set_tab <[Z.to_nat n := e]> s.1, s.2)).
  2:{ unfold deref. by destruct (pin_irq_map_row n Hn) as (-> & _). }
  assert (irq_mode_and_pull (h_mode e) = None) as ->; [|done]. rewrite (proj2 He). unfold irq_mode_and_pull, PIN_IRQ_MODE_RISING, PIN_IRQ_MODE_FALLING, PIN_IRQ_MODE_RISING_FALLING.
  by rewrite !(proj2 (Z.eqb_neq _ _)) by lia.
Qed.

(** The number of a pin is cut to 8 bits: far numbers are other pins. *)
Lemma pin_number_cut pin : get_pin (pin + 256) = get_pin pin.
Proof. unfold get_pin. assert (u8 (pin + 256) = u8 pin) as ->; [|done]. unfold wrap. by rewrite <- (Z_mod_plus_full pin 1 (2 ^ 8)). Qed.
End board_proofs.

(** ** The interrupts *)

Section interrupts.
Context {S : Type} `{!chip_writes} (handler : positive -> Z -> M S unit) (rt_interrupt_enter rt_interrupt_leave : M S unit).
Implicit Types (s : pin_state * S).

(** The chip clears the bits of PR1 that are written as ones; BSRR sets the bits of its lower
    half and resets those of its upper half that are not set. *)
Class chip_writes_ok : Prop := {
  bsrr_bit : forall odr v i, 0 <= i < 16 -> Z.testbit (bsrr_write odr v) i = Z.testbit v i || (Z.testbit odr i && negb (Z.testbit v (i + 16)));
  pr1_bit : forall old v i, 0 <= i < 32 -> Z.testbit (pr1_write old v) i = Z.testbit old i && negb (Z.testbit v i)
}.
Context `{!chip_writes_ok}.

Definition pr1 (x : pin_state) : Z := PR1 (c_exti (p_chip x)).
Definition with_pr1 (v : Z) (x : pin_state) : pin_state := set_chip (set_exti (set_PR1 v) (p_chip x)) x.

(** What the functions attached to the pending lines do. *)
Definition call_of (tab : list rt_pin_irq_hdr) (n : Z) : M S unit :=
  match tab !! Z.to_nat n with
  | Some h => match h_hdr h with Some f => handler f (h_args h) | None => mret tt end
  | None => mret tt
  end.
Fixpoint run_lines (tab : list rt_pin_irq_hdr) (pending : Z) (lines : list Z) : M S unit :=
  match lines with
  | [] => mret tt
  | n :: lines => (if Z.testbit pending n then call_of tab n else mret tt) ;; run_lines tab pending lines
  end.

Lemma run_lines_ext tab v v' lines : (forall n, n ∈ lines -> Z.testbit v n = Z.testbit v' n) -> forall t, run_lines tab v lines t = run_lines tab v' lines t.
Proof.
  induction lines as [|n lines IH]; intros He t; [done|]. cbn [run_lines]. rewrite (He n) by left. unfold mbind, M_bind.
  destruct ((if Z.testbit v' n then call_of tab n else mret tt) t) as [[[] t']|]; [|done]. apply IH. intros k Hk. apply He. by right.
Qed.

Lemma with_pr1_inv v x : pin_inv x -> pin_inv (with_pr1 v x).
Proof. intros Hi. apply inv_chip; [done| |done|done]. destruct (pv_chip _ Hi). by split. Qed.

Lemma exti_line_eq n s : pin_inv s.1 -> 0 <= n < 16 ->
  HAL_GPIO_EXTI_IRQHandler (@hal S) (HAL_GPIO_EXTI_Callback handler) (GPIO_PIN n) s =
  if Z.testbit (pr1 s.1) n then
    match call_of (pin_irq_hdr_tab s.1) n s.2 with Some (_, t) => Some (tt, (with_pr1 (pr1_write (pr1 s.1) (2 ^ n)) s.1, t)) | None => None end
  else Some (tt, s).
Proof.
  intros Hi Hn. unfold HAL_GPIO_EXTI_IRQHandler. rewrite GPIO_PIN_eq by lia. destruct s as [x t]. cbn [fst snd] in *.
  rewrite (bind_some _ _ (x, t) (c_exti (p_chip x)) (x, t)) by (by destruct x).
  change (PR1 (c_exti (p_chip x))) with (pr1 x). rewrite land_pow2, negb_involutive by lia. destruct (Z.testbit (pr1 x) n); [|done]. cbn [when].
  rewrite (bind_some _ _ (x, t) tt (with_pr1 (pr1_write (pr1 x) (2 ^ n)) x, t)) by done.
  unfold HAL_GPIO_EXTI_Callback, pin_irq_hdr. destruct (pin_irq_map_row n Hn) as (_ & _ & ->). unfold call_of.
  destruct (lookup_lt_is_Some_2 (pin_irq_hdr_tab x) (Z.to_nat n)) as [h Hh]; [rewrite (pv_tab _ Hi); lia|]. rewrite Hh.
  rewrite (bind_some _ _ _ h (with_pr1 (pr1_write (pr1 x) (2 ^ n)) x, t)) by (unfold get_hdr, deref; cbn; by rewrite Hh).
  destruct (h_hdr h) as [f|]; [|done]. unfold app. cbn [fst snd]. destruct (handler f (h_args h) t) as [[[] t']|]; done.
Qed.

Lemma exti_lines_eq lines : NoDup lines -> (forall n, n ∈ lines -> 0 <= n < 16) -> forall s, pin_inv s.1 -> exists v,
  (forall k, 0 <= k < 32 -> Z.testbit v k = Z.testbit (pr1 s.1) k && negb (bool_decide (k ∈ lines))) /\
  exti_lines handler lines s = match run_lines (pin_irq_hdr_tab s.1) (pr1 s.1) lines s.2 with Some (_, t) => Some (tt, (with_pr1 v s.1, t)) | None => None end.
Proof.
  intros Hnd Hin. induction lines as [|n lines IH]; intros s Hi.
  - exists (pr1 s.1). split; [intros k Hk; by rewrite andb_true_r|]. cbn. destruct s as [[[? [] ? ? ? ?] ? ?] t]. done.
  - apply NoDup_cons in Hnd as [Hnot Hnd]. assert (Hn : 0 <= n < 16) by (apply Hin; left). cbn [exti_lines run_lines].
    unfold mbind at 1, M_bind at 1. rewrite exti_line_eq by done. unfold mbind, M_bind.
    assert (IH' : forall s', pin_inv s'.1 -> pin_irq_hdr_tab s'.1 = pin_irq_hdr_tab s.1 -> (forall v, with_pr1 v s'.1 = with_pr1 v s.1) ->
      (forall k, 0 <= k < 32 -> Z.testbit (pr1 s'.1) k = Z.testbit (pr1 s.1) k && negb (bool_decide (k = n))) -> exists v,
      (forall k, 0 <= k < 32 -> Z.testbit v k = Z.testbit (pr1 s.1) k && negb (bool_decide (k ∈ n :: lines))) /\
      exti_lines handler lines s' = match run_lines (pin_irq_hdr_tab s.1) (pr1 s.1) lines s'.2 with Some (_, t) => Some (tt, (with_pr1 v s.1, t)) | None => None end).
    { intros s' Hi' Et Ew Eb. destruct (IH Hnd (fun k Hk => Hin k (list_elem_of_further _ _ _ Hk)) s' Hi') as (v & Hv & ->). exists v. split.
      - intros k Hk. rewrite Hv, Eb by done. rewrite <- andb_assoc. f_equal. repeat case_bool_decide; try done; mem.
      - rewrite Et. rewrite (run_lines_ext _ (pr1 s'.1) (pr1 s.1)); [by destruct (run_lines _ _ _ _) as [[[] t]|]; rewrite ?Ew|].
        intros k Hk. specialize (Hin k (list_elem_of_further _ _ _ Hk)). rewrite Eb by lia. rewrite bool_decide_eq_false_2 by (by intros ->). by rewrite andb_true_r. }
    destruct (Z.testbit (pr1 s.1) n) eqn:Eb.
    + destruct (call_of (pin_irq_hdr_tab s.1) n s.2) as [[[] t]|] eqn:Ec.
      * apply (IH' (with_pr1 (pr1_write (pr1 s.1) (2 ^ n)) s.1, t)); [by apply with_pr1_inv|done|done|].
        intros k Hk. cbn. rewrite pr1_bit, pow2_testbit by lia. by repeat case_bool_decide.
      * exists (Z.land (pr1 s.1) (Z.lnot (foldr (fun k a => Z.lor (2 ^ k) a) 0 (n :: lines)))). split; [|done].
        intros k Hk. rewrite Z.land_spec, Z.lnot_spec by lia. f_equal. f_equal.
        assert (Hf : forall l, (forall j, j ∈ l -> 0 <= j) -> Z.testbit (foldr (fun k a => Z.lor (2 ^ k) a) 0 l) k = bool_decide (k ∈ l)).
        { induction l as [|j l IHl]; intros Hl; [cbn; by rewrite Z.bits_0|]. cbn [foldr]. rewrite Z.lor_spec, pow2_testbit, IHl by (try (intros; apply Hl; by right); apply Hl; left).
          repeat case_bool_decide; try done; mem. }
        apply Hf. intros j Hj. by apply Hin.
    + cbn [mret M_ret]. apply (IH' s); [done|done|done|]. intros k Hk. case_bool_decide; [subst; by rewrite Eb|by rewrite andb_true_r].
Qed.

(** The interrupt vectors of the lines (the start-up code names these handlers). *)
Definition exti_vector (irq : Z) : option (M (pin_state * S) unit) :=
  if irq =? EXTI0_IRQn then Some (EXTI0_IRQHandler handler rt_interrupt_enter rt_interrupt_leave)
  else if irq =? EXTI1_IRQn then Some (EXTI1_IRQHandler handler rt_interrupt_enter rt_interrupt_leave)
  else if irq =? EXTI2_IRQn then Some (EXTI2_IRQHandler handler rt_interrupt_enter rt_interrupt_leave)
  else if irq =? EXTI3_IRQn then Some (EXTI3_IRQHandler handler rt_interrupt_enter rt_interrupt_leave)
  else if irq =? EXTI4_IRQn then Some (EXTI4_IRQHandler handler rt_interrupt_enter rt_interrupt_leave)
  else if irq =? EXTI9_5_IRQn then Some (EXTI9_5_IRQHandler handler rt_interrupt_enter rt_interrupt_leave)
  else if irq =? EXTI15_10_IRQn then Some (EXTI15_10_IRQHandler handler rt_interrupt_enter rt_interrupt_leave)
  else None.

Definition lines_of (irq : Z) : list Z := filter (fun n => irqno n = irq) (seqZ 0 16).
Lemma lines_of_spec n k : 0 <= n < 16 -> k ∈ lines_of (irqno n) <-> 0 <= k < 16 /\ irqno k = irqno n.
Proof. intros Hn. unfold lines_of. rewrite list_elem_of_filter, elem_of_seqZ. intuition lia. Qed.
Lemma lines_nodup irq : NoDup (lines_of irq).
Proof. apply NoDup_filter, NoDup_seqZ. Qed.
Lemma sixteen (Q : Z -> Prop) : Forall Q (seqZ 0 16) -> forall n, 0 <= n < 16 -> Q n.
Proof. intros HQ n Hn. rewrite Forall_forall in HQ. apply HQ, elem_of_seqZ. lia. Qed.
Lemma exti_vector_eq n : 0 <= n < 16 -> exti_vector (irqno n) = Some (irq_handler handler rt_interrupt_enter rt_interrupt_leave (lines_of (irqno n))).
Proof. revert n. apply sixteen. cbn [seqZ fmap list_fmap seq Z.to_nat Pos.to_nat Pos.iter_op]. repeat (constructor; [reflexivity|]). constructor. Qed.

Lemma irq_handler_eq lines s : NoDup lines -> (forall n, n ∈ lines -> 0 <= n < 16) -> pin_inv s.1 -> exists v,
  (forall k, 0 <= k < 32 -> Z.testbit v k = Z.testbit (pr1 s.1) k && negb (bool_decide (k ∈ lines))) /\
  irq_handler handler rt_interrupt_enter rt_interrupt_leave lines s =
    match (rt_interrupt_enter ;; run_lines (pin_irq_hdr_tab s.1) (pr1 s.1) lines ;; rt_interrupt_leave) s.2 with
    | Some (_, t) => Some (tt, (with_pr1 v s.1, t)) | None => None end.
Proof.
  intros Hnd Hin Hi. unfold irq_handler, mbind, M_bind, app.
  destruct (rt_interrupt_enter s.2) as [[[] t]|] eqn:Ee.
  - destruct (exti_lines_eq lines Hnd Hin (s.1, t) Hi) as (v & Hv & ->). exists v. split; [exact Hv|]. cbn [fst snd].
    destruct (run_lines _ _ _ t) as [[[] t1]|]; [|done]. cbn [snd]. by destruct (rt_interrupt_leave t1) as [[[] t2]|].
  - destruct (exti_lines_eq lines Hnd Hin s Hi) as (v & Hv & _). by exists v.
Qed.

(** Only line [n] of an interrupt pending: its function is called and nothing else. *)
Lemma run_only tab v n : 0 <= n < 16 -> (forall k, 0 <= k < 16 -> irqno k = irqno n -> Z.testbit v k = bool_decide (k = n)) ->
  forall t, run_lines tab v (lines_of (irqno n)) t = call_of tab n t.
Proof.
  intros Hn Hv. assert (Hgen : forall lines, (forall k, k ∈ lines -> 0 <= k < 16 /\ irqno k = irqno n) -> NoDup lines -> forall t,
    run_lines tab v lines t = if bool_decide (n ∈ lines) then call_of tab n t else Some (tt, t)).
  { induction lines as [|k lines IH]; intros Hl Hnd t; [done|]. apply NoDup_cons in Hnd as [Hnot Hnd]. cbn [run_lines].
    destruct (Hl k ltac:(by left)) as [Hk Ek]. rewrite (Hv k Hk Ek). unfold mbind, M_bind. destruct (decide (k = n)) as [->|E].
    - rewrite !bool_decide_eq_true_2 by (done || by left). destruct (call_of tab n t) as [[[] t']|]; [|done].
      rewrite IH, bool_decide_eq_false_2 by (try done; intros; apply Hl; by right). done.
    - rewrite (bool_decide_eq_false_2 (k = n)) by done. cbn [mret M_ret]. rewrite IH by (try done; intros; apply Hl; by right). repeat case_bool_decide; try done; mem. }
  intros t. rewrite Hgen; [|intros k Hk; by apply lines_of_spec|apply lines_nodup]. rewrite bool_decide_eq_true_2; [done|]. by apply lines_of_spec.
Qed.

(** An armed line that is the only one pending of its interrupt. *)
Lemma armed_interrupt port n mode f args s : 0 <= n < 16 -> pin_inv s.1 -> armed port n mode f args s.1 ->
  (forall k, 0 <= k < 16 -> irqno k = irqno n -> Z.testbit (pr1 s.1) k = bool_decide (k = n)) ->
  exists v hd, exti_vector (irqno n) = Some hd /\ (forall k, 0 <= k < 32 -> Z.testbit v k = Z.testbit (pr1 s.1) k && negb (bool_decide (k = n))) /\
  hd s = match (rt_interrupt_enter ;; handler f args ;; rt_interrupt_leave) s.2 with Some (_, t) => Some (tt, (with_pr1 v s.1, t)) | None => None end.
Proof.
  intros Hn Hi [_ _ Ht] Hp. destruct (irq_handler_eq (lines_of (irqno n)) s) as (v & Hv & Eh); [apply lines_nodup|intros k Hk; by apply (proj1 (lines_of_spec n k Hn))|done|].
  exists v. eexists. split; [by apply exti_vector_eq|]. split.
  - intros k Hk. rewrite Hv by done. destruct (Z.testbit (pr1 s.1) k) eqn:Eb; [|done]. cbn [andb]. f_equal. apply bool_decide_ext.
    rewrite lines_of_spec by done. split; [|by intros ->]. intros [Hk' Ek]. specialize (Hp k Hk' Ek). rewrite Eb in Hp. symmetry in Hp. apply bool_decide_eq_true in Hp. exact Hp.
  - rewrite Eh. unfold mbind, M_bind. destruct (rt_interrupt_enter s.2) as [[[] t]|]; [|done]. rewrite run_only by done.
    unfold call_of. by rewrite Ht.
Qed.

(** C16: A function attached to a free line and enabled for the edges of a mode: the line then
    interrupts for these edges on this pin of this port, and when the interrupt comes for it
    its handler calls that function with its argument, between rt_interrupt_enter and
    rt_interrupt_leave, and takes the request back; the other lines are not touched. *)
Theorem pin_irq_spec port n mode f args h s : (port < 11)%nat -> 0 <= n < 16 -> pin_inv s.1 ->
  pin_irq_hdr_tab s.1 !! Z.to_nat n = Some h -> h_pin h = -1 -> 0 <= mode <= 2 ->
  exists x, attach_enable (GET_PIN port n) mode f args s = Some ((RT_EOK, RT_EOK), (x, s.2)) /\
    pin_inv x /\ armed port n mode f args x /\ other_lines n s.1 x /\
    forall y t, pin_inv y -> armed port n mode f args y ->
      (forall k, 0 <= k < 16 -> irqno k = irqno n -> Z.testbit (pr1 y) k = bool_decide (k = n)) ->
      exists v hd, exti_vector (irqno n) = Some hd /\ (forall k, 0 <= k < 32 -> Z.testbit v k = Z.testbit (pr1 y) k && negb (bool_decide (k = n))) /\
      hd (y, t) = match (rt_interrupt_enter ;; handler f args ;; rt_interrupt_leave) t with Some (_, t') => Some (tt, (with_pr1 v y, t')) | None => None end.
Proof.
  intros Hp Hn Hi Hh Hfree Hmode.
  assert (Hw : wp (attach_enable (GET_PIN port n) mode f args)
    (fun r s' => r = (RT_EOK, RT_EOK) /\ s'.2 = s.2 /\ pin_inv s'.1 /\ armed port n mode f args s'.1 /\ other_lines n s.1 s'.1) s).
  { eapply wp_attach_enable; [done|done|done|exact Hh|done|done|]. intros x H1 H2 H3. do 4 (split; [done|]). done. }
  apply wp_unfold in Hw as (r & [x t] & E & -> & Et & H1 & H2 & H3). cbn [fst snd] in *. subst t. exists x. do 4 (split; [done|]).
  intros y t Hy Ha Hpend. exact (armed_interrupt port n mode f args (y, t) Hn Hy Ha Hpend).
Qed.

(** ** All calls keep what holds of the pins *)

Inductive pin_label :=
  | LAttach (pin : Z) (r : Z)
  | LDetach (pin : Z) (r : Z)
  | LEnable (pin enabled : Z) (r : Z)
  | LMode (pin mode : Z)
  | LWrite (pin value : Z)
  | LRead (pin : Z) (r : Z)
  | LInterrupt (irq : Z)
  | LChip.

(** The calls, the interrupts, and the chip itself: inputs and requests change. *)
Inductive pin_step : pin_state * S -> pin_label -> pin_state * S -> Prop :=
  | ps_attach pin mode hdr args r s s' : stm32_pin_attach_irq pin mode hdr args s = Some (r, s') -> pin_step s (LAttach pin r) s'
  | ps_detach pin r s s' : stm32_pin_dettach_irq pin s = Some (r, s') -> pin_step s (LDetach pin r) s'
  | ps_enable pin enabled r s s' : stm32_pin_irq_enable pin enabled s = Some (r, s') -> pin_step s (LEnable pin enabled r) s'
  | ps_mode pin mode s s' : stm32_pin_mode pin mode s = Some (tt, s') -> pin_step s (LMode pin mode) s'
  | ps_write pin value s s' : stm32_pin_write pin value s = Some (tt, s') -> pin_step s (LWrite pin value) s'
  | ps_read pin r s s' : stm32_pin_read pin s = Some (r, s') -> pin_step s (LRead pin r) s'
  | ps_interrupt n hd s s' : 0 <= n < 16 -> exti_vector (irqno n) = Some hd -> hd s = Some (tt, s') -> pin_step s (LInterrupt (irqno n)) s'
  | ps_chip x c t t' : chip_ok c -> (forall n, 0 <= n < 16 -> line_of (c_exti c) n = line_of (c_exti (p_chip x)) n) ->
      c_nvic c = c_nvic (p_chip x) -> pin_step (x, t) LChip (set_chip c x, t').

Lemma pin_step_inv s l s' : pin_inv s.1 -> pin_step s l s' -> pin_inv s'.1.
Proof.
  intros Hi Hstep. destruct Hstep as [pin mode hdr args r s s' E|pin r s s' E|pin enabled r s s' E|pin mode s s' E|pin value s s' E|pin r s s' E|n hd s s' Hn Hv E|x c t t' Hc Hl Hn].
  - refine (wp_result _ (fun _ s' => pin_inv s'.1) _ _ _ _ E). apply wp_attach; [done|done|]. intros port n h Hp Hn _ Hh.
    split; [done|]. split; [done|]. intros _ _. by apply inv_put_hdr.
  - refine (wp_result _ (fun _ s' => pin_inv s'.1) _ _ _ _ E). apply wp_detach; [done|done|]. intros port n h Hp Hn _ Hh.
    destruct (h_pin h =? -1); [done|]. by apply inv_put_hdr.
  - unfold stm32_pin_irq_enable in E. destruct (get_pin pin) as [i|] eqn:Er; [|by injection E as _ <-].
    destruct (get_pin_spec _ _ Er) as (port & n & Hp & Hn & -> & _ & _). destruct (enabled =? PIN_IRQ_ENABLE).
    + destruct (lookup_lt_is_Some_2 (pin_irq_hdr_tab s.1) (Z.to_nat n)) as [h Hh]; [rewrite (pv_tab _ Hi); lia|].
      destruct (irq_mode_and_pull (h_mode h)) as [mp|] eqn:Em.
      * refine (wp_result _ (fun _ s' => pin_inv s'.1) _ _ _ _ E). eapply wp_irq_on; [done|done|done|exact Hh|done|]. intros _. by exists mp.
      * revert E. unfold irq_on. destruct (get_pin_at port n Hp Hn) as [_ ->]. rewrite (bind_some _ _ s h s) by (unfold get_hdr, deref; by rewrite Hh).
        destruct (h_pin h =? -1); [by intros [= _ <-]|]. rewrite (bind_some _ _ s (2 ^ n, irqno n) s) by (unfold deref; by destruct (pin_irq_map_row n Hn) as (-> & _)).
        rewrite Em. done.
    + destruct (enabled =? PIN_IRQ_DISABLE); [|by injection E as _ <-].
      refine (wp_result _ (fun _ s' => pin_inv s'.1) _ _ _ _ E). by eapply wp_irq_off.
  - refine (wp_result _ (fun _ s' => pin_inv s'.1) _ _ _ _ E). by apply wp_mode.
  - refine (wp_result _ (fun _ s' => pin_inv s'.1) _ _ _ _ E). by apply wp_write.
  - refine (wp_result _ (fun _ s' => pin_inv s'.1) _ _ _ _ E). by apply wp_read.
  - rewrite exti_vector_eq in Hv by done. injection Hv as <-.
    destruct (irq_handler_eq (lines_of (irqno n)) s) as (v & _ & Eh); [apply lines_nodup|intros k Hk; by apply (proj1 (lines_of_spec n k Hn))|done|].
    rewrite Eh in E. clear Eh. case_match; [|done]. destruct p as [[] t]. injection E as <-. by apply with_pr1_inv.
  - apply inv_chip; [done|done| |done]. intros n Hn'. by rewrite Hl.
Qed.

(** C17: Invariant: whatever is attached, detached, enabled, disabled, set up, written and interrupted,
    the interrupt controller has an interrupt of the lines on exactly when one of its lines is
    enabled, and every line enabled is unmasked. *)
Theorem pins_invariant s tr s' : pin_inv s.1 -> steps pin_step s tr s' -> pin_inv s'.1 /\
  forall n, 0 <= n < 16 -> irqno n ∈ c_nvic (p_chip s'.1) <-> exists k, 0 <= k < 16 /\ irqno k = irqno n /\ Z.testbit (pin_irq_enable_mask s'.1) k = true.
Proof.
  intros Hi Hrun. assert (Hi' : pin_inv s'.1).
  { induction Hrun as [s|s l s1 tr s' Hstep _ IH]; [done|]. apply IH. by eapply pin_step_inv. }
  split; [done|]. intros n Hn. split; [by apply (pv_off _ Hi')|]. intros (k & Hk & <- & Hb). by apply (pv_on _ Hi').
Qed.

End interrupts.

(** ** Witnesses: the button on pin 13 of port C *)

#[local] Instance sample_writes : chip_writes := {
  bsrr_write odr v := Z.lor (Z.land odr (Z.lnot (Z.shiftr v 16))) (Z.land v 0xFFFF);
  pr1_write old v := Z.land old (Z.lnot v)
}.
Lemma sample_writes_ok : chip_writes_ok.
Proof.
  split; cbn.
  - intros odr v i Hi. rewrite Z.lor_spec, !Z.land_spec, Z.lnot_spec, Z.shiftr_spec by lia. change 0xFFFF with (Z.ones 16).
    rewrite Z.ones_spec_low by lia. rewrite andb_true_r. apply orb_comm.
  - intros old v i Hi. by rewrite Z.land_spec, Z.lnot_spec by lia.
Qed.

Definition reset_pins : pin_state := mkPins reset_chip (repeat no_hdr 16) 0.
Lemma reset_pins_inv : pin_inv reset_pins.
Proof.
  split; [apply reset_chip_ok|done|cbn; lia| | |]; cbn [reset_pins p_chip pin_irq_enable_mask reset_chip c_nvic]; try (intros n _; by rewrite Z.bits_0).
  intros n _ Hin. set_solver.
Qed.

(** The functions attached count what they are called with. *)
Definition count_call (f : positive) (args : Z) : M (list (positive * Z)) unit := modify (fun l => l ++ [(f, args)]).
Definition no_work : M (list (positive * Z)) unit := mret tt.

Lemma pin_irq_spec_witness : exists x, attach_enable (GET_PIN 2 13) PIN_IRQ_MODE_RISING 7 0 (reset_pins, @nil (positive * Z)) = Some ((0, 0), (x, [])) /\
  pin_inv x /\ armed 2 13 PIN_IRQ_MODE_RISING 7 0 x.
Proof.
  destruct (@pin_irq_spec (list (positive * Z)) sample_writes count_call no_work no_work sample_writes_ok 2 13 PIN_IRQ_MODE_RISING 7 0 no_hdr (reset_pins, [])
    ltac:(lia) ltac:(lia) reset_pins_inv eq_refl eq_refl ltac:(unfold PIN_IRQ_MODE_RISING; lia)) as (x & E & Hi & Ha & _).
  exists x. split; [exact E|]. split; [exact Hi|exact Ha].
Defined.

(** The line asks for its interrupt, which calls the function and takes the request back. *)
Definition button_line : pin_state * list (positive * Z) := after (attach_enable (GET_PIN 2 13) PIN_IRQ_MODE_RISING 7 5) (reset_pins, []).
Definition pressed_line : pin_state * list (positive * Z) := (with_pr1 0x2000 button_line.1, button_line.2).
Definition after_press : pin_state * list (positive * Z) := after (EXTI15_10_IRQHandler count_call no_work no_work) pressed_line.
Example after_press_calls : after_press.2 = [(7%positive, 5)] /\ pr1 after_press.1 = 0.
Proof. by vm_compute. Qed.

Lemma pins_invariant_witness : pin_inv after_press.1.
Proof.
  refine (proj1 (@pins_invariant (list (positive * Z)) sample_writes count_call no_work no_work sample_writes_ok (reset_pins, [])
    [LAttach 45 0; LEnable 45 1 0; LChip; LInterrupt 40] after_press reset_pins_inv _)).
  eapply steps_cons; [refine (ps_attach count_call no_work no_work 45 0 (Some 7%positive) 5 0 (reset_pins, []) (after (stm32_pin_attach_irq 45 0 (Some 7%positive) 5) (reset_pins, [])) _);
    apply (after_some (stm32_pin_attach_irq 45 0 (Some 7%positive) 5)); by vm_compute|].
  eapply steps_cons; [refine (ps_enable count_call no_work no_work 45 1 0 _ button_line _); by vm_compute|].
  eapply steps_cons; [refine (ps_chip count_call no_work no_work button_line.1 (p_chip pressed_line.1) button_line.2 button_line.2 _ _ _)|].
  { split; [by vm_compute| |by vm_compute]. intros q r Hr. do 11 (destruct q as [|q]; [by injection Hr as <-|]). done. }
  { intros n Hn. done. }
  { done. }
  eapply steps_cons; [refine (ps_interrupt count_call no_work no_work 13 (EXTI15_10_IRQHandler count_call no_work no_work) _ after_press _ eq_refl _); [lia|by vm_compute]|].
  apply steps_nil.
Defined.
