(* ===== verification/Idle.v ===== *)
(** * Idle: rt-thread/src/idle.c and irq.c

    The hooks of the idle loop, the release of the threads that were deleted, the start of
    the idle thread, and the nesting of interrupts.  The stacks given back to the heap are
    the result of the cleanup, as addresses in the order they are freed. *)

From S2P Require Import Prelude RtList KService Printf Kernel Scheduler Object TimerCore Thread Timer Ipc.

#[local] Open Scope Z_scope.

(** ** Definitions *)

Definition RT_IDLE_HOOK_LIST_SIZE : nat := 4.

(** [idle_hook_list]; [None] is RT_NULL. *)
Definition hook_list : Type := list (option positive).

(** The loops stop at the first entry that is [old]. *)
Fixpoint replace_first (old new : option positive) (l : hook_list) : option hook_list :=
  match l with
  | [] => None
  | h :: l => if bool_decide (h = old) then Some (new :: l) else (h ::.) <$> replace_first old new l
  end.
Definition rt_thread_idle_sethook (hook : option positive) (l : hook_list) : Z * hook_list :=
  match replace_first None hook l with Some l => (RT_EOK, l) | None => (- RT_EFULL, l) end.
Definition rt_thread_idle_delhook (hook : option positive) (l : hook_list) : Z * hook_list :=
  match replace_first hook None l with Some l => (RT_EOK, l) | None => (- RT_ENOSYS, l) end.
(** The hooks one round of [rt_thread_idle_entry] calls. *)
Definition idle_hooks_called (l : hook_list) : list positive := omap id l.

Definition _has_defunct_thread : K bool := gets (fun s => negb (list_isempty LDefunct (k_tlist s))).

(** One turn of the cleanup; the control block is freed with the object. *)
Definition reap_one : K Z :=
  thread ← first_of LDefunct;
  tlist_modify (list_remove thread) ;;
  th ← get_thread thread;
  rt_object_delete (OThread thread) ;;
  modify (set_k_threads (delete thread)) ;;
  mret (th_stack_addr th).
Fixpoint reap_loop (fuel : nat) : K (list Z) :=
  match fuel with
  | O => fault
  | S fuel =>
      defunct ← _has_defunct_thread;
      if (defunct : bool) then a ← reap_one; l ← reap_loop fuel; mret (a :: l) else mret []
  end.
Definition rt_thread_idle_excute (fuel : nat) : K (list Z) :=
  not_in_interrupt ;; reap_loop fuel.

(** The idle thread [idle]: its name is printed into [tidle_name], at address [buf]; its
    stack is at [stack]. *)
Definition IDLE_THREAD_STACK_SIZE : Z := 256.
Definition rt_thread_idle_init (rom : mem) (null_string : Z) (fuel : nat) (fmt buf : Z) (m : mem)
    (idle : tid) (rt_thread_idle_entry : positive) (stack : Z) : K unit :=
  r ← deref (fun _ => rt_sprintf rom null_string fuel buf fmt [0] m);
  rt_thread_init idle (bytes r.2 buf RT_NAME_MAX) rt_thread_idle_entry 0 stack IDLE_THREAD_STACK_SIZE (RT_THREAD_PRIORITY_MAX - 1) 32 ;;
  rt_thread_startup idle ;;
  mret tt.
Definition rt_thread_idle_gethandler (idle : tid) : tid := idle.

(** irq.c: [rt_interrupt_nest], a byte. *)
Definition rt_interrupt_enter : K unit := modify (set_k_irq_nest (fun n => u8 (n + 1))).
Definition rt_interrupt_leave : K unit := modify (set_k_irq_nest (fun n => u8 (n - 1))).
Definition rt_interrupt_get_nest : K Z := gets k_irq_nest.

(** ** The threads that were deleted *)

(** The threads on the list of the defunct are closed, dynamic, and not running. *)
Definition defunct_ok (s : kstate) : Prop := forall t, t ∈ k_tlist s LDefunct ->
  k_current s ≠ Some t /\
  exists th x, k_threads s !! t = Some th /\ tstat th = RT_THREAD_CLOSE /\
    k_obj s !! OThread t = Some x /\ Z.land (o_type x) RT_Object_Class_Static = 0.

(** The state without thread [t]. *)
Definition reaped (t : tid) (s : kstate) : kstate :=
  set_k_threads (delete t) (set_k_obj (fun m => delete (OThread t) (alter (set_o_type (fun _ => RT_Object_Class_Null)) (OThread t) m))
    (set_k_containers (list_remove (OThread t)) (set_k_tlist (list_remove t) s))).

Lemma reaped_obj t s o : o ≠ OThread t -> k_obj (reaped t s) !! o = k_obj s !! o.
Proof. intros Hne. cbn. by rewrite lookup_delete_ne, lookup_alter_ne by congruence. Qed.

Lemma reaped_sched t th s : sched_inv s -> k_threads s !! t = Some th -> tstat th = RT_THREAD_CLOSE -> k_current s ≠ Some t -> sched_inv (reaped t s).
Proof.
  intros [Hr [C1 C2]] Ht Hs Hc.
  assert (Hr1 : ready_inv None (set_k_tlist (list_remove t) s)) by (eapply unlink_ready; [done..|by rewrite Hs]).
  destruct Hr1 as [R1 R2 R3 R4 R5 R6]. split; [split|split].
  - exact R1.
  - intros u thu; cbn; intros [_ Hu]%lookup_delete_Some. by eapply R2.
  - intros p u Hu. destruct (R3 p u Hu) as (thu & Hthu & Hsu & Hp). exists thu. split; [|done].
    cbn. rewrite lookup_delete_ne; [done|]. intros <-. cbn in Hthu. simplify_eq. by rewrite Hs in Hsu.
  - intros u thu; cbn; intros [_ Hu]%lookup_delete_Some. by apply R4.
  - exact R5.
  - exact R6.
  - intros c Hcc. destruct (C1 c Hcc) as (thc & Hthc & H1 & H2). exists thc. split; [|done]. cbn in Hcc |- *. rewrite lookup_delete_ne by congruence. done.
  - intros u thu; cbn; intros [_ Hu]%lookup_delete_Some Hsu. destruct (C2 u thu Hu Hsu) as [H1 H2]. split; [done|].
    intros h [Hin _]%elem_of_list_remove. by apply (H2 h).
Qed.

Lemma reaped_ipc t th s : ipc_inv s -> k_threads s !! t = Some th -> tstat th = RT_THREAD_CLOSE -> k_current s ≠ Some t -> ipc_inv (reaped t s).
Proof.
  intros [[K1 [O1 O2] [T1 T2 T3] K4 K5] Hw] Ht Hs Hc. split; [split|].
  - by eapply reaped_sched.
  - split; [by apply wf_list_remove|]. intros i o [Hin Hne]%elem_of_list_remove. rewrite reaped_obj by done. by apply O2.
  - split; [done| |].
    + intros h tm Hin. rewrite reaped_obj by done. by apply T2.
    + intros tm o. rewrite reaped_obj by done. apply T3.
  - intros u thu; cbn; intros [Hne Hu]%lookup_delete_Some Hcl. destruct (K4 u thu Hu Hcl) as (x & xt & v & Hrest). exists x, xt, v.
    rewrite !reaped_obj by congruence. exact Hrest.
  - intros u h Hh Hin. destruct (K5 u h Hh Hin) as (thu & Hu & Hsu). exists thu. split; [|done]. cbn.
    rewrite lookup_delete_ne; [done|]. intros <-. simplify_eq. by rewrite Hs in Hsu.
  - intros h u Hh [Hin Hne]%elem_of_list_remove. destruct (Hw h u Hh Hin) as (thu & Hu & Hsu). exists thu. split; [|done]. cbn.
    by rewrite lookup_delete_ne.
Qed.

Lemma reaped_defunct t l s : wf_space (k_tlist s) -> k_tlist s LDefunct = t :: l -> defunct_ok s ->
  k_tlist (reaped t s) LDefunct = l /\ defunct_ok (reaped t s).
Proof.
  intros Hwf El Hd. pose proof (proj1 Hwf LDefunct) as Hn. rewrite El in Hn. apply NoDup_cons in Hn as [Hn _].
  assert (El' : k_tlist (reaped t s) LDefunct = l).
  { cbn. unfold list_remove. rewrite El. rewrite filter_cons_False by (by intros []). exact (list_remove_unlinked_id t (fun _ : unit => l) tt Hn). }
  split; [done|]. intros u Hu. rewrite El' in Hu. destruct (Hd u) as (Hc & th & x & Ht & Hs & Hx & Hst); [rewrite El; by right|].
  assert (Hne : t ≠ u) by (intros ->; by apply Hn). split; [done|]. exists th, x. rewrite reaped_obj by congruence. cbn. by rewrite lookup_delete_ne.
Qed.

Lemma wp_reap_one t th l (Q : Z -> kstate -> Prop) s :
  defunct_ok s -> k_tlist s LDefunct = t :: l -> k_threads s !! t = Some th -> Q (th_stack_addr th) (reaped t s) -> wp reap_one Q s.
Proof.
  intros Hd El Ht HQ. destruct (Hd t) as (_ & th' & x & Ht' & _ & Hx & Hst); [rewrite El; by left|]. simplify_eq.
  unfold reap_one, first_of. rewrite wp_bind. eapply wp_deref; [by rewrite El|]. rewrite wp_bind. unfold tlist_modify. rewrite wp_modify.
  rewrite wp_bind. eapply wp_get_thread; [exact Ht|]. rewrite wp_bind. unfold rt_object_delete. rewrite wp_bind. eapply wp_get_obj; [exact Hx|].
  rewrite wp_bind. apply wp_assert; [by rewrite Hst|]. rewrite wp_bind. eapply wp_upd_obj; [exact Hx|]. unfold containers_modify.
  rewrite wp_bind, wp_modify, wp_modify, wp_bind, wp_modify, wp_ret.
  assert (E : forall a b : kstate, a = b -> Q (th_stack_addr th) a -> Q (th_stack_addr th) b) by (by intros a b ->). eapply E; [|exact HQ].
  unfold reaped, set_k_threads, set_k_obj, set_k_containers, set_k_tlist. cbn. f_equal.
  apply map_eq. intros o. destruct (decide (o = OThread t)) as [->|Hne]; [by rewrite !lookup_delete_eq|].
  by rewrite !lookup_delete_ne, lookup_alter_ne, lookup_insert_ne by congruence.
Qed.

(** The stacks of a list of threads. *)
Definition stacks_of (s : kstate) (l : list tid) : list Z := omap (fun t => th_stack_addr <$> k_threads s !! t) l.

Lemma wp_reap_loop l fuel s : ipc_inv s -> defunct_ok s -> k_tlist s LDefunct = l -> (length l < fuel)%nat ->
  wp (reap_loop fuel) (fun r s' => r = stacks_of s l /\ ipc_inv s' /\ s' = foldl (fun s t => reaped t s) s l /\ k_tlist s' LDefunct = []) s.
Proof.
  revert fuel s. induction l as [|t l IH]; intros [|fuel] s Hi Hd El Hf; try (cbn in Hf; lia); cbn [reap_loop];
    unfold _has_defunct_thread, list_isempty; rewrite wp_bind, wp_gets, El.
  - rewrite bool_decide_eq_true_2 by done. cbn [negb]. rewrite wp_ret. done.
  - rewrite bool_decide_eq_false_2 by done. cbn [negb].
    destruct (Hd t) as (Hc & th & x & Ht & Hs & Hx & Hst); [rewrite El; by left|].
    destruct (reaped_defunct t l s (ri_space _ _ (proj1 (ki_sched _ (ii_kernel _ Hi)))) El Hd) as [El' Hd'].
    rewrite wp_bind. eapply wp_reap_one; [done..|]. rewrite wp_bind.
    eapply wp_mono, (IH fuel (reaped t s)); [|by eapply reaped_ipc|done|done|cbn in Hf; lia].
    intros r s' (-> & Hi' & -> & He). rewrite wp_ret. split; [|done]. unfold stacks_of. cbn [omap list_omap]. rewrite Ht. cbn. f_equal.
    pose proof (proj1 (ri_space _ _ (proj1 (ki_sched _ (ii_kernel _ Hi)))) LDefunct) as Hn. rewrite El in Hn. apply NoDup_cons in Hn as [Hn _].
    clear -Hn. induction l as [|u l IHl]; [done|]. cbn [omap list_omap]. apply not_elem_of_cons in Hn as [Hne Hn].
    cbn. rewrite lookup_delete_ne by congruence. destruct (th_stack_addr <$> k_threads s !! u); [f_equal|]; by apply IHl.
Qed.


Lemma reaped_all l s : let s' := foldl (fun s t => reaped t s) s l in
  (forall t, t ∈ l -> k_obj s' !! OThread t = None /\ k_threads s' !! t = None) /\
  (forall o, (forall t, t ∈ l -> o ≠ OThread t) -> k_obj s' !! o = k_obj s !! o) /\
  (forall t, t ∉ l -> k_threads s' !! t = k_threads s !! t).
Proof.
  revert s. induction l as [|u l IH]; intros s; [split; [by intros ? []%elem_of_nil|done]|]. cbn [foldl].
  destruct (IH (reaped u s)) as (H1 & H2 & H3). split; [|split].
  - intros t Ht. destruct (decide (t ∈ l)) as [Hin|Hn]; [by apply H1|]. apply elem_of_cons in Ht as [->|Ht]; [|done]. split.
    + rewrite H2; [cbn; apply lookup_delete_eq|]. intros t Ht [= ->]. done.
    + rewrite H3 by done. cbn. apply lookup_delete_eq.
  - intros o Ho. rewrite H2 by (intros t Ht; apply Ho; by right). apply reaped_obj, Ho. by left.
  - intros t Ht. apply not_elem_of_cons in Ht as [Hne Ht]. rewrite H3 by done. cbn. by rewrite lookup_delete_ne.
Qed.

Lemma wp_idle_excute fuel s (Q : list Z -> kstate -> Prop) :
  ipc_inv s -> defunct_ok s -> k_irq_nest s = 0 -> (length (k_tlist s LDefunct) < fuel)%nat ->
  (forall s', ipc_inv s' -> k_tlist s' LDefunct = [] ->
     (forall t, t ∈ k_tlist s LDefunct -> k_obj s' !! OThread t = None /\ k_threads s' !! t = None) ->
     (forall o, (forall t, t ∈ k_tlist s LDefunct -> o ≠ OThread t) -> k_obj s' !! o = k_obj s !! o) ->
     (forall t, t ∉ k_tlist s LDefunct -> k_threads s' !! t = k_threads s !! t) ->
     Q (stacks_of s (k_tlist s LDefunct)) s') ->
  wp (rt_thread_idle_excute fuel) Q s.
Proof.
  intros Hi Hd Hn Hf HQ. unfold rt_thread_idle_excute, not_in_interrupt. rewrite wp_bind, wp_bind, wp_gets. apply wp_assert; [by rewrite Hn|].
  eapply wp_mono, (wp_reap_loop (k_tlist s LDefunct)); [|done..]. intros r s' (-> & Hi' & -> & He).
  destruct (reaped_all (k_tlist s LDefunct) s) as (H1 & H2 & H3). by apply HQ.
Qed.

(** *** Deleting a thread *)

(** What [rt_thread_delete] leaves. *)
Definition deleted (t : tid) (th : rt_thread) (xt : rt_object) (log : list (positive * tid)) (s : kstate) : kstate :=
  set_k_tlist (list_insert_after LDefunct t)
    (set_k_threads <[t := set_th_stat (fun _ => RT_THREAD_CLOSE) th]>
      (set_k_containers (list_remove (OTimer (TThread t)))
        (set_k_obj <[OTimer (TThread t) := set_o_type (fun _ => 0) (clear_active xt)]>
          (set_k_trow (list_remove (TThread t))
            (set_k_cleanups (fun _ => log) (remove_ready t th s)))))).

Lemma deleted_sched t th xt log s : sched_inv s -> k_threads s !! t = Some th -> Scheduler.started (tstat th) -> th_ok th -> k_current s ≠ Some t ->
  sched_inv (deleted t th xt log s).
Proof.
  intros Hs Ht Hst Hok Hc. pose proof (park_sched t th (fun _ => RT_THREAD_CLOSE) s Hs Ht Hst (th_ok_closed _ Hok) ltac:(done)) as [Hr [C1 C2]].
  destruct Hr as [R1 R2 R3 R4 R5 R6].
  assert (Hul : unlinked t (k_tlist (park t th (fun _ => RT_THREAD_CLOSE) s))) by (apply list_remove_unlinked).
  assert (Hne : forall p, k_tlist (deleted t th xt log s) (LReady p) = k_tlist (park t th (fun _ => RT_THREAD_CLOSE) s) (LReady p)).
  { intros p. cbn. unfold list_insert_after. by rewrite insert_ne. }
  split; [split|split].
  - by apply (wf_list_insert_after LDefunct t).
  - exact R2.
  - intros p u. rewrite Hne. apply R3.
  - intros u thu. rewrite Hne. apply R4.
  - exact R5.
  - intros p Hp. rewrite Hne. by apply R6.
  - exact C1.
  - intros u thu Hu Hsu. destruct (C2 u thu Hu Hsu) as [H1 H2]. split; [done|]. intros h Hin. apply (H2 h). cbn in Hin. unfold list_insert_after in Hin.
    destruct (decide (LDefunct = h)) as [<-|Hh]; [|by rewrite insert_ne in Hin]. rewrite insert_eq in Hin. apply elem_of_cons in Hin as [->|Hin]; [|done].
    cbn in H1. congruence.
Qed.

Lemma deleted_obj t th xt log s o : o ≠ OTimer (TThread t) -> k_obj (deleted t th xt log s) !! o = k_obj s !! o.
Proof. intros Hne. cbn. by rewrite lookup_insert_ne. Qed.
Lemma deleted_thread t th xt log s u : u ≠ t -> k_threads (deleted t th xt log s) !! u = k_threads s !! u.
Proof. intros Hne. cbn. by rewrite lookup_insert_ne. Qed.
Lemma deleted_lists t th xt log s h : k_tlist (deleted t th xt log s) h =
  if decide (h = LDefunct) then t :: list_remove t (k_tlist s) LDefunct else list_remove t (k_tlist s) h.
Proof. cbn. unfold list_insert_after. destruct (decide (h = LDefunct)) as [->|Hne]; [by rewrite insert_eq|by rewrite insert_ne]. Qed.

Lemma deleted_ipc t th xt log s : ipc_inv s -> k_threads s !! t = Some th -> Scheduler.started (tstat th) -> k_current s ≠ Some t ->
  ipc_inv (deleted t th xt log s).
Proof.
  intros [Hk Hw] Ht Hst Hc. pose proof (kinv_th_ok _ _ _ Hk Ht) as Hok. destruct Hk as [K1 [O1 O2] [T1 T2 T3] K4 K5]. split; [split|].
  - by apply deleted_sched.
  - split; [by apply wf_list_remove|]. intros i o [Hin Hne]%elem_of_list_remove. rewrite deleted_obj by done. by apply O2.
  - split; [by apply wf_list_remove| |].
    + intros h tm [Hin Hne]%elem_of_list_remove. rewrite deleted_obj by congruence. by apply T2.
    + intros tm o Ho Hcl Ha. destruct (decide (tm = TThread t)) as [->|Hne].
      * cbn in Ho. rewrite lookup_insert_eq in Ho. injection Ho as <-. done.
      * rewrite deleted_obj in Ho by congruence. destruct (T3 tm o Ho Hcl Ha) as [h Hin]. exists h. by apply elem_of_list_remove.
  - intros u thu. cbn. intros [[<- <-]|[Hne Hu]]%lookup_insert_Some Hcl; [done|].
    destruct (K4 u thu Hu Hcl) as (x & xt' & v & Hrest). exists x, xt', v. rewrite !deleted_obj by congruence. exact Hrest.
  - intros u h Hh [Hin Hne]%elem_of_list_remove. destruct (K5 u h Hh Hin) as (thu & Hu & Hsu). exists thu.
    by rewrite deleted_thread by congruence.
  - intros h u Hh. rewrite deleted_lists. destruct (decide (h = LDefunct)) as [->|_]; [done|]. intros [Hin Hne]%elem_of_list_remove.
    destruct (Hw h u Hh Hin) as (thu & Hu & Hsu). exists thu. by rewrite deleted_thread.
Qed.

Lemma deleted_defunct t th xt x log s : defunct_ok s -> k_obj s !! OThread t = Some x -> Z.land (o_type x) RT_Object_Class_Static = 0 ->
  k_current s ≠ Some t -> defunct_ok (deleted t th xt log s).
Proof.
  intros Hd Hx Hst Hc u. rewrite deleted_lists, decide_True by done. intros [->|[Hu Hne]%elem_of_list_remove]%elem_of_cons.
  - split; [done|]. exists (set_th_stat (fun _ => RT_THREAD_CLOSE) th), x. rewrite deleted_obj by done. cbn. by rewrite lookup_insert_eq.
  - destruct (Hd u Hu) as (H1 & thu & xu & H2 & H3 & H4 & H5). split; [done|]. exists thu, xu. by rewrite deleted_obj, deleted_thread.
Qed.

Lemma wp_rt_thread_delete t th x (Q : Z -> kstate -> Prop) s :
  ipc_inv s -> defunct_ok s -> k_threads s !! t = Some th -> stat_class (tstat th) = RT_THREAD_READY \/ tstat th = RT_THREAD_SUSPEND ->
  k_obj s !! OThread t = Some x -> Z.land (o_type x) RT_Object_Class_Static = 0 -> k_current s ≠ Some t ->
  (forall xt log, ipc_inv (deleted t th xt log s) -> defunct_ok (deleted t th xt log s) -> Q RT_EOK (deleted t th xt log s)) ->
  wp (rt_thread_delete t) Q s.
Proof.
  intros Hi Hd Ht Hcl Hx Hst Hc HQ. pose proof (ii_kernel _ Hi) as Hk. pose proof (kinv_th_ok _ _ _ Hk Ht) as Hok.
  assert (Hns : Scheduler.started (tstat th)) by (destruct Hcl as [Hcl|Hcl]; split; intros E; by rewrite E in Hcl).
  pose proof (kinv_live _ _ _ Hk Ht (proj2 Hns)) as Hl.
  pose proof Hl as (x' & xt & v & H1 & H2 & H3 & H4 & H5 & H6 & H7 & H8 & H9). simplify_eq.
  unfold rt_thread_delete. rewrite wp_bind. eapply wp_is_thread; [done|]. rewrite wp_bind. unfold rt_object_is_systemobject.
  rewrite wp_bind. eapply wp_get_obj; [exact Hx|]. rewrite wp_ret, Hst. rewrite wp_bind. apply wp_assert; [done|].
  rewrite wp_bind. eapply wp_get_thread; [exact Ht|]. cbv zeta. fold (tstat th).
  rewrite (proj2 (Z.eqb_neq _ _) (proj2 Hns)), (proj2 (Z.eqb_neq _ _) (proj1 Hns)). cbn [negb when].
  rewrite wp_bind. apply wp_unfold. do 2 eexists. split; [by apply rt_schedule_remove_thread_eq|].
  rewrite wp_bind. eapply wp_cleanup; [done|]. intros log. rewrite wp_bind.
  eapply wp_detach_timer; [by eapply thread_live_ext; [..|exact Hl]|exact H3|exact Hx|].
  rewrite wp_bind. eapply wp_upd_thread; [exact Ht|]. unfold tlist_modify. rewrite wp_bind, wp_modify, wp_ret.
  apply (HQ xt log); [by apply deleted_ipc|by eapply deleted_defunct].
Qed.

(** ** Properties *)

(** The cleanup of the idle thread ends and never faults: it frees the stack of every thread
    on the list of the defunct once, takes their objects and control blocks away and
    nothing else, empties the list and keeps the kernel invariant. *)
Theorem rt_thread_idle_excute_spec fuel s :
  ipc_inv s -> defunct_ok s -> k_irq_nest s = 0 -> (length (k_tlist s LDefunct) < fuel)%nat ->
  wp (rt_thread_idle_excute fuel) (fun freed s' =>
    freed = stacks_of s (k_tlist s LDefunct) /\ ipc_inv s' /\ k_tlist s' LDefunct = [] /\
    (forall t, t ∈ k_tlist s LDefunct -> k_obj s' !! OThread t = None /\ k_threads s' !! t = None) /\
    (forall o, (forall t, t ∈ k_tlist s LDefunct -> o ≠ OThread t) -> k_obj s' !! o = k_obj s !! o) /\
    (forall t, t ∉ k_tlist s LDefunct -> k_threads s' !! t = k_threads s !! t)) s.
Proof. intros. by apply wp_idle_excute. Qed.

(** A thread that is deleted while it is ready or waits disappears at the next cleanup: it is
    the first of those whose stacks are freed, and no other thread is touched but the ones
    deleted before. *)
Theorem delete_then_idle t th x fuel s :
  ipc_inv s -> defunct_ok s -> k_irq_nest s = 0 -> (length (k_tlist s LDefunct) + 1 < fuel)%nat ->
  k_threads s !! t = Some th -> stat_class (tstat th) = RT_THREAD_READY \/ tstat th = RT_THREAD_SUSPEND ->
  k_obj s !! OThread t = Some x -> Z.land (o_type x) RT_Object_Class_Static = 0 -> k_current s ≠ Some t ->
  wp (r ← rt_thread_delete t; freed ← rt_thread_idle_excute fuel; mret (r, freed)) (fun r s' =>
    r = (RT_EOK, th_stack_addr th :: stacks_of s (k_tlist s LDefunct)) /\ ipc_inv s' /\
    k_threads s' !! t = None /\ k_obj s' !! OThread t = None /\ k_tlist s' LDefunct = [] /\
    (forall u, u ≠ t -> u ∉ k_tlist s LDefunct -> k_threads s' !! u = k_threads s !! u)) s.
Proof.
  intros Hi Hd Hn Hf Ht Hcl Hx Hst Hc. rewrite wp_bind. eapply wp_rt_thread_delete; [done..|]. intros xt log Hi1 Hd1.
  assert (Hoff : t ∉ k_tlist s LDefunct).
  { intros Hin. destruct (Hd t Hin) as (_ & th' & _ & Ht' & Hs' & _). simplify_eq. rewrite Hs' in Hcl. destruct Hcl; done. }
  assert (El : k_tlist (deleted t th xt log s) LDefunct = t :: k_tlist s LDefunct).
  { rewrite deleted_lists, decide_True by done. by rewrite list_remove_unlinked_id. }
  rewrite wp_bind. apply wp_idle_excute; [done|done|done|rewrite El; cbn; lia|]. rewrite El. intros s' Hi' He H1 H2 H3. rewrite wp_ret.
  split; [|split; [done|]].
  - f_equal. unfold stacks_of. cbn [omap list_omap]. replace (k_threads (deleted t th xt log s) !! t) with (Some (set_th_stat (fun _ => RT_THREAD_CLOSE) th)) by (symmetry; apply lookup_insert_eq).
    cbn. f_equal. clear -Hoff. induction (k_tlist s LDefunct) as [|u l IH]; [done|]. apply not_elem_of_cons in Hoff as [Hne Hoff]. cbn [omap list_omap].
    rewrite lookup_insert_ne by congruence. destruct (th_stack_addr <$> k_threads s !! u); [f_equal|]; by apply IH.
  - destruct (H1 t) as [? ?]; [by left|]. do 3 (split; [done|]). intros u Hne Hu. rewrite H3 by (by apply not_elem_of_cons). by apply deleted_thread.
Qed.

(** *** Hooks, interrupts, the name of the idle thread *)

Lemma replace_first_elem old new l l' : replace_first old new l = Some l' -> old ∈ l.
Proof.
  revert l'. induction l as [|h l IH]; intros l' E; cbn in E; [done|]. case_bool_decide as Eh; [subst; by left|].
  destruct (replace_first old new l) as [l1|]; [|done]. right. by eapply IH.
Qed.
Lemma replace_first_none old new l : replace_first old new l = None <-> old ∉ l.
Proof.
  induction l as [|h l IH]; cbn; [split; [by intros _ ?%elem_of_nil|done]|]. rewrite not_elem_of_cons. case_bool_decide as Eh; [subst; split; [done|by intros []]|].
  destruct (replace_first old new l) as [l1|]; cbn; [split; [done|]|split; [|done]]; intros H; [destruct H as [_ H]; by apply IH in H|].
  split; [by intros E; apply Eh|by apply IH].
Qed.
Lemma replace_first_back old new l l' : new ∉ l -> replace_first old new l = Some l' -> replace_first new old l' = Some l.
Proof.
  revert l'. induction l as [|h l IH]; intros l' Hn E; cbn in E; [done|]. apply not_elem_of_cons in Hn as [Hne Hn]. case_bool_decide as Eh.
  - injection E as <-. cbn. rewrite bool_decide_eq_true_2 by done. by rewrite Eh.
  - destruct (replace_first old new l) as [l1|] eqn:E1; [|done]. injection E as <-. cbn. rewrite bool_decide_eq_false_2 by congruence.
    by rewrite (IH l1 Hn eq_refl).
Qed.

(** A hook is refused exactly when the list is full, and removing a hook that was set gives
    back the list there was. *)
Theorem idle_hook_roundtrip f l :
  (None ∉ l -> rt_thread_idle_sethook (Some f) l = (- RT_EFULL, l)) /\
  (None ∈ l -> Some f ∉ l -> exists l', rt_thread_idle_sethook (Some f) l = (RT_EOK, l') /\ f ∈ idle_hooks_called l' /\
    rt_thread_idle_delhook (Some f) l' = (RT_EOK, l)).
Proof.
  unfold rt_thread_idle_sethook, rt_thread_idle_delhook. split.
  - intros Hn. by rewrite (proj2 (replace_first_none None (Some f) l) Hn).
  - intros Hin Hn. destruct (replace_first None (Some f) l) as [l'|] eqn:E; [|by apply replace_first_none in E].
    pose proof (replace_first_back _ _ _ _ Hn E) as Eb. exists l'. rewrite Eb. split; [done|]. split; [|done].
    apply replace_first_elem in Eb. unfold idle_hooks_called. apply list_elem_of_omap. by exists (Some f).
Qed.

(** An interrupt that comes and goes leaves the nesting as it was. *)
Lemma interrupt_enter_leave k : 0 <= k_irq_nest k < 256 ->
  wp (rt_interrupt_enter ;; rt_interrupt_leave ;; rt_interrupt_get_nest) (fun n k' => n = k_irq_nest k /\ k_irq_nest k' = k_irq_nest k) k.
Proof.
  intros Hn. unfold rt_interrupt_enter, rt_interrupt_leave, rt_interrupt_get_nest. rewrite wp_bind, wp_modify, wp_bind, wp_modify, wp_gets. cbn.
  assert (E : u8 (u8 (k_irq_nest k + 1) - 1) = k_irq_nest k); [|done].
  unfold wrap. rewrite Zminus_mod_idemp_l. replace (k_irq_nest k + 1 - 1) with (k_irq_nest k) by lia. by apply Z.mod_small.
Qed.

(** "tidle%d" *)
Definition idle_format : list Z := [116; 105; 100; 108; 101; 37; 100].
(** "tidle0" *)
Definition idle_name : list Z := [116; 105; 100; 108; 101; 48].

(** What [rt_sprintf] leaves, as bytes. *)
Lemma printed_bytes a l m m' : (forall x, m' x = store8 (a + Z.of_nat (length l)) 0 (printed (a + Z.of_nat (length l)) a l m) x) ->
  bytes m' a (S (length l)) = map u8 l ++ [0].
Proof.
  intros Hm. apply list_eq. intros i. unfold bytes. rewrite list_lookup_fmap. destruct (decide (i < length l)%nat) as [Hi|Hi].
  - rewrite lookup_seq_lt by lia. cbn. rewrite lookup_app_l by (by rewrite length_map). change (map u8 l) with (u8 <$> l). rewrite list_lookup_fmap.
    rewrite Hm. unfold store8, printed. rewrite (proj2 (Z.eqb_neq _ _)), (proj2 (Z.leb_le _ _)), (proj2 (Z.ltb_lt _ _)) by lia. cbn [andb].
    replace (Z.to_nat (a + Z.of_nat i - a)) with i by lia. destruct (lookup_lt_is_Some_2 l i Hi) as [c Ec]. rewrite Ec. cbn.
    by rewrite (list_lookup_total_correct _ _ _ Ec).
  - destruct (decide (i = length l)) as [->|Hne].
    + rewrite lookup_seq_lt by lia. cbn. rewrite lookup_app_r by (by rewrite length_map). rewrite length_map, Nat.sub_diag. cbn.
      rewrite Hm. unfold store8. by rewrite Z.eqb_refl.
    + rewrite lookup_seq_ge by lia. rewrite lookup_ge_None_2; [done|]. rewrite length_app, length_map. cbn [length]. lia.
Qed.

(** The name of the idle thread fits into the eight bytes of [tidle_name]. *)
Lemma idle_name_fits rom null_string fmt buf m : Printf.cstr rom fmt idle_format -> 0 < buf < 2 ^ 32 - 8 ->
  exists m', rt_sprintf rom null_string 8 buf fmt [0] m = Some (6, m') /\
    bytes m' buf 7 = idle_name ++ [0] /\ forall x, ~ buf <= x < buf + 8 -> m' x = m x.
Proof.
  intros Hc Hb. pose proof (eq_refl : 2 ^ 32 = 4294967296) as E32.
  destruct (sprintf_ok rom null_string 8 buf fmt [0] idle_name m) as (m' & Er & Hm).
  - exists idle_format. split; [done|]. split; [|split; [cbn; lia|by vm_compute]].
    apply Forall_forall. intros c Hin. unfold idle_format in Hin. repeat (apply elem_of_cons in Hin as [->|Hin]; [lia|]). by apply elem_of_nil in Hin.
  - lia.
  - cbn [idle_name length]. lia.
  - done.
  - exists m'. split; [exact Er|]. split.
    + exact (printed_bytes buf idle_name m m' Hm).
    + intros x Hx. rewrite Hm. unfold store8, printed. cbn [idle_name length]. rewrite (proj2 (Z.eqb_neq _ _)) by lia.
      destruct (Z.leb_spec buf x); cbn [andb]; [|done]. by rewrite (proj2 (Z.ltb_ge _ _)) by lia.
Qed.

(** ** Witnesses: thread 4 of the sample kernel, as a dynamic thread *)

Lemma retype_ipc t x y s : ipc_inv s -> k_obj s !! OThread t = Some x -> class_of y = class_of x ->
  ipc_inv (set_k_obj <[OThread t := y]> s).
Proof.
  intros [[K1 [O1 O2] [T1 T2 T3] K4 K5] Hw] Hx Hy.
  assert (Hne : forall o, o ≠ OThread t -> k_obj (set_k_obj <[OThread t := y]> s) !! o = k_obj s !! o).
  { intros o Ho. cbn. by rewrite lookup_insert_ne. }
  split; [split|done].
  - by eapply sched_inv_ext; [..|exact K1].
  - split; [done|]. intros i o Hin. destruct (decide (o = OThread t)) as [->|Ho]; [|rewrite Hne by done; by apply O2].
    exists y. split; [apply lookup_insert_eq|]. destruct (O2 i _ Hin) as (x' & Hx' & <-). simplify_eq. exact Hy.
  - split; [done| |].
    + intros h tm Hin. rewrite Hne by done. by apply T2.
    + intros tm o. rewrite Hne by done. apply T3.
  - intros u thu Hu Hcl. destruct (K4 u thu Hu Hcl) as (xu & xt & v & Hxu & Hcu & Hxt & Hrest).
    destruct (decide (u = t)) as [->|Hut].
    + exists y, xt, v. rewrite (Hne (OTimer _)) by done. split; [apply lookup_insert_eq|]. simplify_eq. by rewrite Hy.
    + exists xu, xt, v. by rewrite !Hne by congruence.
  - exact K5.
Qed.

Definition sample_dynamic : kstate := set_k_obj <[OThread 4 := mkObject [] 0x01 0]> sample_timers.
Lemma sample_dynamic_ipc : ipc_inv sample_dynamic.
Proof. eapply retype_ipc; [apply sample_ipc_inv|reflexivity|done]. Qed.
Lemma sample_dynamic_defunct : defunct_ok sample_dynamic.
Proof. intros t Ht. by apply elem_of_nil in Ht. Qed.

Lemma delete_then_idle_witness :
  wp (r ← rt_thread_delete 4; freed ← rt_thread_idle_excute 2; mret (r, freed)) (fun r s' =>
    r = (RT_EOK, [0x20000000]) /\ ipc_inv s' /\ k_threads s' !! 4%positive = None /\ k_obj s' !! OThread 4 = None /\ k_tlist s' LDefunct = [] /\
    (forall u, u ≠ 4%positive -> u ∉ k_tlist sample_dynamic LDefunct -> k_threads s' !! u = k_threads sample_dynamic !! u)) sample_dynamic.
Proof.
  apply (delete_then_idle 4 (sample_thread RT_THREAD_SUSPEND 5) (mkObject [] 0x01 0) 2 sample_dynamic).
  - apply sample_dynamic_ipc.
  - apply sample_dynamic_defunct.
  - done.
  - apply Nat.ltb_lt. by vm_compute.
  - by vm_compute.
  - by right.
  - by vm_compute.
  - done.
  - done.
Defined.

Lemma rt_thread_idle_excute_spec_witness :
  wp (rt_thread_idle_excute 1) (fun freed s' =>
    freed = [] /\ ipc_inv s' /\ k_tlist s' LDefunct = [] /\
    (forall t, t ∈ k_tlist sample_dynamic LDefunct -> k_obj s' !! OThread t = None /\ k_threads s' !! t = None) /\
    (forall o, (forall t, t ∈ k_tlist sample_dynamic LDefunct -> o ≠ OThread t) -> k_obj s' !! o = k_obj sample_dynamic !! o) /\
    (forall t, t ∉ k_tlist sample_dynamic LDefunct -> k_threads s' !! t = k_threads sample_dynamic !! t)) sample_dynamic.
Proof. apply (rt_thread_idle_excute_spec 1 sample_dynamic); [apply sample_dynamic_ipc|apply sample_dynamic_defunct|done|apply Nat.ltb_lt; by vm_compute]. Defined.
