(* ===== verification/Start.v ===== *)
(** * Start: creation of threads, and rt-thread/src/components.c

    Initialising an object or a thread keeps the kernel invariant; the start of the kernel
    establishes it: [rtthread_startup] makes the main, the timer and the idle thread and
    runs the most urgent of them.  The board's initialisation, before it, may have
    registered objects of its own; the version banner only prints. *)

From S2P Require Import Prelude RtList KService Printf Kernel Scheduler Object TimerCore Thread Timer Ipc Idle.

#[local] Open Scope Z_scope.

(** ** Definitions *)

Definition RT_MAIN_THREAD_STACK_SIZE : Z := 2048.
Definition RT_MAIN_THREAD_PRIORITY : Z := 10.
Definition RT_TIMER_THREAD_PRIO : Z := 4.
Definition RT_TIMER_THREAD_STACK_SIZE : Z := 512.

(** "main" and "timer" *)
Definition main_name : list Z := [109; 97; 105; 110].
Definition timer_name : list Z := [116; 105; 109; 101; 114].

(** The results of the two calls of [rt_malloc] are arguments. *)
Definition rt_application_init (malloc : option tid) (stack : option Z) (main_thread_entry : positive) : K unit :=
  tid ← rt_thread_create malloc stack main_name main_thread_entry 0 RT_MAIN_THREAD_STACK_SIZE RT_MAIN_THREAD_PRIORITY 20;
  t ← deref (fun _ => tid);
  rt_thread_startup t ;;
  mret tt.

(** From after [rt_hw_board_init]. *)
Definition rtthread_startup (rom : mem) (null_string : Z) (fuel : nat) (fmt buf : Z) (m : mem)
    (timer_thread idle : tid) (timer_entry idle_entry main_entry : positive) (timer_stack idle_stack : Z)
    (malloc : option tid) (stack : option Z) : K unit :=
  rt_system_timer_init ;;
  rt_system_scheduler_init ;;
  rt_application_init malloc stack main_entry ;;
  rt_system_timer_thread_init timer_thread timer_entry timer_name timer_stack RT_TIMER_THREAD_STACK_SIZE RT_TIMER_THREAD_PRIO ;;
  rt_thread_idle_init rom null_string fuel fmt buf m idle idle_entry idle_stack ;;
  rt_system_scheduler_start.

(** ** States that differ by a dispatch and by objects *)

(** [s'] is [s] but for dispatches, the lock count, and the objects and their containers; a
    scheduler that was not locked is not. *)
Record near (s s' : kstate) : Prop := {
  nr_timers : k_timers s' = k_timers s;
  nr_trow : k_trow s' = k_trow s;
  nr_irq : k_irq_nest s' = k_irq_nest s;
  nr_tick : k_tick s' = k_tick s;
  nr_threads : stripped s' = stripped s;
  nr_lists : forall h, (forall p, h ≠ LReady p) -> k_tlist s' h = k_tlist s h;
  nr_current : is_Some (k_current s) <-> is_Some (k_current s');
  nr_lock : k_lock_nest s = 0 -> k_lock_nest s' = 0;
  nr_mutexes : k_mutexes s' = k_mutexes s
}.

#[global] Instance near_preorder : PreOrder near.
Proof.
  split; [done|]. intros s1 s2 s3 [] []. split; try congruence.
  - intros h Hh. by rewrite nr_lists1, nr_lists0.
  - by rewrite nr_current0, nr_current1.
  - by intros E%nr_lock0%nr_lock1.
Qed.

Lemma near_lookup s s' t th : near s s' -> k_threads s !! t = Some th ->
  exists th', k_threads s' !! t = Some th' /\ strip th' = strip th.
Proof.
  intros [_ _ _ _ E _ _ _ _] Ht. apply (f_equal (lookup t)) in E. unfold stripped in E. rewrite !lookup_fmap, Ht in E.
  destruct (k_threads s' !! t) as [th'|]; [|done]. exists th'. split; [done|]. cbn in E. congruence.
Qed.
Lemma near_lookup_back s s' t th' : near s s' -> k_threads s' !! t = Some th' ->
  exists th, k_threads s !! t = Some th /\ strip th' = strip th.
Proof.
  intros [_ _ _ _ E _ _ _ _] Ht. apply (f_equal (lookup t)) in E. unfold stripped in E. rewrite !lookup_fmap, Ht in E.
  destruct (k_threads s !! t) as [th|]; [|done]. exists th. split; [done|]. cbn in E. congruence.
Qed.
Lemma near_none s s' t : near s s' -> k_threads s !! t = None -> k_threads s' !! t = None.
Proof.
  intros [_ _ _ _ E _ _ _ _] Ht. apply (f_equal (lookup t)) in E. unfold stripped in E. rewrite !lookup_fmap, Ht in E.
  by destruct (k_threads s' !! t).
Qed.

Lemma frame_near n s s' : frame (set_k_lock_nest (fun _ => n) s) s' -> (k_lock_nest s = 0 -> n = 0) ->
  (is_Some (k_current s) <-> is_Some (k_current s')) -> near s s'.
Proof.
  intros Hf Hl Hc. destruct (frame_rest _ _ Hf) as (_ & _ & E3 & E4 & E9 & E6 & E7). destruct Hf as [fr_rest E5 E8]. cbn in *.
  split; try done; [by rewrite E9|]. injection fr_rest. intros. congruence.
Qed.

(** The invariant, when all threads but [t] are as before and [t] was on no list. *)
Lemma ipc_inv_extend t s s' :
  ipc_inv s -> sched_inv s' -> obj_inv s' -> timer_inv s' -> k_trow s' = k_trow s -> unlinked (TThread t) (k_trow s) ->
  (forall h, wait_head h -> k_tlist s' h = k_tlist s h) -> unlinked t (k_tlist s) ->
  (forall u, u ≠ t -> strip <$> k_threads s' !! u = strip <$> k_threads s !! u) ->
  (forall u, u ≠ t -> thread_live u s -> thread_live u s') -> thread_live t s' -> ipc_inv s'.
Proof.
  intros [[_ _ _ K4 K5] Hw] Hs Ho Ht Er Hur El Hul Eth Hlive Hlt.
  assert (Hsame : forall u th, u ≠ t -> k_threads s !! u = Some th -> tstat th = RT_THREAD_SUSPEND ->
    exists th', k_threads s' !! u = Some th' /\ tstat th' = RT_THREAD_SUSPEND).
  { intros u th Hne Hu Hsu. specialize (Eth u Hne). rewrite Hu in Eth. destruct (k_threads s' !! u) as [th'|]; [|done].
    exists th'. split; [done|]. change (Some (strip th') = Some (strip th)) in Eth. apply (inj Some) in Eth. by apply (strip_same_stat _ _ _ Eth). }
  split; [split; try done|].
  - intros u th Hu Hcl. destruct (decide (u = t)) as [->|Hne]; [done|]. specialize (Eth u Hne). rewrite Hu in Eth.
    destruct (k_threads s !! u) as [th0|] eqn:E0; [|done]. change (Some (strip th) = Some (strip th0)) in Eth. apply (inj Some) in Eth. apply Hlive; [done|]. eapply K4; [exact E0|].
    by rewrite <- (strip_same_stat RT_THREAD_CLOSE _ _ Eth).
  - intros u h Hh. rewrite Er. intros Hin. destruct (decide (u = t)) as [->|Hne]; [by destruct (Hur h)|].
    destruct (K5 u h Hh Hin) as (th & Hu & Hsu). by eapply Hsame.
  - intros h u Hh. rewrite El by done. intros Hin. destruct (decide (u = t)) as [->|Hne]; [by destruct (Hul h)|].
    destruct (Hw h u Hh Hin) as (th & Hu & Hsu). by eapply Hsame.
Qed.

(** *** A new object *)

(** [s'] is [s] with object [o] entered into its container. *)
Definition added (o : objid) (x : rt_object) (s s' : kstate) : Prop :=
  near s s' /\ k_obj s' = <[o := x]> (k_obj s) /\ k_containers s' = list_insert_after (class_of x) o (k_containers s).

(** The object is registered nowhere, and the block of no live thread. *)
Record unused (o : objid) (s : kstate) : Prop := {
  uu_containers : unlinked o (k_containers s);
  uu_thread : forall t th, o = OThread t -> k_threads s !! t = Some th -> tstat th = RT_THREAD_CLOSE
}.

Lemma thread_live_insert o x t s s' : thread_live t s -> o ≠ OThread t -> o ≠ OTimer (TThread t) ->
  k_obj s' = <[o := x]> (k_obj s) -> k_timers s' = k_timers s -> thread_live t s'.
Proof.
  intros (y & yt & v & Hy & Hc & Hyt & Hrest) H1 H2 E1 E2. exists y, yt, v. rewrite E1, E2, !lookup_insert_ne by done. done.
Qed.

(** The invariant with a new object that is not a timer. *)
Lemma ipc_inv_added o x s s' : ipc_inv s -> sched_inv s' -> obj_inv s' -> unused o s -> (forall tm, o ≠ OTimer tm) -> added o x s s' -> ipc_inv s'.
Proof.
  intros [[_ _ [T1 T2 T3] K4 K5] Hw] Hs Ho [_ Hu] Hnt ([N1 N2 N3 N4 N5 N6 N7 N8 N9] & E1 & E2).
  assert (Hne : forall tm, k_obj s' !! OTimer tm = k_obj s !! OTimer tm) by (intros tm; by rewrite E1, lookup_insert_ne by apply Hnt).
  assert (Hnear : near s s') by (by split). split; [split; try done|].
  - split; rewrite ?N1, ?N2; [done| |].
    + intros h tm Hin. rewrite Hne. by apply T2.
    + intros tm y. rewrite Hne. apply T3.
  - intros t th' Ht Hcl. destruct (near_lookup_back _ _ _ _ Hnear Ht) as (th & Ht0 & E).
    assert (Hcl0 : tstat th ≠ RT_THREAD_CLOSE) by (by rewrite <- (strip_same_stat RT_THREAD_CLOSE _ _ E)).
    eapply thread_live_insert; [by eapply K4| |by apply Hnt|exact E1|exact N1]. intros ->. by apply Hcl0, (Hu t th).
  - intros t h Hh. rewrite N2. intros Hin. destruct (K5 t h Hh Hin) as (th & Ht & Hst).
    destruct (near_lookup _ _ _ _ Hnear Ht) as (th' & Ht' & E). exists th'. split; [done|]. by apply (strip_same_stat _ _ _ E).
  - intros h t Hh. rewrite N6 by (by intros p ->). intros Hin. destruct (Hw h t Hh Hin) as (th & Ht & Hst).
    destruct (near_lookup _ _ _ _ Hnear Ht) as (th' & Ht' & E). exists th'. split; [done|]. by apply (strip_same_stat _ _ _ E).
Qed.

(** What the header of a new static object holds. *)
Definition static_obj (o : objid) (type : Z) (name : list Z) (s : kstate) : rt_object :=
  mkObject (name_copy name) (Z.lor type RT_Object_Class_Static) (match k_obj s !! o with Some x => o_flag x | None => 0 end).

Lemma wp_object_init_added o type name s :
  sched_inv s -> obj_inv s -> type ∈ rt_object_container -> unlinked o (k_containers s) ->
  wp (rt_object_init o type name) (fun _ s' => sched_inv s' /\ obj_inv s' /\ added o (static_obj o type name s) s s') s.
Proof.
  intros Hi Ho Ht Hu. eapply wp_mono, wp_rt_object_init; [|done..].
  intros _ s' (n & s1 & Hf & Hn & -> & Hi' & Ho' & Hc). split; [done|]. split; [done|].
  pose proof (frame_obj _ _ Hf) as [E1 E2]. cbn in E1, E2. assert (near s s1) as [] by (eapply frame_near; [done|intros E; by rewrite Hn, E|done]).
  split; [by split|]. cbn. unfold static_obj. rewrite E1, E2. split; [done|]. f_equal. unfold class_of. cbn. symmetry. by apply class_type.
Qed.

Lemma wp_object_init_ipc o type name (Q : unit -> kstate -> Prop) s :
  ipc_inv s -> type ∈ rt_object_container -> unused o s -> (forall tm, o ≠ OTimer tm) ->
  (forall s', ipc_inv s' -> added o (static_obj o type name s) s s' -> Q tt s') -> wp (rt_object_init o type name) Q s.
Proof.
  intros Hi Ht Hu Hnt HQ. eapply wp_mono, wp_object_init_added; [|apply Hi|apply Hi|done|apply Hu].
  intros [] s' (H1 & H2 & Ha). apply HQ; [|done]. by eapply ipc_inv_added.
Qed.

Lemma wp_object_allocate_ipc o type name (Q : option objid -> kstate -> Prop) s :
  ipc_inv s -> type ∈ rt_object_container -> unused o s -> (forall tm, o ≠ OTimer tm) -> k_irq_nest s = 0 ->
  (forall s', ipc_inv s' -> added o (mkObject (name_copy name) type 0) s s' -> Q (Some o) s') ->
  wp (rt_object_allocate (Some o) type name) Q s.
Proof.
  intros Hi Ht Hu Hnt Hn HQ. unfold rt_object_allocate, not_in_interrupt. rewrite wp_bind, wp_bind, wp_gets. apply wp_assert; [by rewrite Hn|].
  rewrite wp_bind. eapply wp_deref; [by apply get_information_spec|]. unfold containers_modify. rewrite wp_bind, wp_modify, wp_bind, wp_modify, wp_ret.
  destruct (class_type type Ht) as [_ Ec]. set (x := mkObject (name_copy name) type 0) in *.
  assert (Ha : added o x s (set_k_containers (list_insert_after type o) (set_k_obj <[o := x]> s))).
  { split; [by split|]. split; [done|]. cbn. unfold class_of. cbn. by rewrite Ec. }
  apply HQ; [|exact Ha]. eapply ipc_inv_added; [exact Hi|..|exact Hu|done|exact Ha].
  - by eapply sched_inv_ext; [..|apply Hi].
  - apply obj_inv_add; [apply Hi|apply Hu|exact Ec].
Qed.

(** *** A new thread *)

(** [s'] is [s] with thread [t] initialised to [th]. *)
Record initialised (t : tid) (th : rt_thread) (s s' : kstate) : Prop := {
  in_irq : k_irq_nest s' = k_irq_nest s;
  in_tick : k_tick s' = k_tick s;
  in_trow : k_trow s' = k_trow s;
  in_lists : forall h, (forall p, h ≠ LReady p) -> k_tlist s' h = k_tlist s h;
  in_thread : exists th', k_threads s' !! t = Some th' /\ strip th' = strip th;
  in_threads : forall u, u ≠ t -> strip <$> k_threads s' !! u = strip <$> k_threads s !! u;
  in_obj : forall o, o ≠ OTimer (TThread t) -> k_obj s' !! o = k_obj s !! o;
  in_containers : k_containers s' = list_insert_after RT_Object_Class_Timer (OTimer (TThread t)) (k_containers s);
  in_timers : forall tm, tm ≠ TThread t -> k_timers s' !! tm = k_timers s !! tm;
  in_current : is_Some (k_current s) <-> is_Some (k_current s');
  in_lock : k_lock_nest s = 0 -> k_lock_nest s' = 0;
  in_mutexes : k_mutexes s' = k_mutexes s
}.

(** The thread was never made, and is on no list. *)
Record unborn (t : tid) (s : kstate) : Prop := {
  ub_list : unlinked t (k_tlist s);
  ub_row : unlinked (TThread t) (k_trow s);
  ub_timer : unlinked (OTimer (TThread t)) (k_containers s);
  ub_none : k_threads s !! t = None
}.

Definition new_block (entry : positive) (parameter stack size priority tick : Z) (es ei : Z) : rt_thread :=
  mkThread entry parameter stack size RT_EOK RT_THREAD_INIT priority priority 0 es ei tick tick None 0.

Lemma new_block_ok entry parameter stack size priority tick es ei : 0 <= priority < RT_THREAD_PRIORITY_MAX ->
  let th := new_block entry parameter stack size priority tick es ei in th_ok th /\ tstat th = RT_THREAD_INIT.
Proof. intros Hp. split; [|done]. split; [done|exact Hp|exact Hp|]. by intros [[] _]. Qed.

(** The state in the middle, in which the thread has no timer. *)
Lemma sched_inv_block t th s : sched_inv s -> unborn t s -> th_ok th -> tstat th = RT_THREAD_INIT -> sched_inv (set_k_threads <[t := th]> s).
Proof. 
  intros [Hr [C1 C2]] [U1 _ _ U4] Hok Hs. split; [|split; cbn].
  - eapply (ready_inv_upd None); [done|done|intros p; apply U1|by rewrite Hs|by left].
  - intros c Hc. destruct (C1 c Hc) as (thc & Hthc & H). exists thc. rewrite lookup_insert_ne by congruence. done.
  - intros u thu [[<- <-]|[Hne Hu]]%lookup_insert_Some Hsu; [by rewrite Hs in Hsu|by eapply C2].
Qed.

(** The timer of a thread is made last. *)
Lemma timer_inv_new t x v s : timer_inv s -> unlinked (TThread t) (k_trow s) -> active x = false -> forall s',
  k_trow s' = k_trow s -> k_obj s' = <[OTimer (TThread t) := x]> (k_obj s) -> k_timers s' = <[TThread t := v]> (k_timers s) -> timer_inv s'.
Proof.
  intros [T1 T2 T3] Hu Ha s' E1 E2 E3. split; rewrite ?E1, ?E2, ?E3; [done| |].
  - intros h tm Hin. assert (tm ≠ TThread t) by (intros ->; by destruct (Hu h)). rewrite !lookup_insert_ne by congruence. by apply T2.
  - intros tm o [[[= <-] <-]|[Hne Ho]]%lookup_insert_Some Hc Hact; [congruence|]. by eapply T3.
Qed.

Lemma wp_thread_init_body t x entry parameter stack size priority tick (Q : Z -> kstate -> Prop) s :
  ipc_inv s -> k_obj s !! OThread t = Some x -> class_of x = RT_Object_Class_Thread -> unborn t s -> 0 <= priority < RT_THREAD_PRIORITY_MAX ->
  (forall es ei s', ipc_inv s' -> initialised t (new_block entry parameter stack size priority tick es ei) s s' -> Q RT_EOK s') ->
  wp (_rt_thread_init t entry parameter stack size priority tick) Q s.
Proof.
  intros Hi Hx Hcx Hub Hp HQ. unfold _rt_thread_init. rewrite wp_bind. apply wp_assert; [apply Z.ltb_lt; lia|]. rewrite wp_bind, wp_modify.
  set (es := match k_threads s !! t with Some th => th_event_set th | None => 0 end).
  set (ei := match k_threads s !! t with Some th => th_event_info th | None => 0 end).
  set (th := new_block entry parameter stack size priority tick es ei). set (s1 := set_k_threads <[t := th]> s).
  match goal with |- wp _ _ ?s2 => assert (s2 = s1) as -> end.
  { unfold s1, th, es, ei, set_k_threads. cbn. by destruct (k_threads s !! t). }
  destruct (new_block_ok entry parameter stack size priority tick es ei Hp) as [Hok Hst]. fold th in Hok, Hst.
  assert (Hs1 : sched_inv s1) by (apply sched_inv_block; [apply Hi|done..]).
  rewrite wp_bind. eapply wp_get_obj; [exact Hx|]. rewrite wp_bind. unfold rt_timer_init. rewrite wp_bind.
  eapply wp_mono, wp_object_init_added; [|exact Hs1|by eapply obj_inv_ext; [..|apply Hi]|by apply (bool_decide_unpack _)|apply Hub].
  intros [] s2 (Hs2 & Ho2 & Ha). unfold _rt_timer_init. rewrite wp_bind. destruct Ha as ([N1 N2 N3 N4 N5 N6 N7 N8 N9] & E1 & E2).
  eapply wp_upd_obj; [rewrite E1; apply lookup_insert_eq|]. rewrite wp_modify, wp_ret.
  set (xt := set_o_flag _ _). set (v := mkTimer (FThreadTimeout t) 0 0). set (s3 := set_k_timers <[TThread t := v]> (set_k_obj <[OTimer (TThread t) := xt]> s2)).
  assert (E3 : k_obj s3 = <[OTimer (TThread t) := xt]> (k_obj s)) by (cbn; rewrite E1; cbn; by rewrite insert_insert_eq).
  assert (E4 : k_timers s3 = <[TThread t := v]> (k_timers s)) by (cbn; by rewrite N1).
  assert (Hnear : near s1 s2) by (by split). assert (Ht1 : k_threads s1 !! t = Some th) by apply lookup_insert_eq.
  destruct (near_lookup _ _ _ _ Hnear Ht1) as (th' & Ht' & Estrip).
  assert (Hth : forall u, u ≠ t -> strip <$> k_threads s3 !! u = strip <$> k_threads s !! u).
  { intros u Hne. pose proof (f_equal (lookup u) N5) as E. unfold stripped in E. rewrite !lookup_fmap in E. cbn in E |- *. by rewrite lookup_insert_ne in E. }
  assert (Hlive : forall u, u ≠ t -> thread_live u s -> thread_live u s3).
  { intros u Hne (y & yt & w & Hy & Hc & Hyt & Hct & Hst' & Hsoft & Hper & Hw & Hfn). exists y, yt, w. rewrite E3, E4, !lookup_insert_ne by congruence. done. }
  apply (HQ es ei); [|split].
  - eapply (ipc_inv_extend t s); [exact Hi|by eapply sched_inv_ext; [..|exact Hs2]| | |by cbn; rewrite N2|apply Hub| |apply Hub|exact Hth|exact Hlive|].
    + apply (obj_inv_ext (set_k_obj <[OTimer (TThread t) := xt]> s2)); [done|done|].
      eapply obj_inv_upd; [exact Ho2|rewrite E1; apply lookup_insert_eq|done].
    + eapply timer_inv_new; [apply Hi|apply Hub| |by cbn; rewrite N2|exact E3|exact E4]. done.
    + intros h Hh. cbn. by rewrite N6 by (by intros p ->).
    + exists x, xt, v. rewrite E3, E4, lookup_insert_ne, !lookup_insert_eq by done. done.
  - by cbn; rewrite N3.
  - by cbn; rewrite N4.
  - by cbn; rewrite N2.
  - intros h Hh. cbn. by rewrite N6.
  - by exists th'.
  - exact Hth.
  - intros o Ho. rewrite E3. by rewrite lookup_insert_ne.
  - cbn. by rewrite E2.
  - intros tm Htm. rewrite E4. by rewrite lookup_insert_ne.
  - exact N7.
  - exact N8.
  - exact N9.
Qed.

Lemma unborn_added t x s s' : ipc_inv s' -> unborn t s -> added (OThread t) x s s' -> unborn t s'.
Proof.
  intros Hi [U1 U2 U3 U4] (Hn & E1 & E2). assert (Hnone : k_threads s' !! t = None) by (by eapply near_none). split; [..|done].
  - intros [p| | | |] Hin.
    1: { destruct (ri_ready _ _ (proj1 (ki_sched _ (ii_kernel _ Hi))) p t Hin) as (th & Ht & _). congruence. }
    all: rewrite (nr_lists _ _ Hn) in Hin by done; by destruct (U1 _ Hin).
  - rewrite (nr_trow _ _ Hn). exact U2.
  - rewrite E2. intros i. unfold list_insert_after. destruct (decide (class_of x = i)) as [<-|Hne].
    + rewrite insert_eq. intros [?|Hin]%elem_of_cons; [done|]. by destruct (U3 (class_of x)).
    + rewrite insert_ne by done. apply U3.
Qed.

(** A thread that was made: its object, and what else is as before. *)
Record born (t : tid) (th : rt_thread) (s s' : kstate) : Prop := {
  bo_irq : k_irq_nest s' = k_irq_nest s;
  bo_tick : k_tick s' = k_tick s;
  bo_trow : k_trow s' = k_trow s;
  bo_lists : forall h, (forall p, h ≠ LReady p) -> k_tlist s' h = k_tlist s h;
  bo_thread : exists th', k_threads s' !! t = Some th' /\ strip th' = strip th;
  bo_threads : forall u, u ≠ t -> strip <$> k_threads s' !! u = strip <$> k_threads s !! u;
  bo_obj : forall o, o ≠ OThread t -> o ≠ OTimer (TThread t) -> k_obj s' !! o = k_obj s !! o;
  bo_containers : forall i o, o ≠ OThread t -> o ≠ OTimer (TThread t) -> o ∈ k_containers s' i <-> o ∈ k_containers s i;
  bo_timers : forall tm, tm ≠ TThread t -> k_timers s' !! tm = k_timers s !! tm;
  bo_current : is_Some (k_current s) <-> is_Some (k_current s');
  bo_lock : k_lock_nest s = 0 -> k_lock_nest s' = 0;
  bo_mutexes : k_mutexes s' = k_mutexes s
}.

Lemma elem_insert_after {O} `{EqDecision O} (L : Z -> list O) i j o p : p ≠ o -> p ∈ list_insert_after i o L j <-> p ∈ L j.
Proof.
  intros Hne. unfold list_insert_after. destruct (decide (i = j)) as [<-|]; [|by rewrite insert_ne]. rewrite insert_eq, elem_of_cons. split; [by intros [|]|by right].
Qed.

Lemma added_initialised t x th s s1 s2 : added (OThread t) x s s1 -> initialised t th s1 s2 -> born t th s s2.
Proof.
  intros ([N1 N2 N3 N4 N5 N6 N7 N8 N9] & E1 & E2) [I1 I2 I3 I4 I5 I6 I7 I8 I9 I10 I11 I12]. split; try congruence; try done.
  - intros h Hh. by rewrite I4, N6.
  - intros u Hne. rewrite I6 by done. apply (f_equal (lookup u)) in N5. unfold stripped in N5. by rewrite !lookup_fmap in N5.
  - intros o H1 H2. rewrite I7 by done. rewrite E1. by rewrite lookup_insert_ne.
  - intros i o H1 H2. rewrite I8, E2. by rewrite !elem_insert_after.
  - intros tm Htm. rewrite I9 by done. by rewrite N1.
  - by rewrite N7.
  - by intros E%N8%I11.
Qed.

Lemma unused_thread t s : k_threads s !! t = None -> unlinked (OThread t) (k_containers s) -> unused (OThread t) s.
Proof. intros Hn Hu. split; [done|]. intros u th [= <-]. congruence. Qed.

(** A static thread. *)
Lemma wp_rt_thread_init t name entry parameter stack size priority tick (Q : Z -> kstate -> Prop) s :
  ipc_inv s -> unborn t s -> unlinked (OThread t) (k_containers s) -> 0 <= priority < RT_THREAD_PRIORITY_MAX -> stack ≠ 0 ->
  (forall es ei s', ipc_inv s' -> born t (new_block entry parameter stack size priority tick es ei) s s' -> Q RT_EOK s') ->
  wp (rt_thread_init t name entry parameter stack size priority tick) Q s.
Proof.
  intros Hi Hub Hu Hp Hst HQ. unfold rt_thread_init. rewrite wp_bind. apply wp_assert; [by rewrite (proj2 (Z.eqb_neq _ _))|].
  rewrite wp_bind. eapply wp_object_init_ipc; [done|by apply (bool_decide_unpack _)|apply unused_thread; [apply Hub|done]|done|].
  intros s1 Hi1 Ha. pose proof Ha as (_ & E1 & _). eapply wp_thread_init_body; [done|rewrite E1; apply lookup_insert_eq|done|by eapply unborn_added|done|].
  intros es ei s2 Hi2 Hin. apply (HQ es ei); [done|]. by eapply added_initialised.
Qed.

(** A dynamic thread, when there is memory for its block and its stack. *)
Lemma wp_rt_thread_create t stack name entry parameter size priority tick (Q : option tid -> kstate -> Prop) s :
  ipc_inv s -> unborn t s -> unlinked (OThread t) (k_containers s) -> 0 <= priority < RT_THREAD_PRIORITY_MAX -> k_irq_nest s = 0 ->
  (forall es ei s', ipc_inv s' -> born t (new_block entry parameter stack size priority tick es ei) s s' -> Q (Some t) s') ->
  wp (rt_thread_create (Some t) (Some stack) name entry parameter size priority tick) Q s.
Proof.
  intros Hi Hub Hu Hp Hn HQ. unfold rt_thread_create. cbn [fmap option_fmap option_map]. rewrite wp_bind.
  eapply wp_object_allocate_ipc; [done|by apply (bool_decide_unpack _)|apply unused_thread; [apply Hub|done]|done|done|].
  intros s1 Hi1 Ha. pose proof Ha as (_ & E1 & _). rewrite wp_bind.
  eapply wp_thread_init_body; [done|rewrite E1; apply lookup_insert_eq|done|by eapply unborn_added|done|].
  intros es ei s2 Hi2 Hin. rewrite wp_ret. apply (HQ es ei); [done|]. by eapply added_initialised.
Qed.

(** ** Before the scheduler runs *)

(** The threads [ts], with their priorities, are ready, and nothing else happened. *)
Record booting (ts : list (tid * Z)) (s : kstate) : Prop := {
  bg_ipc : ipc_inv s;
  bg_current : k_current s = None;
  bg_irq : k_irq_nest s = 0;
  bg_tick : k_tick s = 0;
  bg_rows : forall h, k_trow s h = [];
  bg_lists : forall h, (forall p, h ≠ LReady p) -> k_tlist s h = [];
  bg_threads : forall t th, k_threads s !! t = Some th -> tstat th = RT_THREAD_READY /\ (t, th_current_priority th) ∈ ts;
  bg_started : forall t p, (t, p) ∈ ts -> exists th, k_threads s !! t = Some th /\ th_current_priority th = p;
  bg_containers : forall i t, OThread t ∈ k_containers s i \/ OTimer (TThread t) ∈ k_containers s i -> exists p, (t, p) ∈ ts
}.

Lemma booting_unborn ts t s : booting ts s -> t ∉ ts.*1 ->
  unborn t s /\ unlinked (OThread t) (k_containers s).
Proof.
  intros [B1 B2 _ _ B4 B5 B6 B7 B8] Hn.
  assert (Hno : forall p, (t, p) ∉ ts) by (intros p Hp; apply Hn, list_elem_of_fmap; by exists (t, p)).
  assert (Hnone : k_threads s !! t = None).
  { destruct (k_threads s !! t) as [th|] eqn:E; [|done]. destruct (B6 t th E) as [_ Hin]. by destruct (Hno (th_current_priority th)). }
  split; [split|].
  - intros [p| | | |]; [|rewrite B5 by done; by intros []%elem_of_nil..]. intros Hin.
    destruct (ri_ready _ _ (proj1 (ki_sched _ (ii_kernel _ B1))) p t Hin) as (th & Ht & _). congruence.
  - intros h. rewrite B4. by intros []%elem_of_nil.
  - intros i Hi. destruct (B8 i t) as [p Hp]; [by right|]. by destruct (Hno p).
  - exact Hnone.
  - intros i Hi. destruct (B8 i t) as [p Hp]; [by left|]. by destruct (Hno p).
Qed.

(** The first start of a thread, before there is a current one. *)
Lemma ipc_starting t th s : ipc_inv s -> k_threads s !! t = Some th -> tstat th = RT_THREAD_INIT -> ipc_inv (set_k_threads <[t := starting th]> s).
Proof.
  intros [Hk Hw] Ht Hs. split; [by apply kinv_starting|]. intros h u Hh Hin. destruct (Hw h u Hh Hin) as (thu & Hu & Hsu).
  exists thu. split; [|done]. cbn. rewrite lookup_insert_ne; [done|]. intros <-. simplify_eq. by rewrite Hs in Hsu.
Qed.

Lemma stopped_off t s : kinv s -> thread_live t s -> unlinked (TThread t) (k_trow s) -> stopped (TThread t) s = s.
Proof.
  intros Hk Hl Hr. destruct (thread_timer _ _ Hl) as (_ & o & Ho & Hc). unfold stopped. rewrite Ho. destruct (active o) eqn:Ea; [|done].
  destruct (ti_active _ (ki_timer _ Hk) (TThread t) o Ho Hc Ea) as [h Hin]. by destruct (Hr h).
Qed.

(** [rt_thread_startup] up to the rescheduling, for a thread whose timer does not run. *)
Definition woken_first (t : tid) (th : rt_thread) (s : kstate) : kstate := wake t (starting th) (set_k_threads <[t := starting th]> s).

Lemma wp_startup_wake t th (Q : Z -> kstate -> Prop) s :
  ipc_inv s -> k_threads s !! t = Some th -> tstat th = RT_THREAD_INIT -> unlinked (TThread t) (k_trow s) ->
  (ipc_inv (woken_first t th s) -> wp (when (bool_decide (is_Some (k_current s))) rt_schedule ;; mret RT_EOK) Q (woken_first t th s)) ->
  wp (rt_thread_startup t) Q s.
Proof.
  intros Hi Ht Hs Hr HQ. pose proof (ii_kernel _ Hi) as Hk. assert (Hcl : tstat th ≠ RT_THREAD_CLOSE) by (by rewrite Hs).
  pose proof (kinv_live _ _ _ Hk Ht Hcl) as Hl. pose proof (kinv_th_ok _ _ _ Hk Ht) as Hok. unfold woken_first in *.
  set (s1 := set_k_threads <[t := starting th]> s) in *. pose proof (ipc_starting t th s Hi Ht Hs) as Hi1. fold s1 in Hi1.
  assert (Ht1 : k_threads s1 !! t = Some (starting th)) by apply lookup_insert_eq.
  unfold rt_thread_startup. rewrite wp_bind. eapply wp_get_thread; [done|]. rewrite wp_bind. apply wp_assert; [by apply Z.eqb_eq|].
  rewrite wp_bind. apply wp_is_thread; [done|]. rewrite wp_bind. eapply wp_upd_thread; [done|].
  rewrite wp_bind. apply wp_priority_mask; [apply Hok|]. rewrite wp_bind. eapply wp_upd_thread; [apply lookup_insert_eq|].
  rewrite wp_bind. eapply wp_upd_thread; [apply lookup_insert_eq|]. rewrite wp_bind.
  match goal with |- wp _ _ ?s2 => assert (s2 = s1) as -> end.
  { unfold s1, set_k_threads. cbn. by rewrite !insert_insert_eq. }
  eapply wp_rt_thread_resume; [apply Hi1|exact Ht1|done|]. rewrite bool_decide_eq_true_2 by done. intros Hk2.
  assert (Est : stopped (TThread t) s1 = s1) by (apply stopped_off; [apply Hi1|by eapply kinv_live; [apply Hi1|..]|exact Hr]).
  unfold resumed in *. rewrite Est in *. unfold rt_thread_self. rewrite wp_bind, wp_gets, wake_current. apply HQ.
  split; [exact Hk2|]. intros h u Hh Hin. pose proof (wake_threads t (starting th) s1) as (v & Hth & _). rewrite Hth.
  assert (Hin1 : u ∈ list_remove t (k_tlist s1) h).
  { unfold wake in Hin. destruct (bool_decide (k_current _ = Some t)); [exact Hin|]. unfold insert_ready in Hin. cbn in Hin. unfold list_insert_before in Hin. by rewrite insert_ne in Hin by (by destruct h). }
  apply elem_of_list_remove in Hin1 as [Hin1 Hne]. destruct (ii_wait _ Hi1 h u Hh Hin1) as (thu & Hu & Hsu). exists thu. by rewrite lookup_insert_ne by congruence.
Qed.

(** A thread made and started while booting. *)
Lemma booting_started ts t th s s1 th1 :
  booting ts s -> t ∉ ts.*1 -> tstat th = RT_THREAD_INIT -> born t th s s1 -> k_threads s1 !! t = Some th1 -> strip th1 = strip th ->
  let s2 := woken_first t th1 s1 in ipc_inv s2 -> booting ((t, th_init_priority th) :: ts) s2.
Proof.
  intros [B1 B2 B3 Bt B4 B5 B6 B7 B8] Hn Hst [O1 O2 O3 O4 O5 O6 O7 O8 O9 O10 _ _] Ht1 Estrip s2 Hi2.
  assert (Hc1 : k_current s1 = None).
  { destruct (k_current s1) as [c|] eqn:E; [|done]. rewrite B2 in O10. by destruct (proj2 O10) as [? ?]. }
  assert (E2 : s2 = insert_ready t (starting th1) (set_k_tlist (list_remove t) (set_k_threads <[t := starting th1]> s1))).
  { unfold s2, woken_first, wake. by rewrite bool_decide_eq_false_2 by (cbn; by rewrite Hc1). }
  assert (Ei : th_init_priority th1 = th_init_priority th) by (by apply (f_equal th_init_priority) in Estrip).
  assert (Hth : forall u, k_threads s2 !! u = if decide (u = t) then Some (set_th_stat (with_stat RT_THREAD_READY) (starting th1)) else k_threads s1 !! u).
  { intros u. rewrite E2. cbn. destruct (decide (u = t)) as [->|Hne]; [by rewrite lookup_insert_eq|]. by rewrite !lookup_insert_ne by done. }
  assert (Hback : forall u thu, u ≠ t -> k_threads s1 !! u = Some thu -> exists thu0, k_threads s !! u = Some thu0 /\ strip thu = strip thu0).
  { intros u thu Hne Hu. specialize (O6 u Hne). rewrite Hu in O6. destruct (k_threads s !! u) as [thu0|]; [|done]. exists thu0. split; [done|]. cbn in O6. congruence. }
  split.
  - done.
  - by rewrite E2.
  - rewrite E2. cbn. by rewrite O1.
  - rewrite E2. cbn. by rewrite O2.
  - intros h. rewrite E2. cbn. rewrite O3. apply B4.
  - intros h Hh. rewrite E2. cbn. unfold list_insert_before. rewrite insert_ne by (intros <-; by destruct (Hh (th_init_priority th1))).
    unfold list_remove. by rewrite O4, B5.
  - intros u thu. rewrite Hth. destruct (decide (u = t)) as [->|Hne].
    + intros [= <-]. split; [by apply tstat_with|]. cbn. rewrite Ei. by left.
    + intros Hu. destruct (Hback u thu Hne Hu) as (thu0 & Hu0 & E). destruct (B6 u thu0 Hu0) as [Hs0 Hin]. split.
      * pose proof (strip_stat _ _ E) as Ec. rewrite Hs0 in Ec. change (stat_class RT_THREAD_READY) with RT_THREAD_READY in Ec.
        unfold stat_class in Ec. destruct (Z.eqb_spec (tstat thu) RT_THREAD_RUNNING) as [Er|Er]; [|done].
        exfalso. assert (Hr2 : k_threads s2 !! u = Some thu) by (rewrite Hth; by rewrite decide_False).
        pose proof (running_current _ _ _ (ki_sched _ (ii_kernel _ Hi2)) Hr2 Er) as Hcur. rewrite E2 in Hcur. cbn in Hcur. congruence.
      * right. apply (f_equal th_current_priority) in E. cbn in E. by rewrite E.
  - intros u p [[= -> ->]|Hin]%elem_of_cons.
    + eexists. rewrite Hth, decide_True by done. split; [done|]. cbn. exact Ei.
    + assert (Hne : u ≠ t) by (intros ->; apply Hn, list_elem_of_fmap; by exists (t, p)). destruct (B7 u p Hin) as (thu & Hu & Hp).
      specialize (O6 u Hne). rewrite Hu in O6. destruct (k_threads s1 !! u) as [thu1|] eqn:Eu; [|done].
      exists thu1. rewrite Hth, decide_False by done. split; [done|]. rewrite <- Hp.
      change (Some (strip thu1) = Some (strip thu)) in O6. apply (inj Some) in O6. by apply (f_equal th_current_priority) in O6.
  - intros i u Hin. destruct (decide (u = t)) as [->|Hne]; [eexists; by left|].
    assert (Hc : k_containers s2 = k_containers s1) by (by rewrite E2). rewrite Hc in Hin.
    rewrite !O8 in Hin by congruence. destruct (B8 i u Hin) as [p Hp]. exists p. by right.
Qed.

(** *** The pieces of the start *)

(** The state that the board's initialisation leaves: no thread and no timer, nothing linked
    but what [rt_system_scheduler_init] and [rt_system_timer_init] reset. *)
Record powered (s : kstate) : Prop := {
  pw_obj : obj_inv s;
  pw_containers : forall i t, OThread t ∉ k_containers s i /\ OTimer (TThread t) ∉ k_containers s i;
  pw_timers : forall tm, k_obj s !! OTimer tm = None;
  pw_threads : k_threads s = ∅;
  pw_current : k_current s = None;
  pw_irq : k_irq_nest s = 0;
  pw_tick : k_tick s = 0;
  pw_lists : forall h, h ≠ LDefunct -> (forall p, 0 <= p < RT_THREAD_PRIORITY_MAX -> h ≠ LReady p) -> k_tlist s h = [];
  pw_rows : forall h, h ≠ TLHard -> k_trow s h = []
}.

Lemma init_queues n m (L : lhead -> list tid) (h : lhead) : (fold_right (fun offset L => list_init (LReady offset) L) L (seqZ m n)) h =
  match h with LReady p => if decide (m <= p < m + n) then [] else L h | _ => L h end.
Proof.
  destruct (decide (0 <= n)) as [Hn|Hn]; [|rewrite seqZ_nil by lia; cbn; destruct h; [rewrite decide_False by lia|..]; done].
  revert m. pattern n. apply natlike_ind; [| |done].
  - intros m. rewrite seqZ_nil by lia. cbn. destruct h; [rewrite decide_False by lia|..]; done.
  - intros x Hx IH m. rewrite seqZ_cons by lia. cbn. rewrite Z.pred_succ. unfold list_init at 1.
    destruct (decide (h = LReady m)) as [->|Hne].
    + rewrite insert_eq. by rewrite decide_True by lia.
    + rewrite insert_ne by done. rewrite IH. destruct h as [p| | | |]; [|done..]. assert (p ≠ m) by congruence.
      destruct (decide (Z.succ m <= p < Z.succ m + x)), (decide (m <= p < m + Z.succ x)); try done; lia.
Qed.

(** With no thread and empty lists the invariant holds. *)
Lemma booting_empty s : obj_inv s -> (forall i t, OThread t ∉ k_containers s i /\ OTimer (TThread t) ∉ k_containers s i) ->
  (forall tm, k_obj s !! OTimer tm = None) -> k_threads s = ∅ -> k_current s = None -> k_irq_nest s = 0 -> k_tick s = 0 -> k_group s = 0 ->
  (forall h, k_tlist s h = []) -> (forall h, k_trow s h = []) -> booting [] s.
Proof.
  intros Ho Hc Ht Eth Ec Ei Etick Eg El Er. split; try done.
  - split; [split|].
    + split; [split|split]; rewrite ?Eth, ?Ec, ?Eg; try done.
      * split; [intros h; rewrite El; constructor|]. intros h1 h2 u. rewrite El. by intros []%elem_of_nil.
      * intros p t. rewrite El. by intros []%elem_of_nil.
      * intros p Hp. rewrite El, Z.bits_0. by rewrite bool_decide_eq_false_2 by (intros H; by apply H).
    + exact Ho.
    + split; rewrite ?Eth.
      * split; [intros h; rewrite Er; constructor|]. intros h1 h2 u. rewrite Er. by intros []%elem_of_nil.
      * intros h tm. rewrite Er. by intros []%elem_of_nil.
      * intros tm o. by rewrite Ht.
    + intros t th. by rewrite Eth.
    + intros t h _. rewrite Er. by intros []%elem_of_nil.
    + intros h t _. rewrite El. by intros []%elem_of_nil.
  - intros t th. by rewrite Eth.
  - intros t p Hin. by apply elem_of_nil in Hin.
  - intros i t [Hin|Hin]; by destruct (Hc i t).
Qed.

Lemma wp_system_init (Q : unit -> kstate -> Prop) s : powered s -> (forall s', booting [] s' -> Q tt s') ->
  wp rt_system_timer_init (fun _ => wp rt_system_scheduler_init Q) s.
Proof.
  intros [P1 P2 P3 P4 P5 P6 P7 P8 P9] HQ. unfold rt_system_timer_init, rt_system_scheduler_init, trow_modify, tlist_modify.
  rewrite wp_modify, wp_bind, wp_modify, wp_bind, wp_modify, wp_bind, wp_modify, wp_modify. apply HQ.
  apply booting_empty; try done.
  - by apply (obj_inv_ext s).
  - intros h. cbn. unfold list_init at 1. destruct (decide (h = LDefunct)) as [->|Hd]; [by rewrite insert_eq|]. rewrite insert_ne by done.
    rewrite init_queues. destruct h as [p| | | |]; try (by apply P8). destruct (decide (0 <= p < 0 + RT_THREAD_PRIORITY_MAX)) as [|Hp]; [done|].
    apply P8; [done|]. intros q Hq [= ->]. lia.
  - intros h. cbn. unfold list_init. destruct (decide (h = TLHard)) as [->|Hd]; [by rewrite insert_eq|]. rewrite insert_ne by done. by apply P9.
Qed.

Lemma wp_boot_start ts t th (Q : Z -> kstate -> Prop) s s1 :
  booting ts s -> t ∉ ts.*1 -> tstat th = RT_THREAD_INIT -> ipc_inv s1 -> born t th s s1 ->
  (forall s', booting ((t, th_init_priority th) :: ts) s' -> Q RT_EOK s') -> wp (rt_thread_startup t) Q s1.
Proof.
  intros Hb Hn Hs Hi1 Hbo HQ. destruct (bo_thread _ _ _ _ Hbo) as (th1 & Ht1 & E).
  assert (Hs1 : tstat th1 = RT_THREAD_INIT) by (by apply (strip_same_stat _ _ _ E)).
  assert (Hc : k_current s1 = None).
  { destruct (k_current s1) as [c|] eqn:Ec; [|done]. pose proof (bo_current _ _ _ _ Hbo) as Hc. rewrite Ec, (bg_current _ _ Hb) in Hc. by destruct (proj2 Hc) as [? ?]. }
  eapply wp_startup_wake; [exact Hi1|exact Ht1|exact Hs1| |].
  - intros h. rewrite (bo_trow _ _ _ _ Hbo), (bg_rows _ _ Hb). apply not_elem_of_nil.
  - intros Hi2. rewrite Hc, bool_decide_eq_false_2 by (by intros []). cbn [when]. rewrite wp_bind, !wp_ret. apply HQ. by eapply booting_started.
Qed.

Lemma wp_boot_static ts t name entry parameter stack size priority tick (Q : unit -> kstate -> Prop) s :
  booting ts s -> t ∉ ts.*1 -> 0 <= priority < RT_THREAD_PRIORITY_MAX -> stack ≠ 0 ->
  (forall s', booting ((t, priority) :: ts) s' -> Q tt s') ->
  wp (rt_thread_init t name entry parameter stack size priority tick ;; rt_thread_startup t ;; mret tt) Q s.
Proof.
  intros Hb Hn Hp Hst HQ. destruct (booting_unborn ts t s Hb Hn) as [Hub Hu]. rewrite wp_bind.
  eapply wp_rt_thread_init; [apply Hb|done..|]. intros es ei s1 Hi1 Hbo. rewrite wp_bind.
  eapply wp_boot_start; [exact Hb|done| |exact Hi1|exact Hbo|done]. done.
Qed.

Lemma wp_application_init ts t stack entry (Q : unit -> kstate -> Prop) s :
  booting ts s -> t ∉ ts.*1 -> (forall s', booting ((t, RT_MAIN_THREAD_PRIORITY) :: ts) s' -> Q tt s') ->
  wp (rt_application_init (Some t) (Some stack) entry) Q s.
Proof.
  intros Hb Hn HQ. destruct (booting_unborn ts t s Hb Hn) as [Hub Hu]. unfold rt_application_init. rewrite wp_bind.
  eapply wp_rt_thread_create; [apply Hb|done|done|done|apply Hb|]. intros es ei s1 Hi1 Hbo.
  rewrite wp_bind. eapply wp_deref; [done|]. rewrite wp_bind.
  eapply wp_boot_start; [exact Hb|done| |exact Hi1|exact Hbo|]; [done|]. intros s' Hb'. rewrite wp_ret. by apply HQ.
Qed.

(** *** The scheduler starts *)

Lemma booting_group ts s : booting ts s -> ts ≠ [] -> k_group s ≠ 0.
Proof.
  intros Hb Hne. destruct ts as [|[t p] ts]; [done|]. destruct (bg_started _ _ Hb t p) as (th & Ht & Hp); [by left|].
  destruct (bg_threads _ _ Hb t th Ht) as [Hs _]. destruct (ki_sched _ (ii_kernel _ (bg_ipc _ _ Hb))) as [[R1 R2 R3 R4 R5 R6] _].
  pose proof (R4 t th Ht Hs ltac:(done)) as Hin. pose proof (tho_prio _ (R2 _ _ Ht)) as Hpr. specialize (R6 (th_current_priority th) (proj1 Hpr)).
  rewrite bool_decide_eq_true_2 in R6 by (intros E; rewrite E in Hin; by apply elem_of_nil in Hin). intros E. by rewrite E, Z.bits_0 in R6.
Qed.

(** The thread that runs first: no other is more urgent. *)
Lemma wp_scheduler_start ts (Q : unit -> kstate -> Prop) s : booting ts s -> ts ≠ [] ->
  (forall c p s', ipc_inv s' -> dispatched s' -> k_current s' = Some c -> (c, p) ∈ ts -> (forall q, q ∈ ts.*2 -> p <= q) ->
     (forall h, k_trow s' h = []) -> k_tick s' = 0 -> k_irq_nest s' = 0 -> (forall h, (forall p, h ≠ LReady p) -> k_tlist s' h = []) ->
     (forall t, t ≠ c -> k_threads s' !! t = k_threads s !! t) -> Q tt s') ->
  wp rt_system_scheduler_start Q s.
Proof.
  intros Hb Hne HQ. pose proof (bg_ipc _ _ Hb) as Hi. pose proof (ki_sched _ (ii_kernel _ Hi)) as Hsch.
  destruct (get_highest_eq s Hsch (booting_group ts s Hb Hne)) as (c & th & q & Eh & Hc & Hsc & Hq & Hmin).
  unfold rt_system_scheduler_start. rewrite wp_bind. unfold wp at 1. rewrite Eh. cbv beta iota. rewrite wp_bind, wp_modify.
  pose proof (ri_ok _ _ (proj1 Hsch) _ _ Hc) as Hok. set (s1 := set_k_current (fun _ => Some c) s).
  rewrite wp_bind. unfold wp at 1. rewrite (rt_schedule_remove_thread_eq c th s1 Hc Hok).
  assert (Hlk : k_threads (remove_ready c th s1) !! c = Some th) by exact Hc. eapply wp_upd_thread; [exact Hlk|].
  set (th1 := set_th_stat (fun _ => RT_THREAD_READY) th). assert (Hok1 : th_ok th1).
  { destruct Hok as [O1 O2 O3 O4]. split; [done|done|done|]. intros _. apply O4. rewrite Hsc. by split. }
  set (s0 := set_k_threads <[c := th1]> s). assert (Hk0 : kinv s0) by (eapply kinv_upd_same; [apply Hi|exact Hc|done|by rewrite Hsc|done]).
  set (s2 := set_k_current (fun _ => Some c) s0).
  assert (E : set_k_threads <[c := set_th_stat (fun _ => RT_THREAD_RUNNING) th]> (remove_ready c th s1) = dispatch c th1 s2).
  { unfold dispatch, s2, s0, s1, remove_ready, set_k_threads, set_k_tlist, set_k_group, set_k_current. cbn. by rewrite insert_insert_eq. }
  rewrite E. set (s3 := dispatch c th1 s2).
  assert (Hc2 : k_threads s2 !! c = Some th1) by apply lookup_insert_eq.
  assert (Hnorun : forall t tht, k_threads s2 !! t = Some tht -> tstat tht = RT_THREAD_RUNNING -> t = c).
  { intros t tht Ht Hs. exfalso. destruct (ci_running _ (proj2 (ki_sched _ Hk0)) t tht Ht Hs) as [Hcur _]. change (k_current s = Some t) in Hcur. by rewrite (bg_current _ _ Hb) in Hcur. }
  assert (Hs3 : sched_inv s3).
  { apply dispatch_inv; [by eapply ready_inv_ext; [..|apply (ki_sched _ Hk0)]|done|exact Hc2|by split|exact Hnorun]. }
  assert (Hth3 : forall t, t ≠ c -> k_threads s3 !! t = k_threads s !! t) by (intros t Ht; cbn; by rewrite !lookup_insert_ne by congruence).
  destruct (bg_threads _ _ Hb c th Hc) as [_ Hin].
  apply (HQ c (th_current_priority th)); try done.
  - split.
    + eapply (kinv_sched_change s0); [exact Hk0|exact Hs3|done..| |].
      * intros t tht Ht Hcl. destruct (decide (t = c)) as [->|Hnc]; [by exists th1; split; [apply lookup_insert_eq|]|].
        rewrite Hth3 in Ht by done. exists tht. split; [|done]. cbn. by rewrite lookup_insert_ne by congruence.
      * intros t tht h Ht Hst _. cbn. by rewrite (bg_rows _ _ Hb); intros []%elem_of_nil.
    + intros h t Hh. cbn. unfold list_remove. rewrite (bg_lists _ _ Hb) by (by intros p ->). by intros []%elem_of_nil.
  - apply dispatch_dispatched; [done|]. intros t tht Ht Hs. destruct (decide (t = c)) as [->|Hnc].
    + rewrite Hc2 in Ht. simplify_eq. done.
    + eapply (Hmin t); [|exact Hs]. cbn in Ht. by rewrite lookup_insert_ne in Ht.
  - intros r Hr. apply list_elem_of_fmap in Hr as ([t p] & -> & Htp). destruct (bg_started _ _ Hb t p Htp) as (tht & Ht & Hp). cbn. rewrite <- Hp.
    apply (Hmin t); [done|]. by destruct (bg_threads _ _ Hb t tht Ht).
  - intros h. apply Hb.
  - apply Hb.
  - apply Hb.
  - intros h Hh. cbn. unfold list_remove. by rewrite (bg_lists _ _ Hb).
Qed.

Lemma booting_rows ts f s : booting ts s -> (forall h, f (k_trow s) h = []) -> booting ts (set_k_trow f s).
Proof.
  intros [[[K1 K2 [T1 T2 T3] K4 K5] Hw] B2 B3 Bt B4 B5 B6 B7 B8] Hf.
  assert (Hti : timer_inv (set_k_trow f s)).
  { split; cbn.
    - split; [intros h; rewrite Hf; constructor|]. intros h1 h2 u. rewrite Hf. by intros []%elem_of_nil.
    - intros h tm Hin. rewrite Hf in Hin. by apply elem_of_nil in Hin.
    - intros tm o Ho Hc Ha. destruct (T3 tm o Ho Hc Ha) as [h Hin]. rewrite B4 in Hin. by apply elem_of_nil in Hin. }
  split; try done. split; [|done]. split; [by eapply sched_inv_ext; [..|exact K1]|by eapply obj_inv_ext; [..|exact K2]|exact Hti|done|].
  intros t h _. cbn. rewrite Hf. by intros []%elem_of_nil.
Qed.

Lemma wp_timer_thread_init ts t entry stack size (Q : unit -> kstate -> Prop) s :
  booting ts s -> t ∉ ts.*1 -> stack ≠ 0 -> (forall s', booting ((t, RT_TIMER_THREAD_PRIO) :: ts) s' -> Q tt s') ->
  wp (rt_system_timer_thread_init t entry timer_name stack size RT_TIMER_THREAD_PRIO) Q s.
Proof.
  intros Hb Hn Hst HQ. unfold rt_system_timer_thread_init, trow_modify. rewrite wp_bind, wp_modify.
  eapply (wp_boot_static ts); [|done..]. apply booting_rows; [done|]. intros h. unfold list_init.
  destruct (decide (h = TLSoft)) as [->|Hne]; [by rewrite insert_eq|]. rewrite insert_ne by done. apply Hb.
Qed.

Lemma wp_idle_init ts rom null_string fmt buf m t entry stack (Q : unit -> kstate -> Prop) s :
  booting ts s -> t ∉ ts.*1 -> stack ≠ 0 -> Printf.cstr rom fmt idle_format -> 0 < buf < 2 ^ 32 - 8 ->
  (forall s', booting ((t, RT_THREAD_PRIORITY_MAX - 1) :: ts) s' -> Q tt s') ->
  wp (rt_thread_idle_init rom null_string 8 fmt buf m t entry stack) Q s.
Proof.
  intros Hb Hn Hst Hf Hbuf HQ. unfold rt_thread_idle_init. rewrite wp_bind.
  destruct (idle_name_fits rom null_string fmt buf m Hf Hbuf) as (m' & E & _). eapply wp_deref; [exact E|].
  by eapply (wp_boot_static ts).
Qed.

(** C3: Started on a board whose initialisation left no thread and no timer, and with memory for the main
    thread, the kernel does not fault and establishes the invariant every other theorem
    starts from: of its three threads the timer thread runs, which is the most urgent, and
    the main and the idle thread are ready at their priorities. *)
Theorem rtthread_startup_spec rom null_string fmt buf m timer_thread idle main timer_entry idle_entry main_entry timer_stack idle_stack main_stack s :
  powered s -> NoDup [timer_thread; idle; main] -> timer_stack ≠ 0 -> idle_stack ≠ 0 ->
  Printf.cstr rom fmt idle_format -> 0 < buf < 2 ^ 32 - 8 ->
  wp (rtthread_startup rom null_string 8 fmt buf m timer_thread idle timer_entry idle_entry main_entry timer_stack idle_stack (Some main) (Some main_stack))
    (fun _ s' => ipc_inv s' /\ clock_ok s' /\ dispatched s' /\ defunct_ok s' /\ k_irq_nest s' = 0 /\ k_current s' = Some timer_thread /\
      forall t p, (t, p) ∈ [(main, RT_MAIN_THREAD_PRIORITY); (idle, RT_THREAD_PRIORITY_MAX - 1)] ->
        exists th, k_threads s' !! t = Some th /\ tstat th = RT_THREAD_READY /\ th_current_priority th = p) s.
Proof.
  intros Hp Hnd Hts His Hf Hbuf. rewrite !NoDup_cons, !not_elem_of_cons in Hnd. destruct Hnd as ([N1 [N2 _]] & [N3 _] & _).
  unfold rtthread_startup. rewrite wp_bind. eapply wp_mono, (wp_system_init (fun _ s1 => booting [] s1) s Hp); [|done].
  intros u s0 H0. rewrite wp_bind. eapply wp_mono; [|exact H0]. intros u1 s1 Hb1. cbn beta in Hb1. rewrite wp_bind.
  eapply wp_application_init; [exact Hb1|by apply not_elem_of_nil|]. intros s2 Hb2. rewrite wp_bind.
  eapply wp_timer_thread_init; [exact Hb2| |done|].
  { cbn. rewrite not_elem_of_cons. split; [done|by apply not_elem_of_nil]. }
  intros s3 Hb3. rewrite wp_bind. eapply wp_idle_init; [exact Hb3| |done|done|done|].
  { cbn. rewrite !not_elem_of_cons. split; [done|]. split; [done|by apply not_elem_of_nil]. }
  intros s4 Hb4. eapply wp_scheduler_start; [exact Hb4|done|].
  intros c p s' Hi Hd Hc Hin Hmin Hrow Htick Hirq Hl Hth.
  assert (p <= 4) as Hp4 by (apply Hmin; cbn; mem). assert (c = timer_thread) as ->.
  { cbn in Hin. rewrite !elem_of_cons in Hin. destruct Hin as [E|[E|[E|[]%elem_of_nil]]]; injection E as ? ?; [|done|];
      unfold RT_THREAD_PRIORITY_MAX, RT_MAIN_THREAD_PRIORITY in *; lia. }
  split; [done|]. split; [split; [|by rewrite Htick]|]. { split; rewrite Hrow; constructor. }
  split; [done|]. split. { intros t Ht. rewrite Hl in Ht by done. by apply elem_of_nil in Ht. }
  split; [done|]. split; [done|]. intros t q Htq.
  assert (Hne : t ≠ timer_thread) by (rewrite !elem_of_cons in Htq; destruct Htq as [[= -> ->]|[[= -> ->]|[]%elem_of_nil]]; done).
  destruct (bg_started _ _ Hb4 t q) as (th & Ht & Hq).
  { rewrite !elem_of_cons in Htq. destruct Htq as [[= -> ->]|[[= -> ->]|[]%elem_of_nil]]; mem. }
  exists th. rewrite Hth by done. split; [done|]. split; [|done]. by destruct (bg_threads _ _ Hb4 t th Ht).
Qed.

(** Without memory for the main thread the assertion of [rt_application_init] stops the system. *)
Lemma application_init_no_memory stack entry s : k_irq_nest s = 0 -> rt_application_init None stack entry s = None.
Proof.
  intros Hn. unfold rt_application_init, rt_thread_create, rt_object_allocate, not_in_interrupt. run_k. by rewrite Hn.
Qed.

(** ** Witness: a board that has registered a device *)

Definition powered_state : kstate :=
  set_k_obj (fun _ => {[ODevice 1 := mkObject (name_copy [117; 97; 114; 116; 51]) 0x89 0]})
    (set_k_containers (fun _ => <[RT_Object_Class_Device := [ODevice 1]]> (fun _ => []))
      (set_k_threads (fun _ => ∅) (set_k_current (fun _ => None) (set_k_tlist (fun _ _ => []) (set_k_trow (fun _ _ => [])
        (set_k_tick (fun _ => 0) (set_k_irq_nest (fun _ => 0) sample))))))).

Lemma powered_state_ok : powered powered_state.
Proof.
  assert (Hc : forall i o, o ∈ k_containers powered_state i -> i = RT_Object_Class_Device /\ o = ODevice 1).
  { intros i o. cbn. destruct (decide (RT_Object_Class_Device = i)) as [<-|Hne].
    - rewrite insert_eq. intros ->%list_elem_of_singleton. done.
    - rewrite insert_ne by done. by intros []%elem_of_nil. }
  split; try done.
  - split.
    + split.
      * intros i. cbn. destruct (decide (RT_Object_Class_Device = i)) as [<-|Hne]; [rewrite insert_eq; apply NoDup_singleton|].
        rewrite insert_ne by done. constructor.
      * intros i j o [-> _]%Hc [-> _]%Hc. done.
    + intros i o [-> ->]%Hc. eexists. split; [apply lookup_singleton_eq|done].
  - intros i t. split; by intros [_ E]%Hc.
Qed.

Lemma rtthread_startup_spec_witness :
  wp (rtthread_startup (rom_of 0x100 (idle_format ++ [0])) 0 8 0x100 0x200 (fun _ => 0) 3 2 10 11 12 0x20001000 0x20002000 (Some 1%positive) (Some 0x24000000))
    (fun _ s' => ipc_inv s' /\ clock_ok s' /\ dispatched s' /\ defunct_ok s' /\ k_irq_nest s' = 0 /\ k_current s' = Some 3%positive /\
      forall t p, (t, p) ∈ [(1%positive, RT_MAIN_THREAD_PRIORITY); (2%positive, RT_THREAD_PRIORITY_MAX - 1)] ->
        exists th, k_threads s' !! t = Some th /\ tstat th = RT_THREAD_READY /\ th_current_priority th = p) powered_state.
Proof.
  apply rtthread_startup_spec; [apply powered_state_ok|by apply (bool_decide_unpack _)|done|done|by vm_compute|done].
Defined.

(** ** Starting and stopping while the system runs *)

(** A one-shot or periodic timer of the user's. *)
Lemma wp_rt_timer_init_user p name f time flag (Q : unit -> kstate -> Prop) s :
  ipc_inv s -> unlinked (TUser p) (k_trow s) -> unlinked (OTimer (TUser p)) (k_containers s) ->
  (forall x s1, class_of x = RT_Object_Class_Timer -> o_flag x = Z.land flag (Z.lnot RT_TIMER_FLAG_ACTIVATED) ->
     near s s1 -> k_obj s1 = <[OTimer (TUser p) := x]> (k_obj s) ->
     k_containers s1 = list_insert_after RT_Object_Class_Timer (OTimer (TUser p)) (k_containers s) ->
     let s' := set_k_timers <[TUser p := mkTimer f time 0]> s1 in ipc_inv s' -> Q tt s') ->
  wp (rt_timer_init (TUser p) name f time flag) Q s.
Proof.
  intros Hi Hu Huc HQ. unfold rt_timer_init. rewrite wp_bind.
  eapply wp_mono, wp_object_init_added; [|apply Hi|apply Hi|by apply (bool_decide_unpack _)|done].
  intros [] s1 (Hs1 & Ho1 & Hn & E1 & E2). unfold _rt_timer_init. rewrite wp_bind.
  eapply wp_upd_obj; [rewrite E1; apply lookup_insert_eq|]. rewrite wp_modify. set (x := set_o_flag _ _).
  set (s2 := set_k_obj <[OTimer (TUser p) := x]> s1). assert (E3 : k_obj s2 = <[OTimer (TUser p) := x]> (k_obj s)) by (cbn; by rewrite E1, insert_insert_eq).
  apply (HQ x s2); try done; [by destruct Hn; split|]. destruct Hn as [N1 N2 N3 N4 N5 N6 N7 N8 N9].
  assert (Hnear : near s s2) by (by split). set (s3 := set_k_timers _ s2).
  assert (Hne : forall t, k_timers s3 !! TThread t = k_timers s !! TThread t) by (intros t; cbn; by rewrite lookup_insert_ne, N1).
  split; [split|].
  - by eapply sched_inv_ext; [..|exact Hs1].
  - apply (obj_inv_ext s2); [done|done|]. eapply obj_inv_upd; [exact Ho1|rewrite E1; apply lookup_insert_eq|done].
  - destruct (ki_timer _ (ii_kernel _ Hi)) as [T1 T2 T3]. split; change (k_trow s3) with (k_trow s1); rewrite ?N2; [done| |].
    + intros h tm Hin. assert (Htm : tm ≠ TUser p) by (intros ->; by destruct (Hu h)). change (k_obj s3) with (k_obj s2).
      rewrite E3. cbn. rewrite N1, !lookup_insert_ne by congruence. by apply T2.
    + intros tm o. change (k_obj s3) with (k_obj s2). rewrite E3. intros [[[= <-] <-]|[Hnt Ho]]%lookup_insert_Some Hc Ha; [|by eapply T3].
      exfalso. assert (Hx : active x = false) by exact (proj1 (clear_active_flags (set_o_flag (fun _ => flag) (static_obj (OTimer (TUser p)) RT_Object_Class_Timer name s)))).
      congruence.
  - intros t th' Ht Hcl. destruct (near_lookup_back _ _ _ _ Hnear Ht) as (th & Ht0 & E).
    assert (Hcl0 : tstat th ≠ RT_THREAD_CLOSE) by (by rewrite <- (strip_same_stat RT_THREAD_CLOSE _ _ E)).
    destruct (ki_live _ (ii_kernel _ Hi) t th Ht0 Hcl0) as (y & yt & v & Hrest). exists y, yt, v.
    rewrite Hne. change (k_obj s3) with (k_obj s2). rewrite E3, !lookup_insert_ne by done. exact Hrest.
  - intros t h Hh. cbn. rewrite N2. intros Hin. destruct (ki_suspend _ (ii_kernel _ Hi) t h Hh Hin) as (th & Ht & Hst).
    destruct (near_lookup _ _ _ _ Hnear Ht) as (th' & Ht' & E). exists th'. split; [done|]. by apply (strip_same_stat _ _ _ E).
  - intros h t Hh. cbn. rewrite N6 by (by intros p' ->). intros Hin. destruct (ii_wait _ Hi h t Hh Hin) as (th & Ht & Hst).
    destruct (near_lookup _ _ _ _ Hnear Ht) as (th' & Ht' & E). exists th'. split; [done|]. by apply (strip_same_stat _ _ _ E).
Qed.

(** The block of a thread that has been started. *)
Definition ready_block (th : rt_thread) : rt_thread := set_th_stat (with_stat RT_THREAD_READY) (starting th).
Lemma ready_block_stat th : tstat (ready_block th) = RT_THREAD_READY.
Proof. by apply tstat_with. Qed.

Lemma frame_near_id s s' : frame s s' -> is_Some (k_current s) -> is_Some (k_current s') -> near s s'.
Proof. intros Hf H1 H2. eapply (frame_near (k_lock_nest s)); [|done|done]. by destruct s, Hf. Qed.

Lemma wp_startup_ipc t th c (Q : Z -> kstate -> Prop) s :
  ipc_inv s -> k_threads s !! t = Some th -> tstat th = RT_THREAD_INIT -> k_current s = Some c ->
  unlinked t (k_tlist s) -> unlinked (TThread t) (k_trow s) ->
  (forall s', ipc_inv s' -> near (set_k_threads <[t := ready_block th]> s) s' -> k_obj s' = k_obj s -> k_containers s' = k_containers s ->
     (k_lock_nest s = 0 -> dispatched s') -> Q RT_EOK s') ->
  wp (rt_thread_startup t) Q s.
Proof.
  intros Hi Ht Hs Hc Hul Hr HQ. eapply wp_startup_wake; [done..|]. intros Hi2.
  assert (Hne : c ≠ t). { intros ->. destruct (ci_current _ (proj2 (ki_sched _ (ii_kernel _ Hi))) t Hc) as (th' & Ht' & _ & H). simplify_eq. }
  assert (E2 : woken_first t th s = insert_ready t (starting th) (set_k_tlist (list_remove t) (set_k_threads <[t := starting th]> s))).
  { unfold woken_first, wake. by rewrite bool_decide_eq_false_2 by (cbn; congruence). }
  rewrite E2 in *. set (s2 := insert_ready _ _ _) in *.
  assert (Eth : k_threads s2 = <[t := ready_block th]> (k_threads s)) by (unfold s2; cbn; by rewrite insert_insert_eq).
  assert (Hn2 : near (set_k_threads <[t := ready_block th]> s) s2).
  { split; try done. - unfold stripped. by rewrite Eth.
    - intros h Hh. cbn. unfold list_insert_before. rewrite insert_ne by (intros <-; by destruct (Hh (th_init_priority th))). by apply list_remove_unlinked_id, Hul. }
  rewrite Hc, wp_bind, bool_decide_eq_true_2 by done. cbn [when].
  assert (Hg : k_group s2 ≠ 0).
  { destruct (ki_sched _ (ii_kernel _ Hi2)) as [[R1 R2 R3 R4 R5 R6] _]. assert (Hrt : k_threads s2 !! t = Some (ready_block th)) by (rewrite Eth; apply lookup_insert_eq).
    pose proof (R4 t _ Hrt (ready_block_stat th) ltac:(done)) as Hin. pose proof (tho_prio _ (R2 _ _ Hrt)) as Hpr. specialize (R6 _ (proj1 Hpr)).
    rewrite bool_decide_eq_true_2 in R6 by (intros E; rewrite E in Hin; by apply elem_of_nil in Hin). intros E. by rewrite E, Z.bits_0 in R6. }
  eapply wp_mono; [|apply (wp_and _ (fun _ s' => ipc_inv s' /\ frame s2 s' /\ is_Some (k_current s')) (fun _ s' => k_lock_nest s2 = 0 -> dispatched s'))].
  - intros [] s' [(Hi' & Hf & Hc') Hd]. rewrite wp_ret. destruct (frame_rest _ _ Hf) as (F1 & F2 & _). apply HQ; [done| |by rewrite F1|by rewrite F2|exact Hd].
    etransitivity; [exact Hn2|]. apply frame_near_id; [done|by exists c|done].
  - apply wp_schedule_ipc; [done|by exists c].
  - destruct (decide (k_lock_nest s2 = 0)) as [E|E].
    + eapply wp_mono, (wp_schedule_dispatched s2 c); [by intros [] s' [_ Hd]|apply Hi2|done|done|done].
    + eapply wp_mono, wp_schedule_ipc; [done|done|by exists c].
Qed.
