(* ===== verification/RingBuffer.v ===== *)
(** * Ring buffer

    components/drivers/src/ringbuffer.c: a buffer of bytes with a read and a write index,
    each with a mirror bit that tells a full buffer from an empty one.  The operations are
    refined to those of a bounded first-in first-out queue; overwriting by
    [rt_ringbuffer_put_force] is shown to be right except in one case, where all is lost. *)

From S2P Require Import Prelude Cyclic.

#[local] Open Scope Z_scope.

(** ** The data *)

(** The indices are bit-fields of 15 bits, the mirrors of one, the size an [rt_int16_t]. *)
Record rt_ringbuffer := mkRb {
  buffer_ptr : list Z;
  read_mirror : Z;
  read_index : Z;
  write_mirror : Z;
  write_index : Z;
  buffer_size : Z
}.
Definition set_buffer (g : list Z -> list Z) (rb : rt_ringbuffer) : rt_ringbuffer :=
  mkRb (g (buffer_ptr rb)) (read_mirror rb) (read_index rb) (write_mirror rb) (write_index rb) (buffer_size rb).
Definition set_read_mirror (g : Z -> Z) (rb : rt_ringbuffer) : rt_ringbuffer :=
  mkRb (buffer_ptr rb) (wrap 1 (g (read_mirror rb))) (read_index rb) (write_mirror rb) (write_index rb) (buffer_size rb).
Definition set_read_index (g : Z -> Z) (rb : rt_ringbuffer) : rt_ringbuffer :=
  mkRb (buffer_ptr rb) (read_mirror rb) (wrap 15 (g (read_index rb))) (write_mirror rb) (write_index rb) (buffer_size rb).
Definition set_write_mirror (g : Z -> Z) (rb : rt_ringbuffer) : rt_ringbuffer :=
  mkRb (buffer_ptr rb) (read_mirror rb) (read_index rb) (wrap 1 (g (write_mirror rb))) (write_index rb) (buffer_size rb).
Definition set_write_index (g : Z -> Z) (rb : rt_ringbuffer) : rt_ringbuffer :=
  mkRb (buffer_ptr rb) (read_mirror rb) (read_index rb) (write_mirror rb) (wrap 15 (g (write_index rb))) (buffer_size rb).

Inductive rt_ringbuffer_state := RT_RINGBUFFER_EMPTY | RT_RINGBUFFER_FULL | RT_RINGBUFFER_HALFFULL.
#[global] Instance rt_ringbuffer_state_eq : EqDecision rt_ringbuffer_state.
Proof. solve_decision. Defined.

Abbreviation RB := (M rt_ringbuffer).

(** [memcpy] from and to an array faults outside it; a negative length is a huge one. *)
Definition slice (ptr : list Z) (off n : Z) : RB (list Z) :=
  rt_assert ((0 <=? off) && (0 <=? n) && (off + n <=? Z.of_nat (length ptr))) ;;
  mret (take (Z.to_nat n) (drop (Z.to_nat off) ptr)).
Definition load (off n : Z) : RB (list Z) := buf ← gets buffer_ptr; slice buf off n.
Definition store (off : Z) (data : list Z) : RB unit :=
  buf ← gets buffer_ptr;
  rt_assert ((0 <=? off) && (off + Z.of_nat (length data) <=? Z.of_nat (length buf))) ;;
  modify (set_buffer (list_inserts (Z.to_nat off) data)).

(** ** The operations *)

Definition rt_ringbuffer_status (rb : rt_ringbuffer) : rt_ringbuffer_state :=
  if read_index rb =? write_index rb then
    if read_mirror rb =? write_mirror rb then RT_RINGBUFFER_EMPTY else RT_RINGBUFFER_FULL
  else RT_RINGBUFFER_HALFFULL.

Definition rt_ringbuffer_data_len (rb : rt_ringbuffer) : Z :=
  match rt_ringbuffer_status rb with
  | RT_RINGBUFFER_EMPTY => 0
  | RT_RINGBUFFER_FULL => u32 (buffer_size rb)
  | RT_RINGBUFFER_HALFFULL =>
      if read_index rb <? write_index rb then u32 (write_index rb - read_index rb)
      else u32 (buffer_size rb - (read_index rb - write_index rb))
  end.
Definition rt_ringbuffer_space_len (rb : rt_ringbuffer) : Z :=
  u32 (buffer_size rb - rt_ringbuffer_data_len rb).

(** [pool] is the memory handed over. *)
Definition rt_ringbuffer_init (pool : list Z) (size : Z) : option rt_ringbuffer :=
  if 0 <? size then Some (mkRb pool 0 0 0 0 (i16 (RT_ALIGN_DOWN size RT_ALIGN_SIZE))) else None.

Definition rt_ringbuffer_put (ptr : list Z) (length : Z) : RB Z :=
  rb ← gets id;
  let size := u16 (rt_ringbuffer_space_len rb) in
  if size =? 0 then mret 0 else
  let length := if size <? length then size else length in
  if length <? buffer_size rb - write_index rb then
    d ← slice ptr 0 length; store (write_index rb) d ;;
    modify (set_write_index (fun w => w + length)) ;;
    mret length
  else
    d ← slice ptr 0 (buffer_size rb - write_index rb); store (write_index rb) d ;;
    d ← slice ptr (buffer_size rb - write_index rb) (length - (buffer_size rb - write_index rb)); store 0 d ;;
    modify (set_write_mirror Z.lnot) ;;
    modify (set_write_index (fun w => length - (buffer_size rb - w))) ;;
    mret length.

Definition rt_ringbuffer_put_force (ptr : list Z) (length : Z) : RB Z :=
  rb ← gets id;
  let space_length := u16 (rt_ringbuffer_space_len rb) in
  '(ptr, length) ← (if buffer_size rb <? length then
       ptr ← slice ptr (length - buffer_size rb) (buffer_size rb); mret (ptr, u16 (buffer_size rb))
     else mret (ptr, length));
  if length <? buffer_size rb - write_index rb then
    d ← slice ptr 0 length; store (write_index rb) d ;;
    modify (set_write_index (fun w => w + length)) ;;
    when (space_length <? length) (w ← gets write_index; modify (set_read_index (fun _ => w))) ;;
    mret length
  else
    d ← slice ptr 0 (buffer_size rb - write_index rb); store (write_index rb) d ;;
    d ← slice ptr (buffer_size rb - write_index rb) (length - (buffer_size rb - write_index rb)); store 0 d ;;
    modify (set_write_mirror Z.lnot) ;;
    modify (set_write_index (fun w => length - (buffer_size rb - w))) ;;
    when (space_length <? length)
      (modify (set_read_mirror Z.lnot) ;; w ← gets write_index; modify (set_read_index (fun _ => w))) ;;
    mret length.

(** With the bytes stored at [ptr]. *)
Definition rt_ringbuffer_get (length : Z) : RB (Z * list Z) :=
  rb ← gets id;
  let size := rt_ringbuffer_data_len rb in
  if size =? 0 then mret (0, []) else
  let length := if size <? length then u16 size else length in
  if length <? buffer_size rb - read_index rb then
    d ← load (read_index rb) length;
    modify (set_read_index (fun r => r + length)) ;;
    mret (length, d)
  else
    d1 ← load (read_index rb) (buffer_size rb - read_index rb);
    d2 ← load 0 (length - (buffer_size rb - read_index rb));
    modify (set_read_mirror Z.lnot) ;;
    modify (set_read_index (fun r => length - (buffer_size rb - r))) ;;
    mret (length, d1 ++ d2).

(** With the pointer stored, an index into the buffer. *)
Definition rt_ringbuffer_peak : RB (Z * option Z) :=
  rb ← gets id;
  let size := rt_ringbuffer_data_len rb in
  if size =? 0 then mret (0, None) else
  if size <? buffer_size rb - read_index rb then
    modify (set_read_index (fun r => r + size)) ;;
    mret (size, Some (read_index rb))
  else
    modify (set_read_mirror Z.lnot) ;;
    modify (set_read_index (fun _ => 0)) ;;
    mret (buffer_size rb - read_index rb, Some (read_index rb)).

Definition rt_ringbuffer_putchar (ch : Z) : RB Z :=
  rb ← gets id;
  if rt_ringbuffer_space_len rb =? 0 then mret 0 else
  store (write_index rb) [ch] ;;
  (if write_index rb =? buffer_size rb - 1 then
     modify (set_write_mirror Z.lnot) ;; modify (set_write_index (fun _ => 0))
   else modify (set_write_index (fun w => w + 1))) ;;
  mret 1.

Definition rt_ringbuffer_putchar_force (ch : Z) : RB Z :=
  rb ← gets id;
  let old_state := rt_ringbuffer_status rb in
  store (write_index rb) [ch] ;;
  (if write_index rb =? buffer_size rb - 1 then
     modify (set_write_mirror Z.lnot) ;; modify (set_write_index (fun _ => 0)) ;;
     when (bool_decide (old_state = RT_RINGBUFFER_FULL))
       (modify (set_read_mirror Z.lnot) ;; w ← gets write_index; modify (set_read_index (fun _ => w)))
   else
     modify (set_write_index (fun w => w + 1)) ;;
     when (bool_decide (old_state = RT_RINGBUFFER_FULL))
       (w ← gets write_index; modify (set_read_index (fun _ => w)))) ;;
  mret 1.

(** With the byte stored through [ch], if any. *)
Definition rt_ringbuffer_getchar : RB (Z * option Z) :=
  rb ← gets id;
  if rt_ringbuffer_data_len rb =? 0 then mret (0, None) else
  c ← deref (fun rb => buffer_ptr rb !! Z.to_nat (read_index rb));
  (if read_index rb =? buffer_size rb - 1 then
     modify (set_read_mirror Z.lnot) ;; modify (set_read_index (fun _ => 0))
   else modify (set_read_index (fun r => r + 1))) ;;
  mret (1, Some c).

Definition rt_ringbuffer_reset : RB unit :=
  modify (set_read_mirror (fun _ => 0)) ;;
  modify (set_read_index (fun _ => 0)) ;;
  modify (set_write_mirror (fun _ => 0)) ;;
  modify (set_write_index (fun _ => 0)).

(** The memory of the buffer comes from [rt_malloc]: [node] tells whether the control
    block could be had, [pool] the memory for [size] bytes, if any.  The result is [None]
    for a fault, [Some None] for RT_NULL. *)
Definition rt_ringbuffer_create (node : bool) (malloc : Z -> option (list Z)) (size : Z) :
    option (option rt_ringbuffer) :=
  if negb (0 <? size) then None else
  let size := u16 (RT_ALIGN_DOWN size RT_ALIGN_SIZE) in
  if negb node then Some None else
  match malloc size with
  | None => Some None
  | Some pool => Some <$> rt_ringbuffer_init pool (i16 size)
  end.

(** ** The representation

    The mirrored positions run modulo the size; the data lie from the read index on. *)

(** What is read, whether or not the write index has gone round. *)
Definition used (rb : rt_ringbuffer) : Z :=
  if read_mirror rb =? write_mirror rb then write_index rb - read_index rb
  else buffer_size rb - read_index rb + write_index rb.

Record rb_ok (rb : rt_ringbuffer) : Prop := {
  ro_size : 0 < buffer_size rb < 2 ^ 15;
  ro_buffer : Z.of_nat (length (buffer_ptr rb)) = buffer_size rb;
  ro_read : 0 <= read_index rb < buffer_size rb;
  ro_write : 0 <= write_index rb < buffer_size rb;
  ro_rmirror : 0 <= read_mirror rb < 2;
  ro_wmirror : 0 <= write_mirror rb < 2;
  ro_used : 0 <= used rb <= buffer_size rb
}.

(** The buffer holds the bytes [q], oldest first. *)
Definition holds (rb : rt_ringbuffer) (q : list Z) : Prop :=
  rb_ok rb /\ segment (buffer_size rb) (read_index rb) (used rb) (buffer_ptr rb) q.

(** The write index comes [used] positions after the read index. *)
Lemma slot_write rb x : rb_ok rb ->
  slot (buffer_size rb) (write_index rb + x) = slot (buffer_size rb) (read_index rb + used rb + x).
Proof.
  intros [? _ _ _ _ _ _]. unfold used. case_match.
  - f_equal. lia.
  - rewrite <- slot_over by lia. f_equal. lia.
Qed.

Lemma data_len_used rb : rb_ok rb -> rt_ringbuffer_data_len rb = used rb.
Proof.
  intros [? ? ? ? ? ? H]. change (2 ^ 15) with 32768 in *.
  unfold rt_ringbuffer_data_len, rt_ringbuffer_status. unfold used in *.
  destruct (Z.eqb_spec (read_index rb) (write_index rb)), (Z.eqb_spec (read_mirror rb) (write_mirror rb));
    cbn; try destruct (Z.ltb_spec (read_index rb) (write_index rb)); rewrite ?wrap_small by lia; lia.
Qed.
Lemma space_len_used rb : rb_ok rb -> rt_ringbuffer_space_len rb = buffer_size rb - used rb.
Proof.
  intros H. pose proof (data_len_used rb H) as E. destruct H as [? ? ? ? ? ? H]. unfold rt_ringbuffer_space_len.
  rewrite E. change (2 ^ 15) with 32768 in *. apply wrap_small. lia.
Qed.
Lemma status_full rb : rb_ok rb -> bool_decide (rt_ringbuffer_status rb = RT_RINGBUFFER_FULL) = (used rb =? buffer_size rb).
Proof.
  intros [? ? ? ? ? ? H]. unfold rt_ringbuffer_status. unfold used in *. symmetry.
  destruct (Z.eqb_spec (read_index rb) (write_index rb)), (Z.eqb_spec (read_mirror rb) (write_mirror rb));
    cbn; (apply Z.eqb_eq || apply Z.eqb_neq); lia.
Qed.

(** *** What a change of the indices makes of the queue *)

Lemma holds_write rb rb' q d k :
  holds rb q -> Z.of_nat (length d) <= buffer_size rb ->
  wrote (buffer_size rb) (write_index rb) d (buffer_ptr rb) (buffer_ptr rb') ->
  rb_ok rb' -> buffer_size rb' = buffer_size rb ->
  0 <= k -> used rb' = used rb + Z.of_nat (length d) - k ->
  (forall x, slot (buffer_size rb) (read_index rb' + x) = slot (buffer_size rb) (read_index rb + k + x)) ->
  holds rb' (drop (Z.to_nat k) (q ++ d)).
Proof.
  intros [Hok Hq] Hd Hw Hok' Hs Hk Hu Hr. split; [done|]. pose proof Hok as []. pose proof (ro_used _ Hok') as U.
  rewrite Hs, Hu in *. eapply segment_write; try done; [lia|lia|]. intros x. by apply slot_write.
Qed.

Lemma holds_read rb rb' q n :
  holds rb q -> 0 <= n -> buffer_ptr rb' = buffer_ptr rb ->
  rb_ok rb' -> buffer_size rb' = buffer_size rb -> used rb' = used rb - n ->
  (forall x, slot (buffer_size rb) (read_index rb' + x) = slot (buffer_size rb) (read_index rb + n + x)) ->
  holds rb' (drop (Z.to_nat n) q).
Proof.
  intros [Hok Hq] Hn Hb Hok' Hs Hu Hr. split; [done|]. pose proof (ro_used _ Hok'). rewrite Hs, Hu, Hb in *.
  eapply segment_read; [done|lia|done].
Qed.

Lemma wp_slice ptr off n Q rb : 0 <= off -> 0 <= n -> off + n <= Z.of_nat (length ptr) ->
  Q (take (Z.to_nat n) (drop (Z.to_nat off) ptr)) rb -> wp (slice ptr off n) Q rb.
Proof.
  intros. unfold slice. rewrite wp_bind. apply wp_assert; [|done].
  apply andb_true_intro. split; [apply andb_true_intro; split|]; by apply Z.leb_le.
Qed.
Lemma wp_load off n Q rb : 0 <= off -> 0 <= n -> off + n <= Z.of_nat (length (buffer_ptr rb)) ->
  Q (take (Z.to_nat n) (drop (Z.to_nat off) (buffer_ptr rb))) rb -> wp (load off n) Q rb.
Proof. intros. unfold load. rewrite wp_bind, wp_gets. by apply wp_slice. Qed.
Lemma wp_store off d (Q : unit -> rt_ringbuffer -> Prop) rb : 0 <= off -> off + Z.of_nat (length d) <= Z.of_nat (length (buffer_ptr rb)) ->
  Q tt (set_buffer (list_inserts (Z.to_nat off) d) rb) -> wp (store off d) Q rb.
Proof.
  intros. unfold store. rewrite wp_bind, wp_gets, wp_bind. apply wp_assert; [|done].
  apply andb_true_intro. split; by apply Z.leb_le.
Qed.
Lemma length_slice {A} (ptr : list A) off n : 0 <= off -> 0 <= n -> off + n <= Z.of_nat (length ptr) ->
  Z.of_nat (length (take (Z.to_nat n) (drop (Z.to_nat off) ptr))) = n.
Proof. intros. rewrite length_take, length_drop. lia. Qed.

Lemma flip m : 0 <= m < 2 -> wrap 1 (Z.lnot m) = 1 - m.
Proof. intros. assert (m = 0 \/ m = 1) as [-> | ->] by lia; done. Qed.

(** Both copies of a block into the buffer. *)
Lemma wp_copy_once {A} ptr n (m : RB A) Q rb : rb_ok rb ->
  0 <= n <= Z.of_nat (length ptr) -> n < buffer_size rb - write_index rb ->
  (forall buf, wrote (buffer_size rb) (write_index rb) (take (Z.to_nat n) ptr) (buffer_ptr rb) buf ->
     wp m Q (set_buffer (fun _ => buf) rb)) ->
  wp (d ← slice ptr 0 n; store (write_index rb) d ;; m) Q rb.
Proof.
  intros [] Hn Hlt HQ. rewrite wp_bind. apply wp_slice; [lia..|]. change (drop (Z.to_nat 0) ptr) with ptr.
  assert (Z.of_nat (length (take (Z.to_nat n) ptr)) = n) by (rewrite length_take; lia).
  cbn beta. rewrite wp_bind. apply wp_store; [lia..|]. apply HQ. apply wrote_once; lia.
Qed.
Lemma wp_copy_twice {A} ptr n (m : RB A) Q rb : rb_ok rb ->
  n <= Z.of_nat (length ptr) -> buffer_size rb - write_index rb <= n <= buffer_size rb ->
  (forall buf, wrote (buffer_size rb) (write_index rb) (take (Z.to_nat n) ptr) (buffer_ptr rb) buf ->
     wp m Q (set_buffer (fun _ => buf) rb)) ->
  wp (d ← slice ptr 0 (buffer_size rb - write_index rb); store (write_index rb) d ;;
      d ← slice ptr (buffer_size rb - write_index rb) (n - (buffer_size rb - write_index rb)); store 0 d ;; m) Q rb.
Proof.
  intros [] Hn Hlt HQ. set (k := buffer_size rb - write_index rb) in *.
  rewrite wp_bind. apply wp_slice; [lia..|]. change (drop (Z.to_nat 0) ptr) with ptr.
  assert (Z.of_nat (length (take (Z.to_nat k) ptr)) = k) by (rewrite length_take; lia).
  cbn beta. rewrite wp_bind. apply wp_store; [lia..|]. rewrite wp_bind. apply wp_slice; [lia..|].
  pose proof (length_slice ptr k (n - k) ltac:(lia) ltac:(lia) ltac:(lia)).
  cbn beta. rewrite wp_bind. apply wp_store; [done|cbn [buffer_ptr set_buffer]; rewrite length_inserts; lia|]. apply HQ.
  replace (take (Z.to_nat n) ptr) with (take (Z.to_nat k) ptr ++ take (Z.to_nat (n - k)) (drop (Z.to_nat k) ptr)).
  - apply wrote_twice; lia.
  - replace (Z.to_nat n) with (Z.to_nat k + Z.to_nat (n - k))%nat by lia. apply take_take_drop.
Qed.

(** ** The operations on the queue *)

(** Arithmetic of the indices and mirrors. *)
Ltac rb_lia :=
  unfold used in *;
  cbn [length buffer_ptr read_mirror read_index write_mirror write_index buffer_size
       set_buffer set_read_mirror set_read_index set_write_mirror set_write_index] in *;
  change (2 ^ 15) with 32768 in *; change (2 ^ 16) with 65536 in *;
  rewrite ?wrap_wrap; rewrite ?flip by lia; rewrite ?wrap_small by lia;
  repeat match goal with
         | |- context [?a =? ?b] => destruct (Z.eqb_spec a b)
         | H : context [?a =? ?b] |- _ => destruct (Z.eqb_spec a b)
         end; lia.

(** Advancing an index modulo the size, with its mirror. *)
Definition advanced (size index mirror n index' mirror' : Z) : Prop :=
  (n < size - index /\ index' = index + n /\ mirror' = mirror) \/
  (size - index <= n /\ index' = index + n - size /\ mirror' = 1 - mirror).

Lemma advanced_slot size index mirror n index' mirror' x : 0 < size ->
  advanced size index mirror n index' mirror' -> slot size (index' + x) = slot size (index + n + x).
Proof.
  intros Hs [(_ & -> & _)|(_ & -> & _)]; [done|]. rewrite <- slot_over by lia. f_equal. lia.
Qed.

(** The writing index has moved on by [n], so that [n] more bytes are used. *)
Lemma holds_put rb rb' q d :
  holds rb q -> Z.of_nat (length d) <= buffer_size rb - used rb ->
  wrote (buffer_size rb) (write_index rb) d (buffer_ptr rb) (buffer_ptr rb') ->
  advanced (buffer_size rb) (write_index rb) (write_mirror rb) (Z.of_nat (length d)) (write_index rb') (write_mirror rb') ->
  buffer_size rb' = buffer_size rb -> read_index rb' = read_index rb -> read_mirror rb' = read_mirror rb ->
  holds rb' (q ++ d).
Proof.
  intros Hq Hd Hw Ha Es Er Em. pose proof (proj1 Hq) as Hok. pose proof Hok as [].
  assert (Hu : used rb' = used rb + Z.of_nat (length d)) by (unfold used in *; rewrite Es, Er, Em; destruct Ha as [(? & -> & ->)|(? & -> & ->)]; rb_lia).
  rewrite <- (drop_0 (q ++ d)). change 0%nat with (Z.to_nat 0). eapply holds_write; [done|lia|done| |done|lia|lia|].
  - destruct Hw as [Hb _]. constructor; rewrite ?Hb, ?Es, ?Er, ?Em, ?Hu; try lia; destruct Ha as [(? & ? & ?)|(? & ? & ?)]; rb_lia.
  - intros x. by rewrite Er, Z.add_0_r.
Qed.

Lemma wp_rt_ringbuffer_put ptr n q rb :
  holds rb q -> 0 <= n <= Z.of_nat (length ptr) ->
  wp (rt_ringbuffer_put ptr n) (fun r rb' =>
    r = Z.min n (buffer_size rb - Z.of_nat (length q)) /\ buffer_size rb' = buffer_size rb /\
    holds rb' (q ++ take (Z.to_nat r) ptr)) rb.
Proof.
  intros Hq Hn. pose proof Hq as (Hok & Hl & _). pose proof Hok as [].
  unfold rt_ringbuffer_put. rewrite wp_bind, wp_gets. cbn [id].
  rewrite space_len_used by done. rewrite wrap_small by rb_lia.
  destruct (Z.eqb_spec (buffer_size rb - used rb) 0) as [E0|E0].
  - rewrite wp_ret. split; [lia|]. split; [done|]. by rewrite app_nil_r.
  - replace (if buffer_size rb - used rb <? n then buffer_size rb - used rb else n)
      with (Z.min n (buffer_size rb - Z.of_nat (length q))) by (destruct (Z.ltb_spec (buffer_size rb - used rb) n); lia).
    set (k := Z.min n _). assert (Hk : 0 <= k <= n /\ k <= buffer_size rb - used rb) by lia.
    assert (Hd : Z.of_nat (length (take (Z.to_nat k) ptr)) = k) by (rewrite length_take; lia).
    destruct (Z.ltb_spec k (buffer_size rb - write_index rb)).
    + apply wp_copy_once; [done|lia|lia|]. intros buf Hw. rewrite wp_bind, wp_modify, wp_ret.
      split; [done|]. split; [done|]. eapply holds_put; [done|lia|exact Hw| |done..]. rewrite Hd. left. rb_lia.
    + apply wp_copy_twice; [done|lia|lia|]. intros buf Hw. rewrite wp_bind, wp_modify, wp_bind, wp_modify, wp_ret.
      split; [done|]. split; [done|]. eapply holds_put; [done|lia|exact Hw| |done..]. rewrite Hd. right. rb_lia.
Qed.

(** The reading index has moved on by [n]. *)
Lemma holds_get rb rb' q n :
  holds rb q -> 0 <= n <= used rb ->
  advanced (buffer_size rb) (read_index rb) (read_mirror rb) n (read_index rb') (read_mirror rb') ->
  buffer_ptr rb' = buffer_ptr rb -> buffer_size rb' = buffer_size rb ->
  write_index rb' = write_index rb -> write_mirror rb' = write_mirror rb ->
  holds rb' (drop (Z.to_nat n) q).
Proof.
  intros Hq Hn Ha Eb Es Ew Em. pose proof (proj1 Hq) as Hok. pose proof Hok as [].
  assert (Hu : used rb' = used rb - n) by (unfold used in *; rewrite Es, Ew, Em; destruct Ha as [(? & -> & ->)|(? & -> & ->)]; rb_lia).
  eapply holds_read; [done|lia|done| |done|done|].
  - constructor; rewrite ?Eb, ?Es, ?Ew, ?Em, ?Hu; try lia; destruct Ha as [(? & ? & ?)|(? & ? & ?)]; rb_lia.
  - intros x. eapply advanced_slot; [lia|done].
Qed.

(** What is copied out from the read index on. *)
Lemma loaded_once rb q n : holds rb q -> 0 <= n <= used rb -> n <= buffer_size rb - read_index rb ->
  take (Z.to_nat n) (drop (Z.to_nat (read_index rb)) (buffer_ptr rb)) = take (Z.to_nat n) q.
Proof.
  intros Hq Hn Hr. pose proof (proj1 Hq) as []. eapply segment_take; [apply Hq|done|rewrite length_take, length_drop; lia|].
  intros i Hi. rewrite lookup_take_lt by lia. rewrite lookup_drop, slot_small by lia. f_equal. lia.
Qed.
Lemma loaded_twice rb q n : holds rb q -> n <= used rb -> buffer_size rb - read_index rb <= n ->
  take (Z.to_nat (buffer_size rb - read_index rb)) (drop (Z.to_nat (read_index rb)) (buffer_ptr rb)) ++
  take (Z.to_nat (n - (buffer_size rb - read_index rb))) (drop (Z.to_nat 0) (buffer_ptr rb)) = take (Z.to_nat n) q.
Proof.
  intros Hq Hn Hr. pose proof (proj1 Hq) as [].
  assert (H1 : Z.of_nat (length (take (Z.to_nat (buffer_size rb - read_index rb)) (drop (Z.to_nat (read_index rb)) (buffer_ptr rb)))) =
    buffer_size rb - read_index rb) by (rewrite length_take, length_drop; lia).
  eapply segment_take; [apply Hq|lia|rewrite length_app, length_take, length_drop, Nat2Z.inj_add, length_take, length_drop; lia|].
  intros i Hi. destruct (decide (i < buffer_size rb - read_index rb)).
  - rewrite lookup_app_l by lia. rewrite lookup_take_lt by lia. rewrite lookup_drop, slot_small by lia. f_equal. lia.
  - rewrite lookup_app_r by lia. rewrite lookup_take_lt by lia. rewrite lookup_drop, slot_wrap by lia. f_equal. lia.
Qed.

Lemma wp_rt_ringbuffer_get n q rb :
  holds rb q -> 0 <= n < 2 ^ 16 ->
  wp (rt_ringbuffer_get n) (fun r rb' =>
    r = (Z.min n (Z.of_nat (length q)), take (Z.to_nat n) q) /\ buffer_size rb' = buffer_size rb /\
    holds rb' (drop (Z.to_nat n) q)) rb.
Proof.
  intros Hq Hn. pose proof Hq as (Hok & Hl & _). pose proof Hok as [].
  unfold rt_ringbuffer_get. rewrite wp_bind, wp_gets. cbn [id]. rewrite data_len_used by done.
  destruct (Z.eqb_spec (used rb) 0) as [E0|E0].
  - rewrite wp_ret. assert (q = []) as -> by (apply nil_length_inv; lia).
    rewrite take_nil, drop_nil, Z.min_r by (cbn; lia). done.
  - replace (if used rb <? n then u16 (used rb) else n) with (Z.min n (Z.of_nat (length q)))
      by (destruct (Z.ltb_spec (used rb) n); rewrite ?wrap_small by rb_lia; lia).
    set (k := Z.min n _). assert (Hk : 0 <= k <= used rb) by lia.
    assert (take (Z.to_nat n) q = take (Z.to_nat k) q /\ drop (Z.to_nat n) q = drop (Z.to_nat k) q) as [-> ->].
    { destruct (decide (n <= Z.of_nat (length q))); [by replace k with n by lia|].
      by rewrite !take_ge, !drop_ge by lia. }
    destruct (Z.ltb_spec k (buffer_size rb - read_index rb)).
    + rewrite wp_bind. apply wp_load; [lia..|]. cbn beta. rewrite wp_bind, wp_modify, wp_ret.
      split; [by rewrite (loaded_once rb q) by (done || lia)|]. split; [done|].
      eapply holds_get; [done|done| |done..]. left. rb_lia.
    + rewrite wp_bind. apply wp_load; [lia..|]. cbn beta. rewrite wp_bind. apply wp_load; [lia..|]. cbn beta.
      rewrite wp_bind, wp_modify, wp_bind, wp_modify, wp_ret.
      split; [by rewrite (loaded_twice rb q) by (done || lia)|]. split; [done|].
      eapply holds_get; [done|done| |done..]. right. rb_lia.
Qed.

Lemma wp_rt_ringbuffer_peak q rb :
  holds rb q ->
  wp rt_ringbuffer_peak (fun r rb' => buffer_size rb' = buffer_size rb /\ exists n, 0 <= n <= Z.of_nat (length q) /\
    r = (n, if n =? 0 then None else Some (read_index rb)) /\ (q ≠ [] -> 0 < n) /\
    take (Z.to_nat n) (drop (Z.to_nat (read_index rb)) (buffer_ptr rb)) = take (Z.to_nat n) q /\
    holds rb' (drop (Z.to_nat n) q)) rb.
Proof.
  intros Hq. pose proof Hq as (Hok & Hl & _). pose proof Hok as [].
  unfold rt_ringbuffer_peak. rewrite wp_bind, wp_gets. cbn [id]. rewrite data_len_used by done.
  destruct (Z.eqb_spec (used rb) 0) as [E0|E0].
  - rewrite wp_ret. split; [done|]. exists 0. assert (q = []) as -> by (apply nil_length_inv; lia). done.
  - destruct (Z.ltb_spec (used rb) (buffer_size rb - read_index rb)).
    + rewrite wp_bind, wp_modify, wp_ret. split; [done|]. exists (used rb).
      split; [lia|]. rewrite (proj2 (Z.eqb_neq _ _)) by lia. split; [done|]. split; [lia|].
      split; [apply loaded_once; (done || lia)|]. eapply holds_get; [done|lia| |done..]. left. rb_lia.
    + rewrite wp_bind, wp_modify, wp_bind, wp_modify, wp_ret. split; [done|]. exists (buffer_size rb - read_index rb).
      split; [lia|]. rewrite (proj2 (Z.eqb_neq _ _)) by lia. split; [done|]. split; [lia|].
      split; [apply loaded_once; (done || lia)|]. eapply holds_get; [done|lia| |done..]. right. rb_lia.
Qed.

Lemma wp_rt_ringbuffer_getchar q rb :
  holds rb q ->
  wp rt_ringbuffer_getchar (fun r rb' => buffer_size rb' = buffer_size rb /\
    r = match q with [] => (0, None) | c :: _ => (1, Some c) end /\ holds rb' (drop 1 q)) rb.
Proof.
  intros Hq. pose proof Hq as (Hok & Hl & Hc). pose proof Hok as [].
  unfold rt_ringbuffer_getchar. rewrite wp_bind, wp_gets. cbn [id]. rewrite data_len_used by done.
  destruct (Z.eqb_spec (used rb) 0) as [E0|E0].
  - rewrite wp_ret. assert (q = []) as -> by (apply nil_length_inv; lia). done.
  - destruct q as [|c q]; [cbn in Hl; lia|]. specialize (Hc 0 ltac:(lia)). cbn in Hc.
    rewrite Z.add_0_r, slot_small in Hc by lia.
    rewrite wp_bind. eapply wp_deref; [symmetry; exact Hc|]. cbn beta. change 1%nat with (Z.to_nat 1).
    rewrite wp_bind. destruct (Z.eqb_spec (read_index rb) (buffer_size rb - 1)).
    + rewrite wp_bind, wp_modify, wp_modify, wp_ret. split; [done|]. split; [done|].
      eapply holds_get; [done|lia| |done..]. right. rb_lia.
    + rewrite wp_modify, wp_ret. split; [done|]. split; [done|].
      eapply holds_get; [done|lia| |done..]. left. rb_lia.
Qed.

Lemma wp_rt_ringbuffer_putchar ch q rb :
  holds rb q ->
  wp (rt_ringbuffer_putchar ch) (fun r rb' => buffer_size rb' = buffer_size rb /\
    if Z.of_nat (length q) =? buffer_size rb then r = 0 /\ rb' = rb else r = 1 /\ holds rb' (q ++ [ch])) rb.
Proof.
  intros Hq. pose proof Hq as (Hok & Hl & Hc). pose proof Hok as [].
  unfold rt_ringbuffer_putchar. rewrite wp_bind, wp_gets. cbn [id]. rewrite space_len_used, Hl by done.
  destruct (Z.eqb_spec (buffer_size rb - used rb) 0), (Z.eqb_spec (used rb) (buffer_size rb)); try lia.
  - by rewrite wp_ret.
  - rewrite wp_bind. apply wp_store; [lia|cbn; lia|].
    assert (Hw := wrote_once (buffer_size rb) (write_index rb) [ch] (buffer_ptr rb) ltac:(lia) ltac:(lia) ltac:(cbn; lia)).
    rewrite wp_bind. destruct (Z.eqb_spec (write_index rb) (buffer_size rb - 1)).
    + rewrite wp_bind, wp_modify, wp_modify, wp_ret. split; [done|]. split; [done|].
      eapply holds_put; [done|cbn; lia|exact Hw| |done..]. right. rb_lia.
    + rewrite wp_modify, wp_ret. split; [done|]. split; [done|].
      eapply holds_put; [done|cbn; lia|exact Hw| |done..]. left. rb_lia.
Qed.

(** *** Overwriting *)

(** The last [n] of [l]. *)
Definition lastn (n : Z) (l : list Z) : list Z := drop (Z.to_nat (Z.of_nat (length l) - n)) l.

(** Both indices have moved so that the buffer is full and ends with [d]. *)
Lemma holds_force rb rb' q d :
  holds rb q -> Z.of_nat (length d) <= buffer_size rb -> buffer_size rb < used rb + Z.of_nat (length d) ->
  wrote (buffer_size rb) (write_index rb) d (buffer_ptr rb) (buffer_ptr rb') ->
  advanced (buffer_size rb) (write_index rb) (write_mirror rb) (Z.of_nat (length d)) (write_index rb') (write_mirror rb') ->
  buffer_size rb' = buffer_size rb -> read_index rb' = write_index rb' -> read_mirror rb' = 1 - write_mirror rb' ->
  holds rb' (lastn (buffer_size rb) (q ++ d)).
Proof.
  intros Hq Hd Hf Hw Ha Es Er Em. pose proof Hq as (Hok & Hl & _). pose proof Hok as [].
  assert (Hu : used rb' = buffer_size rb) by (unfold used; rewrite Es, Er, Em; destruct (Z.eqb_spec (1 - write_mirror rb') (write_mirror rb')); lia).
  unfold lastn. rewrite length_app. replace (Z.of_nat _ - buffer_size rb) with (used rb + Z.of_nat (length d) - buffer_size rb) by lia.
  eapply holds_write; [done|lia|done| |done|lia|lia|].
  - destruct Hw as [Hb _]. constructor; rewrite ?Hb, ?Hu, ?Em, ?Er, ?Es; try lia; destruct Ha as [(? & ? & ?)|(? & ? & ?)]; lia.
  - intros x. rewrite Er. erewrite advanced_slot by (lia || done).
    replace (write_index rb + Z.of_nat (length d) + x) with (write_index rb + (Z.of_nat (length d) + x)) by lia.
    rewrite slot_write by done. rewrite <- (slot_over _ (read_index rb + _ + x)) by lia. f_equal. lia.
Qed.

Lemma wp_rt_ringbuffer_putchar_force ch q rb :
  holds rb q ->
  wp (rt_ringbuffer_putchar_force ch) (fun r rb' => buffer_size rb' = buffer_size rb /\
    r = 1 /\ holds rb' (lastn (buffer_size rb) (q ++ [ch]))) rb.
Proof.
  intros Hq. pose proof Hq as (Hok & Hl & Hc). pose proof Hok as [].
  unfold rt_ringbuffer_putchar_force. rewrite wp_bind, wp_gets. cbn [id]. rewrite status_full by done.
  rewrite wp_bind. apply wp_store; [lia|cbn; lia|].
  assert (Hw := wrote_once (buffer_size rb) (write_index rb) [ch] (buffer_ptr rb) ltac:(lia) ltac:(lia) ltac:(cbn; lia)).
  destruct (Z.eqb_spec (used rb) (buffer_size rb)) as [Ef|Ef]; cbn [when].
  - rewrite wp_bind. destruct (Z.eqb_spec (write_index rb) (buffer_size rb - 1)); repeat rewrite ?wp_bind, ?wp_modify, ?wp_gets, ?wp_ret;
      (split; [done|]); (split; [done|]); (eapply holds_force; [done|cbn; lia|cbn; lia|exact Hw| |done|rb_lia|rb_lia]); [right|left]; rb_lia.
  - unfold lastn. rewrite length_app. cbn [length]. replace (Z.to_nat _) with 0%nat by lia. rewrite drop_0.
    rewrite wp_bind. destruct (Z.eqb_spec (write_index rb) (buffer_size rb - 1)); repeat rewrite ?wp_bind, ?wp_modify, ?wp_gets, ?wp_ret;
      (split; [done|]); (split; [done|]); (eapply holds_put; [done|cbn; lia|exact Hw| |done..]); [right|left]; rb_lia.
Qed.

Lemma lastn_app_right n l k : n <= Z.of_nat (length k) -> lastn n (l ++ k) = lastn n k.
Proof.
  intros. unfold lastn. rewrite length_app, drop_app_ge by lia. f_equal. lia.
Qed.

(** The bytes kept of a block longer than the buffer. *)
Lemma wp_put_force_block ptr n (Q : list Z * Z -> rt_ringbuffer -> Prop) rb :
  rb_ok rb -> 0 <= n <= Z.of_nat (length ptr) ->
  (forall p k, k = Z.min n (buffer_size rb) -> k <= Z.of_nat (length p) ->
     take (Z.to_nat k) p = lastn k (take (Z.to_nat n) ptr) -> Q (p, k) rb) ->
  wp (if buffer_size rb <? n then
        ptr ← slice ptr (n - buffer_size rb) (buffer_size rb); mret (ptr, u16 (buffer_size rb))
      else mret (ptr, n)) Q rb.
Proof.
  intros [] Hn HQ. destruct (Z.ltb_spec (buffer_size rb) n).
  - rewrite wp_bind. apply wp_slice; [lia..|]. cbn beta. rewrite wp_ret. rewrite wrap_small by rb_lia.
    pose proof (length_slice ptr (n - buffer_size rb) (buffer_size rb) ltac:(lia) ltac:(lia) ltac:(lia)).
    apply HQ; [lia|lia|]. rewrite take_ge by lia. unfold lastn. rewrite length_take.
    replace (Z.of_nat (Z.to_nat n `min` length ptr) - buffer_size rb) with (n - buffer_size rb) by lia.
    rewrite take_drop_commute. f_equal. f_equal. lia.
  - rewrite wp_ret. apply HQ; [lia|lia|]. unfold lastn. rewrite length_take.
    replace (Z.to_nat (_ - n)) with 0%nat by lia. done.
Qed.

Lemma wp_rt_ringbuffer_put_force ptr n q rb :
  holds rb q -> 0 <= n <= Z.of_nat (length ptr) ->
  wp (rt_ringbuffer_put_force ptr n) (fun r rb' => r = Z.min n (buffer_size rb) /\ buffer_size rb' = buffer_size rb /\
    holds rb' (if (read_mirror rb =? write_mirror rb) && (buffer_size rb <? Z.of_nat (length q) + r) then []
               else lastn (buffer_size rb) (q ++ take (Z.to_nat n) ptr))) rb.
Proof.
  intros Hq Hn. pose proof Hq as (Hok & Hl & _). pose proof Hok as [].
  unfold rt_ringbuffer_put_force. rewrite wp_bind, wp_gets. cbn [id]. rewrite space_len_used by done.
  rewrite wrap_small by rb_lia. rewrite wp_bind. apply wp_put_force_block; [done|done|]. intros p k Ek Hp Hd.
  assert (Hld : Z.of_nat (length (take (Z.to_nat k) p)) = k) by (rewrite length_take; lia).
  set (d := take (Z.to_nat k) p) in *.
  assert (El : lastn (buffer_size rb) (q ++ take (Z.to_nat n) ptr) = lastn (buffer_size rb) (q ++ d)).
  { rewrite Hd. destruct (decide (n <= buffer_size rb)).
    - replace k with n by lia. unfold lastn at 3. rewrite length_take. by replace (Z.to_nat (_ - n)) with 0%nat by lia.
    - replace k with (buffer_size rb) in * by lia. rewrite !lastn_app_right; [|rewrite <- Hd; lia|rewrite length_take; lia].
      unfold lastn at 2. rewrite <- Hd, Hld. by replace (Z.to_nat (_ - _)) with 0%nat by lia. }
  rewrite El, <- Ek. assert (Hk : 0 <= k <= buffer_size rb) by lia. clear El Hd Ek.
  assert (Hroom : used rb + k <= buffer_size rb -> lastn (buffer_size rb) (q ++ d) = q ++ d).
  { intros. unfold lastn. rewrite length_app. by replace (Z.to_nat _) with 0%nat by lia. }
  destruct (Z.ltb_spec k (buffer_size rb - write_index rb)) as [Hc|Hc].
  - apply wp_copy_once; [done|lia|lia|]. fold d. intros buf Hw. rewrite wp_bind, wp_modify, wp_bind.
    destruct (Z.ltb_spec (buffer_size rb - used rb) k) as [Hov|Hov]; cbn [when]; repeat rewrite ?wp_bind, ?wp_gets, ?wp_modify, ?wp_ret;
      (split; [done|]); (split; [done|]).
    + destruct (Z.eqb_spec (read_mirror rb) (write_mirror rb)); cbn [andb]; [rb_lia|].
      eapply holds_force; [done|lia|lia|exact Hw| |done|rb_lia|rb_lia]. rewrite Hld. left. rb_lia.
    + destruct (Z.ltb_spec (buffer_size rb) (Z.of_nat (length q) + k)); [lia|]. rewrite andb_false_r, Hroom by lia.
      eapply holds_put; [done|lia|exact Hw| |done..]. rewrite Hld. left. rb_lia.
  - apply wp_copy_twice; [done|lia|lia|]. fold d. intros buf Hw. rewrite wp_bind, wp_modify, wp_bind, wp_modify, wp_bind.
    destruct (Z.ltb_spec (buffer_size rb - used rb) k) as [Hov|Hov]; cbn [when]; repeat rewrite ?wp_bind, ?wp_gets, ?wp_modify, ?wp_ret;
      (split; [done|]); (split; [done|]).
    + destruct (Z.ltb_spec (buffer_size rb) (Z.of_nat (length q) + k)); [|lia]. rewrite andb_true_r.
      destruct (Z.eqb_spec (read_mirror rb) (write_mirror rb)) as [Em|Em].
      * destruct Hw as [Hb _]. cbn in Hb. match goal with |- holds ?rb' [] => assert (Hu : used rb' = 0) by rb_lia end.
        split; [constructor; rb_lia|]. split; [by rewrite Hu|]. intros i Hi. rewrite Hu in Hi. lia.
      * eapply holds_force; [done|lia|lia|exact Hw| |done|rb_lia|rb_lia]. rewrite Hld. right. rb_lia.
    + destruct (Z.ltb_spec (buffer_size rb) (Z.of_nat (length q) + k)); [lia|]. rewrite andb_false_r, Hroom by lia.
      eapply holds_put; [done|lia|exact Hw| |done..]. rewrite Hld. right. rb_lia.
Qed.

(** ** The bounded queue *)

(** What is called, with what it gives. *)
Inductive op :=
  | Put (ptr : list Z) (n r : Z)
  | Putchar (c r : Z)
  | PutcharForce (c : Z)
  | Get (n r : Z) (d : list Z)
  | Getchar (r : option Z)
  | Peak (d : list Z)
  | DataLen (r : Z)
  | Reset.

(** A first-in first-out queue of at most [cap] bytes. *)
Inductive fifo (cap : Z) : list Z -> op -> list Z -> Prop :=
  | fi_put q ptr n r : r = Z.min n (cap - Z.of_nat (length q)) -> fifo cap q (Put ptr n r) (q ++ take (Z.to_nat r) ptr)
  | fi_putchar q c : Z.of_nat (length q) < cap -> fifo cap q (Putchar c 1) (q ++ [c])
  | fi_full q c : Z.of_nat (length q) = cap -> fifo cap q (Putchar c 0) q
  | fi_force q c : fifo cap q (PutcharForce c) (lastn cap (q ++ [c]))
  | fi_get q n r : r = Z.min n (Z.of_nat (length q)) -> fifo cap q (Get n r (take (Z.to_nat n) q)) (drop (Z.to_nat n) q)
  | fi_getchar q : fifo cap q (Getchar (head q)) (tail q)
  | fi_peak q d q' : q = d ++ q' -> (q ≠ [] -> d ≠ []) -> fifo cap q (Peak d) q'
  | fi_len q : fifo cap q (DataLen (Z.of_nat (length q))) q
  | fi_reset q : fifo cap q Reset [].

(** The calls of the program; [Peak] gives the bytes at the pointer stored. *)
Inductive rb_step (rb : rt_ringbuffer) : op -> rt_ringbuffer -> Prop :=
  | rs_put ptr n r rb' : 0 <= n <= Z.of_nat (length ptr) ->
      rt_ringbuffer_put ptr n rb = Some (r, rb') -> rb_step rb (Put ptr n r) rb'
  | rs_putchar c r rb' : rt_ringbuffer_putchar c rb = Some (r, rb') -> rb_step rb (Putchar c r) rb'
  | rs_force c rb' : rt_ringbuffer_putchar_force c rb = Some (1, rb') -> rb_step rb (PutcharForce c) rb'
  | rs_get n r d rb' : 0 <= n < 2 ^ 16 -> rt_ringbuffer_get n rb = Some (r, d, rb') -> rb_step rb (Get n r d) rb'
  | rs_getchar c r rb' : rt_ringbuffer_getchar rb = Some (c, r, rb') -> rb_step rb (Getchar r) rb'
  | rs_peak r p rb' : rt_ringbuffer_peak rb = Some (r, p, rb') ->
      rb_step rb (Peak (match p with Some a => take (Z.to_nat r) (drop (Z.to_nat a) (buffer_ptr rb)) | None => [] end)) rb'
  | rs_len : rb_step rb (DataLen (rt_ringbuffer_data_len rb)) rb
  | rs_reset rb' : rt_ringbuffer_reset rb = Some (tt, rb') -> rb_step rb Reset rb'.

(** The queue a buffer stands for. *)
Definition contents (rb : rt_ringbuffer) : list Z :=
  stretch (buffer_size rb) (read_index rb) (used rb) (buffer_ptr rb).

Lemma holds_contents rb : rb_ok rb -> holds rb (contents rb).
Proof. intros H. split; [done|]. pose proof H as []. apply stretch_segment; lia. Qed.
Lemma contents_eq rb q : holds rb q -> contents rb = q.
Proof. intros [Hok Hq]. pose proof (holds_contents rb Hok) as [_ H]. by eapply segment_unique. Qed.

Definition queue_ok (cap : Z) (rb : rt_ringbuffer) : Prop := rb_ok rb /\ buffer_size rb = cap.

Lemma reset_empty rb : rb_ok rb -> wp rt_ringbuffer_reset (fun _ rb' => buffer_size rb' = buffer_size rb /\ holds rb' []) rb.
Proof.
  intros []. unfold rt_ringbuffer_reset. rewrite !wp_bind, !wp_modify. split; [done|].
  split; [constructor; rb_lia|].
  match goal with |- context [used ?rb] => assert (Hu : used rb = 0) by rb_lia end.
  split; [done|]. intros i Hi. rewrite Hu in Hi. lia.
Qed.

Lemma contents_step {A} cap (m : RB A) rb a rb' (P : A -> Prop) (q' : A -> list Z) :
  buffer_size rb = cap ->
  m rb = Some (a, rb') ->
  wp m (fun a rb' => buffer_size rb' = buffer_size rb /\ P a /\ holds rb' (q' a)) rb -> P a /\ contents rb' = q' a /\ queue_ok cap rb'.
Proof.
  intros Hs E Hw. unfold wp in Hw. rewrite E in Hw. destruct Hw as (Es & HP & Hh).
  split; [done|]. split; [by apply contents_eq|]. split; [apply Hh|congruence].
Qed.

Lemma step_simulates cap rb o rb' :
  queue_ok cap rb -> rb_step rb o rb' -> fifo cap (contents rb) o (contents rb') /\ queue_ok cap rb'.
Proof.
  intros [Hok Hs] Hstep. pose proof (holds_contents rb Hok) as Hq.
  destruct Hstep as [ptr n r rb' Hn E|c r rb' E|c rb' E|n r d rb' Hn E|c r rb' E|r p rb' E| |rb' E].
  - destruct (contents_step cap _ rb r rb' (fun r => r = Z.min n (cap - Z.of_nat (length (contents rb))))
      (fun r => contents rb ++ take (Z.to_nat r) ptr) Hs E) as (-> & -> & ?); [|split; [by constructor|done]].
    eapply wp_mono, wp_rt_ringbuffer_put; [|done|done]. intros ? ? (-> & ? & ?). by rewrite <- Hs.
  - destruct (contents_step cap _ rb r rb' (fun r => r = if Z.of_nat (length (contents rb)) =? cap then 0 else 1)
      (fun r => if Z.of_nat (length (contents rb)) =? cap then contents rb else contents rb ++ [c]) Hs E) as (-> & -> & ?).
    + eapply wp_mono, wp_rt_ringbuffer_putchar; [|done]. intros ? ? [? H]. rewrite Hs in H. case_match; [|tauto].
      destruct H as [-> ->]. done.
    + split; [|done]. pose proof (ro_used _ Hok). destruct Hq as (_ & Hl & _).
      destruct (Z.eqb_spec (Z.of_nat (length (contents rb))) cap); constructor; lia.
  - destruct (contents_step cap _ rb 1 rb' (fun _ => True) (fun _ => lastn cap (contents rb ++ [c])) Hs E) as (_ & -> & ?); [|split; [constructor|done]].
    eapply wp_mono, wp_rt_ringbuffer_putchar_force; [|done]. intros ? ? (? & -> & ?). by rewrite <- Hs.
  - destruct (contents_step cap _ rb (r, d) rb' (fun a => a = (Z.min n (Z.of_nat (length (contents rb))), take (Z.to_nat n) (contents rb)))
      (fun r => drop (Z.to_nat n) (contents rb)) Hs E) as ([= -> ->] & -> & ?); [|split; [by constructor|done]].
    eapply wp_mono, wp_rt_ringbuffer_get; [|done|done]. intros ? ? (? & ? & ?). done.
  - destruct (contents_step cap _ rb (c, r) rb' (fun a => a.2 = head (contents rb)) (fun r => tail (contents rb)) Hs E) as (Er & -> & ?).
    + eapply wp_mono, wp_rt_ringbuffer_getchar; [|done]. intros ? ? (? & -> & H). by destruct (contents rb).
    + cbn in Er. subst r. split; [constructor|done].
  - pose proof (wp_rt_ringbuffer_peak _ _ Hq) as Hw. unfold wp in Hw. rewrite E in Hw.
    destruct Hw as (Es & n & Hn & [= -> ->] & Hne & Hd & Hh). rewrite (contents_eq _ _ Hh).
    split; [|split; [apply Hh|congruence]]. constructor.
    + destruct (Z.eqb_spec n 0) as [E0|E0]; [by rewrite E0|]. by rewrite Hd, take_drop.
    + intros Hnil. specialize (Hne Hnil). rewrite (proj2 (Z.eqb_neq _ _)) by lia. rewrite Hd.
      destruct (contents rb); [done|]. by destruct (Z.to_nat n) eqn:?; [lia|].
  - rewrite data_len_used by done. rewrite <- (proj1 (proj2 Hq)). split; [constructor|done].
  - destruct (contents_step cap _ rb tt rb' (fun _ => True) (fun _ => []) Hs E) as (_ & -> & ?); [|split; [constructor|done]].
    eapply wp_mono, reset_empty; [|done]. intros ? ? []. done.
Qed.

(** Every call returns. *)
Definition returns (rb : rt_ringbuffer) : Prop :=
  (forall ptr n, 0 <= n <= Z.of_nat (length ptr) -> is_Some (rt_ringbuffer_put ptr n rb)) /\
  (forall n, 0 <= n < 2 ^ 16 -> is_Some (rt_ringbuffer_get n rb)) /\
  (forall c, is_Some (rt_ringbuffer_putchar c rb) /\ is_Some (rt_ringbuffer_putchar_force c rb)) /\
  is_Some (rt_ringbuffer_getchar rb) /\ is_Some (rt_ringbuffer_peak rb) /\ is_Some (rt_ringbuffer_reset rb).

Lemma queue_returns cap rb : queue_ok cap rb -> returns rb.
Proof.
  intros [Hok _]. pose proof (holds_contents rb Hok) as Hq. repeat split; intros; eapply wp_is_some.
  - by eapply wp_rt_ringbuffer_put.
  - by eapply wp_rt_ringbuffer_get.
  - by eapply wp_rt_ringbuffer_putchar.
  - by eapply wp_rt_ringbuffer_putchar_force.
  - by eapply wp_rt_ringbuffer_getchar.
  - by eapply wp_rt_ringbuffer_peak.
  - by eapply reset_empty.
Qed.

(** C20: Refinement: every sequence of calls that do not overwrite a block gives the results
    of a first-in first-out queue that holds as many bytes as the buffer, however often the
    indices go round, and afterwards every call still returns. *)
Theorem ringbuffer_refines cap rb tr rb' :
  queue_ok cap rb -> steps rb_step rb tr rb' ->
  steps (fifo cap) (contents rb) tr (contents rb') /\ queue_ok cap rb' /\ returns rb'.
Proof.
  intros Hok Hrun. destruct (simulation rb_step (fifo cap) contents (queue_ok cap) (step_simulates cap) rb tr rb' Hok Hrun) as [H1 H2].
  split; [done|]. split; [done|by eapply queue_returns].
Qed.

(** Overwriting with a block: the buffer then holds the last bytes of the old ones and the
    block, as many as fit, when the stored bytes go round the end; but when they do
    not, and some have to go, both mirror bits are turned and the buffer is
    taken for empty: everything is lost, the block included. *)
Theorem rt_ringbuffer_put_force_spec ptr n q rb :
  holds rb q -> 0 <= n <= Z.of_nat (length ptr) ->
  wp (rt_ringbuffer_put_force ptr n) (fun r rb' => r = Z.min n (buffer_size rb) /\ buffer_size rb' = buffer_size rb /\
    holds rb' (if (read_mirror rb =? write_mirror rb) && (buffer_size rb <? Z.of_nat (length q) + r) then []
               else lastn (buffer_size rb) (q ++ take (Z.to_nat n) ptr))) rb.
Proof. apply wp_rt_ringbuffer_put_force. Qed.

(** ** Concrete runs *)

(** Eight bytes, the first four used. *)
Definition sample_rb : rt_ringbuffer := mkRb [1; 2; 3; 4; 0; 0; 0; 0] 0 0 0 4 8.
Lemma sample_rb_ok : rb_ok sample_rb.
Proof. constructor; cbn; lia. Qed.

Example init_aligns : buffer_size <$> rt_ringbuffer_init (replicate 10 0) 10 = Some 8.
Proof. reflexivity. Qed.

(** Runs a call on a concrete buffer. *)
Ltac run :=
  match goal with |- ?x = _ => let y := eval vm_compute in x in transitivity y; [vm_compute; reflexivity|reflexivity] end.

Lemma ringbuffer_refines_witness :
  let tr := [Put [5; 6; 7; 8; 9] 5 4; Putchar 9 0; Get 3 3 [1; 2; 3]; Put [9; 10] 2 2; PutcharForce 11; Peak [4; 5; 6; 7; 8]; Getchar (Some 9); DataLen 2] in
  exists rb', steps (fifo 8) [1; 2; 3; 4] tr (contents rb') /\ queue_ok 8 rb' /\ returns rb'.
Proof.
  intros tr. eexists. apply (ringbuffer_refines 8 sample_rb tr _); [split; [apply sample_rb_ok|done]|].
  subst tr.
  eapply steps_cons; [apply rs_put; [cbn; lia|run]|].
  eapply steps_cons; [apply rs_putchar; run|].
  eapply steps_cons; [apply rs_get; [lia|run]|].
  eapply steps_cons; [apply rs_put; [cbn; lia|run]|].
  eapply steps_cons; [apply rs_force; run|].
  eapply steps_cons; [refine (rs_peak _ 5 (Some 3) _ _); run|].
  eapply steps_cons; [refine (rs_getchar _ 1 (Some 9) _ _); run|].
  eapply steps_cons; [apply rs_len|].
  apply steps_nil.
Defined.

Lemma rt_ringbuffer_put_force_spec_witness :
  wp (rt_ringbuffer_put_force [5; 6; 7; 8; 9] 5) (fun r rb' => r = 5 /\ buffer_size rb' = 8 /\ holds rb' []) sample_rb.
Proof.
  refine (rt_ringbuffer_put_force_spec [5; 6; 7; 8; 9] 5 (contents sample_rb) sample_rb _ _);
    [apply holds_contents, sample_rb_ok|cbn; lia].
Defined.
