(* ===== verification/RingBlock.v ===== *)
(** * Ring of blocks

    components/drivers/src/ringblk_buf.c: blocks of any length, allocated one behind the other round
    a buffer and passed on in that order, with the singly linked lists of include/rtservice.h.
    The operations on single blocks refine a queue of pieces of the buffer that never overlap;
    what the calls for a whole run of blocks do, and where they break this, is shown beside it. *)

From S2P Require Import Prelude.

#[local] Open Scope Z_scope.

(** ** The data *)

Inductive rt_rbb_status := RT_RBB_BLK_UNUSED | RT_RBB_BLK_INITED | RT_RBB_BLK_PUT | RT_RBB_BLK_GET.
#[global] Instance rt_rbb_status_eq : EqDecision rt_rbb_status.
Proof. solve_decision. Defined.

(** The size has 24 bits.  A block is named by its index in the set; [list_next] is the next
    pointer of its list node. *)
Record rt_rbb_blk := mkRbbBlk {
  blk_status : rt_rbb_status;
  blk_size : Z;
  blk_buf : Z;
  list_next : option nat
}.
Definition set_status (st : rt_rbb_status) (b : rt_rbb_blk) : rt_rbb_blk := mkRbbBlk st (blk_size b) (blk_buf b) (list_next b).
Definition set_size (n : Z) (b : rt_rbb_blk) : rt_rbb_blk := mkRbbBlk (blk_status b) (wrap 24 n) (blk_buf b) (list_next b).
Definition set_buf (p : Z) (b : rt_rbb_blk) : rt_rbb_blk := mkRbbBlk (blk_status b) (blk_size b) p (list_next b).
Definition set_list_next (n : option nat) (b : rt_rbb_blk) : rt_rbb_blk := mkRbbBlk (blk_status b) (blk_size b) (blk_buf b) n.

Record rt_rbb := mkRbb {
  rbb_buf : Z;
  rbb_buf_size : Z;
  blk_set : list rt_rbb_blk;
  blk_max_num : Z;
  blk_list : option nat
}.
Definition set_blk_set (g : list rt_rbb_blk -> list rt_rbb_blk) (r : rt_rbb) : rt_rbb :=
  mkRbb (rbb_buf r) (rbb_buf_size r) (g (blk_set r)) (blk_max_num r) (blk_list r).
Definition set_blk_list (n : option nat) (r : rt_rbb) : rt_rbb :=
  mkRbb (rbb_buf r) (rbb_buf_size r) (blk_set r) (blk_max_num r) n.

(** A queue names its first block and how many follow each other in the set. *)
Record rt_rbb_blk_queue := mkQueue { blocks : option nat; blk_num : Z }.

Abbreviation R := (M rt_rbb).

Definition get_blk (i : nat) : R rt_rbb_blk := deref (fun r => blk_set r !! i).
Definition upd_blk (i : nat) (g : rt_rbb_blk -> rt_rbb_blk) : R unit :=
  b ← get_blk i; modify (set_blk_set (insert i (g b))).

(** ** Singly linked lists

    A node is the head of the list or in a block. *)
Inductive rt_slist := Head | Node (i : nat).
#[global] Instance rt_slist_eq : EqDecision rt_slist.
Proof. solve_decision. Defined.

Definition rt_slist_next (n : rt_slist) : R (option nat) :=
  match n with Head => gets blk_list | Node i => b ← get_blk i; mret (list_next b) end.
Definition set_next (n : rt_slist) (v : option nat) : R unit :=
  match n with Head => modify (set_blk_list v) | Node i => upd_blk i (set_list_next v) end.
Abbreviation rt_slist_first := (rt_slist_next Head).

Definition rt_slist_init : R unit := set_next Head None.

(** A list is shorter than [turns]: its blocks are different and in the set. *)
Definition turns : R nat := gets (fun r => S (length (blk_set r))).

Fixpoint tail_loop (fuel : nat) (l : rt_slist) : R rt_slist :=
  match fuel with
  | O => fault
  | S fuel =>
      next ← rt_slist_next l;
      match next with Some i => tail_loop fuel (Node i) | None => mret l end
  end.
Definition rt_slist_tail (l : rt_slist) : R rt_slist := fuel ← turns; tail_loop fuel l.

Definition rt_slist_append (l : rt_slist) (n : nat) : R unit :=
  fuel ← turns;
  node ← tail_loop fuel l;
  set_next node (Some n) ;;
  set_next (Node n) None.

Fixpoint len_loop (fuel : nat) (list : option nat) (len : Z) : R Z :=
  match fuel with
  | O => fault
  | S fuel =>
      match list with
      | Some i => next ← rt_slist_next (Node i); len_loop fuel next (u32 (len + 1))
      | None => mret len
      end
  end.
Definition rt_slist_len (l : rt_slist) : R Z :=
  list ← rt_slist_next l; fuel ← turns; len_loop fuel list 0.

Fixpoint before_loop (fuel : nat) (node : rt_slist) (n : nat) : R rt_slist :=
  match fuel with
  | O => fault
  | S fuel =>
      next ← rt_slist_next node;
      match next with
      | Some i => if decide (i = n) then mret node else before_loop fuel (Node i) n
      | None => mret node
      end
  end.
Definition rt_slist_remove (l : rt_slist) (n : nat) : R unit :=
  fuel ← turns;
  node ← before_loop fuel l n;
  next ← rt_slist_next node;
  match next with
  | Some i => v ← rt_slist_next (Node i); set_next node v
  | None => mret tt
  end.

Definition rt_slist_isempty (l : rt_slist) : R bool :=
  next ← rt_slist_next l; mret (match next with Some _ => false | None => true end).

(** ** Making and removing *)

Fixpoint unused_loop (fuel : nat) (i : nat) (blk_max_num : Z) : R unit :=
  match fuel with
  | O => fault
  | S fuel =>
      if Z.of_nat i <? blk_max_num
      then upd_blk i (set_status RT_RBB_BLK_UNUSED) ;; unused_loop fuel (S i) blk_max_num
      else mret tt
  end.

(** [block_set] is the array that the caller gives, with what is in it; a null pointer is 0 for
    the buffer and [None] for the set. *)
Definition rt_rbb_init (buf buf_size : Z) (block_set : option (list rt_rbb_blk)) (blk_max_num : Z) : R unit :=
  rt_assert (negb (buf =? 0)) ;;
  set ← deref (fun _ => block_set);
  r ← gets id;
  modify (fun _ => mkRbb buf buf_size set blk_max_num (blk_list r)) ;;
  rt_slist_init ;;
  fuel ← turns;
  unused_loop fuel 0 blk_max_num.

(** The arguments are what the three calls of rt_malloc give.  With the addresses released. *)
Definition rt_rbb_create (rbb : option (Z * rt_rbb)) (buf : Z) (set : option (list rt_rbb_blk)) (buf_size blk_max_num : Z) :
    option (option rt_rbb * list Z) :=
  match rbb with
  | None => Some (None, [])
  | Some (p, r) =>
      if buf =? 0 then Some (None, [p])
      else match set with
           | None => Some (None, [buf; p])
           | Some _ => match rt_rbb_init buf buf_size set blk_max_num r with
                       | Some (_, r') => Some (Some r', [])
                       | None => None
                       end
           end
  end.

(** The areas released, in order; [set] is the address of the blocks. *)
Definition rt_rbb_destroy (p set : Z) (r : rt_rbb) : list Z := [rbb_buf r; set; p].

(** ** Single blocks *)

Fixpoint find_empty_loop (fuel : nat) (i : nat) : R (option nat) :=
  match fuel with
  | O => fault
  | S fuel =>
      max ← gets blk_max_num;
      if Z.of_nat i <? max then
        b ← get_blk i;
        if decide (blk_status b = RT_RBB_BLK_UNUSED) then mret (Some i) else find_empty_loop fuel (S i)
      else mret None
  end.
Definition find_empty_blk_in_set : R (option nat) := fuel ← turns; find_empty_loop fuel 0.

(** The entry of a node; the head of the list is in no block. *)
Definition rt_slist_entry (n : rt_slist) : R nat := match n with Node i => mret i | Head => fault end.
Definition rt_slist_first_entry (l : rt_slist) : R nat := next ← rt_slist_next l; deref (fun _ => next).
Definition rt_slist_tail_entry (l : rt_slist) : R nat := n ← rt_slist_tail l; rt_slist_entry n.

(** The four ways to a block differ in its address only. *)
Definition claim (new_rbb : nat) (buf blk_size : Z) : R (option nat) :=
  rt_slist_append Head new_rbb ;;
  upd_blk new_rbb (set_status RT_RBB_BLK_INITED) ;;
  upd_blk new_rbb (set_buf buf) ;;
  upd_blk new_rbb (set_size blk_size) ;;
  mret (Some new_rbb).

(** The size of a block beside the argument of that name. *)
Abbreviation size_of := blk_size (only parsing).

Definition rt_rbb_blk_alloc (blk_size : Z) : R (option nat) :=
  rt_assert (blk_size <? 2 ^ 24) ;;
  new_rbb ← find_empty_blk_in_set;
  len ← rt_slist_len Head;
  r ← gets id;
  match new_rbb with
  | Some new_rbb =>
      if len <? blk_max_num r then
        if 0 <? len then
          head ← rt_slist_first_entry Head; head ← get_blk head;
          tail ← rt_slist_tail_entry Head; tail ← get_blk tail;
          if blk_buf head <=? blk_buf tail then
            let empty1 := u32 (rbb_buf r + rbb_buf_size r - (blk_buf tail + size_of tail)) in
            let empty2 := u32 (blk_buf head - rbb_buf r) in
            if blk_size <=? empty1 then claim new_rbb (u32 (blk_buf tail + size_of tail)) blk_size
            else if blk_size <=? empty2 then claim new_rbb (rbb_buf r) blk_size
            else mret None
          else
            let empty1 := u32 (blk_buf head - (blk_buf tail + size_of tail)) in
            if blk_size <=? empty1 then claim new_rbb (u32 (blk_buf tail + size_of tail)) blk_size
            else mret None
        else claim new_rbb (rbb_buf r) blk_size
      else mret None
  | None => mret None
  end.

Definition rt_rbb_blk_put (block : nat) : R unit :=
  b ← get_blk block;
  rt_assert (bool_decide (blk_status b = RT_RBB_BLK_INITED)) ;;
  upd_blk block (set_status RT_RBB_BLK_PUT).

Fixpoint get_loop (fuel : nat) (node : option nat) : R (option nat) :=
  match fuel with
  | O => fault
  | S fuel =>
      match node with
      | None => mret None
      | Some i =>
          block ← get_blk i;
          if decide (blk_status block = RT_RBB_BLK_PUT)
          then upd_blk i (set_status RT_RBB_BLK_GET) ;; mret (Some i)
          else next ← rt_slist_next (Node i); get_loop fuel next
      end
  end.
Definition rt_rbb_blk_get : R (option nat) :=
  empty ← rt_slist_isempty Head;
  if empty : bool then mret None
  else node ← rt_slist_first; fuel ← turns; get_loop fuel node.

Definition rt_rbb_blk_size (block : nat) : R Z := b ← get_blk block; mret (blk_size b).
Definition rt_rbb_blk_buf (block : nat) : R Z := b ← get_blk block; mret (blk_buf b).

Definition rt_rbb_blk_free (block : nat) : R unit :=
  b ← get_blk block;
  rt_assert (negb (bool_decide (blk_status b = RT_RBB_BLK_UNUSED))) ;;
  rt_slist_remove Head block ;;
  upd_blk block (set_status RT_RBB_BLK_UNUSED).

(** ** Runs of blocks *)

(** [last_block] is null until a block is put. *)
Fixpoint queue_get_loop (fuel : nat) (queue_data_len : Z) (node last_block : option nat) (data_total_size : Z)
    (blk_queue : rt_rbb_blk_queue) : R (Z * rt_rbb_blk_queue) :=
  match fuel with
  | O => fault
  | S fuel =>
      match node with
      | None => mret (data_total_size, blk_queue)
      | Some i =>
          block ← get_blk i;
          let take_out (q : rt_rbb_blk_queue) :=
            rt_slist_remove Head i ;;
            upd_blk i (set_status RT_RBB_BLK_GET) ;;
            next ← rt_slist_next (Node i);
            queue_get_loop fuel queue_data_len next (Some i) (u32 (data_total_size + blk_size block))
              (mkQueue (blocks q) (u32 (blk_num q + 1))) in
          match last_block with
          | None =>
              if decide (blk_status block = RT_RBB_BLK_PUT) then take_out (mkQueue (Some i) 0)
              else next ← rt_slist_next (Node i); queue_get_loop fuel queue_data_len next None data_total_size blk_queue
          | Some last =>
              last ← get_blk last;
              if negb (bool_decide (blk_status block = RT_RBB_BLK_PUT)) || (blk_buf block <? blk_buf last)
                 || (queue_data_len <? u32 (data_total_size + blk_size block))
              then mret (data_total_size, blk_queue)
              else take_out blk_queue
          end
      end
  end.
(** With the queue as it is left. *)
Definition rt_rbb_blk_queue_get (queue_data_len : Z) (blk_queue : rt_rbb_blk_queue) : R (Z * rt_rbb_blk_queue) :=
  empty ← rt_slist_isempty Head;
  if empty : bool then mret (0, blk_queue)
  else node ← rt_slist_first; fuel ← turns; queue_get_loop fuel queue_data_len node None 0 blk_queue.

(** The blocks of a queue are the next ones of the set. *)
Fixpoint queue_len_loop (fuel : nat) (i : Z) (q : rt_rbb_blk_queue) (data_total_size : Z) : R Z :=
  match fuel with
  | O => fault
  | S fuel =>
      if i <? blk_num q then
        first ← deref (fun _ => blocks q);
        b ← get_blk (first + Z.to_nat i);
        queue_len_loop fuel (i + 1) q (u32 (data_total_size + blk_size b))
      else mret data_total_size
  end.
Definition rt_rbb_blk_queue_len (q : rt_rbb_blk_queue) : R Z := fuel ← turns; queue_len_loop fuel 0 q 0.

Definition rt_rbb_blk_queue_buf (q : rt_rbb_blk_queue) : R Z :=
  first ← deref (fun _ => blocks q); b ← get_blk first; mret (blk_buf b).

Fixpoint queue_free_loop (fuel : nat) (i : Z) (q : rt_rbb_blk_queue) : R unit :=
  match fuel with
  | O => fault
  | S fuel =>
      if i <? blk_num q then
        first ← deref (fun _ => blocks q);
        rt_rbb_blk_free (first + Z.to_nat i) ;;
        queue_free_loop fuel (i + 1) q
      else mret tt
  end.
Definition rt_rbb_blk_queue_free (q : rt_rbb_blk_queue) : R unit := fuel ← turns; queue_free_loop fuel 0 q.

Fixpoint next_len_loop (fuel : nat) (node last_block : option nat) (data_len : Z) : R Z :=
  match fuel with
  | O => fault
  | S fuel =>
      match node with
      | None => mret data_len
      | Some i =>
          block ← get_blk i;
          next ← rt_slist_next (Node i);
          match last_block with
          | None =>
              if decide (blk_status block = RT_RBB_BLK_PUT) then next_len_loop fuel next (Some i) (u32 (data_len + blk_size block))
              else next_len_loop fuel next None data_len
          | Some last =>
              last ← get_blk last;
              if negb (bool_decide (blk_status block = RT_RBB_BLK_PUT)) || (blk_buf block <? blk_buf last) then mret data_len
              else next_len_loop fuel next (Some i) (u32 (data_len + blk_size block))
          end
      end
  end.
Definition rt_rbb_next_blk_queue_len : R Z :=
  empty ← rt_slist_isempty Head;
  if empty : bool then mret 0
  else node ← rt_slist_first; fuel ← turns; next_len_loop fuel node None 0.

Definition rt_rbb_get_buf_size : R Z := gets rbb_buf_size.

(** ** Areas in the order of a ring

    An area is an address and a length.  In [layout lo hi l] the areas lie between [lo] and [hi] one
    behind the other, except that once they may go on from the beginning, in front of the first. *)

Definition before (x y : Z * Z) : Prop := x.1 + x.2 <= y.1.
Definition inside (lo hi : Z) (x : Z * Z) : Prop := lo <= x.1 /\ 0 < x.2 /\ x.1 + x.2 <= hi.
Definition layout (lo hi : Z) (l : list (Z * Z)) : Prop :=
  Forall (inside lo hi) l /\
  exists A B, l = A ++ B /\ StronglySorted before A /\ StronglySorted before B /\
    forall a b, a ∈ A -> b ∈ B -> before b a.

(** Where an area of length [n] fits behind the last one. *)
Definition room (lo hi : Z) (l : list (Z * Z)) (n : Z) : option Z :=
  match head l, last l with
  | Some h, Some t =>
      if h.1 <=? t.1 then
        if n <=? hi - (t.1 + t.2) then Some (t.1 + t.2)
        else if n <=? h.1 - lo then Some lo else None
      else if n <=? h.1 - (t.1 + t.2) then Some (t.1 + t.2) else None
  | _, _ => Some lo
  end.

Section layout.
Context (lo hi : Z).

Lemma layout_nil : layout lo hi [].
Proof. split; [done|]. exists [], []. split; [done|]. split; [constructor|]. split; [constructor|]. intros a b Ha. by apply elem_of_nil in Ha. Qed.

Lemma layout_remove l1 x l2 : layout lo hi (l1 ++ x :: l2) -> layout lo hi (l1 ++ l2).
Proof.
  intros (Hin & A & B & E & HA & HB & HAB). split.
  - apply Forall_app in Hin as [H1 H2]. apply Forall_cons in H2 as [_ H2]. by apply Forall_app.
  - apply app_eq_app in E as (k & [[-> E]|[-> E]]).
    + exists (A), (k ++ l2). split; [by rewrite (assoc_L (++))|]. subst B. split; [done|].
      rewrite StronglySorted_app in HB |- *. destruct HB as (H1 & H2 & H3). apply StronglySorted_cons in H3 as [_ H3].
      split; [split; [|done]|]. { intros a b Ha Hb. apply H1; [done|by right]. }
      intros a b Ha Hb. apply HAB; [done|]. rewrite elem_of_app in Hb |- *. rewrite elem_of_cons. tauto.
    + destruct k as [|y k].
      * cbn in E. exists l1, l2. rewrite app_nil_r in *. subst B. apply StronglySorted_cons in HB as [_ HB].
        split; [done|]. split; [done|]. split; [done|]. intros a b Ha Hb. apply HAB; [done|by right].
      * injection E as <- ->. exists (l1 ++ k), B. split; [by rewrite (assoc_L (++))|].
        rewrite StronglySorted_app in HA |- *. destruct HA as (H1 & H2 & H3). apply StronglySorted_cons in H3 as [_ H3].
        split; [split; [|done]|]. { intros a b Ha Hb. apply H1; [done|by right]. }
        split; [done|]. intros a b Ha Hb. apply HAB; [|done]. rewrite elem_of_app in Ha |- *. rewrite elem_of_cons. tauto.
Qed.

Lemma ascending_head l h t : StronglySorted before l -> Forall (inside lo hi) l -> head l = Some h -> last l = Some t -> h.1 <= t.1.
Proof.
  intros Hs Hi Eh Et. destruct l as [|x l]; [done|]. injection Eh as ->.
  apply StronglySorted_cons in Hs as [Hs _]. apply Forall_cons in Hi as [Hh _].
  destruct l as [|y l]; [by injection Et as ->|]. rewrite last_cons_cons in Et. apply last_Some_elem_of in Et.
  rewrite Forall_forall in Hs. specialize (Hs t Et). unfold before, inside in *. lia.
Qed.
Lemma last_ends l t : StronglySorted before l -> Forall (inside lo hi) l -> last l = Some t -> forall x, x ∈ l -> x.1 + x.2 <= t.1 + t.2.
Proof.
  intros Hs Hi Et x Hx. apply last_Some in Et as (l' & ->). apply StronglySorted_app in Hs as (Hb & _ & _).
  apply elem_of_app in Hx as [Hx|Hx%list_elem_of_singleton]; [|by subst].
  specialize (Hb x t Hx ltac:(by left)). apply Forall_app in Hi as [_ Hi]. apply Forall_cons in Hi as [Hi _]. unfold before, inside in *. lia.
Qed.
Lemma head_starts l h : StronglySorted before l -> Forall (inside lo hi) l -> head l = Some h -> forall x, x ∈ l -> h.1 <= x.1.
Proof.
  intros Hs Hi Eh x Hx. destruct l as [|y l]; [done|]. injection Eh as ->. apply elem_of_cons in Hx as [->|Hx]; [done|].
  apply StronglySorted_cons in Hs as [Hs _]. apply Forall_cons in Hi as [Hh _]. rewrite Forall_forall in Hs.
  specialize (Hs x Hx). unfold before, inside in *. lia.
Qed.

(** Comparing the first and the last address tells whether the areas have gone round. *)
Lemma layout_cases l h t : layout lo hi l -> head l = Some h -> last l = Some t ->
  (h.1 <= t.1 /\ StronglySorted before l) \/
  (t.1 < h.1 /\ exists A B, l = A ++ B /\ StronglySorted before A /\ StronglySorted before B /\
     head A = Some h /\ last B = Some t /\ forall a b, a ∈ A -> b ∈ B -> before b a).
Proof.
  intros (Hin & A & B & -> & HA & HB & HAB) Eh Et.
  destruct A as [|a A]; [left; split; [by eapply ascending_head|done]|].
  destruct (last B) as [b|] eqn:Eb.
  - right. injection Eh as ->. rewrite last_app, Eb in Et. injection Et as ->. pose proof (last_Some_elem_of _ _ Eb) as Hb.
    pose proof (HAB h t ltac:(by left) Hb) as H. rewrite Forall_forall in Hin.
    specialize (Hin t ltac:(apply elem_of_app; by right)). unfold before, inside in *. split; [lia|]. by exists (h :: A), B.
  - apply last_None in Eb as ->. rewrite app_nil_r in *. left. split; [by apply (ascending_head (a :: A))|done].
Qed.

Lemma ascending_snoc l x : StronglySorted before l -> (forall y, y ∈ l -> before y x) -> StronglySorted before (l ++ [x]).
Proof. intros Hs Hx. apply StronglySorted_app_2; [|done|repeat constructor]. intros y z Hy Hz%list_elem_of_singleton. subst z. by apply Hx. Qed.

Lemma room_fits l n a : layout lo hi l -> 0 < n <= hi - lo -> room lo hi l n = Some a -> layout lo hi (l ++ [(a, n)]).
Proof.
  intros Hl Hn E. unfold room in E. destruct (head l) as [h|] eqn:Eh.
  2:{ apply head_None in Eh as ->. injection E as <-. split; [repeat constructor; cbn; lia|]. exists [(lo, n)], [].
      split; [done|]. split; [repeat constructor|]. split; [constructor|]. intros x y _ Hy. by apply elem_of_nil in Hy. }
  destruct (last l) as [t|] eqn:Et; [|by apply last_None in Et as ->]. pose proof Hl as [Hin _].
  pose proof Hin as Hin'. rewrite Forall_forall in Hin'. pose proof (Hin' t (last_Some_elem_of _ _ Et)) as Ht.
  assert (Hh : h ∈ l) by (destruct l; [done|]; injection Eh as ->; by left). pose proof (Hin' h Hh) as Hhi. unfold inside in Ht, Hhi.
  destruct (layout_cases l h t Hl Eh Et) as [[Hle Hs]|(Hlt & A & B & -> & HA & HB & EA & EB & HAB)].
  - rewrite (proj2 (Z.leb_le _ _) Hle) in E. destruct (Z.leb_spec n (hi - (t.1 + t.2))) as [H1|H1].
    + injection E as <-. split; [apply Forall_app; split; [done|]; constructor; [split; cbn; lia|done]|]. exists (l ++ [(t.1 + t.2, n)]), [].
      split; [by rewrite app_nil_r|]. split; [|split; [constructor|intros x y _ Hy; by apply elem_of_nil in Hy]].
      apply ascending_snoc; [done|]. intros y Hy. by apply (last_ends l t).
    + destruct (Z.leb_spec n (h.1 - lo)) as [H2|H2]; [|done]. injection E as <-.
      split; [apply Forall_app; split; [done|]; constructor; [split; cbn; lia|done]|]. exists l, [(lo, n)].
      split; [done|]. split; [done|]. split; [repeat constructor|]. intros x y Hx Hy%list_elem_of_singleton. subst y.
      pose proof (head_starts l h Hs Hin Eh x Hx). unfold before. cbn. lia.
  - rewrite (proj2 (Z.leb_gt _ _) Hlt) in E. destruct (Z.leb_spec n (h.1 - (t.1 + t.2))) as [H1|H1]; [|done]. injection E as <-.
    apply Forall_app in Hin as [HinA HinB].
    split; [repeat (apply Forall_app; split); [done|done|]; constructor; [split; cbn; lia|done]|]. exists A, (B ++ [(t.1 + t.2, n)]).
    split; [by rewrite (assoc_L (++))|]. split; [done|]. split; [apply ascending_snoc; [done|intros y Hy; by apply (last_ends B t)]|].
    intros x y Hx Hy. apply elem_of_app in Hy as [Hy|Hy%list_elem_of_singleton]; [by apply HAB|subst y].
    pose proof (head_starts A h HA HinA EA x Hx). unfold before. cbn. lia.
Qed.

(** Nothing is refused that would fit: no other place keeps the order. *)
Lemma room_none l n : layout lo hi l -> room lo hi l n = None -> forall a, ~ layout lo hi (l ++ [(a, n)]).
Proof.
  intros Hl E a Hx. unfold room in E. destruct (head l) as [h|] eqn:Eh; [|done]. destruct (last l) as [t|] eqn:Et; [|done].
  assert (Eh' : head (l ++ [(a, n)]) = Some h) by (by destruct l). assert (Et' : last (l ++ [(a, n)]) = Some (a, n)) by apply last_snoc.
  pose proof Hx as [Hin _]. apply Forall_app in Hin as [Hin Hn]. apply Forall_cons in Hn as [Hn _]. unfold inside in Hn. cbn in Hn.
  pose proof (last_Some_elem_of _ _ Et) as Ht.
  destruct (layout_cases _ _ _ Hx Eh' Et') as [[Hle Hs]|(Hlt & A & B & E' & HA & HB & EA & EB & HAB)].
  - apply StronglySorted_app in Hs as (Hb & Hs & _). pose proof (ascending_head l h t Hs Hin Eh Et) as Hht.
    rewrite (proj2 (Z.leb_le _ _) Hht) in E. specialize (Hb t _ Ht ltac:(by left)). unfold before in Hb. cbn in Hb.
    rewrite (proj2 (Z.leb_le n _)) in E by lia. done.
  - apply last_Some in EB as (B' & ->). rewrite (assoc_L (++)) in E'. apply app_inj_2 in E' as [-> _]; [|done].
    assert (HhA : h ∈ A) by (destruct A; [done|]; injection EA as ->; by left).
    pose proof (HAB h (a, n) HhA ltac:(apply elem_of_app; right; by left)) as Hah. unfold before in Hah. cbn in Hah, Hlt.
    destruct (last B') as [t'|] eqn:Et''.
    + rewrite last_app, Et'' in Et. injection Et as ->. pose proof (last_Some_elem_of _ _ Et'') as HtB.
      apply StronglySorted_app in HB as (Hb & _ & _). specialize (Hb t _ HtB ltac:(by left)). unfold before in Hb. cbn in Hb.
      pose proof (HAB h t HhA ltac:(apply elem_of_app; by left)) as Hth. unfold before in Hth. rewrite Forall_forall in Hin.
      specialize (Hin t Ht). unfold inside in Hin. rewrite (proj2 (Z.leb_gt h.1 _)), (proj2 (Z.leb_le n _)) in E by lia. done.
    + apply last_None in Et'' as ->. rewrite app_nil_r in *. pose proof (ascending_head A h t HA Hin EA Et) as Hht.
      rewrite (proj2 (Z.leb_le _ _) Hht) in E. destruct (n <=? _); [done|]. rewrite (proj2 (Z.leb_le n _)) in E by lia. done.
Qed.

(** Different areas do not overlap. *)
Lemma layout_apart l i j x y : layout lo hi l -> l !! i = Some x -> l !! j = Some y -> (i < j)%nat -> before x y \/ before y x.
Proof.
  intros (_ & A & B & -> & HA & HB & HAB) Hi Hj Hij.
  assert (Hs : forall l i j x y, StronglySorted before l -> l !! i = Some x -> l !! j = Some y -> (i < j)%nat -> before x y).
  { clear. intros l i j x y Hl Hi Hj Hij. rewrite <- (take_drop_middle _ _ _ Hi) in Hl. apply StronglySorted_app in Hl as (_ & _ & Hl).
    apply StronglySorted_cons in Hl as [Hl _]. rewrite Forall_forall in Hl. apply Hl. apply list_elem_of_lookup. exists (j - S i)%nat.
    rewrite lookup_drop. rewrite <- Hj. f_equal. lia. }
  apply lookup_app_Some in Hi as [Hi|[Hi' Hi]].
  - apply lookup_app_Some in Hj as [Hj|[Hj' Hj]]; [left; exact (Hs A _ _ _ _ HA Hi Hj Hij)|].
    right. apply HAB; by eapply list_elem_of_lookup_2.
  - apply lookup_app_Some in Hj as [Hj|[Hj' Hj]]; [apply lookup_lt_Some in Hj; lia|]. left. eapply (Hs B _ _ _ _ HB Hi Hj). lia.
Qed.
End layout.

(** ** The lists in the blocks

    [chained r L]: the list of the ring runs through the blocks [L], each once. *)

Record chained (r : rt_rbb) (L : list nat) : Prop := {
  chain_head : blk_list r = L !! 0%nat;
  chain_next : forall k i, L !! k = Some i -> exists b, blk_set r !! i = Some b /\ list_next b = L !! S k;
  chain_nodup : NoDup L
}.

(** Everything but the pointers of the list. *)
Definition info (b : rt_rbb_blk) : rt_rbb_status * Z * Z := (blk_status b, blk_buf b, blk_size b).
Definition infos (r : rt_rbb) : list (rt_rbb_status * Z * Z) := info <$> blk_set r.
Definition same_view (r r' : rt_rbb) : Prop :=
  rbb_buf r' = rbb_buf r /\ rbb_buf_size r' = rbb_buf_size r /\ blk_max_num r' = blk_max_num r /\ infos r' = infos r.

(** The [k]th node; the head is the node before the first block. *)
Definition node_at (L : list nat) (k : nat) (n : rt_slist) : Prop :=
  match k with O => n = Head | S k => exists i, L !! k = Some i /\ n = Node i end.

Lemma chained_bound r L i : chained r L -> i ∈ L -> (i < length (blk_set r))%nat.
Proof. intros Hc [k Hk]%list_elem_of_lookup. destruct (chain_next _ _ Hc k i Hk) as (b & Hb & _). by eapply lookup_lt_Some. Qed.
Lemma chained_short r L : chained r L -> (length L <= length (blk_set r))%nat.
Proof.
  intros Hc. rewrite <- (length_seq (length (blk_set r)) 0). apply submseteq_length, NoDup_submseteq; [apply (chain_nodup _ _ Hc)|].
  intros i Hi. apply elem_of_seq. pose proof (chained_bound _ _ _ Hc Hi). lia.
Qed.

Lemma wp_get_blk i b (Q : rt_rbb_blk -> rt_rbb -> Prop) r : blk_set r !! i = Some b -> Q b r -> wp (get_blk i) Q r.
Proof. intros E HQ. unfold get_blk. by apply (wp_deref _ b). Qed.
Lemma wp_upd_blk i b g (Q : unit -> rt_rbb -> Prop) r :
  blk_set r !! i = Some b -> Q tt (set_blk_set (insert i (g b)) r) -> wp (upd_blk i g) Q r.
Proof. intros E HQ. unfold upd_blk. wp_step. by apply (wp_get_blk i b). Qed.

Lemma wp_next L k n (Q : option nat -> rt_rbb -> Prop) r :
  chained r L -> node_at L k n -> Q (L !! k) r -> wp (rt_slist_next n) Q r.
Proof.
  intros Hc Hn HQ. destruct k as [|k]; cbn in Hn.
  - subst n. change (Q (blk_list r) r). by rewrite (chain_head _ _ Hc).
  - destruct Hn as (i & Hi & ->). cbn. destruct (chain_next _ _ Hc k i Hi) as (b & Hb & En). wp_step. apply (wp_get_blk i b); [done|].
    rewrite wp_ret. by rewrite En.
Qed.

Lemma wp_tail_loop L : forall d fuel k n (Q : rt_slist -> rt_rbb -> Prop) r,
  chained r L -> node_at L k n -> (d = length L - k)%nat -> (k <= length L)%nat -> (d < fuel)%nat ->
  (forall n', node_at L (length L) n' -> Q n' r) -> wp (tail_loop fuel n) Q r.
Proof.
  induction d as [|d IH]; intros fuel k n Q r Hc Hn Hd Hk Hf HQ; (destruct fuel as [|fuel]; [lia|]); cbn [tail_loop]; wp_step;
    apply (wp_next L k); try done.
  - rewrite lookup_ge_None_2 by lia. rewrite wp_ret. apply HQ. by replace (length L) with k by lia.
  - destruct (lookup_lt_is_Some_2 L k) as [i Hi]; [lia|]. rewrite Hi. apply (IH fuel (S k)); try done; try lia. by exists i.
Qed.
Lemma wp_before_loop L i p : forall d fuel k n (Q : rt_slist -> rt_rbb -> Prop) r,
  chained r L -> node_at L k n -> (d = p - k)%nat -> (k <= p <= length L)%nat -> (d < fuel)%nat ->
  (forall j, (j < p)%nat -> L !! j ≠ Some i) -> (L !! p = Some i \/ p = length L) ->
  (forall n', node_at L p n' -> Q n' r) -> wp (before_loop fuel n i) Q r.
Proof.
  induction d as [|d IH]; intros fuel k n Q r Hc Hn Hd Hk Hf Hno Hp HQ; (destruct fuel as [|fuel]; [lia|]); cbn [before_loop]; wp_step;
    apply (wp_next L k); try done.
  - assert (k = p) as -> by lia. destruct Hp as [Hp| ->].
    + rewrite Hp. rewrite decide_True by done. rewrite wp_ret. by apply HQ.
    + rewrite lookup_ge_None_2 by lia. rewrite wp_ret. by apply HQ.
  - destruct (lookup_lt_is_Some_2 L k) as [x Hx]; [lia|]. rewrite Hx. rewrite decide_False.
    + apply (IH fuel (S k)); try done; try lia. by exists x.
    + intros ->. apply (Hno k); [lia|done].
Qed.
Lemma wp_turns (Q : nat -> rt_rbb -> Prop) r : Q (S (length (blk_set r))) r -> wp turns Q r.
Proof. done. Qed.

Lemma infos_insert i b b' r : blk_set r !! i = Some b -> info b' = info b -> info <$> <[i := b']> (blk_set r) = infos r.
Proof. intros E Ei. rewrite list_fmap_insert, Ei. unfold infos. apply list_insert_id. by rewrite list_lookup_fmap, E. Qed.
Lemma same_view_refl r : same_view r r.
Proof. done. Qed.
Lemma same_view_trans r1 r2 r3 : same_view r1 r2 -> same_view r2 r3 -> same_view r1 r3.
Proof. intros (? & ? & ? & ?) (? & ? & ? & ?). split_and!; congruence. Qed.
Lemma infos_length r r' : infos r' = infos r -> length (blk_set r') = length (blk_set r).
Proof. intros E. apply (f_equal length) in E. unfold infos in E. by rewrite !length_fmap in E. Qed.

(** Setting the pointer of the [k]th node. *)
Definition heads_to (r r' : rt_rbb) (k : nat) (v : option nat) : Prop :=
  blk_list r' = if decide (k = 0%nat) then v else blk_list r.
Definition leads_to (r r' : rt_rbb) (n : rt_slist) (v : option nat) : Prop :=
  forall j b, blk_set r !! j = Some b -> exists b', blk_set r' !! j = Some b' /\
    list_next b' = if decide (n = Node j) then v else list_next b.
Lemma wp_set_next L k n v (Q : unit -> rt_rbb -> Prop) r :
  chained r L -> node_at L k n ->
  (forall r', same_view r r' -> heads_to r r' k v -> leads_to r r' n v -> Q tt r') ->
  wp (set_next n v) Q r.
Proof.
  intros Hc Hn HQ. destruct k as [|k]; cbn in Hn.
  - subst n. change (Q tt (set_blk_list v r)). apply HQ; [done|done|]. intros j b Hb. exists b. split; [done|]. by rewrite decide_False.
  - destruct Hn as (i & Hi & ->). cbn. destruct (chain_next _ _ Hc k i Hi) as (b & Hb & _). apply (wp_upd_blk i b); [done|].
    apply HQ; [split_and!; try done; by apply (infos_insert i b)|done|]. intros j c Hj. destruct (decide (i = j)) as [<-|Hij].
    + exists (set_list_next v b). cbn. rewrite list_lookup_insert_eq by by eapply lookup_lt_Some. rewrite decide_True by done. done.
    + exists c. cbn. rewrite list_lookup_insert_ne by done. rewrite decide_False by congruence. done.
Qed.

Lemma wp_append L i (Q : unit -> rt_rbb -> Prop) r :
  chained r L -> i ∉ L -> (i < length (blk_set r))%nat ->
  (forall r', chained r' (L ++ [i]) -> same_view r r' -> Q tt r') -> wp (rt_slist_append Head i) Q r.
Proof.
  intros Hc Hi Hlt HQ. unfold rt_slist_append. wp_step. apply wp_turns. wp_step. pose proof (chained_short _ _ Hc).
  apply (wp_tail_loop L (length L) _ 0); try done; try lia. intros n' Hn'. wp_step.
  apply (wp_set_next L (length L) n' _ _ r Hc Hn'). intros r1 Hv1 Hh1 Hb1.
  destruct (lookup_lt_is_Some_2 (blk_set r) i Hlt) as [b Hb]. destruct (Hb1 i b Hb) as (b1 & Hi1 & _). cbn.
  apply (wp_upd_blk i b1); [done|]. apply HQ.
  2:{ eapply same_view_trans; [exact Hv1|]. split_and!; try done. by apply (infos_insert i b1). }
  split.
  - cbn. rewrite Hh1. destruct L as [|x L]; cbn; [done|]. by rewrite (chain_head _ _ Hc).
  - intros k j Hk. cbn. apply lookup_app_Some in Hk as [Hk|[Hk1 Hk]].
    + assert (Hji : j ≠ i) by (intros ->; apply Hi; by eapply list_elem_of_lookup_2).
      destruct (chain_next _ _ Hc k j Hk) as (c & Hcj & En). destruct (Hb1 j c Hcj) as (c1 & Hc1 & En1). exists c1.
      rewrite list_lookup_insert_ne by done. split; [done|]. rewrite En1, En. pose proof (lookup_lt_Some _ _ _ Hk) as Hkl.
      destruct (decide (S k = length L)) as [E|E].
      * rewrite lookup_app_r by lia. rewrite E, Nat.sub_diag. cbn. rewrite decide_True; [done|]. rewrite <- E in Hn'.
        destruct Hn' as (y & Hy & ->). congruence.
      * rewrite decide_False; [by rewrite lookup_app_l by lia|]. intros ->. destruct (length L) as [|m] eqn:El; [lia|].
        destruct Hn' as (y & Hy & [= <-]). apply E. f_equal. by apply (NoDup_lookup L k m j (chain_nodup _ _ Hc)).
    + apply list_lookup_singleton_Some in Hk as [Hk <-]. exists (set_list_next None b1).
      rewrite list_lookup_insert_eq by by eapply lookup_lt_Some. split; [done|]. symmetry. apply lookup_ge_None_2. rewrite length_app. cbn. lia.
  - apply NoDup_app. split; [apply (chain_nodup _ _ Hc)|]. split; [|apply NoDup_singleton]. intros x Hx ->%list_elem_of_singleton. done.
Qed.

(** The list without the block at position [length L1], once the node before it leads past it. *)
Lemma node_before_ne L1 i L2 n : NoDup (L1 ++ i :: L2) -> node_at (L1 ++ i :: L2) (length L1) n -> n ≠ Node i.
Proof.
  intros Hd Hn ->. destruct (length L1) as [|m] eqn:El; cbn in Hn; [done|]. destruct Hn as (y & Hy & [= <-]).
  assert (Hi : (L1 ++ i :: L2) !! length L1 = Some i) by by apply list_lookup_middle.
  pose proof (NoDup_lookup _ _ _ _ Hd Hy Hi). lia.
Qed.
Lemma chained_cut r r1 L1 i L2 n : chained r (L1 ++ i :: L2) -> node_at (L1 ++ i :: L2) (length L1) n ->
  heads_to r r1 (length L1) (L2 !! 0%nat) -> leads_to r r1 n (L2 !! 0%nat) -> chained r1 (L1 ++ L2).
Proof.
  intros Hc Hn' Hh1 Hb1. pose proof (chain_nodup _ _ Hc) as Hd. pose proof Hd as Hd'.
  apply NoDup_app in Hd as (Hd1 & Hd12 & Hd2). apply NoDup_cons in Hd2 as [Hi2 Hd2]. split.
  - rewrite Hh1. destruct L1 as [|x L1']; cbn; [done|]. rewrite (chain_head _ _ Hc). done.
  - intros k j Hk. apply lookup_app_Some in Hk as [Hk|[Hk1 Hk]].
    + assert (Hk' : (L1 ++ i :: L2) !! k = Some j) by by apply lookup_app_l_Some.
      destruct (chain_next _ _ Hc k j Hk') as (c & Hcj & En). destruct (Hb1 j c Hcj) as (c' & Hc' & En'). exists c'. split; [done|]. rewrite En', En.
      pose proof (lookup_lt_Some _ _ _ Hk) as Hkl. destruct (decide (S k = length L1)) as [E|E].
      * rewrite decide_True.
        -- rewrite lookup_app_r by lia. by rewrite E, Nat.sub_diag.
        -- rewrite <- E in Hn'. destruct Hn' as (y & Hy & ->). congruence.
      * rewrite decide_False; [by rewrite !lookup_app_l by lia|]. intros ->. destruct (length L1) as [|m] eqn:El; [lia|].
        destruct Hn' as (y & Hy & [= <-]). apply E. f_equal. by apply (NoDup_lookup (L1 ++ i :: L2) k m j Hd').
    + assert (Hk' : (L1 ++ i :: L2) !! S k = Some j). { rewrite lookup_app_r by lia. replace (S k - length L1)%nat with (S (k - length L1)) by lia. done. }
      destruct (chain_next _ _ Hc _ j Hk') as (c & Hcj & En). destruct (Hb1 j c Hcj) as (c' & Hc' & En'). exists c'. split; [done|]. rewrite En', En.
      rewrite decide_False.
      * rewrite !lookup_app_r by lia. by replace (S (S k) - length L1)%nat with (S (S k - length L1)) by lia.
      * intros ->. destruct (length L1) as [|m] eqn:El; [done|]. destruct Hn' as (y & Hy & [= <-]).
        assert (S k = m) by by apply (NoDup_lookup (L1 ++ i :: L2) (S k) m j Hd'). lia.
  - apply NoDup_app. split; [done|]. split; [|done]. intros x Hx Hx2. apply (Hd12 x Hx). by right.
Qed.

(** Taking out the block at position [length L1]. *)
Lemma wp_remove L1 i L2 (Q : unit -> rt_rbb -> Prop) r :
  chained r (L1 ++ i :: L2) ->
  (forall r', chained r' (L1 ++ L2) -> same_view r r' ->
     (exists b b', blk_set r !! i = Some b /\ blk_set r' !! i = Some b' /\ list_next b' = list_next b) -> Q tt r') ->
  wp (rt_slist_remove Head i) Q r.
Proof.
  intros Hc HQ. unfold rt_slist_remove. wp_step. apply wp_turns. wp_step. pose proof (chained_short _ _ Hc) as Hs. rewrite length_app in Hs. cbn in Hs.
  pose proof (chain_nodup _ _ Hc) as Hd. pose proof Hd as (_ & Hd12 & _)%NoDup_app.
  assert (Hi : (L1 ++ i :: L2) !! length L1 = Some i) by by apply list_lookup_middle.
  apply (wp_before_loop (L1 ++ i :: L2) i (length L1) (length L1) _ 0); try done; try lia.
  { rewrite length_app. lia. }
  { intros j Hj E. rewrite lookup_app_l in E by done. apply (Hd12 i); [by eapply list_elem_of_lookup_2|by left]. }
  { by left. }
  intros n' Hn'. wp_step. apply (wp_next (L1 ++ i :: L2) (length L1)); [done|done|]. rewrite Hi. wp_step.
  apply (wp_next (L1 ++ i :: L2) (S (length L1))); [done|by exists i|]. rewrite lookup_app_r by lia. replace (S (length L1) - length L1)%nat with 1%nat by lia. cbn.
  apply (wp_set_next (L1 ++ i :: L2) (length L1) n' _ _ r Hc Hn'). intros r1 Hv1 Hh1 Hb1.
  apply HQ; [by apply (chained_cut r r1 L1 i L2 n')|done|].
  destruct (chain_next _ _ Hc _ _ Hi) as (bi & Hbi & Eni). destruct (Hb1 i bi Hbi) as (bi' & Hbi' & Eni').
  exists bi, bi'. split; [done|]. split; [done|]. rewrite Eni', decide_False; [done|]. by apply (node_before_ne L1 i L2).
Qed.

(** Taking out a block that is not on the list does nothing. *)
Lemma wp_remove_off L i (Q : unit -> rt_rbb -> Prop) r : chained r L -> i ∉ L -> Q tt r -> wp (rt_slist_remove Head i) Q r.
Proof.
  intros Hc Hi HQ. unfold rt_slist_remove. wp_step. apply wp_turns. wp_step. pose proof (chained_short _ _ Hc).
  apply (wp_before_loop L i (length L) (length L) _ 0); try done; try lia.
  { intros j _ E. apply Hi. by eapply list_elem_of_lookup_2. }
  intros n' Hn'. wp_step. apply (wp_next L (length L)); [done|done|]. by rewrite lookup_ge_None_2 by lia.
Qed.

Lemma wp_len_loop L : forall d fuel k len (Q : Z -> rt_rbb -> Prop) r,
  chained r L -> (d = length L - k)%nat -> (d < fuel)%nat -> 0 <= len -> len + Z.of_nat d < 2 ^ 32 ->
  Q (len + Z.of_nat d) r -> wp (len_loop fuel (L !! k) len) Q r.
Proof.
  induction d as [|d IH]; intros fuel k len Q r Hc Hd Hf Hl Hb HQ; (destruct fuel as [|fuel]; [lia|]); cbn [len_loop].
  - rewrite lookup_ge_None_2 by lia. rewrite wp_ret. by rewrite Z.add_0_r in HQ.
  - destruct (lookup_lt_is_Some_2 L k) as [x Hx]; [lia|]. rewrite Hx. wp_step. apply (wp_next L (S k)); [done|by exists x|].
    rewrite wrap_small by lia. apply IH; try done; try lia. by replace (len + 1 + Z.of_nat d) with (len + Z.of_nat (S d)) by lia.
Qed.
Lemma wp_len L (Q : Z -> rt_rbb -> Prop) r : chained r L -> Z.of_nat (length (blk_set r)) < 2 ^ 32 ->
  Q (Z.of_nat (length L)) r -> wp (rt_slist_len Head) Q r.
Proof.
  intros Hc Hb HQ. unfold rt_slist_len. wp_step. apply (wp_next L 0); [done|done|]. wp_step. apply wp_turns. pose proof (chained_short _ _ Hc).
  apply (wp_len_loop L (length L)); try done; lia.
Qed.
Lemma wp_first_entry L i (Q : nat -> rt_rbb -> Prop) r : chained r L -> head L = Some i -> Q i r -> wp (rt_slist_first_entry Head) Q r.
Proof.
  intros Hc Hi HQ. unfold rt_slist_first_entry. wp_step. apply (wp_next L 0); [done|done|]. apply (wp_deref _ i); [|done]. by destruct L.
Qed.
Lemma wp_tail_entry L i (Q : nat -> rt_rbb -> Prop) r : chained r L -> last L = Some i -> Q i r -> wp (rt_slist_tail_entry Head) Q r.
Proof.
  intros Hc Hi HQ. unfold rt_slist_tail_entry, rt_slist_tail. wp_step. wp_step. apply wp_turns. pose proof (chained_short _ _ Hc).
  apply (wp_tail_loop L (length L) _ 0); try done; try lia. intros n' Hn'. rewrite last_lookup in Hi.
  destruct (length L) as [|m] eqn:E; [by rewrite (nil_length_inv _ E) in Hi|]. destruct Hn' as (y & Hy & ->). cbn in Hi. assert (y = i) as -> by congruence. done.
Qed.
Lemma wp_isempty L (Q : bool -> rt_rbb -> Prop) r : chained r L -> Q (bool_decide (L = [])) r -> wp (rt_slist_isempty Head) Q r.
Proof.
  intros Hc HQ. unfold rt_slist_isempty. wp_step. apply (wp_next L 0); [done|done|]. rewrite wp_ret. by destruct L.
Qed.

(** ** Single blocks: what is allocated, as a list of pieces *)

Record piece := mkPiece { p_blk : nat; p_status : rt_rbb_status; p_buf : Z; p_size : Z }.
Definition area (p : piece) : Z * Z := (p_buf p, p_size p).
Definition entry (p : piece) : rt_rbb_status * Z * Z := (p_status p, p_buf p, p_size p).
Definition with_status (st : rt_rbb_status) (p : piece) : piece := mkPiece (p_blk p) st (p_buf p) (p_size p).

(** As they are once a queue has them. *)
Abbreviation taken R := (with_status RT_RBB_BLK_GET <$> R).

Section pieces.
Context (lo hi : Z) (max : nat).

(** The list has the pieces [Q] in order, their areas lie as in a ring, the pieces [T] have been taken
    off it with a queue, and the other blocks are unused. *)
Record holds (r : rt_rbb) (Q T : list piece) : Prop := {
  holds_chain : chained r (p_blk <$> Q);
  holds_nodup : NoDup (p_blk <$> Q ++ T);
  holds_piece : forall p, p ∈ Q ++ T -> infos r !! p_blk p = Some (entry p) /\ p_status p ≠ RT_RBB_BLK_UNUSED;
  holds_taken : forall p, p ∈ T -> p_status p = RT_RBB_BLK_GET;
  holds_free : forall i x, i ∉ p_blk <$> Q ++ T -> infos r !! i = Some x -> x.1.1 = RT_RBB_BLK_UNUSED;
  holds_set : length (blk_set r) = max /\ blk_max_num r = Z.of_nat max /\ Z.of_nat max < 2 ^ 32;
  holds_buf : rbb_buf r = lo /\ rbb_buf r + rbb_buf_size r = hi /\ 0 < lo <= hi /\ hi < 2 ^ 32;
  holds_layout : layout lo hi (area <$> Q)
}.

Lemma infos_lookup r i x : infos r !! i = Some x -> exists b, blk_set r !! i = Some b /\ info b = x.
Proof. unfold infos. rewrite list_lookup_fmap. intros (b & -> & ->)%fmap_Some. by exists b. Qed.
Lemma wp_piece r Q T p (P : rt_rbb_blk -> rt_rbb -> Prop) : holds r Q T -> p ∈ Q ++ T ->
  (forall b, blk_set r !! p_blk p = Some b -> blk_status b = p_status p -> blk_buf b = p_buf p -> blk_size b = p_size p -> P b r) ->
  wp (get_blk (p_blk p)) P r.
Proof.
  intros Hh Hp HP. destruct (holds_piece _ _ _ Hh p Hp) as [Hi _]. apply infos_lookup in Hi as (b & Hb & [= E1 E2 E3]).
  apply (wp_get_blk _ b); [done|]. by apply HP.
Qed.
Lemma on_list (Q1 Q2 T : list piece) p : p ∈ (Q1 ++ p :: Q2) ++ T.
Proof. apply elem_of_app. left. apply elem_of_app. right. by left. Qed.

(** Changing anything but the pointer of a block keeps the list. *)
Lemma chained_insert r L i b b' : chained r L -> blk_set r !! i = Some b -> list_next b' = list_next b -> chained (set_blk_set (insert i b') r) L.
Proof.
  intros Hc Hb E. split; [apply (chain_head _ _ Hc)| |apply (chain_nodup _ _ Hc)]. intros k j Hk.
  destruct (chain_next _ _ Hc k j Hk) as (c & Hj & En). cbn. destruct (decide (i = j)) as [<-|Hij].
  - exists b'. rewrite list_lookup_insert_eq by by eapply lookup_lt_Some. split; [done|]. congruence.
  - exists c. by rewrite list_lookup_insert_ne.
Qed.
Lemma infos_update r i b' : infos (set_blk_set (insert i b') r) = <[i := info b']> (infos r).
Proof. unfold infos. cbn. by rewrite list_fmap_insert. Qed.

(** A piece and the others. *)
Lemma others_ne (A1 A2 : list piece) p q : NoDup (p_blk <$> A1 ++ p :: A2) -> q ∈ A1 ++ A2 -> p_blk q ≠ p_blk p.
Proof.
  intros Hd Hq E. rewrite fmap_app, fmap_cons in Hd.
  apply NoDup_app in Hd as (_ & H12 & H2). apply NoDup_cons in H2 as [H2 _]. apply elem_of_app in Hq as [Hq|Hq].
  - apply (H12 (p_blk q)); [by apply list_elem_of_fmap_2|]. rewrite E. by left.
  - apply H2. rewrite <- E. by apply list_elem_of_fmap_2.
Qed.
Lemma middle_cases {A} (l1 l2 : list A) x x' y : y ∈ l1 ++ x' :: l2 -> y = x' \/ (y ∈ l1 ++ l2 /\ y ∈ l1 ++ x :: l2).
Proof. rewrite !elem_of_app, !elem_of_cons. tauto. Qed.
Lemma holds_split r L1 p L2 T : holds r (L1 ++ p :: L2) T -> NoDup (p_blk <$> L1 ++ p :: (L2 ++ T)).
Proof. intros Hh. pose proof (holds_nodup _ _ _ Hh) as Hd. by rewrite <- (assoc_L (++)) in Hd. Qed.

(** Changing the status of a piece. *)
Lemma wp_status r L1 p L2 T st (P : unit -> rt_rbb -> Prop) :
  holds r (L1 ++ p :: L2) T -> st ≠ RT_RBB_BLK_UNUSED ->
  (forall r', holds r' (L1 ++ with_status st p :: L2) T -> P tt r') -> wp (upd_blk (p_blk p) (set_status st)) P r.
Proof.
  intros Hh Hst HP. destruct (holds_piece _ _ _ Hh p (on_list _ _ _ _)) as [Hi _]. pose proof (holds_split _ _ _ _ _ Hh) as Hd.
  pose proof (infos_lookup _ _ _ Hi) as (b & Hb & Ei). apply (wp_upd_blk _ b); [done|]. apply HP. injection Ei as E1 E2 E3.
  assert (Eids : p_blk <$> L1 ++ with_status st p :: L2 = p_blk <$> L1 ++ p :: L2) by by rewrite !fmap_app, !fmap_cons.
  pose proof (lookup_lt_Some _ _ _ Hi) as Hlt. split.
  - rewrite Eids. apply (chained_insert _ _ _ b); [apply (holds_chain _ _ _ Hh)|done|done].
  - rewrite fmap_app, Eids, <- fmap_app. apply (holds_nodup _ _ _ Hh).
  - intros q Hq. rewrite infos_update. rewrite <- (assoc_L (++)) in Hq. apply (middle_cases L1 _ p) in Hq as [->|[Hq Hq']].
    + cbn [p_blk with_status]. rewrite list_lookup_insert_eq by done. unfold info, entry. cbn. by rewrite E2, E3.
    + rewrite list_lookup_insert_ne by (intros E; by apply (others_ne _ _ _ _ Hd Hq)). apply (holds_piece _ _ _ Hh). by rewrite <- (assoc_L (++)).
  - apply (holds_taken _ _ _ Hh).
  - intros i x Hx. rewrite fmap_app, Eids, <- fmap_app in Hx. rewrite infos_update. rewrite list_lookup_insert_ne; [by apply (holds_free _ _ _ Hh)|].
    intros <-. apply Hx. apply list_elem_of_fmap_2, on_list.
  - cbn. rewrite length_insert. apply (holds_set _ _ _ Hh).
  - apply (holds_buf _ _ _ Hh).
  - pose proof (holds_layout _ _ _ Hh) as Hl. by rewrite fmap_app, fmap_cons in Hl |- *.
Qed.

Lemma wp_rt_rbb_blk_put r L1 p L2 T (P : unit -> rt_rbb -> Prop) :
  holds r (L1 ++ p :: L2) T -> p_status p = RT_RBB_BLK_INITED ->
  (forall r', holds r' (L1 ++ with_status RT_RBB_BLK_PUT p :: L2) T -> P tt r') -> wp (rt_rbb_blk_put (p_blk p)) P r.
Proof.
  intros Hh Hst HP. unfold rt_rbb_blk_put. wp_step. apply (wp_piece r _ T p _ Hh (on_list _ _ _ _)). intros b Hb Es _ _.
  wp_step. wp_step; [by apply bool_decide_eq_true_2; congruence|]. by apply (wp_status r L1 p L2 T).
Qed.

(** The first block that is put. *)
Lemma wp_get_loop Q T : forall L2 L1 fuel (P : option nat -> rt_rbb -> Prop) r, Q = L1 ++ L2 -> holds r Q T -> (length L2 < fuel)%nat ->
  Forall (fun p => p_status p ≠ RT_RBB_BLK_PUT) L1 ->
  (Forall (fun p => p_status p ≠ RT_RBB_BLK_PUT) Q -> P None r) ->
  (forall L1 p L2 r', Q = L1 ++ p :: L2 -> Forall (fun p => p_status p ≠ RT_RBB_BLK_PUT) L1 -> p_status p = RT_RBB_BLK_PUT ->
     holds r' (L1 ++ with_status RT_RBB_BLK_GET p :: L2) T -> P (Some (p_blk p)) r') ->
  wp (get_loop fuel ((p_blk <$> Q) !! length L1)) P r.
Proof.
  induction L2 as [|p L2 IH]; intros L1 fuel P r EQ Hh Hf Hn Hnone Hsome; (destruct fuel as [|fuel]; [cbn in Hf; lia|]); cbn [get_loop].
  - rewrite lookup_ge_None_2 by (rewrite length_fmap, EQ, app_nil_r; lia). wp_step. apply Hnone. by rewrite EQ, app_nil_r.
  - assert (Ep : (p_blk <$> Q) !! length L1 = Some (p_blk p)). { rewrite list_lookup_fmap, EQ, list_lookup_middle by done. done. }
    rewrite Ep. wp_step. apply (wp_piece r Q T p _ Hh); [rewrite EQ; apply on_list|]. intros b Hb Es _ _. rewrite Es.
    case_decide as Hd.
    + wp_step. rewrite EQ in Hh. apply (wp_status r L1 p L2 T); [done|done|]. intros r' Hh'. wp_step. by apply (Hsome L1 p L2).
    + wp_step. apply (wp_next (p_blk <$> Q) (S (length L1))); [apply (holds_chain _ _ _ Hh)|by exists (p_blk p)|].
      replace (S (length L1)) with (length (L1 ++ [p])) by (rewrite length_app; cbn; lia).
      apply IH; try done; [by rewrite <- (assoc_L (++))|cbn in Hf; lia|]. apply Forall_app. by repeat constructor.
Qed.
Lemma wp_rt_rbb_blk_get r Q T (P : option nat -> rt_rbb -> Prop) : holds r Q T ->
  (Forall (fun p => p_status p ≠ RT_RBB_BLK_PUT) Q -> P None r) ->
  (forall L1 p L2 r', Q = L1 ++ p :: L2 -> Forall (fun p => p_status p ≠ RT_RBB_BLK_PUT) L1 -> p_status p = RT_RBB_BLK_PUT ->
     holds r' (L1 ++ with_status RT_RBB_BLK_GET p :: L2) T -> P (Some (p_blk p)) r') ->
  wp rt_rbb_blk_get P r.
Proof.
  intros Hh Hnone Hsome. unfold rt_rbb_blk_get. wp_step. pose proof (holds_chain _ _ _ Hh) as Hc. eapply wp_isempty; [exact Hc|].
  case_bool_decide as E.
  - wp_step. apply Hnone. by apply fmap_nil_inv in E as ->.
  - wp_step. apply (wp_next (p_blk <$> Q) 0); [done|done|]. wp_step. apply wp_turns. pose proof (chained_short _ _ Hc) as Hs. rewrite length_fmap in Hs.
    apply (wp_get_loop Q T Q []); try done. lia.
Qed.

(** A block that becomes unused, once it is on the list no more. *)
Lemma unused_block r r1 Q Q' T T' A1 p A2 b1 : holds r Q T -> Q ++ T = A1 ++ p :: A2 -> Q' ++ T' = A1 ++ A2 ->
  chained r1 (p_blk <$> Q') -> same_view r r1 -> blk_set r1 !! p_blk p = Some b1 -> layout lo hi (area <$> Q') ->
  (forall q, q ∈ T' -> q ∈ T) ->
  holds (set_blk_set (insert (p_blk p) (set_status RT_RBB_BLK_UNUSED b1)) r1) Q' T'.
Proof.
  intros Hh E E' Hc1 (Ev1 & Ev2 & Ev3 & Ev4) Hb1 Hl Ht. pose proof (holds_nodup _ _ _ Hh) as Hd. rewrite E in Hd.
  assert (Hin : forall q, q ∈ Q' ++ T' -> q ∈ Q ++ T /\ p_blk q ≠ p_blk p).
  { intros q Hq. rewrite E' in Hq. split; [|by apply (others_ne A1 A2)]. rewrite E, elem_of_app, elem_of_cons. rewrite elem_of_app in Hq. tauto. }
  assert (Hlt : (p_blk p < length (infos r))%nat).
  { eapply lookup_lt_Some, (proj1 (holds_piece _ _ _ Hh p _)). Unshelve. rewrite E. apply elem_of_app. right. by left. }
  split.
  - by apply (chained_insert _ _ _ b1).
  - rewrite E'. rewrite fmap_app, fmap_cons in Hd. rewrite fmap_app. apply NoDup_app in Hd as (H1 & H12 & H2). apply NoDup_cons in H2 as [_ H2].
    apply NoDup_app. split; [done|]. split; [|done]. intros x Hx Hx2. apply (H12 x Hx). by right.
  - intros q [Hq Hne]%Hin. rewrite infos_update, Ev4. rewrite list_lookup_insert_ne by done. by apply (holds_piece _ _ _ Hh).
  - intros q Hq%Ht. by apply (holds_taken _ _ _ Hh).
  - intros i x Hx. rewrite infos_update, Ev4. destruct (decide (p_blk p = i)) as [<-|Hpi].
    + rewrite list_lookup_insert_eq by done. by intros [= <-].
    + rewrite list_lookup_insert_ne by done. apply (holds_free _ _ _ Hh). rewrite E, fmap_app, fmap_cons, elem_of_app, elem_of_cons.
      rewrite E', fmap_app, elem_of_app in Hx. intros [H1|[H1|H1]]; [tauto|congruence|tauto].
  - cbn. rewrite length_insert, (infos_length _ _ Ev4), Ev3. apply (holds_set _ _ _ Hh).
  - cbn. rewrite Ev1, Ev2. apply (holds_buf _ _ _ Hh).
  - done.
Qed.

Lemma wp_rt_rbb_blk_free r L1 p L2 T (P : unit -> rt_rbb -> Prop) : holds r (L1 ++ p :: L2) T ->
  (forall r', holds r' (L1 ++ L2) T -> P tt r') -> wp (rt_rbb_blk_free (p_blk p)) P r.
Proof.
  intros Hh HP. unfold rt_rbb_blk_free.
  destruct (holds_piece _ _ _ Hh p (on_list _ _ _ _)) as [Hi Hu]. wp_step. apply (wp_piece r _ T p _ Hh (on_list _ _ _ _)). intros b Hb Es _ _.
  wp_step. wp_step; [rewrite bool_decide_eq_false_2; [done|congruence]|]. wp_step. pose proof (holds_chain _ _ _ Hh) as Hc. rewrite fmap_app, fmap_cons in Hc.
  apply (wp_remove (p_blk <$> L1) (p_blk p) (p_blk <$> L2)); [done|]. intros r1 Hc1 Hv (b0 & b1 & _ & Hb1 & _).
  apply (wp_upd_blk _ b1); [done|]. apply HP. rewrite <- fmap_app in Hc1.
  apply (unused_block r r1 (L1 ++ p :: L2) _ T _ L1 p (L2 ++ T)); try done; [by rewrite <- (assoc_L (++))|by rewrite <- (assoc_L (++))|].
  pose proof (holds_layout _ _ _ Hh) as Hl. rewrite fmap_app, fmap_cons in Hl. rewrite fmap_app. by eapply layout_remove.
Qed.

(** The same for a block taken off with a queue. *)
Lemma wp_free_taken r Q T1 p T2 (P : unit -> rt_rbb -> Prop) : holds r Q (T1 ++ p :: T2) ->
  (forall r', holds r' Q (T1 ++ T2) -> P tt r') -> wp (rt_rbb_blk_free (p_blk p)) P r.
Proof.
  intros Hh HP. unfold rt_rbb_blk_free. assert (Hp : p ∈ Q ++ (T1 ++ p :: T2)) by (rewrite !elem_of_app, elem_of_cons; tauto).
  destruct (holds_piece _ _ _ Hh p Hp) as [Hi Hu]. wp_step. apply (wp_piece r _ _ p _ Hh Hp). intros b Hb Es _ _.
  wp_step. wp_step; [rewrite bool_decide_eq_false_2; [done|congruence]|]. wp_step. pose proof (holds_nodup _ _ _ Hh) as Hd.
  rewrite fmap_app in Hd. apply NoDup_app in Hd as (_ & Hd & _).
  apply (wp_remove_off (p_blk <$> Q)); [apply (holds_chain _ _ _ Hh)| |].
  { intros H. apply (Hd _ H). apply list_elem_of_fmap_2, elem_of_app. right. by left. }
  apply (wp_upd_blk _ b); [done|]. apply HP.
  apply (unused_block r r Q _ (T1 ++ p :: T2) _ (Q ++ T1) p T2); try done; [by rewrite <- (assoc_L (++))|by rewrite <- (assoc_L (++))|apply (holds_chain _ _ _ Hh)| |].
  - apply (holds_layout _ _ _ Hh).
  - intros q. rewrite !elem_of_app, elem_of_cons. tauto.
Qed.

Lemma wp_find_empty_loop r Q T (P : option nat -> rt_rbb -> Prop) : holds r Q T ->
  forall fuel i, (max - i < fuel)%nat -> (i <= max)%nat -> (forall j, (j < i)%nat -> j ∈ p_blk <$> Q ++ T) ->
  (forall i, (i < max)%nat -> i ∉ p_blk <$> Q ++ T -> P (Some i) r) ->
  ((forall j, (j < max)%nat -> j ∈ p_blk <$> Q ++ T) -> P None r) -> wp (find_empty_loop fuel i) P r.
Proof.
  intros Hh. destruct (holds_set _ _ _ Hh) as (El & Em & _).
  induction fuel as [|fuel IH]; intros i Hf Hi Hused Hsome Hnone; [lia|]; cbn [find_empty_loop]. wp_step. wp_step. rewrite Em.
  destruct (Z.ltb_spec (Z.of_nat i) (Z.of_nat max)) as [Hlt|Hge].
  2:{ wp_step. apply Hnone. intros j Hj. apply Hused. lia. }
  wp_step. destruct (lookup_lt_is_Some_2 (blk_set r) i) as [b Hb]; [lia|]. apply (wp_get_blk i b); [done|].
  assert (Hib : infos r !! i = Some (info b)) by (unfold infos; by rewrite list_lookup_fmap, Hb).
  case_decide as Hd.
  - wp_step. apply Hsome; [lia|]. intros (p & -> & Hp)%list_elem_of_fmap. destruct (holds_piece _ _ _ Hh p Hp) as [Hp1 Hp2].
    rewrite Hp1 in Hib. injection Hib as Hib _ _. congruence.
  - apply IH; [lia|lia| |done|done]. intros j Hj. destruct (decide (j = i)) as [->|Hji]; [|apply Hused; lia].
    destruct (decide (i ∈ p_blk <$> Q ++ T)) as [|Hn]; [done|]. by destruct (Hd (holds_free _ _ _ Hh i _ Hn Hib)).
Qed.
Lemma ids_in_set r Q T i : holds r Q T -> i ∈ p_blk <$> Q ++ T -> (i < max)%nat.
Proof.
  intros Hh (p & -> & Hp)%list_elem_of_fmap. destruct (holds_piece _ _ _ Hh p Hp) as [Hi _]. apply lookup_lt_Some in Hi.
  unfold infos in Hi. rewrite length_fmap in Hi. destruct (holds_set _ _ _ Hh) as (<- & _). done.
Qed.
Lemma ids_bound r Q T : holds r Q T -> (length (Q ++ T) <= max)%nat.
Proof.
  intros Hh. rewrite <- (length_seq max 0), <- (length_fmap p_blk (Q ++ T)).
  apply submseteq_length, NoDup_submseteq; [apply (holds_nodup _ _ _ Hh)|]. intros i Hi. apply elem_of_seq.
  pose proof (ids_in_set _ _ _ _ Hh Hi). lia.
Qed.
Lemma all_used r Q T : holds r Q T -> (forall j, (j < max)%nat -> j ∈ p_blk <$> Q ++ T) <-> length (Q ++ T) = max.
Proof.
  intros Hh. pose proof (ids_bound _ _ _ Hh) as Hb. split.
  - intros Ha. assert (max <= length (Q ++ T))%nat; [|lia]. rewrite <- (length_seq max 0), <- (length_fmap p_blk (Q ++ T)).
    apply submseteq_length, NoDup_submseteq; [apply NoDup_seq|]. intros j Hj%elem_of_seq. apply Ha. lia.
  - intros E j Hj. assert (Hperm : p_blk <$> Q ++ T ≡ₚ seq 0 max).
    { apply submseteq_length_Permutation; [|rewrite length_fmap, length_seq; lia].
      apply NoDup_submseteq; [apply (holds_nodup _ _ _ Hh)|]. intros x Hx. apply elem_of_seq. pose proof (ids_in_set _ _ _ _ Hh Hx). lia. }
    rewrite Hperm. apply elem_of_seq. lia.
Qed.

(** The pointers of the block given out are set one after the other. *)
Lemma wp_fill r1 i b a n (P : option nat -> rt_rbb -> Prop) : blk_set r1 !! i = Some b -> 0 <= n < 2 ^ 24 ->
  (forall b', list_next b' = list_next b -> info b' = (RT_RBB_BLK_INITED, a, n) -> P (Some i) (set_blk_set (insert i b') r1)) ->
  wp (upd_blk i (set_status RT_RBB_BLK_INITED) ;; upd_blk i (set_buf a) ;; upd_blk i (set_size n) ;; mret (Some i)) P r1.
Proof.
  intros Hb Hn HP. pose proof (lookup_lt_Some _ _ _ Hb) as Hlb.
  wp_step. apply (wp_upd_blk i b); [done|]. wp_step. apply (wp_upd_blk i (set_status RT_RBB_BLK_INITED b)); [by apply list_lookup_insert_eq|].
  wp_step. apply (wp_upd_blk i (set_buf a (set_status RT_RBB_BLK_INITED b))); [cbn; apply list_lookup_insert_eq; by rewrite length_insert|]. wp_step.
  set (b' := set_size n (set_buf a (set_status RT_RBB_BLK_INITED b))).
  assert (Er : set_blk_set (insert i b') (set_blk_set (insert i (set_buf a (set_status RT_RBB_BLK_INITED b)))
     (set_blk_set (insert i (set_status RT_RBB_BLK_INITED b)) r1)) = set_blk_set (insert i b') r1).
  { unfold set_blk_set. cbn. by rewrite !list_insert_insert_eq. }
  rewrite Er. apply HP; [done|]. unfold info. cbn. by rewrite wrap_small by lia.
Qed.

Lemma wp_claim r Q T i a n (P : option nat -> rt_rbb -> Prop) : holds r Q T -> i ∉ p_blk <$> Q ++ T -> (i < max)%nat -> n < 2 ^ 24 ->
  layout lo hi ((area <$> Q) ++ [(a, n)]) ->
  (forall r', holds r' (Q ++ [mkPiece i RT_RBB_BLK_INITED a n]) T -> P (Some i) r') -> wp (claim i a n) P r.
Proof.
  intros Hh Hi Hlt Hn Hl HP. destruct (holds_set _ _ _ Hh) as (El & Em & Hm). unfold claim. wp_step.
  assert (HiQ : i ∉ p_blk <$> Q) by (intros H; apply Hi; rewrite fmap_app; apply elem_of_app; by left).
  apply (wp_append (p_blk <$> Q)); [apply (holds_chain _ _ _ Hh)|done|lia|]. intros r1 Hc1 (Ev1 & Ev2 & Ev3 & Ev4).
  pose proof (infos_length _ _ Ev4) as El1. destruct (lookup_lt_is_Some_2 (blk_set r1) i) as [b Hb]; [lia|].
  assert (Hn0 : 0 < n). { destruct Hl as [Hl _]. apply Forall_app in Hl as [_ Hl]. apply Forall_cons in Hl as [(_ & Hl & _) _]. done. }
  apply (wp_fill r1 i b); [done|lia|]. intros b' Hnx Ei. apply HP.
  assert (Hlt1 : (i < length (infos r1))%nat) by (unfold infos; rewrite length_fmap; lia).
  split.
  - rewrite fmap_app. by apply (chained_insert _ _ _ b).
  - rewrite <- (assoc_L (++)), fmap_app. pose proof (holds_nodup _ _ _ Hh) as Hd. rewrite fmap_app in Hd, Hi. rewrite fmap_app.
    rewrite elem_of_app in Hi. apply NoDup_app in Hd as (H1 & H12 & H2). apply NoDup_app. split; [done|]. split.
    + intros x Hx Hx2. apply elem_of_cons in Hx2 as [->|Hx2]; [tauto|]. by apply (H12 x).
    + apply NoDup_cons. split; [cbn; tauto|done].
  - intros p Hp. rewrite infos_update. rewrite <- (assoc_L (++)) in Hp. cbn in Hp. apply elem_of_app in Hp as [Hp|Hp].
    2: apply elem_of_cons in Hp as [->|Hp].
    2: { cbn [p_blk]. rewrite list_lookup_insert_eq by done. by rewrite Ei. }
    all: rewrite list_lookup_insert_ne by (intros ->; apply Hi; apply list_elem_of_fmap_2, elem_of_app; tauto).
    all: rewrite Ev4; apply (holds_piece _ _ _ Hh), elem_of_app; tauto.
  - apply (holds_taken _ _ _ Hh).
  - intros j x Hj. rewrite infos_update, list_lookup_insert_ne, Ev4; [apply (holds_free _ _ _ Hh)|].
    + intros H. apply Hj. rewrite fmap_app, elem_of_app in H. rewrite !fmap_app, !elem_of_app. tauto.
    + intros <-. apply Hj. rewrite !fmap_app, !elem_of_app. left. right. by left.
  - cbn. rewrite length_insert, El1, Ev3. done.
  - cbn. rewrite Ev1, Ev2. apply (holds_buf _ _ _ Hh).
  - by rewrite fmap_app.
Qed.

Lemma piece_inside r Q T p : holds r Q T -> p ∈ Q -> inside lo hi (area p).
Proof. intros Hh Hp. destruct (holds_layout _ _ _ Hh) as [Hl _]. rewrite Forall_forall in Hl. apply Hl. by apply list_elem_of_fmap_2. Qed.

(** The place is that of [room]. *)
Lemma wp_place r Q T i n (P : option nat -> rt_rbb -> Prop) h t : holds r Q T -> head Q = Some h -> last Q = Some t ->
  match room lo hi (area <$> Q) n with
  | Some a => wp (claim i a n) P r
  | None => P None r
  end ->
  wp (if p_buf h <=? p_buf t then
        let empty1 := u32 (rbb_buf r + rbb_buf_size r - (p_buf t + p_size t)) in
        let empty2 := u32 (p_buf h - rbb_buf r) in
        if n <=? empty1 then claim i (u32 (p_buf t + p_size t)) n
        else if n <=? empty2 then claim i (rbb_buf r) n
        else mret None
      else
        let empty1 := u32 (p_buf h - (p_buf t + p_size t)) in
        if n <=? empty1 then claim i (u32 (p_buf t + p_size t)) n else mret None) P r.
Proof.
  intros Hh Eh Et HP. destruct (holds_buf _ _ _ Hh) as (Eb & Es & Hlo & Hhi). unfold room in HP.
  assert (Eh' : head (area <$> Q) = Some (area h)) by (destruct Q; [done|]; by injection Eh as ->).
  assert (Et' : last (area <$> Q) = Some (area t)) by by rewrite fmap_last, Et.
  assert (HhQ : h ∈ Q) by (destruct Q; [done|]; injection Eh as ->; by left).
  pose proof (piece_inside r Q T h Hh HhQ) as Hih. pose proof (piece_inside r Q T t Hh (last_Some_elem_of _ _ Et)) as Hit.
  unfold inside in Hih, Hit. cbn in Hih, Hit. pose proof (holds_layout _ _ _ Hh) as Hl.
  destruct (layout_cases lo hi _ _ _ Hl Eh' Et') as [[Hle _]|(Hlt & A & B & EQ & _ & _ & EA & EB & HAB)].
  - rewrite Eh', Et' in HP. cbn in HP, Hle. rewrite (proj2 (Z.leb_le (p_buf h) _)) in HP |- * by done. cbn zeta. rewrite Es, Eb, !wrap_small by lia.
    destruct (n <=? _); [done|]. by destruct (n <=? _).
  - rewrite Eh', Et' in HP. cbn in HP, Hlt. rewrite (proj2 (Z.leb_gt (p_buf h) _)) in HP |- * by done. cbn zeta.
    assert (Hth : before (area t) (area h)).
    { apply HAB; [|by apply last_Some_elem_of]. destruct A; [done|]. injection EA as ->. by left. }
    unfold before in Hth. cbn in Hth. rewrite !wrap_small by lia. by destruct (n <=? _).
Qed.

Lemma wp_rt_rbb_blk_alloc r Q T n (P : option nat -> rt_rbb -> Prop) : holds r Q T -> 0 < n < 2 ^ 24 -> n <= hi - lo ->
  (forall i a r', (i < max)%nat -> i ∉ p_blk <$> Q ++ T -> layout lo hi ((area <$> Q) ++ [(a, n)]) ->
     holds r' (Q ++ [mkPiece i RT_RBB_BLK_INITED a n]) T -> P (Some i) r') ->
  (length (Q ++ T) = max \/ (forall a, ~ layout lo hi ((area <$> Q) ++ [(a, n)])) -> P None r) ->
  wp (rt_rbb_blk_alloc n) P r.
Proof.
  intros Hh Hn Hfit Hsome Hnone. pose proof (holds_chain _ _ _ Hh) as Hc. destruct (holds_set _ _ _ Hh) as (El & Em & Hm).
  pose proof (holds_layout _ _ _ Hh) as Hl. destruct (holds_buf _ _ _ Hh) as (Eb & _).
  unfold rt_rbb_blk_alloc. wp_step. wp_step; [lia|]. wp_step. unfold find_empty_blk_in_set. wp_step. apply wp_turns.
  apply (wp_find_empty_loop r Q T); [done|lia|lia|intros; lia| |].
  2:{ intros Ha%(all_used r Q T Hh). wp_step. apply (wp_len (p_blk <$> Q)); [done|lia|]. wp_step. wp_step. wp_step. apply Hnone. by left. }
  intros i Hi Hiq. wp_step. apply (wp_len (p_blk <$> Q)); [done|lia|]. rewrite length_fmap. wp_step. wp_step. cbn [id]. rewrite Em.
  assert (Hlen : (length Q < max)%nat).
  { pose proof (ids_bound _ _ _ Hh) as Hs. rewrite length_app in Hs. destruct (decide (length (Q ++ T) = max)) as [E|E]; [|rewrite length_app in E; lia].
    destruct Hiq. by apply (all_used r Q T Hh). }
  rewrite (proj2 (Z.ltb_lt _ _)) by lia. destruct Q as [|h Q'] eqn:EQ.
  { cbn. rewrite Eb. assert (Hla : layout lo hi ((area <$> []) ++ [(lo, n)])) by (apply (room_fits lo hi); [done|lia|done]).
    eapply wp_claim; [exact Hh|done|done|lia|exact Hla|]. intros r' Hh'. by apply (Hsome i lo). }
  rewrite <- EQ in *. destruct (last Q) as [t|] eqn:Et; [|apply last_None in Et; congruence].
  assert (Eh : head Q = Some h) by (by subst Q). rewrite (proj2 (Z.ltb_lt 0 _)) by (subst Q; cbn; lia).
  wp_step. apply (wp_first_entry (p_blk <$> Q) (p_blk h)); [done|by subst Q|]. wp_step. apply (wp_piece r Q T h _ Hh); [subst Q; by left|].
  intros bh Hbh _ Ebh _. wp_step. apply (wp_tail_entry (p_blk <$> Q) (p_blk t)); [done|by rewrite fmap_last, Et|].
  wp_step. apply (wp_piece r Q T t _ Hh); [apply elem_of_app; left; by apply last_Some_elem_of|]. intros bt Hbt _ Ebt Est. rewrite Ebh, Ebt, Est.
  apply (wp_place r Q T i n P h t); try done. destruct (room lo hi (area <$> Q) n) as [a|] eqn:Er.
  - assert (Hla : layout lo hi ((area <$> Q) ++ [(a, n)])) by (apply (room_fits lo hi); [done|lia|done]).
    eapply wp_claim; [exact Hh|done|done|lia|exact Hla|]. intros r' Hh'. by apply (Hsome i a).
  - apply Hnone. right. by apply room_none.
Qed.

(** ** Runs of blocks *)

Definition sizes (R : list piece) : Z := foldr (fun p n => p_size p + n) 0 R.
Definition is_put (p : piece) : bool := bool_decide (p_status p = RT_RBB_BLK_PUT).
Definition within (limit : option Z) (n : Z) : bool := match limit with Some l => n <=? l | None => true end.

(** What follows [last] in the queue, [total] bytes being in it already; and the whole queue. *)
Fixpoint follow (limit : option Z) (last : piece) (total : Z) (Q : list piece) : list piece :=
  match Q with
  | [] => []
  | p :: Q => if is_put p && (p_buf last <=? p_buf p) && within limit (total + p_size p)
              then p :: follow limit p (total + p_size p) Q else []
  end.
Fixpoint run (limit : option Z) (Q : list piece) : list piece :=
  match Q with
  | [] => []
  | p :: Q => if is_put p then p :: follow limit p (p_size p) Q else run limit Q
  end.

Lemma follow_prefix limit Q : forall last total, Q = follow limit last total Q ++ drop (length (follow limit last total Q)) Q.
Proof.
  induction Q as [|p Q IH]; intros last total; [done|]. cbn [follow]. destruct (_ && _ && _); [|done].
  cbn [app length drop]. f_equal. apply IH.
Qed.

(** A block at no lower address than the one before it in the list begins behind it. *)
Lemma adjacent L1 last p L3 : layout lo hi (area <$> L1 ++ last :: p :: L3) -> p_buf last <= p_buf p ->
  p_buf last + p_size last <= p_buf p /\ lo <= p_buf p /\ 0 < p_size p /\ p_buf p + p_size p <= hi.
Proof.
  intros Hl Hle. rewrite fmap_app, !fmap_cons in Hl. pose proof Hl as [Hin _].
  assert (Hp : inside lo hi (area p)). { apply Forall_app in Hin as [_ Hin]. apply Forall_cons in Hin as [_ Hin]. by apply Forall_cons in Hin as [Hin _]. }
  unfold inside in Hp. cbn in Hp. split; [|lia].
  destruct (layout_apart lo hi _ (length (area <$> L1)) (S (length (area <$> L1))) (area last) (area p) Hl) as [H|H]; try lia.
  - by apply list_lookup_middle.
  - rewrite lookup_app_r by lia. by replace (S (length (area <$> L1)) - length (area <$> L1))%nat with 1%nat by lia.
  - done.
  - unfold before in H. cbn in H. lia.
Qed.
Lemma layout_without L1 p L3 : layout lo hi (area <$> L1 ++ p :: L3) -> layout lo hi (area <$> L1 ++ L3).
Proof. rewrite !fmap_app, fmap_cons. apply layout_remove. Qed.

(** What is read of the length of the next queue. *)
Lemma wp_next_len_run r Q T : holds r Q T -> forall L3 L1 last fuel total (P : Z -> rt_rbb -> Prop),
  Q = L1 ++ last :: L3 -> (length L3 < fuel)%nat -> 0 <= total <= p_buf last + p_size last - lo ->
  P (total + sizes (follow None last total L3)) r ->
  wp (next_len_loop fuel ((p_blk <$> Q) !! S (length L1)) (Some (p_blk last)) total) P r.
Proof.
  intros Hh. destruct (holds_buf _ _ _ Hh) as (_ & _ & Hlo & Hhi).
  induction L3 as [|p L3 IH]; intros L1 last fuel total P EQ Hf Ht HP; (destruct fuel as [|fuel]; [cbn in Hf; lia|]); cbn [next_len_loop].
  - rewrite lookup_ge_None_2 by (rewrite length_fmap, EQ, length_app; cbn; lia). wp_step. cbn in HP. by rewrite Z.add_0_r in HP.
  - assert (EQ' : Q = (L1 ++ [last]) ++ p :: L3) by by rewrite <- (assoc_L (++)).
    assert (El : S (length L1) = length (L1 ++ [last])) by (rewrite length_app; cbn; lia).
    assert (Ep : (p_blk <$> Q) !! S (length L1) = Some (p_blk p)). { rewrite El, list_lookup_fmap, EQ', list_lookup_middle by done. done. }
    rewrite Ep. wp_step. apply (wp_piece r Q T p _ Hh); [rewrite EQ'; apply on_list|]. intros b Hb Es Eb Ez. wp_step.
    apply (wp_next (p_blk <$> Q) (S (S (length L1)))); [apply (holds_chain _ _ _ Hh)|by exists (p_blk p)|].
    wp_step. apply (wp_piece r Q T last _ Hh); [rewrite EQ; apply on_list|]. intros bl Hbl _ Ebl _. rewrite Es, Eb, Ez, Ebl. cbn [follow] in HP. unfold is_put, within in HP.
    case_bool_decide as Hput; cbn [negb andb orb] in HP |- *; [|by rewrite Z.add_0_r in HP].
    rewrite Z.ltb_antisym. destruct (Z.leb_spec (p_buf last) (p_buf p)) as [Hle|Hgt]; cbn [negb andb] in HP |- *; [|by rewrite Z.add_0_r in HP].
    pose proof (holds_layout _ _ _ Hh) as Hl. rewrite EQ in Hl. pose proof (adjacent L1 last p L3 Hl Hle).
    rewrite wrap_small by lia. rewrite El in *. apply (IH (L1 ++ [last]) p); [done|cbn in Hf; lia|lia|].
    cbn [sizes foldr] in HP. by rewrite Z.add_assoc in HP.
Qed.
Lemma wp_next_len_skip r Q T : holds r Q T -> forall L2 L1 fuel (P : Z -> rt_rbb -> Prop),
  Q = L1 ++ L2 -> (length L2 < fuel)%nat -> P (sizes (run None L2)) r ->
  wp (next_len_loop fuel ((p_blk <$> Q) !! length L1) None 0) P r.
Proof.
  intros Hh. destruct (holds_buf _ _ _ Hh) as (_ & _ & Hlo & Hhi).
  induction L2 as [|p L2 IH]; intros L1 fuel P EQ Hf HP; (destruct fuel as [|fuel]; [cbn in Hf; lia|]); cbn [next_len_loop].
  - rewrite lookup_ge_None_2 by (rewrite length_fmap, EQ, app_nil_r; lia). by wp_step.
  - assert (Ep : (p_blk <$> Q) !! length L1 = Some (p_blk p)). { rewrite list_lookup_fmap, EQ, list_lookup_middle by done. done. }
    rewrite Ep. assert (Hp : p ∈ Q) by (rewrite EQ; apply elem_of_app; right; by left).
    wp_step. apply (wp_piece r Q T p _ Hh); [apply elem_of_app; by left|]. intros b Hb Es Eb Ez. wp_step.
    apply (wp_next (p_blk <$> Q) (S (length L1))); [apply (holds_chain _ _ _ Hh)|by exists (p_blk p)|]. rewrite Es, Ez.
    cbn [run] in HP. unfold is_put in HP. pose proof (piece_inside r Q T p Hh Hp) as Hin. unfold inside in Hin. cbn in Hin.
    case_decide as Hput.
    + rewrite bool_decide_eq_true_2 in HP by done. rewrite wrap_small by lia. apply (wp_next_len_run r Q T Hh L2 L1 p); [done|cbn in Hf; lia|lia|]. done.
    + rewrite bool_decide_eq_false_2 in HP by done. replace (S (length L1)) with (length (L1 ++ [p])) by (rewrite length_app; cbn; lia).
      apply IH; [by rewrite <- (assoc_L (++))|cbn in Hf; lia|done].
Qed.
Lemma wp_rt_rbb_next_blk_queue_len r Q T (P : Z -> rt_rbb -> Prop) : holds r Q T -> P (sizes (run None Q)) r -> wp rt_rbb_next_blk_queue_len P r.
Proof.
  intros Hh HP. unfold rt_rbb_next_blk_queue_len. wp_step. pose proof (holds_chain _ _ _ Hh) as Hc. eapply wp_isempty; [exact Hc|].
  case_bool_decide as E.
  - wp_step. by apply fmap_nil_inv in E as ->.
  - wp_step. apply (wp_next (p_blk <$> Q) 0); [done|done|]. wp_step. apply wp_turns. pose proof (chained_short _ _ Hc) as Hs. rewrite length_fmap in Hs.
    apply (wp_next_len_skip r Q T Hh Q []); [done|lia|done].
Qed.

(** Taking a block off the list and marking it: its pointer still leads on. *)
Lemma wp_take_out {A} r L1 p L3 T (k : option nat -> R A) (P : A -> rt_rbb -> Prop) : holds r (L1 ++ p :: L3) T ->
  (forall r', holds r' (L1 ++ L3) (T ++ [with_status RT_RBB_BLK_GET p]) -> wp (k ((p_blk <$> L3) !! 0%nat)) P r') ->
  wp (rt_slist_remove Head (p_blk p) ;; upd_blk (p_blk p) (set_status RT_RBB_BLK_GET) ;; next ← rt_slist_next (Node (p_blk p)); k next) P r.
Proof.
  intros Hh HP. pose proof (holds_split _ _ _ _ _ Hh) as Hd. pose proof (holds_chain _ _ _ Hh) as Hc. rewrite fmap_app, fmap_cons in Hc.
  destruct (holds_piece _ _ _ Hh p (on_list _ _ _ _)) as [Hi _].
  wp_step. apply (wp_remove (p_blk <$> L1) (p_blk p) (p_blk <$> L3)); [done|]. intros r1 Hc1 (Ev1 & Ev2 & Ev3 & Ev4) (b & b1 & Hb & Hb1 & En).
  assert (Eb1 : info b1 = entry p). { assert (E : infos r1 !! p_blk p = Some (info b1)) by (unfold infos; by rewrite list_lookup_fmap, Hb1). congruence. }
  destruct (chain_next _ _ Hc (length (p_blk <$> L1)) (p_blk p)) as (b' & Hb' & En'); [by apply list_lookup_middle|].
  assert (b' = b) as -> by congruence.
  wp_step. apply (wp_upd_blk _ b1); [done|]. wp_step. cbn [rt_slist_next]. wp_step.
  apply (wp_get_blk _ (set_status RT_RBB_BLK_GET b1)); [by apply list_lookup_insert_eq; eapply lookup_lt_Some|]. wp_step.
  replace (list_next (set_status RT_RBB_BLK_GET b1)) with ((p_blk <$> L3) !! 0%nat).
  2:{ cbn. rewrite En, En', lookup_app_r by lia. by replace (S (length (p_blk <$> L1)) - length (p_blk <$> L1))%nat with 1%nat by lia. }
  apply HP. rewrite <- fmap_app in Hc1. injection Eb1 as E1 E2 E3.
  assert (Hlt : (p_blk p < length (infos r))%nat) by by eapply lookup_lt_Some.
  assert (Hperm : p_blk <$> (L1 ++ L3) ++ (T ++ [with_status RT_RBB_BLK_GET p]) ≡ₚ p_blk <$> L1 ++ p :: (L3 ++ T)).
  { rewrite !fmap_app, (fmap_cons p_blk p), fmap_app. change (p_blk <$> [with_status RT_RBB_BLK_GET p]) with [p_blk p]. solve_Permutation. }
  split.
  - by apply (chained_insert _ _ _ b1).
  - by rewrite Hperm.
  - intros q Hq. rewrite infos_update, Ev4. rewrite (assoc_L (++)) in Hq. apply elem_of_app in Hq as [Hq|Hq%list_elem_of_singleton].
    + rewrite <- (assoc_L (++)) in Hq. rewrite list_lookup_insert_ne by (intros E; by apply (others_ne _ _ _ _ Hd Hq)).
      apply (holds_piece _ _ _ Hh). rewrite <- (assoc_L (++)). rewrite elem_of_app in *. cbn. rewrite elem_of_cons. tauto.
    + subst q. cbn [p_blk with_status]. rewrite list_lookup_insert_eq by done. unfold info, entry. cbn. by rewrite E2, E3.
  - intros q [Hq|Hq%list_elem_of_singleton]%elem_of_app; [by apply (holds_taken _ _ _ Hh)|by subst q].
  - intros i x Hx. rewrite Hperm in Hx. rewrite infos_update, Ev4. rewrite list_lookup_insert_ne.
    + apply (holds_free _ _ _ Hh). by rewrite <- (assoc_L (++)).
    + intros <-. apply Hx. rewrite fmap_app. apply elem_of_app. right. by left.
  - cbn. rewrite length_insert, (infos_length _ _ Ev4), Ev3. apply (holds_set _ _ _ Hh).
  - cbn. rewrite Ev1, Ev2. apply (holds_buf _ _ _ Hh).
  - apply (layout_without L1 p). apply (holds_layout _ _ _ Hh).
Qed.

Lemma wp_queue_get_run limit : forall L3 L1 last T r fuel total q (P : Z * rt_rbb_blk_queue -> rt_rbb -> Prop),
  holds r (L1 ++ L3) T -> with_status RT_RBB_BLK_GET last ∈ T -> layout lo hi (area <$> L1 ++ last :: L3) ->
  (length L3 < fuel)%nat -> 0 <= total <= p_buf last + p_size last - lo ->
  0 <= blk_num q -> blk_num q + Z.of_nat (length L3) < 2 ^ 32 ->
  (forall r', holds r' (L1 ++ drop (length (follow (Some limit) last total L3)) L3) (T ++ taken (follow (Some limit) last total L3)) ->
     P (total + sizes (follow (Some limit) last total L3), mkQueue (blocks q) (blk_num q + Z.of_nat (length (follow (Some limit) last total L3)))) r') ->
  wp (queue_get_loop fuel limit ((p_blk <$> L3) !! 0%nat) (Some (p_blk last)) total q) P r.
Proof.
  induction L3 as [|p L3 IH]; intros L1 last T r fuel total [fst num] P Hh Hlast Hl Hf Ht Hn0 Hn HP; (destruct fuel as [|fuel]; [cbn in Hf; lia|]);
    cbn [queue_get_loop fmap list_fmap lookup list_lookup]; cbn [follow blocks blk_num sizes foldr drop length] in *.
  { wp_step. rewrite !Z.add_0_r in HP. apply HP. rewrite fmap_nil, (app_nil_r T). exact Hh. }
  assert (Hend : wp (mret (total, mkQueue fst num)) P r \/ is_put p && (p_buf last <=? p_buf p) && within (Some limit) (total + p_size p) = true).
  { destruct (_ && _ && _) in HP |- *; [by right|left]. wp_step. cbn in HP. rewrite !Z.add_0_r in HP. apply HP. rewrite (app_nil_r T). exact Hh. }
  destruct (holds_buf _ _ _ Hh) as (_ & _ & Hlo & Hhi).
  wp_step. apply (wp_piece r _ T p _ Hh); [apply on_list|]. intros b Hb Es Eb Ez. wp_step.
  apply (wp_piece r _ T (with_status RT_RBB_BLK_GET last) _ Hh); [apply elem_of_app; by right|]. intros bl Hbl _ Ebl _. rewrite Es, Eb, Ez, Ebl. cbn [p_buf with_status].
  unfold is_put, within in *. rewrite (Z.ltb_antisym (p_buf last)).
  destruct (bool_decide (p_status p = RT_RBB_BLK_PUT)) eqn:Ep; cbn [negb andb orb] in *; [|by destruct Hend].
  destruct (Z.leb_spec (p_buf last) (p_buf p)) as [Hle|Hgt]; cbn [negb andb orb] in *; [|by destruct Hend].
  pose proof (adjacent L1 last p L3 Hl Hle) as Hadj. rewrite (wrap_small 32 (total + p_size p)), Z.ltb_antisym by lia.
  destruct (Z.leb_spec (total + p_size p) limit) as [Hlim|Hlim]; cbn [negb] in *; [|by destruct Hend].
  apply (wp_take_out r L1 p L3 T); [done|]. intros r1 Hh1. rewrite (wrap_small 32 (num + 1)) by lia.
  apply (IH L1 p (T ++ [with_status RT_RBB_BLK_GET p])); cbn [blk_num blocks]; try done; try lia.
  - apply elem_of_app. right. by left.
  - apply (layout_without L1 last). done.
  - intros r' Hh'. cbn [sizes foldr length drop] in HP. rewrite Z.add_assoc in HP.
    replace (num + 1 + Z.of_nat (length (follow (Some limit) p (total + p_size p) L3))) with (num + Z.of_nat (S (length (follow (Some limit) p (total + p_size p) L3)))) by lia.
    apply HP. rewrite fmap_cons. by rewrite <- (assoc_L (++)) in Hh'.
Qed.

(** The run that a queue gets: where it lies in the list. *)
Definition run_at (limit : option Z) (Q L1 R L3 : list piece) : Prop :=
  Q = L1 ++ R ++ L3 /\ R = run limit Q /\ Forall (fun p => p_status p ≠ RT_RBB_BLK_PUT) L1.

Lemma wp_queue_get_skip limit r Q T : holds r Q T -> forall L2 L1 fuel q (P : Z * rt_rbb_blk_queue -> rt_rbb -> Prop),
  Q = L1 ++ L2 -> Forall (fun p => p_status p ≠ RT_RBB_BLK_PUT) L1 -> (length L2 < fuel)%nat -> run (Some limit) Q = run (Some limit) L2 ->
  (run (Some limit) Q = [] -> P (0, q) r) ->
  (forall L1 p R L3 r', run_at (Some limit) Q L1 (p :: R) L3 -> holds r' (L1 ++ L3) (T ++ taken (p :: R)) ->
     P (sizes (p :: R), mkQueue (Some (p_blk p)) (Z.of_nat (length (p :: R)))) r') ->
  wp (queue_get_loop fuel limit ((p_blk <$> Q) !! length L1) None 0 q) P r.
Proof.
  intros Hh. destruct (holds_buf _ _ _ Hh) as (_ & _ & Hlo & Hhi). destruct (holds_set _ _ _ Hh) as (_ & _ & Hm).
  induction L2 as [|p L2 IH]; intros L1 fuel q P EQ Hn Hf Er Hnone Hsome; (destruct fuel as [|fuel]; [cbn in Hf; lia|]); cbn [queue_get_loop].
  { rewrite lookup_ge_None_2 by (rewrite length_fmap, EQ, app_nil_r; lia). wp_step. by apply Hnone. }
  assert (Ep : (p_blk <$> Q) !! length L1 = Some (p_blk p)). { rewrite list_lookup_fmap, EQ, list_lookup_middle by done. done. }
  assert (Hp : p ∈ Q) by (rewrite EQ; apply elem_of_app; right; by left). rewrite Ep. wp_step.
  apply (wp_piece r Q T p _ Hh); [apply elem_of_app; by left|]. intros b Hb Es Eb Ez. rewrite Es, Ez. cbn [run] in Er. unfold is_put in Er.
  pose proof (piece_inside r Q T p Hh Hp) as Hin. unfold inside in Hin. cbn in Hin. destruct (decide (p_status p = RT_RBB_BLK_PUT)) as [Hput|Hput].
  - rewrite bool_decide_eq_true_2 in Er by done. cbn [blocks blk_num]. pose proof (ids_bound _ _ _ Hh) as Hids.
    rewrite EQ, !length_app in Hids. cbn [length] in Hids. pose proof Hh as Hh0. rewrite EQ in Hh0.
    apply (wp_take_out r L1 p L2 T _ _ Hh0). intros r1 Hh1. rewrite !wrap_small by lia.
    apply (wp_queue_get_run limit L2 L1 p (T ++ [with_status RT_RBB_BLK_GET p])); cbn [blk_num blocks]; try done; try lia; try (cbn in Hf; lia).
    + apply elem_of_app. right. by left.
    + apply (holds_layout _ _ _ Hh0).
    + intros r' Hh'. replace (0 + 1 + Z.of_nat (length (follow (Some limit) p (0 + p_size p) L2))) with (Z.of_nat (length (p :: follow (Some limit) p (0 + p_size p) L2))) by (cbn; lia).
      change (0 + p_size p) with (p_size p) in *.
      apply (Hsome L1 p (follow (Some limit) p (p_size p) L2) (drop (length (follow (Some limit) p (p_size p) L2)) L2)).
      * split_and!; [|done|done]. rewrite EQ. cbn [app]. do 2 f_equal. apply follow_prefix.
      * rewrite fmap_cons. by rewrite <- (assoc_L (++)) in Hh'.
  - rewrite bool_decide_eq_false_2 in Er by done. cbn zeta. wp_step. apply (wp_next (p_blk <$> Q) (S (length L1))); [apply (holds_chain _ _ _ Hh)|by exists (p_blk p)|].
    replace (S (length L1)) with (length (L1 ++ [p])) by (rewrite length_app; cbn; lia).
    apply IH; try done; [by rewrite <- (assoc_L (++))| |cbn in Hf; lia]. apply Forall_app. by repeat constructor.
Qed.
Lemma wp_rt_rbb_blk_queue_get limit r Q T q (P : Z * rt_rbb_blk_queue -> rt_rbb -> Prop) : holds r Q T ->
  (run (Some limit) Q = [] -> P (0, q) r) ->
  (forall L1 p R L3 r', run_at (Some limit) Q L1 (p :: R) L3 -> holds r' (L1 ++ L3) (T ++ taken (p :: R)) ->
     P (sizes (p :: R), mkQueue (Some (p_blk p)) (Z.of_nat (length (p :: R)))) r') ->
  wp (rt_rbb_blk_queue_get limit q) P r.
Proof.
  intros Hh Hnone Hsome. unfold rt_rbb_blk_queue_get. wp_step. pose proof (holds_chain _ _ _ Hh) as Hc. eapply wp_isempty; [exact Hc|].
  case_bool_decide as E.
  - wp_step. apply Hnone. by apply fmap_nil_inv in E as ->.
  - wp_step. apply (wp_next (p_blk <$> Q) 0); [done|done|]. wp_step. apply wp_turns. pose proof (chained_short _ _ Hc) as Hs. rewrite length_fmap in Hs.
    apply (wp_queue_get_skip limit r Q T Hh Q []); try done. lia.
Qed.

(** The blocks of a queue that follow each other in the set, too: their lengths, and giving them back. *)
Lemma wp_queue_len_loop r Q T q first : holds r Q T -> blocks q = Some first -> forall R i fuel total (P : Z -> rt_rbb -> Prop),
  p_blk <$> R = seq (first + i) (length R) -> (forall p, p ∈ R -> p ∈ Q ++ T) -> blk_num q = Z.of_nat (i + length R) ->
  (length R < fuel)%nat -> 0 <= total -> Forall (fun p => 0 <= p_size p) R -> total + sizes R < 2 ^ 32 ->
  P (total + sizes R) r -> wp (queue_len_loop fuel (Z.of_nat i) q total) P r.
Proof.
  intros Hh Eq. induction R as [|p R IH]; intros i fuel total P Hseq Hin Hn Hf Ht Hpos Hs HP; (destruct fuel as [|fuel]; [cbn in Hf; lia|]); cbn [queue_len_loop].
  - rewrite (proj2 (Z.ltb_ge _ _)) by (cbn in Hn; lia). wp_step. cbn in HP. by rewrite Z.add_0_r in HP.
  - cbn [length] in Hn, Hf. rewrite (proj2 (Z.ltb_lt _ _)) by lia. cbn in Hseq. injection Hseq as E1 E2. wp_step. apply (wp_deref _ first); [done|].
    rewrite Nat2Z.id, <- E1. wp_step. apply (wp_piece r Q T p _ Hh); [apply Hin; by left|]. intros b _ _ _ Ez. rewrite Ez.
    apply Forall_cons in Hpos as [Hp Hpos]. cbn [sizes foldr] in Hs, HP. fold (sizes R) in Hs, HP.
    assert (0 <= sizes R). { clear -Hpos. induction Hpos; cbn; [done|]. unfold sizes in *. lia. }
    rewrite wrap_small by lia. replace (Z.of_nat i + 1) with (Z.of_nat (S i)) by lia.
    apply IH; try done; try lia; [by rewrite E2, Nat.add_succ_r|intros x Hx; apply Hin; by right|by rewrite <- Z.add_assoc].
Qed.
Lemma wp_queue_free_loop q first Q : blocks q = Some first -> forall R i fuel T1 T2 r (P : unit -> rt_rbb -> Prop),
  holds r Q (T1 ++ R ++ T2) -> p_blk <$> R = seq (first + i) (length R) -> blk_num q = Z.of_nat (i + length R) -> (length R < fuel)%nat ->
  (forall r', holds r' Q (T1 ++ T2) -> P tt r') -> wp (queue_free_loop fuel (Z.of_nat i) q) P r.
Proof.
  intros Eq. induction R as [|p R IH]; intros i fuel T1 T2 r P Hh Hseq Hn Hf HP; (destruct fuel as [|fuel]; [cbn in Hf; lia|]); cbn [queue_free_loop].
  - rewrite (proj2 (Z.ltb_ge _ _)) by (cbn in Hn; lia). wp_step. by apply HP.
  - cbn [length] in Hn, Hf. rewrite (proj2 (Z.ltb_lt _ _)) by lia. cbn in Hseq. injection Hseq as E1 E2. wp_step. apply (wp_deref _ first); [done|].
    rewrite Nat2Z.id, <- E1. wp_step. apply (wp_free_taken r Q T1 p (R ++ T2)); [done|]. intros r1 Hh1.
    replace (Z.of_nat i + 1) with (Z.of_nat (S i)) by lia. apply (IH (S i) fuel T1 T2); try done; try lia. by rewrite E2, Nat.add_succ_r.
Qed.

Lemma follow_bound limit : forall L3 L1 last total, layout lo hi (area <$> L1 ++ last :: L3) ->
  total <= p_buf last + p_size last - lo -> p_buf last + p_size last <= hi -> total + sizes (follow limit last total L3) <= hi - lo.
Proof.
  induction L3 as [|p L3 IH]; intros L1 last total Hl Ht Hhi; cbn [follow sizes foldr]; [lia|].
  destruct (is_put p); cbn [andb foldr]; [|lia]. destruct (Z.leb_spec (p_buf last) (p_buf p)) as [Hle|]; cbn [andb foldr]; [|lia].
  destruct (within limit (total + p_size p)); cbn [foldr]; [|lia]. destruct (adjacent L1 last p L3 Hl Hle) as (H1 & _ & _ & H4).
  pose proof (IH L1 p (total + p_size p) (layout_without L1 last (p :: L3) Hl)) as H. unfold sizes in H. lia.
Qed.
Lemma run_bound limit : forall L2 L1, layout lo hi (area <$> L1 ++ L2) -> 0 <= hi - lo -> sizes (run limit L2) <= hi - lo.
Proof.
  induction L2 as [|p L2 IH]; intros L1 Hl Hlo; cbn [run sizes foldr]; [done|]. destruct (is_put p); cbn [foldr].
  - pose proof Hl as [Hin _]. rewrite fmap_app, fmap_cons in Hin. apply Forall_app in Hin as [_ Hin]. apply Forall_cons in Hin as [(H1 & H2 & H3) _].
    cbn in H1, H2, H3. pose proof (follow_bound limit L2 L1 p (p_size p) Hl). unfold sizes in *. lia.
  - apply (IH (L1 ++ [p])); [by rewrite <- (assoc_L (++))|done].
Qed.

Lemma sizes_taken R : sizes (taken R) = sizes R.
Proof. induction R as [|p R IH]; [done|]. cbn. unfold sizes in *. by rewrite IH. Qed.
Lemma ids_taken (R : list piece) : p_blk <$> taken R = p_blk <$> R.
Proof. by rewrite <- list_fmap_compose. Qed.

(** Getting a queue, asking its length and giving it back. *)
Lemma wp_queue_use r Q T limit q first (P : Z * Z -> rt_rbb -> Prop) : holds r Q T -> run (Some limit) Q ≠ [] ->
  p_blk <$> run (Some limit) Q = seq first (length (run (Some limit) Q)) ->
  (forall L1 L3 r', run_at (Some limit) Q L1 (run (Some limit) Q) L3 -> holds r' (L1 ++ L3) T ->
     P (sizes (run (Some limit) Q), sizes (run (Some limit) Q)) r') ->
  wp (x ← rt_rbb_blk_queue_get limit q; m ← rt_rbb_blk_queue_len x.2; rt_rbb_blk_queue_free x.2 ;; mret (x.1, m)) P r.
Proof.
  intros Hh Hne Hseq HP. destruct (holds_buf _ _ _ Hh) as (_ & _ & Hlo & Hhi).
  wp_step. apply (wp_rt_rbb_blk_queue_get limit r Q T q _ Hh); [done|]. intros L1 p R L3 r1 Hat Hh1. pose proof Hat as (EQ & ER & _).
  rewrite <- ER in Hseq, HP. assert (Ep : p_blk p = first) by (cbn in Hseq; congruence). cbn [fst snd]. clear Hne.
  assert (Hlen : (length (p :: R) <= max)%nat). { pose proof (ids_bound _ _ _ Hh) as Hb. rewrite EQ, !length_app in Hb. lia. }
  destruct (holds_set _ _ _ Hh1) as (El & _).
  assert (Hpos : Forall (fun x => 0 <= p_size x) (taken (p :: R))).
  { apply Forall_fmap, Forall_forall. intros x Hx. assert (HxQ : x ∈ Q) by (rewrite EQ; rewrite !elem_of_app; tauto).
    pose proof (piece_inside r Q T x Hh HxQ) as Hin. unfold inside in Hin. cbn in *. lia. }
  assert (Hsz : sizes (p :: R) <= hi - lo) by (rewrite ER; apply (run_bound (Some limit) Q []); [apply (holds_layout _ _ _ Hh)|lia]).
  assert (Hids : p_blk <$> taken (p :: R) = seq (p_blk p + 0) (length (taken (p :: R)))).
  { rewrite ids_taken, Hseq, length_fmap, Nat.add_0_r. by subst first. }
  wp_step. unfold rt_rbb_blk_queue_len. wp_step. apply wp_turns.
  apply (wp_queue_len_loop r1 _ _ (mkQueue (Some (p_blk p)) (Z.of_nat (length (p :: R)))) (p_blk p) Hh1 eq_refl (taken (p :: R)) 0); try done; try (rewrite sizes_taken; lia).
  { intros x Hx. rewrite !elem_of_app. tauto. }
  { cbn [blk_num]. by rewrite length_fmap. }
  { rewrite length_fmap. lia. }
  wp_step. unfold rt_rbb_blk_queue_free. wp_step. apply wp_turns.
  apply (wp_queue_free_loop (mkQueue (Some (p_blk p)) (Z.of_nat (length (p :: R)))) (p_blk p) (L1 ++ L3) eq_refl (taken (p :: R)) 0 _ T []); try done.
  { by rewrite app_nil_r. }
  { cbn [blk_num]. by rewrite length_fmap. }
  { rewrite length_fmap. lia. }
  intros r2 Hh2. wp_step. rewrite sizes_taken. cbn [Z.add]. rewrite app_nil_r in Hh2. by apply (HP L1 L3).
Qed.
End pieces.

(** ** Setting up *)

Lemma wp_unused_loop max buf size : forall fuel i r (P : unit -> rt_rbb -> Prop), (max - i < fuel)%nat -> (i <= max)%nat ->
  rbb_buf r = buf -> rbb_buf_size r = size -> blk_max_num r = Z.of_nat max -> blk_list r = None -> length (blk_set r) = max ->
  (forall j b, (j < i)%nat -> blk_set r !! j = Some b -> blk_status b = RT_RBB_BLK_UNUSED) ->
  (forall r', rbb_buf r' = buf -> rbb_buf_size r' = size -> blk_max_num r' = Z.of_nat max -> blk_list r' = None -> length (blk_set r') = max ->
     (forall j b, blk_set r' !! j = Some b -> blk_status b = RT_RBB_BLK_UNUSED) -> P tt r') ->
  wp (unused_loop fuel i (Z.of_nat max)) P r.
Proof.
  induction fuel as [|fuel IH]; intros i r P Hf Hi E1 E2 E3 E4 E5 Hu HP; [lia|]. cbn [unused_loop].
  destruct (Z.ltb_spec (Z.of_nat i) (Z.of_nat max)) as [Hlt|Hge].
  - destruct (lookup_lt_is_Some_2 (blk_set r) i) as [b Hb]; [lia|]. wp_step. apply (wp_upd_blk i b); [done|].
    apply IH; try done; try lia; [by cbn; rewrite length_insert|]. intros j c Hj. cbn. destruct (decide (i = j)) as [<-|Hij].
    + rewrite list_lookup_insert_eq by lia. by intros [= <-].
    + rewrite list_lookup_insert_ne by done. apply Hu. lia.
  - wp_step. apply HP; try done. intros j b Hj. apply (Hu j b); [|done]. apply lookup_lt_Some in Hj. lia.
Qed.
Lemma wp_rt_rbb_init buf size set r0 (P : unit -> rt_rbb -> Prop) : 0 < buf -> 0 <= size -> buf + size < 2 ^ 32 -> Z.of_nat (length set) < 2 ^ 32 ->
  (forall r, holds buf (buf + size) (length set) r [] [] -> P tt r) -> wp (rt_rbb_init buf size (Some set) (Z.of_nat (length set))) P r0.
Proof.
  intros Hb Hs Hbs Hn HP. unfold rt_rbb_init. wp_step. wp_step; [by rewrite (proj2 (Z.eqb_neq _ _)) by lia|]. wp_step. apply (wp_deref _ set); [done|].
  wp_step. wp_step. wp_step. wp_step. wp_step. unfold rt_slist_init, set_next. wp_step. wp_step. apply wp_turns. cbn [blk_set set_blk_list].
  apply (wp_unused_loop (length set) buf size); try done; try lia. intros r E1 E2 E3 E4 E5 Hu. apply HP. split; try done.
  - split; [done|done|constructor].
  - constructor.
  - intros p Hp. by apply elem_of_nil in Hp.
  - intros p Hp. by apply elem_of_nil in Hp.
  - intros i x _ Hx. apply infos_lookup in Hx as (b & Hb' & <-). by apply (Hu i).
  - rewrite E1, E2. lia.
  - apply layout_nil.
Qed.

(** ** The specification *)

Inductive op :=
  | OAlloc (blk_size : Z) (res : option nat)
  | OPut (block : nat)
  | OGet (res : option nat)
  | OFree (block : nat)
  | ONextLen (n : Z)
  | OQueueGet (queue_data_len : Z) (q : rt_rbb_blk_queue) (n : Z) (q' : rt_rbb_blk_queue).

Definition none_put (L : list piece) : Prop := Forall (fun p => p_status p ≠ RT_RBB_BLK_PUT) L.

Inductive ring (lo hi : Z) (max : nat) : list piece * list piece -> op -> list piece * list piece -> Prop :=
  | ring_alloc Q T n i a : (i < max)%nat -> i ∉ p_blk <$> Q ++ T -> layout lo hi ((area <$> Q) ++ [(a, n)]) ->
      ring lo hi max (Q, T) (OAlloc n (Some i)) (Q ++ [mkPiece i RT_RBB_BLK_INITED a n], T)
  | ring_refuse Q T n : length (Q ++ T) = max \/ (forall a, ~ layout lo hi ((area <$> Q) ++ [(a, n)])) ->
      ring lo hi max (Q, T) (OAlloc n None) (Q, T)
  | ring_put L1 p L2 T : p_status p = RT_RBB_BLK_INITED ->
      ring lo hi max (L1 ++ p :: L2, T) (OPut (p_blk p)) (L1 ++ with_status RT_RBB_BLK_PUT p :: L2, T)
  | ring_get L1 p L2 T : none_put L1 -> p_status p = RT_RBB_BLK_PUT ->
      ring lo hi max (L1 ++ p :: L2, T) (OGet (Some (p_blk p))) (L1 ++ with_status RT_RBB_BLK_GET p :: L2, T)
  | ring_get_none Q T : none_put Q -> ring lo hi max (Q, T) (OGet None) (Q, T)
  | ring_free L1 p L2 T : ring lo hi max (L1 ++ p :: L2, T) (OFree (p_blk p)) (L1 ++ L2, T)
  | ring_free_taken Q T1 p T2 : ring lo hi max (Q, T1 ++ p :: T2) (OFree (p_blk p)) (Q, T1 ++ T2)
  | ring_next_len Q T : ring lo hi max (Q, T) (ONextLen (sizes (run None Q))) (Q, T)
  | ring_queue_get limit Q T L1 p R L3 q : run_at (Some limit) Q L1 (p :: R) L3 ->
      ring lo hi max (Q, T) (OQueueGet limit q (sizes (p :: R)) (mkQueue (Some (p_blk p)) (Z.of_nat (length (p :: R)))))
        (L1 ++ L3, T ++ taken (p :: R))
  | ring_queue_none limit Q T q : run (Some limit) Q = [] -> ring lo hi max (Q, T) (OQueueGet limit q 0 q) (Q, T).

(** The calls that return; a block to allocate is not empty and not larger than the buffer. *)
Inductive rbb_step (size : Z) (r : rt_rbb) : op -> rt_rbb -> Prop :=
  | rs_alloc n res r' : 0 < n < 2 ^ 24 -> n <= size -> rt_rbb_blk_alloc n r = Some (res, r') -> rbb_step size r (OAlloc n res) r'
  | rs_put i r' : rt_rbb_blk_put i r = Some (tt, r') -> rbb_step size r (OPut i) r'
  | rs_get res r' : rt_rbb_blk_get r = Some (res, r') -> rbb_step size r (OGet res) r'
  | rs_free i r' : rt_rbb_blk_free i r = Some (tt, r') -> rbb_step size r (OFree i) r'
  | rs_next_len n r' : rt_rbb_next_blk_queue_len r = Some (n, r') -> rbb_step size r (ONextLen n) r'
  | rs_queue_get limit q n q' r' : rt_rbb_blk_queue_get limit q r = Some ((n, q'), r') -> rbb_step size r (OQueueGet limit q n q') r'.

(** None but putting and freeing can fail. *)
Definition returns (size : Z) (r : rt_rbb) : Prop :=
  (forall n, 0 < n < 2 ^ 24 -> n <= size -> is_Some (rt_rbb_blk_alloc n r)) /\ is_Some (rt_rbb_blk_get r) /\
  is_Some (rt_rbb_next_blk_queue_len r) /\ (forall limit q, is_Some (rt_rbb_blk_queue_get limit q r)).

Section refinement.
Context (lo size : Z) (max : nat).

(** The block put, and the one freed, are known. *)
Lemma used_piece r Q T i b : holds lo (lo + size) max r Q T -> blk_set r !! i = Some b -> blk_status b ≠ RT_RBB_BLK_UNUSED ->
  exists p, p ∈ Q ++ T /\ i = p_blk p /\ p_status p = blk_status b.
Proof.
  intros Hh Hb Hu. assert (Hi : infos r !! i = Some (info b)) by (unfold infos; by rewrite list_lookup_fmap, Hb).
  destruct (decide (i ∈ p_blk <$> Q ++ T)) as [(p & -> & Hp)%list_elem_of_fmap|Hn].
  - exists p. split; [done|]. split; [done|]. destruct (holds_piece _ _ _ _ _ _ Hh p Hp) as [E _]. rewrite Hi in E. by injection E as E _ _.
  - by destruct (Hu (holds_free _ _ _ _ _ _ Hh i _ Hn Hi)).
Qed.
Lemma put_known r r' Q T i : holds lo (lo + size) max r Q T -> rt_rbb_blk_put i r = Some (tt, r') ->
  exists L1 p L2, Q = L1 ++ p :: L2 /\ i = p_blk p /\ p_status p = RT_RBB_BLK_INITED.
Proof.
  intros Hh. unfold rt_rbb_blk_put, mbind, M_bind, get_blk, deref. destruct (blk_set r !! i) as [b|] eqn:Hb; [|done]. unfold rt_assert.
  case_bool_decide as Hs; [|done]. intros _. destruct (used_piece r Q T i b Hh Hb) as (p & Hp & -> & E); [congruence|].
  apply elem_of_app in Hp as [Hp|Hp]; [|apply (holds_taken _ _ _ _ _ _ Hh) in Hp; congruence].
  apply list_elem_of_split in Hp as (L1 & L2 & ->). exists L1, p, L2. split_and!; congruence.
Qed.
Lemma free_known r r' Q T i : holds lo (lo + size) max r Q T -> rt_rbb_blk_free i r = Some (tt, r') -> exists p, (p ∈ Q \/ p ∈ T) /\ i = p_blk p.
Proof.
  intros Hh. unfold rt_rbb_blk_free, mbind, M_bind, get_blk, deref. destruct (blk_set r !! i) as [b|] eqn:Hb; [|done]. unfold rt_assert.
  case_bool_decide as Hs; [done|]. intros _. destruct (used_piece r Q T i b Hh Hb Hs) as (p & Hp%elem_of_app & -> & _). by exists p.
Qed.

(** Where the specification can go with [l], and the ring with it. *)
Definition reaches (Q T : list piece) (l : op) (r' : rt_rbb) : Prop :=
  exists Q' T', ring lo (lo + size) max (Q, T) l (Q', T') /\ holds lo (lo + size) max r' Q' T'.
Lemma reach Q T l r' Q' T' : ring lo (lo + size) max (Q, T) l (Q', T') -> holds lo (lo + size) max r' Q' T' -> reaches Q T l r'.
Proof. intros. by exists Q', T'. Qed.

Lemma step_refines r Q T l r' : holds lo (lo + size) max r Q T -> rbb_step size r l r' -> reaches Q T l r'.
Proof.
  intros Hh Hstep. destruct Hstep as [n res r' Hn Hs E|i r' E|res r' E|i r' E|n r' E|limit q n q' r' E].
  - refine (wp_result _ (fun res => reaches Q T (OAlloc n res)) _ _ _ _ E). apply (wp_rt_rbb_blk_alloc _ _ _ _ Q T n _ Hh Hn); [lia| |].
    + intros i a r1 Hi Hiq Hl Hh1. by eapply reach; [apply ring_alloc|].
    + intros Hno. by eapply reach; [apply ring_refuse|].
  - destruct (put_known r r' Q T i Hh E) as (L1 & p & L2 & -> & -> & Hp).
    refine (wp_result _ (fun _ => reaches _ _ _) _ _ _ _ E). apply (wp_rt_rbb_blk_put _ _ _ _ L1 p L2 T _ Hh Hp).
    intros r1 Hh1. by eapply reach; [apply ring_put|].
  - refine (wp_result _ (fun res => reaches Q T (OGet res)) _ _ _ _ E). apply (wp_rt_rbb_blk_get _ _ _ _ Q T _ Hh).
    + intros Hno. by eapply reach; [apply ring_get_none|].
    + intros L1 p L2 r1 -> Hno Hp Hh1. by eapply reach; [apply ring_get|].
  - destruct (free_known r r' Q T i Hh E) as (p & [Hp|Hp] & ->); apply list_elem_of_split in Hp as (L1 & L2 & ->);
      refine (wp_result _ (fun _ => reaches _ _ _) _ _ _ _ E).
    + apply (wp_rt_rbb_blk_free _ _ _ _ L1 p L2 T _ Hh). intros r1 Hh1. by eapply reach; [apply ring_free|].
    + apply (wp_free_taken _ _ _ _ Q L1 p L2 _ Hh). intros r1 Hh1. by eapply reach; [apply ring_free_taken|].
  - refine (wp_result _ (fun n => reaches Q T (ONextLen n)) _ _ _ _ E). apply (wp_rt_rbb_next_blk_queue_len _ _ _ _ Q T _ Hh).
    by eapply reach; [apply ring_next_len|].
  - refine (wp_result _ (fun x => reaches Q T (OQueueGet limit q x.1 x.2)) _ _ _ _ E).
    apply (wp_rt_rbb_blk_queue_get _ _ _ limit _ Q T q _ Hh).
    + intros Hno. by eapply reach; [apply ring_queue_none|].
    + intros L1 p R L3 r1 Hr Hh1. by eapply reach; [apply ring_queue_get|].
Qed.

Lemma run_refines r Q T tr r' : holds lo (lo + size) max r Q T -> steps (rbb_step size) r tr r' ->
  exists Q' T', steps (ring lo (lo + size) max) (Q, T) tr (Q', T') /\ holds lo (lo + size) max r' Q' T'.
Proof.
  intros Hh Hrun. revert Q T Hh. induction Hrun as [r|r l r1 tr r' Hstep _ IH]; intros Q T Hh.
  - exists Q, T. split; [constructor|done].
  - destruct (step_refines r Q T l r1 Hh Hstep) as (Q1 & T1 & Hs & Hh1). destruct (IH Q1 T1 Hh1) as (Q' & T' & Hss & Hh').
    exists Q', T'. split; [by econstructor|done].
Qed.

Lemma holds_returns r Q T : holds lo (lo + size) max r Q T -> returns size r.
Proof.
  intros Hh. repeat split; intros; apply (wp_is_some _ (fun _ _ => True)).
  - apply (wp_rt_rbb_blk_alloc _ _ _ _ Q T n _ Hh); [done|lia|done|done].
  - by apply (wp_rt_rbb_blk_get _ _ _ _ Q T _ Hh).
  - by apply (wp_rt_rbb_next_blk_queue_len _ _ _ _ Q T _ Hh).
  - by apply (wp_rt_rbb_blk_queue_get _ _ _ limit _ Q T q _ Hh).
Qed.
Lemma holds_apart r Q T : holds lo (lo + size) max r Q T ->
  forall i j p q, Q !! i = Some p -> Q !! j = Some q -> (i < j)%nat ->
    p_buf p + p_size p <= p_buf q \/ p_buf q + p_size q <= p_buf p.
Proof.
  intros Hh i j p q Hi Hj Hij.
  apply (layout_apart lo (lo + size) (area <$> Q) i j (area p) (area q)); [apply (holds_layout _ _ _ _ _ _ Hh)| | |done].
  - by rewrite list_lookup_fmap, Hi.
  - by rewrite list_lookup_fmap, Hj.
Qed.
End refinement.


(** A queue whose blocks follow each other in the set as well as in the list is read and given back
    as what it is: its length is the one returned with it, and afterwards its blocks are unused. *)
Theorem queue_roundtrip lo hi max r Q T limit q first : holds lo hi max r Q T -> run (Some limit) Q ≠ [] ->
  p_blk <$> run (Some limit) Q = seq first (length (run (Some limit) Q)) ->
  wp (x ← rt_rbb_blk_queue_get limit q; m ← rt_rbb_blk_queue_len x.2; rt_rbb_blk_queue_free x.2 ;; mret (x.1, m))
    (fun nm r' => nm = (sizes (run (Some limit) Q), sizes (run (Some limit) Q)) /\
       exists L1 L3, run_at (Some limit) Q L1 (run (Some limit) Q) L3 /\ holds lo hi max r' (L1 ++ L3) T) r.
Proof.
  intros Hh Hne Hseq. apply (wp_queue_use lo hi max r Q T limit q first _ Hh Hne Hseq). intros L1 L3 r' Hat Hh'.
  split; [done|]. by exists L1, L3.
Qed.

(** ** Samples *)

(** A buffer of 40 bytes at 100, with three blocks. *)
Definition sample_set : list rt_rbb_blk := replicate 3 (mkRbbBlk RT_RBB_BLK_GET 7 0 None).
Definition sample_memory : rt_rbb := mkRbb 0 0 [] 0 (Some 5%nat).
Definition sample : rt_rbb := after (rt_rbb_init 100 40 (Some sample_set) 3) sample_memory.
Definition no_queue : rt_rbb_blk_queue := mkQueue None 0.
Definition sample_trace : list op :=
  [OAlloc 20 (Some 0%nat); OAlloc 15 (Some 1%nat); OAlloc 20 None; OPut 0; ONextLen 20; OGet (Some 0%nat); OFree 0; OAlloc 10 (Some 0%nat);
   OPut 1; OPut 0; OQueueGet 100 no_queue 15 (mkQueue (Some 1%nat) 1); OFree 1; OGet (Some 0%nat); OGet None].

Ltac run_step := vm_compute; reflexivity.

(** Two blocks put, one behind the other. *)
Definition sample_two : rt_rbb :=
  after (rt_rbb_blk_alloc 10 ;; rt_rbb_blk_alloc 12 ;; rt_rbb_blk_put 0 ;; rt_rbb_blk_put 1) sample.
Definition two_pieces : list piece := [mkPiece 0 RT_RBB_BLK_PUT 100 10; mkPiece 1 RT_RBB_BLK_PUT 110 12].
Lemma sample_two_holds : holds 100 140 3 sample_two two_pieces [].
Proof.
  split.
  - split; [reflexivity| |apply (bool_decide_unpack _); vm_compute; reflexivity]. intros [|[|k]] i Hi; [..|done]; injection Hi as <-; by eexists.
  - apply (bool_decide_unpack _). vm_compute. reflexivity.
  - intros p Hp. rewrite app_nil_r in Hp. repeat (apply elem_of_cons in Hp as [->|Hp]; [done|]). by apply elem_of_nil in Hp.
  - intros p Hp. by apply elem_of_nil in Hp.
  - intros i x Hi Hx. destruct i as [|[|[|i]]]; [destruct Hi; by left|destruct Hi; right; by left|by injection Hx as <-|done].
  - done.
  - done.
  - split; [repeat constructor; cbn; lia|]. exists (area <$> two_pieces), []. split; [done|]. split; [|split; [constructor|intros a b _ Hb; by apply elem_of_nil in Hb]].
    repeat constructor; unfold before; cbn; lia.
Qed.
Lemma queue_roundtrip_witness :
  wp (x ← rt_rbb_blk_queue_get 100 no_queue; m ← rt_rbb_blk_queue_len x.2; rt_rbb_blk_queue_free x.2 ;; mret (x.1, m))
    (fun nm r' => nm = (22, 22) /\ exists L1 L3, run_at (Some 100) two_pieces L1 two_pieces L3 /\ holds 100 140 3 r' (L1 ++ L3) []) sample_two.
Proof. exact (queue_roundtrip 100 140 3 sample_two two_pieces [] 100 no_queue 0 sample_two_holds ltac:(done) ltac:(reflexivity)). Defined.

(** ** What the code does not keep *)

(** The first block is not compared with the buffer: 1000 bytes are allocated in one of 40. *)
Lemma oversized_block : fst <$> (i ← rt_rbb_blk_alloc 1000; b ← gets (fun r => blk_set r !! 0%nat); mret (i, info <$> b)) sample =
  Some (Some 0%nat, Some (RT_RBB_BLK_INITED, 100, 1000)).
Proof. vm_compute. reflexivity. Qed.

(** The blocks of a queue are taken off the list at once: the next allocation gets their memory
    while they are still in use. *)
Lemma queue_memory_reused : fst <$> (q ← rt_rbb_blk_queue_get 100 no_queue; i ← rt_rbb_blk_alloc 30; r ← gets infos; mret (q, i, r)) sample_two =
  Some ((22, mkQueue (Some 0%nat) 2), Some 2%nat, [(RT_RBB_BLK_GET, 100, 10); (RT_RBB_BLK_GET, 110, 12); (RT_RBB_BLK_INITED, 100, 30)]).
Proof. vm_compute. reflexivity. Qed.

(** The blocks of a queue are taken to follow each other in the set, but the list is in the order of
    allocation: the queue of blocks 1 and 0 has 15 bytes; its length is given as 17, with block 2. *)
Lemma queue_out_of_order :
  fst <$> (rt_rbb_blk_alloc 10 ;; rt_rbb_blk_alloc 10 ;; rt_rbb_blk_free 0 ;; rt_rbb_blk_alloc 5 ;; rt_rbb_blk_put 1 ;; rt_rbb_blk_put 0 ;;
     x ← rt_rbb_blk_queue_get 100 no_queue; m ← rt_rbb_blk_queue_len x.2; mret (x, m)) sample =
  Some ((15, mkQueue (Some 1%nat) 2), 17).
Proof. vm_compute. reflexivity. Qed.

(** The limit is not applied to the first block: asked for 5 bytes at most, the queue has 10. *)
Lemma first_block_over_limit : fst <$> rt_rbb_blk_queue_get 5 no_queue sample_two = Some (10, mkQueue (Some 0%nat) 1).
Proof. vm_compute. reflexivity. Qed.

(** Blocks at rising addresses are taken to be adjacent: with the one between them freed, two blocks
    at 100 and 120 make a queue of 20 bytes from 100 on. *)
Lemma queue_with_a_hole :
  fst <$> (rt_rbb_blk_alloc 10 ;; rt_rbb_blk_alloc 10 ;; rt_rbb_blk_alloc 10 ;; rt_rbb_blk_free 1 ;; rt_rbb_blk_put 0 ;; rt_rbb_blk_put 2 ;;
     x ← rt_rbb_blk_queue_get 100 no_queue; b ← rt_rbb_blk_queue_buf x.2; r ← gets infos; mret (x.1, b, r)) sample =
  Some (20, 100, [(RT_RBB_BLK_GET, 100, 10); (RT_RBB_BLK_UNUSED, 110, 10); (RT_RBB_BLK_GET, 120, 10)]).
Proof. vm_compute. reflexivity. Qed.

(** An empty block at the address of the first one makes a full ring look as if it had not gone
    round: the block allocated then overlaps the first. *)
Lemma empty_block_overlap :
  fst <$> (rt_rbb_init 100 40 (Some (replicate 4 (mkRbbBlk RT_RBB_BLK_GET 7 0 None))) 4 ;;
     rt_rbb_blk_alloc 20 ;; rt_rbb_blk_alloc 20 ;; rt_rbb_blk_free 0 ;; rt_rbb_blk_alloc 20 ;; rt_rbb_blk_alloc 0 ;; rt_rbb_blk_alloc 15 ;;
     gets infos) sample_memory =
  Some [(RT_RBB_BLK_INITED, 100, 20); (RT_RBB_BLK_INITED, 120, 20); (RT_RBB_BLK_INITED, 120, 0); (RT_RBB_BLK_INITED, 120, 15)].
Proof. vm_compute. reflexivity. Qed.
