(* ===== verification/Mem.v ===== *)
(** * Mem: rt-thread/src/mem.c, the heap

    A first-fit allocator: blocks with a header, laid end to end, that point at each other
    by offsets, neighbouring free blocks joined when one is released.  The headers are kept
    apart from the data bytes: [hp_mem] maps the address of a header to its fields, and
    [hp_data] is the memory the blocks hold.  [heap_sem] protects the heap: the calls are
    modelled from the moment they hold it, so that its value is 1 between calls.  The
    sections are RT_USING_SMALL_MEM and RT_MEM_STATS as configured, on a 32-bit machine. *)

From S2P Require Import Prelude KService.

#[local] Open Scope Z_scope.

Definition HEAP_MAGIC : Z := 0x1ea0.
Record heap_mem := mkHm { hm_magic : Z; hm_used : Z; hm_next : Z; hm_prev : Z }.
Definition set_magic (v : Z) (m : heap_mem) : heap_mem := mkHm v (hm_used m) (hm_next m) (hm_prev m).
Definition set_used (v : Z) (m : heap_mem) : heap_mem := mkHm (hm_magic m) v (hm_next m) (hm_prev m).
Definition set_next (v : Z) (m : heap_mem) : heap_mem := mkHm (hm_magic m) (hm_used m) v (hm_prev m).
Definition set_prev (v : Z) (m : heap_mem) : heap_mem := mkHm (hm_magic m) (hm_used m) (hm_next m) v.

Definition MIN_SIZE : Z := 12.
Definition MIN_SIZE_ALIGNED : Z := RT_ALIGN MIN_SIZE RT_ALIGN_SIZE.
(** Two half words and two words. *)
Definition SIZEOF_STRUCT_MEM : Z := RT_ALIGN 12 RT_ALIGN_SIZE.

(** The file's variables and the memory they govern. *)
Record heap := mkHeap {
  heap_ptr : Z;
  hp_mem : gmap Z heap_mem;
  heap_end : Z;
  lfree : Z;
  mem_size_aligned : Z;
  used_mem : Z;
  max_mem : Z;
  heap_sem : Z;
  hp_data : KService.mem
}.
Definition set_hp_mem (g : gmap Z heap_mem -> gmap Z heap_mem) (h : heap) : heap :=
  mkHeap (heap_ptr h) (g (hp_mem h)) (heap_end h) (lfree h) (mem_size_aligned h) (used_mem h) (max_mem h) (heap_sem h) (hp_data h).
Definition set_lfree (a : Z) (h : heap) : heap :=
  mkHeap (heap_ptr h) (hp_mem h) (heap_end h) a (mem_size_aligned h) (used_mem h) (max_mem h) (heap_sem h) (hp_data h).
Definition set_used_mem (v : Z) (h : heap) : heap :=
  mkHeap (heap_ptr h) (hp_mem h) (heap_end h) (lfree h) (mem_size_aligned h) (u32 v) (max_mem h) (heap_sem h) (hp_data h).
Definition set_max_mem (v : Z) (h : heap) : heap :=
  mkHeap (heap_ptr h) (hp_mem h) (heap_end h) (lfree h) (mem_size_aligned h) (used_mem h) v (heap_sem h) (hp_data h).
Definition set_heap_sem (v : Z) (h : heap) : heap :=
  mkHeap (heap_ptr h) (hp_mem h) (heap_end h) (lfree h) (mem_size_aligned h) (used_mem h) (max_mem h) v (hp_data h).
Definition set_hp_data (d : KService.mem) (h : heap) : heap :=
  mkHeap (heap_ptr h) (hp_mem h) (heap_end h) (lfree h) (mem_size_aligned h) (used_mem h) (max_mem h) (heap_sem h) d.

Abbreviation H := (M heap).

Definition get_hm (a : Z) : H heap_mem := deref (fun h => hp_mem h !! a).
Definition upd_hm (a : Z) (f : heap_mem -> heap_mem) : H unit :=
  m ← get_hm a; modify (set_hp_mem <[a := f m]>).

(** [rt_sem_take (&heap_sem, RT_WAITING_FOREVER)] where it does not wait, and its release *)
Definition take_heap_sem : H unit :=
  v ← gets heap_sem; rt_assert (0 <? v) ;; modify (set_heap_sem (v - 1)).
Definition release_heap_sem : H unit := v ← gets heap_sem; modify (set_heap_sem (v + 1)).

(** What [used_mem += v] does, with the maximum. *)
Definition count_used (v : Z) : H unit :=
  u ← gets used_mem;
  modify (set_used_mem (u + v)) ;;
  u ← gets used_mem; x ← gets max_mem;
  when (x <? u) (modify (set_max_mem u)).

(** plug hole forward *)
Definition plug_forward (mem : Z) : H unit :=
  p ← gets heap_ptr; e ← gets heap_end;
  m ← get_hm mem;
  let nmem := p + hm_next m in
  if negb (mem =? nmem) then
    nm ← get_hm nmem;
    when ((hm_used nm =? 0) && negb (nmem =? e))
      (l ← gets lfree; when (l =? nmem) (modify (set_lfree mem)) ;;
       upd_hm mem (set_next (hm_next nm)) ;;
       upd_hm (p + hm_next nm) (set_prev (mem - p)))
  else mret tt.

(** plug hole backward *)
Definition plug_backward (mem : Z) : H unit :=
  p ← gets heap_ptr;
  m ← get_hm mem;
  let pmem := p + hm_prev m in
  if negb (pmem =? mem) then
    pm ← get_hm pmem;
    when (hm_used pm =? 0)
      (l ← gets lfree; when (l =? mem) (modify (set_lfree pmem)) ;;
       upd_hm pmem (set_next (hm_next m)) ;;
       upd_hm (p + hm_next m) (set_prev (pmem - p)))
  else mret tt.

Definition plug_holes (mem : Z) : H unit :=
  p ← gets heap_ptr; e ← gets heap_end;
  rt_assert (p <=? mem) ;;
  rt_assert (mem <? e) ;;
  m ← get_hm mem;
  rt_assert (hm_used m =? 0) ;;
  plug_forward mem ;;
  plug_backward mem.

Section mem.
Context (irq_nest : Z).

(** [RT_DEBUG_NOT_IN_INTERRUPT] *)
Definition not_in_irq : H unit := rt_assert (irq_nest =? 0).

Definition rt_system_heap_init (begin_addr end_addr : Z) : H unit :=
  let begin_align := RT_ALIGN begin_addr RT_ALIGN_SIZE in
  let end_align := RT_ALIGN_DOWN end_addr RT_ALIGN_SIZE in
  not_in_irq ;;
  if (2 * SIZEOF_STRUCT_MEM <? end_align) && (begin_align <=? end_align - 2 * SIZEOF_STRUCT_MEM) then
    let size := end_align - begin_align - 2 * SIZEOF_STRUCT_MEM in
    let next := size + SIZEOF_STRUCT_MEM in
    modify (fun h => mkHeap begin_align
      (<[begin_align + next := mkHm HEAP_MAGIC 1 next next]> (<[begin_align := mkHm HEAP_MAGIC 0 next 0]> (hp_mem h)))
      (begin_align + next) begin_align size (used_mem h) (max_mem h) 1 (hp_data h))
  else mret tt.

(** Taking the free block [mem] at offset [ptr] for [size] bytes. *)
Definition take_block (size ptr mem : Z) (m : heap_mem) : H unit :=
  p ← gets heap_ptr; mem_size ← gets mem_size_aligned;
  (if size + SIZEOF_STRUCT_MEM + MIN_SIZE_ALIGNED <=? u32 (hm_next m - (ptr + SIZEOF_STRUCT_MEM)) then
     let ptr2 := ptr + SIZEOF_STRUCT_MEM + size in
     modify (set_hp_mem <[p + ptr2 := mkHm HEAP_MAGIC 0 (hm_next m) ptr]>) ;;
     upd_hm mem (set_next ptr2) ;;
     upd_hm mem (set_used 1) ;;
     when (negb (hm_next m =? mem_size + SIZEOF_STRUCT_MEM)) (upd_hm (p + hm_next m) (set_prev ptr2)) ;;
     count_used (size + SIZEOF_STRUCT_MEM)
   else
     upd_hm mem (set_used 1) ;;
     count_used (hm_next m - (mem - p))) ;;
  upd_hm mem (set_magic HEAP_MAGIC).

(** The free block after [lfree]. *)
Fixpoint next_free (fuel : nat) : H unit :=
  l ← gets lfree; m ← get_hm l; e ← gets heap_end;
  if negb (hm_used m =? 0) && negb (l =? e) then
    match fuel with
    | O => fault
    | S fuel => p ← gets heap_ptr; modify (set_lfree (p + hm_next m)) ;; next_free fuel
    end
  else mret tt.

(** The search: the address of the header of the block taken, if any. *)
Fixpoint malloc_loop (fuel : nat) (size ptr : Z) : H (option Z) :=
  p ← gets heap_ptr; mem_size ← gets mem_size_aligned;
  if ptr <? u32 (mem_size - size) then
    match fuel with
    | O => fault
    | S fuel =>
        let mem := p + ptr in
        m ← get_hm mem;
        if (hm_used m =? 0) && (size <=? u32 (hm_next m - (ptr + SIZEOF_STRUCT_MEM))) then
          take_block size ptr mem m ;;
          l ← gets lfree;
          when (mem =? l)
            (next_free fuel ;;
             l ← gets lfree; lm ← get_hm l; e ← gets heap_end;
             rt_assert ((l =? e) || (hm_used lm =? 0))) ;;
          mret (Some mem)
        else malloc_loop fuel size (hm_next m)
    end
  else mret None.

(** RT_NULL is 0. *)
Definition rt_malloc (fuel : nat) (size : Z) : H Z :=
  if size =? 0 then mret 0 else
  not_in_irq ;;
  let size := RT_ALIGN size RT_ALIGN_SIZE in
  mem_size ← gets mem_size_aligned;
  if mem_size <? size then mret 0 else
  let size := if size <? MIN_SIZE_ALIGNED then MIN_SIZE_ALIGNED else size in
  take_heap_sem ;;
  l ← gets lfree; p ← gets heap_ptr;
  r ← malloc_loop fuel size (l - p);
  release_heap_sem ;;
  match r with
  | Some mem =>
      e ← gets heap_end;
      rt_assert (mem + SIZEOF_STRUCT_MEM + size <=? e) ;;
      rt_assert ((mem + SIZEOF_STRUCT_MEM) mod RT_ALIGN_SIZE =? 0) ;;
      rt_assert (Z.land mem (RT_ALIGN_SIZE - 1) =? 0) ;;
      mret (mem + SIZEOF_STRUCT_MEM)
  | None => mret 0
  end.

Definition rt_free (rmem : Z) : H unit :=
  if rmem =? 0 then mret tt else
  not_in_irq ;;
  p ← gets heap_ptr; e ← gets heap_end;
  rt_assert (Z.land rmem (RT_ALIGN_SIZE - 1) =? 0) ;;
  rt_assert ((p <=? rmem) && (rmem <? e)) ;;
  let mem := rmem - SIZEOF_STRUCT_MEM in
  take_heap_sem ;;
  m ← get_hm mem;
  rt_assert (negb (hm_used m =? 0)) ;;
  rt_assert (hm_magic m =? HEAP_MAGIC) ;;
  upd_hm mem (set_used 0) ;;
  upd_hm mem (set_magic HEAP_MAGIC) ;;
  l ← gets lfree;
  when (mem <? l) (modify (set_lfree mem)) ;;
  u ← gets used_mem;
  modify (set_used_mem (u - (hm_next m - (mem - p)))) ;;
  plug_holes mem ;;
  release_heap_sem.

(** Cutting the block [mem] at offset [ptr], of [size] bytes, down to [newsize]. *)
Definition shrink_block (size newsize ptr mem : Z) (m : heap_mem) : H unit :=
  p ← gets heap_ptr; mem_size ← gets mem_size_aligned; u ← gets used_mem;
  modify (set_used_mem (u - (size - newsize))) ;;
  let ptr2 := ptr + SIZEOF_STRUCT_MEM + newsize in
  let mem2 := p + ptr2 in
  modify (set_hp_mem <[mem2 := mkHm HEAP_MAGIC 0 (hm_next m) ptr]>) ;;
  upd_hm mem (set_next ptr2) ;;
  when (negb (hm_next m =? mem_size + SIZEOF_STRUCT_MEM)) (upd_hm (p + hm_next m) (set_prev ptr2)) ;;
  l ← gets lfree;
  when (mem2 <? l) (modify (set_lfree mem2)) ;;
  plug_holes mem2.

Definition rt_realloc (fuel : nat) (rmem newsize : Z) : H Z :=
  not_in_irq ;;
  let newsize := RT_ALIGN newsize RT_ALIGN_SIZE in
  mem_size ← gets mem_size_aligned;
  if mem_size <? newsize then mret 0
  else if newsize =? 0 then rt_free rmem ;; mret 0
  else if rmem =? 0 then rt_malloc fuel newsize
  else
    take_heap_sem ;;
    p ← gets heap_ptr; e ← gets heap_end;
    if (rmem <? p) || (e <=? rmem) then release_heap_sem ;; mret rmem
    else
      let mem := rmem - SIZEOF_STRUCT_MEM in
      m ← get_hm mem;
      let ptr := mem - p in
      let size := u32 (hm_next m - ptr - SIZEOF_STRUCT_MEM) in
      if size =? newsize then release_heap_sem ;; mret rmem
      else if newsize + SIZEOF_STRUCT_MEM + MIN_SIZE <? size then
        shrink_block size newsize ptr mem m ;;
        release_heap_sem ;;
        mret rmem
      else
        release_heap_sem ;;
        nmem ← rt_malloc fuel newsize;
        when (negb (nmem =? 0))
          (d ← gets hp_data;
           d' ← deref (fun _ => KService.rt_memcpy nmem rmem (if size <? newsize then size else newsize) d);
           modify (set_hp_data d') ;;
           rt_free rmem) ;;
        mret nmem.

Definition rt_calloc (fuel : nat) (count size : Z) : H Z :=
  p ← rt_malloc fuel (u32 (count * size));
  when (negb (p =? 0))
    (d ← gets hp_data;
     d' ← deref (fun _ => KService.rt_memset p 0 (u32 (count * size)) d);
     modify (set_hp_data d')) ;;
  mret p.

(** Total, used and most used. *)
Definition rt_memory_info : H (Z * Z * Z) :=
  t ← gets mem_size_aligned; u ← gets used_mem; x ← gets max_mem; mret (t, u, x).
End mem.

(** ** The layout

    The heap is a sequence of blocks, used or free, with their sizes, headers included. *)

Abbreviation block := (bool * Z)%type.

Fixpoint total (L : list block) : Z := match L with [] => 0 | (_, n) :: L => n + total L end.
Fixpoint used_total (L : list block) : Z :=
  match L with [] => 0 | (u, n) :: L => (if u then n else 0) + used_total L end.
Definition sized (L : list block) : Prop := Forall (fun b => 12 <= b.2 /\ (4 | b.2)) L.

(** The headers of the blocks [L] from offset [off] on, whose first has the predecessor
    [prev]; [seg] stops before what follows them, [chain] includes the end of the heap. *)
Definition header (u : bool) (next prev : Z) : heap_mem := mkHm HEAP_MAGIC (if u then 1 else 0) next prev.
Fixpoint seg (m : gmap Z heap_mem) (p off prev : Z) (L : list block) : Prop :=
  match L with
  | [] => True
  | (u, n) :: L => m !! (p + off) = Some (header u (off + n) prev) /\ seg m p (off + n) off L
  end.
Fixpoint chain (m : gmap Z heap_mem) (p off prev : Z) (L : list block) : Prop :=
  match L with
  | [] => exists prev', m !! (p + off) = Some (header true off prev')
  | (u, n) :: L => m !! (p + off) = Some (header u (off + n) prev) /\ chain m p (off + n) off L
  end.

(** The offset of the last block. *)
Fixpoint last_off (off prev : Z) (L : list block) : Z :=
  match L with [] => prev | (_, n) :: L => last_off (off + n) off L end.
Fixpoint first_free (off : Z) (L : list block) : Z :=
  match L with [] => off | (true, n) :: L => first_free (off + n) L | (false, _) :: _ => off end.

(** No two free blocks are neighbours; [f]: a free block precedes. *)
Fixpoint coalesced (f : bool) (L : list block) : Prop :=
  match L with
  | [] => True
  | (true, _) :: L => coalesced false L
  | (false, _) :: L => f = false /\ coalesced true L
  end.
Fixpoint ends_free (f : bool) (L : list block) : bool :=
  match L with [] => f | (u, _) :: L => ends_free (negb u) L end.

Lemma total_app L1 L2 : total (L1 ++ L2) = total L1 + total L2.
Proof. induction L1 as [|[u n] L1 IH]; cbn; [done|]. rewrite IH. lia. Qed.
Lemma used_total_app L1 L2 : used_total (L1 ++ L2) = used_total L1 + used_total L2.
Proof. induction L1 as [|[u n] L1 IH]; cbn; [done|]. rewrite IH. lia. Qed.
Lemma total_nonneg L : sized L -> 0 <= total L /\ 0 <= used_total L <= total L.
Proof. induction 1 as [|[u n] L [Hn _] _ IH]; cbn in *; [lia|]. destruct u; lia. Qed.
Lemma total_div L : sized L -> (4 | total L).
Proof. induction 1 as [|[u n] L [_ Hn] _ IH]; cbn in *; [apply Z.divide_0_r|]. by apply Z.divide_add_r. Qed.
Lemma sized_app L1 L2 : sized (L1 ++ L2) <-> sized L1 /\ sized L2.
Proof. unfold sized. by rewrite Forall_app. Qed.
Lemma sized_cons b L : sized (b :: L) <-> (12 <= b.2 /\ (4 | b.2)) /\ sized L.
Proof. unfold sized. by rewrite Forall_cons. Qed.

Lemma blocks_app m p off prev L1 L2 :
  chain m p off prev (L1 ++ L2) <-> seg m p off prev L1 /\ chain m p (off + total L1) (last_off off prev L1) L2.
Proof.
  revert off prev. induction L1 as [|[u n] L1 IH]; intros off prev; cbn [app seg chain last_off total].
  - rewrite Z.add_0_r. tauto.
  - rewrite IH. rewrite Z.add_assoc. tauto.
Qed.
Lemma seg_app m p off prev L1 L2 :
  seg m p off prev (L1 ++ L2) <-> seg m p off prev L1 /\ seg m p (off + total L1) (last_off off prev L1) L2.
Proof.
  revert off prev. induction L1 as [|[u n] L1 IH]; intros off prev; cbn [app seg last_off total].
  - rewrite Z.add_0_r. tauto.
  - rewrite IH. rewrite Z.add_assoc. tauto.
Qed.
Lemma last_off_snoc off prev L u n : last_off off prev (L ++ [(u, n)]) = off + total L.
Proof.
  revert off prev. induction L as [|[v k] L IH]; intros off prev; cbn; [lia|]. rewrite IH.
  lia.
Qed.

(** A store outside the blocks. *)
Lemma seg_insert m p off prev L a x : sized L -> a < p + off \/ p + off + total L <= a ->
  seg m p off prev L -> seg (<[a := x]> m) p off prev L.
Proof.
  revert off prev. induction L as [|[u n] L IH]; intros off prev Hs Ha; cbn [seg total] in *; [done|].
  apply sized_cons in Hs as [[Hn _] Hs]. cbn in Hn.
  pose proof (total_nonneg L Hs). intros [H1 H2]. split.
  - rewrite lookup_insert_ne by lia. done.
  - apply IH; [done|lia|done].
Qed.
Lemma blocks_insert m p off prev L a x : sized L -> a < p + off \/ p + off + total L < a ->
  chain m p off prev L -> chain (<[a := x]> m) p off prev L.
Proof.
  revert off prev. induction L as [|[u n] L IH]; intros off prev Hs Ha; cbn [chain total] in *.
  - intros [q Hq]. exists q. rewrite lookup_insert_ne by lia. done.
  - apply sized_cons in Hs as [[Hn _] Hs]. cbn in Hn.
    pose proof (total_nonneg L Hs). intros [H1 H2]. split.
    + rewrite lookup_insert_ne by lia. done.
    + apply IH; [done|lia|done].
Qed.

(** What comes first, a block or the end of the heap. *)
Definition first_used (L : list block) : bool := match L with (false, _) :: _ => false | _ => true end.
Definition first_next (off : Z) (L : list block) : Z := match L with (_, n) :: _ => off + n | [] => off end.

Lemma chain_first m p off prev L : chain m p off prev L ->
  exists q, m !! (p + off) = Some (header (first_used L) (first_next off L) q).
Proof. destruct L as [|[[] n] L]; cbn; [done| |]; intros [H1 _]; by eexists. Qed.

(** Only its predecessor is changed. *)
Lemma chain_relink m p off prev prev' L x : sized L -> chain m p off prev L ->
  m !! (p + off) = Some x -> chain (<[p + off := set_prev prev' x]> m) p off prev' L.
Proof.
  intros Hs Hc Hx. destruct L as [|[u n] L]; cbn in *.
  - destruct Hc as [q Hq]. simplify_eq. exists prev'. by rewrite lookup_insert_eq.
  - destruct Hc as [Hq Hc]. simplify_eq. rewrite lookup_insert_eq. split; [done|].
    apply sized_cons in Hs as [[Hn _] Hs]. cbn in Hn. pose proof (total_nonneg L Hs).
    apply blocks_insert; [done|lia|done].
Qed.

(** Joining a block with the next one. *)
Lemma chain_join m p off prev u n v k L : sized ((u, n) :: (v, k) :: L) -> chain m p off prev ((u, n) :: (v, k) :: L) ->
  exists x y, m !! (p + off) = Some x /\ hm_next x = off + n /\
    <[p + off := set_next (off + n + k) x]> m !! (p + (off + n + k)) = Some y /\
    chain (<[p + (off + n + k) := set_prev off y]> (<[p + off := set_next (off + n + k) x]> m)) p off prev ((u, n + k) :: L).
Proof.
  intros Hs (H1 & H2 & H3). apply sized_cons in Hs as [[Hn _] Hs]. apply sized_cons in Hs as [[Hk _] Hs]. cbn in Hn, Hk.
  pose proof (total_nonneg L Hs).
  assert (Hc : chain (<[p + off := set_next (off + n + k) (header u (off + n) prev)]> m) p (off + n + k) (off + n) L).
  { apply blocks_insert; [done|lia|done]. }
  destruct (chain_first _ _ _ _ _ Hc) as [q Hq].
  exists (header u (off + n) prev). eexists. split; [done|]. split; [done|]. split; [exact Hq|].
  pose proof (chain_relink _ p (off + n + k) (off + n) off L _ Hs Hc Hq) as Hr. split.
  - rewrite lookup_insert_ne by lia. rewrite lookup_insert_eq. by rewrite Z.add_assoc.
  - replace (off + (n + k)) with (off + n + k) by lia. exact Hr.
Qed.

(** Cutting a block in two, the second part free. *)
Lemma chain_cut m p off prev u v n k L : sized ((u, n) :: L) -> 0 < k < n -> chain m p off prev ((u, n) :: L) ->
  let m1 := <[p + off := header v (off + k) prev]> (<[p + (off + k) := header false (off + n) off]> m) in
  (exists y, m1 !! (p + (off + n)) = Some y /\
     chain (<[p + (off + n) := set_prev (off + k) y]> m1) p off prev ((v, k) :: (false, n - k) :: L)) /\
  (L = [] -> chain m1 p off prev ((v, k) :: (false, n - k) :: L)).
Proof.
  intros Hs Hk (H1 & H2) m1. apply sized_cons in Hs as [[Hn _] Hs]. cbn in Hn.
  pose proof (total_nonneg L Hs).
  assert (Hc : chain m1 p (off + n) off L).
  { subst m1. apply blocks_insert; [done|lia|]. apply blocks_insert; [done|lia|done]. }
  assert (L1 : m1 !! (p + off) = Some (header v (off + k) prev)) by apply lookup_insert_eq.
  assert (L2 : m1 !! (p + (off + k)) = Some (header false (off + n) off)).
  { subst m1. rewrite lookup_insert_ne by lia. apply lookup_insert_eq. }
  split.
  - destruct (chain_first _ _ _ _ _ Hc) as [q Hq]. eexists. split; [exact Hq|].
    pose proof (chain_relink _ p (off + n) off (off + k) L _ Hs Hc Hq) as Hr.
    cbn [chain]. rewrite !lookup_insert_ne by lia. rewrite L1, L2.
    replace (off + k + (n - k)) with (off + n) by lia. done.
  - intros ->. cbn [chain] in *. rewrite L1, L2. replace (off + k + (n - k)) with (off + n) by lia. done.
Qed.

Lemma coalesced_weaken f L : coalesced f L -> coalesced false L.
Proof. destruct L as [|[[] n] L]; cbn; tauto. Qed.
Lemma coalesced_app f L1 L2 : coalesced f (L1 ++ L2) <-> coalesced f L1 /\ coalesced (ends_free f L1) L2.
Proof.
  revert f. induction L1 as [|[[] n] L1 IH]; intros f; cbn [app coalesced ends_free negb]; [tauto|apply IH|]. rewrite IH. tauto.
Qed.
Lemma ends_free_snoc f L u n : ends_free f (L ++ [(u, n)]) = negb u.
Proof. revert f. induction L as [|[v k] L IH]; intros f; cbn; [done|apply IH]. Qed.

Lemma first_free_app off L1 L2 : first_free off (L1 ++ L2) =
  if bool_decide (Forall (fun b => b.1 = true) L1) then first_free (off + total L1) L2 else first_free off L1.
Proof.
  revert off. induction L1 as [|[[] n] L1 IH]; intros off; cbn [app first_free total].
  - by rewrite Z.add_0_r.
  - rewrite IH. rewrite <- Z.add_assoc.
    destruct (decide (Forall (fun b => b.1 = true) L1)).
    + rewrite !bool_decide_eq_true_2; [done|by constructor|done].
    + rewrite !bool_decide_eq_false_2; [done|by intros [_ ?]%Forall_cons|done].
  - rewrite bool_decide_eq_false_2; [done|]. by intros [? _]%Forall_cons.
Qed.
Lemma first_free_bound off L : sized L -> off <= first_free off L <= off + total L.
Proof.
  intros Hs. revert off. induction Hs as [|[u n] L [Hn _] Hs IH]; intros off; cbn in *; [lia|].
  pose proof (total_nonneg L Hs). destruct u; [|lia]. specialize (IH (off + n)). lia.
Qed.

(** ** Joining free blocks *)

Definition with_mem (m : gmap Z heap_mem) (h : heap) : heap := set_hp_mem (fun _ => m) h.

Lemma wp_get_hm a x (Q : heap_mem -> heap -> Prop) h : hp_mem h !! a = Some x -> Q x h -> wp (get_hm a) Q h.
Proof. intros. by eapply wp_deref. Qed.
Lemma wp_upd_hm a f x (Q : unit -> heap -> Prop) h : hp_mem h !! a = Some x ->
  Q tt (with_mem (<[a := f x]> (hp_mem h)) h) -> wp (upd_hm a f) Q h.
Proof. intros. unfold upd_hm. rewrite wp_bind. by eapply wp_get_hm. Qed.
Lemma with_mem_same h : with_mem (hp_mem h) h = h.
Proof. by destruct h. Qed.

(** The free block of size [n] between [L1] and [L2] with its free neighbours. *)
Definition join_next (n : Z) (L2 : list block) : Z * list block :=
  match L2 with (false, k) :: L => (n + k, L) | _ => (n, L2) end.
Definition join_prev (L1 : list block) (n : Z) (L2 : list block) : list block :=
  match last L1 with
  | Some (false, k) => removelast L1 ++ (false, k + n) :: L2
  | _ => L1 ++ (false, n) :: L2
  end.
Definition plug (L1 : list block) (n : Z) (L2 : list block) : list block :=
  join_prev L1 (join_next n L2).1 (join_next n L2).2.

Lemma join_prev_snoc L u k n L2 : join_prev (L ++ [(u, k)]) n L2 =
  if u : bool then L ++ (true, k) :: (false, n) :: L2 else L ++ (false, k + n) :: L2.
Proof. unfold join_prev. rewrite last_snoc, removelast_last. destruct u; [|done]. by rewrite <- app_assoc. Qed.

Lemma first_free_zip L1 n L2 : sized L1 -> 0 <= first_free 0 (L1 ++ (false, n) :: L2) <= total L1.
Proof.
  intros Hs. pose proof (total_nonneg L1 Hs). rewrite first_free_app. case_bool_decide; cbn; [lia|].
  pose proof (first_free_bound 0 L1 Hs). lia.
Qed.

(** What every part of [plug_holes] needs to know. *)
Record holes (h : heap) (L1 : list block) (n : Z) (L2 : list block) : Prop := {
  ho_sized : sized (L1 ++ (false, n) :: L2);
  ho_chain : chain (hp_mem h) (heap_ptr h) 0 0 (L1 ++ (false, n) :: L2);
  ho_end : heap_end h = heap_ptr h + total (L1 ++ (false, n) :: L2);
  ho_lfree : heap_ptr h <= lfree h <= heap_ptr h + total L1
}.

Lemma holes_sizes h L1 n L2 : holes h L1 n L2 -> sized L1 /\ (12 <= n /\ (4 | n)) /\ sized L2 /\
  0 <= total L1 /\ 0 <= total L2 /\ heap_end h = heap_ptr h + total L1 + n + total L2.
Proof.
  intros [Hs _ He _]. apply sized_app in Hs as [H1 H2]. apply sized_cons in H2 as [Hn H2].
  pose proof (total_nonneg L1 H1). pose proof (total_nonneg L2 H2). rewrite total_app in He. cbn in He.
  repeat (split; [done || lia|]). lia.
Qed.

Lemma wp_plug_forward h L1 n L2 (Q : unit -> heap -> Prop) :
  holes h L1 n L2 ->
  (forall m', holes (with_mem m' h) L1 (join_next n L2).1 (join_next n L2).2 -> Q tt (with_mem m' h)) ->
  wp (plug_forward (heap_ptr h + total L1)) Q h.
Proof.
  intros Hh HQ. destruct (holes_sizes _ _ _ _ Hh) as (S1 & [Hn1 Hn2] & S2 & T1 & T2 & He). pose proof Hh as [Hs Hc _ Hl].
  unfold plug_forward. rewrite wp_bind, wp_gets, wp_bind, wp_gets, wp_bind.
  pose proof Hc as Hc'. apply blocks_app in Hc' as [Hg [H1 H2]]. rewrite Z.add_0_l in *. eapply wp_get_hm; [exact H1|]. cbn [hm_next header].
  destruct (Z.eqb_spec (heap_ptr h + total L1) (heap_ptr h + (total L1 + n))); [lia|]. cbn [negb].
  destruct (chain_first _ _ _ _ _ H2) as [q Hq]. rewrite wp_bind. eapply wp_get_hm; [exact Hq|].
  destruct L2 as [|[[] k] L2]; cbn [hm_used header first_used first_next hm_next].
  - change (1 =? 0) with false. cbn [andb when]. rewrite wp_ret. rewrite <- (with_mem_same h). apply HQ. by rewrite with_mem_same.
  - change (1 =? 0) with false. cbn [andb when]. rewrite wp_ret. rewrite <- (with_mem_same h). apply HQ. by rewrite with_mem_same.
  - change (0 =? 0) with true. apply sized_cons in S2 as S2'. destruct S2' as [[Hk _] S2']. cbn [snd total] in *.
    pose proof (total_nonneg L2 S2').
    destruct (Z.eqb_spec (heap_ptr h + (total L1 + n)) (heap_end h)); [lia|]. cbn [andb negb when].
    rewrite wp_bind, wp_gets. destruct (Z.eqb_spec (lfree h) (heap_ptr h + (total L1 + n))); [lia|]. cbn [when].
    rewrite wp_bind, wp_ret.
    assert (Hs' : sized ((false, n) :: (false, k) :: L2)) by (by apply sized_app in Hs as [_ ?]).
    destruct (chain_join (hp_mem h) (heap_ptr h) (total L1) (last_off 0 0 L1) false n false k L2 Hs') as (x & y & X1 & X2 & X3 & X4).
    { split; [exact H1|exact H2]. }
    rewrite wp_bind. eapply wp_upd_hm; [exact X1|]. eapply wp_upd_hm; [exact X3|].
    replace (heap_ptr h + total L1 - heap_ptr h) with (total L1) by lia. apply HQ.
    cbn [join_next fst snd]. split.
    + apply sized_app. split; [done|]. apply sized_cons. split; [|done]. cbn. split; [lia|].
      apply Z.divide_add_r; [done|]. by apply sized_cons in S2 as [[_ ?] _].
    + apply blocks_app. rewrite Z.add_0_l. split; [|exact X4]. cbn [with_mem set_hp_mem hp_mem heap_ptr].
      apply seg_insert; [done|lia|]. apply seg_insert; [done|lia|done].
    + cbn [heap_end heap_ptr with_mem set_hp_mem]. rewrite total_app. cbn [total]. lia.
    + exact Hl.
Qed.


Lemma wp_plug_backward h L1 n L2 (Q : unit -> heap -> Prop) :
  holes h L1 n L2 ->
  (forall m', chain m' (heap_ptr h) 0 0 (join_prev L1 n L2) -> Q tt (with_mem m' h)) ->
  (match last L1 with Some (false, _) => lfree h ≠ heap_ptr h + total L1 | _ => True end) ->
  wp (plug_backward (heap_ptr h + total L1)) Q h.
Proof.
  intros Hh HQ Hfree. destruct (holes_sizes _ _ _ _ Hh) as (S1 & [Hn1 Hn2] & S2 & T1 & T2 & He). pose proof Hh as [Hs Hc _ Hl].
  unfold plug_backward. rewrite wp_bind, wp_gets, wp_bind.
  pose proof Hc as Hc'. apply blocks_app in Hc' as [Hg [H1 H2]]. rewrite Z.add_0_l in *. eapply wp_get_hm; [exact H1|].
  cbn [hm_prev hm_next header]. destruct L1 as [|[u k] L1 _] using rev_ind.
  { cbn [last_off total]. rewrite Z.add_0_r. destruct (Z.eqb_spec (heap_ptr h) (heap_ptr h)); [|done]. cbn [negb].
    rewrite wp_ret. rewrite <- (with_mem_same h). apply HQ. exact Hc. }
  rewrite last_off_snoc, Z.add_0_l in *. rewrite total_app in *. cbn [total] in *. rewrite join_prev_snoc in HQ.
  apply sized_app in S1 as [S1 Sk]. apply sized_cons in Sk as [[Hk _] _]. cbn in Hk. pose proof (total_nonneg L1 S1).
  destruct (Z.eqb_spec (heap_ptr h + total L1) (heap_ptr h + (total L1 + (k + 0)))); [lia|]. cbn [negb].
  rewrite <- app_assoc in Hs, Hc. cbn [app] in Hs, Hc.
  pose proof Hc as Hc'. apply blocks_app in Hc' as [Hg1 Hc1]. rewrite Z.add_0_l in Hc1. pose proof Hc1 as [K1 _].
  rewrite wp_bind. eapply wp_get_hm; [exact K1|]. destruct u; cbn [hm_used header].
  - change (1 =? 0) with false. cbn [when]. rewrite wp_ret. rewrite <- (with_mem_same h). by apply HQ.
  - change (0 =? 0) with true. cbn [when]. rewrite last_snoc in Hfree.
    rewrite wp_bind, wp_gets. destruct (Z.eqb_spec (lfree h) (heap_ptr h + (total L1 + (k + 0)))); [done|]. cbn [when].
    rewrite wp_bind, wp_ret.
    assert (Hs' : sized ((false, k) :: (false, n) :: L2)) by (by apply sized_app in Hs as [_ ?]).
    destruct (chain_join (hp_mem h) (heap_ptr h) (total L1) (last_off 0 0 L1) false k false n L2 Hs' Hc1) as (x & y & X1 & X2 & X3 & X4).
    replace (total L1 + (k + 0) + n) with (total L1 + k + n) by lia.
    rewrite wp_bind. eapply wp_upd_hm; [exact X1|]. eapply wp_upd_hm; [exact X3|].
    replace (heap_ptr h + total L1 - heap_ptr h) with (total L1) by lia. apply HQ.
    apply blocks_app. rewrite Z.add_0_l. split; [|exact X4]. cbn [with_mem set_hp_mem hp_mem heap_ptr].
    apply seg_insert; [done|lia|]. apply seg_insert; [done|lia|done].
Qed.

Lemma wp_plug_holes h L1 n L2 (Q : unit -> heap -> Prop) :
  holes h L1 n L2 ->
  (match last L1 with Some (false, _) => lfree h ≠ heap_ptr h + total L1 | _ => True end) ->
  (forall m', chain m' (heap_ptr h) 0 0 (plug L1 n L2) -> Q tt (with_mem m' h)) ->
  wp (plug_holes (heap_ptr h + total L1)) Q h.
Proof.
  intros Hh Hfree HQ. destruct (holes_sizes _ _ _ _ Hh) as (S1 & [Hn1 Hn2] & S2 & T1 & T2 & He).
  pose proof (ho_chain _ _ _ _ Hh) as Hc. apply blocks_app in Hc as [_ [H1 _]]. rewrite Z.add_0_l in H1.
  unfold plug_holes. rewrite wp_bind, wp_gets, wp_bind, wp_gets, wp_bind. apply wp_assert; [apply Z.leb_le; lia|].
  rewrite wp_bind. apply wp_assert; [apply Z.ltb_lt; lia|]. rewrite wp_bind. eapply wp_get_hm; [exact H1|].
  rewrite wp_bind. apply wp_assert; [done|]. rewrite wp_bind. eapply wp_plug_forward; [done|]. intros m1 Hh1.
  eapply (wp_plug_backward (with_mem m1 h)); [exact Hh1| |exact Hfree].
  intros m2 Hc2. by apply HQ.
Qed.

(** *** What joining does to the sequence *)

Lemma join_next_facts n L2 : sized ((false, n) :: L2) -> coalesced false L2 ->
  let n' := (join_next n L2).1 in let L2' := (join_next n L2).2 in
  sized ((false, n') :: L2') /\ coalesced true L2' /\ n' + total L2' = n + total L2 /\ used_total L2' = used_total L2.
Proof.
  intros Hs Hc. apply sized_cons in Hs as [[Hn Hn4] Hs]. cbn in Hn, Hn4.
  destruct L2 as [|[[] k] L2]; cbn [join_next fst snd].
  - split; [apply sized_cons; split; done|]. done.
  - split; [apply sized_cons; split; done|]. done.
  - apply sized_cons in Hs as [[Hk Hk4] Hs]. cbn in Hk, Hk4, Hc. split; [|split; [apply Hc|split; [cbn; lia|done]]].
    apply sized_cons. split; [|done]. cbn. split; [lia|]. by apply Z.divide_add_r.
Qed.

Lemma plug_facts L1 n L2 : sized (L1 ++ (false, n) :: L2) -> coalesced false L1 -> coalesced false L2 ->
  sized (plug L1 n L2) /\ coalesced false (plug L1 n L2) /\ total (plug L1 n L2) = total (L1 ++ (false, n) :: L2) /\
  used_total (plug L1 n L2) = used_total (L1 ++ (false, n) :: L2).
Proof.
  intros Hs C1 C2. apply sized_app in Hs as [S1 S2]. destruct (join_next_facts n L2 S2 C2) as (J1 & J2 & J3 & J4).
  unfold plug. set (n' := (join_next n L2).1) in *. set (L2' := (join_next n L2).2) in *. cbn zeta in *.
  rewrite total_app, used_total_app. cbn [total used_total].
  apply sized_cons in J1 as [[Jn Jn4] J1]. cbn in Jn, Jn4.
  destruct L1 as [|[u k] L1 _] using rev_ind.
  { cbn. split; [apply sized_cons; split; done|]. split; [done|]. lia. }
  rewrite join_prev_snoc. apply sized_app in S1 as [S1 Sk]. apply sized_cons in Sk as [[Hk Hk4] _]. cbn in Hk, Hk4.
  apply coalesced_app in C1 as [C1 Ck]. rewrite total_app, used_total_app. cbn [total used_total].
  destruct u; rewrite total_app, used_total_app; cbn [total used_total].
  - split; [apply sized_app; split; [done|]; apply sized_cons; split; [done|]; apply sized_cons; split; done|].
    split; [|lia]. apply coalesced_app. split; [done|]. cbn. done.
  - split; [|split; [|lia]].
    + apply sized_app. split; [done|]. apply sized_cons. split; [|done]. cbn. split; [lia|]. by apply Z.divide_add_r.
    + apply coalesced_app. split; [done|]. cbn in Ck |- *. tauto.
Qed.

Lemma first_free_plug L1 n L2 : sized (L1 ++ (false, n) :: L2) ->
  first_free 0 (plug L1 n L2) = first_free 0 (L1 ++ (false, n) :: L2).
Proof.
  intros Hs. apply sized_app in Hs as [S1 S2]. unfold plug. set (n' := (join_next n L2).1). set (L2' := (join_next n L2).2).
  destruct L1 as [|[u k] L1 _] using rev_ind; [done|]. rewrite join_prev_snoc.
  apply sized_app in S1 as [S1 _]. destruct u; rewrite <- ?app_assoc; cbn [app]; rewrite !first_free_app; done.
Qed.

(** ** The invariant *)

(** What is given out has room for data. *)
Definition nonempty (L : list block) : Prop := Forall (fun b => b.1 = true -> 16 <= b.2) L.

(** The heap is laid out as the blocks [L]; the semaphore apart. *)
Record layout (L : list block) (h : heap) : Prop := {
  ly_start : 0 < heap_ptr h /\ (4 | heap_ptr h);
  ly_limit : heap_ptr h + mem_size_aligned h + 24 <= 2 ^ 32;
  ly_size : 12 <= mem_size_aligned h /\ (4 | mem_size_aligned h);
  ly_total : total L = mem_size_aligned h + 12;
  ly_sized : sized L;
  ly_coalesced : coalesced false L;
  ly_chain : chain (hp_mem h) (heap_ptr h) 0 0 L;
  ly_end : heap_end h = heap_ptr h + total L;
  ly_lfree : lfree h = heap_ptr h + first_free 0 L;
  ly_used : used_mem h = used_total L;
  ly_max : used_mem h <= max_mem h < 2 ^ 32;
  ly_data : nonempty L
}.
Definition heap_ok (L : list block) (h : heap) : Prop := layout L h /\ heap_sem h = 1.

(** The calls change neither the bounds of the heap nor what is stored in it. *)
Definition same_heap (h h' : heap) : Prop :=
  heap_ptr h' = heap_ptr h /\ heap_end h' = heap_end h /\ mem_size_aligned h' = mem_size_aligned h.
Lemma same_heap_refl h : same_heap h h.
Proof. done. Qed.
Lemma same_heap_trans h1 h2 h3 : same_heap h1 h2 -> same_heap h2 h3 -> same_heap h1 h3.
Proof. unfold same_heap. intuition congruence. Qed.

(** How [rt_malloc] divides a free block of size [n]. *)
Definition carve (size n : Z) : list block :=
  if size + 24 <=? n - 12 then [(true, size + 12); (false, n - (size + 12))] else [(true, n)].

Lemma carve_facts size n f : 12 <= n -> (4 | n) -> 0 <= size -> (4 | size) ->
  sized (carve size n) /\ total (carve size n) = n /\ (forall L, coalesced true L -> coalesced f (carve size n ++ L)) /\
  0 <= used_total (carve size n) <= n.
Proof.
  intros Hn Hn4 Hs Hs4. unfold carve. destruct (Z.leb_spec (size + 24) (n - 12)).
  - split; [|split; [cbn; lia|split; [|cbn; lia]]].
    + assert ((4 | size + 12)) by (apply Z.divide_add_r; [done|by exists 3]).
      apply sized_cons. split; [split; [cbn; lia|done]|]. apply sized_cons. split; [|constructor].
      split; [cbn; lia|]. cbn. by apply Z.divide_sub_r.
    + intros L HL. cbn. done.
  - split; [|split; [cbn; lia|split; [|cbn; lia]]].
    + apply sized_cons. split; [done|constructor].
    + intros L HL. cbn. by eapply coalesced_weaken.
Qed.

Lemma wp_count_used v (Q : unit -> heap -> Prop) h :
  0 <= used_mem h + v < 2 ^ 32 -> used_mem h <= max_mem h < 2 ^ 32 ->
  (forall x, used_mem h + v <= x < 2 ^ 32 -> Q tt (set_max_mem x (set_used_mem (used_mem h + v) h))) ->
  wp (count_used v) Q h.
Proof.
  intros Hv Hm HQ. unfold count_used. rewrite wp_bind, wp_gets, wp_bind, wp_modify, wp_bind, wp_gets, wp_bind, wp_gets.
  cbn [used_mem max_mem set_used_mem]. rewrite wrap_small by done.
  destruct (Z.ltb_spec (max_mem h) (used_mem h + v)); cbn [when].
  - rewrite wp_modify. apply HQ. lia.
  - rewrite wp_ret. specialize (HQ (max_mem h) ltac:(lia)). exact HQ.
Qed.

(** Taking a free block out of the middle of the heap. *)
Lemma wp_take_block L1 n L2 size (Q : unit -> heap -> Prop) h :
  layout (L1 ++ (false, n) :: L2) h -> 12 <= size -> (4 | size) -> size <= n - 12 ->
  (forall m' u x, chain m' (heap_ptr h) 0 0 (L1 ++ carve size n ++ L2) ->
     u = used_total (L1 ++ carve size n ++ L2) -> u <= x < 2 ^ 32 ->
     Q tt (set_max_mem x (set_used_mem u (with_mem m' h)))) ->
  forall y, hp_mem h !! (heap_ptr h + total L1) = Some y ->
  wp (take_block size (total L1) (heap_ptr h + total L1) y) Q h.
Proof.
  intros [Hst Hlim Hsz Ht Hs Hco Hc He Hl Hu Hm Hda] Hs12 Hs4 Hfit HQ y Hy.
  apply sized_app in Hs as HS. destruct HS as [S1 S2]. apply sized_cons in S2 as S2'. destruct S2' as [[Hn Hn4] S2']. cbn in Hn, Hn4.
  pose proof (total_nonneg L1 S1). pose proof (total_nonneg L2 S2').
  pose proof Hc as Hc'. apply blocks_app in Hc' as [Hg Hc1]. rewrite Z.add_0_l in Hc1. pose proof Hc1 as [H1 H2].
  rewrite Hy in H1. injection H1 as ->.
  rewrite total_app in Ht. rewrite used_total_app in Hu. cbn [total used_total] in Ht, Hu.
  change (2 ^ 32) with 4294967296 in *.
  unfold take_block. rewrite wp_bind, wp_gets, wp_bind, wp_gets. cbn [hm_next header].
  change SIZEOF_STRUCT_MEM with 12. change MIN_SIZE_ALIGNED with 12.
  replace (total L1 + n - (total L1 + 12)) with (n - 12) by lia. rewrite wrap_small by lia.
  replace (size + 12 + 12) with (size + 24) by lia.
  assert (Hcarve : forall X, chain X (heap_ptr h) (total L1) (last_off 0 0 L1) (carve size n ++ L2) ->
    seg X (heap_ptr h) 0 0 L1 -> chain X (heap_ptr h) 0 0 (L1 ++ carve size n ++ L2)).
  { intros X Hc2 Hg2. apply blocks_app. by rewrite Z.add_0_l. }
  rewrite !used_total_app in HQ. unfold carve in *. destruct (Z.leb_spec (size + 24) (n - 12)) as [Hsplit|Hsplit].
  - cbn [app used_total] in HQ, Hcarve. set (k := size + 12) in *. replace (total L1 + 12 + size) with (total L1 + k) by lia.
    destruct (chain_cut (hp_mem h) (heap_ptr h) (total L1) (last_off 0 0 L1) false true n k L2 S2 ltac:(lia) Hc1) as [(z & Z1 & Z2) Z3].
    rewrite wp_bind, wp_bind, wp_modify.
    rewrite wp_bind. eapply wp_upd_hm; [cbn [hp_mem set_hp_mem]; rewrite lookup_insert_ne by lia; exact Hy|].
    rewrite wp_bind. eapply wp_upd_hm; [cbn [hp_mem set_hp_mem with_mem]; apply lookup_insert_eq|].
    cbn [hp_mem set_hp_mem with_mem]. rewrite insert_insert_eq.
    change (set_used 1 (set_next (total L1 + k) (header false (total L1 + n) (last_off 0 0 L1)))) with (header true (total L1 + k) (last_off 0 0 L1)).
    set (m1 := <[heap_ptr h + total L1:=header true (total L1 + k) (last_off 0 0 L1)]>
                (<[heap_ptr h + (total L1 + k):=mkHm HEAP_MAGIC 0 (total L1 + n) (total L1)]> (hp_mem h))) in *.
    change (m1 !! (heap_ptr h + (total L1 + n)) = Some z) in Z1.
    assert (Hgo : forall m2, chain m2 (heap_ptr h) (total L1) (last_off 0 0 L1) ((true, k) :: (false, n - k) :: L2) ->
      seg m2 (heap_ptr h) 0 0 L1 -> wp (count_used k ;; upd_hm (heap_ptr h + total L1) (set_magic HEAP_MAGIC)) Q (with_mem m2 h)).
    { intros m2 Hc2 Hg2. rewrite wp_bind. apply wp_count_used; [cbn [with_mem set_hp_mem used_mem]; lia|exact Hm|].
      intros x Hx. cbn [with_mem set_hp_mem used_mem] in *. pose proof Hc2 as [K1 _].
      eapply wp_upd_hm; [exact K1|].
      change (set_magic HEAP_MAGIC (header true (total L1 + k) (last_off 0 0 L1))) with (header true (total L1 + k) (last_off 0 0 L1)).
      cbn [hp_mem set_max_mem set_used_mem with_mem set_hp_mem]. rewrite insert_id by done.
      apply (HQ m2 (used_mem h + k) x); [by apply Hcarve|cbn; lia|lia]. }
    destruct (Z.eqb_spec (total L1 + n) (mem_size_aligned h + 12)) as [Ee|Ee]; cbn [negb when].
    + rewrite wp_bind, wp_ret, <- wp_bind. apply Hgo.
      * apply Z3. destruct L2 as [|[v j] L2]; [done|]. apply sized_cons in S2' as [[Hj _] S2']. cbn in *.
        pose proof (total_nonneg L2 S2'). lia.
      * subst m1. apply seg_insert; [done|lia|]. apply seg_insert; [done|lia|done].
    + rewrite wp_bind. eapply wp_upd_hm; [exact Z1|]. rewrite <- wp_bind. apply Hgo; [exact Z2|].
      cbn [hp_mem with_mem set_hp_mem]. subst m1. apply seg_insert; [done|lia|]. apply seg_insert; [done|lia|]. apply seg_insert; [done|lia|done].
  - cbn [app used_total] in HQ, Hcarve. replace (total L1 + n - (heap_ptr h + total L1 - heap_ptr h)) with n by lia.
    rewrite wp_bind, wp_bind. eapply wp_upd_hm; [exact Hy|].
    change (set_used 1 (header false (total L1 + n) (last_off 0 0 L1))) with (header true (total L1 + n) (last_off 0 0 L1)).
    apply wp_count_used; [cbn [with_mem set_hp_mem used_mem]; lia|exact Hm|].
    intros x Hx. cbn [with_mem set_hp_mem used_mem] in *.
    eapply wp_upd_hm; [cbn [hp_mem set_max_mem set_used_mem]; apply lookup_insert_eq|].
    cbn [hp_mem set_max_mem set_used_mem set_hp_mem with_mem]. rewrite insert_insert_eq.
    change (set_magic HEAP_MAGIC (header true (total L1 + n) (last_off 0 0 L1))) with (header true (total L1 + n) (last_off 0 0 L1)).
    apply (HQ (<[heap_ptr h + total L1 := header true (total L1 + n) (last_off 0 0 L1)]> (hp_mem h)) (used_mem h + n) x); [|cbn; lia|lia].
    apply Hcarve.
    + split; [apply lookup_insert_eq|]. apply blocks_insert; [done|lia|done].
    + apply seg_insert; [done|lia|done].
Qed.

(** ** Allocation *)

Lemma set_lfree_same h : set_lfree (lfree h) h = h.
Proof. by destruct h. Qed.

Lemma wp_next_free fuel A B h (Q : unit -> heap -> Prop) :
  sized (A ++ B) -> chain (hp_mem h) (heap_ptr h) 0 0 (A ++ B) -> heap_end h = heap_ptr h + total (A ++ B) ->
  lfree h = heap_ptr h + total A -> (length B <= fuel)%nat ->
  Q tt (set_lfree (heap_ptr h + first_free (total A) B) h) -> wp (next_free fuel) Q h.
Proof.
  revert fuel A h Q. induction B as [|[u n] B IH]; intros fuel A h Q Hs Hc He Hl Hf HQ.
  - rewrite app_nil_r in *. rewrite <- (app_nil_r A) in Hc. apply blocks_app in Hc as [_ [q Hq]]. rewrite Z.add_0_l in Hq.
    cbn [first_free] in HQ. rewrite <- Hl, set_lfree_same in HQ.
    destruct fuel; cbn [next_free]; rewrite wp_bind, wp_gets, wp_bind, Hl; (eapply wp_get_hm; [exact Hq|]);
      rewrite wp_bind, wp_gets, He; cbn [hm_used header]; change (1 =? 0) with false;
      (destruct (Z.eqb_spec (heap_ptr h + total A) (heap_ptr h + total A)); [|done]); cbn [negb andb]; by rewrite wp_ret.
  - pose proof Hc as Hc'. apply blocks_app in Hc' as [_ [H1 _]]. rewrite Z.add_0_l in H1.
    apply sized_app in Hs as Hs'. destruct Hs' as [_ SB]. apply sized_cons in SB as [[Hn _] SB]. cbn in Hn.
    rewrite total_app in He. cbn [total] in He. pose proof (total_nonneg B SB).
    cbn [length] in Hf. destruct fuel as [|fuel]; [lia|]. cbn [next_free].
    rewrite wp_bind, wp_gets, wp_bind, Hl. eapply wp_get_hm; [exact H1|]. rewrite wp_bind, wp_gets. cbn [hm_used hm_next header].
    destruct u; cbn [first_free] in HQ.
    + change (1 =? 0) with false. destruct (Z.eqb_spec (heap_ptr h + total A) (heap_end h)); [lia|]. cbn [negb andb].
      rewrite wp_bind, wp_gets, wp_bind, wp_modify.
      assert (Et : total (A ++ [(true, n)]) = total A + n) by (rewrite total_app; cbn; lia).
      apply (IH fuel (A ++ [(true, n)])); rewrite <- ?app_assoc; cbn [app].
      * exact Hs.
      * exact Hc.
      * cbn [heap_end heap_ptr set_lfree]. rewrite total_app. cbn [total]. lia.
      * cbn [lfree heap_ptr set_lfree]. by rewrite Et.
      * lia.
      * rewrite Et. exact HQ.
    + change (0 =? 0) with true. cbn [negb andb]. rewrite wp_ret. by rewrite <- Hl, set_lfree_same in HQ.
Qed.

(** Two ways to cut the same heap. *)
Lemma split_at L1 (b c : block) L2 A B : sized (L1 ++ b :: L2) -> L1 ++ b :: L2 = A ++ c :: B ->
  total L1 <= total A < total L1 + b.2 -> A = L1 /\ c = b /\ B = L2.
Proof.
  revert A. induction L1 as [|[u n] L1 IH]; intros A Hs E Ht; destruct A as [|[v k] A]; cbn [app total] in *.
  - by injection E as <- <-.
  - injection E as Eb EA. rewrite Eb in Ht. cbn in Ht. rewrite EA in Hs. apply sized_cons in Hs as [_ Hs].
    apply sized_app in Hs as [Hs _]. pose proof (total_nonneg A Hs). lia.
  - apply sized_cons in Hs as [[Hn _] Hs]. cbn in Hn. apply sized_app in Hs as [Hs _]. pose proof (total_nonneg L1 Hs). lia.
  - injection E as <- <- E. apply sized_cons in Hs as [_ Hs]. destruct (IH A Hs E) as (-> & -> & ->); [lia|done].
Qed.

Lemma first_free_split off L : exists L1 L2, L = L1 ++ L2 /\ first_free off L = off + total L1 /\
  Forall (fun b => b.1 = true) L1 /\ (L2 = [] \/ exists n L', L2 = (false, n) :: L').
Proof.
  revert off. induction L as [|[[] n] L IH]; intros off.
  - exists [], []. cbn. split; [done|]. split; [lia|]. split; [constructor|by left].
  - destruct (IH (off + n)) as (L1 & L2 & -> & E & Hu & H2). exists ((true, n) :: L1), L2. cbn. rewrite E.
    split; [done|]. split; [lia|]. split; [by constructor|done].
  - exists [], ((false, n) :: L). cbn. split; [done|]. split; [lia|]. split; [constructor|right; by eexists _, _].
Qed.
Lemma first_free_lt off L : sized L -> ~ Forall (fun b => b.1 = true) L -> first_free off L < off + total L.
Proof.
  intros Hs. revert off. induction Hs as [|[[] n] L [Hn _] Hs IH]; intros off Hf; cbn in *.
  - destruct Hf. constructor.
  - specialize (IH (off + n)). rewrite Z.add_assoc. apply IH. intros Hu. apply Hf. by constructor.
  - pose proof (total_nonneg L Hs). lia.
Qed.

Lemma wp_find_lfree fuel A B h (Q : unit -> heap -> Prop) :
  sized (A ++ B) -> chain (hp_mem h) (heap_ptr h) 0 0 (A ++ B) -> heap_end h = heap_ptr h + total (A ++ B) ->
  lfree h = heap_ptr h + total A -> (length B <= fuel)%nat ->
  Q tt (set_lfree (heap_ptr h + first_free (total A) B) h) ->
  wp (next_free fuel ;; l ← gets lfree; lm ← get_hm l; e ← gets heap_end; rt_assert ((l =? e) || (hm_used lm =? 0))) Q h.
Proof.
  intros Hs Hc He Hl Hf HQ. rewrite wp_bind. eapply wp_next_free; try done.
  rewrite wp_bind, wp_gets, wp_bind. cbn [lfree set_lfree].
  destruct (first_free_split (total A) B) as (B1 & B2 & -> & Eff & _ & HB2). rewrite Eff in *. clear Eff.
  pose proof Hc as Hc2. rewrite app_assoc in Hc2. apply blocks_app in Hc2 as [_ Hc2]. rewrite total_app, Z.add_0_l in Hc2.
  destruct (chain_first _ _ _ _ _ Hc2) as [q Hq]. eapply wp_get_hm; [exact Hq|]. rewrite wp_bind, wp_gets.
  apply wp_assert; [|done]. apply orb_true_iff. cbn [heap_end set_lfree]. destruct HB2 as [-> | (n & L' & ->)].
  - left. apply Z.eqb_eq. rewrite app_nil_r, total_app in He. lia.
  - by right.
Qed.

(** No free block at an offset below [bound] has room for [size] bytes. *)
Definition no_fit (L : list block) (size bound : Z) : Prop :=
  forall A n B, L = A ++ (false, n) :: B -> total A < bound -> n - 12 < size.

(** What a search that starts behind [L1] finds: nothing, or the first block that fits. *)
Definition found (L : list block) (size : Z) (h : heap) (r : option Z) (h' : heap) : Prop :=
  match r with
  | None => h' = h /\ no_fit L size (mem_size_aligned h - size)
  | Some mem => exists A n B, L = A ++ (false, n) :: B /\ mem = heap_ptr h + total A /\ total A < mem_size_aligned h - size /\
      size <= n - 12 /\ no_fit L size (total A) /\
      layout (A ++ carve size n ++ B) h' /\ same_heap h h' /\ hp_data h' = hp_data h /\ heap_sem h' = heap_sem h
  end.

Lemma layout_carved A n B size m u x h :
  layout (A ++ (false, n) :: B) h -> 12 <= size -> (4 | size) -> size <= n - 12 ->
  chain m (heap_ptr h) 0 0 (A ++ carve size n ++ B) -> u = used_total (A ++ carve size n ++ B) -> u <= x < 2 ^ 32 ->
  layout (A ++ carve size n ++ B)
    (set_lfree (heap_ptr h + first_free 0 (A ++ carve size n ++ B)) (set_max_mem x (set_used_mem u (with_mem m h)))).
Proof.
  intros [Hst Hlim Hsz Ht Hs Hco Hc He Hl Hu Hm Hda] Hs12 Hs4 Hfit Hc' Eu Hx.
  apply sized_app in Hs as [S1 S2]. apply sized_cons in S2 as [[Hn Hn4] S2]. cbn in Hn, Hn4.
  apply coalesced_app in Hco as [C1 [C2 C3]].
  destruct (carve_facts size n (ends_free false A) Hn Hn4 ltac:(lia) Hs4) as (K1 & K2 & K3 & K4).
  assert (Et : total (A ++ carve size n ++ B) = total (A ++ (false, n) :: B)) by (rewrite !total_app, K2; done).
  assert (Hs' : sized (A ++ carve size n ++ B)) by (rewrite !sized_app; done).
  pose proof (total_nonneg _ Hs'). split; cbn [heap_ptr mem_size_aligned hp_mem heap_end lfree used_mem max_mem set_lfree set_max_mem set_used_mem with_mem set_hp_mem].
  - done.
  - done.
  - done.
  - by rewrite Et.
  - done.
  - apply coalesced_app. split; [done|]. by apply K3.
  - done.
  - by rewrite Et.
  - done.
  - rewrite wrap_small; [done|]. lia.
  - rewrite wrap_small; lia.
  - apply Forall_app in Hda as [D1 D2]. apply Forall_cons in D2 as [_ D2]. apply Forall_app. split; [done|].
    apply Forall_app. split; [|done]. unfold carve. destruct (size + 24 <=? n - 12); repeat constructor; cbn; (lia || done).
Qed.

Lemma wp_malloc_loop fuel size L1 L2 h :
  layout (L1 ++ L2) h -> 12 <= size <= mem_size_aligned h -> (4 | size) -> (length L2 + 2 <= fuel)%nat ->
  no_fit (L1 ++ L2) size (total L1) ->
  wp (malloc_loop fuel size (total L1)) (fun r h' => found (L1 ++ L2) size h r h') h.
Proof.
  revert fuel L1. induction L2 as [|b L2 IH]; intros fuel L1 Hly Hsz Hs4 Hf Hnf.
  - destruct fuel as [|fuel]; [lia|]. cbn [malloc_loop]. rewrite wp_bind, wp_gets, wp_bind, wp_gets.
    pose proof (ly_limit _ _ Hly). pose proof (ly_total _ _ Hly) as Ht. rewrite app_nil_r in Ht. pose proof (ly_start _ _ Hly).
    rewrite wrap_small by lia. destruct (Z.ltb_spec (total L1) (mem_size_aligned h - size)); [lia|]. rewrite wp_ret.
    split; [done|]. intros A n B E Ha. apply (Hnf A n B E). lia.
  - destruct fuel as [|fuel]; [lia|]. cbn [malloc_loop length] in *. rewrite wp_bind, wp_gets, wp_bind, wp_gets.
    pose proof (ly_limit _ _ Hly). pose proof (ly_start _ _ Hly) as [Hst _]. pose proof (ly_sized _ _ Hly) as Hs.
    apply sized_app in Hs as Hs'. destruct Hs' as [S1 S2]. apply sized_cons in S2 as [[Hn Hn4] S2].
    pose proof (total_nonneg L1 S1). pose proof (total_nonneg L2 S2).
    pose proof (ly_total _ _ Hly) as Ht. rewrite total_app in Ht. destruct b as [u n]. cbn [total snd] in *.
    change (2 ^ 32) with 4294967296 in *.
    rewrite (wrap_small 32 (mem_size_aligned h - size)) by lia. destruct (Z.ltb_spec (total L1) (mem_size_aligned h - size)).
    2: { rewrite wp_ret. split; [done|]. intros A k B E Ha. apply (Hnf A k B E). lia. }
    pose proof (ly_chain _ _ Hly) as Hc. apply blocks_app in Hc as [Hg [Hk1 Hk2]]. rewrite Z.add_0_l in *.
    rewrite wp_bind. eapply wp_get_hm; [exact Hk1|]. cbn [hm_used hm_next header].
    change SIZEOF_STRUCT_MEM with 12. replace (total L1 + n - (total L1 + 12)) with (n - 12) by lia.
    rewrite wrap_small by lia.
    destruct ((_ =? 0) && (size <=? n - 12)) eqn:Etest.
    + apply andb_true_iff in Etest as [Eu Efit]. apply Z.leb_le in Efit. destruct u; [done|]. clear Eu.
      rewrite wp_bind. eapply wp_take_block; [exact Hly|lia|done|done| |exact Hk1].
      intros m x y Hc' Ex Hy. set (h1 := set_max_mem y (set_used_mem x (with_mem m h))).
      pose proof (layout_carved L1 n L2 size m x y h Hly ltac:(lia) Hs4 Efit Hc' Ex Hy) as Hly'. fold h1 in Hly'.
      assert (Hdone : forall l, l = heap_ptr h + first_free 0 (L1 ++ carve size n ++ L2) ->
        found (L1 ++ (false, n) :: L2) size h (Some (heap_ptr h + total L1)) (set_lfree l h1)).
      { intros l ->. exists L1, n, L2. repeat (split; [done|]). done. }
      rewrite wp_bind, wp_gets, wp_bind. change (lfree h1) with (lfree h). rewrite (ly_lfree _ _ Hly), first_free_app.
      rewrite first_free_app in Hdone, Hly'. case_bool_decide as Hall.
      * cbn [first_free]. rewrite Z.add_0_l in *. destruct (Z.eqb_spec (heap_ptr h + total L1) (heap_ptr h + total L1)); [|done]. cbn [when].
        eapply (wp_find_lfree fuel L1 (carve size n ++ L2) h1).
        -- apply (ly_sized _ _ Hly').
        -- exact Hc'.
        -- apply (ly_end _ _ Hly').
        -- change (lfree h1) with (lfree h). rewrite (ly_lfree _ _ Hly), first_free_app, bool_decide_eq_true_2 by done. done.
        -- unfold carve. destruct (size + 24 <=? n - 12); cbn; lia.
        -- rewrite wp_ret. by apply Hdone.
      * pose proof (first_free_lt 0 L1 S1 Hall).
        destruct (Z.eqb_spec (heap_ptr h + total L1) (heap_ptr h + first_free 0 L1)); [lia|]. cbn [when].
        rewrite !wp_ret. specialize (Hdone _ eq_refl).
        assert (El : heap_ptr h + first_free 0 L1 = lfree h1).
        { change (lfree h1) with (lfree h). rewrite (ly_lfree _ _ Hly), first_free_app, bool_decide_eq_false_2 by done. done. }
        rewrite El, set_lfree_same in Hdone. exact Hdone.
    + assert (Et : total (L1 ++ [(u, n)]) = total L1 + n) by (rewrite total_app; cbn; lia).
      rewrite <- Et. replace (L1 ++ (u, n) :: L2) with ((L1 ++ [(u, n)]) ++ L2) in * by (by rewrite <- app_assoc).
      apply IH; [done|done|done|lia|].
      intros A k B E Ha. destruct (decide (total A < total L1)); [by eapply Hnf|].
      rewrite <- app_assoc in E, Hs. cbn [app] in E, Hs.
      destruct (split_at L1 (u, n) (false, k) L2 A B Hs E) as (_ & [= <- <-] & _); [cbn; lia|].
      change (0 =? 0) with true in Etest. cbn [andb] in Etest. apply Z.leb_gt in Etest. lia.
Qed.

(** *** Sizes *)

Lemma align4 size : 0 <= size <= 2 ^ 32 - 4 ->
  RT_ALIGN size RT_ALIGN_SIZE = 4 * ((size + 3) / 4) /\ (4 | RT_ALIGN size RT_ALIGN_SIZE) /\
  size <= RT_ALIGN size RT_ALIGN_SIZE < size + 4.
Proof.
  intros Hs. assert (E : RT_ALIGN size RT_ALIGN_SIZE = 4 * ((size + 3) / 4)).
  { unfold RT_ALIGN, RT_ALIGN_SIZE. replace (size + 4 - 1) with (size + 3) by lia. change (4 - 1) with (Z.ones 2).
    rewrite <- Z.ldiff_land, Z.ldiff_ones_r, Z.shiftl_mul_pow2, Z.shiftr_div_pow2 by lia. change (2 ^ 2) with 4.
    rewrite wrap_small; [lia|]. pose proof (Z.div_mod (size + 3) 4). pose proof (Z.mod_pos_bound (size + 3) 4). lia. }
  rewrite E. split; [done|]. split; [by exists ((size + 3) / 4); lia|].
  pose proof (Z.div_mod (size + 3) 4). pose proof (Z.mod_pos_bound (size + 3) 4). lia.
Qed.
Lemma land3 a : (4 | a) -> Z.land a (RT_ALIGN_SIZE - 1) = 0 /\ a mod RT_ALIGN_SIZE = 0.
Proof.
  intros [k ->]. change (RT_ALIGN_SIZE - 1) with (Z.ones 2). rewrite Z.land_ones by lia. change (2 ^ 2) with 4.
  unfold RT_ALIGN_SIZE. by rewrite Z.mod_mul.
Qed.

(** The bytes a block is cut for. *)
Definition need (size : Z) : Z :=
  let size := RT_ALIGN size RT_ALIGN_SIZE in if size <? MIN_SIZE_ALIGNED then MIN_SIZE_ALIGNED else size.
Lemma need_facts size : 0 <= size <= 2 ^ 32 - 4 -> size <= need size /\ 12 <= need size /\ (4 | need size) /\
  RT_ALIGN size RT_ALIGN_SIZE <= need size.
Proof.
  intros Hs. destruct (align4 size Hs) as (_ & Hd & Hb). unfold need. change MIN_SIZE_ALIGNED with 12.
  destruct (Z.ltb_spec (RT_ALIGN size RT_ALIGN_SIZE) 12); (split; [lia|]); (split; [lia|]); (split; [(by exists 3) || done|lia]).
Qed.

(** The heap has given the block [r] out. *)
Definition taken (L : list block) (size : Z) (h : heap) (r : Z) (h' : heap) : Prop :=
  exists A n B, L = A ++ (false, n) :: B /\ r = heap_ptr h + total A + 12 /\ size <= n - 12 /\
    heap_ok (A ++ carve size n ++ B) h' /\ same_heap h h' /\ hp_data h' = hp_data h /\ no_fit L size (total A).

Lemma layout_sem L v h : layout L h -> layout L (set_heap_sem v h).
Proof. intros []. by split. Qed.
Lemma set_heap_sem_back h : heap_sem h = 1 -> set_heap_sem (0 + 1) (set_heap_sem 0 h) = h.
Proof. destruct h. cbn. by intros ->. Qed.

Lemma wp_take_heap_sem (Q : unit -> heap -> Prop) h : heap_sem h = 1 -> Q tt (set_heap_sem 0 h) -> wp take_heap_sem Q h.
Proof.
  intros Hs HQ. unfold take_heap_sem. rewrite wp_bind, wp_gets, Hs, wp_bind. by apply wp_assert; [|rewrite wp_modify].
Qed.
Lemma wp_release_heap_sem (Q : unit -> heap -> Prop) h : heap_sem h = 0 -> Q tt (set_heap_sem 1 h) -> wp release_heap_sem Q h.
Proof. intros Hs HQ. unfold release_heap_sem. by rewrite wp_bind, wp_gets, Hs, wp_modify. Qed.

Lemma wp_rt_malloc fuel size L h :
  heap_ok L h -> 0 < size <= 2 ^ 32 - 4 -> (length L + 2 <= fuel)%nat ->
  wp (rt_malloc 0 fuel size) (fun r h' =>
    (r = 0 /\ h' = h /\ no_fit L (need size) (mem_size_aligned h - need size)) \/ taken L (need size) h r h') h.
Proof.
  intros [Hly Hsem] Hsz Hf. destruct (need_facts size ltac:(lia)) as (N1 & N2 & N3 & N4).
  destruct (align4 size ltac:(lia)) as (_ & _ & Hal). pose proof (ly_size _ _ Hly) as [Hm _]. pose proof (ly_total _ _ Hly) as Ht.
  unfold rt_malloc. destruct (Z.eqb_spec size 0) as [|_]; [lia|]. rewrite wp_bind. apply wp_assert; [done|]. rewrite wp_bind, wp_gets.
  pose proof (ly_sized _ _ Hly) as Hs.
  assert (Hbig : mem_size_aligned h < need size -> no_fit L (need size) (mem_size_aligned h - need size)).
  { intros Hlt A n B -> Ha. apply sized_app in Hs as [Hs _]. pose proof (total_nonneg A Hs). lia. }
  destruct (Z.ltb_spec (mem_size_aligned h) (RT_ALIGN size RT_ALIGN_SIZE)).
  { rewrite wp_ret. left. split; [done|]. split; [done|]. apply Hbig. lia. }
  fold (need size).
  assert (need size <= mem_size_aligned h).
  { unfold need in *. change MIN_SIZE_ALIGNED with 12 in *. destruct (Z.ltb_spec (RT_ALIGN size RT_ALIGN_SIZE) 12); lia. }
  change (if RT_ALIGN size RT_ALIGN_SIZE <? MIN_SIZE_ALIGNED then MIN_SIZE_ALIGNED else RT_ALIGN size RT_ALIGN_SIZE) with (need size).
  rewrite wp_bind. apply wp_take_heap_sem; [done|]. rewrite wp_bind, wp_gets, wp_bind, wp_gets. cbn [lfree heap_ptr set_heap_sem].
  destruct (first_free_split 0 L) as (L1 & L2 & EL & Eff & Hused & _). rewrite Z.add_0_l in Eff.
  rewrite (ly_lfree _ _ Hly), Eff. replace (heap_ptr h + total L1 - heap_ptr h) with (total L1) by lia.
  assert (Hnf : no_fit (L1 ++ L2) (need size) (total L1)).
  { intros A n B E Ha. exfalso. rewrite EL, E in Hs. apply sized_app in Hs as [SA _].
    assert (Hle : first_free 0 (A ++ (false, n) :: B) <= total A).
    { rewrite first_free_app. case_bool_decide; [cbn; lia|]. pose proof (first_free_bound 0 A SA). lia. }
    rewrite <- E, <- EL, Eff in Hle. lia. }
  rewrite wp_bind. rewrite EL in Hly. eapply wp_mono, (wp_malloc_loop fuel (need size) L1 L2).
  2: by apply layout_sem.
  2: done.
  2: done.
  2: { rewrite EL, length_app in Hf. lia. }
  2: exact Hnf.
  intros [mem|] h' Hfound; cbn [found] in Hfound; rewrite <- EL in Hfound.
  - destruct Hfound as (A & n & B & E & -> & Ha & Hfit & Hff & Hly' & (P1 & P2 & P3) & Hd & Hse). cbn [heap_ptr heap_end mem_size_aligned hp_data heap_sem set_heap_sem] in *.
    rewrite wp_bind. apply wp_release_heap_sem; [done|].
    rewrite E in Ht, Hs. rewrite total_app in Ht. cbn [total] in Ht. apply sized_app in Hs as [SA SB]. apply sized_cons in SB as [_ SB].
    pose proof (total_nonneg B SB). pose proof (ly_end _ _ Hly) as He. pose proof (ly_start _ _ Hly) as [Hp Hp4].
    rewrite <- EL in He. rewrite E, total_app in He. cbn [total] in He.
    assert (D : (4 | heap_ptr h + total A)) by (apply Z.divide_add_r; [done|by apply total_div]).
    rewrite wp_bind, wp_gets. cbn [heap_end set_heap_sem]. rewrite P2. change SIZEOF_STRUCT_MEM with 12.
    rewrite wp_bind. apply wp_assert; [apply Z.leb_le; lia|].
    rewrite wp_bind. apply wp_assert; [apply Z.eqb_eq; apply land3, Z.divide_add_r; [done|by exists 3]|].
    rewrite wp_bind. apply wp_assert; [apply Z.eqb_eq; by apply land3|]. rewrite wp_ret. right.
    exists A, n, B. split; [done|]. split; [done|]. split; [done|]. split; [split; [by apply layout_sem|done]|].
    split; [by repeat split|]. split; [done|done].
  - destruct Hfound as [-> Hno]. rewrite wp_bind. apply wp_release_heap_sem; [done|]. rewrite wp_ret. left.
    split; [done|]. split; [by apply set_heap_sem_back|done].
Qed.

(** ** Release *)

Lemma chain_set_first m p off prev u v n L : sized ((u, n) :: L) -> chain m p off prev ((u, n) :: L) ->
  chain (<[p + off := header v (off + n) prev]> m) p off prev ((v, n) :: L).
Proof.
  intros Hs [H1 H2]. apply sized_cons in Hs as [[Hn _] Hs]. cbn in Hn. pose proof (total_nonneg L Hs).
  split; [apply lookup_insert_eq|]. apply blocks_insert; [done|lia|done].
Qed.

(** The free list head stays the first free block when the block behind [A] becomes free. *)
Lemma first_free_release A n B : sized (A ++ (true, n) :: B) ->
  first_free 0 (A ++ (false, n) :: B) = Z.min (first_free 0 (A ++ (true, n) :: B)) (total A) /\
  (match last A with Some (false, _) => first_free 0 (A ++ (true, n) :: B) < total A | _ => True end).
Proof.
  intros Hs. apply sized_app in Hs as [SA SB]. apply sized_cons in SB as [[Hn _] SB]. cbn in Hn. rewrite !first_free_app.
  case_bool_decide as Hall; cbn [first_free].
  - pose proof (first_free_bound (0 + total A + n) B SB). split; [lia|].
    destruct A as [|[u k] A _] using rev_ind; [done|]. rewrite last_snoc. apply Forall_app in Hall as [_ Hk].
    apply Forall_cons in Hk as [Hk _]. cbn in Hk. by rewrite Hk.
  - pose proof (first_free_lt 0 A SA Hall). split; [lia|]. destruct (last A) as [[[] ?]|]; (done || lia).
Qed.

Lemma nonempty_plug A v n B : nonempty (A ++ (v, n) :: B) -> nonempty (plug A n B).
Proof.
  intros Hd. apply Forall_app in Hd as [D1 D2]. apply Forall_cons in D2 as [_ D2]. unfold plug.
  set (n' := (join_next n B).1). assert (D2' : nonempty (join_next n B).2).
  { destruct B as [|[[] k] B]; [done|done|]. by apply Forall_cons in D2 as [_ D2]. }
  destruct A as [|[u k] A _] using rev_ind; [by constructor|]. rewrite join_prev_snoc. apply Forall_app in D1 as [D1 Dk].
  apply Forall_cons in Dk as [Dk _]. destruct u; apply Forall_app; (split; [done|]); repeat (constructor; [done|]); done.
Qed.

Lemma wp_rt_free A n B h (Q : unit -> heap -> Prop) :
  heap_ok (A ++ (true, n) :: B) h ->
  (forall h', heap_ok (plug A n B) h' -> same_heap h h' -> hp_data h' = hp_data h -> Q tt h') ->
  wp (rt_free 0 (heap_ptr h + total A + 12)) Q h.
Proof.
  intros [Hly Hsem] HQ. pose proof Hly as [[Hp Hp4] Hlim Hsz Ht Hs Hco Hc He Hl Hu Hm Hda].
  destruct (first_free_release A n B Hs) as [Eff Hlast].
  apply sized_app in Hs as Hs'. destruct Hs' as [SA SB]. apply sized_cons in SB as SB'. destruct SB' as [[Hn Hn4] SB']. cbn in Hn, Hn4.
  pose proof (total_nonneg A SA). pose proof (total_nonneg B SB'). pose proof Ht as Ht'. pose proof Hu as Hu'.
  rewrite total_app in Ht'. rewrite used_total_app in Hu'. cbn [total used_total] in Ht', Hu'.
  rewrite total_app in He. cbn [total] in He. change (2 ^ 32) with 4294967296 in *.
  assert (D : (4 | heap_ptr h + total A)) by (apply Z.divide_add_r; [done|by apply total_div]).
  unfold rt_free. destruct (Z.eqb_spec (heap_ptr h + total A + 12) 0) as [|_]; [lia|].
  rewrite wp_bind. apply wp_assert; [done|]. rewrite wp_bind, wp_gets, wp_bind, wp_gets.
  rewrite wp_bind. apply wp_assert; [apply Z.eqb_eq; apply land3, Z.divide_add_r; [done|by exists 3]|].
  assert (Hn16 : 16 <= n) by (apply Forall_app in Hda as [_ Hda]; apply Forall_cons in Hda as [Hda _]; by apply Hda).
  rewrite wp_bind. apply wp_assert; [apply andb_true_intro; split; [apply Z.leb_le|apply Z.ltb_lt]; lia|].
  change SIZEOF_STRUCT_MEM with 12. replace (heap_ptr h + total A + 12 - 12) with (heap_ptr h + total A) by lia.
  rewrite wp_bind. apply wp_take_heap_sem; [done|].
  pose proof Hc as Hc'. apply blocks_app in Hc' as [Hg Hc1]. rewrite Z.add_0_l in Hc1. pose proof Hc1 as [Hk1 Hk2].
  rewrite wp_bind. eapply wp_get_hm; [exact Hk1|]. cbn [hm_used hm_magic hm_next header].
  rewrite wp_bind. apply wp_assert; [done|]. rewrite wp_bind. apply wp_assert; [done|].
  rewrite wp_bind. eapply wp_upd_hm; [exact Hk1|]. rewrite wp_bind. eapply wp_upd_hm; [cbn [hp_mem with_mem set_hp_mem]; apply lookup_insert_eq|].
  cbn [hp_mem with_mem set_hp_mem set_heap_sem]. rewrite insert_insert_eq.
  change (set_magic HEAP_MAGIC (set_used 0 (header true (total A + n) (last_off 0 0 A)))) with (header false (total A + n) (last_off 0 0 A)).
  pose proof (chain_set_first _ _ _ _ true false n B SB Hc1) as Hc2.
  set (m1 := <[heap_ptr h + total A := header false (total A + n) (last_off 0 0 A)]> (hp_mem h)) in *.
  rewrite wp_bind, wp_gets. change (lfree (with_mem m1 _)) with (lfree h). rewrite wp_bind.
  set (l := if heap_ptr h + total A <? lfree h then heap_ptr h + total A else lfree h).
  assert (El : l = heap_ptr h + first_free 0 (A ++ (false, n) :: B)).
  { subst l. rewrite Eff, Hl. destruct (Z.ltb_spec (heap_ptr h + total A) (heap_ptr h + first_free 0 (A ++ (true, n) :: B))); lia. }
  set (h1 := set_used_mem (used_mem h - n) (set_lfree l (set_heap_sem 0 (with_mem m1 h)))).
  assert (Hh1 : holes h1 A n B).
  { split; cbn [h1 hp_mem heap_ptr heap_end lfree set_used_mem set_lfree set_heap_sem with_mem set_hp_mem].
    - apply sized_app. split; [done|]. apply sized_cons. by split.
    - apply blocks_app. rewrite Z.add_0_l. split; [|exact Hc2]. apply seg_insert; [done|lia|done].
    - rewrite total_app. cbn [total]. lia.
    - rewrite El. pose proof (first_free_zip A n B SA). lia. }
  assert (Hgo : wp (u ← gets used_mem; modify (set_used_mem (u - (total A + n - (heap_ptr h + total A - heap_ptr h)))) ;;
      plug_holes (heap_ptr h + total A) ;; release_heap_sem) Q (set_lfree l (set_heap_sem 0 (with_mem m1 h)))).
  { rewrite wp_bind, wp_gets, wp_bind, wp_modify. cbn [used_mem set_lfree set_heap_sem with_mem set_hp_mem].
    replace (total A + n - (heap_ptr h + total A - heap_ptr h)) with n by lia. fold h1. rewrite wp_bind.
    apply (wp_plug_holes h1 A n B).
    - exact Hh1.
    - cbn [h1 lfree heap_ptr set_used_mem set_lfree set_heap_sem with_mem set_hp_mem]. rewrite El, Eff.
      destruct (last A) as [[[] ?]|]; [done| |done]. lia.
    - intros m2 Hc3. apply wp_release_heap_sem; [done|]. apply HQ; [split; [|done]|done|done].
      pose proof (ho_sized _ _ _ _ Hh1) as Hs1. apply coalesced_app in Hco as [C1 C2].
      destruct (plug_facts A n B Hs1 C1 C2) as (P1 & P2 & P3 & P4). rewrite total_app in P3. rewrite used_total_app in P4. cbn [total used_total] in P3, P4.
      split; cbn [h1 heap_ptr mem_size_aligned hp_mem heap_end lfree used_mem max_mem set_used_mem set_lfree set_heap_sem with_mem set_hp_mem].
      + done.
      + done.
      + done.
      + lia.
      + done.
      + done.
      + exact Hc3.
      + lia.
      + rewrite El. f_equal. by rewrite first_free_plug.
      + rewrite wrap_small; lia.
      + rewrite wrap_small; lia.
      + by eapply nonempty_plug. }
  subst l. destruct (heap_ptr h + total A <? lfree h); cbn [when]; [rewrite wp_modify|rewrite wp_ret]; exact Hgo.
Qed.

(** ** What has been given out *)

(** The data areas of the used blocks: address and length. *)
Fixpoint areas (p off : Z) (L : list block) : list (Z * Z) :=
  match L with
  | [] => []
  | (true, n) :: L => (p + off + 12, n - 12) :: areas p (off + n) L
  | (false, n) :: L => areas p (off + n) L
  end.
Abbreviation allocated h L := (areas (heap_ptr h) 0 L).

Definition apart (a n b k : Z) : Prop := a + n <= b \/ b + k <= a.

Lemma areas_app p off L1 L2 : areas p off (L1 ++ L2) = areas p off L1 ++ areas p (off + total L1) L2.
Proof.
  revert off. induction L1 as [|[[] n] L1 IH]; intros off; cbn [app areas total].
  - by rewrite Z.add_0_r.
  - by rewrite IH, Z.add_assoc.
  - by rewrite IH, Z.add_assoc.
Qed.
Lemma areas_bounds p off L b k : sized L -> (b, k) ∈ areas p off L -> p + off + 12 <= b /\ b + k <= p + off + total L.
Proof.
  intros Hs. revert off. induction Hs as [|[[] n] L [Hn _] Hs IH]; intros off; cbn [areas total snd] in *.
  - by intros []%elem_of_nil.
  - pose proof (total_nonneg L Hs). intros [[= -> ->]|Hin]%elem_of_cons; [lia|]. apply IH in Hin. lia.
  - intros Hin. apply IH in Hin. lia.
Qed.
Lemma areas_elem p off L a len : (a, len) ∈ areas p off L <->
  exists A n B, L = A ++ (true, n) :: B /\ a = p + off + total A + 12 /\ len = n - 12.
Proof.
  split.
  - revert off. induction L as [|[[] n] L IH]; intros off; cbn [areas].
    + by intros []%elem_of_nil.
    + intros [[= -> ->]|Hin]%elem_of_cons.
      * exists [], n, L. cbn. split; [done|]. lia.
      * destruct (IH _ Hin) as (A & k & B & -> & -> & ->). exists ((true, n) :: A), k, B. cbn. split; [done|]. lia.
    + intros Hin. destruct (IH _ Hin) as (A & k & B & -> & -> & ->). exists ((false, n) :: A), k, B. cbn. split; [done|]. lia.
  - intros (A & n & B & -> & -> & ->). rewrite areas_app. cbn [areas]. rewrite Z.add_assoc. mem.
Qed.

(** One area apart from all others. *)
Lemma areas_mid p A u n B : areas p 0 (A ++ (u, n) :: B) =
  areas p 0 A ++ (if u : bool then [(p + total A + 12, n - 12)] else []) ++ areas p (total A + n) B.
Proof. rewrite areas_app, Z.add_0_l. by destruct u. Qed.

Lemma areas_apart p A u n B b k : sized (A ++ (u, n) :: B) -> (b, k) ∈ areas p 0 A ++ areas p (total A + n) B ->
  forall len, len <= n - 12 -> apart (p + total A + 12) len b k.
Proof.
  intros Hs Hin len Hlen. apply sized_app in Hs as [SA SB]. apply sized_cons in SB as [_ SB].
  apply elem_of_app in Hin as [Hin|Hin]; apply areas_bounds in Hin; try done; unfold apart; lia.
Qed.

Lemma areas_join_prev p A n B : areas p 0 (join_prev A n B) = areas p 0 A ++ areas p (total A + n) B.
Proof.
  destruct A as [|[u k] A _] using rev_ind; [done|]. rewrite join_prev_snoc, areas_app, total_app. cbn [total].
  destruct u; rewrite !areas_app; cbn [areas]; rewrite ?Z.add_0_l, ?Z.add_0_r, ?Z.add_assoc, ?app_nil_r, <- ?app_assoc; done.
Qed.
Lemma areas_plug p A n B : areas p 0 (plug A n B) = areas p 0 A ++ areas p (total A + n) B.
Proof.
  unfold plug. rewrite areas_join_prev. destruct B as [|[[] k] B]; [done|done|]. cbn [join_next fst snd areas]. by rewrite Z.add_assoc.
Qed.

(** The block a request is served with. *)
Definition given (size n : Z) : Z := if size + 24 <=? n - 12 then size else n - 12.
Lemma areas_carve p A size n B : areas p 0 (A ++ carve size n ++ B) =
  areas p 0 A ++ (p + total A + 12, given size n) :: areas p (total A + n) B.
Proof.
  rewrite areas_app, Z.add_0_l. f_equal. unfold carve, given. destruct (size + 24 <=? n - 12); cbn [app areas]; f_equal; [f_equal; lia|f_equal; lia].
Qed.

Lemma taken_areas L size h r h' : heap_ok L h -> 0 <= size -> taken L size h r h' -> exists L' len,
  heap_ok L' h' /\ same_heap h h' /\ hp_data h' = hp_data h /\ size <= len /\ (4 | r) /\
  heap_ptr h < r /\ r + len <= heap_end h /\ allocated h L' ≡ₚ (r, len) :: allocated h L /\
  forall b k, (b, k) ∈ allocated h L -> apart r len b k.
Proof.
  intros [Hly _] Hpos (A & n & B & -> & -> & Hfit & Hok & Hsame & Hd & _).
  pose proof (ly_sized _ _ Hly) as Hs. apply sized_app in Hs as Hs'. destruct Hs' as [SA SB]. apply sized_cons in SB as [[Hn _] SB].
  pose proof (total_nonneg A SA). pose proof (total_nonneg B SB). pose proof (ly_end _ _ Hly) as He. rewrite total_app in He. cbn [total] in He.
  assert (Hg : size <= given size n <= n - 12) by (unfold given; destruct (Z.leb_spec (size + 24) (n - 12)); lia).
  exists (A ++ carve size n ++ B), (given size n). split; [done|]. split; [done|]. split; [done|]. split; [lia|].
  split; [apply Z.divide_add_r; [apply Z.divide_add_r; [apply Hly|by apply total_div]|by exists 3]|].
  split; [lia|]. split; [lia|]. rewrite areas_carve, areas_mid. cbn [app]. split; [by rewrite Permutation_middle|].
  intros b k Hin. eapply areas_apart; [exact Hs|done|lia].
Qed.


(** Freeing by address. *)
Lemma wp_rt_free_area L a len h (Q : unit -> heap -> Prop) :
  heap_ok L h -> (a, len) ∈ allocated h L ->
  (forall L' h', heap_ok L' h' -> same_heap h h' -> hp_data h' = hp_data h ->
     allocated h L ≡ₚ (a, len) :: allocated h L' -> Q tt h') ->
  wp (rt_free 0 a) Q h.
Proof.
  intros Hok Hin HQ. apply areas_elem in Hin as (A & n & B & -> & -> & ->). rewrite Z.add_0_r.
  eapply wp_rt_free; [done|]. intros h' Hok' Hsame Hd. eapply HQ; try done.
  rewrite areas_mid, areas_plug, Z.add_0_r. cbn [app]. by rewrite Permutation_middle.
Qed.

(** C23: [rt_free] of an area given out takes exactly that area back; the free neighbours have
    been joined, so that no two free blocks are neighbours, and all the accounts (the
    lowest free block, the bytes in use) are right again. *)
Theorem rt_free_spec L a len h :
  heap_ok L h -> (a, len) ∈ allocated h L ->
  wp (rt_free 0 a) (fun _ h' => exists L', heap_ok L' h' /\ same_heap h h' /\ hp_data h' = hp_data h /\
    allocated h L ≡ₚ (a, len) :: allocated h L') h.
Proof. intros Hok Hin. eapply wp_rt_free_area; [done|done|]. intros L' h' H1 H2 H3 H4. by exists L'. Qed.

(** C24: What is allocated and freed at once leaves the heap divided as it was: nothing is lost
    to fragmentation. *)
Theorem malloc_free_roundtrip fuel size L h :
  heap_ok L h -> 0 < size <= 2 ^ 32 - 4 -> (length L + 2 <= fuel)%nat ->
  wp (a ← rt_malloc 0 fuel size; rt_free 0 a) (fun _ h' => heap_ok L h' /\ same_heap h h' /\ hp_data h' = hp_data h) h.
Proof.
  intros Hok Hs Hf. rewrite wp_bind. eapply wp_mono, wp_rt_malloc; try done.
  intros r h' [(-> & -> & _)|(A & n & B & -> & -> & Hfit & Hok' & (E1 & E2 & E3) & Hd & _)]; [done|].
  rewrite <- E1. unfold carve in Hok'. pose proof (proj1 Hok) as Hly. pose proof (ly_coalesced _ _ Hly) as Hc.
  apply coalesced_app in Hc as [_ [Hc1 Hc2]].
  assert (Hp : forall n', join_prev A n' B = A ++ (false, n') :: B).
  { intros n'. destruct A as [|[[] k] A _] using rev_ind; [done| |]; rewrite join_prev_snoc.
    - by rewrite <- app_assoc.
    - by rewrite ends_free_snoc in Hc1. }
  destruct (need size + 24 <=? n - 12); cbn [app] in Hok'.
  - eapply wp_rt_free; [exact Hok'|]. unfold plug. cbn [join_next fst snd].
    replace (need size + 12 + (n - (need size + 12))) with n by lia. rewrite Hp.
    intros h2 H1 (F1 & F2 & F3) H3. split; [done|]. split; [split; [congruence|split; congruence]|congruence].
  - eapply wp_rt_free; [exact Hok'|]. unfold plug.
    assert (join_next n B = (n, B)) as -> by (destruct B as [|[[] k] B]; [done|done|by destruct Hc2]).
    cbn [fst snd]. rewrite Hp. intros h2 H1 (F1 & F2 & F3) H3.
    split; [done|]. split; [split; [congruence|split; congruence]|congruence].
Qed.

(** ** Resizing *)

Lemma wp_shrink_block A n B s y h (Q : unit -> heap -> Prop) :
  layout (A ++ (true, n) :: B) h -> 4 <= s -> (4 | s) -> s + 24 < n - 12 ->
  hp_mem h !! (heap_ptr h + total A) = Some y ->
  (forall h', layout (plug (A ++ [(true, s + 12)]) (n - (s + 12)) B) h' -> same_heap h h' -> hp_data h' = hp_data h ->
     heap_sem h' = heap_sem h -> Q tt h') ->
  wp (shrink_block (n - 12) s (total A) (heap_ptr h + total A) y) Q h.
Proof.
  intros Hly Hs4 Hs4' Hcut Hy HQ. pose proof Hly as [[Hp Hp4] Hlim Hsz Ht Hs Hco Hc He Hl Hu Hm Hda].
  set (k := s + 12) in *.
  apply sized_app in Hs as Hs'. destruct Hs' as [SA SB]. apply sized_cons in SB as SB'. destruct SB' as [[Hn Hn4] SB']. cbn in Hn, Hn4.
  pose proof (total_nonneg A SA). pose proof (total_nonneg B SB'). pose proof Ht as Ht'. pose proof Hu as Hu'.
  rewrite total_app in Ht'. rewrite used_total_app in Hu'. cbn [total used_total] in Ht', Hu'.
  rewrite total_app in He. cbn [total] in He. change (2 ^ 32) with 4294967296 in *.
  assert (Hk4 : (4 | k)) by (apply Z.divide_add_r; [done|by exists 3]).
  assert (Hnk4 : (4 | n - k)) by (by apply Z.divide_sub_r).
  set (A' := A ++ [(true, k)]). assert (EA : total A' = total A + k) by (unfold A'; rewrite total_app; cbn; lia).
  (* the block as if it had been cut into two used ones *)
  assert (Hs2 : sized (A' ++ (true, n - k) :: B)).
  { unfold A'. rewrite <- app_assoc. apply sized_app. split; [done|]. cbn [app]. apply sized_cons. split; [split; [cbn; lia|done]|].
    apply sized_cons. split; [split; [cbn; lia|done]|done]. }
  destruct (first_free_release A' (n - k) B Hs2) as [Eff Hlast].
  assert (Eold : first_free 0 (A' ++ (true, n - k) :: B) = first_free 0 (A ++ (true, n) :: B)).
  { unfold A'. rewrite <- app_assoc. cbn [app]. rewrite !first_free_app. case_bool_decide; [|done]. cbn [first_free]. f_equal. lia. }
  rewrite Eold in Eff, Hlast.
  pose proof Hc as Hc'. apply blocks_app in Hc' as [Hg Hc1]. rewrite Z.add_0_l in Hc1. pose proof Hc1 as [Hk1 Hk2].
  rewrite Hy in Hk1. injection Hk1 as ->.
  destruct (chain_cut (hp_mem h) (heap_ptr h) (total A) (last_off 0 0 A) true true n k B SB ltac:(lia) Hc1) as [(z & Z1 & Z2) Z3].
  unfold shrink_block. rewrite wp_bind, wp_gets, wp_bind, wp_gets, wp_bind, wp_gets, wp_bind, wp_modify. cbn [hm_next header].
  change SIZEOF_STRUCT_MEM with 12. replace (total A + 12 + s) with (total A + k) by lia. replace (n - 12 - s) with (n - k) by lia.
  rewrite wp_bind, wp_modify, wp_bind. eapply wp_upd_hm; [cbn [hp_mem set_hp_mem set_used_mem]; rewrite lookup_insert_ne by lia; exact Hy|].
  change (set_next (total A + k) (header true (total A + n) (last_off 0 0 A))) with (header true (total A + k) (last_off 0 0 A)).
  set (m1 := <[heap_ptr h + total A := header true (total A + k) (last_off 0 0 A)]>
              (<[heap_ptr h + (total A + k) := mkHm HEAP_MAGIC 0 (total A + n) (total A)]> (hp_mem h))).
  change (m1 !! (heap_ptr h + (total A + n)) = Some z) in Z1.
  set (l := if heap_ptr h + (total A + k) <? lfree h then heap_ptr h + (total A + k) else lfree h).
  assert (El : l = heap_ptr h + first_free 0 (A' ++ (false, n - k) :: B)).
  { subst l. rewrite Eff, Hl, EA. destruct (Z.ltb_spec (heap_ptr h + (total A + k)) (heap_ptr h + first_free 0 (A ++ (true, n) :: B))); lia. }
  assert (Hgo : forall m2, chain m2 (heap_ptr h) (total A) (last_off 0 0 A) ((true, k) :: (false, n - k) :: B) ->
    seg m2 (heap_ptr h) 0 0 A ->
    wp (l ← gets lfree; when (heap_ptr h + (total A + k) <? l) (modify (set_lfree (heap_ptr h + (total A + k)))) ;;
        plug_holes (heap_ptr h + (total A + k))) Q (with_mem m2 (set_used_mem (used_mem h - (n - k)) h))).
  { intros m2 Hc2 Hg2. rewrite wp_bind, wp_gets, wp_bind. change (lfree (with_mem m2 _)) with (lfree h).
    set (h1 := set_lfree l (with_mem m2 (set_used_mem (used_mem h - (n - k)) h))).
    assert (Hh1 : holes h1 A' (n - k) B).
    { split; cbn [h1 hp_mem heap_ptr heap_end lfree set_used_mem set_lfree with_mem set_hp_mem].
      - apply sized_app in Hs2 as [? S2]. apply sized_cons in S2 as [? S2]. apply sized_app. split; [done|]. by apply sized_cons.
      - unfold A'. rewrite <- app_assoc. apply blocks_app. rewrite Z.add_0_l. split; [done|exact Hc2].
      - rewrite total_app. cbn [total]. lia.
      - rewrite El. apply sized_app in Hs2 as [SA' _]. pose proof (first_free_zip A' (n - k) B SA'). lia. }
    assert (Hfin : wp (plug_holes (heap_ptr h + (total A + k))) Q h1).
    { rewrite <- EA. apply (wp_plug_holes h1 A' (n - k) B); [exact Hh1| |].
      - cbn [h1 lfree heap_ptr set_used_mem set_lfree with_mem set_hp_mem]. unfold A'. by rewrite last_snoc.
      - intros m3 Hc3. apply HQ; [|done|done|done]. pose proof (ho_sized _ _ _ _ Hh1) as Hs1.
        apply coalesced_app in Hco as [C1 C2]. cbn [coalesced] in C2.
        assert (C1' : coalesced false A') by (unfold A'; by apply coalesced_app).
        destruct (plug_facts A' (n - k) B Hs1 C1' C2) as (P1 & P2 & P3 & P4). rewrite total_app, EA in P3. rewrite used_total_app in P4.
        cbn [total used_total] in P3, P4. assert (EU : used_total A' = used_total A + k) by (unfold A'; rewrite used_total_app; cbn; lia).
        split; cbn [h1 heap_ptr mem_size_aligned hp_mem heap_end lfree used_mem max_mem set_used_mem set_lfree with_mem set_hp_mem].
        + done.
        + done.
        + done.
        + fold A'. lia.
        + done.
        + done.
        + exact Hc3.
        + fold A'. lia.
        + rewrite El. f_equal. by rewrite first_free_plug.
        + rewrite wrap_small; fold A'; lia.
        + rewrite wrap_small; lia.
        + apply (nonempty_plug A' true). apply Forall_app in Hda as [D1 D2]. apply Forall_cons in D2 as [_ D2].
          apply Forall_app. split; [apply Forall_app; split; [done|]; repeat constructor; cbn; lia|]. constructor; [cbn; lia|done]. }
    subst h1 l. destruct (heap_ptr h + (total A + k) <? lfree h); cbn [when]; [rewrite wp_modify|rewrite wp_ret]; exact Hfin. }
  rewrite wp_bind. destruct (Z.eqb_spec (total A + n) (mem_size_aligned h + 12)) as [Ee|Ee]; cbn [negb when].
  - rewrite wp_ret. apply Hgo.
    + apply Z3. destruct B as [|[v j] B]; [done|]. apply sized_cons in SB' as [[Hj _] SB']. cbn in *.
      pose proof (total_nonneg B SB'). lia.
    + subst m1. apply seg_insert; [done|lia|]. apply seg_insert; [done|lia|done].
  - eapply wp_upd_hm; [exact Z1|]. apply Hgo; [exact Z2|]. cbn [hp_mem with_mem set_hp_mem set_used_mem]. subst m1.
    apply seg_insert; [done|lia|]. apply seg_insert; [done|lia|]. apply seg_insert; [done|lia|done].
Qed.

(** The first bytes of one area, copied to another. *)
Definition copied (src dst n : Z) (d d' : KService.mem) : Prop := forall i, 0 <= i < n -> d' (dst + i) = d (src + i).
(** An area that keeps its contents. *)
Definition kept (a n : Z) (d d' : KService.mem) : Prop := copied a a n d d'.

(** What [rt_realloc] promises for the area [a] of [len] bytes: RT_NULL, and nothing has
    happened, or an area that holds the data as far as it fits, in place of the old one, all
    others untouched. *)
Definition reallocated (L : list block) (a len newsize : Z) (h : heap) (r : Z) (h' : heap) : Prop :=
  (r = 0 /\ h' = h) \/
  exists L' len' rest, heap_ok L' h' /\ same_heap h h' /\ newsize <= len' /\
    allocated h L ≡ₚ (a, len) :: rest /\ allocated h L' ≡ₚ (r, len') :: rest /\
    copied a r (Z.min len newsize) (hp_data h) (hp_data h') /\
    forall b k, (b, k) ∈ rest -> kept b k (hp_data h) (hp_data h').

Lemma areas_range L h a len : layout L h -> (a, len) ∈ allocated h L ->
  heap_ptr h < a /\ a + len <= heap_end h /\ 4 <= len.
Proof.
  intros Hly Hin. pose proof (areas_bounds _ _ _ _ _ (ly_sized _ _ Hly) Hin). rewrite (ly_end _ _ Hly).
  apply areas_elem in Hin as (A & n & B & E & _ & ->). pose proof (ly_data _ _ Hly) as Hd. rewrite E in Hd.
  apply Forall_app in Hd as [_ Hd]. apply Forall_cons in Hd as [Hd _]. specialize (Hd eq_refl). cbn in Hd. lia.
Qed.

Lemma wp_rt_realloc fuel L a len newsize h :
  heap_ok L h -> (a, len) ∈ allocated h L -> bytes (hp_data h) -> 0 < newsize <= 2 ^ 32 - 4 -> (length L + 2 <= fuel)%nat ->
  wp (rt_realloc 0 fuel a newsize) (reallocated L a len newsize h) h.
Proof.
  intros Hok Hin Hbytes Hsz Hf. pose proof Hok as [Hly Hsem]. destruct (areas_range _ _ _ _ Hly Hin) as (R1 & R2 & R3).
  pose proof (ly_start _ _ Hly) as [Hp Hp4]. pose proof (ly_limit _ _ Hly) as Hlim. pose proof (ly_total _ _ Hly) as Ht.
  destruct (align4 newsize ltac:(lia)) as (_ & Hd4 & Hal). set (ns := RT_ALIGN newsize RT_ALIGN_SIZE) in *.
  pose proof Hin as Hin'. apply areas_elem in Hin' as (A & n & B & E & Ea & El). rewrite Z.add_0_r in Ea.
  pose proof (ly_end _ _ Hly) as He. rewrite E in He, Ht. rewrite total_app in Ht. cbn [total] in Ht.
  pose proof (ly_sized _ _ Hly) as Hs. rewrite E in Hs. apply sized_app in Hs as Hs'. destruct Hs' as [SA SB].
  apply sized_cons in SB as [[Hn Hn4] SB]. cbn in Hn, Hn4. pose proof (total_nonneg A SA). pose proof (total_nonneg B SB).
  change (2 ^ 32) with 4294967296 in *.
  assert (Hsame : forall h', heap_ok L h' -> same_heap h h' -> hp_data h' = hp_data h -> newsize <= len ->
    reallocated L a len newsize h a h').
  { intros h' Hok' Hs' Hd Hle. right. exists L, len, (areas (heap_ptr h) 0 A ++ areas (heap_ptr h) (total A + n) B).
    assert (EA : allocated h L ≡ₚ (a, len) :: (areas (heap_ptr h) 0 A ++ areas (heap_ptr h) (total A + n) B)).
    { rewrite E, areas_mid, Ea, El. cbn [app]. by rewrite Permutation_middle. }
    split; [done|]. split; [done|]. split; [done|]. split; [done|]. split; [done|].
    split; [|intros b k _]; intros i _; by rewrite Hd. }
  unfold rt_realloc. rewrite wp_bind. apply wp_assert; [done|]. rewrite wp_bind, wp_gets. fold ns.
  destruct (Z.ltb_spec (mem_size_aligned h) ns); [rewrite wp_ret; by left|].
  destruct (Z.eqb_spec ns 0); [lia|]. destruct (Z.eqb_spec a 0); [lia|].
  rewrite wp_bind. apply wp_take_heap_sem; [done|]. rewrite wp_bind, wp_gets, wp_bind, wp_gets. cbn [heap_ptr heap_end set_heap_sem].
  destruct (Z.ltb_spec a (heap_ptr h)); [lia|]. destruct (Z.leb_spec (heap_end h) a); [lia|]. cbn [orb].
  change SIZEOF_STRUCT_MEM with 12. rewrite E in Hly.
  pose proof (ly_chain _ _ Hly) as Hc. apply blocks_app in Hc as [Hg [Hk1 Hk2]]. rewrite Z.add_0_l in Hk1.
  replace (a - 12) with (heap_ptr h + total A) by lia.
  rewrite wp_bind. eapply wp_get_hm; [exact Hk1|]. cbn [hm_next header].
  replace (heap_ptr h + total A - heap_ptr h) with (total A) by lia.
  replace (total A + n - total A - 12) with len by lia. rewrite wrap_small by lia.
  destruct (Z.eqb_spec len ns).
  { rewrite wp_bind. apply wp_release_heap_sem; [done|]. rewrite wp_ret. change (set_heap_sem 1 (set_heap_sem 0 h)) with (set_heap_sem (0 + 1) (set_heap_sem 0 h)).
    rewrite set_heap_sem_back by done. apply Hsame; [done|done|done|lia]. }
  change MIN_SIZE with 12. destruct (Z.ltb_spec (ns + 12 + 12) len) as [Hcut|Hcut].
  - rewrite wp_bind. rewrite El. replace (ns + 12 + 12) with (ns + 24) in Hcut by lia.
    assert (4 <= ns) by (destruct Hd4 as [j Hj]; lia).
    apply (wp_shrink_block A n B ns (header true (total A + n) (last_off 0 0 A)) (set_heap_sem 0 h)); [by apply layout_sem|done|done|lia|exact Hk1|].
    intros h' Hly' (P1 & P2 & P3) Hd' Hs'. rewrite wp_bind. apply wp_release_heap_sem; [done|]. rewrite wp_ret. right.
    cbn [heap_ptr heap_end mem_size_aligned hp_data set_heap_sem] in *.
    exists (plug (A ++ [(true, ns + 12)]) (n - (ns + 12)) B), ns, (areas (heap_ptr h) 0 A ++ areas (heap_ptr h) (total A + n) B).
    split; [split; [by apply layout_sem|done]|]. split; [by repeat split|]. split; [lia|].
    split; [rewrite E, areas_mid, Ea; cbn [app]; by rewrite Permutation_middle|].
    split.
    { rewrite areas_plug, areas_app, total_app, <- app_assoc. cbn [areas total app]. rewrite Z.add_0_r, Z.add_0_l, Ea.
      replace (ns + 12 - 12) with ns by lia. replace (total A + (ns + 12) + (n - (ns + 12))) with (total A + n) by lia.
      by rewrite Permutation_middle. }
    split; [|intros b k _]; intros i _; by rewrite Hd'.
  - rewrite wp_bind. apply wp_release_heap_sem; [done|]. change (set_heap_sem 1 (set_heap_sem 0 h)) with (set_heap_sem (0 + 1) (set_heap_sem 0 h)).
    rewrite set_heap_sem_back by done. rewrite wp_bind.
    assert (Hns : 0 < ns <= 4294967296 - 4) by (pose proof (ly_size _ _ Hly); lia).
    destruct (need_facts ns ltac:(lia)) as (N1 & N2 & _).
    eapply wp_mono, (wp_rt_malloc fuel ns L h Hok Hns Hf). intros r h1 [(-> & -> & _)|Htk].
    { destruct (Z.eqb_spec 0 0); [|done]. cbn [negb when]. rewrite wp_bind, !wp_ret. by left. }
    destruct (taken_areas L (need ns) h r h1 Hok ltac:(lia) Htk) as (L1 & len1 & Hok1 & (P1 & P2 & P3) & Hd1 & Hlen1 & Hr4 & Hr & Hre & Hperm & Hap).
    destruct (Z.eqb_spec r 0); [lia|]. cbn [negb when]. rewrite wp_bind, wp_bind, wp_gets, Hd1.
    replace (if len <? ns then len else ns) with (Z.min len ns) by (destruct (Z.ltb_spec len ns); lia).
    assert (Hdis : apart r len1 a len) by (by apply Hap).
    destruct (rt_memcpy_written r a (Z.min len ns) (hp_data h)) as (d & Ed & Hw); [lia|done|unfold disjoint_areas, apart in *; lia|].
    rewrite wp_bind. eapply wp_deref; [exact Ed|]. cbn beta. rewrite wp_bind, wp_modify.
    set (h2 := set_hp_data d h1).
    assert (Hok2 : heap_ok L1 h2) by (destruct Hok1 as [[] ?]; by split; [split|]).
    eapply (wp_rt_free_area L1 a len h2); [done| |].
    { change (heap_ptr h2) with (heap_ptr h1). rewrite P1, Hperm. mem. }
    intros L2 h3 Hok3 (F1 & F2 & F3) Hd3 Hperm3. rewrite wp_ret. right.
    change (heap_ptr h2) with (heap_ptr h1) in *. change (heap_end h2) with (heap_end h1) in *.
    change (mem_size_aligned h2) with (mem_size_aligned h1) in *. rewrite P1 in *.
    assert (Hrest : exists rest, allocated h L ≡ₚ (a, len) :: rest).
    { exists (areas (heap_ptr h) 0 A ++ areas (heap_ptr h) (total A + n) B). rewrite E, areas_mid, Ea, El. cbn [app]. by rewrite Permutation_middle. }
    destruct Hrest as [rest Erest]. exists L2, len1, rest.
    split; [done|]. split; [split; [congruence|split; congruence]|]. split; [lia|]. split; [done|].
    split.
    { rewrite Erest, Hperm3 in Hperm. rewrite (Permutation_swap (a, len)) in Hperm. by apply Permutation_cons_inv in Hperm. }
    rewrite Hd3. split.
    + intros i Hi. change (hp_data h2) with d. rewrite Hw. unfold apart in Hdis.
      destruct (Z.leb_spec r (r + i)), (Z.ltb_spec (r + i) (r + Z.min len ns)); try lia. cbn. f_equal. lia.
    + intros b k Hb i Hi. change (hp_data h2) with d. rewrite Hw.
      assert (Hbk : apart r len1 b k) by (apply Hap; rewrite Erest; clear -Hb; mem). unfold apart in Hbk.
      destruct (Z.leb_spec r (b + i)), (Z.ltb_spec (b + i) (r + Z.min len ns)); try lia; done.
Qed.

(** [rt_realloc] keeps the data: as many bytes as both the old and the new size have are
    where the result points to; no other area given out changes, neither its place nor
    its contents; and when there is no memory nothing at all has changed. *)
Theorem rt_realloc_spec fuel L a len newsize h :
  heap_ok L h -> (a, len) ∈ allocated h L -> bytes (hp_data h) -> 0 < newsize <= 2 ^ 32 - 4 -> (length L + 2 <= fuel)%nat ->
  wp (rt_realloc 0 fuel a newsize) (reallocated L a len newsize h) h.
Proof. apply wp_rt_realloc. Qed.

(** [rt_calloc] gives an area that is all zeros, as long as asked, when the product of its
    arguments does not overflow. *)
Theorem rt_calloc_spec fuel count size L h :
  heap_ok L h -> 0 < count * size <= 2 ^ 32 - 4 -> (length L + 2 <= fuel)%nat ->
  wp (rt_calloc 0 fuel count size) (fun r h' => (r = 0 /\ h' = h) \/
    exists L' len, heap_ok L' h' /\ same_heap h h' /\ count * size <= len /\
      allocated h L' ≡ₚ (r, len) :: allocated h L /\ (forall i, 0 <= i < count * size -> hp_data h' (r + i) = 0) /\
      forall b k, (b, k) ∈ allocated h L -> kept b k (hp_data h) (hp_data h')) h.
Proof.
  intros Hok Hs Hf. change (2 ^ 32) with 4294967296 in *. unfold rt_calloc. rewrite wrap_small by lia. rewrite wp_bind.
  destruct (need_facts (count * size) ltac:(lia)) as (N1 & N2 & _). pose proof (ly_start _ _ (proj1 Hok)).
  eapply wp_mono, (wp_rt_malloc fuel (count * size) L h Hok Hs Hf). intros r h1 [(-> & -> & _)|Htk].
  { destruct (Z.eqb_spec 0 0); [|done]. cbn [negb when]. rewrite wp_bind, !wp_ret. by left. }
  destruct (taken_areas L (need (count * size)) h r h1 Hok ltac:(lia) Htk) as (L1 & len1 & Hok1 & Hsm & Hd1 & Hlen1 & _ & Hr & _ & Hperm & Hap).
  destruct (Z.eqb_spec r 0); [lia|]. cbn [negb when]. rewrite wp_bind, wp_bind, wp_gets.
  destruct (rt_memset_written r 0 (count * size) (hp_data h1)) as (d & Ed & Hw); [lia|].
  rewrite wp_bind. eapply wp_deref; [exact Ed|]. cbn beta. rewrite wp_modify, wp_ret. right.
  exists L1, len1. split; [destruct Hok1 as [[] ?]; by split; [split|]|]. split; [done|]. split; [lia|]. split; [done|].
  split.
  - intros i Hi. cbn [hp_data set_hp_data]. rewrite Hw. destruct (Z.leb_spec r (r + i)), (Z.ltb_spec (r + i) (r + count * size)); try lia. done.
  - intros b k Hb i Hi. cbn [hp_data set_hp_data]. rewrite Hw, Hd1. pose proof (Hap b k Hb) as Hbk. unfold apart in Hbk.
    destruct (Z.leb_spec r (b + i)), (Z.ltb_spec (b + i) (r + count * size)); try lia; done.
Qed.

(** ** The start *)

(** The heap starts as one free block that fills the memory between the aligned
    addresses but for the two headers. *)
Theorem rt_system_heap_init_spec begin_addr end_addr h :
  0 < begin_addr -> end_addr < 2 ^ 32 -> begin_addr + 64 <= end_addr -> used_mem h = 0 -> max_mem h = 0 ->
  wp (rt_system_heap_init 0 begin_addr end_addr) (fun _ h' =>
    heap_ok [(false, mem_size_aligned h' + 12)] h' /\ begin_addr <= heap_ptr h' < begin_addr + 4 /\
    heap_end h' + 12 <= end_addr < heap_end h' + 16) h.
Proof.
  intros Hb He Hsz Hu Hm. change (2 ^ 32) with 4294967296 in *.
  assert (Hdown : exists q, RT_ALIGN_DOWN end_addr RT_ALIGN_SIZE = q * 4 /\ q * 4 <= end_addr < q * 4 + 4).
  { exists (end_addr / 4). unfold RT_ALIGN_DOWN, RT_ALIGN_SIZE. change (4 - 1) with (Z.ones 2).
    rewrite <- Z.ldiff_land, Z.ldiff_ones_r, Z.shiftl_mul_pow2, Z.shiftr_div_pow2 by lia. change (2 ^ 2) with 4.
    pose proof (Z.div_mod end_addr 4). pose proof (Z.mod_pos_bound end_addr 4). lia. }
  destruct Hdown as (q & Eq & Hq). destruct (align4 begin_addr ltac:(lia)) as (_ & [j Hj] & Hal).
  unfold rt_system_heap_init. rewrite Eq. set (p := RT_ALIGN begin_addr RT_ALIGN_SIZE) in *. change SIZEOF_STRUCT_MEM with 12.
  rewrite wp_bind. apply wp_assert; [done|].
  destruct (Z.ltb_spec (2 * 12) (q * 4)); [|lia]. destruct (Z.leb_spec p (q * 4 - 2 * 12)); [|lia]. cbn [andb].
  rewrite wp_modify. cbn [mem_size_aligned heap_ptr heap_end]. split; [|lia].
  assert (D : (4 | q * 4 - p - 2 * 12)) by (exists (q - j - 6); lia).
  split; [|done]. split; cbn [heap_ptr mem_size_aligned hp_mem heap_end lfree used_mem max_mem total used_total first_free].
  - split; [lia|]. by exists j.
  - lia.
  - split; [lia|done].
  - lia.
  - apply sized_cons. split; [|constructor]. split; [cbn; lia|]. cbn. apply Z.divide_add_r; [done|by exists 3].
  - done.
  - cbn [chain]. rewrite !Z.add_0_r, Z.add_0_l. split.
    + rewrite lookup_insert_ne by lia. by rewrite lookup_insert_eq.
    + eexists. by rewrite lookup_insert_eq.
  - lia.
  - lia.
  - lia.
  - lia.
  - constructor; [done|constructor].
Qed.

(** ** What goes wrong *)

(** The product of [rt_calloc] wraps: 65537 objects of 65536 bytes are taken for one. *)
Lemma calloc_overflow irq fuel : rt_calloc irq fuel 65537 65536 = rt_calloc irq fuel 1 65536.
Proof. reflexivity. Qed.

(** The alignment of the largest sizes wraps to 0: a request of 0xffffffff bytes is served
    like one of a single byte, with a block of 12. *)
Theorem malloc_overflow fuel L h : heap_ok L h -> rt_malloc 0 fuel 0xffffffff h = rt_malloc 0 fuel 1 h.
Proof.
  intros [Hly _]. pose proof (ly_size _ _ Hly) as [Hm _]. unfold rt_malloc. cbn [Z.eqb].
  change (RT_ALIGN 0xffffffff RT_ALIGN_SIZE) with 0. change (RT_ALIGN 1 RT_ALIGN_SIZE) with 4. change MIN_SIZE_ALIGNED with 12.
  unfold not_in_irq, rt_assert, mbind, M_bind, gets. change (0 =? 0) with true. cbn beta iota.
  destruct (Z.ltb_spec (mem_size_aligned h) 0), (Z.ltb_spec (mem_size_aligned h) 4); try lia. done.
Qed.

(** The block at the very end is refused when it would fit exactly: a heap with nothing
    given out does not give its whole memory. *)
Theorem last_block_refused fuel h :
  heap_ok [(false, mem_size_aligned h + 12)] h -> (3 <= fuel)%nat ->
  wp (rt_malloc 0 fuel (mem_size_aligned h)) (fun r h' => r = 0 /\ h' = h) h.
Proof.
  intros Hok Hf. pose proof Hok as [Hly _]. pose proof (ly_size _ _ Hly) as [Hm [k Hk]]. pose proof (ly_limit _ _ Hly) as Hl.
  pose proof (ly_start _ _ Hly) as [Hp _]. change (2 ^ 32) with 4294967296 in *.
  assert (Hn : need (mem_size_aligned h) = mem_size_aligned h).
  { unfold need. destruct (align4 (mem_size_aligned h)) as (E & _); [change (2 ^ 32) with 4294967296; lia|]. rewrite E, Hk.
    replace (k * 4 + 3) with (3 + k * 4) by lia. rewrite Z.div_add by lia. change MIN_SIZE_ALIGNED with 12.
    change (3 / 4) with 0. destruct (Z.ltb_spec (4 * (0 + k)) 12); lia. }
  unfold rt_malloc. destruct (Z.eqb_spec (mem_size_aligned h) 0); [lia|]. rewrite wp_bind. apply wp_assert; [done|].
  rewrite wp_bind, wp_gets. fold (need (mem_size_aligned h)).
  destruct (Z.ltb_spec (mem_size_aligned h) (RT_ALIGN (mem_size_aligned h) RT_ALIGN_SIZE)); [by rewrite wp_ret|].
  change (if RT_ALIGN (mem_size_aligned h) RT_ALIGN_SIZE <? MIN_SIZE_ALIGNED then MIN_SIZE_ALIGNED else RT_ALIGN (mem_size_aligned h) RT_ALIGN_SIZE) with (need (mem_size_aligned h)).
  rewrite Hn, wp_bind. apply wp_take_heap_sem; [apply Hok|]. rewrite wp_bind, wp_gets, wp_bind, wp_gets. cbn [lfree heap_ptr set_heap_sem].
  rewrite (ly_lfree _ _ Hly). cbn [first_free]. destruct fuel as [|fuel]; [lia|]. cbn [malloc_loop].
  rewrite wp_bind, wp_bind, wp_gets, wp_bind, wp_gets. cbn [heap_ptr mem_size_aligned set_heap_sem].
  rewrite Z.sub_diag. change (u32 0) with 0. destruct (Z.ltb_spec (heap_ptr h + 0 - heap_ptr h) 0); [lia|].
  rewrite wp_ret, wp_bind. apply wp_release_heap_sem; [done|]. rewrite wp_ret. split; [done|]. apply set_heap_sem_back, Hok.
Qed.

(** ** Concrete heaps: 100 bytes, and the first 24 given out *)

Definition sample_heap : heap := mkHeap 0x20000000
  (<[0x2000007C := header true 124 124]> (<[0x20000000 := header false 124 0]> ∅))
  0x2000007C 0x20000000 112 0 0 1 (fun _ => 0).
Definition sample_given : heap := mkHeap 0x20000000
  (<[0x2000007C := header true 124 36]> (<[0x20000024 := header false 124 0]> (<[0x20000000 := header true 36 0]> ∅)))
  0x2000007C 0x20000024 112 36 36 1 (fun _ => 0).

Lemma sample_heap_ok : heap_ok [(false, 124)] sample_heap.
Proof.
  split; [|done]. split; cbn; try done; try lia.
  - split; [lia|]. by exists 0x8000000.
  - split; [lia|]. by exists 28.
  - apply sized_cons. split; [split; [cbn; lia|by exists 31]|constructor].
  - split; [done|]. by eexists.
  - constructor; [done|constructor].
Qed.
Lemma sample_given_ok : heap_ok [(true, 36); (false, 88)] sample_given.
Proof.
  split; [|done]. split; cbn; try done; try lia.
  - split; [lia|]. by exists 0x8000000.
  - split; [lia|]. by exists 28.
  - apply sized_cons. split; [split; [cbn; lia|by exists 9]|]. apply sized_cons. split; [split; [cbn; lia|by exists 22]|constructor].
  - split; [done|]. split; [done|]. by eexists.
  - constructor; [cbn; lia|]. constructor; [done|constructor].
Qed.
Lemma sample_given_area : (0x2000000C, 24) ∈ allocated sample_given [(true, 36); (false, 88)].
Proof. cbn. mem. Qed.
Lemma sample_given_bytes : bytes (hp_data sample_given).
Proof. intros x. cbn. lia. Qed.

Example malloc_runs : fst <$> rt_malloc 0 3 24 sample_heap = Some 0x2000000C.
Proof. vm_compute. reflexivity. Qed.


Lemma rt_free_spec_witness :
  wp (rt_free 0 0x2000000C) (fun _ h' => exists L', heap_ok L' h' /\ same_heap sample_given h' /\ hp_data h' = (fun _ => 0) /\
    areas 0x20000000 0 [(true, 36); (false, 88)] ≡ₚ (0x2000000C, 24) :: areas 0x20000000 0 L') sample_given.
Proof. apply (rt_free_spec [(true, 36); (false, 88)] 0x2000000C 24 sample_given); [apply sample_given_ok|apply sample_given_area]. Defined.

Lemma malloc_free_roundtrip_witness :
  wp (a ← rt_malloc 0 4 8; rt_free 0 a) (fun _ h' => heap_ok [(true, 36); (false, 88)] h' /\ same_heap sample_given h' /\
    hp_data h' = (fun _ => 0)) sample_given.
Proof. apply (malloc_free_roundtrip 4 8 [(true, 36); (false, 88)] sample_given); [apply sample_given_ok|lia|cbn; lia]. Defined.

Lemma rt_realloc_spec_witness :
  wp (rt_realloc 0 4 0x2000000C 40) (reallocated [(true, 36); (false, 88)] 0x2000000C 24 40 sample_given) sample_given.
Proof.
  apply (rt_realloc_spec 4 [(true, 36); (false, 88)] 0x2000000C 24 40 sample_given);
    [apply sample_given_ok|apply sample_given_area|apply sample_given_bytes|lia|cbn; lia].
Defined.

Lemma rt_calloc_spec_witness :
  wp (rt_calloc 0 4 3 4) (fun r h' => (r = 0 /\ h' = sample_given) \/
    exists L' len, heap_ok L' h' /\ same_heap sample_given h' /\ 12 <= len /\
      areas 0x20000000 0 L' ≡ₚ (r, len) :: areas 0x20000000 0 [(true, 36); (false, 88)] /\
      (forall i, 0 <= i < 12 -> hp_data h' (r + i) = 0) /\
      forall b k, (b, k) ∈ areas 0x20000000 0 [(true, 36); (false, 88)] -> kept b k (fun _ => 0) (hp_data h')) sample_given.
Proof. apply (rt_calloc_spec 4 3 4 [(true, 36); (false, 88)] sample_given); [apply sample_given_ok|lia|cbn; lia]. Defined.

Lemma rt_system_heap_init_spec_witness :
  wp (rt_system_heap_init 0 0x20000001 0x20001000) (fun _ h' =>
    heap_ok [(false, mem_size_aligned h' + 12)] h' /\ 0x20000001 <= heap_ptr h' < 0x20000001 + 4 /\
    heap_end h' + 12 <= 0x20001000 < heap_end h' + 16) sample_heap.
Proof. apply (rt_system_heap_init_spec 0x20000001 0x20001000 sample_heap); done || lia. Defined.

Lemma malloc_overflow_witness : rt_malloc 0 3 0xffffffff sample_heap = rt_malloc 0 3 1 sample_heap.
Proof. apply (malloc_overflow 3 [(false, 124)] sample_heap), sample_heap_ok. Defined.

Lemma last_block_refused_witness : wp (rt_malloc 0 3 112) (fun r h' => r = 0 /\ h' = sample_heap) sample_heap.
Proof. apply (last_block_refused 3 sample_heap); [apply sample_heap_ok|lia]. Defined.
