(* ===== verification/Deferrable.v ===== *)
(** * Deferrable: the deferrable server, applications/deferrable.c

    The queue of aperiodic tasks is the pointer-level ring of RtList, so that what the
    code does to a task that is still queued is what the model does.  The server's
    entry is split where interrupts can come in: a button handler calls
    [rt_thread_deferrable_insert_task] between any two of its steps.  The kernel calls
    are those of Thread and Timer on the embedded kernel state. *)

From S2P Require Import Prelude RtList Kernel Scheduler Object TimerCore Thread Timer.

#[local] Open Scope Z_scope.

Abbreviation loc := Ring.loc.

(** ** State *)

(** Where the server thread is in [rt_thread_deferrable_entry]. *)
Inductive dpc :=
  | PEntry | PLoop | PRun (task : loc) | PRemove (task : loc) | PCheck | PSuspend | PSched.

(** [deferrable_server] and [active]; the thread and the timers are kernel objects, the
    tasks are nodes of [d_heap].  [d_ran] logs the functions that were run. *)
Record dstate := mkD {
  d_k : kstate;
  d_heap : Ring.heap;
  d_active : Z;
  d_priority : Z;
  d_capacity : Z;
  d_capacity_left : Z;
  d_pc : dpc;
  d_ran : list loc
}.

Definition set_d_k (k : kstate) (s : dstate) : dstate :=
  mkD k (d_heap s) (d_active s) (d_priority s) (d_capacity s) (d_capacity_left s) (d_pc s) (d_ran s).
Definition set_d_heap (f : Ring.heap -> Ring.heap) (s : dstate) : dstate :=
  mkD (d_k s) (f (d_heap s)) (d_active s) (d_priority s) (d_capacity s) (d_capacity_left s) (d_pc s) (d_ran s).
Definition set_d_active (a : Z) (s : dstate) : dstate :=
  mkD (d_k s) (d_heap s) a (d_priority s) (d_capacity s) (d_capacity_left s) (d_pc s) (d_ran s).
Definition set_d_capacity (c : Z) (s : dstate) : dstate :=
  mkD (d_k s) (d_heap s) (d_active s) (d_priority s) c (d_capacity_left s) (d_pc s) (d_ran s).
Definition set_d_capacity_left (c : Z) (s : dstate) : dstate :=
  mkD (d_k s) (d_heap s) (d_active s) (d_priority s) (d_capacity s) c (d_pc s) (d_ran s).
Definition set_d_pc (p : dpc) (s : dstate) : dstate :=
  mkD (d_k s) (d_heap s) (d_active s) (d_priority s) (d_capacity s) (d_capacity_left s) p (d_ran s).
Definition log_d_ran (t : loc) (s : dstate) : dstate :=
  mkD (d_k s) (d_heap s) (d_active s) (d_priority s) (d_capacity s) (d_capacity_left s) (d_pc s) (d_ran s ++ [t]).

Abbreviation D := (M dstate).

(** A kernel call. *)
Definition lift {A} (m : K A) : D A := fun s =>
  match m (d_k s) with Some (a, k) => Some (a, set_d_k k s) | None => None end.

Section deferrable.
(** The statically allocated objects; the byte at an absolute address; the bodies of
    the tasks' functions, which run in the server thread. *)
Context (deferrable timer_thread : tid) (tim_capacity tim_server : tmid) (asyncTask : loc)
  (byte_at : Z -> option Z) (thd_fun : loc -> D unit).

(** ** Definitions *)

(** [rt_list_isempty (deferrable_server.asyncTask.next)]: asked of the first node. *)
Definition async_isempty : D bool :=
  gets (fun s => Ring.rt_list_isempty (Ring.next (d_heap s asyncTask)) (d_heap s)).

Definition rt_timer_deferrable_period : D unit :=
  capacity ← gets d_capacity;
  modify (set_d_capacity_left capacity) ;;
  e ← async_isempty;
  when e (lift (rt_thread_resume deferrable) ;; mret tt) ;;
  priority ← gets d_priority;
  lift (rt_thread_control deferrable RT_THREAD_CTRL_CHANGE_PRIORITY (Some priority)) ;;
  left_ ← gets d_capacity_left;
  lift (rt_timer_control tim_capacity RT_TIMER_CTRL_SET_TIME left_) ;;
  mret tt.

(** The integer [RT_THREAD_PRIORITY_MAX - 1] is passed as the pointer. *)
Definition rt_timer_deferrable_capacity : D unit :=
  modify (set_d_capacity_left 0) ;;
  lift (rt_thread_control deferrable RT_THREAD_CTRL_CHANGE_PRIORITY
          (byte_at (RT_THREAD_PRIORITY_MAX - 1))) ;;
  mret tt.

(** [rt_thread_deferrable_entry], one uninterrupted piece at a time.  On an empty queue
    the first entry is the head itself, which is no task. *)
Definition server_step : D unit :=
  pc ← gets d_pc;
  match pc with
  | PEntry => modify (set_d_active 0) ;; modify (set_d_pc PLoop)
  | PLoop =>
      active ← gets d_active;
      when (active =? 0) (lift (rt_timer_start timer_thread tim_capacity) ;; modify (set_d_active 1)) ;;
      task ← gets (fun s => Ring.next (d_heap s asyncTask));
      rt_assert (bool_decide (task ≠ asyncTask)) ;;
      modify (set_d_pc (PRun task))
  | PRun task => thd_fun task ;; modify (log_d_ran task) ;; modify (set_d_pc (PRemove task))
  | PRemove task => modify (set_d_heap (Ring.rt_list_remove task)) ;; modify (set_d_pc PCheck)
  | PCheck => e ← async_isempty; modify (set_d_pc (if (e : bool) then PSuspend else PLoop))
  | PSuspend =>
      lift (rt_timer_stop tim_capacity) ;;
      lift (rt_thread_suspend deferrable) ;;
      modify (set_d_active 0) ;;
      modify (set_d_pc PSched)
  | PSched => lift rt_schedule ;; modify (set_d_pc PLoop)
  end.

Definition rt_thread_deferrable_init (entry : positive) (stack capacity period priority : Z) : D Z :=
  lift (rt_thread_init deferrable [100; 101; 102; 101; 114; 114] entry 0 stack 4096 priority capacity) ;;
  lift (rt_timer_init tim_server [84; 105; 109; 101; 114] (FUser 1) period RT_TIMER_FLAG_PERIODIC) ;;
  lift (rt_timer_init tim_capacity [67; 97; 112; 97; 99] (FUser 2) capacity RT_TIMER_FLAG_ONE_SHOT) ;;
  modify (set_d_capacity capacity) ;;
  modify (set_d_capacity_left capacity) ;;
  modify (set_d_heap (Ring.rt_list_init asyncTask)) ;;
  err ← lift (rt_thread_startup deferrable);
  if negb (err =? RT_EOK) then mret err else lift (rt_thread_suspend deferrable).

Definition rt_thread_deferrable_gethandler : tid := deferrable.

Definition rt_thread_deferrable_insert_task (task : loc) : D unit :=
  e ← async_isempty;
  if (e : bool) then
    modify (set_d_heap (Ring.rt_list_init task)) ;;
    modify (set_d_heap (Ring.rt_list_insert_before asyncTask task)) ;;
    lift (rt_thread_resume deferrable) ;;
    mret tt
  else
    modify (set_d_heap (Ring.rt_list_init task)) ;;
    modify (set_d_heap (Ring.rt_list_insert_before asyncTask task)).

End deferrable.

(** ** The kernel side of the server *)

Lemma wp_lift {A} (m : K A) (Q : A -> dstate -> Prop) s :
  wp m (fun a k => Q a (set_d_k k s)) (d_k s) -> wp (lift m) Q s.
Proof. unfold wp, lift. by destruct (m (d_k s)) as [[a k]|]. Qed.

Section kok.
Context (deferrable : tid) (tim_capacity : tmid).

(** The server thread exists and waits or runs; its capacity timer is a live one-shot
    hard timer of the user's; the kernel is consistent. *)
Record kok (k : kstate) : Prop := {
  ko_kinv : kinv k;
  ko_pending : pending k;
  ko_tick : 0 <= k_tick k < 2 ^ 32;
  ko_current : is_Some (k_current k);
  ko_cap : exists p o v, tim_capacity = TUser p /\ k_obj k !! OTimer tim_capacity = Some o /\
    class_of o = RT_Object_Class_Timer /\ soft o = false /\
    k_timers k !! tim_capacity = Some v /\ 0 <= tm_init_tick v < half;
  ko_server : exists th, k_threads k !! deferrable = Some th /\
    (stat_class (tstat th) = RT_THREAD_READY \/ tstat th = RT_THREAD_SUSPEND)
}.

(** The server is READY or RUNNING. *)
Definition awake (k : kstate) : Prop :=
  exists th, k_threads k !! deferrable = Some th /\ stat_class (tstat th) = RT_THREAD_READY.

Lemma not_awake k th :
  k_threads k !! deferrable = Some th -> tstat th = RT_THREAD_SUSPEND -> ~ awake k.
Proof. intros Ht Hs (th' & Ht' & Hs'). simplify_eq. by rewrite Hs in Hs'. Qed.

Lemma kok_live k : kok k -> timer_live tim_capacity k.
Proof. intros [_ _ _ _ (p & o & v & _ & ? & ? & ? & ? & _) _]. by exists o, v. Qed.

Lemma server_not_closed k th :
  kok k -> k_threads k !! deferrable = Some th -> tstat th ≠ RT_THREAD_CLOSE.
Proof.
  intros [_ _ _ _ _ (th' & Ht & Hs)] Ht'. simplify_eq. intros E. destruct Hs as [Hs|Hs];
    by rewrite E in Hs.
Qed.

(** A change of the scheduler's part of the kernel. *)
Lemma kok_sched k k' :
  kok k -> kinv k' -> k_obj k' = k_obj k -> k_timers k' = k_timers k -> k_tick k' = k_tick k ->
  k_trow k' TLHard = k_trow k TLHard -> is_Some (k_current k') ->
  (exists th, k_threads k' !! deferrable = Some th /\
    (stat_class (tstat th) = RT_THREAD_READY \/ tstat th = RT_THREAD_SUSPEND)) -> kok k'.
Proof.
  intros [K1 K2 K3 K4 K5 K6] Hk E1 E2 E3 E4 Hc Hs. split; [done| | | | |done].
  - by eapply pending_ext.
  - by rewrite E3.
  - done.
  - by rewrite E1, E2.
Qed.

(** Stopping a timer. *)
Lemma kok_stopped tm o k :
  kok k -> k_obj k !! OTimer tm = Some o -> class_of o = RT_Object_Class_Timer ->
  kok (stopped tm k).
Proof.
  intros [K1 K2 K3 K4 K5 K6] Ho Hc. destruct (kinv_stopped tm o k K1 Ho Hc) as [Hk _].
  pose proof (clear_active_flags o) as (_ & _ & F3 & F4).
  unfold stopped in *. rewrite Ho in *. destruct (active o) eqn:Ea; [|by split].
  split; [done| |done|done| |done].
  - pose proof (stopped_pending tm k K2) as Hp. unfold stopped in Hp. by rewrite Ho, Ea in Hp.
  - destruct K5 as (p & o' & v & -> & Ho' & Hc' & Hs' & Hv & Hi). exists p.
    destruct (decide (tm = TUser p)) as [->|Hne].
    + assert (o' = o) as -> by congruence. exists (clear_active o), v. simpl. by rewrite lookup_insert_eq, F3, F4.
    + exists o', v. simpl. by rewrite lookup_insert_ne by congruence.
Qed.

Lemma server_suspended_fields t th k :
  let k' := park t th (with_stat RT_THREAD_SUSPEND) k in
  k_obj k' = k_obj k /\ k_timers k' = k_timers k /\ k_tick k' = k_tick k /\ k_trow k' = k_trow k /\
  k_current k' = k_current k.
Proof. done. Qed.

Lemma server_wake_fields t th k :
  k_obj (wake t th k) = k_obj k /\ k_timers (wake t th k) = k_timers k /\
  k_tick (wake t th k) = k_tick k /\ k_trow (wake t th k) = k_trow k.
Proof. unfold wake. simpl. by destruct (bool_decide _). Qed.

(** Resuming the server: afterwards it is awake, whether it was or not. *)
Lemma wp_resume_server k (Q : Z -> kstate -> Prop) :
  kok k -> (forall r k', kok k' -> awake k' -> Q r k') -> wp (rt_thread_resume deferrable) Q k.
Proof.
  intros Hk HQ. pose proof (ko_server _ Hk) as (th & Ht & Hs).
  pose proof (server_not_closed _ _ Hk Ht) as Hc.
  eapply wp_rt_thread_resume; [apply Hk|done|done|]. case_bool_decide as Hsus.
  - intros Hk'. apply HQ.
    + destruct (thread_timer _ _ (kinv_live _ _ _ (ko_kinv _ Hk) Ht Hc)) as (_ & o & Ho & Hco).
      pose proof (kok_stopped _ _ _ Hk Ho Hco) as Hks.
      destruct (server_wake_fields deferrable th (stopped (TThread deferrable) k)) as (E1 & E2 & E3 & E4).
      eapply kok_sched; [exact Hks|done|done|done|done|by rewrite <- E4| |].
      * unfold resumed. rewrite wake_current. apply Hks.
      * destruct (wake_threads deferrable th (stopped (TThread deferrable) k)) as (v & Hth & Hv & Hvc).
        unfold resumed. rewrite Hth, lookup_insert_eq. eexists. split; [done|]. left. by rewrite tstat_with.
    + destruct (wake_threads deferrable th (stopped (TThread deferrable) k)) as (v & Hth & Hv & Hvc).
      unfold awake, resumed. rewrite Hth, lookup_insert_eq. eexists. split; [done|]. by rewrite tstat_with.
  - apply HQ; [done|]. destruct Hs as [Hs|Hs]; [by exists th|done].
Qed.

(** Suspending the running server. *)
Lemma wp_suspend_server k (Q : Z -> kstate -> Prop) :
  kok k -> awake k -> (forall k', kok k' -> ~ awake k' -> k_current k' = k_current k -> Q RT_EOK k') ->
  wp (rt_thread_suspend deferrable) Q k.
Proof.
  intros Hk (th & Ht & Hs) HQ. pose proof (server_not_closed _ _ Hk Ht) as Hc.
  eapply wp_rt_thread_suspend; [apply Hk|done|done|]. rewrite bool_decide_eq_true_2 by done.
  intros Hk'. pose proof (kinv_live _ _ _ (ko_kinv _ Hk) Ht Hc) as Hl.
  destruct (thread_timer _ _ Hl) as (_ & o & Ho & Hco).
  assert (Hth : k_threads (suspended deferrable th k) !! deferrable =
                Some (set_th_stat (with_stat RT_THREAD_SUSPEND) th)).
  { unfold suspended. rewrite stopped_threads. apply lookup_insert_eq. }
  assert (Hsus : tstat (set_th_stat (with_stat RT_THREAD_SUSPEND) th) = RT_THREAD_SUSPEND)
    by (by apply tstat_with).
  apply HQ; [|by eapply not_awake|unfold suspended; by rewrite stopped_current].
  assert (Hkp : kok (park deferrable th (with_stat RT_THREAD_SUSPEND) k)).
  { eapply kok_sched; [exact Hk| |done|done|done|done|apply Hk|].
    - apply park_kinv; [apply Hk|done|done| |done].
      apply th_ok_stat; [by eapply kinv_th_ok; [apply Hk|]|apply with_stat_range; [done|]|].
      + eapply kinv_th_ok; [apply Hk|done].
      + intros _. split; intros E; by rewrite E in Hs.
    - eexists. split; [apply lookup_insert_eq|]. by right. }
  eapply kok_stopped; [exact Hkp|done|done].
Qed.

Lemma wp_start_capacity timer_thread k (Q : Z -> kstate -> Prop) :
  kok k ->
  (forall k', kok k' -> k_threads k' = k_threads k -> k_current k' = k_current k -> Q RT_EOK k') ->
  wp (rt_timer_start timer_thread tim_capacity) Q k.
Proof.
  intros Hk HQ. destruct Hk as [K1 K2 K3 K4 (p & o & v & Ep & Ho & Hc & Hs & Hv & Hi) K6].
  destruct (pending_remove tim_capacity k K2) as [Hw _].
  eapply (wp_rt_timer_start_hard _ _ o v); [by exists o, v|done|done|done|done|done|done|].
  intros l1 l2 El H1 H2.
  destruct (started_pending tim_capacity o v l1 l2 k K2 Hi El H1 H2) as (Hp & _ & _).
  pose proof (started_flags o) as (_ & F2 & _ & F4).
  apply HQ; [|done|done]. split; [|done|done|done| |done].
  - apply started_kinv; try done; [by rewrite El, Permutation_middle|by rewrite Ep].
  - exists p, (set_active (clear_active o)), (set_tm_timeout_tick (fun _ => start_tick v k) v).
    cbn [k_obj k_timers started set_k_obj set_k_trow set_k_random_nr set_k_timers].
    rewrite !lookup_insert_eq, F2, F4. done.
Qed.

Lemma wp_stop_capacity k (Q : Z -> kstate -> Prop) :
  kok k ->
  (forall r k', kok k' -> k_threads k' = k_threads k -> k_current k' = k_current k -> Q r k') ->
  wp (rt_timer_stop tim_capacity) Q k.
Proof.
  intros Hk HQ. pose proof (kok_live _ Hk) as Hl.
  pose proof (ko_cap _ Hk) as (p & o & v & _ & Ho & Hc & _).
  eapply wp_rt_timer_stop; [done|done|].
  pose proof (kok_stopped _ _ _ Hk Ho Hc) as Hks. unfold stopped in Hks. rewrite Ho in Hks.
  destruct (active o); by apply HQ.
Qed.

Lemma wp_schedule_kok k (Q : unit -> kstate -> Prop) :
  kok k -> (forall k', kok k' -> (awake k' <-> awake k) -> Q tt k') -> wp rt_schedule Q k.
Proof.
  intros Hk HQ. eapply wp_mono, wp_rt_schedule_k; [|apply Hk|apply Hk].
  intros [] k' (Hk' & Hf & Hc). pose proof (frame_rest _ _ Hf) as (E1 & E2 & E3 & E4 & _ & _ & E7).
  pose proof (ko_server _ Hk) as (th & Ht & Hs).
  destruct (frame_lookup _ _ _ _ (frame_sym _ _ Hf) Ht) as (th' & Ht' & E).
  apply HQ.
  - eapply kok_sched; [exact Hk|done|done|done|done|by rewrite E4|done|].
    exists th'. split; [done|]. destruct Hs as [Hs|Hs]; [left|right].
    + apply strip_stat in E. by rewrite <- E.
    + by rewrite <- (strip_same_stat RT_THREAD_SUSPEND _ _ E).
  - apply strip_stat in E. unfold awake. rewrite Ht, Ht'. split; intros (? & [= <-] & Hx).
    + exists th. split; [done|]. by rewrite E.
    + exists th'. split; [done|]. by rewrite <- E.
Qed.
End kok.

(** ** The queue and the server *)

Section server.
Context (deferrable timer_thread : tid) (tim_capacity tim_server : tmid) (asyncTask : loc)
  (byte_at : Z -> option Z) (thd_fun : loc -> D unit).

Abbreviation kok_ := (kok deferrable tim_capacity).
Abbreviation awake_ s := (awake deferrable (d_k s)).
Abbreviation step := (server_step deferrable timer_thread tim_capacity asyncTask thd_fun).
Abbreviation insert_task := (rt_thread_deferrable_insert_task deferrable asyncTask).

(** The waiting tasks, oldest first. *)
Definition queue (s : dstate) (l : list loc) : Prop := Ring.ring (d_heap s) asyncTask l.

(** What the server relies on at each point of its loop. *)
Definition at_pc (s : dstate) (l : list loc) : Prop :=
  match d_pc s with
  | PEntry | PLoop | PSched => awake_ s -> l ≠ []
  | PRun t | PRemove t => exists l', l = t :: l'
  | PCheck | PSuspend => True
  end.
Definition dinv (s : dstate) (l : list loc) : Prop := queue s l /\ kok_ (d_k s) /\ at_pc s l.

Lemma async_isempty_eq s l : queue s l -> async_isempty asyncTask s = Some (bool_decide (l = []), s).
Proof. intros Hq. unfold async_isempty, gets. by rewrite (Ring.isempty_next _ _ l). Qed.

Lemma queue_insert s l t :
  queue s l -> t ∉ asyncTask :: l ->
  Ring.ring (Ring.rt_list_insert_before asyncTask t (Ring.rt_list_init t (d_heap s))) asyncTask (l ++ [t]).
Proof.
  intros Hq Ht.
  assert (Hf : Ring.ring (Ring.rt_list_init t (d_heap s)) asyncTask l).
  { eapply Ring.ring_frame; [exact Hq|]. intros y Hy. unfold Ring.rt_list_init.
    assert (t ≠ y) by (intros ->; done).
    rewrite Ring.next_set_next, Ring.next_set_prev, Ring.prev_set_next, Ring.prev_set_prev.
    by rewrite !decide_False by done. }
  rewrite <- (app_nil_r l) in Hf. eapply (Ring.ring_splice _ _ asyncTask l [] t); [exact Hf| |].
  - by rewrite app_nil_r.
  - apply (Ring.ring_insert_before _ _ l []); [done|by rewrite app_nil_r].
Qed.

Lemma queue_head s t l : queue s (t :: l) -> Ring.next (d_heap s asyncTask) = t.
Proof. by intros [[[H _] _] _]. Qed.

Lemma queue_not_head s t l : queue s (t :: l) -> t ≠ asyncTask.
Proof. intros [_ Hd]. apply NoDup_cons in Hd as [Hn _]. intros ->. apply Hn. clear. mem. Qed.

(** Inserting a task that is not queued puts it at the tail of the queue, and when
    the queue was empty the server is made ready. *)
Theorem insert_task_spec s l t :
  dinv s l -> t ∉ asyncTask :: l ->
  wp (insert_task t) (fun _ s' => dinv s' (l ++ [t]) /\ d_pc s' = d_pc s /\
    (l = [] -> awake_ s') /\ (l ≠ [] -> d_k s' = d_k s)) s.
Proof.
  intros (Hq & Hk & Hpc) Ht. pose proof (queue_insert _ _ _ Hq Ht) as Hq'.
  unfold rt_thread_deferrable_insert_task. rewrite wp_bind.
  apply wp_unfold. do 2 eexists. split; [by apply async_isempty_eq|].
  case_bool_decide as Hl.
  - repeat wp_step. apply wp_lift. cbn [d_k set_d_heap].
    eapply wp_resume_server; [exact Hk|]. intros r k' Hk' Haw.
    rewrite wp_ret. split; [|split; [done|split; [done|done]]].
    split; [exact Hq'|]. split; [exact Hk'|]. unfold at_pc in *.
    cbn [d_pc set_d_k set_d_heap]. subst l. destruct (d_pc s); try done; destruct Hpc as [? [=]].
  - repeat wp_step. split; [|split; [done|split; [done|done]]].
    split; [exact Hq'|]. split; [exact Hk|]. unfold at_pc in *.
    cbn [d_pc set_d_heap d_k]. destruct (d_pc s); try done.
    1, 2, 5: intros _; by destruct l.
    + destruct Hpc as [l' ->]. by exists (l' ++ [t]).
    + destruct Hpc as [l' ->]. by exists (l' ++ [t]).
Qed.

(** The functions of the tasks run in the server thread: meanwhile handlers may insert
    tasks, but the server stays runnable and nothing is removed. *)
Hypothesis thd_fun_ok : forall t s l,
  queue s l -> kok_ (d_k s) -> awake_ s ->
  wp (thd_fun t) (fun _ s' => exists more, queue s' (l ++ more) /\ kok_ (d_k s') /\ awake_ s' /\
    d_pc s' = d_pc s /\ d_ran s' = d_ran s) s.

(** C8: First in, first out: every piece of the server's loop runs without a fault as
    long as the server is the running thread and keeps the invariant; the function it
    runs is that of the oldest task, that task alone is removed, and no other step
    changes the queue. *)
Theorem server_step_fifo s l :
  dinv s l -> awake_ s \/ d_pc s = PSched ->
  wp step (fun _ s' =>
    match d_pc s with
    | PRun t => d_ran s' = d_ran s ++ [t] /\ exists l' more, l = t :: l' /\ dinv s' (l ++ more)
    | PRemove t => exists l', l = t :: l' /\ dinv s' l'
    | PCheck => dinv s' l /\ d_pc s' = if bool_decide (l = []) then PSuspend else PLoop
    | PSuspend => dinv s' l /\ ~ awake_ s'
    | PEntry | PLoop | PSched => dinv s' l
    end) s.
Proof.
  intros (Hq & Hk & Hpc) Haw. unfold server_step. rewrite wp_bind, wp_gets. unfold at_pc in Hpc.
  destruct (d_pc s) eqn:Epc; try (destruct Haw as [Haw|]; [|done]).
  - repeat wp_step. split; [exact Hq|]. split; [exact Hk|exact Hpc].
  - destruct l as [|t l]; [by destruct (Hpc Haw)|].
    assert (Hrest : forall s1, queue s1 (t :: l) -> kok_ (d_k s1) ->
      wp (task ← gets (fun s => Ring.next (d_heap s asyncTask));
          rt_assert (bool_decide (task ≠ asyncTask)) ;; modify (set_d_pc (PRun task)))
         (fun _ s' => dinv s' (t :: l)) s1).
    { intros s1 Hq1 Hk1. repeat wp_step; [|]; rewrite (queue_head _ _ _ Hq1).
      - apply bool_decide_eq_true. by eapply queue_not_head.
      - split; [exact Hq1|]. split; [exact Hk1|]. by exists l. }
    rewrite wp_bind, wp_gets. rewrite wp_bind. apply wp_when; intros _.
    + rewrite wp_bind. apply wp_lift. eapply wp_start_capacity; [exact Hk|].
      intros k' Hk' _ _. rewrite wp_modify. by apply Hrest.
    + by apply Hrest.
  - destruct Hpc as [l' ->]. rewrite wp_bind. eapply wp_mono, thd_fun_ok; [|done|done|done].
    intros _ s1 (more & Hq1 & Hk1 & Haw1 & Epc1 & Eran). repeat wp_step.
    cbn [d_ran set_d_pc log_d_ran]. rewrite Eran. split; [done|].
    exists l', more. split; [done|]. split; [exact Hq1|]. split; [exact Hk1|]. by eexists.
  - destruct Hpc as [l' ->]. repeat wp_step. exists l'. split; [done|].
    split; [|split; [exact Hk|done]]. unfold queue in *. cbn [d_heap set_d_pc set_d_heap].
    eapply (Ring.ring_unsplice _ _ _ [] l'); [exact Hq|]. by apply (Ring.ring_remove _ _ []).
  - rewrite wp_bind. apply wp_unfold. do 2 eexists. split; [by apply async_isempty_eq|].
    rewrite wp_modify. case_bool_decide; (split; [|done]); (split; [exact Hq|]);
      (split; [exact Hk|try done; intros _; done]).
  - rewrite wp_bind. apply wp_lift. eapply wp_stop_capacity; [exact Hk|].
    intros r k1 Hk1 Eth Ec. rewrite wp_bind. apply wp_lift. cbn [d_k set_d_k].
    eapply wp_suspend_server; [exact Hk1|unfold awake; by rewrite Eth|].
    intros k2 Hk2 Hna _. repeat wp_step. split; [|exact Hna].
    split; [exact Hq|]. split; [exact Hk2|]. intros Ha. by destruct Hna.
  - rewrite wp_bind. apply wp_lift. eapply wp_schedule_kok; [exact Hk|].
    intros k' Hk' Hiff. repeat wp_step.
    split; [exact Hq|]. split; [exact Hk'|]. intros Ha. apply Hpc, Hiff, Ha.
Qed.

Fixpoint insert_all (ts : list loc) : D unit :=
  match ts with [] => mret tt | t :: ts => insert_task t ;; insert_all ts end.

Lemma insert_behind s l ts :
  dinv s l -> l ≠ [] -> NoDup ts -> (forall t, t ∈ ts -> t ∉ asyncTask :: l) ->
  wp (insert_all ts) (fun _ s' => dinv s' (l ++ ts) /\ d_k s' = d_k s) s.
Proof.
  revert s l. induction ts as [|t ts IH]; intros s l Hi Hl Hd Hts.
  - rewrite app_nil_r. done.
  - apply NoDup_cons in Hd as [Ht Hd]. cbn [insert_all]. rewrite wp_bind.
    eapply wp_mono, insert_task_spec; [|exact Hi|apply Hts; clear; mem].
    intros _ s1 (Hi1 & _ & _ & Ek). eapply wp_mono, (IH s1 (l ++ [t])); [|exact Hi1|by destruct l|done|].
    + intros _ s2 [Hi2 Ek2]. rewrite <- app_assoc in Hi2. split; [exact Hi2|]. by rewrite Ek2, Ek.
    + intros u Hu. assert (u ≠ t) by (by intros ->). pose proof (Hts u ltac:(clear -Hu; mem)). clear -H H0. mem.
Qed.

(** A lost wake-up: the server has found its queue empty; before it suspends itself
    a button interrupt inserts [t].  The server goes to sleep on a non-empty queue, and
    no later insertion wakes it, however many there are. *)
Theorem lost_wakeup s t ts :
  dinv s [] -> awake_ s -> d_pc s = PCheck -> NoDup (t :: ts) -> asyncTask ∉ t :: ts ->
  wp (step ;; insert_task t ;; step ;; insert_all ts)
    (fun _ s' => queue s' (t :: ts) /\ ~ awake_ s') s.
Proof.
  intros Hi Haw Epc Hd Ha. rewrite wp_bind.
  assert (H1 : wp step (fun _ s1 => dinv s1 [] /\ d_k s1 = d_k s /\ d_pc s1 = PSuspend) s).
  { unfold server_step. rewrite wp_bind, wp_gets, Epc, wp_bind. apply wp_unfold.
    do 2 eexists. split; [apply async_isempty_eq, Hi|]. rewrite wp_modify.
    split; [|done]. split; [apply Hi|]. split; [apply Hi|done]. }
  eapply wp_mono, H1. intros _ s1 (Hi1 & Ek1 & Epc1). rewrite wp_bind.
  eapply wp_mono, insert_task_spec; [|exact Hi1|clear -Ha; mem].
  intros _ s2 (Hi2 & Epc2 & Haw2 & _). rewrite wp_bind.
  assert (Haw2' : awake_ s2) by (by apply Haw2).
  assert (H2 : wp step (fun _ s3 => dinv s3 [t] /\ ~ awake_ s3) s2).
  { pose proof (server_step_fifo s2 ([] ++ [t]) Hi2 (or_introl Haw2')) as H.
    by rewrite Epc2, Epc1 in H. }
  eapply wp_mono, H2. intros _ s3 [Hi3 Hna]. apply NoDup_cons in Hd as [Ht Hd].
  eapply wp_mono, (insert_behind s3 [t] ts); [|exact Hi3|done|done|].
  - intros _ s4 [[Hq _] Ek]. split; [exact Hq|]. by rewrite Ek.
  - intros u Hu. assert (u ≠ t) by (by intros ->). clear -Ha Hu H. mem.
Qed.

(** A task inserted while it is still queued, as a second press of its button does,
    cuts the queue: the traversal from the head ends at it, and the tasks behind it are
    gone. *)
Theorem reinsert_cuts_queue s l1 l2 t :
  queue s (l1 ++ t :: l2) ->
  wp (insert_task t) (fun _ s' => Ring.fchain (d_heap s') asyncTask (l1 ++ [t]) asyncTask) s.
Proof.
  intros Hq. unfold rt_thread_deferrable_insert_task. rewrite wp_bind. apply wp_unfold.
  do 2 eexists. split; [by apply async_isempty_eq|].
  rewrite bool_decide_eq_false_2 by (by destruct l1). repeat wp_step.
  eapply Ring.reinsert_loses_tail, Hq.
Qed.

(** On an empty queue the next turn of the loop takes the list head for a task. *)
Lemma empty_loop_faults s : queue s [] -> d_pc s = PLoop -> step s = None.
Proof.
  intros [[E _] _] Epc.
  assert (Hh : bool_decide (Ring.next (d_heap s asyncTask) ≠ asyncTask) = false).
  { apply bool_decide_eq_false_2. intros H. by apply H. }
  unfold server_step, mbind, M_bind, gets, rt_assert, modify, lift. rewrite Epc.
  destruct (d_active s =? 0); cbn [when].
  - destruct (rt_timer_start timer_thread tim_capacity (d_k s)) as [[a k]|]; [|done].
    cbn. by rewrite Hh.
  - cbn. by rewrite Hh.
Qed.

(** At the start of a period with no task waiting, the handler makes the server
    ready although its queue is empty; the server's next turn of the loop then takes
    the list head for a task and faults. *)
Theorem empty_period_faults s :
  dinv s [] -> 0 <= d_priority s < RT_THREAD_PRIORITY_MAX ->
  wp (rt_timer_deferrable_period deferrable tim_capacity asyncTask)
    (fun _ s' => awake_ s' /\ queue s' [] /\ d_pc s' = d_pc s /\ (d_pc s = PLoop -> step s' = None)) s.
Proof.
  intros (Hq & Hk & _) Hp. unfold rt_timer_deferrable_period. repeat wp_step.
  apply wp_unfold. do 2 eexists. split; [by apply (async_isempty_eq _ [])|].
  rewrite bool_decide_eq_true_2 by done. unfold when. rewrite !wp_bind. apply wp_lift.
  eapply wp_resume_server; [exact Hk|]. intros r k1 Hk1 (th & Ht & Hst).
  repeat wp_step. apply wp_lift. cbn [d_k set_d_k d_priority set_d_capacity_left].
  eapply wp_change_priority; [apply Hk1|done|by eapply server_not_closed|done|].
  intros Hk2. destruct (reprioritised_threads deferrable th (d_priority s) k1 Ht) as (th' & Eth & Est & _).
  repeat wp_step. apply wp_lift. cbn [d_k set_d_k]. unfold rt_timer_control.
  pose proof (kok_live _ _ _ Hk1) as (o & v & Ho & Hc & Hv).
  assert (El : timer_live tim_capacity (reprioritised deferrable th (d_priority s) k1)).
  { exists o, v. unfold reprioritised. by case_match. }
  rewrite wp_bind. apply wp_is_timer; [done|]. destruct El as (o' & v' & Ho' & Hc' & Hv').
  rewrite wp_bind. eapply wp_get_timer; [done|]. rewrite wp_bind. eapply wp_get_obj; [done|].
  cbn. rewrite wp_bind. eapply wp_upd_timer; [done|]. repeat wp_step.
  assert (Haw : exists th', k_threads (reprioritised deferrable th (d_priority s) k1) !! deferrable = Some th' /\
    stat_class (tstat th') = RT_THREAD_READY).
  { exists th'. rewrite Eth, lookup_insert_eq, Est. done. }
  split; [exact Haw|]. split; [exact Hq|]. split; [done|]. intros Epc.
  by apply empty_loop_faults.
Qed.

(** When the capacity is used up the server is to drop to priority
    RT_THREAD_PRIORITY_MAX - 1, but the handler hands over the number 31 as the address of
    the priority: the server gets whatever byte memory holds at address 31, and the
    handler faults when that is no priority. *)
Theorem capacity_reads_address_31 s l :
  dinv s l ->
  match byte_at 31 with
  | Some p =>
      0 <= p < RT_THREAD_PRIORITY_MAX ->
      wp (rt_timer_deferrable_capacity deferrable byte_at) (fun _ s' => d_capacity_left s' = 0 /\
        queue s' l /\ kinv (d_k s') /\ exists th, k_threads (d_k s') !! deferrable = Some th /\
        th_current_priority th = p) s
  | None => rt_timer_deferrable_capacity deferrable byte_at s = None
  end.
Proof.
  intros (Hq & Hk & _). pose proof (ko_server _ _ _ Hk) as (th & Ht & _).
  pose proof (server_not_closed _ _ _ _ Hk Ht) as Hc.
  unfold rt_timer_deferrable_capacity. change (RT_THREAD_PRIORITY_MAX - 1) with 31.
  destruct (byte_at 31) as [p|].
  - intros Hp. repeat wp_step. apply wp_lift. eapply wp_change_priority; [apply Hk|done|done|done|].
    intros Hk'. destruct (reprioritised_threads _ _ p _ Ht) as (th' & Hth & _ & Hpr). rewrite wp_ret.
    split; [done|]. split; [exact Hq|]. split; [exact Hk'|]. exists th'. cbn [d_k set_d_k].
    cbn [d_k set_d_capacity_left]. by rewrite Hth, lookup_insert_eq.
  - unfold mbind, M_bind, modify, lift. cbn [d_k set_d_capacity_left].
    unfold rt_thread_control, is_thread, rt_object_get_type, get_obj, get_thread, mbind, M_bind, deref,
      mret, M_ret, rt_assert.
    destruct (k_obj (d_k s) !! OThread deferrable) as [x|]; [|done].
    destruct (_ =? RT_Object_Class_Thread); [|done]. cbn. rewrite Ht.
    destruct (_ =? RT_THREAD_READY); [|done]. cbn.
    by destruct (rt_schedule_remove_thread deferrable (d_k s)) as [[[] k]|].
Qed.
End server.

(** ** Concrete instances

    The kernel of [sample_timers], with its user timer as the capacity timer; the server
    is the suspended thread 4 or the running thread 1.  The list head is at address 1,
    tasks at 2, 3 and 4. *)

Definition empty_ring : Ring.heap := fun l => Ring.Node l l.
Definition sample_server (pc : dpc) (h : Ring.heap) : dstate := mkD sample_timers h 0 5 100 100 pc [].
Definition sample_tasks : Ring.heap :=
  foldr (fun t h => Ring.rt_list_insert_before 1 t h) empty_ring [4; 3; 2]%positive.

Lemma sample_kok t : t = 1%positive \/ t = 4%positive -> kok t (TUser 1) sample_timers.
Proof.
  intros Ht. split; [apply sample_timers_kinv|apply sample_timers_pending|done|by eexists| |].
  - exists 1%positive. do 2 eexists. by repeat split.
  - destruct Ht as [->| ->]; eexists; (split; [done|]); [by left|by right].
Qed.

Lemma empty_queue k a p c cl pc r : queue 1 (mkD k empty_ring a p c cl pc r) [].
Proof. split; [done|apply NoDup_singleton]. Qed.

Lemma sample_queue k a p c cl pc r : queue 1 (mkD k sample_tasks a p c cl pc r) [2; 3; 4]%positive.
Proof.
  split; [by repeat split|]. by apply (bool_decide_eq_true_1 (NoDup [1; 2; 3; 4]%positive)).
Qed.

Theorem insert_task_spec_witness :
  wp (rt_thread_deferrable_insert_task 4 1 2) (fun _ s' => dinv 4 (TUser 1) 1 s' [2%positive] /\
    d_pc s' = PSched /\ (@nil loc = [] -> awake 4 (d_k s')) /\
    (@nil loc ≠ [] -> d_k s' = sample_timers)) (sample_server PSched empty_ring).
Proof.
  apply (insert_task_spec 4 (TUser 1) 1 (sample_server PSched empty_ring) [] 2%positive); [|mem].
  split; [apply empty_queue|]. split; [apply sample_kok; by right|].
  intros (th & Ht & Hs). revert Ht Hs. vm_compute. intros [= <-]. done.
Defined.

Theorem server_step_fifo_witness :
  wp (server_step 1 4 (TUser 1) 1 (fun _ => mret tt)) (fun _ s' =>
    d_ran s' = [2%positive] /\ exists l' more, [2; 3; 4]%positive = 2%positive :: l' /\
      dinv 1 (TUser 1) 1 s' ([2; 3; 4]%positive ++ more)) (sample_server (PRun 2) sample_tasks).
Proof.
  apply (server_step_fifo 1 4 (TUser 1) 1 (fun _ => mret tt)) with (s := sample_server (PRun 2) sample_tasks) (l := [2; 3; 4]%positive).
  - intros t s l Hq Hk Ha. rewrite wp_ret. exists []. by rewrite app_nil_r.
  - split; [apply sample_queue|]. split; [apply sample_kok; by left|]. by eexists.
  - left. by eexists.
Defined.

Theorem lost_wakeup_witness :
  wp (server_step 1 4 (TUser 1) 1 (fun _ => mret tt) ;;
      rt_thread_deferrable_insert_task 1 1 2 ;;
      server_step 1 4 (TUser 1) 1 (fun _ => mret tt) ;;
      insert_all 1 1 [3%positive])
    (fun _ s' => queue 1 s' [2; 3]%positive /\ ~ awake 1 (d_k s')) (sample_server PCheck empty_ring).
Proof.
  apply (lost_wakeup 1 4 (TUser 1) 1 (fun _ => mret tt)) with (s := sample_server PCheck empty_ring).
  - intros t s l Hq Hk Ha. rewrite wp_ret. exists []. by rewrite app_nil_r.
  - split; [apply empty_queue|]. split; [apply sample_kok; by left|done].
  - by eexists.
  - done.
  - by apply (bool_decide_eq_true_1 (NoDup [2; 3]%positive)).
  - mem.
Defined.

Theorem reinsert_cuts_queue_witness :
  wp (rt_thread_deferrable_insert_task 1 1 2) (fun _ s' =>
    Ring.fchain (d_heap s') 1 [2%positive] 1) (sample_server PLoop sample_tasks).
Proof.
  apply (reinsert_cuts_queue 1 1 (sample_server PLoop sample_tasks) [] [3; 4]%positive 2).
  apply sample_queue.
Defined.

Theorem empty_period_faults_witness :
  wp (rt_timer_deferrable_period 4 (TUser 1) 1) (fun _ s' => awake 4 (d_k s') /\ queue 1 s' [] /\
    d_pc s' = PLoop /\ (PLoop = PLoop -> server_step 4 4 (TUser 1) 1 (fun _ => mret tt) s' = None))
    (sample_server PLoop empty_ring).
Proof.
  apply (empty_period_faults 4 4 (TUser 1) 1 (fun _ => mret tt) (sample_server PLoop empty_ring)); [|done].
  split; [apply empty_queue|]. split; [apply sample_kok; by right|].
  intros (th & Ht & Hs). revert Ht Hs. vm_compute. intros [= <-]. done.
Defined.

Theorem capacity_reads_address_31_witness :
  wp (rt_timer_deferrable_capacity 4 (fun a => if a =? 31 then Some 7 else None)) (fun _ s' =>
    d_capacity_left s' = 0 /\ queue 1 s' [2; 3; 4]%positive /\ kinv (d_k s') /\
    exists th, k_threads (d_k s') !! 4%positive = Some th /\ th_current_priority th = 7)
    (sample_server PCheck sample_tasks).
Proof.
  apply (capacity_reads_address_31 4 (TUser 1) 1 (fun a => if a =? 31 then Some 7 else None)
           (sample_server PCheck sample_tasks) [2; 3; 4]%positive); [|done].
  split; [apply sample_queue|]. split; [apply sample_kok; by right|done].
Defined.
