(* ===== verification/Main.v ===== *)
(** * Main: the start of the application, applications/main.c

    What [main] does with the kernel: the deferrable server, the two mutexes and the two
    threads.  The set-up of the sensors, the flash chip and the pins before it is that of
    Bmp280, Mpu6050 and W25q64, and of the pins, which are hardware.  Starting the
    producer preempts [main], which is cut there. *)

From S2P Require Import Prelude RtList Kernel Scheduler Object TimerCore Thread Timer Ipc Mutex Sleep Start Deferrable.

#[local] Open Scope Z_scope.

(** ** Definitions *)

Definition THREAD_PRIORITY : Z := RT_THREAD_PRIORITY_MAX - 15.
Definition THREAD_TIMESLICE : Z := 10.

(** "raw_mutex", "bench_mutex", "producer" and "consumer" *)
Definition raw_mutex_name : list Z := [114; 97; 119; 95; 109; 117; 116; 101; 120].
Definition bench_mutex_name : list Z := [98; 101; 110; 99; 104; 95; 109; 117; 116; 101; 120].
Definition producer_name : list Z := [112; 114; 111; 100; 117; 99; 101; 114].
Definition consumer_name : list Z := [99; 111; 110; 115; 117; 109; 101; 114].

Section main.
Context (deferrable producer consumer : tid) (tim_capacity tim_server : tmid) (asyncTask : loc)
  (deferrable_entry producer_entry consumer_entry : positive) (rt_deferrable_stack producer_stack consumer_stack : Z).

(** [rt_mutex_create] for both mutexes, with the results of [rt_malloc]; [None] is the early
    return with -1. *)
Definition main_mutexes (raw bench : option positive) : K (option (positive * positive)) :=
  raw_mutex ← rt_mutex_create raw raw_mutex_name RT_IPC_FLAG_FIFO;
  match raw_mutex with
  | None => mret None
  | Some raw_mutex =>
      bench_mutex ← rt_mutex_create bench bench_mutex_name RT_IPC_FLAG_FIFO;
      match bench_mutex with
      | None => mret None
      | Some bench_mutex => mret (Some (raw_mutex, bench_mutex))
      end
  end.

Definition main_threads : K unit :=
  rt_thread_init producer producer_name producer_entry 0 producer_stack 2048 (THREAD_PRIORITY - 10) THREAD_TIMESLICE ;;
  rt_thread_init consumer consumer_name consumer_entry 0 consumer_stack 20480 THREAD_PRIORITY THREAD_TIMESLICE ;;
  mret tt.

(** Up to the start of the producer, which preempts [main]. *)
Definition main_start (raw bench : option positive) : D (option (positive * positive)) :=
  rt_thread_deferrable_init deferrable tim_capacity tim_server asyncTask deferrable_entry rt_deferrable_stack
    (rt_tick_from_millisecond 1000) (rt_tick_from_millisecond 205000) THREAD_PRIORITY ;;
  mutexes ← lift (main_mutexes raw bench);
  match mutexes with
  | None => mret None
  | Some m => lift main_threads ;; lift (rt_thread_startup producer) ;; mret (Some m)
  end.

(** When it runs again. *)
Definition main_resumed : K unit := rt_thread_startup consumer ;; mret tt.
End main.

(** ** States that grow *)

(** [s'] is [s] with the objects [os], the threads [ts] and the timers [tms] new or changed. *)
Record grown (os : list objid) (ts : list tid) (tms : list tmid) (s s' : kstate) : Prop := {
  gr_ipc : ipc_inv s';
  gr_trow : k_trow s' = k_trow s;
  gr_irq : k_irq_nest s' = k_irq_nest s;
  gr_tick : k_tick s' = k_tick s;
  gr_pending : pending s -> pending s';
  gr_lock : k_lock_nest s = 0 -> k_lock_nest s' = 0;
  gr_current : is_Some (k_current s) -> is_Some (k_current s');
  gr_lists : forall h, (forall p, h ≠ LReady p) -> k_tlist s' h = k_tlist s h;
  gr_obj : forall o, o ∉ os -> k_obj s' !! o = k_obj s !! o;
  gr_containers : forall i o, o ∉ os -> o ∈ k_containers s' i <-> o ∈ k_containers s i;
  gr_threads : forall t, t ∉ ts -> strip <$> k_threads s' !! t = strip <$> k_threads s !! t;
  gr_timers : forall tm, tm ∉ tms -> k_timers s' !! tm = k_timers s !! tm;
  gr_mutexes : forall m, OMutex m ∉ os -> k_mutexes s' !! m = k_mutexes s !! m
}.

Lemma grown_trans os1 ts1 tms1 os2 ts2 tms2 s1 s2 s3 :
  grown os1 ts1 tms1 s1 s2 -> grown os2 ts2 tms2 s2 s3 -> grown (os1 ++ os2) (ts1 ++ ts2) (tms1 ++ tms2) s1 s3.
Proof.
  intros [A1 A2 A3 A4 A5 A6 A7 A8 A9 A10 A11 A12 A13] [B1 B2 B3 B4 B5 B6 B7 B8 B9 B10 B11 B12 B13]. split; try congruence; try tauto.
  - intros h Hh. by rewrite B8, A8.
  - intros o [H1 H2]%not_elem_of_app. by rewrite B9, A9.
  - intros i o [H1 H2]%not_elem_of_app. by rewrite B10, A10.
  - intros t [H1 H2]%not_elem_of_app. by rewrite B11, A11.
  - intros tm [H1 H2]%not_elem_of_app. by rewrite B12, A12.
  - intros m [H1 H2]%not_elem_of_app. by rewrite B13, A13.
Qed.

Lemma grown_sub os ts tms os' ts' tms' s s' : grown os ts tms s s' -> os ⊆ os' -> ts ⊆ ts' -> tms ⊆ tms' -> grown os' ts' tms' s s'.
Proof. intros [] H1 H2 H3. split; auto. Qed.

(** What is not made yet is still free. *)
Lemma grown_unlinked os ts tms s s' o : grown os ts tms s s' -> o ∉ os -> unlinked o (k_containers s) -> unlinked o (k_containers s').
Proof. intros G Hn Hu i Hi. by apply (gr_containers _ _ _ _ _ G) in Hi; [apply Hu in Hi|]. Qed.

Lemma grown_none os ts tms s s' t : grown os ts tms s s' -> t ∉ ts -> k_threads s !! t = None -> k_threads s' !! t = None.
Proof. intros G Hn Hu. pose proof (gr_threads _ _ _ _ _ G t Hn) as E. rewrite Hu in E. by destruct (k_threads s' !! t). Qed.

Lemma grown_unborn os ts tms s s' t :
  grown os ts tms s s' -> t ∉ ts -> OTimer (TThread t) ∉ os -> unborn t s -> unborn t s'.
Proof.
  intros G H1 H2 [U1 U2 U3 U4]. assert (Hnone : k_threads s' !! t = None) by (by eapply grown_none). split; [..|done].
  - intros [p| | | |] Hin.
    1: { destruct (ri_ready _ _ (proj1 (ki_sched _ (ii_kernel _ (gr_ipc _ _ _ _ _ G)))) p t Hin) as (th & Ht & _). congruence. }
    all: rewrite (gr_lists _ _ _ _ _ G) in Hin by done; by destruct (U1 _ Hin).
  - rewrite (gr_trow _ _ _ _ _ G). exact U2.
  - by eapply grown_unlinked.
Qed.

Lemma grown_thread os ts tms s s' t th : grown os ts tms s s' -> t ∉ ts -> k_threads s !! t = Some th ->
  exists th', k_threads s' !! t = Some th' /\ strip th' = strip th.
Proof.
  intros G Hn Ht. pose proof (gr_threads _ _ _ _ _ G t Hn) as E. rewrite Ht in E. destruct (k_threads s' !! t) as [th'|]; [|done].
  exists th'. split; [done|]. change (Some (strip th') = Some (strip th)) in E. by apply (inj Some) in E.
Qed.

(** *** The steps grow the state *)

Lemma sorted_same time time' b l : (forall t, t ∈ l -> time' t = time t) -> sorted time b l -> sorted time' b l.
Proof.
  unfold sorted. induction l as [|t l IH]; intros He Hs; [constructor|]. apply StronglySorted_inv in Hs as [Hs Hf].
  constructor; [apply IH; [intros u Hu; apply He; by right|done]|]. rewrite Forall_forall in Hf |- *. intros u Hu. specialize (Hf u Hu).
  unfold toff in *. rewrite !He; [done|by right|by left].
Qed.
Lemma pending_rows s s' : (forall tm, tm ∈ k_trow s TLHard -> k_timers s' !! tm = k_timers s !! tm) ->
  k_tick s' = k_tick s -> k_trow s' = k_trow s -> pending s -> pending s'.
Proof.
  intros He E1 E2 [Hw Hs]. unfold pending. rewrite E1, E2.
  assert (Ht : forall t, t ∈ k_trow s TLHard -> timeout_of s' t = timeout_of s t) by (intros t Hin; unfold timeout_of; by rewrite He).
  split; [|by eapply sorted_same]. unfold in_window in *. rewrite Forall_forall in Hw |- *. intros t Hin. specialize (Hw t Hin).
  unfold toff in *. by rewrite Ht.
Qed.

Lemma not_elem_of_cons2 {A} (x a b : A) l : x ∉ a :: b :: l -> x ≠ a /\ x ≠ b /\ x ∉ l.
Proof. by rewrite !not_elem_of_cons. Qed.

Lemma born_grown t th s s' : ipc_inv s' -> unborn t s -> born t th s s' -> grown [OThread t; OTimer (TThread t)] [t] [TThread t] s s'.
Proof.
  intros Hi [U1 U2 U3 U4] [O1 O2 O3 O4 O5 O6 O7 O8 O9 O10 O11 O12].
  split; try done.
  - apply pending_rows; [|done|done]. intros tm Hin. apply O9. intros ->. by destruct (U2 TLHard).
  - by apply O10.
  - intros o (H1 & H2 & _)%not_elem_of_cons2. by apply O7.
  - intros i o (H1 & H2 & _)%not_elem_of_cons2. by apply O8.
  - intros u [H1 _]%not_elem_of_cons. by apply O6.
  - intros tm [H1 _]%not_elem_of_cons. by apply O9.
  - intros m _. by rewrite O12.
Qed.

Lemma near_grown s s' t : ipc_inv s' -> near (set_k_threads t s) s' -> k_obj s' = k_obj s -> k_containers s' = k_containers s ->
  forall ts, (forall u, u ∉ ts -> t (k_threads s) !! u = k_threads s !! u) -> grown [] ts [] s s'.
Proof.
  intros Hi [N1 N2 N3 N4 N5 N6 N7 N8 N9] E1 E2 ts Hts. split; try done; try (by rewrite ?E1, ?E2).
  - by apply pending_ext; [..|by rewrite N2].
  - apply N7.
  - intros u Hu. apply (f_equal (lookup u)) in N5. unfold stripped in N5. rewrite !lookup_fmap in N5. cbn in N5. by rewrite Hts in N5.
  - intros tm _. by rewrite N1.
  - intros m _. by rewrite N9.
Qed.

(** A thread that is not running any timer is suspended. *)
Lemma ipc_inv_suspended t th s : ipc_inv s -> kinv (suspended t th s) -> ipc_inv (suspended t th s).
Proof.
  intros Hi Hk. split; [done|]. intros h u Hh Hin. destruct (suspended_fields t th s) as (F1 & F2 & _). rewrite F2 in Hin.
  apply elem_of_list_remove in Hin as [Hin Hne]. destruct (ii_wait _ Hi h u Hh Hin) as (thu & Hu & Hsu). exists thu.
  rewrite F1. by rewrite lookup_insert_ne by congruence.
Qed.

Lemma suspended_grown t th s : ipc_inv s -> ipc_inv (suspended t th s) -> k_threads s !! t = Some th -> stat_class (tstat th) = RT_THREAD_READY -> unlinked (TThread t) (k_trow s) ->
  grown [] [t] [] s (suspended t th s).
Proof.
  intros Hi Hi' Ht Hs Hr. destruct (suspended_fields t th s) as (F1 & F2 & F3 & F4 & F5).
  assert (Est : suspended t th s = park t th (with_stat RT_THREAD_SUSPEND) s).
  { assert (Hcl : tstat th ≠ RT_THREAD_CLOSE) by (intros E; by rewrite E in Hs).
    destruct (ki_live _ (ii_kernel _ Hi) t th Ht Hcl) as (? & xt & ? & _ & _ & Hxt & Hc & _).
    unfold suspended, stopped. change (k_obj (park _ _ _ s)) with (k_obj s). rewrite Hxt. destruct (active xt) eqn:Ea; [|done].
    destruct (ti_active _ (ki_timer _ (ii_kernel _ Hi)) (TThread t) xt Hxt Hc Ea) as [h Hin]. by destruct (Hr h). }
  rewrite Est in *. split; try done.
  - intros h Hh. cbn. apply list_remove_unlinked_id. intros Hin. destruct (ki_sched _ (ii_kernel _ Hi)) as [[R1 _ _ R4 _ _] [_ C2]].
    unfold stat_class in Hs. destruct (Z.eqb_spec (tstat th) RT_THREAD_RUNNING) as [Er|Er].
    + destruct (C2 t th Ht Er) as [_ Hul]. by destruct (Hul h).
    + pose proof (proj2 R1 _ _ _ Hin (R4 t th Ht Hs ltac:(done))) as ->. by destruct (Hh (th_current_priority th)).
  - intros u [Hu _]%not_elem_of_cons. cbn. by rewrite lookup_insert_ne by done.
Qed.

Lemma timer_grown p x v s s1 : ipc_inv (set_k_timers <[TUser p := v]> s1) -> unlinked (TUser p) (k_trow s) -> near s s1 ->
  k_obj s1 = <[OTimer (TUser p) := x]> (k_obj s) ->
  k_containers s1 = list_insert_after RT_Object_Class_Timer (OTimer (TUser p)) (k_containers s) ->
  grown [OTimer (TUser p)] [] [TUser p] s (set_k_timers <[TUser p := v]> s1).
Proof.
  intros Hi Hu [N1 N2 N3 N4 N5 N6 N7 N8 N9] E1 E2. split; try done; cbn.
  - apply pending_rows; [|done|done]. intros tm Hin. cbn. rewrite N1, lookup_insert_ne; [done|]. intros <-. by destruct (Hu TLHard).
  - by apply N7.
  - intros o [Ho _]%not_elem_of_cons. by rewrite E1, lookup_insert_ne.
  - intros i o [Ho _]%not_elem_of_cons. rewrite E2. by apply elem_insert_after.
  - intros t _. apply (f_equal (lookup t)) in N5. unfold stripped in N5. by rewrite !lookup_fmap in N5.
  - intros tm [Htm _]%not_elem_of_cons. by rewrite lookup_insert_ne, N1.
  - intros m _. by rewrite N9.
Qed.

(** A list head that is initialised anew was empty. *)
Lemma ipc_inv_head_init h s : ipc_inv s -> wait_head h -> k_tlist s h = [] -> ipc_inv (set_k_tlist (list_init h) s).
Proof.
  intros Hi Hh Hl. assert (E : forall h', k_tlist (set_k_tlist (list_init h) s) h' = k_tlist s h').
  { intros h'. cbn. unfold list_init. destruct (decide (h = h')) as [<-|Hne]; [by rewrite insert_eq|by rewrite insert_ne]. }
  destruct Hi as [[[[R1 R2 R3 R4 R5 R6] [C1 C2]] K2 K3 K4 K5] Hw].
  split; [split; [|by eapply obj_inv_ext; [..|exact K2]|by eapply timer_inv_ext; [..|exact K3]|done|done]|].
  - split; [split|split]; try done.
    + split; [intros h'; rewrite E; apply R1|]. intros h1 h2 t. rewrite !E. apply R1.
    + intros p t. rewrite E. apply R3.
    + intros t th Ht Hs Hx. rewrite E. by apply R4.
    + intros p Hp. rewrite E. by apply R6.
    + intros t th Ht Hs. destruct (C2 t th Ht Hs) as [H1 H2]. split; [done|]. intros h'. rewrite E. apply H2.
  - intros h' t Hh'. rewrite E. by apply Hw.
Qed.

Lemma wp_rt_mutex_create m name flag (Q : option positive -> kstate -> Prop) s :
  ipc_inv s -> unlinked (OMutex m) (k_containers s) -> k_irq_nest s = 0 -> k_tlist s (LSuspend (OMutex m)) = [] -> ipc_flag flag ->
  (forall x s', mutex_live m x free_mutex s' -> o_flag x = flag -> grown [OMutex m] [] [] s s' -> Q (Some m) s') ->
  wp (rt_mutex_create (Some m) name flag) Q s.
Proof.
  intros Hi Hu Hn Hl Hfl HQ. unfold rt_mutex_create, not_in_interrupt. rewrite wp_bind, wp_bind, wp_gets. apply wp_assert; [by rewrite Hn|].
  cbn [fmap option_fmap option_map]. rewrite wp_bind.
  eapply wp_object_allocate_ipc; [done|by apply (bool_decide_unpack _)|by split|done|done|]. intros s1 Hi1 ([N1 N2 N3 N4 N5 N6 N7 N8 N9] & E1 & E2).
  unfold rt_ipc_object_init, tlist_modify. rewrite wp_bind, wp_bind, wp_modify, wp_ret, wp_bind, wp_modify, wp_bind.
  eapply wp_upd_obj; [cbn; rewrite E1; apply lookup_insert_eq|]. rewrite wp_ret. set (x := set_o_flag _ _). set (s2 := set_k_obj _ _).
  assert (Ek : k_obj s2 = <[OMutex m := x]> (k_obj s)) by (cbn; by rewrite E1, insert_insert_eq).
  assert (Hl1 : k_tlist s1 (LSuspend (OMutex m)) = []) by (by rewrite N6).
  assert (El : forall h, (forall p, h ≠ LReady p) -> k_tlist s2 h = k_tlist s h).
  { intros h Hh. rewrite <- N6 by done. cbn. unfold list_init. destruct (decide (LSuspend (OMutex m) = h)) as [<-|Hne]; [by rewrite insert_eq|by rewrite insert_ne]. }
  assert (Hi2 : ipc_inv s2).
  { pose proof (ipc_inv_head_init (LSuspend (OMutex m)) s1 Hi1 I Hl1) as [Hk Hw]. split; [|done]. destruct Hk as [K1 K2 [T1 T2 T3] K4 K5]. cbn in T2, T3. rewrite E1 in T2, T3. split.
    - by eapply sched_inv_ext; [..|exact K1].
    - apply (obj_inv_ext (set_k_obj <[OMutex m := x]> s1)); [done|done|]. eapply obj_inv_upd; [apply Hi1|rewrite E1; apply lookup_insert_eq|done].
    - split; [done| |].
      + intros h tm Hin. destruct (T2 h tm Hin) as (o & v & Ho & Hrest). exists o, v. rewrite Ek, lookup_insert_ne by done. by rewrite lookup_insert_ne in Ho.
      + intros tm o. rewrite Ek, lookup_insert_ne by done. intros Ho. apply T3. by rewrite lookup_insert_ne.
    - intros t th Ht Hcl. destruct (K4 t th Ht Hcl) as (y & yt & v & Hy & Hc & Hyt & Hrest). cbn in Hy, Hyt. rewrite E1, lookup_insert_ne in Hy, Hyt by done.
      exists y, yt, v. rewrite Ek, !lookup_insert_ne by done. done.
    - exact K5. }
  apply (HQ x); [|done|].
  - split; [rewrite Ek; apply lookup_insert_eq|]. split; [done|]. split; [done|]. split; [apply lookup_insert_eq|]. split; [done|]. rewrite El by done. exact Hl.
  - split; try done.
    + by apply pending_ext; [cbn; rewrite N1|cbn; rewrite N4|cbn; rewrite N2].
    + cbn. by apply N7.
    + intros o [Ho _]%not_elem_of_cons. by rewrite Ek, lookup_insert_ne.
    + intros i o [Ho _]%not_elem_of_cons. cbn. rewrite E2. by apply elem_insert_after.
    + intros t _. apply (f_equal (lookup t)) in N5. unfold stripped in N5. by rewrite !lookup_fmap in N5.
    + intros tm _. cbn. by rewrite N1.
    + intros m' [Hm _]%not_elem_of_cons. cbn. rewrite lookup_insert_ne by congruence. by rewrite N9.
Qed.

(** ** The deferrable server *)

Lemma wp_rt_thread_init_grown t name entry parameter stack size priority tick (Q : Z -> kstate -> Prop) s :
  ipc_inv s -> unborn t s -> unlinked (OThread t) (k_containers s) -> 0 <= priority < RT_THREAD_PRIORITY_MAX -> stack ≠ 0 ->
  (forall th s', grown [OThread t; OTimer (TThread t)] [t] [TThread t] s s' -> k_threads s' !! t = Some th ->
     tstat th = RT_THREAD_INIT -> th_init_priority th = priority -> Q RT_EOK s') ->
  wp (rt_thread_init t name entry parameter stack size priority tick) Q s.
Proof.
  intros Hi Hub Hu Hp Hst HQ. eapply wp_rt_thread_init; [done..|]. intros es ei s' Hi' Hbo.
  destruct (bo_thread _ _ _ _ Hbo) as (th & Ht & E). apply (HQ th); [by apply born_grown with (th := new_block entry parameter stack size priority tick es ei)|done| |].
  - by apply (strip_same_stat _ _ _ E).
  - by apply (f_equal th_init_priority) in E.
Qed.

(** [x] is none of a list of other names. *)
Ltac notin := repeat first [apply not_elem_of_nil|apply not_elem_of_cons; split; [congruence|]].

(** A thread that is not ready is on no list if it was on none. *)
Lemma grown_off os ts tms s s' t th : grown os ts tms s s' -> unlinked t (k_tlist s) -> k_threads s' !! t = Some th -> tstat th ≠ RT_THREAD_READY -> unlinked t (k_tlist s').
Proof.
  intros G Hu Ht Hs [p| | | |] Hin.
  1: { destruct (ri_ready _ _ (proj1 (ki_sched _ (ii_kernel _ (gr_ipc _ _ _ _ _ G)))) p t Hin) as (th' & Ht' & Hs' & _). congruence. }
  all: rewrite (gr_lists _ _ _ _ _ G) in Hin by done; by destruct (Hu _ Hin).
Qed.

Lemma wp_startup_grown t th (Q : Z -> kstate -> Prop) s :
  ipc_inv s -> is_Some (k_current s) -> k_threads s !! t = Some th -> tstat th = RT_THREAD_INIT ->
  unlinked t (k_tlist s) -> unlinked (TThread t) (k_trow s) ->
  (forall th' s', grown [] [t] [] s s' -> k_threads s' !! t = Some th' -> stat_class (tstat th') = RT_THREAD_READY ->
     th_current_priority th' = th_init_priority th -> (k_lock_nest s = 0 -> dispatched s') -> Q RT_EOK s') ->
  wp (rt_thread_startup t) Q s.
Proof.
  intros Hi [c Hc] Ht Hs Hu Hr HQ. eapply wp_startup_ipc; [done..|]. intros s' Hi' Hn E1 E2 Hd.
  assert (Ht0 : k_threads (set_k_threads <[t := ready_block th]> s) !! t = Some (ready_block th)) by apply lookup_insert_eq.
  destruct (near_lookup _ _ _ _ Hn Ht0) as (th' & Ht' & E). apply (HQ th'); [|done| | |done].
  - eapply near_grown; [done|exact Hn|done..|]. intros u [Hu' _]%not_elem_of_cons. by rewrite lookup_insert_ne.
  - apply strip_stat in E. rewrite E, ready_block_stat. done.
  - by apply (f_equal th_current_priority) in E.
Qed.

Section main.
Context (deferrable producer consumer : tid) (pc ps : positive) (asyncTask : loc)
  (deferrable_entry producer_entry consumer_entry : positive) (rt_deferrable_stack producer_stack consumer_stack : Z).

Abbreviation deferrable_init := (rt_thread_deferrable_init deferrable (TUser pc) (TUser ps) asyncTask).

Definition server_objs : list objid := [OThread deferrable; OTimer (TThread deferrable); OTimer (TUser ps); OTimer (TUser pc)].
Definition server_timers : list tmid := [TThread deferrable; TUser ps; TUser pc].

(** What the server needs to be there. *)
Record server_free (k : kstate) : Prop := {
  sf_unborn : unborn deferrable k;
  sf_thread : unlinked (OThread deferrable) (k_containers k);
  sf_rows : unlinked (TUser ps) (k_trow k) /\ unlinked (TUser pc) (k_trow k);
  sf_timers : unlinked (OTimer (TUser ps)) (k_containers k) /\ unlinked (OTimer (TUser pc)) (k_containers k)
}.

(** The server sleeps, and its capacity timer is ready to be started. *)
Definition capacity_ready (k : kstate) : Prop :=
  exists o v, k_obj k !! OTimer (TUser pc) = Some o /\ class_of o = RT_Object_Class_Timer /\ soft o = false /\
    k_timers k !! TUser pc = Some v /\ 0 <= tm_init_tick v < half.
Definition server_asleep (k : kstate) : Prop :=
  (exists th, k_threads k !! deferrable = Some th /\ tstat th = RT_THREAD_SUSPEND) /\ capacity_ready k.

Lemma grown_capacity os ts tms k k' : grown os ts tms k k' -> OTimer (TUser pc) ∉ os -> TUser pc ∉ tms -> capacity_ready k -> capacity_ready k'.
Proof.
  intros G H1 H2 (o & v & Ho & Hc & Hs & Hv & Hr). exists o, v.
  by rewrite (gr_obj _ _ _ _ _ G), (gr_timers _ _ _ _ _ G).
Qed.

Ltac within := intros ?; unfold server_objs, server_timers; cbn; rewrite ?elem_of_cons, ?elem_of_nil; tauto.

(** Both timers. *)
Lemma wp_server_timers n1 n2 f1 f2 period capacity k :
  ipc_inv k -> unlinked (TUser ps) (k_trow k) /\ unlinked (TUser pc) (k_trow k) ->
  unlinked (OTimer (TUser ps)) (k_containers k) /\ unlinked (OTimer (TUser pc)) (k_containers k) -> ps ≠ pc -> 0 <= capacity < half ->
  wp (rt_timer_init (TUser ps) n1 f1 period RT_TIMER_FLAG_PERIODIC) (fun _ =>
    wp (rt_timer_init (TUser pc) n2 f2 capacity RT_TIMER_FLAG_ONE_SHOT) (fun _ k' =>
      grown [OTimer (TUser ps); OTimer (TUser pc)] [] [TUser ps; TUser pc] k k' /\ capacity_ready k')) k.
Proof.
  intros Hi [H1 H2] [H3 H4] Hne Hcap. eapply wp_rt_timer_init_user; [done..|].
  intros x1 k1' _ _ N1 E1 C1 k1 Hi1. assert (G1 : grown [OTimer (TUser ps)] [] [TUser ps] k k1) by (by eapply timer_grown).
  clearbody k1. eapply wp_rt_timer_init_user; [done|by rewrite (gr_trow _ _ _ _ _ G1)|eapply grown_unlinked; [exact G1|notin|done]|].
  intros x k2' Hcx Hfx N2 E2 C2 k2 Hi2. assert (G2 : grown [OTimer (TUser pc)] [] [TUser pc] k1 k2).
  { eapply timer_grown; [exact Hi2|by rewrite (gr_trow _ _ _ _ _ G1)|done..]. }
  split; [exact (grown_trans _ _ _ _ _ _ _ _ _ G1 G2)|]. exists x, (mkTimer f2 capacity 0).
  split; [cbn; rewrite E2; apply lookup_insert_eq|]. split; [done|]. split; [unfold soft; by rewrite Hfx|]. split; [apply lookup_insert_eq|done].
Qed.

Lemma wp_deferrable_init entry stack capacity period priority (Q : Z -> dstate -> Prop) s :
  ipc_inv (d_k s) -> is_Some (k_current (d_k s)) -> server_free (d_k s) -> ps ≠ pc -> stack ≠ 0 ->
  0 <= priority < RT_THREAD_PRIORITY_MAX -> 0 <= capacity < half ->
  (forall s', grown server_objs [deferrable] server_timers (d_k s) (d_k s') -> server_asleep (d_k s') ->
     queue asyncTask s' [] -> d_pc s' = d_pc s -> Q RT_EOK s') ->
  wp (deferrable_init entry stack capacity period priority) Q s.
Proof.
  intros Hi Hc [F1 F2 F34 [F5 F6]] Hne Hst Hp Hcap HQ. set (k := d_k s) in *. unfold rt_thread_deferrable_init.
  rewrite wp_bind. apply wp_lift. eapply wp_rt_thread_init_grown; [done..|]. intros th1 k1 G1 Ht1 Hs1 Hp1. fold k in G1.
  rewrite wp_bind. apply wp_lift. cbn [d_k set_d_k]. eapply wp_mono, wp_server_timers; [|apply G1|by rewrite (gr_trow _ _ _ _ _ G1)| |done|exact Hcap].
  2: { split; (eapply grown_unlinked; [exact G1|notin|done]). }
  intros u k2 H2. rewrite wp_bind. apply wp_lift. cbn [d_k set_d_k]. eapply wp_mono, H2. intros u3 k3 [G2 Hcr].
  pose proof (grown_trans _ _ _ _ _ _ _ _ _ G1 G2) as G. rewrite wp_bind, wp_modify, wp_bind, wp_modify, wp_bind, wp_modify. rewrite wp_bind. apply wp_lift.
  match goal with |- wp _ _ ?k => change k with k3 end.
  destruct (grown_thread _ _ _ _ _ deferrable th1 G2 ltac:(notin) Ht1) as (th & Ht & E).
  assert (Hs : tstat th = RT_THREAD_INIT) by (by apply (strip_same_stat _ _ _ E)).
  eapply wp_startup_grown; [apply G|apply (gr_current _ _ _ _ _ G), Hc|exact Ht|exact Hs| |by rewrite (gr_trow _ _ _ _ _ G); apply F1|].
  { eapply grown_off; [exact G|apply F1|exact Ht|by rewrite Hs]. }
  intros th4 k4 G4 Ht4 Hs4 Hp4 _. change (negb (RT_EOK =? RT_EOK)) with false. cbv iota. apply wp_lift. cbn [d_k set_d_k].
  assert (Hcl : tstat th4 ≠ RT_THREAD_CLOSE) by (intros Ecl; by rewrite Ecl in Hs4).
  assert (Hr4 : unlinked (TThread deferrable) (k_trow k4)) by (rewrite (gr_trow _ _ _ _ _ G4), (gr_trow _ _ _ _ _ G); apply F1).
  eapply wp_rt_thread_suspend; [apply G4|exact Ht4|done|]. rewrite bool_decide_eq_true_2 by done. intros Hk5.
  assert (Hi5 : ipc_inv (suspended deferrable th4 k4)) by (apply ipc_inv_suspended; [apply G4|done]).
  pose proof (suspended_grown _ _ _ (gr_ipc _ _ _ _ _ G4) Hi5 Ht4 Hs4 Hr4) as G5.
  apply HQ; [| | |done].
  - eapply grown_sub; [exact (grown_trans _ _ _ _ _ _ _ _ _ G (grown_trans _ _ _ _ _ _ _ _ _ G4 G5))|..]; within.
  - split.
    + eexists. cbn [d_k set_d_k]. rewrite (proj1 (suspended_fields _ _ _)). split; [apply lookup_insert_eq|]. by apply tstat_with.
    + eapply grown_capacity; [exact (grown_trans _ _ _ _ _ _ _ _ _ G4 G5)|notin|notin|exact Hcr].
  - apply Ring.ring_init.
Qed.

(** ** The application *)

Lemma grown_free_mutex os ts tms k k' m x :
  grown os ts tms k k' -> OMutex m ∉ os -> mutex_live m x free_mutex k -> mutex_live m x free_mutex k'.
Proof.
  intros G Hn (H1 & H2 & H3 & H4 & _ & H5). split; [by rewrite (gr_obj _ _ _ _ _ G)|]. split; [done|]. split; [done|].
  split; [by rewrite (gr_mutexes _ _ _ _ _ G)|]. split; [done|]. by rewrite (gr_lists _ _ _ _ _ G).
Qed.

Definition mutex_free (m : positive) (k : kstate) : Prop := unlinked (OMutex m) (k_containers k) /\ k_tlist k (LSuspend (OMutex m)) = [].
Definition mutex_made (m : positive) (k : kstate) : Prop := exists x, mutex_live m x free_mutex k /\ o_flag x = RT_IPC_FLAG_FIFO.

Lemma wp_main_mutexes mr mb (Q : option (positive * positive) -> kstate -> Prop) k :
  ipc_inv k -> k_irq_nest k = 0 -> mutex_free mr k -> mutex_free mb k -> mr ≠ mb ->
  (forall k', grown [OMutex mr; OMutex mb] [] [] k k' -> mutex_made mr k' -> mutex_made mb k' -> Q (Some (mr, mb)) k') ->
  wp (main_mutexes (Some mr) (Some mb)) Q k.
Proof.
  intros Hi Hn [R1 R2] [B1 B2] Hne HQ. unfold main_mutexes. rewrite wp_bind. eapply wp_rt_mutex_create; [done..|by left|].
  intros x k1 Hx Hf G1. rewrite wp_bind.
  eapply wp_rt_mutex_create; [apply G1|eapply grown_unlinked; [exact G1|notin|done]|by rewrite (gr_irq _ _ _ _ _ G1)|by rewrite (gr_lists _ _ _ _ _ G1)|by left|].
  intros y k2 Hy Hf2 G2. rewrite wp_ret. apply HQ; [exact (grown_trans _ _ _ _ _ _ _ _ _ G1 G2)| |by exists y].
  exists x. split; [|done]. eapply grown_free_mutex; [exact G2|notin|exact Hx].
Qed.

(** A thread that was made and not started. *)
Definition initial (t : tid) (p : Z) (k : kstate) : Prop := exists th, k_threads k !! t = Some th /\ tstat th = RT_THREAD_INIT /\ th_init_priority th = p.

Lemma grown_initial os ts tms k k' t p : grown os ts tms k k' -> t ∉ ts -> initial t p k -> initial t p k'.
Proof.
  intros G Hn (th & Ht & Hs & Hp). destruct (grown_thread _ _ _ _ _ t th G Hn Ht) as (th' & Ht' & E). exists th'.
  split; [done|]. split; [by apply (strip_same_stat _ _ _ E)|]. apply (f_equal th_init_priority) in E. by rewrite <- Hp.
Qed.

Definition app_objs : list objid := [OThread producer; OTimer (TThread producer); OThread consumer; OTimer (TThread consumer)].

Lemma wp_main_threads (Q : unit -> kstate -> Prop) k :
  ipc_inv k -> unborn producer k -> unlinked (OThread producer) (k_containers k) -> unborn consumer k -> unlinked (OThread consumer) (k_containers k) ->
  producer ≠ consumer -> producer_stack ≠ 0 -> consumer_stack ≠ 0 ->
  (forall k', grown app_objs [producer; consumer] [TThread producer; TThread consumer] k k' ->
     initial producer (THREAD_PRIORITY - 10) k' -> initial consumer THREAD_PRIORITY k' -> Q tt k') ->
  wp (main_threads producer consumer producer_entry consumer_entry producer_stack consumer_stack) Q k.
Proof.
  intros Hi P1 P2 C1 C2 Hne Hps Hcs HQ. unfold main_threads. rewrite wp_bind. eapply wp_rt_thread_init_grown; [done..|].
  intros th1 k1 G1 Ht1 Hs1 Hp1. rewrite wp_bind.
  eapply wp_rt_thread_init_grown; [apply G1|eapply grown_unborn; [exact G1|notin|notin|done]|eapply grown_unlinked; [exact G1|notin|done]|done|done|].
  intros th2 k2 G2 Ht2 Hs2 Hp2. rewrite wp_ret. apply HQ; [exact (grown_trans _ _ _ _ _ _ _ _ _ G1 G2)| |by exists th2].
  eapply grown_initial; [exact G2|notin|]. by exists th1.
Qed.

(** What [main] finds: the kernel in order, and the names it is going to use free. *)
Record app_free (mr mb : positive) (k : kstate) : Prop := {
  af_ipc : ipc_inv k;
  af_clock : clock_ok k;
  af_current : is_Some (k_current k);
  af_irq : k_irq_nest k = 0;
  af_lock : k_lock_nest k = 0;
  af_server : server_free k;
  af_producer : unborn producer k /\ unlinked (OThread producer) (k_containers k);
  af_consumer : unborn consumer k /\ unlinked (OThread consumer) (k_containers k);
  af_raw : mutex_free mr k;
  af_bench : mutex_free mb k;
  af_threads : deferrable ≠ producer /\ deferrable ≠ consumer /\ producer ≠ consumer;
  af_timers : ps ≠ pc;
  af_mutexes : mr ≠ mb;
  af_stacks : rt_deferrable_stack ≠ 0 /\ producer_stack ≠ 0 /\ consumer_stack ≠ 0
}.

Lemma lock_ok_made m k : ipc_inv k -> clock_ok k -> is_Some (k_current k) -> mutex_made m k -> lock_ok m k.
Proof. intros ??? (x & Hx & Hf). split; try done. by exists x, free_mutex. Qed.

Abbreviation start_app := (main_start deferrable producer consumer (TUser pc) (TUser ps) asyncTask
  deferrable_entry producer_entry consumer_entry rt_deferrable_stack producer_stack consumer_stack).

Lemma wp_main_start mr mb s :
  app_free mr mb (d_k s) -> d_pc s = PEntry ->
  wp (start_app (Some mr) (Some mb)) (fun r s' => r = Some (mr, mb) /\
    dinv deferrable (TUser pc) asyncTask s' [] /\ ~ awake deferrable (d_k s') /\ lock_ok mr (d_k s') /\ lock_ok mb (d_k s') /\
    (exists th, k_threads (d_k s') !! producer = Some th /\ stat_class (tstat th) = RT_THREAD_READY /\ th_current_priority th = 7) /\
    initial consumer 17 (d_k s') /\ dispatched (d_k s')) s.
Proof.
  intros [A1 A2 A3 A4 A5 A6 [A7 A8] [A9 A10] A11 A12 (A13 & A14 & A15) A16 A17 (A18 & A19 & A20)] Hpc. unfold main_start. rewrite wp_bind.
  apply wp_deferrable_init; [done..|by vm_compute|]. intros s1 G1 Hsl1 Hq Hpc1. rewrite wp_bind. apply wp_lift.
  assert (Hm1 : forall m, mutex_free m (d_k s) -> mutex_free m (d_k s1)).
  { intros m [H1 H2]. split; [eapply grown_unlinked; [exact G1|unfold server_objs; notin|done]|by rewrite (gr_lists _ _ _ _ _ G1)]. }
  apply wp_main_mutexes; [apply G1|by rewrite (gr_irq _ _ _ _ _ G1)|by apply Hm1|by apply Hm1|done|]. intros k2 G2 Hr2 Hb2.
  pose proof (grown_trans _ _ _ _ _ _ _ _ _ G1 G2) as G12. cbv beta iota. rewrite wp_bind. apply wp_lift. cbn [d_k set_d_k].
  apply wp_main_threads; [apply G2|..|done|done|done|]; try (eapply grown_unborn; [exact G12|notin|unfold server_objs; cbn; notin|done]);
    try (eapply grown_unlinked; [exact G12|unfold server_objs; cbn; notin|done]).
  intros k3 G3 (th3 & Ht3 & Hs3 & Hp3) Hc3. pose proof (grown_trans _ _ _ _ _ _ _ _ _ G12 G3) as G123.
  rewrite wp_bind. apply wp_lift. cbn [d_k set_d_k].
  eapply wp_startup_grown; [apply G3|by apply (gr_current _ _ _ _ _ G123)|exact Ht3|exact Hs3| |by rewrite (gr_trow _ _ _ _ _ G123); apply A7|].
  { eapply grown_off; [exact G123|apply A7|exact Ht3|by rewrite Hs3]. }
  intros th4 k4 G4 Ht4 Hs4 Hp4 Hd4. pose proof (grown_trans _ _ _ _ _ _ _ _ _ G123 G4) as G.
  pose proof (grown_trans _ _ _ _ _ _ _ _ _ G3 G4) as G34. pose proof (grown_trans _ _ _ _ _ _ _ _ _ G2 G34) as G234.
  rewrite wp_ret. cbn [d_k set_d_k].
  assert (Hclock : clock_ok k4) by (split; [by apply (gr_pending _ _ _ _ _ G), A2|by rewrite (gr_tick _ _ _ _ _ G); apply A2]).
  assert (Hcur : is_Some (k_current k4)) by by apply (gr_current _ _ _ _ _ G).
  assert (Hm : forall m, mutex_made m k2 -> lock_ok m k4).
  { intros m (x & Hx & Hf). apply lock_ok_made; [apply G4|done|done|]. exists x. split; [|done]. eapply grown_free_mutex; [exact G34|unfold app_objs; cbn; notin|done]. }
  destruct Hsl1 as [(thd & Htd & Hsd) Hcap1].
  destruct (grown_thread _ _ _ _ _ deferrable thd G234 ltac:(cbn; notin) Htd) as (thd' & Htd' & Ed).
  assert (Hsd' : tstat thd' = RT_THREAD_SUSPEND) by (by apply (strip_same_stat _ _ _ Ed)).
  assert (Hna : ~ awake deferrable k4) by (by eapply not_awake).
  split; [done|]. split; [split; [exact Hq|split]|].
  - split; [apply G4|apply Hclock|apply Hclock|done| |by exists thd'; split; [|right]].
    destruct (grown_capacity _ _ _ _ _ G234 ltac:(unfold app_objs; cbn; notin) ltac:(cbn; notin) Hcap1) as (o & v & Hrest). by exists pc, o, v.
  - unfold at_pc. cbn [d_pc set_d_k]. rewrite Hpc1, Hpc. intros Ha. by destruct (Hna Ha).
  - split; [done|]. split; [by apply Hm|]. split; [by apply Hm|]. split; [exists th4; split; [done|]; split; [done|by rewrite Hp4, Hp3]|].
    split; [eapply grown_initial; [exact G4|cbn; notin|exact Hc3]|]. apply Hd4. by apply (gr_lock _ _ _ _ _ G123).
Qed.

(** C7: Composition: from a kernel in order, in which the names the application uses are free, [main]
    leaves everything ready: the deferrable server sleeps on an empty queue, in the state
    from which it serves in order; both mutexes are free, in the state from which they are
    locks; the producer is started, and the consumer waits for [main] to start it.  The
    thread that runs then is at least as urgent as the producer. *)
Theorem main_start_spec mr mb s :
  app_free mr mb (d_k s) -> d_pc s = PEntry ->
  wp (start_app (Some mr) (Some mb)) (fun r s' => r = Some (mr, mb) /\
    dinv deferrable (TUser pc) asyncTask s' [] /\ ~ awake deferrable (d_k s') /\ lock_ok mr (d_k s') /\ lock_ok mb (d_k s') /\
    (exists th, k_threads (d_k s') !! producer = Some th /\ stat_class (tstat th) = RT_THREAD_READY /\ th_current_priority th = 7) /\
    initial consumer 17 (d_k s') /\ dispatched (d_k s')) s.
Proof. apply wp_main_start. Qed.
End main.

(** ** Witness: thread 1 of the sample kernel is [main] *)

Definition sample_main : dstate := mkD sample_timers empty_ring 0 0 0 0 PEntry [].

Lemma sample_unborn t : (10 < t)%positive -> unborn t sample_timers /\ unlinked (OThread t) (k_containers sample_timers).
Proof.
  intros Ht. split; [split|].
  - intros h Hin. assert (Hs : t ∈ k_tlist sample h) by exact Hin. apply sample_tlist in Hs. destruct Hs as [[_ ->]|[[_ ->]|[_ ->]]]; done.
  - intros h Hin. assert (Hs : TThread t ∈ k_trow sample_kernel h) by exact Hin. apply sample_trow in Hs as [_ [= ->]]. done.
  - intros i Hin. by apply elem_of_nil in Hin.
  - destruct (k_threads sample_timers !! t) as [th|] eqn:E; [|done]. assert (E' : k_threads sample !! t = Some th) by exact E.
    apply sample_threads in E'. destruct E' as [[-> _]|[[-> _]|[[-> _]|[-> _]]]]; done.
  - intros i Hin. by apply elem_of_nil in Hin.
Qed.

Lemma sample_app_free : app_free 11 12 13 3 2 0x20000000 0x20001000 0x20002000 1 2 sample_timers.
Proof.
  assert (Hrow : forall p, unlinked (TUser p) (k_trow sample_timers)).
  { intros p h Hin. assert (Hs : TUser p ∈ k_trow sample_kernel h) by exact Hin. by apply sample_trow in Hs as [_ ?]. }
  assert (Hm : forall m, mutex_free m sample_timers).
  { intros m. split; [intros i Hin; by apply elem_of_nil in Hin|]. destruct (k_tlist sample_timers (LSuspend (OMutex m))) as [|t l] eqn:E; [done|].
    assert (Hin : t ∈ k_tlist sample (LSuspend (OMutex m))) by (change (k_tlist sample) with (k_tlist sample_timers); rewrite E; by left).
    apply sample_tlist in Hin. destruct Hin as [[? _]|[[? _]|[? _]]]; done. }
  split; try done; try (by apply sample_unborn); try apply Hm.
  - apply sample_ipc_inv.
  - apply sample_clock.
  - split; try (by apply sample_unborn); [by split|split; intros i Hin; by apply elem_of_nil in Hin].
Qed.

Lemma main_start_spec_witness :
  wp (main_start 11 12 13 (TUser 3) (TUser 2) 1 20 21 22 0x20000000 0x20001000 0x20002000 (Some 1%positive) (Some 2%positive)) (fun r s' => r = Some (1%positive, 2%positive) /\
    dinv 11 (TUser 3) 1 s' [] /\ ~ awake 11 (d_k s') /\ lock_ok 1 (d_k s') /\ lock_ok 2 (d_k s') /\
    (exists th, k_threads (d_k s') !! 12%positive = Some th /\ stat_class (tstat th) = RT_THREAD_READY /\ th_current_priority th = 7) /\
    initial 13 17 (d_k s') /\ dispatched (d_k s')) sample_main.
Proof. apply main_start_spec; [apply sample_app_free|done]. Defined.
