(* ===== verification/Io.v ===== *)
(** * Io: code that talks to hardware

    A driver's state carries the trace of the operations it has asked of the hardware;
    the answers come from an environment that may depend on the whole history.  What the
    hardware library does is so a parameter of the model, and a theorem about every
    environment, or about those with a named property, is about every such device. *)

From S2P Require Import Prelude.

#[local] Open Scope Z_scope.

Section io.
(** Operations and answers; a driver state with its trace. *)
Context {C A S : Type} (env : list C -> C -> A) (trace : S -> list C) (log : C -> S -> S).

Definition ask (c : C) : M S A := fun s => Some (env (trace s) c, log c s).

Lemma wp_ask c (Q : A -> S -> Prop) s : wp (ask c) Q s = Q (env (trace s) c) (log c s).
Proof. done. Qed.
End io.

(** ** Bytes *)

(** The low byte and the others of a word, as the drivers split it: [(rt_uint8_t)x],
    [(rt_uint8_t)(x >> 8)] and so on. *)
Definition byte_of (i x : Z) : Z := u8 (Z.shiftr x (8 * i)).
(** The word put together from bytes, least significant first. *)
Fixpoint word_of (l : list Z) : Z :=
  match l with [] => 0 | b :: l => b + 256 * word_of l end.

Lemma byte_of_range i x : 0 <= byte_of i x < 256.
Proof. apply (wrap_range 8). lia. Qed.

Lemma byte_of_div i x : 0 <= i -> byte_of i x = (x / 256 ^ i) mod 256.
Proof.
  intros Hi. unfold byte_of, wrap. rewrite Z.shiftr_div_pow2 by lia.
  replace (2 ^ (8 * i)) with (256 ^ i); [done|]. by rewrite Z.pow_mul_r by lia.
Qed.

Lemma word_bytes2 x : 0 <= x < 2 ^ 16 -> word_of [byte_of 0 x; byte_of 1 x] = x.
Proof. intros Hx. cbn [word_of]. rewrite !byte_of_div by lia. change (2 ^ 16) with 65536 in Hx.
  change (256 ^ 0) with 1. change (256 ^ 1) with 256. Z.div_mod_to_equations. lia. Qed.
Lemma word_bytes3 x : 0 <= x < 2 ^ 24 -> word_of [byte_of 0 x; byte_of 1 x; byte_of 2 x] = x.
Proof. intros Hx. cbn [word_of]. rewrite !byte_of_div by lia. change (2 ^ 24) with 16777216 in Hx.
  change (256 ^ 0) with 1. change (256 ^ 1) with 256. change (256 ^ 2) with 65536.
  Z.div_mod_to_equations. lia. Qed.
Lemma word_bytes4 x :
  0 <= x < 2 ^ 32 -> word_of [byte_of 0 x; byte_of 1 x; byte_of 2 x; byte_of 3 x] = x.
Proof. intros Hx. cbn [word_of]. rewrite !byte_of_div by lia. change (2 ^ 32) with 4294967296 in Hx.
  change (256 ^ 0) with 1. change (256 ^ 1) with 256. change (256 ^ 2) with 65536.
  change (256 ^ 3) with 16777216. Z.div_mod_to_equations. lia. Qed.

Lemma lor_even_1 x : Z.lor (x * 2) 1 = 2 * x + 1.
Proof. rewrite Z.mul_comm. destruct x as [|p|p]; [done|done|]. cbn. by destruct p. Qed.
