(* ===== verification/Spi.v ===== *)
(** * Spi: the SPI bus, rt-thread/components/drivers/spi/spi_core.c and the transfer
    function of drivers/drv_spi.c

    One bus with its lock, its owner and the devices attached to it.  A buffer is its
    list of bytes; a receive buffer is handed over with its contents and comes back with
    what the transfer left in it.  The lock, the controller's configuration and the HAL
    calls are operations of the environment (Io). *)

From S2P Require Import Prelude Kernel Io.

#[local] Open Scope Z_scope.

Abbreviation dev := positive.

(** struct rt_spi_configuration *)
Record rt_spi_configuration := mkCfg { cfg_mode : Z; cfg_data_width : Z; cfg_max_hz : Z }.

(** struct rt_spi_message; [next] is the position in the list of messages *)
Record rt_spi_message := mkMsg {
  send_buf : option (list Z);
  recv_buf : option (list Z);
  msg_length : Z;
  cs_take : bool;
  cs_release : bool
}.

Definition RT_SPI_MODE_MASK : Z := 255.

(** What the code asks of the lock and of the hardware. *)
Inductive spi_io :=
  | LockTake
  | LockRelease
  | Configure (d : dev) (cfg : rt_spi_configuration)
  | CsWrite (d : dev) (level : bool)
  | HAL_SPI_TransmitReceive (dma : bool) (l : list Z)
  | HAL_SPI_Transmit (dma : bool) (l : list Z)
  | HAL_SPI_Receive (dma : bool) (n : Z)
  | WaitReady.

(** The bus, the devices on it and the caller's errno. *)
Record spi_state := mkSpi {
  sp_owner : option dev;
  sp_config : dev -> rt_spi_configuration;
  sp_errno : Z;
  sp_trace : list spi_io
}.
Definition set_sp_owner (o : option dev) (s : spi_state) : spi_state :=
  mkSpi o (sp_config s) (sp_errno s) (sp_trace s).
Definition set_sp_config (f : (dev -> rt_spi_configuration) -> dev -> rt_spi_configuration)
    (s : spi_state) : spi_state := mkSpi (sp_owner s) (f (sp_config s)) (sp_errno s) (sp_trace s).
Definition rt_set_errno (e : Z) (s : spi_state) : spi_state :=
  mkSpi (sp_owner s) (sp_config s) e (sp_trace s).
Definition sp_log (c : spi_io) (s : spi_state) : spi_state :=
  mkSpi (sp_owner s) (sp_config s) (sp_errno s) (sp_trace s ++ [c]).

Abbreviation Sp := (M spi_state).

Section spi.
(** The environment: a status ([HAL_OK] and [RT_EOK] are 0) and the bytes received. *)
Context (env : list spi_io -> spi_io -> Z * list Z).
(** [spi_drv->spi_dma_flag] *)
Context (tx_dma rx_dma : bool).

Definition io (c : spi_io) : Sp (Z * list Z) := ask env sp_trace sp_log c.

(** ** Definitions *)

(** [n] bytes of a buffer from [off]; outside the buffer it is a fault. *)
Definition slice (l : list Z) (off n : Z) : Sp (list Z) :=
  rt_assert ((0 <=? off) && (off + n <=? Z.of_nat (length l))) ;;
  mret (take (Z.to_nat n) (drop (Z.to_nat off) l)).
(** What [n] bytes of a buffer, preset to 0xff, hold after [data] was received. *)
Definition received (n : Z) (data : list Z) : list Z :=
  take (Z.to_nat n) (data ++ replicate (Z.to_nat n) 0xff).
Definition splice (l : list Z) (off : Z) (seg : list Z) : Sp (list Z) :=
  rt_assert ((0 <=? off) && (off + Z.of_nat (length seg) <=? Z.of_nat (length l))) ;;
  mret (take (Z.to_nat off) l ++ seg ++ drop (Z.to_nat off + length seg) l).

(** The loop of [spixfer]: chunks of at most 65535 bytes.  [len] is [message->length],
    which an error sets to 0, [recv] the receive buffer. *)
Fixpoint spixfer_loop (fuel : nat) (message : rt_spi_message) (len message_length : Z)
    (recv : option (list Z)) : Sp (Z * option (list Z)) :=
  if message_length =? 0 then mret (len, recv) else
  match fuel with
  | O => fault
  | S fuel =>
      let send_length := if message_length >? 65535 then 65535 else message_length in
      let message_length := if message_length >? 65535 then message_length - 65535 else 0 in
      let already_send_length := u32 (len - send_length - message_length) in
      '(state, recv) ←
        match send_buf message, recv with
        | Some sb, Some rb =>
            chunk ← slice sb already_send_length send_length;
            '(state, data) ← io (HAL_SPI_TransmitReceive (tx_dma && rx_dma) chunk);
            rb ← splice rb already_send_length (received send_length data);
            mret (state, Some rb)
        | Some sb, None =>
            chunk ← slice sb already_send_length send_length;
            '(state, _) ← io (HAL_SPI_Transmit tx_dma chunk);
            mret (state, None)
        | None, Some rb =>
            '(state, data) ← io (HAL_SPI_Receive rx_dma send_length);
            rb ← splice rb already_send_length (received send_length data);
            mret (state, Some rb)
        | None, None => fault
        end;
      let len := if negb (state =? 0) then 0 else len in
      io WaitReady ;;
      spixfer_loop fuel message len message_length recv
  end.

(** The result is [message->length]; the receive buffer comes with it. *)
Definition spixfer (device : dev) (message : rt_spi_message) : Sp (Z * option (list Z)) :=
  when (cs_take message) (io (CsWrite device false) ;; mret tt) ;;
  '(len, recv) ← spixfer_loop (S (Z.to_nat (msg_length message / 65535))) message
      (msg_length message) (msg_length message) (recv_buf message);
  when (cs_release message) (io (CsWrite device true) ;; mret tt) ;;
  mret (len, recv).

Definition bus_lock : Sp Z := '(r, _) ← io LockTake; mret r.
Definition bus_unlock : Sp unit := io LockRelease ;; mret tt.
Definition ops_configure (device : dev) : Sp Z :=
  cfg ← gets (fun s => sp_config s device); '(r, _) ← io (Configure device cfg); mret r.

Definition rt_spi_configure (device : dev) (cfg : rt_spi_configuration) : Sp Z :=
  modify (set_sp_config <[device := mkCfg (Z.land (cfg_mode cfg) RT_SPI_MODE_MASK)
                                          (cfg_data_width cfg) (cfg_max_hz cfg)]>) ;;
  result ← bus_lock;
  when (result =? RT_EOK)
    (owner ← gets sp_owner;
     when (bool_decide (owner = Some device)) (ops_configure device ;; mret tt) ;;
     bus_unlock) ;;
  mret RT_EOK.

(** Configuring the bus for a device that does not own it; the result is that of
    [configure], [RT_EOK] when there is nothing to do. *)
Definition own_bus (device : dev) : Sp Z :=
  owner ← gets sp_owner;
  if negb (bool_decide (owner = Some device)) then
    result ← ops_configure device;
    if result =? RT_EOK then modify (set_sp_owner (Some device)) ;; mret RT_EOK else mret result
  else mret RT_EOK.

(** The common body of the two-message functions: the second results are the receive
    buffers. *)
Definition two_messages (device : dev) (m1 m2 : rt_spi_message) : Sp (Z * option (list Z)) :=
  result ← bus_lock;
  if result =? RT_EOK then
    result ← own_bus device;
    r ← (if negb (result =? RT_EOK) then mret (- RT_EIO, recv_buf m2)
         else
           '(result, _) ← spixfer device m1;
           if result =? 0 then mret (- RT_EIO, recv_buf m2)
           else
             '(result, rb) ← spixfer device m2;
             if result =? 0 then mret (- RT_EIO, rb) else mret (RT_EOK, rb));
    bus_unlock ;;
    mret r
  else mret (- RT_EIO, recv_buf m2).

Definition rt_spi_send_then_send (device : dev) (send_buf1 : list Z) (send_length1 : Z)
    (send_buf2 : list Z) (send_length2 : Z) : Sp Z :=
  '(r, _) ← two_messages device (mkMsg (Some send_buf1) None send_length1 true false)
                                (mkMsg (Some send_buf2) None send_length2 false true);
  mret r.

Definition rt_spi_send_then_recv (device : dev) (send_buf : list Z) (send_length : Z)
    (recv_buf : list Z) (recv_length : Z) : Sp (Z * option (list Z)) :=
  two_messages device (mkMsg (Some send_buf) None send_length true false)
                      (mkMsg None (Some recv_buf) recv_length false true).

Definition rt_spi_transfer (device : dev) (send_buf recv_buf : option (list Z)) (length : Z) :
    Sp (Z * option (list Z)) :=
  result ← bus_lock;
  if result =? RT_EOK then
    result ← own_bus device;
    r ← (if negb (result =? RT_EOK) then modify (rt_set_errno (- RT_EIO)) ;; mret (0, recv_buf)
         else
           '(result, rb) ← spixfer device (mkMsg send_buf recv_buf length true true);
           when (result =? 0) (modify (rt_set_errno (- RT_EIO))) ;; mret (result, rb));
    bus_unlock ;;
    mret r
  else modify (rt_set_errno (- RT_EIO)) ;; mret (0, recv_buf).

(** The loop over the messages: the messages from the one that failed on, [[]] for NULL,
    and the receive buffers of those that were tried. *)
Fixpoint transfer_loop (device : dev) (index : list rt_spi_message) :
    Sp (list rt_spi_message * list (option (list Z))) :=
  match index with
  | [] => mret ([], [])
  | m :: next =>
      '(result, rb) ← spixfer device m;
      if result =? 0 then modify (rt_set_errno (- RT_EIO)) ;; mret (m :: next, [rb])
      else '(index, rbs) ← transfer_loop device next; mret (index, rb :: rbs)
  end.

Definition rt_spi_transfer_message (device : dev) (message : list rt_spi_message) :
    Sp (list rt_spi_message * list (option (list Z))) :=
  match message with
  | [] => mret ([], [])
  | _ =>
      result ← bus_lock;
      if negb (result =? RT_EOK) then modify (rt_set_errno (- RT_EBUSY)) ;; mret (message, [])
      else
        modify (rt_set_errno RT_EOK) ;;
        result ← own_bus device;
        r ← (if negb (result =? RT_EOK) then modify (rt_set_errno (- RT_EIO)) ;; mret (message, [])
             else transfer_loop device message);
        bus_unlock ;;
        mret r
  end.

Definition rt_spi_take_bus (device : dev) : Sp Z :=
  result ← bus_lock;
  if negb (result =? RT_EOK) then modify (rt_set_errno (- RT_EBUSY)) ;; mret (- RT_EBUSY)
  else
    modify (rt_set_errno RT_EOK) ;;
    result ← own_bus device;
    if negb (result =? RT_EOK) then
      modify (rt_set_errno (- RT_EIO)) ;; bus_unlock ;; mret (- RT_EIO)
    else mret result.

Definition rt_spi_release_bus (device : dev) : Sp Z :=
  owner ← gets sp_owner;
  rt_assert (bool_decide (owner = Some device)) ;;
  bus_unlock ;;
  mret RT_EOK.

Definition rt_spi_take (device : dev) : Sp Z :=
  '(r, _) ← spixfer device (mkMsg None None 0 true false); mret r.
Definition rt_spi_release (device : dev) : Sp Z :=
  '(r, _) ← spixfer device (mkMsg None None 0 false true); mret r.

End spi.

(** ** What a transfer does to the trace *)

(** [t] was asked of the hardware; nothing else changed. *)
Definition sp_log_all (t : list spi_io) (s : spi_state) : spi_state :=
  mkSpi (sp_owner s) (sp_config s) (sp_errno s) (sp_trace s ++ t).

Lemma sp_log_all_nil s : sp_log_all [] s = s.
Proof. destruct s. unfold sp_log_all. cbn. by rewrite app_nil_r. Qed.
Lemma sp_log_all_app t1 t2 s : sp_log_all t2 (sp_log_all t1 s) = sp_log_all (t1 ++ t2) s.
Proof. unfold sp_log_all. cbn. by rewrite app_assoc. Qed.
Lemma sp_log_one c s : sp_log c s = sp_log_all [c] s.
Proof. done. Qed.

Definition is_lock (c : spi_io) : bool := match c with LockTake | LockRelease => true | _ => false end.
(** A call that takes the lock gives it back, once, at the end. *)
Definition balanced (t : list spi_io) : Prop :=
  t = [LockTake] \/
  exists mid, t = LockTake :: mid ++ [LockRelease] /\ Forall (fun c => is_lock c = false) mid.

(** A message the BSP's HAL takes in one go, with buffers of its length. *)
Definition fits (n : Z) (b : option (list Z)) : Prop :=
  match b with Some l => Z.of_nat (length l) = n | None => True end.
Record short_msg (m : rt_spi_message) : Prop := {
  sm_length : 0 <= msg_length m <= 65535;
  sm_send : fits (msg_length m) (send_buf m);
  sm_recv : fits (msg_length m) (recv_buf m);
  sm_buf : 0 < msg_length m -> is_Some (send_buf m) \/ is_Some (recv_buf m)
}.

Section laws.
Context (env : list spi_io -> spi_io -> Z * list Z) (tx_dma rx_dma : bool).

Lemma wp_io c (Q : Z * list Z -> spi_state -> Prop) s :
  wp (io env c) Q s = Q (env (sp_trace s) c) (sp_log_all [c] s).
Proof. done. Qed.

Lemma wp_slice_all l n (Q : list Z -> spi_state -> Prop) s :
  Z.of_nat (length l) = n -> Q l s -> wp (slice l 0 n) Q s.
Proof.
  intros <- HQ. unfold slice. repeat wp_step; [by apply andb_true_intro; split; apply Z.leb_le; lia|].
  simpl. by rewrite Nat2Z.id, drop_0, firstn_all.
Qed.

Lemma length_received n data : 0 <= n -> Z.of_nat (length (received n data)) = n.
Proof. intros. unfold received. rewrite length_take, length_app, length_replicate. lia. Qed.

Lemma wp_splice_all l n data (Q : list Z -> spi_state -> Prop) s :
  Z.of_nat (length l) = n -> Q (received n data) s -> wp (splice l 0 (received n data)) Q s.
Proof.
  intros <- HQ. pose proof (length_received (Z.of_nat (length l)) data ltac:(lia)) as Hl.
  unfold splice. repeat wp_step; [by apply andb_true_intro; split; apply Z.leb_le; lia|].
  simpl. rewrite drop_ge by lia. by rewrite app_nil_r.
Qed.

(** The HAL call of a message that fits, and the buffer it leaves. *)
Definition msg_io (m : rt_spi_message) : spi_io :=
  match send_buf m, recv_buf m with
  | Some sb, Some _ => HAL_SPI_TransmitReceive (tx_dma && rx_dma) sb
  | Some sb, None => HAL_SPI_Transmit tx_dma sb
  | None, _ => HAL_SPI_Receive rx_dma (msg_length m)
  end.
Definition msg_recv (m : rt_spi_message) (data : list Z) : option (list Z) :=
  match recv_buf m with Some _ => Some (received (msg_length m) data) | None => None end.
Definition cs_io (b : bool) (d : dev) (level : bool) : list spi_io :=
  if b then [CsWrite d level] else [].
Definition msg_trace (d : dev) (m : rt_spi_message) : list spi_io :=
  cs_io (cs_take m) d false ++ [msg_io m; WaitReady] ++ cs_io (cs_release m) d true.

Lemma wp_cs b d level (Q : unit -> spi_state -> Prop) s :
  Q tt (sp_log_all (cs_io b d level) s) -> wp (when b (io env (CsWrite d level) ;; mret tt)) Q s.
Proof.
  destruct b; cbn [cs_io when].
  - done.
  - rewrite sp_log_all_nil. done.
Qed.

Lemma wp_loop_short m fuel (Q : Z * option (list Z) -> spi_state -> Prop) s :
  short_msg m -> 0 < msg_length m ->
  (let '(st, data) := env (sp_trace s) (msg_io m) in
   Q (if st =? 0 then msg_length m else 0, msg_recv m data) (sp_log_all [msg_io m; WaitReady] s)) ->
  wp (spixfer_loop env tx_dma rx_dma (S fuel) m (msg_length m) (msg_length m) (recv_buf m)) Q s.
Proof.
  intros [H1 H2 H3 H4] Hn HQ. cbn [spixfer_loop].
  destruct (Z.eqb_spec (msg_length m) 0); [lia|].
  destruct (msg_length m >? 65535) eqn:E; [rewrite Z.gtb_ltb in E; apply Z.ltb_lt in E; lia|].
  assert (u32 (msg_length m - msg_length m - 0) = 0) as -> by (by rewrite Z.sub_diag).
  unfold msg_io, msg_recv in *. specialize (H4 Hn).
  assert (Hend : forall st rb t, wp (spixfer_loop env tx_dma rx_dma fuel m
      (if negb (st =? 0) then 0 else msg_length m) 0 rb) Q (sp_log_all t s) =
      Q (if st =? 0 then msg_length m else 0, rb) (sp_log_all t s)).
  { intros st rb t. destruct fuel; cbn; by destruct (st =? 0). }
  destruct (send_buf m) as [sb|], (recv_buf m) as [rb|]; rewrite ?wp_bind.
  - apply wp_slice_all; [done|]. rewrite wp_bind, wp_io. destruct (env (sp_trace s) _) as [st data].
    rewrite wp_bind. apply wp_splice_all; [done|]. cbn zeta. rewrite wp_ret, wp_bind, wp_io.
    rewrite sp_log_all_app, Hend. done.
  - apply wp_slice_all; [done|]. rewrite wp_bind, wp_io. destruct (env (sp_trace s) _) as [st data].
    rewrite wp_ret, wp_bind, wp_io, sp_log_all_app, Hend. done.
  - rewrite wp_io. destruct (env (sp_trace s) _) as [st data].
    rewrite wp_bind. apply wp_splice_all; [done|]. rewrite wp_ret, wp_bind, wp_io.
    rewrite sp_log_all_app, Hend. done.
  - by destruct H4 as [[? [=]]|[? [=]]].
Qed.

Lemma wp_spixfer_short d m (Q : Z * option (list Z) -> spi_state -> Prop) s :
  short_msg m -> 0 < msg_length m ->
  (let '(st, data) := env (sp_trace s ++ cs_io (cs_take m) d false) (msg_io m) in
   Q (if st =? 0 then msg_length m else 0, msg_recv m data) (sp_log_all (msg_trace d m) s)) ->
  wp (spixfer env tx_dma rx_dma d m) Q s.
Proof.
  intros Hm Hn HQ. unfold spixfer. rewrite wp_bind. apply wp_cs. rewrite wp_bind.
  apply wp_loop_short; [done|done|]. cbn [sp_trace sp_log_all].
  destruct (env _ _) as [st data]. rewrite wp_bind. apply wp_cs. rewrite wp_ret, !sp_log_all_app.
  exact HQ.
Qed.

Lemma wp_spixfer_empty d m (Q : Z * option (list Z) -> spi_state -> Prop) s :
  msg_length m = 0 ->
  Q (0, recv_buf m) (sp_log_all (cs_io (cs_take m) d false ++ cs_io (cs_release m) d true) s) ->
  wp (spixfer env tx_dma rx_dma d m) Q s.
Proof.
  intros Hn HQ. unfold spixfer. rewrite wp_bind. apply wp_cs. rewrite Hn. cbn [spixfer_loop Z.eqb].
  rewrite wp_bind, wp_ret, wp_bind. apply wp_cs. by rewrite wp_ret, sp_log_all_app.
Qed.

(** Whatever the hardware answers, a transfer of a short message ends, never touches the
    lock, and reports its length or 0. *)
Lemma wp_spixfer_any d m (Q : Z * option (list Z) -> spi_state -> Prop) s :
  short_msg m ->
  (forall r rb t, r = 0 \/ r = msg_length m -> Forall (fun c => is_lock c = false) t ->
     Q (r, rb) (sp_log_all t s)) ->
  wp (spixfer env tx_dma rx_dma d m) Q s.
Proof.
  intros Hm HQ. assert (Hcs : forall b lv, Forall (fun c => is_lock c = false) (cs_io b d lv)).
  { intros [] lv; repeat constructor. }
  destruct (decide (msg_length m = 0)) as [E|E].
  - apply wp_spixfer_empty; [done|]. apply HQ; [by left|]. apply Forall_app. by split.
  - apply wp_spixfer_short; [done|destruct Hm; lia|]. destruct (env _ _) as [st data]. apply HQ.
    + destruct (st =? 0); auto.
    + unfold msg_trace. rewrite !Forall_app. split; [apply Hcs|]. split; [|apply Hcs].
      repeat constructor. unfold msg_io. by destruct (send_buf m), (recv_buf m).
Qed.

Lemma wp_transfer_loop_any d index s :
  Forall short_msg index -> sp_errno s = 0 ->
  wp (transfer_loop env tx_dma rx_dma d index) (fun '(rest, _) s' =>
    exists t done_, sp_trace s' = sp_trace s ++ t /\ Forall (fun c => is_lock c = false) t /\
      index = done_ ++ rest /\ sp_owner s' = sp_owner s /\ sp_config s' = sp_config s /\
      (rest = [] <-> sp_errno s' = 0) /\ (rest = [] \/ sp_errno s' = - RT_EIO)) s.
Proof.
  revert s. induction index as [|m index IH]; intros s Hm He.
  - cbn [transfer_loop]. rewrite wp_ret. exists [], []. rewrite app_nil_r. repeat split; auto.
  - apply Forall_cons in Hm as [Hm Hms]. cbn [transfer_loop]. rewrite wp_bind.
    apply wp_spixfer_any; [done|]. intros r rb t _ Ht. destruct (r =? 0).
    + repeat wp_step. exists t, []. repeat split; auto; intros [=].
    + rewrite wp_bind. eapply wp_mono, (IH (sp_log_all t s)); [|done|done].
      intros [rest rbs] s' (t2 & dn & E1 & E2 & E3 & E4 & E5 & E6 & E7). rewrite wp_ret.
      exists (t ++ t2), (m :: dn). rewrite E1, E3, E4, E5. cbn. rewrite app_assoc.
      split; [done|]. split; [by apply Forall_app|]. repeat split; auto; apply E6.
Qed.

Lemma wp_own_bus d (Q : Z -> spi_state -> Prop) s :
  (forall r o t, Forall (fun c => is_lock c = false) t -> (r = RT_EOK -> o = Some d) ->
     Q r (set_sp_owner o (sp_log_all t s))) -> wp (own_bus env d) Q s.
Proof.
  intros HQ. unfold own_bus, ops_configure. rewrite wp_bind, wp_gets.
  destruct (decide (sp_owner s = Some d)) as [E|E].
  - rewrite bool_decide_eq_true_2 by done. specialize (HQ RT_EOK (sp_owner s) []).
    rewrite sp_log_all_nil in HQ. cbn [negb]. rewrite wp_ret. destruct s. by apply HQ.
  - rewrite bool_decide_eq_false_2 by done. cbn [negb]. rewrite !wp_bind, wp_gets, wp_bind, wp_io.
    destruct (env _ _) as [st ?]. rewrite wp_ret. repeat wp_step.
    + apply (HQ RT_EOK (Some d) [Configure d (sp_config s d)]); [by repeat constructor|done].
    + specialize (HQ st (sp_owner s) [Configure d (sp_config s d)]). destruct s. apply HQ; [by repeat constructor|].
      intros ->. done.
Qed.


(** ** When the lock and the hardware report no error *)

Hypothesis env_ok : forall tr c, (env tr c).1 = 0.

Lemma env_eq tr c : env tr c = (0, (env tr c).2).
Proof. pose proof (env_ok tr c). destruct (env tr c). cbn in *. by subst. Qed.

(** The receive buffers of messages transmitted from trace [tr] on. *)
Fixpoint msgs_recv (d : dev) (msgs : list rt_spi_message) (tr : list spi_io) : list (option (list Z)) :=
  match msgs with
  | [] => []
  | m :: msgs => msg_recv m (env (tr ++ cs_io (cs_take m) d false) (msg_io m)).2 ::
                 msgs_recv d msgs (tr ++ msg_trace d m)
  end.
Definition msgs_trace (d : dev) (msgs : list rt_spi_message) : list spi_io := concat (msg_trace d <$> msgs).

Definition sound_msg (m : rt_spi_message) : Prop := short_msg m /\ 0 < msg_length m.

Lemma wp_transfer_loop_ok d msgs (Q : list rt_spi_message * list (option (list Z)) -> spi_state -> Prop) s :
  Forall sound_msg msgs -> Q ([], msgs_recv d msgs (sp_trace s)) (sp_log_all (msgs_trace d msgs) s) ->
  wp (transfer_loop env tx_dma rx_dma d msgs) Q s.
Proof.
  revert Q s. induction msgs as [|m msgs IH]; intros Q s Hm HQ.
  - cbn in *. by rewrite sp_log_all_nil in HQ.
  - apply Forall_cons in Hm as [[Hm Hn] Hms]. cbn [transfer_loop]. rewrite wp_bind.
    apply wp_spixfer_short; [done|done|]. rewrite env_eq. cbn [Z.eqb].
    destruct (Z.eqb_spec (msg_length m) 0); [lia|]. rewrite wp_bind. apply IH; [done|].
    rewrite wp_ret, sp_log_all_app. exact HQ.
Qed.

Definition owner_trace (d : dev) (s : spi_state) : list spi_io :=
  if bool_decide (sp_owner s = Some d) then [] else [Configure d (sp_config s d)].
(** The bus after a successful transfer. *)
Definition sent_state (d : dev) (msgs : list rt_spi_message) (s : spi_state) : spi_state :=
  mkSpi (Some d) (sp_config s) RT_EOK
    (sp_trace s ++ LockTake :: owner_trace d s ++ msgs_trace d msgs ++ [LockRelease]).
Definition sent_recv (d : dev) (msgs : list rt_spi_message) (s : spi_state) : list (option (list Z)) :=
  msgs_recv d msgs (sp_trace s ++ LockTake :: owner_trace d s).

Lemma wp_transfer_message_ok d msgs (Q : list rt_spi_message * list (option (list Z)) -> spi_state -> Prop) s :
  msgs ≠ [] -> Forall sound_msg msgs -> Q ([], sent_recv d msgs s) (sent_state d msgs s) ->
  wp (rt_spi_transfer_message env tx_dma rx_dma d msgs) Q s.
Proof.
  intros Hne Hm HQ. unfold rt_spi_transfer_message. destruct msgs as [|m ms]; [done|].
  set (msgs := m :: ms) in *. clearbody msgs. clear m ms.
  unfold bus_lock. rewrite !wp_bind, wp_io, env_eq, wp_ret.
  change (0 =? RT_EOK) with true. cbn [negb].
  rewrite wp_bind, wp_modify, wp_bind.
  set (s1 := rt_set_errno RT_EOK (sp_log_all [LockTake] s)).
  assert (Hown : forall P : Z -> spi_state -> Prop,
    P RT_EOK (set_sp_owner (Some d) (sp_log_all (owner_trace d s) s1)) -> wp (own_bus env d) P s1).
  { intros P HP. unfold own_bus, ops_configure. rewrite wp_bind, wp_gets.
    change (sp_owner s1) with (sp_owner s). unfold owner_trace in HP.
    destruct (bool_decide_reflect (sp_owner s = Some d)) as [E|E]; cbn [negb].
    - rewrite wp_ret. rewrite sp_log_all_nil in HP. unfold set_sp_owner in HP. by rewrite <- E in HP.
    - rewrite !wp_bind, wp_gets, wp_bind, wp_io, env_eq, wp_ret. exact HP. }
  apply Hown. rewrite wp_bind. apply wp_transfer_loop_ok; [done|].
  unfold bus_unlock. rewrite !wp_bind, wp_io, !wp_ret.
  unfold sent_state, sent_recv in HQ. rewrite !app_comm_cons, !app_assoc in HQ.
  unfold sp_log_all, set_sp_owner, s1, rt_set_errno in *. cbn in *. rewrite <- !app_assoc in *. exact HQ.
Qed.

(** *** Long messages *)

(** What a trace sent, one list per HAL call. *)
Definition sent (t : list spi_io) : list (list Z) :=
  omap (fun c => match c with HAL_SPI_Transmit _ l => Some l | _ => None end) t.

Lemma loop_chunks m sb fuel r s :
  send_buf m = Some sb -> Z.of_nat (length sb) = msg_length m -> msg_length m < 2 ^ 32 ->
  0 <= r <= msg_length m -> r <= 65535 * Z.of_nat fuel ->
  wp (spixfer_loop env tx_dma rx_dma fuel m (msg_length m) r None) (fun '(len, _) s' =>
    len = msg_length m /\ exists t, s' = sp_log_all t s /\
      concat (sent t) = drop (Z.to_nat (msg_length m - r)) sb /\
      Forall (fun l => 0 < Z.of_nat (length l) <= 65535) (sent t)) s.
Proof.
  intros Hsb Hl Hb. revert r s. induction fuel as [|fuel IH]; intros r s Hr Hf;
    cbn [spixfer_loop]; (destruct (Z.eqb_spec r 0) as [->|Hr0]; [|try lia]).
  1, 2: rewrite wp_ret; split; [done|]; exists []; rewrite sp_log_all_nil; split; [done|];
    split; [|constructor]; rewrite drop_ge; [done|lia].
  - set (n := if r >? 65535 then 65535 else r).
    set (r' := if r >? 65535 then r - 65535 else 0).
    assert (Hn : 0 < n <= 65535 /\ n + r' = r /\ 0 <= r').
    { unfold n, r'. rewrite Z.gtb_ltb. destruct (Z.ltb_spec 65535 r); lia. }
    assert (Hr' : r' <= 65535 * Z.of_nat fuel).
    { unfold r'. rewrite Z.gtb_ltb. destruct (Z.ltb_spec 65535 r); lia. }
    assert (u32 (msg_length m - n - r') = msg_length m - r) as -> by (rewrite wrap_small; lia).
    rewrite Hsb, !wp_bind. unfold slice. repeat wp_step.
    { apply andb_true_intro; split; apply Z.leb_le; lia. }
    rewrite wp_io, env_eq, wp_ret. cbn [Z.eqb negb]. rewrite wp_bind, wp_io, sp_log_all_app.
    eapply wp_mono, (IH r'); [|lia|done].
    intros [len rb] s' (-> & t & -> & Ec & Hf'). split; [done|]. rewrite sp_log_all_app.
    eexists. split; [done|].
    set (chunk := take (Z.to_nat n) (drop (Z.to_nat (msg_length m - r)) sb)). split.
    + change (chunk ++ concat (sent t) = drop (Z.to_nat (msg_length m - r)) sb). rewrite Ec.
      replace (Z.to_nat (msg_length m - r')) with (Z.to_nat (msg_length m - r) + Z.to_nat n)%nat by lia.
      unfold chunk. by rewrite <- drop_drop, take_drop.
    + change (Forall (fun l => 0 < Z.of_nat (length l) <= 65535) (chunk :: sent t)).
      constructor; [|done]. unfold chunk. rewrite length_take, length_drop. lia.
Qed.

(** A message longer than the HAL's 16-bit length is sent completely and in order, in
    pieces of at most 65535 bytes, between one assertion and one release of the chip
    select; the loop ends, and the length is returned. *)
Theorem spixfer_long_message d m sb s :
  send_buf m = Some sb -> recv_buf m = None -> Z.of_nat (length sb) = msg_length m ->
  msg_length m < 2 ^ 32 ->
  wp (spixfer env tx_dma rx_dma d m) (fun '(r, _) s' => r = msg_length m /\
    exists t, sp_trace s' = sp_trace s ++ cs_io (cs_take m) d false ++ t ++ cs_io (cs_release m) d true /\
      concat (sent t) = sb /\ Forall (fun l => 0 < Z.of_nat (length l) <= 65535) (sent t)) s.
Proof.
  intros Hsb Hrb Hl Hb. unfold spixfer. rewrite wp_bind. apply wp_cs. rewrite wp_bind, Hrb.
  eapply wp_mono, (loop_chunks m sb); [|done|done|done|lia|].
  - intros [r rb] s' (-> & t & -> & Ec & Hf). rewrite wp_bind. apply wp_cs. rewrite wp_ret.
    split; [done|]. exists t. rewrite !sp_log_all_app. split; [done|]. split; [|done].
    by rewrite Z.sub_diag in Ec.
  - Z.div_mod_to_equations. lia.
Qed.
End laws.

(** ** Concrete instances: an environment that reports success and receives nothing *)

Definition quiet_env : list spi_io -> spi_io -> Z * list Z := fun _ _ => (0, []).
Definition sample_bus : spi_state := mkSpi None (fun _ => mkCfg 0 8 1000000) 0 [].
Definition sample_msgs : list rt_spi_message :=
  [mkMsg (Some [0x9f]) None 1 true false; mkMsg None (Some [0; 0; 0]) 3 false true].


Theorem spixfer_long_message_witness :
  let m := mkMsg (Some (replicate 65536 0)) None 65536 true true in
  wp (spixfer quiet_env false false 1 m) (fun '(r, _) s' => r = 65536 /\
    exists t, sp_trace s' = [] ++ [CsWrite 1 false] ++ t ++ [CsWrite 1 true] /\
      concat (sent t) = replicate 65536 0 /\
      Forall (fun l => 0 < Z.of_nat (length l) <= 65535) (sent t)) sample_bus.
Proof.
  set (big := replicate 65536 0).
  assert (Hl : Z.of_nat (length big) = 65536) by (unfold big; rewrite length_replicate; done).
  clearbody big. intros m.
  apply (spixfer_long_message quiet_env false false ltac:(done) 1 m big sample_bus); [done|done|exact Hl|done].
Defined.
