(* ===== verification/W25q64.v ===== *)
(** * W25q64: the flash driver, peripherals/w25q64.c

    Every function hands lists of messages to [rt_spi_transfer_message] of Spi; what the
    chip is told is read off the bus trace as transactions, the bytes sent and the number
    of bytes clocked in while its chip select is low. *)

From S2P Require Import Prelude Kernel Io Spi.

#[local] Open Scope Z_scope.

(** ** Definitions *)

Definition WRITE_ENABLE : Z := 0x06.
Definition WRITE_DISABLE : Z := 0x04.
Definition READ_SR1 : Z := 0x05.
Definition READ_SR2 : Z := 0x35.
Definition WRITE_SR : Z := 0x01.
Definition PAGE_PROGRAM : Z := 0x02.
Definition SECTOR_ERASE : Z := 0x20.
Definition BLOCK_ERASE : Z := 0x52.
Definition DBLOCK_ERASE : Z := 0xD8.
Definition CHIP_ERASE : Z := 0x60.
Definition READ_DATA : Z := 0x03.
Definition JEDEC_ID : Z := 0x9F.
Definition RESET_ENABLE : Z := 0x66.
Definition RESET : Z := 0x99.

Section w25q64.
Context (env : list spi_io -> spi_io -> Z * list Z) (tx_dma rx_dma : bool).
(** The static [spi_device]; what an uninitialised byte on the stack holds; the turns
    given to the polling loops. *)
Context (spi_device : option dev) (uninit : Z) (fuel : nat).

(** [rt_spi_transfer_message], which asserts that there is a device. *)
Definition transfer (msgs : list rt_spi_message) : Sp (list (option (list Z))) :=
  d ← deref (fun _ => spi_device);
  '(_, bufs) ← rt_spi_transfer_message env tx_dma rx_dma d msgs;
  mret bufs.

(** The buffer of message [i] after the transfer; [old] if the transfer stopped before. *)
Definition buffer (bufs : list (option (list Z))) (i : nat) (old : list Z) : list Z :=
  match bufs !! i with Some (Some l) => l | _ => old end.

(** [w25q64_init]: [found] is the result of [rt_device_find]; the second result is
    [spi_device]. *)
Definition w25q64_init (found : option dev) : Sp (Z * option dev) :=
  match found with
  | None => mret (- RT_ENOSYS, None)
  | Some d =>
      rt_spi_configure env d (mkCfg 4 8 1000000) ;;
      mret (0, Some d)
  end.

Definition one_byte (b : Z) (take_ release : bool) : rt_spi_message :=
  mkMsg (Some [b]) None 1 take_ release.
Definition write_enable : Sp unit := transfer [one_byte WRITE_ENABLE true true] ;; mret tt.
Definition write_disable : Sp unit := transfer [one_byte WRITE_DISABLE true true] ;; mret tt.

Definition w25q64_getJEDEC (data : list Z) : Sp (list Z) :=
  bufs ← transfer [one_byte JEDEC_ID true false; mkMsg None (Some (take 3 data)) 3 false true];
  mret (buffer bufs 1 (take 3 data) ++ drop 3 data).

(** [msg2.recv_buf] is [&data], the address of the parameter: the status byte goes to the
    parameter itself, the caller's buffer is not touched. *)
Definition w25q64_getSR (instr : Z) (data : list Z) : Sp (list Z) :=
  transfer [one_byte instr true false; mkMsg None (Some [uninit]) 1 false true] ;;
  mret data.

Definition w25q64_writeSR (data : list Z) : Sp (list Z) :=
  write_enable ;;
  transfer [one_byte WRITE_SR true false; mkMsg (Some (take 2 data)) None 2 false true] ;;
  write_disable ;;
  mret data.

(** The [do ... while (buf & 0x1)] of the two erase functions. *)
Fixpoint wait_erased (fuel : nat) (buf : Z) : Sp unit :=
  match fuel with
  | O => fault
  | S fuel =>
      bufs ← transfer [one_byte READ_SR1 true false; mkMsg None (Some [buf]) 1 false true];
      let buf := default buf (head (buffer bufs 1 [buf])) in
      if negb (Z.land buf 0x1 =? 0) then wait_erased fuel buf else mret tt
  end.

Definition w25q64_erase : Sp unit :=
  write_enable ;;
  transfer [one_byte CHIP_ERASE true true] ;;
  wait_erased fuel uninit ;;
  write_disable.

(** The transfer after the erase instruction was put into [msg1] starts at [msg2]. *)
Definition w25q64_erase_part (instr : Z) (addr : list Z) : Sp unit :=
  write_enable ;;
  transfer [mkMsg (Some addr) None 3 false true] ;;
  wait_erased fuel uninit ;;
  write_disable.

Definition w25q64_write (addr : list Z) (dlen : Z) (data : list Z) : Sp unit :=
  write_enable ;;
  transfer [one_byte PAGE_PROGRAM true false; mkMsg (Some addr) None 3 false false;
            mkMsg (Some data) None dlen false true] ;;
  write_disable.

Definition w25q64_read (addr : list Z) (dlen : Z) (data : list Z) : Sp (list Z) :=
  bufs ← transfer [one_byte READ_DATA true false; mkMsg (Some addr) None 3 false false;
                   mkMsg None (Some data) dlen false true];
  mret (buffer bufs 2 data).

Definition w25q64_reset : Sp unit :=
  transfer [one_byte RESET_ENABLE true true] ;;
  transfer [one_byte RESET true true] ;;
  mret tt.

(** The result is what the caller's data buffer holds afterwards. *)
Definition w25q64_control (instr : Z) (addr : list Z) (dlen : Z) (data : list Z) : Sp (list Z) :=
  if (instr =? READ_SR1) || (instr =? READ_SR2) then w25q64_getSR instr data
  else if instr =? WRITE_SR then w25q64_writeSR data
  else if instr =? PAGE_PROGRAM then w25q64_write addr dlen data ;; mret data
  else if (instr =? SECTOR_ERASE) || (instr =? BLOCK_ERASE) || (instr =? DBLOCK_ERASE)
  then w25q64_erase_part instr addr ;; mret data
  else if instr =? CHIP_ERASE then w25q64_erase ;; mret data
  else if instr =? READ_DATA then w25q64_read addr dlen data
  else if instr =? JEDEC_ID then w25q64_getJEDEC data
  else if instr =? RESET then w25q64_reset ;; mret data
  else mret data.

End w25q64.

(** ** Transactions *)

Abbreviation transaction := (list Z * Z)%type.

Definition on_bus (c : spi_io) (f : transaction) : transaction :=
  match c with
  | HAL_SPI_Transmit _ l => (f.1 ++ l, f.2)
  | HAL_SPI_Receive _ n => (f.1, f.2 + n)
  | HAL_SPI_TransmitReceive _ l => (f.1 ++ l, f.2 + Z.of_nat (length l))
  | _ => f
  end.

(** The transactions of a trace; [open] is the one under way, none while the chip select
    is high: what is clocked then the chip ignores. *)
Fixpoint transactions (open : option transaction) (t : list spi_io) : list transaction :=
  match t with
  | [] => []
  | CsWrite _ false :: t => transactions (Some ([], 0)) t
  | CsWrite _ true :: t =>
      match open with Some f => f :: transactions None t | None => transactions None t end
  | c :: t => transactions (on_bus c <$> open) t
  end.

(** What the traces of whole driver calls are: they leave the chip select high. *)
Definition tells (t : list spi_io) (fs : list transaction) : Prop :=
  forall t', transactions None (t ++ t') = fs ++ transactions None t'.

Lemma tells_app t1 t2 fs1 fs2 : tells t1 fs1 -> tells t2 fs2 -> tells (t1 ++ t2) (fs1 ++ fs2).
Proof. intros H1 H2 t'. by rewrite <- !app_assoc, H1, H2. Qed.
Lemma tells_transactions t fs : tells t fs -> transactions None t = fs.
Proof. intros H. specialize (H []). by rewrite !app_nil_r in H. Qed.

Section laws.
Context (env : list spi_io -> spi_io -> Z * list Z) (tx_dma rx_dma : bool) (d : dev) (uninit : Z).
Hypothesis env_ok : forall tr c, (env tr c).1 = 0.

Abbreviation xfer := (transfer env tx_dma rx_dma (Some d)).

(** [m] runs, tells the chip [fs] and ends in [Q]. *)
Definition does {A} (m : Sp A) (fs : list transaction) (Q : A -> Prop) (s : spi_state) : Prop :=
  wp m (fun a s' => Q a /\ exists t, sp_trace s' = sp_trace s ++ t /\ tells t fs) s.

Lemma does_bind {A B} (m : Sp A) (f : A -> Sp B) fs1 fs2 P Q s :
  does m fs1 P s -> (forall a s', P a -> does (f a) fs2 Q s') -> does (mbind f m) (fs1 ++ fs2) Q s.
Proof.
  intros H1 H2. unfold does. rewrite wp_bind. eapply wp_mono, H1.
  intros a s1 (HP & t1 & E1 & T1). eapply wp_mono, (H2 a s1 HP).
  intros b s2 (HQ & t2 & E2 & T2). split; [done|]. exists (t1 ++ t2).
  rewrite E2, E1, app_assoc. split; [done|]. by apply tells_app.
Qed.
Lemma does_ret {A} (a : A) (Q : A -> Prop) s : Q a -> does (mret a) [] Q s.
Proof.
  intros HQ. unfold does. rewrite wp_ret. split; [done|]. exists []. rewrite app_nil_r.
  split; [done|]. by intros t'.
Qed.

Lemma tells_owner s t fs : tells t fs -> tells (LockTake :: owner_trace d s ++ t ++ [LockRelease]) fs.
Proof.
  intros H t'. unfold owner_trace. case_bool_decide; cbn; rewrite <- app_assoc, H; done.
Qed.

(** A transfer of sound messages. *)
Lemma does_xfer msgs fs (Q : list (option (list Z)) -> Prop) s :
  msgs ≠ [] -> Forall sound_msg msgs -> tells (msgs_trace tx_dma rx_dma d msgs) fs ->
  (forall s, Q (sent_recv env tx_dma rx_dma d msgs s)) -> does (xfer msgs) fs Q s.
Proof.
  intros Hne Hm Ht HQ. unfold does, transfer. rewrite wp_bind. eapply wp_deref; [done|].
  rewrite wp_bind. apply wp_transfer_message_ok; [done|done|done|]. rewrite wp_ret.
  split; [apply HQ|]. eexists. split; [done|]. by apply tells_owner.
Qed.

Lemma sound_tx l n b1 b2 : Z.of_nat (length l) = n -> 0 < n <= 65535 ->
  sound_msg (mkMsg (Some l) None n b1 b2).
Proof. intros. split; [split; cbn; try done; [lia|by left; eexists]|cbn; lia]. Qed.
Lemma sound_rx l n b1 b2 : Z.of_nat (length l) = n -> 0 < n <= 65535 ->
  sound_msg (mkMsg None (Some l) n b1 b2).
Proof. intros. split; [split; cbn; try done; [lia|by right; eexists]|cbn; lia]. Qed.

Lemma does_byte b s : does (xfer [one_byte b true true] ;; mret tt) [([b], 0)] (fun _ => True) s.
Proof.
  change [([b], 0)] with ([([b], 0)] ++ []). eapply does_bind with (P := fun _ => True); [|by intros; apply does_ret].
  apply does_xfer; [done| |by intros t'|done]. constructor; [|done]. by apply sound_tx.
Qed.

Lemma does_unit (m : Sp (list (option (list Z)))) fs s :
  does m fs (fun _ => True) s -> does (m ;; mret tt) fs (fun _ => True) s.
Proof.
  intros H. rewrite <- (app_nil_r fs). eapply does_bind; [exact H|]. intros. by apply does_ret.
Qed.

(** What the chip is to be told. *)
Definition expected (instr : Z) (addr : list Z) (dlen : Z) (data : list Z) : list transaction :=
  if (instr =? READ_SR1) || (instr =? READ_SR2) then [([instr], 1)]
  else if instr =? WRITE_SR then [([WRITE_ENABLE], 0); (WRITE_SR :: take 2 data, 0); ([WRITE_DISABLE], 0)]
  else if instr =? PAGE_PROGRAM then
    [([WRITE_ENABLE], 0); (PAGE_PROGRAM :: addr ++ data, 0); ([WRITE_DISABLE], 0)]
  else if instr =? READ_DATA then [(READ_DATA :: addr, dlen)]
  else if instr =? JEDEC_ID then [([JEDEC_ID], 3)]
  else if instr =? RESET then [([RESET_ENABLE], 0); ([RESET], 0)]
  else [].

Definition erases (instr : Z) : bool :=
  (instr =? SECTOR_ERASE) || (instr =? BLOCK_ERASE) || (instr =? DBLOCK_ERASE) || (instr =? CHIP_ERASE).

Lemma does_getSR instr data s :
  does (w25q64_getSR env tx_dma rx_dma (Some d) uninit instr data) [([instr], 1)] (fun r => r = data) s.
Proof.
  rewrite <- (app_nil_r [_]). eapply does_bind with (P := fun _ => True); [|by intros; apply does_ret].
  apply does_xfer; [done| |by intros t'|done].
  constructor; [by apply sound_tx|]. constructor; [by apply sound_rx|done].
Qed.

Lemma does_writeSR data s :
  (2 <= length data)%nat ->
  does (w25q64_writeSR env tx_dma rx_dma (Some d) data)
    [([WRITE_ENABLE], 0); (WRITE_SR :: take 2 data, 0); ([WRITE_DISABLE], 0)] (fun r => r = data) s.
Proof.
  intros Hl. unfold w25q64_writeSR.
  eapply (does_bind _ _ [_] [_; _] (fun _ => True)); [apply does_byte|]. intros _ s1 _.
  eapply (does_bind _ _ [_] [_] (fun _ => True)); [|intros _ s2 _].
  - apply does_xfer; [done| |by intros t'|done].
    constructor; [by apply sound_tx|]. constructor; [|done]. apply sound_tx; [|done].
    rewrite length_take. lia.
  - eapply (does_bind _ _ [_] [] (fun _ => True)); [apply does_byte|]. intros. by apply does_ret.
Qed.

Lemma does_write addr dlen data s :
  length addr = 3%nat -> Z.of_nat (length data) = dlen -> 0 < dlen < 256 ->
  does (w25q64_write env tx_dma rx_dma (Some d) addr dlen data)
    [([WRITE_ENABLE], 0); (PAGE_PROGRAM :: addr ++ data, 0); ([WRITE_DISABLE], 0)] (fun _ => True) s.
Proof.
  intros Ha Hl Hd. unfold w25q64_write.
  eapply (does_bind _ _ [_] [_; _] (fun _ => True)); [apply does_byte|]. intros _ s1 _.
  eapply (does_bind _ _ [_] [_] (fun _ => True)); [|intros; apply does_byte].
  apply does_xfer; [done| |by intros t'|done].
  constructor; [by apply sound_tx|]. constructor; [apply sound_tx; [by rewrite Ha|done]|].
  constructor; [|done]. apply sound_tx; [done|lia].
Qed.

Lemma does_read addr dlen data s :
  length addr = 3%nat -> Z.of_nat (length data) = dlen -> 0 < dlen < 256 ->
  does (w25q64_read env tx_dma rx_dma (Some d) addr dlen data) [(READ_DATA :: addr, dlen)]
    (fun r => exists tr, r = received dlen (env tr (HAL_SPI_Receive rx_dma dlen)).2) s.
Proof.
  intros Ha Hl Hd. unfold w25q64_read.
  eapply (does_bind _ _ [_] [] (fun bufs => exists tr, bufs !! 2%nat = Some (Some
    (received dlen (env tr (HAL_SPI_Receive rx_dma dlen)).2)))).
  - apply does_xfer; [done| |by intros t'|by intros; eexists].
    constructor; [by apply sound_tx|]. constructor; [apply sound_tx; [by rewrite Ha|done]|].
    constructor; [|done]. apply sound_rx; [done|lia].
  - intros bufs s1 [tr E]. apply does_ret. exists tr. unfold buffer. by rewrite E.
Qed.

Lemma does_jedec data s :
  (3 <= length data)%nat ->
  does (w25q64_getJEDEC env tx_dma rx_dma (Some d) data) [([JEDEC_ID], 3)]
    (fun r => exists tr, r = received 3 (env tr (HAL_SPI_Receive rx_dma 3)).2 ++ drop 3 data) s.
Proof.
  intros Hl. unfold w25q64_getJEDEC.
  eapply (does_bind _ _ [_] [] (fun bufs => exists tr, bufs !! 1%nat = Some (Some
    (received 3 (env tr (HAL_SPI_Receive rx_dma 3)).2)))).
  - apply does_xfer; [done| |by intros t'|by intros; eexists].
    constructor; [by apply sound_tx|]. constructor; [|done]. apply sound_rx; [|done].
    rewrite length_take. lia.
  - intros bufs s1 [tr E]. apply does_ret. exists tr. unfold buffer. by rewrite E.
Qed.

Lemma does_reset s :
  does (w25q64_reset env tx_dma rx_dma (Some d)) [([RESET_ENABLE], 0); ([RESET], 0)] (fun _ => True) s.
Proof.
  unfold w25q64_reset. eapply (does_bind _ _ [_] [_] (fun _ => True)); [|intros; apply does_byte].
  apply does_xfer; [done| |by intros t'|done]. constructor; [by apply sound_tx|done].
Qed.

(** The buffer the caller finds, given the answer [env] gave at some point. *)
Definition delivered (instr : Z) (dlen : Z) (data r : list Z) : Prop :=
  if instr =? READ_DATA then exists tr, r = received dlen (env tr (HAL_SPI_Receive rx_dma dlen)).2
  else if instr =? JEDEC_ID then exists tr, r = received 3 (env tr (HAL_SPI_Receive rx_dma 3)).2 ++ drop 3 data
  else r = data.


(** ** Erasing: the chip answers busy until [N] status reads have been made *)

Definition is_read (c : spi_io) : bool := match c with HAL_SPI_Receive _ _ => true | _ => false end.
Definition reads (t : list spi_io) : nat := length (filter (fun c => is_read c = true) t).

Context (N : nat).
Hypothesis idle_after : forall tr, (N <= reads tr)%nat -> exists b l,
  (env tr (HAL_SPI_Receive rx_dma 1)).2 = b :: l /\ Z.testbit b 0 = false.

Definition poll : transaction := ([READ_SR1], 1).

Lemma reads_app t1 t2 : reads (t1 ++ t2) = (reads t1 + reads t2)%nat.
Proof. unfold reads. by rewrite filter_app, length_app. Qed.

Lemma wp_poll buf (Q : list (option (list Z)) -> spi_state -> Prop) s :
  (forall data s' t, sp_trace s' = sp_trace s ++ t -> tells t [poll] ->
     (reads (sp_trace s) < reads (sp_trace s'))%nat ->
     ((N <= reads (sp_trace s))%nat -> exists b l, data = b :: l /\ Z.testbit b 0 = false) ->
     Q [None; Some (received 1 data)] s') ->
  wp (xfer [one_byte READ_SR1 true false; mkMsg None (Some [buf]) 1 false true]) Q s.
Proof.
  intros HQ. unfold transfer. rewrite wp_bind. eapply wp_deref; [done|].
  rewrite wp_bind. apply wp_transfer_message_ok; [done|done| |].
  { constructor; [by apply sound_tx|]. constructor; [by apply sound_rx|done]. }
  rewrite wp_ret. cbn [sent_recv msgs_recv one_byte msg_recv recv_buf msg_length].
  cbn [one_byte cs_take cs_release]. eapply HQ; [done| | |].
  - by apply tells_owner.
  - cbn [sent_state sp_trace]. rewrite reads_app. apply Nat.lt_add_pos_r.
    unfold owner_trace. case_bool_decide; vm_compute; lia.
  - intros HN. apply idle_after. rewrite !reads_app. lia.
Qed.

(** The polling loop ends one status read after the chip is idle. *)
Lemma does_wait fuel buf s :
  (N - reads (sp_trace s) < fuel)%nat ->
  wp (wait_erased env tx_dma rx_dma (Some d) fuel buf) (fun _ s' =>
    exists k t, (1 <= k)%nat /\ sp_trace s' = sp_trace s ++ t /\ tells t (replicate k poll)) s.
Proof.
  revert buf s. induction fuel as [|fuel IH]; intros buf s Hf; [lia|]. cbn [wait_erased].
  rewrite wp_bind. apply wp_poll. intros data s' t Et Ht Hlt Hidle.
  cbn [buffer lookup list_lookup]. set (b := default buf _). apply wp_if; intros Hb.
  - assert (Hnot : (reads (sp_trace s) < N)%nat).
    { apply Nat.nle_gt. intros HN. destruct (Hidle HN) as (b0 & l & -> & Hb0). revert Hb. change b with b0.
      pose proof (land_pow2 b0 0 ltac:(lia)) as E. change (2 ^ 0) with 1 in E. rewrite E, Hb0. done. }
    eapply wp_mono, IH; [|lia]. intros _ s2 (k & t2 & Hk & E2 & T2).
    exists (S k), (t ++ t2). rewrite E2, Et, app_assoc. split; [lia|]. split; [done|].
    by apply (tells_app _ _ [poll]).
  - rewrite wp_ret. exists 1%nat, t. done.
Qed.

(** The three parts of an erase. *)
Lemma wp_erase_with (m : Sp (list (option (list Z)))) fs fuel s :
  (forall s, does m fs (fun _ => True) s) -> (N < fuel)%nat ->
  wp (write_enable env tx_dma rx_dma (Some d) ;; m ;; wait_erased env tx_dma rx_dma (Some d) fuel uninit ;;
      write_disable env tx_dma rx_dma (Some d)) (fun _ s' =>
    exists k t, (1 <= k)%nat /\ sp_trace s' = sp_trace s ++ t /\
      transactions None t = [([WRITE_ENABLE], 0)] ++ fs ++ replicate k poll ++ [([WRITE_DISABLE], 0)]) s.
Proof.
  intros Hm Hf. rewrite wp_bind. eapply wp_mono, does_byte.
  intros _ s1 (_ & t1 & E1 & T1). rewrite wp_bind. eapply wp_mono, Hm.
  intros _ s2 (_ & t2 & E2 & T2). rewrite wp_bind. eapply wp_mono, does_wait; [|lia].
  intros _ s3 (k & t3 & Hk & E3 & T3). eapply wp_mono, does_byte.
  intros _ s4 (_ & t4 & E4 & T4). exists k, (t1 ++ t2 ++ t3 ++ t4). split; [done|].
  split; [by rewrite E4, E3, E2, E1, !app_assoc|].
  apply tells_transactions. repeat apply tells_app; done.
Qed.

(** A chip erase tells the chip write enable, chip erase, as many status reads as it
    takes for the chip to be idle and then write disable; the polling ends. *)
Theorem chip_erase_spec fuel addr dlen data s :
  (N < fuel)%nat ->
  wp (w25q64_control env tx_dma rx_dma (Some d) uninit fuel CHIP_ERASE addr dlen data) (fun r s' =>
    r = data /\ exists k t, (1 <= k)%nat /\ sp_trace s' = sp_trace s ++ t /\
      transactions None t = [([WRITE_ENABLE], 0); ([CHIP_ERASE], 0)] ++ replicate k poll ++
                            [([WRITE_DISABLE], 0)]) s.
Proof.
  intros Hf. change (w25q64_control _ _ _ _ _ _ _ _ _ _) with
    (w25q64_erase env tx_dma rx_dma (Some d) uninit fuel ;; mret data).
  rewrite wp_bind. eapply wp_mono, (wp_erase_with _ [([CHIP_ERASE], 0)]); [|intros s1|done].
  - intros ? s' H. rewrite wp_ret. split; [done|exact H].
  - apply does_xfer; [done| |by intros t'|done]. constructor; [by apply sound_tx|done].
Qed.

(** A sector or block erase never reaches the chip: the instruction is put into the
    first message but the transfer starts at the second, with the chip select high, so
    that the chip sees write enable, status reads and write disable, whatever the
    instruction and the address. *)
Theorem erase_part_never_sent fuel instr addr dlen data s :
  instr = SECTOR_ERASE \/ instr = BLOCK_ERASE \/ instr = DBLOCK_ERASE ->
  length addr = 3%nat -> (N < fuel)%nat ->
  wp (w25q64_control env tx_dma rx_dma (Some d) uninit fuel instr addr dlen data) (fun r s' =>
    exists k t, (1 <= k)%nat /\ sp_trace s' = sp_trace s ++ t /\
      transactions None t = [([WRITE_ENABLE], 0)] ++ replicate k poll ++ [([WRITE_DISABLE], 0)]) s.
Proof.
  intros Hi Ha Hf.
  assert (w25q64_control env tx_dma rx_dma (Some d) uninit fuel instr addr dlen data =
    (w25q64_erase_part env tx_dma rx_dma (Some d) uninit fuel instr addr ;; mret data)) as ->.
  { by destruct Hi as [->|[->| ->]]. }
  rewrite wp_bind. eapply wp_mono, (wp_erase_with _ []); [|intros s1|done].
  - intros ? s' H. rewrite wp_ret. exact H.
  - apply does_xfer; [done| |by intros t'|done].
    constructor; [|done]. apply sound_tx; [by rewrite Ha|done].
Qed.
End laws.

(** ** Concrete instances: the chip is busy for two status reads *)

Definition busy_env (tr : list spi_io) (c : spi_io) : Z * list Z :=
  (0, match c with HAL_SPI_Receive _ 1 => [if decide (reads tr < 2)%nat then 3 else 0] | _ => [] end).

Lemma busy_env_idle tr : (2 <= reads tr)%nat -> exists b l,
  (busy_env tr (HAL_SPI_Receive false 1)).2 = b :: l /\ Z.testbit b 0 = false.
Proof. intros H. unfold busy_env. cbn. rewrite decide_False by lia. by do 2 eexists. Qed.


Theorem chip_erase_spec_witness :
  wp (w25q64_control busy_env false false (Some 1%positive) 0 3 CHIP_ERASE [] 0 []) (fun r s' =>
    r = [] /\ exists k t, (1 <= k)%nat /\ sp_trace s' = [] ++ t /\
      transactions None t = [([0x06], 0); ([0x60], 0)] ++ replicate k poll ++ [([0x04], 0)]) sample_bus.
Proof.
  apply (chip_erase_spec busy_env false false 1 0 ltac:(done) 2 busy_env_idle 3 [] 0 [] sample_bus). lia.
Defined.

Theorem erase_part_never_sent_witness :
  wp (w25q64_control busy_env false false (Some 1%positive) 0 3 SECTOR_ERASE [0; 0; 0] 0 []) (fun r s' =>
    exists k t, (1 <= k)%nat /\ sp_trace s' = [] ++ t /\
      transactions None t = [([0x06], 0)] ++ replicate k poll ++ [([0x04], 0)]) sample_bus.
Proof.
  apply (erase_part_never_sent busy_env false false 1 0 ltac:(done) 2 busy_env_idle 3 SECTOR_ERASE [0; 0; 0] 0 [] sample_bus);
    [by left|done|lia].
Defined.
