(* ===== verification/I2c.v ===== *)
(** * I2c: the bit-banged I2C bus, rt-thread/components/drivers/i2c/i2c-bit-ops.c and
    i2c_core.c

    The functions drive two pins; the trace of pin operations is the state, and the levels
    read, the tick and the lock are the environment's (Io).  [wire] decodes the start and
    stop conditions and the bits another party sees on the two lines. *)

From S2P Require Import Prelude Kernel Io.

#[local] Open Scope Z_scope.

(** ** Definitions *)

Definition RT_I2C_WR : Z := 0x0000.
Definition RT_I2C_RD : Z := 2 ^ 0.
Definition RT_I2C_ADDR_10BIT : Z := 2 ^ 2.
Definition RT_I2C_NO_START : Z := 2 ^ 4.
Definition RT_I2C_IGNORE_NACK : Z := 2 ^ 5.
Definition RT_I2C_NO_READ_ACK : Z := 2 ^ 6.
Definition RT_I2C_NO_STOP : Z := 2 ^ 7.

(** struct rt_i2c_msg *)
Record rt_i2c_msg := mkI2cMsg { i2c_addr : Z; i2c_flags : Z; i2c_len : Z; i2c_buf : list Z }.

Inductive pin_io :=
  | SET_SDA (v : Z) | SET_SCL (v : Z) | GET_SDA | GET_SCL
  | UDelay (us : Z) | TickGet | ThreadDelay (tick : Z)
  | LockTake | LockRelease.

Abbreviation P := (M (list pin_io)).

Section i2c.
Context (env : list pin_io -> pin_io -> Z).
(** The fields of [rt_i2c_bit_ops] and [bus->retries]; [get_scl] tells whether there is
    such a function; the turns given to the wait for SCL. *)
Context (delay_us timeout : Z) (get_scl : bool) (retries_ : Z) (fuel : nat).

Definition io (c : pin_io) : P Z := ask env (fun t => t) (fun c t => t ++ [c]) c.
Definition put (c : pin_io) : P unit := io c ;; mret tt.

Definition i2c_delay : P unit := put (UDelay (Z.shiftr (u32 (delay_us + 1)) 1)).
Definition i2c_delay2 : P unit := put (UDelay delay_us).
Definition SDA_L : P unit := put (SET_SDA 0).
Definition SDA_H : P unit := put (SET_SDA 1).
Definition SCL_L : P unit := put (SET_SCL 0).

Fixpoint scl_wait (fuel : nat) (start : Z) : P Z :=
  match fuel with
  | O => fault
  | S fuel =>
      v ← io GET_SCL;
      if v =? 0 then
        now ← io TickGet;
        if u32 (now - start) >? timeout then mret (- RT_ETIMEOUT)
        else put (ThreadDelay (Z.shiftr (u32 (timeout + 1)) 1)) ;; scl_wait fuel start
      else i2c_delay ;; mret RT_EOK
  end.
Definition SCL_H : P Z :=
  put (SET_SCL 1) ;;
  if get_scl then start ← io TickGet; scl_wait fuel start
  else i2c_delay ;; mret RT_EOK.

Definition i2c_start : P unit := SDA_L ;; i2c_delay ;; SCL_L.
Definition i2c_restart : P unit :=
  SDA_H ;; SCL_H ;; i2c_delay ;; SDA_L ;; i2c_delay ;; SCL_L.
Definition i2c_stop : P unit :=
  SDA_L ;; i2c_delay ;; SCL_H ;; i2c_delay ;; SDA_H ;; i2c_delay2.

Definition i2c_waitack : P Z :=
  SDA_H ;;
  i2c_delay ;;
  r ← SCL_H;
  if r <? 0 then mret (- RT_ETIMEOUT) else
  v ← io GET_SDA;
  SCL_L ;;
  mret (if v =? 0 then 1 else 0).

(** The bits [n - 1] down to 0 of [data]. *)
Fixpoint write_bits (n : nat) (data : Z) : P Z :=
  match n with
  | O => mret RT_EOK
  | S i =>
      SCL_L ;;
      put (SET_SDA (Z.land (Z.shiftr data (Z.of_nat i)) 1)) ;;
      i2c_delay ;;
      r ← SCL_H;
      if r <? 0 then mret (- RT_ETIMEOUT) else write_bits i data
  end.
Definition i2c_writeb (data : Z) : P Z :=
  r ← write_bits 8 data;
  if r <? 0 then mret r else
  SCL_L ;; i2c_delay ;; i2c_waitack.

Fixpoint read_bits (n : nat) (data : Z) : P Z :=
  match n with
  | O => mret data
  | S n =>
      let data := u8 (Z.shiftl data 1) in
      r ← SCL_H;
      if r <? 0 then mret (- RT_ETIMEOUT) else
      v ← io GET_SDA;
      let data := if v =? 0 then data else Z.lor data 1 in
      SCL_L ;;
      i2c_delay2 ;;
      read_bits n data
  end.
Definition i2c_readb : P Z := SDA_H ;; i2c_delay ;; read_bits 8 0.

Definition flag (flags f : Z) : bool := negb (Z.land flags f =? 0).

(** The loop of [i2c_send_bytes] over the bytes left. *)
Fixpoint send_bytes_loop (ignore_nack : bool) (ptr : list Z) (bytes : Z) : P Z :=
  match ptr with
  | [] => mret bytes
  | b :: ptr =>
      ret ← i2c_writeb b;
      if (0 <? ret) || (ignore_nack && (ret =? 0)) then send_bytes_loop ignore_nack ptr (bytes + 1)
      else if ret =? 0 then mret 0 else mret ret
  end.
(** The buffer's first [len] bytes; reading beyond the buffer is a fault. *)
Definition i2c_send_bytes (msg : rt_i2c_msg) : P Z :=
  rt_assert (i2c_len msg <=? Z.of_nat (length (i2c_buf msg))) ;;
  send_bytes_loop (flag (i2c_flags msg) RT_I2C_IGNORE_NACK)
    (take (Z.to_nat (i2c_len msg)) (i2c_buf msg)) 0.

Definition i2c_send_ack_or_nack (ack : Z) : P Z :=
  when (negb (ack =? 0)) (put (SET_SDA 0)) ;;
  i2c_delay ;;
  r ← SCL_H;
  if r <? 0 then mret (- RT_ETIMEOUT) else SCL_L ;; mret RT_EOK.

(** The loop of [i2c_recv_bytes]: [count] bytes to go, those received so far; the results
    are the value returned and the bytes stored. *)
Fixpoint recv_bytes_loop (flags : Z) (count : nat) (got : list Z) : P (Z * list Z) :=
  match count with
  | O => mret (Z.of_nat (length got), got)
  | S count =>
      val ← i2c_readb;
      if val <? 0 then mret (Z.of_nat (length got), got) else
      let got := got ++ [u8 val] in
      if negb (flag flags RT_I2C_NO_READ_ACK) then
        val ← i2c_send_ack_or_nack (Z.of_nat count);
        if val <? 0 then mret (val, got) else recv_bytes_loop flags count got
      else recv_bytes_loop flags count got
  end.
Definition i2c_recv_bytes (msg : rt_i2c_msg) : P (Z * list Z) :=
  rt_assert (i2c_len msg <=? Z.of_nat (length (i2c_buf msg))) ;;
  '(ret, got) ← recv_bytes_loop (i2c_flags msg) (Z.to_nat (i2c_len msg)) [];
  mret (ret, got ++ drop (length got) (i2c_buf msg)).

(** The loop of [i2c_send_address], from turn [i] = [retries] - [left] on. *)
Fixpoint send_address_loop (addr : Z) (left_ : nat) : P Z :=
  ret ← i2c_writeb addr;
  match left_ with
  | O => mret ret
  | S left_ =>
      if ret =? 1 then mret ret
      else i2c_stop ;; i2c_delay2 ;; i2c_start ;; send_address_loop addr left_
  end.
Definition i2c_send_address (addr retries : Z) : P Z :=
  if retries <? 0 then mret 0 else send_address_loop addr (Z.to_nat retries).

Definition i2c_bit_send_address (msg : rt_i2c_msg) : P Z :=
  let flags := i2c_flags msg in
  let ignore_nack := flag flags RT_I2C_IGNORE_NACK in
  let retries := if ignore_nack then 0 else retries_ in
  if flag flags RT_I2C_ADDR_10BIT then
    let addr1 := u8 (Z.lor 0xf0 (Z.land (Z.shiftr (i2c_addr msg) 7) 0x06)) in
    let addr2 := u8 (Z.land (i2c_addr msg) 0xff) in
    ret ← i2c_send_address addr1 retries;
    if negb (ret =? 1) && negb ignore_nack then mret (- RT_EIO) else
    ret ← i2c_writeb addr2;
    if negb (ret =? 1) && negb ignore_nack then mret (- RT_EIO) else
    if flag flags RT_I2C_RD then
      i2c_restart ;;
      ret ← i2c_send_address (Z.lor addr1 0x01) retries;
      if negb (ret =? 1) && negb ignore_nack then mret (- RT_EIO) else mret RT_EOK
    else mret RT_EOK
  else
    let addr1 := u8 (Z.shiftl (i2c_addr msg) 1) in
    let addr1 := if flag flags RT_I2C_RD then Z.lor addr1 1 else addr1 in
    ret ← i2c_send_address addr1 retries;
    if negb (ret =? 1) && negb ignore_nack then mret (- RT_EIO) else mret RT_EOK.

(** One turn of the loop of [i2c_bit_xfer]: [inr] goes on with the next message, [inl]
    leaves the loop with an error; the message comes with its buffer filled. *)
Definition xfer_one (first : bool) (msg : rt_i2c_msg) : P ((Z + unit) * list Z) :=
  let ignore_nack := flag (i2c_flags msg) RT_I2C_IGNORE_NACK in
  ret ← (if negb (flag (i2c_flags msg) RT_I2C_NO_START) then
           (if first then i2c_start else i2c_restart) ;; i2c_bit_send_address msg
         else mret RT_EOK);
  if negb (ret =? RT_EOK) && negb ignore_nack then mret (inl ret, i2c_buf msg) else
  if flag (i2c_flags msg) RT_I2C_RD then
    '(ret, buf) ← i2c_recv_bytes msg;
    if ret <? i2c_len msg then mret (inl (if 0 <=? ret then - RT_EIO else ret), buf)
    else mret (inr tt, buf)
  else
    ret ← i2c_send_bytes msg;
    if ret <? i2c_len msg then mret (inl (if 0 <=? ret then - RT_ERROR else ret), i2c_buf msg)
    else mret (inr tt, i2c_buf msg).

Fixpoint xfer_loop (i : Z) (msgs : list rt_i2c_msg) : P (Z * list (list Z)) :=
  match msgs with
  | [] => mret (i, [])
  | msg :: rest =>
      '(r, buf) ← xfer_one (i =? 0) msg;
      match r with
      | inl ret =>
          when (negb (flag (i2c_flags msg) RT_I2C_NO_STOP)) i2c_stop ;;
          mret (ret, buf :: (i2c_buf <$> rest))
      | inr _ =>
          match rest with
          | [] =>
              when (negb (flag (i2c_flags msg) RT_I2C_NO_STOP)) i2c_stop ;;
              mret (i + 1, [buf])
          | _ => '(ret, bufs) ← xfer_loop (i + 1) rest; mret (ret, buf :: bufs)
          end
      end
  end.
(** With no message the stop flag of an uninitialised pointer would be read. *)
Definition i2c_bit_xfer (msgs : list rt_i2c_msg) : P (Z * list (list Z)) :=
  rt_assert (negb (bool_decide (msgs = []))) ;; xfer_loop 0 msgs.

(** The results: what [master_xfer] returns, and the buffers of the messages. *)
Definition rt_i2c_transfer (msgs : list rt_i2c_msg) : P (Z * list (list Z)) :=
  put LockTake ;;
  r ← i2c_bit_xfer msgs;
  put LockRelease ;;
  mret r.

Definition rt_i2c_master_send (addr flags : Z) (buf : list Z) (count : Z) : P Z :=
  '(ret, _) ← rt_i2c_transfer [mkI2cMsg addr flags count buf];
  mret (if 0 <? ret then count else ret).
Definition rt_i2c_master_recv (addr flags : Z) (buf : list Z) (count : Z) : P (Z * list (list Z)) :=
  '(ret, bufs) ← rt_i2c_transfer [mkI2cMsg addr (Z.lor flags RT_I2C_RD) count buf];
  mret (if 0 <? ret then count else ret, bufs).

End i2c.

(** ** What is on the wire *)

(** The levels we drive, and whether SCL has risen without SDA changing since: a bit is
    complete when SCL falls. *)
Record line := mkLine { ln_sda : bool; ln_scl : bool; ln_clean : bool }.
Inductive symbol := Start | Stop | Bit (b : bool).

Definition line_step (c : pin_io) (l : line) : list symbol * line :=
  match c with
  | SET_SDA v =>
      let v := negb (v =? 0) in
      if eqb v (ln_sda l) then ([], l)
      else (if ln_scl l then [if v then Stop else Start] else [], mkLine v (ln_scl l) false)
  | SET_SCL v =>
      let v := negb (v =? 0) in
      if eqb v (ln_scl l) then ([], l)
      else (if v then [] else if ln_clean l then [Bit (ln_sda l)] else [], mkLine (ln_sda l) v v)
  | _ => ([], l)
  end.
Definition idle_line : line := mkLine true true false.

Definition line_add (x : list symbol * line) (c : pin_io) : list symbol * line :=
  let '(syms, l) := line_step c x.2 in (x.1 ++ syms, l).
(** What a whole trace puts on the wire, and the levels it leaves. *)
Definition wire (t : list pin_io) : list symbol := (foldl line_add ([], idle_line) t).1.
Definition line_of (t : list pin_io) : line := (foldl line_add ([], idle_line) t).2.

Lemma wire_snoc t c : wire (t ++ [c]) = wire t ++ (line_step c (line_of t)).1.
Proof. unfold wire, line_of. rewrite foldl_app. cbn. unfold line_add. by destruct (line_step c _). Qed.
Lemma line_snoc t c : line_of (t ++ [c]) = (line_step c (line_of t)).2.
Proof. unfold line_of. rewrite foldl_app. cbn. unfold line_add. by destruct (line_step c _). Qed.

Section laws.
Context (env : list pin_io -> pin_io -> Z) (delay_us timeout : Z) (get_scl : bool) (fuel : nat).
(** Nobody stretches the clock: SCL is high once we release it. *)
Hypothesis scl_free : forall tr, ln_scl (line_of tr) = true -> env tr GET_SCL ≠ 0.
Hypothesis fuel_pos : (0 < fuel)%nat.

(** From levels [l], [m] runs and ends in [R]: of its result, what it put on the wire and
    the levels it leaves. *)
Definition drives {A} (l : line) (m : P A) (R : A -> list symbol -> line -> Prop) : Prop :=
  forall t, line_of t = l -> wp m (fun a t' => exists syms,
    wire t' = wire t ++ syms /\ R a syms (line_of t')) t.

Lemma drives_bind {A B} l (m : P A) (f : A -> P B) (R : B -> list symbol -> line -> Prop) :
  drives l m (fun a syms1 l1 => drives l1 (f a) (fun b syms2 l2 => R b (syms1 ++ syms2) l2)) ->
  drives l (mbind f m) R.
Proof.
  intros H t Hl. rewrite wp_bind. eapply wp_mono, H; [|done].
  intros a t1 (syms1 & E1 & H1). eapply wp_mono, H1; [|done].
  intros b t2 (syms2 & E2 & H2). exists (syms1 ++ syms2). by rewrite E2, E1, app_assoc.
Qed.
Lemma drives_mono {A} l (m : P A) (R R' : A -> list symbol -> line -> Prop) :
  (forall a syms l', R a syms l' -> R' a syms l') -> drives l m R -> drives l m R'.
Proof.
  intros HR H t Hl. eapply wp_mono, H; [|done]. intros a t' (syms & E & Hr). exists syms. auto.
Qed.
Lemma drives_ret {A} l (a : A) (R : A -> list symbol -> line -> Prop) : R a [] l -> drives l (mret a) R.
Proof. intros HR t Hl. rewrite wp_ret. exists []. rewrite app_nil_r. by subst. Qed.
Lemma drives_put l c (R : unit -> list symbol -> line -> Prop) :
  R tt (line_step c l).1 (line_step c l).2 -> drives l (put env c) R.
Proof.
  intros HR t <-. exists (line_step c (line_of t)).1. unfold wp, put. cbn.
  by rewrite wire_snoc, line_snoc.
Qed.

(** A level read while SCL is high and SDA is released. *)
Definition sampled (b : bool) : Prop :=
  exists t, ln_sda (line_of t) = true /\ ln_scl (line_of t) = true /\ b = negb (env t GET_SDA =? 0).

Lemma drives_get_sda l (R : Z -> list symbol -> line -> Prop) :
  ln_sda l = true -> ln_scl l = true ->
  (forall v b, sampled b -> b = negb (v =? 0) -> R v [] l) -> drives l (io env GET_SDA) R.
Proof.
  intros H1 H2 HR t Hl. exists []. rewrite wire_snoc, line_snoc. cbn. rewrite app_nil_r. rewrite Hl.
  split; [done|]. eapply HR; [|done]. exists t. by rewrite Hl.
Qed.

Definition raised (l : line) : line := if ln_scl l then l else mkLine (ln_sda l) true true.

Lemma drives_SCL_H l (R : Z -> list symbol -> line -> Prop) :
  R RT_EOK [] (raised l) -> drives l (SCL_H env delay_us timeout get_scl fuel) R.
Proof.
  intros HR. assert (Hend : drives (raised l) (i2c_delay env delay_us ;; mret RT_EOK) R).
  { apply drives_bind, drives_put. cbn. apply drives_ret. exact HR. }
  unfold SCL_H. apply drives_bind, drives_put.
  assert (line_step (SET_SCL 1) l = ([], raised l)) as ->.
  { unfold raised. destruct l as [sda [] cl]; done. }
  cbn [fst snd]. destruct get_scl; [|exact Hend].
  apply drives_bind. intros t Hl. exists []. rewrite wire_snoc, line_snoc. cbn. rewrite app_nil_r.
  split; [done|]. rewrite Hl. destruct fuel as [|f]; [lia|]. cbn [scl_wait].
  apply drives_bind. intros t2 Hl2. exists []. rewrite wire_snoc, line_snoc. cbn. rewrite app_nil_r.
  split; [done|]. rewrite Hl2. destruct (Z.eqb_spec (env t2 GET_SCL) 0) as [E|_]; [destruct (scl_free t2); [|done]; rewrite Hl2; unfold raised; by destruct (ln_scl l) eqn:El|].
  exact Hend.
Qed.

Lemma drives_SCL_H' l {B} (f : Z -> P B) (R : B -> list symbol -> line -> Prop) :
  drives (raised l) (f RT_EOK) R ->
  drives l (r ← SCL_H env delay_us timeout get_scl fuel; f r) R.
Proof. intros H. apply drives_bind, drives_SCL_H. exact H. Qed.

(** One pin operation whose effect on the line computes. *)
#[local] Ltac drive :=
  lazymatch goal with
  | |- drives _ (mbind _ (SCL_H _ _ _ _ _)) _ => apply drives_SCL_H'; cbn [raised ln_scl ln_sda]
  | |- drives _ (mbind _ _) _ => apply drives_bind
  | |- drives _ (put _ _) _ => apply drives_put; cbn
  | |- drives _ (mret _) _ => apply drives_ret
  end.

(** *** Bytes *)

(** The bits [n - 1] down to 0. *)
Fixpoint bits_of (n : nat) (data : Z) : list symbol :=
  match n with O => [] | S i => Bit (Z.testbit data (Z.of_nat i)) :: bits_of i data end.
(** A byte sent: its bits, most significant first, and SDA released for the answer. *)
Definition byte_sent (data : Z) : list symbol := bits_of 8 data ++ [Bit true].

(** The bit that is complete once SCL falls. *)
Definition pending_bit (l : line) : list symbol :=
  if ln_scl l then if ln_clean l then [Bit (ln_sda l)] else [] else [].

Lemma drives_SCL_L l (R : unit -> list symbol -> line -> Prop) :
  (forall c, R tt (pending_bit l) (mkLine (ln_sda l) false c)) -> drives l (SCL_L env) R.
Proof.
  intros HR. apply drives_put. unfold pending_bit in HR. destruct l as [sda [] clean]; cbn in *; apply HR.
Qed.
(** Setting SDA while SCL is low. *)
Lemma drives_SDA sda c v (R : unit -> list symbol -> line -> Prop) :
  (forall c, R tt [] (mkLine (negb (v =? 0)) false c)) ->
  drives (mkLine sda false c) (put env (SET_SDA v)) R.
Proof.
  intros HR. apply drives_put. cbn. destruct (eqb (negb (v =? 0)) sda) eqn:E; [|apply HR].
  apply eqb_prop in E as <-. apply HR.
Qed.
Lemma drives_delay l (R : unit -> list symbol -> line -> Prop) :
  R tt [] l -> drives l (i2c_delay env delay_us) R.
Proof. intros HR. by apply drives_put. Qed.
Lemma drives_delay2 l (R : unit -> list symbol -> line -> Prop) :
  R tt [] l -> drives l (i2c_delay2 env delay_us) R.
Proof. intros HR. by apply drives_put. Qed.

Lemma shifted_bit data i : 0 <= i -> negb (Z.land (Z.shiftr data i) 1 =? 0) = Z.testbit data i.
Proof.
  intros Hi. change 1 with (2 ^ 0). rewrite land_pow2, negb_involutive, Z.shiftr_spec by lia.
  by rewrite Z.add_0_l.
Qed.

Lemma drives_write_bits n data l :
  drives l (write_bits env delay_us timeout get_scl fuel n data) (fun r syms l' =>
    r = RT_EOK /\ syms ++ pending_bit l' = pending_bit l ++ bits_of n data /\
    (n = O -> l' = l) /\ (n ≠ O -> ln_scl l' = true)).
Proof.
  revert l. induction n as [|i IH]; intros l.
  - apply drives_ret. cbn. by rewrite app_nil_r.
  - cbn [write_bits]. drive. apply drives_SCL_L. intros c. drive. apply drives_SDA. intros c2. drive.
    apply drives_delay. drive. cbn [Z.ltb]. change (RT_EOK <? 0) with false. cbv iota.
    eapply drives_mono, IH. intros r syms l' (-> & E & H0 & H1). split; [done|].
    rewrite shifted_bit in E by lia. cbn in E. cbn [app]. split; [|split; [done|]].
    + rewrite app_nil_l || idtac. cbn. rewrite <- app_assoc, E. done.
    + intros _. destruct i; [|by apply H1]. by rewrite H0.
Qed.

Lemma pending_low sda c : pending_bit (mkLine sda false c) = [].
Proof. done. Qed.

(** A byte is sent most significant bit first, then SDA is released and the answer read:
    1 for an acknowledge. *)
Lemma drives_writeb data sda c :
  drives (mkLine sda false c) (i2c_writeb env delay_us timeout get_scl fuel data) (fun r syms l' =>
    syms = byte_sent data /\ ln_scl l' = false /\ exists b, sampled b /\ r = if b then 0 else 1).
Proof.
  unfold i2c_writeb. apply drives_bind. eapply drives_mono, drives_write_bits.
  intros r syms l (-> & E & _ & _). rewrite pending_low in E. cbn [app] in E.
  change (RT_EOK <? 0) with false. cbv iota. drive. apply drives_SCL_L. intros c2. drive.
  apply drives_delay. unfold i2c_waitack. drive. apply drives_SDA. intros c3. drive. apply drives_delay.
  drive. change (RT_EOK <? 0) with false. cbv iota. drive.
  apply drives_get_sda; [done|done|]. intros v b Hb Ev. drive. apply drives_SCL_L. intros c4.
  drive. cbn [app pending_bit ln_scl ln_clean ln_sda]. split; [|split; [done|]].
  - unfold byte_sent. rewrite <- E, <- app_assoc. done.
  - exists b. split; [done|]. subst b. by destruct (v =? 0).
Qed.

(** The value of bits received, most significant first. *)
Definition bits_value (bs : list bool) : Z := fold_left (fun v b => 2 * v + Z.b2z b) bs 0.

Lemma drives_read_bits n data bs0 sda c :
  data = bits_value bs0 -> (length bs0 + n = 8)%nat -> sda = true ->
  drives (mkLine sda false c) (read_bits env delay_us timeout get_scl fuel n data) (fun r syms l' =>
    syms = replicate n (Bit true) /\ ln_sda l' = true /\ ln_scl l' = false /\
    exists bs, length bs = n /\ Forall sampled bs /\ r = bits_value (bs0 ++ bs)).
Proof.
  revert data bs0 c. induction n as [|n IH]; intros data bs0 c Hd Hl ->.
  - apply drives_ret. split; [done|]. split; [done|]. split; [done|]. exists []. by rewrite app_nil_r.
  - cbn [read_bits]. drive. change (RT_EOK <? 0) with false. cbv iota. drive.
    apply drives_get_sda; [done|done|]. intros v b Hb Ev. drive. apply drives_SCL_L. intros c2. drive.
    apply drives_delay2. cbn [ln_sda].
    assert (Hbound : forall bs : list bool, 0 <= bits_value bs < 2 ^ Z.of_nat (length bs)).
    { intros bs. unfold bits_value. induction bs as [|x bs IHb] using rev_ind; [done|].
      rewrite fold_left_app, length_app. cbn [fold_left length]. rewrite Nat2Z.inj_add, Z.pow_add_r by lia.
      destruct x; cbn [Z.b2z]; lia. }
    eapply drives_mono, (IH _ (bs0 ++ [b])); [| |rewrite length_app; cbn; lia|done].
    + intros r syms l' (-> & H1 & H2 & bs & Hbs & Hs & ->). split; [done|]. split; [done|]. split; [done|].
      exists (b :: bs). split; [cbn; lia|]. split; [by constructor|]. by rewrite <- app_assoc.
    + subst data. unfold bits_value. rewrite fold_left_app. cbn [fold_left]. fold (bits_value bs0).
      pose proof (Hbound bs0) as Hbd.
      assert (2 ^ Z.of_nat (length bs0) <= 2 ^ 7) by (apply Z.pow_le_mono_r; lia).
      rewrite Z.shiftl_mul_pow2 by lia. change (2 ^ 1) with 2.
      rewrite (wrap_small 8) by (change (2 ^ 8) with 256; change (2 ^ 7) with 128 in *; lia).
      subst b. destruct (v =? 0); cbn [negb Z.b2z]; [lia|]. apply lor_even_1.
Qed.

(** A byte is read by releasing SDA and sampling eight bits, most significant first. *)
Definition read_byte (v : Z) : Prop :=
  exists bs, length bs = 8%nat /\ Forall sampled bs /\ v = bits_value bs.

Lemma bits_value_range bs : 0 <= bits_value bs < 2 ^ Z.of_nat (length bs).
Proof.
  unfold bits_value. induction bs as [|x bs IHb] using rev_ind; [done|].
  rewrite fold_left_app, length_app. cbn [fold_left length]. rewrite Nat2Z.inj_add, Z.pow_add_r by lia.
  destruct x; cbn [Z.b2z]; lia.
Qed.
Lemma read_byte_range v : read_byte v -> 0 <= v < 256.
Proof. intros (bs & Hl & _ & ->). pose proof (bits_value_range bs) as H. by rewrite Hl in H. Qed.

Lemma drives_readb sda c :
  drives (mkLine sda false c) (i2c_readb env delay_us timeout get_scl fuel) (fun r syms l' =>
    syms = replicate 8 (Bit true) /\ ln_sda l' = true /\ ln_scl l' = false /\ read_byte r).
Proof.
  unfold i2c_readb. drive. apply drives_SDA. intros c2. drive. apply drives_delay.
  eapply drives_mono, (drives_read_bits 8 0 []); [|done|done|done].
  intros r syms l' (-> & H1 & H2 & bs & Hl & Hs & ->). split; [done|]. split; [done|]. split; [done|].
  by exists bs.
Qed.

(** *** Messages *)

Definition low (l : line) : Prop := ln_scl l = false.
Lemma low_eq l : low l -> exists sda c, l = mkLine sda false c.
Proof. destruct l as [sda scl c]. unfold low. cbn. intros ->. by exists sda, c. Qed.

Lemma drives_low {A} l (m : P A) (R : A -> list symbol -> line -> Prop) :
  low l -> (forall sda c, drives (mkLine sda false c) m R) -> drives l m R.
Proof. intros (sda & c & ->)%low_eq H. apply H. Qed.

Lemma drives_start l (R : unit -> list symbol -> line -> Prop) :
  ln_sda l = true -> ln_scl l = true -> (forall l', low l' -> R tt [Start] l') ->
  drives l (i2c_start env delay_us) R.
Proof.
  destruct l as [sda scl c]. cbn. intros -> -> HR. unfold i2c_start, SDA_L. drive. drive. drive.
  apply drives_delay. apply drives_SCL_L. intros c2. by apply HR.
Qed.

Lemma drives_restart l (R : unit -> list symbol -> line -> Prop) :
  low l -> (forall l', low l' -> R tt [Start] l') ->
  drives l (i2c_restart env delay_us timeout get_scl fuel) R.
Proof.
  intros Hl HR. apply drives_low; [done|]. intros sda c. unfold i2c_restart, SDA_L. drive. apply drives_SDA.
  intros c2. drive. drive. apply drives_delay. drive. drive. drive. apply drives_delay.
  apply drives_SCL_L. intros c3. by apply HR.
Qed.

Lemma drives_stop l (R : unit -> list symbol -> line -> Prop) :
  low l -> R tt [Stop] idle_line -> drives l (i2c_stop env delay_us timeout get_scl fuel) R.
Proof.
  intros Hl HR. apply drives_low; [done|]. intros sda c. unfold i2c_stop, SDA_L, SDA_H. drive. apply drives_SDA.
  intros c2. drive. apply drives_delay. drive. drive. apply drives_delay. drive. drive.
  apply drives_delay2. exact HR.
Qed.

Lemma drives_send_bytes ptr bytes l :
  low l -> 0 <= bytes ->
  drives l (send_bytes_loop env delay_us timeout get_scl fuel false ptr bytes) (fun r syms l' =>
    low l' /\ exists k, (k <= length ptr)%nat /\ syms = concat (byte_sent <$> take k ptr) /\
      (r = bytes + Z.of_nat (length ptr) /\ k = length ptr \/ r = 0 /\ (0 < k)%nat)).
Proof.
  revert bytes l. induction ptr as [|b ptr IH]; intros bytes l Hl Hb.
  - apply drives_ret. split; [done|]. exists O. cbn. split; [done|]. split; [done|]. left. lia.
  - cbn [send_bytes_loop]. apply drives_bind. apply drives_low; [done|]. intros sda c.
    eapply drives_mono, drives_writeb. intros r syms l' (-> & Hl' & b0 & _ & ->). destruct b0; cbn [Z.ltb Z.compare].
    + apply drives_ret. split; [done|]. exists 1%nat. cbn. split; [lia|]. split; [done|].
      right. lia.
    + change (0 <? 1) with true. cbn [orb]. eapply drives_mono, IH; [|done|lia].
      intros r syms l2 (Hl2 & k & Hk & -> & Hr). split; [done|]. exists (S k). cbn [length take fmap list_fmap concat].
      split; [lia|]. split; [done|]. lia.
Qed.

(** What the wire shows of bytes received: SDA released for the byte, then our answer,
    low to acknowledge, for all but the last. *)
Fixpoint bytes_read (n : nat) : list symbol :=
  match n with
  | O => []
  | S n => replicate 8 (Bit true) ++ [Bit (bool_decide (n = O))] ++ bytes_read n
  end.

Lemma drives_ack n sda c (R : Z -> list symbol -> line -> Prop) :
  sda = true -> (forall l', low l' -> R RT_EOK [Bit (bool_decide (n = O))] l') ->
  drives (mkLine sda false c) (i2c_send_ack_or_nack env delay_us timeout get_scl fuel (Z.of_nat n)) R.
Proof.
  intros -> HR. unfold i2c_send_ack_or_nack. apply drives_bind.
  destruct n as [|n]; cbn [Z.of_nat Z.eqb negb when].
  - apply drives_ret. drive. apply drives_delay. drive. change (RT_EOK <? 0) with false. cbv iota.
    drive. apply drives_SCL_L. intros c2. apply drives_ret. by apply HR.
  - apply drives_SDA. intros c2. drive. apply drives_delay. drive. change (RT_EOK <? 0) with false. cbv iota.
    drive. apply drives_SCL_L. intros c3. apply drives_ret. by apply HR.
Qed.

Lemma drives_recv_bytes flags count got l :
  flag flags RT_I2C_NO_READ_ACK = false -> low l ->
  drives l (recv_bytes_loop env delay_us timeout get_scl fuel flags count got) (fun '(r, buf) syms l' =>
    low l' /\ syms = bytes_read count /\ exists vs, buf = got ++ vs /\ length vs = count /\
      Forall read_byte vs /\ r = Z.of_nat (length buf)).
Proof.
  intros Hf. revert got l. induction count as [|n IH]; intros got l Hl.
  - apply drives_ret. split; [done|]. split; [done|]. exists []. by rewrite app_nil_r.
  - cbn [recv_bytes_loop]. apply drives_bind. apply drives_low; [done|]. intros sda c.
    eapply drives_mono, drives_readb. intros v syms l1 (-> & Hs1 & Hl1 & Hv).
    pose proof (read_byte_range _ Hv) as Hr. rewrite (proj2 (Z.ltb_ge v 0)) by lia. cbv zeta.
    rewrite (wrap_small 8 v) by done. rewrite Hf. cbn [negb].
    apply drives_bind. destruct l1 as [sda1 scl1 c1]. cbn in Hs1, Hl1. subst scl1.
    apply drives_ack; [done|]. intros l2 Hl2. change (RT_EOK <? 0) with false. cbv iota.
    eapply drives_mono, IH; [|done]. intros [r buf] syms l3 (Hl3 & -> & vs & -> & Hlen & Hvs & ->).
    split; [done|]. split; [done|].
    exists (v :: vs). rewrite <- app_assoc. split; [done|]. split; [cbn; lia|]. split; [by constructor|done].
Qed.

(** A message of the drivers: 7-bit address, read or write, no other flag. *)
Record plain_msg (m : rt_i2c_msg) : Prop := {
  pm_flags : i2c_flags m = RT_I2C_WR \/ i2c_flags m = RT_I2C_RD;
  pm_addr : 0 <= i2c_addr m < 128;
  pm_len : 0 <= i2c_len m <= Z.of_nat (length (i2c_buf m))
}.
Definition is_rd (m : rt_i2c_msg) : bool := flag (i2c_flags m) RT_I2C_RD.
Definition addr_byte (m : rt_i2c_msg) : Z := 2 * i2c_addr m + Z.b2z (is_rd m).
Definition payload (m : rt_i2c_msg) : list Z := take (Z.to_nat (i2c_len m)) (i2c_buf m).
(** A message transmitted in full, and its buffer afterwards. *)
Definition msg_sent (m : rt_i2c_msg) : list symbol :=
  Start :: byte_sent (addr_byte m) ++
  if is_rd m then bytes_read (Z.to_nat (i2c_len m)) else concat (byte_sent <$> payload m).
Definition msg_done (m : rt_i2c_msg) (buf : list Z) : Prop :=
  if is_rd m then exists vs, buf = vs ++ drop (Z.to_nat (i2c_len m)) (i2c_buf m) /\
    length vs = Z.to_nat (i2c_len m) /\ Forall read_byte vs
  else buf = i2c_buf m.

Abbreviation xfer1 := (xfer_one env delay_us timeout get_scl 0 fuel).

Lemma plain_flags m f : plain_msg m -> f = RT_I2C_ADDR_10BIT \/ f = RT_I2C_NO_START \/
  f = RT_I2C_IGNORE_NACK \/ f = RT_I2C_NO_READ_ACK \/ f = RT_I2C_NO_STOP -> flag (i2c_flags m) f = false.
Proof. intros [[-> | ->] _ _] [->|[->|[->|[->| ->]]]]; done. Qed.

Lemma drives_address m l :
  plain_msg m -> low l ->
  drives l (i2c_bit_send_address env delay_us timeout get_scl 0 fuel m) (fun r syms l' =>
    low l' /\ syms = byte_sent (addr_byte m) /\ (r = RT_EOK \/ r = - RT_EIO)).
Proof.
  intros Hm Hl. unfold i2c_bit_send_address.
  rewrite (plain_flags m RT_I2C_ADDR_10BIT), (plain_flags m RT_I2C_IGNORE_NACK) by auto. cbv zeta.
  assert ((if flag (i2c_flags m) RT_I2C_RD then Z.lor (u8 (Z.shiftl (i2c_addr m) 1)) 1
           else u8 (Z.shiftl (i2c_addr m) 1)) = addr_byte m) as ->.
  { unfold addr_byte, is_rd. rewrite Z.shiftl_mul_pow2, (wrap_small 8) by (destruct Hm; lia).
    change (2 ^ 1) with 2. destruct (flag _ _); cbn [Z.b2z]; [apply lor_even_1|lia]. }
  unfold i2c_send_address. change (0 <? 0) with false. cbv iota. cbn [Z.to_nat send_address_loop].
  apply drives_bind, drives_bind. apply drives_low; [done|]. intros sda c.
  eapply drives_mono, drives_writeb. intros r syms l' (-> & Hl' & _). apply drives_ret.
  cbn [andb negb]. rewrite andb_true_r. rewrite app_nil_r.
  destruct (negb (r =? 1)); apply drives_ret; rewrite app_nil_r; auto.
Qed.

Lemma drives_begin (first : bool) l (R : unit -> list symbol -> line -> Prop) :
  (if first then l = idle_line else low l) -> (forall l', low l' -> R tt [Start] l') ->
  drives l (if first then i2c_start env delay_us else i2c_restart env delay_us timeout get_scl fuel) R.
Proof.
  destruct first; [intros ->; by apply drives_start|intros Hl; by apply drives_restart].
Qed.

Lemma drives_assert (b : bool) l (R : unit -> list symbol -> line -> Prop) :
  b = true -> R tt [] l -> drives l (rt_assert b) R.
Proof. intros -> HR. exact (drives_ret l tt R HR). Qed.

Lemma drives_xfer_one (first : bool) m l :
  plain_msg m -> (if first then l = idle_line else low l) ->
  drives l (xfer1 first m) (fun '(r, buf) syms l' => low l' /\
    match r with inr _ => syms = msg_sent m /\ msg_done m buf | inl e => e < 0 end).
Proof.
  intros Hm Hl. pose proof Hm as [_ _ Hlen]. unfold xfer_one.
  rewrite (plain_flags m RT_I2C_NO_START), (plain_flags m RT_I2C_IGNORE_NACK) by auto. cbn [negb]. cbv zeta.
  apply drives_bind, drives_bind. apply drives_begin; [done|]. intros l1 Hl1.
  eapply drives_mono, drives_address; [|done|done]. intros r syms l2 (Hl2 & -> & Hr).
  destruct Hr as [->| ->].
  2: { cbn. apply drives_ret. done. }
  change (negb (RT_EOK =? RT_EOK) && true) with false. cbv iota.
  fold (is_rd m). unfold msg_sent, msg_done. destruct (is_rd m).
  - apply drives_bind. unfold i2c_recv_bytes. apply drives_bind, drives_assert; [apply Z.leb_le; lia|].
    apply drives_bind. eapply drives_mono, drives_recv_bytes; [|apply plain_flags; [done|by do 3 right; left]|done].
    intros [ret got] syms l3 (Hl3 & -> & vs & -> & Hvs & Hread & ->). apply drives_ret. cbn [app].
    assert (Z.of_nat (length vs) = i2c_len m) as E by lia. cbn [app] in *. rewrite E, Z.ltb_irrefl.
    apply drives_ret. split; [done|]. rewrite !app_nil_r. split; [done|]. exists vs. by rewrite Hvs.
  - apply drives_bind. unfold i2c_send_bytes. apply drives_bind, drives_assert; [apply Z.leb_le; lia|].
    rewrite (plain_flags m RT_I2C_IGNORE_NACK) by auto. fold (payload m).
    assert (Hpl : Z.of_nat (length (payload m)) = i2c_len m) by (unfold payload; rewrite length_take; lia).
    eapply drives_mono, drives_send_bytes; [|done|lia].
    intros r syms l3 (Hl3 & k & Hk & -> & Hr). destruct (Z.ltb_spec r (i2c_len m)).
    + apply drives_ret. split; [done|]. destruct Hr as [[-> _]|[-> _]]; [lia|done].
    + apply drives_ret. split; [done|]. split; [|done]. rewrite app_nil_r. cbn [app].
      destruct Hr as [[-> ->]|[-> Hk0]]; [|lia]. by rewrite firstn_all.
Qed.

Lemma drives_xfer_loop i msgs l :
  Forall plain_msg msgs -> msgs ≠ [] -> 0 <= i -> (if i =? 0 then l = idle_line else low l) ->
  drives l (xfer_loop env delay_us timeout get_scl 0 fuel i msgs) (fun '(r, bufs) syms l' =>
    l' = idle_line /\ exists body, syms = body ++ [Stop] /\
      (r < 0 \/ r = i + Z.of_nat (length msgs) /\ body = concat (msg_sent <$> msgs) /\
                Forall2 msg_done msgs bufs)).
Proof.
  revert i l. induction msgs as [|m rest IH]; intros i l Hm Hne Hi Hl; [done|].
  apply Forall_cons in Hm as [Hm Hrest]. cbn [xfer_loop]. apply drives_bind.
  eapply drives_mono, drives_xfer_one; [|done|done]. intros [r buf] syms l1 (Hl1 & Hr).
  rewrite (plain_flags m RT_I2C_NO_STOP) by (done || by do 4 right). cbn [negb when]. destruct r as [e|[]].
  - apply drives_bind, drives_stop; [done|]. apply drives_ret. split; [done|]. exists syms.
    rewrite app_nil_r. auto.
  - destruct Hr as [-> Hd]. destruct rest as [|m2 rest].
    + apply drives_bind, drives_stop; [done|]. apply drives_ret. split; [done|]. exists (msg_sent m).
      rewrite app_nil_r. split; [done|]. right. cbn [length fmap list_fmap concat]. rewrite app_nil_r.
      split; [lia|]. split; [done|]. by repeat constructor.
    + apply drives_bind. eapply drives_mono, (IH (i + 1)); [|done|done|lia|].
      2: { rewrite (proj2 (Z.eqb_neq _ _)) by lia. done. }
      intros [ret bufs] syms l2 (-> & body & -> & Hb). apply drives_ret. split; [done|].
      exists (msg_sent m ++ body). rewrite app_nil_r, app_assoc. split; [done|].
      destruct Hb as [Hb|(-> & -> & Hb)]; [by left|right]. cbn [length]. split; [lia|].
      split; [done|]. by constructor.
Qed.

Lemma wp_rt_i2c_transfer msgs t :
  Forall plain_msg msgs -> msgs ≠ [] -> line_of t = idle_line ->
  wp (rt_i2c_transfer env delay_us timeout get_scl 0 fuel msgs) (fun '(r, bufs) t' =>
    line_of t' = idle_line /\ exists body, wire t' = wire t ++ body ++ [Stop] /\
      (r < 0 \/ r = Z.of_nat (length msgs) /\ body = concat (msg_sent <$> msgs) /\
                Forall2 msg_done msgs bufs)) t.
Proof.
  intros Hm Hne Hl.
  assert (H : drives idle_line (rt_i2c_transfer env delay_us timeout get_scl 0 fuel msgs)
    (fun '(r, bufs) syms l' => l' = idle_line /\ exists body, syms = body ++ [Stop] /\
      (r < 0 \/ r = Z.of_nat (length msgs) /\ body = concat (msg_sent <$> msgs) /\
                Forall2 msg_done msgs bufs))).
  { unfold rt_i2c_transfer, i2c_bit_xfer. drive. drive. apply drives_bind.
    apply drives_bind, drives_assert; [by rewrite bool_decide_eq_false_2|].
    eapply drives_mono, drives_xfer_loop; [|done|done|done|done].
    intros [r bufs] syms l (-> & body & -> & Hb). drive. drive. apply drives_ret. split; [done|].
    exists body. cbn [app]. rewrite app_nil_r. done. }
  eapply wp_mono, H; [|done]. intros [r bufs] t' (syms & E & -> & body & -> & Hb).
  split; [done|]. exists body. by rewrite E.
Qed.
(** A transfer of the drivers' messages puts, on a bus where nobody stretches the clock,
    exactly this on the wire when it reports all of them done: for each a start condition,
    the address with its direction bit, and the bytes, most significant bit first, with
    SDA released for every answer of the device and our own acknowledge after every byte
    read but the last; then one stop condition.  A byte read is made of the levels sampled
    while SCL is high.  When it reports an error the bus is still released by a stop
    condition, and afterwards both lines are high. *)
Theorem rt_i2c_transfer_spec msgs t :
  Forall plain_msg msgs -> msgs ≠ [] -> line_of t = idle_line ->
  wp (rt_i2c_transfer env delay_us timeout get_scl 0 fuel msgs) (fun '(r, bufs) t' =>
    line_of t' = idle_line /\ exists body, wire t' = wire t ++ body ++ [Stop] /\
      (r < 0 \/ r = Z.of_nat (length msgs) /\ body = concat (msg_sent <$> msgs) /\
                Forall2 msg_done msgs bufs)) t.
Proof. apply wp_rt_i2c_transfer. Qed.
End laws.

(** ** A concrete instance: a device that answers every address and sends zeros *)

Definition low_env : list pin_io -> pin_io -> Z := fun _ c => match c with GET_SCL => 1 | _ => 0 end.

Theorem rt_i2c_transfer_spec_witness :
  let msgs := [mkI2cMsg 0x76 RT_I2C_WR 1 [0xf7]; mkI2cMsg 0x76 RT_I2C_RD 2 [9; 9]] in
  wp (rt_i2c_transfer low_env 1 100 true 0 1 msgs) (fun '(r, bufs) t' =>
    line_of t' = idle_line /\ exists body, wire t' = wire [] ++ body ++ [Stop] /\
      (r < 0 \/ r = 2 /\ body = concat (msg_sent <$> msgs) /\ Forall2 (msg_done low_env) msgs bufs)) [].
Proof.
  apply (rt_i2c_transfer_spec low_env 1 100 true 1 ltac:(done) ltac:(lia)); [|done|done].
  constructor; [|constructor; [|constructor]]; split; cbn; auto; lia.
Defined.
