(* ===== verification/SoftI2c.v ===== *)
(** * Software I2C

    drivers/drv_soft_i2c.c: the two lines of the I2C bus as pins of the ports, and the delay by the
    system timer.  The bit operations of I2c run on the pins of Pin: what is on the registers
    follows the levels that I2c computes, so its theorem on transfers is one on the chip. *)

From S2P Require Import Prelude Kernel Io I2c Gpio Pin.

#[local] Open Scope Z_scope.

(** ** The definitions *)

Definition PIN_HIGH : Z := 0x01.

(** struct stm32_soft_i2c_config; the numbers of the pins have 8 bits. *)
Record stm32_soft_i2c_config := mkSoftI2c { scl : Z; sda : Z; bus_name : list Z }.
Definition BSP_I2C1_SCL_PIN : Z := GET_PIN GPIOB 8.
Definition BSP_I2C1_SDA_PIN : Z := GET_PIN GPIOB 9.
(** "i2c1" *)
Definition I2C1_BUS_CONFIG : stm32_soft_i2c_config := mkSoftI2c (u8 BSP_I2C1_SCL_PIN) (u8 BSP_I2C1_SDA_PIN) [105; 50; 99; 49].
Definition soft_i2c_config : list stm32_soft_i2c_config := [I2C1_BUS_CONFIG].

Section soft_i2c.
(** [W] is the rest of the world; SysTick->VAL is read from it, SysTick->LOAD does not change. *)
Context {W : Type} `{!chip_writes} (SysTick_VAL : M W Z) (SysTick_LOAD : Z).

Abbreviation HW := (M (hw_pin (pin_state * W))).
Definition world {A} (m : M W A) : HW A := Pin.board (Pin.app m).

Definition stm32_i2c_gpio_init (cfg : stm32_soft_i2c_config) : HW unit :=
  rt_pin_mode (scl cfg) PIN_MODE_OUTPUT_OD ;;
  rt_pin_mode (sda cfg) PIN_MODE_OUTPUT_OD ;;
  rt_pin_write (scl cfg) PIN_HIGH ;;
  rt_pin_write (sda cfg) PIN_HIGH.

Definition stm32_set_sda (cfg : stm32_soft_i2c_config) (state : Z) : HW unit :=
  if negb (state =? 0) then rt_pin_write (sda cfg) PIN_HIGH else rt_pin_write (sda cfg) PIN_LOW.
Definition stm32_set_scl (cfg : stm32_soft_i2c_config) (state : Z) : HW unit :=
  if negb (state =? 0) then rt_pin_write (scl cfg) PIN_HIGH else rt_pin_write (scl cfg) PIN_LOW.
Definition stm32_get_sda (cfg : stm32_soft_i2c_config) : HW Z := rt_pin_read (sda cfg).
Definition stm32_get_scl (cfg : stm32_soft_i2c_config) : HW Z := rt_pin_read (scl cfg).

(** The counter counts down and starts again from [reload]. *)
Fixpoint udelay_loop (fuel : nat) (reload ticks told tcnt : Z) : M W unit :=
  match fuel with
  | O => fault
  | S fuel =>
      tnow ← SysTick_VAL;
      if negb (tnow =? told) then
        let tcnt := if tnow <? told then u32 (tcnt + u32 (told - tnow)) else u32 (tcnt + u32 (u32 (reload - tnow) + told)) in
        if ticks <=? tcnt then mret tt else udelay_loop fuel reload ticks tnow tcnt
      else udelay_loop fuel reload ticks told tcnt
  end.
Definition stm32_udelay (fuel : nat) (us : Z) : M W unit :=
  let reload := SysTick_LOAD in
  let ticks := u32 (us * reload) / (1000000 / RT_TICK_PER_SECOND) in
  told ← SysTick_VAL;
  udelay_loop fuel reload ticks told 0.

(** [n] pulses of the clock. *)
Fixpoint unlock_loop (fuel : nat) (n : nat) (cfg : stm32_soft_i2c_config) : HW unit :=
  match n with
  | O => mret tt
  | S n =>
      rt_pin_write (scl cfg) PIN_HIGH ;; world (stm32_udelay fuel 100) ;;
      rt_pin_write (scl cfg) PIN_LOW ;; world (stm32_udelay fuel 100) ;;
      unlock_loop fuel n cfg
  end.
Definition stm32_i2c_bus_unlock (fuel : nat) (cfg : stm32_soft_i2c_config) : HW Z :=
  v ← rt_pin_read (sda cfg);
  when (v =? PIN_LOW) (unlock_loop fuel 9 cfg) ;;
  v ← rt_pin_read (sda cfg);
  if v =? PIN_LOW then mret (- RT_ERROR) else mret RT_EOK.

(** ** The delay *)

(** What is known of the counter: the cycles counted, of which it shows the rest; a read takes at
    least one and less than a period. *)
Record counts (cycles : W -> Z) : Prop := {
  counts_read w : wp SysTick_VAL (fun v w' => v = SysTick_LOAD - cycles w' mod (SysTick_LOAD + 1) /\
    cycles w < cycles w' <= cycles w + SysTick_LOAD) w;
  counts_load : 0 < SysTick_LOAD < 2 ^ 24
}.
Context (cycles : W -> Z) (ticking : counts cycles).
Definition shown (c : Z) : Z := SysTick_LOAD - c mod (SysTick_LOAD + 1).

(** What a read adds to the count: the cycles passed, or one less when the counter has started again. *)
Lemma shown_next c c' : c < c' <= c + SysTick_LOAD -> 0 < SysTick_LOAD ->
  (0 <= shown c <= SysTick_LOAD) /\
  ((shown c' < shown c /\ shown c - shown c' = c' - c) \/
   (shown c < shown c' /\ SysTick_LOAD - shown c' + shown c = c' - c - 1 /\ (c' - c = 1 -> shown c' = SysTick_LOAD /\ shown c = 0))).
Proof.
  intros Hc HL. unfold shown. set (L := SysTick_LOAD) in *. pose proof (Z.mod_pos_bound c (L + 1) ltac:(lia)). pose proof (Z.mod_pos_bound c' (L + 1) ltac:(lia)).
  pose proof (Z.div_mod c (L + 1) ltac:(lia)) as Ec. pose proof (Z.div_mod c' (L + 1) ltac:(lia)) as Ec'. split; [lia|].
  assert (Hq : c' / (L + 1) = c / (L + 1) \/ c' / (L + 1) = c / (L + 1) + 1) by nia.
  destruct Hq as [Hq|Hq]; rewrite Hq in Ec'; [left|right]; nia.
Qed.

Lemma wp_udelay_loop ticks c0 : 0 <= ticks < 2 ^ 30 -> forall fuel c tcnt (Q : unit -> W -> Prop) w, c = cycles w ->
  0 <= tcnt -> tcnt <= ticks -> tcnt <= c - c0 -> 2 * (ticks - tcnt) + (if shown c =? SysTick_LOAD then 0 else 1) < Z.of_nat fuel ->
  (forall w', c0 + ticks <= cycles w' -> cycles w < cycles w' -> Q tt w') -> wp (udelay_loop fuel SysTick_LOAD ticks (shown c) tcnt) Q w.
Proof.
  intros Ht. destruct ticking as [Hread HL]. induction fuel as [|fuel IH]; intros c tcnt Q w -> H0 Hle Hc Hf HQ; [destruct (_ =? _); lia|].
  cbn [udelay_loop]. wp_step. eapply wp_mono; [|apply Hread]. intros v w1 [Ev Hw]. fold (shown (cycles w1)) in Ev. subst v.
  destruct (shown_next (cycles w) (cycles w1) ltac:(lia) ltac:(lia)) as (Hs & Hcase).
  destruct (shown_next (cycles w1) (cycles w1 + 1) ltac:(lia) ltac:(lia)) as (Hs1 & _).
  rewrite (proj2 (Z.eqb_neq (shown (cycles w1)) (shown (cycles w)))) by lia. cbn [negb]. cbn zeta.
  assert (Hstep : forall n, 0 <= n <= cycles w1 - cycles w -> n <= SysTick_LOAD ->
    (1 <= n \/ shown (cycles w1) = SysTick_LOAD /\ shown (cycles w) ≠ SysTick_LOAD) ->
    wp (if ticks <=? tcnt + n then mret tt else udelay_loop fuel SysTick_LOAD ticks (shown (cycles w1)) (tcnt + n)) Q w1).
  { intros n Hn HnL Hprog. destruct (Z.leb_spec ticks (tcnt + n)) as [Hge|Hlt]; [wp_step; apply HQ; lia|].
    apply (IH (cycles w1)); try lia.
    - clear HQ. repeat case_match; lia.
    - intros w' H1 H2. apply HQ; lia. }
  destruct Hcase as [[H1 H2]|(H1 & H2 & H3)].
  - rewrite (proj2 (Z.ltb_lt _ _)) by done. rewrite (wrap_small 32 (shown (cycles w) - _)), wrap_small by lia. apply Hstep; lia.
  - rewrite (proj2 (Z.ltb_ge _ _)) by lia. rewrite (wrap_small 32 (SysTick_LOAD - _)), (wrap_small 32 (_ + shown (cycles w))), wrap_small by lia.
    apply Hstep; lia.
Qed.

(** The ticks to wait for. *)
Definition udelay_ticks (us : Z) : Z := u32 (us * SysTick_LOAD) / 1000.
Lemma udelay_ticks_range us : 0 <= udelay_ticks us < 2 ^ 30.
Proof.
  unfold udelay_ticks. pose proof (wrap_range 32 (us * SysTick_LOAD) ltac:(lia)). split; [apply Z.div_pos; lia|]. apply Z.div_lt_upper_bound; lia.
Qed.
Lemma wp_stm32_udelay fuel us (Q : unit -> W -> Prop) w : 2 * udelay_ticks us + 1 < Z.of_nat fuel ->
  (forall w', cycles w + udelay_ticks us <= cycles w' -> Q tt w') -> wp (stm32_udelay fuel us) Q w.
Proof.
  intros Hf HQ. destruct ticking as [Hread HL]. unfold stm32_udelay. wp_step. eapply wp_mono; [|apply Hread]. intros v w1 [Ev Hw].
  change (1000000 / RT_TICK_PER_SECOND) with 1000. fold (udelay_ticks us). fold (shown (cycles w1)) in Ev. subst v.
  pose proof (udelay_ticks_range us) as Ht.
  apply (wp_udelay_loop (udelay_ticks us) (cycles w1) Ht fuel (cycles w1)); try lia.
  - destruct (_ =? _); lia.
  - intros w' H1 H2. apply HQ. lia.
Qed.

(** The delay ends, and is not shorter than asked for, counting 1000 microseconds as SysTick->LOAD
    cycles; its argument may be as large as the product of the two has 32 bits. *)
Theorem udelay_spec fuel us w : 0 <= us -> us * SysTick_LOAD < 2 ^ 32 -> 2 * (us * SysTick_LOAD / 1000) + 1 < Z.of_nat fuel ->
  wp (stm32_udelay fuel us) (fun _ w' => cycles w + us * SysTick_LOAD / 1000 <= cycles w') w.
Proof.
  intros Hus Hb Hf. destruct ticking as [_ HL]. assert (E : udelay_ticks us = us * SysTick_LOAD / 1000) by (unfold udelay_ticks; by rewrite wrap_small by nia).
  rewrite <- E in *. by apply wp_stm32_udelay.
Qed.

(** ** The levels on the pins *)

(** The output bit of a pin. *)
Definition level (pin : Z) (x : pin_state) : option bool :=
  r ← get_pin pin; p ← c_ports (p_chip x) !! pi_gpio r; Some (negb (Z.land (ODR p) (pi_pin r) =? 0)).

Lemma level_at pin port n x r : get_pin pin = Some (pin_at port n) -> 0 <= n -> c_ports (p_chip x) !! port = Some r -> level pin x = Some (Z.testbit (ODR r) n).
Proof. intros E Hn Er. unfold level. rewrite E. cbn. rewrite Er. cbn. by rewrite land_pow2, negb_involutive. Qed.

Context `{!chip_writes_ok}.

Abbreviation ops := (Some (@_stm32_pin_ops W _)).

Lemma wp_board_soft {A} (m : M (pin_state * W) A) (Q : A -> hw_pin (pin_state * W) -> Prop) o s : wp m (fun a s' => Q a (o, s')) s -> wp (Pin.board m) Q (o, s).
Proof. unfold wp, Pin.board. cbn. by destruct (m s) as [[a s']|]. Qed.
Lemma wp_world {A} (m : M W A) (Q : A -> hw_pin (pin_state * W) -> Prop) o x w : wp m (fun a w' => Q a (o, (x, w'))) w -> wp (world m) Q (o, (x, w)).
Proof. intros Hm. apply wp_board_soft. unfold wp, app in *. cbn. by destruct (m w) as [[a s']|]. Qed.

(** Writing a pin sets its level and no other. *)
Lemma wp_write_level pin v (Q : unit -> hw_pin (pin_state * W) -> Prop) x w : pin_inv x -> is_Some (get_pin pin) ->
  (forall x', pin_inv x' -> level pin x' = Some (negb (v =? 0)) -> (forall q, get_pin q ≠ get_pin pin -> level q x' = level q x) -> Q tt (ops, (x', w))) ->
  wp (rt_pin_write pin v) Q (ops, (x, w)).
Proof.
  intros Hi [r0 Hr0] HQ. unfold rt_pin_write, hw_ops. wp_step. eapply wp_deref; [done|]. cbn [_stm32_pin_ops Pin.pin_write]. apply wp_board_soft.
  apply wp_write; [done|congruence|]. intros port n r Hp Hn Eg Er c Hinv. cbn [fst snd] in *.
  assert (Hbit : forall i, 0 <= i < 16 -> Z.testbit (bsrr_write (ODR r) (if v =? 0 then 2 ^ (n + 16) else 2 ^ n)) i = if decide (i = n) then negb (v =? 0) else Z.testbit (ODR r) i).
  { intros i Hin. rewrite bsrr_bit by done. destruct (v =? 0); rewrite !pow2_testbit by lia; cbn [negb].
    - rewrite bool_decide_eq_false_2 by lia. cbn. destruct (decide (i = n)) as [->|Hne]; [by rewrite bool_decide_eq_true_2, andb_false_r by lia|].
      by rewrite bool_decide_eq_false_2, andb_true_r by lia.
    - destruct (decide (i = n)) as [->|Hne]; [by rewrite bool_decide_eq_true_2 by lia|].
      rewrite bool_decide_eq_false_2 by lia. cbn. by rewrite bool_decide_eq_false_2, andb_true_r by lia. }
  assert (Hlen : (port < length (c_ports (p_chip x)))%nat) by (rewrite (co_ports _ (pv_chip _ Hinv)) || rewrite (co_ports _ (pv_chip _ Hi)); lia).
  apply HQ; [done| |].
  - erewrite (level_at pin port n); [|done|lia|cbn; by rewrite list_lookup_insert_eq]. cbn [ODR set_ODR]. by rewrite Hbit, decide_True by lia.
  - intros q Hq. destruct (get_pin q) as [rq|] eqn:Eq; [|unfold level; by rewrite Eq].
    destruct (get_pin_spec _ _ Eq) as (pq & nq & Hpq & Hnq & -> & _ & _). destruct (decide (pq = port)) as [->|Hpp].
    + assert (nq ≠ n) by congruence. rewrite (level_at q port nq x r) by (done || lia).
      erewrite (level_at q port nq); [|done|lia|cbn; by rewrite list_lookup_insert_eq]. cbn [ODR set_ODR]. by rewrite Hbit, decide_False by done.
    + unfold level. rewrite Eq. cbn. by rewrite list_lookup_insert_ne by done.
Qed.

(** Setting the mode of a pin does not change a level. *)
Lemma wp_mode_level pin mode (Q : unit -> hw_pin (pin_state * W) -> Prop) x w : pin_inv x ->
  (forall x', pin_inv x' -> (forall q, level q x' = level q x) ->
     (forall port n, get_pin pin = Some (pin_at port n) -> 0 <= n < 16 ->
        changes port (at_pin n (cfg_init (init_of n (mode_and_pull mode).1 (mode_and_pull mode).2))) same (p_chip x) (p_chip x')) -> Q tt (ops, (x', w))) ->
  wp (rt_pin_mode pin mode) Q (ops, (x, w)).
Proof.
  intros Hi HQ. unfold rt_pin_mode, hw_ops. wp_step. eapply wp_deref; [done|]. cbn [_stm32_pin_ops Pin.pin_mode]. apply wp_board_soft.
  apply wp_mode; [done| |].
  - intros E. apply HQ; [done|done|]. intros port n E'. congruence.
  - intros port n c Hp Hn Eg Hch Hinv. cbn [fst snd] in *. apply HQ; [done| |].
    + intros q. unfold level. destruct (get_pin q) as [r|] eqn:Eq; [|done]. cbn. destruct (get_pin_spec _ _ Eq) as (pq & nq & Hpq & _ & -> & _ & _). cbn.
      destruct (lookup_lt_is_Some_2 (c_ports (p_chip x)) pq) as [r Hr]; [rewrite (co_ports _ (pv_chip _ Hi)); lia|].
      destruct (ch_cfg _ _ _ _ _ Hch pq r Hr) as (r' & Hr' & _ & EO & _). rewrite Hr, Hr'. cbn. by rewrite EO.
    + intros port' n' Eg' Hn'. rewrite Eg in Eg'. injection Eg' as E1 E2 E3. assert (port' = port) as -> by done. assert (n' = n) as -> by lia. done.
Qed.

(** ** The bus on the pins *)

Context (cfg : stm32_soft_i2c_config).
(** The two lines are two pins of the board. *)
Context (scl_pin : is_Some (get_pin (scl cfg))) (sda_pin : is_Some (get_pin (sda cfg))) (two_pins : get_pin (scl cfg) ≠ get_pin (sda cfg)).
(** What the pins of a port are seen to be, with everything that is on the wires; and what the
    kernel does for the driver: the tick, the delay of a thread, the lock of the bus. *)
Context (inputs : pin_state -> W -> nat -> Z) (kernel : pin_io -> M W Z) (kernel_runs : forall c w, is_Some (kernel c w)).
(** Nobody stretches the clock. *)
Context (scl_released : forall port n x w, get_pin (scl cfg) = Some (pin_at port n) -> level (scl cfg) x = Some true -> Z.testbit (inputs x w port) n = true).

Definition set_IDR (v : Z) (r : gpio_regs) : gpio_regs := mkPort (MODER r) (OTYPER r) (OSPEEDR r) (PUPDR r) v (ODR r) (AFR r).
Definition seen (x : pin_state) (w : W) : pin_state := set_chip (set_ports (imap (fun q => set_IDR (inputs x w q))) (p_chip x)) x.
Definition settle : HW unit := modify (fun s => (s.1, (seen s.2.1 s.2.2, s.2.2))).

Definition delay_fuel (us : Z) : nat := Z.to_nat (2 * udelay_ticks us + 2).

(** The bit operations of I2c, [stm32_bit_ops_default]. *)
Definition port_io (c : pin_io) : HW Z :=
  match c with
  | SET_SDA v => stm32_set_sda cfg v ;; mret 0
  | SET_SCL v => stm32_set_scl cfg v ;; mret 0
  | GET_SDA => settle ;; stm32_get_sda cfg
  | GET_SCL => settle ;; stm32_get_scl cfg
  | UDelay us => world (stm32_udelay (delay_fuel us) us) ;; mret 0
  | TickGet | ThreadDelay _ | LockTake | LockRelease => world (kernel c)
  end.
Fixpoint replay (tr : list pin_io) : HW unit :=
  match tr with [] => mret tt | c :: tr => _ ← port_io c; replay tr end.

(** The pins as the environment of I2c: what an operation answers after those before it. *)
Definition port_env (s0 : hw_pin (pin_state * W)) (tr : list pin_io) (c : pin_io) : Z :=
  match (replay tr ;; port_io c) s0 with Some (v, _) => v | None => 0 end.

(** The pins have the levels of [l], and the others those of [x0]. *)
Record on_pins (x0 : pin_state) (l : I2c.line) (x : pin_state) : Prop := {
  op_inv : pin_inv x;
  op_sda : level (sda cfg) x = Some (ln_sda l);
  op_scl : level (scl cfg) x = Some (ln_scl l);
  op_rest : forall q, get_pin q ≠ get_pin (scl cfg) -> get_pin q ≠ get_pin (sda cfg) -> level q x = level q x0
}.
Definition soft_at (x0 : pin_state) (l : I2c.line) (s : hw_pin (pin_state * W)) : Prop := exists x w, s = (ops, (x, w)) /\ on_pins x0 l x.

Lemma seen_level q x w : level q (seen x w) = level q x.
Proof. unfold level. destruct (get_pin q) as [r|]; [|done]. cbn. rewrite list_lookup_imap. by destruct (c_ports (p_chip x) !! pi_gpio r). Qed.
Lemma seen_inv x w : pin_inv x -> pin_inv (seen x w).
Proof.
  intros Hi. apply inv_chip; [done| |done|done]. destruct (pv_chip _ Hi) as [C1 C2 C3]. split; cbn; [by rewrite length_imap| |done].
  intros q r Hr. rewrite list_lookup_imap in Hr. destruct (c_ports (p_chip x) !! q) as [r0|] eqn:E; [|done]. injection Hr as <-. exact (C2 q r0 E).
Qed.
Lemma on_pins_seen x0 l x w : on_pins x0 l x -> on_pins x0 l (seen x w).
Proof. intros [H1 H2 H3 H4]. split; [by apply seen_inv|by rewrite seen_level|by rewrite seen_level|]. intros q. rewrite seen_level. apply H4. Qed.

Lemma wp_read_seen pin (Q : Z -> hw_pin (pin_state * W) -> Prop) x w : pin_inv x -> is_Some (get_pin pin) ->
  (forall port n, get_pin pin = Some (pin_at port n) -> Q (Z.b2z (Z.testbit (inputs x w port) n)) (ops, (seen x w, w))) ->
  wp (settle ;; rt_pin_read pin) Q (ops, (x, w)).
Proof.
  intros Hi [r0 Hr0] HQ. unfold settle, rt_pin_read, hw_ops. wp_step. wp_step. wp_step. eapply wp_deref; [done|]. cbn [_stm32_pin_ops Pin.pin_read fst snd]. apply wp_board_soft.
  apply wp_read; [by apply seen_inv|congruence|]. intros port n r Eg Er. cbn in Er. rewrite list_lookup_imap in Er.
  destruct (c_ports (p_chip x) !! port) as [r1|]; [|done]. injection Er as <-. by apply HQ.
Qed.

(** One operation: the levels follow, and the clock is high when it is released. *)
Lemma wp_set_line x0 l x w (sclline : bool) v (Q : Z -> hw_pin (pin_state * W) -> Prop) : on_pins x0 l x ->
  (forall s', soft_at x0 (line_step (if sclline then SET_SCL v else SET_SDA v) l).2 s' -> Q 0 s') ->
  wp ((if sclline then stm32_set_scl cfg v else stm32_set_sda cfg v) ;; mret 0) Q (ops, (x, w)).
Proof.
  intros [H1 H2 H3 H4] HQ. wp_step. unfold stm32_set_scl, stm32_set_sda. destruct sclline.
  - assert (Hw : forall u, negb (u =? 0) = negb (v =? 0) -> wp (rt_pin_write (scl cfg) u) (fun _ s' => wp (mret 0) Q s') (ops, (x, w))).
    { intros u Eu. apply wp_write_level; [done|done|]. intros x' Hi' E1 E2. wp_step. apply HQ. exists x', w. split; [done|]. cbn [line_step].
      split; [done| | |].
      - rewrite E2 by done. rewrite H2. by destruct (eqb _ _).
      - rewrite E1, Eu. destruct (eqb _ _) eqn:Eb; [|done]. apply eqb_prop in Eb. by rewrite Eb.
      - intros q Hq1 Hq2. rewrite E2 by done. by apply H4. }
    destruct (v =? 0); by apply Hw.
  - assert (Hw : forall u, negb (u =? 0) = negb (v =? 0) -> wp (rt_pin_write (sda cfg) u) (fun _ s' => wp (mret 0) Q s') (ops, (x, w))).
    { intros u Eu. apply wp_write_level; [done|done|]. intros x' Hi' E1 E2. wp_step. apply HQ. exists x', w. split; [done|]. cbn [line_step].
      split; [done| | |].
      - rewrite E1, Eu. destruct (eqb _ _) eqn:Eb; [|done]. apply eqb_prop in Eb. by rewrite Eb.
      - rewrite E2 by done. rewrite H3. by destruct (eqb _ _).
      - intros q Hq1 Hq2. rewrite E2 by done. by apply H4. }
    destruct (v =? 0); by apply Hw.
Qed.
Lemma wp_port_io x0 l c (Q : Z -> hw_pin (pin_state * W) -> Prop) s : soft_at x0 l s ->
  (forall v s', soft_at x0 (line_step c l).2 s' -> (c = GET_SCL -> ln_scl l = true -> v ≠ 0) -> Q v s') -> wp (port_io c) Q s.
Proof.
  intros (x & w & -> & Hp) HQ. pose proof Hp as [H1 H2 H3 H4].
  assert (Hk : forall c', (forall v s', soft_at x0 l s' -> Q v s') -> wp (world (kernel c')) Q (ops, (x, w))).
  { intros c' Hc. apply wp_world. unfold wp. destruct (kernel_runs c' w) as [[v w'] ->]. apply Hc. by exists x, w'. }
  destruct c as [v|v| | |us| |tick| |]; cbn [port_io].
  - apply (wp_set_line x0 l x w false); [done|]. intros s' Hs. by apply HQ.
  - apply (wp_set_line x0 l x w true); [done|]. intros s' Hs. by apply HQ.
  - apply wp_read_seen; [done|done|]. intros port n Eg. apply HQ; [|done]. exists (seen x w), w. split; [done|by apply on_pins_seen].
  - apply wp_read_seen; [done|done|]. intros port n Eg. apply HQ.
    + exists (seen x w), w. split; [done|by apply on_pins_seen].
    + intros _ El. rewrite scl_released; [done|done|]. by rewrite H3, El.
  - wp_step. apply wp_world. apply wp_stm32_udelay; [unfold delay_fuel; pose proof (udelay_ticks_range us); lia|].
    intros w' _. wp_step. apply HQ; [|done]. by exists x, w'.
  - apply Hk. intros v s' Hs. by apply HQ.
  - apply Hk. intros v s' Hs. by apply HQ.
  - apply Hk. intros v s' Hs. by apply HQ.
  - apply Hk. intros v s' Hs. by apply HQ.
Qed.

Lemma wp_replay x0 tr : forall t0 (Q : unit -> hw_pin (pin_state * W) -> Prop) s, soft_at x0 (I2c.line_of t0) s ->
  (forall s', soft_at x0 (I2c.line_of (t0 ++ tr)) s' -> Q tt s') -> wp (replay tr) Q s.
Proof.
  induction tr as [|c tr IH]; intros t0 Q s Hs HQ; cbn [replay].
  - wp_step. apply HQ. by rewrite app_nil_r.
  - wp_step. eapply wp_port_io; [exact Hs|]. intros v s' Hs' _. apply (IH (t0 ++ [c])); [by rewrite line_snoc|].
    intros s2 Hs2. apply HQ. by rewrite <- (assoc_L (++)) in Hs2.
Qed.

Lemma port_env_scl x0 s0 tr : soft_at x0 idle_line s0 -> ln_scl (I2c.line_of tr) = true -> port_env s0 tr GET_SCL ≠ 0.
Proof.
  intros Hs Hl. unfold port_env.
  assert (Hw : wp (replay tr ;; port_io GET_SCL) (fun v _ => v ≠ 0) s0).
  { wp_step. eapply (wp_replay x0 tr []); [exact Hs|]. intros s1 Hs1. eapply wp_port_io; [exact Hs1|]. intros v s2 _ Hv. by apply Hv. }
  apply wp_unfold in Hw as (v & s2 & -> & Hv). done.
Qed.

(** The transfer on the pins: its trace, done on the chip, leaves both lines high. *)
Lemma wp_soft_transfer x0 s0 delay_us timeout fuel msgs : soft_at x0 idle_line s0 -> (0 < fuel)%nat -> Forall plain_msg msgs -> msgs ≠ [] ->
  wp (rt_i2c_transfer (port_env s0) delay_us timeout true 0 fuel msgs) (fun '(r, bufs) tr =>
    wp (replay tr) (fun _ s' => soft_at x0 idle_line s') s0 /\ exists body, wire tr = body ++ [Stop] /\
      (r < 0 \/ r = Z.of_nat (length msgs) /\ body = concat (msg_sent <$> msgs) /\ Forall2 (msg_done (port_env s0)) msgs bufs)) [].
Proof.
  intros Hs Hf Hm Hne.
  eapply wp_mono; [|apply (wp_rt_i2c_transfer (port_env s0) delay_us timeout true fuel)]; try done.
  - intros [r bufs] tr (El & body & Ew & Hb). split.
    + eapply (wp_replay x0 tr []); [exact Hs|]. intros s' Hs'. cbn in Hs'. by rewrite El in Hs'.
    + exists body. by rewrite Ew.
  - intros tr. by apply (port_env_scl x0).
Qed.

(** ** Setting up *)

(** After the set-up the pins are released. *)
Lemma wp_gpio_init (Q : unit -> hw_pin (pin_state * W) -> Prop) x w : pin_inv x ->
  (forall x', on_pins x idle_line x' -> Q tt (ops, (x', w))) -> wp (stm32_i2c_gpio_init cfg) Q (ops, (x, w)).
Proof.
  intros Hi HQ. unfold stm32_i2c_gpio_init. wp_step. apply wp_mode_level; [done|]. intros x1 H1 L1 _. wp_step. apply wp_mode_level; [done|]. intros x2 H2 L2 _.
  wp_step. apply wp_write_level; [done|done|]. intros x3 H3 S3 L3. apply wp_write_level; [done|done|]. intros x4 H4 S4 L4.
  apply HQ. split; [done|done|by rewrite L4 by done|]. intros q Hq1 Hq2. by rewrite L4, L3, L2, L1 by done.
Qed.


(** ** Freeing the bus *)

Lemma wp_unlock_loop fuel n : forall x w x0 l (Q : unit -> hw_pin (pin_state * W) -> Prop), on_pins x0 l x -> 2 * udelay_ticks 100 + 1 < Z.of_nat fuel ->
  (forall s', soft_at x0 (if decide (n = 0%nat) then l else I2c.mkLine (ln_sda l) false false) s' -> Q tt s') -> wp (unlock_loop fuel n cfg) Q (ops, (x, w)).
Proof.
  induction n as [|n IH]; intros x w x0 l Q Hp Hf HQ; cbn [unlock_loop]; [wp_step; apply HQ; by exists x, w|]. destruct Hp as [H1 H2 H3 H4].
  wp_step. apply wp_write_level; [done|done|]. intros x1 I1 S1 L1. wp_step. apply wp_world, wp_stm32_udelay; [done|]. intros w1 _.
  wp_step. apply wp_write_level; [done|done|]. intros x2 I2 S2 L2. wp_step. apply wp_world, wp_stm32_udelay; [done|]. intros w2 _.
  eapply (IH x2 w2 x0 (I2c.mkLine (ln_sda l) false false)); [|done|].
  - split; [done|by rewrite L2, L1 by done|done|]. intros q Hq1 Hq2. rewrite L2, L1 by done. by apply H4.
  - intros s' Hs. apply HQ. cbn [ln_sda] in Hs. by destruct (decide (n = 0%nat)).
Qed.
(** When SDA is read as low the clock is left low: what follows is no start condition, which is
    SDA falling while SCL is high. *)
Lemma unlock_leaves_scl_low fuel x0 x w : on_pins x0 idle_line x -> 2 * udelay_ticks 100 + 1 < Z.of_nat fuel ->
  wp (v ← rt_pin_read (sda cfg); rt_assert (v =? PIN_LOW)) (fun _ _ => True) (ops, (x, w)) ->
  wp (stm32_i2c_bus_unlock fuel cfg) (fun _ s' => soft_at x0 (I2c.mkLine true false false) s') (ops, (x, w)) /\
  (line_step (SET_SDA 0) (I2c.mkLine true false false)).1 = [] /\ (line_step (SET_SDA 0) idle_line).1 = [Start].
Proof.
  intros Hp Hf Hlow. split; [|done]. pose proof Hp as [Hi _ _ _]. unfold stm32_i2c_bus_unlock. wp_step. rewrite wp_bind in Hlow.
  assert (Hread : forall x', pin_inv x' -> forall (Q : Z -> hw_pin (pin_state * W) -> Prop) w', (forall v, Q v (ops, (x', w'))) -> wp (rt_pin_read (sda cfg)) Q (ops, (x', w'))).
  { intros x' Hi' Q w' HQ. unfold rt_pin_read, hw_ops. wp_step. eapply wp_deref; [done|]. cbn [_stm32_pin_ops Pin.pin_read]. apply wp_board_soft.
    apply wp_read; [done|intros _; apply HQ|]. intros port n r _ _. apply HQ. }
  apply wp_unfold in Hlow as (v & s1 & Ev & Hv).
  assert (Es1 : s1 = (ops, (x, w))).
  { pose proof (Hread x Hi (fun _ s' => s' = (ops, (x, w))) w (fun _ => eq_refl)) as Hr. unfold wp in Hr. by rewrite Ev in Hr. }
  subst s1. unfold wp in Hv. unfold rt_assert in Hv. destruct (v =? PIN_LOW) eqn:E; [|done]. unfold wp at 1. rewrite Ev. rewrite E. wp_step. cbn [when].
  apply (wp_unlock_loop fuel 9 x w x0 idle_line); [done|done|]. intros s' (x' & w' & -> & Hp'). cbn [decide] in Hp'. wp_step. apply Hread; [apply (op_inv _ _ _ Hp')|].
  intros v'. apply wp_if; intros _; wp_step; by exists x', w'.
Qed.
End soft_i2c.

(** ** A concrete instance: a device that answers every address, on the pins after reset *)

#[local] Existing Instance sample_writes.
(** The world is a count of cycles; every read of the timer takes seven. *)
Definition sample_load : Z := 479999.
Definition sample_VAL : M Z Z := fun w => Some (sample_load - (w + 7) mod (sample_load + 1), w + 7).
Lemma sample_counts : counts sample_VAL sample_load id.
Proof. split; [|done]. intros w. unfold wp, sample_VAL. unfold sample_load, id. split; [done|lia]. Qed.
Definition sample_kernel (c : pin_io) : M Z Z := mret 0.
(** SCL is high, and the device keeps SDA low. *)
Definition sample_inputs (x : pin_state) (w : Z) (port : nat) : Z := 2 ^ 8.
Definition bus_cfg : stm32_soft_i2c_config := I2C1_BUS_CONFIG.

Lemma udelay_spec_witness : wp (stm32_udelay sample_VAL sample_load 1000 1) (fun _ w' => 10 + 479 <= w') 10.
Proof. apply (udelay_spec sample_VAL sample_load id sample_counts 1000 1 10); [done|done|reflexivity]. Defined.

Lemma bus_pins : get_pin (scl bus_cfg) = Some (pin_at 1 8) /\ get_pin (sda bus_cfg) = Some (pin_at 1 9).
Proof. split; reflexivity. Qed.
Lemma bus_scl : is_Some (get_pin (scl bus_cfg)).
Proof. destruct bus_pins as [-> _]. by eexists. Qed.
Lemma bus_sda : is_Some (get_pin (sda bus_cfg)).
Proof. destruct bus_pins as [_ ->]. by eexists. Qed.
Lemma bus_two : get_pin (scl bus_cfg) ≠ get_pin (sda bus_cfg).
Proof. destruct bus_pins as [-> ->]. discriminate. Qed.
Lemma sample_kernel_runs c w : is_Some (sample_kernel c w).
Proof. by eexists. Qed.
Lemma bus_released port n x w : get_pin (scl bus_cfg) = Some (pin_at port n) -> level (scl bus_cfg) x = Some true -> Z.testbit (sample_inputs x w port) n = true.
Proof.
  destruct bus_pins as [-> _]. intros E _. apply (inj Some) in E. pose proof (f_equal pi_index E) as E1. pose proof (f_equal pi_gpio E) as E2.
  cbn [pi_index pi_gpio pin_at] in E1, E2. subst port. assert (n = 8) as -> by lia. reflexivity.
Qed.

