(* ===== verification/I2cDev.v ===== *)
(** * I2cDev: what a driver of an I2C device relies on

    [I2cBus] is the bus as its clients call it; the bit-banged bus of I2c is an instance.
    [RegDevice] states what the documentation of a register-based device promises of
    transfers to it; a bank of registers is an instance. *)

From Stdlib Require Import FunctionalExtensionality.
From S2P Require Import Prelude Kernel Io I2c.

#[local] Open Scope Z_scope.

(** [rt_i2c_transfer] on a bus with state [W]: the result and the buffers. *)
Class I2cBus (W : Type) := i2c_transfer : list rt_i2c_msg -> M W (Z * list (list Z)).

Definition bitbang_bus (env : list pin_io -> pin_io -> Z) (delay_us timeout : Z) (get_scl : bool)
    (retries : Z) (fuel : nat) : I2cBus (list pin_io) :=
  rt_i2c_transfer env delay_us timeout get_scl retries fuel.

(** The bytes [n] registers from [reg] on hold. *)
Definition read_regs (regs : Z -> Z) (reg : Z) (n : nat) : list Z :=
  (fun i => regs (reg + Z.of_nat i)) <$> seq 0 n.

(** A device at [addr] with registers [regs] of a byte each, of which those in [storage]
    keep what is written to them: writing a register, and reading from a register on with
    the address advancing by itself. *)
Class RegDevice (W : Type) {bus : I2cBus W} (addr : Z) := {
  regs : W -> Z -> Z;
  storage : Z -> bool;
  regs_byte : forall w r, 0 <= regs w r < 256;
  write_reg : forall w reg value, storage reg = true -> 0 <= value < 256 ->
    wp (i2c_transfer [mkI2cMsg addr RT_I2C_WR 2 [reg; value]]) (fun r w' =>
      r = (1, [[reg; value]]) /\ regs w' = <[reg := value]> (regs w)) w;
  read_reg : forall w reg n buf, (0 < n)%nat -> length buf = n ->
    wp (i2c_transfer [mkI2cMsg addr RT_I2C_WR 1 [reg]; mkI2cMsg addr RT_I2C_RD (Z.of_nat n) buf])
      (fun r w' => r = (2, [[reg]; read_regs (regs w) reg n]) /\ regs w' = regs w) w
}.

(** A bus on which every transfer fails, with [ret], before it stores a byte. *)
Definition dead_bus (W : Type) (ret : Z) : I2cBus W := fun msgs w => Some ((ret, i2c_buf <$> msgs), w).

(** *** A bank of registers *)

Definition bank : Type := Z -> { b : Z | bool_decide (0 <= b < 256) }.
Definition byte0 (x : Z) : { b : Z | bool_decide (0 <= b < 256) } :=
  exist _ (u8 x) (bool_decide_pack _ (byte_of_range 0 x)).

Definition bank_transfer : I2cBus bank := fun msgs w =>
  match msgs with
  | [mkI2cMsg _ _ _ [reg; value] as m] =>
      Some ((1, [[reg; value]]), fun r => if r =? reg then byte0 value else w r)
  | [mkI2cMsg _ _ _ [reg]; mkI2cMsg _ _ n _] =>
      Some ((2, [[reg]; read_regs (fun r => proj1_sig (w r)) reg (Z.to_nat n)]), w)
  | _ => Some ((0, i2c_buf <$> msgs), w)
  end.

#[global] Program Instance bank_device addr : RegDevice (bus := bank_transfer) bank addr := {
  regs w r := proj1_sig (w r);
  storage _ := true
}.
Next Obligation. intros _ w r. exact (bool_decide_unpack _ (proj2_sig (w r))). Qed.
Next Obligation.
  intros addr w reg value _ Hv. split; [done|]. apply functional_extensionality. intros r.
  unfold insert, fn_insert. destruct (Z.eqb_spec r reg) as [->|].
  - rewrite decide_True by done. cbn. by apply (wrap_small 8).
  - by rewrite decide_False by congruence.
Qed.
Next Obligation.
  intros addr w reg n buf Hn Hl. split; [|done]. cbn. by rewrite Nat2Z.id.
Qed.
