(* ===== verification/Bmp280.v ===== *)
(** * Bmp280: the pressure sensor driver, peripherals/BMP280.c

    Register access over an I2C bus ([I2cBus] of I2cDev), the configuration fields, the raw
    readings and the calibration block.  The compensation formulas use binary32
    arithmetic and are not part of the model. *)

From S2P Require Import Prelude Kernel Io I2c I2cDev.

#[local] Open Scope Z_scope.

(** ** Definitions *)

Definition BMP280_REG_CALIB00 : Z := 0x88.
Definition BMP280_REG_ID : Z := 0xD0.
Definition BMP280_REG_RESET : Z := 0xE0.
Definition BMP280_REG_STATUS : Z := 0xF3.
Definition BMP280_REG_CTRL_MEAS : Z := 0xF4.
Definition BMP280_REG_CONFIG : Z := 0xF5.
Definition BMP280_REG_PRESS_MSB : Z := 0xF7.
Definition BMP280_REG_TEMP_MSB : Z := 0xFA.

Definition BMP280_STATUS_MSK : Z := 0x09.
Definition BMP280_OSRS_T_MSK : Z := 0xE0.
Definition BMP280_OSRS_P_MSK : Z := 0x1C.
Definition BMP280_MODE_MSK : Z := 0x03.
Definition BMP280_STBY_MSK : Z := 0xE0.
Definition BMP280_FILTER_MSK : Z := 0x1C.
Definition BMP280_SOFT_RESET_KEY : Z := 0xB6.

Definition BMP280_ADDR : Z := 0x76.
Definition BMP280_NO_TEMPERATURE : Z := 0x80000.
Definition BMP280_NO_PRESSURE : Z := 0x80000.
Definition BMP280_ERROR : Z := 0.
Definition BMP280_SUCCESS : Z := 1.

(** struct BMP280_cal_param_t *)
Record BMP280_cal_param_t := mkCal {
  dig_T1 : Z; dig_T2 : Z; dig_T3 : Z; dig_P1 : Z; dig_P2 : Z; dig_P3 : Z;
  dig_P4 : Z; dig_P5 : Z; dig_P6 : Z; dig_P7 : Z; dig_P8 : Z; dig_P9 : Z
}.

(** The structure as the bytes of little-endian memory. *)
Definition cal_of_bytes (l : list Z) : BMP280_cal_param_t :=
  let w i := word_of [l !!! (2 * i)%nat; l !!! (2 * i + 1)%nat] in
  mkCal (w 0%nat) (i16 (w 1%nat)) (i16 (w 2%nat)) (w 3%nat) (i16 (w 4%nat)) (i16 (w 5%nat))
    (i16 (w 6%nat)) (i16 (w 7%nat)) (i16 (w 8%nat)) (i16 (w 9%nat)) (i16 (w 10%nat)) (i16 (w 11%nat)).

Section bmp280.
Context {W : Type} {bus : I2cBus W}.

(** The results: [BMP280_RESULT] and whether [i2c_device] was set. *)
Definition BMP280_init (found : bool) : Z := if found then BMP280_SUCCESS else BMP280_ERROR.

Definition __reg_write (reg value : Z) : M W unit :=
  i2c_transfer [mkI2cMsg BMP280_ADDR RT_I2C_WR 2 [reg; value]] ;; mret tt.

(** The buffer of the second message; [old] is what was in it. *)
Definition second (bufs : list (list Z)) (old : list Z) : list Z := default old (bufs !! 1%nat).

Definition __reg_read (reg : Z) : M W Z :=
  '(_, bufs) ← i2c_transfer [mkI2cMsg BMP280_ADDR RT_I2C_WR 1 [reg]; mkI2cMsg BMP280_ADDR RT_I2C_RD 1 [0]];
  mret (default 0 (head (second bufs [0]))).

(** The results: [BMP280_RESULT] and the buffer. *)
Definition __reg_read_bulk (reg : Z) (buf : list Z) (count : Z) : M W (Z * list Z) :=
  '(r, bufs) ← i2c_transfer [mkI2cMsg BMP280_ADDR RT_I2C_WR 1 [reg];
                              mkI2cMsg BMP280_ADDR RT_I2C_RD count buf];
  mret (if r =? 2 then BMP280_SUCCESS else BMP280_ERROR, second bufs buf).

Definition BMP280_GetVersion : M W Z := __reg_read BMP280_REG_ID.

Definition BMP280_Check : M W Z :=
  BMP280_GetVersion ;;
  v ← BMP280_GetVersion;
  mret (if (v =? 0x56) || (v =? 0x57) || (v =? 0x58) then BMP280_SUCCESS else BMP280_ERROR).

Definition BMP280_Reset : M W unit := __reg_write BMP280_REG_RESET BMP280_SOFT_RESET_KEY.
Definition BMP280_GetStatus : M W Z :=
  v ← __reg_read BMP280_REG_STATUS; mret (Z.land v BMP280_STATUS_MSK).
Definition BMP280_GetMode : M W Z :=
  v ← __reg_read BMP280_REG_CTRL_MEAS; mret (Z.land v BMP280_MODE_MSK).

Definition BMP280_SetMode (mode : Z) : M W unit :=
  let mode := Z.land mode BMP280_MODE_MSK in
  v ← __reg_read BMP280_REG_CTRL_MEAS;
  let reg := u8 (Z.land v (Z.lnot BMP280_MODE_MSK)) in
  __reg_write BMP280_REG_CTRL_MEAS (Z.lor reg mode).
Definition BMP280_SetFilter (filter : Z) : M W unit :=
  let filter := Z.land filter BMP280_FILTER_MSK in
  v ← __reg_read BMP280_REG_CONFIG;
  let reg := u8 (Z.land v (Z.lnot BMP280_FILTER_MSK)) in
  __reg_write BMP280_REG_CONFIG (Z.lor reg filter).
Definition BMP280_SetStandby (tsb : Z) : M W unit :=
  let tsb := Z.land tsb BMP280_STBY_MSK in
  v ← __reg_read BMP280_REG_CONFIG;
  let reg := u8 (Z.land v (Z.lnot BMP280_STBY_MSK)) in
  __reg_write BMP280_REG_CONFIG (Z.lor reg tsb).
Definition BMP280_SetOSRST (osrs : Z) : M W unit :=
  let osrs := Z.land osrs BMP280_OSRS_T_MSK in
  v ← __reg_read BMP280_REG_CTRL_MEAS;
  let reg := u8 (Z.land v (Z.lnot BMP280_OSRS_T_MSK)) in
  __reg_write BMP280_REG_CTRL_MEAS (Z.lor reg osrs).
Definition BMP280_SetOSRSP (osrs : Z) : M W unit :=
  let osrs := Z.land osrs BMP280_OSRS_P_MSK in
  v ← __reg_read BMP280_REG_CTRL_MEAS;
  let reg := u8 (Z.land v (Z.lnot BMP280_OSRS_P_MSK)) in
  __reg_write BMP280_REG_CTRL_MEAS (Z.lor reg osrs).

(** [cal_bytes] is the memory of [cal_param], of [sizeof (cal_param)] = 24 bytes. *)
Definition BMP280_Read_Calibration (cal_bytes : list Z) : M W (Z * list Z) :=
  __reg_read_bulk BMP280_REG_CALIB00 cal_bytes 24.

(** The 20-bit reading in three bytes of the buffer. *)
Definition reading (buf : list Z) (i : nat) : Z :=
  Z.lor (Z.lor (Z.shiftl (buf !!! i) 12) (Z.shiftl (buf !!! S i) 4)) (Z.shiftr (buf !!! S (S i)) 4).

(** [buf] is what the uninitialised buffer holds; the results are [BMP280_RESULT] and the
    value stored. *)
Definition BMP280_Read_UT (buf : list Z) : M W (Z * Z) :=
  '(r, buf) ← __reg_read_bulk BMP280_REG_TEMP_MSB buf 3;
  if r =? BMP280_SUCCESS then mret (BMP280_SUCCESS, reading buf 0)
  else mret (BMP280_ERROR, BMP280_NO_TEMPERATURE).
Definition BMP280_Read_UP (buf : list Z) : M W (Z * Z) :=
  '(r, buf) ← __reg_read_bulk BMP280_REG_PRESS_MSB buf 3;
  if r =? BMP280_SUCCESS then mret (BMP280_SUCCESS, reading buf 0)
  else mret (BMP280_ERROR, BMP280_NO_PRESSURE).
Definition BMP280_Read_UTP (buf : list Z) : M W (Z * (Z * Z)) :=
  '(r, buf) ← __reg_read_bulk BMP280_REG_PRESS_MSB buf 8;
  if r =? BMP280_SUCCESS then mret (BMP280_SUCCESS, (reading buf 3, reading buf 0))
  else mret (BMP280_ERROR, (BMP280_NO_TEMPERATURE, BMP280_NO_PRESSURE)).

End bmp280.

(** ** Properties, for a register device on the bus *)

Section laws.
Context {W : Type} {bus : I2cBus W} {device : RegDevice W BMP280_ADDR}.

Lemma wp_reg_read reg (Q : Z -> W -> Prop) w :
  (forall w', regs w' = regs w -> Q (regs w reg) w') -> wp (__reg_read reg) Q w.
Proof.
  intros HQ. unfold __reg_read. rewrite wp_bind. eapply wp_mono, (read_reg w reg 1 [0]); [|lia|done].
  intros r w' [-> E]. rewrite wp_ret. cbn. rewrite Z.add_0_r. by apply HQ.
Qed.

Lemma wp_reg_write reg value (Q : unit -> W -> Prop) w :
  storage reg = true -> 0 <= value < 256 ->
  (forall w', regs w' = <[reg := value]> (regs w) -> Q tt w') -> wp (__reg_write reg value) Q w.
Proof.
  intros Hs Hv HQ. unfold __reg_write. rewrite wp_bind. eapply wp_mono, write_reg; [|done|done].
  intros r w' [_ E]. rewrite wp_ret. by apply HQ.
Qed.

Lemma wp_reg_read_bulk reg buf count (Q : Z * list Z -> W -> Prop) w :
  0 < count -> Z.of_nat (length buf) = count ->
  (forall w', regs w' = regs w -> Q (BMP280_SUCCESS, read_regs (regs w) reg (length buf)) w') ->
  wp (__reg_read_bulk reg buf count) Q w.
Proof.
  intros Hc <- HQ. unfold __reg_read_bulk. rewrite wp_bind.
  eapply wp_mono, (read_reg w reg (length buf) buf); [|lia|done].
  intros r w' [-> E]. rewrite wp_ret. by apply HQ.
Qed.

(** A field of a register, after it was set. *)
Definition field_set (old mask v : Z) : Z := Z.lor (u8 (Z.land old (Z.lnot mask))) (Z.land v mask).

Lemma field_set_bits old mask v i :
  0 <= old < 256 -> 0 <= mask < 256 -> 0 <= i ->
  Z.testbit (field_set old mask v) i = if Z.testbit mask i then Z.testbit v i else Z.testbit old i.
Proof.
  intros Ho Hm Hi. unfold field_set. rewrite (wrap_small 8).
  2: { change (2 ^ 8) with 256. pose proof (land_bound 8 old (Z.lnot mask) ltac:(lia) Ho). done. }
  rewrite Z.lor_spec, !Z.land_spec, Z.lnot_spec by done.
  destruct (Z.testbit mask i), (Z.testbit old i), (Z.testbit v i); done.
Qed.

Lemma field_set_range old mask v : 0 <= mask < 256 -> 0 <= field_set old mask v < 256.
Proof.
  intros Hm. apply (lor_bound 8); [lia|apply (wrap_range 8); lia|].
  rewrite Z.land_comm. by apply (land_bound 8).
Qed.

Lemma field_set_read old mask v :
  0 <= old < 256 -> 0 <= mask < 256 -> Z.land (field_set old mask v) mask = Z.land v mask.
Proof.
  intros Ho Hm. apply Z.bits_inj'. intros i Hi. rewrite !Z.land_spec, field_set_bits by done.
  by destruct (Z.testbit mask i); rewrite ?andb_false_r.
Qed.

Inductive setter := SSetMode | SSetFilter | SSetStandby | SSetOSRST | SSetOSRSP.
Definition run_setter (x : setter) : Z -> M W unit :=
  match x with
  | SSetMode => BMP280_SetMode | SSetFilter => BMP280_SetFilter | SSetStandby => BMP280_SetStandby
  | SSetOSRST => BMP280_SetOSRST | SSetOSRSP => BMP280_SetOSRSP
  end.
(** The register and the mask of the field, as in the data sheet. *)
Definition field (x : setter) : Z * Z :=
  match x with
  | SSetMode => (0xF4, 0x03) | SSetFilter => (0xF5, 0x1C) | SSetStandby => (0xF5, 0xE0)
  | SSetOSRST => (0xF4, 0xE0) | SSetOSRSP => (0xF4, 0x1C)
  end.

Lemma wp_setter x v (Q : unit -> W -> Prop) w :
  storage (field x).1 = true ->
  (forall w', regs w' = <[(field x).1 := field_set (regs w (field x).1) (field x).2 v]> (regs w) -> Q tt w') ->
  wp (run_setter x v) Q w.
Proof.
  intros Hs HQ.
  assert (H : wp (r ← __reg_read (field x).1;
      __reg_write (field x).1 (Z.lor (u8 (Z.land r (Z.lnot (field x).2))) (Z.land v (field x).2))) Q w).
  { rewrite wp_bind. apply wp_reg_read. intros w1 E1. apply wp_reg_write; [done|destruct x; by apply field_set_range|].
    intros w2 E2. apply HQ. by rewrite E2, E1. }
  by destruct x.
Qed.

(** Setting a configuration field changes exactly the bits of that field: the field
    reads back as set, the other bits of its register and every other register keep
    their values. *)
Theorem setter_spec x v w :
  storage (field x).1 = true ->
  wp (run_setter x v) (fun _ w' =>
    Z.land (regs w' (field x).1) (field x).2 = Z.land v (field x).2 /\
    (forall i, 0 <= i -> Z.testbit (field x).2 i = false ->
       Z.testbit (regs w' (field x).1) i = Z.testbit (regs w (field x).1) i) /\
    (forall r, r ≠ (field x).1 -> regs w' r = regs w r)) w.
Proof.
  intros Hs. apply wp_setter; [done|]. intros w' ->.
  pose proof (regs_byte w (field x).1) as Hb. assert (Hm : 0 <= (field x).2 < 256) by (by destruct x).
  unfold insert, fn_insert. rewrite decide_True by done. split; [by apply field_set_read|]. split.
  - intros i Hi Hmi. rewrite field_set_bits by done. by rewrite Hmi.
  - intros r Hr. by rewrite decide_False by congruence.
Qed.

(** The mode read back is the mode set, whatever is configured in between: the
    configuration [main] performs, filter, standby time and both oversamplings, does not
    disturb it. *)
Theorem mode_after_configuration mode tsb filter osrst osrsp w :
  storage 0xF4 = true -> storage 0xF5 = true ->
  wp (BMP280_SetMode mode ;; BMP280_SetStandby tsb ;; BMP280_SetFilter filter ;;
      BMP280_SetOSRST osrst ;; BMP280_SetOSRSP osrsp ;; BMP280_GetMode)
    (fun r w' => r = Z.land mode 3 /\
       Z.land (regs w' 0xF5) 0xFC = Z.lor (Z.land tsb 0xE0) (Z.land filter 0x1C) /\
       Z.land (regs w' 0xF4) 0xFC = Z.lor (Z.land osrst 0xE0) (Z.land osrsp 0x1C)) w.
Proof.
  intros H4 H5. rewrite wp_bind. apply (wp_setter SSetMode); [done|]. intros w1 E1.
  rewrite wp_bind. apply (wp_setter SSetStandby); [done|]. intros w2 E2.
  rewrite wp_bind. apply (wp_setter SSetFilter); [done|]. intros w3 E3.
  rewrite wp_bind. apply (wp_setter SSetOSRST); [done|]. intros w4 E4.
  rewrite wp_bind. apply (wp_setter SSetOSRSP); [done|]. intros w5 E5.
  unfold BMP280_GetMode. rewrite wp_bind. apply wp_reg_read. intros w6 E6. rewrite wp_ret.
  rewrite E6, E5, E4, E3, E2, E1. unfold insert, fn_insert. cbn [field fst snd].
  pose proof (regs_byte w 0xF4) as B4. pose proof (regs_byte w 0xF5) as B5.
  unfold BMP280_REG_CTRL_MEAS.
  rewrite ?(decide_False (P := 245 = 244)), ?(decide_False (P := 244 = 245)) by done.
  rewrite ?(decide_True (P := 245 = 245)), ?(decide_True (P := 244 = 244)) by done.
  assert (R : forall old m v, 0 <= m < 256 -> 0 <= field_set old m v < 256) by (intros; by apply field_set_range).
  assert (Hland : forall a b c m1 m2 m, m = Z.lor m1 m2 -> 0 <= m1 < 256 -> 0 <= m2 < 256 -> Z.land m1 m2 = 0 ->
     0 <= a < 256 -> Z.land (field_set (field_set a m1 b) m2 c) m = Z.lor (Z.land b m1) (Z.land c m2)).
  { intros a b c m1 m2 m -> H1 H2 H12 Ha. apply Z.bits_inj'. intros i Hi.
    rewrite Z.land_spec, !Z.lor_spec, !Z.land_spec, !field_set_bits by (first [lia | apply R; lia]).
    apply (f_equal (fun x => Z.testbit x i)) in H12. rewrite Z.land_spec, Z.bits_0 in H12.
    destruct (Z.testbit m1 i), (Z.testbit m2 i); cbn in *; rewrite ?andb_true_r, ?andb_false_r, ?orb_false_r; done. }
  split; [|split].
  - apply Z.bits_inj'. intros i Hi. unfold BMP280_MODE_MSK. rewrite !Z.land_spec, !field_set_bits by (first [lia | apply R; lia]).
    destruct (Z.testbit 3 i) eqn:E; [|by rewrite !andb_false_r]. rewrite !andb_true_r.
    assert (i < 2).
    { destruct (Z.lt_ge_cases i 2) as [|Hge]; [done|]. by rewrite (bound_bits 2 3 i) in E. }
    assert (i = 0 \/ i = 1) as [->| ->] by lia; done.
  - apply Hland; first [done | apply R; lia].
  - apply Hland; first [done | apply R; lia].
Qed.

Lemma read_regs_lookup f reg n i : (i < n)%nat -> read_regs f reg n !!! i = f (reg + Z.of_nat i).
Proof.
  intros Hi. unfold read_regs. apply list_lookup_total_correct.
  rewrite list_lookup_fmap, lookup_seq_lt by done. done.
Qed.

(** The three reading registers as the 20-bit number the data sheet describes. *)
Definition reading20 (msb lsb xlsb : Z) : Z := 4096 * msb + 16 * lsb + xlsb / 16.

Lemma reading_eq buf i :
  0 <= buf !!! i < 256 -> 0 <= buf !!! S i < 256 -> 0 <= buf !!! S (S i) < 256 ->
  reading buf i = reading20 (buf !!! i) (buf !!! S i) (buf !!! S (S i)) /\ 0 <= reading buf i < 2 ^ 20.
Proof.
  intros H1 H2 H3. unfold reading, reading20. set (a := buf !!! i) in *. set (b := buf !!! S i) in *.
  set (c := buf !!! S (S i)) in *. clearbody a b c.
  rewrite Z.shiftr_div_pow2, !Z.shiftl_mul_pow2 by lia. change (2 ^ 4) with 16. change (2 ^ 12) with 4096.
  assert (Hb : forall k x, 0 <= k -> Z.testbit (x * 2 ^ k) k = Z.testbit x 0).
  { intros. rewrite Z.mul_pow2_bits by lia. by rewrite Z.sub_diag. }
  assert (D : forall x y k, 0 <= k -> 0 <= y < 2 ^ k -> Z.land (x * 2 ^ k) y = 0).
  { intros x y k Hk Hy. apply Z.bits_inj'. intros j Hj. rewrite Z.land_spec, Z.bits_0, Z.mul_pow2_bits by done.
    destruct (Z.lt_ge_cases j k) as [Hjk|Hjk].
    - by rewrite Z.testbit_neg_r by lia.
    - rewrite (bound_bits k y j) by done. apply andb_false_r. }
  assert (0 <= c / 16 < 16) by (Z.div_mod_to_equations; lia).
  rewrite <- (Z.add_nocarry_lor (a * 4096)), <- Z.add_nocarry_lor.
  - change (2 ^ 20) with 1048576. lia.
  - replace (a * 4096 + b * 16) with ((a * 256 + b) * 2 ^ 4) by (change (2 ^ 4) with 16; lia).
    apply D; [lia|done].
  - apply (D a (b * 16) 12); [lia|change (2 ^ 12) with 4096; lia].
Qed.

(** A reading assembles the 20-bit temperature and pressure from the registers of the
    measurement, 0xF7 to 0xFC, and stays within 20 bits. *)
Theorem BMP280_Read_UTP_spec buf w :
  length buf = 8%nat ->
  wp (BMP280_Read_UTP buf) (fun '(r, (UT, UP)) w' => r = BMP280_SUCCESS /\ regs w' = regs w /\
    UP = reading20 (regs w 0xF7) (regs w 0xF8) (regs w 0xF9) /\
    UT = reading20 (regs w 0xFA) (regs w 0xFB) (regs w 0xFC) /\
    0 <= UP < 2 ^ 20 /\ 0 <= UT < 2 ^ 20) w.
Proof.
  intros Hl. unfold BMP280_Read_UTP. rewrite wp_bind. apply wp_reg_read_bulk; [done|by rewrite Hl|].
  intros w' E. rewrite Hl. change (BMP280_SUCCESS =? BMP280_SUCCESS) with true. cbv iota. rewrite wp_ret.
  set (l := read_regs _ _ _).
  assert (L : forall i, (i < 8)%nat -> l !!! i = regs w (0xF7 + Z.of_nat i)) by (intros; by apply read_regs_lookup).
  assert (B : forall i, (i < 8)%nat -> 0 <= l !!! i < 256) by (intros; rewrite L by done; apply regs_byte).
  destruct (reading_eq l 0) as [E0 R0]; [apply B; lia..|].
  destruct (reading_eq l 3) as [E3 R3]; [apply B; lia..|].
  split; [done|]. split; [done|]. rewrite E0, E3 in *. rewrite !L in * by lia. done.
Qed.

(** The calibration block is the twelve little-endian words from 0x88 on, the first and
    the fourth unsigned, the others in two's complement. *)
Theorem BMP280_Read_Calibration_spec cal_bytes w :
  length cal_bytes = 24%nat ->
  let word i := regs w (0x88 + 2 * i) + 256 * regs w (0x89 + 2 * i) in
  wp (BMP280_Read_Calibration cal_bytes) (fun '(r, l) w' => r = BMP280_SUCCESS /\
    cal_of_bytes l = mkCal (word 0) (i16 (word 1)) (i16 (word 2)) (word 3) (i16 (word 4)) (i16 (word 5))
      (i16 (word 6)) (i16 (word 7)) (i16 (word 8)) (i16 (word 9)) (i16 (word 10)) (i16 (word 11)) /\
    0 <= dig_T1 (cal_of_bytes l) < 2 ^ 16 /\ - 2 ^ 15 <= dig_P9 (cal_of_bytes l) < 2 ^ 15) w.
Proof.
  intros Hl word. unfold BMP280_Read_Calibration. apply wp_reg_read_bulk; [done|by rewrite Hl|].
  intros w' E. rewrite Hl. split; [done|]. set (l := read_regs _ _ _).
  assert (L : forall i, (i < 24)%nat -> l !!! i = regs w (0x88 + Z.of_nat i)) by (intros; by apply read_regs_lookup).
  assert (E1 : cal_of_bytes l = mkCal (word 0) (i16 (word 1)) (i16 (word 2)) (word 3) (i16 (word 4))
    (i16 (word 5)) (i16 (word 6)) (i16 (word 7)) (i16 (word 8)) (i16 (word 9)) (i16 (word 10)) (i16 (word 11))).
  { unfold cal_of_bytes, word, word_of. cbn [Nat.mul Nat.add]. rewrite !L by lia. rewrite !Z.mul_0_r, !Z.add_0_r.
    reflexivity. }
  split; [done|]. rewrite E1. cbn [dig_T1 dig_P9]. split.
  - unfold word. pose proof (regs_byte w (0x88 + 2 * 0)). pose proof (regs_byte w (0x89 + 2 * 0)).
    change (2 ^ 16) with 65536. lia.
  - apply (swrap_range 16). lia.
Qed.
End laws.

(** ** When the bus fails *)

(** When every transfer fails, readings report BMP280_ERROR and the values that stand
    for no data; but setting a field writes the other fields of its register as zero,
    since the failed read gives 0: the message sent holds the field alone. *)
Theorem dead_bus_results {W} ret buf mode (w : W) :
  ret ≠ 2 ->
  BMP280_Read_UTP (bus := dead_bus W ret) buf w =
    Some ((BMP280_ERROR, (BMP280_NO_TEMPERATURE, BMP280_NO_PRESSURE)), w) /\
  BMP280_SetMode (bus := dead_bus W ret) mode w =
    __reg_write (bus := dead_bus W ret) BMP280_REG_CTRL_MEAS (Z.land mode BMP280_MODE_MSK) w.
Proof.
  intros Hr. split; [|done]. unfold BMP280_Read_UTP, __reg_read_bulk, i2c_transfer, dead_bus.
  apply Z.eqb_neq in Hr. unfold mbind, M_bind, mret, M_ret. by rewrite Hr.
Qed.

(** ** Concrete instances, on a bank of registers that hold their own numbers *)

Definition sample_bank : bank := byte0.

Theorem setter_spec_witness :
  wp (run_setter (bus := bank_transfer) SSetFilter 0x10) (fun _ w' =>
    Z.land (proj1_sig (w' 0xF5)) 0x1C = 0x10 /\
    (forall i, 0 <= i -> Z.testbit 0x1C i = false ->
       Z.testbit (proj1_sig (w' 0xF5)) i = Z.testbit (proj1_sig (sample_bank 0xF5)) i) /\
    (forall r, r ≠ 0xF5 -> proj1_sig (w' r) = proj1_sig (sample_bank r))) sample_bank.
Proof. exact (setter_spec (bus := bank_transfer) SSetFilter 0x10 sample_bank eq_refl). Defined.

Theorem mode_after_configuration_witness :
  let bus := bank_transfer in
  wp (BMP280_SetMode (bus := bus) 3 ;; BMP280_SetStandby (bus := bus) 0 ;; BMP280_SetFilter (bus := bus) 0 ;;
      BMP280_SetOSRST (bus := bus) 0x20 ;; BMP280_SetOSRSP (bus := bus) 0x08 ;; BMP280_GetMode (bus := bus))
    (fun r w' => r = 3 /\ Z.land (proj1_sig (w' 0xF5)) 0xFC = 0 /\
                 Z.land (proj1_sig (w' 0xF4)) 0xFC = 0x28) sample_bank.
Proof.
  eapply wp_mono, (mode_after_configuration (bus := bank_transfer) 3 0 0 0x20 0x08 sample_bank); [|done|done].
  intros r w' (H1 & H2 & H3). split; [exact H1|]. split; [exact H2|exact H3].
Defined.

Theorem BMP280_Read_UTP_spec_witness :
  wp (BMP280_Read_UTP (bus := bank_transfer) (replicate 8 0)) (fun '(r, (UT, UP)) w' =>
    r = BMP280_SUCCESS /\ (fun r => proj1_sig (w' r)) = (fun r => proj1_sig (sample_bank r)) /\
    UP = 0xF7F8F /\ UT = 0xFAFBF /\ 0 <= UP < 2 ^ 20 /\ 0 <= UT < 2 ^ 20) sample_bank.
Proof.
  eapply wp_mono, (BMP280_Read_UTP_spec (bus := bank_transfer) (replicate 8 0) sample_bank); [|done].
  intros [r [UT UP]] w' (H1 & H2 & H3 & H4 & H5). split; [exact H1|]. split; [exact H2|].
  split; [exact H3|]. split; [exact H4|exact H5].
Defined.

Theorem BMP280_Read_Calibration_spec_witness :
  wp (BMP280_Read_Calibration (bus := bank_transfer) (replicate 24 0)) (fun '(r, l) w' =>
    r = BMP280_SUCCESS /\
    cal_of_bytes l = mkCal 0x8988 (i16 0x8b8a) (i16 0x8d8c) 0x8f8e (i16 0x9190) (i16 0x9392)
      (i16 0x9594) (i16 0x9796) (i16 0x9998) (i16 0x9b9a) (i16 0x9d9c) (i16 0x9f9e) /\
    0 <= dig_T1 (cal_of_bytes l) < 2 ^ 16 /\ - 2 ^ 15 <= dig_P9 (cal_of_bytes l) < 2 ^ 15) sample_bank.
Proof.
  eapply wp_mono, (BMP280_Read_Calibration_spec (bus := bank_transfer) (replicate 24 0) sample_bank); [|done].
  intros [r l] w' (H1 & H2 & H3). split; [exact H1|]. split; [exact H2|exact H3].
Defined.

Theorem dead_bus_results_witness :
  BMP280_Read_UTP (bus := dead_bus unit (-8)) (replicate 8 0) tt = Some ((0, (0x80000, 0x80000)), tt) /\
  BMP280_SetMode (bus := dead_bus unit (-8)) 3 tt =
    __reg_write (bus := dead_bus unit (-8)) 0xF4 3 tt.
Proof. apply (dead_bus_results (-8) (replicate 8 0) 3 tt). done. Defined.
