(* ===== verification/Mpu6050.v ===== *)
(** * Mpu6050: the accelerometer driver, peripherals/MPU6050.c

    The chip keeps a register pointer between transfers: a one-byte write sets it, a read
    starts there.  [MpuDevice] states this for the bus of I2cDev. *)

From S2P Require Import Prelude Kernel Io I2c I2cDev.

#[local] Open Scope Z_scope.

(** ** Definitions *)

Definition mpu_addr : Z := 0x68.

Section mpu6050.
Context {W : Type} {bus : I2cBus W}.

(** [i2c_device] after the call, if a bus was found. *)
Definition mpu6050_init {B} (found : option B) : option B := found.

Definition mpu6050_reset : M W unit :=
  i2c_transfer [mkI2cMsg mpu_addr RT_I2C_WR 2 [0x6B; 0x00]] ;; mret tt.

(** The buffer of the only message. *)
Definition only (bufs : list (list Z)) (old : list Z) : list Z := default old (head bufs).

(** Selecting register [reg] and reading [n] bytes through [buffer]; failures are only
    printed. *)
Definition read_from (reg n : Z) (buffer : list Z) : M W (list Z) :=
  let buffer := <[0%nat := reg]> buffer in
  '(_, bufs) ← i2c_transfer [mkI2cMsg mpu_addr RT_I2C_WR 1 buffer];
  let buffer := only bufs buffer in
  '(_, bufs) ← i2c_transfer [mkI2cMsg mpu_addr RT_I2C_RD n buffer];
  mret (only bufs buffer).

(** The signed 16-bit value at bytes [i] and [i + 1], high byte first. *)
Definition word16 (buf : list Z) (i : nat) : Z :=
  i16 (Z.lor (Z.shiftl (buf !!! i) 8) (buf !!! S i)).

(** [buffer]: what the uninitialised buffer holds.  The results are [accel], [gyro] and
    [temp]. *)
Definition mpu6050_read_raw (buffer : list Z) : M W (list Z * list Z * Z) :=
  buffer ← read_from 0x3B 6 buffer;
  let accel := (fun i => word16 buffer (2 * i)) <$> seq 0 3 in
  buffer ← read_from 0x43 6 buffer;
  let gyro := (fun i => word16 buffer (2 * i)) <$> seq 0 3 in
  buffer ← read_from 0x41 2 buffer;
  mret (accel, gyro, word16 buffer 0).

End mpu6050.

(** ** Properties *)

Class MpuDevice (W : Type) {bus : I2cBus W} (addr : Z) := {
  mregs : W -> Z -> Z;
  mptr : W -> Z;
  mregs_byte : forall w r, 0 <= mregs w r < 256;
  (** A one-byte write sets the pointer. *)
  select : forall w reg rest,
    wp (i2c_transfer [mkI2cMsg addr RT_I2C_WR 1 (reg :: rest)]) (fun r w' =>
      r = (1, [reg :: rest]) /\ mptr w' = reg /\ mregs w' = mregs w) w;
  (** A read fills the front of the buffer. *)
  read_next : forall w n buf, (0 < n <= length buf)%nat ->
    wp (i2c_transfer [mkI2cMsg addr RT_I2C_RD (Z.of_nat n) buf]) (fun r w' =>
      r = (1, [read_regs (mregs w) (mptr w) n ++ drop n buf]) /\ mregs w' = mregs w) w
}.

Section laws.
Context {W : Type} {bus : I2cBus W} {device : MpuDevice W mpu_addr}.

Lemma wp_read_from reg n buffer (Q : list Z -> W -> Prop) w :
  (0 < n <= length buffer)%nat ->
  (forall w', mregs w' = mregs w ->
     Q (read_regs (mregs w) reg n ++ drop n (<[0%nat := reg]> buffer)) w') ->
  wp (read_from reg (Z.of_nat n) buffer) Q w.
Proof.
  intros Hn HQ. unfold read_from. destruct buffer as [|b buffer]; [cbn in Hn; lia|].
  cbn [list_insert insert] in *. rewrite wp_bind. eapply wp_mono, select.
  intros r w1 (-> & E1 & E2). rewrite wp_bind.
  eapply wp_mono, (read_next w1 n (reg :: buffer)); [|done].
  intros r w2 [-> E3]. rewrite wp_ret. cbn [only head default]. rewrite E1, E2. apply HQ. by rewrite E3.
Qed.

Lemma word16_eq buf i : 0 <= buf !!! S i < 256 -> word16 buf i = i16 (256 * buf !!! i + buf !!! S i).
Proof.
  intros Hb. unfold word16. rewrite Z.shiftl_mul_pow2 by lia. rewrite <- Z.add_nocarry_lor.
  - f_equal. change (2 ^ 8) with 256. lia.
  - apply Z.bits_inj'. intros j Hj. rewrite Z.land_spec, Z.bits_0, Z.mul_pow2_bits by done.
    destruct (Z.lt_ge_cases j 8).
    + by rewrite Z.testbit_neg_r by lia.
    + rewrite (bound_bits 8 _ j) by done. apply andb_false_r.
Qed.

Lemma word16_regs f reg n rest i :
  (forall r, 0 <= f r < 256) -> (S i < n)%nat ->
  word16 (read_regs f reg n ++ rest) i =
    i16 (256 * f (reg + Z.of_nat i) + f (reg + Z.of_nat i + 1)).
Proof.
  intros Hf Hi.
  assert (L : forall j, (j < n)%nat -> (read_regs f reg n ++ rest) !!! j = f (reg + Z.of_nat j)).
  { intros j Hj. unfold read_regs. apply list_lookup_total_correct.
    rewrite lookup_app_l by (by rewrite length_fmap, length_seq).
    rewrite list_lookup_fmap, lookup_seq_lt by done. done. }
  rewrite word16_eq by (rewrite L by lia; apply Hf). rewrite !L by lia.
  do 3 f_equal. lia.
Qed.

(** A reading takes the three acceleration words from register 0x3B on, the three
    gyroscope words from 0x43 on and the temperature from 0x41, each high byte first and
    in two's complement. *)
Theorem mpu6050_read_raw_spec buffer w :
  length buffer = 6%nat ->
  let word r := i16 (256 * mregs w r + mregs w (r + 1)) in
  wp (mpu6050_read_raw buffer) (fun r w' => mregs w' = mregs w /\
    r = ([word 0x3B; word 0x3D; word 0x3F], [word 0x43; word 0x45; word 0x47], word 0x41)) w.
Proof.
  intros Hl word. pose proof (mregs_byte w) as Hb. unfold mpu6050_read_raw.
  rewrite wp_bind. apply (wp_read_from 0x3B 6); [lia|]. intros w1 E1. cbv zeta.
  set (b1 := read_regs _ _ _ ++ _).
  assert (Hl1 : length b1 = 6%nat).
  { unfold b1, read_regs. rewrite length_app, length_fmap, length_seq, length_drop, length_insert, Hl. done. }
  rewrite wp_bind. apply (wp_read_from 0x43 6); [lia|]. intros w2 E2.
  set (b2 := read_regs _ _ _ ++ _).
  assert (Hl2 : length b2 = 6%nat).
  { unfold b2, read_regs. rewrite length_app, length_fmap, length_seq, length_drop, length_insert, Hl1. done. }
  rewrite wp_bind. apply (wp_read_from 0x41 2); [lia|]. intros w3 E3. rewrite wp_ret.
  split; [by rewrite E3, E2, E1|].
  cbn [seq fmap list_fmap]. unfold b1, b2. rewrite E2, E1.
  rewrite !word16_regs by (done || lia). reflexivity.
Qed.
End laws.

(** When the bus fails, nothing tells the caller: the values are computed from what is
    in the buffer, the number of the register in the first byte of each. *)
Theorem dead_bus_reading {W} ret b0 b1 b2 b3 b4 b5 (w : W) :
  mpu6050_read_raw (bus := dead_bus W ret) [b0; b1; b2; b3; b4; b5] w =
  let word a b := i16 (Z.lor (Z.shiftl a 8) b) in
  Some (([word 0x3B b1; word b2 b3; word b4 b5], [word 0x43 b1; word b2 b3; word b4 b5],
         word 0x41 b1), w).
Proof. reflexivity. Qed.

(** ** A concrete instance: registers that hold their own numbers *)

Definition mpu_bank : Type := Z.
Definition mpu_transfer : I2cBus mpu_bank := fun msgs w =>
  match msgs with
  | [mkI2cMsg _ 0 _ (reg :: rest)] => Some ((1, [reg :: rest]), reg)
  | [mkI2cMsg _ _ n buf] =>
      Some ((1, [read_regs u8 w (Z.to_nat n) ++ drop (Z.to_nat n) buf]), w)
  | _ => Some ((0, i2c_buf <$> msgs), w)
  end.
#[global] Program Instance mpu_bank_device addr : MpuDevice (bus := mpu_transfer) mpu_bank addr := {
  mregs _ := u8;
  mptr w := w
}.
Next Obligation. intros _ w r. apply (wrap_range 8). lia. Qed.
Next Obligation. done. Qed.
Next Obligation. intros addr w n buf Hn. unfold wp, i2c_transfer, mpu_transfer. cbn. by rewrite Nat2Z.id. Qed.

Theorem mpu6050_read_raw_spec_witness :
  wp (mpu6050_read_raw (bus := mpu_transfer) (replicate 6 0)) (fun r w' => u8 = u8 /\
    r = ([0x3b3c; 0x3d3e; 0x3f40], [0x4344; 0x4546; 0x4748], 0x4142)) 0.
Proof.
  eapply wp_mono, (mpu6050_read_raw_spec (bus := mpu_transfer) (replicate 6 0) 0); [|done].
  intros r w' [_ ->]. split; [done|reflexivity].
Defined.
