(* ===== verification/Float.v ===== *)
(** * Float: C's float and double

    IEEE 754 binary32 and binary64 as the Standard Library specifies them, rounding to
    nearest even after every operation (no contraction to fused operations), and the
    conversions of C: a value out of range of the integer type is undefined behaviour,
    [None].  [lit n d] is the double nearest the decimal literal n/d. *)

From Stdlib Require Import SpecFloat.
From S2P Require Import Prelude.

#[local] Open Scope Z_scope.

Abbreviation F := spec_float.

Definition fadd : F -> F -> F := SFadd 24 128.
Definition fsub : F -> F -> F := SFsub 24 128.
Definition fmul : F -> F -> F := SFmul 24 128.
Definition fdiv : F -> F -> F := SFdiv 24 128.
Definition dadd : F -> F -> F := SFadd 53 1024.
Definition dsub : F -> F -> F := SFsub 53 1024.
Definition dmul : F -> F -> F := SFmul 53 1024.
Definition ddiv : F -> F -> F := SFdiv 53 1024.
Definition fneg : F -> F := SFopp.

Definition convert (prec emax : Z) (x : F) : F :=
  match x with S754_finite s m e => binary_round prec emax s m e | _ => x end.
(** float to double, which is exact, and double to float *)
Definition dbl : F -> F := convert 53 1024.
Definition flt : F -> F := convert 24 128.
Definition f_of_Z (z : Z) : F := binary_normalize 24 128 z 0 false.
Definition d_of_Z (z : Z) : F := binary_normalize 53 1024 z 0 false.

(** Both are exact up to 2^53, so the quotient is the literal correctly rounded. *)
Definition lit (n d : Z) : F := ddiv (d_of_Z n) (d_of_Z d).

Definition lt : F -> F -> bool := SFltb.
Definition le : F -> F -> bool := SFleb.
Definition eq : F -> F -> bool := SFeqb.

(** Truncation towards zero; not for infinities and NaN. *)
Definition trunc (x : F) : option Z :=
  match x with
  | S754_zero _ => Some 0
  | S754_finite s m e => let v := if 0 <=? e then Z.pos m * 2 ^ e else Z.pos m / 2 ^ (- e) in
                         Some (if s then - v else v)
  | _ => None
  end.
Definition to_int (lo hi : Z) (x : F) : option Z :=
  v ← trunc x; if (lo <=? v) && (v <? hi) then Some v else None.
Definition to_i32 : F -> option Z := to_int (- 2 ^ 31) (2 ^ 31).
Definition to_u32 : F -> option Z := to_int 0 (2 ^ 32).
Definition to_u8 : F -> option Z := to_int 0 (2 ^ 8).

Lemma to_int_range lo hi x v : to_int lo hi x = Some v -> lo <= v < hi /\ trunc x = Some v.
Proof.
  unfold to_int. destruct (trunc x) as [t|]; [|done]. cbn.
  destruct ((lo <=? t) && (t <? hi)) eqn:E; [|done]. intros [= <-]. apply andb_true_iff in E as [E1%Z.leb_le E2%Z.ltb_lt]. done.
Qed.

(** ** The square root of applications/XenoJetBench.c *)

(** One turn of Newton's method: the new [x] and [prec]. *)
Definition newton (number x : F) : F * F :=
  let x0 := x in
  let x := flt (dmul (lit 1 2) (dbl (fadd x0 (fdiv number x0)))) in
  (x, fdiv (fsub x x0) x0).

Definition sqroot_continues (prec : F) : bool :=
  lt (lit 1 10000) (dbl prec) || lt (dbl prec) (fneg (lit 1 10000)).

Fixpoint sqroot_loop (fuel : nat) (number x prec : F) : option F :=
  if sqroot_continues prec then
    match fuel with
    | O => None
    | S fuel => let '(x, prec) := newton number x in sqroot_loop fuel number x prec
    end
  else Some x.

Definition sqroot (fuel : nat) (number : F) : option F :=
  if lt number (f_of_Z 0) then Some (f_of_Z 0)
  else sqroot_loop fuel number (fdiv (fadd (f_of_Z 1) number) (f_of_Z 2)) (f_of_Z 1).
