(* ===== verification/Procedure.v ===== *)
(** * Procedure: the application, applications/procedure.c

    The tasks that store readings in the flash and read them back, the button handlers
    that queue them, and the producer's sampling.  The drivers, the mutexes and the
    deferrable server are the [Board] interface; W25q64, Bmp280, Mpu6050 and Deferrable
    are what implements it. *)

From Stdlib Require Import SpecFloat.
From S2P Require Import Prelude Kernel Io Spi W25q64 Float.

#[local] Open Scope Z_scope.

(** ** The board *)

Inductive task := RawWrite | RawRead | BenchWrite | BenchRead.  (* raw[0], raw[1], bench[0], bench[1] *)
Inductive mutex := RawMutex | BenchMutex.

#[global] Instance task_eq_dec : EqDecision task.
Proof. solve_decision. Defined.
#[global] Instance mutex_eq_dec : EqDecision mutex.
Proof. solve_decision. Defined.

Class Board (W : Type) := {
  control : Z -> list Z -> Z -> list Z -> M W (list Z);  (* w25q64_control *)
  mutex_take : mutex -> M W unit;
  mutex_release : mutex -> M W unit;
  insert_task : task -> M W unit;
  mpu_read : M W (list Z * list Z * Z);                  (* mpu6050_read_raw *)
  bmp_read : M W (Z * (Z * Z));                          (* BMP280_Read_UTP *)
  calc_pf : Z -> M W F;                                  (* BMP280_CalcPf *)
  mdelay : Z -> M W unit
}.

Definition NUM_READINGS : Z := 125.

(** ** State: the globals and statics of procedure.c *)

Record pstate (W : Type) := mkP {
  p_w : W;
  p_addr : Z;
  p_addr_bench : Z;
  p_i : Z;
  p_acc_v : list F;
  p_gyro_v : list F;
  p_baro_v : list F;
  p_results : list F;
  p_RWn_raw : Z;
  p_RWn_bench : Z
}.
Arguments mkP {W} _ _ _ _ _ _ _ _ _ _.
Arguments p_w {W} _.
Arguments p_addr {W} _.
Arguments p_addr_bench {W} _.
Arguments p_i {W} _.
Arguments p_acc_v {W} _.
Arguments p_gyro_v {W} _.
Arguments p_baro_v {W} _.
Arguments p_results {W} _.
Arguments p_RWn_raw {W} _.
Arguments p_RWn_bench {W} _.

Section setters.
Context {W : Type}.
Implicit Types s : pstate W.
Definition set_p_w (w : W) s : pstate W :=
  mkP w (p_addr s) (p_addr_bench s) (p_i s) (p_acc_v s) (p_gyro_v s) (p_baro_v s) (p_results s) (p_RWn_raw s) (p_RWn_bench s).
Definition set_p_addr (a : Z) s : pstate W :=
  mkP (p_w s) a (p_addr_bench s) (p_i s) (p_acc_v s) (p_gyro_v s) (p_baro_v s) (p_results s) (p_RWn_raw s) (p_RWn_bench s).
Definition set_p_addr_bench (a : Z) s : pstate W :=
  mkP (p_w s) (p_addr s) a (p_i s) (p_acc_v s) (p_gyro_v s) (p_baro_v s) (p_results s) (p_RWn_raw s) (p_RWn_bench s).
Definition set_p_i (i : Z) s : pstate W :=
  mkP (p_w s) (p_addr s) (p_addr_bench s) i (p_acc_v s) (p_gyro_v s) (p_baro_v s) (p_results s) (p_RWn_raw s) (p_RWn_bench s).
Definition set_p_acc_v (l : list F) s : pstate W :=
  mkP (p_w s) (p_addr s) (p_addr_bench s) (p_i s) l (p_gyro_v s) (p_baro_v s) (p_results s) (p_RWn_raw s) (p_RWn_bench s).
Definition set_p_gyro_v (l : list F) s : pstate W :=
  mkP (p_w s) (p_addr s) (p_addr_bench s) (p_i s) (p_acc_v s) l (p_baro_v s) (p_results s) (p_RWn_raw s) (p_RWn_bench s).
Definition set_p_baro_v (l : list F) s : pstate W :=
  mkP (p_w s) (p_addr s) (p_addr_bench s) (p_i s) (p_acc_v s) (p_gyro_v s) l (p_results s) (p_RWn_raw s) (p_RWn_bench s).
Definition set_p_RWn_raw (b : Z) s : pstate W :=
  mkP (p_w s) (p_addr s) (p_addr_bench s) (p_i s) (p_acc_v s) (p_gyro_v s) (p_baro_v s) (p_results s) b (p_RWn_bench s).
Definition set_p_RWn_bench (b : Z) s : pstate W :=
  mkP (p_w s) (p_addr s) (p_addr_bench s) (p_i s) (p_acc_v s) (p_gyro_v s) (p_baro_v s) (p_results s) (p_RWn_raw s) b.
End setters.

Section procedure.
Context {W : Type} {board : Board W}.
(** What the implementation makes of the undefined conversion of a float to a byte out of
    whose range it is; the turns given to [sqroot]. *)
Context (wide_u8 : F -> option Z) (fuel : nat).

Abbreviation App := (M (pstate W)).

(** ** Definitions *)

Definition on {A} (m : M W A) : App A := fun s =>
  match m (p_w s) with Some (a, w) => Some (a, set_p_w w s) | None => None end.

(** The four bytes stored of a value: [(rt_uint8_t)f] and the bytes of [(rt_uint32_t)f]. *)
Definition f_bytes (f : F) : App (list Z) :=
  b ← deref (fun _ => match to_u8 f with Some b => Some b | None => wide_u8 f end);
  u ← deref (fun _ => to_u32 f);
  mret [b; byte_of 1 u; byte_of 2 u; byte_of 3 u].

Definition addr_bytes (a : Z) : list Z := [byte_of 0 a; byte_of 1 a; byte_of 2 a].

(** [v[i]]; beyond the array there is no object. *)
Definition elem (v : pstate W -> list F) (i : Z) : App F := deref (fun s => v s !! Z.to_nat i).

Definition write_raw_mem_async : App unit :=
  addr ← gets p_addr;
  when (0x7FFFF4 <=? addr) (on (control CHIP_ERASE [] 0 []) ;; modify (set_p_addr 0)) ;;
  on (mutex_take RawMutex) ;;
  i ← gets p_i;
  a ← elem p_acc_v i;
  ab ← f_bytes a;
  g ← elem p_gyro_v i;
  gb ← f_bytes g;
  p ← elem p_baro_v i;
  pb ← f_bytes p;
  addr ← gets p_addr;
  on (control PAGE_PROGRAM (addr_bytes addr) 12 (ab ++ gb ++ pb)) ;;
  modify (set_p_addr (u32 (addr + 12))) ;;
  modify (set_p_i ((i + 1) mod NUM_READINGS)) ;;
  on (mutex_release RawMutex).

(** The bytes read; [rd] is the uninitialised buffer.  Printing them is left out. *)
Definition read_raw_mem_async (rd : list Z) : App (list Z) :=
  on (mutex_take RawMutex) ;;
  addr ← gets p_addr;
  let addr32 := u32 (addr - 12) in
  r ← on (control READ_DATA (addr_bytes addr32) 12 rd);
  on (mutex_release RawMutex) ;;
  mret r.

Definition button_raw_async_handler : App unit :=
  RWn ← gets p_RWn_raw;
  (if negb (RWn =? 0) then on (insert_task RawRead) else on (insert_task RawWrite)) ;;
  modify (set_p_RWn_raw (Z.lxor RWn 1)).

(** The loop that fills [res8]: four bytes for each of the first [n] results. *)
Fixpoint result_bytes (n : nat) (j : Z) : App (list Z) :=
  match n with
  | O => mret []
  | S n => f ← elem p_results j; b ← f_bytes f; rest ← result_bytes n (j + 1); mret (b ++ rest)
  end.

Definition write_bench_mem_async : App unit :=
  addr_bench ← gets p_addr_bench;
  when (0xFFFFC8 <=? addr_bench)
    (on (control CHIP_ERASE [] 0 []) ;; modify (set_p_addr_bench 0x800000)) ;;
  on (mutex_take BenchMutex) ;;
  res8 ← result_bytes 14 0;
  addr_bench ← gets p_addr_bench;
  on (control PAGE_PROGRAM (addr_bytes addr_bench) 56 res8) ;;
  modify (set_p_addr_bench (u32 (addr_bench + 0x38))) ;;
  on (mutex_release BenchMutex).

Definition read_bench_mem_async (rd : list Z) : App (list Z) :=
  on (mutex_take BenchMutex) ;;
  addr_bench ← gets p_addr_bench;
  let addr32 := u32 (addr_bench - 0x38) in
  r ← on (control READ_DATA (addr_bytes addr32) 56 rd);
  on (mutex_release BenchMutex) ;;
  mret r.

Definition button_bench_async_handler : App unit :=
  RWn ← gets p_RWn_bench;
  (if negb (RWn =? 0) then on (insert_task BenchRead) else on (insert_task BenchWrite)) ;;
  modify (set_p_RWn_bench (Z.lxor RWn 1)).

(** [int] arithmetic: overflow is undefined. *)
Definition int_of (z : Z) : option Z := if (- 2 ^ 31 <=? z) && (z <? 2 ^ 31) then Some z else None.
Definition sum_of_squares (v : list Z) : option Z :=
  match v with
  | [x; y; z] => a ← int_of (x * x); b ← int_of (y * y); ab ← int_of (a + b); c ← int_of (z * z); int_of (ab + c)
  | _ => None
  end.
Definition modulus (v : list Z) : App F :=
  n ← deref (fun _ => sum_of_squares v); deref (fun _ => sqroot fuel (f_of_Z n)).

(** One turn of the loop of [producer_entry]. *)
Definition sample (curr_read : Z) : App unit :=
  on (mutex_take RawMutex) ;;
  '(acc, gyro, temp) ← on mpu_read;
  m ← modulus acc;
  modify (fun s => set_p_acc_v (<[Z.to_nat curr_read := m]> (p_acc_v s)) s) ;;
  m ← modulus gyro;
  modify (fun s => set_p_gyro_v (<[Z.to_nat curr_read := m]> (p_gyro_v s)) s) ;;
  '(_, (UT, UP)) ← on bmp_read;
  when (negb (UT =? 0x80000) && negb (UP =? 0x80000))
    (p ← on (calc_pf UP);
     modify (fun s => set_p_baro_v (<[Z.to_nat curr_read := p]> (p_baro_v s)) s)) ;;
  on (mdelay 10) ;;
  on (mutex_release RawMutex).

Fixpoint sampling (n : nat) (curr_read : Z) : App unit :=
  match n with O => mret tt | S n => sample curr_read ;; sampling n (curr_read + 1) end.
(** The body of the producer's loop, with [USE_DEFERR]. *)
Definition producer_entry : App unit := sampling 125 0 ;; on (mdelay 201000).

End procedure.

(** ** What the application relies on *)

(** [stored w a n]: the [n] bytes a read at address [a] delivers; [inserted]: the tasks
    handed to the server.  A blank area takes what is programmed, an erased chip is blank,
    and the mutexes and the server leave the flash alone. *)
Class BoardLaws (W : Type) {board : Board W} := {
  stored : W -> list Z -> Z -> list Z;
  inserted : W -> list task;
  erase_law : forall w, wp (control CHIP_ERASE [] 0 []) (fun _ w' =>
    (forall a n, stored w' a n = replicate (Z.to_nat n) 0xFF) /\ inserted w' = inserted w) w;
  program_law : forall w a n d, Z.of_nat (length d) = n -> stored w a n = replicate (Z.to_nat n) 0xFF ->
    wp (control PAGE_PROGRAM a n d) (fun _ w' => stored w' a n = d /\ inserted w' = inserted w) w;
  read_law : forall w a n buf, Z.of_nat (length buf) = n ->
    wp (control READ_DATA a n buf) (fun r w' => r = stored w a n) w;
  mutex_law : forall w m,
    wp (mutex_take m) (fun _ w' => stored w' = stored w /\ inserted w' = inserted w) w /\
    wp (mutex_release m) (fun _ w' => stored w' = stored w /\ inserted w' = inserted w) w;
  insert_law : forall w t, wp (insert_task t) (fun _ w' => inserted w' = inserted w ++ [t]) w
}.

Section laws.
Context {W : Type} {board : Board W} {laws : BoardLaws W}.
Context (wide_u8 : F -> option Z).

Lemma wp_on {A} (m : M W A) (Q : A -> pstate W -> Prop) s :
  wp m (fun a w => Q a (set_p_w w s)) (p_w s) -> wp (on m) Q s.
Proof. unfold wp, on. by destruct (m (p_w s)) as [[a w]|]. Qed.

(** The conversion of a value in the range of [rt_uint32_t] to a byte keeps its low byte,
    as the hardware's conversion does. *)
Hypothesis wide_u8_low : forall f v, to_u8 f = None -> to_u32 f = Some v -> wide_u8 f = Some (byte_of 0 v).

Lemma u8_low f v : to_u32 f = Some v ->
  match to_u8 f with Some b => Some b | None => wide_u8 f end = Some (byte_of 0 v).
Proof.
  intros Hv. destruct (to_u8 f) as [b|] eqn:E; [|by apply wide_u8_low].
  apply to_int_range in Hv as [_ Ht]. apply to_int_range in E as [Hb Ht']. rewrite Ht in Ht'.
  injection Ht' as ->. unfold byte_of. rewrite Z.mul_0_r, Z.shiftr_0_r, wrap_small by done. done.
Qed.

Definition word_bytes (v : Z) : list Z := [byte_of 0 v; byte_of 1 v; byte_of 2 v; byte_of 3 v].

Lemma wp_f_bytes f v (Q : list Z -> pstate W -> Prop) s :
  to_u32 f = Some v -> Q (word_bytes v) s -> wp (f_bytes wide_u8 f) Q s.
Proof.
  intros Hv HQ. unfold f_bytes. rewrite wp_bind. eapply wp_deref; [by apply u8_low|].
  rewrite wp_bind. eapply wp_deref; [done|]. exact HQ.
Qed.

(** The values the raw task stores, at index [p_i]. *)
Definition raw_values (s : pstate W) (a g p : Z) : Prop :=
  exists fa fg fp, p_acc_v s !! Z.to_nat (p_i s) = Some fa /\ to_u32 fa = Some a /\
    p_gyro_v s !! Z.to_nat (p_i s) = Some fg /\ to_u32 fg = Some g /\
    p_baro_v s !! Z.to_nat (p_i s) = Some fp /\ to_u32 fp = Some p.
Definition raw_record (a g p : Z) : list Z := word_bytes a ++ word_bytes g ++ word_bytes p.
(** Where the next record goes, the chip being erased first when it is full. *)
Definition raw_target (s : pstate W) : Z := if 0x7FFFF4 <=? p_addr s then 0 else p_addr s.
Definition raw_addr_ok (s : pstate W) : Prop := 0 <= p_addr s < 0x800000.

(** The write task, from the state it leaves and the flash contents it needs. *)
Lemma wp_write_raw a g p (Q : unit -> pstate W -> Prop) s :
  raw_addr_ok s -> 0 <= p_i s < NUM_READINGS -> raw_values s a g p ->
  (p_addr s < 0x7FFFF4 -> stored (p_w s) (addr_bytes (p_addr s)) 12 = replicate 12 0xFF) ->
  (forall w, stored w (addr_bytes (raw_target s)) 12 = raw_record a g p ->
     inserted w = inserted (p_w s) ->
     Q tt (set_p_w w (set_p_i ((p_i s + 1) mod NUM_READINGS) (set_p_addr (raw_target s + 12) s)))) ->
  wp (write_raw_mem_async wide_u8) Q s.
Proof.
  intros Ha Hi (fa & fg & fp & A1 & A2 & G1 & G2 & P1 & P2) Hb HQ.
  unfold write_raw_mem_async. rewrite wp_bind, wp_gets, wp_bind.
  assert (Hrest : forall w, stored w (addr_bytes (raw_target s)) 12 = replicate 12 0xFF ->
    inserted w = inserted (p_w s) ->
    wp (on (mutex_take RawMutex) ;;
        i ← gets p_i; a ← elem p_acc_v i; ab ← f_bytes wide_u8 a; g ← elem p_gyro_v i;
        gb ← f_bytes wide_u8 g; p ← elem p_baro_v i; pb ← f_bytes wide_u8 p; addr ← gets p_addr;
        on (control PAGE_PROGRAM (addr_bytes addr) 12 (ab ++ gb ++ pb)) ;;
        modify (set_p_addr (u32 (addr + 12))) ;; modify (set_p_i ((i + 1) mod NUM_READINGS)) ;;
        on (mutex_release RawMutex)) Q (set_p_w w (set_p_addr (raw_target s) s))).
  { intros w Hw Hins. rewrite wp_bind. apply wp_on. eapply wp_mono, mutex_law. intros _ w1 [E1 F1].
    repeat (rewrite wp_bind, wp_gets || (rewrite wp_bind; eapply wp_deref; [done|]) ||
      (rewrite wp_bind; eapply wp_f_bytes; [done|])).
    rewrite wp_bind. apply wp_on. cbn [p_w set_p_w p_addr set_p_addr].
    eapply wp_mono, program_law; [|done|by rewrite E1; exact Hw].
    intros _ w2 [E2 F2]. rewrite wp_bind, wp_modify, wp_bind, wp_modify. apply wp_on.
    eapply wp_mono, mutex_law. intros [] w3 [E3 F3]. cbn [p_w set_p_w set_p_i set_p_addr p_i p_addr] in *.
    rewrite (wrap_small 32).
    2: { unfold raw_target, raw_addr_ok in *. change (2 ^ 32) with 4294967296. destruct (Z.leb_spec 0x7FFFF4 (p_addr s)); lia. }
    apply (HQ w3); [by rewrite E3|congruence]. }
  unfold raw_target in *. destruct (Z.leb_spec 0x7FFFF4 (p_addr s)) as [Hf|Hf]; cbn [when].
  - rewrite wp_bind. apply wp_on. eapply wp_mono, erase_law. intros _ w1 [E1 F1].
    rewrite wp_modify. by apply Hrest.
  - rewrite wp_ret. specialize (Hrest (p_w s) (Hb Hf) eq_refl). destruct s. exact Hrest.
Qed.


(** Reading before anything was written asks the flash for address 0xFFFFFFF4, cut to
    its three low bytes. *)
Theorem read_before_write rd s :
  p_addr s = 0 -> length rd = 12%nat ->
  wp (read_raw_mem_async rd) (fun r _ => r = stored (p_w s) [0xF4; 0xFF; 0xFF] 12) s.
Proof.
  intros Ha Hrd. unfold read_raw_mem_async. rewrite wp_bind. apply wp_on. eapply wp_mono, mutex_law.
  intros _ w1 [E1 _]. rewrite wp_bind, wp_gets, wp_bind. apply wp_on. cbn [p_w set_p_w p_addr]. rewrite Ha.
  change (addr_bytes (u32 (0 - 12))) with [0xF4; 0xFF; 0xFF].
  eapply wp_mono, (read_law w1 _ 12 rd); [|by rewrite Hrd]. intros r w2 ->. rewrite wp_bind. apply wp_on.
  eapply wp_mono, mutex_law. intros _ w3 _. rewrite wp_ret. by rewrite E1.
Qed.

(** *** The buttons *)

Fixpoint presses (n : nat) : M (pstate W) unit :=
  match n with O => mret tt | S n => button_raw_async_handler ;; presses n end.
(** [n] tasks, alternately, the first one a read if [RWn] is set. *)
Fixpoint alternately (n : nat) (RWn : Z) : list task :=
  match n with O => [] | S n => (if RWn =? 0 then RawWrite else RawRead) :: alternately n (1 - RWn) end.

(** However often the button is pressed, it queues a write and a read task in turn,
    a write first. *)
Theorem presses_alternate n s :
  p_RWn_raw s = 0 \/ p_RWn_raw s = 1 ->
  wp (presses n) (fun _ s' => inserted (p_w s') = inserted (p_w s) ++ alternately n (p_RWn_raw s)) s.
Proof.
  revert s. induction n as [|n IH]; intros s Hs; cbn [presses alternately].
  - rewrite wp_ret. by rewrite app_nil_r.
  - rewrite wp_bind. unfold button_raw_async_handler. rewrite wp_bind, wp_gets, wp_bind.
    destruct Hs as [Hs|Hs]; rewrite Hs; cbn [Z.eqb negb]; apply wp_on; (eapply wp_mono, insert_law);
      intros [] w1 E1; rewrite wp_modify;
      (eapply wp_mono, IH; [|cbn; auto]); intros ? s' E2; rewrite E2; cbn in E1 |- *;
      rewrite E1, <- app_assoc; done.
Qed.
End laws.

(** *** Addresses *)

(** The chip takes the address most significant byte first, the code sends the least
    significant first: two records 0x30000 apart, both of which the raw task writes, come
    to lie three bytes apart and overlap. *)
Theorem raw_records_collide (chip_address : list Z -> Z) a :
  (forall b0 b1 b2, chip_address [b0; b1; b2] = 65536 * b0 + 256 * b1 + b2) ->
  0 <= a -> a + 0x30000 < 0x7FFFF4 ->
  (a mod 12 = 0 -> (a + 0x30000) mod 12 = 0) /\
  chip_address (addr_bytes (a + 0x30000)) = chip_address (addr_bytes a) + 3.
Proof.
  intros Hc Ha Hb. unfold addr_bytes. rewrite !Hc, !byte_of_div by lia.
  change (256 ^ 0) with 1. change (256 ^ 1) with 256. change (256 ^ 2) with 65536.
  split; [|]; Z.div_mod_to_equations; lia.
Qed.

(** *** The producer *)

Section producer.
Context {W : Type} {board : Board W} (fuel : nat).

(** [good f]: [f] is a root the code computes of a reading's sum of squares. *)
Definition good (f : F) : Prop :=
  exists v n, sum_of_squares v = Some n /\ sqroot fuel (f_of_Z n) = Some f.

(** The sensor's readings stay in the range of [int] and their roots are found with the
    turns given; the mutex, the barometer and the delay do not fault. *)
Hypothesis reads : forall w, wp mpu_read (fun '(acc, gyro, _) _ =>
  (exists n f, sum_of_squares acc = Some n /\ sqroot fuel (f_of_Z n) = Some f) /\
  (exists n f, sum_of_squares gyro = Some n /\ sqroot fuel (f_of_Z n) = Some f)) w.
Hypothesis baro : forall w, wp bmp_read (fun _ _ => True) w.
Hypothesis calc : forall u w, wp (calc_pf u) (fun _ _ => True) w.
Hypothesis lock : forall m w, wp (mutex_take m) (fun _ _ => True) w /\ wp (mutex_release m) (fun _ _ => True) w.
Hypothesis delay : forall t w, wp (mdelay t) (fun _ _ => True) w.

Lemma wp_on_any {A} (m : M W A) (Q : A -> pstate W -> Prop) s :
  wp m (fun _ _ => True) (p_w s) -> (forall a w, Q a (set_p_w w s)) -> wp (on m) Q s.
Proof. intros Hm HQ. apply wp_on. eapply wp_mono; [|exact Hm]. auto. Qed.

Lemma wp_modulus v n f (Q : F -> pstate W -> Prop) s :
  sum_of_squares v = Some n -> sqroot fuel (f_of_Z n) = Some f -> Q f s -> wp (modulus fuel v) Q s.
Proof. intros Hn Hf HQ. unfold modulus. rewrite wp_bind. eapply wp_deref; [done|]. by eapply wp_deref. Qed.

(** Everything but the sample arrays, and these below [k] all roots. *)
Definition sampled (k : Z) (s0 s : pstate W) : Prop :=
  length (p_acc_v s) = length (p_acc_v s0) /\ length (p_gyro_v s) = length (p_gyro_v s0) /\
  length (p_baro_v s) = length (p_baro_v s0) /\
  (forall i f, (i < Z.to_nat k)%nat -> p_acc_v s !! i = Some f \/ p_gyro_v s !! i = Some f -> good f) /\
  p_addr s = p_addr s0 /\ p_addr_bench s = p_addr_bench s0 /\ p_i s = p_i s0 /\
  p_results s = p_results s0 /\ p_RWn_raw s = p_RWn_raw s0 /\ p_RWn_bench s = p_RWn_bench s0.

Lemma insert_below (l : list F) k i x f : (i < S k)%nat -> (<[k := x]> l) !! i = Some f ->
  f = x \/ ((i < k)%nat /\ l !! i = Some f).
Proof.
  intros Hi Hf. destruct (decide (i = k)) as [->|].
  - left. apply list_lookup_insert_Some in Hf as [(_ & -> & _)|[? _]]; done.
  - right. rewrite list_lookup_insert_ne in Hf by done. split; [lia|done].
Qed.

Lemma sample_step k s0 s : 0 <= k -> sampled k s0 s ->
  wp (sample fuel k) (fun _ s' => sampled (k + 1) s0 s') s.
Proof.
  intros Hk Hs. unfold sample. rewrite wp_bind. apply wp_on_any; [apply lock|]. intros _ w1.
  rewrite wp_bind. apply wp_on. eapply wp_mono, reads.
  intros [[acc gyro] temp] w2 ((n1 & f1 & N1 & F1) & (n2 & f2 & N2 & F2)).
  rewrite wp_bind. eapply wp_modulus; [done|done|]. rewrite wp_bind, wp_modify.
  rewrite wp_bind. eapply wp_modulus; [done|done|]. rewrite wp_bind, wp_modify.
  rewrite wp_bind. apply wp_on_any; [apply baro|]. intros [x [UT UP]] w3.
  assert (Hend : forall s2, sampled (k + 1) s0 s2 ->
    wp (on (mdelay 10) ;; on (mutex_release RawMutex)) (fun _ s' => sampled (k + 1) s0 s') s2).
  { intros s2 H2. rewrite wp_bind. apply wp_on_any; [apply delay|]. intros _ w5.
    apply wp_on_any; [apply lock|]. intros _ w6. exact H2. }
  assert (Hnew : forall w v, length v = length (p_baro_v s0) -> sampled (k + 1) s0
    (mkP w (p_addr s) (p_addr_bench s) (p_i s) (<[Z.to_nat k := f1]> (p_acc_v s))
       (<[Z.to_nat k := f2]> (p_gyro_v s)) v (p_results s) (p_RWn_raw s) (p_RWn_bench s))).
  { intros w v Hv. destruct Hs as (L1 & L2 & L3 & Hg & Hr). split; [by cbn; rewrite length_insert|].
    split; [by cbn; rewrite length_insert|]. split; [done|]. split; [|exact Hr]. cbn [p_acc_v p_gyro_v].
    replace (Z.to_nat (k + 1)) with (S (Z.to_nat k)) by lia.
    intros i f Hi [Hf|Hf]; (destruct (insert_below _ _ _ _ _ Hi Hf) as [->|[Hlt Hl]];
      [unfold good; eauto|eapply Hg; eauto]). }
  rewrite wp_bind. apply wp_when; intros _.
  - rewrite wp_bind. apply wp_on_any; [apply calc|]. intros p w4. rewrite wp_modify. apply Hend, Hnew.
    rewrite length_insert. apply Hs.
  - apply Hend, Hnew, Hs.
Qed.

(** A round of the producer, with a sensor whose readings stay in range, ends without
    a fault, leaves the three arrays their length and everything else alone, and then every
    one of the 125 slots of the accelerometer and of the gyroscope holds a computed root. *)
Theorem producer_fills s :
  wp (producer_entry fuel) (fun _ s' => sampled NUM_READINGS s s') s.
Proof.
  unfold producer_entry. rewrite wp_bind.
  assert (H : forall n k s1, 0 <= k -> sampled k s s1 ->
    wp (sampling fuel n k) (fun _ s' => sampled (k + Z.of_nat n) s s') s1).
  { induction n as [|n IH]; intros k s1 Hk H1; cbn [sampling].
    - rewrite wp_ret. by rewrite Z.add_0_r.
    - rewrite wp_bind. eapply wp_mono, sample_step; [|done|done]. intros [] s2 H2.
      eapply wp_mono, IH; [|lia|done]. intros [] s3. by replace (k + 1 + Z.of_nat n) with (k + Z.of_nat (S n)) by lia. }
  eapply wp_mono, (H 125%nat 0 s); [|done|].
  - intros [] s2 H2. apply wp_on_any; [apply delay|]. intros _ w. exact H2.
  - unfold sampled. repeat (split; [done|]). split; [intros; lia|done].
Qed.
End producer.

(** The sum of the squares of the three axes overflows [int], which is undefined, when
    the axes are saturated; it does not while each is below 26754 in absolute value. *)
Theorem sum_of_squares_bounds x y z :
  (Z.abs x <= 26754 /\ Z.abs y <= 26754 /\ Z.abs z <= 26754 ->
     sum_of_squares [x; y; z] = Some (x * x + y * y + z * z)) /\
  sum_of_squares [-32768; -32768; -32768] = None.
Proof.
  split; [|done]. intros (Hx & Hy & Hz). assert (Hsq : forall v, Z.abs v <= 26754 -> 0 <= v * v <= 715776516) by nia.
  pose proof (Hsq x Hx). pose proof (Hsq y Hy). pose proof (Hsq z Hz).
  unfold sum_of_squares, int_of. change (2 ^ 31) with 2147483648.
  repeat (rewrite (proj2 (andb_true_iff _ _)) by (rewrite Z.leb_le, Z.ltb_lt; lia); cbn [mbind option_bind]).
  done.
Qed.

(** Newton's iteration on 0 halves until it divides 0 by 0: the square root of zero,
    which is what a sensor at rest on all three axes gives, is NaN, and storing it is
    undefined. *)
Theorem sqroot_zero_is_nan :
  sqroot 400 (f_of_Z 0) = Some S754_nan /\ to_u32 S754_nan = None /\ to_u8 S754_nan = None.
Proof. vm_compute. done. Qed.

(** The integer part of the root, for [n] from [from] on. *)
Fixpoint roots_ok (count : nat) (from : Z) : bool :=
  match count with
  | O => true
  | S c => match sqroot 40 (f_of_Z from) with
           | Some r => bool_decide (trunc r = Some (Z.sqrt from))
           | None => false
           end && roots_ok c (from + 1)
  end.


Lemma roots_ok_sound count from n : roots_ok count from = true ->
  from <= n < from + Z.of_nat count ->
  exists r, sqroot 40 (f_of_Z n) = Some r /\ trunc r = Some (Z.sqrt n).
Proof.
  revert from. induction count as [|count IH]; intros from H Hn; [lia|]. cbn [roots_ok] in H.
  apply andb_true_iff in H as [H1 H2].
  destruct (decide (n = from)) as [->|]; [|by apply (IH (from + 1)); [done|lia]].
  destruct (sqroot 40 (f_of_Z from)) as [r|]; [|done]. exists r. split; [done|].
  by apply bool_decide_eq_true in H1.
Qed.

(** The iteration ends for the squares of small readings, within 40 turns, and what the
    raw task stores of it is the integer square root. *)
Theorem sqroot_small n : 1 <= n <= 100 ->
  exists r, sqroot 40 (f_of_Z n) = Some r /\ to_u32 r = Some (Z.sqrt n).
Proof.
  intros Hn. destruct (roots_ok_sound 100 1 n) as (r & H1 & H2); [by vm_compute|lia|].
  exists r. split; [done|]. unfold to_u32, to_int. rewrite H2. cbn [mbind option_bind].
  pose proof (Z.sqrt_nonneg n). pose proof (Z.sqrt_le_lin n). change (2 ^ 32) with 4294967296.
  rewrite (proj2 (andb_true_iff _ _)); [done|]. rewrite Z.leb_le, Z.ltb_lt. lia.
Qed.

Lemma sqroot_small_witness :
  1 <= 9 <= 100 /\ exists r, sqroot 40 (f_of_Z 9) = Some r /\ to_u32 r = Some (Z.sqrt 9).
Proof. split; [lia|]. apply (sqroot_small 9). lia. Defined.

(** ** Witnesses: a board with a memory of the areas programmed *)

Module Sample.
Definition world : Type := list (list Z * Z * list Z) * list task.

Fixpoint area (m : list (list Z * Z * list Z)) (a : list Z) (n : Z) : list Z :=
  match m with
  | [] => replicate (Z.to_nat n) 0xFF
  | (a', n', d) :: m => if decide (a = a' /\ n = n') then d else area m a n
  end.

Definition flash (cmd : Z) (a : list Z) (n : Z) (buf : list Z) : M world (list Z) := fun '(m, ts) =>
  if cmd =? CHIP_ERASE then Some (buf, ([], ts))
  else if cmd =? PAGE_PROGRAM then Some (buf, ((a, n, buf) :: m, ts))
  else Some (area m a n, (m, ts)).

#[global] Instance board : Board world := {
  control := flash;
  mutex_take _ := mret tt;
  mutex_release _ := mret tt;
  insert_task t := fun '(m, ts) => Some (tt, (m, ts ++ [t]));
  mpu_read := mret ([1; 2; 2], [0; 3; 4], 0);
  bmp_read := mret (1, (5, 6));
  calc_pf p := mret (f_of_Z p);
  mdelay _ := mret tt
}.

#[global, program] Instance laws : BoardLaws world := {
  stored w a n := area (fst w) a n;
  inserted w := snd w
}.
Next Obligation. intros [m ts]. done. Qed.
Next Obligation.
  intros [m ts] a n d Hn _. unfold wp. cbn. split; [|done]. by rewrite decide_True.
Qed.
Next Obligation. intros [m ts] a n buf _. done. Qed.
Next Obligation. intros w m. done. Qed.
Next Obligation. intros [m ts] t. done. Qed.

Definition wide (f : F) : option Z := v ← to_u32 f; Some (byte_of 0 v).
Lemma wide_low f v : to_u8 f = None -> to_u32 f = Some v -> wide f = Some (byte_of 0 v).
Proof. intros _ Hv. unfold wide. by rewrite Hv. Qed.

Definition start : pstate world :=
  mkP ([], []) 0 0x800000 124 (replicate 125 (f_of_Z 300)) (replicate 125 (f_of_Z 5))
      (replicate 125 (f_of_Z 101325)) [] 0 0.
End Sample.


Lemma read_before_write_witness :
  p_addr Sample.start = 0 /\
  wp (read_raw_mem_async (replicate 12 0)) (fun r _ => r = stored (p_w Sample.start) [0xF4; 0xFF; 0xFF] 12)
     Sample.start.
Proof. split; [done|]. by apply read_before_write. Defined.

Lemma presses_alternate_witness :
  (p_RWn_raw Sample.start = 0 \/ p_RWn_raw Sample.start = 1) /\
  wp (presses 3) (fun _ s' => inserted (p_w s') = inserted (p_w Sample.start) ++ alternately 3 0) Sample.start.
Proof. split; [by left|]. apply (presses_alternate 3 Sample.start). by left. Defined.

Lemma raw_records_collide_witness :
  let chip l := word_of (reverse l) in
  chip (addr_bytes (0x24 + 0x30000)) = chip (addr_bytes 0x24) + 3.
Proof.
  intros chip. apply (raw_records_collide chip 0x24); [intros; unfold chip; cbn; lia|done|done].
Defined.

Lemma producer_fills_witness :
  wp (producer_entry 20) (fun _ s' => sampled 20 NUM_READINGS Sample.start s') Sample.start.
Proof.
  refine (producer_fills 20 _ (fun _ => I) (fun _ _ => I) (fun _ _ => conj I I) (fun _ _ => I) Sample.start).
  intros w. assert (H : forall n, n = 9 \/ n = 25 -> exists f, sqroot 20 (f_of_Z n) = Some f).
  { intros n [-> | ->]; vm_compute; eauto. }
  destruct (H 9) as [f Hf]; [by left|]. destruct (H 25) as [g Hg]; [by right|].
  split; [exists 9, f|exists 25, g]; (split; [reflexivity|assumption]).
Defined.

Lemma sum_of_squares_bounds_witness :
  sum_of_squares [3; 4; 12] = Some 169 /\ sum_of_squares [-32768; -32768; -32768] = None.
Proof. split; [apply (sum_of_squares_bounds 3 4 12); lia|apply (sum_of_squares_bounds 3 4 12)]. Defined.
