(* ===== verification/Buttons.v ===== *)
(** * Buttons: the pins of applications/main.c

    The pin device made with device.c, and what main does with the pins: the LED is an output,
    and each of the two push buttons has a function of procedure.c attached for the rising
    edge.  Composition of Device, Pin, Gpio and Procedure: a press of a button, from the request
    of its line to the task its function queues. *)

From S2P Require Import Prelude Kernel Scheduler Object TimerCore Thread Timer Ipc Extend Device Gpio Pin Procedure.

#[local] Open Scope Z_scope.

Definition RT_Device_Class_Miscellaneous : Z := 20.
Definition RT_DEVICE_FLAG_RDWR : Z := 0x003.

(** [rt_device_pin_register]: the object is the static [_hw_pin]; the hardware of the devices is
    that of the pins. *)
Definition rt_device_pin_register {S} (hw_dev : positive) (name : list Z) (ops : rt_pin_ops S) : M (dstate (D := hw_pin S)) Z :=
  upd_dev hw_dev (fun d => mkDev RT_Device_Class_Miscellaneous (dv_flag d) (dv_open_flag d) (dv_ref_count d) None None) ;;
  modify (set_own (fun x => mkDevs (dx_devs x) (dx_errno x) (after (register_ops ops) (dx_hw x)))) ;;
  _ ← rt_device_register (Some hw_dev) name RT_DEVICE_FLAG_RDWR;
  mret 0.

(** "pin" *)
Definition pin_name : list Z := [112; 105; 110].
Fixpoint clocks_on (ports : list nat) : G unit :=
  match ports with [] => mret tt | port :: ports => __HAL_RCC_GPIO_CLK_ENABLE port ;; clocks_on ports end.
Definition rt_hw_pin_init {S} `{!chip_writes} (hw_dev : positive) : M (dstate (D := hw_pin (pin_state * S))) Z :=
  modify (set_own (fun x => mkDevs (dx_devs x) (dx_errno x)
    (after (Pin.board (hal (clocks_on [GPIOA; GPIOB; GPIOC; GPIOD; GPIOE; GPIOF; GPIOG; GPIOH; GPIOI; GPIOJ; GPIOK]))) (dx_hw x)))) ;;
  rt_device_pin_register hw_dev pin_name _stm32_pin_ops.

Definition LED_PIN : Z := GET_PIN GPIOB 14.
Definition PUSHBUTTON_RAW : Z := GET_PIN GPIOC 13.
Definition PUSHBUTTON_BENCH : Z := GET_PIN GPIOC 7.

Section main_pins.
Context {S : Type} (raw_handler bench_handler : positive).

Definition main_pins : M (hw_pin S) unit :=
  rt_pin_mode LED_PIN PIN_MODE_OUTPUT ;;
  rt_pin_mode PUSHBUTTON_RAW PIN_MODE_INPUT ;;
  _ ← rt_pin_attach_irq PUSHBUTTON_RAW PIN_IRQ_MODE_RISING (Some raw_handler) 0;
  _ ← rt_pin_irq_enable PUSHBUTTON_RAW PIN_IRQ_ENABLE;
  rt_pin_mode PUSHBUTTON_BENCH PIN_MODE_INPUT ;;
  _ ← rt_pin_attach_irq PUSHBUTTON_BENCH PIN_IRQ_MODE_RISING (Some bench_handler) 0;
  _ ← rt_pin_irq_enable PUSHBUTTON_BENCH PIN_IRQ_ENABLE;
  mret tt.
End main_pins.

(** ** Setting up the buttons *)

Section buttons.
Context {W : Type} {board : Board W} {laws : BoardLaws W} `{!chip_writes} {writes_ok : chip_writes_ok}.
Context (raw_handler bench_handler : positive).
(** The count of nested interrupts is the kernel's; it is nothing to the application. *)
Context (rt_interrupt_enter rt_interrupt_leave : M (pstate W) unit).
Definition leaves_app (m : M (pstate W) unit) : Prop := forall s,
  wp m (fun _ s' => inserted (p_w s') = inserted (p_w s) /\ p_RWn_raw s' = p_RWn_raw s /\ p_RWn_bench s' = p_RWn_bench s) s.
Context (enter_ok : leaves_app rt_interrupt_enter) (leave_ok : leaves_app rt_interrupt_leave).

(** The functions attached, by name. *)
Definition handlers (f : positive) (args : Z) : M (pstate W) unit :=
  if decide (f = raw_handler) then button_raw_async_handler
  else if decide (f = bench_handler) then button_bench_async_handler else fault.

Abbreviation bstate := (pin_state * pstate W)%type.

Lemma wp_board {A} (m : M bstate A) (Q : A -> hw_pin bstate -> Prop) o s : wp m (fun a s' => Q a (o, s')) s -> wp (Pin.board m) Q (o, s).
Proof. unfold wp, Pin.board. cbn. by destruct (m s) as [[a s']|]. Qed.

Abbreviation ops := (Some (@_stm32_pin_ops (pstate W) _)).

Lemma wp_main_attach port n mode f args h {A} (k : M (hw_pin bstate) A) (Q : A -> hw_pin bstate -> Prop) s : (port < 11)%nat -> 0 <= n < 16 -> pin_inv s.1 ->
  pin_irq_hdr_tab s.1 !! Z.to_nat n = Some h -> h_pin h = -1 -> 0 <= mode <= 2 ->
  (forall x, pin_inv x -> armed port n mode f args x -> other_lines n s.1 x -> wp k Q (ops, (x, s.2))) ->
  wp (_ ← rt_pin_attach_irq (GET_PIN port n) mode (Some f) args; _ ← rt_pin_irq_enable (GET_PIN port n) PIN_IRQ_ENABLE; k) Q (ops, s).
Proof.
  intros Hp Hn Hi Hh Hf Hm HQ. unfold rt_pin_attach_irq, rt_pin_irq_enable, hw_ops.
  rewrite !wp_bind. eapply wp_deref; [done|]. cbn [_stm32_pin_ops Pin.pin_attach_irq Pin.pin_irq_enable]. apply wp_board.
  assert (Hw : wp (attach_enable (GET_PIN port n) mode f args) (fun _ s' => wp k Q (ops, s')) s).
  { eapply wp_attach_enable; [done|done|done|exact Hh|done|done|]. intros x H1 H2 H3. by apply HQ. }
  unfold attach_enable in Hw. rewrite wp_bind in Hw. eapply wp_mono; [|exact Hw]. intros r s1 H1. cbn beta in H1. rewrite wp_bind in H1.
  rewrite !wp_bind. eapply wp_deref; [done|]. cbn [_stm32_pin_ops Pin.pin_attach_irq Pin.pin_irq_enable]. apply wp_board.
  eapply wp_mono; [|exact H1]. intros e s2 H2. cbn beta in H2. by rewrite wp_ret in H2.
Qed.

Lemma wp_main_mode port n mode {A} (k : M (hw_pin bstate) A) (Q : A -> hw_pin bstate -> Prop) s : (port < 11)%nat -> 0 <= n < 16 -> pin_inv s.1 ->
  (forall x, pin_inv x -> (forall p, 0 <= p < 16 -> line_of (c_exti (p_chip x)) p = line_of (c_exti (p_chip s.1)) p) ->
     c_nvic (p_chip x) = c_nvic (p_chip s.1) -> pin_irq_hdr_tab x = pin_irq_hdr_tab s.1 -> wp k Q (ops, (x, s.2))) ->
  wp (rt_pin_mode (GET_PIN port n) mode ;; k) Q (ops, s).
Proof.
  intros Hp Hn Hi HQ. unfold rt_pin_mode, hw_ops. rewrite !wp_bind. eapply wp_deref; [done|]. cbn [_stm32_pin_ops Pin.pin_mode]. apply wp_board.
  destruct (get_pin_at port n Hp Hn) as [Eg _]. apply wp_mode; [done|by rewrite Eg|]. intros port' n' c Hp' Hn' _ [A1 A2 A3 (A4 & A5 & A6)] Hinv.
  apply HQ; [done|exact A3|exact A5|done].
Qed.

Lemma armed_kept port n mode f args x y : 0 <= n < 16 -> armed port n mode f args x ->
  line_of (c_exti (p_chip y)) n = line_of (c_exti (p_chip x)) n -> (irqno n ∈ c_nvic (p_chip x) -> irqno n ∈ c_nvic (p_chip y)) ->
  pin_irq_hdr_tab y !! Z.to_nat n = pin_irq_hdr_tab x !! Z.to_nat n -> armed port n mode f args y.
Proof. intros Hn [H1 H2 H3] E1 E2 E3. split; [by rewrite E1|by apply E2|by rewrite E3]. Qed.

(** Both buttons armed. *)
Definition buttons_armed (x : pin_state) : Prop :=
  armed GPIOC 13 PIN_IRQ_MODE_RISING raw_handler 0 x /\ armed GPIOC 7 PIN_IRQ_MODE_RISING bench_handler 0 x.

Lemma wp_main_pins (Q : unit -> hw_pin bstate -> Prop) s : pin_inv s.1 ->
  pin_irq_hdr_tab s.1 !! 13%nat = Some no_hdr -> pin_irq_hdr_tab s.1 !! 7%nat = Some no_hdr ->
  (forall x, pin_inv x -> buttons_armed x -> Q tt (ops, (x, s.2))) ->
  wp (main_pins raw_handler bench_handler) Q (ops, s).
Proof.
  intros Hi H13 H7 HQ. unfold main_pins, LED_PIN, PUSHBUTTON_RAW, PUSHBUTTON_BENCH, GPIOB, GPIOC.
  apply wp_main_mode; [lia|lia|done|]. intros x1 I1 L1 V1 T1.
  apply wp_main_mode; [lia|lia|done|]. cbn [fst snd]. intros x2 I2 L2 V2 T2.
  eapply (wp_main_attach 2 13); [lia|lia|done|cbn [fst]; rewrite T2, T1; exact H13|done|unfold PIN_IRQ_MODE_RISING; lia|]. cbn [fst snd]. intros x3 I3 A3 O3.
  apply wp_main_mode; [lia|lia|done|]. cbn [fst snd]. intros x4 I4 L4 V4 T4.
  eapply (wp_main_attach 2 7 _ _ _ no_hdr); [lia|lia|done| |done|unfold PIN_IRQ_MODE_RISING; lia|].
  { cbn [fst]. destruct (O3 7) as (_ & E & _); [lia|lia|]. rewrite T4, E, T2, T1. exact H7. }
  cbn [fst snd]. intros x5 I5 A5 O5. rewrite wp_ret. apply HQ; [done|]. split; [|exact A5].
  destruct (O5 13) as (E1 & E2 & E3); [lia|lia|]. eapply armed_kept; [lia|exact A3|by rewrite E1, L4 by lia|intros Hin; apply E3; by rewrite V4|by rewrite E2, T4].
Qed.

(** ** Pressing them *)

(** The chip notes the request of line [n] alone, and takes its interrupt. *)
Definition press (n : Z) : M bstate unit :=
  modify (fun s => (with_pr1 (2 ^ n) s.1, s.2)) ;;
  hd ← deref (fun _ => exti_vector handlers rt_interrupt_enter rt_interrupt_leave (irqno n));
  hd.

Lemma armed_pr1 port n mode f args v x : armed port n mode f args x -> armed port n mode f args (with_pr1 v x).
Proof. intros [H1 H2 H3]. by split. Qed.

Lemma wp_press n f args (Q : unit -> bstate -> Prop) s : 0 <= n < 16 -> pin_inv s.1 -> armed GPIOC n PIN_IRQ_MODE_RISING f args s.1 ->
  wp (rt_interrupt_enter ;; handlers f args ;; rt_interrupt_leave) (fun _ t => forall v, Q tt (with_pr1 v s.1, t)) s.2 ->
  wp (press n) Q s.
Proof.
  intros Hn Hi Ha HQ. unfold press. rewrite wp_bind, wp_modify.
  destruct (armed_interrupt handlers rt_interrupt_enter rt_interrupt_leave GPIOC n PIN_IRQ_MODE_RISING f args (with_pr1 (2 ^ n) s.1, s.2)) as (v & hd & Ev & _ & Eh).
  { done. } { by apply with_pr1_inv. } { by apply armed_pr1. } { intros k Hk _. cbn. rewrite pow2_testbit by lia. apply bool_decide_ext. by split. }
  rewrite wp_bind, Ev. eapply wp_deref; [done|]. unfold wp. rewrite Eh. apply wp_unfold in HQ as ([] & t & E & HQ). cbn [snd]. rewrite E. apply (HQ v).
Qed.

Fixpoint raw_presses (k : nat) : M bstate unit := match k with O => mret tt | Datatypes.S k => press 13 ;; raw_presses k end.

Lemma wp_button_raw (Q : unit -> pstate W -> Prop) s : p_RWn_raw s = 0 \/ p_RWn_raw s = 1 ->
  (forall s', inserted (p_w s') = inserted (p_w s) ++ [if p_RWn_raw s =? 0 then RawWrite else RawRead] -> p_RWn_raw s' = 1 - p_RWn_raw s -> Q tt s') ->
  wp button_raw_async_handler Q s.
Proof.
  intros Hs HQ. unfold button_raw_async_handler. rewrite wp_bind, wp_gets, wp_bind.
  destruct Hs as [Hs|Hs]; rewrite Hs in *; cbn [Z.eqb negb]; apply wp_on; (eapply wp_mono, insert_law); intros [] w1 E1; rewrite wp_modify; by apply HQ.
Qed.

(** The whole of an interrupt of the raw button. *)
Lemma wp_raw_irq (Q : unit -> pstate W -> Prop) s : p_RWn_raw s = 0 \/ p_RWn_raw s = 1 ->
  (forall s', inserted (p_w s') = inserted (p_w s) ++ [if p_RWn_raw s =? 0 then RawWrite else RawRead] -> p_RWn_raw s' = 1 - p_RWn_raw s -> Q tt s') ->
  wp (rt_interrupt_enter ;; handlers raw_handler 0 ;; rt_interrupt_leave) Q s.
Proof.
  intros Hs HQ. rewrite wp_bind. eapply wp_mono; [|apply enter_ok]. intros [] s1 (E1 & E2 & _). rewrite wp_bind. unfold handlers. rewrite decide_True by done.
  apply wp_button_raw; [by rewrite E2|]. intros s2 E3 E4. eapply wp_mono; [|apply leave_ok]. intros [] s3 (E5 & E6 & _).
  apply HQ; [by rewrite E5, E3, E1, E2|by rewrite E6, E4, E2].
Qed.

Lemma wp_raw_presses k : forall s, pin_inv s.1 -> buttons_armed s.1 -> p_RWn_raw s.2 = 0 \/ p_RWn_raw s.2 = 1 ->
  wp (raw_presses k) (fun _ s' => inserted (p_w s'.2) = inserted (p_w s.2) ++ alternately k (p_RWn_raw s.2) /\ pin_inv s'.1 /\ buttons_armed s'.1) s.
Proof.
  induction k as [|k IH]; intros s Hi Ha Hs; cbn [raw_presses alternately]; [rewrite wp_ret; by rewrite app_nil_r|].
  rewrite wp_bind. eapply wp_press; [lia|done|apply Ha|]. apply wp_raw_irq; [done|]. intros t E1 E2 v.
  eapply wp_mono; [|apply IH]; cbn [fst snd].
  - intros [] s' (E & Hi' & Ha'). split; [|done]. rewrite E, E1, E2, <- app_assoc. done.
  - by apply with_pr1_inv.
  - destruct Ha. split; by apply armed_pr1.
  - rewrite E2. lia.
Qed.

End buttons.

(** ** Witness: the sample application of Procedure on a chip after reset *)

#[local] Existing Instance sample_writes.
Definition no_nesting : M (pstate Sample.world) unit := mret tt.
Definition start_buttons : pin_state * pstate Sample.world := (reset_pins, Sample.start).

