(* ===== verification/DfsPath.v ===== *)
(** * DfsPath: the paths of the device file system

    components/dfs/src/dfs.c: [dfs_normalize_path], which works in place on a copy of the path, and
    [dfs_subdir].  The first is refined to a function on the list of names in the path; the second
    takes the path of a file apart into that of its file system and the rest. *)

From S2P Require Import Prelude.

#[local] Open Scope Z_scope.

(** ** The definitions *)

(** Strings are their bytes without the 0 at the end; "/" is 47 and "." is 46. *)
Definition SLASH : Z := 47.
Definition DOT : Z := 46.

(** The buffer, with the 0; pointers into it are offsets. *)
Abbreviation B := (M (list Z)).
Section buffer.
(** The byte in front of the buffer. *)
Context (front : Z).
Definition rd (i : Z) : B Z :=
  if i =? -1 then mret front else rt_assert (0 <=? i) ;; deref (fun b => b !! Z.to_nat i).
Definition wr (i c : Z) : B unit :=
  rt_assert (0 <=? i) ;; _ ← rd i; modify (insert (Z.to_nat i) c).

Fixpoint skip_slashes (fuel : nat) (src : Z) : B Z :=
  match fuel with
  | O => fault
  | S fuel => c ← rd src; if (c =? SLASH) && negb (c =? 0) then skip_slashes fuel (src + 1) else mret src
  end.
(** With the last character read. *)
Fixpoint copy_name (fuel : nat) (src dst : Z) : B (Z * Z * Z) :=
  match fuel with
  | O => fault
  | S fuel =>
      c ← rd src;
      if negb (c =? 0) && negb (c =? SLASH) then wr dst c ;; copy_name fuel (src + 1) (dst + 1)
      else mret (c, src + 1, dst)
  end.
Fixpoint erase_slashes (fuel : nat) (c src : Z) : B Z :=
  match fuel with
  | O => fault
  | S fuel => if c =? SLASH then c ← rd src; erase_slashes fuel c (src + 1) else mret src
  end.
Fixpoint up_loop (fuel : nat) (dst : Z) : B Z :=
  match fuel with
  | O => fault
  | S fuel =>
      if 0 <? dst then c ← rd (dst - 1); if negb (c =? SLASH) then up_loop fuel (dst - 1) else mret dst
      else mret dst
  end.

(** What a turn of the loop does first: [Skip src] goes on behind a name of one dot, [Up src] behind one
    of two, [Name src] with a name. *)
Inductive turn := Skip (src : Z) | Up (src : Z) | Name (src : Z).
Definition dots (fuel : nat) (src : Z) : B turn :=
  c ← rd src;
  if negb (c =? DOT) then mret (Name src) else
  c1 ← rd (src + 1);
  if c1 =? 0 then mret (Name (src + 1))
  else if c1 =? SLASH then src ← skip_slashes fuel (src + 2); mret (Skip src)
  else if negb (c1 =? DOT) then mret (Name src) else
  c2 ← rd (src + 2);
  if c2 =? 0 then mret (Up (src + 2))
  else if c2 =? SLASH then src ← skip_slashes fuel (src + 3); mret (Up src)
  else mret (Name src).

(** The end of the text, or [None] for RT_NULL; [size] bounds the inner loops. *)
Fixpoint normalize_loop (size fuel : nat) (src dst : Z) : B (option Z) :=
  match fuel with
  | O => fault
  | S fuel =>
      t ← dots size src;
      match t with
      | Skip src => normalize_loop size fuel src dst
      | Up src =>
          let dst := dst - 1 in
          if dst <? 0 then mret None
          else dst ← up_loop size dst; normalize_loop size fuel src dst
      | Name src =>
          '(c, src, dst) ← copy_name size src dst;
          if c =? SLASH then
            wr dst SLASH ;;
            src ← erase_slashes size c src;
            normalize_loop size fuel (src - 1) (dst + 1)
          else mret (Some dst)
      end
  end.

(** The end of the loop to the end of the function. *)
Definition finish (dst : Z) : B unit :=
  wr dst 0 ;;
  let dst := dst - 1 in
  c ← rd dst;
  when (negb (dst =? 0) && (c =? SLASH)) (wr dst 0) ;;
  c ← rd 0;
  when (c =? 0) (wr 0 SLASH ;; wr 1 0).

(** The string at the start of a buffer. *)
Fixpoint c_string (b : list Z) : list Z := match b with [] => [] | c :: b => if c =? 0 then [] else c :: c_string b end.

(** From the copy on: [fullpath] as it was allocated and filled. *)
Definition normalize (fullpath : list Z) : option (option (list Z)) :=
  let size := S (length fullpath) in
  match (r ← normalize_loop size size 0 0; match r with None => mret false | Some dst => finish dst ;; mret true end) fullpath with
  | Some (true, b) => Some (Some (c_string b))
  | Some (false, _) => Some None
  | None => None
  end.

(** With the allocation of the copy: whether there is memory for it.  The working directory takes the
    place of a directory that is a null pointer; rt_snprintf writes the whole text, for which the
    allocation is made. *)
Definition dfs_normalize_path (memory : bool) (working_directory : list Z) (directory : option (list Z)) (filename : list Z) :
    option (option (list Z)) :=
  let directory := default working_directory directory in
  if negb memory then Some None
  else if negb (default 0 (head filename) =? SLASH) then normalize (directory ++ [SLASH] ++ filename ++ [0])
  else normalize (filename ++ [0]).
End buffer.

(** [None] for a null pointer, otherwise an offset into [filename]; reading past the string is a fault. *)
Definition dfs_subdir (directory filename : list Z) : option (option Z) :=
  if Z.of_nat (length directory) =? Z.of_nat (length filename) then Some None
  else
    let dir := Z.of_nat (length directory) in
    match (filename ++ [0]) !! Z.to_nat dir with
    | None => None
    | Some c => Some (Some (if negb (c =? SLASH) && negb (dir =? 0) then dir - 1 else dir))
    end.

(** ** Paths as lists of names *)

Fixpoint split (s : list Z) : list (list Z) :=
  match s with
  | [] => [[]]
  | c :: s => if c =? SLASH then [] :: split s else match split s with n :: r => (c :: n) :: r | [] => [[c]] end
  end.
(** Slashes that follow a slash do not count; one at the beginning stands behind an empty name. *)
Definition names (s : list Z) : list (list Z) :=
  match s with
  | [] => []
  | _ => match split s with n :: r => n :: filter (fun n => n ≠ []) r | [] => [] end
  end.
Fixpoint walk (acc ns : list (list Z)) : option (list (list Z)) :=
  match ns with
  | [] => Some acc
  | n :: ns =>
      if decide (n = [DOT]) then walk acc ns
      else if decide (n = [DOT; DOT]) then (if decide (acc = []) then None else walk (removelast acc) ns)
      else walk (acc ++ [n]) ns
  end.
Definition text (acc : list (list Z)) : list Z := concat ((fun n => n ++ [SLASH]) <$> acc).
Definition join (acc : list (list Z)) : list Z := removelast (text acc).
Definition render (acc : list (list Z)) : list Z := if decide (join acc = []) then [SLASH] else join acc.

(** What a path stands for, [None] when it leads above its beginning. *)
Definition normal (s : list Z) : option (list Z) := render <$> walk [] (names s).

Fixpoint drop_slashes (s : list Z) : list Z := match s with [] => [] | c :: r => if c =? SLASH then drop_slashes r else s end.

Definition plain (n : list Z) : Prop := Forall (fun c => c ≠ 0 /\ c ≠ SLASH) n.

Lemma split_name n : plain n -> split n = [n].
Proof. induction 1 as [|c n [_ Hc] _ IH]; [done|]. cbn. rewrite (proj2 (Z.eqb_neq _ _) Hc). by rewrite IH. Qed.
Lemma split_slash n r : plain n -> split (n ++ SLASH :: r) = n :: split r.
Proof. induction 1 as [|c n [_ Hc] _ IH]; [done|]. cbn [app split]. rewrite (proj2 (Z.eqb_neq _ _) Hc). by rewrite IH. Qed.
Lemma split_nonempty s : split s ≠ [].
Proof. induction s as [|c s IH]; [done|]. cbn. destruct (c =? SLASH); [done|]. by destruct (split s). Qed.
Lemma names_end n : plain n -> names n = if decide (n = []) then [] else [n].
Proof. intros Hn. destruct n as [|c n]; [done|]. rewrite decide_False by done. unfold names. by rewrite split_name. Qed.
Lemma filter_split_slashes r : filter (fun n => n ≠ []) (split r) = filter (fun n => n ≠ []) (split (drop_slashes r)).
Proof. induction r as [|c r IH]; [done|]. cbn [split drop_slashes]. destruct (c =? SLASH) eqn:E; [|cbn [split]; by rewrite E]. by rewrite filter_cons_False by (intros Hn; by apply Hn). Qed.
Lemma drop_slashes_head r c r' : drop_slashes r = c :: r' -> c ≠ SLASH.
Proof. induction r as [|x r IH]; [done|]. cbn. destruct (Z.eqb_spec x SLASH); [done|]. by intros [= <- _]. Qed.
Lemma names_slash n r : plain n -> names (n ++ SLASH :: r) = n :: names (drop_slashes r).
Proof.
  intros Hn. assert (E : names (n ++ SLASH :: r) = n :: filter (fun n => n ≠ []) (split r)).
  { unfold names. rewrite split_slash by done. by destruct n. }
  rewrite E, filter_split_slashes. f_equal. destruct (drop_slashes r) as [|c r'] eqn:Ed; [done|]. pose proof (drop_slashes_head _ _ _ Ed) as Hc.
  cbn [names split]. rewrite (proj2 (Z.eqb_neq _ _) Hc). destruct (split r') as [|m l]; [done|]. by rewrite filter_cons_True.
Qed.
(** A path is a name, and behind a slash the rest of it. *)
Lemma first_name s : ~ 0 ∈ s -> exists n, plain n /\ (s = n \/ exists r, s = n ++ SLASH :: r).
Proof.
  induction s as [|c s IH]; intros H0; [exists []; split; [constructor|by left]|].
  destruct (decide (c = SLASH)) as [->|Hc]; [exists []; split; [constructor|right; by exists s]|].
  destruct IH as (n & Hn & Hs); [intros H; apply H0; by right|]. exists (c :: n). split.
  - constructor; [|done]. split; [|done]. intros ->. apply H0. by left.
  - destruct Hs as [->|(r & ->)]; [by left|right; by exists r].
Qed.
Lemma drop_slashes_app r : exists k, r = replicate k SLASH ++ drop_slashes r.
Proof.
  induction r as [|c r IH]; [by exists 0%nat|]. cbn. destruct (Z.eqb_spec c SLASH) as [->|Hc]; [|by exists 0%nat].
  destruct IH as [k Hk]. exists (S k). cbn. by rewrite <- Hk.
Qed.

Lemma text_snoc acc n : text (acc ++ [n]) = text acc ++ n ++ [SLASH].
Proof. unfold text. rewrite fmap_app, concat_app. cbn. by rewrite app_nil_r. Qed.
Lemma join_snoc acc n : join (acc ++ [n]) = text acc ++ n.
Proof. unfold join. rewrite text_snoc, (assoc_L (++)). apply removelast_snoc. Qed.

(** ** The buffer *)

Section proofs.
Context (front : Z).

Lemma wp_rd P c R i (Q : Z -> list Z -> Prop) : i = Z.of_nat (length P) -> Q c (P ++ c :: R) -> wp (rd front i) Q (P ++ c :: R).
Proof.
  intros -> HQ. unfold rd. destruct (Z.eqb_spec (Z.of_nat (length P)) (-1)); [lia|]. wp_step. wp_step; [apply Z.leb_le; lia|]. eapply wp_deref; [|done].
  rewrite Nat2Z.id. by apply list_lookup_middle.
Qed.
Lemma wp_wr P x R i c (Q : unit -> list Z -> Prop) : i = Z.of_nat (length P) -> Q tt (P ++ c :: R) -> wp (wr front i c) Q (P ++ x :: R).
Proof.
  intros -> HQ. unfold wr. wp_step. wp_step; [apply Z.leb_le; lia|]. wp_step. apply wp_rd; [done|]. wp_step. rewrite Nat2Z.id.
  by rewrite insert_app_r_alt, Nat.sub_diag by lia.
Qed.
(** Writing at the end of the text what has been read behind it. *)
Lemma wp_write_end T J x R c (Q : unit -> list Z -> Prop) :
  (forall J', length J' = length J -> Q tt ((T ++ [c]) ++ J' ++ R)) -> wp (wr front (Z.of_nat (length T)) c) Q (T ++ J ++ x :: R).
Proof.
  intros HQ. destruct J as [|j J]; cbn [app].
  - apply wp_wr; [done|]. specialize (HQ [] eq_refl). by rewrite <- (assoc_L (++)) in HQ.
  - apply wp_wr; [done|]. specialize (HQ (J ++ [x])). rewrite <- !(assoc_L (++)) in HQ. apply HQ. rewrite length_app. cbn. lia.
Qed.

Lemma wp_skip_slashes P k : forall fuel x R i (Q : Z -> list Z -> Prop), x ≠ SLASH -> (k < fuel)%nat -> i = Z.of_nat (length P) ->
  Q (i + Z.of_nat k) (P ++ replicate k SLASH ++ x :: R) -> wp (skip_slashes front fuel i) Q (P ++ replicate k SLASH ++ x :: R).
Proof.
  revert P. induction k as [|k IH]; intros P fuel x R i Q Hx Hf Hi HQ; (destruct fuel as [|fuel]; [lia|]); cbn [skip_slashes replicate app].
  - wp_step. apply wp_rd; [done|]. rewrite (proj2 (Z.eqb_neq _ _) Hx). cbn [andb]. wp_step. by rewrite Z.add_0_r in HQ.
  - wp_step. apply wp_rd; [done|]. change ((SLASH =? SLASH) && negb (SLASH =? 0)) with true. cbn iota. change (P ++ SLASH :: replicate k SLASH ++ x :: R) with (P ++ [SLASH] ++ (replicate k SLASH ++ x :: R)).
    rewrite (assoc_L (++) P). apply IH; [done|lia|rewrite length_app; cbn; lia|]. rewrite <- (assoc_L (++) P). cbn.
    by replace (i + 1 + Z.of_nat k) with (i + Z.of_nat (S k)) by lia.
Qed.
Lemma wp_erase_slashes P k : forall fuel x R i (Q : Z -> list Z -> Prop), x ≠ SLASH -> (S k < fuel)%nat -> i = Z.of_nat (length P) ->
  Q (i + Z.of_nat k + 1) (P ++ replicate k SLASH ++ x :: R) -> wp (erase_slashes front fuel SLASH i) Q (P ++ replicate k SLASH ++ x :: R).
Proof.
  revert P. induction k as [|k IH]; intros P fuel x R i Q Hx Hf Hi HQ; (destruct fuel as [|fuel]; [lia|]); cbn [erase_slashes replicate app]; rewrite Z.eqb_refl.
  - wp_step. apply wp_rd; [done|]. destruct fuel as [|fuel]; [lia|]. cbn [erase_slashes]. rewrite (proj2 (Z.eqb_neq _ _) Hx). wp_step. by rewrite Z.add_0_r in HQ.
  - wp_step. apply wp_rd; [done|]. change (P ++ SLASH :: replicate k SLASH ++ x :: R) with (P ++ [SLASH] ++ (replicate k SLASH ++ x :: R)).
    rewrite (assoc_L (++) P). apply IH; [done|lia|rewrite length_app; cbn; lia|]. rewrite <- (assoc_L (++) P). cbn.
    by replace (i + 1 + Z.of_nat k + 1) with (i + Z.of_nat (S k) + 1) by lia.
Qed.

Lemma wp_copy_name n : forall T J c R fuel src dst (Q : Z * Z * Z -> list Z -> Prop), plain n -> c = 0 \/ c = SLASH -> (length n < fuel)%nat ->
  dst = Z.of_nat (length T) -> src = dst + Z.of_nat (length J) ->
  (forall J', length J' = length J -> Q (c, src + Z.of_nat (length n) + 1, dst + Z.of_nat (length n)) ((T ++ n) ++ J' ++ c :: R)) ->
  wp (copy_name front fuel src dst) Q (T ++ J ++ n ++ c :: R).
Proof.
  induction n as [|x n IH]; intros T J c R fuel src dst Q Hn Hc Hf Hd Hs HQ; (destruct fuel as [|fuel]; [cbn in Hf; lia|]); cbn [copy_name app].
  - wp_step. rewrite (assoc_L (++)). apply wp_rd; [rewrite length_app; lia|].
    assert (negb (c =? 0) && negb (c =? SLASH) = false) as -> by (by destruct Hc as [-> | ->]).
    wp_step. specialize (HQ J eq_refl). cbn in HQ. rewrite app_nil_r, (assoc_L (++) T) in HQ. by rewrite !Z.add_0_r in HQ.
  - apply Forall_cons in Hn as [[Hx0 Hxs] Hn]. wp_step. rewrite (assoc_L (++) T J). apply wp_rd; [rewrite length_app; lia|].
    rewrite (proj2 (Z.eqb_neq _ _) Hx0), (proj2 (Z.eqb_neq _ _) Hxs). cbn [negb andb]. wp_step. rewrite <- (assoc_L (++) T J). rewrite Hd. apply wp_write_end.
    intros J' EJ. apply IH; [done|done|cbn in Hf; lia|rewrite length_app; cbn; lia|rewrite EJ; lia|]. intros J2 EJ2. cbn [length] in HQ.
    replace (src + 1 + Z.of_nat (length n) + 1) with (src + Z.of_nat (S (length n)) + 1) by lia.
    replace (Z.of_nat (length T) + 1 + Z.of_nat (length n)) with (dst + Z.of_nat (S (length n))) by lia.
    rewrite <- (assoc_L (++) T [x] n). apply HQ. congruence.
Qed.

(** Going up over a name. *)
Lemma wp_up_loop acc n : forall m R fuel (Q : Z -> list Z -> Prop), n = m ++ R -> plain n -> (length m < fuel)%nat -> forall S0,
  Q (Z.of_nat (length (text acc))) (text acc ++ n ++ S0) ->
  wp (up_loop front fuel (Z.of_nat (length (text acc ++ m)))) Q (text acc ++ n ++ S0).
Proof.
  intros m. induction m as [|x m IH] using rev_ind; intros R fuel Q En Hn Hf S0 HQ; (destruct fuel as [|fuel]; [rewrite ?length_app in Hf; cbn in Hf; lia|]); cbn [up_loop].
  - rewrite app_nil_r. destruct (Z.ltb_spec 0 (Z.of_nat (length (text acc)))) as [Hlt|Hge]; [|by wp_step].
    destruct acc as [|a acc' _] using rev_ind; [by cbn in Hlt|].
    assert (Eb : text (acc' ++ [a]) ++ n ++ S0 = (text acc' ++ a) ++ SLASH :: (n ++ S0)) by (rewrite text_snoc; by rewrite <- !(assoc_L (++))).
    assert (El : Z.of_nat (length (text (acc' ++ [a]))) - 1 = Z.of_nat (length (text acc' ++ a))) by (rewrite text_snoc, !length_app; cbn; lia).
    wp_step. rewrite Eb in HQ |- *. apply wp_rd; [done|]. change (negb (SLASH =? SLASH)) with false. cbn iota. by wp_step.
  - assert (Hx : x ≠ SLASH). { rewrite En in Hn. apply Forall_app in Hn as [Hn _]. apply Forall_app in Hn as [_ Hn]. apply Forall_cons in Hn as [[_ Hn] _]. done. }
    rewrite (proj2 (Z.ltb_lt _ _)) by (rewrite !length_app; cbn; lia). wp_step.
    assert (Eb : text acc ++ n ++ S0 = (text acc ++ m) ++ x :: (R ++ S0)). { rewrite En. by rewrite <- !(assoc_L (++)). }
    rewrite Eb. apply wp_rd; [rewrite !length_app; cbn; lia|]. rewrite (proj2 (Z.eqb_neq _ _) Hx). cbn [negb]. rewrite <- Eb.
    replace (Z.of_nat (length (text acc ++ m ++ [x])) - 1) with (Z.of_nat (length (text acc ++ m))) by (rewrite !length_app; cbn; lia).
    apply (IH (x :: R)); [by rewrite En, <- (assoc_L (++))|done|rewrite length_app in Hf; cbn in Hf; lia|done].
Qed.

Definition behind (t : list Z) : Z := match t with [] => 0 | _ :: r => 1 + Z.of_nat (length r) - Z.of_nat (length (drop_slashes r)) end.
Definition lexed (n t : list Z) (src : Z) : turn :=
  if decide (n = [DOT]) then (match t with [] => Name (src + 1) | _ => Skip (src + 1 + behind t) end)
  else if decide (n = [DOT; DOT]) then Up (src + 2 + behind t) else Name src.
Definition ends_name (t : list Z) : Prop := t = [] \/ exists r, t = SLASH :: r.

Lemma after_slash r : ~ 0 ∈ r -> exists k x R, r ++ [0] = replicate k SLASH ++ x :: R /\ x ≠ SLASH /\ x :: R = drop_slashes r ++ [0] /\
  Z.of_nat (length r) - Z.of_nat (length (drop_slashes r)) = Z.of_nat k.
Proof.
  intros H0. destruct (drop_slashes_app r) as [k Hk]. exists k. assert (El : length r = (k + length (drop_slashes r))%nat) by (rewrite Hk at 1; by rewrite length_app, length_replicate).
  destruct (drop_slashes r) as [|x R] eqn:Ed.
  - exists 0, []. split; [rewrite Hk; by rewrite <- (assoc_L (++))|]. split; [done|]. split; [done|]. lia.
  - exists x, (R ++ [0]). split; [rewrite Hk; by rewrite <- (assoc_L (++))|]. split; [by apply (drop_slashes_head r x R)|]. split; [done|]. lia.
Qed.

Lemma wp_dots size P n t (Q : turn -> list Z -> Prop) : plain n -> ends_name t -> ~ 0 ∈ t -> (length t <= size)%nat ->
  Q (lexed n t (Z.of_nat (length P))) (P ++ (n ++ t) ++ [0]) -> wp (dots front size (Z.of_nat (length P))) Q (P ++ (n ++ t) ++ [0]).
Proof.
  intros Hn Ht H0 Hf HQ. set (b := P ++ (n ++ t) ++ [0]) in *.
  assert (Hrd : forall i c (R : Z -> list Z -> Prop), ((n ++ t) ++ [0]) !! i = Some c -> R c b -> wp (rd front (Z.of_nat (length P) + Z.of_nat i)) R b).
  { intros i c R Hi HR. unfold b in *. rewrite <- (take_drop_middle _ _ _ Hi) in HR |- *. rewrite (assoc_L (++)) in HR |- *. apply wp_rd; [|done].
    rewrite length_app, length_take. apply lookup_lt_Some in Hi. lia. }
  assert (Hskip : forall m r (R : Z -> list Z -> Prop), n = m -> t = SLASH :: r -> R (Z.of_nat (length P) + Z.of_nat (length m) + behind t) b ->
    wp (skip_slashes front size (Z.of_nat (length P) + Z.of_nat (length m) + 1)) R b).
  { intros m r R -> -> HR. destruct (after_slash r) as (k & x & R' & E1 & Hx & _ & Ek); [intros H; apply H0; by right|]. cbn [behind] in HR. unfold b in *.
    assert (Eb : P ++ (m ++ SLASH :: r) ++ [0] = (P ++ m ++ [SLASH]) ++ replicate k SLASH ++ x :: R'). { rewrite <- E1. by rewrite <- !(assoc_L (++)). }
    rewrite Eb in HR |- *. apply wp_skip_slashes; [done|cbn in Hf; lia|rewrite !length_app; cbn; lia|].
    replace (Z.of_nat (length P) + Z.of_nat (length m) + 1 + Z.of_nat k) with (Z.of_nat (length P) + Z.of_nat (length m) + (1 + Z.of_nat (length r) - Z.of_nat (length (drop_slashes r)))) by lia.
    done. }
  unfold dots. wp_step. replace (Z.of_nat (length P)) with (Z.of_nat (length P) + Z.of_nat 0) at 1 by lia.
  destruct n as [|c n].
  { destruct Ht as [-> |(r & ->)]; apply (Hrd 0%nat _ _ eq_refl); by wp_step. }
  apply (Hrd 0%nat _ _ eq_refl). destruct (Z.eqb_spec c DOT) as [->|Hc]; cbn [negb].
  2:{ wp_step. unfold lexed in HQ. by rewrite !decide_False in HQ by congruence. }
  wp_step. change (Z.of_nat (length P) + 1) with (Z.of_nat (length P) + Z.of_nat 1) at 1.
  destruct n as [|d n].
  { destruct Ht as [-> |(r & ->)]; apply (Hrd 1%nat _ _ eq_refl); cbn [Z.eqb].
    - by wp_step.
    - change (SLASH =? 0) with false. change (SLASH =? SLASH) with true. cbn iota. wp_step.
      replace (Z.of_nat (length P) + 2) with (Z.of_nat (length P) + Z.of_nat (length [DOT]) + 1) by (cbn; lia). apply (Hskip [DOT] r); [done|done|]. by wp_step. }
  apply Forall_cons in Hn as [_ Hn]. apply Forall_cons in Hn as [[Hd0 Hds] Hn]. apply (Hrd 1%nat _ _ eq_refl).
  rewrite (proj2 (Z.eqb_neq _ _) Hd0), (proj2 (Z.eqb_neq _ _) Hds). destruct (Z.eqb_spec d DOT) as [->|Hd]; cbn [negb].
  2:{ wp_step. unfold lexed in HQ. rewrite !decide_False in HQ by congruence. done. }
  wp_step. change (Z.of_nat (length P) + 2) with (Z.of_nat (length P) + Z.of_nat 2) at 1.
  destruct n as [|e n].
  { destruct Ht as [-> |(r & ->)]; apply (Hrd 2%nat _ _ eq_refl).
    - cbn [Z.eqb]. wp_step. unfold lexed in HQ. cbn in HQ. by rewrite Z.add_0_r in HQ.
    - change (SLASH =? 0) with false. change (SLASH =? SLASH) with true. cbn iota. wp_step.
      replace (Z.of_nat (length P) + 3) with (Z.of_nat (length P) + Z.of_nat (length [DOT; DOT]) + 1) by (cbn; lia). apply (Hskip [DOT; DOT] r); [done|done|]. by wp_step. }
  apply Forall_cons in Hn as [[He0 Hes] Hn]. apply (Hrd 2%nat _ _ eq_refl).
  rewrite (proj2 (Z.eqb_neq _ _) He0), (proj2 (Z.eqb_neq _ _) Hes). wp_step. unfold lexed in HQ. by rewrite !decide_False in HQ by congruence.
Qed.

(** The end of the text after the loop: the names with their slashes, or the last one without. *)
Definition final_text (acc : list (list Z)) (T : list Z) : Prop :=
  T = text acc \/ exists l n, acc = l ++ [n] /\ n ≠ [] /\ plain n /\ T = text l ++ n.
Definition loop_post (b0 : list Z) (res : option (list (list Z))) (Q : option Z -> list Z -> Prop) : Prop :=
  match res with
  | None => forall b, Q None b
  | Some acc => forall b T R, b = T ++ R -> R ≠ [] -> length b = length b0 -> final_text acc T -> Forall plain acc -> Q (Some (Z.of_nat (length T))) b
  end.

Definition names_of (n t : list Z) : list (list Z) := match t with [] => if decide (n = []) then [] else [n] | _ :: r => n :: names (drop_slashes r) end.
Lemma names_of_eq n t : plain n -> ends_name t -> names (n ++ t) = names_of n t.
Proof. intros Hn [-> |(r & ->)]; [rewrite app_nil_r; by apply names_end|by apply names_slash]. Qed.

(** A name is copied, and the text ends or has a slash more. *)
Lemma wp_name size acc J n t (Q : option Z -> list Z -> Prop) fuel src : plain n -> ends_name t -> ~ 0 ∈ t -> Forall plain acc ->
  let b := text acc ++ J ++ (n ++ t) ++ [0] in (length b < size)%nat -> src = Z.of_nat (length (text acc)) + Z.of_nat (length J) ->
  (t = [] -> loop_post b (Some (if decide (n = []) then acc else acc ++ [n])) Q) ->
  (forall r J', t = SLASH :: r -> length (text (acc ++ [n]) ++ J' ++ drop_slashes r ++ [0]) = length b ->
     wp (normalize_loop front size fuel (Z.of_nat (length (text (acc ++ [n]))) + Z.of_nat (length J')) (Z.of_nat (length (text (acc ++ [n]))))) Q
       (text (acc ++ [n]) ++ J' ++ drop_slashes r ++ [0])) ->
  wp ('(c, src, dst) ← copy_name front size src (Z.of_nat (length (text acc)));
      if c =? SLASH then
        wr front dst SLASH ;;
        src ← erase_slashes front size c src;
        normalize_loop front size fuel (src - 1) (dst + 1)
      else mret (Some dst)) Q b.
Proof.
  intros Hn Ht H0 Hacc b Hsize Hsrc Hend Hgo. unfold b in *. clear b. rewrite wp_bind. destruct Ht as [-> |(r & ->)].
  - rewrite app_nil_r in *. apply wp_copy_name; [done|by left|rewrite !length_app in Hsize; lia|done|lia|]. intros J' EJ. change (0 =? SLASH) with false. cbn iota. wp_step.
    specialize (Hend eq_refl). cbn in Hend. rewrite <- Nat2Z.inj_add, <- length_app. apply (Hend _ _ (J' ++ [0])).
    + done.
    + by destruct J'.
    + rewrite !length_app. cbn. lia.
    + destruct (decide (n = [])) as [->|Hne]; [left; by rewrite app_nil_r|right]. by exists acc, n.
    + case_decide; [done|]. apply Forall_app. by repeat constructor.
  - assert (Eb : (n ++ SLASH :: r) ++ [0] = n ++ SLASH :: (r ++ [0])) by by rewrite <- (assoc_L (++)). rewrite Eb in *.
    apply wp_copy_name; [done|by right|rewrite !length_app in Hsize; lia|done|lia|]. intros J' EJ. rewrite Z.eqb_refl.
    rewrite <- (Nat2Z.inj_add (length (text acc))), <- length_app. wp_step. apply (wp_write_end (text acc ++ n) J'). intros J2 EJ2. wp_step.
    assert (Et : (text acc ++ n) ++ [SLASH] = text (acc ++ [n])) by (rewrite text_snoc; by rewrite (assoc_L (++))). rewrite Et.
    assert (H0r : ~ 0 ∈ r) by (intros H; apply H0; by right). destruct (after_slash r H0r) as (k & x & R' & E1 & Hx & E2 & Ek). rewrite E1.
    rewrite (assoc_L (++) (text _) J2). apply wp_erase_slashes; [done| | |].
    + rewrite !length_app in Hsize. cbn in Hsize. rewrite length_app in Hsize. apply (f_equal length) in E1. rewrite !length_app, length_replicate in E1. cbn in E1. lia.
    + rewrite length_app, <- Et, !length_app. cbn. lia.
    + rewrite E2. rewrite <- (assoc_L (++) (text _)), (assoc_L (++) J2).
      replace (src + Z.of_nat (length n) + 1 + Z.of_nat k + 1 - 1) with (Z.of_nat (length (text (acc ++ [n]))) + Z.of_nat (length (J2 ++ replicate k SLASH)))
        by (rewrite <- Et, !length_app, length_replicate; cbn; lia).
      replace (Z.of_nat (length (text acc ++ n)) + 1) with (Z.of_nat (length (text (acc ++ [n])))) by (rewrite <- Et, !length_app; cbn; lia).
      apply Hgo; [done|]. apply (f_equal length) in E1. rewrite !length_app, length_replicate in E1. cbn in E1. rewrite !length_app, ?length_replicate.
      apply (f_equal length) in E2. rewrite length_app in E2. cbn in E2. rewrite <- Et, !length_app. cbn. rewrite length_app. cbn. lia.
Qed.

Definition rest (t : list Z) : list Z := match t with [] => [] | _ :: r => drop_slashes r end.
Lemma rest_gap t : ends_name t -> exists gap, t = gap ++ rest t /\ Z.of_nat (length gap) = behind t.
Proof.
  intros [-> |(r & ->)]; [by exists []|]. destruct (drop_slashes_app r) as [k Hk]. exists (SLASH :: replicate k SLASH). cbn [rest behind app]. split; [by rewrite <- Hk|].
  apply (f_equal length) in Hk. rewrite length_app, length_replicate in Hk. cbn. rewrite length_replicate. lia.
Qed.
Lemma rest_no_zero t : ends_name t -> ~ 0 ∈ t -> ~ 0 ∈ rest t.
Proof. intros Ht H0 H. destruct (rest_gap t Ht) as (gap & E & _). apply H0. rewrite E. apply elem_of_app. by right. Qed.
Lemma names_of_rest n t : n ≠ [] -> ends_name t -> names_of n t = n :: names (rest t).
Proof. intros Hn [-> |(r & ->)]; [cbn; by rewrite decide_False|done]. Qed.

Section step.
Context (size fuel : nat).
(** What is proved of the turns left. *)
Definition turns_right : Prop := forall rem acc J (Q : option Z -> list Z -> Prop),
  let b := text acc ++ J ++ rem ++ [0] in (length rem + 1 < fuel)%nat -> (length b < size)%nat -> ~ 0 ∈ rem -> Forall plain acc ->
  loop_post b (walk acc (names rem)) Q ->
  wp (normalize_loop front size fuel (Z.of_nat (length (text acc)) + Z.of_nat (length J)) (Z.of_nat (length (text acc)))) Q b.
Context (IH : turns_right).

(** Behind a name that has been passed over. *)
Lemma wp_passed acc J n t (Q : option Z -> list Z -> Prop) src : n ≠ [] -> ends_name t -> ~ 0 ∈ t -> Forall plain acc -> (length (n ++ t) < fuel)%nat ->
  let b := text acc ++ J ++ (n ++ t) ++ [0] in (length b < size)%nat ->
  src = Z.of_nat (length (text acc ++ J)) + Z.of_nat (length n) + behind t ->
  loop_post b (walk acc (names (rest t))) Q -> wp (normalize_loop front size fuel src (Z.of_nat (length (text acc)))) Q b.
Proof.
  intros Hne Ht H0 Hacc Hf b Hsize -> HQ. destruct (rest_gap t Ht) as (gap & E & El). pose proof (rest_no_zero t Ht H0) as H0r. rewrite <- El.
  assert (Eb : b = text acc ++ (J ++ n ++ gap) ++ rest t ++ [0]) by (unfold b; rewrite E at 1; by rewrite <- !(assoc_L (++))).
  replace (Z.of_nat (length (text acc ++ J)) + Z.of_nat (length n) + Z.of_nat (length gap)) with (Z.of_nat (length (text acc)) + Z.of_nat (length (J ++ n ++ gap))) by (rewrite !length_app; lia).
  rewrite Eb in *. apply IH; try done. rewrite E in Hf. rewrite !length_app in Hf. destruct n; [done|]. cbn in Hf. lia.
Qed.
Lemma text_nil acc : text acc = [] -> acc = [].
Proof. destruct acc as [|n acc]; [done|]. unfold text. cbn. by destruct n. Qed.

Lemma wp_up acc J t (Q : option Z -> list Z -> Prop) src : ends_name t -> ~ 0 ∈ t -> Forall plain acc -> (length ([DOT; DOT] ++ t) < fuel)%nat ->
  let b := text acc ++ J ++ ([DOT; DOT] ++ t) ++ [0] in (length b < size)%nat -> src = Z.of_nat (length (text acc ++ J)) + 2 + behind t ->
  loop_post b (if decide (acc = []) then None else walk (removelast acc) (names (rest t))) Q ->
  wp (let dst := Z.of_nat (length (text acc)) - 1 in
      if dst <? 0 then mret None else dst ← up_loop front size dst; normalize_loop front size fuel src dst) Q b.
Proof.
  intros Ht H0 Hacc Hf b Hsize Hsrc HQ. cbn zeta. destruct (decide (acc = [])) as [->|Hne].
  { change (wp (mret None) Q b). rewrite wp_ret. apply HQ. }
  destruct acc as [|m l _] using rev_ind; [done|]. rewrite removelast_snoc in HQ. apply Forall_app in Hacc as [Hl Hm]. apply Forall_cons in Hm as [Hm _].
  destruct (Z.ltb_spec (Z.of_nat (length (text (l ++ [m]))) - 1) 0) as [Hlt|_]; [rewrite text_snoc, !length_app in Hlt; cbn in Hlt; lia|].
  wp_step. replace (Z.of_nat (length (text (l ++ [m]))) - 1) with (Z.of_nat (length (text l ++ m))) by (rewrite text_snoc, !length_app; cbn; lia).
  assert (Eb : b = text l ++ m ++ ([SLASH] ++ J ++ ([DOT; DOT] ++ t) ++ [0])) by (unfold b; rewrite text_snoc; by rewrite <- !(assoc_L (++))).
  rewrite Eb in *. apply (wp_up_loop l m m []); [by rewrite app_nil_r|done|rewrite !length_app in Hsize; lia|].
  assert (Eb' : text l ++ m ++ ([SLASH] ++ J ++ ([DOT; DOT] ++ t) ++ [0]) = text l ++ (m ++ [SLASH] ++ J) ++ ([DOT; DOT] ++ t) ++ [0]) by by rewrite <- !(assoc_L (++)).
  rewrite Eb' in *. apply (wp_passed l (m ++ [SLASH] ++ J) [DOT; DOT] t); try done.
  rewrite Hsrc, text_snoc, !length_app. cbn [length]. lia.
Qed.
End step.

Lemma wp_normalize_loop size : forall fuel, turns_right size fuel.
Proof.
  induction fuel as [|fuel IH]; intros rem acc J Q b Hf Hsize H0 Hacc HQ; [lia|]. cbn [normalize_loop]. wp_step.
  destruct (first_name rem H0) as (n & Hn & Hrem). assert (Ht : exists t, rem = n ++ t /\ ends_name t).
  { destruct Hrem as [->|(r & ->)]; [exists []; split; [by rewrite app_nil_r|by left]|exists (SLASH :: r); split; [done|by right; exists r]]. }
  clear Hrem. destruct Ht as (t & -> & Ht). assert (H0t : ~ 0 ∈ t) by (intros H; apply H0, elem_of_app; by right).
  rewrite names_of_eq in HQ by done. unfold b in *. clear b.
  rewrite (assoc_L (++)), <- (Nat2Z.inj_add (length (text acc))), <- length_app.
  apply wp_dots; [done|done|done|rewrite !length_app in Hsize; lia|]. rewrite <- (assoc_L (++) (text acc)). unfold lexed.
  destruct (decide (n = [DOT])) as [->|H1].
  { rewrite names_of_rest in HQ by done. cbn [walk] in HQ. rewrite decide_True in HQ by done. destruct Ht as [-> |(r & ->)].
    - assert (Eb : text acc ++ J ++ ([DOT] ++ []) ++ [0] = text acc ++ (J ++ [DOT]) ++ ([] ++ []) ++ [0]) by by rewrite <- !(assoc_L (++)).
      rewrite Eb in *. apply wp_name; try done; [constructor|by left|rewrite ?length_app; cbn; lia].

    - apply (wp_passed size fuel IH acc J [DOT] (SLASH :: r)); try done; [by right; exists r|rewrite ?length_app in Hf |- *; cbn in Hf |- *; lia]. }
  destruct (decide (n = [DOT; DOT])) as [->|H2].
  { rewrite names_of_rest in HQ by done. cbn [walk] in HQ. rewrite decide_False, decide_True in HQ by done.
    apply (wp_up size fuel IH); try done. rewrite length_app in *. cbn in *. lia. }
  apply wp_name; try done; [rewrite length_app; lia| |].
  - intros ->. cbn [names_of] in HQ. destruct (decide (n = [])) as [->|Hne]; [done|]. cbn [walk] in HQ. by rewrite !decide_False in HQ by done.
  - intros r J' -> El. apply IH; try done.
    + rewrite length_app in Hf. cbn in Hf. destruct (drop_slashes_app r) as [k Hk]. apply (f_equal length) in Hk. rewrite length_app in Hk. lia.
    + by rewrite El.
    + apply (rest_no_zero (SLASH :: r)); [by right; exists r|done].
    + apply Forall_app. by repeat constructor.
    + cbn [names_of walk] in HQ. rewrite !decide_False in HQ by done. unfold loop_post in *. destruct (walk _ _); [|done]. intros b T R Eb HR EL Hfin Hpl. apply (HQ b T R); [done|done|congruence|done|done].
Qed.

(** ** The end *)

Lemma c_string_plain T R : ~ 0 ∈ T -> c_string (T ++ 0 :: R) = T.
Proof.
  induction T as [|c T IH]; intros H0; [done|]. cbn. destruct (Z.eqb_spec c 0) as [->|Hc]; [destruct H0; by left|]. rewrite IH; [done|]. intros H. apply H0. by right.
Qed.
Lemma text_no_zero acc : Forall plain acc -> ~ 0 ∈ text acc.
Proof.
  induction 1 as [|n acc Hn _ IH]; [by intros H%elem_of_nil|]. unfold text. cbn. rewrite elem_of_app. intros [H|H]; [|done].
  apply elem_of_app in H as [H|H%list_elem_of_singleton]; [|done]. unfold plain in Hn. rewrite Forall_forall in Hn. by destruct (Hn 0 H).
Qed.
Lemma final_no_zero acc T : Forall plain acc -> final_text acc T -> ~ 0 ∈ T.
Proof.
  intros Ha [->|(l & n & -> & _ & Hn & ->)]; [by apply text_no_zero|]. apply Forall_app in Ha as [Hl _]. rewrite elem_of_app. intros [H|H]; [by apply (text_no_zero l)|].
  unfold plain in Hn. rewrite Forall_forall in Hn. by destruct (Hn 0 H).
Qed.

(** A slash at the end goes, unless it is the first character, and an empty path is the root. *)
Definition stripped (T : list Z) : list Z :=
  match T with [] => [SLASH] | [_] => T | _ => if decide (last T = Some SLASH) then removelast T else T end.
Lemma stripped_final acc T : Forall plain acc -> final_text acc T -> stripped T = render acc.
Proof.
  intros Ha [->|(l & n & -> & Hne & Hn & ->)].
  - destruct acc as [|n l _] using rev_ind; [done|]. unfold render. rewrite join_snoc, text_snoc, (assoc_L (++)).
    destruct (text l ++ n) as [|c r] eqn:E; [done|]. rewrite decide_False by done. unfold stripped. cbn [app]. destruct (r ++ [SLASH]) eqn:Er; [by destruct r|]. rewrite <- Er.
    rewrite decide_True by (change (c :: r ++ [SLASH]) with ((c :: r) ++ [SLASH]); by rewrite last_snoc).
    change (c :: r ++ [SLASH]) with ((c :: r) ++ [SLASH]). by rewrite removelast_snoc.
  - unfold render. rewrite join_snoc. destruct n as [|x n _] using rev_ind; [done|]. rewrite (assoc_L (++)).
    rewrite decide_False by (intros H%(f_equal length); rewrite length_app in H; cbn in H; lia).
    apply Forall_app in Hn as [_ Hn]. apply Forall_cons in Hn as [[_ Hx] _].
    unfold stripped. destruct (text l ++ n) as [|c r]; [done|]. cbn [app]. destruct (r ++ [x]) eqn:Er; [by destruct r|]. rewrite <- Er.
    rewrite decide_False; [done|]. change (c :: r ++ [x]) with ((c :: r) ++ [x]). rewrite last_snoc. congruence.
Qed.

Lemma wp_rd_front (Q : Z -> list Z -> Prop) b : Q front b -> wp (rd front (-1)) Q b.
Proof. done. Qed.
Lemma wp_finish T R (Q : unit -> list Z -> Prop) : front ≠ SLASH -> ~ 0 ∈ T -> R ≠ [] -> (2 <= length (T ++ R))%nat ->
  (forall R', Q tt (stripped T ++ 0 :: R')) -> wp (finish front (Z.of_nat (length T))) Q (T ++ R).
Proof.
  intros Hfr H0 HR Hlen HQ. destruct R as [|x R]; [done|]. unfold finish. wp_step. apply wp_wr; [done|]. cbn zeta.
  destruct T as [|c T].
  - change (Z.of_nat (length []) - 1) with (-1). wp_step. apply wp_rd_front. change (negb (-1 =? 0)) with true. rewrite (proj2 (Z.eqb_neq _ _) Hfr). cbn [andb when app]. wp_step.
    wp_step. wp_step. apply (wp_rd []); [done|]. cbn [Z.eqb when]. destruct R as [|y R]; [cbn in Hlen; lia|]. wp_step. apply (wp_wr []); [done|]. apply (wp_wr [SLASH]); [done|]. apply (HQ R).
  - assert (Hc : c ≠ 0) by (intros ->; apply H0; by left). destruct T as [|d T _] using rev_ind.
    + change (Z.of_nat (length [c]) - 1) with 0. wp_step. apply (wp_rd []); [done|]. cbn [Z.eqb negb andb when]. wp_step. wp_step. wp_step.
      apply (wp_rd []); [done|]. rewrite (proj2 (Z.eqb_neq _ _) Hc). cbn [when]. wp_step. apply HQ.
    + assert (Estr : stripped (c :: T ++ [d]) = if decide (d = SLASH) then c :: T else c :: T ++ [d]).
      { unfold stripped. destruct (T ++ [d]) eqn:E; [by destruct T|]. rewrite <- E. change (c :: T ++ [d]) with ((c :: T) ++ [d]). rewrite last_snoc, removelast_snoc.
        repeat case_decide; congruence. }
      rewrite Estr in HQ. wp_step.
      assert (Eb : (c :: T ++ [d]) ++ 0 :: R = (c :: T) ++ d :: 0 :: R) by (change (c :: T ++ [d]) with ((c :: T) ++ [d]); by rewrite <- (assoc_L (++))). rewrite Eb.
      apply wp_rd; [cbn; rewrite length_app; cbn; lia|]. wp_step.
      assert (Hd : Z.of_nat (length (c :: T ++ [d])) - 1 = Z.of_nat (length (c :: T))) by (cbn; rewrite length_app; cbn; lia). rewrite Hd.
      assert (Hfin : forall b' U, b' = c :: U -> Q tt b' -> wp (x ← rd front 0; when (x =? 0) (wr front 0 SLASH ;; wr front 1 0)) Q b').
      { intros b' U -> HQ'. wp_step. apply (wp_rd []); [done|]. rewrite (proj2 (Z.eqb_neq _ _) Hc). exact HQ'. }
      rewrite (proj2 (Z.eqb_neq (Z.of_nat (length (c :: T))) 0)) by (cbn; lia). cbn [negb andb]. destruct (Z.eqb_spec d SLASH) as [->|Hds]; cbn [when].
      * rewrite decide_True in HQ by done. apply wp_wr; [done|]. eapply Hfin; [done|]. apply HQ.
      * rewrite decide_False in HQ by done. wp_step. eapply Hfin; [done|]. rewrite <- Eb. apply HQ.
Qed.

Lemma normalize_eq s : ~ 0 ∈ s -> s ≠ [] -> front ≠ SLASH -> normalize front (s ++ [0]) = Some (normal s).
Proof.
  intros H0 Hs Hfr. unfold normalize, normal.
  assert (Hw : wp (r ← normalize_loop front (S (length (s ++ [0]))) (S (length (s ++ [0]))) 0 0; match r with None => mret false | Some dst => finish front dst ;; mret true end)
    (fun r b => match walk [] (names s) with None => r = false | Some acc => r = true /\ exists R, b = render acc ++ 0 :: R /\ ~ 0 ∈ render acc end) (s ++ [0])).
  { wp_step. apply (wp_normalize_loop (S (length (s ++ [0]))) (S (length (s ++ [0]))) s [] []); [rewrite length_app; cbn; lia|cbn; rewrite length_app; cbn; lia|done|constructor|].
    unfold loop_post. destruct (walk [] (names s)) as [acc|]; [|done]. intros b T R -> HR El Hfin Hacc. pose proof (final_no_zero acc T Hacc Hfin) as H0T.
    rewrite <- (stripped_final acc T Hacc Hfin). wp_step. apply wp_finish; [done|done|done| |].
    - rewrite El. cbn. rewrite length_app. destruct s; [done|]. cbn. lia.
    - intros R'. wp_step. split; [done|]. exists R'. split; [done|]. intros H. destruct T as [|c T]; [by apply elem_of_cons in H as [|H%elem_of_nil]|].
      unfold stripped in H. destruct T as [|d T]; [done|]. case_decide as Hd; [|done]. apply H0T. apply last_Some in Hd as (T' & E). rewrite E in H |- *.
      rewrite removelast_snoc in H. apply elem_of_app. by left. }
  apply wp_unfold in Hw as (r & b & -> & Hr). destruct (walk [] (names s)) as [acc|]; [|by rewrite Hr].
  destruct Hr as (-> & R & -> & Hz). cbn. by rewrite c_string_plain.
Qed.
End proofs.

(** ** Normal paths *)

Definition good_names (acc : list (list Z)) : Prop :=
  Forall (fun n => plain n /\ n ≠ [DOT] /\ n ≠ [DOT; DOT]) acc /\ Forall (fun n => n ≠ []) (tail acc).

Lemma names_good s : ~ 0 ∈ s -> Forall plain (names s) /\ Forall (fun n => n ≠ []) (tail (names s)).
Proof.
  intros H0. remember (length s) as m eqn:Em. assert (Hm : (length s <= m)%nat) by lia. clear Em. revert s H0 Hm.
  induction m as [|m IH]; intros s H0 Hm; [destruct s; [by repeat constructor|cbn in Hm; lia]|].
  destruct (first_name s H0) as (n & Hn & [->|(r & ->)]); [rewrite names_end by done; case_decide; by repeat constructor|].
  rewrite names_slash by done. cbn [tail]. rewrite length_app in Hm. cbn in Hm.
  destruct (drop_slashes_app r) as [k Hk]. destruct (IH (drop_slashes r)) as [H1 H2].
  - apply (rest_no_zero (SLASH :: r)); [by right; exists r|]. intros H. apply H0. apply elem_of_app. by right.
  - apply (f_equal length) in Hk. rewrite length_app in Hk. lia.
  - split; [by constructor|]. destruct (drop_slashes r) as [|c r'] eqn:Ed; [constructor|].
    destruct (first_name (c :: r')) as (n2 & Hn2 & Hr).
    { rewrite <- Ed. apply (rest_no_zero (SLASH :: r)); [by right; exists r|]. intros H. apply H0. apply elem_of_app. by right. }
    assert (Hne : n2 ≠ []). { intros ->. destruct Hr as [Hr|(r2 & Hr)]; [done|]. injection Hr as -> _. by apply (drop_slashes_head r SLASH r'). }
    destruct Hr as [Hr|(r2 & Hr)]; rewrite Hr in H2 |- *.
    + rewrite names_end, decide_False by done. by repeat constructor.
    + rewrite names_slash in H2 |- * by done. by constructor.
Qed.
Lemma walk_good ns : forall acc acc', good_names acc -> Forall plain ns -> Forall (fun n => n ≠ []) ns -> walk acc ns = Some acc' -> good_names acc'.
Proof.
  induction ns as [|n ns IH]; intros acc acc' Ha Hp Hne E; [by injection E as <-|]. apply Forall_cons in Hp as [Hn Hp]. apply Forall_cons in Hne as [Hn0 Hne].
  cbn [walk] in E. case_decide as H1; [by eapply IH|]. case_decide as H2.
  - case_decide as H3; [done|]. apply (IH _ _) in E; [done| |done|done]. destruct acc as [|m l _] using rev_ind; [done|]. rewrite removelast_snoc.
    destruct Ha as [A1 A2]. apply Forall_app in A1 as [A1 _]. split; [done|]. destruct l as [|x l]; [constructor|]. cbn in A2. by apply Forall_app in A2 as [A2 _].
  - apply (IH _ _) in E; [done| |done|done]. destruct Ha as [A1 A2]. split; [apply Forall_app; by repeat constructor|].
    destruct acc as [|x l]; [constructor|]. cbn. apply Forall_app. by repeat constructor.
Qed.
Lemma normal_names s acc : ~ 0 ∈ s -> walk [] (names s) = Some acc -> good_names acc.
Proof.
  intros H0 E. destruct (names_good s H0) as [Hp Ht]. destruct (names s) as [|n ns]; [injection E as <-; repeat constructor|].
  cbn [tail] in Ht. apply Forall_cons in Hp as [Hn Hp]. cbn [walk] in E. case_decide as H1; [apply (walk_good ns [] acc); try done; repeat constructor|].
  case_decide as H2; [done|]. apply (walk_good ns [n] acc); try done. split; [by repeat constructor|constructor].
Qed.

Lemma walk_id ns : forall acc, Forall (fun n => plain n /\ n ≠ [DOT] /\ n ≠ [DOT; DOT]) ns -> walk acc ns = Some (acc ++ ns).
Proof.
  induction ns as [|n ns IH]; intros acc Hns; [by rewrite app_nil_r|]. apply Forall_cons in Hns as [(_ & H1 & H2) Hns]. cbn [walk].
  rewrite !decide_False by done. rewrite IH by done. by rewrite <- (assoc_L (++)).
Qed.
Lemma join_cons n m acc : join (n :: m :: acc) = n ++ SLASH :: join (m :: acc).
Proof.
  unfold join, text. cbn [fmap list_fmap concat]. rewrite <- (assoc_L (++)). cbn [app].
  rewrite removelast_app by done. f_equal. change (SLASH :: (m ++ [SLASH]) ++ concat ((λ n0, n0 ++ [SLASH]) <$> acc)) with ([SLASH] ++ ((m ++ [SLASH]) ++ concat ((λ n0, n0 ++ [SLASH]) <$> acc))).
  rewrite removelast_app; [done|]. by destruct m.
Qed.
Lemma join_one n : join [n] = n.
Proof. exact (join_snoc [] n). Qed.
Lemma names_join acc : good_names acc -> join acc ≠ [] -> names (join acc) = acc.
Proof.
  induction acc as [|n acc IH]; intros [Ha Ht] Hj; [done|]. apply Forall_cons in Ha as [(Hn & _) Ha]. cbn [tail] in Ht.
  destruct acc as [|m acc]; [rewrite join_one in Hj |- *; by rewrite names_end, decide_False|]. rewrite join_cons, names_slash by done. f_equal.
  pose proof Ht as Ht0. apply Forall_cons in Ht as [Hm Ht]. apply Forall_cons in Ha as [(Hmp & Hm') Ha].
  assert (Hd : drop_slashes (join (m :: acc)) = join (m :: acc)).
  { destruct m as [|c m]; [done|]. apply Forall_cons in Hmp as [[_ Hc] _]. destruct acc as [|m2 acc].
    - rewrite join_one. cbn. by rewrite (proj2 (Z.eqb_neq _ _) Hc).
    - rewrite join_cons. cbn. by rewrite (proj2 (Z.eqb_neq _ _) Hc). }
  rewrite Hd. apply IH; [split; [by constructor|done]|]. intros E. destruct acc as [|m2 acc]; [by rewrite join_one in E|]. rewrite join_cons in E. by destruct m.
Qed.

(** A normal path is its own normal form. *)
Lemma normal_render acc : good_names acc -> normal (render acc) = Some (render acc).
Proof.
  intros Ha. unfold render. case_decide as E; [done|]. unfold normal. rewrite names_join, walk_id by (apply Ha || done). cbn. unfold render. by rewrite decide_False.
Qed.

(** A path that begins with a slash stays in the root as long as no name of two dots leads above it;
    [above] counts the names below the root. *)
Fixpoint stays (depth : nat) (ns : list (list Z)) : Prop :=
  match ns with
  | [] => True
  | n :: ns =>
      if decide (n = [DOT]) then stays depth ns
      else if decide (n = [DOT; DOT]) then match depth with O => False | S d => stays d ns end
      else stays (S depth) ns
  end.
Lemma walk_stays ns : forall l, stays (length l) ns -> exists l', walk ([] :: l) ns = Some ([] :: l').
Proof.
  induction ns as [|n ns IH]; intros l Hs; [by exists l|]. cbn [walk stays] in *. case_decide; [by apply IH|]. case_decide.
  - rewrite decide_False by done. destruct l as [|m l _] using rev_ind; [done|]. rewrite length_app, Nat.add_comm in Hs. cbn in Hs.
    rewrite app_comm_cons, removelast_snoc. by apply IH.
  - destruct (IH (l ++ [n])) as (l' & E); [rewrite length_app, Nat.add_comm; done|]. exists l'. by rewrite <- app_comm_cons.
Qed.
Lemma stays_absolute r : ~ 0 ∈ r -> stays 0 (names (drop_slashes r)) -> exists p, normal (SLASH :: r) = Some p /\ head p = Some SLASH.
Proof.
  intros H0 Hs. change (SLASH :: r) with ([] ++ SLASH :: r). unfold normal. rewrite names_slash by constructor. cbn [walk]. rewrite !decide_False by done. cbn [app].
  destruct (walk_stays _ [] Hs) as (l' & E). rewrite E. eexists. split; [done|]. unfold render. case_decide as Hj; [done|]. destruct l' as [|m l']; [done|]. by rewrite join_cons.
Qed.

Definition path_of (working_directory : list Z) (directory : option (list Z)) (filename : list Z) : list Z :=
  if decide (head filename = Some SLASH) then filename else default working_directory directory ++ [SLASH] ++ filename.
Lemma dfs_normalize_path_eq front wd dir file : front ≠ SLASH -> ~ 0 ∈ path_of wd dir file ->
  dfs_normalize_path front true wd dir file = Some (normal (path_of wd dir file)).
Proof.
  intros Hfr H0. unfold dfs_normalize_path. cbn [negb].
  assert (Erel : head file ≠ Some SLASH -> normalize front (default wd dir ++ [SLASH] ++ file ++ [0]) = Some (normal (path_of wd dir file))).
  { intros Hh. unfold path_of in *. rewrite decide_False in * by done. rewrite <- (normalize_eq front) by (done || by destruct (default wd dir)).
    by rewrite <- !(assoc_L (++)). }
  destruct file as [|c file]; [by apply Erel|]. cbn [head default id]. destruct (Z.eqb_spec c SLASH) as [->|Hc]; cbn [negb].
  - unfold path_of in *. rewrite decide_True in * by done. by apply normalize_eq.
  - apply Erel. cbn. congruence.
Qed.



(** One name of two dots too many takes the root away, and is not refused: "/../a" is "a". *)
Lemma above_root_relative : dfs_normalize_path 0 true [SLASH] None [47; 46; 46; 47; 97] = Some (Some [97]).
Proof. vm_compute. reflexivity. Qed.
(** For an empty result the byte in front of the buffer is read, and cleared when it is a slash: "/..". *)
Lemma front_of_buffer : dfs_normalize_path 0 true [SLASH] None [47; 46; 46] = Some (Some [SLASH]) /\
  dfs_normalize_path SLASH true [SLASH] None [47; 46; 46] = None.
Proof. split; vm_compute; reflexivity. Qed.

(** ** The path below the directory *)

Lemma dfs_subdir_same d : dfs_subdir d d = Some None.
Proof. unfold dfs_subdir. by rewrite Z.eqb_refl. Qed.
Lemma dfs_subdir_below d x : d ≠ [] -> dfs_subdir d (d ++ SLASH :: x) = Some (Some (Z.of_nat (length d))).
Proof.
  intros Hd. unfold dfs_subdir. rewrite length_app. cbn [length]. rewrite (proj2 (Z.eqb_neq _ _)) by lia. rewrite Nat2Z.id.
  rewrite <- (assoc_L (++)). cbn. rewrite list_lookup_middle by done. by rewrite Z.eqb_refl.
Qed.
Lemma dfs_subdir_root c x : c ≠ SLASH -> dfs_subdir [SLASH] (SLASH :: c :: x) = Some (Some 0).
Proof.
  intros Hc. unfold dfs_subdir. cbn [length]. rewrite (proj2 (Z.eqb_neq _ _)) by lia. change (Z.to_nat (Z.of_nat 1)) with 1%nat.
  cbn [app lookup list_lookup]. by rewrite (proj2 (Z.eqb_neq _ _) Hc).
Qed.
