(* ===== verification/Dfs.v ===== *)
(** * Dfs: the device file system, components/dfs/src/dfs.c, dfs_fs.c and dfs_file.c

    The table of file descriptors, the tables of file systems and of what is mounted, and the calls
    on files, over file systems whose functions are parameters.  Strings are their bytes without the
    0 at the end; the files and file systems a pointer may point to are named by numbers.  The code
    between dfs_lock and dfs_unlock is one step: the lock is a mutex, of which Mutex has the theorems. *)

From S2P Require Import Prelude DfsPath.

#[local] Open Scope Z_scope.

Definition DFS_FILESYSTEM_TYPES_MAX : nat := 2.
Definition DFS_FILESYSTEMS_MAX : nat := 2.
Definition DFS_FD_MAX : nat := 16.
Definition DFS_FD_OFFSET : Z := 3.
Definition DFS_PATH_MAX : nat := 256.
Definition DFS_FD_MAGIC : Z := 0xfdfd.
Definition DFS_FS_FLAG_FULLPATH : Z := 0x01.
Definition FT_REGULAR : Z := 0.
Definition FT_DIRECTORY : Z := 2.
Definition FT_DEVICE : Z := 4.
Definition DFS_F_OPEN : Z := 0x01000000.
Definition DFS_F_DIRECTORY : Z := 0x02000000.
Definition DFS_F_EOF : Z := 0x04000000.

(** The numbers of libc_errno.h and libc_fcntl.h. *)
Definition ENOENT : Z := 2.
Definition EIO : Z := 5.
Definition ENXIO : Z := 6.
Definition EBADF : Z := 9.
Definition ENOMEM : Z := 12.
Definition EBUSY : Z := 16.
Definition EEXIST : Z := 17.
Definition EXDEV : Z := 18.
Definition ENODEV : Z := 19.
Definition ENOTDIR : Z := 20.
Definition EINVAL : Z := 22.
Definition ENOSPC : Z := 28.
Definition ENOSYS : Z := 38.
Definition O_RDONLY : Z := 0.
Definition O_CREAT : Z := 0x40.
Definition O_APPEND : Z := 0x400.
Definition O_NONBLOCK : Z := 0x800.
Definition O_DIRECTORY : Z := 0x10000.
Definition F_GETFL : Z := 3.
Definition F_SETFL : Z := 4.

(** ** The data *)

(** What the data of a file point to: nothing, an entry of the table of file systems, or something of
    the file system's own. *)
Inductive fd_pointer := PNull | PFs (i : nat) | POwn (p : Z).

(** struct dfs_fd *)
Record dfs_fd := mkFd {
  fd_magic : Z;
  fd_type : Z;
  fd_path : option (list Z);
  fd_ref_count : Z;
  fd_fs : option nat;
  fd_fops : option nat;
  fd_flags : Z;
  fd_size : Z;
  fd_pos : Z;
  fd_data : fd_pointer
}.
(** What rt_calloc gives. *)
Definition zero_fd : dfs_fd := mkFd 0 0 None 0 None None 0 0 0 PNull.
Definition set_fd_count (n : Z) (d : dfs_fd) : dfs_fd :=
  mkFd (fd_magic d) (fd_type d) (fd_path d) n (fd_fs d) (fd_fops d) (fd_flags d) (fd_size d) (fd_pos d) (fd_data d).
Definition set_fd_magic (m : Z) (d : dfs_fd) : dfs_fd :=
  mkFd m (fd_type d) (fd_path d) (fd_ref_count d) (fd_fs d) (fd_fops d) (fd_flags d) (fd_size d) (fd_pos d) (fd_data d).
Definition set_fd_type (t : Z) (d : dfs_fd) : dfs_fd :=
  mkFd (fd_magic d) t (fd_path d) (fd_ref_count d) (fd_fs d) (fd_fops d) (fd_flags d) (fd_size d) (fd_pos d) (fd_data d).
Definition set_fd_path (p : option (list Z)) (d : dfs_fd) : dfs_fd :=
  mkFd (fd_magic d) (fd_type d) p (fd_ref_count d) (fd_fs d) (fd_fops d) (fd_flags d) (fd_size d) (fd_pos d) (fd_data d).
Definition set_fd_flags (f : Z) (d : dfs_fd) : dfs_fd :=
  mkFd (fd_magic d) (fd_type d) (fd_path d) (fd_ref_count d) (fd_fs d) (fd_fops d) f (fd_size d) (fd_pos d) (fd_data d).
Definition set_fd_size (n : Z) (d : dfs_fd) : dfs_fd :=
  mkFd (fd_magic d) (fd_type d) (fd_path d) (fd_ref_count d) (fd_fs d) (fd_fops d) (fd_flags d) n (fd_pos d) (fd_data d).
Definition set_fd_pos (p : Z) (d : dfs_fd) : dfs_fd :=
  mkFd (fd_magic d) (fd_type d) (fd_path d) (fd_ref_count d) (fd_fs d) (fd_fops d) (fd_flags d) (fd_size d) p (fd_data d).

(** struct dfs_filesystem; an entry that is cleared is [no_fs]. *)
Record dfs_filesystem := mkFs { fs_dev_id : option nat; fs_path : option (list Z); fs_ops : option nat; fs_data : Z }.
Definition no_fs : dfs_filesystem := mkFs None None None 0.

Record stat := mkStat { st_dev : Z; st_mode : Z; st_size : Z; st_mtime : Z }.
Record statfs := mkStatfs { f_bsize : Z; f_blocks : Z; f_bfree : Z }.

(** The variables of dfs.c, the errno of the calling thread, and the files that are allocated. *)
Record dfs := mkDfs {
  filesystem_operation_table : list (option nat);
  filesystem_table : list dfs_filesystem;
  working_directory : list Z;
  fds : list (option nat);
  files : gmap nat dfs_fd;
  dfs_errno : Z
}.
Definition set_types (f : list (option nat) -> list (option nat)) (s : dfs) : dfs :=
  mkDfs (f (filesystem_operation_table s)) (filesystem_table s) (working_directory s) (fds s) (files s) (dfs_errno s).
Definition set_mounted (f : list dfs_filesystem -> list dfs_filesystem) (s : dfs) : dfs :=
  mkDfs (filesystem_operation_table s) (f (filesystem_table s)) (working_directory s) (fds s) (files s) (dfs_errno s).
Definition set_directory (d : list Z) (s : dfs) : dfs :=
  mkDfs (filesystem_operation_table s) (filesystem_table s) d (fds s) (files s) (dfs_errno s).
Definition set_fds (f : list (option nat) -> list (option nat)) (s : dfs) : dfs :=
  mkDfs (filesystem_operation_table s) (filesystem_table s) (working_directory s) (f (fds s)) (files s) (dfs_errno s).
Definition set_files (f : gmap nat dfs_fd -> gmap nat dfs_fd) (s : dfs) : dfs :=
  mkDfs (filesystem_operation_table s) (filesystem_table s) (working_directory s) (fds s) (f (files s)) (dfs_errno s).
Definition set_dfs_errno (e : Z) (s : dfs) : dfs :=
  mkDfs (filesystem_operation_table s) (filesystem_table s) (working_directory s) (fds s) (files s) e.

Section world.
(** What the file systems and devices keep. *)
Context {W : Type}.

(** A function of a file system reads and changes the file, or the entry, that it is given. *)
Definition fd_fn (A : Type) : Type := dfs_fd -> M W (A * dfs_fd).
Definition fs_fn (A : Type) : Type := dfs_filesystem -> M W (A * dfs_filesystem).

(** struct dfs_file_ops, without poll; [None] is RT_NULL.  Bytes read are returned. *)
Record dfs_file_ops := mkFileOps {
  fop_open : option (fd_fn Z);
  fop_close : option (fd_fn Z);
  fop_ioctl : option (Z -> Z -> fd_fn Z);
  fop_read : option (Z -> fd_fn (Z * list Z));
  fop_write : option (list Z -> Z -> fd_fn Z);
  fop_flush : option (fd_fn Z);
  fop_lseek : option (Z -> fd_fn Z);
  fop_getdents : option (Z -> fd_fn (Z * list Z))
}.
(** struct dfs_filesystem_ops; the paths of rename may be null pointers. *)
Record dfs_filesystem_ops := mkFsOps {
  op_name : list Z;
  op_flags : Z;
  op_fops : nat;
  op_mount : option (Z -> Z -> fs_fn Z);
  op_unmount : option (fs_fn Z);
  op_mkfs : option (nat -> M W Z);
  op_statfs : option (statfs -> fs_fn (Z * statfs));
  op_unlink : option (list Z -> fs_fn Z);
  op_stat : option (list Z -> stat -> fs_fn (Z * stat));
  op_rename : option (option (list Z) -> option (list Z) -> fs_fn Z)
}.

(** The functions, and the calls of device.c that are used here. *)
Class file_systems := {
  fs_type : nat -> dfs_filesystem_ops;
  file_ops : nat -> dfs_file_ops;
  rt_device_find : list Z -> M W (option nat);
  rt_device_open : nat -> Z -> M W Z;
  rt_device_close : nat -> M W Z
}.
End world.
Arguments dfs_file_ops : clear implicits.
Arguments dfs_filesystem_ops : clear implicits.
Arguments file_systems : clear implicits.

(** Which of the allocations of a call succeed: the pointer rt_calloc gives, for the file, and whether
    there is memory for the larger table, for a path that is made normal, for the copy of a path. *)
Record memory := mkMemory { m_calloc : option nat; m_realloc : bool; m_path : bool; m_dup : bool }.
Definition no_memory : memory := mkMemory None false false false.

Section dfs_calls.
(** [front]: the byte in front of the buffer in which a path is made normal. *)
Context {W : Type} `{!file_systems W} (front : Z).

Abbreviation F := (M (dfs * W)).
Definition own {A} (f : dfs -> A) : F A := gets (fun s => f s.1).
Definition upd (f : dfs -> dfs) : F unit := modify (fun s => (f s.1, s.2)).
Definition world {A} (m : M W A) : F A := fun s => match m s.2 with Some (a, w) => Some (a, (s.1, w)) | None => None end.
Definition set_errno (e : Z) : F unit := upd (set_dfs_errno e).

Definition get_fd (p : nat) : F dfs_fd := deref (fun s => files s.1 !! p).
Definition upd_fd (p : nat) (f : dfs_fd -> dfs_fd) : F unit := d ← get_fd p; upd (set_files <[p := f d]>).
Definition get_fs (i : nat) : F dfs_filesystem := deref (fun s => filesystem_table s.1 !! i).
Definition upd_fs (i : nat) (f : dfs_filesystem -> dfs_filesystem) : F unit := e ← get_fs i; upd (set_mounted <[i := f e]>).
Definition drive {A} (p : nat) (f : fd_fn A) : F A :=
  d ← get_fd p; '(a, d) ← world (f d); upd (set_files <[p := d]>) ;; mret a.
Definition drive_fs {A} (i : nat) (f : fs_fn A) : F A :=
  e ← get_fs i; '(a, e) ← world (f e); upd (set_mounted <[i := e]>) ;; mret a.
(** fd->fops, and fs->ops *)
Definition fops_of (p : nat) : F (dfs_file_ops W) := d ← get_fd p; o ← deref (fun _ => fd_fops d); mret (file_ops o).
Definition ops_of (i : nat) : F (dfs_filesystem_ops W) := e ← get_fs i; o ← deref (fun _ => fs_ops e); mret (fs_type o).
Definition path_of_fs (i : nat) : F (list Z) := e ← get_fs i; deref (fun _ => fs_path e).

(** The string in the buffer of the working directory; one without an end is read past the buffer. *)
Definition directory_string : F (list Z) :=
  b ← own working_directory; rt_assert (bool_decide (0 ∈ b)) ;; mret (c_string b).

(** dfs_normalize_path(NULL, path), which reads the working directory for a relative path. *)
Definition full_path (memory : bool) (path : list Z) : F (option (list Z)) :=
  directory ← (if default 0 (head path) =? SLASH then mret [] else directory_string);
  deref (fun _ => dfs_normalize_path front memory directory None path).

(** dfs_subdir(fs->path, path): the path from there on, [None] for a null pointer. *)
Definition below (i : nat) (path : list Z) : F (option (list Z)) :=
  m ← path_of_fs i;
  o ← deref (fun _ => dfs_subdir m path);
  mret ((fun o => drop (Z.to_nat o) path) <$> o).

(** ** File descriptors (dfs.c) *)

(** The first entry from [idx] on that is free, or the number of entries. *)
Fixpoint fd_loop (fuel : nat) (idx : nat) : F nat :=
  match fuel with
  | O => fault
  | S fuel =>
      t ← own fds;
      match t !! idx with
      | None | Some None => mret idx
      | Some (Some p) => d ← get_fd p; if fd_ref_count d =? 0 then mret idx else fd_loop fuel (S idx)
      end
  end.

Definition fd_alloc (m : memory) (startfd : nat) : F nat :=
  t ← own fds;
  idx ← fd_loop (S (length t)) startfd;
  go ← (if (idx =? length t)%nat && (length t <? DFS_FD_MAX)%nat then
          if m_realloc m then
            let cnt := (length t + 4)%nat in
            let cnt := if (DFS_FD_MAX <? cnt)%nat then DFS_FD_MAX else cnt in
            upd (set_fds (fun t => t ++ replicate (cnt - length t) None)) ;; mret true
          else mret false
        else mret true);
  if negb go then mret idx else
  t ← own fds;
  match t !! idx with
  | Some None =>
      match m_calloc m with
      | Some p => upd (set_files <[p := zero_fd]>) ;; upd (set_fds <[idx := Some p]>) ;; mret idx
      | None => mret (length t)
      end
  | _ => mret idx
  end.

Definition fd_new (m : memory) : F Z :=
  idx ← fd_alloc m 0;
  t ← own fds;
  if (idx =? length t)%nat then mret (- (1 + DFS_FD_OFFSET) + DFS_FD_OFFSET)
  else
    d ← deref (fun s => mjoin (fds s.1 !! idx));
    upd_fd d (set_fd_count 1) ;;
    upd_fd d (set_fd_magic DFS_FD_MAGIC) ;;
    mret (Z.of_nat idx + DFS_FD_OFFSET).

Definition fd_get (fd : Z) : F (option nat) :=
  t ← own fds;
  let fd := fd - DFS_FD_OFFSET in
  if (fd <? 0) || (Z.of_nat (length t) <=? fd) then mret None
  else
    d ← deref (fun s => fds s.1 !! Z.to_nat fd);
    match d with
    | None => mret None
    | Some p =>
        d ← get_fd p;
        if negb (fd_magic d =? DFS_FD_MAGIC) then mret None
        else upd_fd p (set_fd_count (fd_ref_count d + 1)) ;; mret (Some p)
    end.

(** Clears the first entry that is [p] and releases [p]. *)
Fixpoint clear_loop (index : nat) (t : list (option nat)) (p : nat) : F unit :=
  match t with
  | [] => mret tt
  | e :: t => if decide (e = Some p) then upd (set_files (delete p)) ;; upd (set_fds <[index := None]>) else clear_loop (S index) t p
  end.
Definition fd_put (fd : option nat) : F unit :=
  p ← deref (fun _ => fd);
  d ← get_fd p;
  upd_fd p (set_fd_count (fd_ref_count d - 1)) ;;
  d ← get_fd p;
  when (fd_ref_count d =? 0) (t ← own fds; clear_loop 0 t p).

(** ** File systems (dfs_fs.c) *)

(** The first free entry, from one found before, and whether the name is found. *)
Fixpoint register_loop (iter : nat) (t : list (option nat)) (name : list Z) (empty : option nat) : option nat * bool :=
  match t with
  | [] => (empty, false)
  | None :: t => register_loop (S iter) t name (match empty with None => Some iter | _ => empty end)
  | Some o :: t => if decide (op_name (fs_type o) = name) then (empty, true) else register_loop (S iter) t name empty
  end.
Definition dfs_register (ops : nat) : F Z :=
  t ← own filesystem_operation_table;
  let '(empty, found) := register_loop 0 t (op_name (fs_type ops)) None in
  when found (set_errno (- EEXIST)) ;;
  match empty with
  | None => set_errno (- ENOSPC) ;; mret (-1)
  | Some i => if found then mret (-1) else upd (set_types <[i := Some ops]>) ;; mret 0
  end.

(** [iter] is the number of the first entry of [t]; a prefix of the length of the mount point is
    compared with it. *)
Fixpoint lookup_loop (iter : nat) (t : list dfs_filesystem) (path : list Z) (fs : option nat) (prefixlen : Z) : option nat :=
  match t with
  | [] => fs
  | e :: t =>
      match fs_path e, fs_ops e with
      | Some m, Some _ =>
          let fspath := Z.of_nat (length m) in
          if (fspath <? prefixlen) || negb (bool_decide (take (length m) path = m)) then lookup_loop (S iter) t path fs prefixlen
          else if (1 <? fspath) && (fspath <? Z.of_nat (length path)) && negb (bool_decide (path !! length m = Some SLASH))
          then lookup_loop (S iter) t path fs prefixlen
          else lookup_loop (S iter) t path (Some iter) fspath
      | _, _ => lookup_loop (S iter) t path fs prefixlen
      end
  end.
Definition dfs_filesystem_lookup (path : list Z) : F (option nat) :=
  t ← own filesystem_table; mret (lookup_loop 0 t path None 0).

Fixpoint mounted_path_loop (t : list dfs_filesystem) (device : option nat) : option (list Z) :=
  match t with
  | [] => None
  | e :: t =>
      match fs_ops e with
      | None => mounted_path_loop t device
      | Some _ => if decide (fs_dev_id e = device) then fs_path e else mounted_path_loop t device
      end
  end.
Definition dfs_filesystem_get_mounted_path (device : option nat) : F (option (list Z)) :=
  t ← own filesystem_table; mret (mounted_path_loop t device).

(** The bytes of the partition table are in a sector; what is printed is left out. *)
Record dfs_partition := mkPartition { part_type : Z; part_offset : Z; part_size : Z }.
Definition le32 (dpt : list Z) (i : nat) : option Z :=
  a ← dpt !! i; b ← dpt !! S i; c ← dpt !! S (S i); d ← dpt !! S (S (S i));
  Some (Z.lor (Z.lor (Z.lor a (Z.shiftl b 8)) (Z.shiftl c 16)) (i32 (Z.shiftl d 24))).
Definition dfs_filesystem_get_partition (part : dfs_partition) (buf : list Z) (pindex : nat) : option (Z * dfs_partition) :=
  let dpt := drop (0x1be + pindex * 16) buf in
  a ← dpt !! 0%nat;
  if negb (a =? 0x80) && negb (a =? 0x00) then Some (- EIO, part)
  else
    type ← dpt !! 4%nat;
    if type =? 0 then Some (- EIO, part)
    else offset ← le32 dpt 8; size ← le32 dpt 12; Some (0, mkPartition type offset (u32 size)).

(** ** Files (dfs_file.c) *)

Definition dfs_file_open (m : memory) (fd : option nat) (path : list Z) (flags : Z) : F Z :=
  match fd with
  | None => mret (- EINVAL)
  | Some p =>
      fullpath ← full_path (m_path m) path;
      match fullpath with
      | None => mret (- ENOMEM)
      | Some fullpath =>
          fs ← dfs_filesystem_lookup fullpath;
          match fs with
          | None => mret (- ENOENT)
          | Some i =>
              ops ← ops_of i;
              upd_fd p (fun d => mkFd (fd_magic d) FT_REGULAR (fd_path d) (fd_ref_count d) (Some i) (Some (op_fops ops)) (u32 flags) 0 0 (PFs i)) ;;
              (if Z.land (op_flags ops) DFS_FS_FLAG_FULLPATH =? 0 then
                 sub ← below i fullpath;
                 upd_fd p (set_fd_path (if m_dup m then Some (default [SLASH] sub) else None))
               else upd_fd p (set_fd_path (Some fullpath))) ;;
              fops ← fops_of p;
              match fop_open fops with
              | None => upd_fd p (set_fd_path None) ;; mret (- ENOSYS)
              | Some f =>
                  result ← drive p f;
                  if result <? 0 then upd_fd p (set_fd_path None) ;; mret result
                  else
                    upd_fd p (fun d => set_fd_flags (Z.lor (fd_flags d) DFS_F_OPEN) d) ;;
                    when (negb (Z.land flags O_DIRECTORY =? 0))
                      (upd_fd p (set_fd_type FT_DIRECTORY) ;;
                       upd_fd p (fun d => set_fd_flags (Z.lor (fd_flags d) DFS_F_DIRECTORY) d)) ;;
                    mret 0
              end
          end
      end
  end.

Definition dfs_file_close (fd : option nat) : F Z :=
  match fd with
  | None => mret (- ENXIO)
  | Some p =>
      fops ← fops_of p;
      result ← match fop_close fops with Some f => drive p f | None => mret 0 end;
      if result <? 0 then mret result
      else upd_fd p (set_fd_path None) ;; mret result
  end.

(** An argument of fcntl is a number here. *)
Definition dfs_file_ioctl (fd : option nat) (cmd args : Z) : F Z :=
  match fd with
  | None => mret (- EINVAL)
  | Some p =>
      d ← get_fd p;
      let regular := (fd_type d =? FT_REGULAR) || (fd_type d =? FT_DEVICE) in
      if regular && (cmd =? F_GETFL) then mret (i32 (fd_flags d))
      else if regular && (cmd =? F_SETFL) then
        let mask := Z.lor O_NONBLOCK O_APPEND in
        upd_fd p (fun d => set_fd_flags (Z.land (fd_flags d) (Z.lnot mask)) d) ;;
        upd_fd p (fun d => set_fd_flags (Z.lor (fd_flags d) (Z.land args mask)) d) ;;
        mret 0
      else
        fops ← fops_of p;
        match fop_ioctl fops with Some f => drive p (f cmd args) | None => mret (- ENOSYS) end
  end.

Definition dfs_file_read (fd : option nat) (len : Z) : F (Z * list Z) :=
  match fd with
  | None => mret (- EINVAL, [])
  | Some p =>
      fops ← fops_of p;
      match fop_read fops with
      | None => mret (- ENOSYS, [])
      | Some f =>
          '(result, buf) ← drive p (f len);
          when (result <? 0) (upd_fd p (fun d => set_fd_flags (Z.lor (fd_flags d) DFS_F_EOF) d)) ;;
          mret (result, buf)
      end
  end.

Definition dfs_file_getdents (fd : option nat) (nbytes : Z) : F (Z * list Z) :=
  match fd with
  | None => mret (- EINVAL, [])
  | Some p =>
      d ← get_fd p;
      if negb (fd_type d =? FT_DIRECTORY) then mret (- EINVAL, [])
      else
        fops ← fops_of p;
        match fop_getdents fops with Some f => drive p (f nbytes) | None => mret (- ENOSYS, []) end
  end.

Definition dfs_file_write (fd : option nat) (buf : list Z) (len : Z) : F Z :=
  match fd with
  | None => mret (- EINVAL)
  | Some p => fops ← fops_of p; match fop_write fops with None => mret (- ENOSYS) | Some f => drive p (f buf len) end
  end.

Definition dfs_file_flush (fd : option nat) : F Z :=
  match fd with
  | None => mret (- EINVAL)
  | Some p => fops ← fops_of p; match fop_flush fops with None => mret (- ENOSYS) | Some f => drive p f end
  end.

Definition dfs_file_lseek (fd : option nat) (offset : Z) : F Z :=
  match fd with
  | None => mret (- EINVAL)
  | Some p =>
      fops ← fops_of p;
      match fop_lseek fops with
      | None => mret (- ENOSYS)
      | Some f =>
          result ← drive p (f offset);
          when (0 <=? result) (upd_fd p (set_fd_pos result)) ;;
          mret result
      end
  end.

(** RT_FIOFTRUNCATE; the length is passed by its address. *)
Definition RT_FIOFTRUNCATE : Z := 0x52540000.
Definition dfs_file_ftruncate (fd : option nat) (length : Z) : F Z :=
  match fd with
  | None => mret (- EINVAL)
  | Some p =>
      d ← get_fd p;
      if negb (fd_type d =? FT_REGULAR) || (length <? 0) then mret (- EINVAL)
      else
        fops ← fops_of p;
        match fop_ioctl fops with
        | None => mret (- ENOSYS)
        | Some f =>
            result ← drive p (f RT_FIOFTRUNCATE length);
            when (result =? 0) (upd_fd p (set_fd_size (u32 length))) ;;
            mret result
        end
  end.

(** fd->path is compared with the rest of the path behind the mount point. *)
Fixpoint open_loop (t : list (option nat)) (fs : nat) (mountpath : list Z) : F Z :=
  match t with
  | [] => mret (-1)
  | None :: t => open_loop t fs mountpath
  | Some p :: t =>
      d ← get_fd p;
      match fd_fops d, fd_path d with
      | Some _, Some path => if bool_decide (fd_fs d = Some fs) && bool_decide (path = mountpath) then mret 0 else open_loop t fs mountpath
      | _, _ => open_loop t fs mountpath
      end
  end.
Definition fd_is_open (memory : bool) (pathname : list Z) : F Z :=
  fullpath ← full_path memory pathname;
  match fullpath with
  | None => mret (-1)
  | Some fullpath =>
      fs ← dfs_filesystem_lookup fullpath;
      match fs with
      | None => mret (-1)
      | Some i =>
          m ← path_of_fs i;
          let mountpath := if decide (m = [SLASH]) then fullpath else drop (length m) fullpath in
          t ← own fds;
          open_loop t i mountpath
      end
  end.

Definition dfs_file_unlink (m : memory) (path : list Z) : F Z :=
  fullpath ← full_path (m_path m) path;
  match fullpath with
  | None => mret (- EINVAL)
  | Some fullpath =>
      fs ← dfs_filesystem_lookup fullpath;
      match fs with
      | None => mret (- ENOENT)
      | Some i =>
          is_open ← fd_is_open (m_dup m) fullpath;
          if is_open =? 0 then mret (- EBUSY)
          else
            ops ← ops_of i;
            match op_unlink ops with
            | Some f =>
                if Z.land (op_flags ops) DFS_FS_FLAG_FULLPATH =? 0 then
                  sub ← below i fullpath; drive_fs i (f (default [SLASH] sub))
                else drive_fs i (f fullpath)
            | None => mret (- ENOSYS)
            end
      end
  end.

(** The mode of the root directory: a directory all may read, write and search. *)
Definition S_IFDIR : Z := 0x4000.
Definition S_IFREG : Z := 0x8000.
Definition S_IRWUGO : Z := 0x1b6.
Definition S_IXUGO : Z := 0x49.
Definition dfs_file_stat (m : memory) (path : list Z) (buf : stat) : F (Z * stat) :=
  fullpath ← full_path (m_path m) path;
  match fullpath with
  | None => mret (-1, buf)
  | Some fullpath =>
      fs ← dfs_filesystem_lookup fullpath;
      match fs with
      | None => mret (- ENOENT, buf)
      | Some i =>
          root ← (if decide (fullpath = [SLASH]) then mret true else sub ← below i fullpath; mret (bool_decide (sub = None)));
          if root : bool then mret (0, mkStat 0 (Z.lor S_IRWUGO (Z.lor S_IFDIR S_IXUGO)) 0 0)
          else
            ops ← ops_of i;
            match op_stat ops with
            | None => mret (- ENOSYS, buf)
            | Some f =>
                if negb (Z.land (op_flags ops) DFS_FS_FLAG_FULLPATH =? 0) then drive_fs i (f fullpath buf)
                else sub ← below i fullpath; path ← deref (fun _ => sub); drive_fs i (f path buf)
            end
      end
  end.

(** [oldfs] is a null pointer when neither path is in a file system. *)
Definition dfs_file_rename (m : memory) (oldpath newpath : list Z) : F Z :=
  oldfullpath ← full_path (m_path m) oldpath;
  match oldfullpath with
  | None => mret (- ENOENT)
  | Some oldfullpath =>
      newfullpath ← full_path (m_dup m) newpath;
      match newfullpath with
      | None => mret (- ENOENT)
      | Some newfullpath =>
          oldfs ← dfs_filesystem_lookup oldfullpath;
          newfs ← dfs_filesystem_lookup newfullpath;
          if decide (oldfs = newfs) then
            i ← deref (fun _ => oldfs);
            ops ← ops_of i;
            match op_rename ops with
            | None => mret (- ENOSYS)
            | Some f =>
                if negb (Z.land (op_flags ops) DFS_FS_FLAG_FULLPATH =? 0) then drive_fs i (f (Some oldfullpath) (Some newfullpath))
                else sub ← below i oldfullpath; sub' ← below i newfullpath; drive_fs i (f sub sub')
            end
          else mret (- EXDEV)
      end
  end.

(** ** Mounting (dfs_fs.c) *)

Fixpoint type_loop (t : list (option nat)) (name : list Z) : option nat :=
  match t with
  | [] => None
  | Some o :: t => if decide (op_name (fs_type o) = name) then Some o else type_loop t name
  | None :: t => type_loop t name
  end.

(** The first free entry, from one found before, or [None] when an entry has the path. *)
Fixpoint mount_loop (iter : nat) (t : list dfs_filesystem) (path : list Z) (fs : option nat) : F (option (option nat)) :=
  match t with
  | [] => mret (Some fs)
  | e :: t =>
      match fs_ops e with
      | None => mount_loop (S iter) t path (match fs with None => Some iter | _ => fs end)
      | Some _ =>
          m ← deref (fun _ => fs_path e);
          if decide (m = path) then mret None else mount_loop (S iter) t path fs
      end
  end.

Definition RT_DEVICE_OFLAG_RDWR : Z := 0x003.
(** The entry is filled, the device opened and the file system mounted. *)
Definition mount_at (fs : nat) (fullpath : list Z) (ops : nat) (dev_id : option nat) (rwflag data : Z) : F Z :=
  upd_fs fs (fun e => mkFs dev_id (Some fullpath) (Some ops) (fs_data e)) ;;
  opened ← match dev_id with Some d => world (rt_device_open d RT_DEVICE_OFLAG_RDWR) | None => mret 0 end;
  if negb (opened =? 0) then upd_fs fs (fun _ => no_fs) ;; mret (-1)
  else
    mount ← deref (fun _ => op_mount (fs_type ops));
    result ← drive_fs fs (mount rwflag data);
    if result <? 0 then
      match dev_id with
      | Some _ => e ← get_fs fs; d ← deref (fun _ => fs_dev_id e); _ ← world (rt_device_close d); mret tt
      | None => mret tt
      end ;;
      upd_fs fs (fun _ => no_fs) ;; mret (-1)
    else mret 0.

Definition DEV : list Z := [47; 100; 101; 118].

(** Whether the path is there; [fd] is the address of the local variable of that name, with what is in
    it at first. *)
Definition mount_point (m : memory) (fd : nat * dfs_fd) (fullpath : list Z) : F bool :=
  if decide (fullpath = [SLASH] \/ fullpath = DEV) then mret true
  else
    upd (set_files <[fd.1 := fd.2]>) ;;
    result ← dfs_file_open m (Some fd.1) fullpath (Z.lor O_RDONLY O_DIRECTORY);
    (if result <? 0 then upd (set_files (delete fd.1)) ;; mret false
     else _ ← dfs_file_close (Some fd.1); upd (set_files (delete fd.1)) ;; mret true).

Definition dfs_mount (m : memory) (fd : nat * dfs_fd) (device_name : option (list Z)) (path filesystemtype : list Z) (rwflag data : Z) : F Z :=
  dev_id ← match device_name with
           | None => mret (Some None)
           | Some n => d ← world (rt_device_find n); mret (Some <$> d)
           end;
  match dev_id with
  | None => set_errno (- ENODEV) ;; mret (-1)
  | Some dev_id =>
      types ← own filesystem_operation_table;
      match type_loop types filesystemtype with
      | None => set_errno (- ENODEV) ;; mret (-1)
      | Some ops =>
          match op_mount (fs_type ops) with
          | None => set_errno (- ENOSYS) ;; mret (-1)
          | Some _ =>
              fullpath ← full_path (m_path m) path;
              match fullpath with
              | None => set_errno (- ENOTDIR) ;; mret (-1)
              | Some fullpath =>
                  there ← mount_point m fd fullpath;
                  if negb there then set_errno (- ENOTDIR) ;; mret (-1)
                  else
                    t ← own filesystem_table;
                    fs ← mount_loop 0 t path None;
                    match fs with
                    | None => set_errno (- EINVAL) ;; mret (-1)
                    | Some None => set_errno (- ENOSPC) ;; mret (-1)
                    | Some (Some fs) => mount_at fs fullpath ops dev_id rwflag data
                    end
              end
          end
      end
  end.

(** The first entry with the path. *)
Fixpoint unmount_loop (iter : nat) (t : list dfs_filesystem) (fullpath : list Z) : option nat :=
  match t with
  | [] => None
  | e :: t => if decide (fs_path e = Some fullpath) then Some iter else unmount_loop (S iter) t fullpath
  end.
Definition dfs_unmount (memory : bool) (specialfile : list Z) : F Z :=
  fullpath ← full_path memory specialfile;
  match fullpath with
  | None => set_errno (- ENOTDIR) ;; mret (-1)
  | Some fullpath =>
      t ← own filesystem_table;
      match unmount_loop 0 t fullpath with
      | None => mret (-1)
      | Some fs =>
          ops ← ops_of fs;
          match op_unmount ops with
          | None => mret (-1)
          | Some f =>
              result ← drive_fs fs f;
              if result <? 0 then mret (-1)
              else
                e ← get_fs fs;
                match fs_dev_id e with Some d => _ ← world (rt_device_close d); mret tt | None => mret tt end ;;
                upd_fs fs (fun _ => no_fs) ;;
                mret 0
          end
      end
  end.

Definition dfs_mkfs (fs_name : list Z) (device_name : option (list Z)) : F Z :=
  dev_id ← match device_name with Some n => world (rt_device_find n) | None => mret None end;
  match dev_id with
  | None => set_errno (- ENODEV) ;; mret (-1)
  | Some dev_id =>
      types ← own filesystem_operation_table;
      match type_loop types fs_name with
      | None => mret (-1)
      | Some ops =>
          match op_mkfs (fs_type ops) with
          | None => set_errno (- ENOSYS) ;; mret (-1)
          | Some f => world (f dev_id)
          end
      end
  end.

Definition dfs_statfs (path : list Z) (buffer : statfs) : F (Z * statfs) :=
  fs ← dfs_filesystem_lookup path;
  match fs with
  | None => mret (-1, buffer)
  | Some i => ops ← ops_of i; match op_statfs ops with Some f => drive_fs i (f buffer) | None => mret (-1, buffer) end
  end.

(** memset of everything; [devfs] is the file system of devfs.c.  [init_ok] is its static variable. *)
Definition DEVFS : list Z := [100; 101; 118; 102; 115].
Definition dfs_init (m : memory) (init_ok : bool) (devfs : nat) (fd : nat * dfs_fd) : F Z :=
  if init_ok then mret 0
  else
    upd (fun s => mkDfs (replicate DFS_FILESYSTEM_TYPES_MAX None) (replicate DFS_FILESYSTEMS_MAX no_fs)
                        (SLASH :: replicate (DFS_PATH_MAX - 1) 0) [] (files s) (dfs_errno s)) ;;
    _ ← dfs_register devfs;
    _ ← dfs_mount m fd None DEV DEVFS 0 0;
    mret 0.
End dfs_calls.

(** ** The table of descriptors

    What the table promises: a descriptor that is open leads to its file, with the number of uses that
    have been taken and not been given back. *)
Abbreviation uses := (gmap Z (nat * Z)).
Record fd_inv (s : dfs) (m : uses) : Prop := {
  fi_len : (length (fds s) <= DFS_FD_MAX)%nat;
  fi_table : forall n p, fds s !! n = Some (Some p) <-> exists c, m !! (Z.of_nat n + DFS_FD_OFFSET) = Some (p, c);
  fi_low : forall n x, m !! n = Some x -> DFS_FD_OFFSET <= n;
  fi_file : forall n p c, m !! n = Some (p, c) -> 0 < c /\ exists d, files s !! p = Some d /\ fd_ref_count d = c /\ fd_magic d = DFS_FD_MAGIC;
  fi_inj : forall n n' p c c', m !! n = Some (p, c) -> m !! n' = Some (p, c') -> n = n'
}.

Inductive fd_op :=
  | FNew (memory : bool) (p : option nat) (r : Z) | FGet (n : Z) (p : option nat) | FPut (p : nat) | FOther.

(** New descriptors are the lowest free numbers from 3 to 18; the last use given back closes one. *)
Inductive descriptors : uses -> fd_op -> uses -> Prop :=
  | ds_new m b p n : DFS_FD_OFFSET <= n < DFS_FD_OFFSET + Z.of_nat DFS_FD_MAX -> m !! n = None ->
      (forall k, DFS_FD_OFFSET <= k < n -> is_Some (m !! k)) -> (forall k c, m !! k ≠ Some (p, c)) ->
      descriptors m (FNew b (Some p) n) (<[n := (p, 1)]> m)
  | ds_full m b p : (b = true -> forall k, DFS_FD_OFFSET <= k < DFS_FD_OFFSET + Z.of_nat DFS_FD_MAX -> is_Some (m !! k)) -> descriptors m (FNew b p (-1)) m
  | ds_get m n p c : m !! n = Some (p, c) -> descriptors m (FGet n (Some p)) (<[n := (p, c + 1)]> m)
  | ds_none m n : m !! n = None -> descriptors m (FGet n None) m
  | ds_put m n p c : m !! n = Some (p, c) -> descriptors m (FPut p) (if decide (c = 1) then delete n m else <[n := (p, c - 1)]> m)
  | ds_other m : descriptors m FOther m.

Section descriptor_table.
Context {W : Type} (w : W).

(** Memory that is allocated is not in use; a use is given back of a file that is open; what
    else happens to files leaves the number of uses alone. *)
Inductive fd_step : dfs -> fd_op -> dfs -> Prop :=
  | step_new s m r s' : (forall p, m_calloc m = Some p -> files s !! p = None) -> fd_new m (s, w) = Some (r, (s', w)) ->
      fd_step s (FNew (m_realloc m && bool_decide (is_Some (m_calloc m))) (m_calloc m) r) s'
  | step_get s n p s' : fd_get n (s, w) = Some (p, (s', w)) -> fd_step s (FGet n p) s'
  | step_put s p s' : Some p ∈ fds s -> fd_put (Some p) (s, w) = Some (tt, (s', w)) -> fd_step s (FPut p) s'
  | step_other s s' : fds s' = fds s ->
      (forall p d, Some p ∈ fds s -> files s !! p = Some d -> exists d', files s' !! p = Some d' /\ fd_ref_count d' = fd_ref_count d /\ fd_magic d' = fd_magic d) ->
      fd_step s FOther s'.

Lemma wp_own {A} (f : dfs -> A) (Q : A -> dfs * W -> Prop) s : wp (own f) Q s = Q (f s.1) s.
Proof. done. Qed.
Lemma wp_upd f (Q : unit -> dfs * W -> Prop) s : wp (upd f) Q s = Q tt (f s.1, s.2).
Proof. done. Qed.
Lemma wp_get_fd p d (Q : dfs_fd -> dfs * W -> Prop) s : files s.1 !! p = Some d -> Q d s -> wp (get_fd p) Q s.
Proof. intros E HQ. by eapply wp_deref. Qed.
Lemma wp_upd_fd p f d (Q : unit -> dfs * W -> Prop) s : files s.1 !! p = Some d -> Q tt (set_files <[p := f d]> s.1, s.2) -> wp (upd_fd p f) Q s.
Proof. intros E HQ. unfold upd_fd. rewrite wp_bind. by eapply wp_get_fd. Qed.

Lemma open_entry s m n p : fd_inv s m -> fds s !! n = Some (Some p) ->
  exists d, files s !! p = Some d /\ m !! (Z.of_nat n + DFS_FD_OFFSET) = Some (p, fd_ref_count d) /\ 0 < fd_ref_count d /\ fd_magic d = DFS_FD_MAGIC.
Proof.
  intros Hi En. apply (fi_table _ _ Hi) in En as [c Em]. destruct (fi_file _ _ Hi _ _ _ Em) as (Hc & d & Ed & <- & Hm). by exists d.
Qed.

(** The first entry that is free. *)
Lemma wp_fd_loop s m fuel : fd_inv s m -> forall idx (Q : nat -> dfs * W -> Prop), (length (fds s) < fuel + idx)%nat -> (idx <= length (fds s))%nat ->
  (forall n, (idx <= n)%nat -> (fds s !! n = None /\ n = length (fds s) \/ fds s !! n = Some None) ->
     (forall k, (idx <= k < n)%nat -> exists p, fds s !! k = Some (Some p)) -> Q n (s, w)) ->
  wp (fd_loop fuel idx) Q (s, w).
Proof.
  intros Hi. induction fuel as [|fuel IH]; intros idx Q Hf Hl HQ; [lia|]. cbn [fd_loop]. wp_step. rewrite wp_own. cbn [fst].
  destruct (fds s !! idx) as [[p|]|] eqn:E.
  - destruct (open_entry s m idx p Hi E) as (d & Ed & _ & Hc & _). wp_step. apply (wp_get_fd p d); [done|].
    rewrite (proj2 (Z.eqb_neq _ _)) by lia. apply IH; [lia|apply lookup_lt_Some in E; lia|]. intros n Hn En Hk. apply HQ; [lia|done|].
    intros k Hk'. destruct (decide (k = idx)) as [->|]; [by exists p|]. apply Hk. lia.
  - apply HQ; [done|by right|lia].
  - apply HQ; [done| |lia]. left. split; [done|]. apply lookup_ge_None in E. lia.
Qed.

(** A larger table has the same descriptors. *)
Definition grown (j : nat) (s : dfs) : dfs := set_fds (fun t => t ++ replicate j None) s.
Lemma lookup_grown j s n p : fds (grown j s) !! n = Some (Some p) <-> fds s !! n = Some (Some p).
Proof.
  unfold grown. cbn. rewrite lookup_app. destruct (fds s !! n) as [e|] eqn:E; [done|]. split; [|done]. rewrite lookup_replicate. by intros [? _].
Qed.
Lemma grown_inv j s m : fd_inv s m -> (length (fds s) + j <= DFS_FD_MAX)%nat -> fd_inv (grown j s) m.
Proof.
  intros [H1 H2 H3 H4 H5] Hj. split; try done.
  - cbn. rewrite length_app, length_replicate. lia.
  - intros n p. rewrite lookup_grown. apply H2.
Qed.
Lemma full_below s m n : fd_inv s m -> (forall k, (k < n)%nat -> exists p, fds s !! k = Some (Some p)) ->
  forall k, DFS_FD_OFFSET <= k < DFS_FD_OFFSET + Z.of_nat n -> is_Some (m !! k).
Proof.
  intros Hi Hn k Hk. destruct (Hn (Z.to_nat (k - DFS_FD_OFFSET))) as [p Ep]; [lia|]. apply (fi_table _ _ Hi) in Ep as [c Ec].
  rewrite Z2Nat.id in Ec by lia. replace (k - DFS_FD_OFFSET + DFS_FD_OFFSET) with k in Ec by lia. by eexists.
Qed.

(** The entry that is filled, or the length of the table. *)
Lemma wp_fd_alloc mem s m (Q : nat -> dfs * W -> Prop) : fd_inv s m ->
  (forall j n p, (length (fds s) + j <= DFS_FD_MAX)%nat -> fds (grown j s) !! n = Some None -> (forall k, (k < n)%nat -> exists p, fds s !! k = Some (Some p)) -> m_calloc mem = Some p ->
     Q n (set_fds <[n := Some p]> (set_files <[p := zero_fd]> (grown j s)), w)) ->
  (forall j, (length (fds s) + j <= DFS_FD_MAX)%nat -> (m_realloc mem = true -> is_Some (m_calloc mem) -> forall k, (k < DFS_FD_MAX)%nat -> exists p, fds s !! k = Some (Some p)) ->
     Q (length (fds (grown j s))) (grown j s, w)) ->
  wp (fd_alloc mem 0) Q (s, w).
Proof.
  intros Hi Hnew Hfull. pose proof (fi_len _ _ Hi) as Hlen. unfold fd_alloc. wp_step. rewrite wp_own. cbn [fst]. wp_step. eapply (wp_fd_loop s m); [done|lia|lia|].
  intros n _ Hn Hk. assert (Hbelow : forall k, (k < n)%nat -> exists p, fds s !! k = Some (Some p)) by (intros k ?; apply Hk; lia). clear Hk.
  assert (E0 : grown 0 s = s) by (unfold grown, set_fds; cbn; rewrite app_nil_r; by destruct s).
  assert (Hfill : forall j, (length (fds s) + j <= DFS_FD_MAX)%nat -> fds (grown j s) !! n = Some None ->
    wp (t ← own fds; match t !! n with
        | Some None => match m_calloc mem with
            | Some p => upd (set_files <[p := zero_fd]>) ;; upd (set_fds <[n := Some p]>) ;; mret n
            | None => mret (length t) end
        | _ => mret n end) Q (grown j s, w)).
  { intros j Hj En. wp_step. rewrite wp_own. cbn [fst]. rewrite En. destruct (m_calloc mem) as [p|] eqn:Ec.
    - wp_step. rewrite wp_upd. wp_step. rewrite wp_upd. wp_step. by apply Hnew.
    - wp_step. apply Hfull; [done|]. intros _ [p E]. congruence. }
  wp_step. destruct ((n =? length (fds s))%nat && (length (fds s) <? DFS_FD_MAX)%nat) eqn:Ec.
  - apply andb_prop in Ec as [->%Nat.eqb_eq Hl%Nat.ltb_lt]. destruct (m_realloc mem) eqn:Er.
    + wp_step. rewrite wp_upd. wp_step. cbn [negb]. set (cnt := if (DFS_FD_MAX <? length (fds s) + 4)%nat then DFS_FD_MAX else (length (fds s) + 4)%nat).
      assert (Hcnt : (length (fds s) < cnt <= DFS_FD_MAX)%nat) by (unfold cnt; destruct (Nat.ltb_spec DFS_FD_MAX (length (fds s) + 4)); lia).
      apply (Hfill (cnt - length (fds s))%nat); [lia|]. cbn. rewrite lookup_app_r by lia. apply lookup_replicate. split; [done|lia].
    + wp_step. cbn [negb]. wp_step. specialize (Hfull 0%nat). rewrite E0 in Hfull. apply Hfull; [lia|]. congruence.
  - wp_step. cbn [negb]. destruct Hn as [[En ->]|En].
    + rewrite Nat.eqb_refl in Ec. cbn [andb] in Ec. apply Nat.ltb_ge in Ec. wp_step. rewrite wp_own. cbn [fst]. rewrite En. wp_step.
      specialize (Hfull 0%nat). rewrite E0 in Hfull. apply Hfull; [lia|]. intros _ _ k Hk. apply Hbelow. lia.
    + specialize (Hfill 0%nat). rewrite E0 in Hfill. apply Hfill; [lia|done].
Qed.

Lemma fd_new_inv s m n p d : fd_inv s m -> fds s !! n = Some None -> (forall k c, m !! k ≠ Some (p, c)) -> fd_ref_count d = 1 -> fd_magic d = DFS_FD_MAGIC ->
  fd_inv (set_fds <[n := Some p]> (set_files <[p := d]> s)) (<[Z.of_nat n + DFS_FD_OFFSET := (p, 1)]> m).
Proof.
  intros [H1 H2 H3 H4 H5] En Hp Hc Hm. assert (Hn : (n < length (fds s))%nat) by (by eapply lookup_lt_Some). split; cbn [fds files set_fds set_files].
  - by rewrite length_insert.
  - intros k q. destruct (decide (k = n)) as [->|Hk].
    + rewrite list_lookup_insert_eq by done. split; [intros [= <-]; exists 1; by rewrite lookup_insert_eq|intros [c E]; rewrite lookup_insert_eq in E; by injection E as <- <-].
    + rewrite list_lookup_insert_ne, H2 by done. split; intros [c E]; exists c; [by rewrite lookup_insert_ne by lia|by rewrite lookup_insert_ne in E by lia].
  - intros k x. rewrite lookup_insert_Some. intros [[<- _]|[_ E]]; [lia|by eapply H3].
  - intros k q c. rewrite lookup_insert_Some. intros [[_ [= <- <-]]|[_ E]]; [split; [lia|]; exists d; by rewrite lookup_insert_eq|].
    destruct (H4 k q c E) as (Hc' & d' & Ed & Hd). split; [done|]. exists d'. rewrite lookup_insert_ne; [done|]. intros ->. by eapply Hp.
  - intros k k' q c c'. rewrite !lookup_insert_Some. intros [[<- [= <- <-]]|[_ E]] [[<- E']|[_ E']]; [done| | |by eapply H5].
    + by eapply Hp in E'.
    + injection E' as -> <-. by eapply Hp in E.
Qed.

Lemma not_open s m p : fd_inv s m -> files s !! p = None -> forall k c, m !! k ≠ Some (p, c).
Proof. intros Hi E k c Em. destruct (fi_file _ _ Hi _ _ _ Em) as (_ & d & Ed & _). congruence. Qed.

(** Only the file [p] is changed, and the table of descriptors. *)
Definition only_file (p : option nat) (s s' : dfs) : Prop :=
  working_directory s' = working_directory s /\ filesystem_table s' = filesystem_table s /\ forall q, Some q ≠ p -> files s' !! q = files s !! q.
Lemma wp_fd_new mem s m : fd_inv s m -> (forall p, m_calloc mem = Some p -> files s !! p = None) ->
  wp (fd_new mem) (fun r s' => s'.2 = w /\ only_file (m_calloc mem) s s'.1 /\ exists m', descriptors m (FNew (m_realloc mem && bool_decide (is_Some (m_calloc mem))) (m_calloc mem) r) m' /\ fd_inv s'.1 m') (s, w).
Proof.
  intros Hi Hfr. unfold fd_new. wp_step. apply (wp_fd_alloc mem s m); [done| |].
  - intros j n p Hj En Hk Ec. rewrite Ec. pose proof (grown_inv j s m Hi Hj) as Hg. assert (Hn : (n < length (fds (grown j s)))%nat) by (by eapply lookup_lt_Some).
    pose proof (fi_len _ _ Hg) as Hlen. wp_step. rewrite wp_own. cbn [fst fds set_fds]. rewrite length_insert.
    change (fds (set_files <[p := zero_fd]> (grown j s))) with (fds (grown j s)). rewrite (proj2 (Nat.eqb_neq _ _)) by lia.
    wp_step. apply (wp_deref _ p); [cbn [fst fds set_fds]; by rewrite list_lookup_insert_eq|].
    wp_step. apply (wp_upd_fd p _ zero_fd); [cbn; by rewrite lookup_insert_eq|]. wp_step. eapply (wp_upd_fd p); [cbn; by rewrite lookup_insert_eq|]. wp_step.
    split; [done|]. split; [split_and!; [done|done|]; intros q Hq; cbn; rewrite !lookup_insert_ne by congruence; done|].
    exists (<[Z.of_nat n + DFS_FD_OFFSET := (p, 1)]> m). pose proof (not_open s m p Hi (Hfr p Ec)) as Hp. split.
    + apply ds_new; [lia| | |done].
      * destruct (m !! (Z.of_nat n + DFS_FD_OFFSET)) as [[q c]|] eqn:E; [|done]. assert (fds (grown j s) !! n = Some (Some q)) by (apply (fi_table _ _ Hg); by exists c). congruence.
      * intros k Hk'. apply (full_below s m n Hi Hk). lia.
    + cbn [fst]. match goal with |- fd_inv ?x _ => assert (Ex : x = set_fds <[n := Some p]> (set_files <[p := set_fd_magic DFS_FD_MAGIC (set_fd_count 1 zero_fd)]> (grown j s))) end.
      { cbn. unfold set_files, set_fds. cbn. by rewrite !insert_insert_eq. }
      rewrite Ex. by apply fd_new_inv.
  - intros j Hj Hfull. wp_step. rewrite wp_own. cbn [fst]. rewrite Nat.eqb_refl. wp_step. split; [done|]. split; [done|]. exists m. split; [|by apply grown_inv].
    apply ds_full. intros [Hr Hc%bool_decide_eq_true]%andb_prop. apply (full_below s m _ Hi). by apply Hfull.
Qed.

Lemma fd_use_inv s m k p c c' d : fd_inv s m -> m !! k = Some (p, c) -> 0 < c' -> fd_ref_count d = c' -> fd_magic d = DFS_FD_MAGIC ->
  fd_inv (set_files <[p := d]> s) (<[k := (p, c')]> m).
Proof.
  intros [H1 H2 H3 H4 H5] Em Hc' Hd Hm. split; cbn [fds files set_files].
  - done.
  - intros n q. rewrite H2. destruct (decide (Z.of_nat n + DFS_FD_OFFSET = k)) as [->|Hk].
    + split; intros [x E]; [exists c'; rewrite lookup_insert_eq; congruence|exists c; rewrite lookup_insert_eq in E; congruence].

    + split; intros [x E]; exists x; [by rewrite lookup_insert_ne by done|by rewrite lookup_insert_ne in E by done].
  - intros n x. rewrite lookup_insert_Some. intros [[<- _]|[_ E]]; by eapply H3.
  - intros n q x. rewrite lookup_insert_Some. intros [[_ [= <- <-]]|[Hn E]]; [split; [done|]; exists d; by rewrite lookup_insert_eq|].
    rewrite lookup_insert_ne by (intros ->; by eapply Hn, H5). by eapply H4.
  - intros n n' q x x'. rewrite !lookup_insert_Some. intros [[<- [= <- <-]]|[_ E]] [[<- E']|[_ E']]; [done|by eapply H5|injection E' as -> <-; by eapply H5|by eapply H5].
Qed.

Lemma wp_fd_get_cases s m n (Q : option nat -> dfs * W -> Prop) : fd_inv s m -> (m !! n = None -> Q None (s, w)) ->
  (forall p d, m !! n = Some (p, fd_ref_count d) -> files s !! p = Some d -> fd_magic d = DFS_FD_MAGIC ->
     Q (Some p) (set_files <[p := set_fd_count (fd_ref_count d + 1) d]> s, w)) ->
  wp (fd_get n) Q (s, w).
Proof.
  intros Hi Hclosed Hopen. unfold fd_get. wp_step. rewrite wp_own. cbn [fst].
  destruct ((n - DFS_FD_OFFSET <? 0) || (Z.of_nat (length (fds s)) <=? n - DFS_FD_OFFSET)) eqn:Eb.
  { wp_step. apply Hclosed. destruct (m !! n) as [[p c]|] eqn:E; [|done]. pose proof (fi_low _ _ Hi _ _ E) as Hl.
    assert (En : fds s !! Z.to_nat (n - DFS_FD_OFFSET) = Some (Some p)).
    { apply (fi_table _ _ Hi). exists c. rewrite <- E. f_equal. lia. }
    apply lookup_lt_Some in En. apply orb_prop in Eb as [H%Z.ltb_lt|H%Z.leb_le]; lia. }
  apply orb_false_elim in Eb as [H1%Z.ltb_ge H2%Z.leb_gt]. destruct (lookup_lt_is_Some_2 (fds s) (Z.to_nat (n - DFS_FD_OFFSET))) as [e En]; [lia|].
  wp_step. apply (wp_deref _ e); [done|]. destruct e as [p|].
  - destruct (open_entry s m _ p Hi En) as (d & Ed & Em & Hc & Hm). rewrite Z2Nat.id in Em by lia. replace (n - DFS_FD_OFFSET + DFS_FD_OFFSET) with n in Em by lia.
    wp_step. apply (wp_get_fd p d); [done|]. rewrite Hm, Z.eqb_refl. cbn [negb]. wp_step. apply (wp_upd_fd p _ d); [done|]. wp_step. by apply Hopen.
  - wp_step. apply Hclosed. destruct (m !! n) as [[p c]|] eqn:E; [|done].
    assert (fds s !! Z.to_nat (n - DFS_FD_OFFSET) = Some (Some p)) by (apply (fi_table _ _ Hi); exists c; rewrite <- E; f_equal; lia). congruence.
Qed.
Lemma wp_fd_get s m n : fd_inv s m ->
  wp (fd_get n) (fun p s' => s'.2 = w /\ exists m', descriptors m (FGet n p) m' /\ fd_inv s'.1 m') (s, w).
Proof.
  intros Hi. apply (wp_fd_get_cases s m); [done|intros E; split; [done|]; exists m; split; [by apply ds_none|done]|].
  intros p d Em Ed Hm. split; [done|]. exists (<[n := (p, fd_ref_count d + 1)]> m). split; [by apply ds_get|].
  destruct (fi_file _ _ Hi _ _ _ Em) as (Hc & _). by apply (fd_use_inv s m n p (fd_ref_count d)); [..|lia|done|].
Qed.

Lemma wp_clear_loop p t : forall index k (Q : unit -> dfs * W -> Prop) s, t !! k = Some (Some p) -> (forall k', (k' < k)%nat -> t !! k' ≠ Some (Some p)) ->
  Q tt (set_fds <[(index + k)%nat := None]> (set_files (delete p) s.1), s.2) -> wp (clear_loop index t p) Q s.
Proof.
  induction t as [|e t IH]; intros index k Q s Ek Hk HQ; [done|]. cbn [clear_loop]. destruct k as [|k].
  - injection Ek as ->. rewrite decide_True by done. wp_step. rewrite wp_upd, wp_upd. by rewrite Nat.add_0_r in HQ.
  - rewrite decide_False; [|intros ->; by apply (Hk 0%nat); [lia|]]. apply (IH (S index) k); [done|intros k' Hk'; apply (Hk (S k')); lia|].
    by replace (S index + k)%nat with (index + S k)%nat by lia.
Qed.

Lemma fd_close_inv s m n p c : fd_inv s m -> m !! (Z.of_nat n + DFS_FD_OFFSET) = Some (p, c) ->
  fd_inv (set_fds <[n := None]> (set_files (delete p) s)) (delete (Z.of_nat n + DFS_FD_OFFSET) m).
Proof.
  intros [H1 H2 H3 H4 H5] Em. assert (En : fds s !! n = Some (Some p)) by (apply H2; by exists c). pose proof (lookup_lt_Some _ _ _ En) as Hl.
  split; cbn [fds files set_fds set_files].
  - by rewrite length_insert.
  - intros k q. destruct (decide (k = n)) as [->|Hk].
    + rewrite list_lookup_insert_eq by done. split; [done|]. intros [x E]. by rewrite lookup_delete_eq in E.
    + rewrite list_lookup_insert_ne, H2 by done. split; intros [x E]; exists x; [by rewrite lookup_delete_ne by lia|by rewrite lookup_delete_ne in E by lia].
  - intros k x [_ E]%lookup_delete_Some. by eapply H3.
  - intros k q x [Hk E]%lookup_delete_Some. rewrite lookup_delete_ne by (intros ->; by eapply Hk, H5). by eapply H4.
  - intros k k' q x x' [_ E]%lookup_delete_Some [_ E']%lookup_delete_Some. by eapply H5.
Qed.

(** A use is given back, and another is left. *)
Lemma wp_fd_put_use p d (Q : unit -> dfs * W -> Prop) s : files s.1 !! p = Some d -> fd_ref_count d ≠ 1 ->
  Q tt (set_files <[p := set_fd_count (fd_ref_count d - 1) d]> s.1, s.2) -> wp (fd_put (Some p)) Q s.
Proof.
  intros Ed Hc HQ. unfold fd_put. wp_step. apply (wp_deref _ p); [done|]. wp_step. apply (wp_get_fd p d); [done|]. wp_step. apply (wp_upd_fd p _ d); [done|].
  wp_step. eapply (wp_get_fd p); [cbn; by rewrite lookup_insert_eq|]. cbn [fd_ref_count set_fd_count]. by rewrite (proj2 (Z.eqb_neq _ _)) by lia.
Qed.
(** The last use. *)
Lemma wp_fd_put_last p d n m (Q : unit -> dfs * W -> Prop) s : fd_inv s m -> files s !! p = Some d -> fds s !! n = Some (Some p) -> fd_ref_count d = 1 ->
  Q tt (set_fds <[n := None]> (set_files (delete p) s), w) -> wp (fd_put (Some p)) Q (s, w).
Proof.
  intros Hi Ed En Hc HQ. unfold fd_put. wp_step. apply (wp_deref _ p); [done|]. wp_step. apply (wp_get_fd p d); [done|]. wp_step. apply (wp_upd_fd p _ d); [done|]. cbn [fst snd].
  wp_step. eapply (wp_get_fd p); [cbn; by rewrite lookup_insert_eq|]. cbn [fd_ref_count set_fd_count]. rewrite Hc. change (1 - 1 =? 0) with true. cbn [when].
  wp_step. rewrite wp_own. cbn [fst]. apply (wp_clear_loop p _ 0 n); [done| |].
  - intros k Hk E. assert (H : Z.of_nat k + DFS_FD_OFFSET = Z.of_nat n + DFS_FD_OFFSET); [|lia].
    apply (fi_table _ _ Hi) in E as [x Ex], En as [y Ey]. by eapply (fi_inj _ _ Hi).
  - rewrite Nat.add_0_l. cbn [fst snd].
    match goal with |- Q _ (?x, _) => assert (Ex : x = set_fds <[n := None]> (set_files (delete p) s)) end.
    { unfold set_files, set_fds. cbn. by rewrite delete_insert_eq. }
    by rewrite Ex.
Qed.
Lemma wp_fd_put s m p : fd_inv s m -> Some p ∈ fds s ->
  wp (fd_put (Some p)) (fun _ s' => s'.2 = w /\ exists m', descriptors m (FPut p) m' /\ fd_inv s'.1 m') (s, w).
Proof.
  intros Hi (n & En)%list_elem_of_lookup. destruct (open_entry s m n p Hi En) as (d & Ed & Em & Hc & Hm).
  pose proof (ds_put m _ p _ Em) as Hd. destruct (decide (fd_ref_count d = 1)) as [H1|H1].
  - eapply wp_fd_put_last; [done..|]. split; [done|]. eexists. split; [done|]. by eapply fd_close_inv.
  - apply (wp_fd_put_use p d); [done|done|]. split; [done|]. eexists. split; [done|]. by apply (fd_use_inv s m _ p (fd_ref_count d)); [..|lia|done|].
Qed.

Lemma other_inv s s' m : fd_inv s m -> fds s' = fds s ->
  (forall p d, Some p ∈ fds s -> files s !! p = Some d -> exists d', files s' !! p = Some d' /\ fd_ref_count d' = fd_ref_count d /\ fd_magic d' = fd_magic d) ->
  fd_inv s' m.
Proof.
  intros [H1 H2 H3 H4 H5] Et Hf. split; rewrite ?Et; try done. intros n p c Em. destruct (H4 n p c Em) as (Hc & d & Ed & Hd & Hm). split; [done|].
  destruct (Hf p d) as (d' & Ed' & Hd' & Hm'); [|done|exists d'; by rewrite Hd', Hm'].
  apply list_elem_of_lookup. exists (Z.to_nat (n - DFS_FD_OFFSET)). apply H2. exists c. pose proof (H3 _ _ Em). rewrite <- Em. f_equal. lia.
Qed.

(** C36: However threads open, use and close files, a descriptor leads to the same file from its opening to
    the last use that is given back; new descriptors are the lowest free numbers, and are
    refused only without memory or when all sixteen are taken.  No call faults. *)
Theorem fd_refines s0 tr s : fds s0 = [] -> steps fd_step s0 tr s ->
  exists m, steps descriptors ∅ tr m /\ fd_inv s m /\
    (forall mem, (forall p, m_calloc mem = Some p -> files s !! p = None) -> is_Some (fd_new mem (s, w))) /\
    (forall n, is_Some (fd_get n (s, w))) /\ (forall p, Some p ∈ fds s -> is_Some (fd_put (Some p) (s, w))).
Proof.
  intros E0 Hrun. assert (Hi0 : fd_inv s0 ∅).
  { split; rewrite ?E0; cbn; [lia| |set_solver..]. intros n p. rewrite lookup_nil. split; [done|]. intros [c Ec]. by rewrite lookup_empty in Ec. }
  destruct (simulation_rel fd_step descriptors fd_inv) with (s := s0) (tr := tr) (s' := s) (b := ∅ : uses) as (m & Hs & Hi); [|done|done|].
  { clear. intros s l s' m Hi Hstep. destruct Hstep as [s mem r s' Hfr E|s n p s' E|s p s' Hp E|s s' Et Hf].
    - destruct (wp_result _ _ _ _ _ (wp_fd_new mem s m Hi Hfr) E) as (_ & _ & H). exact H.
    - destruct (wp_result _ _ _ _ _ (wp_fd_get s m n Hi) E) as (_ & H). exact H.
    - destruct (wp_result _ _ _ _ _ (wp_fd_put s m p Hi Hp) E) as (_ & H). exact H.
    - exists m. split; [constructor|]. by apply (other_inv s). }
  exists m. split_and!; [done|done| | |].
  - intros mem Hfr. by eapply wp_is_some, wp_fd_new.
  - intros n. by eapply wp_is_some, wp_fd_get.
  - intros p Hp. by eapply wp_is_some, wp_fd_put.
Qed.
End descriptor_table.

(** ** Finding the file system of a path *)

Definition mounted (e : dfs_filesystem) (m : list Z) : Prop := fs_path e = Some m /\ is_Some (fs_ops e).
(** The path is that of the mount point, or of something below it. *)
Definition contains (m path : list Z) : Prop :=
  exists r, path = m ++ r /\ ((length m <= 1)%nat \/ r = [] \/ head r = Some SLASH).
Definition none_contains (t : list dfs_filesystem) (path : list Z) (n : Z) : Prop :=
  forall j e m, t !! j = Some e -> mounted e m -> contains m path -> Z.of_nat (length m) < n.
(** The longest of the mount points that contain the path, the last of those. *)
Definition best (t : list dfs_filesystem) (i : nat) (path : list Z) : Prop :=
  exists e m, t !! i = Some e /\ mounted e m /\ contains m path /\
    forall j e' m', t !! j = Some e' -> mounted e' m' -> contains m' path ->
      (length m' <= length m)%nat /\ ((i < j)%nat -> (length m' < length m)%nat).

Lemma best_unique t i j path : best t i path -> best t j path -> i = j.
Proof.
  intros (e & m & Ei & He & Hm & Hi) (e' & m' & Ej & He' & Hm' & Hj). destruct (Hi j e' m' Ej He' Hm') as [H1 H2]. destruct (Hj i e m Ei He Hm) as [H3 H4].
  destruct (lt_eq_lt_dec i j) as [[H|H]|H]; [specialize (H2 H); lia|done|specialize (H4 H); lia].
Qed.

(** The test of an entry of the loop. *)
Lemma contains_test m path :
  bool_decide (take (length m) path = m) && negb ((1 <? Z.of_nat (length m)) && (Z.of_nat (length m) <? Z.of_nat (length path)) && negb (bool_decide (path !! length m = Some SLASH))) = true <->
  contains m path.
Proof.
  rewrite andb_true_iff, bool_decide_eq_true, negb_true_iff. split.
  - intros [Ht Hs]. exists (drop (length m) path). split; [by rewrite <- Ht at 1; rewrite take_drop|].
    destruct (Z.ltb_spec 1 (Z.of_nat (length m))) as [H1|]; [|left; lia]. right. cbn [andb] in Hs.
    destruct (Z.ltb_spec (Z.of_nat (length m)) (Z.of_nat (length path))) as [H2|]; [|left; apply drop_ge; lia]. right. cbn [andb] in Hs.
    apply negb_false_iff, bool_decide_eq_true in Hs. rewrite <- (take_drop_middle _ _ _ Hs). rewrite drop_app_length'; [done|rewrite length_take; lia].
  - intros (r & -> & Hr). rewrite take_app_length. split; [done|]. destruct Hr as [H|[->|H]].
    + by rewrite (proj2 (Z.ltb_ge _ _)) by lia.
    + rewrite app_nil_r, Z.ltb_irrefl, andb_false_r. done.
    + destruct r as [|c r]; [done|]. injection H as ->. rewrite list_lookup_middle by done. by rewrite bool_decide_eq_true_2, andb_false_r.
Qed.

Lemma lookup_loop_spec path t : forall iter fs n,
  (lookup_loop iter t path fs n = fs /\ none_contains t path n) \/
  (exists k e m, lookup_loop iter t path fs n = Some (iter + k)%nat /\ t !! k = Some e /\ mounted e m /\ contains m path /\ n <= Z.of_nat (length m) /\
     forall j e' m', t !! j = Some e' -> mounted e' m' -> contains m' path -> (length m' <= length m)%nat /\ ((k < j)%nat -> (length m' < length m)%nat)).
Proof.
  induction t as [|e t IH]; intros iter fs n; [left; split; [done|]; intros j e m Ej; done|].
  assert (Hskip : (forall m, mounted e m -> contains m path -> Z.of_nat (length m) < n) -> lookup_loop iter (e :: t) path fs n = lookup_loop (S iter) t path fs n ->
    (lookup_loop iter (e :: t) path fs n = fs /\ none_contains (e :: t) path n) \/
    (exists k e' m, lookup_loop iter (e :: t) path fs n = Some (iter + k)%nat /\ (e :: t) !! k = Some e' /\ mounted e' m /\ contains m path /\ n <= Z.of_nat (length m) /\
     forall j e' m', (e :: t) !! j = Some e' -> mounted e' m' -> contains m' path -> (length m' <= length m)%nat /\ ((k < j)%nat -> (length m' < length m)%nat))).
  { intros He ->. destruct (IH (S iter) fs n) as [[-> Hn]|(k & e' & m & -> & Ek & Hm & Hc & Hl & Hb)].
    - left. split; [done|]. intros [|j] e' m Ej Hm Hc; [injection Ej as <-; by apply He|by eapply Hn].
    - right. exists (S k), e', m. split; [f_equal; lia|]. split_and!; [done..|]. intros [|j] e2 m2 Ej Hm2 Hc2; [injection Ej as <-; specialize (He m2 Hm2 Hc2); lia|].
      destruct (Hb j e2 m2 Ej Hm2 Hc2). split; [done|lia]. }
  destruct (fs_path e) as [m|] eqn:Em; [|apply Hskip; [intros m [Hm _] _; congruence|cbn [lookup_loop]; by rewrite Em]].
  destruct (fs_ops e) as [o|] eqn:Eo; [|apply Hskip; [intros m' [_ [o Ho]] _; congruence|cbn [lookup_loop]; by rewrite Em, Eo]].
  pose proof (contains_test m path) as Ht. cbn [lookup_loop] in Hskip |- *. rewrite Em, Eo in Hskip |- *.
  destruct (Z.ltb_spec (Z.of_nat (length m)) n) as [Hn|Hn]; cbn [orb] in Hskip |- *; [apply Hskip; [|done]; intros m' [Hm' _] _; congruence|].
  destruct (bool_decide (take (length m) path = m)) eqn:Ebt; cbn [negb andb] in Ht, Hskip |- *.
  2:{ apply Hskip; [|done]. intros m' [Hm' _] Hc. rewrite Em in Hm'. injection Hm' as <-. apply Ht in Hc. done. }
  destruct ((1 <? Z.of_nat (length m)) && (Z.of_nat (length m) <? Z.of_nat (length path)) && negb (bool_decide (path !! length m = Some SLASH))) eqn:Esep; cbn [negb] in Ht.
  { apply Hskip; [|done]. intros m' [Hm' _] Hc. rewrite Em in Hm'. injection Hm' as <-. apply Ht in Hc. done. }
  clear Hskip. assert (Hc : contains m path) by (by apply Ht). assert (He : mounted e m) by (split; [done|by eexists]).
  right. destruct (IH (S iter) (Some iter) (Z.of_nat (length m))) as [[-> Hnone]|(k & e' & m' & -> & Ek & Hm & Hc' & Hl & Hb)].
  - exists 0%nat, e, m. split; [f_equal; lia|]. split_and!; [done..|]. intros [|j] e2 m2 Ej Hm2 Hc2.
    + injection Ej as <-. destruct Hm2 as [Hm2 _]. rewrite Em in Hm2. injection Hm2 as <-. split; [done|lia].
    + specialize (Hnone j e2 m2 Ej Hm2 Hc2). lia.
  - exists (S k), e', m'. split; [f_equal; lia|]. split_and!; [done..|lia|]. intros [|j] e2 m2 Ej Hm2 Hc2.
    + injection Ej as <-. destruct Hm2 as [Hm2 _]. rewrite Em in Hm2. injection Hm2 as <-. split; lia.
    + destruct (Hb j e2 m2 Ej Hm2 Hc2). split; [done|lia].
Qed.

Lemma lookup_best t path i : lookup_loop 0 t path None 0 = Some i <-> best t i path.
Proof.
  assert (H : forall i, lookup_loop 0 t path None 0 = Some i -> best t i path).
  { intros j E. destruct (lookup_loop_spec path t 0 None 0) as [[E' _]|(k & e & m & E' & Ek & Hm & Hc & _ & Hb)]; rewrite E' in E; [done|]. injection E as <-. by exists e, m. }
  split; [apply H|]. intros Hb. destruct (lookup_loop 0 t path None 0) as [j|] eqn:E; [f_equal; by eapply best_unique; [apply H|]|].
  destruct (lookup_loop_spec path t 0 None 0) as [[_ Hn]|(k & e & m & E' & _)]; [|congruence].
  destruct Hb as (e & m & Ei & Hm & Hc & _). specialize (Hn i e m Ei Hm Hc). lia.
Qed.
Lemma lookup_none t path : lookup_loop 0 t path None 0 = None <-> forall j e m, t !! j = Some e -> mounted e m -> ~ contains m path.
Proof.
  destruct (lookup_loop_spec path t 0 None 0) as [[-> Hn]|(k & e & m & -> & Ek & Hm & Hc & _)].
  - split; [|done]. intros _ j e m Ej Hm Hc. specialize (Hn j e m Ej Hm Hc). lia.
  - split; [done|]. intros H. by destruct (H k e m Ek Hm Hc).
Qed.

(** ** Opening a file *)

(** The path a file system is given: what stands behind the mount point, and "/" for the mount point
    itself; the root is not taken off. *)
Definition rest_of (m path sub : list Z) : Prop :=
  head sub = Some SLASH /\ (path = m ++ sub \/ m = [SLASH] /\ path = sub \/ path = m /\ sub = [SLASH]).

Definition directory_is (wd : list Z) (s : dfs) : Prop := 0 ∈ working_directory s /\ c_string (working_directory s) = wd.

(** What is set before the file system opens a file. *)
Definition to_open (i fops : nat) (sub : list Z) (flags : Z) (d : dfs_fd) : dfs_fd :=
  mkFd (fd_magic d) FT_REGULAR (Some sub) (fd_ref_count d) (Some i) (Some fops) (u32 flags) 0 0 (PFs i).
(** And after that. *)
Definition opened (flags result : Z) (d : dfs_fd) : dfs_fd :=
  if result <? 0 then set_fd_path None d
  else if Z.land flags O_DIRECTORY =? 0 then set_fd_flags (Z.lor (fd_flags d) DFS_F_OPEN) d
  else set_fd_type FT_DIRECTORY (set_fd_flags (Z.lor (Z.lor (fd_flags d) DFS_F_OPEN) DFS_F_DIRECTORY) d).

Section opening.
Context {W : Type} `{!file_systems W} (front : Z) (front_ok : front ≠ SLASH).

Lemma wp_world_fs {A} (m : M W A) (Q : A -> dfs * W -> Prop) s w : wp m (fun a w' => Q a (s, w')) w -> wp (world m) Q (s, w).
Proof. unfold wp, world. cbn. by destruct (m w) as [[a w']|]. Qed.

Lemma wp_full_path wd path (Q : option (list Z) -> dfs * W -> Prop) s w : directory_is wd s -> ~ 0 ∈ path_of wd None path ->
  Q (normal (path_of wd None path)) (s, w) -> wp (full_path front true path) Q (s, w).
Proof.
  intros [Hz Hwd] H0 HQ. unfold full_path. wp_step.
  assert (E : forall d, path_of d None path = path_of wd None path -> dfs_normalize_path front true d None path = Some (normal (path_of wd None path))).
  { intros d Ed. rewrite dfs_normalize_path_eq by (done || by rewrite Ed). by rewrite Ed. }
  destruct (Z.eqb_spec (default 0 (head path)) SLASH) as [Eh|Eh].
  - wp_step. eapply wp_deref; [apply E|done]. unfold path_of. destruct path as [|c path]; [done|]. cbn in Eh. subst c. by rewrite !decide_True.
  - unfold directory_string. wp_step. rewrite wp_own. wp_step. apply wp_assert; [by apply bool_decide_eq_true|]. wp_step. eapply wp_deref; [apply E|done]. cbn [fst]. by rewrite Hwd.
Qed.

Lemma wp_below i e m path (Q : option (list Z) -> dfs * W -> Prop) s : filesystem_table s.1 !! i = Some e -> fs_path e = Some m -> contains m path -> head m = Some SLASH ->
  (forall sub, rest_of m path (default [SLASH] sub) -> (sub = None <-> path = m) -> Q sub s) -> wp (below i path) Q s.
Proof.
  intros Ei Em (r & -> & Hr) Hm HQ. unfold below, path_of_fs, get_fs. wp_step. wp_step. apply (wp_deref _ e); [done|]. apply (wp_deref _ m); [done|]. wp_step.
  unfold dfs_subdir. rewrite length_app. destruct r as [|c r].
  - eapply wp_deref; [by rewrite Nat.add_0_r, Z.eqb_refl|]. wp_step. apply HQ; [|by rewrite app_nil_r]. split; [done|]. right. right. by rewrite app_nil_r.
  - cbn [length]. rewrite (proj2 (Z.eqb_neq _ _)) by lia. rewrite Nat2Z.id, <- (assoc_L (++)). cbn [app]. rewrite list_lookup_middle by done.
    assert (Hne : m ++ c :: r ≠ m) by (intros E; apply (f_equal length) in E; rewrite length_app in E; cbn in E; lia).
    destruct (Z.eqb_spec c SLASH) as [->|Hc]; cbn [negb andb].
    + eapply wp_deref; [done|]. wp_step. apply HQ; [|done]. cbn. rewrite Nat2Z.id, drop_app_length. split; [done|by left].
    + assert (m = [SLASH]) as ->. { destruct Hr as [Hr|[Hr|[= ->]]]; [|done|done]. destruct m as [|x [|y m]]; [done|by injection Hm as ->|cbn in Hr; lia]. }
      eapply wp_deref; [done|]. wp_step. apply HQ; [|done]. cbn. split; [done|right; by left].
Qed.

(** The pointer [p] after [d] has been written to it. *)
Abbreviation at_fd p d s := (set_files <[p := d]> s).
Lemma again p d d' s : at_fd p d' (at_fd p d s) = at_fd p d' s.
Proof. unfold set_files. cbn. by rewrite insert_insert_eq. Qed.
Lemma wp_upd_again p f d (Q : unit -> dfs * W -> Prop) s w : Q tt (at_fd p (f d) s, w) -> wp (upd_fd p f) Q (at_fd p d s, w).
Proof. intros HQ. apply (wp_upd_fd p f d); [cbn; by rewrite lookup_insert_eq|]. cbn [fst snd]. by rewrite again. Qed.
Lemma wp_drive_fd {A} p (f : fd_fn A) d (Q : A -> dfs * W -> Prop) s w :
  wp (f d) (fun '(a, d') w' => Q a (at_fd p d' s, w')) w -> wp (drive p f) Q (at_fd p d s, w).
Proof.
  intros HQ. unfold drive. wp_step. apply (wp_get_fd p d); [cbn; by rewrite lookup_insert_eq|]. wp_step. apply wp_world_fs. eapply wp_mono; [|apply HQ].
  intros [a d'] w' H. wp_step. rewrite wp_upd. wp_step. cbn [fst snd]. by rewrite again.
Qed.
Lemma wp_fops_of p o (Q : dfs_file_ops W -> dfs * W -> Prop) d s w : fd_fops d = Some o -> Q (file_ops o) (at_fd p d s, w) -> wp (fops_of p) Q (at_fd p d s, w).
Proof.
  intros Eo HQ. unfold fops_of. wp_step. apply (wp_get_fd p d); [cbn; by rewrite lookup_insert_eq|]. wp_step. by apply (wp_deref _ o).
Qed.
Lemma wp_ops_of i e o (Q : dfs_filesystem_ops W -> dfs * W -> Prop) s w : filesystem_table s !! i = Some e -> fs_ops e = Some o -> Q (fs_type o) (s, w) -> wp (ops_of i) Q (s, w).
Proof. intros Ei Eo HQ. unfold ops_of, get_fs. wp_step. apply (wp_deref _ e); [done|]. wp_step. by apply (wp_deref _ o). Qed.

Lemma opened_eq flags r d : negb (r <? 0) = true ->
  opened flags r d = if negb (Z.land flags O_DIRECTORY =? 0) then set_fd_flags (Z.lor (fd_flags (set_fd_type FT_DIRECTORY (set_fd_flags (Z.lor (fd_flags d) DFS_F_OPEN) d))) DFS_F_DIRECTORY)
      (set_fd_type FT_DIRECTORY (set_fd_flags (Z.lor (fd_flags d) DFS_F_OPEN) d))
    else set_fd_flags (Z.lor (fd_flags d) DFS_F_OPEN) d.
Proof. intros H%negb_true_iff. unfold opened. rewrite H. by destruct (Z.land flags O_DIRECTORY =? 0). Qed.

Lemma wp_dfs_file_open mem fd path flags wd full i e m o f (Q : Z -> dfs * W -> Prop) s w d :
  directory_is wd s -> ~ 0 ∈ path_of wd None path -> m_path mem = true -> m_dup mem = true -> files s !! fd = Some d ->
  normal (path_of wd None path) = Some full -> best (filesystem_table s) i full -> filesystem_table s !! i = Some e -> fs_path e = Some m -> fs_ops e = Some o ->
  head m = Some SLASH -> Z.land (op_flags (fs_type o)) DFS_FS_FLAG_FULLPATH = 0 -> fop_open (file_ops (op_fops (fs_type o))) = Some f ->
  (forall sub, rest_of m full sub -> wp (f (to_open i (op_fops (fs_type o)) sub flags d))
     (fun '(r, d') w' => Q (if r <? 0 then r else 0) (at_fd fd (opened flags r d') s, w')) w) ->
  wp (dfs_file_open front mem (Some fd) path flags) Q (s, w).
Proof.
  intros Hwd H0 Hmp Hmd Ed En Hb Ei Em Eo Hm Hfl Hf HQ. unfold dfs_file_open. rewrite Hmp, Hmd. wp_step. apply (wp_full_path wd); [done..|]. rewrite En. cbn iota.
  wp_step. unfold dfs_filesystem_lookup. wp_step. rewrite wp_own. cbn [fst]. wp_step. rewrite (proj2 (lookup_best _ _ _) Hb). cbn iota.
  wp_step. apply (wp_ops_of i e o); [done..|]. wp_step. apply (wp_upd_fd fd _ d); [done|]. cbn [fst snd]. wp_step. rewrite Hfl. cbn [Z.eqb].
  destruct Hb as (e' & m' & Ei' & [Em' _] & Hc & _). rewrite Ei in Ei'. injection Ei' as <-. rewrite Em in Em'. injection Em' as <-.
  wp_step. apply (wp_below i e m); [done..|]. intros sub Hsub _. apply wp_upd_again. wp_step. apply (wp_fops_of fd (op_fops (fs_type o))); [done|]. rewrite Hf. cbn iota.
  wp_step. apply wp_drive_fd. eapply wp_mono; [|apply (HQ _ Hsub)]. intros [r d'] w' H. cbn beta. destruct (r <? 0) eqn:Er.
  - wp_step. apply wp_upd_again. wp_step. unfold opened in H. by rewrite Er in H.
  - rewrite opened_eq in H by (by rewrite Er). wp_step. apply wp_upd_again. wp_step. apply wp_when; intros Hd; rewrite Hd in H; [wp_step; apply wp_upd_again, wp_upd_again|]; by wp_step.
Qed.
Lemma wp_dfs_file_open_none mem fd path flags wd full (Q : Z -> dfs * W -> Prop) s w :
  directory_is wd s -> ~ 0 ∈ path_of wd None path -> m_path mem = true -> normal (path_of wd None path) = Some full ->
  (forall j e m, filesystem_table s !! j = Some e -> mounted e m -> ~ contains m full) ->
  Q (- ENOENT) (s, w) -> wp (dfs_file_open front mem (Some fd) path flags) Q (s, w).
Proof.
  intros Hwd H0 Hmp En Hn HQ. unfold dfs_file_open. rewrite Hmp. wp_step. apply (wp_full_path wd); [done..|]. rewrite En. cbn iota.
  wp_step. unfold dfs_filesystem_lookup. wp_step. rewrite wp_own. cbn [fst]. wp_step. rewrite (proj2 (lookup_none _ _) Hn). by wp_step.
Qed.

(** C37: A file is opened in the file system with the longest mount point that contains the normal form of
    its path, with the path from there on; without one it is not found.  What the file system answers
    decides whether it is open. *)
Theorem dfs_file_open_spec mem fd path flags wd full s (w : W) d :
  directory_is wd s -> ~ 0 ∈ path_of wd None path -> m_path mem = true -> m_dup mem = true -> files s !! fd = Some d -> normal (path_of wd None path) = Some full ->
  (forall i e m o f (Q : Z * dfs_fd -> W -> Prop), best (filesystem_table s) i full -> filesystem_table s !! i = Some e -> fs_path e = Some m -> fs_ops e = Some o ->
     head m = Some SLASH -> Z.land (op_flags (fs_type o)) DFS_FS_FLAG_FULLPATH = 0 -> fop_open (file_ops (op_fops (fs_type o))) = Some f ->
     (forall sub, rest_of m full sub -> wp (f (to_open i (op_fops (fs_type o)) sub flags d)) Q w) ->
     wp (dfs_file_open front mem (Some fd) path flags) (fun r s' => exists r' d' w', Q (r', d') w' /\ r = (if r' <? 0 then r' else 0) /\ s' = (at_fd fd (opened flags r' d') s, w')) (s, w)) /\
  ((forall j e m, filesystem_table s !! j = Some e -> mounted e m -> ~ contains m full) ->
     dfs_file_open front mem (Some fd) path flags (s, w) = Some (- ENOENT, (s, w))).
Proof.
  intros Hwd H0 Hmp Hmd Ed En. split.
  - intros i e m o f Q Hb Ei Em Eo Hm Hfl Hf HQ. eapply wp_dfs_file_open; [done..|]. intros sub Hsub. eapply wp_mono; [|apply (HQ sub Hsub)].
    intros [r d'] w' H. by exists r, d', w'.
  - intros Hn. pose proof (wp_dfs_file_open_none mem fd path flags wd full (fun r s' => r = - ENOENT /\ s' = (s, w)) s w Hwd H0 Hmp En Hn (conj eq_refl eq_refl)) as H.
    apply wp_unfold in H as (r & s' & E & -> & ->). exact E.
Qed.
End opening.

(** ** Mounting and unmounting *)

(** Entries are free or have a mount point. *)
Definition table_ok (t : list dfs_filesystem) : Prop := Forall (fun e => e = no_fs \/ exists m, mounted e m) t.
Definition elsewhere (path : list Z) (t : list dfs_filesystem) : Prop := Forall (fun e => fs_path e ≠ Some path) t.
Definition first_free (t : list dfs_filesystem) (i : nat) : Prop :=
  t !! i = Some no_fs /\ forall j e, (j < i)%nat -> t !! j = Some e -> is_Some (fs_ops e).

Section mounting.
Context {W : Type} `{!file_systems W} (front : Z) (front_ok : front ≠ SLASH).

Lemma wp_mount_loop path t : forall iter fs (Q : option (option nat) -> dfs * W -> Prop) s, table_ok t -> elsewhere path t ->
  (forall i, first_free t i -> Q (Some (match fs with None => Some (iter + i)%nat | _ => fs end)) s) ->
  ((forall e, e ∈ t -> is_Some (fs_ops e)) -> Q (Some fs) s) -> wp (mount_loop iter t path fs) Q s.
Proof.
  induction t as [|e t IH]; intros iter fs Q s Ht Hp HQ HQ'; cbn [mount_loop]; [wp_step; apply HQ'; intros e He; by apply elem_of_nil in He|].
  apply Forall_cons in Ht as [He Ht]. apply Forall_cons in Hp as [Hpe Hp]. destruct He as [->|(m & Em & o & Eo)].
  - cbn [fs_ops no_fs]. specialize (HQ 0%nat). rewrite Nat.add_0_r in HQ. assert (H : Q (Some match fs with Some _ => fs | None => Some iter end) s) by (apply HQ; split; [done|lia]).
    apply IH; [done|done| |intros _; exact H]. intros i _. by destruct fs.
  - rewrite Eo. wp_step. apply (wp_deref _ m); [done|]. rewrite decide_False by congruence. apply IH; [done|done| |].
    + intros i [Ei Hi]. replace (S iter + i)%nat with (iter + S i)%nat by lia. apply HQ. split; [done|]. intros [|j] e' Hj Ej; [injection Ej as <-; by eexists|]. apply (Hi j e'); [lia|done].
    + intros H. apply HQ'. intros e' [->|He']%elem_of_cons; [by eexists|by apply H].
Qed.
Lemma wp_mount_loop_busy path t : forall iter fs (Q : option (option nat) -> dfs * W -> Prop) s, table_ok t -> ~ elsewhere path t ->
  Q None s -> wp (mount_loop iter t path fs) Q s.
Proof.
  induction t as [|e t IH]; intros iter fs Q s Ht Hp HQ; cbn [mount_loop]; [destruct Hp; constructor|].
  apply Forall_cons in Ht as [He Ht]. destruct He as [->|(m & Em & o & Eo)].
  - cbn [fs_ops no_fs]. apply IH; [done| |done]. intros H. apply Hp. by constructor.
  - rewrite Eo. wp_step. apply (wp_deref _ m); [done|]. case_decide as Hm; [by wp_step|]. apply IH; [done| |done]. intros H. apply Hp. constructor; [congruence|done].
Qed.

Lemma unmount_loop_at path t i e : t !! i = Some e -> fs_path e = Some path -> (forall j e', j ≠ i -> t !! j = Some e' -> fs_path e' ≠ Some path) ->
  forall iter, unmount_loop iter t path = Some (iter + i)%nat.
Proof.
  revert i. induction t as [|x t IH]; intros i Ei Ep Hne iter; [done|]. cbn [unmount_loop]. destruct i as [|i].
  - injection Ei as ->. rewrite decide_True by done. f_equal. lia.
  - rewrite decide_False by (apply (Hne 0%nat); done). rewrite (IH i Ei Ep); [f_equal; lia|]. intros j e' Hj Ej. apply (Hne (S j)); [lia|done].
Qed.

(** The entry [i] after [e] has been written to it. *)
Abbreviation at_fs i e s := (set_mounted <[i := e]> s).
Lemma wp_upd_fs i f e (Q : unit -> dfs * W -> Prop) s w : filesystem_table s !! i = Some e -> Q tt (at_fs i (f e) s, w) -> wp (upd_fs i f) Q (s, w).
Proof. intros Ei HQ. unfold upd_fs, get_fs. wp_step. by apply (wp_deref _ e). Qed.
Lemma fs_again i e e' s : at_fs i e' (at_fs i e s) = at_fs i e' s.
Proof. unfold set_mounted. cbn. by rewrite list_insert_insert_eq. Qed.
Lemma wp_drive_fs {A} i (f : fs_fn A) e (Q : A -> dfs * W -> Prop) s w : (i < length (filesystem_table s))%nat ->
  wp (f e) (fun '(a, e') w' => Q a (at_fs i e' s, w')) w -> wp (drive_fs i f) Q (at_fs i e s, w).
Proof.
  intros Hi HQ. unfold drive_fs, get_fs. wp_step. apply (wp_deref _ e); [cbn; by rewrite list_lookup_insert_eq|]. wp_step. apply wp_world_fs. eapply wp_mono; [|apply HQ].
  intros [a e'] w' H. wp_step. rewrite wp_upd. wp_step. cbn [fst snd]. by rewrite fs_again.
Qed.

(** Without a device. *)
Lemma wp_mount_at i path o f rwflag data (Q : Z -> dfs * W -> Prop) s w : filesystem_table s !! i = Some no_fs -> op_mount (fs_type o) = Some f ->
  wp (f rwflag data (mkFs None (Some path) (Some o) 0)) (fun '(r, e) w' => 0 <= r /\ Q 0 (at_fs i e s, w')) w ->
  wp (mount_at i path o None rwflag data) Q (s, w).
Proof.
  intros Ei Ef Hf. pose proof (lookup_lt_Some _ _ _ Ei) as Hl. unfold mount_at. wp_step. apply (wp_upd_fs i _ no_fs); [done|]. wp_step. wp_step. cbn [Z.eqb negb].
  wp_step. apply (wp_deref _ f); [done|]. wp_step. apply wp_drive_fs; [done|]. eapply wp_mono; [|apply Hf]. intros [r e] w' [Hr HQ]. cbn beta.
  rewrite (proj2 (Z.ltb_ge _ _)) by done. by wp_step.
Qed.

Lemma wp_dfs_mount mem fd path name o f rwflag data wd i (Q : Z -> dfs * W -> Prop) s w w1 :
  directory_is wd s -> ~ 0 ∈ path_of wd None path -> m_path mem = true -> normal (path_of wd None path) = Some path ->
  table_ok (filesystem_table s) -> elsewhere path (filesystem_table s) -> first_free (filesystem_table s) i ->
  type_loop (filesystem_operation_table s) name = Some o -> op_mount (fs_type o) = Some f ->
  mount_point front mem fd path (s, w) = Some (true, (s, w1)) ->
  wp (f rwflag data (mkFs None (Some path) (Some o) 0)) (fun '(r, e) w' => 0 <= r /\ Q 0 (at_fs i e s, w')) w1 ->
  wp (dfs_mount front mem fd None path name rwflag data) Q (s, w).
Proof.
  intros Hwd H0 Hm En Ht Hp Hi Eo Ef Hmp Hf. unfold dfs_mount. wp_step. wp_step. wp_step. rewrite wp_own. cbn [fst]. rewrite Eo, Ef, Hm.
  wp_step. apply (wp_full_path front front_ok wd); [done..|]. rewrite En. wp_step. unfold wp at 1. rewrite Hmp. cbn [negb]. wp_step. rewrite wp_own. cbn [fst].
  wp_step. apply wp_mount_loop; [done|done| |].
  - intros i' Hi'. assert (i' = i) as ->. { destruct Hi as [E1 H1], Hi' as [E2 H2]. destruct (lt_eq_lt_dec i' i) as [[H|H]|H]; [|done|].
      - destruct (H1 i' no_fs H E2) as [? ?]. done. - destruct (H2 i no_fs H E1) as [? ?]. done. }
    cbn [Nat.add]. destruct Hi as [Ei _]. by apply (wp_mount_at i path o f).
  - intros H. destruct Hi as [Ei _]. destruct (H no_fs) as [? ?]; [by eapply list_elem_of_lookup_2|done].
Qed.

Lemma wp_dfs_unmount path o g wd i e (Q : Z -> dfs * W -> Prop) s w : directory_is wd s -> ~ 0 ∈ path_of wd None path -> normal (path_of wd None path) = Some path ->
  filesystem_table s !! i = Some e -> fs_path e = Some path -> fs_ops e = Some o ->
  (forall j e', j ≠ i -> filesystem_table s !! j = Some e' -> fs_path e' ≠ Some path) -> op_unmount (fs_type o) = Some g ->
  wp (g e) (fun '(r, e') w' => 0 <= r /\ fs_dev_id e' = None /\ Q 0 (at_fs i no_fs s, w')) w ->
  wp (dfs_unmount front true path) Q (s, w).
Proof.
  intros Hwd H0 En Ei Ep Eo Hne Eg Hg. pose proof (lookup_lt_Some _ _ _ Ei) as Hl. unfold dfs_unmount.
  wp_step. apply (wp_full_path front front_ok wd); [done..|]. rewrite En. wp_step. rewrite wp_own. cbn [fst].
  rewrite (unmount_loop_at path _ i e Ei Ep Hne 0). cbn [Nat.add]. wp_step. apply (wp_ops_of i e o); [done..|]. rewrite Eg.
  assert (Es : s = at_fs i e s) by (unfold set_mounted; rewrite list_insert_id by done; by destruct s). rewrite Es at 1.
  wp_step. apply wp_drive_fs; [done|]. eapply wp_mono; [|apply Hg]. intros [r e'] w' (Hr & Hd & HQ). cbn beta. rewrite (proj2 (Z.ltb_ge _ _)) by done.
  unfold get_fs. wp_step. apply (wp_deref _ e'); [cbn; by rewrite list_lookup_insert_eq|]. rewrite Hd. wp_step. wp_step. wp_step.
  apply (wp_upd_fs i _ e'); [cbn; by rewrite list_lookup_insert_eq|]. wp_step. by rewrite fs_again.
Qed.

End mounting.

(** ** Samples *)

(** A file system that opens everything, counting the calls, and no devices. *)
Definition sample_file_ops : dfs_file_ops nat :=
  mkFileOps (Some (fun d w => Some ((0, d), S w))) None None None None None None None.
Definition sample_type : dfs_filesystem_ops nat :=
  mkFsOps DEVFS 0 0 (Some (fun _ _ e w => Some ((0, e), w))) (Some (fun e w => Some ((0, e), w))) None None None None
    (Some (fun _ _ e w => Some ((0, e), w))).
Definition sample_systems : file_systems nat :=
  {| fs_type := fun _ => sample_type; file_ops := fun _ => sample_file_ops; rt_device_find := fun _ w => Some (None, w);
     rt_device_open := fun _ _ w => Some (0, w); rt_device_close := fun _ w => Some (0, w) |}.
Section samples.
#[local] Existing Instance sample_systems.

(** Before and after the start, with a file at 7. *)
Definition sample_memory : dfs := mkDfs [] [] [] [] {[7%nat := zero_fd]} 0.
Definition sample_dfs : dfs := (after (dfs_init 0 (mkMemory None false true true) false 0 (8%nat, zero_fd)) (sample_memory, 0%nat)).1.
Definition sample_unmounted : dfs := mkDfs [Some 0%nat; None] [no_fs; no_fs] (SLASH :: replicate 255 0) [] ∅ 0.
Definition dev_a : list Z := [47; 100; 101; 118; 47; 47; 97].

Lemma fd_refines_witness :
  exists m, steps descriptors ∅ [FNew true (Some 9%nat) 3; FGet 3 (Some 9%nat); FPut 9; FPut 9; FGet 3 None] m.
Proof.
  set (mem := mkMemory (Some 9%nat) true true true).
  set (s1 := (after (fd_new mem) (sample_memory, 0%nat)).1). set (s2 := (after (fd_get 3) (s1, 0%nat)).1).
  set (s3 := (after (fd_put (Some 9%nat)) (s2, 0%nat)).1). set (s4 := (after (fd_put (Some 9%nat)) (s3, 0%nat)).1).
  destruct (fd_refines 0%nat sample_memory [FNew true (Some 9%nat) 3; FGet 3 (Some 9%nat); FPut 9; FPut 9; FGet 3 None] s4) as (m & Hm & _); [reflexivity| |by exists m].
  eapply steps_cons; [apply (step_new 0%nat sample_memory mem 3 s1); [intros p [= <-]; vm_compute; reflexivity|vm_compute; reflexivity]|].
  eapply steps_cons; [apply (step_get 0%nat s1 3 (Some 9%nat) s2); vm_compute; reflexivity|].
  eapply steps_cons; [apply (step_put 0%nat s2 9 s3); [apply (bool_decide_unpack _); vm_compute; reflexivity|vm_compute; reflexivity]|].
  eapply steps_cons; [apply (step_put 0%nat s3 9 s4); [apply (bool_decide_unpack _); vm_compute; reflexivity|vm_compute; reflexivity]|].
  eapply steps_cons; [apply (step_get 0%nat s4 3 None s4); vm_compute; reflexivity|]. apply steps_nil.
Defined.

(** "/dev//a" is opened as "/a" of the file system at "/dev". *)
Lemma dfs_file_open_spec_witness :
  wp (dfs_file_open 0 (mkMemory None false true true) (Some 7%nat) dev_a 0)
    (fun r s' => r = 0 /\ fd_path <$> (files s'.1 !! 7%nat) = Some (Some [47; 97])) (sample_dfs, 0%nat).
Proof.
  destruct (dfs_file_open_spec 0 ltac:(done) (mkMemory None false true true) 7 dev_a 0 [SLASH] (DEV ++ [47; 97]) sample_dfs 0%nat zero_fd) as [H _].
  - split; [apply (bool_decide_unpack _); vm_compute; reflexivity|vm_compute; reflexivity].
  - apply (bool_decide_unpack _). vm_compute. reflexivity.
  - reflexivity.
  - reflexivity.
  - vm_compute. reflexivity.
  - vm_compute. reflexivity.
  - eapply wp_mono; [|apply (H 0%nat (mkFs None (Some DEV) (Some 0%nat) 0) DEV 0%nat (fun d w => Some ((0, d), S w)) (fun '(r, d) _ => r = 0 /\ fd_path d = Some [47; 97]))].
    + intros r s' (r' & d' & w' & [-> Hp] & -> & ->). split; [done|]. cbn [fst files set_files]. rewrite lookup_insert_eq. change (Some (fd_path d') = Some (Some [47; 97])). by f_equal.
    + apply lookup_best. vm_compute. reflexivity.
    + vm_compute. reflexivity.
    + reflexivity.
    + reflexivity.
    + reflexivity.
    + reflexivity.
    + reflexivity.
    + intros sub [_ [E|[[E _]|[E _]]]]; [|discriminate E|discriminate E]. split; [done|]. apply app_inv_head in E. by rewrite <- E.
Defined.


(** ** What the code does not keep *)

(** The path is compared as it was given and not its normal form: "/dev/" is mounted beside "/dev". *)
Lemma mounted_twice : (fun '(r, s) => (r, fs_path <$> filesystem_table s.1)) <$>
  dfs_mount 0 (mkMemory None false true true) (8%nat, zero_fd) None (DEV ++ [SLASH]) DEVFS 0 0 (sample_dfs, 0%nat) = Some (0, [Some DEV; Some DEV]).
Proof. vm_compute. reflexivity. Qed.

(** Renaming from "/x" to "/y", neither of which is in a file system: they count as being in the same,
    whose functions are read through a null pointer. *)
Lemma rename_nowhere : dfs_file_rename 0 (mkMemory None false true true) [47; 120] [47; 121] (sample_dfs, 0%nat) = None.
Proof. vm_compute. reflexivity. Qed.

(** A name that is registered already, found before a free entry is: the error is that of a full table. *)
Lemma register_duplicate : (fun '(r, s) => (r, dfs_errno s.1)) <$> dfs_register 0 (sample_dfs, 0%nat) = Some (-1, - ENOSPC).
Proof. vm_compute. reflexivity. Qed.

(** "/dev" is open, by the path "/", and is looked for by the empty path. *)
Lemma open_root_not_found : fst <$> (fd ← fd_new (mkMemory (Some 9%nat) true true true); p ← fd_get fd;
    r ← dfs_file_open 0 (mkMemory None false true true) p DEV O_DIRECTORY; x ← fd_is_open 0 true DEV; mret (fd, r, x)) (sample_dfs, 0%nat) = Some (3, 0, -1).
Proof. vm_compute. reflexivity. Qed.
End samples.
