(* ===== verification/DfsPosix.v ===== *)
(** * DfsPosix: the POSIX calls, components/dfs/src/dfs_posix.c

    The calls of dfs_posix.c over Dfs, each as a whole.  They are refined to a set of open
    descriptors: what a call takes of a descriptor it gives back on every path. *)

From S2P Require Import Prelude DfsPath Dfs.

#[local] Open Scope Z_scope.

Definition SEEK_SET : Z := 0.
Definition SEEK_CUR : Z := 1.
Definition SEEK_END : Z := 2.

(** DIR; the buffer has 512 bytes. *)
Record DIR := mkDir { dir_fd : Z; dir_buf : list Z; dir_num : Z; dir_cur : Z }.

Section posix.
Context {W : Type} `{!file_systems W} (front : Z).
Abbreviation F := (M (dfs * W)).

(** The error of the calls. *)
Definition failed (error : Z) : F Z := set_errno error ;; mret (-1).

Definition open (m : memory) (file : list Z) (flags : Z) : F Z :=
  fd ← fd_new m;
  if fd <? 0 then failed (- ENOMEM)
  else
    d ← fd_get fd;
    result ← dfs_file_open front m d file flags;
    if result <? 0 then fd_put d ;; fd_put d ;; failed result
    else fd_put d ;; mret fd.

Definition close (fd : Z) : F Z :=
  d ← fd_get fd;
  match d with
  | None => failed (- EBADF)
  | Some _ =>
      result ← dfs_file_close d;
      fd_put d ;;
      if result <? 0 then failed result else fd_put d ;; mret 0
  end.

(** The bytes read are returned. *)
Definition read (fd len : Z) : F (Z * list Z) :=
  d ← fd_get fd;
  match d with
  | None => r ← failed (- EBADF); mret (r, [])
  | Some _ =>
      '(result, buf) ← dfs_file_read d len;
      if result <? 0 then fd_put d ;; r ← failed result; mret (r, buf)
      else fd_put d ;; mret (result, buf)
  end.

Definition write (fd : Z) (buf : list Z) (len : Z) : F Z :=
  d ← fd_get fd;
  match d with
  | None => failed (- EBADF)
  | Some _ =>
      result ← dfs_file_write d buf len;
      if result <? 0 then fd_put d ;; failed result
      else fd_put d ;; mret result
  end.

(** The size is unsigned. *)
Definition lseek (fd offset whence : Z) : F Z :=
  d ← fd_get fd;
  match d with
  | None => failed (- EBADF)
  | Some p =>
      f ← get_fd p;
      let target := if whence =? SEEK_SET then Some offset else if whence =? SEEK_CUR then Some (offset + fd_pos f)
                    else if whence =? SEEK_END then Some (i32 (offset + fd_size f)) else None in
      match target with
      | None => fd_put d ;; failed (- EINVAL)
      | Some offset =>
          if offset <? 0 then fd_put d ;; failed (- EINVAL)
          else
            result ← dfs_file_lseek d offset;
            if result <? 0 then fd_put d ;; failed result
            else fd_put d ;; mret offset
      end
  end.

(** A result of a call on paths. *)
Definition path_result (result : Z) : F Z := if result <? 0 then failed result else mret 0.
Definition rename (m : memory) (old_file new_file : list Z) : F Z := result ← dfs_file_rename front m old_file new_file; path_result result.
Definition unlink (m : memory) (pathname : list Z) : F Z := result ← dfs_file_unlink front m pathname; path_result result.
Definition rmdir (m : memory) (pathname : list Z) : F Z := result ← dfs_file_unlink front m pathname; path_result result.
Definition stat (m : memory) (file : list Z) (buf : Dfs.stat) : F (Z * Dfs.stat) :=
  '(result, buf) ← dfs_file_stat front m file buf;
  if result <? 0 then r ← failed result; mret (r, buf) else mret (result, buf).
Definition statfs (path : list Z) (buf : Dfs.statfs) : F (Z * Dfs.statfs) :=
  '(result, buf) ← dfs_statfs path buf;
  if result <? 0 then r ← failed result; mret (r, buf) else mret (result, buf).
Definition access (m : memory) (path : list Z) (sb : Dfs.stat) : F Z :=
  '(r, _) ← stat m path sb; if r <? 0 then mret (-1) else mret 0.

Definition fstat (fildes : Z) (buf : Dfs.stat) : F (Z * Dfs.stat) :=
  d ← fd_get fildes;
  match d with
  | None => r ← failed (- EBADF); mret (r, buf)
  | Some p =>
      f ← get_fd p;
      let mode := Z.lor S_IFREG S_IRWUGO in
      let mode := if fd_type f =? FT_DIRECTORY then Z.lor (Z.land mode (Z.lnot S_IFREG)) (Z.lor S_IFDIR S_IXUGO) else mode in
      fd_put d ;;
      mret (0, mkStat 0 mode (fd_size f) 0)
  end.

Definition fsync (fildes : Z) : F Z :=
  d ← fd_get fildes;
  match d with
  | None => failed (- EBADF)
  | Some _ => ret ← dfs_file_flush d; fd_put d ;; mret ret
  end.

(** The argument is a number. *)
Definition fcntl (fildes cmd arg : Z) : F Z :=
  d ← fd_get fildes;
  ret ← match d with
        | Some _ => ret ← dfs_file_ioctl d cmd arg; fd_put d ;; mret ret
        | None => mret (- EBADF)
        end;
  if ret <? 0 then failed ret else mret ret.
Definition ioctl (fildes cmd data : Z) : F Z := fcntl fildes cmd data.

Definition ftruncate (fd length : Z) : F Z :=
  d ← fd_get fd;
  match d with
  | None => failed (- EBADF)
  | Some _ =>
      if length <? 0 then fd_put d ;; failed (- EINVAL)
      else
        result ← dfs_file_ftruncate d length;
        if result <? 0 then fd_put d ;; failed result
        else fd_put d ;; mret 0
  end.

Definition mkdir (m : memory) (path : list Z) : F Z :=
  fd ← fd_new m;
  if fd =? -1 then failed (- ENOMEM)
  else
    d ← fd_get fd;
    result ← dfs_file_open front m d path (Z.lor O_DIRECTORY O_CREAT);
    if result <? 0 then fd_put d ;; fd_put d ;; failed result
    else _ ← dfs_file_close d; fd_put d ;; fd_put d ;; mret 0.

(** ** Directories

    A DIR is passed to the calls and returned by them; [dir_memory] is whether there is memory for one. *)
Definition opendir (m : memory) (dir_memory : bool) (name : list Z) : F (option DIR) :=
  fd ← fd_new m;
  if fd =? -1 then set_errno (- ENOMEM) ;; mret None
  else
    d ← fd_get fd;
    result ← dfs_file_open front m d name (Z.lor O_RDONLY O_DIRECTORY);
    if 0 <=? result then
      if dir_memory then fd_put d ;; mret (Some (mkDir fd (replicate 512 0) 0 0))
      else _ ← dfs_file_close d; fd_put d ;; fd_put d ;; mret None
    else fd_put d ;; fd_put d ;; set_errno result ;; mret None.

(** The offset of the entry in the buffer; an entry has its length in its third and fourth byte. *)
Definition readdir (d : DIR) : F (option Z * DIR) :=
  fd ← fd_get (dir_fd d);
  match fd with
  | None => set_errno (- EBADF) ;; mret (None, d)
  | Some _ =>
      d ← (if negb (dir_num d =? 0) then
             rt_assert (0 <=? dir_cur d) ;;
             lo ← deref (fun _ => dir_buf d !! Z.to_nat (dir_cur d + 2));
             hi ← deref (fun _ => dir_buf d !! Z.to_nat (dir_cur d + 3));
             mret (mkDir (dir_fd d) (dir_buf d) (dir_num d) (dir_cur d + (lo + 256 * hi)))
           else mret d);
      if (dir_num d =? 0) || (dir_num d <=? dir_cur d) then
        '(result, bytes) ← dfs_file_getdents fd (512 - 1);
        let d := mkDir (dir_fd d) (bytes ++ drop (length bytes) (dir_buf d)) (dir_num d) (dir_cur d) in
        if result <=? 0 then fd_put fd ;; set_errno result ;; mret (None, d)
        else
          let d := mkDir (dir_fd d) (dir_buf d) result 0 in
          fd_put fd ;; mret (Some (dir_cur d), d)
      else fd_put fd ;; mret (Some (dir_cur d), d)
  end.

Definition telldir (d : DIR) : F Z :=
  fd ← fd_get (dir_fd d);
  match fd with
  | None => set_errno (- EBADF) ;; mret 0
  | Some p => f ← get_fd p; fd_put fd ;; mret (fd_pos f - dir_num d + dir_cur d)
  end.

Definition seekdir (d : DIR) (offset : Z) : F DIR :=
  fd ← fd_get (dir_fd d);
  match fd with
  | None => set_errno (- EBADF) ;; mret d
  | Some _ =>
      result ← dfs_file_lseek fd offset;
      fd_put fd ;;
      mret (if 0 <=? result then mkDir (dir_fd d) (dir_buf d) 0 0 else d)
  end.
Definition rewinddir (d : DIR) : F DIR :=
  fd ← fd_get (dir_fd d);
  match fd with
  | None => set_errno (- EBADF) ;; mret d
  | Some _ =>
      result ← dfs_file_lseek fd 0;
      fd_put fd ;;
      mret (if 0 <=? result then mkDir (dir_fd d) (dir_buf d) 0 0 else d)
  end.

Definition closedir (d : DIR) : F Z :=
  fd ← fd_get (dir_fd d);
  match fd with
  | None => failed (- EBADF)
  | Some _ =>
      result ← dfs_file_close fd;
      fd_put fd ;;
      fd_put fd ;;
      if result <? 0 then failed result else mret 0
  end.

(** strncpy to the working directory: what does not fit is cut, then without a 0. *)
Definition chdir (m : memory) (dir_memory : bool) (path : option (list Z)) : F Z :=
  match path with
  | None => mret 0
  | Some path =>
      if Z.of_nat DFS_PATH_MAX <? Z.of_nat (length path) then failed (- ENOTDIR)
      else
        fullpath ← full_path front (m_path m) path;
        match fullpath with
        | None => failed (- ENOTDIR)
        | Some fullpath =>
            d ← opendir m dir_memory fullpath;
            match d with
            | None => mret (-1)
            | Some d =>
                _ ← closedir d;
                upd (set_directory (take DFS_PATH_MAX (fullpath ++ replicate DFS_PATH_MAX 0))) ;;
                mret 0
            end
        end
  end.

(** strncpy from the working directory; the bytes written are returned. *)
Definition getcwd (size : nat) : F (list Z) :=
  b ← own working_directory;
  if decide (0 ∈ b) then mret (take size (c_string b ++ replicate size 0))
  else rt_assert (size <=? length b)%nat ;; mret (take size b).
End posix.

(** ** What file systems keep

    Their functions return; they leave the number of uses of a file and its mark alone, and the
    functions of an open file are set. *)
Section laws.
Context {W : Type}.
Definition kept (d d' : dfs_fd) : Prop :=
  fd_ref_count d' = fd_ref_count d /\ fd_magic d' = fd_magic d /\ (is_Some (fd_fops d) -> is_Some (fd_fops d')).
Definition lawful_fd {A} (f : @fd_fn W A) : Prop := forall d w, exists a d' w', f d w = Some ((a, d'), w') /\ kept d d'.
Definition lawful_fs {A} (f : @fs_fn W A) : Prop := forall e w, is_Some (f e w).
Record lawful_file (o : dfs_file_ops W) : Prop := {
  lf_open f : fop_open o = Some f -> lawful_fd f;
  lf_close f : fop_close o = Some f -> lawful_fd f;
  lf_ioctl f : fop_ioctl o = Some f -> forall c a, lawful_fd (f c a);
  lf_read f : fop_read o = Some f -> forall n, lawful_fd (f n);
  lf_write f : fop_write o = Some f -> forall b n, lawful_fd (f b n);
  lf_flush f : fop_flush o = Some f -> lawful_fd f;
  lf_lseek f : fop_lseek o = Some f -> forall n, lawful_fd (f n);
  lf_getdents f : fop_getdents o = Some f -> forall n, lawful_fd (f n)
}.
Record lawful_type (o : dfs_filesystem_ops W) : Prop := {
  lt_statfs f : op_statfs o = Some f -> forall b, lawful_fs (f b);
  lt_unlink f : op_unlink o = Some f -> forall p, lawful_fs (f p);
  lt_stat f : op_stat o = Some f -> forall p b, lawful_fs (f p b);
  lt_rename f : op_rename o = Some f -> forall p q, lawful_fs (f p q)
}.
Class lawful_systems `{!file_systems W} := { lawful_files o : lawful_file (file_ops o); lawful_types o : lawful_type (fs_type o) }.
End laws.
Arguments lawful_systems W {_}.

Lemma kept_refl d : kept d d.
Proof. by split_and!. Qed.
Lemma kept_trans d1 d2 d3 : kept d1 d2 -> kept d2 d3 -> kept d1 d3.
Proof. intros (H1 & H2 & H3) (H4 & H5 & H6). split_and!; [congruence|congruence|auto]. Qed.
Lemma kept_flags f d d' : kept d d' -> kept d (set_fd_flags f d').
Proof. done. Qed.
Lemma kept_path q d d' : kept d d' -> kept d (set_fd_path q d').
Proof. done. Qed.
Lemma kept_pos q d d' : kept d d' -> kept d (set_fd_pos q d').
Proof. done. Qed.
Lemma kept_size q d d' : kept d d' -> kept d (set_fd_size q d').
Proof. done. Qed.
Lemma kept_type t d d' : kept d d' -> kept d (set_fd_type t d').
Proof. done. Qed.
#[local] Hint Resolve kept_refl kept_flags kept_path kept_pos kept_size kept_type : core.

Section refinement.
Context {W : Type} `{!file_systems W, !lawful_systems W} (front : Z) (front_ok : front ≠ SLASH).
Abbreviation F := (M (dfs * W)).
Abbreviation at_fd p d s := (set_files <[p := d]> s).

(** A call on the file [p] changes that file only, and keeps what is to be kept. *)
Definition on_file {A} (p : nat) (c : F A) : Prop := forall s w d, is_Some (fd_fops d) ->
  wp c (fun _ s' => exists d' w', s' = (at_fd p d' s, w') /\ kept d d') (at_fd p d s, w).

Lemma wp_drive_lawful {A} p (f : fd_fn A) (Q : A -> dfs * W -> Prop) d s w : lawful_fd f ->
  (forall a d' w', kept d d' -> Q a (at_fd p d' s, w')) -> wp (drive p f) Q (at_fd p d s, w).
Proof.
  intros Hf HQ. apply wp_drive_fd. destruct (Hf d w) as (a & d' & w' & E & Hk). unfold wp. rewrite E. by apply HQ.
Qed.
Lemma wp_fops p (Q : dfs_file_ops W -> dfs * W -> Prop) d s w : is_Some (fd_fops d) ->
  (forall o, lawful_file o -> Q o (at_fd p d s, w)) -> wp (fops_of p) Q (at_fd p d s, w).
Proof. intros [o Eo] HQ. apply (wp_fops_of p o); [done|]. apply HQ, lawful_files. Qed.
Lemma wp_at_fd p (Q : dfs_fd -> dfs * W -> Prop) d s w : Q d (at_fd p d s, w) -> wp (get_fd p) Q (at_fd p d s, w).
Proof. intros HQ. apply (wp_get_fd p d); [cbn; by rewrite lookup_insert_eq|done]. Qed.

(** The steps of such a call. *)
Ltac file_step :=
  first [ apply wp_fops; [done|intros ? ?]
        | eapply wp_drive_lawful; [eauto using lf_open, lf_close, lf_ioctl, lf_read, lf_write, lf_flush, lf_lseek, lf_getdents|intros]
        | apply wp_upd_again | apply wp_at_fd | progress wp_step
        | match goal with |- wp (match ?x with _ => _ end) _ _ => destruct x eqn:? end ].
Ltac file_done := eexists _, _; split; [reflexivity|]; eauto.
Ltac file_call := repeat file_step; try file_done.

Lemma read_file p n : on_file p (dfs_file_read (Some p) n).
Proof. intros s w d Hd. unfold dfs_file_read. file_call. Qed.
Lemma write_file p b n : on_file p (dfs_file_write (Some p) b n).
Proof. intros s w d Hd. unfold dfs_file_write. file_call. Qed.
Lemma flush_file p : on_file p (dfs_file_flush (Some p)).
Proof. intros s w d Hd. unfold dfs_file_flush. file_call. Qed.
Lemma lseek_file p n : on_file p (dfs_file_lseek (Some p) n).
Proof. intros s w d Hd. unfold dfs_file_lseek. file_call. Qed.
Lemma getdents_file p n : on_file p (dfs_file_getdents (Some p) n).
Proof. intros s w d Hd. unfold dfs_file_getdents. file_call. Qed.
Lemma ioctl_file p c a : on_file p (dfs_file_ioctl (Some p) c a).
Proof. intros s w d Hd. unfold dfs_file_ioctl. file_call. Qed.
Lemma ftruncate_file p n : on_file p (dfs_file_ftruncate (Some p) n).
Proof. intros s w d Hd. unfold dfs_file_ftruncate. file_call. Qed.
Lemma close_file p : on_file p (dfs_file_close (Some p)).
Proof. intros s w d Hd. unfold dfs_file_close. file_call. Qed.

(** ** Opening *)

Lemma c_string_no_zero b : ~ 0 ∈ c_string b.
Proof. induction b as [|c b IH]; cbn; [apply not_elem_of_nil|]. destruct (Z.eqb_spec c 0); [apply not_elem_of_nil|]. rewrite elem_of_cons. intros [E|E]; [congruence|done]. Qed.
Lemma path_of_no_zero b path : ~ 0 ∈ path -> ~ 0 ∈ path_of (c_string b) None path.
Proof. intros Hp. unfold path_of. case_decide; [done|]. cbn [default]. rewrite !elem_of_app, list_elem_of_singleton. pose proof (c_string_no_zero b). intros [H1|[H1|H1]]; done. Qed.
Lemma removelast_elem {A} (x : A) l : x ∈ removelast l -> x ∈ l.
Proof. destruct l as [|y l _] using rev_ind; [done|]. rewrite removelast_snoc, elem_of_app. by left. Qed.
Lemma normal_no_zero s p : ~ 0 ∈ s -> normal s = Some p -> ~ 0 ∈ p.
Proof.
  intros H0 E. unfold normal in E. destruct (walk [] (names s)) as [acc|] eqn:Ew; [|done]. injection E as <-. apply normal_names in Ew as [Ha _]; [|done].
  unfold render. case_decide; [by apply not_elem_of_cons; split; [|apply not_elem_of_nil]|]. intros Hz%removelast_elem. unfold text in Hz.
  apply list_elem_of_In, in_concat in Hz as (x & Hx & Hz). apply list_elem_of_In, list_elem_of_fmap in Hx as (n & -> & Hn).
  rewrite Forall_forall in Ha. destruct (Ha n Hn) as (Hpl & _). apply list_elem_of_In, elem_of_app in Hz as [Hz|Hz]; [|apply list_elem_of_singleton in Hz; done].
  unfold plain in Hpl. rewrite Forall_forall in Hpl. by destruct (Hpl 0 Hz).
Qed.

(** What becomes of a path, whatever memory there is. *)
Definition directory_ok (s : dfs) : Prop := 0 ∈ working_directory s.
Definition normal_of (s : dfs) (path : list Z) : option (list Z) := normal (path_of (c_string (working_directory s)) None path).
Lemma wp_full_path_any mem path (Q : option (list Z) -> dfs * W -> Prop) s w : directory_ok s -> ~ 0 ∈ path ->
  Q None (s, w) -> (forall full, normal_of s path = Some full -> ~ 0 ∈ full -> mem = true -> Q (Some full) (s, w)) ->
  wp (full_path front mem path) Q (s, w).
Proof.
  intros Hd Hp HN HQ. destruct mem.
  - apply (wp_full_path front front_ok (c_string (working_directory s))); [by split|by apply path_of_no_zero|].
    destruct (normal _) as [full|] eqn:E; [|done]. apply HQ; [done| |done]. eapply normal_no_zero; [|apply E]. by apply path_of_no_zero.
  - unfold full_path. wp_step. assert (E : forall d, dfs_normalize_path front false d None path = Some None) by done.
    destruct (default 0 (head path) =? SLASH); [wp_step|]; [by eapply wp_deref; [apply E|]|].
    unfold directory_string. wp_step. rewrite wp_own. wp_step. apply wp_assert; [by apply bool_decide_eq_true|]. wp_step. by eapply wp_deref; [apply E|].
Qed.

(** The file system that is found has functions and a path the other path begins with. *)
Lemma wp_lookup path (Q : option nat -> dfs * W -> Prop) s w :
  ((forall j e m, filesystem_table s !! j = Some e -> mounted e m -> ~ contains m path) -> Q None (s, w)) ->
  (forall i e m, filesystem_table s !! i = Some e -> mounted e m -> contains m path -> Q (Some i) (s, w)) -> wp (dfs_filesystem_lookup path) Q (s, w).
Proof.
  intros HN HQ. unfold dfs_filesystem_lookup. wp_step. rewrite wp_own. cbn [fst]. wp_step. destruct (lookup_loop 0 _ path None 0) as [i|] eqn:E.
  - apply lookup_best in E as (e & m & Ei & Hm & Hc & _). by eapply HQ.
  - apply HN. by apply lookup_none.
Qed.
Lemma wp_below_any i e m path (Q : option (list Z) -> dfs * W -> Prop) s : filesystem_table s.1 !! i = Some e -> fs_path e = Some m -> contains m path ->
  (forall sub, (sub = None <-> length m = length path) -> Q sub s) -> wp (below i path) Q s.
Proof.
  intros Ei Em (r & -> & _) HQ. unfold below, path_of_fs, get_fs. wp_step. wp_step. apply (wp_deref _ e); [done|]. apply (wp_deref _ m); [done|]. wp_step.
  rewrite length_app in HQ. unfold dfs_subdir. rewrite length_app. destruct (_ =? _) eqn:E; [apply Z.eqb_eq in E; eapply wp_deref; [done|]; wp_step; apply HQ; split; [lia|done]|]. apply Z.eqb_neq in E.
  destruct (lookup_lt_is_Some_2 ((m ++ r) ++ [0]) (Z.to_nat (Z.of_nat (length m)))) as [c Ec]; [rewrite !length_app; cbn; lia|]. rewrite Ec.
  eapply wp_deref; [done|]. wp_step. apply HQ. split; [done|lia].
Qed.
Lemma wp_ops i e m (Q : dfs_filesystem_ops W -> dfs * W -> Prop) s w : filesystem_table s !! i = Some e -> mounted e m ->
  (forall o, lawful_type o -> Q o (s, w)) -> wp (ops_of i) Q (s, w).
Proof. intros Ei [_ [o Eo]] HQ. apply (wp_ops_of i e o); [done|done|]. apply HQ, lawful_types. Qed.

(** A file that is opened has functions then. *)
Lemma open_file p mem path flags s w d : directory_ok s -> ~ 0 ∈ path ->
  wp (dfs_file_open front mem (Some p) path flags) (fun r s' => exists d' w', s' = (at_fd p d' s, w') /\ kept d d' /\ (0 <= r -> is_Some (fd_fops d'))) (at_fd p d s, w).
Proof.
  intros Hd Hp. assert (Hend : forall (r : Z) (w' : W), r < 0 -> exists d' (w'' : W), (at_fd p d s, w') = (at_fd p d' s, w'') /\ kept d d' /\ (0 <= r -> is_Some (fd_fops d'))).
  { intros r w' Hr. exists d, w'. split; [done|]. split; [apply kept_refl|lia]. }
  unfold dfs_file_open. wp_step. apply wp_full_path_any; [done|done|wp_step; by apply Hend|]. intros full _ _ _.
  wp_step. apply wp_lookup; [intros _; wp_step; by apply Hend|]. intros i e m Ei Hm Hc.
  wp_step. apply (wp_ops i e m); [done|done|]. intros o _. wp_step. apply wp_upd_again. wp_step.
  match goal with |- wp _ _ (at_fd p ?x s, _) => set (d1 := x) end. assert (H1 : kept d d1) by (split_and!; [done|done|by eexists]).
  assert (Hrest : forall q (w : W), wp (fops ← fops_of p; match fop_open fops with
      | Some f => result ← drive p f; if result <? 0 then upd_fd p (set_fd_path None) ;; mret result
          else upd_fd p (fun d => set_fd_flags (Z.lor (fd_flags d) DFS_F_OPEN) d) ;;
               when (negb (Z.land flags O_DIRECTORY =? 0)) (upd_fd p (set_fd_type FT_DIRECTORY) ;; upd_fd p (fun d => set_fd_flags (Z.lor (fd_flags d) DFS_F_DIRECTORY) d)) ;;
               mret 0
      | None => upd_fd p (set_fd_path None) ;; mret (- ENOSYS) end)
    (fun r s' => exists d' w', s' = (at_fd p d' s, w') /\ kept d d' /\ (0 <= r -> is_Some (fd_fops d'))) (at_fd p (set_fd_path q d1) s, w)).
  { intros q w'. wp_step. apply wp_fops; [by eexists|]. intros fops Hl. destruct (fop_open fops) as [f|] eqn:Ef.
    - wp_step. apply wp_drive_lawful; [by eapply lf_open|]. intros r d' w2 Hk. assert (Hk' : kept d d') by eauto using kept_trans.
      assert (Hf : is_Some (fd_fops d')) by (apply Hk; by eexists). destruct (r <? 0) eqn:Er.
      + wp_step. apply wp_upd_again. wp_step. eexists _, _. split; [done|]. split; [by apply kept_path|done].
      + wp_step. apply wp_upd_again. wp_step. apply wp_when; intros _; [wp_step; apply wp_upd_again, wp_upd_again|]; wp_step; (eexists _, _; split; [done|]; split; [eauto|done]).
    - wp_step. apply wp_upd_again. wp_step. eexists _, _. split; [done|]. split; [eauto|done]. }
  destruct (Z.land (op_flags o) DFS_FS_FLAG_FULLPATH =? 0); [wp_step; destruct Hm as [Em _]; apply (wp_below_any i e m); [done..|]; intros sub _|]; apply wp_upd_again; apply Hrest.
Qed.

(** ** The set of open descriptors

    Between two calls every open descriptor has one use, its opening, and its file has functions. *)
Definition open_except (n : option Z) (s : dfs) (m : gmap Z (nat * Z)) : Prop :=
  fd_inv s m /\ forall k p c, m !! k = Some (p, c) -> c = 1 /\ (Some k ≠ n -> exists d, files s !! p = Some d /\ is_Some (fd_fops d)).
Definition posix_ok (s : dfs) (O : gset Z) : Prop := directory_ok s /\ exists m, open_except None s m /\ dom m = O.
(** Within a call the file [p] of [n] is taken once more; [s] is the state but for this file. *)
Definition taken (s : dfs) (n : Z) (p : nat) (O : gset Z) : Prop :=
  directory_ok s /\ exists m, open_except (Some n) s m /\ m !! n = Some (p, 1) /\ dom m = O.
Definition in_use (d : dfs_fd) : Prop := fd_ref_count d = 2 /\ fd_magic d = DFS_FD_MAGIC.

Lemma in_use_kept d d' : in_use d -> kept d d' -> in_use d'.
Proof. intros [H1 H2] (H3 & H4 & _). split; congruence. Qed.

Lemma posix_ok_errno e s O : posix_ok s O -> posix_ok (set_dfs_errno e s) O.
Proof. intros [Hd (m & [[H1 H2 H3 H4 H5] Ho] & Hm)]. split; [done|]. exists m. split; [|done]. by split. Qed.
Lemma posix_ok_table f s O : posix_ok s O -> posix_ok (set_mounted f s) O.
Proof. intros [Hd (m & [[H1 H2 H3 H4 H5] Ho] & Hm)]. split; [done|]. exists m. split; [|done]. by split. Qed.
Lemma posix_ok_directory b s O : 0 ∈ b -> posix_ok s O -> posix_ok (set_directory b s) O.
Proof. intros Hb [Hd (m & [[H1 H2 H3 H4 H5] Ho] & Hm)]. split; [done|]. exists m. split; [|done]. by split. Qed.

Lemma wp_failed e O (Q : Z -> dfs * W -> Prop) s w : posix_ok s O -> (forall s', posix_ok s' O -> Q (-1) (s', w)) -> wp (failed e) Q (s, w).
Proof. intros Hs HQ. unfold failed, set_errno. wp_step. rewrite wp_upd. wp_step. by apply HQ, posix_ok_errno. Qed.

Lemma wp_get_taken n p O (Q : option nat -> dfs * W -> Prop) s w : taken s n p O ->
  (forall d0, files s !! p = Some d0 -> in_use (set_fd_count 2 d0) -> Q (Some p) (at_fd p (set_fd_count 2 d0) s, w)) -> wp (fd_get n) Q (s, w).
Proof.
  intros [Hd (m & [Hi Ho] & En & Hm)] HQ. apply (wp_fd_get_cases w s m); [done|congruence|]. intros q d Eq Ed Hmg. rewrite En in Eq. injection Eq as <- Ec.
  rewrite <- Ec. apply HQ; [done|]. by split.
Qed.
Lemma wp_get n O (Q : option nat -> dfs * W -> Prop) s w : posix_ok s O -> (n ∉ O -> Q None (s, w)) ->
  (forall p d, n ∈ O -> taken s n p O -> in_use d -> is_Some (fd_fops d) -> Q (Some p) (at_fd p d s, w)) -> wp (fd_get n) Q (s, w).
Proof.
  intros [Hd (m & [Hi Ho] & <-)] HN HQ. destruct (m !! n) as [[p c]|] eqn:En.
  - destruct (Ho n p c En) as [-> Hf]. assert (Hu : taken s n p (dom m)).
    { split; [done|]. exists m. split; [|done]. split; [done|]. intros k q c Ek. destruct (Ho k q c Ek) as [-> H]. split; [done|]. intros _. by apply H. }
    apply (wp_get_taken n p (dom m)); [done|]. intros d0 Ed Hin. apply HQ; [by eapply elem_of_dom_2|done|done|].
    destruct Hf as (d & Ed' & Hd'); [done|]. rewrite Ed in Ed'. by injection Ed' as ->.
  - apply (wp_fd_get_cases w s m); [done|intros _; apply HN; by apply not_elem_of_dom|intros; congruence].
Qed.

Lemma wp_put_one p d (Q : unit -> dfs * W -> Prop) s w : in_use d -> Q tt (at_fd p (set_fd_count 1 d) s, w) -> wp (fd_put (Some p)) Q (at_fd p d s, w).
Proof.
  intros [Hc _] HQ. apply (wp_fd_put_use p d); [cbn; by rewrite lookup_insert_eq|lia|]. cbn [fst snd]. rewrite again. by rewrite Hc.
Qed.
Lemma taken_ok s n p O d : taken s n p O -> fd_ref_count d = 1 -> fd_magic d = DFS_FD_MAGIC -> is_Some (fd_fops d) -> posix_ok (at_fd p d s) O.
Proof.
  intros [Hd (m & [Hi Ho] & En & Hm)] Hc Hmg Hf. split; [done|]. exists m. split; [|done]. split.
  - rewrite <- (insert_id m n (p, 1)) by done. by apply (fd_use_inv s m n p 1).
  - intros k q c Ek. destruct (Ho k q c Ek) as [-> H]. split; [done|]. intros _. cbn [files set_files]. destruct (decide (q = p)) as [->|Hq].
    + exists d. by rewrite lookup_insert_eq.
    + rewrite lookup_insert_ne by done. apply H. intros [= ->]. congruence.
Qed.
(** A use given back, in front of what the call returns. *)
Lemma wp_put_back n p d O (Q : unit -> dfs * W -> Prop) s w : taken s n p O -> in_use d -> is_Some (fd_fops d) ->
  (forall s', posix_ok s' O -> Q tt (s', w)) -> wp (fd_put (Some p)) Q (at_fd p d s, w).
Proof. intros Hu Hd Hf HQ. apply wp_put_one; [done|]. apply HQ. apply (taken_ok s n p O); [done|done|apply Hd|done]. Qed.
Lemma wp_put_close n p d O (Q : unit -> dfs * W -> Prop) s w : taken s n p O -> fd_ref_count d = 1 -> fd_magic d = DFS_FD_MAGIC ->
  (forall s', posix_ok s' (O ∖ {[n]}) -> Q tt (s', w)) -> wp (fd_put (Some p)) Q (at_fd p d s, w).
Proof.
  intros [Hd (m & [Hi Ho] & En & Hm)] Hc Hmg HQ. pose proof (fi_low _ _ Hi _ _ En) as Hlow.
  assert (Et : fds s !! Z.to_nat (n - DFS_FD_OFFSET) = Some (Some p)) by (apply (fi_table _ _ Hi); exists 1; rewrite <- En; f_equal; lia).
  assert (Hi' : fd_inv (at_fd p d s) m) by (rewrite <- (insert_id m n (p, 1)) by done; by apply (fd_use_inv s m n p 1)).
  eapply (wp_fd_put_last w p d); [done|cbn; by rewrite lookup_insert_eq|done|done|]. apply HQ. split; [done|].
  assert (Ek : Z.of_nat (Z.to_nat (n - DFS_FD_OFFSET)) + DFS_FD_OFFSET = n) by lia.
  exists (delete n m). split; [split|by rewrite dom_delete_L, Hm].
  - rewrite <- Ek at 2. eapply fd_close_inv; [done|]. by rewrite Ek.
  - intros k q c [Hk E]%lookup_delete_Some. destruct (Ho k q c E) as [-> H]. split; [done|]. intros _. cbn [files set_files set_fds].
    assert (q ≠ p) by (intros ->; by apply Hk; eapply (fi_inj _ _ Hi)). rewrite lookup_delete_ne, lookup_insert_ne by done. apply H. congruence.
Qed.
Lemma wp_put_twice n p d O (Q : unit -> dfs * W -> Prop) s w : taken s n p O -> in_use d ->
  (forall s', posix_ok s' (O ∖ {[n]}) -> Q tt (s', w)) -> wp (fd_put (Some p) ;; fd_put (Some p)) Q (at_fd p d s, w).
Proof. intros Hu Hd HQ. wp_step. apply wp_put_one; [done|]. apply (wp_put_close n p _ O); [done|done|apply Hd|done]. Qed.

(** The number a new descriptor gets. *)
Definition lowest (O : gset Z) (n : Z) : Prop :=
  DFS_FD_OFFSET <= n < DFS_FD_OFFSET + Z.of_nat DFS_FD_MAX /\ (n ∉ O) /\ (forall k, DFS_FD_OFFSET <= k < n -> k ∈ O).
Definition all_taken (O : gset Z) : Prop := forall k, DFS_FD_OFFSET <= k < DFS_FD_OFFSET + Z.of_nat DFS_FD_MAX -> k ∈ O.
Definition fresh_memory (mem : memory) (s : dfs) : Prop := forall p, m_calloc mem = Some p -> files s !! p = None.
Definition has_memory (mem : memory) : Prop := m_realloc mem = true /\ is_Some (m_calloc mem).
Lemma wp_new mem O (Q : Z -> dfs * W -> Prop) s w : posix_ok s O -> fresh_memory mem s ->
  (forall s', posix_ok s' O -> (has_memory mem -> all_taken O) -> Q (-1) (s', w)) ->
  (forall n p s', lowest O n -> taken s' n p ({[n]} ∪ O) -> working_directory s' = working_directory s -> Q n (s', w)) -> wp (fd_new mem) Q (s, w).
Proof.
  intros [Hd (m & [Hi Ho] & <-)] Hfr HN HQ. eapply wp_mono; [|by apply (wp_fd_new w mem s m)].
  intros r [s' w'] (Ew & (Hwd & _ & Hf) & m' & Hds & Hi'). cbn [fst snd] in *. subst w'.
  assert (Hkeep : forall k p c, m !! k = Some (p, c) -> files s' !! p = files s !! p).
  { intros k p c Ek. apply Hf. intros E. destruct (fi_file _ _ Hi _ _ _ Ek) as (_ & d & Ed & _). by rewrite (Hfr p (eq_sym E)) in Ed. }
  inversion Hds; subst.
  - apply (HQ r p); [|split; [unfold directory_ok; by rewrite Hwd|]|done].
    + split; [done|]. split; [by apply not_elem_of_dom|]. intros k Hk. by apply elem_of_dom; auto.
    + exists (<[r := (p, 1)]> m). split; [|split; [by rewrite lookup_insert_eq|by rewrite dom_insert_L]]. split; [done|].
      intros k q c [[<- [= <- <-]]|[Hk E]]%lookup_insert_Some; [done|]. destruct (Ho k q c E) as [-> H]. split; [done|]. intros _. rewrite (Hkeep k q 1 E). by apply H.
  - apply HN.
    + split; [unfold directory_ok; by rewrite Hwd|]. exists m'. split; [|done]. split; [done|]. intros k q c E. destruct (Ho k q c E) as [-> H]. split; [done|].
      intros Hk. rewrite (Hkeep k q 1 E). by apply H.
    + intros [Hr Hc] k Hk. apply elem_of_dom. match goal with H : _ = true -> _ |- _ => apply H end; [|done]. rewrite Hr. by apply bool_decide_eq_true.
Qed.

(** ** Calls on descriptors *)

Lemma no_use (r : Z) (n : Z) (O : gset Z) : n ∈ O -> n ∉ O -> r = -1.
Proof. done. Qed.
#[local] Hint Resolve in_use_kept : core.

(** A call on a descriptor that is not open fails; otherwise one on its file is done, and the use
    is given back. *)
Ltac bad_fd := let Hn := fresh in intros Hn; repeat first [progress wp_step | eapply wp_failed; [eassumption|intros ? ?]]; by split.
Ltac on_fd_now lemma :=
  wp_step; eapply wp_mono; [|by apply lemma]; let d' := fresh "d'" in let w' := fresh "w'" in let Hk := fresh "Hk" in
    intros ? ? (d' & w' & -> & Hk); match goal with Hd : in_use _ |- _ => pose proof (in_use_kept _ _ Hd Hk) end; assert (is_Some (fd_fops d')) by (by apply Hk).
Ltac on_fd lemma :=
  let p := fresh "p" in let d := fresh "d" in let Hin := fresh "Hin" in let Hu := fresh "Hu" in let Hd := fresh "Hd" in let Hf := fresh "Hf" in
  intros p d Hin Hu Hd Hf; on_fd_now lemma.
Ltac give_back :=
  repeat first [ progress wp_step | eapply wp_failed; [eassumption|intros ? ?] | apply wp_at_fd
    | eapply wp_put_back; [eassumption|eassumption|eassumption|intros ? ?]
    | match goal with |- wp (match ?x with _ => _ end) _ _ => destruct x end ];
  try (split; [eassumption|by eauto using no_use]).

Definition one_use (n : Z) (O : gset Z) (r : Z) (s : dfs * W) : Prop := posix_ok s.1 O /\ (n ∉ O -> r = -1).
Section calls.
Context (O : gset Z) (s : dfs) (w : W) (Hs : posix_ok s O).

Lemma wp_read_call n len : wp (read n len) (fun x => one_use n O x.1) (s, w).
Proof. unfold read. wp_step. eapply wp_get; [done|bad_fd|on_fd read_file]. give_back. Qed.
Lemma wp_write_call n buf len : wp (write n buf len) (one_use n O) (s, w).
Proof. unfold write. wp_step. eapply wp_get; [done|bad_fd|on_fd write_file]. give_back. Qed.
Lemma wp_fsync n : wp (fsync n) (one_use n O) (s, w).
Proof. unfold fsync. wp_step. eapply wp_get; [done|bad_fd|on_fd flush_file]. give_back. Qed.
Lemma wp_fstat n buf : wp (fstat n buf) (fun x => one_use n O x.1) (s, w).
Proof. unfold fstat. wp_step. eapply wp_get; [done|bad_fd|]. intros p d Hin Hu Hd Hf. give_back. Qed.
Lemma wp_fcntl n cmd arg : wp (fcntl n cmd arg) (one_use n O) (s, w).
Proof.
  unfold fcntl. wp_step. eapply wp_get; [done|bad_fd|]. intros p d Hin Hu Hd Hf. wp_step. wp_step. eapply wp_mono; [|by apply ioctl_file].
  intros ret ? (d' & w' & -> & Hk). pose proof (in_use_kept _ _ Hd Hk). assert (is_Some (fd_fops d')) by (by apply Hk). give_back.
Qed.
Lemma wp_ftruncate n len : wp (ftruncate n len) (one_use n O) (s, w).
Proof.
  unfold ftruncate. wp_step. eapply wp_get; [done|bad_fd|]. intros p d Hin Hu Hd Hf. wp_step; [give_back|]. on_fd_now ftruncate_file. give_back.
Qed.
Lemma wp_lseek n offset whence : wp (lseek n offset whence) (one_use n O) (s, w).
Proof.
  unfold lseek. wp_step. eapply wp_get; [done|bad_fd|]. intros p d Hin Hu Hd Hf. wp_step. apply wp_at_fd. destruct (if whence =? SEEK_SET then _ else _) as [target|]; [|give_back].
  wp_step; [give_back|]. on_fd_now lseek_file. give_back.
Qed.

(** ** Calls on directories *)

Lemma wp_telldir d : wp (telldir d) (fun r s' => posix_ok s'.1 O /\ (dir_fd d ∉ O -> r = 0)) (s, w).
Proof.
  unfold telldir. wp_step. eapply wp_get; [done| |].
  - intros Hn. unfold set_errno. wp_step. rewrite wp_upd. wp_step. split; [by apply posix_ok_errno|done].
  - intros p f Hin Hu Hd Hf. give_back.
Qed.
Lemma wp_seekdir d offset : wp (seekdir d offset) (fun d' s' => posix_ok s'.1 O /\ (dir_fd d ∉ O -> d' = d)) (s, w).
Proof.
  unfold seekdir. wp_step. eapply wp_get; [done| |].
  - intros Hn. unfold set_errno. wp_step. rewrite wp_upd. wp_step. split; [by apply posix_ok_errno|done].
  - on_fd lseek_file. give_back.
Qed.
Lemma wp_rewinddir d : wp (rewinddir d) (fun d' s' => posix_ok s'.1 O /\ (dir_fd d ∉ O -> d' = d)) (s, w).
Proof. exact (wp_seekdir d 0). Qed.

(** An entry that was read before is inside of the buffer. *)
Definition dir_ok (d : DIR) : Prop := dir_num d = 0 \/ 0 <= dir_cur d /\ dir_cur d + 3 < Z.of_nat (length (dir_buf d)).
Lemma wp_readdir d : dir_ok d -> wp (readdir d) (fun x s' => posix_ok s'.1 O /\ (dir_fd d ∉ O -> x.1 = None)) (s, w).
Proof.
  intros Hok. unfold readdir. wp_step. eapply wp_get; [done| |].
  - intros Hn. unfold set_errno. wp_step. rewrite wp_upd. wp_step. split; [by apply posix_ok_errno|done].
  - intros p f Hin Hu Hd Hf.
    assert (Hrest : forall d0, wp (if (dir_num d0 =? 0) || (dir_num d0 <=? dir_cur d0) then
        '(result, bytes) ← dfs_file_getdents (Some p) (512 - 1);
        let d := mkDir (dir_fd d0) (bytes ++ drop (length bytes) (dir_buf d0)) (dir_num d0) (dir_cur d0) in
        if result <=? 0 then fd_put (Some p) ;; set_errno result ;; mret (None, d)
        else let d := mkDir (dir_fd d) (dir_buf d) result 0 in fd_put (Some p) ;; mret (Some (dir_cur d), d)
      else fd_put (Some p) ;; mret (Some (dir_cur d0), d0)) (fun x s' => posix_ok s'.1 O /\ (dir_fd d ∉ O -> x.1 = None)) (at_fd p f s, w)).
    { intros d0. wp_step; [|give_back]. on_fd_now getdents_file. destruct a as [result bytes]. cbn zeta. wp_step; [|give_back].
      wp_step. eapply wp_put_back; [eassumption|eassumption|eassumption|]. intros s' Hs'. unfold set_errno. wp_step. rewrite wp_upd. wp_step. split; [by apply posix_ok_errno|done]. }
    wp_step. destruct (dir_num d =? 0) eqn:En; cbn [negb]; [wp_step; apply Hrest|]. destruct Hok as [Hok|[H1 H2]]; [by rewrite Hok in En|].
    destruct (lookup_lt_is_Some_2 (dir_buf d) (Z.to_nat (dir_cur d + 2))) as [lo Elo]; [lia|]. destruct (lookup_lt_is_Some_2 (dir_buf d) (Z.to_nat (dir_cur d + 3))) as [hi Ehi]; [lia|].
    wp_step. apply wp_assert; [by apply Z.leb_le|]. wp_step. apply (wp_deref _ lo); [done|]. wp_step. apply (wp_deref _ hi); [done|]. wp_step. apply Hrest.
Qed.

(** ** Closing *)

Lemma wp_close n : wp (close n) (fun r s' => (r = 0 /\ n ∈ O /\ posix_ok s'.1 (O ∖ {[n]})) \/ (r = -1 /\ posix_ok s'.1 O)) (s, w).
Proof.
  unfold close. wp_step. eapply wp_get; [done| |].
  - intros Hn. eapply wp_failed; [done|]. intros s' Hs'. by right.
  - intros p d Hin Hu Hd Hf. on_fd_now close_file. wp_step. apply wp_put_one; [done|]. wp_step.
    + eapply (wp_failed _ O); [|intros s' Hs'; by right]. eapply taken_ok; [done|done|cbn; by destruct H|done].
    + wp_step. eapply wp_put_close; [done|done|cbn; by destruct H|]. intros s' Hs'. wp_step. left. done.
Qed.
Lemma wp_closedir d : wp (closedir d) (fun r s' => (r = -1 \/ r = 0) /\ (dir_fd d ∉ O -> r = -1) /\ posix_ok s'.1 (O ∖ {[dir_fd d]})) (s, w).
Proof.
  unfold closedir. wp_step. eapply wp_get; [done| |].
  - intros Hn. eapply wp_failed; [done|]. intros s' Hs'. split_and!; [by left|done|]. by rewrite difference_disjoint_L by set_solver.
  - intros p f Hin Hu Hd Hf. on_fd_now close_file. wp_step. apply wp_put_one; [done|]. wp_step. eapply wp_put_close; [done|done|cbn; by destruct H|]. intros s' Hs'. wp_step.
    + eapply wp_failed; [done|]. intros s2 Hs2. split_and!; [by left|done|done].
    + wp_step. split_and!; [by right|done|done].
Qed.
End calls.

(** ** Calls that open *)

(** The file system refuses: opening the file fails, in a state with these tables. *)
Definition refused (s : dfs) (w : W) (mem : memory) (path : list Z) (flags : Z) : Prop :=
  exists p d s1 r s2, working_directory s1 = working_directory s /\ dfs_file_open front mem (Some p) path flags (at_fd p d s1, w) = Some (r, s2) /\ r < 0.

Lemma wp_opening {A} mem path flags (O : gset Z) s w (test : Z -> bool) (bad : F A) (K : Z -> option nat -> Z -> F A) (Q : A -> dfs * W -> Prop) :
  posix_ok s O -> fresh_memory mem s -> ~ 0 ∈ path -> test (-1) = true -> (forall n, DFS_FD_OFFSET <= n -> test n = false) ->
  (forall s', posix_ok s' O -> (has_memory mem -> all_taken O) -> wp bad Q (s', w)) ->
  (forall n p r s' d w', lowest O n -> taken s' n p ({[n]} ∪ O) -> in_use d -> (0 <= r -> is_Some (fd_fops d)) -> (r < 0 -> refused s w mem path flags) ->
     wp (K n (Some p) r) Q (at_fd p d s', w')) ->
  wp (fd ← fd_new mem; if test fd then bad else d ← fd_get fd; result ← dfs_file_open front mem d path flags; K fd d result) Q (s, w).
Proof.
  intros Hs Hfr Hp Ht1 Ht2 Hbad HK. wp_step. eapply wp_new; [done|done| |].
  - intros s' Hs' Hf. rewrite Ht1. by apply Hbad.
  - intros n p s' Hn Hu Ewd. rewrite Ht2 by apply Hn. wp_step. eapply wp_get_taken; [done|]. intros d0 _ Hd. wp_step.
    pose proof (open_file p mem path flags s' w (set_fd_count 2 d0) (proj1 Hu) Hp) as Ho.
    apply wp_unfold in Ho as (r & s2 & E & d' & w' & -> & Hk & Hf). unfold wp at 1. rewrite E. apply HK; [done|done|by eapply in_use_kept|done|].
    intros Hr. by eexists p, _, s', r, _.
Qed.

Lemma lowest_back O n : lowest O n -> ({[n]} ∪ O) ∖ {[n]} = O.
Proof. intros (_ & Hn & _). rewrite difference_union_distr_l_L, difference_diag_L, (left_id_L ∅ (∪)). apply difference_disjoint_L. set_solver. Qed.
(** What was opened is closed again. *)
Lemma wp_put_new {A} n p d O (c : F A) (Q : A -> dfs * W -> Prop) s w : lowest O n -> taken s n p ({[n]} ∪ O) -> in_use d ->
  (forall s', posix_ok s' O -> wp c Q (s', w)) -> wp (fd_put (Some p) ;; fd_put (Some p) ;; c) Q (at_fd p d s, w).
Proof.
  intros Hn Hu Hd HQ. wp_step. apply wp_put_one; [done|]. wp_step. eapply wp_put_close; [done|done|apply Hd|]. rewrite (lowest_back O n Hn). exact HQ.
Qed.

Section opening_calls.
Context (O : gset Z) (s : dfs) (w : W) (Hs : posix_ok s O) (mem : memory) (Hfr : fresh_memory mem s).

Lemma test_lt n : DFS_FD_OFFSET <= n -> (n <? 0) = false.
Proof. unfold DFS_FD_OFFSET. intros. apply Z.ltb_ge. lia. Qed.
Lemma test_eq n : DFS_FD_OFFSET <= n -> (n =? -1) = false.
Proof. unfold DFS_FD_OFFSET. intros. apply Z.eqb_neq. lia. Qed.

Lemma wp_open file flags : ~ 0 ∈ file ->
  wp (open front mem file flags) (fun r s' => (lowest O r /\ posix_ok s'.1 ({[r]} ∪ O)) \/
    (r = -1 /\ posix_ok s'.1 O /\ (has_memory mem -> ~ all_taken O -> refused s w mem file flags))) (s, w).
Proof.
  intros Hf. unfold open. eapply (wp_opening mem file flags O s w (fun fd => fd <? 0)); [done|done|done|done|exact test_lt| |].
  - intros s' Hs' Hm. eapply wp_failed; [done|]. intros s2 Hs2. right. split_and!; [done|done|]. intros H1 H2. by destruct H2; apply Hm.
  - intros n p r s' d w' Hn Hu Hd Ho Hr. wp_step.
    + eapply wp_put_new; [done|done|done|]. intros s2 Hs2. eapply wp_failed; [done|]. intros s3 Hs3.
      right. split_and!; [done|done|]. intros _ _. apply Hr. lia.
    + wp_step. eapply wp_put_back; [done|done|apply Ho; lia|]. intros s2 Hs2. wp_step. by left.
Qed.

Lemma wp_mkdir path : ~ 0 ∈ path -> wp (mkdir front mem path) (fun r s' => (r = 0 \/ r = -1) /\ posix_ok s'.1 O) (s, w).
Proof.
  intros Hp. unfold mkdir. eapply (wp_opening mem path _ O s w (fun fd => fd =? -1)); [done|done|done|done|exact test_eq| |].
  - intros s' Hs' _. eapply wp_failed; [done|]. intros s2 Hs2. split; [by right|done].
  - intros n p r s' d w' Hn Hu Hd Ho _. wp_step.
    + eapply wp_put_new; [done|done|done|]. intros s2 Hs2. eapply wp_failed; [done|]. intros s3 Hs3. split; [by right|done].
    + assert (is_Some (fd_fops d)) by (apply Ho; lia). on_fd_now close_file. eapply wp_put_new; [done|done|done|]. intros s2 Hs2. wp_step. split; [by left|done].
Qed.
Lemma wp_opendir dir_memory name : ~ 0 ∈ name ->
  wp (opendir front mem dir_memory name) (fun r s' => match r with
    | Some d => lowest O (dir_fd d) /\ posix_ok s'.1 ({[dir_fd d]} ∪ O)
    | None => posix_ok s'.1 O end) (s, w).
Proof.
  intros Hp. unfold opendir. eapply (wp_opening mem name _ O s w (fun fd => fd =? -1)); [done|done|done|done|exact test_eq| |].
  - intros s' Hs' _. unfold set_errno. wp_step. rewrite wp_upd. wp_step. by apply posix_ok_errno.
  - intros n p r s' d w' Hn Hu Hd Ho _. wp_step.
    + assert (is_Some (fd_fops d)) by (apply Ho; lia). wp_step.
      * wp_step. eapply wp_put_back; [done|done|done|]. intros s2 Hs2. by wp_step.
      * on_fd_now close_file. eapply wp_put_new; [done|done|done|]. intros s2 Hs2. by wp_step.
    + eapply wp_put_new; [done|done|done|]. intros s2 Hs2. unfold set_errno. wp_step. rewrite wp_upd. wp_step. by apply posix_ok_errno.
Qed.
Lemma wp_chdir dir_memory path : ~ 0 ∈ default [] path ->
  (forall p full, path = Some p -> normal_of s p = Some full -> (length full < DFS_PATH_MAX)%nat) ->
  wp (chdir front mem dir_memory path) (fun r s' => (r = 0 \/ r = -1) /\ posix_ok s'.1 O) (s, w).
Proof.
  intros Hp Hl. unfold chdir. destruct path as [path|]; [|wp_step; split; [by left|done]]. wp_step; [eapply wp_failed; [done|]; intros s' Hs'; split; [by right|done]|].
  wp_step. apply wp_full_path_any; [apply Hs|done| |].
  - eapply wp_failed; [done|]. intros s' Hs'. split; [by right|done].
  - intros full En Hz _. wp_step. eapply wp_mono; [|by apply wp_opendir]. intros [d|] [s' w'] Hop; cbn [fst] in Hop; [|wp_step; split; [by right|done]].
    destruct Hop as [Hn Hs']. wp_step. eapply wp_mono; [|by apply (wp_closedir _ s' w' Hs')]. intros r [s2 w2] (_ & _ & Hs2). cbn [fst] in Hs2. rewrite (lowest_back O _ Hn) in Hs2.
    wp_step. rewrite wp_upd. wp_step. split; [by left|]. cbn [fst]. apply posix_ok_directory; [|done]. specialize (Hl path full eq_refl En).
    rewrite take_app_ge by lia. apply elem_of_app. right. apply elem_of_take. exists 0%nat. split; [|lia]. apply lookup_replicate. split; [done|]. unfold DFS_PATH_MAX. lia.
Qed.
End opening_calls.

(** ** Calls on paths *)

Section path_calls.
Context (O : gset Z) (s : dfs) (w : W) (Hs : posix_ok s O).

Lemma wp_drive_fs_lawful {A} i e (f : fs_fn A) (Q : A -> dfs * W -> Prop) : filesystem_table s !! i = Some e -> lawful_fs f ->
  (forall a s' w', posix_ok s' O -> Q a (s', w')) -> wp (drive_fs i f) Q (s, w).
Proof.
  intros Ei Hf HQ. unfold drive_fs, get_fs. wp_step. apply (wp_deref _ e); [done|]. wp_step. apply wp_world_fs. destruct (Hf e w) as [[[a e'] w'] E]. unfold wp at 1. rewrite E.
  wp_step. rewrite wp_upd. wp_step. apply HQ. by apply posix_ok_table.
Qed.
Lemma wp_open_loop fs mp t (Q : Z -> dfs * W -> Prop) : (forall p, Some p ∈ t -> is_Some (files s !! p)) -> (forall r, Q r (s, w)) -> wp (open_loop t fs mp) Q (s, w).
Proof.
  intros Ht HQ. induction t as [|[p|] t IH]; cbn [open_loop]; [by wp_step| |apply IH; intros q Hq; apply Ht; by right].
  destruct (Ht p) as [d Ed]; [by left|]. wp_step. apply (wp_get_fd p d); [done|].
  assert (IH' : wp (open_loop t fs mp) Q (s, w)) by (apply IH; intros q Hq; apply Ht; by right).
  destruct (fd_fops d), (fd_path d); try done. wp_step; [by wp_step|done].
Qed.
Lemma wp_is_open memory path (Q : Z -> dfs * W -> Prop) : ~ 0 ∈ path -> (forall r, Q r (s, w)) -> wp (fd_is_open front memory path) Q (s, w).
Proof.
  intros Hp HQ. unfold fd_is_open. wp_step. apply wp_full_path_any; [apply Hs|done|by wp_step|]. intros full _ _ _.
  wp_step. apply wp_lookup; [intros _; by wp_step|]. intros i e m Ei [Em _] _. wp_step. unfold path_of_fs, get_fs. wp_step. apply (wp_deref _ e); [done|]. apply (wp_deref _ m); [done|].
  wp_step. rewrite wp_own. cbn [fst]. apply wp_open_loop; [|done]. intros p (n & En)%list_elem_of_lookup. destruct Hs as (_ & mm & [Hi _] & _).
  destruct (open_entry s mm n p Hi En) as (d & Ed & _). by exists d.
Qed.

Lemma wp_file_unlink mem path : ~ 0 ∈ path -> wp (dfs_file_unlink front mem path) (fun _ s' => posix_ok s'.1 O) (s, w).
Proof.
  intros Hp. unfold dfs_file_unlink. wp_step. apply wp_full_path_any; [apply Hs|done|by wp_step|]. intros full _ Hz _.
  wp_step. apply wp_lookup; [intros _; by wp_step|]. intros i e m Ei Hm Hc. wp_step. apply wp_is_open; [done|]. intros r. wp_step; [by wp_step|].
  wp_step. apply (wp_ops i e m); [done|done|]. intros o Ho. destruct (op_unlink o) as [f|] eqn:Ef; [|by wp_step]. pose proof (lt_unlink _ Ho f Ef) as Hl. destruct Hm as [Em _].
  wp_step; [wp_step; apply (wp_below_any i e m); [done..|]; intros sub _|]; (eapply wp_drive_fs_lawful; [done|apply Hl|done]).
Qed.
Lemma wp_path_result r (s' : dfs) w' : posix_ok s' O -> wp (path_result r) (fun r (x : dfs * W) => (r = 0 \/ r = -1) /\ posix_ok x.1 O) (s', w').
Proof. intros Hs'. unfold path_result. wp_step; [eapply wp_failed; [done|]; intros s2 Hs2; split; [by right|done]|wp_step; split; [by left|done]]. Qed.
Lemma wp_unlink mem path : ~ 0 ∈ path -> wp (unlink front mem path) (fun r s' => (r = 0 \/ r = -1) /\ posix_ok s'.1 O) (s, w).
Proof. intros Hp. unfold unlink. wp_step. eapply wp_mono; [|by apply wp_file_unlink]. intros r [s' w']. apply wp_path_result. Qed.

(** One of the two paths has to be in a file system. *)
Definition renames (mem : memory) (old_file new_file : list Z) : Prop := forall f g, normal_of s old_file = Some f -> normal_of s new_file = Some g ->
  lookup_loop 0 (filesystem_table s) f None 0 ≠ None \/ lookup_loop 0 (filesystem_table s) g None 0 ≠ None.
Lemma wp_rename mem old_file new_file : ~ 0 ∈ old_file -> ~ 0 ∈ new_file -> renames mem old_file new_file ->
  wp (rename front mem old_file new_file) (fun r s' => (r = 0 \/ r = -1) /\ posix_ok s'.1 O) (s, w).
Proof.
  intros Hp Hq Hr. unfold rename. wp_step. apply (wp_mono _ (fun _ (x : dfs * W) => posix_ok x.1 O)); [intros r [s' w'] Hs'; by apply wp_path_result|]. unfold dfs_file_rename.
  wp_step. apply wp_full_path_any; [apply Hs|done|by wp_step|]. intros f Ef _ _. wp_step. apply wp_full_path_any; [apply Hs|done|by wp_step|]. intros g Eg _ _.
  specialize (Hr f g Ef Eg). unfold dfs_filesystem_lookup. wp_step. wp_step. rewrite wp_own. cbn [fst]. wp_step. wp_step. wp_step. rewrite wp_own. cbn [fst]. wp_step.
  case_decide as Eq; [|by wp_step]. rewrite <- Eq in Hr. destruct (lookup_loop 0 (filesystem_table s) f None 0) as [i|] eqn:El; [|tauto]. symmetry in Eq.
  apply lookup_best in El as (e & m & Ei & Hm & Hc & _), Eq as (e' & m' & Ei' & Hm' & Hc' & _). rewrite Ei in Ei'. injection Ei' as <-. destruct Hm' as [Em' _]. pose proof (proj1 Hm) as Em. rewrite Em in Em'. injection Em' as <-.
  wp_step. eapply wp_deref; [done|]. wp_step. apply (wp_ops i e m); [done|done|]. intros o Ho. destruct (op_rename o) as [fn|] eqn:Ef'; [|by wp_step]. pose proof (lt_rename _ Ho fn Ef') as Hl.
  wp_step; [|wp_step; apply (wp_below_any i e m); [done..|]; intros sub _; wp_step; apply (wp_below_any i e m); [done..|]; intros sub' _];
    (eapply wp_drive_fs_lawful; [done|apply Hl|done]).
Qed.

Lemma wp_file_stat mem path buf : ~ 0 ∈ path -> wp (dfs_file_stat front mem path buf) (fun _ s' => posix_ok s'.1 O) (s, w).
Proof.
  intros Hp. unfold dfs_file_stat. wp_step. apply wp_full_path_any; [apply Hs|done|by wp_step|]. intros full _ Hz _.
  wp_step. apply wp_lookup; [intros _; by wp_step|]. intros i e m Ei Hm Hc. pose proof (proj1 Hm) as Em.
  assert (Hstat : forall b : bool, (b = false -> length m ≠ length full) -> wp (if b then mret (0, mkStat 0 (Z.lor S_IRWUGO (Z.lor S_IFDIR S_IXUGO)) 0 0)
      else ops ← ops_of i; match op_stat ops with
        | None => mret (- ENOSYS, buf)
        | Some f => if negb (Z.land (op_flags ops) DFS_FS_FLAG_FULLPATH =? 0) then drive_fs i (f full buf)
                    else sub ← below i full; path ← deref (fun _ => sub); drive_fs i (f path buf) end) (fun _ s' => posix_ok s'.1 O) (s, w)).
  { intros b Hb. wp_step; [by wp_step|]. specialize (Hb H). wp_step. apply (wp_ops i e m); [done|done|]. intros o Ho. destruct (op_stat o) as [f|] eqn:Ef; [|by wp_step].
    pose proof (lt_stat _ Ho f Ef) as Hl. wp_step; [eapply wp_drive_fs_lawful; [done|apply Hl|done]|]. wp_step. apply (wp_below_any i e m); [done..|]. intros [sub|] Hsub; [|by destruct Hb; apply Hsub].
    wp_step. eapply wp_deref; [done|]. eapply wp_drive_fs_lawful; [done|apply Hl|done]. }
  wp_step. case_decide as Hr; [wp_step; first [done|by apply (Hstat true)]|]. wp_step. apply (wp_below_any i e m); [done..|]. intros sub Hsub. wp_step. apply Hstat.
  intros Hb%bool_decide_eq_false. intros E. by apply Hb, Hsub.
Qed.
Lemma wp_stat mem path buf : ~ 0 ∈ path -> wp (stat front mem path buf) (fun _ s' => posix_ok s'.1 O) (s, w).
Proof.
  intros Hp. unfold stat. wp_step. eapply wp_mono; [|by apply wp_file_stat]. intros [r b] [s' w'] Hs'. cbn [fst] in Hs'. wp_step; [|by wp_step].
  wp_step. eapply wp_failed; [done|]. intros s2 Hs2. by wp_step.
Qed.
Lemma wp_access mem path buf : ~ 0 ∈ path -> wp (access front mem path buf) (fun r s' => (r = 0 \/ r = -1) /\ posix_ok s'.1 O) (s, w).
Proof. intros Hp. unfold access. wp_step. eapply wp_mono; [|by apply wp_stat]. intros [r b] s' Hs'. wp_step; wp_step; split; try done; [by right|by left]. Qed.
Lemma wp_statfs path buf : wp (statfs path buf) (fun _ s' => posix_ok s'.1 O) (s, w).
Proof.
  assert (Hend : forall r (b : Dfs.statfs) s' w', posix_ok s' O -> wp (if r <? 0 then r ← failed r; mret (r, b) else mret (r, b)) (fun _ (x : dfs * W) => posix_ok x.1 O) (s', w')).
  { intros r b s' w' Hs'. wp_step; [|by wp_step]. wp_step. eapply wp_failed; [done|]. intros s2 Hs2. by wp_step. }
  unfold statfs, dfs_statfs. wp_step. wp_step. apply wp_lookup; [intros _; wp_step; by apply Hend|]. intros i e m Ei Hm Hc. wp_step. apply (wp_ops i e m); [done|done|]. intros o Ho.
  destruct (op_statfs o) as [f|] eqn:Ef; [|wp_step; by apply Hend]. eapply wp_drive_fs_lawful; [done|by eapply lt_statfs|]. intros [r b] s' w' Hs'. by apply Hend.
Qed.
Lemma wp_getcwd size : wp (getcwd size) (fun _ s' => posix_ok s'.1 O) (s, w).
Proof. unfold getcwd. wp_step. rewrite wp_own. rewrite decide_True by apply Hs. by wp_step. Qed.
End path_calls.
End refinement.

(** ** The refinement *)

Inductive call :=
  | Open (m : memory) (file : list Z) (flags : Z) | Close (fd : Z)
  | Read (fd len : Z) | Write (fd : Z) (buf : list Z) (len : Z) | Lseek (fd offset whence : Z) | Fstat (fd : Z) (buf : Dfs.stat)
  | Fsync (fd : Z) | Fcntl (fd cmd arg : Z) | Ioctl (fd cmd data : Z) | Ftruncate (fd length : Z)
  | Rename (m : memory) (old_file new_file : list Z) | Unlink (m : memory) (path : list Z) | Rmdir (m : memory) (path : list Z)
  | Stat (m : memory) (path : list Z) (buf : Dfs.stat) | Statfs (path : list Z) (buf : Dfs.statfs) | Access (m : memory) (path : list Z) (buf : Dfs.stat)
  | Mkdir (m : memory) (path : list Z) | Chdir (m : memory) (dir_memory : bool) (path : option (list Z)) | Getcwd (size : nat)
  | Opendir (m : memory) (dir_memory : bool) (name : list Z) | Closedir (d : DIR) | Readdir (d : DIR) | Telldir (d : DIR) | Seekdir (d : DIR) (offset : Z) | Rewinddir (d : DIR).

Section calls.
Context {W : Type} `{!file_systems W} (front : Z).

(** The number a call returns; opendir the descriptor in the DIR, a null pointer counting as -1. *)
Definition run_call (c : call) : M (dfs * W) Z :=
  match c with
  | Open m file flags => open front m file flags
  | Close fd => close fd
  | Read fd len => x ← read fd len; mret x.1
  | Write fd buf len => write fd buf len
  | Lseek fd offset whence => lseek fd offset whence
  | Fstat fd buf => x ← fstat fd buf; mret x.1
  | Fsync fd => fsync fd
  | Fcntl fd cmd arg => fcntl fd cmd arg
  | Ioctl fd cmd data => ioctl fd cmd data
  | Ftruncate fd length => ftruncate fd length
  | Rename m old_file new_file => rename front m old_file new_file
  | Unlink m path => unlink front m path
  | Rmdir m path => rmdir front m path
  | Stat m path buf => x ← stat front m path buf; mret x.1
  | Statfs path buf => x ← statfs path buf; mret x.1
  | Access m path buf => access front m path buf
  | Mkdir m path => mkdir front m path
  | Chdir m dir_memory path => chdir front m dir_memory path
  | Getcwd size => _ ← getcwd size; mret 0
  | Opendir m dir_memory name => d ← opendir front m dir_memory name; mret (match d with Some d => dir_fd d | None => -1 end)
  | Closedir d => closedir d
  | Readdir d => x ← readdir d; mret (match x.1 with Some cur => cur | None => -1 end)
  | Telldir d => telldir d
  | Seekdir d offset => _ ← seekdir d offset; mret 0
  | Rewinddir d => _ ← rewinddir d; mret 0
  end.

(** The descriptor a call reads, writes or asks about. *)
Definition uses_fd (c : call) : option Z :=
  match c with
  | Read fd _ | Write fd _ _ | Lseek fd _ _ | Fstat fd _ | Fsync fd | Fcntl fd _ _ | Ioctl fd _ _ | Ftruncate fd _ => Some fd
  | _ => None
  end.
(** The calls on paths and those that go through a DIR. *)
Definition takes_none (c : call) : bool :=
  match c with
  | Rename _ _ _ | Unlink _ _ | Rmdir _ _ | Stat _ _ _ | Statfs _ _ | Access _ _ _ | Mkdir _ _ | Chdir _ _ _ | Getcwd _
  | Readdir _ | Telldir _ | Seekdir _ _ | Rewinddir _ => true
  | _ => false
  end.
(** The set of open descriptors. *)
Inductive set_call : gset Z -> call -> Z -> gset Z -> Prop :=
  | sc_open O m file flags n : lowest O n -> set_call O (Open m file flags) n ({[n]} ∪ O)
  | sc_open_fails O m file flags : set_call O (Open m file flags) (-1) O
  | sc_opendir O m dm name n : lowest O n -> set_call O (Opendir m dm name) n ({[n]} ∪ O)
  | sc_opendir_fails O m dm name : set_call O (Opendir m dm name) (-1) O
  | sc_close O fd : fd ∈ O -> set_call O (Close fd) 0 (O ∖ {[fd]})
  | sc_close_fails O fd : set_call O (Close fd) (-1) O
  | sc_closedir O d r : (dir_fd d ∉ O -> r = -1) -> set_call O (Closedir d) r (O ∖ {[dir_fd d]})
  | sc_use O c fd r : uses_fd c = Some fd -> (fd ∉ O -> r = -1) -> set_call O c r O
  | sc_other O c r : takes_none c = true -> set_call O c r O.

(** What is asked of a call: its paths are strings, what rt_calloc returns is not in use, one path of
    rename is in a file system, a new working directory fits its buffer, and the entry that a DIR is at is in its buffer. *)
Definition allowed (s : dfs) (c : call) : Prop :=
  match c with
  | Open m path _ | Mkdir m path | Opendir m _ path => fresh_memory m s /\ ~ 0 ∈ path
  | Unlink _ path | Rmdir _ path | Stat _ path _ | Access _ path _ => ~ 0 ∈ path
  | Rename m old_file new_file => ~ 0 ∈ old_file /\ ~ 0 ∈ new_file /\ renames s m old_file new_file
  | Chdir m _ path => fresh_memory m s /\ ~ 0 ∈ default [] path /\
      forall p full, path = Some p -> normal_of s p = Some full -> (length full < DFS_PATH_MAX)%nat
  | Readdir d => dir_ok d
  | _ => True
  end.
Inductive posix_step : dfs * W -> call * Z -> dfs * W -> Prop :=
  | posix_call s c r s' : allowed s.1 c -> run_call c s = Some (r, s') -> posix_step s (c, r) s'.
Inductive set_step : gset Z -> call * Z -> gset Z -> Prop := one_call O c r O' : set_call O c r O' -> set_step O (c, r) O'.
End calls.

Section posix_refinement.
Context {W : Type} `{!file_systems W, !lawful_systems W} (front : Z) (front_ok : front ≠ SLASH).

(** The calls by their class. *)
Lemma wp_used {A} O c fd (m : M (dfs * W) A) (f : A -> Z) x : uses_fd c = Some fd -> wp m (fun r => one_use fd O (f r)) x ->
  wp (r ← m; mret (f r)) (fun r s' => exists O', set_call O c r O' /\ posix_ok s'.1 O') x.
Proof. intros Hc Hm. wp_step. eapply wp_mono; [|exact Hm]. intros r s' [Hs Hr]. wp_step. exists O. split; [by eapply sc_use|done]. Qed.
Lemma wp_other {A} O c (m : M (dfs * W) A) (f : A -> Z) (P : A -> dfs * W -> Prop) x : takes_none c = true ->
  (forall r s', P r s' -> posix_ok s'.1 O) -> wp m P x ->
  wp (r ← m; mret (f r)) (fun r s' => exists O', set_call O c r O' /\ posix_ok s'.1 O') x.
Proof. intros Hc HP Hm. wp_step. eapply wp_mono; [|exact Hm]. intros r s' Hr. wp_step. exists O. split; [by apply sc_other|by eapply HP]. Qed.
Lemma bind_ret (m : M (dfs * W) Z) (Q : Z -> dfs * W -> Prop) x : wp (r ← m; mret r) Q x -> wp m Q x.
Proof. by rewrite wp_bind. Qed.

Lemma wp_run_call O s w c : posix_ok s O -> allowed s c ->
  wp (run_call front c) (fun r s' => exists O', set_call O c r O' /\ posix_ok s'.1 O') (s, w).
Proof.
  intros Hs Ha. destruct c; cbn [run_call allowed] in *;
    try (first [eapply wp_used; [done|] | apply bind_ret; eapply wp_used; [done|]]; eauto using wp_read_call, wp_write_call, wp_lseek, wp_fstat, wp_fsync, wp_fcntl, wp_ftruncate; done);
    try (first [eapply (wp_other O); [done|..] | apply bind_ret; eapply (wp_other O); [done|..]]; [|eauto using wp_unlink, wp_stat, wp_statfs, wp_access, wp_getcwd, wp_readdir, wp_telldir, wp_seekdir, wp_rewinddir]; cbn beta; tauto).
  - destruct Ha. eapply wp_mono; [|by apply (wp_open front front_ok O)]. intros r x [[Hl Hx]|(-> & Hx & _)]; eexists; (split; [|done]); by constructor.
  - eapply wp_mono; [|by apply wp_close]. intros r x [(-> & Hn & Hx)|[-> Hx]]; eexists; (split; [|done]); by constructor.
  - destruct Ha as (? & ? & ?). apply bind_ret. eapply (wp_other O); [done| |by apply (wp_rename front front_ok)]. cbn beta. tauto.
  - destruct Ha. apply bind_ret. eapply (wp_other O); [done| |by apply (wp_mkdir front front_ok)]. cbn beta. tauto.
  - destruct Ha as (? & ? & ?). apply bind_ret. eapply (wp_other O); [done| |by apply (wp_chdir front front_ok)]. cbn beta. tauto.
  - destruct Ha. wp_step. eapply wp_mono; [|by apply (wp_opendir front front_ok O)]. intros [d|] x Hx; wp_step; [destruct Hx|]; eexists; (split; [|done]); by constructor.
  - eapply wp_mono; [|by apply (wp_closedir front)]. intros r x (_ & Hr & Hx). eexists; (split; [|done]). by constructor.
Qed.

End posix_refinement.

(** ** Samples *)

Section samples.
#[local] Existing Instance sample_systems.
Lemma sample_lawful : lawful_systems nat.
Proof.
  split; intros o; split; cbn; intros f [= <-]; try done.
  - intros d w. exists 0, d, (S w). split; [done|apply kept_refl].
  - intros p q e w. by eexists.
Qed.
Definition sample_mem : memory := mkMemory (Some 9%nat) true true true.

Lemma sample_ok : posix_ok sample_dfs ∅.
Proof.
  split; [apply (bool_decide_unpack _); vm_compute; reflexivity|]. exists ∅. split; [|apply dom_empty_L]. split; [|intros k p c Ek; by rewrite lookup_empty in Ek].
  assert (E : fds sample_dfs = []) by (vm_compute; reflexivity). split; rewrite ?E; cbn; [unfold DFS_FD_MAX; lia| |set_solver..].
  intros n p. rewrite lookup_nil. split; [done|]. intros [c Ec]. by rewrite lookup_empty in Ec.
Qed.

(** A file is opened, read, which this file system has no function for, and closed. *)
Definition sample_calls : list (call * Z) := [(Open sample_mem dev_a 0, 3); (Read 3 10, -1); (Close 3, 0); (Fsync 3, -1)].
Definition sample_open : dfs * nat := after (open 0 sample_mem dev_a 0) (sample_dfs, 0%nat).
Definition sample_read : dfs * nat := after (read 3 10) sample_open.
Definition sample_closed : dfs * nat := after (close 3) sample_read.


(** ** What the code does not keep *)

(** A working directory of 256 characters is stored without an end: the next relative path reads
    behind it. *)
Definition long_path : list Z := DEV ++ [SLASH] ++ replicate 251 97.
Lemma long_directory : fst <$> chdir 0 sample_mem true (Some long_path) (sample_dfs, 0%nat) = Some 0 /\
  (chdir 0 sample_mem true (Some long_path) ;; full_path 0 true [98]) (sample_dfs, 0%nat) = None.
Proof. split; vm_compute; reflexivity. Qed.

(** fsync returns the error of the file system, and not -1 with the error in errno. *)
Lemma fsync_error : (fun '(r, s) => (r, dfs_errno s.1)) <$> fsync 3 sample_open = Some (- ENOSYS, 0).
Proof. vm_compute. reflexivity. Qed.

(** A descriptor closed while another call uses it is still found: later calls are passed to the file
    system for a file it has closed. *)
Lemma closed_still_found : fst <$> (_ ← fd_get 3; r ← close 3; p ← fd_get 3; mret (r, p)) sample_open = Some (0, Some 9%nat).
Proof. vm_compute. reflexivity. Qed.
End samples.
