(* ===== verification/Msh.v ===== *)
(** * Msh: command lines, rt-thread/components/finsh/msh.c

    The text of the shell, what it prints and calls, and [msh_split], which cuts a command
    line into arguments in place.  A line is in a buffer of its own: a pointer into it is an
    offset, and an access outside of it is a fault.  What the console is given to print and
    the commands that are called are events; a command gets the offsets of its arguments and
    the buffer as it is then. *)

From Stdlib Require Import Ascii String.
From S2P Require Import Prelude.

#[local] Open Scope Z_scope.

(** One call of straight-line code whose result is known. *)
Ltac run E := rewrite (bind_some _ _ _ _ _ E).

(** ** Text *)

(** The characters of a literal. *)
Definition text (s : string) : list Z := (fun c => Z.of_N (N_of_ascii c)) <$> list_ascii_of_string s.

(** The C string at the head of some memory: the characters before the first 0. *)
Fixpoint cstr (l : list Z) : option (list Z) :=
  match l with
  | [] => None
  | c :: l => if c =? 0 then Some [] else (fun s => c :: s) <$> cstr l
  end.
Definition nonzero (l : list Z) : Prop := Forall (fun c => c ≠ 0) l.

(** Whether [strncmp(a, b, n)] is 0; the strings are without their terminators. *)
Definition strncmp_eq (n : nat) (a b : list Z) : bool := bool_decide (take n (a ++ [0]) = take n (b ++ [0])).

Inductive event :=
  | Print (l : list Z)
  | Call (f : Z) (argv : list nat) (buf : list Z).

Record msh := mkMsh { m_buf : list Z; m_ev : list event }.
Abbreviation W := (M msh).

Definition rd (p : nat) : W Z := deref (fun s => m_buf s !! p).
Definition wr (p : nat) (c : Z) : W unit := fun s =>
  if decide (p < length (m_buf s))%nat then Some (tt, mkMsh (<[p := c]> (m_buf s)) (m_ev s)) else None.
Definition rdstr (p : nat) : W (list Z) := deref (fun s => cstr (drop p (m_buf s))).
Definition event_add (e : event) : W unit := modify (fun s => mkMsh (m_buf s) (m_ev s ++ [e])).

(** [rt_kprintf] of a text: what fits in the console buffer of kservice.c is put out. *)
Definition RT_CONSOLEBUF_SIZE : Z := 256.
Definition kputs (l : list Z) : W unit := event_add (Print (take (Z.to_nat (RT_CONSOLEBUF_SIZE - 1)) l)).

Definition FINSH_ARG_MAX : Z := 10.
Definition RT_ERROR : Z := 1.
Definition RT_ENOMEM : Z := 5.

Definition blank (c : Z) : bool := (c =? 32) || (c =? 9).
Definition quote : Z := 34.
Definition backslash : Z := 92.

(** ** Splitting *)

(** Stripping blanks; each becomes a 0. *)
Fixpoint strip_loop (fuel : nat) (length : Z) (ptr : nat) (position : Z) : W (nat * Z) :=
  match fuel with
  | O => fault
  | S fuel =>
      c ← rd ptr;
      if blank c && (position <? length) then
        wr ptr 0 ;; strip_loop fuel length (ptr + 1) (u32 (position + 1))
      else mret (ptr, position)
  end.

(** The loop to the closing quote, which a backslash before it hides. *)
Fixpoint string_loop (fuel : nat) (length : Z) (ptr : nat) (position : Z) : W (nat * Z) :=
  match fuel with
  | O => fault
  | S fuel =>
      c ← rd ptr;
      if negb (c =? quote) && (position <? length) then
        '(ptr, position) ← (if c =? backslash then
                              c1 ← rd (ptr + 1);
                              mret (if c1 =? quote then ((ptr + 1)%nat, u32 (position + 1)) else (ptr, position))
                            else mret (ptr, position));
        string_loop fuel length (ptr + 1) (u32 (position + 1))
      else mret (ptr, position)
  end.

(** The loop to the blank after a word. *)
Fixpoint word_loop (fuel : nat) (length : Z) (ptr : nat) (position : Z) : W (nat * Z) :=
  match fuel with
  | O => fault
  | S fuel =>
      c ← rd ptr;
      if negb (blank c) && (position <? length) then word_loop fuel length (ptr + 1) (u32 (position + 1))
      else mret (ptr, position)
  end.

(** [for (i = 0; i < argc; i++)], printing each argument. *)
Fixpoint print_args (argv : list nat) : W unit :=
  match argv with
  | [] => mret tt
  | p :: argv => s ← rdstr p; kputs (s ++ text " ") ;; print_args argv
  end.

Definition newline : list Z := [10].
Definition too_many (argv : list nat) : W unit :=
  kputs (text "Too many args ! We only Use:" ++ newline) ;; print_args argv ;; kputs newline.

(** The loop over the arguments; [argv] holds the [argc] there are. *)
Fixpoint split_loop (fuel : nat) (length : Z) (ptr : nat) (position : Z) (argv : list nat) : W (list nat) :=
  match fuel with
  | O => fault
  | S fuel' =>
      if position <? length then
        '(ptr, position) ← strip_loop fuel length ptr position;
        if FINSH_ARG_MAX <=? Z.of_nat (List.length argv) then too_many argv ;; mret argv
        else if length <=? position then mret argv
        else
          c ← rd ptr;
          if c =? quote then
            let ptr := (ptr + 1)%nat in
            let position := u32 (position + 1) in
            let argv := argv ++ [ptr] in
            '(ptr, position) ← string_loop fuel length ptr position;
            if length <=? position then mret argv
            else wr ptr 0 ;; split_loop fuel' length (ptr + 1) (u32 (position + 1)) argv
          else
            let argv := argv ++ [ptr] in
            '(ptr, position) ← word_loop fuel length ptr position;
            if length <=? position then mret argv else split_loop fuel' length ptr position argv
      else mret argv
  end.

Definition msh_split (fuel : nat) (cmd : nat) (length : Z) : W (list nat) := split_loop fuel length cmd 0 [].

(** ** The table of the exported functions *)

Record finsh_syscall := mkSyscall { name : list Z; desc : list Z; func : Z }.

Definition cmd_prefix : list Z := text "__cmd_".

(** The names of commands have a prefix; [&index->name[6]] is what follows it. *)
Definition is_cmd (name : list Z) : bool := strncmp_eq 6 name cmd_prefix.
Definition cmd_name (name : list Z) : list Z := drop 6 name.

(** ** Words *)

(** What the arguments of a line are: words between blanks, and strings in quotes, in which a
    backslash hides a quote; a string that is not closed goes to the end of the line. *)
Inductive scanning := Between | InWord (w : list Z) | InString (w : list Z).
Fixpoint words (st : scanning) (l : list Z) : list (list Z) :=
  match l with
  | [] => match st with Between => [] | InWord w | InString w => [w] end
  | c :: r =>
      match st with
      | Between => if blank c then words Between r else if c =? quote then words (InString []) r else words (InWord [c]) r
      | InWord w => if blank c then w :: words Between r else words (InWord (w ++ [c])) r
      | InString w =>
          if c =? quote then w :: words Between r
          else match r with
               | d :: r' => if (c =? backslash) && (d =? quote) then words (InString (w ++ [c; d])) r'
                            else words (InString (w ++ [c])) r
               | [] => [w ++ [c]]
               end
      end
  end.

Lemma cstr_app s rest : nonzero s -> cstr (s ++ 0 :: rest) = Some s.
Proof.
  induction 1 as [|c s Hc Hs IH]; [done|]. cbn. by rewrite (proj2 (Z.eqb_neq c 0) Hc), IH.
Qed.
Lemma cstr_some l : 0 ∈ l -> is_Some (cstr l).
Proof.
  induction l as [|c l IH]; intros Hin; [by apply elem_of_nil in Hin|]. cbn. destruct (Z.eqb_spec c 0) as [|Hne]; [by eexists|].
  apply elem_of_cons in Hin as [?|Hin]; [congruence|]. destruct (IH Hin) as [s ->]. by eexists.
Qed.

Lemma cons_snoc {A} (a : list A) c r : a ++ c :: r = (a ++ [c]) ++ r.
Proof. by rewrite <- app_assoc. Qed.
Lemma length_snoc {A} (a : list A) c : length (a ++ [c]) = (length a + 1)%nat.
Proof. by rewrite length_app. Qed.

(** Every list is a stretch of elements with a property and a rest that does not begin with one. *)
Lemma span {A} (f : A -> bool) l : exists a b, l = a ++ b /\ Forall (fun x => f x = true) a /\ Forall (fun x => f x = false) (take 1 b).
Proof.
  induction l as [|x l (a & b & -> & Ha & Hb)]; [by exists [], []|]. destruct (f x) eqn:E.
  - exists (x :: a), b. split; [done|]. split; [by constructor|done].
  - exists [], (x :: a ++ b). split; [done|]. split; [done|]. by repeat constructor.
Qed.

Section buffers.
Implicit Types (a t rest : list Z) (ev : list event).

Lemma rd_eq a c rest ev : rd (length a) (mkMsh (a ++ c :: rest) ev) = Some (c, mkMsh (a ++ c :: rest) ev).
Proof. unfold rd, deref. cbn [m_buf]. by rewrite list_lookup_middle. Qed.
Lemma wr_eq a x c rest ev : wr (length a) c (mkMsh (a ++ x :: rest) ev) = Some (tt, mkMsh (a ++ c :: rest) ev).
Proof.
  unfold wr. cbn [m_buf m_ev]. rewrite decide_True by (rewrite length_app; cbn; lia).
  by rewrite insert_app_r_alt, Nat.sub_diag.
Qed.
Lemma rdstr_eq a t rest ev : nonzero t ->
  rdstr (length a) (mkMsh (a ++ t ++ 0 :: rest) ev) = Some (t, mkMsh (a ++ t ++ 0 :: rest) ev).
Proof. intros Ht. unfold rdstr, deref. cbn [m_buf]. by rewrite drop_app_length, cstr_app. Qed.
Lemma kputs_eq l s : kputs l s = Some (tt, mkMsh (m_buf s) (m_ev s ++ [Print (take (Z.to_nat (RT_CONSOLEBUF_SIZE - 1)) l)])).
Proof. done. Qed.


(** The position [pos] in the text of [len] characters, before the text [t]. *)
Definition at_text (len pos : Z) t : Prop := 0 <= pos /\ pos + Z.of_nat (length t) = len /\ len + 2 < 2 ^ 32.
Lemma at_text_in len pos c t : at_text len pos (c :: t) -> (pos <? len) = true /\ (len <=? pos) = false.
Proof. intros (H1 & H2 & _). cbn [length] in *. split; [apply Z.ltb_lt|apply Z.leb_gt]; lia. Qed.
Lemma at_text_end len pos : at_text len pos [] -> (pos <? len) = false /\ (len <=? pos) = true.
Proof. intros (H1 & H2 & _). cbn [length] in *. split; [apply Z.ltb_ge|apply Z.leb_le]; lia. Qed.
Lemma at_text_next len pos c t : at_text len pos (c :: t) -> u32 (pos + 1) = pos + 1 /\ at_text len (pos + 1) t.
Proof. intros (H1 & H2 & H3). cbn [length] in *. split; [apply wrap_small; lia|]. repeat split; lia. Qed.
Lemma at_text_app len pos s t : at_text len pos (s ++ t) -> at_text len (pos + Z.of_nat (length s)) t.
Proof. intros (H1 & H2 & H3). rewrite length_app in H2. repeat split; lia. Qed.

Lemma strip_eq bs t : Forall (fun c => blank c = true) bs -> Forall (fun c => blank c = false) (take 1 t) ->
  forall fuel len a pos rest ev, (length bs < fuel)%nat -> at_text len pos (bs ++ t) ->
  strip_loop fuel len (length a) pos (mkMsh (a ++ (bs ++ t) ++ 0 :: rest) ev) =
  Some ((length (a ++ bs), pos + Z.of_nat (length bs)), mkMsh ((a ++ replicate (length bs) 0) ++ t ++ 0 :: rest) ev).
Proof.
  intros Hbs Ht. induction Hbs as [|c bs Hc Hbs IH]; intros fuel len a pos rest ev Hf Hp.
  - destruct fuel; [cbn in Hf; lia|]. cbn [strip_loop replicate length app]. rewrite !app_nil_r, Z.add_0_r.
    destruct t as [|c t]; cbn [app]; [run (rd_eq a 0 rest ev)|run (rd_eq a c (t ++ 0 :: rest) ev)].
    + done.
    + inversion Ht as [|?? Hc]. by rewrite Hc.
  - destruct fuel as [|fuel]; [cbn in Hf; lia|]. cbn [strip_loop replicate length app].
    run (rd_eq a c ((bs ++ t) ++ 0 :: rest) ev). rewrite Hc, (proj1 (at_text_in _ _ _ _ Hp)). cbn [andb negb].
    run (wr_eq a c 0 ((bs ++ t) ++ 0 :: rest) ev). destruct (at_text_next _ _ _ _ Hp) as [-> Hp'].
    rewrite cons_snoc, <- (length_snoc a 0), (IH fuel len (a ++ [0]) (pos + 1) rest ev) by (done || (cbn in Hf; lia)).
    do 2 f_equal; [f_equal; [rewrite !length_app; cbn; lia|lia]|]. by rewrite <- !app_assoc.
Qed.

Lemma word_eq w t : Forall (fun c => negb (blank c) = true) w -> Forall (fun c => negb (blank c) = false) (take 1 t) ->
  forall fuel len a pos rest ev, (length w < fuel)%nat -> at_text len pos (w ++ t) ->
  word_loop fuel len (length a) pos (mkMsh (a ++ (w ++ t) ++ 0 :: rest) ev) =
  Some ((length (a ++ w), pos + Z.of_nat (length w)), mkMsh (a ++ (w ++ t) ++ 0 :: rest) ev).
Proof.
  intros Hw Ht. induction Hw as [|c w Hc Hw IH]; intros fuel len a pos rest ev Hf Hp.
  - destruct fuel; [cbn in Hf; lia|]. cbn [word_loop length app]. rewrite !app_nil_r, Z.add_0_r.
    destruct t as [|c t]; cbn [app]; [run (rd_eq a 0 rest ev)|run (rd_eq a c (t ++ 0 :: rest) ev)].
    + by rewrite (proj1 (at_text_end _ _ Hp)).
    + inversion Ht as [|?? Hc]. by rewrite Hc.
  - destruct fuel as [|fuel]; [cbn in Hf; lia|]. cbn [word_loop length app].
    run (rd_eq a c ((w ++ t) ++ 0 :: rest) ev). rewrite Hc, (proj1 (at_text_in _ _ _ _ Hp)). cbn [andb negb].
    destruct (at_text_next _ _ _ _ Hp) as [-> Hp'].
    rewrite cons_snoc, <- (length_snoc a c), (IH fuel len (a ++ [c]) (pos + 1) rest ev) by (done || (cbn in Hf; lia)).
    do 2 f_equal. f_equal; [rewrite !length_app; cbn; lia|lia].
Qed.

(** One turn of the loop over a string: a character, or a quote that a backslash hides. *)
Definition string_unit (u t : list Z) : Prop :=
  u = [backslash; quote] \/ exists c, u = [c] /\ c ≠ quote /\ ~ (c = backslash /\ take 1 t = [quote]).
Lemma string_unit_at c t : c ≠ quote -> exists u t', c :: t = u ++ t' /\ string_unit u t' /\ (0 < length u)%nat.
Proof.
  intros Hc. destruct (decide (c = backslash /\ take 1 t = [quote])) as [[-> Ht]|Hn].
  - destruct t as [|d t]; [done|]. injection Ht as ->. exists [backslash; quote], t. split; [done|]. split; [by left|cbn; lia].
  - exists [c], t. split; [done|]. split; [right; by exists c|cbn; lia].
Qed.
Lemma string_unit_words u t acc : string_unit u t -> words (InString acc) (u ++ t) = words (InString (acc ++ u)) t.
Proof.
  intros [->|(c & -> & Hc & Hn)]; [done|]. cbn [app words]. rewrite (proj2 (Z.eqb_neq c quote) Hc).
  destruct t as [|d t]; [done|]. destruct (Z.eqb_spec c backslash) as [->|]; cbn [andb]; [|done].
  destruct (Z.eqb_spec d quote) as [->|]; [|done]. by destruct Hn.
Qed.
Lemma string_unit_step u t len pos fuel a rest ev : string_unit u t -> at_text len pos (u ++ t) ->
  string_loop (S fuel) len (length a) pos (mkMsh (a ++ (u ++ t) ++ 0 :: rest) ev) =
  string_loop fuel len (length (a ++ u)) (pos + Z.of_nat (length u)) (mkMsh ((a ++ u) ++ t ++ 0 :: rest) ev).
Proof.
  intros Hu Hp. cbn [string_loop]. destruct Hu as [->|(c & -> & Hc & Hn)]; cbn [app] in Hp |- *.
  - destruct (at_text_next _ _ _ _ Hp) as [Hu Hp'], (at_text_next _ _ _ _ (proj2 (at_text_next _ _ _ _ Hp))) as [Hu' _].
    run (rd_eq a backslash (quote :: t ++ 0 :: rest) ev). rewrite (proj1 (at_text_in _ _ _ _ Hp)).
    rewrite (cons_snoc a backslash (quote :: t ++ 0 :: rest)), <- (length_snoc a backslash). cbn [Z.eqb backslash quote negb andb Pos.eqb].
    rewrite (bind_some _ _ _ (length (a ++ [backslash]), pos + 1) (mkMsh ((a ++ [backslash]) ++ quote :: t ++ 0 :: rest) ev)).
    2: { change (if true then ?x else _) with x. run (rd_eq (a ++ [backslash]) quote (t ++ 0 :: rest) ev). by rewrite Hu. }
    rewrite Hu', (cons_snoc (a ++ [backslash]) quote (t ++ 0 :: rest)), <- (length_snoc (a ++ [backslash]) quote), <- !(app_assoc a). f_equal. cbn. lia.
  - destruct (at_text_next _ _ _ _ Hp) as [Hu Hp']. run (rd_eq a c (t ++ 0 :: rest) ev).
    rewrite (proj1 (at_text_in _ _ _ _ Hp)), (proj2 (Z.eqb_neq c quote) Hc). cbn [negb andb].
    rewrite (cons_snoc a c (t ++ 0 :: rest)), <- (length_snoc a c).
    rewrite (bind_some _ _ _ (length a, pos) (mkMsh ((a ++ [c]) ++ t ++ 0 :: rest) ev)); [by rewrite Hu, length_snoc|].
    destruct (Z.eqb_spec c backslash) as [->|]; [|done].
    destruct t as [|d t]; cbn [app]; [by run (rd_eq (a ++ [backslash]) 0 rest ev)|].
    run (rd_eq (a ++ [backslash]) d (t ++ 0 :: rest) ev). destruct (Z.eqb_spec d quote) as [->|]; [by destruct Hn|done].
Qed.

(** A string up to its closing quote, or to the end of the line. *)
Lemma string_eq len rest ev n : forall t, (length t < n)%nat -> forall a pos acc, at_text len pos t ->
  exists s t2, t = s ++ t2 /\
    string_loop n len (length a) pos (mkMsh (a ++ t ++ 0 :: rest) ev) =
      Some ((length (a ++ s), pos + Z.of_nat (length s)), mkMsh (a ++ t ++ 0 :: rest) ev) /\
    ((t2 = [] /\ words (InString acc) t = [acc ++ s]) \/
     (exists t3, t2 = quote :: t3 /\ words (InString acc) t = (acc ++ s) :: words Between t3)).
Proof.
  induction n as [|n IH]; [lia|]. intros t Hn a pos acc Hp. destruct t as [|c t].
  - exists [], []. split; [done|]. cbn [string_loop app length]. run (rd_eq a 0 rest ev). rewrite (proj1 (at_text_end _ _ Hp)).
    rewrite andb_false_r, !app_nil_r, Z.add_0_r. split; [done|]. by left.
  - destruct (decide (c = quote)) as [->|Hq].
    + exists [], (quote :: t). split; [done|]. cbn [string_loop app length]. run (rd_eq a quote (t ++ 0 :: rest) ev).
      cbn [quote Z.eqb negb andb Pos.eqb]. rewrite !app_nil_r, Z.add_0_r. split; [done|]. right. by exists t.
    + destruct (string_unit_at c t Hq) as (u & t' & E & Hu & Hl). rewrite E in *. rewrite length_app in Hn.
      destruct (IH t' ltac:(lia) (a ++ u) (pos + Z.of_nat (length u)) (acc ++ u) (at_text_app _ _ _ _ Hp)) as (s & t2 & -> & Hrun & Hw).
      exists (u ++ s), t2. split; [by rewrite app_assoc|]. split.
      * rewrite (string_unit_step u (s ++ t2)) by done. rewrite Hrun. by rewrite <- !app_assoc, (length_app u s), Nat2Z.inj_add, Z.add_assoc.
      * rewrite (string_unit_words u (s ++ t2)) by done. by rewrite !app_assoc.
Qed.

(** Words and blanks. *)
Definition stops (t : list Z) : Prop := Forall (fun c => negb (blank c) = false) (take 1 t).
Lemma words_blanks bs t : Forall (fun c => blank c = true) bs -> words Between (bs ++ t) = words Between t.
Proof. induction 1 as [|c bs Hc Hbs IH]; [done|]. cbn. by rewrite Hc. Qed.
Lemma words_word w t : Forall (fun c => negb (blank c) = true) w -> stops t ->
  forall acc, words (InWord acc) (w ++ t) = (acc ++ w) :: words Between t.
Proof.
  intros Hw Ht. induction Hw as [|c w Hc Hw IH]; intros acc; cbn [app].
  - rewrite app_nil_r. destruct t as [|c t]; [done|]. inversion Ht as [|?? Hc]. apply negb_false_iff in Hc. cbn. by rewrite Hc.
  - apply negb_true_iff in Hc. cbn [words]. rewrite Hc, IH. by rewrite <- app_assoc.
Qed.

(** The argument at [p] of a buffer. *)
Definition arg_at buf (p : nat) (w : list Z) : Prop := cstr (drop p buf) = Some w.

Lemma arg_at_app a s rest : nonzero s -> arg_at (a ++ s ++ 0 :: rest) (length a) s.
Proof. intros. unfold arg_at. by rewrite drop_app_length, cstr_app. Qed.

Lemma print_args_eq buf argv : Forall (fun p => is_Some (cstr (drop p buf))) argv ->
  forall ev, exists l, print_args argv (mkMsh buf ev) = Some (tt, mkMsh buf (ev ++ l)).
Proof.
  induction 1 as [|p argv [s Hs] _ IH]; intros ev; [exists []; by rewrite app_nil_r|]. cbn [print_args].
  unfold rdstr. rewrite (bind_some _ _ _ s (mkMsh buf ev)) by (unfold deref; cbn [m_buf]; by rewrite Hs).
  run (kputs_eq (s ++ text " ") (mkMsh buf ev)). cbn [m_buf m_ev].
  destruct (IH (ev ++ [Print (take (Z.to_nat (RT_CONSOLEBUF_SIZE - 1)) (s ++ text " "))])) as [l ->]. eexists. by rewrite <- app_assoc.
Qed.

Lemma too_many_eq buf argv ev : Forall (fun p => is_Some (cstr (drop p buf))) argv ->
  exists l, too_many argv (mkMsh buf ev) = Some (tt, mkMsh buf (ev ++ l)).
Proof.
  intros Ha. unfold too_many. run (kputs_eq (text "Too many args ! We only Use:" ++ newline) (mkMsh buf ev)). cbn [m_buf m_ev].
  destruct (print_args_eq buf argv Ha (ev ++ [Print (take (Z.to_nat (RT_CONSOLEBUF_SIZE - 1)) (text "Too many args ! We only Use:" ++ newline))])) as [l E].
  run E. rewrite kputs_eq. eexists. cbn [m_buf m_ev]. by rewrite <- !app_assoc.
Qed.

(** What [split_loop] does with the text [t] at [a], and [n] arguments already there. *)
Definition split_result a t rest (ev : list event) (n : nat) (argv : list nat) (r : option (list nat * msh)) : Prop :=
  exists t' new warn, r = Some (argv ++ new, mkMsh (a ++ t' ++ 0 :: rest) (ev ++ warn)) /\ length t' = length t /\
    (stops t -> exists r, t' ++ 0 :: rest = 0 :: r) /\
    Forall2 (arg_at (a ++ t' ++ 0 :: rest)) new (take (10 - n) (words Between t)) /\
    ((n + length (words Between t) < 10)%nat -> warn = []).

Lemma split_result_nil a rest ev n argv : split_result a [] rest ev n argv (Some (argv, mkMsh (a ++ 0 :: rest) ev)).
Proof.
  exists [], [], []. rewrite !app_nil_r. split; [done|]. split; [done|]. split; [by eexists|]. split; [|done]. cbn [words]. by rewrite take_nil.
Qed.

Lemma split_result_stop a bs t rest ev n argv warn : Forall (fun c => blank c = true) bs -> Forall (fun c => blank c = false) (take 1 t) ->
  t = [] /\ warn = [] \/ (10 <= n)%nat ->
  split_result a (bs ++ t) rest ev n argv (Some (argv, mkMsh ((a ++ replicate (length bs) 0) ++ t ++ 0 :: rest) (ev ++ warn))).
Proof.
  intros Hbs Ht Hn. exists (replicate (length bs) 0 ++ t), [], warn. rewrite !app_nil_r, <- !app_assoc. split; [done|].
  split; [by rewrite !length_app, length_replicate|]. split; [|split].
  - intros Hst. destruct Hbs as [|c bs]; [|by eexists]. destruct t as [|c t]; [by eexists|].
    inversion Ht as [|?? Hc]; inversion Hst as [|?? Hc']. cbn in Hc'. by rewrite Hc in Hc'.
  - rewrite words_blanks by done. destruct Hn as [[-> _]| ]; [cbn [words]; by rewrite take_nil|]. by replace (10 - n)%nat with O by lia.
  - intros. destruct Hn as [[_ ->]| ]; [done|lia].
Qed.

(** One argument [w], in front of what the rest of the text gives. *)
Lemma split_result_cons a m1 w m2 t t3 rest ev n argv r : (n < 10)%nat -> nonzero w ->
  words Between t = w :: words Between t3 -> length t = (length (m1 ++ w ++ m2) + length t3)%nat ->
  (stops t -> take 1 m1 = [0]) -> (m2 = [] /\ stops t3 \/ take 1 m2 = [0]) ->
  split_result (a ++ m1 ++ w ++ m2) t3 rest ev (S n) (argv ++ [length (a ++ m1)]) r -> split_result a t rest ev n argv r.
Proof.
  intros Hn Hnz Hw Hlen Hst Hm2 (t' & new & warn & -> & Hl & Hhd & Hargs & Hwarn).
  exists (m1 ++ w ++ m2 ++ t'), (length (a ++ m1) :: new), warn. rewrite <- !app_assoc in *. split; [done|].
  split; [rewrite Hlen, !length_app; lia|]. split; [|split].
  - intros Hs. specialize (Hst Hs). destruct m1 as [|c m1]; [done|]. injection Hst as ->. by eexists.
  - rewrite Hw. replace (10 - n)%nat with (S (10 - S n)) by lia. constructor; [|done].
    assert (exists r, m2 ++ t' ++ 0 :: rest = 0 :: r) as [r Hr].
    { destruct Hm2 as [[-> Ht3]|Hm2]; [by apply Hhd|]. destruct m2 as [|c m2]; [done|]. injection Hm2 as ->. by eexists. }
    rewrite Hr, app_assoc. by apply arg_at_app.
  - intros Hc. apply Hwarn. rewrite Hw in Hc. cbn [length] in Hc. lia.
Qed.

(** One turn of the loop on a string, and on a word, when the rest of the loop is as claimed. *)
Definition split_claim (fuel : nat) (len : Z) rest : Prop := forall t a pos argv ev,
  (length t < fuel)%nat -> nonzero t -> at_text len pos t -> Forall (fun p => (p <= length a)%nat) argv ->
  split_result a t rest ev (length argv) argv (split_loop fuel len (length a) pos argv (mkMsh (a ++ t ++ 0 :: rest) ev)).

Lemma args_bound (a b : list Z) argv : Forall (fun p => (p <= length a)%nat) argv ->
  Forall (fun p => (p <= length (a ++ b))%nat) argv.
Proof. intros. eapply Forall_impl; [done|]. intros p Hp. cbn in *. rewrite length_app. lia. Qed.
Lemma args_snoc (a b c : list Z) argv : Forall (fun p => (p <= length a)%nat) argv ->
  Forall (fun p => (p <= length (a ++ b ++ c))%nat) (argv ++ [length (a ++ b)]).
Proof. intros. apply Forall_app. split; [by apply args_bound|]. constructor; [|done]. rewrite !length_app. lia. Qed.

Lemma split_string fuel len rest z u a pos argv ev : split_claim fuel len rest -> take 1 z = [0] \/ z = [] ->
  (length u < fuel)%nat -> nonzero u -> at_text len pos u -> (length argv < 10)%nat -> Forall (fun p => (p <= length a)%nat) argv ->
  forall t, words Between t = words (InString []) u -> length t = (length z + 1 + length u)%nat -> (stops t -> take 1 z = [0]) ->
  split_result a t rest ev (length argv) argv
    (('(ptr, position) ← string_loop (S fuel) len (length ((a ++ z) ++ [quote])) pos;
     if len <=? position then mret (argv ++ [length ((a ++ z) ++ [quote])])
     else wr ptr 0 ;; split_loop fuel len (ptr + 1) (u32 (position + 1)) (argv ++ [length ((a ++ z) ++ [quote])]))
    (mkMsh (((a ++ z) ++ [quote]) ++ u ++ 0 :: rest) ev)).
Proof.
  intros IH Hz Hf Hnz Hp Hn Hargv t Hw Hl Hst.
  destruct (string_eq len rest ev (S fuel) u ltac:(lia) ((a ++ z) ++ [quote]) pos [] Hp) as (s & t2 & -> & Hrun & Hcase).
  run Hrun. pose proof (at_text_app _ _ _ _ Hp) as Hp2. rewrite (length_app s t2) in Hf, Hl. apply Forall_app in Hnz as [Hs Ht2].
  destruct Hcase as [[-> Hws]|(t3 & -> & Hws)].
  - rewrite (proj2 (at_text_end _ _ Hp2)). rewrite Hws in Hw.
    apply (split_result_cons a (z ++ [quote]) s [] t [] rest ev _ argv); try done.
    + cbn [length] in *. rewrite !length_app. cbn. lia.
    + intros Hs'. destruct Hz as [Hz | ->]; [|by specialize (Hst Hs')]. by destruct z.
    + left. split; [done|constructor].
    + rewrite !app_nil_r, !app_assoc. apply split_result_nil.
  - rewrite (proj2 (at_text_in _ _ _ _ Hp2)). rewrite Hws in Hw. destruct (at_text_next _ _ _ _ Hp2) as [-> Hp3].
    replace (((a ++ z) ++ [quote]) ++ (s ++ quote :: t3) ++ 0 :: rest) with ((((a ++ z) ++ [quote]) ++ s) ++ quote :: t3 ++ 0 :: rest)
      by (by rewrite <- !app_assoc).
    run (wr_eq (((a ++ z) ++ [quote]) ++ s) quote 0 (t3 ++ 0 :: rest) ev).
    rewrite (cons_snoc _ 0 (t3 ++ 0 :: rest)), <- (length_snoc _ 0).
    apply (split_result_cons a (z ++ [quote]) s [0] t t3 rest ev _ argv); try done.
    + cbn [length] in *. rewrite !length_app. cbn. lia.
    + intros Hs'. destruct Hz as [Hz | ->]; [|by specialize (Hst Hs')]. by destruct z.
    + by right.
    + replace (a ++ (z ++ [quote]) ++ s ++ [0]) with ((((a ++ z) ++ [quote]) ++ s) ++ [0]) by (by rewrite <- !app_assoc).
      replace (length (a ++ z ++ [quote])) with (length ((a ++ z) ++ [quote])) by (by rewrite app_assoc).
      rewrite <- (Nat.add_1_r (length argv)), <- (length_snoc argv (length ((a ++ z) ++ [quote]))).
      apply IH; [cbn in *; lia|by apply Forall_cons in Ht2 as [_ ?]|done|]. 
      replace ((((a ++ z) ++ [quote]) ++ s) ++ [0]) with ((a ++ z) ++ [quote] ++ (s ++ [0])) by (by rewrite <- !app_assoc).
      apply args_snoc. by apply args_bound.
Qed.

Lemma split_word fuel len rest z c u a pos argv ev : split_claim fuel len rest ->
  (length (c :: u) <= fuel)%nat -> nonzero (c :: u) -> at_text len pos (c :: u) -> (length argv < 10)%nat ->
  Forall (fun p => (p <= length a)%nat) argv -> blank c = false -> c ≠ quote ->
  forall t, words Between t = words Between (c :: u) -> length t = (length z + length (c :: u))%nat -> (stops t -> take 1 z = [0]) ->
  split_result a t rest ev (length argv) argv
    (('(ptr, position) ← word_loop (S fuel) len (length (a ++ z)) pos;
      if len <=? position then mret (argv ++ [length (a ++ z)])
      else split_loop fuel len ptr position (argv ++ [length (a ++ z)]))
    (mkMsh ((a ++ z) ++ (c :: u) ++ 0 :: rest) ev)).
Proof.
  intros IH Hf Hnz Hp Hn Hargv Hc Hq t Hw Hl Hst.
  destruct (span (fun x => negb (blank x)) u) as (w & t3 & -> & Hword & Ht3).
  assert (Hcw : Forall (fun x => negb (blank x) = true) (c :: w)) by (constructor; [by rewrite Hc|done]).
  run (word_eq (c :: w) t3 Hcw Ht3 (S fuel) len (a ++ z) pos rest ev ltac:(cbn in *; rewrite length_app in Hf; lia) Hp).
  pose proof (at_text_app _ (pos) (c :: w) t3 Hp) as Hp2. change (c :: w ++ t3) with ((c :: w) ++ t3) in *.
  rewrite (length_app (c :: w) t3) in Hf, Hl. apply Forall_app in Hnz as [Hs Hnz3].
  assert (Hws : words Between t = (c :: w) :: words Between t3).
  { rewrite Hw. cbn [app words]. rewrite Hc, (proj2 (Z.eqb_neq c quote) Hq). rewrite (words_word w t3 Hword Ht3). done. }
  apply (split_result_cons a z (c :: w) [] t t3 rest ev _ argv); try done.
  - rewrite app_nil_r, length_app. lia.
  - by left.
  - rewrite app_nil_r. rewrite (app_assoc a z (c :: w)). destruct t3 as [|d t3].
    + rewrite (proj2 (at_text_end _ _ Hp2)), app_nil_r, app_assoc. apply split_result_nil.
    + rewrite (proj2 (at_text_in _ _ _ _ Hp2)).
      replace ((a ++ z) ++ ((c :: w) ++ d :: t3) ++ 0 :: rest) with (((a ++ z) ++ (c :: w)) ++ (d :: t3) ++ 0 :: rest)
        by (by rewrite <- !app_assoc).
      rewrite <- (Nat.add_1_r (length argv)), <- (length_snoc argv (length (a ++ z))).
      apply IH; [cbn in *; lia|done|done|]. rewrite <- (app_assoc a z (c :: w)). by apply args_snoc.
Qed.

Lemma split_loop_spec len rest fuel : split_claim fuel len rest.
Proof.
  induction fuel as [|fuel IH]; intros t a pos argv ev Hf Hnz Hp Hargv; [lia|]. cbn [split_loop]. destruct t as [|c t].
  { rewrite (proj1 (at_text_end _ _ Hp)). apply split_result_nil. }
  rewrite (proj1 (at_text_in _ _ _ _ Hp)). destruct (span blank (c :: t)) as (bs & u & E & Hbs & Hu). rewrite E in *. clear c t E.
  run (strip_eq bs u Hbs Hu (S fuel) len a pos rest ev ltac:(rewrite length_app in Hf; lia) Hp).
  pose proof (at_text_app _ _ _ _ Hp) as Hp1. rewrite length_app in Hf. apply Forall_app in Hnz as [_ Hnz].
  destruct (Z.leb_spec FINSH_ARG_MAX (Z.of_nat (length argv))) as [Hmax|Hmax]; unfold FINSH_ARG_MAX in Hmax.
  { destruct (too_many_eq ((a ++ replicate (length bs) 0) ++ u ++ 0 :: rest) argv ev) as [warn Hw].
    - eapply Forall_impl; [done|]. intros p Hle. apply cstr_some. cbn in Hle.
      rewrite drop_app_le, drop_app_le by (rewrite ?length_app; lia). apply elem_of_app. right. apply elem_of_app. right. by left.
    - run Hw. apply split_result_stop; [done|done|]. right. lia. }
  destruct u as [|c u].
  { rewrite (proj2 (at_text_end _ _ Hp1)). rewrite <- (app_nil_r ev) at 2. apply split_result_stop; [done|done|]. by left. }
  rewrite (proj2 (at_text_in _ _ _ _ Hp1)). inversion Hu as [|?? Hc]; subst.
  assert (Hl : length (a ++ bs) = length (a ++ replicate (length bs) 0)) by (by rewrite !length_app, length_replicate). rewrite Hl. clear Hl.
  run (rd_eq (a ++ replicate (length bs) 0) c (u ++ 0 :: rest) ev).
  assert (Hst : forall v, stops (bs ++ c :: v) -> take 1 (replicate (length bs) 0) = [0]).
  { intros v Hs. destruct bs; [|done]. inversion Hs as [|?? Hc']. by rewrite Hc in Hc'. }
  destruct (Z.eqb_spec c quote) as [->|Hq].
  - destruct (at_text_next _ _ _ _ Hp1) as [-> Hp2]. rewrite (cons_snoc _ quote (u ++ 0 :: rest)), <- (length_snoc _ quote).
    apply (split_string fuel len rest (replicate (length bs) 0) u a); try done.
    + destruct bs; [by right|by left].
    + cbn in Hf. lia.
    + by apply Forall_cons in Hnz as [_ ?].
    + lia.
    + by apply words_blanks.
    + rewrite length_app, length_replicate. cbn. lia.
    + apply Hst.
  - apply (split_word fuel len rest (replicate (length bs) 0) c u a); try done.
    + cbn in *. lia.
    + lia.
    + by apply words_blanks.
    + by rewrite length_app, length_replicate.
    + apply Hst.
Qed.
End buffers.

(** A line of exactly ten arguments with a blank behind it is reported to have too many. *)
Lemma ten_arguments_reported :
  let line := text "1 2 3 4 5 6 7 8 9 0 " in
  (fun r => (length (fst r), take 1 (m_ev (snd r)))) <$> msh_split 30 0 (Z.of_nat (length line)) (mkMsh (line ++ [0]) []) =
    Some (10%nat, [Print (text "Too many args ! We only Use:" ++ newline)]).
Proof. by vm_compute. Qed.
