(* ===== verification/MshRun.v ===== *)
(** * MshRun: running commands and scripts, rt-thread/components/finsh/msh.c and msh_file.c

    [msh_exec] runs the command of a line or the script of that name.  What a command does is
    a parameter, and so are the files that can be opened and the memory there is. *)

From Stdlib Require Import Ascii String.
From S2P Require Import Prelude Msh.

#[local] Open Scope Z_scope.

(** ** Running *)

Section commands.
(** The table of the exported functions. *)
Context (syscalls : list finsh_syscall).
(** What a function returns for its arguments. *)
Context (result : Z -> list nat -> list Z -> Z).

Definition msh_get_cmd (size : nat) (cmd : list Z) : option Z :=
  func <$> List.find (fun index => is_cmd (name index) && strncmp_eq size (cmd_name (name index)) cmd &&
                        bool_decide ((cmd_name (name index) ++ [0]) !! size = Some 0)) syscalls.

(** The size of the first word, [cmd0_size] and [cmd_length]. *)
Fixpoint cmd0_loop (fuel : nat) (cmd : nat) (length size : Z) : W Z :=
  match fuel with
  | O => fault
  | S fuel =>
      c ← rd (cmd + Z.to_nat size);
      if negb (blank c) && (size <? length) then cmd0_loop fuel cmd length (u32 (size + 1)) else mret size
  end.

(** The bytes [cmd[0] .. cmd[size - 1]]. *)
Definition rdbytes (cmd size : nat) : W (list Z) := deref (fun s =>
  if decide (cmd + size <= length (m_buf s))%nat then Some (take size (drop cmd (m_buf s))) else None).

(** [_msh_exec_cmd]: what it returns, and what it stores at [retp]. *)
Definition _msh_exec_cmd (fuel : nat) (cmd : nat) (length : Z) : W (Z * Z) :=
  cmd0_size ← cmd0_loop fuel cmd length 0;
  if cmd0_size =? 0 then mret (- RT_ERROR, 0)
  else
    word ← rdbytes cmd (Z.to_nat cmd0_size);
    match msh_get_cmd (Z.to_nat cmd0_size) word with
    | None => mret (- RT_ERROR, 0)
    | Some cmd_func =>
        argv ← msh_split fuel cmd length;
        if bool_decide (argv = []) then mret (- RT_ERROR, 0)
        else
          buf ← gets m_buf;
          event_add (Call cmd_func argv buf) ;;
          mret (0, result cmd_func argv buf)
    end.

(** ** Scripts *)

(** The bytes of the files that [open] finds, the memory that [rt_malloc] has, and what is in
    the line buffer before it is written. *)
Context (open : list Z -> option (list Z)) (malloc : Z -> bool) (fresh : list Z).

(** [read(fd, &ch, 1)] until a character that does not end a line. *)
Fixpoint skip_newlines (file : list Z) : option (Z * list Z) :=
  match file with
  | [] => None
  | ch :: file => if (ch =? 10) || (ch =? 13) then skip_newlines file else Some (ch, file)
  end.

(** [while (index < size)]; the result is [index] and the rest of the file. *)
Fixpoint readline_loop (size : nat) (file : list Z) (index : nat) : W (nat * list Z) :=
  if decide (index < size)%nat then
    match file with
    | ch :: file =>
        if (ch =? 10) || (ch =? 13) then wr index 0 ;; mret (index, file)
        else wr index ch ;; readline_loop size file (index + 1)
    | [] => wr index 0 ;; mret (index, [])
    end
  else mret (index, file).

Definition msh_readline (size : nat) (file : list Z) : W (nat * list Z) :=
  match skip_newlines file with
  | None => mret (0%nat, [])
  | Some (ch, file) => wr 0 ch ;; readline_loop size file 1
  end.

(** The first character of the line that is not blank, or the last one. *)
Fixpoint first_char (n index : nat) (ch : Z) : W Z :=
  match n with
  | O => mret ch
  | S n => ch ← rd index; if blank ch then first_char n (index + 1) ch else mret ch
  end.

(** [strstr(s, pat) != RT_NULL] *)
Fixpoint contains (pat s : list Z) : bool :=
  bool_decide (take (length pat) s = pat) || match s with [] => false | _ :: s => contains pat s end.

Section script.
Context (exec : nat -> Z -> W Z).

(** [do { .. } while (length > 0)], in the buffer of the script. *)
Fixpoint script_loop (fuel : nat) (file : list Z) : W unit :=
  match fuel with
  | O => fault
  | S fuel =>
      '(n, file) ← msh_readline (Z.to_nat RT_CONSOLEBUF_SIZE) file;
      if decide (0 < n)%nat then
        ch ← first_char n 0 0;
        (if negb (ch =? 35) then _ ← exec 0%nat (Z.of_nat n); mret tt else mret tt) ;;
        script_loop fuel file
      else mret tt
  end.

(** [m] on a buffer of its own. *)
Definition with_buffer (buf : list Z) (m : W unit) : W unit := fun s =>
  match m (mkMsh buf (m_ev s)) with Some (_, s') => Some (tt, mkMsh (m_buf s) (m_ev s')) | None => None end.

Definition msh_exec_script (fuel : nat) (cmd_line : nat) (size : Z) : W Z :=
  if size =? 0 then mret (- RT_ERROR)
  else
    cmd_length ← cmd0_loop fuel cmd_line size 0;
    let length := cmd_length + 32 in
    if negb (malloc length) then mret (- RT_ENOMEM)
    else
      name ← rdbytes cmd_line (Z.to_nat cmd_length);
      pg_name ← deref (fun _ => cstr (name ++ [0]));
      let fd := if contains (text ".sh") pg_name || contains (text ".SH") pg_name
                then match open pg_name with Some file => Some file | None => open (text "/bin/" ++ pg_name) end
                else None in
      match fd with
      | None => mret (-1)
      | Some file =>
          if negb (malloc RT_CONSOLEBUF_SIZE) then mret (- RT_ENOMEM)
          else with_buffer fresh (script_loop (S (List.length file)) file) ;; mret 0
      end.
End script.

(** Stripping the blanks at the beginning of a command. *)
Fixpoint trim_loop (fuel : nat) (cmd : nat) (length : Z) : W (nat * Z) :=
  match fuel with
  | O => fault
  | S fuel => c ← rd cmd; if blank c then trim_loop fuel (cmd + 1) (u32 (length - 1)) else mret (cmd, length)
  end.

(** Where the command is truncated. *)
Fixpoint first_space (fuel : nat) (tcmd : nat) : W nat :=
  match fuel with
  | O => fault
  | S fuel => c ← rd tcmd; if negb (c =? 32) && negb (c =? 0) then first_space fuel (tcmd + 1) else mret tcmd
  end.

(** [depth] bounds the scripts that run each other, [fuel] the characters of a line. *)
Fixpoint msh_exec (depth fuel : nat) (cmd : nat) (length : Z) : W Z :=
  match depth with
  | O => fault
  | S depth =>
      '(cmd, length) ← trim_loop fuel cmd length;
      if length =? 0 then mret 0
      else
        '(r, cmd_ret) ← _msh_exec_cmd fuel cmd length;
        if r =? 0 then mret cmd_ret
        else
          r ← msh_exec_script (msh_exec depth fuel) fuel cmd length;
          if r =? 0 then mret 0
          else
            tcmd ← first_space fuel cmd;
            wr tcmd 0 ;;
            s ← rdstr cmd;
            kputs (s ++ text ": command not found." ++ newline) ;;
            mret (-1)
  end.

End commands.

(** ** Running a line *)

Fixpoint upto {A} (f : A -> bool) (l : list A) : list A :=
  match l with [] => [] | x :: l => if f x then [] else x :: upto f l end.
Fixpoint from {A} (f : A -> bool) (l : list A) : list A :=
  match l with [] => [] | x :: r => if f x then l else from f r end.
Lemma upto_from {A} (f : A -> bool) l : upto f l ++ from f l = l.
Proof. induction l as [|x l IH]; [done|]. cbn. destruct (f x); [done|]. cbn. by rewrite IH. Qed.
Lemma upto_all {A} (f : A -> bool) l : Forall (fun x => f x = false) (upto f l).
Proof. induction l as [|x l IH]; [by constructor|]. cbn. destruct (f x) eqn:E; by constructor. Qed.
Lemma from_head {A} (f : A -> bool) l : Forall (fun x => f x = true) (take 1 (from f l)).
Proof. induction l as [|x l IH]; [by constructor|]. cbn. destruct (f x) eqn:E; [by repeat constructor|done]. Qed.

Lemma strncmp_eq_full n a w : nonzero a -> nonzero w -> length w = n ->
  strncmp_eq n a w && bool_decide ((a ++ [0]) !! n = Some 0) = bool_decide (a = w).
Proof.
  intros Ha Hw <-. unfold strncmp_eq. rewrite (take_app_length w [0]). apply eq_true_iff_eq. rewrite andb_true_iff, !bool_decide_eq_true.
  split; [|intros ->; split; [by rewrite take_app_length|by rewrite list_lookup_middle]].
  intros [Ht H0]. destruct (decide (length a <= length w)%nat) as [Hle|Hgt].
  - assert (length w < length (a ++ [0%Z]))%nat as Hl by (apply lookup_lt_Some in H0; lia). rewrite length_app in Hl. cbn in Hl.
    rewrite take_app_le in Ht by lia. by rewrite take_ge in Ht by lia.
  - rewrite lookup_app_l in H0 by lia. apply list_elem_of_lookup_2 in H0. unfold nonzero in Ha. rewrite Forall_forall in Ha. by destruct (Ha 0 H0).
Qed.

Lemma is_cmd_name n : nonzero n -> is_cmd n = true <-> n = cmd_prefix ++ cmd_name n.
Proof.
  intros Hn. unfold is_cmd, strncmp_eq, cmd_name. rewrite bool_decide_eq_true. change (take 6 (cmd_prefix ++ [0])) with cmd_prefix. split.
  - intros H. destruct (decide (6 <= length n)%nat) as [Hle|Hgt].
    + rewrite take_app_le in H by done. rewrite <- H. by rewrite take_drop.
    + assert (0 ∈ take 6 (n ++ [0])) as H0.
      { rewrite take_app_ge by lia. apply elem_of_app. right. destruct (6 - length n)%nat eqn:E; [lia|]. by left. }
      rewrite H in H0. exfalso. clear -H0. repeat (apply elem_of_cons in H0 as [H0|H0]; [done|]). by apply elem_of_nil in H0.
  - intros ->. rewrite <- app_assoc. done.
Qed.

Definition named (w : list Z) (index : finsh_syscall) : bool := bool_decide (name index = cmd_prefix ++ w).

Lemma find_ext {A} (f g : A -> bool) l : Forall (fun x => f x = g x) l -> List.find f l = List.find g l.
Proof. induction 1 as [|x l Hx Hl IH]; [done|]. cbn. by rewrite Hx, IH. Qed.

Lemma msh_get_cmd_spec syscalls w : Forall (fun index => nonzero (name index)) syscalls -> nonzero w ->
  msh_get_cmd syscalls (length w) w = func <$> List.find (named w) syscalls.
Proof.
  intros Hs Hw. unfold msh_get_cmd. f_equal. apply find_ext. eapply Forall_impl; [done|]. intros index Hi. cbn beta in *.
  rewrite <- andb_assoc, strncmp_eq_full by (done || by apply Forall_drop). unfold named. apply eq_true_iff_eq.
  rewrite andb_true_iff, !bool_decide_eq_true, is_cmd_name by done. split; [intros [-> <-]; by rewrite <- ?app_assoc|].
  intros E. rewrite E. by change (cmd_name (cmd_prefix ++ w)) with w.
Qed.

Section lines.
Context (syscalls : list finsh_syscall) (result : Z -> list nat -> list Z -> Z).
Context (open : list Z -> option (list Z)) (malloc : Z -> bool) (fresh : list Z).
Implicit Types (a t rest : list Z) (ev : list event).


Lemma trim_eq bs t : Forall (fun c => blank c = true) bs -> Forall (fun c => blank c = false) (take 1 t) ->
  forall fuel a rest ev, (length bs < fuel)%nat -> Z.of_nat (length (bs ++ t)) < 2 ^ 32 ->
  trim_loop fuel (length a) (Z.of_nat (length (bs ++ t))) (mkMsh (a ++ (bs ++ t) ++ 0 :: rest) ev) =
  Some ((length (a ++ bs), Z.of_nat (length t)), mkMsh (a ++ (bs ++ t) ++ 0 :: rest) ev).
Proof.
  intros Hbs Ht. induction Hbs as [|c bs Hc Hbs IH]; intros fuel a rest ev Hf Hl; (destruct fuel as [|fuel]; [cbn in Hf; lia|]); cbn [trim_loop app length] in *.
  - rewrite app_nil_r. destruct t as [|c t]; cbn [app]; [by run (rd_eq a 0 rest ev)|]. run (rd_eq a c (t ++ 0 :: rest) ev).
    inversion Ht as [|?? Hc]. by rewrite Hc.
  - run (rd_eq a c ((bs ++ t) ++ 0 :: rest) ev). rewrite Hc. rewrite wrap_small by lia.
    replace (Z.of_nat (S (length (bs ++ t))) - 1) with (Z.of_nat (length (bs ++ t))) by lia.
    rewrite (cons_snoc a c), <- (length_snoc a c), IH by lia. do 3 f_equal. rewrite !length_app. cbn. lia.
Qed.

Lemma cmd0_eq w t : Forall (fun c => blank c = false) w -> Forall (fun c => blank c = true) (take 1 t) ->
  forall fuel len a v rest ev, (length w < fuel)%nat -> at_text len (Z.of_nat (length v)) (w ++ t) ->
  cmd0_loop fuel (length a) len (Z.of_nat (length v)) (mkMsh ((a ++ v) ++ (w ++ t) ++ 0 :: rest) ev) =
  Some (Z.of_nat (length (v ++ w)), mkMsh ((a ++ v) ++ (w ++ t) ++ 0 :: rest) ev).
Proof.
  intros Hw Ht. induction Hw as [|c w Hc Hw IH]; intros fuel len a v rest ev Hf Hp; (destruct fuel as [|fuel]; [cbn in Hf; lia|]);
    cbn [cmd0_loop app length] in *; rewrite Nat2Z.id, <- (length_app a v).
  - rewrite app_nil_r. destruct t as [|c t]; cbn [app].
    + run (rd_eq (a ++ v) 0 rest ev). by rewrite (proj1 (at_text_end _ _ Hp)).
    + run (rd_eq (a ++ v) c (t ++ 0 :: rest) ev). inversion Ht as [|?? Hc]. by rewrite Hc.
  - run (rd_eq (a ++ v) c ((w ++ t) ++ 0 :: rest) ev). rewrite Hc, (proj1 (at_text_in _ _ _ _ Hp)). cbn [negb andb].
    destruct (at_text_next _ _ _ _ Hp) as [-> Hp']. rewrite (cons_snoc (a ++ v) c), <- (app_assoc a v [c]).
    replace (Z.of_nat (length v) + 1) with (Z.of_nat (length (v ++ [c]))) in * by (rewrite length_snoc; lia).
    rewrite IH by (done || lia). by rewrite <- !app_assoc.
Qed.

Lemma first_space_eq w t : Forall (fun c => (c =? 32) = false) w -> Forall (fun c => (c =? 32) = true) (take 1 t) -> nonzero w ->
  forall fuel a rest ev, (length w < fuel)%nat ->
  first_space fuel (length a) (mkMsh (a ++ (w ++ t) ++ 0 :: rest) ev) = Some (length (a ++ w), mkMsh (a ++ (w ++ t) ++ 0 :: rest) ev).
Proof.
  intros Hw Ht. induction Hw as [|c w Hc Hw IH]; intros Hnz fuel a rest ev Hf; (destruct fuel as [|fuel]; [cbn in Hf; lia|]);
    cbn [first_space app length] in *.
  - rewrite app_nil_r. destruct t as [|c t]; cbn [app]; [by run (rd_eq a 0 rest ev)|].
    run (rd_eq a c (t ++ 0 :: rest) ev). inversion Ht as [|?? Hc]. by rewrite Hc.
  - apply Forall_cons in Hnz as [Hc0 Hnz]. run (rd_eq a c ((w ++ t) ++ 0 :: rest) ev). rewrite Hc, (proj2 (Z.eqb_neq c 0) Hc0). cbn [negb andb].
    rewrite (cons_snoc a c), <- (length_snoc a c), IH by (done || lia). by rewrite <- app_assoc.
Qed.

Lemma rdbytes_eq a w t rest ev :
  rdbytes (length a) (length w) (mkMsh (a ++ (w ++ t) ++ 0 :: rest) ev) = Some (w, mkMsh (a ++ (w ++ t) ++ 0 :: rest) ev).
Proof.
  unfold rdbytes, deref. cbn [m_buf]. rewrite decide_True by (rewrite !length_app; lia).
  by rewrite drop_app_length, <- app_assoc, take_app_length.
Qed.

(** The first word of a text that does not begin with a blank. *)
Lemma cmd0_word t fuel a rest ev : (length t < fuel)%nat -> Z.of_nat (length t) + 2 < 2 ^ 32 ->
  cmd0_loop fuel (length a) (Z.of_nat (length t)) 0 (mkMsh (a ++ t ++ 0 :: rest) ev) =
  Some (Z.of_nat (length (upto blank t)), mkMsh (a ++ t ++ 0 :: rest) ev).
Proof.
  intros Hf Hl. pose proof (upto_from blank t) as E. rewrite <- E in Hf, Hl.
  pose proof (cmd0_eq _ _ (upto_all blank t) (from_head blank t) fuel (Z.of_nat (length t)) a [] rest ev) as H.
  rewrite E, !app_nil_r in H. apply H; [rewrite length_app in Hf; lia|]. rewrite E in Hl. repeat split; cbn; lia.
Qed.

Lemma words_open n l st : (length l < n)%nat -> st ≠ Between -> words st l ≠ [].
Proof.
  revert l st. induction n as [|n IH]; intros l st Hn Hst; [lia|]. destruct l as [|c l]; [by destruct st|]. cbn [length] in Hn.
  destruct st as [|w|w]; [done| |]; cbn [words].
  - destruct (blank c); [done|]. apply IH; [lia|done].
  - destruct (c =? quote); [done|]. destruct l as [|d l]; [done|]. cbn [length] in Hn.
    destruct ((c =? backslash) && (d =? quote)); apply IH; cbn [length]; (lia || done).
Qed.

Lemma exec_cmd_eq t fuel a rest ev : (length t < fuel)%nat -> Z.of_nat (length t) + 2 < 2 ^ 32 -> nonzero t ->
  Forall (fun index => nonzero (name index)) syscalls -> Forall (fun c => blank c = false) (take 1 t) -> t ≠ [] ->
  match List.find (named (upto blank t)) syscalls with
  | Some index => exists argv t' warn,
      _msh_exec_cmd syscalls result fuel (length a) (Z.of_nat (length t)) (mkMsh (a ++ t ++ 0 :: rest) ev) =
        Some ((0, result (func index) argv (a ++ t' ++ 0 :: rest)),
              mkMsh (a ++ t' ++ 0 :: rest) (ev ++ warn ++ [Call (func index) argv (a ++ t' ++ 0 :: rest)])) /\
      length t' = length t /\ Forall2 (arg_at (a ++ t' ++ 0 :: rest)) argv (take 10 (words Between t)) /\
      ((length (words Between t) < 10)%nat -> warn = [])
  | None => _msh_exec_cmd syscalls result fuel (length a) (Z.of_nat (length t)) (mkMsh (a ++ t ++ 0 :: rest) ev) =
      Some ((- RT_ERROR, 0), mkMsh (a ++ t ++ 0 :: rest) ev)
  end.
Proof.
  intros Hf Hl Hnz Hs Hb Hne. set (w := upto blank t). assert (Hw : w ≠ []) by (destruct t as [|c t]; [done|]; inversion Hb as [|?? Hc]; unfold w; cbn; by rewrite Hc).
  assert (E : w ++ from blank t = t) by apply upto_from. assert (Hwnz : nonzero w) by (rewrite <- E in Hnz; by apply Forall_app in Hnz as [? _]).
  assert (Hrd : rdbytes (length a) (length w) (mkMsh (a ++ t ++ 0 :: rest) ev) = Some (w, mkMsh (a ++ t ++ 0 :: rest) ev)).
  { rewrite <- E. apply rdbytes_eq. }
  assert (Hcmd : msh_get_cmd syscalls (length w) w = func <$> List.find (named w) syscalls) by (by apply msh_get_cmd_spec).
  unfold _msh_exec_cmd. destruct (List.find (named w) syscalls) as [index|] eqn:Ef.
  - destruct (split_loop_spec (Z.of_nat (length t)) rest fuel t a 0 [] ev Hf Hnz) as (t' & argv & warn & Hrun & Hl' & _ & Hargs & Hwarn);
      [unfold at_text; lia|constructor|].
    exists argv, t', warn. split; [|by split]. run (cmd0_word t fuel a rest ev Hf Hl). fold w.
    rewrite (proj2 (Z.eqb_neq _ 0)), Nat2Z.id by (intros H0; apply Hw, nil_length_inv; lia). run Hrd. rewrite Hcmd. cbn [fmap option_fmap option_map].
    unfold msh_split. run Hrun. cbn [app]. rewrite bool_decide_eq_false_2; [by rewrite (app_assoc ev warn)|].
    intros ->. apply Forall2_nil_inv_l in Hargs. destruct t as [|c u]; [done|]. inversion Hb as [|?? Hc]. cbn [words] in Hargs. rewrite Hc in Hargs.
    apply (words_open (S (length u)) u (if c =? quote then InString [] else InWord [c])); [lia|by destruct (c =? quote)|].
    destruct (c =? quote); by destruct (words _ u).
  - run (cmd0_word t fuel a rest ev Hf Hl). fold w.
    rewrite (proj2 (Z.eqb_neq _ 0)), Nat2Z.id by (intros H0; apply Hw, nil_length_inv; lia). run Hrd. by rewrite Hcmd.
Qed.

(** A line that names neither a command nor a script. *)
Lemma script_skipped t exec fuel a rest ev : (length t < fuel)%nat -> Z.of_nat (length t) + 2 < 2 ^ 32 -> nonzero t ->
  contains (text ".sh") (upto blank t) = false -> contains (text ".SH") (upto blank t) = false ->
  exists r, r ≠ 0 /\ msh_exec_script open malloc fresh exec fuel (length a) (Z.of_nat (length t)) (mkMsh (a ++ t ++ 0 :: rest) ev) =
    Some (r, mkMsh (a ++ t ++ 0 :: rest) ev).
Proof.
  intros Hf Hl Hnz H1 H2. unfold msh_exec_script. destruct (Z.eqb_spec (Z.of_nat (length t)) 0); [by exists (- RT_ERROR)|].
  run (cmd0_word t fuel a rest ev Hf Hl). destruct (malloc _); cbn [negb]; [|by exists (- RT_ENOMEM)].
  set (w := upto blank t) in *. assert (E : w ++ from blank t = t) by apply upto_from. exists (-1). split; [done|].
  assert (Hrd : rdbytes (length a) (length w) (mkMsh (a ++ t ++ 0 :: rest) ev) = Some (w, mkMsh (a ++ t ++ 0 :: rest) ev)).
  { rewrite <- E. apply rdbytes_eq. }
  rewrite Nat2Z.id. run Hrd. rewrite (bind_some _ _ _ w (mkMsh (a ++ t ++ 0 :: rest) ev)).
  - by rewrite H1, H2.
  - unfold deref. rewrite cstr_app; [done|]. rewrite <- E in Hnz. by apply Forall_app in Hnz as [? _].
Qed.

Lemma not_found_eq t fuel a rest ev : (length t < fuel)%nat -> nonzero t ->
  exists t', (tcmd ← first_space fuel (length a); wr tcmd 0 ;; s ← rdstr (length a); kputs (s ++ text ": command not found." ++ newline) ;; mret (-1))
    (mkMsh (a ++ t ++ 0 :: rest) ev) =
  Some (-1, mkMsh (a ++ t' ++ 0 :: rest)
    (ev ++ [Print (take (Z.to_nat (RT_CONSOLEBUF_SIZE - 1)) (upto (fun c => c =? 32) t ++ text ": command not found." ++ newline))])) /\ length t' = length t.
Proof.
  intros Hf Hnz. set (w := upto _ t). set (u := from (fun c => c =? 32) t). assert (E : w ++ u = t) by apply upto_from.
  pose proof (upto_all (fun c => c =? 32) t : Forall _ w) as Hw. pose proof (from_head (fun c => c =? 32) t : Forall _ (take 1 u)) as Hu.
  rewrite <- E in Hf, Hnz |- *. rewrite length_app in Hf. apply Forall_app in Hnz as [Hwnz _].
  run (first_space_eq w u Hw Hu Hwnz fuel a rest ev ltac:(lia)).
  assert (exists x v, u ++ 0 :: rest = x :: v) as (x & v & Ev) by (destruct u; eauto).
  assert (Hend : exists t', (a ++ w) ++ 0 :: v = a ++ t' ++ 0 :: rest /\ length t' = length (w ++ u)).
  { destruct u as [|d u]; cbn in Ev; injection Ev as <- <-; [exists w; by rewrite <- app_assoc, app_nil_r|].
    exists (w ++ 0 :: u). rewrite <- !app_assoc. cbn. split; [done|]. by rewrite !length_app. }
  destruct Hend as (t' & Et & Hlen). exists t'. split; [|done]. rewrite <- (app_assoc w u), app_assoc, Ev.
  run (wr_eq (a ++ w) x 0 v ev). rewrite <- app_assoc at 1. run (rdstr_eq a w v ev Hwnz). run (kputs_eq (w ++ text ": command not found." ++ newline) (mkMsh (a ++ w ++ 0 :: v) ev)).
  cbn [m_buf m_ev]. by rewrite app_assoc, Et.
Qed.
End lines.

(** ** What a line does *)

Section line.
Context (syscalls : list finsh_syscall) (result : Z -> list nat -> list Z -> Z).
Context (open : list Z -> option (list Z)) (malloc : Z -> bool) (fresh : list Z).
Implicit Types (rest line : list Z) (ev : list event).


(** The command line without the blanks before it, and its first word. *)
Definition command (line : list Z) : list Z := from (fun c => negb (blank c)) line.
Definition command_name (line : list Z) : list Z := upto blank (command line).
Definition not_found (line : list Z) : event :=
  Print (take (Z.to_nat (RT_CONSOLEBUF_SIZE - 1)) (upto (fun c => c =? 32) (command line) ++ text ": command not found." ++ newline)).

(** [r] is what running [line] returns, with the buffer and the events after it. *)
Definition line_result line rest ev (r : option (Z * msh)) : Prop :=
  match command_name line, List.find (named (command_name line)) syscalls with
  | [], _ => r = Some (0, mkMsh (line ++ 0 :: rest) ev)
  | _, Some index => exists argv line' warn,
      r = Some (result (func index) argv (line' ++ 0 :: rest),
                mkMsh (line' ++ 0 :: rest) (ev ++ warn ++ [Call (func index) argv (line' ++ 0 :: rest)])) /\
      length line' = length line /\ Forall2 (arg_at (line' ++ 0 :: rest)) argv (take 10 (words Between line)) /\
      ((length (words Between line) < 10)%nat -> warn = [])
  | w, None => contains (text ".sh") w = false -> contains (text ".SH") w = false ->
      exists line', r = Some (-1, mkMsh (line' ++ 0 :: rest) (ev ++ [not_found line])) /\ length line' = length line
  end.

Lemma command_blanks line : exists bs, line = bs ++ command line /\ Forall (fun c => blank c = true) bs /\
  Forall (fun c => blank c = false) (take 1 (command line)).
Proof.
  exists (upto (fun c => negb (blank c)) line). split; [symmetry; apply upto_from|]. split.
  - eapply Forall_impl; [apply upto_all|]. intros c Hc. by apply negb_false_iff in Hc.
  - eapply Forall_impl; [apply from_head|]. intros c Hc. by apply negb_true_iff in Hc.
Qed.
Lemma words_command line : words Between line = words Between (command line).
Proof. destruct (command_blanks line) as (bs & E & Hbs & _). rewrite E at 1. by apply words_blanks. Qed.

Lemma msh_exec_line depth fuel line rest ev : (length line < fuel)%nat -> Z.of_nat (length line) + 2 < 2 ^ 32 -> nonzero line ->
  Forall (fun index => nonzero (name index)) syscalls ->
  line_result line rest ev
    (msh_exec syscalls result open malloc fresh (S depth) fuel 0 (Z.of_nat (length line)) (mkMsh (line ++ 0 :: rest) ev)).
Proof.
  intros Hf Hl Hnz Hs. destruct (command_blanks line) as (bs & E & Hbs & Hhd). unfold line_result, not_found. rewrite words_command.
  unfold command_name. set (t := command line) in *. clearbody t. subst line. cbn [msh_exec].
  run (trim_eq bs t Hbs Hhd fuel [] rest ev ltac:(rewrite length_app in Hf; lia) ltac:(lia)). cbn [app].
  rewrite length_app in Hf, Hl. apply Forall_app in Hnz as [_ Hnz].
  destruct t as [|c u]; [done|]. set (t := c :: u) in *. rewrite (proj2 (Z.eqb_neq _ 0)) by (unfold t; cbn [length]; lia).
  destruct (upto blank t) as [|c' w] eqn:Ew; [exfalso; unfold t in *; cbn in Ew; inversion Hhd as [|?? Hc]; by rewrite Hc in Ew|].
  rewrite <- (app_assoc bs t (0 :: rest)).
  pose proof (exec_cmd_eq syscalls result t fuel bs rest ev ltac:(lia) ltac:(lia) Hnz Hs Hhd ltac:(done)) as Hc. rewrite Ew in Hc.
  destruct (List.find (named (c' :: w)) syscalls) as [index|].
  - destruct Hc as (argv & t' & warn & Hrun & Hlen & Hargs & Hwarn). exists argv, (bs ++ t'), warn. run Hrun.
    rewrite <- (app_assoc bs t' (0 :: rest)). split; [done|]. split; [by rewrite !length_app, Hlen|]. by split.
  - intros H1 H2. run Hc. change (- RT_ERROR =? 0) with false. cbv iota beta. rewrite <- Ew in H1, H2.
    destruct (script_skipped open malloc fresh t (msh_exec syscalls result open malloc fresh depth fuel) fuel bs rest ev ltac:(lia) ltac:(lia) Hnz H1 H2) as (r & Hr & Hrun).
    run Hrun. rewrite (proj2 (Z.eqb_neq r 0) Hr). destruct (not_found_eq t fuel bs rest ev ltac:(lia) Hnz) as (t' & Hrun' & Hlen).
    exists (bs ++ t'). rewrite Hrun', <- (app_assoc bs t' (0 :: rest)). split; [done|]. by rewrite !length_app, Hlen.
Qed.
End line.

(** C30: Running a line: nothing for a blank one; else the first function of the table whose name is
    that of a command and the first word of the line is called, with the first ten words of the
    line as its arguments, each a string of its own; and a line whose first word is neither a
    command nor looks like a script is reported. *)
Theorem msh_exec_spec syscalls result open malloc fresh depth fuel line rest ev :
  (length line < fuel)%nat -> Z.of_nat (length line) + 2 < 2 ^ 32 -> nonzero line ->
  Forall (fun index => nonzero (name index)) syscalls ->
  line_result syscalls result line rest ev
    (msh_exec syscalls result open malloc fresh (S depth) fuel 0 (Z.of_nat (length line)) (mkMsh (line ++ 0 :: rest) ev)).
Proof. apply msh_exec_line. Qed.

Definition sample_table : list finsh_syscall :=
  [mkSyscall (text "list_thread") (text "list threads") 1; mkSyscall (text "__cmd_ps") (text "list threads") 2;
   mkSyscall (text "__cmd_free") (text "show memory") 3].
Definition sample_line : list Z := text "  ps -a " ++ [34] ++ text "two words" ++ [34].
Lemma msh_exec_spec_witness : exists argv buf ev,
  msh_exec sample_table (fun _ _ _ => 7) (fun _ => None) (fun _ => true) [] 1 100 0 (Z.of_nat (length sample_line)) (mkMsh (sample_line ++ [0]) []) =
    Some (7, mkMsh buf (ev ++ [Call 2 argv buf])) /\ Forall2 (arg_at buf) argv [text "ps"; text "-a"; text "two words"] /\ ev = [].
Proof.
  pose proof (msh_exec_spec sample_table (fun _ _ _ => 7) (fun _ => None) (fun _ => true) [] 0 100 sample_line [] []
    ltac:(apply Nat.ltb_lt; by vm_compute) ltac:(by vm_compute) ltac:(apply (bool_decide_unpack _); by vm_compute) ltac:(apply (bool_decide_unpack _); by vm_compute)) as H.
  destruct H as (argv & line' & warn & E & _ & Hargs & Hw). exists argv, (line' ++ [0]), warn. split; [exact E|]. split; [exact Hargs|].
  apply Hw, Nat.ltb_lt. by vm_compute.
Defined.

(** ** Scripts *)

(** The lines of a file; empty ones do not count. *)
Definition line_end (ch : Z) : bool := (ch =? 10) || (ch =? 13).
Fixpoint file_lines (line file : list Z) : list (list Z) :=
  match file with
  | [] => match line with [] => [] | _ => [line] end
  | ch :: file =>
      if line_end ch then match line with [] => file_lines [] file | _ => line :: file_lines [] file end
      else file_lines (line ++ [ch]) file
  end.
Definition line_size : nat := Z.to_nat RT_CONSOLEBUF_SIZE.

Section scripts.
Implicit Types (line file rest buf : list Z) (ev : list event).


Lemma skip_newlines_spec file :
  match skip_newlines file with
  | None => file_lines [] file = []
  | Some (ch, file') => file_lines [] file = file_lines [ch] file' /\ (length file' < length file)%nat /\ line_end ch = false
  end.
Proof.
  induction file as [|ch file IH]; [done|]. cbn. destruct ((ch =? 10) || (ch =? 13)) eqn:E.
  - destruct (skip_newlines file) as [[c f]|]; unfold line_end; rewrite E; [|done]. destruct IH as (? & ? & ?). split; [done|]. split; [lia|done].
  - unfold line_end. rewrite E. split; [done|]. split; [lia|done].
Qed.

Lemma file_lines_open file : forall w, w ≠ [] -> file_lines w file ≠ [].
Proof.
  induction file as [|c file IH]; intros [|y w] Hw; try done; cbn [file_lines]. destruct (line_end c); [discriminate|by apply IH].
Qed.
Lemma file_lines_prefix file : forall w l ls, file_lines w file = l :: ls -> w ≠ [] -> (length w <= length l)%nat.
Proof.
  induction file as [|c file IH]; intros w l ls E Hw; cbn in E; [destruct w; [done|]; injection E as <- <-; lia|].
  destruct (line_end c); [destruct w; [done|]; injection E as <- <-; lia|].
  apply IH in E; [rewrite length_app in E; cbn in E; lia|by destruct w].
Qed.

Lemma readline_eq size file : forall v x rest ev l ls, v ≠ [] -> file_lines v file = l :: ls ->
  (length l < size)%nat -> length (v ++ x :: rest) = size ->
  exists file' rest', readline_loop size file (length v) (mkMsh (v ++ x :: rest) ev) = Some ((length l, file'), mkMsh (l ++ 0 :: rest') ev) /\
    length (l ++ 0 :: rest') = size /\ file_lines [] file' = ls /\ (length file' <= length file)%nat.
Proof.
  induction file as [|ch file IH]; intros v x rest ev l ls Hv Hlines Hl Hsize; cbn [readline_loop file_lines] in *.
  - destruct v as [|y v]; [done|]. injection Hlines as <- <-. rewrite decide_True by done.
    run (wr_eq (y :: v) x 0 rest ev). exists [], rest. split; [done|]. rewrite length_app in *. by split.
  - rewrite decide_True by (rewrite length_app in Hsize; cbn in Hsize; lia). unfold line_end in Hlines. destruct ((ch =? 10) || (ch =? 13)).
    + destruct v as [|y v]; [done|]. injection Hlines as <- <-. run (wr_eq (y :: v) x 0 rest ev). exists file, rest.
      split; [done|]. rewrite length_app in *. split; [done|]. split; [done|]. cbn. lia.
    + run (wr_eq v x ch rest ev). rewrite (cons_snoc v ch rest), <- (length_snoc v ch).
      destruct rest as [|x' rest].
      * exfalso. apply file_lines_prefix in Hlines; [|by destruct v]. rewrite !length_app in *. cbn in *. lia.
      * destruct (IH (v ++ [ch]) x' rest ev l ls) as (file' & rest' & -> & H1 & H2 & H3); [by destruct v|done|done| |].
        { rewrite <- Hsize, !length_app. cbn. lia. }
        exists file', rest'. split; [done|]. split; [done|]. split; [done|]. cbn. lia.
Qed.

Lemma msh_readline_eq file x rest ev : length (x :: rest) = line_size ->
  match file_lines [] file with
  | [] => msh_readline line_size file (mkMsh (x :: rest) ev) = Some ((0%nat, []), mkMsh (x :: rest) ev)
  | l :: ls => (length l < line_size)%nat -> exists file' rest',
      msh_readline line_size file (mkMsh (x :: rest) ev) = Some ((length l, file'), mkMsh (l ++ 0 :: rest') ev) /\
      length (l ++ 0 :: rest') = line_size /\ file_lines [] file' = ls /\ (length file' < length file)%nat /\ (0 < length l)%nat
  end.
Proof.
  intros Hsize. unfold msh_readline. pose proof (skip_newlines_spec file) as H. destruct (skip_newlines file) as [[ch f]|]; [|by rewrite H].
  destruct H as (E & Hlen & _). rewrite E. destruct (file_lines [ch] f) as [|l ls] eqn:El.
  { by apply file_lines_open in El. }
  intros Hl. run (wr_eq [] x ch rest ev). cbn [app]. destruct rest as [|x' rest]; [done|].
  destruct (readline_eq line_size f [ch] x' rest ev l ls) as (f' & rest' & Hrun & H1 & H2 & H3); try done.
  exists f', rest'. split; [exact Hrun|]. split; [done|]. split; [done|]. split; [lia|]. apply file_lines_prefix in El; [|done]. cbn in El. lia.
Qed.

(** The lines of a script run by [exec], one after the other, each at the beginning of the
    buffer; a line whose first character is a number sign is a comment. *)
Definition is_comment line : bool :=
  match from (fun c => negb (blank c)) line with c :: _ => c =? 35 | [] => false end.
Inductive script_runs (exec : nat -> Z -> W Z) : list (list Z) -> list Z -> list event -> list Z -> list event -> Prop :=
  | script_end buf ev : script_runs exec [] buf ev buf ev
  | script_comment line ls buf ev rest buf' ev' : is_comment line = true ->
      script_runs exec ls (line ++ 0 :: rest) ev buf' ev' -> script_runs exec (line :: ls) buf ev buf' ev'
  | script_line line ls buf ev rest r s buf' ev' : is_comment line = false ->
      exec 0%nat (Z.of_nat (length line)) (mkMsh (line ++ 0 :: rest) ev) = Some (r, s) ->
      script_runs exec ls (m_buf s) (m_ev s) buf' ev' -> script_runs exec (line :: ls) buf ev buf' ev'.

Lemma first_char_eq line : forall n ch a rest ev, n = length line ->
  first_char n (length a) ch (mkMsh (a ++ line ++ 0 :: rest) ev) =
  Some (match from (fun c => negb (blank c)) line with c :: _ => c | [] => default ch (last line) end, mkMsh (a ++ line ++ 0 :: rest) ev).
Proof.
  induction line as [|c line IH]; intros n ch a rest ev ->; [done|]. cbn [first_char length app].
  run (rd_eq a c (line ++ 0 :: rest) ev). cbn [from]. destruct (blank c) eqn:Eb; cbn [negb]; [|done].
  rewrite (cons_snoc a c), <- (length_snoc a c), IH by done. do 2 f_equal. destruct (from _ line); [|done]. rewrite last_cons. by destruct (last line).
Qed.
Lemma is_comment_eq line ch : line ≠ [] ->
  (match from (fun c => negb (blank c)) line with c :: _ => c | [] => default ch (last line) end =? 35) = is_comment line.
Proof.
  intros Hne. unfold is_comment. destruct (from (fun c => negb (blank c)) line) eqn:E; [|done]. apply Z.eqb_neq. intros H.
  pose proof (upto_from (fun c => negb (blank c)) line) as Hl. rewrite E, app_nil_r in Hl. pose proof (upto_all (fun c => negb (blank c)) line) as Ha.
  rewrite Hl in Ha. destruct (exists_last Hne) as (l & x & ->). rewrite last_snoc in H. cbn in H. subst x. apply Forall_app in Ha as [_ Ha].
  by inversion Ha.
Qed.

(** A command interpreter that does not fault on the lines of a script. *)
Definition exec_safe (exec : nat -> Z -> W Z) line : Prop := forall rest ev, length (line ++ 0 :: rest) = line_size ->
  exists r s, exec 0%nat (Z.of_nat (length line)) (mkMsh (line ++ 0 :: rest) ev) = Some (r, s) /\ length (m_buf s) = line_size.

Lemma script_loop_eq exec : forall fuel file buf ev, (length file < fuel)%nat -> length buf = line_size ->
  Forall (fun line => (length line < line_size)%nat /\ exec_safe exec line) (file_lines [] file) ->
  exists buf' ev', script_loop exec fuel file (mkMsh buf ev) = Some (tt, mkMsh buf' ev') /\ script_runs exec (file_lines [] file) buf ev buf' ev'.
Proof.
  induction fuel as [|fuel IH]; intros file buf ev Hf Hbuf Hall; [lia|]. cbn [script_loop]. destruct buf as [|x rest]; [done|].
  pose proof (msh_readline_eq file x rest ev Hbuf) as Hr. destruct (file_lines [] file) as [|l ls] eqn:El.
  { fold line_size. run Hr. exists (x :: rest), ev. split; [done|]. constructor. }
  apply Forall_cons in Hall as [[Hl Hsafe] Hall]. destruct (Hr Hl) as (file' & rest' & Hrun & Hlen & Els & Hdec & Hpos).
  fold line_size. run Hrun. cbv iota beta. rewrite decide_True by lia.
  run (first_char_eq l (length l) 0 [] rest' ev eq_refl). rewrite is_comment_eq by (first [by constructor|intros ->; cbn in Hpos; lia]). cbn [app].
  destruct (is_comment l) eqn:Ec; cbn [negb].
  - rewrite (bind_some _ _ _ tt (mkMsh (l ++ 0 :: rest') ev)) by done.
    destruct (IH file' (l ++ 0 :: rest') ev) as (buf' & ev' & Hrun' & Hruns); [lia|done|by rewrite Els|].
    exists buf', ev'. split; [done|]. rewrite Els in Hruns. by eapply script_comment.
  - destruct (Hsafe rest' ev Hlen) as (r & [b e] & Hx & Hb). rewrite (bind_some _ _ _ tt (mkMsh b e)) by by run Hx.
    destruct (IH file' b e) as (buf' & ev' & Hrun' & Hruns); [lia|done|by rewrite Els|].
    exists buf', ev'. split; [done|]. rewrite Els in Hruns. by eapply script_line.
Qed.
End scripts.

Section script.
Context (syscalls : list finsh_syscall) (result : Z -> list nat -> list Z -> Z).
Context (open : list Z -> option (list Z)) (malloc : Z -> bool) (fresh : list Z).
Implicit Types (rest line file : list Z) (ev : list event).


(** The lines that [msh_exec] runs without looking for a script. *)
Definition plain_line (line : list Z) : Prop :=
  nonzero line /\ contains (text ".sh") (command_name line) = false /\ contains (text ".SH") (command_name line) = false.
#[global] Instance plain_line_dec line : Decision (plain_line line).
Proof. unfold plain_line, nonzero. apply _. Defined.

Lemma plain_line_runs depth fuel line rest ev : Forall (fun index => nonzero (name index)) syscalls -> plain_line line ->
  (length line < fuel)%nat -> Z.of_nat (length line) + 2 < 2 ^ 32 ->
  exists r line' evs, msh_exec syscalls result open malloc fresh (S depth) fuel 0 (Z.of_nat (length line)) (mkMsh (line ++ 0 :: rest) ev) =
    Some (r, mkMsh (line' ++ 0 :: rest) (ev ++ evs)) /\ length line' = length line /\
    (evs = [] \/ (exists warn f argv buf, evs = warn ++ [Call f argv buf]) \/ evs = [not_found line]).
Proof.
  intros Hs (Hnz & H1 & H2) Hf Hl. pose proof (msh_exec_line syscalls result open malloc fresh depth fuel line rest ev Hf Hl Hnz Hs) as H.
  unfold line_result in H. destruct (command_name line) as [|c w].
  - exists 0, line, []. rewrite app_nil_r. split; [done|]. split; [done|]. by left.
  - destruct (List.find _ _) as [index|].
    + destruct H as (argv & line' & warn & E & Hlen & _). eexists _, line', _. split; [exact E|]. split; [done|]. right. left. by eexists _, _, _, _.
    + destruct (H H1 H2) as (line' & E & Hlen). eexists _, line', _. split; [exact E|]. split; [done|]. by right; right.
Qed.

Lemma plain_line_safe depth fuel line : Forall (fun index => nonzero (name index)) syscalls -> plain_line line ->
  (length line < line_size)%nat -> (line_size <= fuel)%nat -> exec_safe (msh_exec syscalls result open malloc fresh (S depth) fuel) line.
Proof.
  intros Hs Hp Hl Hf rest ev Hlen. destruct (plain_line_runs depth fuel line rest ev Hs Hp ltac:(lia)) as (r & line' & evs & E & Hlen' & _).
  { change line_size with 256%nat in Hl. lia. }
  eexists _, _. split; [exact E|]. cbn [m_buf]. rewrite <- Hlen, !length_app. lia.
Qed.

Lemma msh_exec_script_eq exec fuel a t rest ev file : (length t < fuel)%nat -> Z.of_nat (length t) + 2 < 2 ^ 32 -> nonzero t ->
  contains (text ".sh") (upto blank t) || contains (text ".SH") (upto blank t) = true ->
  (open (upto blank t) = Some file \/ open (upto blank t) = None /\ open (text "/bin/" ++ upto blank t) = Some file) ->
  (forall n, malloc n = true) -> length fresh = line_size ->
  Forall (fun line => (length line < line_size)%nat /\ exec_safe exec line) (file_lines [] file) ->
  exists buf' ev', msh_exec_script open malloc fresh exec fuel (length a) (Z.of_nat (length t)) (mkMsh (a ++ t ++ 0 :: rest) ev) =
    Some (0, mkMsh (a ++ t ++ 0 :: rest) ev') /\ script_runs exec (file_lines [] file) fresh ev buf' ev'.
Proof.
  intros Hf Hl Hnz Hsh Hopen Hmem Hfresh Hall. unfold msh_exec_script. set (w := upto blank t) in *. assert (E : w ++ from blank t = t) by apply upto_from.
  destruct (Z.eqb_spec (Z.of_nat (length t)) 0) as [Hz|_].
  { assert (t = []) as Ht by (apply nil_length_inv; lia). subst t. by unfold w in Hsh. }
  run (cmd0_word t fuel a rest ev Hf Hl). rewrite Hmem. cbn [negb]. fold w. rewrite Nat2Z.id.
  assert (Hrd : rdbytes (length a) (length w) (mkMsh (a ++ t ++ 0 :: rest) ev) = Some (w, mkMsh (a ++ t ++ 0 :: rest) ev)).
  { rewrite <- E. apply rdbytes_eq. }
  run Hrd. rewrite (bind_some _ _ _ w (mkMsh (a ++ t ++ 0 :: rest) ev)).
  2: { unfold deref. rewrite cstr_app; [done|]. rewrite <- E in Hnz. by apply Forall_app in Hnz as [? _]. }
  rewrite Hsh. cbv iota zeta. replace (match open w with Some file => Some file | None => open (text "/bin/" ++ w) end) with (Some file)
    by (destruct Hopen as [-> | [-> ->]]; done).
  cbv iota. rewrite Hmem. cbn [negb].
  destruct (script_loop_eq exec (S (length file)) file fresh ev ltac:(lia) Hfresh Hall) as (buf' & ev' & Hrun & Hruns).
  exists buf', ev'. split; [|done]. rewrite (bind_some _ _ _ tt (mkMsh (a ++ t ++ 0 :: rest) ev')); [done|].
  unfold with_buffer. cbn [m_ev]. by rewrite Hrun.
Qed.
End script.

(** Running a script: its lines that are not comments run in order, each from the beginning of
    a buffer of the script, when each is shorter than that buffer; the calling line is kept. *)
Theorem msh_exec_script_spec open malloc fresh exec fuel a t rest ev file :
  (length t < fuel)%nat -> Z.of_nat (length t) + 2 < 2 ^ 32 -> nonzero t ->
  contains (text ".sh") (upto blank t) || contains (text ".SH") (upto blank t) = true ->
  (open (upto blank t) = Some file \/ open (upto blank t) = None /\ open (text "/bin/" ++ upto blank t) = Some file) ->
  (forall n, malloc n = true) -> length fresh = line_size ->
  Forall (fun line => (length line < line_size)%nat /\ exec_safe exec line) (file_lines [] file) ->
  exists buf' ev', msh_exec_script open malloc fresh exec fuel (length a) (Z.of_nat (length t)) (mkMsh (a ++ t ++ 0 :: rest) ev) =
    Some (0, mkMsh (a ++ t ++ 0 :: rest) ev') /\ script_runs exec (file_lines [] file) fresh ev buf' ev'.
Proof. apply msh_exec_script_eq. Qed.

Definition sample_file : list Z := text "# two commands" ++ newline ++ newline ++ text "ps" ++ newline ++ text "free".
Definition sample_open (path : list Z) : option (list Z) := if decide (path = text "/bin/a.sh") then Some sample_file else None.
Lemma msh_exec_script_spec_witness : exists buf' ev',
  msh_exec_script sample_open (fun _ => true) (replicate 256 0) (msh_exec sample_table (fun _ _ _ => 7) sample_open (fun _ => true) [] 1 256)
    256 0 4 (mkMsh (text "a.sh" ++ [0]) []) = Some (0, mkMsh (text "a.sh" ++ [0]) ev') /\
  script_runs (msh_exec sample_table (fun _ _ _ => 7) sample_open (fun _ => true) [] 1 256) [text "# two commands"; text "ps"; text "free"]
    (replicate 256 0) [] buf' ev'.
Proof.
  apply (msh_exec_script_spec sample_open (fun _ => true) (replicate 256 0) _ 256 [] (text "a.sh") [] [] sample_file).
  - apply Nat.ltb_lt. by vm_compute.
  - by vm_compute.
  - apply (bool_decide_unpack _). by vm_compute.
  - by vm_compute.
  - right. split; by vm_compute.
  - done.
  - by vm_compute.
  - assert (Hall : Forall (fun line => (length line < line_size)%nat /\ plain_line line) (file_lines [] sample_file)) by
      (apply (bool_decide_unpack _); by vm_compute).
    eapply Forall_impl; [exact Hall|]. intros line [Hl Hp]. split; [done|]. apply plain_line_safe; [|done|done|done].
    apply (bool_decide_unpack _). by vm_compute.
Defined.

(** A line that fills the buffer of the script is not ended by a 0, and is read past its end. *)
Definition run_long_script (n : nat) : option (Z * msh) :=
  msh_exec_script (fun _ => Some (replicate n 97)) (fun _ => true) (replicate 256 0)
    (msh_exec [] (fun _ _ _ => 0) (fun _ => None) (fun _ => true) [] 1 300) 300 0 4 (mkMsh (text "a.sh" ++ [0]) []).
Lemma long_script_line : fst <$> run_long_script 255 = Some 0 /\ run_long_script 256 = None.
Proof. split; by vm_compute. Qed.
