(* ===== verification/MshComplete.v ===== *)
(** * MshComplete: completing names, rt-thread/components/finsh/msh.c

    [msh_auto_complete] replaces the beginning of a name by what all the commands that begin
    so have in common, or, behind a space, the beginning of a path by what the entries of its
    directory have in common.  The directories are a parameter. *)

From Stdlib Require Import Ascii String.
From S2P Require Import Prelude Msh.

#[local] Open Scope Z_scope.

Section commands.
(** The table of the exported functions, and the memory that [rt_malloc] has. *)
Context (syscalls : list finsh_syscall) (malloc : Z -> bool).

(** [msh_help]: every command with its description, the name padded to 16. *)
Definition msh_help : W unit :=
  kputs (text "RT-Thread shell commands:" ++ newline) ;;
  foldr (fun index rest =>
           (if is_cmd (name index) then
              let n := cmd_name (name index) in
              kputs (n ++ repeat 32 (16 - length n) ++ text " - " ++ desc index ++ newline)
            else mret tt) ;; rest) (mret tt) syscalls ;;
  kputs newline.

Fixpoint str_common (str1 str2 : list Z) : nat :=
  match str1, str2 with
  | a :: str1, b :: str2 => if a =? b then S (str_common str1 str2) else O
  | _, _ => O
  end.

(** The loop over the table, with [name_ptr] and [min_length]; a name is printed for each match. *)
Fixpoint complete_loop (prefix : list Z) (table : list finsh_syscall) (name_ptr : option (list Z)) (min_length : nat)
    : W (option (list Z) * nat) :=
  match table with
  | [] => mret (name_ptr, min_length)
  | index :: table =>
      if is_cmd (name index) && strncmp_eq (length prefix) prefix (cmd_name (name index)) then
        let cmd_name := cmd_name (name index) in
        let '(name_ptr, min_length) := if decide (min_length = 0)%nat then (cmd_name, length cmd_name)
                                       else (default cmd_name name_ptr, min_length) in
        let length := str_common name_ptr cmd_name in
        let min_length := if decide (length < min_length)%nat then length else min_length in
        kputs (cmd_name ++ newline) ;;
        complete_loop prefix table (Some name_ptr) min_length
      else complete_loop prefix table name_ptr min_length
  end.

(** [rt_strncpy] or [memcpy] of the first characters of a name, which does not end there. *)
Fixpoint put_text (p : nat) (l : list Z) : W unit :=
  match l with [] => mret tt | c :: l => wr p c ;; put_text (p + 1) l end.

(** [ptr = prefix + rt_strlen(prefix); while (ptr != prefix) ..]: the last space but at the beginning. *)
Definition last_space (prefix : list Z) : option nat :=
  List.find (fun p => bool_decide (prefix !! p = Some 32)) (rev (seq 1 (length prefix))).

(** The directories: the names that [readdir] gives, and the working directory. *)
Context (opendir : list Z -> option (list (list Z))) (cwd : list Z).

(** The text in [full_path], which has 256 bytes. *)
Definition fits (l : list Z) : W (list Z) := deref (fun _ => if decide (length l < 256)%nat then Some l else None).

(** The offset after the last slash, [index - path]. *)
Fixpoint after_slash (l : list Z) (i index : nat) : nat :=
  match l with [] => index | c :: l => after_slash l (i + 1) (if c =? 47 then (i + 1)%nat else index) end.

Definition matching (index d_name : list Z) : bool := strncmp_eq (length index) index d_name.

(** The first loop over the directory: [full_path] and [min_length]. *)
Fixpoint dir_loop (index : list Z) (dir : list (list Z)) (full_path : list Z) (min_length : nat) : W (list Z * nat) :=
  match dir with
  | [] => mret (full_path, min_length)
  | d_name :: dir =>
      if matching index d_name then
        '(full_path, min_length) ← (if decide (min_length = 0)%nat then p ← fits d_name; mret (p, length d_name)
                                    else mret (full_path, min_length));
        let length := str_common d_name full_path in
        dir_loop index dir full_path (if decide (length < min_length)%nat then length else min_length)
      else dir_loop index dir full_path min_length
  end.

Definition list_dir (dir : list (list Z)) : W unit :=
  foldr (fun d_name rest => kputs (d_name ++ newline) ;; rest) (mret tt) dir.

Definition msh_auto_complete_path (path : nat) : W unit :=
  if negb (malloc 256) then mret tt
  else
    s ← rdstr path;
    full_path ← fits (match s with 47 :: _ => [] | _ => if decide (last cwd = Some 47) then cwd else cwd ++ text "/" end);
    let length := after_slash s 0 0 in
    let index := drop length s in
    full_path ← fits (full_path ++ take length s);
    match opendir full_path with
    | None => mret tt
    | Some dir =>
        if bool_decide (index = []) then list_dir dir
        else
          '(full_path, min_length) ← dir_loop index dir full_path 0;
          if decide (min_length = 0)%nat then mret tt
          else
            (if decide (min_length < List.length full_path)%nat then list_dir (filter (fun d_name => matching index d_name) dir)
             else mret tt) ;;
            put_text (path + length) (take min_length full_path) ;;
            wr (path + length + min_length) 0
    end.

Definition msh_auto_complete (prefix : nat) : W unit :=
  s ← rdstr prefix;
  if bool_decide (s = []) then msh_help
  else
    match last_space s with Some ptr => msh_auto_complete_path (prefix + ptr + 1) | None => mret tt end ;;
    s ← rdstr prefix;
    '(name_ptr, min_length) ← complete_loop s syscalls None 0;
    match name_ptr with Some name => put_text prefix (take min_length name) | None => mret tt end.
End commands.

(** ** Completing *)

Lemma str_common_prefix a b q : q `prefix_of` a -> q `prefix_of` b -> (length q <= str_common a b)%nat.
Proof.
  revert a b. induction q as [|x q IH]; intros a b Ha Hb; [cbn; lia|]. destruct Ha as [a' ->], Hb as [b' ->]. cbn. rewrite Z.eqb_refl.
  assert (length q <= str_common (q ++ a') (q ++ b'))%nat by (apply IH; by eexists). lia.
Qed.
Lemma str_common_le a b : (str_common a b <= length a)%nat /\ take (str_common a b) a `prefix_of` b.
Proof.
  revert b. induction a as [|x a IH]; intros [|y b]; cbn; try (split; [lia|apply prefix_nil]).
  destruct (Z.eqb_spec x y) as [->|]; cbn; [|split; [lia|apply prefix_nil]]. destruct (IH b) as [H1 H2]. split; [lia|by apply prefix_cons].
Qed.

(** The longest common prefix of some names. *)
Definition is_lcp (p : list Z) (names : list (list Z)) : Prop :=
  Forall (fun n => p `prefix_of` n) names /\ forall q, Forall (fun n => q `prefix_of` n) names -> q `prefix_of` p.

Lemma prefix_of_take {A} (q l : list A) n : q `prefix_of` l -> (length q <= n)%nat -> q `prefix_of` take n l.
Proof. intros [k ->] Hn. rewrite take_app_ge by done. by eexists. Qed.
Lemma prefix_take {A} (l : list A) n m : (n <= m)%nat -> take n l `prefix_of` take m l.
Proof.
  intros H. exists (drop n (take m l)). assert (take n l = take n (take m l)) as -> by (rewrite take_take; f_equal; lia).
  by rewrite take_drop.
Qed.

Section complete.
Implicit Types (prefix rest : list Z) (names : list (list Z)) (table : list finsh_syscall).


(** The names of the commands of a table, and those that begin with [prefix]. *)
Definition commands table : list (list Z) := (fun index => cmd_name (name index)) <$> List.filter (fun index => is_cmd (name index)) table.
Definition matches prefix table : list (list Z) := List.filter (fun n => bool_decide (prefix `prefix_of` n)) (commands table).

Lemma strncmp_eq_prefix prefix n : nonzero prefix -> strncmp_eq (length prefix) prefix n = bool_decide (prefix `prefix_of` n).
Proof.
  intros Hnz. unfold strncmp_eq. apply eq_true_iff_eq. rewrite !bool_decide_eq_true, take_app_length. split.
  - intros E. destruct (decide (length prefix <= length n)%nat).
    + rewrite take_app_le in E by done. rewrite E. by exists (drop (length prefix) n); rewrite take_drop.
    + exfalso. rewrite (take_ge (n ++ [0%Z])) in E by (rewrite length_app; cbn [length]; lia). rewrite E in Hnz. apply Forall_app in Hnz as [_ Hnz]. by inversion Hnz.
  - intros [k ->]. by rewrite <- app_assoc, take_app_length.
Qed.

(** What the loop over the table has found: the first match and how much of it is common. *)
Definition found prefix (seen : list (list Z)) (name_ptr : option (list Z)) (min_length : nat) : Prop :=
  match seen with
  | [] => name_ptr = None /\ min_length = 0%nat
  | n :: _ => name_ptr = Some n /\ (0 < min_length <= length n)%nat /\ is_lcp (take min_length n) seen
  end.

Lemma found_next prefix seen name_ptr min_length c : (0 < length prefix)%nat -> prefix `prefix_of` c ->
  Forall (fun n => prefix `prefix_of` n) seen -> found prefix seen name_ptr min_length ->
  let '(np, ml) := if decide (min_length = 0)%nat then (c, length c) else (default c name_ptr, min_length) in
  let l := str_common np c in
  found prefix (seen ++ [c]) (Some np) (if decide (l < ml)%nat then l else ml).
Proof.
  intros Hp Hc Hseen Hf. destruct seen as [|n seen]; cbn [found app] in *.
  - destruct Hf as [-> ->]. rewrite decide_True by done. pose proof (str_common_prefix c c c ltac:(done) ltac:(done)) as Hge.
    rewrite decide_False by lia. split; [done|]. split; [apply prefix_length in Hc; lia|]. rewrite take_ge by lia. split; [by constructor|].
    intros q Hq. by inversion Hq.
  - destruct Hf as (-> & [Hpos Hle] & Hall & Hmax). rewrite decide_False by lia. change (default c (Some n)) with n.
    apply Forall_cons in Hseen as [Hn Hseen]. pose proof (str_common_prefix n c prefix Hn Hc) as Hge.
    destruct (str_common_le n c) as [Hl Hpre]. set (l := str_common n c) in *. split; [done|]. set (ml := if decide (l < min_length)%nat then l else min_length).
    assert (Hml : (ml <= l /\ ml <= min_length)%nat) by (unfold ml; destruct (decide _); lia).
    split; [unfold ml; destruct (decide _); lia|]. split.
    + change (n :: seen ++ [c]) with ((n :: seen) ++ [c]). apply Forall_app. split; [|constructor; [|done]].
      * eapply Forall_impl; [exact Hall|]. intros m Hm. etrans; [|exact Hm]. apply prefix_take. lia.
      * etrans; [|exact Hpre]. apply prefix_take. lia.
    + intros q Hq. change (n :: seen ++ [c]) with ((n :: seen) ++ [c]) in Hq. apply Forall_app in Hq as [Hq Hqc].
      pose proof (prefix_length _ _ (Hmax q Hq)) as Hqm. rewrite length_take in Hqm. inversion Hqc as [|?? Hqc' _].
      inversion Hq as [|?? Hqn _]. pose proof (str_common_prefix n c q Hqn Hqc') as Hql. fold l in Hql.
      apply prefix_of_take; [done|]. unfold ml. destruct (decide _); lia.
Qed.

Lemma complete_loop_eq prefix table : (0 < length prefix)%nat -> nonzero prefix ->
  forall seen name_ptr min_length buf ev, Forall (fun n => prefix `prefix_of` n) seen -> found prefix seen name_ptr min_length ->
  exists np ml, complete_loop prefix table name_ptr min_length (mkMsh buf ev) =
    Some ((np, ml), mkMsh buf (ev ++ ((fun n => Print (take (Z.to_nat (RT_CONSOLEBUF_SIZE - 1)) (n ++ newline))) <$> matches prefix table))) /\
    found prefix (seen ++ matches prefix table) np ml.
Proof.
  intros Hp Hnz. induction table as [|index table IH]; intros seen name_ptr min_length buf ev Hseen Hf; cbn [complete_loop].
  - exists name_ptr, min_length. cbn. by rewrite !app_nil_r.
  - rewrite strncmp_eq_prefix by done. unfold matches, commands. cbn [List.filter]. destruct (is_cmd (name index)); cbn [andb]; [|by apply IH].
    cbn [fmap list_fmap List.filter]. set (c := cmd_name (name index)). fold (commands table). fold (matches prefix table).
    destruct (bool_decide (prefix `prefix_of` c)) eqn:E; [|by apply IH]. apply bool_decide_eq_true in E.
    pose proof (found_next prefix seen name_ptr min_length c Hp E Hseen Hf) as Hf'.
    destruct (if decide (min_length = 0)%nat then (c, length c) else (default c name_ptr, min_length)) as [np ml].
    run (kputs_eq (c ++ newline) (mkMsh buf ev)). cbn [m_buf m_ev].
    destruct (IH (seen ++ [c]) (Some np) _ buf (ev ++ [Print (take (Z.to_nat (RT_CONSOLEBUF_SIZE - 1)) (c ++ newline))])
      ltac:(apply Forall_app; split; [done|by constructor]) Hf') as (np' & ml' & Hrun & Hf'').
    exists np', ml'. rewrite Hrun, <- !app_assoc. split; [done|]. by rewrite <- app_assoc in Hf''.
Qed.

Lemma put_text_eq l : forall a old rest ev, length old = length l ->
  put_text (length a) l (mkMsh (a ++ old ++ rest) ev) = Some (tt, mkMsh (a ++ l ++ rest) ev).
Proof.
  induction l as [|c l IH]; intros a [|x old] rest ev Hl; try done. cbn [put_text app].
  run (wr_eq a x c (old ++ rest) ev). rewrite (cons_snoc a c), <- (length_snoc a c), IH by (cbn in Hl; lia). by rewrite <- app_assoc.
Qed.
End complete.

Section completed.
Context (syscalls : list finsh_syscall) (malloc : Z -> bool) (opendir : list Z -> option (list (list Z))) (cwd : list Z).


Lemma last_space_none prefix : 32 ∉ prefix -> last_space prefix = None.
Proof.
  intros Hn. unfold last_space. destruct (List.find _ _) as [p|] eqn:E; [|done]. exfalso.
  apply List.find_some in E as [_ E]. apply bool_decide_eq_true in E. by apply list_elem_of_lookup_2 in E.
Qed.

Definition match_event (n : list Z) : event := Print (take (Z.to_nat (RT_CONSOLEBUF_SIZE - 1)) (n ++ newline)).

Lemma auto_complete_eq prefix rest ev : prefix ≠ [] -> nonzero prefix -> 32 ∉ prefix ->
  Forall (fun n => length n <= length (prefix ++ 0%Z :: rest))%nat (matches prefix syscalls) ->
  exists buf, msh_auto_complete syscalls malloc opendir cwd 0 (mkMsh (prefix ++ 0 :: rest) ev) =
      Some (tt, mkMsh buf (ev ++ (match_event <$> matches prefix syscalls))) /\
    match matches prefix syscalls with
    | [] => buf = prefix ++ 0 :: rest
    | names => exists p, is_lcp p names /\ buf = p ++ drop (length p) (prefix ++ 0 :: rest)
    end.
Proof.
  intros Hne Hnz Hsp Hlen. unfold msh_auto_complete. pose proof (rdstr_eq [] prefix rest ev Hnz) as Hrd. cbn [length app] in Hrd.
  run Hrd. rewrite bool_decide_eq_false_2 by done. rewrite last_space_none by done.
  rewrite (bind_some _ _ _ tt (mkMsh (prefix ++ 0 :: rest) ev)) by done. run Hrd.
  assert (Hp : (0 < length prefix)%nat) by (destruct prefix; [done|cbn; lia]).
  destruct (complete_loop_eq prefix syscalls Hp Hnz [] None 0 (prefix ++ 0 :: rest) ev ltac:(done) ltac:(done)) as (np & ml & Hrun & Hf).
  run Hrun. cbv iota. cbn [app] in Hf. fold match_event. destruct (matches prefix syscalls) as [|n ns] eqn:Em.
  - destruct Hf as [-> ->]. by exists (prefix ++ 0 :: rest).
  - destruct Hf as (-> & [Hpos Hle] & Hlcp). set (p := take ml n) in *. set (b := prefix ++ 0 :: rest) in *.
    exists (p ++ drop (length p) b). split; [|by exists p]. inversion Hlen as [|?? Hn _].
    rewrite <- (take_drop (length p) b) at 1. apply (put_text_eq p []). rewrite length_take. unfold p. rewrite length_take. lia.
Qed.
End completed.

(** C31: Completing a name: the commands that begin with it are listed, and it is replaced by their
    longest common prefix; without such a command it stays. *)
Theorem msh_auto_complete_spec syscalls malloc opendir cwd prefix rest ev : prefix ≠ [] -> nonzero prefix -> 32 ∉ prefix ->
  Forall (fun n => length n <= length (prefix ++ 0%Z :: rest))%nat (matches prefix syscalls) ->
  exists buf, msh_auto_complete syscalls malloc opendir cwd 0 (mkMsh (prefix ++ 0 :: rest) ev) =
      Some (tt, mkMsh buf (ev ++ (match_event <$> matches prefix syscalls))) /\
    match matches prefix syscalls with
    | [] => buf = prefix ++ 0 :: rest
    | names => exists p, is_lcp p names /\ buf = p ++ drop (length p) (prefix ++ 0 :: rest)
    end.
Proof. apply auto_complete_eq. Qed.

Definition list_table : list finsh_syscall :=
  [mkSyscall (text "__cmd_list_thread") [] 1; mkSyscall (text "__cmd_ls") [] 2; mkSyscall (text "list") [] 3;
   mkSyscall (text "__cmd_list_timer") [] 4; mkSyscall (text "__cmd_ps") [] 5].
Lemma msh_auto_complete_spec_witness : exists buf p, msh_auto_complete list_table (fun _ => true) (fun _ => None) [] 0 (mkMsh (text "li" ++ replicate 20 0) []) =
    Some (tt, mkMsh buf [Print (text "list_thread" ++ newline); Print (text "list_timer" ++ newline)]) /\
  is_lcp p [text "list_thread"; text "list_timer"] /\ buf = p ++ drop (length p) (text "li" ++ replicate 20 0).
Proof.
  destruct (msh_auto_complete_spec list_table (fun _ => true) (fun _ => None) [] (text "li") (replicate 19 0) [] ltac:(done)
    ltac:(apply (bool_decide_unpack _); by vm_compute) ltac:(apply (bool_decide_unpack _); by vm_compute)
    ltac:(apply (bool_decide_unpack _); by vm_compute)) as (buf & E & p & Hp & Hb).
  exists buf, p. split; [exact E|]. split; [exact Hp|exact Hb].
Defined.

(** Completing a path does not look at the size of the line: a long name is written past its
    end, which is at 81 characters. *)
Lemma long_path_completion : msh_auto_complete [] (fun _ => true) (fun _ => Some [replicate 90 97]) (text "/") 0
  (mkMsh (text "ls a" ++ replicate 77 0) []) = None.
Proof. by vm_compute. Qed.
