(* ===== verification/Shell.v ===== *)
(** * Shell: the line editor, rt-thread/components/finsh/shell.c

    [finsh_key] is the body of the loop of finsh_thread_entry, from the character that
    finsh_getchar returns to the next one; the waiting for it, on the semaphore that the
    interrupt of the console releases, is that of Ipc.  The theorem relates the buffer and its
    two positions to a text with a cursor in it, and what is printed to what a terminal shows
    of it.  As in Msh, an access outside of the buffer is a fault. *)

From Stdlib Require Import Ascii String.
From S2P Require Import Prelude Msh MshRun MshComplete.

#[local] Open Scope Z_scope.

Definition FINSH_CMD_SIZE : Z := 80.
Definition FINSH_HISTORY_LINES : Z := 5.

Inductive input_stat := WAIT_NORMAL | WAIT_SPEC_KEY | WAIT_FUNC_KEY.

(** [struct finsh_shell], without the semaphore and the device. *)
Record finsh_shell := mkShell {
  stat : input_stat;
  echo_mode : Z;
  prompt_mode : Z;
  current_history : Z;
  history_count : Z;
  cmd_history : list (list Z);
  line : list Z;
  line_position : Z;
  line_curpos : Z }.

(** [rt_calloc] of a shell and [finsh_set_prompt_mode(1)], of finsh_system_init. *)
Definition new_shell : finsh_shell :=
  mkShell WAIT_NORMAL 0 1 0 0 (replicate 5 (replicate 80 0)) (replicate 81 0) 0 0.

Record console := mkC { c_sh : finsh_shell; c_ev : list event }.
Abbreviation T := (M console).

Definition skip : T unit := mret tt.

Definition set_stat (x : input_stat) (s : finsh_shell) : finsh_shell :=
  mkShell x (echo_mode s) (prompt_mode s) (current_history s) (history_count s) (cmd_history s) (line s) (line_position s) (line_curpos s).
Definition set_echo_mode (x : Z) (s : finsh_shell) : finsh_shell :=
  mkShell (stat s) x (prompt_mode s) (current_history s) (history_count s) (cmd_history s) (line s) (line_position s) (line_curpos s).
Definition set_current_history (x : Z) (s : finsh_shell) : finsh_shell :=
  mkShell (stat s) (echo_mode s) (prompt_mode s) (u16 x) (history_count s) (cmd_history s) (line s) (line_position s) (line_curpos s).
Definition set_history_count (x : Z) (s : finsh_shell) : finsh_shell :=
  mkShell (stat s) (echo_mode s) (prompt_mode s) (current_history s) (u16 x) (cmd_history s) (line s) (line_position s) (line_curpos s).
Definition set_cmd_history (x : list (list Z)) (s : finsh_shell) : finsh_shell :=
  mkShell (stat s) (echo_mode s) (prompt_mode s) (current_history s) (history_count s) x (line s) (line_position s) (line_curpos s).
Definition set_line (x : list Z) (s : finsh_shell) : finsh_shell :=
  mkShell (stat s) (echo_mode s) (prompt_mode s) (current_history s) (history_count s) (cmd_history s) x (line_position s) (line_curpos s).
Definition set_positions (p c : Z) (s : finsh_shell) : finsh_shell :=
  mkShell (stat s) (echo_mode s) (prompt_mode s) (current_history s) (history_count s) (cmd_history s) (line s) (u16 p) (u16 c).

Definition get {A} (f : finsh_shell -> A) : T A := gets (fun c => f (c_sh c)).
Definition upd (f : finsh_shell -> finsh_shell) : T unit := modify (fun c => mkC (f (c_sh c)) (c_ev c)).

(** A call of the interpreter on the line. *)
Definition on_line {A} (m : M msh A) : T A := fun c =>
  match m (mkMsh (line (c_sh c)) (c_ev c)) with
  | Some (r, s) => Some (r, mkC (set_line (m_buf s) (c_sh c)) (m_ev s))
  | None => None
  end.
Definition kprint (l : list Z) : T unit := on_line (kputs l).
Definition line_at (k : Z) : T (list Z) := on_line (rdstr (Z.to_nat k)).
Definition store (k c : Z) : T unit := on_line (wr (Z.to_nat k) c).

(** [rt_memmove] inside of the line. *)
Definition move (dst src n : Z) : T unit := fun c =>
  let l := line (c_sh c) in
  if decide (dst + n <= Z.of_nat (length l) /\ src + n <= Z.of_nat (length l)) then
    Some (tt, mkC (set_line (list_inserts (Z.to_nat dst) (take (Z.to_nat n) (drop (Z.to_nat src) l)) l) (c_sh c)) (c_ev c))
  else None.

Definition back : list Z := [8].
(** A loop that moves the cursor [n] characters to the left. *)
Fixpoint put_backs (n : nat) : T unit := match n with O => mret tt | S n => kprint back ;; put_backs n end.

Section shell.
(** The table of the functions and the environment of the interpreter; [custom] is the prompt
    that finsh_set_prompt has set, if any. *)
Context (syscalls : list finsh_syscall) (result : Z -> list nat -> list Z -> Z).
Context (open : list Z -> option (list Z)) (malloc : Z -> bool) (fresh : list Z) (depth : nat).
Context (opendir : list Z -> option (list (list Z))) (cwd : list Z) (custom : option (list Z)).

(** The text in [finsh_prompt], which has room for [RT_CONSOLEBUF_SIZE] characters. *)
Definition finsh_get_prompt : T (list Z) :=
  mode ← get prompt_mode;
  if mode =? 0 then mret []
  else match custom with
       | Some p => mret (take (Z.to_nat RT_CONSOLEBUF_SIZE) p)
       | None =>
           let p := text "msh " ++ take (Z.to_nat (RT_CONSOLEBUF_SIZE - 4)) cwd ++ text ">" in
           deref (fun _ => if decide (Z.of_nat (length p) <= RT_CONSOLEBUF_SIZE) then Some p else None)
       end.

(** [rt_kprintf(FINSH_PROMPT)]: the prompt is the format, and a conversion in it has no argument. *)
Definition put_prompt : T unit :=
  p ← finsh_get_prompt; if decide (37 ∈ p) then fault else kprint p.

(** The prompt and the line, both as arguments of a format. *)
Definition put_prompt_line : T unit := p ← finsh_get_prompt; l ← line_at 0; kprint (p ++ l).

Definition erase : list Z := [27; 91; 50; 75; 13].
Definition shell_handle_history : T unit := kprint erase ;; put_prompt_line.

(** The row [index] of the history: all 0, then the line. *)
Definition history_put (index : Z) : T unit := fun c =>
  let s := c_sh c in
  if decide (line_position s <= FINSH_CMD_SIZE /\ index < Z.of_nat (length (cmd_history s))) then
    let row := take (Z.to_nat (line_position s)) (line s) ++ replicate (Z.to_nat (FINSH_CMD_SIZE - line_position s)) 0 in
    Some (tt, mkC (set_cmd_history (<[Z.to_nat index := row]> (cmd_history s)) s) (c_ev c))
  else None.

(** Whether the row differs from the line in its [FINSH_CMD_SIZE] bytes. *)
Definition history_differs (index : Z) : T bool :=
  row ← deref (fun c => cmd_history (c_sh c) !! Z.to_nat index);
  l ← get line;
  mret (negb (bool_decide (row = take (Z.to_nat FINSH_CMD_SIZE) l))).

(** [for (index = 0; index < FINSH_HISTORY_LINES - 1; index ++)] *)
Definition history_shift (rows : list (list Z)) : list (list Z) :=
  foldl (fun rows index => match rows !! (index + 1)%nat with Some row => <[index := row]> rows | None => rows end)
        rows (seq 0 (Z.to_nat (FINSH_HISTORY_LINES - 1))).

(** The part of shell_push_history that changes the rows, for [n] of them in use. *)
Definition push_rows (n : Z) : T unit :=
  if FINSH_HISTORY_LINES <=? n then
    d ← history_differs (FINSH_HISTORY_LINES - 1);
    when d (upd (fun s => set_cmd_history (history_shift (cmd_history s)) s) ;;
            history_put (FINSH_HISTORY_LINES - 1) ;;
            upd (set_history_count FINSH_HISTORY_LINES))
  else
    d ← (if n =? 0 then mret true else history_differs (n - 1));
    when d (upd (set_current_history n) ;; history_put n ;; upd (set_history_count (n + 1))).

Definition shell_push_history : T unit :=
  p ← get line_position;
  when (negb (p =? 0)) (n ← get history_count; push_rows n) ;;
  upd (fun s => set_current_history (history_count s) s).

(** Copying row [index] to the line, and showing it. *)
Definition recall (index : Z) : T unit :=
  row ← deref (fun c => cmd_history (c_sh c) !! Z.to_nat index);
  upd (fun s => set_line (row ++ drop (Z.to_nat FINSH_CMD_SIZE) (line s)) s) ;;
  l ← line_at 0;
  upd (set_positions (Z.of_nat (length l)) (Z.of_nat (length l))) ;;
  shell_handle_history.

Definition up_key : T unit :=
  h ← get current_history;
  if 0 <? h then (upd (set_current_history (h - 1)) ;; recall (h - 1))
  else upd (set_current_history 0).

Definition down_key : T unit :=
  h ← get current_history;
  n ← get history_count;
  if h <? n - 1 then upd (set_current_history (h + 1)) ;; recall (h + 1)
  else if negb (n =? 0) then upd (set_current_history (n - 1)) ;; recall (n - 1)
  else mret tt.

Definition left_key : T unit :=
  c ← get line_curpos;
  when (negb (c =? 0)) (kprint back ;; upd (fun s => set_positions (line_position s) (c - 1) s)).

Definition right_key : T unit :=
  c ← get line_curpos;
  p ← get line_position;
  when (c <? p) (x ← on_line (rd (Z.to_nat c)); kprint [x] ;; upd (set_positions p (c + 1))).

(** The keys of more than one character; the result is whether the loop continues. *)
Definition escape_key (ch : Z) : T bool :=
  st ← get stat;
  if ch =? 0x1b then upd (set_stat WAIT_SPEC_KEY) ;; mret true
  else match st with
       | WAIT_SPEC_KEY =>
           if ch =? 0x5b then upd (set_stat WAIT_FUNC_KEY) ;; mret true else upd (set_stat WAIT_NORMAL) ;; mret false
       | WAIT_FUNC_KEY =>
           upd (set_stat WAIT_NORMAL) ;;
           if ch =? 0x41 then up_key ;; mret true
           else if ch =? 0x42 then down_key ;; mret true
           else if ch =? 0x44 then left_key ;; mret true
           else if ch =? 0x43 then right_key ;; mret true
           else mret false
       | WAIT_NORMAL => mret false
       end.

Definition shell_auto_complete : T unit :=
  kprint newline ;;
  on_line (msh_auto_complete syscalls malloc opendir cwd 0) ;;
  put_prompt_line.

Definition tab_key : T unit :=
  c ← get line_curpos;
  put_backs (Z.to_nat c) ;;
  shell_auto_complete ;;
  l ← line_at 0;
  upd (set_positions (Z.of_nat (length l)) (Z.of_nat (length l))).

Definition backspace_key : T unit :=
  c ← get line_curpos;
  if c =? 0 then mret tt
  else
    upd (fun s => set_positions (line_position s - 1) (c - 1) s) ;;
    p ← get line_position;
    c ← get line_curpos;
    if c <? p then
      move c (c + 1) (p - c) ;;
      store p 0 ;;
      l ← line_at c;
      kprint (back ++ l ++ text "  " ++ back) ;;
      put_backs (Z.to_nat (p - c + 1))
    else
      kprint (back ++ text " " ++ back) ;;
      store p 0.

Definition enter_key : T unit :=
  shell_push_history ;;
  e ← get echo_mode;
  when (negb (e =? 0)) (kprint newline) ;;
  p ← get line_position;
  _ ← on_line (msh_exec syscalls result open malloc fresh depth (Z.to_nat FINSH_CMD_SIZE + 1) 0 p);
  put_prompt ;;
  upd (set_line (replicate (Z.to_nat FINSH_CMD_SIZE + 1) 0)) ;;
  upd (set_positions 0 0).

Definition char_key (ch : Z) : T unit :=
  p ← get line_position;
  when (FINSH_CMD_SIZE <=? p) (upd (fun s => set_positions 0 (line_curpos s) s)) ;;
  p ← get line_position;
  c ← get line_curpos;
  e ← get echo_mode;
  (if c <? p then
     move (c + 1) c (p - c) ;;
     store c (u8 ch) ;;
     (if negb (e =? 0) then (l ← line_at c; kprint l) else mret tt) ;;
     put_backs (Z.to_nat (p - c))
   else
     store p (u8 ch) ;;
     when (negb (e =? 0)) (kprint [ch])) ;;
  upd (set_positions (p + 1) (c + 1)) ;;
  p ← get line_position;
  when (FINSH_CMD_SIZE <=? p) (upd (set_positions 0 0)).

Definition finsh_key (ch : Z) : T unit :=
  continue ← escape_key ch;
  if (continue : bool) then skip
  else if (ch =? 0) || (ch =? 0xff) then skip
  else if ch =? 9 then tab_key
  else if (ch =? 0x7f) || (ch =? 0x08) then backspace_key
  else if (ch =? 13) || (ch =? 10) then enter_key
  else char_key ch.

(** finsh_thread_entry on the characters that are received. *)
Fixpoint finsh_keys (keys : list Z) : T unit :=
  match keys with [] => mret tt | ch :: keys => finsh_key ch ;; finsh_keys keys end.
Definition finsh_thread_entry (keys : list Z) : T unit :=
  upd (set_echo_mode 1) ;;
  put_prompt ;;
  finsh_keys keys.
End shell.

(** Characters typed in a shell without commands. *)
Definition type_keys (keys : list Z) : option (unit * console) :=
  finsh_thread_entry [] (fun _ _ _ => 0) (fun _ => None) (fun _ => true) [] 1 (fun _ => None) (text "/") None keys (mkC new_shell []).

(** A line of 80 characters is discarded by its positions alone: its characters stay in the
    buffer.  A tab takes them for the line again, a character then sets one position back but
    not the other, and deleting two characters moves 65456 bytes from past the end of the line. *)
Lemma discarded_line_overflow :
  is_Some (type_keys (replicate 80 97 ++ [9; 98; 8])) /\ type_keys (replicate 80 97 ++ [9; 98; 8; 8]) = None.
Proof. split; [eexists|]; by vm_compute. Qed.

(** The calls among some events: the functions and what their arguments are. *)
Definition calls (evs : list event) : list (Z * list (option (list Z))) :=
  foldr (fun e r => match e with Call f argv buf => (f, (fun p => cstr (drop p buf)) <$> argv) :: r | Print _ => r end) [] evs.

(** A percent sign in the name of the working directory is a conversion of the prompt. *)
Lemma prompt_is_a_format :
  finsh_thread_entry [] (fun _ _ _ => 0) (fun _ => None) (fun _ => true) [] 1 (fun _ => None) (text "/%s") None [] (mkC new_shell []) = None.
Proof. by vm_compute. Qed.

(** The characters that are discarded also end up in the last argument of the next command. *)
Lemma discarded_line_argument :
  (fun r => calls (c_ev (snd r))) <$>
    finsh_thread_entry [mkSyscall (text "__cmd_e") [] 7] (fun _ _ _ => 0) (fun _ => None) (fun _ => true) [] 1 (fun _ => None) (text "/") None
      (replicate 80 97 ++ text "e b" ++ [13]) (mkC new_shell []) =
  Some [(7, [Some (text "e"); Some (text "b" ++ replicate 77 97)])].
Proof. by vm_compute. Qed.

(** ** The editor *)

(** A text with a cursor, the lines entered before, and which of them was recalled. *)
Record editor := mkEd { ed_left : list Z; ed_right : list Z; ed_stat : input_stat; ed_hist : list (list Z); ed_pos : nat }.
Definition ed_text (e : editor) : list Z := ed_left e ++ ed_right e.
Definition new_editor : editor := mkEd [] [] WAIT_NORMAL [] 0.

Definition with_text (l r : list Z) (e : editor) : editor := mkEd l r (ed_stat e) (ed_hist e) (ed_pos e).
Definition with_stat (x : input_stat) (e : editor) : editor := mkEd (ed_left e) (ed_right e) x (ed_hist e) (ed_pos e).

Definition ed_recall (n : nat) (e : editor) : editor :=
  mkEd (default [] (ed_hist e !! n)) [] (ed_stat e) (ed_hist e) n.
Definition ed_up (e : editor) : editor := match ed_pos e with O => e | S n => ed_recall n e end.
Definition ed_down (e : editor) : editor :=
  match length (ed_hist e) with
  | O => e
  | S n => ed_recall (if decide (ed_pos e < n)%nat then ed_pos e + 1 else n)%nat e
  end.
Definition ed_back (e : editor) : editor := with_text (removelast (ed_left e)) (ed_right e) e.
Definition ed_go_left (e : editor) : editor :=
  match last (ed_left e) with Some c => with_text (removelast (ed_left e)) (c :: ed_right e) e | None => e end.
Definition ed_go_right (e : editor) : editor :=
  match ed_right e with c :: r => with_text (ed_left e ++ [c]) r e | [] => e end.
Definition ed_insert (ch : Z) (e : editor) : editor := with_text (ed_left e ++ [ch]) (ed_right e) e.

(** At most five lines are kept, and none twice in a row. *)
Definition remember (t : list Z) (hist : list (list Z)) : list (list Z) :=
  if decide (t = [] \/ last hist = Some t) then hist
  else (if decide (5 <= length hist)%nat then drop 1 hist else hist) ++ [t].
Definition ed_enter (e : editor) : editor :=
  let hist := remember (ed_text e) (ed_hist e) in mkEd [] [] (ed_stat e) hist (length hist).

(** The longest common prefix, as [is_lcp] describes it. *)
Definition lcp (names : list (list Z)) : list Z :=
  match names with [] => [] | n :: names => foldl (fun p m => take (str_common p m) p) n names end.
Definition completed (syscalls : list finsh_syscall) (t : list Z) : list Z :=
  if decide (t = [] \/ matches t syscalls = []) then t else lcp (matches t syscalls).
Definition ed_complete (syscalls : list finsh_syscall) (e : editor) : editor := with_text (completed syscalls (ed_text e)) [] e.

(** A character that is not part of a longer key. *)
Definition ed_char (syscalls : list finsh_syscall) (ch : Z) (e : editor) : editor :=
  if (ch =? 0) || (ch =? 0xff) then e
  else if ch =? 9 then ed_complete syscalls e
  else if (ch =? 0x7f) || (ch =? 0x08) then ed_back e
  else if (ch =? 13) || (ch =? 10) then ed_enter e
  else ed_insert ch e.
Definition ed_key (syscalls : list finsh_syscall) (ch : Z) (e : editor) : editor :=
  let e' := with_stat WAIT_NORMAL e in
  if ch =? 0x1b then with_stat WAIT_SPEC_KEY e
  else match ed_stat e with
       | WAIT_SPEC_KEY => if ch =? 0x5b then with_stat WAIT_FUNC_KEY e else ed_char syscalls ch e'
       | WAIT_FUNC_KEY =>
           if ch =? 0x41 then ed_up e' else if ch =? 0x42 then ed_down e'
           else if ch =? 0x44 then ed_go_left e' else if ch =? 0x43 then ed_go_right e' else ed_char syscalls ch e'
       | WAIT_NORMAL => ed_char syscalls ch e'
       end.

(** What a key needs so that the line is not discarded and no file is used: the text stays
    shorter than the line, a name is completed and not a path, a command is run and not a script. *)
Definition key_ok (syscalls : list finsh_syscall) (ch : Z) (e : editor) : Prop :=
  0 <= ch < 256 /\ (length (ed_text (ed_key syscalls ch e)) < 80)%nat /\
  (ch = 9 -> 32 ∉ ed_text e) /\ (ch = 13 \/ ch = 10 -> plain_line (ed_text e)).
#[global] Instance key_ok_dec syscalls ch e : Decision (key_ok syscalls ch e).
Proof. unfold key_ok. apply _. Defined.
Fixpoint keys_ok (syscalls : list finsh_syscall) (keys : list Z) (e : editor) : bool :=
  match keys with [] => true | ch :: keys => bool_decide (key_ok syscalls ch e) && keys_ok syscalls keys (ed_key syscalls ch e) end.

(** ** The terminal *)

(** A row of the terminal: what is before the cursor, last first, and from the cursor on. *)
Definition row : Type := list Z * list Z.
Fixpoint term (l : list Z) (r : row) : row :=
  match l with
  | [] => r
  | c :: l' =>
      let '(b, a) := r in
      match l with
      | 27 :: 91 :: 50 :: 75 :: l => term l (replicate (length b) 32, [])
      | _ => if c =? 8 then term l' (match b with x :: b => (b, x :: a) | [] => ([], a) end)
             else if c =? 13 then term l' ([], rev b ++ a)
             else if c =? 10 then term l' ([], [])
             else term l' (c :: b, tail a)
      end
  end.

(** What can be on a terminal after some events, from a given row; a command leaves the cursor
    at the end of a row. *)
Inductive shows : row -> list event -> row -> Prop :=
  | shows_nil r : shows r [] r
  | shows_print l r evs r' : shows (term l r) evs r' -> shows r (Print l :: evs) r'
  | shows_call f argv buf b r evs r' : shows (b, []) evs r' -> shows r (Call f argv buf :: evs) r'.

Definition plain (c : Z) : Prop := c ≠ 8 /\ c ≠ 10 /\ c ≠ 13 /\ c ≠ 27.
Definition good_text (t : list Z) : Prop := (length t < 80)%nat /\ Forall (fun c => c ≠ 0 /\ plain c) t.
#[global] Instance plain_dec c : Decision (plain c).
Proof. unfold plain. apply _. Defined.

#[global] Instance good_text_dec t : Decision (good_text t).
Proof. unfold good_text. apply _. Defined.
