(* ===== verification/ShellEdit.v ===== *)
(** * ShellEdit: the shell is an editor

    What each key does to the buffer, the positions, the history and the terminal, and the
    refinement of the editor of Shell by the shell. *)

From Stdlib Require Import Ascii String.
From S2P Require Import Prelude Msh MshRun MshComplete Shell.

#[local] Open Scope Z_scope.

Section editing.
Implicit Types (l : list Z) (ev : list event).

Lemma good_text_nonzero t : good_text t -> nonzero t.
Proof. intros [_ H]. eapply Forall_impl; [exact H|]. intros c Hc; apply Hc. Qed.
Lemma good_text_plain t : good_text t -> Forall plain t.
Proof. intros [_ H]. eapply Forall_impl; [exact H|]. intros c Hc; apply Hc. Qed.

(** *** Output *)

Lemma term_plain l k b a : Forall plain l -> term (l ++ k) (b, a) = term k (rev l ++ b, drop (length l) a).
Proof.
  intros Hl. revert b a. induction Hl as [|c l (H8 & H10 & H13 & H27) Hl IH]; intros b a; [done|]. cbn [app].
  assert (E : term (c :: l ++ k) (b, a) = term (l ++ k) (c :: b, tail a)).
  { cbn [term]. rewrite (proj2 (Z.eqb_neq c 8) H8), (proj2 (Z.eqb_neq c 13) H13), (proj2 (Z.eqb_neq c 10) H10).
    destruct c as [|p|p]; try done. do 5 (destruct p as [p|p|]; try done). }
  rewrite E, IH. cbn [rev length]. rewrite <- app_assoc. destruct a; [cbn [tail drop]; by rewrite drop_nil|done].
Qed.

Lemma shows_app r evs1 evs2 r' : shows r (evs1 ++ evs2) r' -> exists r1, shows r evs1 r1 /\ shows r1 evs2 r'.
Proof.
  revert r. induction evs1 as [|e evs1 IH]; intros r H; [exists r; split; [constructor|done]|]. cbn in H.
  inversion H as [|? ? ? ? H'|? ? ? b ? ? ? H']; subst; destruct (IH _ H') as (r1 & H1 & H2); exists r1; (split; [|done]); by econstructor.
Qed.
Lemma shows_next r l evs r' : shows r (Print l :: evs) r' -> shows (term l r) evs r'.
Proof. intros H. by inversion H. Qed.
Lemma shows_one l r r' : shows r [Print l] r' -> r' = term l r.
Proof. intros H. inversion H as [|? ? ? ? H'|]; subst. by inversion H'. Qed.

Definition backs (n : nat) : list event := replicate n (Print back).
Lemma shows_backs n b a r' : (n <= length b)%nat -> shows (b, a) (backs n) r' -> r' = (drop n b, rev (take n b) ++ a).
Proof.
  revert b a. induction n as [|n IH]; intros b a Hn H; [by inversion H|]. destruct b as [|x b]; [cbn in Hn; lia|].
  inversion H as [|? ? ? ? H'|]; subst. cbn in H'. apply IH in H'; [|cbn in Hn; lia]. cbn. by rewrite H', <- app_assoc.
Qed.

Lemma kprint_eq l s ev : (length l <= 255)%nat -> kprint l (mkC s ev) = Some (tt, mkC s (ev ++ [Print l])).
Proof. intros Hl. unfold kprint, on_line. rewrite kputs_eq. cbn [m_buf m_ev c_sh c_ev].
  change (Z.to_nat (RT_CONSOLEBUF_SIZE - 1)) with 255%nat. rewrite take_ge by done. by destruct s. Qed.
Lemma put_backs_eq n s : forall ev, put_backs n (mkC s ev) = Some (tt, mkC s (ev ++ backs n)).
Proof.
  induction n as [|n IH]; intros ev; cbn [put_backs backs replicate]; [by rewrite app_nil_r|].
  run (kprint_eq back s ev ltac:(cbn; lia)). rewrite IH, <- app_assoc. done.
Qed.

(** *** The buffer *)

Lemma inserts_middle (a x y b : list Z) : length x = length y -> list_inserts (length a) x (a ++ y ++ b) = a ++ x ++ b.
Proof.
  intros Hl. rewrite <- (Nat.add_0_r (length a)), list_inserts_app_r. by rewrite list_inserts_0_r.
Qed.

(** A text at the beginning of the line, the rest of which is 0. *)
Definition pad (n : nat) (t : list Z) : list Z := t ++ replicate (n - length t) 0.
Lemma pad_length n t : (length t <= n)%nat -> length (pad n t) = n.
Proof. intros. unfold pad. rewrite length_app, length_replicate. lia. Qed.
Lemma pad_split n a b : (length (a ++ b) < n)%nat -> exists z, pad n (a ++ b) = a ++ b ++ 0 :: z.
Proof.
  intros H. unfold pad. destruct (n - length (a ++ b))%nat as [|k] eqn:E; [lia|]. exists (replicate k 0). by rewrite <- app_assoc.
Qed.
Lemma pad_insert n a c b : (length (a ++ b) + 1 < n)%nat ->
  exists z, pad n (a ++ b) = a ++ b ++ 0 :: 0 :: z /\ pad n (a ++ c :: b) = a ++ c :: b ++ 0 :: z.
Proof.
  intros H. unfold pad. destruct (n - length (a ++ b))%nat as [|[|k]] eqn:E; [lia|lia|]. exists (replicate k 0). rewrite <- !app_assoc. split; [done|].
  cbn [app]. do 3 f_equal. rewrite !length_app in *. cbn [length]. by replace (n - (length a + S (length b)))%nat with (S k) by lia.
Qed.

Lemma pad_drop L R : (length (L ++ R) < 80)%nat -> drop 80 (pad 81 (L ++ R)) = [0].
Proof.
  intros Hl. unfold pad. rewrite drop_app_ge by lia. rewrite drop_replicate. by replace (81 - length (L ++ R) - (80 - length (L ++ R)))%nat with 1%nat by lia.
Qed.
Lemma pad_take t : (length t < 80)%nat -> take 80 (pad 81 t) = pad 80 t.
Proof. intros Hl. unfold pad. rewrite take_app_ge, take_replicate by lia. do 2 f_equal. lia. Qed.
Lemma pad_80_0 t : (length t < 80)%nat -> pad 80 t ++ [0] = pad 81 t.
Proof. intros Hl. unfold pad. rewrite <- app_assoc. f_equal. replace (81 - length t)%nat with (80 - length t + 1)%nat by lia. by rewrite replicate_add. Qed.

Definition sh st h n rows l p c : finsh_shell := mkShell st 1 1 h n rows l p c.
Definition typed st h n rows (L R : list Z) : finsh_shell :=
  sh st h n rows (pad 81 (L ++ R)) (Z.of_nat (length (L ++ R))) (Z.of_nat (length L)).

Lemma move_eq (a x y b : list Z) s ev dst src n : line s = a ++ y ++ b -> x = take (Z.to_nat n) (drop (Z.to_nat src) (line s)) ->
  dst = Z.of_nat (length a) -> length x = length y -> 0 <= src -> n = Z.of_nat (length x) -> src + n <= Z.of_nat (length (line s)) ->
  move dst src n (mkC s ev) = Some (tt, mkC (set_line (a ++ x ++ b) s) ev).
Proof.
  intros Hl Hx -> Hlen Hsrc Hn Hb. unfold move. cbn [c_sh c_ev]. rewrite decide_True by (split; [rewrite Hl, !length_app; lia|lia]).
  rewrite <- Hx, Nat2Z.id, Hl. by rewrite inserts_middle.
Qed.
Lemma store_eq (a b : list Z) d s ev k c : line s = a ++ d :: b -> k = Z.of_nat (length a) ->
  store k c (mkC s ev) = Some (tt, mkC (set_line (a ++ c :: b) s) ev).
Proof. intros Hl ->. unfold store, on_line. cbn [c_sh c_ev]. rewrite Nat2Z.id, Hl. by rewrite wr_eq. Qed.
Lemma line_at_eq (a t b : list Z) s ev k : line s = a ++ t ++ 0 :: b -> nonzero t -> k = Z.of_nat (length a) ->
  line_at k (mkC s ev) = Some (t, mkC s ev).
Proof.
  intros Hl Ht ->. unfold line_at, on_line. cbn [c_sh c_ev]. rewrite Nat2Z.id, Hl, rdstr_eq by done. cbn [m_buf m_ev]. rewrite <- Hl. by destruct s.
Qed.
Lemma get_eq {A} (f : finsh_shell -> A) s ev : get f (mkC s ev) = Some (f s, mkC s ev).
Proof. done. Qed.
Lemma upd_eq f s ev : upd f (mkC s ev) = Some (tt, mkC (f s) ev).
Proof. done. Qed.

(** Opening a gap of one character behind the text [a], and closing it. *)
Lemma open_gap (a b z : list Z) s ev : line s = a ++ b ++ 0 :: z -> b ≠ [] ->
  exists y, move (Z.of_nat (length a) + 1) (Z.of_nat (length a)) (Z.of_nat (length (a ++ b)) - Z.of_nat (length a)) (mkC s ev) =
    Some (tt, mkC (set_line (a ++ y :: b ++ z) s) ev).
Proof.
  intros Hl Hb. destruct b as [|y b]; [done|]. exists y. replace (a ++ y :: (y :: b) ++ z) with ((a ++ [y]) ++ (y :: b) ++ z) by (by rewrite <- app_assoc).
  apply (move_eq (a ++ [y]) (y :: b) (b ++ [0]) z).
  - rewrite Hl, <- !app_assoc. done.
  - rewrite Hl, Nat2Z.id, drop_app_length, length_app. replace (Z.to_nat _) with (length (y :: b)) by lia. by rewrite take_app_length.
  - rewrite length_app. cbn [length]. lia.
  - rewrite length_app. cbn [length]. lia.
  - lia.
  - rewrite length_app. cbn [length]. lia.
  - rewrite Hl, !length_app. cbn [length]. lia.
Qed.
Lemma close_gap (a b z : list Z) x s ev : line s = a ++ x :: b ++ z -> b ≠ [] ->
  exists y, move (Z.of_nat (length a)) (Z.of_nat (length a) + 1) (Z.of_nat (length (a ++ b)) - Z.of_nat (length a)) (mkC s ev) =
    Some (tt, mkC (set_line (a ++ b ++ y :: z) s) ev).
Proof.
  intros Hl Hb. destruct (exists_last Hb) as (b' & y & ->). exists y.
  apply (move_eq a (b' ++ [y]) (x :: b') (y :: z)).
  - rewrite Hl, <- !app_assoc. done.
  - rewrite Hl. replace (Z.to_nat (Z.of_nat (length a) + 1)) with (length (a ++ [x])) by (rewrite length_app; cbn [length]; lia).
    rewrite (cons_snoc a x ((b' ++ [y]) ++ z)), drop_app_length, (length_app a). replace (Z.to_nat _) with (length (b' ++ [y])) by lia. by rewrite take_app_length.
  - done.
  - rewrite length_app. cbn [length]. lia.
  - lia.
  - repeat (rewrite length_app || cbn [length]). lia.
  - rewrite Hl. repeat (rewrite length_app || cbn [length]). lia.
Qed.
End editing.

(** Evaluation of straight-line code on a known shell. *)
Ltac exec := cbv beta iota zeta delta [mbind M_bind get gets upd modify when mret M_ret skip c_sh c_ev typed sh stat echo_mode prompt_mode current_history
  history_count cmd_history line line_position line_curpos set_line set_stat]; cbn [Z.eqb Pos.eqb negb].

Section keys.
Implicit Types (L R : list Z) (ev : list event).
Context (st : input_stat) (h n : Z) (rows : list (list Z)).

(** A row that shows a text with the cursor in it, and perhaps spaces behind it; [b] is what is
    before the text. *)
Definition at_row (b L R : list Z) (r : row) : Prop :=
  exists sp, r = (rev L ++ b, R ++ sp) /\ Forall (fun c => c = 32) sp.

(** From a row that shows one text to a row that shows another. *)
Definition redraws L R evs L' R' : Prop := forall b r r', at_row b L R r -> shows r evs r' -> at_row b L' R' r'.

Lemma good_app_nonzero L R : good_text (L ++ R) -> nonzero L /\ nonzero R /\ Forall plain L /\ Forall plain R.
Proof. intros H. pose proof (good_text_nonzero _ H) as H1. pose proof (good_text_plain _ H) as H2. apply Forall_app in H1, H2. tauto. Qed.

Lemma tail_spaces sp : Forall (fun c => c = 32) sp -> forall k, Forall (fun c => c = 32) (drop k sp).
Proof. intros H k. by apply Forall_drop. Qed.

Lemma rev_cons_app (c : Z) L b : rev (L ++ [c]) ++ b = c :: rev L ++ b.
Proof. by rewrite rev_app_distr. Qed.

Lemma u16_length L : (length L < 100)%nat -> u16 (Z.of_nat (length L)) = Z.of_nat (length L).
Proof. intros. apply wrap_small. change (2 ^ 16) with 65536. lia. Qed.

Lemma typed_at L R L' R' p c : (length (L' ++ R') < 100)%nat -> p = Z.of_nat (length (L' ++ R')) -> c = Z.of_nat (length L') ->
  set_positions p c (sh st h n rows (pad 81 (L' ++ R')) (Z.of_nat (length (L ++ R))) (Z.of_nat (length L))) = typed st h n rows L' R'.
Proof.
  intros Hl -> ->. unfold set_positions, typed, sh. cbn [stat echo_mode prompt_mode current_history history_count cmd_history line].
  rewrite !u16_length; [done| |done]. rewrite length_app in Hl. lia.
Qed.

(** Redrawing the end of a line: the cursor goes back to where it was in it. *)
Lemma redraw_rest b x L R sp r' : Forall plain x -> Forall plain R -> Forall (fun c => c = 32) sp -> forall old, length old = length R ->
  shows (rev L ++ b, old ++ sp) (Print (x ++ R) :: backs (length R)) r' -> at_row b (L ++ x) R r'.
Proof.
  intros Hx HR Hsp old Hold H. inversion H as [|? ? ? ? H'|]; subst. rewrite <- (app_nil_r (x ++ R)), term_plain in H' by (by apply Forall_app).
  cbn [term] in H'. rewrite rev_app_distr, <- app_assoc in H'. apply shows_backs in H'; [|rewrite (length_app (rev R)), (length_rev R); lia].
  exists (drop (length (x ++ R)) (old ++ sp)). split; [|]. 2: { rewrite length_app, Nat.add_comm, <- drop_drop, <- Hold, drop_app_length. by apply Forall_drop. }
  rewrite H'. rewrite <- (length_rev R), drop_app_length, take_app_length, rev_involutive. by rewrite rev_app_distr, app_assoc.
Qed.

Lemma char_key_eq ch L R ev : 0 <= ch < 256 -> ch ≠ 0 -> (length (L ++ R) < 79)%nat -> plain ch -> good_text (L ++ R) ->
  exists evs, char_key ch (mkC (typed st h n rows L R) ev) = Some (tt, mkC (typed st h n rows (L ++ [ch]) R) (ev ++ evs)) /\
    redraws L R evs (L ++ [ch]) R.
Proof.
  intros Hch H0 Hl Hp Hg. destruct (good_app_nonzero _ _ Hg) as (HL & HR & HpL & HpR).
  destruct (pad_insert 81 L ch R ltac:(lia)) as (z & Epad & Epad').
  assert (Hu : u8 ch = ch) by (by apply wrap_small). assert (Hlen : length (L ++ R) = (length L + length R)%nat) by apply length_app.
  assert (Hpos : set_positions (Z.of_nat (length (L ++ R)) + 1) (Z.of_nat (length L) + 1)
      (mkShell st 1 1 h n rows (pad 81 (L ++ ch :: R)) (Z.of_nat (length (L ++ R))) (Z.of_nat (length L))) = typed st h n rows (L ++ [ch]) R).
  { rewrite (cons_snoc L ch R). apply (typed_at L R); rewrite !length_app; cbn [length]; lia. }
  assert (Hend : (FINSH_CMD_SIZE <=? line_position (typed st h n rows (L ++ [ch]) R)) = false).
  { apply Z.leb_gt. unfold FINSH_CMD_SIZE. cbn [line_position typed sh]. rewrite !length_app in *. cbn [length]. lia. }
  set (s' := typed st h n rows (L ++ [ch]) R) in *. clearbody s'. cbv delta [line_position] beta in Hend. unfold char_key. exec.
  rewrite (proj2 (Z.leb_gt FINSH_CMD_SIZE (Z.of_nat (length (L ++ R))))) by (unfold FINSH_CMD_SIZE; lia). exec.
  destruct (Z.ltb_spec (Z.of_nat (length L)) (Z.of_nat (length (L ++ R)))) as [Hlt|Hge].
  - edestruct (open_gap L R (0 :: z)) as [y Hmove]; [|by intros ->; cbn [length] in Hlen; lia|rewrite Hmove; clear Hmove]; [exact Epad|].
    erewrite (store_eq L (R ++ 0 :: z) y); [|done|done]. rewrite Hu. exec.
    erewrite (line_at_eq L (ch :: R) z); [|done|by constructor|done].
    rewrite kprint_eq by (cbn [length]; rewrite length_app in Hl; lia). exec.
    replace (Z.to_nat (Z.of_nat (length (L ++ R)) - Z.of_nat (length L))) with (length R) by lia.
    rewrite put_backs_eq. exec. rewrite <- Epad', Hpos, Hend.
    eexists. split; [by rewrite <- app_assoc|]. intros b r r' (sp & -> & Hsp) Hr. by apply (redraw_rest b [ch] L R sp r' ltac:(by constructor) HpR Hsp R eq_refl).
  - destruct R as [|x R]; [|cbn [length] in *; lia].
    rewrite Hu. erewrite (store_eq L (0 :: z) 0 _ _ _ ch); [|cbn [line]; by rewrite Epad|rewrite app_nil_r; done].
    exec. rewrite (kprint_eq [ch]) by (cbn; lia). exec. cbn [app] in Epad'. rewrite <- Epad', Hpos, Hend.
    eexists. split; [done|]. intros b r r' (sp & -> & Hsp) Hr. by apply (redraw_rest b [ch] L [] sp r' ltac:(by constructor) HpR Hsp [] eq_refl).
Qed.
End keys.

Section more_keys.
Implicit Types (L R : list Z) (ev : list event).
Context (st : input_stat) (h n : Z) (rows : list (list Z)).

Lemma tail_tail {A} (q : list A) : tail (tail q) = drop 2 q.
Proof. by destruct q as [|? [|? ?]]. Qed.

Lemma back_row x b L R sp r' : Forall plain R -> Forall (fun c => c = 32) sp ->
  shows (rev (L ++ [x]) ++ b, R ++ sp) (Print (back ++ R ++ text "  " ++ back) :: backs (length R + 1)) r' -> at_row b L R r'.
Proof.
  intros HR Hsp H. rewrite rev_cons_app in H. pose proof (shows_next _ _ _ _ H) as H4.
  assert (E : term (back ++ R ++ text "  " ++ back) (x :: rev L ++ b, R ++ sp) = (32 :: rev R ++ rev L ++ b, 32 :: drop 1 sp)).
  { change (back ++ R ++ text "  " ++ back) with (8 :: R ++ [32; 32; 8]).
    change (term (8 :: R ++ [32; 32; 8]) (x :: rev L ++ b, R ++ sp)) with (term (R ++ [32; 32; 8]) (rev L ++ b, x :: R ++ sp)).
    rewrite term_plain by done. set (q := drop (length R) _).
    change (term [32; 32; 8] (rev R ++ rev L ++ b, q)) with (32 :: rev R ++ rev L ++ b, 32 :: tail (tail q)). do 2 f_equal. unfold q.
    rewrite tail_tail, drop_drop. replace (length R + 2)%nat with (S (length R + 1)) by lia. cbn [drop].
    by rewrite <- drop_drop, drop_app_length. }
  rewrite E in H4. clear E H. apply shows_backs in H4; [|cbn [length]; rewrite (length_app (rev R)), (length_rev R); lia].
  exists (32 :: 32 :: drop 1 sp). split; [|by repeat constructor; apply Forall_drop]. rewrite H4, Nat.add_1_r. cbn [drop take rev].
  rewrite <- (length_rev R), drop_app_length, take_app_length, rev_involutive. by rewrite <- app_assoc.
Qed.

Lemma back_end x b L sp r' : Forall (fun c => c = 32) sp ->
  shows (rev (L ++ [x]) ++ b, sp) [Print (back ++ text " " ++ back)] r' -> at_row b L [] r'.
Proof.
  intros Hsp H. rewrite rev_cons_app in H. apply shows_one in H.
  change (term (back ++ text " " ++ back) (x :: rev L ++ b, sp)) with (rev L ++ b, 32 :: sp) in H.
  exists (32 :: sp). split; [done|by constructor].
Qed.

Lemma backspace_eq x L R ev : good_text ((L ++ [x]) ++ R) ->
  exists evs, backspace_key (mkC (typed st h n rows (L ++ [x]) R) ev) = Some (tt, mkC (typed st h n rows L R) (ev ++ evs)) /\
    redraws (L ++ [x]) R evs L R.
Proof.
  intros Hg. destruct (good_app_nonzero _ _ Hg) as (HL & HR & HpL & HpR). pose proof (proj1 Hg) as Hlen.
  assert (Hl : length ((L ++ [x]) ++ R) = (length L + 1 + length R)%nat) by (by rewrite !length_app).
  assert (Hlr : length (L ++ R) = (length L + length R)%nat) by apply length_app. assert (Hlx : length (L ++ [x]) = (length L + 1)%nat) by apply length_app.
  assert (Hs1 : set_positions (Z.of_nat (length ((L ++ [x]) ++ R)) - 1) (Z.of_nat (length (L ++ [x])) - 1)
      (mkShell st 1 1 h n rows (pad 81 ((L ++ [x]) ++ R)) (Z.of_nat (length ((L ++ [x]) ++ R))) (Z.of_nat (length (L ++ [x])))) =
      mkShell st 1 1 h n rows (pad 81 ((L ++ [x]) ++ R)) (Z.of_nat (length (L ++ R))) (Z.of_nat (length L))).
  { unfold set_positions. cbn [stat echo_mode prompt_mode current_history history_count cmd_history line].
    replace (Z.of_nat (length ((L ++ [x]) ++ R)) - 1) with (Z.of_nat (length (L ++ R))) by lia.
    replace (Z.of_nat (length (L ++ [x])) - 1) with (Z.of_nat (length L)) by lia. by rewrite !u16_length by lia. }
  destruct (pad_insert 81 L x R ltac:(lia)) as (z & Epad & Ez). rewrite (cons_snoc L x R) in Ez.
  unfold backspace_key. exec. rewrite (proj2 (Z.eqb_neq (Z.of_nat (length (L ++ [x]))) 0)) by lia. exec. rewrite Hs1. exec.
  destruct (Z.ltb_spec (Z.of_nat (length L)) (Z.of_nat (length (L ++ R)))) as [Hlt|Hge].
  - edestruct (close_gap L R (0 :: z) x) as [y Hmove]; [|by intros ->; cbn [length] in Hlr; lia|rewrite Hmove; clear Hmove]; [exact Ez|]. exec.
    erewrite (store_eq (L ++ R) (0 :: z) y); [|cbn [line]; by rewrite <- app_assoc|done]. exec. rewrite <- app_assoc.
    erewrite (line_at_eq L R (0 :: z)); [|done|done|done].
    rewrite kprint_eq by (change (back ++ R ++ text "  " ++ back) with (8 :: R ++ [32; 32; 8]); cbn [length]; rewrite length_app; cbn [length]; lia).
    replace (Z.to_nat (Z.of_nat (length (L ++ R)) - Z.of_nat (length L) + 1)) with (length R + 1)%nat by lia.
    rewrite put_backs_eq, <- Epad. eexists. split; [by rewrite <- app_assoc|]. intros b r r' (sp & -> & Hsp) Hr. by apply (back_row x b L R sp).
  - destruct R as [|y R]; [|cbn [length] in *; lia]. rewrite kprint_eq by (vm_compute; lia).
    erewrite (store_eq L (0 :: z) x); [|cbn [line]; by rewrite Ez|rewrite app_nil_r; done]. exec. cbn [app] in Epad. rewrite <- Epad.
    eexists. split; [done|]. intros b r r' (sp & -> & Hsp) Hr. by apply (back_end x b L sp).
Qed.

Lemma left_eq x L R ev : good_text ((L ++ [x]) ++ R) ->
  exists evs, left_key (mkC (typed st h n rows (L ++ [x]) R) ev) = Some (tt, mkC (typed st h n rows L (x :: R)) (ev ++ evs)) /\
    redraws (L ++ [x]) R evs L (x :: R).
Proof.
  intros Hg. pose proof (proj1 Hg) as Hlen. assert (Hlx : length (L ++ [x]) = (length L + 1)%nat) by apply length_app.
  unfold left_key. exec. rewrite (proj2 (Z.eqb_neq (Z.of_nat (length (L ++ [x]))) 0)) by lia. exec.
  rewrite kprint_eq by (cbn; lia). exec. rewrite <- (cons_snoc L x R) in *. rewrite length_app in Hlen. cbn [length] in Hlen.
  replace (Z.of_nat (length (L ++ [x])) - 1) with (Z.of_nat (length L)) by lia. exists [Print back]. split.
  - do 3 f_equal. unfold set_positions. cbn [stat echo_mode prompt_mode current_history history_count cmd_history line].
    rewrite !u16_length by (rewrite ?length_app; cbn [length]; lia). done.
  - intros b r r' (sp & -> & Hsp) Hr. apply shows_one in Hr. subst r'. rewrite rev_cons_app. by exists sp.
Qed.

Lemma right_eq x L R ev : good_text (L ++ x :: R) ->
  exists evs, right_key (mkC (typed st h n rows L (x :: R)) ev) = Some (tt, mkC (typed st h n rows (L ++ [x]) R) (ev ++ evs)) /\
    redraws L (x :: R) evs (L ++ [x]) R.
Proof.
  intros Hg. destruct (good_app_nonzero _ _ Hg) as (_ & _ & _ & HpR). pose proof (proj1 Hg) as Hlen. rewrite length_app in Hlen. cbn [length] in Hlen.
  destruct (pad_split 81 L (x :: R) ltac:(rewrite length_app; cbn [length]; lia)) as (z & Ez).
  unfold right_key. exec. rewrite (proj2 (Z.ltb_lt (Z.of_nat (length L)) (Z.of_nat (length (L ++ x :: R))))) by (rewrite length_app; cbn [length]; lia).
  exec. unfold on_line. cbn [c_sh c_ev line]. rewrite Nat2Z.id, Ez. cbn [app]. rewrite rd_eq. exec. rewrite kprint_eq by (cbn; lia). exec.
  exists [Print [x]]. split.
  - do 3 f_equal. rewrite <- (cons_snoc L x R). cbn [app] in Ez. rewrite Ez. unfold set_positions.
    cbn [stat echo_mode prompt_mode current_history history_count cmd_history line].
    replace (Z.of_nat (length L) + 1) with (Z.of_nat (length (L ++ [x]))) by (rewrite length_app; cbn [length]; lia).
    rewrite !u16_length by (rewrite ?length_app; cbn [length]; lia). done.
  - intros b r r' (sp & -> & Hsp) Hr. apply shows_one in Hr. subst r'. exists sp. split; [|done].
    rewrite <- (app_nil_r [x]), term_plain by (constructor; [by inversion HpR|done]). cbn [app rev length drop term]. by rewrite rev_cons_app.
Qed.
End more_keys.

(** ** Recalling, completing, entering *)

Section prompt.
Implicit Types (L R t : list Z) (ev : list event).
Context (cwd : list Z) (Hcwd : (length cwd <= 170)%nat) (Hplain : Forall plain cwd).

Definition prompt : list Z := text "msh " ++ cwd ++ text ">".
Lemma prompt_plain : Forall plain prompt.
Proof. apply Forall_app. split; [apply (bool_decide_unpack _); by vm_compute|]. apply Forall_app. split; [done|]. apply (bool_decide_unpack _). by vm_compute. Qed.
Lemma prompt_length : (length prompt <= 175)%nat.
Proof. unfold prompt. rewrite !length_app. change (length (text "msh ")) with 4%nat. change (length (text ">")) with 1%nat. lia. Qed.

Lemma prompt_eq s ev : prompt_mode s = 1 -> finsh_get_prompt cwd None (mkC s ev) = Some (prompt, mkC s ev).
Proof.
  intros Hm. unfold finsh_get_prompt. run (get_eq prompt_mode s ev). rewrite Hm. cbn [Z.eqb]. unfold deref.
  change (Z.to_nat (RT_CONSOLEBUF_SIZE - 4)) with 252%nat. rewrite take_ge by lia. fold prompt. pose proof prompt_length.
  by rewrite decide_True by (change RT_CONSOLEBUF_SIZE with 256; lia).
Qed.

Lemma put_prompt_eq s ev : 37 ∉ cwd -> prompt_mode s = 1 -> put_prompt cwd None (mkC s ev) = Some (tt, mkC s (ev ++ [Print prompt])).
Proof.
  intros Hp Hm. unfold put_prompt. run (prompt_eq s ev Hm). rewrite decide_False; [apply kprint_eq; pose proof prompt_length; lia|].
  intros H. apply elem_of_app in H as [H|H]; [|apply elem_of_app in H as [H|H]; [done|]]; revert H; apply (bool_decide_unpack _); by vm_compute.
Qed.

Lemma put_prompt_line_eq s t ev : prompt_mode s = 1 -> line s = pad 81 t -> good_text t ->
  put_prompt_line cwd None (mkC s ev) = Some (tt, mkC s (ev ++ [Print (prompt ++ t)])).
Proof.
  intros Hm Hl Hg. unfold put_prompt_line. run (prompt_eq s ev Hm). pose proof (proj1 Hg). pose proof prompt_length.
  destruct (pad_split 81 [] t ltac:(cbn [app]; lia)) as (z & Ez). cbn [app] in Ez.
  rewrite (bind_some _ _ _ _ _ (line_at_eq [] t z s ev 0 (eq_trans Hl Ez) (good_text_nonzero t Hg) eq_refl)).
  apply kprint_eq. rewrite length_app. lia.
Qed.

(** The row shows the prompt and the text. *)
Definition displayed L R (r : row) : Prop := exists b, at_row (rev prompt ++ b) L R r.
Lemma redraws_displayed L R evs L' R' r r' : redraws L R evs L' R' -> displayed L R r -> shows r evs r' -> displayed L' R' r'.
Proof. intros H [b Hb] Hr. exists b. by apply (H _ r). Qed.

Lemma prompt_shown t b sp r' : good_text t -> Forall (fun c => c = 32) sp -> shows (b, sp) [Print (prompt ++ t)] r' -> displayed t [] r'.
Proof.
  intros Hg Hsp H. apply shows_one in H. subst r'. exists b, (drop (length (prompt ++ t)) sp). split; [|by apply Forall_drop].
  rewrite <- (app_nil_r (prompt ++ t)), term_plain by (apply Forall_app; split; [apply prompt_plain|by apply good_text_plain]).
  cbn [term app]. by rewrite rev_app_distr, <- app_assoc, app_nil_r.
Qed.
Lemma erased r : exists sp, term erase r = ([], sp) /\ Forall (fun c => c = 32) sp.
Proof.
  destruct r as [b a]. exists (rev (replicate (length b) 32) ++ []). split; [done|]. rewrite app_nil_r. apply Forall_rev. by apply Forall_replicate.
Qed.

Context (st : input_stat) (h n : Z) (rows : list (list Z)).

Lemma recall_eq L R t i ev : good_text (L ++ R) -> good_text t -> rows !! Z.to_nat i = Some (pad 80 t) ->
  recall cwd None i (mkC (typed st h n rows L R) ev) = Some (tt, mkC (typed st h n rows t []) (ev ++ [Print erase; Print (prompt ++ t)])).
Proof.
  intros Hg Ht Hrow. pose proof (proj1 Hg) as Hl. pose proof (proj1 Ht) as Hlt. unfold recall. exec. unfold deref. exec. rewrite Hrow.
  change (Z.to_nat FINSH_CMD_SIZE) with 80%nat. rewrite pad_drop, pad_80_0 by done. exec.
  destruct (pad_split 81 [] t ltac:(cbn [app]; lia)) as (z & Ez). cbn [app] in Ez.
  erewrite (line_at_eq [] t z); [|cbn [line app]; by rewrite Ez|by apply good_text_nonzero|done].
  unfold shell_handle_history. exec. rewrite kprint_eq by (cbn; lia).
  assert (Hs : set_positions (Z.of_nat (length t)) (Z.of_nat (length t)) (mkShell st 1 1 h n rows (pad 81 t) (Z.of_nat (length (L ++ R))) (Z.of_nat (length L)))
    = typed st h n rows t []).
  { unfold set_positions, typed, sh. cbn [stat echo_mode prompt_mode current_history history_count cmd_history line].
    by rewrite app_nil_r, !u16_length by lia. }
  rewrite Hs, (put_prompt_line_eq _ t); [by rewrite <- app_assoc|done|unfold typed, sh; cbn [line]; by rewrite app_nil_r|done].
Qed.
Lemma recall_shown t r r' : good_text t -> shows r [Print erase; Print (prompt ++ t)] r' -> displayed t [] r'.
Proof. intros Ht H. apply shows_next in H. destruct (erased r) as (sp & E & Hsp). rewrite E in H. by apply (prompt_shown t [] sp). Qed.
End prompt.

Section history.
Implicit Types (L R t : list Z) (ev : list event) (rows hist : list (list Z)).

(** The rows hold the lines entered before. *)
Definition hist_rep rows hist : Prop := length rows = 5%nat /\ (length hist <= 5)%nat /\
  forall i t, hist !! i = Some t -> rows !! i = Some (pad 80 t) /\ good_text t /\ t ≠ [].

Lemma pad_inj a b : good_text a -> good_text b -> pad 80 a = pad 80 b -> a = b.
Proof.
  intros Ha Hb E. destruct (pad_split 80 [] a ltac:(cbn [app]; apply Ha)) as (za & Ea), (pad_split 80 [] b ltac:(cbn [app]; apply Hb)) as (zb & Eb).
  cbn [app] in *. assert (cstr (a ++ 0 :: za) = cstr (b ++ 0 :: zb)) as Hc by congruence.
  rewrite !cstr_app in Hc by (by apply good_text_nonzero). by injection Hc.
Qed.

Lemma history_differs_eq rows hist L R st h n ev i u : hist_rep rows hist -> good_text (L ++ R) -> hist !! Z.to_nat i = Some u ->
  history_differs i (mkC (typed st h n rows L R) ev) = Some (negb (bool_decide (u = L ++ R)), mkC (typed st h n rows L R) ev).
Proof.
  intros (_ & _ & Hr) Ht Hu. destruct (Hr _ _ Hu) as (Hrow & Hgu & _). unfold history_differs. exec. unfold deref. exec. rewrite Hrow. exec.
  change (Z.to_nat FINSH_CMD_SIZE) with 80%nat. rewrite pad_take by apply Ht. do 3 f_equal.
  apply bool_decide_ext. split; [by apply pad_inj|by intros ->].
Qed.

Lemma history_put_eq rows t st h n ev i L R : good_text (L ++ R) -> t = L ++ R -> i < Z.of_nat (length rows) ->
  history_put i (mkC (typed st h n rows L R) ev) = Some (tt, mkC (typed st h n (<[Z.to_nat i := pad 80 t]> rows) L R) ev).
Proof.
  intros Hg -> Hi. pose proof (proj1 Hg) as Hl. unfold history_put. exec. rewrite decide_True by (split; [unfold FINSH_CMD_SIZE; lia|done]).
  unfold set_cmd_history, FINSH_CMD_SIZE. do 3 f_equal. cbn [stat echo_mode prompt_mode current_history history_count line line_position line_curpos].
  f_equal. f_equal. rewrite Nat2Z.id. unfold pad at 1. rewrite take_app_length. unfold pad. do 2 f_equal. lia.
Qed.

Lemma history_shift_eq (a b c d e : list Z) : history_shift [a; b; c; d; e] = [b; c; d; e; e].
Proof. done. Qed.

Lemma five {A} (l : list A) : length l = 5%nat -> exists a b c d e, l = [a; b; c; d; e].
Proof. intros H. do 5 (destruct l as [|? l]; [done|]). destruct l; [|done]. by eexists _, _, _, _, _. Qed.

(** Entering a line shifts the rows when all five are in use. *)
Lemma hist_rep_shift rows hist t : hist_rep rows hist -> length hist = 5%nat -> good_text t -> t ≠ [] ->
  hist_rep (<[4%nat := pad 80 t]> (history_shift rows)) (drop 1 hist ++ [t]).
Proof.
  intros (H5 & _ & Hr) Hh Ht Hne. destruct (five rows H5) as (a & b & c & d & e & ->), (five hist Hh) as (a' & b' & c' & d' & e' & ->).
  rewrite history_shift_eq. cbn [drop app]. split; [done|]. split; [cbn; lia|].
  pose proof (Hr 1%nat _ eq_refl) as H1. pose proof (Hr 2%nat _ eq_refl) as H2. pose proof (Hr 3%nat _ eq_refl) as H3. pose proof (Hr 4%nat _ eq_refl) as H4.
  cbn in H1, H2, H3, H4. intros i u Hu. do 4 (destruct i as [|i]; [cbn in Hu |- *; injection Hu as <-; done|]).
  destruct i as [|i]; [|done]. cbn in Hu |- *. by injection Hu as <-.
Qed.
Lemma hist_rep_add rows hist t : hist_rep rows hist -> (length hist < 5)%nat -> good_text t -> t ≠ [] ->
  hist_rep (<[length hist := pad 80 t]> rows) (hist ++ [t]).
Proof.
  intros (H5 & Hle & Hr) Hh Ht Hne. split; [by rewrite length_insert|]. split; [rewrite length_app; cbn; lia|].
  intros i u Hu. apply lookup_app_Some in Hu as [Hu|[Hge Hu]].
  - destruct (Hr _ _ Hu) as (Hrow & ?). split; [|done]. rewrite list_lookup_insert_ne; [done|]. apply lookup_lt_Some in Hu. lia.
  - destruct (i - length hist)%nat as [|k] eqn:E; [|done]. injection Hu as <-. replace i with (length hist) by lia.
    split; [|done]. apply list_lookup_insert_eq. lia.
Qed.

Lemma last_at {A} (l : list A) n : length l = S n -> last l = l !! n.
Proof. intros H. rewrite last_lookup, H. done. Qed.

Lemma u16_nat n : (n < 100)%nat -> u16 (Z.of_nat n) = Z.of_nat n.
Proof. intros. apply wrap_small. change (2 ^ 16) with 65536. lia. Qed.

Lemma push_rows_eq rows hist L R st h ev : hist_rep rows hist -> good_text (L ++ R) -> L ++ R ≠ [] ->
  let hist' := remember (L ++ R) hist in
  exists rows' h', push_rows (Z.of_nat (length hist)) (mkC (typed st h (Z.of_nat (length hist)) rows L R) ev) =
    Some (tt, mkC (typed st h' (Z.of_nat (length hist')) rows' L R) ev) /\ hist_rep rows' hist'.
Proof.
  intros Hrep Hg Hne hist'. pose proof Hrep as (H5 & Hle & _). unfold push_rows.
  destruct (Z.leb_spec FINSH_HISTORY_LINES (Z.of_nat (length hist))) as [Hn|Hn]; unfold FINSH_HISTORY_LINES in Hn.
  - assert (Hl : length hist = 5%nat) by lia. destruct (hist !! 4%nat) as [u|] eqn:Eu; [|apply lookup_ge_None in Eu; lia].
    run (history_differs_eq rows hist L R st h (Z.of_nat (length hist)) ev (FINSH_HISTORY_LINES - 1) u Hrep Hg Eu).
    unfold hist', remember. rewrite (last_at hist 4 Hl), Eu. case_bool_decide as Hu; cbn [negb when].
    + subst u. rewrite decide_True by (by right). by exists rows, h.
    + rewrite decide_False by (intros [?|[= ?]]; done). rewrite decide_True by lia.
      exists (<[4%nat := pad 80 (L ++ R)]> (history_shift rows)), h. split; [|by apply hist_rep_shift].
      run (upd_eq (fun s => set_cmd_history (history_shift (cmd_history s)) s) (typed st h (Z.of_nat (length hist)) rows L R) ev).
      change (set_cmd_history _ _) with (typed st h (Z.of_nat (length hist)) (history_shift rows) L R).
      run (history_put_eq (history_shift rows) (L ++ R) st h (Z.of_nat (length hist)) ev (FINSH_HISTORY_LINES - 1) L R Hg eq_refl
        ltac:(destruct (five rows H5) as (a & b & c & d & e & ->); by vm_compute)).
      rewrite upd_eq. do 3 f_equal. unfold set_history_count, typed, sh. cbn [stat echo_mode prompt_mode current_history cmd_history line line_position line_curpos].
      f_equal. rewrite length_app, length_drop, Hl. done.
  - assert (Hd : exists d, (if Z.of_nat (length hist) =? 0 then mret true else history_differs (Z.of_nat (length hist) - 1))
        (mkC (typed st h (Z.of_nat (length hist)) rows L R) ev) = Some (d, mkC (typed st h (Z.of_nat (length hist)) rows L R) ev) /\
        (d = false <-> last hist = Some (L ++ R))).
    { destruct (length hist) as [|m] eqn:El.
      - exists true. split; [done|]. apply nil_length_inv in El. by subst hist.
      - rewrite (last_at hist m El). destruct (hist !! m) as [u|] eqn:Eu; [|apply lookup_ge_None in Eu; lia].
        rewrite (proj2 (Z.eqb_neq _ 0)) by lia. exists (negb (bool_decide (u = L ++ R))). split.
        + apply (history_differs_eq rows hist); [done|done|]. by replace (Z.to_nat (Z.of_nat (S m) - 1)) with m by lia.
        + rewrite negb_false_iff, bool_decide_eq_true. split; [by intros ->|by intros [= ->]]. }
    destruct Hd as (d & Hrun & Hd). run Hrun. unfold hist', remember. destruct d; cbn [when].
    + rewrite decide_False by (intros [?|?]; [done|by apply Hd in H]). rewrite decide_False by lia.
      run (upd_eq (set_current_history (Z.of_nat (length hist))) (typed st h (Z.of_nat (length hist)) rows L R) ev).
      change (set_current_history _ _) with (typed st (u16 (Z.of_nat (length hist))) (Z.of_nat (length hist)) rows L R).
      exists (<[length hist := pad 80 (L ++ R)]> rows), (u16 (Z.of_nat (length hist))). split; [|by apply hist_rep_add; (lia || done)].
      run (history_put_eq rows (L ++ R) st (u16 (Z.of_nat (length hist))) (Z.of_nat (length hist)) ev (Z.of_nat (length hist)) L R Hg eq_refl ltac:(lia)).
      rewrite upd_eq. do 3 f_equal. unfold set_history_count, typed, sh. cbn [stat echo_mode prompt_mode current_history cmd_history line line_position line_curpos].
      rewrite Nat2Z.id. f_equal. rewrite length_app. cbn [length]. replace (Z.of_nat (length hist) + 1) with (Z.of_nat (length hist + 1)) by lia. apply u16_nat. lia.
    + rewrite decide_True by (right; by apply Hd). by exists rows, h.
Qed.

(** What has been entered is remembered. *)
Lemma push_history_eq rows hist L R st h ev : hist_rep rows hist -> good_text (L ++ R) ->
  let hist' := remember (L ++ R) hist in
  exists rows', shell_push_history (mkC (typed st h (Z.of_nat (length hist)) rows L R) ev) =
    Some (tt, mkC (typed st (Z.of_nat (length hist')) (Z.of_nat (length hist')) rows' L R) ev) /\ hist_rep rows' hist'.
Proof.
  intros Hrep Hg hist'. assert (Hpush : exists rows' h',
      (when (negb (Z.of_nat (length (L ++ R)) =? 0)) (n ← get history_count; push_rows n))
        (mkC (typed st h (Z.of_nat (length hist)) rows L R) ev) = Some (tt, mkC (typed st h' (Z.of_nat (length hist')) rows' L R) ev) /\ hist_rep rows' hist').
  { destruct (decide (L ++ R = [])) as [E|Hne].
    - exists rows, h. unfold hist', remember. rewrite E, decide_True by (by left). done.
    - rewrite (proj2 (Z.eqb_neq _ 0)) by (intros H; apply Hne, nil_length_inv; lia). exact (push_rows_eq rows hist L R st h ev Hrep Hg Hne). }
  destruct Hpush as (rows' & h' & Hrun & Hrep'). exists rows'. split; [|done].
  unfold shell_push_history. run (get_eq line_position (typed st h (Z.of_nat (length hist)) rows L R) ev).
  rewrite (bind_some _ _ _ tt (mkC (typed st h' (Z.of_nat (length hist')) rows' L R) ev)); [|exact Hrun]. rewrite upd_eq. do 3 f_equal. unfold set_current_history, typed, sh.
  cbn [stat echo_mode prompt_mode history_count cmd_history line line_position line_curpos]. f_equal. apply u16_nat.
  destruct Hrep' as (_ & ? & _). lia.
Qed.
End history.

Section completing.
Implicit Types (L R t : list Z) (ev : list event) (names : list (list Z)).

Lemma lcp_snoc p names m : is_lcp p names -> is_lcp (take (str_common p m) p) (names ++ [m]).
Proof.
  intros [Hall Hmax]. destruct (str_common_le p m) as [Hle Hpre]. split.
  - apply Forall_app. split; [|by constructor]. eapply Forall_impl; [exact Hall|]. intros n Hn. cbn in Hn.
    etrans; [|exact Hn]. exists (drop (str_common p m) p). by rewrite take_drop.
  - intros q Hq. apply Forall_app in Hq as [Hq Hqm]. inversion Hqm as [|? ? Hm _]. specialize (Hmax q Hq).
    apply prefix_of_take; [done|]. by apply str_common_prefix.
Qed.
Lemma lcp_is_lcp names : names ≠ [] -> is_lcp (lcp names) names.
Proof.
  destruct names as [|n names]; [done|]. intros _. cbn [lcp].
  assert (H : forall p seen, is_lcp p seen -> is_lcp (foldl (fun p m => take (str_common p m) p) p names) (seen ++ names)).
  { induction names as [|m names IH]; intros p seen Hp; cbn [foldl]; [by rewrite app_nil_r|].
    rewrite (cons_snoc seen m names). apply IH. by apply lcp_snoc. }
  apply (H n [n]). split; [by constructor|]. intros q Hq. by inversion Hq.
Qed.
Lemma is_lcp_unique p q names : is_lcp p names -> is_lcp q names -> p = q.
Proof.
  intros [Hp Hpm] [Hq Hqm]. apply prefix_length_eq; [by apply Hqm|]. apply prefix_length. by apply Hpm.
Qed.

Context (syscalls : list finsh_syscall) (malloc : Z -> bool) (opendir : list Z -> option (list (list Z))) (cwd : list Z).
Context (Hnames : Forall good_text (commands syscalls)).

Lemma matches_good t : Forall (fun n => t `prefix_of` n /\ good_text n) (matches t syscalls).
Proof.
  apply Forall_forall. intros n Hn. unfold matches in Hn. apply list_elem_of_In, filter_In in Hn as [Hin Hp].
  split; [by apply bool_decide_eq_true in Hp|]. rewrite Forall_forall in Hnames. apply Hnames. by apply list_elem_of_In.
Qed.

Lemma good_text_prefix p n : p `prefix_of` n -> good_text n -> good_text p.
Proof.
  intros [k ->] [Hl H]. split; [rewrite length_app in Hl; lia|]. by apply Forall_app in H as [? _].
Qed.

Lemma completed_good t : good_text t -> good_text (completed syscalls t).
Proof.
  intros Ht. unfold completed. destruct (decide _) as [|Hn]; [done|]. destruct (matches t syscalls) as [|n ns] eqn:E; [by destruct Hn; right|].
  pose proof (matches_good t) as Hm. rewrite E in Hm. apply Forall_cons in Hm as [[_ Hn'] _].
  destruct (lcp_is_lcp (n :: ns) ltac:(done)) as [Hall _]. apply Forall_cons in Hall as [Hp _]. by apply (good_text_prefix _ n).
Qed.

Lemma shows_newline l r evs r' : Forall plain l -> shows r (Print (l ++ newline) :: evs) r' -> shows ([], []) evs r'.
Proof. intros Hl H. apply shows_next in H. destruct r as [b a]. by rewrite term_plain in H. Qed.

Lemma matches_shown t r' : shows ([], []) (match_event <$> matches t syscalls) r' -> r' = ([], []).
Proof.
  pose proof (matches_good t) as Hm. induction Hm as [|n ns [_ Hn] _ IH]; intros H; [by inversion H|].
  cbn [fmap list_fmap] in H. apply IH. apply (shows_newline n ([], []) _ r' (good_text_plain n Hn)). unfold match_event in H at 1.
  rewrite take_ge in H; [done|]. rewrite length_app. destruct Hn. change (Z.to_nat (RT_CONSOLEBUF_SIZE - 1)) with 255%nat. cbn [length newline]. lia.
Qed.

Lemma msh_help_eq b ev : exists evs, msh_help syscalls (mkMsh b ev) = Some (tt, mkMsh b (ev ++ evs ++ [Print newline])).
Proof.
  unfold msh_help. run (kputs_eq (text "RT-Thread shell commands:" ++ newline) (mkMsh b ev)). cbn [m_buf m_ev].
  set (e := [Print _]). assert (Hfold : forall l ev0, exists evs, foldr (fun index rest =>
      (if is_cmd (name index) then kputs (cmd_name (name index) ++ repeat 32 (16 - length (cmd_name (name index))) ++ text " - " ++ desc index ++ newline)
       else mret tt) ;; rest) (mret tt) l (mkMsh b ev0) = Some (tt, mkMsh b (ev0 ++ evs))).
  { induction l as [|index l IH]; intros ev0; cbn [foldr]; [exists []; by rewrite app_nil_r|]. destruct (is_cmd (name index)).
    - run (kputs_eq (cmd_name (name index) ++ repeat 32 (16 - length (cmd_name (name index))) ++ text " - " ++ desc index ++ newline) (mkMsh b ev0)).
      cbn [m_buf m_ev]. destruct (IH (ev0 ++ [Print (take (Z.to_nat (RT_CONSOLEBUF_SIZE - 1)) (cmd_name (name index) ++ repeat 32 (16 - length (cmd_name (name index))) ++ text " - " ++ desc index ++ newline))])) as [evs ->].
      eexists. by rewrite <- app_assoc.
    - rewrite (bind_some _ _ _ tt (mkMsh b ev0)) by done. apply IH. }
  destruct (Hfold syscalls (ev ++ e)) as [evs Hrun]. cbv zeta. run Hrun. rewrite kputs_eq. cbn [m_buf m_ev]. exists (e ++ evs).
  by rewrite <- !app_assoc.
Qed.

Lemma auto_complete_line t ev : good_text t -> 32 ∉ t -> exists evs,
  msh_auto_complete syscalls malloc opendir cwd 0 (mkMsh (pad 81 t) ev) = Some (tt, mkMsh (pad 81 (completed syscalls t)) (ev ++ evs)) /\
  forall r', shows ([], []) evs r' -> r' = ([], []).
Proof.
  intros Ht Hsp. pose proof (proj1 Ht) as Hlen. pose proof (good_text_nonzero t Ht) as Hnz.
  destruct (pad_split 81 [] t ltac:(cbn [app]; lia)) as (z & Ez). cbn [app] in Ez. destruct (decide (t = [])) as [->|Hne].
  - destruct (msh_help_eq (pad 81 []) ev) as [evs E]. exists (evs ++ [Print newline]). unfold completed. rewrite decide_True by (by left). split.
    + unfold msh_auto_complete. pose proof (rdstr_eq [] [] (replicate 80 0) ev ltac:(done)) as Hrd. cbn [length app] in Hrd.
      change (pad 81 []) with (0 :: replicate 80 0) in *. run Hrd. exact E.
    + intros r' H. apply shows_app in H as (r1 & _ & H). apply (shows_newline []) in H; [by inversion H|done].
  - destruct (auto_complete_eq syscalls malloc opendir cwd t z ev Hne Hnz Hsp) as (buf & Hrun & Hbuf).
    { eapply Forall_impl; [apply matches_good|]. intros n [_ [Hn _]]. rewrite <- Ez, pad_length by lia. lia. }
    exists (match_event <$> matches t syscalls). split; [|apply matches_shown]. rewrite Ez, Hrun. do 3 f_equal.
    pose proof (matches_good t) as Hm. unfold completed. destruct (matches t syscalls) as [|n ns].
    { rewrite decide_True by (by right). by rewrite Hbuf, Ez. }
    rewrite decide_False by (by intros [?|?]). destruct Hbuf as (p & Hp & ->). pose proof (lcp_is_lcp (n :: ns) ltac:(done)) as Hlcp.
    rewrite <- (is_lcp_unique p _ _ Hp Hlcp). assert (Htp : t `prefix_of` p).
    { apply Hp. eapply Forall_impl; [exact Hm|]. by intros m [? _]. }
    assert (Hpl : (length p < 80)%nat). { destruct Hp as [Hall _]. apply Forall_cons in Hall as [Hpn _]. apply prefix_length in Hpn.
      apply Forall_cons in Hm as [[_ [Hn _]] _]. lia. }
    rewrite <- Ez. apply prefix_length in Htp. unfold pad. rewrite drop_app_ge by lia. rewrite drop_replicate. do 2 f_equal. lia.
Qed.
End completing.

Section session.
Implicit Types (L R t : list Z) (ev : list event) (rows hist : list (list Z)).
Context (syscalls : list finsh_syscall) (result : Z -> list nat -> list Z -> Z).
Context (open : list Z -> option (list Z)) (malloc : Z -> bool) (fresh : list Z) (depth : nat).
Context (opendir : list Z -> option (list (list Z))) (cwd : list Z).
Context (Hcwd : (length cwd <= 170)%nat) (Hplain : Forall plain cwd) (Hpercent : 37 ∉ cwd).
Context (Htable : Forall (fun index => nonzero (name index)) syscalls) (Hnames : Forall good_text (commands syscalls)).

Lemma on_line_eq {A} (m : M msh A) s ev (r : A) b e : m (mkMsh (line s) ev) = Some (r, mkMsh b e) ->
  on_line m (mkC s ev) = Some (r, mkC (set_line b s) e).
Proof. intros H. unfold on_line. cbn [c_sh c_ev]. by rewrite H. Qed.

Lemma typed_text st h n rows t L R : L ++ R = t -> line (typed st h n rows L R) = pad 81 t.
Proof. by intros <-. Qed.

Lemma tab_key_eq st h n rows L R ev : good_text (L ++ R) -> 32 ∉ L ++ R ->
  exists evs, tab_key syscalls malloc opendir cwd None (mkC (typed st h n rows L R) ev) =
      Some (tt, mkC (typed st h n rows (completed syscalls (L ++ R)) []) (ev ++ evs)) /\
    forall r r', shows r evs r' -> displayed cwd (completed syscalls (L ++ R)) [] r'.
Proof.
  intros Hg Hsp. set (t := L ++ R) in *. set (t' := completed syscalls t). pose proof (completed_good syscalls Hnames t Hg) as Hg'. fold t' in Hg'.
  destruct (auto_complete_line syscalls malloc opendir cwd Hnames t ((ev ++ backs (length L)) ++ [Print newline]) Hg Hsp) as (evs & Hrun & Hshow).
  fold t' in Hrun. set (s1 := set_line (pad 81 t') (typed st h n rows L R)).
  exists (backs (length L) ++ [Print newline] ++ evs ++ [Print (prompt cwd ++ t')]). split.
  - unfold tab_key. run (get_eq line_curpos (typed st h n rows L R) ev). cbn [line_curpos typed sh]. rewrite Nat2Z.id. fold (sh st h n rows (pad 81 (L ++ R))).
    change (sh st h n rows _ _ _) with (typed st h n rows L R). rewrite (bind_some _ _ _ _ _ (put_backs_eq (length L) (typed st h n rows L R) ev)).
    rewrite (bind_some _ _ _ tt (mkC s1 (((ev ++ backs (length L)) ++ [Print newline]) ++ evs ++ [Print (prompt cwd ++ t')]))).
    + destruct (pad_split 81 [] t' ltac:(cbn [app]; destruct Hg'; lia)) as (z & Ez). cbn [app] in Ez.
      run (line_at_eq [] t' z s1 (((ev ++ backs (length L)) ++ [Print newline]) ++ evs ++ [Print (prompt cwd ++ t')]) 0 Ez (good_text_nonzero t' Hg') eq_refl).
      rewrite upd_eq, <- !app_assoc. do 3 f_equal. unfold s1, set_positions, set_line, typed, sh.
      cbn [stat echo_mode prompt_mode current_history history_count cmd_history line]. destruct Hg'. by rewrite app_nil_r, !u16_length by lia.
    + unfold shell_auto_complete. run (kprint_eq newline (typed st h n rows L R) (ev ++ backs (length L)) ltac:(cbn; lia)).
      run (on_line_eq _ (typed st h n rows L R) _ _ _ _ Hrun). fold s1. rewrite (put_prompt_line_eq cwd Hcwd s1 t') by done. by rewrite app_assoc.
  - intros r r' H. apply shows_app in H as (r1 & _ & H). apply (shows_newline []) in H; [|done]. apply shows_app in H as (r2 & H2 & H).
    apply Hshow in H2. subst r2. by apply (prompt_shown cwd Hplain t' [] [] r' Hg').
Qed.

Lemma Forall_upto {A} (P : A -> Prop) f l : Forall P l -> Forall P (upto f l).
Proof. intros H. rewrite <- (upto_from f l) in H. by apply Forall_app in H as [? _]. Qed.
Lemma Forall_from {A} (P : A -> Prop) f l : Forall P l -> Forall P (from f l).
Proof. intros H. rewrite <- (upto_from f l) in H. by apply Forall_app in H as [_ ?]. Qed.
Lemma length_upto {A} f (l : list A) : (length (upto f l) <= length l)%nat.
Proof. rewrite <- (upto_from f l) at 2. rewrite length_app. lia. Qed.
Lemma length_from {A} f (l : list A) : (length (from f l) <= length l)%nat.
Proof. rewrite <- (upto_from f l) at 2. rewrite length_app. lia. Qed.

(** After a line has run the cursor is at the end of a row. *)
Lemma line_shown t evs r' : good_text t ->
  evs = [] \/ (exists warn f argv buf, evs = warn ++ [Call f argv buf]) \/ evs = [not_found t] ->
  shows ([], []) evs r' -> exists b, r' = (b, []).
Proof.
  intros Hg [->|[(warn & f & argv & buf & ->)| ->]] H.
  - exists []. by inversion H.
  - apply shows_app in H as (r1 & _ & H). inversion H as [| |? ? ? b ? ? ? H']; subst. exists b. by inversion H'.
  - exists []. unfold not_found in H. set (m := upto (fun c => c =? 32) (command t)) in *.
    assert (Hm : (length m < 80)%nat).
    { unfold m, command. pose proof (length_upto (fun c => c =? 32) (from (fun c => negb (blank c)) t)).
      pose proof (length_from (fun c => negb (blank c)) t). destruct Hg. lia. }
    rewrite take_ge in H by (rewrite length_app; change (Z.to_nat (RT_CONSOLEBUF_SIZE - 1)) with 255%nat;
      change (length (text ": command not found." ++ newline)) with 21%nat; lia).
    rewrite app_assoc in H. apply shows_newline in H; [by inversion H|]. apply Forall_app. split.
    + apply Forall_upto, Forall_from. by apply good_text_plain.
    + apply (bool_decide_unpack _). by vm_compute.
Qed.

Lemma enter_key_eq st h hist rows L R ev : hist_rep rows hist -> good_text (L ++ R) -> plain_line (L ++ R) ->
  let hist' := remember (L ++ R) hist in let n := Z.of_nat (length hist') in
  exists rows' evs, enter_key syscalls result open malloc fresh (S depth) cwd None (mkC (typed st h (Z.of_nat (length hist)) rows L R) ev) =
      Some (tt, mkC (typed st n n rows' [] []) (ev ++ evs)) /\ hist_rep rows' hist' /\
    forall r r', shows r evs r' -> displayed cwd [] [] r'.
Proof.
  intros Hrep Hg Hline hist' n. set (t := L ++ R) in *. pose proof (proj1 Hg) as Hlen.
  destruct (push_history_eq rows hist L R st h ev Hrep Hg) as (rows' & Hpush & Hrep'). fold t hist' n in Hpush, Hrep'.
  destruct (pad_split 81 [] t ltac:(cbn [app]; lia)) as (z & Ez). cbn [app] in Ez.
  destruct (plain_line_runs syscalls result open malloc fresh depth 81 t z (ev ++ [Print newline]) Htable Hline ltac:(lia)) as (r & line' & evs & Hrun & Hl' & Hends);
    [change (2 ^ 32) with 4294967296; lia|].
  set (s1 := typed st n n rows' L R) in *. set (s2 := set_line (line' ++ 0 :: z) s1).
  exists rows', ([Print newline] ++ evs ++ [Print (prompt cwd)]). split; [|split; [done|]].
  - unfold enter_key. run Hpush. run (get_eq echo_mode s1 ev). cbn [echo_mode s1 typed sh Z.eqb negb when].
    run (kprint_eq newline s1 ev ltac:(cbn; lia)). run (get_eq line_position s1 (ev ++ [Print newline])).
    assert (Hl1 : line s1 = t ++ 0 :: z) by (by rewrite <- Ez).
    rewrite <- Hl1 in Hrun. change (Z.to_nat FINSH_CMD_SIZE + 1)%nat with 81%nat. change (line_position s1) with (Z.of_nat (length t)).
    run (on_line_eq _ s1 _ _ _ _ Hrun). fold s2. run (put_prompt_eq cwd Hcwd s2 ((ev ++ [Print newline]) ++ evs) Hpercent eq_refl).
    rewrite (bind_some _ _ _ tt _ (upd_eq _ _ _)), upd_eq, <- !app_assoc. done.
  - intros r0 r' H. apply (shows_newline []) in H; [|done]. apply shows_app in H as (r1 & H1 & H).
    apply (line_shown t) in H1 as [b ->]; [|done|done]. rewrite <- (app_nil_r (prompt cwd)) in H.
    apply (prompt_shown cwd Hplain [] b [] r'); [|done|done]. split; [cbn; lia|constructor].
Qed.

(** ** Refinement *)

(** The shell holds the text, the cursor and the history of an editor. *)
Definition rep (s : finsh_shell) (e : editor) : Prop := exists rows,
  s = typed (ed_stat e) (Z.of_nat (ed_pos e)) (Z.of_nat (length (ed_hist e))) rows (ed_left e) (ed_right e) /\
  good_text (ed_text e) /\ hist_rep rows (ed_hist e) /\ (ed_pos e <= length (ed_hist e))%nat.

(** The result of a key: the editor [e'], on the shell and on the terminal. *)
Definition key_result (e e' : editor) ev (r : option (unit * console)) : Prop := exists s' evs,
  r = Some (tt, mkC s' (ev ++ evs)) /\ rep s' e' /\
  forall r r', displayed cwd (ed_left e) (ed_right e) r -> shows r evs r' -> displayed cwd (ed_left e') (ed_right e') r'.

Lemma rep_recall rows e i t ev : good_text (ed_text e) -> hist_rep rows (ed_hist e) -> ed_hist e !! i = Some t ->
  key_result e (ed_recall i e) ev
    (recall cwd None (Z.of_nat i) (mkC (typed (ed_stat e) (Z.of_nat i) (Z.of_nat (length (ed_hist e))) rows (ed_left e) (ed_right e)) ev)).
Proof.
  intros Hg Hrep Hi. pose proof Hrep as (_ & _ & Hr). destruct (Hr _ _ Hi) as (Hrow & Ht & _). unfold ed_recall. rewrite Hi. cbn [default id].
  eexists _, _. split; [|split].
  - apply (recall_eq cwd Hcwd _ _ _ _ _ _ t); [done|done|by rewrite Nat2Z.id].
  - exists rows. cbn [ed_stat ed_pos ed_hist ed_left ed_right ed_text]. split; [done|]. unfold ed_text. cbn [ed_left ed_right]. rewrite app_nil_r.
    split; [done|]. split; [done|]. apply lookup_lt_Some in Hi. lia.
  - intros r r' _ H. by apply (recall_shown cwd Hplain t r r').
Qed.

Lemma set_history_typed st h n rows L R k : (k < 100)%nat ->
  set_current_history (Z.of_nat k) (typed st h n rows L R) = typed st (Z.of_nat k) n rows L R.
Proof. intros Hk. unfold set_current_history, typed, sh. cbn [stat echo_mode prompt_mode history_count cmd_history line line_position line_curpos]. by rewrite u16_nat. Qed.

Lemma key_result_same e s ev : rep s e -> key_result e e ev (Some (tt, mkC s ev)).
Proof. intros H. exists s, []. rewrite app_nil_r. split; [done|]. split; [done|]. intros r r' Hr Hs. by inversion Hs; subst. Qed.

Lemma up_eq s e ev : rep s e -> key_result e (ed_up e) ev (up_key cwd None (mkC s ev)).
Proof.
  intros (rows & -> & Hg & Hrep & Hpos). pose proof Hrep as (_ & H5 & _). unfold up_key, ed_up.
  run (get_eq current_history (typed (ed_stat e) (Z.of_nat (ed_pos e)) (Z.of_nat (length (ed_hist e))) rows (ed_left e) (ed_right e)) ev).
  cbn [current_history typed sh]. destruct (ed_pos e) as [|k] eqn:Ek.
  - change (0 <? Z.of_nat 0) with false. cbv iota. rewrite upd_eq, (set_history_typed _ _ _ _ _ _ 0) by lia. apply key_result_same.
    exists rows. by rewrite Ek.
  - change (0 <? Z.of_nat (S k)) with true. cbv iota. replace (Z.of_nat (S k) - 1) with (Z.of_nat k) by lia.
    rewrite (bind_some _ _ _ _ _ (upd_eq _ _ _)), set_history_typed by lia.
    destruct (lookup_lt_is_Some_2 (ed_hist e) k ltac:(lia)) as [t Ht]. by apply (rep_recall rows e k t).
Qed.

Lemma down_eq s e ev : rep s e -> key_result e (ed_down e) ev (down_key cwd None (mkC s ev)).
Proof.
  intros (rows & -> & Hg & Hrep & Hpos). pose proof Hrep as (_ & H5 & _). unfold down_key, ed_down.
  set (s := typed _ _ _ _ _ _). run (get_eq current_history s ev). run (get_eq history_count s ev). cbn [current_history history_count s typed sh].
  destruct (length (ed_hist e)) as [|m] eqn:Em.
  - rewrite (proj2 (Z.ltb_ge (Z.of_nat (ed_pos e)) (Z.of_nat 0 - 1))) by lia. change (negb (Z.of_nat 0 =? 0)) with false. cbv iota.
    apply key_result_same. exists rows. by rewrite Em.
  - change (negb (Z.of_nat (S m) =? 0)) with true. cbv iota. assert (Hrec : forall k, (k <= m)%nat -> key_result e (ed_recall k e) ev
        ((upd (set_current_history (Z.of_nat k)) ;; recall cwd None (Z.of_nat k)) (mkC s ev))).
    { intros k Hk. rewrite (bind_some _ _ _ _ _ (upd_eq _ _ _)). unfold s. rewrite set_history_typed by lia.
      destruct (lookup_lt_is_Some_2 (ed_hist e) k ltac:(lia)) as [t Ht]. rewrite <- Em. by apply (rep_recall rows e k t). }
    destruct (decide (ed_pos e < m)%nat) as [Hlt|Hge].
    + rewrite (proj2 (Z.ltb_lt (Z.of_nat (ed_pos e)) (Z.of_nat (S m) - 1))) by lia.
      replace (Z.of_nat (ed_pos e) + 1) with (Z.of_nat (ed_pos e + 1)) by lia. apply Hrec. lia.
    + rewrite (proj2 (Z.ltb_ge (Z.of_nat (ed_pos e)) (Z.of_nat (S m) - 1))) by lia.
      replace (Z.of_nat (S m) - 1) with (Z.of_nat m) by lia. apply Hrec. lia.
Qed.

(** A step that leaves the history and redraws the text. *)
Lemma key_result_text s e ev L R m : rep s e -> good_text (L ++ R) ->
  (forall st h n rows, exists evs, m (mkC (typed st h n rows (ed_left e) (ed_right e)) ev) = Some (tt, mkC (typed st h n rows L R) (ev ++ evs)) /\
    forall r r', displayed cwd (ed_left e) (ed_right e) r -> shows r evs r' -> displayed cwd L R r') ->
  key_result e (with_text L R e) ev (m (mkC s ev)).
Proof.
  intros (rows & -> & _ & Hrep & Hpos) Hg Hm. destruct (Hm (ed_stat e) (Z.of_nat (ed_pos e)) (Z.of_nat (length (ed_hist e))) rows) as (evs & -> & Hshow).
  eexists _, evs. split; [done|]. split; [|exact Hshow]. by exists rows.
Qed.
Lemma with_text_same e : with_text (ed_left e) (ed_right e) e = e.
Proof. by destruct e. Qed.

(** A step of the cursor keys and of the backspace key, of which [m'] is what happens. *)
Lemma key_result_redraw s e ev L R m : rep s e -> good_text (L ++ R) ->
  (forall st h n rows, exists evs, m (mkC (typed st h n rows (ed_left e) (ed_right e)) ev) = Some (tt, mkC (typed st h n rows L R) (ev ++ evs)) /\
    redraws (ed_left e) (ed_right e) evs L R) ->
  key_result e (with_text L R e) ev (m (mkC s ev)).
Proof.
  intros Hrep Hg Hm. apply key_result_text; [done|done|]. intros st h n rows. destruct (Hm st h n rows) as (evs & Hrun & Hred).
  exists evs. split; [done|]. intros r r'. by apply redraws_displayed.
Qed.

Lemma backspace_result s e ev : rep s e -> key_result e (ed_back e) ev (backspace_key (mkC s ev)).
Proof.
  intros Hrep. pose proof Hrep as (rows & Es & Hg & _). unfold ed_back. unfold ed_text in Hg.
  destruct (list_eq_nil_dec (ed_left e)) as [El|Hne].
  - replace (with_text _ _ _) with e by (rewrite El; cbn [removelast]; by rewrite <- El, with_text_same).
    assert (Hc : line_curpos s = 0) by (rewrite Es; cbn [line_curpos typed sh]; by rewrite El).
    unfold backspace_key. run (get_eq line_curpos s ev). rewrite Hc. by apply key_result_same.
  - destruct (exists_last Hne) as (L & x & El). rewrite El in *. rewrite removelast_snoc. apply key_result_redraw; [done| |].
    + destruct Hg as [Hl Hall]. rewrite !length_app in Hl. cbn [length] in Hl. rewrite <- app_assoc in Hall.
      apply Forall_app in Hall as [H1 H2]. apply Forall_app in H2 as [_ H2]. split; [rewrite length_app; lia|by apply Forall_app].
    + intros st h n rows0. rewrite El. by apply backspace_eq.
Qed.

Lemma left_result s e ev : rep s e -> key_result e (ed_go_left e) ev (left_key (mkC s ev)).
Proof.
  intros Hrep. pose proof Hrep as (rows & Es & Hg & _). unfold ed_go_left. unfold ed_text in Hg.
  destruct (list_eq_nil_dec (ed_left e)) as [El|Hne].
  - assert (Hc : line_curpos s = 0) by (rewrite Es; cbn [line_curpos typed sh]; by rewrite El). rewrite El. cbn [last].
    unfold left_key. run (get_eq line_curpos s ev). rewrite Hc. by apply key_result_same.
  - destruct (exists_last Hne) as (L & x & El). rewrite El in *. rewrite last_snoc, removelast_snoc. apply key_result_redraw; [done| |].
    + by rewrite cons_snoc.
    + intros st h n rows0. rewrite El. by apply left_eq.
Qed.

Lemma right_result s e ev : rep s e -> key_result e (ed_go_right e) ev (right_key (mkC s ev)).
Proof.
  intros Hrep. pose proof Hrep as (rows & Es & Hg & _). unfold ed_go_right. unfold ed_text in Hg.
  destruct (ed_right e) as [|x R] eqn:Er.
  - assert (Hc : (line_curpos s <? line_position s) = false).
    { apply Z.ltb_ge. rewrite Es. cbn [line_curpos line_position typed sh]. rewrite app_nil_r. lia. }
    unfold right_key. run (get_eq line_curpos s ev). run (get_eq line_position s ev). rewrite Hc. by apply key_result_same.
  - apply key_result_redraw; [done|by rewrite <- cons_snoc|]. intros st h n rows0. rewrite Er. by apply right_eq.
Qed.

Lemma insert_result ch s e ev : rep s e -> 0 <= ch < 256 -> ch ≠ 0 -> plain ch -> (length (ed_text (ed_insert ch e)) < 80)%nat ->
  key_result e (ed_insert ch e) ev (char_key ch (mkC s ev)).
Proof.
  intros Hrep Hch H0 Hp Hlen. pose proof Hrep as (rows & Es & Hg & _). unfold ed_insert, ed_text in *. cbn [ed_left ed_right with_text] in Hlen.
  assert (Hl : (length (ed_left e ++ ed_right e) < 79)%nat) by (rewrite !length_app in *; cbn [length] in Hlen; lia).
  apply key_result_redraw; [done| |].
  - destruct Hg as [_ Hall]. split; [done|]. rewrite <- app_assoc. apply Forall_app in Hall as [H1 H2]. apply Forall_app. split; [done|].
    by constructor.
  - intros st h n rows0. by apply char_key_eq.
Qed.

Lemma tab_result s e ev : rep s e -> 32 ∉ ed_text e ->
  key_result e (ed_complete syscalls e) ev (tab_key syscalls malloc opendir cwd None (mkC s ev)).
Proof.
  intros Hrep Hsp. pose proof Hrep as (rows & Es & Hg & _). apply key_result_text; [done| |].
  - rewrite app_nil_r. by apply completed_good.
  - intros st h n rows0. destruct (tab_key_eq st h n rows0 _ _ ev Hg Hsp) as (evs & Hrun & Hshow). exists evs. split; [done|]. intros r r' _. apply Hshow.
Qed.

Lemma enter_result s e ev : rep s e -> plain_line (ed_text e) ->
  key_result e (ed_enter e) ev (enter_key syscalls result open malloc fresh (S depth) cwd None (mkC s ev)).
Proof.
  intros (rows & -> & Hg & Hrep & _) Hline.
  destruct (enter_key_eq (ed_stat e) (Z.of_nat (ed_pos e)) (ed_hist e) rows (ed_left e) (ed_right e) ev Hrep Hg Hline) as (rows' & evs & Hrun & Hrep' & Hshow).
  eexists _, evs. split; [exact Hrun|]. split; [|intros r r' _; apply Hshow]. exists rows'. split; [done|]. split; [|by split].
  split; [cbn; lia|constructor].
Qed.

(** The characters that are not part of a longer key. *)
Definition char_keys (ch : Z) : T unit :=
  if (ch =? 0) || (ch =? 0xff) then skip
  else if ch =? 9 then tab_key syscalls malloc opendir cwd None
  else if (ch =? 0x7f) || (ch =? 0x08) then backspace_key
  else if (ch =? 13) || (ch =? 10) then enter_key syscalls result open malloc fresh (S depth) cwd None
  else char_key ch.

Lemma char_result ch s e ev : rep s e -> 0 <= ch < 256 -> ch ≠ 27 -> (length (ed_text (ed_char syscalls ch e)) < 80)%nat ->
  (ch = 9 -> 32 ∉ ed_text e) -> (ch = 13 \/ ch = 10 -> plain_line (ed_text e)) ->
  key_result e (ed_char syscalls ch e) ev (char_keys ch (mkC s ev)).
Proof.
  intros Hrep Hch H27 Hlen Htab Henter. unfold ed_char, char_keys in *.
  destruct (Z.eqb_spec ch 0); [by apply key_result_same|]. destruct (Z.eqb_spec ch 255); [by apply key_result_same|]. cbn [orb] in *.
  destruct (Z.eqb_spec ch 9); [by apply tab_result; auto|].
  destruct (Z.eqb_spec ch 127); cbn [orb] in *; [by apply backspace_result|]. destruct (Z.eqb_spec ch 8); [by apply backspace_result|].
  destruct (Z.eqb_spec ch 13); cbn [orb] in *; [by apply enter_result; auto|]. destruct (Z.eqb_spec ch 10); [by apply enter_result; auto|].
  by apply insert_result.
Qed.

Lemma rep_stat s e x : rep s e -> rep (set_stat x s) (with_stat x e).
Proof. intros (rows & -> & H). by exists rows. Qed.
Lemma rep_ed_stat s e : rep s e -> stat s = ed_stat e.
Proof. by intros (rows & -> & _). Qed.

Lemma finsh_key_cases ch s ev : finsh_key syscalls result open malloc fresh (S depth) opendir cwd None ch (mkC s ev) =
  match escape_key cwd None ch (mkC s ev) with
  | Some (continue, c) => (if (continue : bool) then skip else char_keys ch) c
  | None => None
  end.
Proof. unfold finsh_key, mbind, M_bind. destruct (escape_key cwd None ch (mkC s ev)) as [[[|] c]|]; done. Qed.

Lemma finsh_key_eq ch s e ev : rep s e -> key_ok syscalls ch e ->
  key_result e (ed_key syscalls ch e) ev (finsh_key syscalls result open malloc fresh (S depth) opendir cwd None ch (mkC s ev)).
Proof.
  intros Hrep (Hch & Hlen & Htab & Henter). rewrite finsh_key_cases. unfold escape_key. run (get_eq stat s ev). rewrite (rep_ed_stat s e Hrep).
  unfold ed_key in *. destruct (Z.eqb_spec ch 27) as [->|H27].
  { run (upd_eq (set_stat WAIT_SPEC_KEY) s ev). exact (key_result_same _ _ ev (rep_stat s e _ Hrep)). }
  assert (Hchar : forall e0 s0, rep s0 e0 -> ed_left e0 = ed_left e -> ed_right e0 = ed_right e -> (length (ed_text (ed_char syscalls ch e0)) < 80)%nat ->
      key_result e (ed_char syscalls ch e0) ev (char_keys ch (mkC s0 ev))).
  { intros e0 s0 H0 Hl Hr Hlen0. assert (Ht : ed_text e0 = ed_text e) by (unfold ed_text; by rewrite Hl, Hr).
    pose proof (char_result ch s0 e0 ev H0 Hch H27 Hlen0 ltac:(rewrite Ht; done) ltac:(rewrite Ht; done)) as H.
    unfold key_result in *. by rewrite Hl, Hr in H. }
  pose proof (rep_stat s e WAIT_NORMAL Hrep) as Hn.
  assert (Hcursor : forall (m : T unit) e', key_result (with_stat WAIT_NORMAL e) e' ev (m (mkC (set_stat WAIT_NORMAL s) ev)) ->
      key_result e e' ev (match (m ;; mret true : T bool) (mkC (set_stat WAIT_NORMAL s) ev) with
                          | Some (continue, c) => (if (continue : bool) then skip else char_keys ch) c | None => None end)).
  { intros m e' (s' & evs & E & H). rewrite (bind_some _ _ _ _ _ E). by exists s', evs. }
  destruct (ed_stat e) eqn:Est.
  - apply Hchar; [|done|done|done]. replace (with_stat WAIT_NORMAL e) with e; [done|]. destruct e; cbn in *. by subst.
  - destruct (Z.eqb_spec ch 0x5b).
    + run (upd_eq (set_stat WAIT_FUNC_KEY) s ev). exact (key_result_same _ _ ev (rep_stat s e _ Hrep)).
    + run (upd_eq (set_stat WAIT_NORMAL) s ev). by apply Hchar.
  - run (upd_eq (set_stat WAIT_NORMAL) s ev). destruct (Z.eqb_spec ch 0x41); [by apply Hcursor, up_eq|].
    destruct (Z.eqb_spec ch 0x42); [by apply Hcursor, down_eq|]. destruct (Z.eqb_spec ch 0x44); [by apply Hcursor, left_result|].
    destruct (Z.eqb_spec ch 0x43); [by apply Hcursor, right_result|]. by apply Hchar.
Qed.

Lemma finsh_keys_eq keys : forall s e ev, rep s e -> keys_ok syscalls keys e = true ->
  key_result e (foldl (fun e ch => ed_key syscalls ch e) e keys) ev
    (finsh_keys syscalls result open malloc fresh (S depth) opendir cwd None keys (mkC s ev)).
Proof.
  induction keys as [|ch keys IH]; intros s e ev Hrep Hok; [by apply key_result_same|]. cbn [keys_ok finsh_keys foldl] in *.
  apply andb_true_iff in Hok as [Hk Hok]. apply bool_decide_eq_true in Hk.
  destruct (finsh_key_eq ch s e ev Hrep Hk) as (s1 & evs & Hrun & Hrep1 & Hshow). run Hrun.
  destruct (IH s1 (ed_key syscalls ch e) (ev ++ evs) Hrep1 Hok) as (s2 & evs2 & Hrun2 & Hrep2 & Hshow2).
  exists s2, (evs ++ evs2). rewrite app_assoc. split; [done|]. split; [done|]. intros r r' Hr H. apply shows_app in H as (r1 & H1 & H2).
  by apply (Hshow2 r1), H2; apply (Hshow r).
Qed.

Lemma new_shell_rep : rep (set_echo_mode 1 new_shell) new_editor.
Proof.
  exists (replicate 5 (replicate 80 0)). split; [done|]. split; [split; [cbn; lia|constructor]|]. split; [|cbn; lia].
  split; [done|]. split; [cbn; lia|]. intros i t H. change (ed_hist new_editor) with (@nil (list Z)) in H. by rewrite lookup_nil in H.
Qed.

Lemma session_eq keys : keys_ok syscalls keys new_editor = true ->
  let e := foldl (fun e ch => ed_key syscalls ch e) new_editor keys in
  exists c, finsh_thread_entry syscalls result open malloc fresh (S depth) opendir cwd None keys (mkC new_shell []) = Some (tt, c) /\
    rep (c_sh c) e /\ forall r', shows ([], []) (c_ev c) r' -> displayed cwd (ed_left e) (ed_right e) r'.
Proof.
  intros Hok e. unfold finsh_thread_entry. set (s0 := set_echo_mode 1 new_shell).
  run (upd_eq (set_echo_mode 1) new_shell []). fold s0. run (put_prompt_eq cwd Hcwd s0 [] Hpercent eq_refl). cbn [app].
  destruct (finsh_keys_eq keys s0 new_editor [Print (prompt cwd)] new_shell_rep Hok) as (s' & evs & Hrun & Hrep & Hshow).
  eexists. split; [exact Hrun|]. split; [exact Hrep|]. cbn [c_ev]. intros r' H. apply shows_app in H as (r1 & H1 & H2). apply (Hshow r1); [|done].
  apply (prompt_shown cwd Hplain [] [] [] r1); [split; [cbn; lia|constructor]|constructor|]. by rewrite app_nil_r.
Qed.
End session.


(** "pps" with a letter deleted, entered; recalled by the up key; the cursor moved left, and a letter put in. *)
Definition sample_keys : list Z := text "ppp" ++ [8] ++ text "s" ++ [27; 91; 68; 8; 13] ++ [27; 91; 65; 27; 91; 68] ++ text "l".
